(* ===== verification/_CoqProject ===== *)
-Q . S2P
Prelude.v
VInt.v
RecvRecord.v
PacketBuf.v
Frames.v
FrameSpec.v
CryptoClose.v
AckFrame.v
StreamFrame.v
MpFrames.v
StreamRecv.v
StreamReset.v
Reassembly.v
ReassemblyCap.v
RecvFlow.v
CidSet.v
CidSetSpec.v
PktHeader.v
FrameLoop.v
PktHeaderSpec.v
PktProtect.v
PktProtectSpec.v
KeyUpdate.v
RingArray.v
RingMem.v
VarBuf.v
DTable.v
DTableSpec.v
DTableRefine.v
QpackInt.v
HuffmanTable.v
Huffman.v
HuffmanSpec.v
HuffmanTree.v
PrefixedStr.v
PrefixedStrSpec.v
QpackStatic.v
QpackIns.v
QpackRep.v
QpackField.v
QpackInsSpec.v
QpackRepSpec.v
QpackDecoder.v
QpackEncoder.v
Qpack.v
QpackDecSpec.v
QpackStream.v
QpackEncSpec.v
QpackRound.v
QpackReach.v
QpackExamples.v
TransParams.v
TransParamsSpec.v
TransParamsValid.v
PriorityQ.v
PriorityQSpec.v
EngineQueues.v
EngineQueuesSpec.v
TextFmt.v
H3Frame.v
H3FrameSpec.v
H3Control.v
H3ControlSpec.v
H3SettingsSpec.v
