(* ===== verification/Prelude.v ===== *)
(** * XQUIC: packets, packet protection, frames, stream reassembly, scheduling, QPACK and HTTP/3

    This library models the wire and receive core of the XQUIC transport (src/src/transport,
    the packet protection of src/src/tls, and src/src/common/utils/vint), the queues in which
    its engine keeps connections (src/src/common/xqc_priority_q.h), the compression
    of HTTP/3 fields (src/src/http3/qpack with its containers of src/src/common/utils), and
    the frames and the control stream of HTTP/3 (src/src/http3), and proves them correct.
    Definitions keep the names of the C functions and types they translate.

    ** The program

    A datagram is split into packets by their headers (xqc_packet_parser.c): the destination
    identifier is looked up in the identifiers of the connection (xqc_cid.c), which gives the
    path; [xqc_packet_decrypt] removes the header protection, recovers the packet number and
    opens the payload, following the key updates of the peer (xqc_crypto.c, xqc_tls.c,
    xqc_conn.c). The payload is a buffer with a read position ([xqc_packet_in_t]).
    [xqc_process_frames] (xqc_frame.c) reads a frame type, a variable-length integer, and
    calls the parser of that frame (xqc_frame_parser.c). The packet number goes to the
    receive record of its space (xqc_recv_record.c), from which the ACK frames are
    generated; STREAM frames go to [xqc_process_stream_frame], which checks flow control and
    hands the data to [xqc_insert_stream_frame]; the application takes it with
    [xqc_stream_recv] (xqc_stream.c), which opens the windows again. In the other direction
    the generators append frames to a packet buffer ([xqc_packet_out_t], xqc_packet_out.c)
    behind a header, and [xqc_packet_encrypt_buf] seals it.

    The two ends of a handshake exchange transport parameters (xqc_transport_params.c), which
    set the limits and options of the connection. The engine (xqc_engine.c) keeps its
    connections in two binary heaps, those to process now and those that wait for a time, and
    moves them from one to the other.

    HTTP/3 compresses field lines with QPACK: an encoder and a decoder each keep a dynamic
    table of name-value pairs (xqc_dtable.c), whose entries lie in a ring array and whose
    bytes lie in a ring memory, and write integers and Huffman coded strings that the other
    end reads in whatever pieces its stream delivers. The encoder (xqc_encoder.c) looks headers
    up in the dynamic table and in a static one (xqc_stable.c), sends instructions that insert
    into the table of the decoder (xqc_ins.c), and writes field sections that refer to both
    tables (xqc_rep.c); the decoder (xqc_decoder.c) may get a section before its insertions and
    then blocks, and acknowledges what it has seen. The handler (xqc_qpack.c) joins them. On top
    of it the two ends of an HTTP/3
    connection open a control stream each, on which they send SETTINGS, GOAWAY and the
    frames of server push (xqc_h3_stream.c, xqc_h3_conn.c, frames/xqc_h3_frame.c).

    ** The files

    - Prelude: this file. Machine integers with their wrap-around ([u8] .. [u64]), buffers as
      lists of bytes with [rd], [wr], [bytes_at] and [agree], error values, list and integer
      lemmas, the tactics [zify_bools], [eval_pow], [by_decide].
    - VInt, Module VInt: the macros and functions of xqc_variable_len_int.{h,c} and
      xqc_discrete_int_parser.c. A written integer is read back, what is read is a valid
      encoding inside the buffer, the two writers agree, and reading in pieces is reading
      whole.
    - RecvRecord, Module RecvRecord: the list of packet-number ranges with its operations. The
      invariant is [record_wf] (descending, disjoint, non-adjacent, at most 64 ranges); the
      abstract record is the set of numbers received. Every operation refines its effect on
      that set, and [record_reachable] is the invariant of every reachable record.
    - PacketBuf: the packet buffers and the two languages the frame functions are written in:
      generators move a write cursor over [po_buf], parsers are a state-and-error monad over
      the read position. [parses] is the specification of a parser on the bytes it is meant
      for, [local_at] its safety on arbitrary bytes; the tactics [parse_step] and [parse_all]
      follow the parser's text.
    - Frames, Module Frames: generators and parsers of the control frames, function by
      function. FrameSpec, Module FrameSpec: the type [frame], the choice of the parser by the
      frame type, and lemmas over all control frames at once (what is written is parsed back,
      every parser reads the packet only). CryptoClose, Module CryptoClose: CRYPTO,
      CONNECTION_CLOSE and PADDING, whose generators cut what does not fit.
    - AckFrame, Module AckFrame: ACK, and ACK_MP/PATH_ACK of the two multipath drafts. The frame
      of a record is parsed back to the ranges of the record; the ranges of an accepted ACK
      are well formed on arbitrary bytes.
    - StreamFrame, Module StreamFrame: STREAM, with truncation and the extension of the previous
      frame in place, and DATAGRAM.
    - MpFrames, Module MpFrames: the multipath frames, the dispatch table and the dispatcher; what
      this side writes, acknowledgements included, reaches its handler and is read back.
    - FrameLoop, Module FrameLoop: the receive loop [xqc_process_frames] with its guards and its
      dispatch on every frame type, each handler up to the end of its parsing, and the parser of
      ACK_EXTENDED. What the handlers do after parsing is an argument. The loop returns on every
      packet, the parsers read nothing behind it, and a sequence of control frames reaches the
      handlers as it was written.
    - StreamRecv, Module StreamRecv: reassembly, reading, windows and the handler of STREAM
      frames. StreamReset, Module StreamReset: the handlers of RESET_STREAM, RESET_STREAM_AT,
      DATA_BLOCKED and STREAM_DATA_BLOCKED, the reset of the sending part, and the limits of a new
      stream. Definitions only.
    - Reassembly, Module Reassembly: the bytes the peer wrote are a function [S] up to a length
      [L]; frames are honest when they carry bytes of it. [sdi_ok] is the invariant of the
      buffered frames, [recv_step] the relation of runs in which frames and reads
      interleave in any order. The application reads a prefix of the stream, and accepted
      bytes can be read.
    - ReassemblyCap, Module ReassemblyCap: the limits on buffered frames, against arbitrary STREAM,
      reset and blocked frames ([any_step]): the ceiling holds; with a configured ceiling the first hole can always
      be filled; without one there is a run after which it cannot.
    - RecvFlow, Module RecvFlow: flow control of a connection with any number of streams, against
      arbitrary STREAM, reset and blocked frames, with streams that come and go ([peer_step]):
      nothing is buffered beyond the limits, these never shrink, and with the extension
      RESET_STREAM_AT the connection is charged no more than its limit. Without it a RESET_STREAM
      can charge more, and a client that limits the rate of its streams gives those of the server
      less than it advertised.
    - CidSet, Module CidSet: the sets of connection identifiers per path with their states,
      counters and limits (xqc_cid.c), and the check of the destination of a packet.
      CidSetSpec, Module CidSetSpec: the invariant [set_ok] of every set reachable by
      [cid_step]: the counters are exact and the limits hold; identifiers move forward only.
    - PktHeader, Module PktHeader: packet numbers, the short and the long header, Retry and
      Version Negotiation. PktHeaderSpec, Module PktHeaderSpec: headers are read back with the
      packet number that was sent, the readers stay inside the datagram, Retry is accepted
      once.
    - PktProtect, Module PktProtect: header protection, nonce, AEAD calls, sealing and
      opening of packets, and the key update. The primitives of the library are the class
      [CryptoLib]. PktProtectSpec, Module PktProtectSpec: what the library documents is the
      class [CryptoLaws] (opening undoes sealing); removing header protection undoes adding
      it, nonces are injective, and a sealed packet is opened when the keys agree.
    - KeyUpdate, Module KeyUpdate: the generations of keys. [ku_inv] is the invariant of every
      run [key_step] that seals, opens, acknowledges and lets the timer expire, and [log_inv]
      relates its counter to the packets that were sealed; with them a 1-RTT packet is delivered across key updates, from the header to the frames. Module Toy
      is an instance of the library's classes, on which the theorems are evaluated.
    - RingArray, RingMem and VarBuf, Modules of the same names: the ring array, the ring
      memory and the growable buffer. The ring array refines a double-ended list; the ring
      memory and the buffer have one specification per operation.
    - DTable, Module DTable: the dynamic table over them, with the two-dimensional hash table
      of the encoder. Pointers to entries name the allocation they point into, so that a
      pointer kept across a reallocation is undefined behaviour ([None]). DTableSpec, Module
      DTableSpec: the abstract table, a list of pairs with a capacity and a lowest referred
      index, and the representation relation [rep] that every operation keeps. DTableRefine,
      Module DTableRefine: the refinement of whole runs, the safety of referred entries, and
      what goes wrong in the hash table when entries are evicted or the capacity grows.
    - QpackInt, Module QpackInt: prefixed integers, written whole and read in pieces.
    - HuffmanTable, Huffman, HuffmanSpec, HuffmanTree, Modules of the same names: the tables,
      the coder, the encoder as concatenation of codes, and the decoder as a walk through the
      code tree. All 4096 transitions of the table are checked against the tree.
    - PrefixedStr, Module PrefixedStr: QPACK strings. PrefixedStrSpec, Module PrefixedStrSpec:
      a written string is read back however it is cut ([feed]), and the end of the code is
      not always checked.
    - QpackStatic, Module QpackStatic: the static table and its search, which finds what a search
      through all entries finds. QpackIns, QpackRep, Modules of the same names: instructions and
      field lines, written whole and parsed in pieces; QpackField, QpackInsSpec, QpackRepSpec,
      Modules of the same names: their bytes ([ins_bytes], [dec_bytes], [line_bytes],
      [prefix_bytes]), and what a parser knows of an instruction, a line or a prefix it has seen
      a part of.
    - QpackDecoder, QpackEncoder, Qpack, Modules of the same names: decoder, encoder and handler,
      function by function. QpackDecSpec, Module QpackDecSpec: the effect of an instruction on
      the abstract table ([ins_apply]) and the header that a line stands for ([line_nv]).
      QpackStream, Module QpackStream: whole streams of instructions and whole sections, cut
      anywhere. QpackEncSpec, Module QpackEncSpec: the instructions and the section that the
      encoder writes keep the two tables equal, and the section stands for the headers.
      QpackRound, Module QpackRound: from two synchronised handlers ([synced]) headers arrive and
      the handlers are synchronised again; the replies of the decoder settle the encoder; a
      blocked section resumes. QpackReach, Module QpackReach: the states an encoder reaches
      ([enc_reach]) keep to the number of blocked streams of the peer. QpackExamples, Module
      QpackExamples: evaluated runs of two handlers, one of them with a stream that is cancelled
      before its insertions arrive.
    - TransParams, Module TransParams: the structure of transport parameters, its encoder with
      the length computed beforehand, the decoder of each parameter and the loop over them, in
      the builds with and without FEC. TransParamsSpec, Module TransParamsSpec: the encoding as
      a list of parameters ([sent]); a decoder reads its value only; the other end learns
      [received]. TransParamsValid, Module TransParamsValid: the type of accepted parameters,
      [tp_valid], on arbitrary bytes.
    - PriorityQ, Module PriorityQ: the binary heap with its callback. PriorityQSpec, Module
      PriorityQSpec: the classes [PqOrder] and [PqCallback] say what the heap expects of its
      order and its callback; [pq_inv] is its invariant, and each operation is specified on
      the elements in the queue.
    - EngineQueues, Module EngineQueues: the queues of connections and the flags that name
      them, the wake-up loop of the engine, and what the destruction of a connection does to them.
      EngineQueuesSpec, Module EngineQueuesSpec: the
      callback of the engine is a [PqCallback]; [eng_inv] is the invariant of every run
      [eng_step]; due connections are woken and none is lost.
    - TextFmt, Module TextFmt: unsigned integers as decimal text.
    - H3Frame, Module H3Frame: the resumable parser of HTTP/3 frames, their writers, and the
      lists of settings. H3FrameSpec, Module H3FrameSpec: the bytes of a frame ([wframe]) and
      what the parser knows of a frame it has seen a part of ([at_frame]).
    - H3Control, Module H3Control: the handlers of the control and push streams and the
      settings of a connection; what the handlers use of QPACK is the class [QpackOps].
      H3ControlSpec, Module H3ControlSpec: the effect of a list of frames and of what ends
      it ([apply_stream]), and safety on arbitrary bytes. H3SettingsSpec, Module H3SettingsSpec:
      frames are delivered however the stream is cut, except for a cut in the header of the first,
      and the peer learns the settings that were set.

    ** Conventions

    A pointer into a buffer is an offset into it, and writing beyond the list it stands for
    does nothing; the theorems on generators say that what is written lies inside the space
    of the packet. A negative return value [-XQC_E...] is [Err XQC_E...]. [XQC_CONN_ERR]
    sets the error of the connection when none is set. The result of [xqc_malloc] is an
    argument where a parser uses it. Time and round-trip times are arguments
    ([rtt_env]). Log calls, statistics and metrics are left out. The connection records
    hold the fields the modelled code reads or writes.

    ** Bounds and fuel

    Two loops are not structural. The loop over the frames of a packet ([xqc_process_frames])
    and the loop over a run of PADDING ([padding_skip]) take a fuel. Each round
    consumes at least one byte, so the number of bytes left is enough: [padding_skip] is
    called with it, and [process_frames_total] proves it of every packet. The loop over the ranges of
    an ACK frame is bounded by the bytes of the packet in the same way, and the Huffman loop
    of a string by two rounds a byte, since each round decodes four bits at least. The loop over
    transport parameters has a round per byte ([decode_loop_fuel]), the loops of the heap a
    round per element, and the wake-up loop one per waiting connection; the theorems show
    that these give a result. The heap computes places in 32 bits, so its theorems ask for
    less than [2^31] elements. The loops
    over the digits of a prefixed integer have ten rounds, enough for 64 bits, and so have the
    loops over decimal digits with twenty. The loop over a piece of the control stream has a
    round per byte and one more, since a round that consumes nothing ends it; the loop of a push
    stream has one more for the push identifier. The loops over instructions and field lines have
    a round per byte and one or two more, the search of the static table one per entry. The
    round trips of QPACK ask for tables that have taken less than [2^64] bytes in all, and that
    the duplications of the encoder stay within the work the decoder allows in a second. The theorems on ACK
    generation ask that the numbers of a record span less than [2^32], since the C code
    computes gaps in 32 bits. The product [1.5 * window] of the connection window is
    computed in a double by the code; the theorems on windows ask for sizes below [2^52],
    where this is exact.

    ** Not modelled

    The state machine of a connection and its timers, what the engine does with a connection
    once it is its turn, the text form of transport parameters that is kept for 0-RTT, the
    sending side of streams and the send queues, loss recovery, congestion control, path
    management, scheduling and reinjection, FEC, of HTTP/3 the requests and what
    opens and closes its streams, WebTransport and MoQ are not part of the library yet. The TLS handshake
    wraps BoringSSL or BabaSSL, which are not in the repository; logging and time are input
    and output. Of the modelled files these operations are left out: the generator of
    ACK_EXTENDED, SID and REPAIR frames, [xqc_maybe_should_ack], the limit on the number of streams
    the peer may open, what the frame handlers do to a connection after parsing (STOP_SENDING,
    MAX_DATA and the like; those of STREAM, RESET_STREAM, RESET_STREAM_AT and the two blocked
    frames are modelled from the stream on), the stateless reset packet, and the derivation of
    the first keys of a level, and in QPACK the option XQC_COMPAT_DUPLICATE and the counters that
    are only logged. What accepting a Retry packet restarts in the connection and
    the tag of a Retry packet are arguments of its parser. *)

From stdpp Require Import base numbers list.
Open Scope Z_scope.

(** ** Machine integers

    A [w]-bit unsigned integer of the C code is a [Z]; the wrap-around of its
    arithmetic is written out with these functions. *)

Definition u8 (x : Z) : Z := x mod 2 ^ 8.
Definition u16 (x : Z) : Z := x mod 2 ^ 16.
Definition u32 (x : Z) : Z := x mod 2 ^ 32.
Definition u64 (x : Z) : Z := x mod 2 ^ 64.

(** C's [a << n], [a >> n] on values that are already in range. *)
Declare Scope cint_scope.
Delimit Scope cint_scope with C.
Notation "a << n" := (Z.shiftl a n) (at level 30, right associativity) : cint_scope.
Notation "a >> n" := (Z.shiftr a n) (at level 30, right associativity) : cint_scope.
Notation "a .| b" := (Z.lor a b) (at level 45, left associativity) : cint_scope.
Notation "a .& b" := (Z.land a b) (at level 40, left associativity) : cint_scope.
Open Scope cint_scope.

(** ** Bytes and buffers *)

Definition is_byte (b : Z) : Prop := 0 <= b < 256.
Definition bytes_ok (l : list Z) : Prop := Forall is_byte l.

#[export] Instance is_byte_dec b : Decision (is_byte b).
Proof. unfold is_byte. apply _. Defined.

#[export] Instance bytes_ok_dec l : Decision (bytes_ok l).
Proof. unfold bytes_ok. apply _. Defined.

Definition zlen (l : list Z) : Z := Z.of_nat (length l).

(** [*(buf + p)]: the byte at offset [p]. Offsets outside the buffer read as [0];
    every theorem that depends on a read bounds the offset. *)
Definition rd (buf : list Z) (p : Z) : Z := nth (Z.to_nat p) buf 0.

(** [memcpy(buf + p, bs, len bs)]. *)
Definition wr (buf : list Z) (p : Z) (bs : list Z) : list Z :=
  list_inserts (Z.to_nat p) bs buf.

(** [memcpy(dst, buf + p, n)] read as a value. *)
Definition sub_bytes (buf : list Z) (p n : Z) : list Z :=
  take (Z.to_nat n) (drop (Z.to_nat p) buf).

(** The bytes [bs] sit at offset [p] of [buf]. *)
Definition bytes_at (buf : list Z) (p : Z) (bs : list Z) : Prop :=
  0 <= p /\ sub_bytes buf p (zlen bs) = bs.

(** Two buffers hold the same bytes at the offsets from [p] up to, not including, [e]. *)
Definition agree (b1 b2 : list Z) (p e : Z) : Prop :=
  forall i, p <= i < e -> rd b1 i = rd b2 i.

(** ** Big-endian encoding *)

Fixpoint be_bytes (n : nat) (v : Z) : list Z :=
  match n with
  | O => []
  | S n' => u8 (v >> (8 * Z.of_nat n')) :: be_bytes n' v
  end.

Definition be_val (l : list Z) : Z := fold_left (fun a b => a * 256 + b) l 0.

(** ** Results

    A C function that returns a negative [XQC_E*] code or a value. *)
Inductive res (A : Type) : Type :=
| Ok (a : A)
| Err (code : Z).
Arguments Ok {A} a.
Arguments Err {A} code.

Definition res_bind {A B} (r : res A) (f : A -> res B) : res B :=
  match r with
  | Ok a => f a
  | Err e => Err e
  end.

Declare Scope res_scope.
Delimit Scope res_scope with res.
Notation "'do*' x <- c ; k" := (res_bind c (fun x => k))
  (at level 10, x pattern, c at level 100, k at level 200) : res_scope.
Notation "'guard*' b 'else' e ; k" := (if b then k else Err e)
  (at level 10, b at level 100, e at level 100, k at level 200) : res_scope.
Open Scope res_scope.

(** Error codes of [include/xquic/xqc_errno.h]; the functions return them negated. *)
Definition XQC_OK : Z := 0.
Definition XQC_ERROR : Z := 1.
Definition XQC_ENOBUF : Z := 600.
Definition XQC_EVINTREAD : Z := 601.
Definition XQC_ENULLPTR : Z := 602.
Definition XQC_EMALLOC : Z := 603.
Definition XQC_EPARAM : Z := 611.
Definition XQC_ELIMIT : Z := 613.
Definition XQC_EPROTO : Z := 614.
Definition XQC_EILLEGAL_FRAME : Z := 636.
Definition XQC_EMP_PATH_STATE_ERROR : Z := 654.
Definition XQC_EMP_INVALID_MP_VERTION : Z := 657.
Definition XQC_EWRITE_PKT : Z := 624.

(** ** Automation *)

Create HintDb xqc discriminated.

(** Turn the boolean tests of the code in the context into propositions and let
    [lia] finish. *)
Ltac zify_bools :=
  repeat match goal with
  | H : (_ && _)%bool = true |- _ => apply andb_true_iff in H; destruct H
  | H : (_ && _)%bool = false |- _ => apply andb_false_iff in H
  | H : (_ || _)%bool = false |- _ => apply orb_false_iff in H; destruct H
  | H : (_ || _)%bool = true |- _ => apply orb_true_iff in H
  | H : negb _ = true |- _ => apply negb_true_iff in H
  | H : negb _ = false |- _ => apply negb_false_iff in H
  | H : (_ <? _) = true |- _ => apply Z.ltb_lt in H
  | H : (_ <? _) = false |- _ => apply Z.ltb_ge in H
  | H : (_ <=? _) = true |- _ => apply Z.leb_le in H
  | H : (_ <=? _) = false |- _ => apply Z.leb_gt in H
  | H : (_ =? _) = true |- _ => apply Z.eqb_eq in H
  | H : (_ =? _) = false |- _ => apply Z.eqb_neq in H
  end.

Ltac zb := zify_bools; lia.

(** Evaluate the closed powers and shifts of the goal and the context. *)
Ltac is_Z_value v :=
  lazymatch v with
  | Z0 => idtac
  | Zpos _ => idtac
  | Zneg _ => idtac
  end.

Ltac eval_pow :=
  repeat match goal with
  | |- context [Z.shiftl ?a ?e] =>
      let v := eval vm_compute in (Z.shiftl a e) in
      is_Z_value v; change (Z.shiftl a e) with v
  | |- context [Z.pow ?a ?e] =>
      let v := eval vm_compute in (Z.pow a e) in is_Z_value v; change (Z.pow a e) with v
  | H : context [Z.shiftl ?a ?e] |- _ =>
      let v := eval vm_compute in (Z.shiftl a e) in
      is_Z_value v; change (Z.shiftl a e) with v in H
  | H : context [Z.pow ?a ?e] |- _ =>
      let v := eval vm_compute in (Z.pow a e) in
      is_Z_value v; change (Z.pow a e) with v in H
  end.

(** Case analysis on the conditions of the goal's conditionals, innermost first. *)
Ltac case_if :=
  match goal with
  | |- context [if ?b then _ else _] =>
      lazymatch b with
      | context [if _ then _ else _] => fail
      | _ => let E := fresh "E" in destruct b eqn:E
      end
  end.

(** Close a decidable closed goal by evaluation. *)
Ltac by_decide := apply (bool_decide_unpack _); vm_compute; exact I.

Ltac inv_res :=
  repeat match goal with
  | H : Ok _ = Ok _ |- _ => injection H as H; subst
  | H : Err _ = Err _ |- _ => injection H as H; subst
  | H : Ok _ = Err _ |- _ => discriminate H
  | H : Err _ = Ok _ |- _ => discriminate H
  | H : Some _ = Some _ |- _ => injection H as H; subst
  | H : Some _ = None |- _ => discriminate H
  | H : None = Some _ |- _ => discriminate H
  end.

(** ** Integers *)

Lemma u8_range x : 0 <= u8 x < 256.
Proof. apply Z.mod_pos_bound. lia. Qed.

Lemma u32_range x : 0 <= u32 x < 2 ^ 32.
Proof. apply Z.mod_pos_bound. lia. Qed.

Lemma u64_range x : 0 <= u64 x < 2 ^ 64.
Proof. apply Z.mod_pos_bound. lia. Qed.

Lemma u8_small x : 0 <= x < 256 -> u8 x = x.
Proof. apply Z.mod_small. Qed.

Lemma u16_small x : 0 <= x < 2 ^ 16 -> u16 x = x.
Proof. apply Z.mod_small. Qed.

Lemma u32_small x : 0 <= x < 2 ^ 32 -> u32 x = x.
Proof. apply Z.mod_small. Qed.

Lemma u64_small x : 0 <= x < 2 ^ 64 -> u64 x = x.
Proof. apply Z.mod_small. Qed.

(** A disjoint [|] is an addition. *)
Lemma lor_shiftl_add a b n :
  0 <= n -> 0 <= a < 2 ^ n -> Z.lor a (b << n) = a + b * 2 ^ n.
Proof.
  intros Hn Ha. rewrite Z.shiftl_mul_pow2 by lia.
  rewrite <- Z.lxor_lor; [rewrite <- Z.add_nocarry_lxor; [done|] |];
    rewrite <- Z.shiftl_mul_pow2 by lia;
    apply Z.bits_inj'; intros i Hi; rewrite Z.land_spec, Z.bits_0, Z.shiftl_spec by lia;
    (destruct (Z.lt_ge_cases i n);
     [rewrite (Z.testbit_neg_r b) by lia; apply andb_false_r
     |destruct (decide (a = 0)) as [->|];
       [by rewrite Z.bits_0
       |rewrite (Z.bits_above_log2 a);
         [done | lia | apply Z.log2_lt_pow2; [lia|];
           eapply Z.lt_le_trans; [apply Ha | apply Z.pow_le_mono_r; lia]]]]).
Qed.

Lemma shiftl_lor_add a b n :
  0 <= n -> 0 <= a < 2 ^ n -> Z.lor (b << n) a = b * 2 ^ n + a.
Proof. intros. rewrite Z.lor_comm, lor_shiftl_add by done. lia. Qed.

(** Masking with [2^n - 1]. *)
Lemma land_mask a n : 0 <= n -> Z.land a (Z.ones n) = a mod 2 ^ n.
Proof. apply Z.land_ones. Qed.

(** ** Byte lists *)

Lemma zlen_nonneg l : 0 <= zlen l.
Proof. unfold zlen. lia. Qed.

Lemma zlen_app l k : zlen (l ++ k) = zlen l + zlen k.
Proof. unfold zlen. rewrite length_app. lia. Qed.

Lemma zlen_cons x l : zlen (x :: l) = 1 + zlen l.
Proof. unfold zlen. simpl. lia. Qed.

Lemma zlen_nil : zlen [] = 0.
Proof. done. Qed.

Lemma zlen_wr buf p bs : zlen (wr buf p bs) = zlen buf.
Proof. unfold zlen, wr. by rewrite length_inserts. Qed.

Lemma bytes_ok_app l k : bytes_ok (l ++ k) <-> bytes_ok l /\ bytes_ok k.
Proof. apply Forall_app. Qed.

Lemma bytes_ok_cons b l : bytes_ok (b :: l) <-> is_byte b /\ bytes_ok l.
Proof. apply Forall_cons. Qed.

Lemma rd_lookup buf p x :
  0 <= p -> buf !! Z.to_nat p = Some x -> rd buf p = x.
Proof. intros _ H. unfold rd. by apply nth_lookup_Some with (d := 0) in H. Qed.

Lemma rd_is_byte buf p : bytes_ok buf -> is_byte (rd buf p).
Proof.
  intros H. unfold rd. rewrite nth_lookup.
  destruct (buf !! Z.to_nat p) eqn:E; simpl; [|done].
  by eapply Forall_lookup_1 in E.
Qed.

Lemma bytes_at_nonneg buf p bs : bytes_at buf p bs -> 0 <= p.
Proof. by intros [? _]. Qed.

(** Pointwise reading of [bytes_at]. *)
Lemma bytes_at_lookup buf p bs :
  bytes_at buf p bs <->
  0 <= p /\ forall i x, bs !! i = Some x -> buf !! (Z.to_nat p + i)%nat = Some x.
Proof.
  unfold bytes_at, sub_bytes, zlen. rewrite Nat2Z.id. split.
  - intros [Hp H]; split; [done|]. intros i x Hx.
    rewrite <- H in Hx. apply lookup_take_Some in Hx as [Hx _].
    by rewrite lookup_drop in Hx.
  - intros [Hp H]; split; [done|]. apply list_eq. intros i.
    destruct (decide (i < length bs)%nat) as [Hi|Hi].
    + rewrite lookup_take_lt by done. rewrite lookup_drop.
      destruct (lookup_lt_is_Some_2 bs i Hi) as [x Hx]. rewrite Hx. by apply H.
    + rewrite lookup_take_ge by lia. symmetry. apply lookup_ge_None. lia.
Qed.

Lemma bytes_at_app buf p bs1 bs2 :
  bytes_at buf p (bs1 ++ bs2) <->
  bytes_at buf p bs1 /\ bytes_at buf (p + zlen bs1) bs2.
Proof.
  rewrite !bytes_at_lookup. unfold zlen. split.
  - intros [Hp H]; split; (split; [lia|]); intros i x Hx.
    + apply H. by apply lookup_app_l_Some.
    + replace (Z.to_nat (p + Z.of_nat (length bs1)) + i)%nat
        with (Z.to_nat p + (length bs1 + i))%nat by lia.
      apply H. rewrite lookup_app_r by lia. by replace (_ + i - _)%nat with i by lia.
  - intros [[Hp H1] [_ H2]]; split; [done|]. intros i x Hx.
    apply lookup_app_Some in Hx as [Hx|[Hi Hx]]; [by apply H1|].
    apply H2 in Hx. rewrite <- Hx. f_equal. lia.
Qed.

Lemma bytes_at_cons buf p b bs :
  bytes_at buf p (b :: bs) <-> bytes_at buf p [b] /\ bytes_at buf (p + 1) bs.
Proof. by rewrite (bytes_at_app buf p [b] bs). Qed.

Lemma bytes_at_rd buf p b bs : bytes_at buf p (b :: bs) -> rd buf p = b.
Proof.
  rewrite bytes_at_lookup. intros [Hp H]. apply rd_lookup; [done|].
  specialize (H 0%nat b eq_refl). by rewrite Nat.add_0_r in H.
Qed.

Lemma bytes_at_sub buf p bs : bytes_at buf p bs -> sub_bytes buf p (zlen bs) = bs.
Proof. by intros [_ ?]. Qed.

Lemma bytes_at_wr buf p bs :
  0 <= p -> p + zlen bs <= zlen buf -> bytes_at (wr buf p bs) p bs.
Proof.
  unfold zlen. intros Hp Hl. apply bytes_at_lookup. split; [done|].
  intros i x Hx. unfold wr. pose proof (lookup_lt_Some _ _ _ Hx).
  rewrite list_lookup_inserts by lia. rewrite <- Hx. f_equal. lia.
Qed.

(** The bytes of a range, one read at a time. *)
Lemma sub_bytes_rd buf p n :
  0 <= p -> p + Z.of_nat n <= zlen buf ->
  sub_bytes buf p (Z.of_nat n) = map (fun i => rd buf (p + Z.of_nat i)) (seq 0 n).
Proof.
  unfold zlen, sub_bytes. intros Hp Hn. rewrite Nat2Z.id. apply list_eq. intros i.
  rewrite list_lookup_fmap. destruct (decide (i < n)%nat) as [Hi|Hi].
  - rewrite lookup_take_lt, lookup_drop, lookup_seq_lt by done. simpl.
    destruct (lookup_lt_is_Some_2 buf (Z.to_nat p + i)) as [x Hx]; [lia|].
    rewrite Hx. f_equal. symmetry. apply rd_lookup; [lia|]. rewrite <- Hx. f_equal. lia.
  - rewrite lookup_take_ge, lookup_seq_ge by lia. done.
Qed.

Lemma sub_bytes_cons buf p n :
  0 <= p -> 0 < n -> p + n <= zlen buf ->
  sub_bytes buf p n = rd buf p :: sub_bytes buf (p + 1) (n - 1).
Proof.
  unfold zlen, sub_bytes. intros Hp Hn Hz.
  destruct (lookup_lt_is_Some_2 buf (Z.to_nat p)) as [x Hx]; [lia|].
  replace (Z.to_nat n) with (S (Z.to_nat (n - 1))) by lia.
  replace (Z.to_nat (p + 1)) with (S (Z.to_nat p)) by lia.
  rewrite (drop_S _ _ _ Hx), (rd_lookup _ _ _ Hp Hx). done.
Qed.

(** A write leaves the bytes outside it alone. *)
Lemma bytes_at_wr_ne buf p bs q cs :
  0 <= p -> bytes_at buf q cs -> q + zlen cs <= p \/ p + zlen bs <= q ->
  bytes_at (wr buf p bs) q cs.
Proof.
  unfold zlen. intros Hp. rewrite !bytes_at_lookup. intros [Hq H] Hd. split; [done|].
  intros i x Hx. pose proof (lookup_lt_Some _ _ _ Hx). unfold wr. destruct Hd.
  - rewrite list_lookup_inserts_lt by lia. by apply H.
  - rewrite list_lookup_inserts_ge by lia. by apply H.
Qed.

Lemma bytes_at_bound buf p bs : bytes_at buf p bs -> bs <> [] -> p + zlen bs <= zlen buf.
Proof.
  rewrite bytes_at_lookup. unfold zlen. intros [Hp H] Hne.
  destruct (lookup_lt_is_Some_2 bs (length bs - 1)) as [x Hx]; [destruct bs; simpl; done || lia|].
  apply H, lookup_lt_Some in Hx. lia.
Qed.

Lemma wr_same buf p bs : bytes_at buf p bs -> wr buf p bs = buf.
Proof.
  unfold wr. revert p. induction bs as [|b bs IH]; intros p H; [done|].
  pose proof (bytes_at_nonneg _ _ _ H). apply bytes_at_lookup in H as [_ H]. simpl.
  replace (S (Z.to_nat p)) with (Z.to_nat (p + 1)) by lia. rewrite IH.
  - apply list_insert_id. specialize (H 0%nat b eq_refl). by rewrite Nat.add_0_r in H.
  - apply bytes_at_lookup. split; [lia|]. intros i x Hi. replace (Z.to_nat (p + 1) + i)%nat
      with (Z.to_nat p + S i)%nat by lia. by apply H.
Qed.

(** Replacing a part of the bytes that are there. *)
Lemma bytes_at_replace buf p a x y b :
  bytes_at buf p (a ++ x ++ b) -> zlen x = zlen y ->
  bytes_at (wr buf (p + zlen a) y) p (a ++ y ++ b).
Proof.
  intros H Hl. pose proof (zlen_nonneg a). pose proof (bytes_at_nonneg _ _ _ H).
  rewrite !bytes_at_app in *. destruct H as (Ha & Hx & Hb). rewrite <- Hl. split_and!.
  - apply bytes_at_wr_ne; [lia|done|lia].
  - destruct (decide (x = [])) as [->|Hne].
    + destruct y; [|rewrite zlen_cons, zlen_nil in Hl; pose proof (zlen_nonneg y); lia].
      split; [lia|]. done.
    + apply bytes_at_wr; [lia|]. rewrite <- Hl. by apply bytes_at_bound.
  - apply bytes_at_wr_ne; [lia|done|lia].
Qed.

Lemma bytes_at_extend buf p a b :
  bytes_at buf p a -> p + zlen a + zlen b <= zlen buf ->
  bytes_at (wr buf (p + zlen a) b) p (a ++ b).
Proof.
  intros Ha Hz. pose proof (zlen_nonneg a). pose proof (bytes_at_nonneg _ _ _ Ha).
  apply bytes_at_app. split; [apply bytes_at_wr_ne; [lia|done|lia]|apply bytes_at_wr; lia].
Qed.

Lemma wr_app buf p bs cs :
  0 <= p -> wr (wr buf p bs) (p + zlen bs) cs = wr buf p (bs ++ cs).
Proof.
  intros Hp. unfold wr, zlen. rewrite list_inserts_app_l. f_equal. lia.
Qed.

(** Writing the first byte last. *)
Lemma wr_hd_last buf p b bs : 0 <= p -> wr (wr buf (p + 1) bs) p [b] = wr buf p (b :: bs).
Proof. intros Hp. unfold wr. simpl. by replace (Z.to_nat (p + 1)) with (S (Z.to_nat p)) by lia. Qed.

(** Overwriting the first byte of what was just written. *)
Lemma wr_overwrite_hd buf p b bs x :
  wr (wr buf p (b :: bs)) p [x] = wr buf p (x :: bs).
Proof. unfold wr. simpl. by rewrite list_insert_insert_eq. Qed.

Lemma rd_wr_hd buf p b bs :
  0 <= p < zlen buf -> rd (wr buf p (b :: bs)) p = b.
Proof.
  unfold zlen. intros Hp. apply rd_lookup; [lia|]. unfold wr. simpl.
  apply list_lookup_insert_eq. rewrite length_inserts. lia.
Qed.

Lemma rd_wr_ne buf p bs i :
  0 <= p -> 0 <= i -> i < p \/ p + zlen bs <= i -> rd (wr buf p bs) i = rd buf i.
Proof.
  unfold rd, wr, zlen. intros Hp Hi Hd. rewrite !nth_lookup. f_equal.
  destruct Hd; [apply list_lookup_inserts_lt|apply list_lookup_inserts_ge]; lia.
Qed.

(** Writing back what is there. *)
Lemma wr_id buf p : 0 <= p < zlen buf -> wr buf p [rd buf p] = buf.
Proof.
  unfold zlen. intros Hp. destruct (lookup_lt_is_Some_2 buf (Z.to_nat p)) as [x Hx]; [lia|].
  rewrite (rd_lookup _ _ _ (proj1 Hp) Hx). unfold wr. simpl. by apply list_insert_id.
Qed.

(** Overwriting one byte of what was just written. *)
Lemma wr_overwrite buf p l1 x l2 y :
  0 <= p -> wr (wr buf p (l1 ++ x :: l2)) (p + zlen l1) [y] = wr buf p (l1 ++ y :: l2).
Proof. intros Hp. by rewrite <- !wr_app, wr_overwrite_hd by done. Qed.

Lemma bytes_ok_wr buf p bs : bytes_ok buf -> bytes_ok bs -> bytes_ok (wr buf p bs).
Proof. apply Forall_inserts. Qed.

Lemma bytes_ok_sub buf p n : bytes_ok buf -> bytes_ok (sub_bytes buf p n).
Proof. intros. by apply Forall_take, Forall_drop. Qed.

Lemma zlen_sub_bytes buf p n :
  0 <= p -> 0 <= n -> p + n <= zlen buf -> zlen (sub_bytes buf p n) = n.
Proof. unfold zlen, sub_bytes. intros. rewrite length_take, length_drop. lia. Qed.

Lemma bytes_at_sub_bytes buf p n :
  0 <= p -> 0 <= n -> p + n <= zlen buf -> bytes_at buf p (sub_bytes buf p n).
Proof. intros. split; [done|]. by rewrite zlen_sub_bytes. Qed.

Lemma agree_sub_bytes b1 b2 p n e :
  agree b1 b2 p e -> 0 <= p -> 0 <= n -> p + n <= e -> e <= zlen b1 -> e <= zlen b2 ->
  sub_bytes b1 p n = sub_bytes b2 p n.
Proof.
  intros Ha Hp Hn He H1 H2. rewrite <- (Z2Nat.id n) by done.
  rewrite !sub_bytes_rd by lia. apply map_ext_in. intros i Hi%in_seq. apply Ha. lia.
Qed.

Lemma agree_mono b1 b2 p e p' : agree b1 b2 p e -> p <= p' -> agree b1 b2 p' e.
Proof. intros Ha Hp i Hi. apply Ha. lia. Qed.

Lemma agree_wr b1 b2 p e q bs :
  agree b1 b2 p e -> 0 <= p -> e <= q -> agree b1 (wr b2 q bs) p e.
Proof. intros Ha Hp Hq i Hi. rewrite rd_wr_ne by lia. by apply Ha. Qed.

Lemma agree_trans b1 b2 b3 p e : agree b1 b2 p e -> agree b2 b3 p e -> agree b1 b3 p e.
Proof. intros H1 H2 i Hi. by rewrite H1, H2. Qed.

Lemma rd_wr_in buf p bs i :
  0 <= p -> p <= i < p + zlen bs -> p + zlen bs <= zlen buf -> rd (wr buf p bs) i = rd bs (i - p).
Proof.
  unfold rd, wr, zlen. intros Hp Hi Hz. rewrite !nth_lookup. f_equal.
  rewrite list_lookup_inserts by lia. f_equal. lia.
Qed.

(** Buffers of one size with the same bytes are equal. *)
Lemma buf_ext a b : zlen a = zlen b -> agree a b 0 (zlen a) -> a = b.
Proof.
  unfold zlen, agree, rd. intros Hz H. apply list_eq_same_length with (length a); [lia|done|].
  intros i x y Hi Hx Hy. specialize (H (Z.of_nat i) ltac:(lia)).
  rewrite Nat2Z.id, !nth_lookup, Hx, Hy in H. done.
Qed.

Lemma wr_over buf p a b : 0 <= p -> zlen a <= zlen b -> p + zlen b <= zlen buf -> wr (wr buf p a) p b = wr buf p b.
Proof.
  intros Hp Hl Hz. pose proof (zlen_nonneg a). apply buf_ext; [by rewrite !zlen_wr|]. intros i Hi.
  destruct (decide (p <= i < p + zlen b)); [by rewrite !rd_wr_in by (rewrite ?zlen_wr; lia)|].
  by rewrite !rd_wr_ne by lia.
Qed.

Lemma rd_sub buf p n i : 0 <= p -> 0 <= i < n -> p + n <= zlen buf -> rd (sub_bytes buf p n) i = rd buf (p + i).
Proof.
  unfold zlen, rd, sub_bytes. intros Hp Hi Hz. rewrite !nth_lookup, lookup_take_lt by lia.
  rewrite lookup_drop. f_equal. f_equal. lia.
Qed.


Lemma rd_app_l l k i : 0 <= i < zlen l -> rd (l ++ k) i = rd l i.
Proof. unfold zlen, rd. intros Hi. apply app_nth1. lia. Qed.

Lemma rd_app_r l k i : zlen l <= i -> rd (l ++ k) i = rd k (i - zlen l).
Proof. unfold zlen, rd. intros Hi. rewrite app_nth2 by lia. f_equal. lia. Qed.

Lemma sub_bytes_all l : sub_bytes l 0 (zlen l) = l.
Proof. unfold sub_bytes, zlen. simpl. rewrite drop_0, Nat2Z.id. by apply firstn_all. Qed.

Lemma bytes_at_byte buf p : 0 <= p < zlen buf -> bytes_at buf p [rd buf p].
Proof.
  unfold zlen. intros Hp. apply bytes_at_lookup. split; [lia|]. intros [|[|]] x Hx; simplify_eq/=.
  rewrite Nat.add_0_r. destruct (lookup_lt_is_Some_2 buf (Z.to_nat p)) as [y Hy]; [lia|].
  rewrite Hy. f_equal. symmetry. by apply rd_lookup; [lia|].
Qed.

Lemma bytes_at_agree_at a b p l e :
  agree a b p e -> bytes_at a p l -> p + zlen l <= e -> e <= zlen a -> e <= zlen b -> bytes_at b p l.
Proof.
  intros Ha [Hp Hat] He Hza Hzb. split; [done|]. pose proof (zlen_nonneg l).
  by rewrite <- (agree_sub_bytes a b p (zlen l) e).
Qed.

Lemma bytes_at_agree a b p l e :
  agree a b 0 e -> bytes_at a p l -> p + zlen l <= e -> e <= zlen a -> e <= zlen b -> bytes_at b p l.
Proof. intros Ha Hat. apply bytes_at_agree_at; [|done]. by apply (agree_mono _ _ 0), (bytes_at_nonneg a p l). Qed.

Lemma agree_sym a b p e : agree a b p e -> agree b a p e.
Proof. intros H i Hi. symmetry. by apply H. Qed.

Lemma agree_refl a p e : agree a a p e.
Proof. by intros i _. Qed.

Lemma agree_front a b n : n <= zlen a -> n <= zlen b -> sub_bytes a 0 n = sub_bytes b 0 n -> agree a b 0 n.
Proof.
  unfold zlen, sub_bytes, agree, rd. simpl. rewrite !drop_0. intros Ha Hb H i Hi.
  rewrite !nth_lookup. f_equal. rewrite <- (lookup_take_lt a (Z.to_nat n)), H by lia.
  by rewrite lookup_take_lt by lia.
Qed.

(** ** Big-endian round trip *)

(** A property of all bytes, by evaluation. *)
Lemma byte_forall (P : Z -> bool) : forallb P (map Z.of_nat (seq 0 256)) = true -> forall b, is_byte b -> P b = true.
Proof.
  intros H b Hb. unfold is_byte in Hb. rewrite forallb_forall in H. apply H. apply in_map_iff.
  exists (Z.to_nat b). split; [lia|]. apply in_seq. lia.
Qed.

Lemma length_be_bytes n v : length (be_bytes n v) = n.
Proof. induction n; simpl; congruence. Qed.

Lemma zlen_be_bytes n v : zlen (be_bytes n v) = Z.of_nat n.
Proof. unfold zlen. by rewrite length_be_bytes. Qed.

Lemma be_bytes_ok n v : bytes_ok (be_bytes n v).
Proof. induction n; constructor; [apply u8_range | done]. Qed.

Lemma be_fold_acc l a :
  fold_left (fun a b => a * 256 + b) l a = a * 256 ^ zlen l + be_val l.
Proof.
  unfold be_val. revert a. induction l as [|b l IH]; intros a; cbn [fold_left].
  - unfold zlen; simpl. lia.
  - rewrite (IH (a * 256 + b)), (IH (0 * 256 + b)), zlen_cons, Z.pow_add_r
      by (unfold zlen; lia).
    lia.
Qed.

Lemma be_val_cons b l : be_val (b :: l) = b * 256 ^ zlen l + be_val l.
Proof. unfold be_val at 1. cbn [fold_left]. by rewrite be_fold_acc. Qed.

Lemma be_val_app l k : be_val (l ++ k) = be_val l * 256 ^ zlen k + be_val k.
Proof. unfold be_val at 1. rewrite fold_left_app. apply be_fold_acc. Qed.

Lemma be_val_bound l : bytes_ok l -> 0 <= be_val l < 256 ^ zlen l.
Proof.
  induction 1 as [|b l Hb _ IH]; [done|].
  rewrite be_val_cons, zlen_cons, Z.pow_add_r by (unfold zlen; lia).
  unfold is_byte in Hb. nia.
Qed.

Lemma be_val_be_bytes n v : be_val (be_bytes n v) = v mod 256 ^ Z.of_nat n.
Proof.
  induction n as [|n IH].
  - simpl. by rewrite Z.mod_1_r.
  - cbn [be_bytes]. rewrite be_val_cons, zlen_be_bytes, IH.
    rewrite Nat2Z.inj_succ, Z.pow_succ_r by lia.
    unfold u8. rewrite Z.shiftr_div_pow2 by lia.
    replace (2 ^ (8 * Z.of_nat n)) with (256 ^ Z.of_nat n)
      by (rewrite <- (Z.pow_mul_r 2 8) by lia; done).
    pose proof (Z.pow_pos_nonneg 256 (Z.of_nat n) eq_refl (Nat2Z.is_nonneg n)).
    change (2 ^ 8) with 256.
    rewrite (Z.mul_comm 256 (256 ^ _)), Z.rem_mul_r by lia. lia.
Qed.

Lemma be_val_be_bytes_small n v :
  0 <= v < 256 ^ Z.of_nat n -> be_val (be_bytes n v) = v.
Proof. intros. rewrite be_val_be_bytes. by apply Z.mod_small. Qed.

(** The encoding looks at the value modulo [256 ^ n] only. *)
Lemma be_bytes_add n v k : be_bytes n (v + k * 256 ^ Z.of_nat n) = be_bytes n v.
Proof.
  revert k. induction n as [|n IH]; intros k; [done|]. cbn [be_bytes].
  rewrite Nat2Z.inj_succ, Z.pow_succ_r by lia. f_equal.
  - unfold u8. rewrite !Z.shiftr_div_pow2 by lia.
    replace (2 ^ (8 * Z.of_nat n)) with (256 ^ Z.of_nat n)
      by (rewrite <- (Z.pow_mul_r 2 8) by lia; done).
    pose proof (Z.pow_pos_nonneg 256 (Z.of_nat n) eq_refl (Nat2Z.is_nonneg n)).
    replace (v + k * (256 * 256 ^ Z.of_nat n))
      with (v + (k * 256) * 256 ^ Z.of_nat n) by lia.
    rewrite Z.div_add by lia. change (2 ^ 8) with 256. by rewrite Z.mod_add.
  - replace (v + k * (256 * 256 ^ Z.of_nat n))
      with (v + (k * 256) * 256 ^ Z.of_nat n) by lia.
    apply IH.
Qed.

Lemma be_bytes_be_val l : bytes_ok l -> be_bytes (length l) (be_val l) = l.
Proof.
  induction 1 as [|b l Hb Hl IH]; [done|]. cbn [length be_bytes].
  rewrite be_val_cons. unfold zlen. f_equal.
  - unfold u8. rewrite Z.shiftr_div_pow2 by lia.
    replace (2 ^ (8 * Z.of_nat (length l))) with (256 ^ Z.of_nat (length l))
      by (rewrite <- (Z.pow_mul_r 2 8) by lia; done).
    pose proof (be_val_bound l Hl) as Hv. unfold zlen in Hv.
    rewrite Z.div_add_l, (Z.div_small (be_val l)), Z.add_0_r by lia.
    by apply Z.mod_small.
  - by rewrite Z.add_comm, be_bytes_add.
Qed.

Create Rewrite HintDb zlen.
#[export] Hint Rewrite zlen_app zlen_cons zlen_nil zlen_be_bytes zlen_wr : zlen.
#[export] Hint Resolve be_bytes_ok zlen_nonneg u8_range bytes_ok_wr bytes_ok_sub : xqc.
