(* ===== verification/VInt.v ===== *)
(** QUIC variable-length integers: [src/common/utils/vint/].

    [xqc_variable_len_int.h] (the sizing and writing macros), [xqc_variable_len_int.c]
    (reading and writing whole integers) and [xqc_discrete_int_parser.c] (reading an
    integer that arrives in pieces). *)

From stdpp Require Import base numbers list.
From S2P Require Import Prelude.

Module VInt.

(** ** Sizing and writing: the macros of [xqc_variable_len_int.h] *)

Definition XQC_VINT_MASK : Z := (1 << 6) - 1.
Definition XQC_VINT_MAX : Z := (1 << 62) - 1.

Definition xqc_vint_get_2bit (val : Z) : Z :=
  (if 1 << 6 <=? val then 1 else 0) + (if 1 << 14 <=? val then 1 else 0)
  + (if 1 << 30 <=? val then 1 else 0).

Definition xqc_vint_usable_bits (two_bit : Z) : Z := (1 << (3 + two_bit)) - 2.

Definition xqc_vint_len (two_bit : Z) : Z := 1 << two_bit.

(** The bytes [xqc_vint_write] copies: the last [len] of the eight big-endian bytes. *)
Definition xqc_vint_bytes (val two_bit len : Z) : list Z :=
  let buf_ := val .| u64 (two_bit << xqc_vint_usable_bits two_bit) in
  drop (Z.to_nat (8 - len)) (be_bytes 8 buf_).

Definition xqc_vint_write (buf : list Z) (dst val two_bit len : Z) : list Z :=
  wr buf dst (xqc_vint_bytes val two_bit len).

(** ** Fixed-width big-endian writers *)

Definition xqc_put_uint64be (buf : list Z) (p n : Z) : list Z * Z :=
  (wr buf p (be_bytes 8 n), p + 8).

Definition xqc_put_uint48be (buf : list Z) (p n : Z) : list Z * Z :=
  (wr buf p (drop 2 (be_bytes 8 n)), p + 6).

Definition xqc_put_uint32be (buf : list Z) (p n : Z) : list Z * Z :=
  (wr buf p (be_bytes 4 n), p + 4).

Definition xqc_put_uint24be (buf : list Z) (p n : Z) : list Z * Z :=
  (wr buf p (drop 1 (be_bytes 4 n)), p + 3).

Definition xqc_put_uint16be (buf : list Z) (p n : Z) : list Z * Z :=
  (wr buf p (be_bytes 2 n), p + 2).

(** ** Reading: [xqc_vint_read]

    [Some (val, n)]: the value and the number of bytes read; [None]: the return
    value [-1]. *)
Definition xqc_vint_read (buf : list Z) (p end_ : Z) : option (Z * Z) :=
  if end_ <=? p then None
  else
    match rd buf p >> 6 with
    | 0 => Some (rd buf p, 1)
    | 1 =>
        if end_ <=? p + 1 then None
        else Some (((rd buf p .& XQC_VINT_MASK) << 8) .| rd buf (p + 1), 2)
    | 2 =>
        if end_ <=? p + 3 then None
        else Some (((rd buf p .& XQC_VINT_MASK) << 24) .| (rd buf (p + 1) << 16)
                   .| (rd buf (p + 2) << 8) .| (rd buf (p + 3) << 0), 4)
    | _ =>
        if end_ <=? p + 7 then None
        else Some (be_val (sub_bytes buf p 8) .& ((1 << 62) - 1), 8)
    end.

(** ** Writing: [xqc_put_varint_len], [xqc_put_varint] *)

Definition xqc_put_varint_len (n : Z) : Z :=
  if n <? 64 then 1
  else if n <? 16384 then 2
  else if n <? 1073741824 then 4
  else 8.

(** The new buffer and the pointer past the bytes written; [None] is [NULL]. *)
Definition xqc_put_varint (buf : list Z) (p n : Z) : option (list Z * Z) :=
  if n <? 64 then Some (wr buf p [u8 n], p + 1)
  else if n <? 16384 then
    let '(buf, rv) := xqc_put_uint16be buf p (u16 n) in
    Some (wr buf p [rd buf p .| 0x40], rv)
  else if n <? 1073741824 then
    let '(buf, rv) := xqc_put_uint32be buf p (u32 n) in
    Some (wr buf p [rd buf p .| 0x80], rv)
  else if 4611686018427387904 <=? n then None
  else
    let '(buf, rv) := xqc_put_uint64be buf p n in
    Some (wr buf p [rd buf p .| 0xc0], rv).

(** ** Reading in pieces: [xqc_discrete_int_parser.c] *)

Record xqc_discrete_int_pctx_t := mk_pctx {
  vi : Z;
  left : Z;
}.

Definition xqc_discrete_int_pctx_clear : xqc_discrete_int_pctx_t := mk_pctx 0 0.

Definition xqc_get_varint_len (b : Z) : Z := 1 << (b >> 6).
Definition xqc_get_varint_fb (b : Z) : Z := b .& 0x3f.

(** [while (pos < end) { vi = (vi << 8) + *pos; pos++; }] over the bytes [bs]. *)
Definition vint_accumulate (vi : Z) (bs : list Z) : Z :=
  fold_left (fun v b => u64 (u64 (v << 8) + b)) bs vi.

(** [p] is the input buffer ([sz] its length); the result is the number of bytes
    read, the context and [*fin]. *)
Definition xqc_discrete_vint_parse (p : list Z) (pctx : xqc_discrete_int_pctx_t)
    : Z * xqc_discrete_int_pctx_t * bool :=
  match p with
  | [] => (0, pctx, false)
  | b :: p' =>
      let '(vi0, left0, pos, rest) :=
        if left pctx =? 0
        then (xqc_get_varint_fb b, xqc_get_varint_len b - 1, 1, p')
        else (vi pctx, left pctx, 0, p) in
      let cnt := Z.min left0 (zlen rest) in
      let vi' := vint_accumulate vi0 (take (Z.to_nat cnt) rest) in
      (pos + cnt, mk_pctx vi' (left0 - cnt), left0 - cnt =? 0)
  end.

Definition xqc_fixed_len_int_parse (p : list Z) (len : Z) (pctx : xqc_discrete_int_pctx_t)
    : Z * xqc_discrete_int_pctx_t * bool :=
  match p with
  | [] => (0, pctx, false)
  | _ =>
      let left0 := if left pctx =? 0 then len else left pctx in
      let cnt := Z.min left0 (zlen p) in
      let vi' := vint_accumulate (vi pctx) (take (Z.to_nat cnt) p) in
      (cnt, mk_pctx vi' (left0 - cnt), left0 - cnt =? 0)
  end.

(** The callers' loop: pieces are parsed as they arrive until [fin]; the result is
    the value and the input left over. *)
Fixpoint discrete_feed (chunks : list (list Z)) (pctx : xqc_discrete_int_pctx_t)
    : option (Z * list Z) :=
  match chunks with
  | [] => None
  | c :: cs =>
      let '(n, pctx', fin) := xqc_discrete_vint_parse c pctx in
      if fin : bool then Some (vi pctx', drop (Z.to_nat n) c ++ concat cs)
      else discrete_feed cs pctx'
  end.

(** ** Lemmas *)

(** The encodings: a length class and a value that fits it. *)
Definition vint_fits (val two_bit : Z) : Prop :=
  (two_bit = 0 \/ two_bit = 1 \/ two_bit = 2 \/ two_bit = 3)
  /\ 0 <= val < 2 ^ xqc_vint_usable_bits two_bit.

Lemma vint_fits_2bit val : 0 <= val <= XQC_VINT_MAX -> vint_fits val (xqc_vint_get_2bit val).
Proof.
  unfold XQC_VINT_MAX, vint_fits, xqc_vint_get_2bit, xqc_vint_usable_bits. intros Hv.
  eval_pow. repeat case_if; zify_bools; try lia; (split; [lia|]); eval_pow; lia.
Qed.

Lemma vint_len_2bit_cases val :
  xqc_vint_len (xqc_vint_get_2bit val) = 1 \/ xqc_vint_len (xqc_vint_get_2bit val) = 2
  \/ xqc_vint_len (xqc_vint_get_2bit val) = 4 \/ xqc_vint_len (xqc_vint_get_2bit val) = 8.
Proof.
  unfold xqc_vint_get_2bit. repeat case_if; compute; tauto.
Qed.

Lemma vint_len_range val : 1 <= xqc_vint_len (xqc_vint_get_2bit val) <= 8.
Proof. pose proof (vint_len_2bit_cases val). lia. Qed.

Lemma drop_be_bytes n k v : (k <= n)%nat -> drop (n - k) (be_bytes n v) = be_bytes k v.
Proof.
  induction n as [|n IH]; intros Hk.
  - by replace k with 0%nat by lia.
  - destruct (decide (k = S n)) as [->|].
    + by rewrite Nat.sub_diag.
    + replace (S n - k)%nat with (S (n - k)) by lia. simpl. apply IH. lia.
Qed.

(** The bytes as a big-endian value, class by class. *)
Lemma vint_bytes_be val two_bit :
  vint_fits val two_bit ->
  xqc_vint_bytes val two_bit (xqc_vint_len two_bit)
  = be_bytes (Z.to_nat (xqc_vint_len two_bit))
      (val + two_bit * 2 ^ xqc_vint_usable_bits two_bit).
Proof.
  intros [Ht Hv]. unfold xqc_vint_bytes.
  rewrite (u64_small (two_bit << _)).
  2:{ destruct Ht as [->|[->|[->| ->]]]; vm_compute; intuition congruence. }
  rewrite lor_shiftl_add; [|destruct Ht as [->|[->|[->| ->]]]; done|done].
  destruct Ht as [->|[->|[->| ->]]].
  - change (Z.to_nat (8 - xqc_vint_len 0)) with (8 - 1)%nat. by rewrite drop_be_bytes by lia.
  - change (Z.to_nat (8 - xqc_vint_len 1)) with (8 - 2)%nat. by rewrite drop_be_bytes by lia.
  - change (Z.to_nat (8 - xqc_vint_len 2)) with (8 - 4)%nat. by rewrite drop_be_bytes by lia.
  - done.
Qed.

Lemma vint_bytes_ok val two_bit len : bytes_ok (xqc_vint_bytes val two_bit len).
Proof. unfold xqc_vint_bytes. apply Forall_drop, be_bytes_ok. Qed.

Lemma zlen_vint_bytes val two_bit len :
  0 <= len <= 8 -> zlen (xqc_vint_bytes val two_bit len) = len.
Proof.
  intros. unfold xqc_vint_bytes, zlen. rewrite length_drop, length_be_bytes. lia.
Qed.

Lemma zlen_vint_bytes_2bit val val' t :
  zlen (xqc_vint_bytes val t (xqc_vint_len (xqc_vint_get_2bit val')))
  = xqc_vint_len (xqc_vint_get_2bit val').
Proof. apply zlen_vint_bytes. pose proof (vint_len_range val'). lia. Qed.

Lemma shiftr6_cases b :
  is_byte b -> exists t r, (t = 0 \/ t = 1 \/ t = 2 \/ t = 3) /\ 0 <= r < 64
    /\ b = t * 64 + r /\ b >> 6 = t /\ b .& 63 = r.
Proof.
  unfold is_byte. intros Hb. exists (b / 64), (b mod 64).
  pose proof (Z.mod_pos_bound b 64). pose proof (Z.div_mod b 64).
  change 63 with (Z.ones 6). rewrite Z.shiftr_div_pow2, Z.land_ones by lia. eval_pow.
  split; [|by repeat split; lia].
  assert (0 <= b / 64 < 4) by (split; [apply Z.div_pos|apply Z.div_lt_upper_bound]; lia). lia.
Qed.

(** What [xqc_vint_read] computes: the first byte gives the length, the value is the
    big-endian value of that many bytes without the two length bits. *)
Lemma vint_read_spec buf p e :
  bytes_ok buf -> 0 <= p -> e <= zlen buf ->
  xqc_vint_read buf p e =
    if e <=? p then None
    else let L := xqc_get_varint_len (rd buf p) in
      if e <? p + L then None
      else Some (be_val (sub_bytes buf p L) mod 2 ^ (8 * L - 2), L).
Proof.
  intros Hb Hp He. unfold xqc_vint_read, XQC_VINT_MASK, xqc_get_varint_len.
  destruct (e <=? p) eqn:E0; [done|].
  pose proof (rd_is_byte buf p Hb) as B0. pose proof (rd_is_byte buf (p + 1) Hb) as B1.
  pose proof (rd_is_byte buf (p + 2) Hb) as B2. pose proof (rd_is_byte buf (p + 3) Hb) as B3.
  change ((1 << 6) - 1) with 63.
  destruct (shiftr6_cases _ B0) as (t & r & Ht & Hr & Hbr & -> & ->). unfold is_byte in *.
  destruct Ht as [->|[->|[->| ->]]]; cbv zeta; eval_pow.
  - destruct (e <? p + 1) eqn:E1; [zb|]. change 1 with (Z.of_nat 1) at 2.
    rewrite (sub_bytes_rd buf p 1) by zb. cbn [seq map]. rewrite Z.add_0_r. unfold be_val.
    cbn [fold_left]. rewrite Z.mod_small by (change (2 ^ (8 * 1 - 2)) with 64; lia).
    f_equal; f_equal; lia.
  - destruct (e <=? p + 1) eqn:E1, (e <? p + 2) eqn:E2; try zb; [done|].
    change 2 with (Z.of_nat 2) at 2. rewrite (sub_bytes_rd buf p 2) by zb.
    rewrite shiftl_lor_add by (eval_pow; lia). cbn [seq map].
    rewrite Z.add_0_r. unfold be_val. cbn [fold_left]. change (Z.of_nat 1) with 1. f_equal. f_equal.
    change (2 ^ (8 * 2 - 2)) with 16384. change (2 ^ 8) with 256. rewrite Hbr.
    apply Z.mod_unique with 1; lia.
  - destruct (e <=? p + 3) eqn:E1, (e <? p + 4) eqn:E2; try zb; [done|].
    change 4 with (Z.of_nat 4) at 2. rewrite (sub_bytes_rd buf p 4) by zb.
    rewrite (shiftl_lor_add (rd buf (p + 1) << 16) r 24)
      by (rewrite ?Z.shiftl_mul_pow2 by lia; eval_pow; lia).
    replace (r * 2 ^ 24 + (rd buf (p + 1) << 16)) with ((r * 256 + rd buf (p + 1)) << 16)
      by (rewrite !Z.shiftl_mul_pow2 by lia; eval_pow; lia).
    rewrite (shiftl_lor_add (rd buf (p + 2) << 8) _ 16)
      by (rewrite ?Z.shiftl_mul_pow2 by lia; eval_pow; lia).
    replace (_ * 2 ^ 16 + (rd buf (p + 2) << 8))
      with (((r * 256 + rd buf (p + 1)) * 256 + rd buf (p + 2)) << 8)
      by (rewrite !Z.shiftl_mul_pow2 by lia; eval_pow; lia).
    rewrite Z.shiftl_0_r, shiftl_lor_add by (eval_pow; lia).
    cbn [seq map]. rewrite Z.add_0_r. unfold be_val.
    cbn [fold_left].
    change (Z.of_nat 1) with 1. change (Z.of_nat 2) with 2. change (Z.of_nat 3) with 3. f_equal. f_equal.
    change (2 ^ (8 * 4 - 2)) with 1073741824. change (2 ^ 8) with 256. rewrite Hbr.
    apply Z.mod_unique with 2; lia.
  - destruct (e <=? p + 7) eqn:E1, (e <? p + 8) eqn:E2; try zb; [done|].
    change (4611686018427387904 - 1) with (Z.ones 62). by rewrite Z.land_ones by lia.
Qed.

Lemma varint_len_cases b :
  is_byte b -> xqc_get_varint_len b = 1 \/ xqc_get_varint_len b = 2
    \/ xqc_get_varint_len b = 4 \/ xqc_get_varint_len b = 8.
Proof.
  intros Hb. destruct (shiftr6_cases b Hb) as (t & r & Ht & _ & _ & E & _).
  unfold xqc_get_varint_len. rewrite E. destruct Ht as [->|[->|[->| ->]]]; compute; tauto.
Qed.

(** The first byte of an encoding announces its length class. *)
Lemma vint_bytes_hd val t :
  vint_fits val t ->
  exists b bs, xqc_vint_bytes val t (xqc_vint_len t) = b :: bs
    /\ xqc_get_varint_len b = xqc_vint_len t.
Proof.
  intros Hf. rewrite vint_bytes_be by done. destruct Hf as [Ht Hv].
  unfold xqc_vint_usable_bits, xqc_get_varint_len, xqc_vint_len, u8 in *.
  destruct Ht as [->|[->|[->| ->]]]; eval_pow;
  match goal with |- context [Z.to_nat ?l] =>
    let n := eval vm_compute in (Z.to_nat l) in change (Z.to_nat l) with n end;
  cbn [be_bytes]; (eexists _, _; split; [done|]); unfold u8;
  rewrite !Z.shiftr_div_pow2 by lia;
  match goal with |- 1 << ?x = ?y =>
    let t := match y with 1 => constr:(0) | 2 => constr:(1) | 4 => constr:(2) | 8 => constr:(3) end in
    replace x with t; [done|] end;
  eval_pow; Z.to_euclidean_division_equations; lia.
Qed.

(** Reading what [xqc_vint_write] put there, whatever length class it used. *)
Lemma vint_read_at buf p e val t :
  bytes_ok buf -> vint_fits val t ->
  bytes_at buf p (xqc_vint_bytes val t (xqc_vint_len t)) ->
  p + xqc_vint_len t <= e -> e <= zlen buf ->
  xqc_vint_read buf p e = Some (val, xqc_vint_len t).
Proof.
  intros Hb Hf Hat He Hz. pose proof (bytes_at_nonneg _ _ _ Hat) as Hp.
  rewrite vint_read_spec by done.
  destruct (vint_bytes_hd _ _ Hf) as (b & bs & Eb & El).
  assert (0 < xqc_vint_len t <= 8 /\ 2 ^ (8 * xqc_vint_len t - 2) = 2 ^ xqc_vint_usable_bits t
    /\ 256 ^ xqc_vint_len t = 4 * 2 ^ xqc_vint_usable_bits t /\ 0 <= t < 4) as (Hl & Hpow & H256 & Ht).
  { destruct Hf as [[->|[->|[->| ->]]] _]; vm_compute; intuition congruence. }
  destruct (e <=? p) eqn:E1; [zb|]. cbv zeta.
  pose proof Hat as Hat'. rewrite Eb in Hat'. rewrite (bytes_at_rd _ _ _ _ Hat'), El.
  destruct (e <? p + xqc_vint_len t) eqn:E2; [zb|]. f_equal. f_equal.
  apply bytes_at_sub in Hat. rewrite zlen_vint_bytes in Hat by lia. rewrite Hat.
  rewrite vint_bytes_be, be_val_be_bytes by done. destruct Hf as [_ Hv].
  rewrite Z2Nat.id by lia. rewrite Hpow, H256, (Z.mod_small (val + _)) by nia.
  rewrite Z.mod_add by lia. by apply Z.mod_small.
Qed.

(** ** Theorems *)

(** An integer written with the sizing macros and [xqc_vint_write] is read back by
    [xqc_vint_read], with the length the macros announced. *)
Theorem vint_roundtrip buf dst e val :
  bytes_ok buf -> 0 <= val <= XQC_VINT_MAX -> 0 <= dst ->
  dst + xqc_vint_len (xqc_vint_get_2bit val) <= e -> e <= zlen buf ->
  xqc_vint_read
    (xqc_vint_write buf dst val (xqc_vint_get_2bit val) (xqc_vint_len (xqc_vint_get_2bit val)))
    dst e
  = Some (val, xqc_vint_len (xqc_vint_get_2bit val)).
Proof.
  intros Hb Hv Hd He Hz. unfold xqc_vint_write.
  apply vint_read_at; eauto using bytes_ok_wr, vint_bytes_ok, vint_fits_2bit.
  - apply bytes_at_wr; [done|]. rewrite zlen_vint_bytes_2bit. lia.
  - by rewrite zlen_wr.
Qed.

Lemma vint_roundtrip_witness :
  xqc_vint_read (xqc_vint_write (repeat 0 20) 3 494878333 2 4) 3 20 = Some (494878333, 4).
Proof.
  apply (vint_roundtrip (repeat 0 20) 3 20 494878333); by_decide.
Defined.

Lemma vint_len_put_varint_len n : xqc_vint_len (xqc_vint_get_2bit n) = xqc_put_varint_len n.
Proof.
  unfold xqc_vint_get_2bit, xqc_put_varint_len. eval_pow.
  repeat case_if; zify_bools; try lia; done.
Qed.

(** Setting the length bits in the first byte already written, as [xqc_put_varint] does,
    is writing the value with those bits added. *)
Lemma be_bytes_or_hd m n t :
  0 <= t < 4 -> 0 <= n < 2 ^ (8 * Z.of_nat m + 6) ->
  (u8 (n >> (8 * Z.of_nat m)) .| t << 6) :: be_bytes m n
  = be_bytes (S m) (n + t * 2 ^ (8 * Z.of_nat m + 6)).
Proof.
  intros Ht Hn. cbn [be_bytes].
  replace (t * 2 ^ (8 * Z.of_nat m + 6)) with ((t * 64) * 256 ^ Z.of_nat m).
  2:{ rewrite Z.pow_add_r, (Z.pow_mul_r 2 8) by lia. eval_pow. lia. }
  rewrite be_bytes_add. f_equal. unfold u8. rewrite !Z.shiftr_div_pow2 by lia.
  replace (2 ^ (8 * Z.of_nat m)) with (256 ^ Z.of_nat m)
    by (rewrite <- (Z.pow_mul_r 2 8) by lia; done).
  rewrite Z.pow_add_r, (Z.pow_mul_r 2 8) in Hn by lia.
  change ((2 ^ 8) ^ Z.of_nat m) with (256 ^ Z.of_nat m) in Hn. change (2 ^ 6) with 64 in Hn.
  pose proof (Z.pow_pos_nonneg 256 (Z.of_nat m) eq_refl (Nat2Z.is_nonneg m)).
  rewrite Z.div_add by lia. set (q := n / 256 ^ Z.of_nat m).
  assert (0 <= q < 64) by (split; [apply Z.div_pos | apply Z.div_lt_upper_bound]; lia).
  change (2 ^ 8) with 256. rewrite !Z.mod_small by lia.
  rewrite lor_shiftl_add by (eval_pow; lia). done.
Qed.

Lemma put_varint_eq buf p n :
  0 <= n < 2 ^ 64 -> 0 <= p -> p + xqc_put_varint_len n <= zlen buf ->
  xqc_put_varint buf p n =
    if n <=? XQC_VINT_MAX
    then Some (xqc_vint_write buf p n (xqc_vint_get_2bit n) (xqc_put_varint_len n),
               p + xqc_put_varint_len n)
    else None.
Proof.
  intros Hn Hp Hz. rewrite <- vint_len_put_varint_len in *. revert Hz.
  unfold xqc_put_varint, xqc_put_uint16be, xqc_put_uint32be, xqc_put_uint64be, xqc_vint_write.
  destruct (n <=? XQC_VINT_MAX) eqn:Hm.
  - rewrite vint_bytes_be by (apply vint_fits_2bit; zb). unfold XQC_VINT_MAX in Hm.
    unfold xqc_vint_get_2bit. eval_pow. intros Hz.
    assert (forall m t, Z.of_nat (S m) <= zlen buf - p -> 0 <= t < 4 ->
      0 <= n < 2 ^ (8 * Z.of_nat m + 6) ->
      let buf' := wr buf p (be_bytes (S m) n) in
      wr buf' p [rd buf' p .| t << 6]
      = wr buf p (be_bytes (S m) (n + t * 2 ^ (8 * Z.of_nat m + 6)))) as Hstep.
    { intros m t Hm' Ht Hr. cbn [be_bytes]. rewrite wr_overwrite_hd, rd_wr_hd by lia.
      by rewrite be_bytes_or_hd. }
    repeat case_if; zify_bools; try lia; revert Hz;
      unfold xqc_vint_len, xqc_vint_usable_bits; eval_pow; intros Hz.
    + rewrite u8_small by lia. do 3 f_equal.
      replace (n + (0 + 0 + 0) * 64) with n by lia. change (Z.to_nat 1) with 1%nat. cbn [be_bytes].
      change (8 * Z.of_nat 0) with 0. by rewrite Z.shiftr_0_r, u8_small by lia.
    + rewrite u16_small by lia. f_equal. f_equal. apply (Hstep 1%nat 1); eval_pow; lia.
    + rewrite u32_small by lia. f_equal. f_equal. apply (Hstep 3%nat 2); eval_pow; lia.
    + f_equal. f_equal. apply (Hstep 7%nat 3); eval_pow; lia.
  - intros _. unfold XQC_VINT_MAX in Hm. eval_pow. repeat case_if; zify_bools; try lia; done.
Qed.

(** [xqc_put_varint] writes exactly what the [xqc_vint_write] macro writes at its
    minimal length, returns the pointer past it, reports the length
    [xqc_put_varint_len] announces, and refuses ([NULL]) what 62 bits cannot hold. *)
Theorem put_varint_is_vint_write buf p n :
  0 <= n < 2 ^ 64 -> 0 <= p -> p + xqc_put_varint_len n <= zlen buf ->
  xqc_put_varint buf p n =
    if n <=? XQC_VINT_MAX
    then Some (xqc_vint_write buf p n (xqc_vint_get_2bit n) (xqc_put_varint_len n),
               p + xqc_put_varint_len n)
    else None.
Proof. apply put_varint_eq. Qed.

Lemma put_varint_is_vint_write_witness :
  xqc_put_varint (repeat 0 4) 1 16383 = Some (xqc_vint_write (repeat 0 4) 1 16383 1 2, 3).
Proof. apply (put_varint_is_vint_write (repeat 0 4) 1 16383); by_decide. Defined.

(** A first byte splits into its length class and its six value bits. *)
Lemma varint_first_byte b :
  is_byte b -> exists t r, b = t * 64 + r /\ 0 <= r < 64 /\ xqc_get_varint_fb b = r
    /\ xqc_get_varint_len b = xqc_vint_len t /\ (t = 0 \/ t = 1 \/ t = 2 \/ t = 3).
Proof.
  intros Hb. destruct (shiftr6_cases b Hb) as (t & r & Ht & Hr & Hbr & E1 & E2).
  exists t, r. unfold xqc_get_varint_len, xqc_get_varint_fb. rewrite E1, E2. tauto.
Qed.

Lemma vint_len_facts t :
  (t = 0 \/ t = 1 \/ t = 2 \/ t = 3) ->
  0 < xqc_vint_len t <= 8 /\ 8 * xqc_vint_len t - 2 = xqc_vint_usable_bits t
  /\ 0 <= 8 * xqc_vint_len t - 2 <= 62.
Proof. intros [->|[->|[->| ->]]]; vm_compute; intuition congruence. Qed.

(** Dropping the two length bits of a big-endian value. *)
Lemma be_val_mask t r l :
  0 <= r < 64 -> bytes_ok l ->
  be_val ((t * 64 + r) :: l)
    = t * 2 ^ (8 * (1 + zlen l) - 2) + (r * 256 ^ zlen l + be_val l)
  /\ be_val ((t * 64 + r) :: l) mod 2 ^ (8 * (1 + zlen l) - 2) = r * 256 ^ zlen l + be_val l.
Proof.
  intros Hr Hl. pose proof (be_val_bound l Hl) as Hbd. pose proof (zlen_nonneg l).
  replace (8 * (1 + zlen l) - 2) with (6 + 8 * zlen l) by lia.
  rewrite Z.pow_add_r, (Z.pow_mul_r 2 8) by lia. change ((2 ^ 8) ^ zlen l) with (256 ^ zlen l).
  change (2 ^ 6) with 64. rewrite be_val_cons.
  replace ((t * 64 + r) * 256 ^ zlen l + be_val l)
    with ((r * 256 ^ zlen l + be_val l) + t * (64 * 256 ^ zlen l)) by lia.
  split; [lia|]. rewrite Z.mod_add by nia. apply Z.mod_small. nia.
Qed.

(** Whatever [xqc_vint_read] accepts is the encoding of the value it returns, in the
    length class it returns, inside the input: reading loses nothing but the choice of
    length class. *)
Theorem vint_read_sound buf p e val n :
  bytes_ok buf -> 0 <= p -> e <= zlen buf -> xqc_vint_read buf p e = Some (val, n) ->
  0 <= val <= XQC_VINT_MAX /\ p + n <= e /\
  exists t, n = xqc_vint_len t /\ vint_fits val t /\ bytes_at buf p (xqc_vint_bytes val t n).
Proof.
  intros Hb Hp He Hr. rewrite vint_read_spec in Hr by done.
  destruct (e <=? p) eqn:E0; [done|]. cbv zeta in Hr.
  destruct (e <? _) eqn:E1; [done|]. injection Hr as <- <-. zify_bools.
  destruct (varint_first_byte _ (rd_is_byte buf p Hb)) as (t & r & Hb0 & Hr & _ & HL & Ht).
  rewrite HL in *. destruct (vint_len_facts t Ht) as (HL1 & HL2 & HL3).
  set (L := xqc_vint_len t) in *. rewrite (sub_bytes_cons buf p L), Hb0 by lia.
  set (l := sub_bytes buf (p + 1) (L - 1)).
  assert (bytes_ok l) as Hl by (by apply bytes_ok_sub).
  assert (zlen l = L - 1) as Hzl by (apply zlen_sub_bytes; lia).
  destruct (be_val_mask t r l Hr Hl) as [Hv1 Hv2]. rewrite Hzl in Hv1, Hv2.
  replace (1 + (L - 1)) with L in Hv1, Hv2 by lia. rewrite HL2 in *. rewrite Hv2.
  assert (vint_fits (r * 256 ^ (L - 1) + be_val l) t) as Hf.
  { split; [done|]. rewrite <- Hv2. apply Z.mod_pos_bound, Z.pow_pos_nonneg; lia. }
  split; [|split; [lia|exists t; split; [done|split; [done|]]]].
  - destruct Hf as [_ Hf]. unfold XQC_VINT_MAX. change (1 << 62) with (2 ^ 62).
    pose proof (Z.pow_le_mono_r 2 (xqc_vint_usable_bits t) 62). lia.
  - unfold L at 2. rewrite vint_bytes_be by done. fold L. rewrite Z.add_comm, <- Hv1.
    replace (Z.to_nat L) with (length ((t * 64 + r) :: l)) by (simpl; unfold zlen in Hzl; lia).
    rewrite be_bytes_be_val by (constructor; [by rewrite <- Hb0; apply rd_is_byte | done]).
    rewrite <- Hb0. unfold l. rewrite <- sub_bytes_cons by lia.
    apply bytes_at_sub_bytes; lia.
Qed.

Lemma vint_read_sound_witness :
  0 <= 15293 <= XQC_VINT_MAX /\ 0 + 2 <= 2 /\
  exists t, 2 = xqc_vint_len t /\ vint_fits 15293 t
    /\ bytes_at [0x7b; 0xbd] 0 (xqc_vint_bytes 15293 t 2).
Proof. apply (vint_read_sound [0x7b; 0xbd] 0 2 15293 2); [by_decide ..|reflexivity]. Defined.

(** [xqc_vint_read] looks at the bytes before [end] only. *)
Lemma vint_read_agree b1 b2 p e :
  agree b1 b2 p e -> 0 <= p -> e <= zlen b1 -> e <= zlen b2 ->
  xqc_vint_read b1 p e = xqc_vint_read b2 p e.
Proof.
  intros Ha Hp H1 H2. unfold xqc_vint_read. destruct (e <=? p) eqn:E0; [done|].
  rewrite (Ha p) by zb.
  destruct (e <=? p + 1) eqn:E1, (e <=? p + 3) eqn:E3, (e <=? p + 7) eqn:E7; try zb; try done.
  - by rewrite ?(Ha (p + 1)) by zb.
  - by rewrite ?(Ha (p + 1)), ?(Ha (p + 2)), ?(Ha (p + 3)) by zb.
  - rewrite (agree_sub_bytes b1 b2 p 8 e) by (done || zb).
    by rewrite ?(Ha (p + 1)), ?(Ha (p + 2)), ?(Ha (p + 3)) by zb.
Qed.

Lemma vint_read_len buf p e val n :
  xqc_vint_read buf p e = Some (val, n) -> 1 <= n <= 8 /\ p + n <= e.
Proof.
  unfold xqc_vint_read. destruct (e <=? p) eqn:E0; [done|].
  repeat case_match; intros; simplify_eq; zb.
Qed.

Lemma vint_read_range buf p e val n :
  bytes_ok buf -> 0 <= p -> e <= zlen buf -> xqc_vint_read buf p e = Some (val, n) ->
  0 <= val < 2 ^ 62.
Proof.
  intros Hb Hp He Hr. rewrite vint_read_spec in Hr by done.
  destruct (e <=? p); [done|]. cbv zeta in Hr. destruct (e <? _); [done|].
  injection Hr as <- <-. set (L := xqc_get_varint_len _).
  assert (2 <= 8 * L <= 64) as HL.
  { pose proof (varint_len_cases _ (rd_is_byte buf p Hb)) as HL. fold L in HL. lia. }
  pose proof (Z.mod_pos_bound (be_val (sub_bytes buf p L)) (2 ^ (8 * L - 2))
    ltac:(apply Z.pow_pos_nonneg; lia)).
  pose proof (Z.pow_le_mono_r 2 (8 * L - 2) 62). lia.
Qed.

(** ** Reading in pieces *)

Lemma vint_accumulate_spec bs v :
  bytes_ok bs -> 0 <= v -> (v + 1) * 256 ^ zlen bs <= 2 ^ 64 ->
  vint_accumulate v bs = v * 256 ^ zlen bs + be_val bs.
Proof.
  intros Hb. revert v. induction Hb as [|b bs Hb Hbs IH]; intros v Hv Hlim.
  - rewrite zlen_nil. unfold vint_accumulate, be_val. cbn [fold_left]. lia.
  - pose proof (zlen_nonneg bs). rewrite zlen_cons, Z.pow_add_r in Hlim |- * by lia.
    unfold is_byte in Hb. change (256 ^ 1) with 256 in *.
    assert (1 <= 256 ^ zlen bs) by (pose proof (Z.pow_pos_nonneg 256 (zlen bs)); lia).
    unfold vint_accumulate. cbn [fold_left]. fold (vint_accumulate (u64 (u64 (v << 8) + b)) bs).
    rewrite Z.shiftl_mul_pow2 by lia. change (2 ^ 8) with 256.
    rewrite !u64_small by (rewrite ?u64_small; nia).
    rewrite IH, be_val_cons by nia. lia.
Qed.

(** One call in the middle of an integer. *)
Lemma discrete_parse_more p v lft :
  bytes_ok p -> 0 <= v -> 0 < lft -> (v + 1) * 256 ^ lft <= 2 ^ 64 -> p <> [] ->
  xqc_discrete_vint_parse p (mk_pctx v lft)
  = let cnt := Z.min lft (zlen p) in
    (cnt, mk_pctx (v * 256 ^ cnt + be_val (take (Z.to_nat cnt) p)) (lft - cnt), lft - cnt =? 0).
Proof.
  intros Hp Hv Hl Hlim Hne. destruct p as [|b p']; [done|]. unfold xqc_discrete_vint_parse.
  cbn [left vi]. destruct (lft =? 0) eqn:E; [zb|]. rewrite Z.add_0_l.
  set (p := b :: p') in *. set (cnt := Z.min lft (zlen p)). cbv zeta.
  pose proof (zlen_nonneg p).
  assert (zlen (take (Z.to_nat cnt) p) = cnt) as Hc
    by (unfold cnt, zlen in *; rewrite length_take; lia).
  rewrite vint_accumulate_spec, Hc; [done | by apply Forall_take | done |].
  pose proof (Z.pow_le_mono_r 256 cnt lft). rewrite Hc. nia.
Qed.

(** Feeding the rest of an integer of which [lft] bytes are missing. *)
Lemma discrete_feed_more chunks v lft :
  bytes_ok (concat chunks) -> 0 <= v -> 0 < lft -> (v + 1) * 256 ^ lft <= 2 ^ 64 ->
  discrete_feed chunks (mk_pctx v lft)
  = if zlen (concat chunks) <? lft then None
    else Some (v * 256 ^ lft + be_val (take (Z.to_nat lft) (concat chunks)),
               drop (Z.to_nat lft) (concat chunks)).
Proof.
  revert v lft. induction chunks as [|c cs IH]; intros v lft Hb Hv Hl Hlim.
  { cbn [discrete_feed concat]. rewrite zlen_nil. destruct (0 <? lft) eqn:E; [done|zb]. }
  cbn [concat] in Hb |- *. apply bytes_ok_app in Hb as [Hc Hcs]. cbn [discrete_feed].
  destruct c as [|b c'].
  { cbn [xqc_discrete_vint_parse app]. by apply IH. }
  rewrite discrete_parse_more by done. set (c := b :: c') in *. cbv zeta. cbn [vi].
  pose proof (zlen_nonneg c). pose proof (zlen_nonneg (concat cs)). rewrite zlen_app.
  destruct (Z.le_gt_cases lft (zlen c)) as [Hle|Hgt].
  - rewrite Z.min_l by lia. rewrite Z.sub_diag. cbn [Z.eqb].
    destruct (_ <? lft) eqn:E; [zb|]. unfold zlen in Hle.
    by rewrite take_app_le, drop_app_le by lia.
  - rewrite Z.min_r by lia. destruct (lft - zlen c =? 0) eqn:E; [zb|].
    unfold zlen at 2. rewrite Nat2Z.id, take_ge by done.
    pose proof (be_val_bound c Hc) as Hbd.
    assert (256 ^ lft = 256 ^ zlen c * 256 ^ (lft - zlen c)) as Hpow
      by (rewrite <- Z.pow_add_r by lia; f_equal; lia).
    rewrite IH; [|done|nia|lia|rewrite Hpow in Hlim; nia].
    replace (zlen c + zlen (concat cs) <? lft) with (zlen (concat cs) <? lft - zlen c)
      by (destruct (_ <? _) eqn:E1, (_ + _ <? _) eqn:E2; zb || done).
    destruct (_ <? _) eqn:E2; [done|]. unfold zlen in Hgt.
    replace (Z.to_nat lft) with (length c + Z.to_nat (lft - zlen c))%nat
      by (unfold zlen; lia).
    rewrite take_app_add, drop_app_add, be_val_app. zify_bools.
    assert (zlen (take (Z.to_nat (lft - zlen c)) (concat cs)) = lft - zlen c) as ->
      by (unfold zlen in *; rewrite length_take; lia).
    rewrite Hpow. do 2 f_equal. lia.
Qed.

(** The first byte of an integer, and what is left of the piece it came in. *)
Lemma discrete_feed_first b c cs :
  is_byte b -> bytes_ok (c ++ concat cs) ->
  discrete_feed ((b :: c) :: cs) xqc_discrete_int_pctx_clear
  = if xqc_get_varint_len b =? 1 then Some (xqc_get_varint_fb b, c ++ concat cs)
    else discrete_feed (c :: cs) (mk_pctx (xqc_get_varint_fb b) (xqc_get_varint_len b - 1)).
Proof.
  intros Hb Hc. cbn [discrete_feed xqc_discrete_vint_parse left xqc_discrete_int_pctx_clear Z.eqb].
  pose proof (varint_len_cases b Hb) as HL. pose proof (zlen_nonneg c).
  destruct (_ =? 1) eqn:E; zify_bools.
  - rewrite E. cbn [Z.sub Z.pos_sub]. rewrite Z.min_l by lia. done.
  - set (L := xqc_get_varint_len b - 1) in *. destruct c as [|b' c'].
    + cbn [xqc_discrete_vint_parse]. rewrite zlen_nil, Z.min_r by lia.
      destruct (L - 0 =? 0) eqn:E0; [zb|]. rewrite Z.sub_0_r. done.
    + cbn [xqc_discrete_vint_parse left vi]. replace (L =? 0) with false by zb.
      destruct (L - _ =? 0) eqn:E0; [|done]. f_equal. f_equal.
      rewrite Z2Nat.inj_add by lia. done.
Qed.

(** An integer read in pieces, however the stream is cut, is the integer
    [xqc_vint_read] reads from the whole stream, and the same input is left over. *)
Theorem discrete_feed_is_vint_read chunks :
  bytes_ok (concat chunks) ->
  discrete_feed chunks xqc_discrete_int_pctx_clear
  = match xqc_vint_read (concat chunks) 0 (zlen (concat chunks)) with
    | Some (val, n) => Some (val, drop (Z.to_nat n) (concat chunks))
    | None => None
    end.
Proof.
  intros Hb. rewrite vint_read_spec by done.
  induction chunks as [|c cs IH]; [done|]. destruct c as [|b c].
  { cbn [concat app] in *. cbn [discrete_feed xqc_discrete_vint_parse]. by apply IH. }
  clear IH. cbn [concat app] in *. apply Forall_cons in Hb as [Hb Hbs].
  set (l := c ++ concat cs) in *. change (rd (b :: l) 0) with b.
  rewrite discrete_feed_first by done. pose proof (zlen_nonneg l). rewrite zlen_cons.
  destruct (_ <=? 0) eqn:E0; [zb|]. cbv zeta.
  destruct (varint_first_byte b Hb) as (t & r & Hbr & Hr & Hfb & HL & Ht).
  destruct (vint_len_facts t Ht) as (HL1 & HL2 & HL3). rewrite HL, Hfb in *.
  set (L := xqc_vint_len t) in *.
  assert (forall k, 0 <= k <= zlen l -> zlen (take (Z.to_nat k) l) = k) as Htake
    by (intros; unfold zlen in *; rewrite length_take; lia).
  assert ((1 + zlen l <? 0 + L) = false ->
    be_val (sub_bytes (b :: l) 0 L) mod 2 ^ (8 * L - 2)
    = r * 256 ^ (L - 1) + be_val (take (Z.to_nat (L - 1)) l)) as Hval.
  { intros E. unfold sub_bytes. cbn [drop Z.to_nat].
    replace (Z.to_nat L) with (S (Z.to_nat (L - 1))) by lia. cbn [take]. rewrite Hbr.
    destruct (be_val_mask t r (take (Z.to_nat (L - 1)) l) Hr (Forall_take _ _ _ Hbs)) as [_ Hm].
    rewrite Htake in Hm by zb. replace (1 + (L - 1)) with L in Hm by lia. done. }
  destruct (L =? 1) eqn:E1; zify_bools.
  - destruct (_ <? _) eqn:E2; [zb|]. rewrite Hval, E1 by done. cbn [drop Z.to_nat Z.sub Z.pos_sub].
    change (Pos.to_nat 1) with 1%nat. cbn [drop take]. unfold be_val. cbn [fold_left].
    eval_pow. change (Z.to_nat (1 - 1)) with 0%nat. rewrite firstn_O. cbn [fold_left].
    do 2 f_equal. lia.
  - rewrite discrete_feed_more; [|done|lia|lia|].
    + fold l. replace (1 + zlen l <? 0 + L) with (zlen l <? L - 1) in *
        by (destruct (_ <? _) eqn:?, (_ + _ <? _) eqn:?; zb || done).
      destruct (_ <? _) eqn:E2; [done|]. rewrite Hval by done.
      replace (Z.to_nat L) with (S (Z.to_nat (L - 1))) by lia. done.
    + assert (256 ^ (L - 1) * 64 <= 2 ^ 64); [|nia].
      unfold L. destruct Ht as [->|[->|[->| ->]]]; vm_compute; congruence.
Qed.

Lemma discrete_feed_is_vint_read_witness :
  discrete_feed [[0xc2; 0x19]; []; [0x7c; 0x5e; 0xff; 0x14]; [0xe8; 0x8c; 7; 9]]
    xqc_discrete_int_pctx_clear = Some (151288809941952652, [7; 9]).
Proof.
  exact (discrete_feed_is_vint_read
    [[0xc2; 0x19]; []; [0x7c; 0x5e; 0xff; 0x14]; [0xe8; 0x8c; 7; 9]] ltac:(by_decide)).
Defined.

End VInt.
