(* ===== verification/RecvRecord.v ===== *)
(** Received packet-number ranges: [src/transport/xqc_recv_record.c].

    The record is the list of ranges of packet numbers received in a packet number
    space, largest first, from which ACK frames are generated. *)

From stdpp Require Import base numbers list sorting relations.
From S2P Require Import Prelude.

Module RecvRecord.

Inductive xqc_pkt_range_status :=
| XQC_PKTRANGE_OK
| XQC_PKTRANGE_DUP
| XQC_PKTRANGE_ERR.

Record xqc_pktno_range_t := mk_range {
  low : Z;
  high : Z;
}.

Record xqc_recv_record_t := mk_record {
  ranges : list xqc_pktno_range_t;
  rr_del_from : Z;
  node_count : Z;
}.

Definition XQC_MAX_ACK_RANGE_CNT : Z := 64.

#[export] Instance range_eq_dec : EqDecision xqc_pktno_range_t.
Proof. solve_decision. Defined.

#[export] Instance status_eq_dec : EqDecision xqc_pkt_range_status.
Proof. solve_decision. Defined.

(** ** Operations *)

(** [Some] is the node after the merge (the function returns 1), [None] is 0. *)
Definition xqc_pktno_range_can_merge (node : xqc_pktno_range_t) (packet_number : Z)
    : option xqc_pktno_range_t :=
  if u64 (low node - 1) =? packet_number then Some (mk_range (u64 (low node - 1)) (high node))
  else if u64 (high node + 1) =? packet_number
  then Some (mk_range (low node) (u64 (high node + 1)))
  else None.

(** Where the first loop of [xqc_recv_record_add] stops. [pre] holds the nodes passed,
    the last one ([prev]) first. *)
Inductive find_result :=
| FoundDup
| FoundPos (pre : list xqc_pktno_range_t) (pos : xqc_pktno_range_t) (post : list xqc_pktno_range_t)
| FoundEnd (pre : list xqc_pktno_range_t).

Fixpoint record_find (packet_number : Z) (pre l : list xqc_pktno_range_t) : find_result :=
  match l with
  | [] => FoundEnd pre
  | pnode :: post =>
      if packet_number <=? high pnode then
        if low pnode <=? packet_number then FoundDup
        else record_find packet_number (pnode :: pre) post
      else FoundPos pre pnode post
  end.

(** The reverse loop that deletes nodes from the tail; [l] is the list reversed. *)
Fixpoint record_trim (l : list xqc_pktno_range_t) (count : Z)
    : list xqc_pktno_range_t * Z :=
  match l with
  | [] => ([], count)
  | _ :: l' =>
      let count := count - 1 in
      if count <=? XQC_MAX_ACK_RANGE_CNT then (l', count) else record_trim l' count
  end.

(** The list [l] has one more node: count it, and cut the list to the limit. *)
Definition record_insert (rr : xqc_recv_record_t) (l : list xqc_pktno_range_t)
    : xqc_recv_record_t :=
  let count := node_count rr + 1 in
  if XQC_MAX_ACK_RANGE_CNT <? count then
    let '(l', count') := record_trim (reverse l) count in
    mk_record (reverse l') (rr_del_from rr) count'
  else mk_record l (rr_del_from rr) count.

(** The two merge attempts: [prev_node] first, then [pnode]. *)
Definition try_merge (prev_node pnode : option xqc_pktno_range_t) (packet_number : Z)
    : option (option xqc_pktno_range_t * option xqc_pktno_range_t) :=
  match prev_node ≫= fun pv => xqc_pktno_range_can_merge pv packet_number with
  | Some pv' => Some (Some pv', pnode)
  | None =>
      match pnode ≫= fun pn => xqc_pktno_range_can_merge pn packet_number with
      | Some pn' => Some (prev_node, Some pn')
      | None => None
      end
  end.

(** [calloc_ok]: whether [xqc_calloc] of a new node succeeds. *)
Definition xqc_recv_record_add (calloc_ok : bool) (rr : xqc_recv_record_t) (packet_number : Z)
    : xqc_pkt_range_status * xqc_recv_record_t :=
  let mk l c := mk_record l (rr_del_from rr) c in
  let count := node_count rr in
  let new_node := mk_range packet_number packet_number in
  match record_find packet_number [] (ranges rr) with
  | FoundDup => (XQC_PKTRANGE_DUP, rr)
  | FoundPos pre pos post =>
      match try_merge (head pre) (Some pos) packet_number with
      | Some (Some pv, Some pn) =>
          if u64 (low pv - 1) =? high pn
          then (XQC_PKTRANGE_OK,
                mk (reverse (tail pre) ++ mk_range (low pn) (high pv) :: post) (count - 1))
          else (XQC_PKTRANGE_OK, mk (reverse (tail pre) ++ pv :: pn :: post) count)
      | Some (_, Some pn) => (XQC_PKTRANGE_OK, mk (reverse pre ++ pn :: post) count)
      | Some (_, None) => (XQC_PKTRANGE_OK, rr)
      | None =>
          if calloc_ok
          then (XQC_PKTRANGE_OK, record_insert rr (reverse pre ++ new_node :: pos :: post))
          else (XQC_PKTRANGE_ERR, rr)
      end
  | FoundEnd pre =>
      (* the loop ended: [pnode] and [prev_node] are both the last node *)
      match head pre ≫= fun nd => xqc_pktno_range_can_merge nd packet_number with
      | Some nd' =>
          if u64 (low nd' - 1) =? high nd'
          then (* [pos] is the list head here: deleting it empties the list *)
            (XQC_PKTRANGE_OK, mk [] (count - 1))
          else (XQC_PKTRANGE_OK, mk (reverse (tail pre) ++ [nd']) count)
      | None =>
          if calloc_ok then
            if count <? XQC_MAX_ACK_RANGE_CNT
            then (XQC_PKTRANGE_OK, mk (reverse pre ++ [new_node]) (count + 1))
            else (XQC_PKTRANGE_OK, rr)
          else (XQC_PKTRANGE_ERR, rr)
      end
  end.

(** The loop of [xqc_recv_record_del]: the ranges kept and the new node count. *)
Fixpoint record_del_loop (l : list xqc_pktno_range_t) (del_from count : Z)
    : list xqc_pktno_range_t * Z :=
  match l with
  | [] => ([], count)
  | range :: l' =>
      if low range <? del_from then
        if high range <? del_from then record_del_loop l' del_from (count - 1)
        else
          let '(k, c) := record_del_loop l' del_from count in
          (mk_range del_from (high range) :: k, c)
      else
        let '(k, c) := record_del_loop l' del_from count in
        (range :: k, c)
  end.

Definition xqc_recv_record_del (rr : xqc_recv_record_t) (del_from : Z) : xqc_recv_record_t :=
  if del_from <? rr_del_from rr then rr
  else
    let '(l, c) := record_del_loop (ranges rr) del_from (node_count rr) in
    mk_record l del_from c.

Definition xqc_recv_record_destroy (rr : xqc_recv_record_t) : xqc_recv_record_t :=
  mk_record [] 0 0.

(** Returns the new [dst] and [src]. *)
Definition xqc_recv_record_move (dst src : xqc_recv_record_t)
    : xqc_recv_record_t * xqc_recv_record_t :=
  let dst := xqc_recv_record_destroy dst in
  let '(dl, sl) := match ranges src with
                   | [] => (ranges dst, [])
                   | l => (l, [])
                   end in
  (mk_record dl (rr_del_from src) (node_count src), mk_record sl 0 0).

Definition xqc_recv_record_largest (rr : xqc_recv_record_t) : Z :=
  match ranges rr with
  | [] => 0
  | pnode :: _ => high pnode
  end.

(** ** What the record means *)

Definition in_range (q : Z) (r : xqc_pktno_range_t) : Prop := low r <= q <= high r.

#[export] Instance in_range_dec q r : Decision (in_range q r).
Proof. unfold in_range. apply _. Defined.

(** [q] is recorded as received. *)
Definition received (rr : xqc_recv_record_t) (q : Z) : Prop := Exists (in_range q) (ranges rr).

(** A range of representable packet numbers ([RFC 9000]: below [2^62]). *)
Definition range_ok (r : xqc_pktno_range_t) : Prop := 0 <= low r <= high r /\ high r < 2 ^ 62.

(** [a] comes before [b] in the list: its numbers are larger, with a gap between. *)
Definition range_gt (a b : xqc_pktno_range_t) : Prop := high b + 1 < low a.

Definition ranges_wf (l : list xqc_pktno_range_t) : Prop :=
  Forall range_ok l /\ StronglySorted range_gt l.

Record record_wf (rr : xqc_recv_record_t) : Prop := {
  wf_ranges : ranges_wf (ranges rr);
  wf_count : node_count rr = Z.of_nat (length (ranges rr));
  wf_max : node_count rr <= XQC_MAX_ACK_RANGE_CNT;
}.

(** ** Lemmas on range lists *)

Lemma ranges_wf_nil : ranges_wf [].
Proof. split; constructor. Qed.

Lemma ranges_wf_cons r l :
  ranges_wf (r :: l) <-> range_ok r /\ Forall (range_gt r) l /\ ranges_wf l.
Proof.
  unfold ranges_wf. rewrite Forall_cons. split.
  - intros [[? ?] Hs]. by inversion Hs; subst.
  - intros (? & ? & ? & ?). split; [by split | by constructor].
Qed.

Lemma ranges_wf_app l k :
  ranges_wf (l ++ k) <->
  ranges_wf l /\ ranges_wf k /\ Forall (fun a => Forall (range_gt a) k) l.
Proof.
  induction l as [|r l IH].
  - simpl. split; [|tauto]. intros. split; [apply ranges_wf_nil|by split; [|constructor]].
  - rewrite <- app_comm_cons, !ranges_wf_cons, IH, Forall_app, Forall_cons. tauto.
Qed.

Lemma ranges_wf_prefix l k : ranges_wf (l ++ k) -> ranges_wf l.
Proof. rewrite ranges_wf_app. tauto. Qed.

Lemma Forall_range_gt_mono a b l :
  Forall (range_gt a) l -> low a <= low b -> Forall (range_gt b) l.
Proof. intros H Hle. eapply Forall_impl; [exact H|]. unfold range_gt. intros. simpl in *. lia. Qed.

(** Everything before [r] also comes before a range that ends no later. *)
Lemma range_gt_mono_r (l : list xqc_pktno_range_t) r r' :
  Forall (fun a => range_gt a r) l -> high r' <= high r -> Forall (fun a => range_gt a r') l.
Proof. intros H Hle. eapply Forall_impl; [exact H|]. unfold range_gt. intros. simpl in *. lia. Qed.

Lemma range_gt_trans a b c : range_ok b -> range_gt a b -> range_gt b c -> range_gt a c.
Proof. unfold range_ok, range_gt. lia. Qed.

Lemma below_not_received q r l :
  Forall (range_gt r) l -> Forall range_ok l -> low r <= q -> ~ Exists (in_range q) l.
Proof.
  rewrite !Forall_forall, Exists_exists. intros Hg Ho Hq (x & Hx & Hin).
  specialize (Hg x Hx). specialize (Ho x Hx). unfold range_gt, range_ok, in_range in *. lia.
Qed.

Lemma above_not_received q l :
  Forall (fun r => q < low r) l -> ~ Exists (in_range q) l.
Proof.
  rewrite Forall_forall, Exists_exists. intros Hg (x & Hx & Hin).
  specialize (Hg x Hx). unfold in_range in *. simpl in Hg. lia.
Qed.

(** ** The search *)

Lemma record_find_spec pn pre l :
  match record_find pn pre l with
  | FoundDup => Exists (in_range pn) l
  | FoundPos pre' pos post => exists k, l = k ++ pos :: post /\ pre' = reverse k ++ pre
      /\ Forall (fun r => pn < low r) k /\ high pos < pn
  | FoundEnd pre' => pre' = reverse l ++ pre /\ Forall (fun r => pn < low r) l
  end.
Proof.
  revert pre. induction l as [|r l IH]; intros pre; simpl; [done|].
  destruct (pn <=? high r) eqn:E1; zify_bools.
  2:{ exists []. by repeat split. }
  destruct (low r <=? pn) eqn:E2; zify_bools.
  { left. unfold in_range. lia. }
  specialize (IH (r :: pre)). destruct (record_find pn (r :: pre) l) as [|pre' pos post|pre'].
  - by right.
  - destruct IH as (k & -> & -> & Hk & Hp). exists (r :: k).
    rewrite reverse_cons, <- app_assoc. split_and!; [done|done|by constructor|done].
  - destruct IH as [-> Hl]. rewrite reverse_cons, <- app_assoc. by split; [|constructor].
Qed.

Lemma can_merge_spec r pn :
  range_ok r -> 0 <= pn < 2 ^ 62 ->
  xqc_pktno_range_can_merge r pn =
    if low r - 1 =? pn then Some (mk_range pn (high r))
    else if high r + 1 =? pn then Some (mk_range (low r) pn)
    else None.
Proof.
  unfold range_ok, xqc_pktno_range_can_merge. intros Hr Hp.
  rewrite (u64_small (high r + 1)) by lia. destruct (low r - 1 =? pn) eqn:E1.
  - zify_bools. rewrite u64_small by lia. rewrite E1. by rewrite Z.eqb_refl.
  - destruct (u64 (low r - 1) =? pn) eqn:E2.
    + zify_bools. destruct (decide (low r = 0)) as [E0|].
      * rewrite E0 in E2. change (u64 (0 - 1)) with (2 ^ 64 - 1) in E2. lia.
      * rewrite u64_small in E2 by lia. lia.
    + destruct (high r + 1 =? pn) eqn:E3; [|done]. zify_bools. by rewrite E3.
Qed.

(** A well-formed list around one of its ranges. *)
Lemma ranges_wf_middle k r post :
  ranges_wf (k ++ r :: post) <->
  ranges_wf k /\ range_ok r /\ ranges_wf post
  /\ Forall (fun a => range_gt a r) k /\ Forall (range_gt r) post.
Proof.
  rewrite ranges_wf_app, ranges_wf_cons. split.
  - intros (Hk & (Hr & Hp & Hpost) & Ha). split_and!; try done.
    eapply Forall_impl; [exact Ha|]. intros a Hc. by inversion Hc.
  - intros (Hk & Hr & Hpost & Ha & Hp). split_and!; try done.
    eapply Forall_impl; [exact Ha|]. intros a Har. constructor; [done|].
    eapply Forall_impl; [exact Hp|]. intros b Hb. by eapply range_gt_trans.
Qed.

(** Which numbers [l'] records when [pn] was added to [l]. *)
Definition adds (l l' : list xqc_pktno_range_t) (pn : Z) : Prop :=
  forall q, Exists (in_range q) l' <-> Exists (in_range q) l \/ q = pn.

Lemma adds_middle k mid r post pn :
  (forall q, in_range q r <-> Exists (in_range q) mid \/ q = pn) ->
  adds (k ++ mid ++ post) (k ++ r :: post) pn.
Proof. intros H q. rewrite !Exists_app, Exists_cons, H. tauto. Qed.

(** Adding [pn] between the ranges [k] above it and the ranges [post] below it, when
    [pn] touches neither side, the range above, the range below, or both. *)
Lemma insert_new k post pn :
  ranges_wf (k ++ post) -> 0 <= pn < 2 ^ 62 ->
  Forall (fun a => pn + 1 < low a) k -> Forall (fun b => high b + 1 < pn) post ->
  ranges_wf (k ++ mk_range pn pn :: post) /\ adds (k ++ post) (k ++ mk_range pn pn :: post) pn.
Proof.
  intros Hwf Hpn Hk Hp. rewrite ranges_wf_app in Hwf. destruct Hwf as (H1 & H2 & _). split.
  - apply ranges_wf_middle. unfold range_ok, range_gt. simpl. split_and!; try done; lia.
  - apply (adds_middle k [] _ post). intros q. unfold in_range. simpl. rewrite Exists_nil. lia.
Qed.

Lemma extend_down k pv post pn :
  ranges_wf (k ++ pv :: post) -> 0 <= pn -> pn = low pv - 1 ->
  Forall (fun b => high b + 1 < pn) post ->
  ranges_wf (k ++ mk_range pn (high pv) :: post)
  /\ adds (k ++ pv :: post) (k ++ mk_range pn (high pv) :: post) pn.
Proof.
  rewrite !ranges_wf_middle. unfold range_ok. simpl.
  intros (H1 & H2 & H3 & H4 & H5) H0 Hpn Hp. split.
  - split_and!; try done; lia.
  - apply (adds_middle k [pv] _ post). intros q. rewrite Exists_cons, Exists_nil.
    unfold in_range. simpl. lia.
Qed.

Lemma extend_up k pos post pn :
  ranges_wf (k ++ pos :: post) -> pn < 2 ^ 62 -> high pos + 1 = pn ->
  Forall (fun a => pn + 1 < low a) k ->
  ranges_wf (k ++ mk_range (low pos) pn :: post)
  /\ adds (k ++ pos :: post) (k ++ mk_range (low pos) pn :: post) pn.
Proof.
  rewrite !ranges_wf_middle. unfold range_ok. simpl.
  intros (H1 & H2 & H3 & H4 & H5) H0 Hpn Hp. split.
  - split_and!; try done; lia.
  - apply (adds_middle k [pos] _ post). intros q. rewrite Exists_cons, Exists_nil.
    unfold in_range. simpl. lia.
Qed.

Lemma join_ranges k pv pos post pn :
  ranges_wf (k ++ pv :: pos :: post) -> pn = low pv - 1 -> high pos + 1 = pn ->
  ranges_wf (k ++ mk_range (low pos) (high pv) :: post)
  /\ adds (k ++ pv :: pos :: post) (k ++ mk_range (low pos) (high pv) :: post) pn.
Proof.
  rewrite !ranges_wf_middle, ranges_wf_cons, Forall_cons. unfold range_ok. simpl.
  intros (H1 & H2 & (H3 & H4 & H5) & H6 & H7 & H8) Hpn Hpn'. split.
  - split_and!; try done; lia.
  - apply (adds_middle k [pv; pos] _ post). intros q. rewrite !Exists_cons, Exists_nil.
    unfold in_range. simpl. lia.
Qed.

(** The ranges above [pn] that do not touch it. *)
Lemma gap_above k pv pn :
  ranges_wf (k ++ [pv]) -> pn + 1 < low pv -> Forall (fun a => pn + 1 < low a) (k ++ [pv]).
Proof.
  rewrite ranges_wf_middle. unfold range_ok. intros (_ & Hr & _ & Hk & _) Hpn.
  apply Forall_app. split; [|by constructor].
  eapply Forall_impl; [exact Hk|]. unfold range_gt. simpl. intros. lia.
Qed.

Lemma gap_below pos post pn :
  ranges_wf (pos :: post) -> high pos < pn -> Forall (fun b => high b + 1 < pn) post.
Proof.
  rewrite ranges_wf_cons. unfold range_ok. intros (Hr & Hp & _) Hpn.
  eapply Forall_impl; [exact Hp|]. unfold range_gt. simpl. intros. lia.
Qed.

(** ** Adding a packet number *)

(** What [xqc_recv_record_add] promises when memory is available. *)
Record add_outcome (rr : xqc_recv_record_t) (pn : Z)
    (st : xqc_pkt_range_status) (rr' : xqc_recv_record_t) : Prop := {
  ao_wf : record_wf rr';
  ao_del : rr_del_from rr' = rr_del_from rr;
  ao_dup : st = XQC_PKTRANGE_DUP <-> received rr pn;
  ao_ok : st <> XQC_PKTRANGE_ERR;
  ao_only : forall q, received rr' q -> received rr q \/ q = pn;
  ao_kept : forall q, received rr q \/ q = pn -> ~ received rr' q ->
    node_count rr' = XQC_MAX_ACK_RANGE_CNT /\ forall q', received rr' q' -> q < q';
}.

Lemma add_outcome_adds rr pn l c :
  ~ received rr pn -> ranges_wf l -> adds (ranges rr) l pn ->
  c = Z.of_nat (length l) -> c <= XQC_MAX_ACK_RANGE_CNT ->
  add_outcome rr pn XQC_PKTRANGE_OK (mk_record l (rr_del_from rr) c).
Proof.
  intros Hnr Hwf Ha Hc Hm. split; try done.
  - intros q Hq. by apply Ha.
  - intros q Hq Hn. destruct Hn. by apply Ha.
Qed.

(** Dropping the last range of a list that grew past the limit. *)
Lemma add_outcome_evict rr pn l x :
  ~ received rr pn -> ranges_wf (l ++ [x]) -> adds (ranges rr) (l ++ [x]) pn ->
  Z.of_nat (length l) = XQC_MAX_ACK_RANGE_CNT ->
  add_outcome rr pn XQC_PKTRANGE_OK (mk_record l (rr_del_from rr) XQC_MAX_ACK_RANGE_CNT).
Proof.
  intros Hnr Hwf Ha Hc. split; try done.
  - split; simpl; [by eapply ranges_wf_prefix | done | done].
  - intros q Hq. apply Ha, Exists_app. by left.
  - intros q Hq Hn. split; [done|]. intros q' Hq'. apply Ha in Hq.
    apply Exists_app in Hq as [Hq|Hq]; [done|]. apply Exists_cons in Hq as [Hq|Hq]; [|by inversion Hq].
    apply ranges_wf_middle in Hwf as (_ & Hx & _ & Hg & _).
    apply Exists_exists in Hq' as (r & Hr & Hin). rewrite Forall_forall in Hg.
    specialize (Hg r Hr). unfold in_range, range_gt, range_ok in *. lia.
Qed.

Lemma record_trim_65 l x : record_trim (reverse (l ++ [x])) 65 = (reverse l, 64).
Proof. by rewrite reverse_snoc. Qed.

Lemma insert_outcome rr pn l :
  record_wf rr -> ~ received rr pn -> Z.of_nat (length l) = node_count rr + 1 ->
  ranges_wf l -> adds (ranges rr) l pn ->
  add_outcome rr pn XQC_PKTRANGE_OK (record_insert rr l).
Proof.
  intros [_ _ Hmax] Hnr Hlen Hlwf Hadd. unfold record_insert, XQC_MAX_ACK_RANGE_CNT in *.
  destruct (64 <? _) eqn:E; zify_bools.
  - replace (node_count rr + 1) with 65 in * by lia.
    destruct l as [|x l _] using rev_ind; [simpl in Hlen; lia|].
    rewrite length_app in Hlen. simpl in Hlen. rewrite record_trim_65, reverse_involutive.
    apply (add_outcome_evict rr pn l x); unfold XQC_MAX_ACK_RANGE_CNT; done || lia.
  - apply add_outcome_adds; unfold XQC_MAX_ACK_RANGE_CNT; done || lia.
Qed.

(** [pn] goes before [pos], which is the first node of the list. *)
Lemma add_at_first rr pn pos post :
  record_wf rr -> 0 <= pn < 2 ^ 62 -> ranges rr = pos :: post -> high pos < pn ->
  ~ received rr pn ->
  let '(st, rr') := xqc_recv_record_add true rr pn in add_outcome rr pn st rr'.
Proof.
  intros Hrr Hpn Hl Hpos Hnr. pose proof Hrr as [Hwf Hcnt Hmax].
  unfold xqc_recv_record_add. rewrite Hl in *. cbn [record_find].
  rewrite (proj2 (Z.leb_gt pn (high pos))) by done. cbn [head]. unfold try_merge.
  cbn [mbind option_bind]. pose proof (gap_below pos post pn Hwf Hpos) as Hgb.
  apply ranges_wf_cons in Hwf as Hok. destruct Hok as (Hok & _). unfold range_ok in Hok.
  rewrite can_merge_spec, (proj2 (Z.eqb_neq (low pos - 1) pn)) by (done || lia).
  destruct (high pos + 1 =? pn) eqn:E; zify_bools.
  - destruct (extend_up [] pos post pn) as [H1 H2]; [done|lia|done|constructor|].
    apply add_outcome_adds; rewrite ?Hl; done || lia.
  - destruct (insert_new [] (pos :: post) pn) as [H1 H2];
      [done|done|constructor|by constructor; [lia|]|].
    apply insert_outcome; rewrite ?Hl; simpl in *; done || lia.
Qed.

(** [pn] goes between [pv] and [pos]. *)
Lemma add_between rr pn k pv pos post :
  record_wf rr -> 0 <= pn < 2 ^ 62 -> ranges rr = k ++ pv :: pos :: post ->
  pn < low pv -> high pos < pn -> ~ received rr pn ->
  record_find pn [] (ranges rr) = FoundPos (pv :: reverse k) pos post ->
  let '(st, rr') := xqc_recv_record_add true rr pn in add_outcome rr pn st rr'.
Proof.
  intros Hrr Hpn Hl Hpv Hpos Hnr Hf. pose proof Hrr as [Hwf Hcnt Hmax].
  unfold xqc_recv_record_add. rewrite Hf, Hl in *. cbn [head tail]. unfold try_merge.
  cbn [mbind option_bind]. rewrite reverse_cons, reverse_involutive, <- app_assoc. cbn [app].
  pose proof Hwf as (_ & Hpvok & Hpp & _)%ranges_wf_middle.
  pose proof (gap_below pos post pn Hpp Hpos) as Hgb.
  pose proof Hpp as (Hpok & _)%ranges_wf_cons. unfold range_ok in Hpok, Hpvok.
  assert (k ++ pv :: pos :: post = (k ++ [pv]) ++ pos :: post) as Hassoc by (by rewrite <- app_assoc).
  assert (ranges_wf (k ++ [pv])) as Hkp by (rewrite Hassoc in Hwf; by eapply ranges_wf_prefix).
  rewrite length_app in Hcnt. cbn [length] in Hcnt.
  rewrite !can_merge_spec by (done || lia).
  rewrite (proj2 (Z.eqb_neq (high pv + 1) pn)), (proj2 (Z.eqb_neq (low pos - 1) pn)) by lia.
  destruct (low pv - 1 =? pn) eqn:E1; zify_bools; cbn [low high].
  - rewrite u64_small by lia. destruct (pn - 1 =? high pos) eqn:E2; zify_bools.
    + destruct (join_ranges k pv pos post pn) as [H1 H2]; [done|lia|lia|].
      apply add_outcome_adds; rewrite ?Hl, ?length_app; simpl; done || lia.
    + destruct (extend_down k pv (pos :: post) pn) as [H1 H2];
        [done|lia|lia|constructor; [lia|done]|].
      apply add_outcome_adds; rewrite ?Hl, ?length_app; simpl; done || lia.
  - pose proof (gap_above k pv pn Hkp ltac:(lia)) as Hga.
    destruct (high pos + 1 =? pn) eqn:E2; zify_bools; cbn [high low].
    + rewrite u64_small, (proj2 (Z.eqb_neq (low pv - 1) pn)) by lia.
      destruct (extend_up (k ++ [pv]) pos post pn) as [H1 H2]; [by rewrite <- Hassoc|lia|done|done|].
      rewrite <- !app_assoc in H1. rewrite <- !app_assoc in H2. cbn [app] in H1, H2.
      apply add_outcome_adds; rewrite ?Hl, ?length_app; simpl; done || lia.
    + destruct (insert_new (k ++ [pv]) (pos :: post) pn) as [H1 H2];
        [by rewrite <- Hassoc|done|done|constructor; [lia|done]|].
      rewrite <- !app_assoc in H1. rewrite <- !app_assoc in H2. cbn [app] in H1, H2.
      apply insert_outcome; rewrite ?Hl, ?length_app; simpl; done || lia.
Qed.

(** [pn] is smaller than everything recorded. *)
Lemma add_at_end rr pn :
  record_wf rr -> 0 <= pn < 2 ^ 62 -> Forall (fun r => pn < low r) (ranges rr) ->
  ~ received rr pn -> record_find pn [] (ranges rr) = FoundEnd (reverse (ranges rr)) ->
  let '(st, rr') := xqc_recv_record_add true rr pn in add_outcome rr pn st rr'.
Proof.
  intros Hrr Hpn Hlow Hnr Hf. pose proof Hrr as [Hwf Hcnt Hmax].
  unfold xqc_recv_record_add. rewrite Hf, reverse_involutive. clear Hf.
  assert (Forall (fun a => pn + 1 < low a) (ranges rr) ->
    let '(st, rr') := if node_count rr <? XQC_MAX_ACK_RANGE_CNT
      then (XQC_PKTRANGE_OK, mk_record (ranges rr ++ [mk_range pn pn]) (rr_del_from rr) (node_count rr + 1))
      else (XQC_PKTRANGE_OK, rr) in add_outcome rr pn st rr') as Hnew.
  { intros Hgap. destruct (insert_new (ranges rr) [] pn) as [H1 H2];
      rewrite ?app_nil_r in *; try done.
    destruct (_ <? _) eqn:E; zify_bools.
    - apply add_outcome_adds; rewrite ?length_app; simpl; done || lia.
    - split; try done; [tauto|]. intros q [Hq|Hq] Hn; [done|]. subst q. split; [lia|].
      intros q' Hq'. apply Exists_exists in Hq' as (r & Hr & Hin). rewrite Forall_forall in Hlow.
      specialize (Hlow r Hr). unfold in_range in Hin. simpl in Hlow. lia. }
  destruct (ranges rr) as [|nd k _] eqn:Hl using rev_ind; [apply Hnew; constructor|].
  rewrite reverse_snoc. cbn [head tail mbind option_bind]. rewrite reverse_involutive in *.
  apply Forall_app in Hlow as Hnd. destruct Hnd as [_ Hnd]. rewrite Forall_singleton in Hnd.
  apply ranges_wf_middle in Hwf as Hok. destruct Hok as (_ & Hok & _). unfold range_ok in Hok.
  rewrite can_merge_spec by done. rewrite (proj2 (Z.eqb_neq (high nd + 1) pn)) by lia.
  destruct (low nd - 1 =? pn) eqn:E; zify_bools; cbn [low high].
  - assert ((u64 (pn - 1) =? high nd) = false) as ->.
    { destruct (decide (pn = 0)) as [->|]; apply Z.eqb_neq;
        [change (u64 (0 - 1)) with (2 ^ 64 - 1) | rewrite u64_small by lia]; lia. }
    destruct (extend_down k nd [] pn) as [H1 H2]; [done|lia|lia|constructor|].
    apply add_outcome_adds; rewrite ?Hl, ?length_app in *; simpl in *; done || lia.
  - apply Hnew. apply gap_above; [done|lia].
Qed.

Lemma add_ok_outcome rr pn :
  record_wf rr -> 0 <= pn < 2 ^ 62 ->
  let '(st, rr') := xqc_recv_record_add true rr pn in add_outcome rr pn st rr'.
Proof.
  intros Hrr Hpn. pose proof (record_find_spec pn [] (ranges rr)) as Hf.
  destruct (record_find pn [] (ranges rr)) as [|pre pos post|pre] eqn:Ef.
  - unfold xqc_recv_record_add. rewrite Ef. split; try done; [tauto|].
    intros q [Hq|Hq] Hn; [done|]. subst q. done.
  - destruct Hf as (k & Hl & -> & Hk & Hpos). rewrite app_nil_r in Ef.
    assert (~ received rr pn) as Hnr.
    { unfold received. rewrite Hl, Exists_app, Exists_cons. destruct Hrr as [Hwf _ _].
      rewrite Hl in Hwf. apply ranges_wf_middle in Hwf as (_ & Hok & [Hpost _] & _ & Hg).
      pose proof (above_not_received pn k Hk). pose proof (below_not_received pn pos post Hg Hpost).
      unfold in_range, range_ok in *. intros [?|[?|?]]; [tauto|lia|]. apply H0; [lia|done]. }
    destruct k as [|pv k _] using rev_ind; [by apply (add_at_first rr pn pos post)|].
    rewrite reverse_snoc in Ef. rewrite <- app_assoc in Hl.
    apply Forall_app in Hk as [_ Hpv]. rewrite Forall_singleton in Hpv.
    by apply (add_between rr pn k pv pos post).
  - destruct Hf as [-> Hlow]. rewrite app_nil_r in Ef.
    apply add_at_end; try done. by apply above_not_received.
Qed.


(** Without memory a call either does not need it or changes nothing. *)
Lemma add_nomem rr pn :
  xqc_recv_record_add false rr pn = xqc_recv_record_add true rr pn
  \/ xqc_recv_record_add false rr pn = (XQC_PKTRANGE_ERR, rr).
Proof.
  unfold xqc_recv_record_add. destruct (record_find pn [] (ranges rr)) as [|pre pos post|pre].
  - by left.
  - destruct (try_merge (head pre) (Some pos) pn) as [[[?|] [?|]]|]; auto.
  - destruct (head pre ≫= _); auto.
Qed.

(** C3: adding a packet number to a well-formed record reports a duplicate exactly when
    the number was already recorded, and otherwise records it; the record stays a list of
    disjoint, non-adjacent ranges in decreasing order with the right count, nothing else
    is added, and what is lost is lost only when all 64 ranges are in use and is smaller
    than everything kept. When the allocation of a node fails the record is unchanged and
    the error is reported. *)
Theorem recv_record_add_correct calloc_ok rr pn :
  record_wf rr -> 0 <= pn < 2 ^ 62 ->
  let '(st, rr') := xqc_recv_record_add calloc_ok rr pn in
  add_outcome rr pn st rr'
  \/ (calloc_ok = false /\ st = XQC_PKTRANGE_ERR /\ rr' = rr).
Proof.
  intros Hrr Hpn. pose proof (add_ok_outcome rr pn Hrr Hpn) as H.
  destruct calloc_ok; [destruct (xqc_recv_record_add true rr pn); by left|].
  destruct (add_nomem rr pn) as [->| ->]; [|by right].
  destruct (xqc_recv_record_add true rr pn). by left.
Qed.

Lemma recv_record_add_correct_witness :
  let rr := mk_record [mk_range 108 110; mk_range 105 106; mk_range 100 102] 0 3 in
  let rr' := mk_record [mk_range 105 110; mk_range 100 102] 0 2 in
  add_outcome rr 107 XQC_PKTRANGE_OK rr'
  \/ (true = false /\ XQC_PKTRANGE_OK = XQC_PKTRANGE_ERR /\ rr' = rr).
Proof.
  apply (recv_record_add_correct true
    (mk_record [mk_range 108 110; mk_range 105 106; mk_range 100 102] 0 3) 107); [|lia].
  split; [split|..]; simpl; [repeat constructor; simpl; lia ..| done | by compute].
Defined.

(** ** Deleting *)

Lemma record_del_loop_count l d c :
  snd (record_del_loop l d c)
  = c - Z.of_nat (length l) + Z.of_nat (length (fst (record_del_loop l d c))).
Proof.
  revert c. induction l as [|r l IH]; intros c; cbn [record_del_loop]; [simpl; lia|].
  destruct (low r <? d), (high r <? d); rewrite ?IH;
    try (specialize (IH c); destruct (record_del_loop l d c)); simpl in *; lia.
Qed.

(** The ranges kept do not depend on the counter. *)
Lemma record_del_loop_fst l d c c' :
  fst (record_del_loop l d c) = fst (record_del_loop l d c').
Proof.
  revert c c'. induction l as [|r l IH]; intros c c'; cbn [record_del_loop]; [done|].
  destruct (low r <? d), (high r <? d); [apply IH|..];
    specialize (IH c c'); destruct (record_del_loop l d c), (record_del_loop l d c');
    simpl in *; congruence.
Qed.

Lemma record_del_loop_length l d c :
  (length (fst (record_del_loop l d c)) <= length l)%nat.
Proof.
  revert c. induction l as [|r l IH]; intros c; cbn [record_del_loop]; [done|].
  destruct (low r <? d), (high r <? d);
    [specialize (IH (c - 1)); destruct (record_del_loop l d (c - 1))|..];
    try (specialize (IH c); destruct (record_del_loop l d c)); simpl in *; lia.
Qed.

Lemma record_del_loop_gt l d c a :
  Forall (range_gt a) l -> Forall (range_gt a) (fst (record_del_loop l d c)).
Proof.
  revert c. induction l as [|r l IH]; intros c; cbn [record_del_loop]; [done|].
  intros [Ha Hl]%Forall_cons.
  destruct (low r <? d), (high r <? d); [by apply IH|..];
    specialize (IH c Hl); destruct (record_del_loop l d c); by constructor.
Qed.

Lemma record_del_loop_received l d c q :
  Exists (in_range q) (fst (record_del_loop l d c)) <-> Exists (in_range q) l /\ d <= q.
Proof.
  revert c. induction l as [|r l IH]; intros c; cbn [record_del_loop fst].
  - rewrite Exists_nil. tauto.
  - destruct (low r <? d) eqn:E1; [destruct (high r <? d) eqn:E2|]; zify_bools;
      [rewrite IH, Exists_cons; unfold in_range; intuition lia|..];
      specialize (IH c); destruct (record_del_loop l d c); cbn [fst] in *;
      rewrite !Exists_cons, IH; unfold in_range; simpl; intuition lia.
Qed.

Lemma record_del_loop_wf l d c :
  0 <= d -> ranges_wf l -> ranges_wf (fst (record_del_loop l d c)).
Proof.
  intros Hd. revert c. induction l as [|r l IH]; intros c; cbn [record_del_loop]; [done|].
  rewrite ranges_wf_cons. intros (Hr & Hg & Hwf). specialize (IH c Hwf).
  pose proof (record_del_loop_gt l d c r Hg) as Hgt.
  destruct (low r <? d) eqn:E1; [destruct (high r <? d) eqn:E2|]; zify_bools.
  - by rewrite (record_del_loop_fst _ _ _ c).
  - destruct (record_del_loop l d c). cbn [fst] in *. apply ranges_wf_cons. split_and!; [..|done].
    + unfold range_ok in *. simpl. lia.
    + eapply Forall_range_gt_mono; [exact Hgt|simpl; lia].
  - destruct (record_del_loop l d c). by apply ranges_wf_cons.
Qed.

Lemma record_del_wf rr d : record_wf rr -> 0 <= d -> record_wf (xqc_recv_record_del rr d).
Proof.
  intros [Hw Hc Hm] Hd. unfold xqc_recv_record_del.
  destruct (d <? rr_del_from rr); [done|].
  pose proof (record_del_loop_wf _ d (node_count rr) Hd Hw) as H1.
  pose proof (record_del_loop_count (ranges rr) d (node_count rr)) as H2.
  pose proof (record_del_loop_length (ranges rr) d (node_count rr)) as H3.
  destruct (record_del_loop (ranges rr) d (node_count rr)). simpl in *. split; simpl; done || lia.
Qed.

(** Deleting below [del_from] forgets exactly the packet numbers below it (and does
    nothing when the record has already been cut higher), keeps the record well formed
    and never moves the cut down. *)
Theorem recv_record_del_correct rr d :
  record_wf rr -> 0 <= d ->
  record_wf (xqc_recv_record_del rr d)
  /\ (forall q, received (xqc_recv_record_del rr d) q
               <-> received rr q /\ (rr_del_from rr <= d -> d <= q))
  /\ rr_del_from (xqc_recv_record_del rr d) = Z.max (rr_del_from rr) d.
Proof.
  intros Hrr Hd. split; [by apply record_del_wf|].
  pose proof (record_del_loop_received (ranges rr) d (node_count rr)) as Hr.
  unfold xqc_recv_record_del, received. destruct (d <? rr_del_from rr) eqn:E; zify_bools.
  - split; [intros q; intuition lia | lia].
  - destruct (record_del_loop (ranges rr) d (node_count rr)). simpl in *.
    split; [|lia]. intros q. rewrite Hr. intuition.
Qed.

Lemma recv_record_del_correct_witness :
  record_wf (mk_record [mk_range 9 12; mk_range 2 5; mk_range 0 0] 1 3) /\
  (received (xqc_recv_record_del (mk_record [mk_range 9 12; mk_range 2 5; mk_range 0 0] 1 3) 4) 4
   <-> received (mk_record [mk_range 9 12; mk_range 2 5; mk_range 0 0] 1 3) 4 /\ (1 <= 4 -> 4 <= 4)).
Proof.
  assert (record_wf (mk_record [mk_range 9 12; mk_range 2 5; mk_range 0 0] 1 3)) as H.
  { split; [split; repeat constructor; simpl; done | done | done]. }
  split; [exact H|].
  apply (recv_record_del_correct _ 4 H ltac:(lia)).
Defined.

(** ** Every reachable record *)

(** One call on a record by the connection; [calloc_ok] ranges over both outcomes. *)
Inductive record_step : xqc_recv_record_t -> xqc_recv_record_t -> Prop :=
| step_add calloc_ok rr pn :
    0 <= pn < 2 ^ 62 -> record_step rr (snd (xqc_recv_record_add calloc_ok rr pn))
| step_del rr d : 0 <= d -> record_step rr (xqc_recv_record_del rr d)
| step_destroy rr : record_step rr (xqc_recv_record_destroy rr)
| step_move_src dst rr : record_step rr (snd (xqc_recv_record_move dst rr))
| step_move_dst dst rr : record_step rr (fst (xqc_recv_record_move dst rr)).

Definition record_init : xqc_recv_record_t := mk_record [] 0 0.

Lemma record_init_wf : record_wf record_init.
Proof. split; [apply ranges_wf_nil | done | done]. Qed.

Lemma record_step_wf rr rr' : record_step rr rr' -> record_wf rr -> record_wf rr'.
Proof.
  destruct 1 as [calloc_ok rr pn Hpn|rr d Hd|rr|dst rr|dst rr]; intros Hrr.
  - pose proof (add_ok_outcome rr pn Hrr Hpn) as H.
    destruct calloc_ok; [|destruct (add_nomem rr pn) as [->| ->]; [|done]];
      destruct (xqc_recv_record_add true rr pn); apply H.
  - by apply record_del_wf.
  - apply record_init_wf.
  - unfold xqc_recv_record_move. destruct (ranges rr); apply record_init_wf.
  - destruct rr as [[|r l] d c]; destruct Hrr as [H1 H2 H3]; split; done.
Qed.

Lemma record_largest_max rr q :
  record_wf rr -> received rr q -> q <= xqc_recv_record_largest rr.
Proof.
  intros [Hwf _ _]. unfold received, xqc_recv_record_largest.
  destruct (ranges rr) as [|r l]; [by rewrite Exists_nil|].
  apply ranges_wf_cons in Hwf as (Hr & Hg & _). rewrite Exists_cons, Exists_exists.
  rewrite Forall_forall in Hg. unfold in_range, range_ok in *. intros [?|(x & Hx & Hq)]; [lia|].
  specialize (Hg x Hx). unfold range_gt in Hg. lia.
Qed.

(** A record reached from the empty one by any sequence of additions (with or without
    memory), deletions, moves and resets is well formed, and unless it is empty its
    [xqc_recv_record_largest] is the largest packet number it holds. *)
Theorem record_reachable rr :
  rtc record_step record_init rr ->
  record_wf rr
  /\ (forall q, received rr q -> q <= xqc_recv_record_largest rr)
  /\ (ranges rr <> [] -> received rr (xqc_recv_record_largest rr)).
Proof.
  intros Hr. assert (record_wf rr) as Hwf.
  { refine (rtc_ind_r (fun r => record_wf r) record_init record_init_wf _ rr Hr).
    intros y z _ Hs Hy. by eapply record_step_wf. }
  split_and!; [done|intros q; by apply record_largest_max|].
  destruct Hwf as [Hwf _ _]. unfold received, xqc_recv_record_largest.
  destruct (ranges rr) as [|r l]; [done|]. intros _.
  apply ranges_wf_cons in Hwf as (Hr0 & _). left. unfold in_range, range_ok in *. lia.
Qed.

Lemma record_reachable_witness :
  received (mk_record [mk_range 7 7] 6 1) 7.
Proof.
  apply (record_reachable (mk_record [mk_range 7 7] 6 1)); [|done].
  eapply rtc_l; [apply (step_add true record_init 5); lia|].
  eapply rtc_l; [apply (step_add true _ 7); lia|].
  eapply rtc_l; [apply (step_del _ 6); lia|]. vm_compute. apply rtc_refl.
Defined.

End RecvRecord.
