(* ===== verification/PacketBuf.v ===== *)
(** The packet buffers the frame code works on: [src/transport/xqc_packet_out.h],
    [xqc_packet_out.c] and [xqc_packet_in.h], with the connection fields the frame
    code reads or sets, the cursor that frame generators write through and the monad
    that frame parsers are written in. *)

From stdpp Require Import base numbers list.
From S2P Require Import Prelude VInt.
Export VInt.VInt.

(** ** Connection fields *)

Inductive xqc_conn_type_t := XQC_CONN_TYPE_CLIENT | XQC_CONN_TYPE_SERVER.

Inductive xqc_conn_err_type_t :=
| XQC_CONN_ERR_TYPE_UNKNOWN
| XQC_CONN_ERR_TYPE_TRANSPORT
| XQC_CONN_ERR_TYPE_APPLICATION.

(** The part of [xqc_connection_t] that generating and parsing frames involves. *)
Record xqc_connection_t := mk_conn {
  conn_type : xqc_conn_type_t;
  conn_err : Z;
  conn_err_type : xqc_conn_err_type_t;
  multipath_version : Z;
  max_datagram_frame_size : Z;
  remote_ack_delay_exponent : Z;
  simulate_ecn : bool;
  enable_pmtud : bool;
}.

Definition TRA_STREAM_STATE_ERROR : Z := 0x5.
Definition TRA_FRAME_ENCODING_ERROR : Z := 0x7.
Definition TRA_PROTOCOL_VIOLATION : Z := 0xa.

(** [XQC_CONN_ERR]: the first error is kept. The closing state and timers that the
    macro also starts are outside this model. *)
Definition XQC_CONN_ERR (conn : xqc_connection_t) (err : Z) : xqc_connection_t :=
  if conn_err conn =? 0
  then mk_conn (conn_type conn) err (conn_err_type conn) (multipath_version conn)
         (max_datagram_frame_size conn) (remote_ack_delay_exponent conn)
         (simulate_ecn conn) (enable_pmtud conn)
  else conn.

Definition set_conn_err_type (conn : xqc_connection_t) (t : xqc_conn_err_type_t)
    : xqc_connection_t :=
  mk_conn (conn_type conn) (conn_err conn) t (multipath_version conn)
    (max_datagram_frame_size conn) (remote_ack_delay_exponent conn)
    (simulate_ecn conn) (enable_pmtud conn).

(** ** Stream types: [xqc_stream.h] *)

Definition XQC_CLI_UNI : Z := 2.
Definition XQC_SVR_UNI : Z := 3.

Definition xqc_get_stream_type (stream_id : Z) : Z := stream_id .& 0x03.

Definition xqc_stream_is_send_only (t : xqc_conn_type_t) (stream_id : Z) : bool :=
  match t with
  | XQC_CONN_TYPE_CLIENT => xqc_get_stream_type stream_id =? XQC_CLI_UNI
  | XQC_CONN_TYPE_SERVER => xqc_get_stream_type stream_id =? XQC_SVR_UNI
  end.

Definition xqc_stream_is_recv_only (t : xqc_conn_type_t) (stream_id : Z) : bool :=
  match t with
  | XQC_CONN_TYPE_CLIENT => xqc_get_stream_type stream_id =? XQC_SVR_UNI
  | XQC_CONN_TYPE_SERVER => xqc_get_stream_type stream_id =? XQC_CLI_UNI
  end.

(** ** Frame type bits: [xqc_frame.h] *)

Definition XQC_FRAME_BIT_PADDING : Z := 1 << 0.
Definition XQC_FRAME_BIT_PING : Z := 1 << 1.
Definition XQC_FRAME_BIT_ACK : Z := 1 << 2.
Definition XQC_FRAME_BIT_RESET_STREAM : Z := 1 << 3.
Definition XQC_FRAME_BIT_STOP_SENDING : Z := 1 << 4.
Definition XQC_FRAME_BIT_CRYPTO : Z := 1 << 5.
Definition XQC_FRAME_BIT_NEW_TOKEN : Z := 1 << 6.
Definition XQC_FRAME_BIT_STREAM : Z := 1 << 7.
Definition XQC_FRAME_BIT_MAX_DATA : Z := 1 << 8.
Definition XQC_FRAME_BIT_MAX_STREAM_DATA : Z := 1 << 9.
Definition XQC_FRAME_BIT_MAX_STREAMS : Z := 1 << 10.
Definition XQC_FRAME_BIT_DATA_BLOCKED : Z := 1 << 11.
Definition XQC_FRAME_BIT_STREAM_DATA_BLOCKED : Z := 1 << 12.
Definition XQC_FRAME_BIT_STREAMS_BLOCKED : Z := 1 << 13.
Definition XQC_FRAME_BIT_NEW_CONNECTION_ID : Z := 1 << 14.
Definition XQC_FRAME_BIT_RETIRE_CONNECTION_ID : Z := 1 << 15.
Definition XQC_FRAME_BIT_PATH_CHALLENGE : Z := 1 << 16.
Definition XQC_FRAME_BIT_PATH_RESPONSE : Z := 1 << 17.
Definition XQC_FRAME_BIT_CONNECTION_CLOSE : Z := 1 << 18.
Definition XQC_FRAME_BIT_HANDSHAKE_DONE : Z := 1 << 19.
Definition XQC_FRAME_BIT_ACK_MP : Z := 1 << 20.
Definition XQC_FRAME_BIT_PATH_ABANDON : Z := 1 << 21.
Definition XQC_FRAME_BIT_PATH_STANDBY : Z := 1 << 23.
Definition XQC_FRAME_BIT_PATH_AVAILABLE : Z := 1 << 24.
Definition XQC_FRAME_BIT_MP_NEW_CONNECTION_ID : Z := 1 << 25.
Definition XQC_FRAME_BIT_MP_RETIRE_CONNECTION_ID : Z := 1 << 26.
Definition XQC_FRAME_BIT_MAX_PATH_ID : Z := 1 << 27.
Definition XQC_FRAME_BIT_PATH_FROZEN : Z := 1 << 28.
Definition XQC_FRAME_BIT_DATAGRAM : Z := 1 << 29.
Definition XQC_FRAME_BIT_RESET_STREAM_AT : Z := 1 << 33.
Definition XQC_FRAME_BIT_PATHS_BLOCKED : Z := 1 << 34.
Definition XQC_FRAME_BIT_PATH_CIDS_BLOCKED : Z := 1 << 35.

(** ** Outgoing packets *)

Definition XQC_ACK_SPACE : Z := 16.
Definition XQC_MSS : Z := 1436.
Definition XQC_TLS_AEAD_OVERHEAD_MAX_LEN : Z := 16.
Definition XQC_PACKET_OUT_BUF_CAP : Z := XQC_MSS + XQC_TLS_AEAD_OVERHEAD_MAX_LEN.
Definition XQC_PACKET_INITIAL_MIN_LENGTH : Z := 1200.
Definition XQC_MAX_STREAM_FRAME_IN_PO : Z := 3.
Definition XQC_POF_PMTUD_PROBING : Z := 1 << 17.
Definition XQC_POF_STREAM_NO_LEN : Z := 1 << 22.

Record xqc_po_stream_frame_t := mk_psf {
  ps_stream_id : Z;
  ps_offset : Z;
  ps_length : Z;
  ps_type_offset : Z;
  ps_length_offset : Z;
  ps_is_used : bool;
  ps_has_fin : bool;
}.

(** [po_used_size] and the other sizes are offsets into [po_buf]. *)
Record xqc_packet_out_t := mk_po {
  po_buf : list Z;
  po_buf_size : Z;
  po_used_size : Z;
  po_reserved_size : Z;
  po_ack_offset : Z;
  po_frame_types : Z;
  po_flag : Z;
  po_stream_frames : list xqc_po_stream_frame_t;
  po_stream_frames_idx : Z;
  po_dgram_payload_size : Z;
  po_padding : option Z;
  po_pkt_pns : Z;
}.

Definition xqc_get_po_remained_size (po : xqc_packet_out_t) : Z :=
  if (po_buf_size po <? po_used_size po)
     || (po_buf_size po - po_used_size po <? po_reserved_size po)
  then 0
  else po_buf_size po - po_used_size po - po_reserved_size po.

Definition xqc_get_po_remained_size_with_ack_spc (po : xqc_packet_out_t) : Z :=
  let limit := Z.min (po_buf_size po + XQC_ACK_SPACE) XQC_MSS in
  let used := po_used_size po + po_reserved_size po in
  if used <? limit then limit - used else 0.

(** [malloc_buf]: the (uninitialised) bytes [xqc_malloc] returns, or [NULL]. *)
Definition xqc_packet_out_create (malloc_buf : option (list Z)) (buf_size : Z)
    : option xqc_packet_out_t :=
  match malloc_buf with
  | None => None
  | Some buf =>
      let zero := mk_psf 0 0 0 0 0 false false in
      Some (mk_po buf buf_size 0 0 0 0 0 [zero; zero; zero] 0 0 None 0)
  end.

(** [po_path_flag] is not part of this model. *)
Definition xqc_packet_out_remove_ack_frame (po : xqc_packet_out_t) : xqc_packet_out_t :=
  if negb (po_frame_types po .& XQC_FRAME_BIT_ACK =? 0)
     || negb (po_frame_types po .& XQC_FRAME_BIT_ACK_MP =? 0)
  then
    mk_po (po_buf po) (po_buf_size po) (po_ack_offset po) (po_reserved_size po)
      (po_ack_offset po)
      (Z.ldiff (po_frame_types po) (XQC_FRAME_BIT_ACK .| XQC_FRAME_BIT_ACK_MP))
      (po_flag po) (po_stream_frames po) (po_stream_frames_idx po)
      (po_dgram_payload_size po) (po_padding po) (po_pkt_pns po)
  else po.

(** The end of a generator: the buffer was written, [po_frame_types |= bit]. *)
Definition po_wrote (po : xqc_packet_out_t) (buf : list Z) (bit : Z) : xqc_packet_out_t :=
  mk_po buf (po_buf_size po) (po_used_size po) (po_reserved_size po) (po_ack_offset po)
    (po_frame_types po .| bit) (po_flag po) (po_stream_frames po) (po_stream_frames_idx po)
    (po_dgram_payload_size po) (po_padding po) (po_pkt_pns po).

(** A generator failed after it had started to write. *)
Definition po_set_buf (po : xqc_packet_out_t) (buf : list Z) : xqc_packet_out_t :=
  po_wrote po buf 0.

(** The caller's [packet_out->po_used_size += ret]. *)
Definition po_advance (po : xqc_packet_out_t) (n : Z) : xqc_packet_out_t :=
  mk_po (po_buf po) (po_buf_size po) (po_used_size po + n) (po_reserved_size po)
    (po_ack_offset po) (po_frame_types po) (po_flag po) (po_stream_frames po)
    (po_stream_frames_idx po) (po_dgram_payload_size po) (po_padding po) (po_pkt_pns po).

(** ** The write cursor: [dst_buf] *)

(** The buffer and the offset [dst_buf] points to. *)
Definition cursor : Type := (list Z * Z)%type.

(** [*dst_buf++ = b]. *)
Definition w_byte (c : cursor) (b : Z) : cursor := (wr (fst c) (snd c) [b], snd c + 1).

(** [bits = xqc_vint_get_2bit(v); xqc_vint_write(dst_buf, v, bits, xqc_vint_len(bits));
    dst_buf += xqc_vint_len(bits)]. *)
Definition w_vint (c : cursor) (v : Z) : cursor :=
  let bits := xqc_vint_get_2bit v in
  (xqc_vint_write (fst c) (snd c) v bits (xqc_vint_len bits), snd c + xqc_vint_len bits).

(** [xqc_memcpy(dst_buf, bs, len); dst_buf += len]. *)
Definition w_bytes (c : cursor) (bs : list Z) : cursor :=
  (wr (fst c) (snd c) bs, snd c + zlen bs).

(** [xqc_vint_len(xqc_vint_get_2bit(v))]. *)
Definition vlen (v : Z) : Z := xqc_vint_len (xqc_vint_get_2bit v).

Definition po_cursor (po : xqc_packet_out_t) : cursor := (po_buf po, po_used_size po).

(** [return dst_buf - begin]. *)
Definition gen_done (po : xqc_packet_out_t) (c : cursor) (bit : Z) : res Z * xqc_packet_out_t :=
  (Ok (snd c - po_used_size po), po_wrote po (fst c) bit).

(** ** Incoming packets *)

Record xqc_packet_in_t := mk_pi {
  pi_buf : list Z;
  pi_pos : Z;
  pi_last : Z;
  pi_frame_types : Z;
  pi_pkt_pns : Z;
}.

(** ** Parsers

    A parser runs on the packet, its local pointer [p] and the connection; it returns
    a value or an error code. [packet_in] changes when the parser assigns to it. *)

Record pstate := mk_ps {
  ps_in : xqc_packet_in_t;
  ps_p : Z;
  ps_conn : xqc_connection_t;
}.

Definition parser (A : Type) : Type := pstate -> res A * pstate.

#[export] Instance parser_ret : MRet parser := fun A a s => (Ok a, s).

#[export] Instance parser_bind : MBind parser := fun A B f m s =>
  match m s with
  | (Ok a, s') => f a s'
  | (Err e, s') => (Err e, s')
  end.

Definition ps_move (s : pstate) (p : Z) : pstate := mk_ps (ps_in s) p (ps_conn s).

(** [*p++]. *)
Definition p_byte : parser Z := fun s =>
  (Ok (rd (pi_buf (ps_in s)) (ps_p s)), ps_move s (ps_p s + 1)).

(** [vlen = xqc_vint_read(p, end, &v); if (vlen < 0) return -XQC_EVINTREAD; p += vlen]. *)
Definition p_vint : parser Z := fun s =>
  match xqc_vint_read (pi_buf (ps_in s)) (ps_p s) (pi_last (ps_in s)) with
  | Some (v, n) => (Ok v, ps_move s (ps_p s + n))
  | None => (Err XQC_EVINTREAD, s)
  end.

(** [end - p]. *)
Definition p_left : parser Z := fun s => (Ok (pi_last (ps_in s) - ps_p s), s).

(** [return -e]. *)
Definition p_fail {A} (e : Z) : parser A := fun s => (Err e, s).

(** [if (b) return -e]. *)
Definition p_check (b : bool) (e : Z) : parser unit := fun s =>
  if b then (Err e, s) else (Ok tt, s).

(** [if (b) { XQC_CONN_ERR(conn, err); return -e; }]. *)
Definition p_check_conn (b : bool) (err e : Z) : parser unit := fun s =>
  if b then (Err e, mk_ps (ps_in s) (ps_p s) (XQC_CONN_ERR (ps_conn s) err)) else (Ok tt, s).

(** [memcpy(dst, p, n); p += n]. *)
Definition p_copy (n : Z) : parser (list Z) := fun s =>
  (Ok (sub_bytes (pi_buf (ps_in s)) (ps_p s) n), ps_move s (ps_p s + n)).

(** [p += n]. *)
Definition p_skip (n : Z) : parser unit := fun s => (Ok tt, ps_move s (ps_p s + n)).

Definition p_conn : parser xqc_connection_t := fun s => (Ok (ps_conn s), s).

Definition p_set_conn (c : xqc_connection_t) : parser unit := fun s =>
  (Ok tt, mk_ps (ps_in s) (ps_p s) c).

Definition p_pns : parser Z := fun s => (Ok (pi_pkt_pns (ps_in s)), s).

(** [packet_in->pos = p]. *)
Definition p_set_pos : parser unit := fun s =>
  let pi := ps_in s in
  (Ok tt, mk_ps (mk_pi (pi_buf pi) (ps_p s) (pi_last pi) (pi_frame_types pi) (pi_pkt_pns pi))
            (ps_p s) (ps_conn s)).

(** [packet_in->pi_frame_types |= bit]. *)
Definition p_frame_type (bit : Z) : parser unit := fun s =>
  let pi := ps_in s in
  (Ok tt, mk_ps (mk_pi (pi_buf pi) (pi_pos pi) (pi_last pi) (pi_frame_types pi .| bit)
                   (pi_pkt_pns pi))
            (ps_p s) (ps_conn s)).

Definition p_commit (bit : Z) : parser unit := p_set_pos ≫= fun _ => p_frame_type bit.

(** Call a parser on a packet: [p] starts at [packet_in->pos]. *)
Definition run {A} (m : parser A) (pi : xqc_packet_in_t) (conn : xqc_connection_t)
    : res A * xqc_packet_in_t * xqc_connection_t :=
  let '(r, s) := m (mk_ps pi (pi_pos pi) conn) in (r, ps_in s, ps_conn s).

(** ** Writing: the cursor in normal form

    Whatever a generator has written so far, the cursor is [wr_at buf p l]: the bytes
    [l] were written at [p]. *)

Definition wr_at (buf : list Z) (p : Z) (l : list Z) : cursor := (wr buf p l, p + zlen l).

(** The bytes of an integer in its shortest form. *)
Definition enc_vint (v : Z) : list Z := xqc_vint_bytes v (xqc_vint_get_2bit v) (vlen v).

Lemma zlen_enc_vint v : zlen (enc_vint v) = vlen v.
Proof. apply zlen_vint_bytes_2bit. Qed.

Lemma vlen_range v : 1 <= vlen v <= 8.
Proof. apply vint_len_range. Qed.

Lemma enc_vint_ok v : bytes_ok (enc_vint v).
Proof. apply vint_bytes_ok. Qed.

Definition vint_ok (v : Z) : Prop := 0 <= v <= XQC_VINT_MAX.

Lemma po_cursor_wr po : po_cursor po = wr_at (po_buf po) (po_used_size po) [].
Proof. unfold po_cursor, wr_at. simpl. by rewrite Z.add_0_r. Qed.

Lemma w_bytes_wr buf p l bs : 0 <= p -> w_bytes (wr_at buf p l) bs = wr_at buf p (l ++ bs).
Proof.
  intros. unfold w_bytes, wr_at. cbn [fst snd]. rewrite wr_app, zlen_app by done.
  f_equal. lia.
Qed.

Lemma w_byte_wr buf p l b : 0 <= p -> w_byte (wr_at buf p l) b = wr_at buf p (l ++ [b]).
Proof. intros. rewrite <- w_bytes_wr by done. done. Qed.

Lemma w_vint_wr buf p l v : 0 <= p -> w_vint (wr_at buf p l) v = wr_at buf p (l ++ enc_vint v).
Proof.
  intros. rewrite <- w_bytes_wr by done. unfold w_vint, w_bytes. by rewrite zlen_enc_vint.
Qed.

(** Stepping over a byte that is written later. *)
Lemma w_skip_wr buf p l :
  0 <= p -> p + zlen l < zlen buf ->
  (wr buf p l, p + zlen l + 1) = wr_at buf p (l ++ [rd buf (p + zlen l)]).
Proof.
  intros Hp Hz. pose proof (zlen_nonneg l). unfold wr_at. rewrite <- wr_app, zlen_app by done.
  rewrite <- (rd_wr_ne buf p l (p + zlen l)) by lia.
  rewrite wr_id by (rewrite zlen_wr; lia). f_equal. rewrite zlen_cons, zlen_nil. lia.
Qed.

Lemma gen_done_wr po l bit :
  gen_done po (wr_at (po_buf po) (po_used_size po) l) bit
  = (Ok (zlen l), po_wrote po (wr (po_buf po) (po_used_size po) l) bit).
Proof. unfold gen_done, wr_at. cbn [fst snd]. f_equal. f_equal. lia. Qed.

Lemma vint_ok_le v : 0 <= v < 2 ^ 62 -> vint_ok v.
Proof. unfold vint_ok, XQC_VINT_MAX. eval_pow. lia. Qed.

Lemma po_remained_le po :
  0 <= po_reserved_size po ->
  xqc_get_po_remained_size po <= Z.max 0 (po_buf_size po - po_used_size po).
Proof. unfold xqc_get_po_remained_size. intros. case_if; zify_bools; lia. Qed.

Lemma enc_vint_1 v : 0 <= v < 64 -> enc_vint v = [v].
Proof.
  intros Hv. unfold enc_vint, vlen.
  rewrite vint_bytes_be by (apply vint_fits_2bit; unfold XQC_VINT_MAX; eval_pow; lia).
  assert (xqc_vint_get_2bit v = 0) as ->.
  { unfold xqc_vint_get_2bit. eval_pow. repeat case_if; zb. }
  change (be_bytes (Z.to_nat (xqc_vint_len 0)) (v + 0 * _)) with [u8 ((v + 0) >> 0)].
  by rewrite Z.add_0_r, Z.shiftr_0_r, u8_small by lia.
Qed.

(** Rewrite a generator's chain of writes into its normal form. *)
Ltac run_writer :=
  cbv zeta; rewrite ?po_cursor_wr;
  repeat ((rewrite w_byte_wr by lia) || (rewrite w_vint_wr by lia) || (rewrite w_bytes_wr by lia));
  rewrite ?gen_done_wr, <- ?app_assoc; cbn [app].

Create Rewrite HintDb enc.
#[export] Hint Rewrite zlen_enc_vint zlen_app zlen_cons zlen_nil : enc.
#[export] Hint Resolve enc_vint_ok : xqc.

(** The space check of the generator passes. *)
Ltac gen_room :=
  lazymatch goal with
  | |- context [if ?b then (Err _, _) else _] =>
      destruct b eqn:?; [exfalso; autorewrite with enc in *; zb|]
  end.

(** ** Parsing what was written *)

(** The bytes [bs] are next in the input, before [end]. *)
Record at_input (s : pstate) (bs : list Z) : Prop := {
  ai_ok : bytes_ok (pi_buf (ps_in s));
  ai_last : pi_last (ps_in s) <= zlen (pi_buf (ps_in s));
  ai_at : bytes_at (pi_buf (ps_in s)) (ps_p s) bs;
  ai_fits : ps_p s + zlen bs <= pi_last (ps_in s);
}.

(** On a connection [c], the parser [m] consumes exactly [bs] and returns [a]; [f] is
    what it does to the packet and the connection afterwards. *)
Definition parses {A} (c : xqc_connection_t) (m : parser A) (bs : list Z) (a : A)
    (f : pstate -> pstate) : Prop :=
  forall s, ps_conn s = c -> at_input s bs ->
  m s = (Ok a, f (ps_move s (ps_p s + zlen bs))).

Definition commit_eff (bit : Z) (s : pstate) : pstate :=
  let pi := ps_in s in
  mk_ps (mk_pi (pi_buf pi) (ps_p s) (pi_last pi) (pi_frame_types pi .| bit) (pi_pkt_pns pi))
    (ps_p s) (ps_conn s).

Lemma at_input_app s bs1 bs2 :
  at_input s (bs1 ++ bs2) ->
  at_input s bs1 /\ at_input (ps_move s (ps_p s + zlen bs1)) bs2.
Proof.
  intros [Hok Hl Ha Hf]. apply bytes_at_app in Ha as [Ha1 Ha2]. rewrite zlen_app in Hf.
  pose proof (zlen_nonneg bs2). split; split; simpl; try done; lia.
Qed.

Lemma ps_move_0 s : ps_move s (ps_p s + 0) = s.
Proof. destruct s. unfold ps_move. simpl. by rewrite Z.add_0_r. Qed.

Lemma parses_bind {A B} c (m : parser A) (k : A -> parser B) bs1 bs2 a b f :
  parses c m bs1 a id -> parses c (k a) bs2 b f -> parses c (m ≫= k) (bs1 ++ bs2) b f.
Proof.
  intros Hm Hk s Hc Hs. apply at_input_app in Hs as [Hs1 Hs2].
  unfold mbind, parser_bind. rewrite (Hm s Hc Hs1). unfold id.
  rewrite (Hk (ps_move s (ps_p s + zlen bs1)) Hc Hs2). do 2 f_equal. unfold ps_move. simpl. f_equal.
  rewrite zlen_app. lia.
Qed.

Lemma parses_vint c v : 0 <= v <= XQC_VINT_MAX -> parses c p_vint (enc_vint v) v id.
Proof.
  intros Hv s _ [Hok Hl Ha Hf]. unfold p_vint. rewrite zlen_enc_vint in Hf.
  rewrite (vint_read_at _ _ _ v (xqc_vint_get_2bit v)); try done; [|by apply vint_fits_2bit].
  by rewrite zlen_enc_vint.
Qed.

Lemma parses_vint_byte c v : 0 <= v < 64 -> parses c p_vint [v] v id.
Proof.
  intros Hv. rewrite <- (enc_vint_1 v Hv). apply parses_vint, vint_ok_le. eval_pow. lia.
Qed.

(** An integer in a length class that is not the shortest. *)
Lemma parses_vint_class c v t :
  vint_fits v t -> parses c p_vint (xqc_vint_bytes v t (xqc_vint_len t)) v id.
Proof.
  intros Hv s _ [Hok Hl Ha Hf]. unfold p_vint.
  assert (0 <= xqc_vint_len t <= 8) as Hr
    by (destruct Hv as [[->|[->|[->| ->]]] _]; vm_compute; intuition congruence).
  rewrite zlen_vint_bytes in Hf by done.
  rewrite (vint_read_at _ _ _ v t) by done. by rewrite zlen_vint_bytes.
Qed.

Lemma parses_byte c b : parses c p_byte [b] b id.
Proof. intros s _ [Hok Hl Ha Hf]. unfold p_byte. by rewrite (bytes_at_rd _ _ _ _ Ha). Qed.

Lemma parses_copy c bs : parses c (p_copy (zlen bs)) bs bs id.
Proof. intros s _ [Hok Hl Ha Hf]. unfold p_copy. by rewrite (bytes_at_sub _ _ _ Ha). Qed.

Lemma parses_skip c bs : parses c (p_skip (zlen bs)) bs tt id.
Proof. by intros s _ [Hok Hl Ha Hf]. Qed.

Lemma parses_check {B} c b e (k : unit -> parser B) bs x f :
  b = false -> parses c (k tt) bs x f -> parses c (p_check b e ≫= k) bs x f.
Proof. intros -> Hk s Hc Hs. by apply Hk. Qed.

Lemma parses_check_conn {B} c b err e (k : unit -> parser B) bs x f :
  b = false -> parses c (k tt) bs x f -> parses c (p_check_conn b err e ≫= k) bs x f.
Proof. intros -> Hk s Hc Hs. by apply Hk. Qed.

Lemma parses_left {B} c (k : Z -> parser B) bs x f :
  (forall n, zlen bs <= n -> parses c (k n) bs x f) -> parses c (p_left ≫= k) bs x f.
Proof.
  intros Hk s Hc Hs. unfold mbind, parser_bind, p_left. apply Hk; [|done|done].
  destruct Hs. lia.
Qed.

Lemma parses_conn {B} c (k : xqc_connection_t -> parser B) bs x f :
  parses c (k c) bs x f -> parses c (p_conn ≫= k) bs x f.
Proof. intros Hk s Hc Hs. unfold mbind, parser_bind, p_conn. rewrite Hc. by apply Hk. Qed.

Lemma parses_commit {A} c bit (a : A) :
  parses c (p_commit bit ≫= fun _ => mret a) [] a (commit_eff bit).
Proof. intros s _ _. rewrite zlen_nil, ps_move_0. done. Qed.

(** [parses] of a parser followed by building the abstract frame. *)
Lemma parses_wrap {A B} c (m : parser A) (k : A -> parser B) bs a b f :
  parses c m bs a f -> k a = mret b -> parses c (m ≫= k) bs b f.
Proof. intros Hm Hk s Hc Hs. unfold mbind, parser_bind. by rewrite (Hm s Hc Hs), Hk. Qed.

Lemma parses_assoc {A B C} c (m : parser A) (k : A -> parser B) (h : B -> parser C) bs x f :
  parses c (m ≫= fun a => k a ≫= h) bs x f -> parses c ((m ≫= k) ≫= h) bs x f.
Proof.
  intros Hm s Hc Hs. rewrite <- (Hm s Hc Hs). unfold mbind, parser_bind.
  by destruct (m s) as [[a|e] s'].
Qed.

Lemma parses_mret {A B} c (a : A) (k : A -> parser B) bs x f :
  parses c (k a) bs x f -> parses c (mret a ≫= k) bs x f.
Proof. done. Qed.

Ltac parse_step :=
  lazymatch goal with
  | |- parses _ ((_ ≫= _) ≫= _) _ _ _ => apply parses_assoc
  | |- parses _ (mret _ ≫= _) _ _ _ => apply parses_mret
  | |- parses _ (p_commit _ ≫= _) [] _ _ => apply parses_commit
  | |- parses _ (p_conn ≫= _) _ _ _ => apply parses_conn
  | |- parses _ (p_left ≫= _) _ _ _ => apply parses_left; intros ? ?
  | |- parses _ (p_check _ _ ≫= _) _ _ _ => apply parses_check
  | |- parses _ (p_check_conn _ _ _ ≫= _) _ _ _ => apply parses_check_conn
  | |- parses _ (p_byte ≫= _) (?b :: ?bs) _ _ =>
      eapply (parses_bind _ p_byte _ [b] bs); [apply parses_byte|]
  | |- parses _ (p_skip 1 ≫= _) (?b :: ?bs) _ _ =>
      eapply (parses_bind _ (p_skip 1) _ [b] bs); [apply (parses_skip _ [b])|]
  | |- parses _ (p_vint ≫= _) (enc_vint ?v ++ ?bs) _ _ =>
      eapply (parses_bind _ p_vint _ (enc_vint v) bs); [apply parses_vint|]
  | |- parses _ (p_vint ≫= _) (?t :: ?bs) _ _ => change (t :: bs) with (enc_vint t ++ bs)
  | |- parses _ (p_vint ≫= _) (enc_vint ?v) _ _ => rewrite <- (app_nil_r (enc_vint v))
  | |- parses _ (p_copy (zlen ?l) ≫= _) (?l ++ ?bs) _ _ =>
      eapply (parses_bind _ (p_copy (zlen l)) _ l bs); [apply parses_copy|]
  | |- parses _ (p_copy (zlen ?l) ≫= _) ?l _ _ => rewrite <- (app_nil_r l) at 2
  end.

Ltac parse_side :=
  unfold vint_ok in *; autorewrite with enc in *;
  first [done | lia | zb | apply not_true_is_false; intros ?; zb].

Ltac parse_all := eapply parses_wrap; [repeat parse_step; parse_side | reflexivity].

(** Reading in a packet the bytes the sender wrote. *)
Lemma parses_run {A} (m : parser A) bs a bit pi c :
  parses c m bs a (commit_eff bit) ->
  bytes_ok (pi_buf pi) -> pi_last pi <= zlen (pi_buf pi) ->
  bytes_at (pi_buf pi) (pi_pos pi) bs -> pi_pos pi + zlen bs <= pi_last pi ->
  run m pi c = (Ok a, mk_pi (pi_buf pi) (pi_pos pi + zlen bs) (pi_last pi)
                        (pi_frame_types pi .| bit) (pi_pkt_pns pi), c).
Proof. intros Hm ? ? ? ?. unfold run. by rewrite Hm. Qed.

(** ** Parsers stay inside the packet *)

Definition ps_ok (s : pstate) : Prop :=
  0 <= ps_p s <= pi_last (ps_in s) /\ pi_last (ps_in s) <= zlen (pi_buf (ps_in s)).

(** The same state with other bytes in the buffer. *)
Definition ps_set_buf (s : pstate) (b : list Z) : pstate :=
  let pi := ps_in s in
  mk_ps (mk_pi b (pi_pos pi) (pi_last pi) (pi_frame_types pi) (pi_pkt_pns pi))
    (ps_p s) (ps_conn s).

(** From the state [s], the parser [m] leaves the buffer alone, moves only forward and
    not past [last], and depends on no byte outside [p .. last). *)
Record local_at {A} (m : parser A) (s : pstate) : Prop := {
  la_buf : pi_buf (ps_in (snd (m s))) = pi_buf (ps_in s);
  la_last : pi_last (ps_in (snd (m s))) = pi_last (ps_in s);
  la_p : ps_p s <= ps_p (snd (m s)) <= pi_last (ps_in s);
  la_pos : pi_pos (ps_in (snd (m s))) = pi_pos (ps_in s)
    \/ ps_p s <= pi_pos (ps_in (snd (m s))) <= pi_last (ps_in s);
  la_agree : forall b2, pi_last (ps_in s) <= zlen b2 ->
    agree (pi_buf (ps_in s)) b2 (ps_p s) (pi_last (ps_in s)) ->
    m (ps_set_buf s b2) = (fst (m s), ps_set_buf (snd (m s)) b2);
}.

(** [local_at] of a step that reads [n] bytes, then continues. *)
Lemma local_step {A B} (m : parser A) (k : A -> parser B) s a n :
  ps_ok s -> 0 <= n -> ps_p s + n <= pi_last (ps_in s) ->
  m s = (Ok a, ps_move s (ps_p s + n)) ->
  (forall b2, pi_last (ps_in s) <= zlen b2 ->
     agree (pi_buf (ps_in s)) b2 (ps_p s) (pi_last (ps_in s)) ->
     m (ps_set_buf s b2) = (Ok a, ps_move (ps_set_buf s b2) (ps_p s + n))) ->
  local_at (k a) (ps_move s (ps_p s + n)) -> local_at (m ≫= k) s.
Proof.
  intros Hok Hn Hle Hm Hag [Hb Hl Hp Hpos Ha].
  assert ((m ≫= k) s = k a (ps_move s (ps_p s + n))) as E.
  { unfold mbind, parser_bind. by rewrite Hm. }
  simpl in Hb, Hl, Hp, Hpos, Ha.
  split; rewrite ?E; try done; [lia|destruct Hpos; [by left|right; lia]|].
  intros b2 Hz Hb2. unfold mbind, parser_bind. rewrite (Hag b2 Hz Hb2).
  exact (Ha b2 Hz (agree_mono _ _ _ _ (ps_p s + n) Hb2 ltac:(lia))).
Qed.

(** [local_at] of a step that reads nothing and keeps the state. *)
Lemma local_pure {A B} (m : parser A) (k : A -> parser B) s a :
  ps_ok s -> m s = (Ok a, s) -> (forall b2, m (ps_set_buf s b2) = (Ok a, ps_set_buf s b2)) ->
  local_at (k a) s -> local_at (m ≫= k) s.
Proof.
  intros Hok Hm Hb Hk. assert (s = ps_move s (ps_p s + 0)) as E by by rewrite ps_move_0.
  apply (local_step m k s a 0); try done.
  - unfold ps_ok in Hok. lia.
  - by rewrite <- E.
  - intros b2 _ _. rewrite Hb. unfold ps_set_buf, ps_move. simpl. by rewrite Z.add_0_r.
  - by rewrite <- E.
Qed.

(** [local_at] of a step that fails without moving. *)
Lemma local_fail {A} (m : parser A) s e c :
  ps_ok s -> m s = (Err e, mk_ps (ps_in s) (ps_p s) c) ->
  (forall b2, pi_last (ps_in s) <= zlen b2 ->
     agree (pi_buf (ps_in s)) b2 (ps_p s) (pi_last (ps_in s)) ->
     m (ps_set_buf s b2) = (Err e, mk_ps (ps_in (ps_set_buf s b2)) (ps_p s) c)) ->
  local_at m s.
Proof.
  intros Hok Hm Hb. unfold ps_ok in Hok. split; rewrite ?Hm; simpl; done || lia.
Qed.

Lemma bind_fail {A B} (m : parser A) (k : A -> parser B) s e s' :
  m s = (Err e, s') -> (m ≫= k) s = (Err e, s').
Proof. intros H. unfold mbind, parser_bind. by rewrite H. Qed.

Lemma vint_read_nonneg buf p e v n : xqc_vint_read buf p e = Some (v, n) -> bytes_ok buf ->
  0 <= v.
Proof.
  intros H Hb. unfold xqc_vint_read in H. destruct (e <=? p); [done|].
  assert (forall i, 0 <= rd buf i) as Hr by (intros i; apply (rd_is_byte buf i Hb)).
  repeat case_match; simplify_eq; rewrite ?Z.lor_nonneg, ?Z.shiftl_nonneg;
    rewrite ?Z.land_nonneg; auto 10; by right.
Qed.

Lemma local_vint {B} (k : Z -> parser B) s :
  ps_ok s -> bytes_ok (pi_buf (ps_in s)) ->
  (forall v n, 0 <= v -> 1 <= n -> ps_p s + n <= pi_last (ps_in s) ->
     local_at (k v) (ps_move s (ps_p s + n))) ->
  local_at (p_vint ≫= k) s.
Proof.
  intros Hok Hb Hk. destruct (xqc_vint_read (pi_buf (ps_in s)) (ps_p s) (pi_last (ps_in s)))
    as [[v n]|] eqn:E.
  - pose proof (vint_read_len _ _ _ _ _ E) as [Hn Hle].
    apply (local_step p_vint k s v n); try done; [lia|..].
    + unfold p_vint. by rewrite E.
    + intros b2 Hz Ha. unfold p_vint. unfold ps_ok in Hok.
      simpl. by rewrite <- (vint_read_agree _ b2 _ _ Ha), E by lia.
    + apply Hk; [by eapply vint_read_nonneg|lia|lia].
  - apply (local_fail _ s XQC_EVINTREAD (ps_conn s)); [done|..].
    + apply bind_fail. unfold p_vint. rewrite E. by destruct s.
    + intros b2 Hz Ha. apply bind_fail. unfold p_vint. unfold ps_ok in Hok.
      simpl. by rewrite <- (vint_read_agree _ b2 _ _ Ha), E by lia.
Qed.

Lemma local_byte {B} (k : Z -> parser B) s :
  ps_ok s -> bytes_ok (pi_buf (ps_in s)) -> ps_p s < pi_last (ps_in s) ->
  (forall b, is_byte b -> local_at (k b) (ps_move s (ps_p s + 1))) ->
  local_at (p_byte ≫= k) s.
Proof.
  intros Hok Hb Hlt Hk. eapply (local_step p_byte k s _ 1); try done; [lia|..].
  - intros b2 Hz Ha. unfold p_byte. simpl. by rewrite (Ha (ps_p s)) by lia.
  - apply Hk. by apply rd_is_byte.
Qed.

Lemma local_copy {B} n (k : list Z -> parser B) s :
  ps_ok s -> 0 <= n -> ps_p s + n <= pi_last (ps_in s) ->
  (forall bs, zlen bs = n -> local_at (k bs) (ps_move s (ps_p s + n))) ->
  local_at (p_copy n ≫= k) s.
Proof.
  intros Hok Hn Hle Hk. unfold ps_ok in Hok.
  eapply (local_step (p_copy n) k s _ n); try done.
  - intros b2 Hz Ha. unfold p_copy. simpl.
    by rewrite <- (agree_sub_bytes _ b2 _ _ _ Ha) by lia.
  - apply Hk. apply zlen_sub_bytes; lia.
Qed.

Lemma local_skip {B} n (k : unit -> parser B) s :
  ps_ok s -> 0 <= n -> ps_p s + n <= pi_last (ps_in s) ->
  local_at (k tt) (ps_move s (ps_p s + n)) -> local_at (p_skip n ≫= k) s.
Proof. intros Hok Hn Hle Hk. by eapply (local_step (p_skip n) k s _ n). Qed.

Lemma local_left {B} (k : Z -> parser B) s :
  ps_ok s -> local_at (k (pi_last (ps_in s) - ps_p s)) s -> local_at (p_left ≫= k) s.
Proof. intros Hok Hk. by eapply local_pure. Qed.

Lemma local_conn {B} (k : xqc_connection_t -> parser B) s :
  ps_ok s -> local_at (k (ps_conn s)) s -> local_at (p_conn ≫= k) s.
Proof. intros Hok Hk. by eapply local_pure. Qed.

Lemma local_pns {B} (k : Z -> parser B) s :
  ps_ok s -> local_at (k (pi_pkt_pns (ps_in s))) s -> local_at (p_pns ≫= k) s.
Proof. intros Hok Hk. by eapply local_pure. Qed.

Lemma local_check {B} b e (k : unit -> parser B) s :
  ps_ok s -> (b = false -> local_at (k tt) s) -> local_at (p_check b e ≫= k) s.
Proof.
  intros Hok Hk. destruct b.
  - apply (local_fail _ s e (ps_conn s)); [done|by destruct s|done].
  - by apply (local_pure _ k s tt); auto.
Qed.

Lemma local_check_conn {B} b err e (k : unit -> parser B) s :
  ps_ok s -> (b = false -> local_at (k tt) s) -> local_at (p_check_conn b err e ≫= k) s.
Proof.
  intros Hok Hk. destruct b.
  - apply (local_fail _ s e (XQC_CONN_ERR (ps_conn s) err)); [done|by destruct s|done].
  - by apply (local_pure _ k s tt); auto.
Qed.

Lemma local_p_fail {A} e s : ps_ok s -> local_at (@p_fail A e) s.
Proof. intros Hok. by apply (local_fail _ s e (ps_conn s)); destruct s. Qed.

Lemma local_commit {A} bit (a : A) s :
  ps_ok s -> local_at (p_commit bit ≫= fun _ => mret a) s.
Proof.
  intros Hok. unfold ps_ok in Hok. split; simpl; try done; [lia|right; lia].
Qed.

Lemma local_assoc {A B C} (m : parser A) (k : A -> parser B) (h : B -> parser C) s :
  local_at (m ≫= fun a => k a ≫= h) s -> local_at ((m ≫= k) ≫= h) s.
Proof.
  assert (forall s, ((m ≫= k) ≫= h) s = (m ≫= fun a => k a ≫= h) s) as E.
  { clear s. intros s. unfold mbind, parser_bind. by destruct (m s) as [[a|e] s']. }
  intros [H1 H2 H3 H4 H5]. split; rewrite ?E; try done.
  intros b2 Hz Ha. rewrite E. by apply H5.
Qed.

Lemma local_mret {A B} (a : A) (k : A -> parser B) s :
  local_at (k a) s -> local_at (mret a ≫= k) s.
Proof. done. Qed.

(** A parser followed by a computation on its result. *)
Lemma local_wrap {A B} (m : parser A) (k : A -> parser B) s :
  (forall a, exists b, k a = mret b) -> local_at m s -> local_at (m ≫= k) s.
Proof.
  intros Hk [H1 H2 H3 H4 H5].
  assert (forall t, snd ((m ≫= k) t) = snd (m t)) as Hs.
  { intros t. unfold mbind, parser_bind. destruct (m t) as [[a|e] t']; [|done].
    by destruct (Hk a) as [b ->]. }
  split; rewrite ?Hs; try done. intros b2 Hz Ha. unfold mbind, parser_bind.
  rewrite (H5 b2 Hz Ha). destruct (m s) as [[a|e] t']; [|done]. simpl.
  by destruct (Hk a) as [b ->].
Qed.

(** Run the rules over a parser. *)
Ltac local_step_tac :=
  match goal with
  | |- local_at ((_ ≫= _) ≫= _) _ => apply local_assoc
  | |- local_at (mret _ ≫= _) _ => apply local_mret
  | |- local_at (p_vint ≫= _) _ => apply local_vint; [..|intros ? ? ? ? ?]
  | |- local_at (p_byte ≫= _) _ => apply local_byte; [..|intros ? ?]
  | |- local_at (p_copy _ ≫= _) _ => apply local_copy; [..|intros ? ?]
  | |- local_at (p_skip _ ≫= _) _ => apply local_skip
  | |- local_at (p_left ≫= _) _ => apply local_left
  | |- local_at (p_conn ≫= _) _ => apply local_conn
  | |- local_at (p_pns ≫= _) _ => apply local_pns
  | |- local_at (p_check _ _ ≫= _) _ => apply local_check; [|intros ?]
  | |- local_at (p_check_conn _ _ _ ≫= _) _ => apply local_check_conn; [|intros ?]
  | |- local_at (p_commit _ ≫= _) _ => apply local_commit
  | |- local_at (p_fail _) _ => apply local_p_fail
  | |- local_at (if ?b then _ else _) _ => destruct b eqn:?
  end.

Ltac local_side := try done; unfold ps_ok, is_byte in *; simpl in *; try zb.
Ltac local_tac := repeat (local_step_tac; local_side).

(** ** What a parser that succeeded has done *)

Lemma bind_ok_inv {A B} (m : parser A) (k : A -> parser B) s b s' :
  (m ≫= k) s = (Ok b, s') -> exists a s1, m s = (Ok a, s1) /\ k a s1 = (Ok b, s').
Proof.
  unfold mbind, parser_bind. destruct (m s) as [[a|e] s1]; [|done]. intros H. by exists a, s1.
Qed.

(** The input [s1] is [s] further on. *)
Definition advanced (s s1 : pstate) : Prop :=
  exists n, 0 <= n /\ s1 = ps_move s (ps_p s + n) /\ ps_p s + n <= pi_last (ps_in s).

Lemma p_vint_ok_inv s v s1 :
  p_vint s = (Ok v, s1) -> ps_ok s -> bytes_ok (pi_buf (ps_in s)) ->
  0 <= v < 2 ^ 62 /\ advanced s s1 /\ ps_p s < ps_p s1.
Proof.
  unfold p_vint, ps_ok. intros H Hok Hb.
  destruct (xqc_vint_read _ _ _) as [[w n]|] eqn:E; [|done]. injection H as -> <-.
  pose proof (vint_read_len _ _ _ _ _ E). split_and!.
  - eapply (vint_read_range (pi_buf (ps_in s)) (ps_p s)); [done|lia|apply Hok|done].
  - eapply (vint_read_range (pi_buf (ps_in s)) (ps_p s)); [done|lia|apply Hok|done].
  - exists n. split_and!; done || lia.
  - simpl. lia.
Qed.

Lemma p_check_ok_inv b e s u s1 : p_check b e s = (Ok u, s1) -> b = false /\ s1 = s.
Proof. unfold p_check. destruct b; intros; by simplify_eq. Qed.

Lemma p_check_conn_ok_inv b err e s u s1 :
  p_check_conn b err e s = (Ok u, s1) -> b = false /\ s1 = s.
Proof. unfold p_check_conn. destruct b; intros; by simplify_eq. Qed.

Lemma advanced_refl s : ps_ok s -> advanced s s.
Proof. intros Hok. exists 0. unfold ps_ok in Hok. rewrite ps_move_0. split_and!; done || lia. Qed.

Lemma advanced_trans s s1 s2 : advanced s s1 -> advanced s1 s2 -> advanced s s2.
Proof.
  intros (n & Hn & -> & Hle) (m & Hm & -> & Hle'). simpl in *. exists (n + m).
  split_and!; [lia| |lia]. unfold ps_move. simpl. by rewrite Z.add_assoc.
Qed.

Lemma advanced_ok s s1 : advanced s s1 -> ps_ok s ->
  ps_ok s1 /\ ps_in s1 = ps_in s /\ ps_conn s1 = ps_conn s /\ ps_p s <= ps_p s1.
Proof. intros (n & Hn & -> & Hle) Hok. unfold ps_ok in *. simpl. split_and!; done || lia. Qed.

(** Take a successful parse apart, one step at a time. *)
Ltac inv_step :=
  match goal with
  | H : (_ ≫= _) _ = (Ok _, _) |- _ =>
      let a := fresh "a" in let s := fresh "s" in let E := fresh "E" in
      apply bind_ok_inv in H; destruct H as (a & s & E & H); cbv beta in H
  | H : p_check _ _ _ = (Ok _, _) |- _ =>
      let E := fresh "Hc" in apply p_check_ok_inv in H; destruct H as [E ->]
  | H : p_check_conn _ _ _ _ = (Ok _, _) |- _ =>
      let E := fresh "Hc" in apply p_check_conn_ok_inv in H; destruct H as [E ->]
  | H : p_left _ = (Ok _, _) |- _ => unfold p_left in H; injection H as <- <-
  | H : p_conn _ = (Ok _, _) |- _ => unfold p_conn in H; injection H as <- <-
  | H : p_pns _ = (Ok _, _) |- _ => unfold p_pns in H; injection H as <- <-
  | H : mret _ _ = (Ok _, _) |- _ => unfold mret, parser_ret in H; injection H as <- <-
  end.

(** The facts that a successful integer read leaves. *)
Ltac adv_vint :=
  match goal with
  | E : p_vint ?s = (Ok ?v, ?s1) |- _ =>
      let Hv := fresh "Hv" in let Ha := fresh "Hadv" in let Hlt := fresh "Hlt" in
      let Hok := fresh "Hok" in let Hin := fresh "Hin" in let Hcn := fresh "Hcn" in
      destruct (p_vint_ok_inv s v s1 E) as (Hv & Ha & Hlt); [assumption|assumption|];
      destruct (advanced_ok s s1 Ha) as (Hok & Hin & Hcn & _); [assumption|];
      assert (bytes_ok (pi_buf (ps_in s1))) by (rewrite Hin; assumption);
      clear E
  end.
