(* ===== verification/Frames.v ===== *)
(** The control frames of RFC 9000 and their relatives: generators and parsers of
    [src/transport/xqc_frame_parser.c] whose frames are a type and a few fields.

    STREAM and DATAGRAM, ACK, and the multipath frames have files of their own. *)

From stdpp Require Import base numbers list.
From S2P Require Import Prelude VInt PacketBuf.

Module Frames.

Definition XQC_MAX_CONN_CLOSE_REASON_LEN : Z := 128.
Definition XQC_STATELESS_RESET_TOKENLEN : Z := 16.
Definition XQC_MAX_CID_LEN : Z := 20.
Definition XQC_PATH_CHALLENGE_DATA_LEN : Z := 8.
Definition XQC_FRAME_TYPE_RESET_STREAM_AT : Z := 0x24.

(** [cid_buf] is the array of [XQC_MAX_CID_LEN] bytes, [sr_token] the 16-byte token. *)
Record xqc_cid_t := mk_cid {
  cid_len : Z;
  cid_buf : list Z;
  cid_seq_num : Z;
  sr_token : list Z;
  path_id : Z;
}.

(** ** PADDING and PING *)

(** [memset(po_padding, 0, len)] at [po_used_size], and what goes with it. *)
Definition po_pad (po : xqc_packet_out_t) (len : Z) : xqc_packet_out_t :=
  mk_po (wr (po_buf po) (po_used_size po) (replicate (Z.to_nat len) 0)) (po_buf_size po)
    (po_used_size po + len) (po_reserved_size po) (po_ack_offset po)
    (po_frame_types po .| XQC_FRAME_BIT_PADDING) (po_flag po) (po_stream_frames po)
    (po_stream_frames_idx po) (po_dgram_payload_size po) (Some (po_used_size po))
    (po_pkt_pns po).

Definition xqc_gen_padding_frame (conn : xqc_connection_t) (po : xqc_packet_out_t)
    : xqc_packet_out_t :=
  let total_len :=
    if enable_pmtud conn && negb (po_flag po .& XQC_POF_PMTUD_PROBING =? 0)
    then Z.min (po_buf_size po + XQC_ACK_SPACE) XQC_MSS
    else XQC_PACKET_INITIAL_MIN_LENGTH - XQC_TLS_AEAD_OVERHEAD_MAX_LEN in
  if po_used_size po <? total_len then po_pad po (total_len - po_used_size po) else po.

Definition XQC_EFEC_SYMBOL_ERROR : Z := 662.

Definition xqc_gen_padding_frame_with_len (po : xqc_packet_out_t) (padding_len limit : Z)
    : res Z * xqc_packet_out_t :=
  if limit <? po_used_size po + padding_len then (Err XQC_EFEC_SYMBOL_ERROR, po)
  else if po_used_size po <? limit then (Ok 0, po_pad po padding_len)
  else (Ok 0, po).

(** [while (pos < last && *pos == 0) pos++]: the new [pos]; [n] bounds the steps. *)
Fixpoint padding_skip (buf : list Z) (pos last : Z) (n : nat) : Z :=
  match n with
  | O => pos
  | S n' =>
      if (pos <? last) && (rd buf pos =? 0) then padding_skip buf (pos + 1) last n' else pos
  end.

Definition xqc_parse_padding_frame (pi : xqc_packet_in_t) : xqc_packet_in_t :=
  let pos := pi_pos pi + 1 in
  let pos := padding_skip (pi_buf pi) pos (pi_last pi) (Z.to_nat (pi_last pi - pos)) in
  mk_pi (pi_buf pi) pos (pi_last pi) (pi_frame_types pi .| XQC_FRAME_BIT_PADDING)
    (pi_pkt_pns pi).

Definition xqc_gen_ping_frame (po : xqc_packet_out_t) : res Z * xqc_packet_out_t :=
  if xqc_get_po_remained_size po <? 1 then (Err XQC_ENOBUF, po)
  else gen_done po (w_byte (po_cursor po) 0x01) XQC_FRAME_BIT_PING.

Definition xqc_parse_ping_frame : parser unit :=
  p_skip 1;; p_commit XQC_FRAME_BIT_PING;; mret tt.

(** ** Stream control frames *)

Definition xqc_gen_reset_stream_frame (po : xqc_packet_out_t) (stream_id err_code final_size : Z)
    : res Z * xqc_packet_out_t :=
  let need := 1 + vlen stream_id + vlen err_code + vlen final_size in
  if xqc_get_po_remained_size po <? need then (Err XQC_ENOBUF, po)
  else
    let c := w_byte (po_cursor po) 0x04 in
    let c := w_vint c stream_id in
    let c := w_vint c err_code in
    let c := w_vint c final_size in
    gen_done po c XQC_FRAME_BIT_RESET_STREAM.

Definition xqc_parse_reset_stream_frame : parser (Z * Z * Z) :=
  _ ← p_byte;
  stream_id ← p_vint;
  conn ← p_conn;
  p_check_conn (xqc_stream_is_send_only (conn_type conn) stream_id)
    TRA_STREAM_STATE_ERROR XQC_EPROTO;;
  err_code ← p_vint;
  final_size ← p_vint;
  p_commit XQC_FRAME_BIT_RESET_STREAM;;
  mret (stream_id, err_code, final_size).

(** [xqc_put_varint] after its callers checked the range: [NULL] does not occur. *)
Definition w_put_varint (c : cursor) (n : Z) : cursor :=
  match xqc_put_varint (fst c) (snd c) n with
  | Some c' => c'
  | None => c
  end.

Definition xqc_gen_reset_stream_at_frame (po : xqc_packet_out_t)
    (stream_id error final_size reliable_size : Z) : res Z * xqc_packet_out_t :=
  if (XQC_VINT_MAX <? stream_id) || (XQC_VINT_MAX <? error)
     || (XQC_VINT_MAX <? final_size) || (final_size <? reliable_size)
  then (Err XQC_EPARAM, po)
  else
    let need := 1 + xqc_put_varint_len stream_id + xqc_put_varint_len error
                + xqc_put_varint_len final_size + xqc_put_varint_len reliable_size in
    if xqc_get_po_remained_size po <? need then (Err XQC_ENOBUF, po)
    else
      let c := w_put_varint (po_cursor po) XQC_FRAME_TYPE_RESET_STREAM_AT in
      let c := w_put_varint c stream_id in
      let c := w_put_varint c error in
      let c := w_put_varint c final_size in
      let c := w_put_varint c reliable_size in
      (Ok need, po_wrote po (fst c) XQC_FRAME_BIT_RESET_STREAM_AT).

Definition xqc_parse_reset_stream_at_frame : parser (Z * Z * Z * Z) :=
  type ← p_vint;
  stream_id ← p_vint;
  error ← p_vint;
  final_size ← p_vint;
  reliable_size ← p_vint;
  p_check (negb (type =? XQC_FRAME_TYPE_RESET_STREAM_AT) || (final_size <? reliable_size))
    XQC_EPROTO;;
  p_commit XQC_FRAME_BIT_RESET_STREAM_AT;;
  mret (stream_id, error, final_size, reliable_size).

Definition xqc_gen_stop_sending_frame (po : xqc_packet_out_t) (stream_id err_code : Z)
    : res Z * xqc_packet_out_t :=
  let need := 1 + vlen stream_id + vlen err_code in
  if xqc_get_po_remained_size po <? need then (Err XQC_ENOBUF, po)
  else
    let c := w_byte (po_cursor po) 0x05 in
    let c := w_vint c stream_id in
    let c := w_vint c err_code in
    gen_done po c XQC_FRAME_BIT_STOP_SENDING.

Definition xqc_parse_stop_sending_frame : parser (Z * Z) :=
  _ ← p_byte;
  stream_id ← p_vint;
  conn ← p_conn;
  p_check_conn (xqc_stream_is_recv_only (conn_type conn) stream_id)
    TRA_STREAM_STATE_ERROR XQC_EPROTO;;
  err_code ← p_vint;
  p_commit XQC_FRAME_BIT_STOP_SENDING;;
  mret (stream_id, err_code).

(** ** Flow control frames *)

Definition xqc_gen_data_blocked_frame (po : xqc_packet_out_t) (data_limit : Z)
    : res Z * xqc_packet_out_t :=
  let c := w_byte (po_cursor po) 0x14 in
  let c := w_vint c data_limit in
  gen_done po c XQC_FRAME_BIT_DATA_BLOCKED.

Definition xqc_parse_data_blocked_frame : parser Z :=
  _ ← p_byte;
  data_limit ← p_vint;
  p_commit XQC_FRAME_BIT_DATA_BLOCKED;;
  mret data_limit.

Definition xqc_gen_stream_data_blocked_frame (po : xqc_packet_out_t)
    (stream_id stream_data_limit : Z) : res Z * xqc_packet_out_t :=
  let c := w_byte (po_cursor po) 0x15 in
  let c := w_vint c stream_id in
  let c := w_vint c stream_data_limit in
  gen_done po c XQC_FRAME_BIT_STREAM_DATA_BLOCKED.

Definition xqc_parse_stream_data_blocked_frame : parser (Z * Z) :=
  _ ← p_byte;
  stream_id ← p_vint;
  stream_data_limit ← p_vint;
  p_commit XQC_FRAME_BIT_STREAM_DATA_BLOCKED;;
  mret (stream_id, stream_data_limit).

Definition xqc_gen_streams_blocked_frame (po : xqc_packet_out_t) (stream_limit : Z)
    (bidirectional : bool) : res Z * xqc_packet_out_t :=
  let c := w_byte (po_cursor po) (if bidirectional then 0x16 else 0x17) in
  let c := w_vint c stream_limit in
  gen_done po c XQC_FRAME_BIT_STREAMS_BLOCKED.

Definition xqc_parse_streams_blocked_frame : parser (Z * bool) :=
  first_byte ← p_byte;
  let bidirectional := first_byte =? 0x16 in
  stream_limit ← p_vint;
  p_commit XQC_FRAME_BIT_STREAMS_BLOCKED;;
  mret (stream_limit, bidirectional).

Definition xqc_gen_max_data_frame (po : xqc_packet_out_t) (max_data : Z)
    : res Z * xqc_packet_out_t :=
  let c := w_byte (po_cursor po) 0x10 in
  let c := w_vint c max_data in
  gen_done po c XQC_FRAME_BIT_MAX_DATA.

Definition xqc_parse_max_data_frame : parser Z :=
  _ ← p_byte;
  max_data ← p_vint;
  p_commit XQC_FRAME_BIT_MAX_DATA;;
  mret max_data.

Definition xqc_gen_max_stream_data_frame (po : xqc_packet_out_t)
    (stream_id max_stream_data : Z) : res Z * xqc_packet_out_t :=
  let c := w_byte (po_cursor po) 0x11 in
  let c := w_vint c stream_id in
  let c := w_vint c max_stream_data in
  gen_done po c XQC_FRAME_BIT_MAX_STREAM_DATA.

Definition xqc_parse_max_stream_data_frame : parser (Z * Z) :=
  _ ← p_byte;
  stream_id ← p_vint;
  conn ← p_conn;
  p_check_conn (xqc_stream_is_recv_only (conn_type conn) stream_id)
    TRA_STREAM_STATE_ERROR XQC_EPROTO;;
  max_stream_data ← p_vint;
  p_commit XQC_FRAME_BIT_MAX_STREAM_DATA;;
  mret (stream_id, max_stream_data).

Definition xqc_gen_max_streams_frame (po : xqc_packet_out_t) (max_streams : Z)
    (bidirectional : bool) : res Z * xqc_packet_out_t :=
  let c := w_byte (po_cursor po) (if bidirectional then 0x12 else 0x13) in
  let c := w_vint c max_streams in
  gen_done po c XQC_FRAME_BIT_MAX_STREAMS.

Definition xqc_parse_max_streams_frame : parser (Z * bool) :=
  first_byte ← p_byte;
  let bidirectional := first_byte =? 0x12 in
  max_streams ← p_vint;
  p_commit XQC_FRAME_BIT_MAX_STREAMS;;
  mret (max_streams, bidirectional).

(** ** CRYPTO *)

(** The stream frame a parser fills: [data] is [None] when nothing was allocated. *)
Record xqc_stream_frame_t := mk_sf {
  data : option (list Z);
  data_length : Z;
  data_offset : Z;
  fin : bool;
}.

(** The payload is [payload_size] bytes; the result also holds [*written_size]. *)
Definition xqc_gen_crypto_frame (po : xqc_packet_out_t) (offset : Z) (payload : list Z)
    : res (Z * Z) * xqc_packet_out_t :=
  let dst_buf_len := xqc_get_po_remained_size po in
  let payload_size := zlen payload in
  let c := w_byte (po_cursor po) 0x06 in
  let offset_vlen := vlen offset in
  let length_bits := xqc_vint_get_2bit payload_size in
  let length_vlen := xqc_vint_len length_bits in
  if dst_buf_len <? 1 + offset_vlen + length_vlen + 1
  then (Err XQC_ENOBUF, po_set_buf po (fst c))
  else
    let c := w_vint c offset in
    let written_size :=
      if dst_buf_len <? 1 + offset_vlen + length_vlen + payload_size
      then dst_buf_len - (1 + offset_vlen + length_vlen)
      else payload_size in
    let c := w_bytes c (xqc_vint_bytes written_size length_bits length_vlen) in
    let c := w_bytes c (take (Z.to_nat written_size) payload) in
    (Ok (snd c - po_used_size po, written_size), po_wrote po (fst c) XQC_FRAME_BIT_CRYPTO).

(** [malloc_ok]: whether [xqc_malloc] of the data succeeds. *)
Definition xqc_parse_crypto_frame (malloc_ok : bool) : parser xqc_stream_frame_t :=
  _ ← p_byte;
  offset ← p_vint;
  length ← p_vint;
  left ← p_left;
  p_check (left <? length) XQC_EILLEGAL_FRAME;;
  let data_length := u32 length in
  p_check ((0 <? data_length) && negb malloc_ok) XQC_EMALLOC;;
  bs ← p_copy length;
  p_commit XQC_FRAME_BIT_CRYPTO;;
  mret (mk_sf (if 0 <? data_length then Some bs else None) data_length offset false).

(** ** NEW_TOKEN and HANDSHAKE_DONE *)

(** [token_len] bytes of token. The length field is written before the space check. *)
Definition xqc_gen_new_token_frame (po : xqc_packet_out_t) (token : list Z)
    : res Z * xqc_packet_out_t :=
  let token_len := zlen token in
  let c := w_byte (po_cursor po) 0x07 in
  let c := w_vint c token_len in
  if xqc_get_po_remained_size po <? 1 + vlen token_len + token_len
  then (Err XQC_ENOBUF, po_set_buf po (fst c))
  else gen_done po (w_bytes c token) XQC_FRAME_BIT_NEW_TOKEN.

(** [token_len]: the size of the caller's token buffer. *)
Definition xqc_parse_new_token_frame (token_len : Z) : parser (list Z) :=
  _ ← p_byte;
  recv_token_len ← p_vint;
  p_check (recv_token_len =? 0) XQC_EPROTO;;
  p_check (token_len <? recv_token_len) XQC_ENOBUF;;
  left ← p_left;
  p_check (left <? recv_token_len) XQC_EILLEGAL_FRAME;;
  token ← p_copy recv_token_len;
  p_commit XQC_FRAME_BIT_NEW_TOKEN;;
  mret token.

Definition xqc_gen_handshake_done_frame (po : xqc_packet_out_t) : res Z * xqc_packet_out_t :=
  if xqc_get_po_remained_size po <? 1 then (Err XQC_ENOBUF, po)
  else gen_done po (w_byte (po_cursor po) 0x1e) XQC_FRAME_BIT_HANDSHAKE_DONE.

Definition xqc_parse_handshake_done_frame : parser unit :=
  p_skip 1;; p_commit XQC_FRAME_BIT_HANDSHAKE_DONE;; mret tt.

(** ** Connection IDs *)

(** [xqc_memcpy(dst_buf, new_cid->cid_buf, new_cid->cid_len)] and the optional token. *)
Definition w_cid (c : cursor) (new_cid : xqc_cid_t) (token : option (list Z)) : cursor :=
  let c := w_bytes c (sub_bytes (cid_buf new_cid) 0 (cid_len new_cid)) in
  match token with
  | Some t => w_bytes c (sub_bytes t 0 XQC_STATELESS_RESET_TOKENLEN)
  | None => c
  end.

Definition xqc_gen_new_conn_id_frame (po : xqc_packet_out_t) (new_cid : xqc_cid_t)
    (retire_prior_to : Z) (token : option (list Z)) : res Z * xqc_packet_out_t :=
  if (cid_len new_cid =? 0) || (XQC_MAX_CID_LEN <? cid_len new_cid)
  then (Err XQC_EPARAM, po)
  else
    let c := w_byte (po_cursor po) 0x18 in
    let c := w_vint c (cid_seq_num new_cid) in
    let c := w_vint c retire_prior_to in
    let c := w_vint c (cid_len new_cid) in
    let c := w_cid c new_cid token in
    gen_done po c XQC_FRAME_BIT_NEW_CONNECTION_ID.

(** From the length byte on, shared by NEW_CONNECTION_ID and MP_NEW_CONNECTION_ID:
    the length, the ID copied over the first bytes of [cid_buf], and the token. *)
Definition p_cid (new_cid : xqc_cid_t) : parser (Z * list Z * list Z) :=
  left ← p_left;
  p_check (left <=? 0) XQC_EPROTO;;
  len ← p_byte;
  p_check_conn ((len <? 1) || (XQC_MAX_CID_LEN <? len)) TRA_FRAME_ENCODING_ERROR XQC_EPROTO;;
  left ← p_left;
  p_check (left <? len) XQC_EPROTO;;
  cid ← p_copy len;
  left ← p_left;
  p_check (left <? XQC_STATELESS_RESET_TOKENLEN) XQC_EPROTO;;
  token ← p_copy XQC_STATELESS_RESET_TOKENLEN;
  mret (len, wr (cid_buf new_cid) 0 cid, token).

Definition xqc_parse_new_conn_id_frame (new_cid : xqc_cid_t) : parser (xqc_cid_t * Z) :=
  _ ← p_byte;
  seq_num ← p_vint;
  retire_prior_to ← p_vint;
  '(len, cid, token) ← p_cid new_cid;
  p_commit XQC_FRAME_BIT_NEW_CONNECTION_ID;;
  mret (mk_cid len cid seq_num token (path_id new_cid), retire_prior_to).

Definition xqc_gen_retire_conn_id_frame (po : xqc_packet_out_t) (seq_num : Z)
    : res Z * xqc_packet_out_t :=
  let c := w_byte (po_cursor po) 0x19 in
  let c := w_vint c seq_num in
  gen_done po c XQC_FRAME_BIT_RETIRE_CONNECTION_ID.

Definition xqc_parse_retire_conn_id_frame : parser Z :=
  _ ← p_byte;
  seq_num ← p_vint;
  p_commit XQC_FRAME_BIT_RETIRE_CONNECTION_ID;;
  mret seq_num.

(** ** Path validation *)

Definition xqc_gen_path_challenge_frame (po : xqc_packet_out_t) (data : list Z)
    : res Z * xqc_packet_out_t :=
  let frame_type := 0x1a in
  let need := vlen frame_type + XQC_PATH_CHALLENGE_DATA_LEN in
  if xqc_get_po_remained_size po <? need then (Err XQC_ENOBUF, po)
  else
    let c := w_vint (po_cursor po) frame_type in
    let c := w_bytes c (sub_bytes data 0 XQC_PATH_CHALLENGE_DATA_LEN) in
    gen_done po c XQC_FRAME_BIT_PATH_CHALLENGE.

Definition xqc_parse_path_challenge_frame : parser (list Z) :=
  _ ← p_byte;
  left ← p_left;
  p_check (left <? XQC_PATH_CHALLENGE_DATA_LEN) XQC_EVINTREAD;;
  data ← p_copy XQC_PATH_CHALLENGE_DATA_LEN;
  p_commit XQC_FRAME_BIT_PATH_CHALLENGE;;
  mret data.

Definition xqc_gen_path_response_frame (po : xqc_packet_out_t) (data : list Z)
    : res Z * xqc_packet_out_t :=
  let frame_type := 0x1b in
  let need := vlen frame_type + XQC_PATH_CHALLENGE_DATA_LEN in
  if xqc_get_po_remained_size po <? need then (Err XQC_ENOBUF, po)
  else
    let c := w_vint (po_cursor po) frame_type in
    let c := w_bytes c (sub_bytes data 0 XQC_PATH_CHALLENGE_DATA_LEN) in
    gen_done po c XQC_FRAME_BIT_PATH_RESPONSE.

Definition xqc_parse_path_response_frame : parser (list Z) :=
  _ ← p_byte;
  left ← p_left;
  p_check (left <? XQC_PATH_CHALLENGE_DATA_LEN) XQC_EVINTREAD;;
  data ← p_copy XQC_PATH_CHALLENGE_DATA_LEN;
  p_commit XQC_FRAME_BIT_PATH_RESPONSE;;
  mret data.

(** ** CONNECTION_CLOSE *)

(** [reason]: the phrase, [None] for [NULL]. *)
Definition xqc_gen_conn_close_frame (po : xqc_packet_out_t) (err_code : Z) (is_app : bool)
    (frame_type : Z) (reason : option (list Z)) : res Z * xqc_packet_out_t :=
  let remained := xqc_get_po_remained_size po in
  let need := 1 + vlen err_code + (if is_app then 0 else vlen frame_type) + xqc_vint_len 0 in
  if remained <? need then (Err XQC_ENOBUF, po)
  else
    let '(rbytes, reason_len_bits) :=
      match reason with
      | None => ([], 0)
      | Some r =>
          let reason_len := zlen r in
          if (XQC_MAX_CONN_CLOSE_REASON_LEN <? reason_len) || (remained - need <? reason_len)
          then ([], 0)
          else
            let bits := xqc_vint_get_2bit reason_len in
            if remained <? need + (xqc_vint_len bits - 1 + reason_len)
            then ([], 0) else (r, bits)
      end in
    let c := w_byte (po_cursor po) (if is_app then 0x1d else 0x1c) in
    let c := w_vint c err_code in
    let c := if is_app then c else w_vint c frame_type in
    let c := w_bytes c (xqc_vint_bytes (zlen rbytes) reason_len_bits
                          (xqc_vint_len reason_len_bits)) in
    let c := if 0 <? zlen rbytes then w_bytes c rbytes else c in
    gen_done po c XQC_FRAME_BIT_CONNECTION_CLOSE.

(** [if (conn->conn_err_type == UNKNOWN) conn->conn_err_type = ...]. *)
Definition note_err_type (conn : xqc_connection_t) (first_byte : Z) : xqc_connection_t :=
  match conn_err_type conn with
  | XQC_CONN_ERR_TYPE_UNKNOWN =>
      set_conn_err_type conn
        (if first_byte =? 0x1c then XQC_CONN_ERR_TYPE_TRANSPORT
         else XQC_CONN_ERR_TYPE_APPLICATION)
  | _ => conn
  end.

(** Returns [*err_code]. *)
Definition xqc_parse_conn_close_frame : parser Z :=
  first_byte ← p_byte;
  err_code ← p_vint;
  (if first_byte =? 0x1c then p_vint else mret 0) ≫= fun _ =>
  reason_len ← p_vint;
  left ← p_left;
  p_check (left <? reason_len) XQC_EILLEGAL_FRAME;;
  p_skip reason_len;;
  p_commit XQC_FRAME_BIT_CONNECTION_CLOSE;;
  conn ← p_conn;
  p_set_conn (note_err_type conn first_byte);;
  mret err_code.

End Frames.
