(* ===== verification/FrameSpec.v ===== *)
(** What the control frames mean: the wire format of each frame (RFC 9000, section 19), and
    that the generators write that format and the parsers read it back. The receive loop over
    frames of every type is in FrameLoop. *)

From stdpp Require Import base numbers list.
From S2P Require Import Prelude VInt PacketBuf Frames.
Import Frames.

Module FrameSpec.

(** ** Abstract frames *)

Inductive frame :=
| F_PING
| F_HANDSHAKE_DONE
| F_RESET_STREAM (stream_id err_code final_size : Z)
| F_RESET_STREAM_AT (stream_id err_code final_size reliable_size : Z)
| F_STOP_SENDING (stream_id err_code : Z)
| F_NEW_TOKEN (token : list Z)
| F_MAX_DATA (max_data : Z)
| F_MAX_STREAM_DATA (stream_id max_stream_data : Z)
| F_MAX_STREAMS (max_streams : Z) (bidirectional : bool)
| F_DATA_BLOCKED (data_limit : Z)
| F_STREAM_DATA_BLOCKED (stream_id stream_data_limit : Z)
| F_STREAMS_BLOCKED (stream_limit : Z) (bidirectional : bool)
| F_NEW_CONNECTION_ID (seq_num retire_prior_to : Z) (cid token : list Z)
| F_RETIRE_CONNECTION_ID (seq_num : Z)
| F_PATH_CHALLENGE (data : list Z)
| F_PATH_RESPONSE (data : list Z).

(** The wire format. *)
Definition frame_bytes (f : frame) : list Z :=
  match f with
  | F_PING => [0x01]
  | F_HANDSHAKE_DONE => [0x1e]
  | F_RESET_STREAM s e fs => 0x04 :: enc_vint s ++ enc_vint e ++ enc_vint fs
  | F_RESET_STREAM_AT s e fs rs =>
      0x24 :: enc_vint s ++ enc_vint e ++ enc_vint fs ++ enc_vint rs
  | F_STOP_SENDING s e => 0x05 :: enc_vint s ++ enc_vint e
  | F_NEW_TOKEN t => 0x07 :: enc_vint (zlen t) ++ t
  | F_MAX_DATA n => 0x10 :: enc_vint n
  | F_MAX_STREAM_DATA s n => 0x11 :: enc_vint s ++ enc_vint n
  | F_MAX_STREAMS n b => (if b then 0x12 else 0x13) :: enc_vint n
  | F_DATA_BLOCKED n => 0x14 :: enc_vint n
  | F_STREAM_DATA_BLOCKED s n => 0x15 :: enc_vint s ++ enc_vint n
  | F_STREAMS_BLOCKED n b => (if b then 0x16 else 0x17) :: enc_vint n
  | F_NEW_CONNECTION_ID s r cid t =>
      0x18 :: enc_vint s ++ enc_vint r ++ [zlen cid] ++ cid ++ t
  | F_RETIRE_CONNECTION_ID s => 0x19 :: enc_vint s
  | F_PATH_CHALLENGE d => 0x1a :: d
  | F_PATH_RESPONSE d => 0x1b :: d
  end.

(** The fields are in the range of the format. *)
Definition frame_wf (f : frame) : Prop :=
  match f with
  | F_PING | F_HANDSHAKE_DONE => True
  | F_RESET_STREAM s e fs => vint_ok s /\ vint_ok e /\ vint_ok fs
  | F_RESET_STREAM_AT s e fs rs =>
      vint_ok s /\ vint_ok e /\ vint_ok fs /\ 0 <= rs <= fs
  | F_STOP_SENDING a b | F_MAX_STREAM_DATA a b | F_STREAM_DATA_BLOCKED a b =>
      vint_ok a /\ vint_ok b
  | F_NEW_TOKEN t => bytes_ok t /\ 0 < zlen t < 2 ^ 32
  | F_MAX_DATA n | F_DATA_BLOCKED n | F_RETIRE_CONNECTION_ID n => vint_ok n
  | F_MAX_STREAMS n _ | F_STREAMS_BLOCKED n _ => vint_ok n
  | F_NEW_CONNECTION_ID s r cid t =>
      vint_ok s /\ vint_ok r /\ bytes_ok cid /\ bytes_ok t
      /\ 1 <= zlen cid <= XQC_MAX_CID_LEN /\ zlen t = XQC_STATELESS_RESET_TOKENLEN
  | F_PATH_CHALLENGE d | F_PATH_RESPONSE d =>
      bytes_ok d /\ zlen d = XQC_PATH_CHALLENGE_DATA_LEN
  end.

(** The receiver [c], with a token buffer of [tok_cap] bytes, may receive the frame. *)
Definition frame_receivable (c : xqc_connection_t) (tok_cap : Z) (f : frame) : Prop :=
  match f with
  | F_RESET_STREAM s _ _ => xqc_stream_is_send_only (conn_type c) s = false
  | F_STOP_SENDING s _ | F_MAX_STREAM_DATA s _ =>
      xqc_stream_is_recv_only (conn_type c) s = false
  | F_NEW_TOKEN t => zlen t <= tok_cap
  | _ => True
  end.

(** The bit of [po_frame_types] and [pi_frame_types]. *)
Definition frame_bit (f : frame) : Z :=
  match f with
  | F_PING => XQC_FRAME_BIT_PING
  | F_HANDSHAKE_DONE => XQC_FRAME_BIT_HANDSHAKE_DONE
  | F_RESET_STREAM _ _ _ => XQC_FRAME_BIT_RESET_STREAM
  | F_RESET_STREAM_AT _ _ _ _ => XQC_FRAME_BIT_RESET_STREAM_AT
  | F_STOP_SENDING _ _ => XQC_FRAME_BIT_STOP_SENDING
  | F_NEW_TOKEN _ => XQC_FRAME_BIT_NEW_TOKEN
  | F_MAX_DATA _ => XQC_FRAME_BIT_MAX_DATA
  | F_MAX_STREAM_DATA _ _ => XQC_FRAME_BIT_MAX_STREAM_DATA
  | F_MAX_STREAMS _ _ => XQC_FRAME_BIT_MAX_STREAMS
  | F_DATA_BLOCKED _ => XQC_FRAME_BIT_DATA_BLOCKED
  | F_STREAM_DATA_BLOCKED _ _ => XQC_FRAME_BIT_STREAM_DATA_BLOCKED
  | F_STREAMS_BLOCKED _ _ => XQC_FRAME_BIT_STREAMS_BLOCKED
  | F_NEW_CONNECTION_ID _ _ _ _ => XQC_FRAME_BIT_NEW_CONNECTION_ID
  | F_RETIRE_CONNECTION_ID _ => XQC_FRAME_BIT_RETIRE_CONNECTION_ID
  | F_PATH_CHALLENGE _ => XQC_FRAME_BIT_PATH_CHALLENGE
  | F_PATH_RESPONSE _ => XQC_FRAME_BIT_PATH_RESPONSE
  end.

(** ** The generators and the parsers, by frame *)

Definition gen_frame (po : xqc_packet_out_t) (f : frame) : res Z * xqc_packet_out_t :=
  match f with
  | F_PING => xqc_gen_ping_frame po
  | F_HANDSHAKE_DONE => xqc_gen_handshake_done_frame po
  | F_RESET_STREAM s e fs => xqc_gen_reset_stream_frame po s e fs
  | F_RESET_STREAM_AT s e fs rs => xqc_gen_reset_stream_at_frame po s e fs rs
  | F_STOP_SENDING s e => xqc_gen_stop_sending_frame po s e
  | F_NEW_TOKEN t => xqc_gen_new_token_frame po t
  | F_MAX_DATA n => xqc_gen_max_data_frame po n
  | F_MAX_STREAM_DATA s n => xqc_gen_max_stream_data_frame po s n
  | F_MAX_STREAMS n b => xqc_gen_max_streams_frame po n b
  | F_DATA_BLOCKED n => xqc_gen_data_blocked_frame po n
  | F_STREAM_DATA_BLOCKED s n => xqc_gen_stream_data_blocked_frame po s n
  | F_STREAMS_BLOCKED n b => xqc_gen_streams_blocked_frame po n b
  | F_NEW_CONNECTION_ID s r cid t =>
      xqc_gen_new_conn_id_frame po (mk_cid (zlen cid) cid s t 0) r (Some t)
  | F_RETIRE_CONNECTION_ID s => xqc_gen_retire_conn_id_frame po s
  | F_PATH_CHALLENGE d => xqc_gen_path_challenge_frame po d
  | F_PATH_RESPONSE d => xqc_gen_path_response_frame po d
  end.

(** [frame_type_len = xqc_vint_read(pos, end, &frame_type)]: the type is read, [pos]
    does not move. *)
Definition p_peek_type : parser Z := fun s =>
  match xqc_vint_read (pi_buf (ps_in s)) (ps_p s) (pi_last (ps_in s)) with
  | Some (v, _) => (Ok v, s)
  | None => (Err XQC_EVINTREAD, s)
  end.

Definition XQC_EIGNORE_PKT : Z := 631.

(** A caller's [xqc_cid_t] before parsing. *)
Definition cid_zero : xqc_cid_t :=
  mk_cid 0 (replicate 20 0) 0 (replicate 16 0) 0.

(** The parser that each control frame type is dispatched to; FrameLoop calls it on the types
    listed here only. *)
Definition parse_control (tok_cap frame_type : Z) : parser frame :=
  match frame_type with
  | 0x01 => xqc_parse_ping_frame;; mret F_PING
  | 0x04 => '(s, e, fs) ← xqc_parse_reset_stream_frame; mret (F_RESET_STREAM s e fs)
  | 0x24 => '(s, e, fs, rs) ← xqc_parse_reset_stream_at_frame;
            mret (F_RESET_STREAM_AT s e fs rs)
  | 0x05 => '(s, e) ← xqc_parse_stop_sending_frame; mret (F_STOP_SENDING s e)
  | 0x07 => t ← xqc_parse_new_token_frame tok_cap; mret (F_NEW_TOKEN t)
  | 0x10 => n ← xqc_parse_max_data_frame; mret (F_MAX_DATA n)
  | 0x11 => '(s, n) ← xqc_parse_max_stream_data_frame; mret (F_MAX_STREAM_DATA s n)
  | 0x12 | 0x13 => '(n, b) ← xqc_parse_max_streams_frame; mret (F_MAX_STREAMS n b)
  | 0x14 => n ← xqc_parse_data_blocked_frame; mret (F_DATA_BLOCKED n)
  | 0x15 => '(s, n) ← xqc_parse_stream_data_blocked_frame; mret (F_STREAM_DATA_BLOCKED s n)
  | 0x16 | 0x17 => '(n, b) ← xqc_parse_streams_blocked_frame; mret (F_STREAMS_BLOCKED n b)
  | 0x18 => '(cid, r) ← xqc_parse_new_conn_id_frame cid_zero;
            mret (F_NEW_CONNECTION_ID (cid_seq_num cid) r
                    (sub_bytes (cid_buf cid) 0 (cid_len cid)) (sr_token cid))
  | 0x19 => s ← xqc_parse_retire_conn_id_frame; mret (F_RETIRE_CONNECTION_ID s)
  | 0x1a => d ← xqc_parse_path_challenge_frame; mret (F_PATH_CHALLENGE d)
  | 0x1b => d ← xqc_parse_path_response_frame; mret (F_PATH_RESPONSE d)
  | 0x1e => xqc_parse_handshake_done_frame;; mret F_HANDSHAKE_DONE
  | _ => p_fail XQC_EIGNORE_PKT
  end.

(** Frames written one after another, as the packet writers do. *)
Fixpoint gen_frames (po : xqc_packet_out_t) (fs : list frame) : res unit * xqc_packet_out_t :=
  match fs with
  | [] => (Ok tt, po)
  | f :: fs' =>
      match gen_frame po f with
      | (Ok n, po') => gen_frames (po_advance po' n) fs'
      | (Err e, po') => (Err e, po')
      end
  end.

Definition frames_bytes (fs : list frame) : list Z := concat (map frame_bytes fs).

(** ** The generators write the format *)

Lemma w_put_varint_wr buf p l v :
  0 <= p -> 0 <= v <= XQC_VINT_MAX -> p + zlen l + vlen v <= zlen buf ->
  w_put_varint (wr_at buf p l) v = wr_at buf p (l ++ enc_vint v).
Proof.
  intros Hp Hv Hz. rewrite <- w_vint_wr by done. unfold w_put_varint, w_vint, wr_at.
  cbn [fst snd]. pose proof (vint_len_put_varint_len v) as Hl. unfold vlen in Hz.
  pose proof (zlen_nonneg l). unfold XQC_VINT_MAX in Hv. revert Hv. eval_pow. intros Hv.
  rewrite put_varint_eq by (rewrite ?zlen_wr; eval_pow; lia). rewrite <- Hl.
  destruct (v <=? XQC_VINT_MAX) eqn:E; [done|]. unfold XQC_VINT_MAX in E.
  revert E. eval_pow. intros. zb.
Qed.

Lemma gen_reset_stream_at_ok po s e fs rs :
  let f := F_RESET_STREAM_AT s e fs rs in
  frame_wf f -> 0 <= po_used_size po ->
  po_used_size po + zlen (frame_bytes f) <= zlen (po_buf po) ->
  zlen (frame_bytes f) <= xqc_get_po_remained_size po ->
  gen_frame po f
  = (Ok (zlen (frame_bytes f)),
     po_wrote po (wr (po_buf po) (po_used_size po) (frame_bytes f)) (frame_bit f)).
Proof.
  cbn [gen_frame frame_bytes frame_wf frame_bit]. unfold vint_ok.
  intros (Hs & He & Hf & Hr) Hu Hz Hroom. autorewrite with enc in Hz, Hroom.
  unfold xqc_gen_reset_stream_at_frame. rewrite <- !vint_len_put_varint_len. fold (vlen s).
  fold (vlen e) (vlen fs) (vlen rs).
  pose proof (vlen_range s). pose proof (vlen_range e). pose proof (vlen_range fs).
  pose proof (vlen_range rs).
  destruct (_ || _) eqn:E1; [zb|]. cbv zeta.
  destruct (xqc_get_po_remained_size po <? _) eqn:E2; [zb|]. rewrite po_cursor_wr.
  rewrite !w_put_varint_wr by (autorewrite with enc;
    change (vlen XQC_FRAME_TYPE_RESET_STREAM_AT) with 1; first [done | lia | by compute]).
  change (enc_vint XQC_FRAME_TYPE_RESET_STREAM_AT) with [0x24]. cbn [app fst wr_at].
  rewrite <- !app_assoc. cbn [app]. f_equal. f_equal. autorewrite with enc. lia.
Qed.

Lemma gen_new_token_ok po t :
  0 <= po_used_size po ->
  zlen (frame_bytes (F_NEW_TOKEN t)) <= xqc_get_po_remained_size po ->
  gen_frame po (F_NEW_TOKEN t)
  = (Ok (zlen (frame_bytes (F_NEW_TOKEN t))),
     po_wrote po (wr (po_buf po) (po_used_size po) (frame_bytes (F_NEW_TOKEN t)))
       XQC_FRAME_BIT_NEW_TOKEN).
Proof.
  cbn [gen_frame frame_bytes]. intros Hu Hr. unfold xqc_gen_new_token_frame. cbv zeta.
  gen_room. by run_writer.
Qed.

Lemma gen_new_conn_id_ok po s r cid t :
  let f := F_NEW_CONNECTION_ID s r cid t in
  frame_wf f -> 0 <= po_used_size po ->
  gen_frame po f
  = (Ok (zlen (frame_bytes f)),
     po_wrote po (wr (po_buf po) (po_used_size po) (frame_bytes f)) (frame_bit f)).
Proof.
  cbn [gen_frame frame_bytes frame_wf frame_bit]. unfold XQC_MAX_CID_LEN.
  intros (_ & _ & _ & _ & Hc & Ht) Hu. unfold xqc_gen_new_conn_id_frame, w_cid.
  unfold XQC_MAX_CID_LEN. cbn [cid_len cid_buf cid_seq_num].
  destruct (_ || _) eqn:E; [zb|]. rewrite <- Ht, !sub_bytes_all. run_writer.
  by rewrite (enc_vint_1 (zlen cid)) by lia.
Qed.

Lemma gen_path_challenge_ok po d :
  zlen d = XQC_PATH_CHALLENGE_DATA_LEN -> 0 <= po_used_size po ->
  1 + zlen d <= xqc_get_po_remained_size po ->
  xqc_gen_path_challenge_frame po d
  = (Ok (1 + zlen d),
     po_wrote po (wr (po_buf po) (po_used_size po) (0x1a :: d)) XQC_FRAME_BIT_PATH_CHALLENGE)
  /\ xqc_gen_path_response_frame po d
  = (Ok (1 + zlen d),
     po_wrote po (wr (po_buf po) (po_used_size po) (0x1b :: d)) XQC_FRAME_BIT_PATH_RESPONSE).
Proof.
  intros Hd Hu Hr. unfold xqc_gen_path_challenge_frame, xqc_gen_path_response_frame.
  rewrite <- Hd, sub_bytes_all. cbv zeta. change (vlen 0x1a) with 1. change (vlen 0x1b) with 1.
  destruct (_ <? _) eqn:E; [zb|]. run_writer. rewrite !enc_vint_1 by done. cbn [app].
  by rewrite !zlen_cons.
Qed.

Lemma gen_frame_ok po f :
  frame_wf f -> 0 <= po_used_size po ->
  po_used_size po + zlen (frame_bytes f) <= zlen (po_buf po) ->
  zlen (frame_bytes f) <= xqc_get_po_remained_size po ->
  gen_frame po f
  = (Ok (zlen (frame_bytes f)),
     po_wrote po (wr (po_buf po) (po_used_size po) (frame_bytes f)) (frame_bit f)).
Proof.
  intros Hwf Hu Hz Hr. destruct f.
  all: try (cbn [gen_frame frame_bytes frame_wf frame_bit] in *;
    unfold xqc_gen_ping_frame, xqc_gen_handshake_done_frame,
    xqc_gen_reset_stream_frame, xqc_gen_stop_sending_frame, xqc_gen_max_data_frame,
    xqc_gen_max_stream_data_frame, xqc_gen_max_streams_frame, xqc_gen_data_blocked_frame,
    xqc_gen_stream_data_blocked_frame, xqc_gen_streams_blocked_frame,
    xqc_gen_retire_conn_id_frame; cbv zeta; try gen_room; run_writer; done).
  - by apply gen_reset_stream_at_ok.
  - by apply gen_new_token_ok.
  - by apply gen_new_conn_id_ok.
  - cbn [gen_frame frame_bytes frame_wf] in *. rewrite zlen_cons in *.
    eapply gen_path_challenge_ok; [apply Hwf|done|done].
  - cbn [gen_frame frame_bytes frame_wf] in *. rewrite zlen_cons in *.
    eapply gen_path_challenge_ok; [apply Hwf|done|done].
Qed.

(** ** The parsers read it back *)

Lemma parses_peek {B} c t bs (k : Z -> parser B) x f :
  0 <= t < 64 -> parses c (k t) (t :: bs) x f -> parses c (p_peek_type ≫= k) (t :: bs) x f.
Proof.
  intros Ht Hk s Hc Hs. rewrite <- (Hk s Hc Hs). unfold mbind, parser_bind, p_peek_type.
  destruct (at_input_app s [t] bs Hs) as [Hs1 _]. rewrite <- (enc_vint_1 t Ht) in Hs1.
  assert (0 <= t <= XQC_VINT_MAX) as Hv by (unfold XQC_VINT_MAX; eval_pow; lia).
  pose proof (parses_vint c t Hv s Hc Hs1) as Hp. unfold p_vint in Hp.
  by destruct (xqc_vint_read _ _ _) as [[v n]|]; simplify_eq.
Qed.

Lemma parse_new_conn_id_ok c s r cid t :
  frame_wf (F_NEW_CONNECTION_ID s r cid t) ->
  parses c (xqc_parse_new_conn_id_frame cid_zero) (frame_bytes (F_NEW_CONNECTION_ID s r cid t))
    (mk_cid (zlen cid) (wr (cid_buf cid_zero) 0 cid) s t 0, r)
    (commit_eff XQC_FRAME_BIT_NEW_CONNECTION_ID).
Proof.
  cbn [frame_wf frame_bytes app]. intros (Hs & Hr & Hc & Ht & Hlen & Htl).
  unfold xqc_parse_new_conn_id_frame, p_cid. rewrite <- Htl. unfold XQC_MAX_CID_LEN in *.
  pose proof (zlen_nonneg t). repeat parse_step; parse_side.
Qed.

Lemma parse_control_ok c tok_cap f :
  frame_wf f -> frame_receivable c tok_cap f ->
  parses c (parse_control tok_cap (hd 0 (frame_bytes f))) (frame_bytes f) f
    (commit_eff (frame_bit f)).
Proof.
  intros Hwf Hrx. destruct f as [| |s e fs|s e fs rs|s e|t|n|s n|n b|n|s n|n b|s r cid t|s|d|d];
    try destruct b; cbn [frame_bytes frame_wf frame_receivable frame_bit hd parse_control] in *;
    unfold xqc_parse_ping_frame, xqc_parse_handshake_done_frame,
      xqc_parse_reset_stream_frame, xqc_parse_reset_stream_at_frame,
      xqc_parse_stop_sending_frame, xqc_parse_new_token_frame, xqc_parse_max_data_frame,
      xqc_parse_max_stream_data_frame, xqc_parse_max_streams_frame,
      xqc_parse_data_blocked_frame, xqc_parse_stream_data_blocked_frame,
      xqc_parse_streams_blocked_frame, xqc_parse_retire_conn_id_frame,
      xqc_parse_path_challenge_frame, xqc_parse_path_response_frame;
    try parse_all.
  - unfold XQC_FRAME_TYPE_RESET_STREAM_AT. parse_all.
  - assert (vint_ok (zlen t)) by (destruct Hwf; split; [lia|unfold XQC_VINT_MAX; eval_pow; lia]).
    destruct Hwf as [_ Ht]. parse_all.
  - eapply parses_wrap; [by apply parse_new_conn_id_ok|]. cbn [cid_seq_num cid_buf cid_len sr_token].
    destruct Hwf as (_ & _ & _ & _ & Hlen & _). unfold XQC_MAX_CID_LEN in Hlen.
    rewrite bytes_at_sub; [done|]. apply bytes_at_wr; [done|]. cbn. unfold zlen at 2. simpl. lia.
  - rewrite <- (proj2 Hwf). destruct Hwf. parse_all.
  - rewrite <- (proj2 Hwf). destruct Hwf. parse_all.
Qed.

Lemma frame_type_range f : 0 <= hd 0 (frame_bytes f) < 64.
Proof. destruct f; try destruct bidirectional; done. Qed.

(** ** Whole packets *)

Lemma po_remained_advance po buf bit n :
  0 <= n <= xqc_get_po_remained_size po -> 0 <= po_reserved_size po ->
  xqc_get_po_remained_size (po_advance (po_wrote po buf bit) n)
  = xqc_get_po_remained_size po - n.
Proof.
  unfold xqc_get_po_remained_size. simpl. intros Hn Hr.
  destruct ((po_buf_size po <? po_used_size po) || _) eqn:E1;
    destruct ((po_buf_size po <? po_used_size po + n) || _) eqn:E2; zify_bools; lia.
Qed.

Lemma frame_bytes_pos f : 0 < zlen (frame_bytes f).
Proof.
  destruct f; cbn [frame_bytes]; rewrite ?zlen_cons;
    match goal with |- 0 < 1 + zlen ?l => pose proof (zlen_nonneg l); lia end.
Qed.

Lemma frame_bytes_ok f : frame_wf f -> bytes_ok (frame_bytes f).
Proof.
  destruct f; cbn [frame_wf frame_bytes]; intros Hwf;
    repeat match goal with
    | |- bytes_ok (_ :: _) => apply bytes_ok_cons; split
    | |- bytes_ok (_ ++ _) => apply bytes_ok_app; split
    | |- is_byte _ => unfold is_byte, XQC_MAX_CID_LEN in *; repeat case_match; lia
    end; solve [by constructor | apply enc_vint_ok | apply Hwf].
Qed.

Lemma gen_frames_ok po fs :
  Forall frame_wf fs -> 0 <= po_used_size po -> 0 <= po_reserved_size po ->
  po_used_size po + zlen (frames_bytes fs) <= zlen (po_buf po) ->
  zlen (frames_bytes fs) <= xqc_get_po_remained_size po ->
  exists po', gen_frames po fs = (Ok tt, po')
    /\ po_buf po' = wr (po_buf po) (po_used_size po) (frames_bytes fs)
    /\ po_used_size po' = po_used_size po + zlen (frames_bytes fs).
Proof.
  revert po. induction fs as [|f fs IH]; intros po Hwf Hu Hres Hz Hr; cbn [gen_frames].
  - exists po. unfold frames_bytes. simpl. split_and!; [done|done|]. rewrite zlen_nil. lia.
  - apply Forall_cons in Hwf as [Hf Hfs]. unfold frames_bytes in *. cbn [map concat] in *.
    rewrite zlen_app in *. pose proof (zlen_nonneg (concat (map frame_bytes fs))).
    pose proof (frame_bytes_pos f). rewrite gen_frame_ok by (done || lia).
    destruct (IH (po_advance (po_wrote po (wr (po_buf po) (po_used_size po) (frame_bytes f))
      (frame_bit f)) (zlen (frame_bytes f)))) as (po' & -> & Hb & Hu'); try done; simpl.
    + lia.
    + rewrite zlen_wr. lia.
    + rewrite po_remained_advance by lia. lia.
    + exists po'. simpl in *. rewrite Hb, Hu', wr_app by done. split_and!; done || lia.
Qed.

(** ** The parsers stay inside the packet *)

Lemma local_peek {B} (k : Z -> parser B) s :
  ps_ok s ->
  (forall v n, xqc_vint_read (pi_buf (ps_in s)) (ps_p s) (pi_last (ps_in s)) = Some (v, n) ->
     local_at (k v) s) ->
  local_at (p_peek_type ≫= k) s.
Proof.
  intros Hok Hk.
  assert (forall b2, pi_last (ps_in s) <= zlen b2 ->
    agree (pi_buf (ps_in s)) b2 (ps_p s) (pi_last (ps_in s)) ->
    xqc_vint_read b2 (ps_p s) (pi_last (ps_in s))
    = xqc_vint_read (pi_buf (ps_in s)) (ps_p s) (pi_last (ps_in s))) as Hag.
  { intros b2 Hz Ha. unfold ps_ok in Hok. symmetry. apply vint_read_agree; done || lia. }
  destruct (xqc_vint_read (pi_buf (ps_in s)) (ps_p s) (pi_last (ps_in s))) as [[v n]|] eqn:E.
  - assert ((p_peek_type ≫= k) s = k v s) as Hs.
    { unfold mbind, parser_bind, p_peek_type. by rewrite E. }
    destruct (Hk v n eq_refl) as [H1 H2 H3 H4 H5]. split; rewrite ?Hs; try done.
    intros b2 Hz Ha. rewrite <- (H5 b2 Hz Ha). unfold mbind, parser_bind, p_peek_type.
    simpl. by rewrite (Hag b2 Hz Ha).
  - apply (local_fail _ s XQC_EVINTREAD (ps_conn s)); [done|..].
    + apply bind_fail. unfold p_peek_type. rewrite E. by destruct s.
    + intros b2 Hz Ha. apply bind_fail. unfold p_peek_type. simpl. by rewrite (Hag b2 Hz Ha).
Qed.

Lemma parse_control_local tok_cap t s :
  ps_ok s -> bytes_ok (pi_buf (ps_in s)) -> ps_p s < pi_last (ps_in s) ->
  local_at (parse_control tok_cap t) s.
Proof.
  intros Hok Hb Hlt. unfold parse_control.
  repeat case_match; try by apply local_p_fail.
  all: apply local_wrap; [intros; repeat case_match; eexists; reflexivity|];
    unfold xqc_parse_ping_frame, xqc_parse_handshake_done_frame,
      xqc_parse_reset_stream_frame, xqc_parse_reset_stream_at_frame,
      xqc_parse_stop_sending_frame, xqc_parse_new_token_frame, xqc_parse_max_data_frame,
      xqc_parse_max_stream_data_frame, xqc_parse_max_streams_frame,
      xqc_parse_data_blocked_frame, xqc_parse_stream_data_blocked_frame,
      xqc_parse_streams_blocked_frame, xqc_parse_retire_conn_id_frame,
      xqc_parse_path_challenge_frame, xqc_parse_path_response_frame,
      xqc_parse_new_conn_id_frame, p_cid;
    unfold XQC_PATH_CHALLENGE_DATA_LEN, XQC_STATELESS_RESET_TOKENLEN; local_tac.
Qed.

End FrameSpec.
