(* ===== verification/CryptoClose.v ===== *)
(** CRYPTO, CONNECTION_CLOSE and PADDING: the control frames whose generators adapt to
    the space left in the packet. *)

From stdpp Require Import base numbers list.
From S2P Require Import Prelude VInt PacketBuf Frames.
Import Frames.

Module CryptoClose.

(** ** CRYPTO *)

(** The bytes of a CRYPTO frame whose length field was sized for [total] bytes. *)
Definition crypto_bytes (offset total : Z) (d : list Z) : list Z :=
  let bits := xqc_vint_get_2bit total in
  0x06 :: enc_vint offset ++ xqc_vint_bytes (zlen d) bits (xqc_vint_len bits) ++ d.

(** What fits in the packet after the header of the frame. *)
Definition crypto_room (po : xqc_packet_out_t) (offset total : Z) : Z :=
  xqc_get_po_remained_size po - (1 + vlen offset + vlen total).

Lemma gen_crypto_ok po offset payload :
  0 <= po_used_size po -> 0 < crypto_room po offset (zlen payload) ->
  let n := Z.min (zlen payload) (crypto_room po offset (zlen payload)) in
  let bs := crypto_bytes offset (zlen payload) (take (Z.to_nat n) payload) in
  xqc_gen_crypto_frame po offset payload
  = (Ok (zlen bs, n), po_wrote po (wr (po_buf po) (po_used_size po) bs) XQC_FRAME_BIT_CRYPTO).
Proof.
  intros Hu Hroom n bs. unfold crypto_room in *.
  assert (zlen (take (Z.to_nat n) payload) = n) as Hn.
  { unfold zlen. rewrite length_take. unfold n, zlen in *. lia. }
  unfold xqc_gen_crypto_frame. fold (vlen (zlen payload)). cbv zeta.
  destruct (_ <? _ + 1) eqn:E1; [zb|].
  replace (if _ <? _ then _ else _) with n by (unfold n; case_if; zb).
  run_writer. unfold wr_at. cbn [fst snd].
  replace (0x06 :: enc_vint offset ++ _) with bs by (unfold bs, crypto_bytes; by rewrite Hn).
  do 3 f_equal. lia.
Qed.

Lemma vint_fits_smaller v w :
  0 <= v <= w -> w <= XQC_VINT_MAX -> vint_fits v (xqc_vint_get_2bit w).
Proof.
  intros Hv Hw. destruct (vint_fits_2bit w) as [Ht Hr]; [lia|]. split; [done|lia].
Qed.

Lemma parse_crypto_ok c offset total d :
  vint_ok offset -> zlen d <= total <= XQC_VINT_MAX -> zlen d < 2 ^ 32 ->
  parses c (xqc_parse_crypto_frame true) (crypto_bytes offset total d)
    (mk_sf (if 0 <? zlen d then Some d else None) (zlen d) offset false)
    (commit_eff XQC_FRAME_BIT_CRYPTO).
Proof.
  intros Ho Ht Hd. pose proof (zlen_nonneg d). unfold crypto_bytes, xqc_parse_crypto_frame.
  do 2 parse_step; [parse_side|].
  eapply parses_bind; [apply parses_vint_class, vint_fits_smaller; lia|].
  rewrite !u32_small by lia. repeat parse_step; parse_side.
Qed.

(** A CRYPTO frame generated in a packet with room for at least one byte of data
    carries as much of the payload as fits; the receiver parses that prefix at the same
    offset, and consumes exactly the bytes the generator reported, although the length
    field keeps the size of the whole payload's length. *)
Theorem crypto_roundtrip po offset payload c :
  bytes_ok (po_buf po) -> bytes_ok payload -> vint_ok offset -> zlen payload < 2 ^ 32 ->
  0 <= po_used_size po -> 0 <= po_reserved_size po -> po_buf_size po <= zlen (po_buf po) ->
  0 < crypto_room po offset (zlen payload) ->
  exists size written po',
    xqc_gen_crypto_frame po offset payload = (Ok (size, written), po')
    /\ written = Z.min (zlen payload) (crypto_room po offset (zlen payload))
    /\ size <= xqc_get_po_remained_size po
    /\ forall last, po_used_size po + size <= last <= zlen (po_buf po) ->
       run (xqc_parse_crypto_frame true) (mk_pi (po_buf po') (po_used_size po) last 0 2) c
       = (Ok (mk_sf (if 0 <? written then Some (take (Z.to_nat written) payload) else None)
                written offset false),
          mk_pi (po_buf po') (po_used_size po + size) last XQC_FRAME_BIT_CRYPTO 2, c).
Proof.
  intros Hb Hp Ho Hlen Hu Hres Hsz Hroom.
  rewrite (gen_crypto_ok po offset payload Hu Hroom). cbv zeta.
  set (n := Z.min _ _). set (d := take (Z.to_nat n) payload).
  set (bs := crypto_bytes offset (zlen payload) d).
  assert (zlen d = n) as Hd.
  { unfold d, n, zlen in *. rewrite length_take. unfold crypto_room, zlen in *. lia. }
  assert (zlen bs = 1 + vlen offset + vlen (zlen payload) + n) as Hbs.
  { unfold bs, crypto_bytes. autorewrite with enc. rewrite zlen_vint_bytes_2bit, Hd.
    unfold vlen. lia. }
  exists (zlen bs), n, (po_wrote po (wr (po_buf po) (po_used_size po) bs) XQC_FRAME_BIT_CRYPTO).
  pose proof (zlen_nonneg payload). pose proof (po_remained_le po Hres).
  unfold crypto_room in *. pose proof (vlen_range offset). pose proof (vlen_range (zlen payload)).
  split_and!; [done|done|lia|].
  intros last Hlast. simpl. rewrite <- Hd at 1 2.
  rewrite (parses_run _ bs (mk_sf (if 0 <? zlen d then Some d else None) (zlen d) offset false)
    XQC_FRAME_BIT_CRYPTO); simpl; rewrite ?zlen_wr; try done; try lia.
  - apply parse_crypto_ok; [done| |lia]. unfold XQC_VINT_MAX. eval_pow. lia.
  - apply bytes_ok_wr; [done|]. unfold bs, crypto_bytes. apply bytes_ok_cons; split; [done|].
    rewrite !bytes_ok_app. split_and!; [apply enc_vint_ok|apply vint_bytes_ok|].
    by apply Forall_take.
  - apply bytes_at_wr; [done|]. lia.
Qed.

Lemma crypto_roundtrip_witness :
  let po := mk_po (replicate 40 0) 20 4 0 0 0 0 [] 0 0 None 0 in
  let payload := replicate 100 7 in
  exists size written po',
    xqc_gen_crypto_frame po 1000 payload = (Ok (size, written), po')
    /\ written = Z.min (zlen payload) (crypto_room po 1000 (zlen payload))
    /\ size <= xqc_get_po_remained_size po
    /\ forall last, po_used_size po + size <= last <= zlen (po_buf po) ->
       run (xqc_parse_crypto_frame true) (mk_pi (po_buf po') (po_used_size po) last 0 2)
         (mk_conn XQC_CONN_TYPE_CLIENT 0 XQC_CONN_ERR_TYPE_UNKNOWN 0 0 3 false false)
       = (Ok (mk_sf (if 0 <? written then Some (take (Z.to_nat written) payload) else None)
                written 1000 false),
          mk_pi (po_buf po') (po_used_size po + size) last XQC_FRAME_BIT_CRYPTO 2,
          mk_conn XQC_CONN_TYPE_CLIENT 0 XQC_CONN_ERR_TYPE_UNKNOWN 0 0 3 false false).
Proof. cbv zeta. apply crypto_roundtrip; by_decide. Defined.

(** ** CONNECTION_CLOSE *)

Definition close_bytes (err_code : Z) (is_app : bool) (frame_type : Z) (r : list Z) : list Z :=
  (if is_app then 0x1d else 0x1c) :: enc_vint err_code
  ++ (if is_app then [] else enc_vint frame_type) ++ enc_vint (zlen r) ++ r.

(** The size of the frame without a reason phrase. *)
Definition close_need (err_code : Z) (is_app : bool) (frame_type : Z) : Z :=
  1 + vlen err_code + (if is_app then 0 else vlen frame_type) + 1.

Lemma gen_conn_close_ok po err_code is_app frame_type reason :
  0 <= po_used_size po ->
  close_need err_code is_app frame_type <= xqc_get_po_remained_size po ->
  exists r, (r = [] \/ reason = Some r) /\ zlen r <= XQC_MAX_CONN_CLOSE_REASON_LEN
    /\ zlen (close_bytes err_code is_app frame_type r) <= xqc_get_po_remained_size po
    /\ xqc_gen_conn_close_frame po err_code is_app frame_type reason
       = (Ok (zlen (close_bytes err_code is_app frame_type r)),
          po_wrote po (wr (po_buf po) (po_used_size po)
                         (close_bytes err_code is_app frame_type r))
            XQC_FRAME_BIT_CONNECTION_CLOSE).
Proof.
  intros Hu Hn. unfold close_need in Hn. unfold xqc_gen_conn_close_frame. cbv zeta.
  change (xqc_vint_len 0) with 1.
  set (need := 1 + vlen err_code + _ + 1) in *.
  destruct (xqc_get_po_remained_size po <? need) eqn:E0; [zb|].
  assert (forall r, (r = [] \/ need + (vlen (zlen r) - 1 + zlen r) <= xqc_get_po_remained_size po) ->
    zlen (close_bytes err_code is_app frame_type r) <= xqc_get_po_remained_size po) as Hsize.
  { intros r Hr. unfold close_bytes, need in *. destruct is_app; autorewrite with enc;
      (destruct Hr as [->|Hr]; [change (vlen (zlen [])) with 1; rewrite zlen_nil|]); lia. }
  assert (forall r bits, bits = xqc_vint_get_2bit (zlen r) ->
    gen_done po (let c := w_byte (po_cursor po) (if is_app then 0x1d else 0x1c) in
      let c := w_vint c err_code in let c := if is_app then c else w_vint c frame_type in
      let c := w_bytes c (xqc_vint_bytes (zlen r) bits (xqc_vint_len bits)) in
      if 0 <? zlen r then w_bytes c r else c) XQC_FRAME_BIT_CONNECTION_CLOSE
    = (Ok (zlen (close_bytes err_code is_app frame_type r)),
       po_wrote po (wr (po_buf po) (po_used_size po) (close_bytes err_code is_app frame_type r))
         XQC_FRAME_BIT_CONNECTION_CLOSE)) as Hgen.
  { intros r bits ->. unfold close_bytes. change (xqc_vint_bytes (zlen r) _ _) with (enc_vint (zlen r)).
    destruct (0 <? zlen r) eqn:E; [|assert (r = []) as -> by
      (destruct r; [done|]; rewrite zlen_cons in E; pose proof (zlen_nonneg r); zb)];
      destruct is_app; run_writer; rewrite ?app_nil_r; done. }
  destruct reason as [r|]; [|exists []; split_and!; [by left|done|by apply Hsize; left|by apply Hgen]].
  destruct ((XQC_MAX_CONN_CLOSE_REASON_LEN <? zlen r) || _) eqn:E1;
    [exists []; split_and!; [by left|done|by apply Hsize; left|by apply Hgen]|].
  fold (vlen (zlen r)). destruct (_ <? need + _) eqn:E2;
    [exists []; split_and!; [by left|done|by apply Hsize; left|by apply Hgen]|].
  exists r. split_and!; [by right|zb|apply Hsize; right; zb|by apply Hgen].
Qed.

Definition close_eff (first_byte : Z) (s : pstate) : pstate :=
  let s := commit_eff XQC_FRAME_BIT_CONNECTION_CLOSE s in
  mk_ps (ps_in s) (ps_p s) (note_err_type (ps_conn s) first_byte).

Lemma parse_conn_close_ok c err_code is_app frame_type r :
  vint_ok err_code -> vint_ok frame_type -> vint_ok (zlen r) ->
  parses c xqc_parse_conn_close_frame (close_bytes err_code is_app frame_type r) err_code
    (close_eff (if is_app then 0x1d else 0x1c)).
Proof.
  intros He Hf Hr. unfold xqc_parse_conn_close_frame, close_bytes.
  do 2 parse_step; [parse_side|].
  assert (forall b, parses c
    (reason_len ← p_vint; left ← p_left; p_check (left <? reason_len) XQC_EILLEGAL_FRAME;;
     p_skip reason_len;; p_commit XQC_FRAME_BIT_CONNECTION_CLOSE;; conn ← p_conn;
     p_set_conn (note_err_type conn b);; mret err_code)
    (enc_vint (zlen r) ++ r) err_code (close_eff b)) as Htail.
  { intros b. parse_step; [parse_side|]. repeat parse_step; [parse_side|].
    rewrite <- (app_nil_r r) at 2. eapply parses_bind; [apply parses_skip|].
    intros s Hc Hs. rewrite zlen_nil, ps_move_0. done. }
  destruct is_app; cbn [Z.eqb Pos.eqb app].
  - parse_step. apply (Htail 0x1d).
  - parse_step; [parse_side|]. apply (Htail 0x1c).
Qed.

(** A CONNECTION_CLOSE frame is generated whenever the frame without its reason phrase
    fits: a phrase that is missing, too long or does not fit is dropped, and the frame
    never exceeds the space left. The receiver gets the error code, consumes the frame
    with its phrase, and notes the first frame's error-code namespace. *)
Theorem conn_close_roundtrip po err_code is_app frame_type reason c :
  bytes_ok (po_buf po) -> match reason with Some r => bytes_ok r | None => True end ->
  vint_ok err_code -> vint_ok frame_type ->
  0 <= po_used_size po -> 0 <= po_reserved_size po -> po_buf_size po <= zlen (po_buf po) ->
  close_need err_code is_app frame_type <= xqc_get_po_remained_size po ->
  exists size po',
    xqc_gen_conn_close_frame po err_code is_app frame_type reason = (Ok size, po')
    /\ size <= xqc_get_po_remained_size po
    /\ forall last, po_used_size po + size <= last <= zlen (po_buf po) ->
       run xqc_parse_conn_close_frame (mk_pi (po_buf po') (po_used_size po) last 0 2) c
       = (Ok err_code,
          mk_pi (po_buf po') (po_used_size po + size) last XQC_FRAME_BIT_CONNECTION_CLOSE 2,
          note_err_type c (if is_app then 0x1d else 0x1c)).
Proof.
  intros Hb Hrb He Hf Hu Hres Hsz Hn.
  destruct (gen_conn_close_ok po err_code is_app frame_type reason Hu Hn)
    as (r & Hr & Hrl & Hle & Hgen).
  rewrite Hgen. set (bs := close_bytes err_code is_app frame_type r) in *.
  eexists (zlen bs), _. split_and!; [done|done|]. intros last Hlast. simpl.
  assert (bytes_ok bs) as Hok.
  { unfold bs, close_bytes. apply bytes_ok_cons; split; [by destruct is_app|].
    rewrite !bytes_ok_app. split_and!; [apply enc_vint_ok|destruct is_app; [constructor|apply enc_vint_ok]
      |apply enc_vint_ok|]. destruct Hr as [-> | ->]; [constructor|done]. }
  unfold run. rewrite (parse_conn_close_ok c err_code is_app frame_type r); try done.
  - split; [apply zlen_nonneg|]. unfold XQC_MAX_CONN_CLOSE_REASON_LEN in Hrl.
    unfold XQC_VINT_MAX. eval_pow. lia.
  - pose proof (po_remained_le po Hres). pose proof (zlen_nonneg bs).
    split; simpl; rewrite ?zlen_wr; [by apply bytes_ok_wr|lia| |fold bs; lia].
    apply bytes_at_wr; [done|]. fold bs. lia.
Qed.

Lemma conn_close_roundtrip_witness :
  let po := mk_po (replicate 40 0) 20 4 0 0 0 0 [] 0 0 None 0 in
  let c := mk_conn XQC_CONN_TYPE_CLIENT 0 XQC_CONN_ERR_TYPE_UNKNOWN 0 0 3 false false in
  exists size po',
    xqc_gen_conn_close_frame po 0x10a false 0 (Some [98; 97; 100]) = (Ok size, po')
    /\ size <= xqc_get_po_remained_size po
    /\ forall last, po_used_size po + size <= last <= zlen (po_buf po) ->
       run xqc_parse_conn_close_frame (mk_pi (po_buf po') (po_used_size po) last 0 2) c
       = (Ok 0x10a,
          mk_pi (po_buf po') (po_used_size po + size) last XQC_FRAME_BIT_CONNECTION_CLOSE 2,
          note_err_type c 0x1c).
Proof. cbv zeta. apply (conn_close_roundtrip _ 0x10a false); by_decide. Defined.

(** ** PADDING *)

Lemma padding_skip_spec buf last n pos :
  last - pos <= Z.of_nat n ->
  let p := padding_skip buf pos last n in
  pos <= p <= Z.max pos last /\ (forall i, pos <= i < p -> rd buf i = 0)
  /\ (p < last -> rd buf p <> 0).
Proof.
  revert pos. induction n as [|n IH]; intros pos Hn; cbn [padding_skip].
  - split_and!; lia.
  - destruct ((pos <? last) && (rd buf pos =? 0)) eqn:E.
    + zify_bools. destruct (IH (pos + 1)) as (H1 & H2 & H3); [lia|]. split_and!; try done || lia.
      intros i Hi. destruct (decide (i = pos)) as [->|]; [done|]. apply H2. lia.
    + zify_bools. split_and!; lia.
Qed.

Lemma rd_wr_zeros buf p n i :
  0 <= p <= i -> i < p + n -> p + n <= zlen buf ->
  rd (wr buf p (replicate (Z.to_nat n) 0)) i = 0.
Proof.
  unfold rd, wr, zlen. intros Hp Hi Hz. rewrite nth_lookup.
  rewrite list_lookup_inserts by (rewrite ?length_replicate; lia).
  by rewrite lookup_replicate_2 by lia.
Qed.

(** Padding fills a packet with zero bytes up to the target size and changes no byte
    before it; the PADDING parser consumes exactly the run of zero bytes that starts the
    input, so all of the padding when it ends the packet and no byte of a frame after it. *)
Theorem padding_roundtrip conn po last ft pns :
  0 <= po_used_size po -> po_buf_size po <= XQC_MSS -> XQC_MSS <= zlen (po_buf po) ->
  let po' := xqc_gen_padding_frame conn po in
  let pos := pi_pos (xqc_parse_padding_frame (mk_pi (po_buf po') (po_used_size po) last ft pns)) in
  (forall i, 0 <= i < po_used_size po -> rd (po_buf po') i = rd (po_buf po) i)
  /\ (po_used_size po < po_used_size po' ->
      (last = po_used_size po' -> pos = last)
      /\ (po_used_size po' < last -> po_used_size po' <= pos <= last
         /\ (forall i, po_used_size po <= i < pos -> rd (po_buf po') i = 0)
         /\ (pos < last -> rd (po_buf po') pos <> 0))).
Proof.
  intros Hu Hs Hz po' pos.
  assert (po' = po \/ exists n, po' = po_pad po n /\ 0 < n /\ po_used_size po + n <= zlen (po_buf po))
    as [->|(n & -> & Hn & Hfit)].
  { unfold po', xqc_gen_padding_frame. unfold XQC_PACKET_INITIAL_MIN_LENGTH,
      XQC_TLS_AEAD_OVERHEAD_MAX_LEN, XQC_MSS in *.
    destruct (po_used_size po <? _) eqn:E; [right|by left]. eexists; split; [done|].
    revert E. case_if; intros; zb. }
  { split; [done|]. intros. lia. }
  unfold pos, xqc_parse_padding_frame, po_pad. cbn [pi_pos pi_buf pi_last po_buf po_used_size].
  set (buf := wr _ _ _). assert (forall i, po_used_size po <= i < po_used_size po + n -> rd buf i = 0)
    as Hzero by (intros i Hi; apply rd_wr_zeros; lia).
  split; [intros i Hi; apply rd_wr_ne; lia|]. intros _.
  destruct (padding_skip_spec buf last (Z.to_nat (last - (po_used_size po + 1))) (po_used_size po + 1))
    as (H1 & H2 & H3); [lia|].
  set (p := padding_skip _ _ _ _) in *. split.
  - intros ->. destruct (decide (p < po_used_size po + n)); [|lia].
    destruct H3; [done|]. apply Hzero. lia.
  - intros Hl. split_and!; [|lia| |done].
    + destruct (decide (p < po_used_size po + n)); [|lia]. destruct H3; [lia|]. apply Hzero. lia.
    + intros i Hi. destruct (decide (i = po_used_size po)) as [->|]; [apply Hzero|apply H2]; lia.
Qed.

Lemma padding_roundtrip_witness :
  let conn := mk_conn XQC_CONN_TYPE_CLIENT 0 XQC_CONN_ERR_TYPE_UNKNOWN 0 0 3 false false in
  let po := mk_po (replicate 1452 7) 1200 1000 0 0 0 0 [] 0 0 None 0 in
  let po' := xqc_gen_padding_frame conn po in
  pi_pos (xqc_parse_padding_frame (mk_pi (po_buf po') (po_used_size po) 1184 0 0)) = 1184.
Proof.
  intros conn po po'.
  assert (0 <= po_used_size po) as H1 by by_decide.
  assert (po_buf_size po <= XQC_MSS) as H2 by by_decide.
  assert (XQC_MSS <= zlen (po_buf po)) as H3 by by_decide.
  assert (po_used_size po < po_used_size po') as H4 by by_decide.
  assert (1184 = po_used_size po') as H5 by by_decide.
  exact (proj1 (proj2 (padding_roundtrip conn po 1184 0 0 H1 H2 H3) H4) H5).
Defined.

End CryptoClose.
