(* ===== verification/AckFrame.v ===== *)
(** ACK frames: [xqc_gen_ack_frame] and [xqc_parse_ack_frame] of
    [src/transport/xqc_frame_parser.c], and the multipath ACK_MP / PATH_ACK frames that
    share their layout. The generators read the ranges of a receive record; the parsers
    produce the ranges that the sender's loss recovery works on. *)

From stdpp Require Import base numbers list sorting.
From S2P Require Import Prelude VInt RecvRecord PacketBuf.
Import RecvRecord.

Module AckFrame.

(** [n_ranges] is the length of [ack_ranges]. *)
Record xqc_ack_info_t := mk_ack_info {
  ack_pns : Z;
  ack_path_id : Z;
  ack_ranges : list xqc_pktno_range_t;
  ack_delay : Z;
  largest_acked : Z;
}.

(** ** Generating *)

(** The loop "from second node": [None] is the return of [-XQC_ENOBUF], with the buffer
    as it is then. *)
Fixpoint gen_ack_loop (l : list xqc_pktno_range_t) (prev_low : Z) (c : cursor)
    (end_ range_count : Z) : res (cursor * Z) * list Z :=
  match l with
  | [] => (Ok (c, range_count), fst c)
  | range :: l' =>
      let gap := u32 (prev_low - high range - 2) in
      let acks := u32 (high range - low range) in
      let need := vlen gap + vlen acks in
      if end_ <? snd c + need then (Err XQC_ENOBUF, fst c)
      else
        let c := w_vint c gap in
        let c := w_vint c acks in
        let range_count := range_count + 1 in
        if XQC_MAX_ACK_RANGE_CNT - 1 <=? range_count then (Ok (c, range_count), fst c)
        else gen_ack_loop l' (low range) c end_ range_count
  end.

(** From the largest number on, shared by the two generators: [c] is after the type (and
    the path), [need] the size of the fields before the ranges. *)
Definition gen_ack_body (c : cursor) (end_ delay : Z) (first_range : xqc_pktno_range_t)
    (rest : list xqc_pktno_range_t) : res (cursor * Z) * list Z :=
  let largest_recv := high first_range in
  let first_ack_range := u32 (largest_recv - low first_range) in
  let c := w_vint c largest_recv in
  let c := w_vint c delay in
  let p_range_count := snd c in
  let c := (fst c, snd c + 1) in
  let c := w_vint c first_ack_range in
  match gen_ack_loop rest (low first_range) c end_ 0 with
  | (Ok (c, range_count), _) =>
      let buf := xqc_vint_write (fst c) p_range_count range_count 0 1 in
      (Ok ((buf, snd c), range_count), buf)
  | (Err e, buf) => (Err e, buf)
  end.

(** Returns the size of the frame, [*has_gap] and [*largest_ack]. *)
Definition xqc_gen_ack_frame (conn : xqc_connection_t) (po : xqc_packet_out_t) (now : Z)
    (ack_delay_exponent : Z) (recv_record : xqc_recv_record_t) (largest_pkt_recv_time : Z)
    : res (Z * bool * Z) * xqc_packet_out_t :=
  let end_ := po_used_size po + xqc_get_po_remained_size_with_ack_spc po in
  match ranges recv_record with
  | [] => (Err XQC_ENULLPTR, po)
  | first_range :: rest =>
      let delay := u64 (now - largest_pkt_recv_time) >> ack_delay_exponent in
      let largest_recv := high first_range in
      let need := 1 + vlen largest_recv + vlen delay + 1
                  + vlen (u32 (largest_recv - low first_range)) in
      if end_ <? po_used_size po + need then (Err XQC_ENOBUF, po)
      else
        let c := w_byte (po_cursor po) (if simulate_ecn conn then 0x03 else 0x02) in
        match gen_ack_body c end_ delay first_range rest with
        | (Err e, buf) => (Err e, po_set_buf po buf)
        | (Ok (c, range_count), _) =>
            if simulate_ecn conn && (end_ <? snd c + 3)
            then (Err XQC_ENOBUF, po_set_buf po (fst c))
            else
              let c := if simulate_ecn conn
                       then w_byte (w_byte (w_byte c 0x00) 0x00) 0x00 else c in
              (Ok (snd c - po_used_size po, 0 <? range_count, largest_recv),
               po_wrote po (fst c) XQC_FRAME_BIT_ACK)
        end
  end.

(** ** Parsing *)

(** [for (i = 0; i < ack_range_count; ++i)]: [count] rounds are left. Every round reads at
    least two bytes, so the bytes left bound the rounds: [fuel] is that number, and running
    out of it means the next read fails. *)
Fixpoint parse_ack_loop (fuel : nat) (count previous_low : Z) (rs : list xqc_pktno_range_t)
    : parser (list xqc_pktno_range_t) :=
  if count <=? 0 then mret rs
  else
    match fuel with
    | O => p_fail XQC_EVINTREAD
    | S fuel' =>
        gap ← p_vint;
        range ← p_vint;
        p_check_conn ((previous_low <? 2) || (previous_low - 2 <? gap))
          TRA_FRAME_ENCODING_ERROR XQC_EILLEGAL_FRAME;;
        let range_high := previous_low - gap - 2 in
        p_check_conn (range_high <? range) TRA_FRAME_ENCODING_ERROR XQC_EILLEGAL_FRAME;;
        let range_low := range_high - range in
        let rs := if Z.of_nat (length rs) <? XQC_MAX_ACK_RANGE_CNT
                  then rs ++ [mk_range range_low range_high] else rs in
        parse_ack_loop fuel' (count - 1) range_low rs
    end.

(** The parser after [ack_info->pns = packet_in->pi_pkt.pkt_pns]. *)
Definition parse_ack_fields (pns : Z) : parser xqc_ack_info_t :=
  frame_type ← p_vint;
  largest ← p_vint;
  delay ← p_vint;
  conn ← p_conn;
  let delay := u64 (delay << remote_ack_delay_exponent conn) in
  ack_range_count ← p_vint;
  first_ack_range ← p_vint;
  p_check_conn (largest <? first_ack_range) TRA_FRAME_ENCODING_ERROR XQC_EILLEGAL_FRAME;;
  let previous_low := largest - first_ack_range in
  left ← p_left;
  rs ← parse_ack_loop (Z.to_nat left) ack_range_count previous_low
         [mk_range previous_low largest];
  (if frame_type =? 0x03 then p_vint;; p_vint;; p_vint;; mret tt else mret tt);;
  p_commit XQC_FRAME_BIT_ACK;;
  mret (mk_ack_info pns 0 rs delay largest).

Definition xqc_parse_ack_frame : parser xqc_ack_info_t := p_pns ≫= parse_ack_fields.

(** ** Multipath: ACK_MP and PATH_ACK *)

Definition XQC_TRANS_FRAME_TYPE_MP_ACK0 : Z := 0x15228c00.
Definition XQC_TRANS_FRAME_TYPE_PATH_ACK : Z := 0x3e.
Definition XQC_MULTIPATH_10 : Z := 0x0a.
Definition XQC_MULTIPATH_3E : Z := 0x3e.
Definition XQC_PNS_INIT : Z := 0.
Definition XQC_PNS_HSK : Z := 1.

Definition xqc_mp_select_codepoint (mp_version cp_v10 cp_v21 : Z) : res Z :=
  if mp_version =? XQC_MULTIPATH_3E then Ok cp_v21
  else if mp_version =? XQC_MULTIPATH_10 then Ok cp_v10
  else Err XQC_EMP_INVALID_MP_VERTION.

Definition xqc_gen_ack_mp_frame (conn : xqc_connection_t) (path_id : Z)
    (po : xqc_packet_out_t) (now ack_delay_exponent : Z) (recv_record : xqc_recv_record_t)
    (largest_pkt_recv_time : Z) : res (Z * bool * Z) * xqc_packet_out_t :=
  match xqc_mp_select_codepoint (multipath_version conn) XQC_TRANS_FRAME_TYPE_MP_ACK0
          XQC_TRANS_FRAME_TYPE_PATH_ACK with
  | Err e => (Err e, po)
  | Ok frame_type =>
      let end_ := po_used_size po + xqc_get_po_remained_size_with_ack_spc po in
      match ranges recv_record with
      | [] => (Err XQC_ENULLPTR, po)
      | first_range :: rest =>
          let delay := u64 (now - largest_pkt_recv_time) in
          let delay := if (po_pkt_pns po =? XQC_PNS_INIT) || (po_pkt_pns po =? XQC_PNS_HSK)
                       then 0 else delay in
          let delay := delay >> ack_delay_exponent in
          let largest_recv := high first_range in
          let need := vlen frame_type + vlen path_id + vlen largest_recv + vlen delay + 1
                      + vlen (u32 (largest_recv - low first_range)) in
          if end_ <? po_used_size po + need then (Err XQC_ENOBUF, po)
          else
            let c := w_vint (po_cursor po) frame_type in
            let c := w_vint c path_id in
            match gen_ack_body c end_ delay first_range rest with
            | (Err e, buf) => (Err e, po_set_buf po buf)
            | (Ok (c, range_count), _) =>
                (Ok (snd c - po_used_size po, 0 <? range_count, largest_recv),
                 po_wrote po (fst c) XQC_FRAME_BIT_ACK_MP)
            end
      end
  end.

(** The last range stored: [ack_info->ranges[n_ranges - 1]]. *)
Definition last_low (rs : list xqc_pktno_range_t) : Z :=
  match last rs with
  | Some r => low r
  | None => 0
  end.

Fixpoint parse_ack_mp_loop (fuel : nat) (count : Z) (rs : list xqc_pktno_range_t)
    : parser (list xqc_pktno_range_t) :=
  if count <=? 0 then mret rs
  else
    match fuel with
    | O => p_fail XQC_EVINTREAD
    | S fuel' =>
        gap ← p_vint;
        range ← p_vint;
        let rs :=
          if Z.of_nat (length rs) <? XQC_MAX_ACK_RANGE_CNT
          then
            let h := u64 (last_low rs - gap - 2) in
            rs ++ [mk_range (u64 (h - range)) h]
          else rs in
        parse_ack_mp_loop fuel' (count - 1) rs
    end.

(** [ack_info->largest_acked] is not assigned: it keeps the caller's value [old]. *)
Definition parse_ack_mp_fields (old pns : Z) : parser (Z * xqc_ack_info_t) :=
  _ ← p_vint;
  path_id ← p_vint;
  largest ← p_vint;
  delay ← p_vint;
  conn ← p_conn;
  let delay := u64 (delay << remote_ack_delay_exponent conn) in
  ack_range_count ← p_vint;
  first_ack_range ← p_vint;
  left ← p_left;
  rs ← parse_ack_mp_loop (Z.to_nat left) ack_range_count
         [mk_range (u64 (largest - first_ack_range)) largest];
  p_commit XQC_FRAME_BIT_ACK_MP;;
  mret (path_id, mk_ack_info pns path_id rs delay old).

Definition xqc_parse_ack_mp_frame (old : Z) : parser (Z * xqc_ack_info_t) :=
  p_pns ≫= parse_ack_mp_fields old.

(** The PATH_ACK body, then three ECN counts that are read and dropped. *)
Definition xqc_parse_path_ack_ecn_frame (old : Z) : parser (Z * xqc_ack_info_t) :=
  r ← xqc_parse_ack_mp_frame old;
  p_vint;; p_vint;; p_vint;;
  p_set_pos;;
  mret r.

(** ** The format *)

Fixpoint ack_range_bytes (prev_low : Z) (l : list xqc_pktno_range_t) : list Z :=
  match l with
  | [] => []
  | r :: l' =>
      enc_vint (prev_low - high r - 2) ++ enc_vint (high r - low r) ++ ack_range_bytes (low r) l'
  end.

(** From Largest Acknowledged to the last range. *)
Definition ack_body_bytes (delay : Z) (r0 : xqc_pktno_range_t) (l : list xqc_pktno_range_t)
    : list Z :=
  enc_vint (high r0) ++ enc_vint delay ++ [Z.of_nat (length l)]
  ++ enc_vint (high r0 - low r0) ++ ack_range_bytes (low r0) l.

(** The numbers the fields of [l] are computed from differ by less than [2^32]. *)
Definition span_ok (top : Z) (l : list xqc_pktno_range_t) : Prop :=
  Forall (fun r => top - low r < 2 ^ 32) l.

Lemma vint_bytes_0 v : 0 <= v < 64 -> xqc_vint_bytes v 0 1 = [v].
Proof.
  intros Hv. rewrite <- (enc_vint_1 v Hv). unfold enc_vint, vlen.
  assert (xqc_vint_get_2bit v = 0) as -> by (unfold xqc_vint_get_2bit; eval_pow; repeat case_if; zb).
  done.
Qed.

Lemma span_ok_low top r l :
  ranges_wf (r :: l) -> span_ok top (r :: l) -> low r <= top -> span_ok (low r) l.
Proof.
  intros Hwf Hs Hle. apply Forall_cons in Hs as [_ Hs]. eapply Forall_impl; [exact Hs|].
  intros x Hx. simpl in *. lia.
Qed.

Lemma gen_ack_loop_ok l r0 buf p w end_ count :
  0 <= p -> ranges_wf (r0 :: l) -> span_ok (low r0) l -> 0 <= count ->
  count + Z.of_nat (length l) <= XQC_MAX_ACK_RANGE_CNT - 1 ->
  p + zlen (w ++ ack_range_bytes (low r0) l) <= end_ ->
  let w' := w ++ ack_range_bytes (low r0) l in
  gen_ack_loop l (low r0) (wr_at buf p w) end_ count
  = (Ok (wr_at buf p w', count + Z.of_nat (length l)), wr buf p w').
Proof.
  intros Hp. revert r0 w count. induction l as [|r l IH]; intros r0 w count Hwf Hs Hc Hmax Hend w'.
  - unfold w'. simpl. by rewrite app_nil_r, Z.add_0_r.
  - unfold w'. clear w'. cbn [gen_ack_loop ack_range_bytes] in *.
    apply ranges_wf_cons in Hwf as (Hr0 & Hg & Hwf). apply Forall_cons in Hg as [Hg _].
    pose proof Hwf as Hwf'. apply ranges_wf_cons in Hwf' as (Hr & _ & _).
    pose proof Hs as Hs'. apply Forall_cons in Hs' as [Hsr _].
    unfold range_gt, range_ok in *. rewrite !(u32_small) by lia.
    set (g := low r0 - high r - 2) in *. set (a := high r - low r) in *.
    cbn [snd]. autorewrite with enc in Hend.
    pose proof (zlen_nonneg (ack_range_bytes (low r) l)).
    destruct (end_ <? snd (wr_at buf p w) + _) eqn:E; [unfold wr_at in E; cbn [snd] in E; zb|].
    rewrite !w_vint_wr by done. rewrite <- !app_assoc.
    cbn [length] in *. destruct (_ <=? count + 1) eqn:E2.
    + destruct l; [|cbn [length] in *; zb]. simpl. rewrite app_nil_r. done.
    + rewrite IH; try done; try lia.
      * rewrite <- !app_assoc. f_equal. f_equal. f_equal. lia.
      * apply (span_ok_low (low r0)); [done|done|]. lia.
      * rewrite !zlen_app, !zlen_enc_vint. lia.
Qed.

Lemma gen_ack_body_ok buf p w end_ delay r0 l :
  0 <= p -> ranges_wf (r0 :: l) -> span_ok (high r0) (r0 :: l) ->
  Z.of_nat (length l) <= XQC_MAX_ACK_RANGE_CNT - 1 -> end_ <= zlen buf ->
  let w' := w ++ ack_body_bytes delay r0 l in
  p + zlen w' <= end_ ->
  gen_ack_body (wr_at buf p w) end_ delay r0 l
  = (Ok (wr_at buf p w', Z.of_nat (length l)), wr buf p w').
Proof.
  intros Hp Hwf Hs Hmax Hend w' Hfit. unfold gen_ack_body.
  pose proof Hwf as Hwf'. apply ranges_wf_cons in Hwf' as (Hr0 & _ & _).
  pose proof Hs as Hs'. apply Forall_cons in Hs' as [Hs0 _]. unfold range_ok in Hr0.
  rewrite u32_small by lia. unfold w', ack_body_bytes in Hfit. autorewrite with enc in Hfit.
  pose proof (zlen_nonneg (ack_range_bytes (low r0) l)). pose proof (vlen_range (high r0 - low r0)).
  cbv zeta. rewrite !w_vint_wr by done. rewrite <- app_assoc.
  set (w1 := w ++ enc_vint (high r0) ++ enc_vint delay).
  assert (zlen w1 = zlen w + vlen (high r0) + vlen delay) as Hw1.
  { unfold w1. autorewrite with enc. lia. }
  unfold wr_at at 1 2. cbn [fst snd]. rewrite w_skip_wr, w_vint_wr by lia.
  rewrite gen_ack_loop_ok; try done; try lia.
  2:{ apply (span_ok_low (high r0)); [done|done|lia]. }
  2:{ rewrite !zlen_app, !zlen_enc_vint, zlen_cons, zlen_nil, Hw1. lia. }
  unfold XQC_MAX_ACK_RANGE_CNT in Hmax. unfold xqc_vint_write. cbn [snd fst wr_at].
  rewrite Z.add_0_l, vint_bytes_0 by lia. unfold wr_at. cbn [fst snd].
  rewrite <- !app_assoc. cbn [app]. rewrite wr_overwrite by done.
  unfold w', ack_body_bytes, w1. rewrite <- !app_assoc. cbn [app].
  do 4 f_equal. rewrite !zlen_app, !zlen_cons. done.
Qed.

(** ** Reading the ranges back *)

Lemma ack_range_bytes_len l prev_low :
  2 * Z.of_nat (length l) <= zlen (ack_range_bytes prev_low l).
Proof.
  revert prev_low. induction l as [|r l IH]; intros prev_low; cbn [ack_range_bytes length].
  - done.
  - autorewrite with enc. specialize (IH (low r)).
    pose proof (vlen_range (prev_low - high r - 2)). pose proof (vlen_range (high r - low r)). lia.
Qed.

Lemma parse_ack_loop_ok c l r0 fuel rs :
  ranges_wf (r0 :: l) -> (length l <= fuel)%nat ->
  Z.of_nat (length rs + length l) <= XQC_MAX_ACK_RANGE_CNT ->
  parses c (parse_ack_loop fuel (Z.of_nat (length l)) (low r0) rs)
    (ack_range_bytes (low r0) l) (rs ++ l) id.
Proof.
  revert r0 fuel rs. induction l as [|r l IH]; intros r0 fuel rs Hwf Hf Hmax.
  - intros s _ _. destruct fuel; simpl; rewrite zlen_nil, ps_move_0, app_nil_r; done.
  - apply ranges_wf_cons in Hwf as (Hr0 & Hg & Hwf). apply Forall_cons in Hg as [Hg _].
    pose proof Hwf as Hwf'. apply ranges_wf_cons in Hwf' as (Hr & _ & _).
    unfold range_gt, range_ok in *. cbn [length] in *. destruct fuel as [|fuel]; [lia|].
    cbn [parse_ack_loop ack_range_bytes]. destruct (_ <=? 0) eqn:E; [zb|].
    parse_step; [apply vint_ok_le; lia|]. parse_step; [apply vint_ok_le; lia|].
    parse_step; [parse_side|]. parse_step; [parse_side|].
    destruct (Z.of_nat (length rs) <? XQC_MAX_ACK_RANGE_CNT) eqn:E2; [|zb].
    replace (low r0 - (low r0 - high r - 2) - 2) with (high r) by lia.
    replace (high r - (high r - low r)) with (low r) by lia.
    replace (Z.of_nat (S (length l)) - 1) with (Z.of_nat (length l)) by lia.
    replace (rs ++ r :: l) with ((rs ++ [r]) ++ l) by by rewrite <- app_assoc.
    replace (mk_range (low r) (high r)) with r by by destruct r.
    apply IH; [done|lia|]. rewrite length_app. cbn [length]. lia.
Qed.

Definition ack_frame_bytes (ecn : bool) (delay : Z) (r0 : xqc_pktno_range_t)
    (l : list xqc_pktno_range_t) : list Z :=
  (if ecn then 0x03 else 0x02) :: ack_body_bytes delay r0 l
  ++ (if ecn then [0x00; 0x00; 0x00] else []).

Lemma parse_ack_fields_ok c pns ecn delay r0 l :
  ranges_wf (r0 :: l) -> Z.of_nat (length l) <= XQC_MAX_ACK_RANGE_CNT - 1 -> vint_ok delay ->
  parses c (parse_ack_fields pns) (ack_frame_bytes ecn delay r0 l)
    (mk_ack_info pns 0 (r0 :: l) (u64 (delay << remote_ack_delay_exponent c)) (high r0))
    (commit_eff XQC_FRAME_BIT_ACK).
Proof.
  intros Hwf Hl Hd. pose proof Hwf as Hwf'. apply ranges_wf_cons in Hwf' as (Hr0 & _ & _).
  unfold range_ok in Hr0. unfold XQC_MAX_ACK_RANGE_CNT in Hl.
  unfold parse_ack_fields, ack_frame_bytes, ack_body_bytes. rewrite <- !app_assoc.
  eapply (parses_bind _ _ _ [_]); [apply parses_vint_byte; by destruct ecn|].
  parse_step; [apply vint_ok_le; lia|]. parse_step; [done|]. parse_step.
  eapply (parses_bind _ _ _ [_]); [apply parses_vint_byte; lia|].
  parse_step; [apply vint_ok_le; lia|]. parse_step; [parse_side|].
  replace (high r0 - (high r0 - low r0)) with (low r0) by lia.
  parse_step. eapply parses_bind.
  { apply (parse_ack_loop_ok c l r0); [done| |cbn [length]; unfold XQC_MAX_ACK_RANGE_CNT; lia].
    pose proof (ack_range_bytes_len l (low r0)). rewrite zlen_app in *.
    pose proof (zlen_nonneg (if ecn then [0; 0; 0] else [])). lia. }
  cbn [app]. replace (mk_range (low r0) (high r0)) with r0 by by destruct r0.
  destruct ecn; cbn [Z.eqb Pos.eqb]; repeat parse_step; done.
Qed.

Lemma ack_body_bytes_ok delay r0 l :
  Z.of_nat (length l) <= XQC_MAX_ACK_RANGE_CNT - 1 -> bytes_ok (ack_body_bytes delay r0 l).
Proof.
  unfold XQC_MAX_ACK_RANGE_CNT. intros Hl. unfold ack_body_bytes.
  rewrite !bytes_ok_app, bytes_ok_cons. split_and!; auto using enc_vint_ok; [unfold is_byte; lia|by constructor|].
  clear Hl. generalize (low r0). induction l as [|r l IH]; intros z; cbn [ack_range_bytes]; [by constructor|].
  rewrite !bytes_ok_app. auto using enc_vint_ok.
Qed.

Lemma po_ack_room po :
  0 <= po_reserved_size po ->
  xqc_get_po_remained_size_with_ack_spc po <= Z.max 0 (XQC_MSS - po_used_size po).
Proof. unfold xqc_get_po_remained_size_with_ack_spc. intros. case_if; zify_bools; lia. Qed.

Lemma gen_ack_ok conn po now e rr t0 r0 l :
  record_wf rr -> ranges rr = r0 :: l -> span_ok (high r0) (ranges rr) ->
  0 <= po_used_size po -> 0 <= po_reserved_size po -> XQC_MSS <= zlen (po_buf po) ->
  let bs := ack_frame_bytes (simulate_ecn conn) (u64 (now - t0) >> e) r0 l in
  zlen bs <= xqc_get_po_remained_size_with_ack_spc po ->
  xqc_gen_ack_frame conn po now e rr t0
  = (Ok (zlen bs, 0 <? Z.of_nat (length l), high r0),
     po_wrote po (wr (po_buf po) (po_used_size po) bs) XQC_FRAME_BIT_ACK).
Proof.
  intros [Hwf Hcnt Hmax] Hr Hs Hu Hres Hz bs Hroom. rewrite Hr in Hwf, Hs, Hcnt. cbn [length] in Hcnt.
  assert (Z.of_nat (length l) <= XQC_MAX_ACK_RANGE_CNT - 1) as Hl by lia.
  pose proof (po_ack_room po Hres) as Hend.
  pose proof Hwf as Hwf'. apply ranges_wf_cons in Hwf' as (Hr0 & _ & _). unfold range_ok in Hr0.
  pose proof Hs as Hs'. apply Forall_cons in Hs' as [Hs0 _]. cbv beta in Hs0.
  pose proof (zlen_nonneg bs). unfold bs, ack_frame_bytes in Hroom.
  unfold xqc_gen_ack_frame. rewrite Hr, u32_small by lia. cbv zeta.
  set (delay := u64 (now - t0) >> e) in *. set (end_ := _ + _) in *.
  assert (zlen (ack_body_bytes delay r0 l)
    = vlen (high r0) + vlen delay + 1 + vlen (high r0 - low r0) + zlen (ack_range_bytes (low r0) l)) as Hbl.
  { unfold ack_body_bytes. autorewrite with enc. lia. }
  pose proof (zlen_nonneg (ack_range_bytes (low r0) l)). rewrite zlen_cons, zlen_app in Hroom.
  pose proof (zlen_nonneg (ack_body_bytes delay r0 l)).
  pose proof (zlen_nonneg (if simulate_ecn conn then [0; 0; 0] else [])).
  destruct (end_ <? _) eqn:E1; [unfold end_ in E1; zb|].
  rewrite po_cursor_wr, w_byte_wr by done. cbn [app].
  rewrite gen_ack_body_ok; try done; [|unfold end_; lia|rewrite zlen_app, zlen_cons, zlen_nil; unfold end_; lia].
  unfold bs, ack_frame_bytes. destruct (simulate_ecn conn); cbn [andb negb].
  - unfold wr_at at 1. cbn [snd].
    destruct (end_ <? _ + 3) eqn:E2;
      [unfold end_ in E2; rewrite zlen_app, !zlen_cons, zlen_nil in *; zb|].
    rewrite !w_byte_wr by done. rewrite <- !app_assoc. unfold wr_at. cbn [fst snd app].
    do 4 f_equal. lia.
  - rewrite app_nil_r. unfold wr_at. cbn [fst snd app]. do 4 f_equal. lia.
Qed.

(** C26: the ACK frame generated from a well-formed receive record whose numbers span less
    than [2^32] is parsed by the peer into exactly the ranges of the record, with the
    largest number received, and the acknowledgement delay rounded down to the unit the
    exponent chooses. *)
Theorem ack_roundtrip conn c po now e rr t0 r0 l :
  record_wf rr -> ranges rr = r0 :: l -> span_ok (high r0) (ranges rr) ->
  0 <= now - t0 < 2 ^ 62 -> 0 <= e -> remote_ack_delay_exponent c = e ->
  bytes_ok (po_buf po) -> 0 <= po_used_size po -> 0 <= po_reserved_size po ->
  XQC_MSS <= zlen (po_buf po) ->
  zlen (ack_frame_bytes (simulate_ecn conn) (u64 (now - t0) >> e) r0 l)
  <= xqc_get_po_remained_size_with_ack_spc po ->
  exists size po',
    xqc_gen_ack_frame conn po now e rr t0
    = (Ok (size, negb (bool_decide (l = [])), xqc_recv_record_largest rr), po')
    /\ forall last pns, po_used_size po + size <= last <= zlen (po_buf po) ->
       run xqc_parse_ack_frame (mk_pi (po_buf po') (po_used_size po) last 0 pns) c
       = (Ok (mk_ack_info pns 0 (ranges rr) ((now - t0) / 2 ^ e * 2 ^ e) (high r0)),
          mk_pi (po_buf po') (po_used_size po + size) last XQC_FRAME_BIT_ACK pns, c).
Proof.
  intros Hrr Hr Hs Ht He Hc Hb Hu Hres Hz Hroom.
  rewrite (gen_ack_ok conn po now e rr t0 r0 l) by done.
  set (delay := u64 (now - t0) >> e) in *. set (bs := ack_frame_bytes _ _ _ _) in *.
  assert (0 <= delay < 2 ^ 62 /\ u64 (delay << e) = (now - t0) / 2 ^ e * 2 ^ e) as [Hd Hdd].
  { unfold delay. rewrite u64_small by lia. rewrite Z.shiftr_div_pow2, Z.shiftl_mul_pow2 by done.
    assert (0 < 2 ^ e) by (apply Z.pow_pos_nonneg; lia).
    pose proof (Z.mul_div_le (now - t0) (2 ^ e) ltac:(lia)).
    pose proof (Z.div_pos (now - t0) (2 ^ e) ltac:(lia) ltac:(lia)).
    split; [nia|]. apply u64_small. nia. }
  eexists _, _. split.
  { unfold xqc_recv_record_largest. rewrite Hr. do 4 f_equal. by destruct l. }
  intros last pns Hlast. simpl. destruct Hrr as [Hwf Hcnt Hmax]. rewrite Hr in Hwf, Hcnt.
  cbn [length] in Hcnt. rewrite <- Hdd, Hr. unfold run, xqc_parse_ack_frame.
  unfold mbind at 1, parser_bind at 1, p_pns at 1. cbn [pi_pkt_pns ps_in].
  rewrite (parse_ack_fields_ok c pns (simulate_ecn conn) delay r0 l); try done; try lia.
  - by rewrite Hc.
  - by apply vint_ok_le.
  - fold bs. pose proof (zlen_nonneg bs). split; simpl; rewrite ?zlen_wr; try done; try lia.
    + apply bytes_ok_wr; [done|]. unfold bs, ack_frame_bytes. apply bytes_ok_cons.
      split; [by destruct (simulate_ecn conn)|]. apply bytes_ok_app.
      split; [apply ack_body_bytes_ok; lia|destruct (simulate_ecn conn); by repeat constructor].
    + apply bytes_at_wr; [done|]. lia.
Qed.

Lemma ack_roundtrip_witness :
  let conn := mk_conn XQC_CONN_TYPE_CLIENT 0 XQC_CONN_ERR_TYPE_UNKNOWN 0 0 3 true false in
  let rr := mk_record [mk_range 108 110; mk_range 105 106; mk_range 100 102] 0 3 in
  let po := mk_po (replicate 1452 0) 1200 30 0 0 0 0 [] 0 0 None 2 in
  exists size po',
    xqc_gen_ack_frame conn po 1000 3 rr 123
    = (Ok (size, negb (bool_decide ([mk_range 105 106; mk_range 100 102] = [])),
           xqc_recv_record_largest rr), po')
    /\ forall last pns, po_used_size po + size <= last <= zlen (po_buf po) ->
       run xqc_parse_ack_frame (mk_pi (po_buf po') (po_used_size po) last 0 pns) conn
       = (Ok (mk_ack_info pns 0 (ranges rr) ((1000 - 123) / 2 ^ 3 * 2 ^ 3) 110),
          mk_pi (po_buf po') (po_used_size po + size) last XQC_FRAME_BIT_ACK pns, conn).
Proof.
  intros conn rr po.
  apply (ack_roundtrip conn conn po 1000 3 rr 123 (mk_range 108 110)
    [mk_range 105 106; mk_range 100 102]); try done; try by_decide.
  split; [split; repeat constructor; simpl; done | done | done].
Defined.

(** ** What an accepted ACK frame says *)

Lemma ranges_wf_snoc rs r :
  ranges_wf rs -> range_ok r -> Forall (fun x => range_gt x r) rs -> ranges_wf (rs ++ [r]).
Proof.
  intros Hw Hr Hg. apply ranges_wf_app. split_and!; [done| |].
  - apply ranges_wf_cons. split_and!; [done|constructor|apply ranges_wf_nil].
  - eapply Forall_impl; [exact Hg|]. intros x Hx. by constructor.
Qed.

Lemma parse_ack_loop_wf fuel count prev rs s rs' s' :
  parse_ack_loop fuel count prev rs s = (Ok rs', s') ->
  ps_ok s -> bytes_ok (pi_buf (ps_in s)) -> 0 <= prev < 2 ^ 62 ->
  ranges_wf rs -> Forall (fun x => prev <= low x) rs ->
  Z.of_nat (length rs) <= XQC_MAX_ACK_RANGE_CNT ->
  ranges_wf rs' /\ prefix rs rs' /\ Z.of_nat (length rs') <= XQC_MAX_ACK_RANGE_CNT
  /\ advanced s s'.
Proof.
  revert count prev rs s. induction fuel as [|fuel IH]; intros count prev rs s H Hok Hb Hp Hw Hl Hm;
    cbn [parse_ack_loop] in H; destruct (count <=? 0).
  1,3: inv_step; split_and!; [done|done|done|by apply advanced_refl].
  - done.
  - repeat (inv_step || adv_vint). zify_bools.
    destruct (IH _ _ _ _ H) as (Hw' & Hpre & Hm' & Hadv'); try done; try lia.
    + destruct (_ <? _); [|done]. apply ranges_wf_snoc; [done|unfold range_ok; simpl; lia|].
      eapply Forall_impl; [exact Hl|]. intros x Hx. unfold range_gt. simpl in *. lia.
    + destruct (_ <? _); [apply Forall_app; split|].
      * eapply Forall_impl; [exact Hl|]. intros x Hx. simpl in *. lia.
      * constructor; [simpl; lia|constructor].
      * eapply Forall_impl; [exact Hl|]. intros x Hx. simpl in *. lia.
    + destruct (_ <? _) eqn:E3; [rewrite length_app; cbn [length]; zb|done].
    + split_and!; [done| |done|eauto using advanced_trans].
      destruct (_ <? _); [|done]. etrans; [|exact Hpre]. by apply prefix_app_r.
Qed.

(** C32: an ACK frame that is accepted, whatever the peer sent, names between 1 and 64 ranges
    of packet numbers that are non-negative, disjoint, non-adjacent and in decreasing order,
    the first ending at the largest acknowledged number; no subtraction has wrapped around,
    and the frame lies inside the packet. *)
Theorem parse_ack_ranges_wf pi c info pi' c' :
  bytes_ok (pi_buf pi) -> 0 <= pi_pos pi -> pi_last pi <= zlen (pi_buf pi) ->
  pi_pos pi <= pi_last pi ->
  run xqc_parse_ack_frame pi c = (Ok info, pi', c') ->
  ranges_wf (ack_ranges info)
  /\ (exists r rest, ack_ranges info = r :: rest /\ high r = largest_acked info)
  /\ Z.of_nat (length (ack_ranges info)) <= XQC_MAX_ACK_RANGE_CNT
  /\ pi_pos pi < pi_pos pi' <= pi_last pi /\ c' = c.
Proof.
  intros Hb Hp Hl Hpl. unfold run, xqc_parse_ack_frame.
  destruct ((p_pns ≫= parse_ack_fields) _) as [r s'] eqn:H.
  intros Heq. injection Heq as -> <- <-.
  change ((p_pns ≫= parse_ack_fields) (mk_ps pi (pi_pos pi) c))
    with (parse_ack_fields (pi_pkt_pns pi) (mk_ps pi (pi_pos pi) c)) in H.
  assert (ps_ok (mk_ps pi (pi_pos pi) c)) as Hok by (unfold ps_ok; simpl; lia).
  assert (bytes_ok (pi_buf (ps_in (mk_ps pi (pi_pos pi) c)))) as Hbb by done.
  unfold parse_ack_fields in H. repeat (inv_step || adv_vint). zify_bools.
  apply parse_ack_loop_wf in E7 as (Hw & [k Hpre] & Hm & Hadv7); try done; try lia.
  2:{ apply (ranges_wf_snoc []); [apply ranges_wf_nil|unfold range_ok; simpl; lia|constructor]. }
  2:{ constructor; [simpl; lia|constructor]. }
  assert (advanced s7 s8) as Hadv8.
  { destruct (advanced_ok _ _ Hadv7 Hok4) as (Hok7 & Hin7 & _ & _).
    assert (bytes_ok (pi_buf (ps_in s7))) by (by rewrite Hin7).
    destruct (_ =? _); repeat (inv_step || adv_vint); eauto using advanced_trans, advanced_refl. }
  assert (advanced s s8) as Hadv9 by eauto 10 using advanced_trans.
  destruct (advanced_ok _ _ Hadv9 Hok0) as (Hok8 & Hin8 & Hcn8 & Hle8).
  unfold p_commit, mbind, parser_bind, p_set_pos, p_frame_type in E9. injection E9 as _ <-.
  simpl in *. unfold ps_ok in Hok8. rewrite Hin8, Hin in Hok8. simpl in Hok8.
  split_and!; [done|by eexists _, k|done|lia|lia|by rewrite Hcn8, Hcn].
Qed.

Lemma parse_ack_ranges_wf_witness :
  let c := mk_conn XQC_CONN_TYPE_CLIENT 0 XQC_CONN_ERR_TYPE_UNKNOWN 0 0 3 false false in
  ranges_wf [mk_range 8 10; mk_range 3 5]
  /\ (exists r rest, [mk_range 8 10; mk_range 3 5] = r :: rest /\ high r = 10)
  /\ Z.of_nat 2 <= XQC_MAX_ACK_RANGE_CNT /\ 1 < 8 <= 8 /\ c = c.
Proof.
  intros c.
  apply (parse_ack_ranges_wf (mk_pi [7; 2; 10; 0; 1; 2; 1; 2] 1 8 0 2) c
    (mk_ack_info 2 0 [mk_range 8 10; mk_range 3 5] 0 10)
    (mk_pi [7; 2; 10; 0; 1; 2; 1; 2] 8 8 4 2) c); [by_decide ..|reflexivity].
Defined.

(** Every round of the loop consumes input: more fuel than there are bytes left changes
    nothing. *)
Lemma parse_ack_loop_fuel fuel fuel' count prev rs s :
  ps_ok s -> bytes_ok (pi_buf (ps_in s)) ->
  pi_last (ps_in s) - ps_p s <= Z.of_nat fuel -> (fuel <= fuel')%nat ->
  parse_ack_loop fuel' count prev rs s = parse_ack_loop fuel count prev rs s.
Proof.
  revert fuel' count prev rs s. induction fuel as [|fuel IH];
    intros fuel' count prev rs s Hok Hb Hf Hle.
  - destruct fuel' as [|fuel']; [done|]. cbn [parse_ack_loop]. destruct (count <=? 0); [done|].
    unfold mbind at 1, parser_bind at 1. destruct (p_vint s) as [[v|e] s1] eqn:E.
    + destruct (p_vint_ok_inv _ _ _ E Hok Hb) as (_ & (n & ? & -> & ?) & Hlt). simpl in *. lia.
    + unfold p_vint in E. destruct (xqc_vint_read _ _ _) as [[v n]|]; by simplify_eq.
  - destruct fuel' as [|fuel']; [lia|]. cbn [parse_ack_loop]. destruct (count <=? 0); [done|].
    unfold mbind at 1 5, parser_bind at 1 5. destruct (p_vint s) as [[v|e] s1] eqn:E; [|done].
    adv_vint. unfold mbind at 1 4, parser_bind at 1 4.
    destruct (p_vint s1) as [[w|e] s2] eqn:E; [|done]. adv_vint.
    unfold mbind, parser_bind, p_check_conn. destruct (_ || _); [done|]. destruct (_ <? w); [done|].
    apply IH; try done; [|lia]. rewrite Hin0, Hin. unfold ps_ok in *. lia.
Qed.

(** ** ACK_MP *)

Definition ack_mp_codepoint (v : Z) : Z :=
  if v =? XQC_MULTIPATH_3E then XQC_TRANS_FRAME_TYPE_PATH_ACK else XQC_TRANS_FRAME_TYPE_MP_ACK0.

Definition ack_mp_bytes (v path_id delay : Z) (r0 : xqc_pktno_range_t)
    (l : list xqc_pktno_range_t) : list Z :=
  enc_vint (ack_mp_codepoint v) ++ enc_vint path_id ++ ack_body_bytes delay r0 l.

(** The delay field of an ACK_MP frame. *)
Definition ack_mp_delay (po : xqc_packet_out_t) (elapsed e : Z) : Z :=
  (if (po_pkt_pns po =? XQC_PNS_INIT) || (po_pkt_pns po =? XQC_PNS_HSK)
   then 0 else u64 elapsed) >> e.

Lemma gen_ack_mp_ok conn path_id po now e rr t0 r0 l :
  multipath_version conn = XQC_MULTIPATH_10 \/ multipath_version conn = XQC_MULTIPATH_3E ->
  record_wf rr -> ranges rr = r0 :: l -> span_ok (high r0) (ranges rr) ->
  0 <= po_used_size po -> 0 <= po_reserved_size po -> XQC_MSS <= zlen (po_buf po) ->
  let bs := ack_mp_bytes (multipath_version conn) path_id (ack_mp_delay po (now - t0) e) r0 l in
  zlen bs <= xqc_get_po_remained_size_with_ack_spc po ->
  xqc_gen_ack_mp_frame conn path_id po now e rr t0
  = (Ok (zlen bs, 0 <? Z.of_nat (length l), high r0),
     po_wrote po (wr (po_buf po) (po_used_size po) bs) XQC_FRAME_BIT_ACK_MP).
Proof.
  intros Hver [Hwf Hcnt Hmax] Hr Hs Hu Hres Hz bs Hroom. rewrite Hr in Hwf, Hs, Hcnt.
  cbn [length] in Hcnt. unfold xqc_gen_ack_mp_frame.
  assert (xqc_mp_select_codepoint (multipath_version conn) XQC_TRANS_FRAME_TYPE_MP_ACK0
    XQC_TRANS_FRAME_TYPE_PATH_ACK = Ok (ack_mp_codepoint (multipath_version conn))) as ->.
  { unfold xqc_mp_select_codepoint, ack_mp_codepoint. destruct Hver as [-> | ->]; done. }
  assert (Z.of_nat (length l) <= XQC_MAX_ACK_RANGE_CNT - 1) as Hl by lia.
  pose proof (po_ack_room po Hres) as Hend.
  pose proof Hwf as Hwf'. apply ranges_wf_cons in Hwf' as (Hr0 & _ & _). unfold range_ok in Hr0.
  pose proof Hs as Hs'. apply Forall_cons in Hs' as [Hs0 _]. cbv beta in Hs0.
  rewrite Hr, u32_small by lia. cbv zeta. fold (ack_mp_delay po (now - t0) e).
  unfold bs, ack_mp_bytes in *. clear bs. set (delay := ack_mp_delay _ _ _) in *.
  set (ft := ack_mp_codepoint _) in *. set (end_ := _ + _) in *.
  assert (zlen (ack_body_bytes delay r0 l)
    = vlen (high r0) + vlen delay + 1 + vlen (high r0 - low r0) + zlen (ack_range_bytes (low r0) l)) as Hbl.
  { unfold ack_body_bytes. autorewrite with enc. lia. }
  pose proof (zlen_nonneg (ack_range_bytes (low r0) l)). autorewrite with enc in Hroom.
  pose proof (zlen_nonneg (ack_body_bytes delay r0 l)). pose proof (vlen_range ft).
  pose proof (vlen_range path_id). destruct (end_ <? _) eqn:E1; [unfold end_ in E1; zb|].
  rewrite po_cursor_wr, !w_vint_wr by done. cbn [app].
  rewrite gen_ack_body_ok; try done; [|unfold end_; lia|autorewrite with enc; unfold end_; lia].
  unfold wr_at. cbn [fst snd]. rewrite <- !app_assoc. do 4 f_equal. lia.
Qed.

Lemma parse_ack_mp_loop_ok c l r0 fuel rs :
  ranges_wf (r0 :: l) -> (length l <= fuel)%nat ->
  Z.of_nat (length rs + S (length l)) <= XQC_MAX_ACK_RANGE_CNT ->
  parses c (parse_ack_mp_loop fuel (Z.of_nat (length l)) (rs ++ [r0]))
    (ack_range_bytes (low r0) l) (rs ++ r0 :: l) id.
Proof.
  revert r0 fuel rs. induction l as [|r l IH]; intros r0 fuel rs Hwf Hf Hmax.
  - intros s _ _. destruct fuel; simpl; rewrite zlen_nil, ps_move_0; done.
  - apply ranges_wf_cons in Hwf as (Hr0 & Hg & Hwf). apply Forall_cons in Hg as [Hg _].
    pose proof Hwf as Hwf'. apply ranges_wf_cons in Hwf' as (Hr & _ & _).
    unfold range_gt, range_ok in *. cbn [length] in *. destruct fuel as [|fuel]; [lia|].
    cbn [parse_ack_mp_loop ack_range_bytes]. destruct (_ <=? 0) eqn:E; [zb|].
    parse_step; [apply vint_ok_le; lia|]. parse_step; [apply vint_ok_le; lia|].
    rewrite length_app. cbn [length].
    destruct (_ <? XQC_MAX_ACK_RANGE_CNT) eqn:E2; [|zb].
    unfold last_low. rewrite last_snoc.
    replace (low r0 - (low r0 - high r - 2) - 2) with (high r) by lia.
    rewrite (u64_small (high r)) by lia.
    replace (high r - (high r - low r)) with (low r) by lia. rewrite u64_small by lia.
    replace (Z.of_nat (S (length l)) - 1) with (Z.of_nat (length l)) by lia.
    replace (rs ++ r0 :: r :: l) with ((rs ++ [r0]) ++ r :: l) by by rewrite <- app_assoc.
    replace (mk_range (low r) (high r)) with r by by destruct r.
    apply IH; [done|lia|]. rewrite length_app. cbn [length]. lia.
Qed.

Lemma parse_ack_mp_fields_ok c old pns v path_id delay r0 l :
  ranges_wf (r0 :: l) -> Z.of_nat (length l) <= XQC_MAX_ACK_RANGE_CNT - 1 -> vint_ok delay ->
  vint_ok path_id ->
  parses c (parse_ack_mp_fields old pns) (ack_mp_bytes v path_id delay r0 l)
    (path_id, mk_ack_info pns path_id (r0 :: l) (u64 (delay << remote_ack_delay_exponent c)) old)
    (commit_eff XQC_FRAME_BIT_ACK_MP).
Proof.
  intros Hwf Hl Hd Hp. pose proof Hwf as Hwf'. apply ranges_wf_cons in Hwf' as (Hr0 & _ & _).
  unfold range_ok in Hr0. unfold XQC_MAX_ACK_RANGE_CNT in Hl.
  unfold parse_ack_mp_fields, ack_mp_bytes, ack_body_bytes.
  parse_step; [unfold ack_mp_codepoint; case_if; by compute|]. parse_step; [done|].
  parse_step; [apply vint_ok_le; lia|]. parse_step; [done|]. parse_step.
  eapply (parses_bind _ _ _ [_]); [apply parses_vint_byte; lia|].
  parse_step; [apply vint_ok_le; lia|].
  replace (high r0 - (high r0 - low r0)) with (low r0) by lia. rewrite (u64_small (low r0)) by lia.
  parse_step. rewrite <- (app_nil_r (ack_range_bytes _ _)). eapply parses_bind.
  { apply (parse_ack_mp_loop_ok c l (mk_range (low r0) (high r0)) _ []);
      [by destruct r0| |cbn [length]; unfold XQC_MAX_ACK_RANGE_CNT; lia].
    pose proof (ack_range_bytes_len l (low r0)). lia. }
  cbn [app]. replace (mk_range (low r0) (high r0)) with r0 by by destruct r0.
  repeat parse_step.
Qed.

(** The ACK_MP (draft-10) or PATH_ACK (draft-21) frame generated from a well-formed
    receive record is parsed by the peer, under either version's code point, into the path
    and exactly the ranges of the record. *)
Theorem ack_mp_roundtrip conn c path_id po now e rr t0 r0 l old :
  multipath_version conn = XQC_MULTIPATH_10 \/ multipath_version conn = XQC_MULTIPATH_3E ->
  record_wf rr -> ranges rr = r0 :: l -> span_ok (high r0) (ranges rr) ->
  vint_ok path_id -> vint_ok (ack_mp_delay po (now - t0) e) ->
  bytes_ok (po_buf po) -> 0 <= po_used_size po -> 0 <= po_reserved_size po ->
  XQC_MSS <= zlen (po_buf po) ->
  zlen (ack_mp_bytes (multipath_version conn) path_id (ack_mp_delay po (now - t0) e) r0 l)
  <= xqc_get_po_remained_size_with_ack_spc po ->
  exists size po' delay,
    xqc_gen_ack_mp_frame conn path_id po now e rr t0
    = (Ok (size, negb (bool_decide (l = [])), xqc_recv_record_largest rr), po')
    /\ forall last pns, po_used_size po + size <= last <= zlen (po_buf po) ->
       run (xqc_parse_ack_mp_frame old) (mk_pi (po_buf po') (po_used_size po) last 0 pns) c
       = (Ok (path_id, mk_ack_info pns path_id (ranges rr) delay old),
          mk_pi (po_buf po') (po_used_size po + size) last XQC_FRAME_BIT_ACK_MP pns, c).
Proof.
  intros Hver Hrr Hr Hs Hp Hd Hb Hu Hres Hz Hroom.
  rewrite (gen_ack_mp_ok conn path_id po now e rr t0 r0 l) by done.
  set (delay := ack_mp_delay _ _ _) in *. set (bs := ack_mp_bytes _ _ _ _ _) in *.
  eexists _, _, (u64 (delay << remote_ack_delay_exponent c)). split.
  { unfold xqc_recv_record_largest. rewrite Hr. do 4 f_equal. by destruct l. }
  intros last pns Hlast. simpl. destruct Hrr as [Hwf Hcnt Hmax]. rewrite Hr in Hwf, Hcnt.
  cbn [length] in Hcnt. rewrite Hr. unfold run, xqc_parse_ack_mp_frame.
  unfold mbind at 1, parser_bind at 1, p_pns at 1. cbn [pi_pkt_pns ps_in].
  rewrite (parse_ack_mp_fields_ok c old pns (multipath_version conn) path_id delay r0 l);
    try done; try lia.
  fold bs. pose proof (zlen_nonneg bs). split; simpl; rewrite ?zlen_wr; try done; try lia.
  - apply bytes_ok_wr; [done|]. unfold bs, ack_mp_bytes. rewrite !bytes_ok_app.
    split_and!; [apply enc_vint_ok..|apply ack_body_bytes_ok; lia].
  - apply bytes_at_wr; [done|]. lia.
Qed.

Lemma ack_mp_roundtrip_witness :
  let conn := mk_conn XQC_CONN_TYPE_CLIENT 0 XQC_CONN_ERR_TYPE_UNKNOWN XQC_MULTIPATH_10 0 3 false false in
  let rr := mk_record [mk_range 108 110; mk_range 105 106] 0 2 in
  let po := mk_po (replicate 1452 0) 1200 30 0 0 0 0 [] 0 0 None 2 in
  exists size po' delay,
    xqc_gen_ack_mp_frame conn 1 po 1000 3 rr 123
    = (Ok (size, negb (bool_decide ([mk_range 105 106] = [])), xqc_recv_record_largest rr), po')
    /\ forall last pns, po_used_size po + size <= last <= zlen (po_buf po) ->
       run (xqc_parse_ack_mp_frame 0) (mk_pi (po_buf po') (po_used_size po) last 0 pns) conn
       = (Ok (1, mk_ack_info pns 1 (ranges rr) delay 0),
          mk_pi (po_buf po') (po_used_size po + size) last XQC_FRAME_BIT_ACK_MP pns, conn).
Proof.
  intros conn rr po.
  apply (ack_mp_roundtrip conn conn 1 po 1000 3 rr 123 (mk_range 108 110) [mk_range 105 106] 0);
    try done; try by_decide.
  split; [split; repeat constructor; simpl; done | done | done].
Defined.

(** On the same field values, a First ACK Range larger than Largest Acknowledged,
    [xqc_parse_ack_frame] rejects the frame with FRAME_ENCODING_ERROR as RFC 9000 section
    19.3.1 asks, while [xqc_parse_ack_mp_frame] accepts it and reports a range whose lower
    end has wrapped around to [2^64 - 2]. *)
Theorem ack_mp_range_unchecked :
  let c := mk_conn XQC_CONN_TYPE_CLIENT 0 XQC_CONN_ERR_TYPE_UNKNOWN XQC_MULTIPATH_3E 0 3 false false in
  let largest := 3 in
  let first_ack_range := 5 in
  (exists c', run xqc_parse_ack_frame (mk_pi [0x02; largest; 0; 0; first_ack_range] 0 5 0 2) c
     = (Err XQC_EILLEGAL_FRAME, mk_pi [0x02; largest; 0; 0; first_ack_range] 0 5 0 2, c')
     /\ conn_err c' = TRA_FRAME_ENCODING_ERROR)
  /\ exists info pi',
     run (xqc_parse_ack_mp_frame 0) (mk_pi [0x3e; 1; largest; 0; 0; first_ack_range] 0 6 0 2) c
     = (Ok (1, info), pi', c)
     /\ ack_ranges info = [mk_range (2 ^ 64 - 2) 3] /\ ~ ranges_wf (ack_ranges info).
Proof.
  cbv zeta. split; [eexists; split; reflexivity|]. eexists _, _. split; [reflexivity|].
  split; [reflexivity|]. intros Hw. apply ranges_wf_cons in Hw as (Hr & _ & _).
  destruct Hr as [[_ Hr] _]. vm_compute in Hr. by apply Hr.
Qed.

End AckFrame.
