(* ===== verification/StreamFrame.v ===== *)
(** STREAM and DATAGRAM frames of [src/transport/xqc_frame_parser.c].

    The STREAM generator extends the last STREAM frame of the packet in place when the new
    data continues it, and truncates what does not fit. *)

From stdpp Require Import base numbers list.
From S2P Require Import Prelude VInt PacketBuf Frames.
Import Frames.

Module StreamFrame.

(** ** STREAM: generating *)

Definition psf_zero : xqc_po_stream_frame_t := mk_psf 0 0 0 0 0 false false.

(** [packet_out->po_stream_frames[i]]. *)
Definition po_sf (po : xqc_packet_out_t) (i : Z) : xqc_po_stream_frame_t :=
  nth (Z.to_nat i) (po_stream_frames po) psf_zero.

(** The packet after the buffer, entry [i], the entry count, the types and the flags were
    assigned. *)
Definition po_set_stream (po : xqc_packet_out_t) (buf : list Z) (i : Z)
    (sf : xqc_po_stream_frame_t) (idx types flag : Z) : xqc_packet_out_t :=
  mk_po buf (po_buf_size po) (po_used_size po) (po_reserved_size po) (po_ack_offset po)
    types flag (<[Z.to_nat i := sf]> (po_stream_frames po)) idx
    (po_dgram_payload_size po) (po_padding po) (po_pkt_pns po).

(** The conditions under which the previous STREAM frame is extended. *)
Definition can_combine (po : xqc_packet_out_t) (stream_id offset : Z) : bool :=
  let idx := po_stream_frames_idx po in
  let prev := po_sf po (idx - 1) in
  (0 <? idx) && (po_frame_types po =? XQC_FRAME_BIT_STREAM)
  && (ps_stream_id prev =? stream_id) && (u64 (ps_offset prev + ps_length prev) =? offset)
  && (0 <? ps_length_offset prev)
  && (rd (po_buf po) (ps_length_offset prev) .& 0xc0 =? 0x40).

(** The extension: returns [*written_size], which is also the return value. *)
Definition gen_stream_append (po : xqc_packet_out_t) (fin : bool) (payload : list Z)
    : Z * xqc_packet_out_t :=
  let size := zlen payload in
  let i := po_stream_frames_idx po - 1 in
  let prev := po_sf po i in
  let fin_only := fin && (size =? 0) in
  let append_size := if fin_only then 0 else Z.min size (xqc_get_po_remained_size po) in
  let buf :=
    if fin_only then po_buf po
    else
      xqc_vint_write (wr (po_buf po) (po_used_size po) (take (Z.to_nat append_size) payload))
        (ps_length_offset prev) (ps_length prev + append_size) 1 2 in
  let fin := if fin_only then fin else if append_size =? size then fin else false in
  let buf := if fin then wr buf (ps_type_offset prev) [rd buf (ps_type_offset prev) .| 0x01]
             else buf in
  let sf := mk_psf (ps_stream_id prev) (ps_offset prev) (u32 (ps_length prev + append_size))
              (ps_type_offset prev) (ps_length_offset prev) (ps_is_used prev)
              (if fin then fin else ps_has_fin prev) in
  (append_size,
   po_set_stream po buf i sf (po_stream_frames_idx po) (po_frame_types po) (po_flag po)).

(** The sizes of a new frame with data: the bytes of data and whether FIN stays set;
    [None]: [-XQC_ENOBUF]. [size_t] and [ssize_t] meet in these comparisons. *)
Definition stream_data_size (dst_buf_len hdr size : Z) (fin : bool) : option (Z * bool) :=
  let n_avail := dst_buf_len - hdr in
  let '(n_avail, size, fin) :=
    if size <=? u64 n_avail then
      let n_avail := n_avail - 2 in
      if u64 n_avail <? size then (n_avail, u64 n_avail, false) else (n_avail, size, fin)
    else (n_avail, u64 (u64 n_avail - 2), false) in
  if (n_avail <=? 0) || (u64 n_avail <? size) then None else Some (size, fin).

(** [dst_buf[0] = ...], the entry of the frame, and the rest of the end of the function. *)
Definition gen_stream_finish (po : xqc_packet_out_t) (c : cursor) (has_len : bool)
    (stream_id offset size : Z) (fin : bool) (length_offset flag : Z)
    : res Z * xqc_packet_out_t :=
  let type := 0x08 .| ((if offset =? 0 then 0 else 1) << 2)
              .| ((if has_len then 1 else 0) << 1) .| ((if fin then 1 else 0) << 0) in
  let idx := po_stream_frames_idx po in
  let sf := mk_psf stream_id offset (u32 size) (po_used_size po) length_offset true fin in
  (Ok (snd c - po_used_size po),
   po_set_stream po (wr (fst c) (po_used_size po) [type]) idx sf (idx + 1)
     (po_frame_types po .| XQC_FRAME_BIT_STREAM) flag).

Definition gen_stream_new (po : xqc_packet_out_t) (stream_id offset : Z) (fin : bool)
    (payload : list Z) : res Z * Z * xqc_packet_out_t :=
  let dst_buf_len := xqc_get_po_remained_size po in
  let size := zlen payload in
  let fin_only := fin && (size =? 0) in
  let offset_len := if offset =? 0 then 0 else vlen offset in
  let hdr := 1 + vlen stream_id + offset_len in
  let c := (po_buf po, po_used_size po + 1) in
  let old := po_sf po (po_stream_frames_idx po) in
  if negb fin_only then
    match stream_data_size dst_buf_len hdr size fin with
    | None => (Err XQC_ENOBUF, 0, po)
    | Some (size, fin) =>
        let c := w_vint c stream_id in
        let c := if offset =? 0 then c else w_vint c offset in
        let length_offset := snd c in
        let c := w_bytes c (xqc_vint_bytes size 1 2) in
        let c := w_bytes c (take (Z.to_nat size) payload) in
        let '(r, po') := gen_stream_finish po c true stream_id offset size fin
                           length_offset (po_flag po) in
        (r, size, po')
    end
  else
    let length_len := if hdr <? dst_buf_len then 1 else 0 in
    if dst_buf_len <? hdr + length_len then (Err XQC_ENOBUF, 0, po)
    else
      let c := w_vint c stream_id in
      let c := if offset =? 0 then c else w_vint c offset in
      let c := if length_len =? 0 then c else w_byte c 0 in
      let flag := if length_len =? 0 then po_flag po .| XQC_POF_STREAM_NO_LEN
                  else po_flag po in
      let '(r, po') := gen_stream_finish po c (negb (length_len =? 0)) stream_id offset size fin
                         (ps_length_offset old) flag in
      (r, 0, po').

(** Returns the value, [*written_size] and the packet. *)
Definition xqc_gen_stream_frame (po : xqc_packet_out_t) (stream_id offset : Z) (fin : bool)
    (payload : list Z) : res Z * Z * xqc_packet_out_t :=
  if XQC_MAX_STREAM_FRAME_IN_PO <=? po_stream_frames_idx po then (Err XQC_ELIMIT, 0, po)
  else if can_combine po stream_id offset
  then let '(n, po') := gen_stream_append po fin payload in (Ok n, n, po')
  else gen_stream_new po stream_id offset fin payload.

(** ** STREAM: parsing *)

Definition xqc_parse_stream_frame (malloc_ok : bool) : parser (xqc_stream_frame_t * Z) :=
  first_byte ← p_byte;
  stream_id ← p_vint;
  conn ← p_conn;
  p_check_conn (xqc_stream_is_send_only (conn_type conn) stream_id)
    TRA_STREAM_STATE_ERROR XQC_EPROTO;;
  offset ← (if first_byte .& 0x04 =? 0 then mret 0 else p_vint);
  length ← (if first_byte .& 0x02 =? 0 then p_left
            else length ← p_vint;
                 left ← p_left;
                 p_check (left <? length) XQC_EILLEGAL_FRAME;;
                 mret length);
  p_check_conn (u64 (((1 << 62) - 1) - offset) <? length)
    TRA_FRAME_ENCODING_ERROR XQC_EILLEGAL_FRAME;;
  let fin := negb (first_byte .& 0x01 =? 0) in
  p_check ((0 <? length) && negb malloc_ok) XQC_EMALLOC;;
  bs ← p_copy length;
  p_commit XQC_FRAME_BIT_STREAM;;
  mret (mk_sf (if 0 <? length then Some bs else None) length offset fin, stream_id).

(** ** DATAGRAM *)

Definition XQC_DATAGRAM_LENGTH_FIELD_BYTES : Z := 2.

Definition xqc_gen_datagram_frame (po : xqc_packet_out_t) (payload : list Z)
    : res Z * xqc_packet_out_t :=
  let size := zlen payload in
  let used := po_used_size po in
  if xqc_get_po_remained_size po <? size + 1 + XQC_DATAGRAM_LENGTH_FIELD_BYTES
  then (Err XQC_ENOBUF, po)
  else
    let p := used + 1 in
    let buf := xqc_vint_write (po_buf po) p size (XQC_DATAGRAM_LENGTH_FIELD_BYTES - 1)
                 XQC_DATAGRAM_LENGTH_FIELD_BYTES in
    let p := p + XQC_DATAGRAM_LENGTH_FIELD_BYTES in
    let buf := if 0 <? size then wr buf p payload else buf in
    let p := p + size in
    let buf := wr buf used [0x31] in
    (Ok 0,
     mk_po buf (po_buf_size po) (used + (p - used)) (po_reserved_size po) (po_ack_offset po)
       (po_frame_types po .| XQC_FRAME_BIT_DATAGRAM) (po_flag po) (po_stream_frames po)
       (po_stream_frames_idx po) (po_dgram_payload_size po + size) (po_padding po)
       (po_pkt_pns po)).

(** Returns [*buffer], the offset of the payload in the packet, and [*size]. *)
Definition xqc_parse_datagram_frame : parser (Z * Z) :=
  first_byte ← p_byte;
  left0 ← p_left;
  length ← (if first_byte .& 0x1 =? 0 then p_left
            else length ← p_vint;
                 left ← p_left;
                 p_check (left <? length) XQC_EILLEGAL_FRAME;;
                 mret length);
  left ← p_left;
  let vlen := left0 - left in
  conn ← p_conn;
  p_check (max_datagram_frame_size conn <? length + 1 + vlen) XQC_EPROTO;;
  s ← (fun s => (Ok (ps_p s), s));
  p_skip length;;
  p_commit XQC_FRAME_BIT_DATAGRAM;;
  mret (s, length).

(** ** The format *)

Definition off_bytes (offset : Z) : list Z := if offset =? 0 then [] else enc_vint offset.

Definition stream_type (offset : Z) (fin : bool) : Z :=
  0x0a + (if offset =? 0 then 0 else 4) + (if fin then 1 else 0).

(** A STREAM frame with a two-byte length field. *)
Definition stream_bytes (stream_id offset : Z) (d : list Z) (fin : bool) : list Z :=
  stream_type offset fin :: enc_vint stream_id ++ off_bytes offset
  ++ xqc_vint_bytes (zlen d) 1 2 ++ d.

(** Its size without data. *)
Definition stream_hdr (stream_id offset : Z) : Z :=
  1 + vlen stream_id + (if offset =? 0 then 0 else vlen offset) + 2.

Lemma zlen_off_bytes offset : zlen (off_bytes offset) = if offset =? 0 then 0 else vlen offset.
Proof. unfold off_bytes. case_if; [done|apply zlen_enc_vint]. Qed.

Lemma zlen_vint_bytes_2 v : zlen (xqc_vint_bytes v 1 2) = 2.
Proof. by apply zlen_vint_bytes. Qed.

Lemma zlen_stream_bytes sid off d fin :
  zlen (stream_bytes sid off d fin) = stream_hdr sid off + zlen d.
Proof.
  unfold stream_bytes, stream_hdr. autorewrite with enc. rewrite zlen_off_bytes, zlen_vint_bytes_2.
  lia.
Qed.

Lemma stream_data_size_ok room hdr size fin :
  0 <= hdr -> hdr + 2 < room -> room < 2 ^ 63 -> 0 <= size < 2 ^ 63 ->
  let n := Z.min size (room - hdr - 2) in
  stream_data_size room hdr size fin = Some (n, fin && (n =? size)).
Proof.
  intros Hh Hr Hr2 Hs n. unfold stream_data_size.
  rewrite !(u64_small (room - hdr)), (u64_small (room - hdr - 2)) by lia.
  destruct (size <=? room - hdr) eqn:E1; [destruct (room - hdr - 2 <? size) eqn:E2|]; zify_bools;
    rewrite ?(u64_small (room - hdr - 2)), ?(u64_small (room - hdr)) by lia.
  all: destruct (_ || _) eqn:E3; [apply orb_true_iff in E3 as [E3|E3]; zb|].
  all: f_equal; f_equal; [unfold n; lia|].
  - destruct fin; [|done]. symmetry. apply Z.eqb_neq. unfold n. lia.
  - destruct fin; [|done]. symmetry. apply Z.eqb_eq. unfold n. lia.
  - destruct fin; [|done]. symmetry. apply Z.eqb_neq. unfold n. lia.
Qed.

Lemma stream_type_eq (offset : Z) (fin : bool) :
  0x08 .| ((if offset =? 0 then 0 else 1) << 2) .| (1 << 1) .| ((if fin then 1 else 0) << 0)
  = stream_type offset fin.
Proof. unfold stream_type. destruct (offset =? 0), fin; reflexivity. Qed.

Lemma gen_stream_new_ok po sid off fin payload :
  0 <= po_used_size po -> po_used_size po < zlen (po_buf po) ->
  zlen payload < 2 ^ 63 -> xqc_get_po_remained_size po < 2 ^ 63 ->
  stream_hdr sid off < xqc_get_po_remained_size po -> fin && (zlen payload =? 0) = false ->
  let n := Z.min (zlen payload) (xqc_get_po_remained_size po - stream_hdr sid off) in
  let f := fin && (n =? zlen payload) in
  let bs := stream_bytes sid off (take (Z.to_nat n) payload) f in
  let used := po_used_size po in
  let idx := po_stream_frames_idx po in
  gen_stream_new po sid off fin payload
  = (Ok (zlen bs), n,
     po_set_stream po (wr (po_buf po) used bs) idx
       (mk_psf sid off (u32 n) used (used + stream_hdr sid off - 2) true f) (idx + 1)
       (po_frame_types po .| XQC_FRAME_BIT_STREAM) (po_flag po)).
Proof.
  intros Hu Hz Hp Hrs Hroom Hfo n f bs used idx. pose proof (zlen_nonneg payload).
  unfold stream_hdr in *. set (ol := if off =? 0 then 0 else vlen off) in *.
  assert (0 <= ol) by (unfold ol; case_if; [done|pose proof (vlen_range off); lia]).
  pose proof (vlen_range sid). unfold gen_stream_new. rewrite Hfo. fold ol. cbv zeta. cbn [negb].
  rewrite stream_data_size_ok by lia.
  replace (Z.min (zlen payload) _) with n by (unfold n; lia). fold f.
  replace (po_used_size po + 1) with (po_used_size po + zlen [] + 1) by (rewrite zlen_nil; lia).
  change (po_buf po, po_used_size po + zlen [] + 1)
    with (wr (po_buf po) (po_used_size po) [], po_used_size po + zlen [] + 1).
  rewrite w_skip_wr by (rewrite ?zlen_nil; lia).
  assert (forall b w, (if off =? 0 then wr_at (po_buf po) (po_used_size po) (b :: w)
    else w_vint (wr_at (po_buf po) (po_used_size po) (b :: w)) off)
    = wr_at (po_buf po) (po_used_size po) (b :: w ++ off_bytes off)) as Hoff.
  { intros b w. unfold off_bytes. case_if; [by rewrite app_nil_r|]. by rewrite w_vint_wr. }
  rewrite w_vint_wr by done. cbn [app]. rewrite Hoff, !w_bytes_wr by done.
  unfold gen_stream_finish. rewrite stream_type_eq. unfold wr_at. cbn [fst snd app].
  rewrite <- !app_assoc. rewrite wr_overwrite_hd.
  assert (zlen (take (Z.to_nat n) payload) = n) as Hn.
  { unfold zlen. rewrite length_take. unfold n, zlen in *. lia. }
  replace (stream_type off f :: _) with bs by (unfold bs, stream_bytes; by rewrite Hn).
  assert (zlen bs = 1 + vlen sid + ol + 2 + n) as Hbs.
  { unfold bs. rewrite zlen_stream_bytes, Hn. unfold stream_hdr. fold ol. lia. }
  rewrite !zlen_cons, !zlen_app, zlen_off_bytes, zlen_enc_vint, zlen_vint_bytes_2, Hn. fold ol.
  do 4 f_equal; [lia|]. f_equal. lia.
Qed.

(** ** Reading it back *)

Lemma stream_type_bits (offset : Z) (fin : bool) :
  (stream_type offset fin .& 0x04 =? 0) = (offset =? 0)
  /\ (stream_type offset fin .& 0x02 =? 0) = false
  /\ negb (stream_type offset fin .& 0x01 =? 0) = fin.
Proof. unfold stream_type. destruct (offset =? 0), fin; done. Qed.

Lemma vint_fits_2 v : 0 <= v < 16384 -> vint_fits v 1.
Proof. intros Hv. split; [lia|]. change (xqc_vint_usable_bits 1) with 14. lia. Qed.

Lemma parse_stream_ok c sid off d fin :
  xqc_stream_is_send_only (conn_type c) sid = false -> vint_ok sid -> vint_ok off ->
  zlen d < 16384 -> off + zlen d <= XQC_VINT_MAX ->
  parses c (xqc_parse_stream_frame true) (stream_bytes sid off d fin)
    (mk_sf (if 0 <? zlen d then Some d else None) (zlen d) off fin, sid)
    (commit_eff XQC_FRAME_BIT_STREAM).
Proof.
  intros Hso Hs Ho Hd Hod. pose proof (zlen_nonneg d). unfold vint_ok, XQC_VINT_MAX in *.
  destruct (stream_type_bits off fin) as (B4 & B2 & B1).
  unfold stream_bytes, xqc_parse_stream_frame. parse_step. parse_step; [done|]. parse_step.
  parse_step; [done|]. rewrite B4, B2, B1.
  assert (u64 ((1 << 62) - 1 - off) = (1 << 62) - 1 - off) as Hu
    by (apply u64_small; revert Ho; eval_pow; lia).
  assert (parses c (
    length ← (length ← p_vint; left ← p_left; p_check (left <? length) XQC_EILLEGAL_FRAME;;
              mret length);
    p_check_conn (u64 (((1 << 62) - 1) - off) <? length)
      TRA_FRAME_ENCODING_ERROR XQC_EILLEGAL_FRAME;;
    p_check ((0 <? length) && negb true) XQC_EMALLOC;;
    bs ← p_copy length; p_commit XQC_FRAME_BIT_STREAM;;
    mret (mk_sf (if 0 <? length then Some bs else None) length off fin, sid))
    (xqc_vint_bytes (zlen d) 1 2 ++ d)
    (mk_sf (if 0 <? zlen d then Some d else None) (zlen d) off fin, sid)
    (commit_eff XQC_FRAME_BIT_STREAM)) as Htail.
  { parse_step. eapply (parses_bind c p_vint);
      [apply (parses_vint_class c _ 1), vint_fits_2; lia|].
    rewrite Hu. repeat parse_step; rewrite ?andb_false_r; parse_side. }
  unfold off_bytes. destruct (off =? 0) eqn:E.
  - zify_bools. subst off. cbn [app]. parse_step. exact Htail.
  - parse_step; [done|]. exact Htail.
Qed.

(** ** A packet that ends with a STREAM frame *)

(** The packet holds nothing but STREAM frames, and the last of them, which can still be
    extended, has the data [d] of the stream [sid] at [off]. *)
Record tail_frame (po : xqc_packet_out_t) (sid off : Z) (d : list Z) (fin : bool) : Prop := {
  tf_idx : 1 <= po_stream_frames_idx po < XQC_MAX_STREAM_FRAME_IN_PO;
  tf_frames : length (po_stream_frames po) = 3%nat;
  tf_types : po_frame_types po = XQC_FRAME_BIT_STREAM;
  tf_start : 0 <= ps_type_offset (po_sf po (po_stream_frames_idx po - 1));
  tf_entry :
    let t := ps_type_offset (po_sf po (po_stream_frames_idx po - 1)) in
    po_sf po (po_stream_frames_idx po - 1)
    = mk_psf sid off (zlen d) t (t + stream_hdr sid off - 2) true fin
    /\ bytes_at (po_buf po) t (stream_bytes sid off d fin)
    /\ po_used_size po = t + zlen (stream_bytes sid off d fin);
  tf_len : zlen d < 16384;
  tf_off : 0 <= off /\ off + zlen d < 2 ^ 62;
}.

Lemma po_sf_set po buf i sf idx types flag :
  0 <= i < Z.of_nat (length (po_stream_frames po)) ->
  po_sf (po_set_stream po buf i sf idx types flag) i = sf.
Proof.
  intros Hi. unfold po_sf, po_set_stream. cbn [po_stream_frames]. rewrite nth_lookup.
  by rewrite list_lookup_insert_eq by lia.
Qed.

Lemma stream_new_tail po sid off fin payload n w po' :
  gen_stream_new po sid off fin payload = (Ok n, w, po') ->
  0 <= po_used_size po -> po_buf_size po <= zlen (po_buf po) -> 0 <= po_reserved_size po ->
  zlen payload < 2 ^ 63 -> po_buf_size po < 16384 -> fin && (zlen payload =? 0) = false ->
  stream_hdr sid off < xqc_get_po_remained_size po ->
  0 <= off -> off + zlen payload < 2 ^ 62 ->
  0 <= po_stream_frames_idx po < XQC_MAX_STREAM_FRAME_IN_PO - 1 ->
  length (po_stream_frames po) = 3%nat ->
  po_frame_types po = 0 \/ po_frame_types po = XQC_FRAME_BIT_STREAM ->
  w = Z.min (zlen payload) (xqc_get_po_remained_size po - stream_hdr sid off)
  /\ tail_frame (po_advance po' n) sid off (take (Z.to_nat w) payload)
       (fin && (w =? zlen payload)).
Proof.
  intros Hg Hu Hz Hres Hp Hsz Hfo Hroom Ho Hop Hidx Hfr Hty.
  pose proof (po_remained_le po Hres) as Hrem. pose proof (zlen_nonneg payload).
  unfold XQC_MAX_STREAM_FRAME_IN_PO in Hidx.
  assert (2 < stream_hdr sid off) as Hh.
  { unfold stream_hdr. pose proof (vlen_range sid). pose proof (vlen_range off).
    case_if; lia. }
  rewrite gen_stream_new_ok in Hg by (done || lia). cbv zeta in Hg. injection Hg as <- <- <-.
  set (k := Z.min _ _). split; [done|].
  set (f := fin && _). set (d := take _ _).
  assert (zlen d = k) as Hd.
  { unfold d, zlen. rewrite length_take. unfold k, zlen in *. lia. }
  set (pa := po_advance _ _).
  assert (po_sf pa (po_stream_frames_idx pa - 1) = mk_psf sid off (u32 k) (po_used_size po)
      (po_used_size po + stream_hdr sid off - 2) true f) as Hsf.
  { unfold pa. cbn [po_stream_frames_idx po_set_stream po_advance]. rewrite Z.add_simpl_r.
    apply (po_sf_set po). lia. }
  split; unfold XQC_MAX_STREAM_FRAME_IN_PO; cbv zeta; rewrite ?Hsf; cbn [ps_type_offset]; try lia.
  - simpl. lia.
  - simpl. by rewrite length_insert.
  - simpl. by destruct Hty as [-> | ->].
  - split_and!.
    + rewrite u32_small by lia. by rewrite Hd.
    + simpl. apply bytes_at_wr; [done|]. rewrite zlen_stream_bytes. lia.
    + done.
Qed.

Lemma len_field_bits v b bs :
  0 <= v < 16384 -> xqc_vint_bytes v 1 2 = b :: bs -> b .& 0xc0 = 0x40.
Proof.
  intros Hv E. change 2 with (xqc_vint_len 1) in E.
  rewrite vint_bytes_be in E by by apply vint_fits_2.
  change (Z.to_nat (xqc_vint_len 1)) with 2%nat in E. cbn [be_bytes] in E. injection E as <- _.
  change (8 * Z.of_nat 1) with 8. change (1 * 2 ^ xqc_vint_usable_bits 1) with (64 * 256).
  rewrite Z.shiftr_div_pow2 by done. change (2 ^ 8) with 256. rewrite Z.div_add by done.
  assert (0 <= v / 256 < 64) as Hq by (split; [apply Z.div_pos|apply Z.div_lt_upper_bound]; lia).
  rewrite u8_small by lia.
  assert (Forall (fun q => (q + 64) .& 0xc0 = 0x40) (seqZ 0 64)) as Hall by by_decide.
  rewrite Forall_forall in Hall. apply Hall, elem_of_seqZ. lia.
Qed.

Lemma rd_bytes_at buf p a b l : bytes_at buf p (a ++ b :: l) -> rd buf (p + zlen a) = b.
Proof. intros H. apply bytes_at_app in H as [_ H]. by apply bytes_at_rd in H. Qed.

(** The length field of the last frame, and the bytes around it. *)
Definition stream_pre (sid off : Z) (fin : bool) : list Z :=
  stream_type off fin :: enc_vint sid ++ off_bytes off.

Lemma stream_bytes_pre sid off d fin :
  stream_bytes sid off d fin = stream_pre sid off fin ++ xqc_vint_bytes (zlen d) 1 2 ++ d.
Proof. unfold stream_bytes, stream_pre. simpl. by rewrite <- app_assoc. Qed.

Lemma zlen_stream_pre sid off fin : zlen (stream_pre sid off fin) = stream_hdr sid off - 2.
Proof.
  unfold stream_pre, stream_hdr. autorewrite with enc. rewrite zlen_off_bytes. lia.
Qed.

Lemma tail_can_combine po sid off d :
  tail_frame po sid off d false -> can_combine po sid (off + zlen d) = true.
Proof.
  intros [Hidx Hfr Hty Hst (He & Hb & Hu) Hl Ho]. pose proof (zlen_nonneg d).
  unfold can_combine. rewrite He in *. cbn [ps_stream_id ps_offset ps_length ps_length_offset] in *.
  set (t := ps_type_offset _) in *. rewrite Hty, u64_small, !Z.eqb_refl by lia.
  rewrite stream_bytes_pre in Hb.
  assert (exists b bs, xqc_vint_bytes (zlen d) 1 2 = b :: bs) as (b & bs & E).
  { pose proof (zlen_vint_bytes_2 (zlen d)). destruct (xqc_vint_bytes (zlen d) 1 2); [done|eauto]. }
  rewrite E in Hb. apply rd_bytes_at in Hb. rewrite zlen_stream_pre in Hb.
  replace (t + (stream_hdr sid off - 2)) with (t + stream_hdr sid off - 2) in Hb by lia.
  rewrite Hb, (len_field_bits (zlen d) b bs) by (done || lia).
  assert (2 < stream_hdr sid off).
  { unfold stream_hdr. pose proof (vlen_range sid). pose proof (vlen_range off). case_if; lia. }
  destruct (0 <? po_stream_frames_idx po) eqn:E1; [|zb].
  destruct (0 <? t + _ - 2) eqn:E2; [done|zb].
Qed.

Lemma stream_type_fin off fin : stream_type off fin .| 0x01 = stream_type off true.
Proof. unfold stream_type. destruct (off =? 0), fin; done. Qed.

(** The bytes of the last frame after the extension: new data at the end, then the length
    field, then the FIN bit. *)
Lemma append_bytes buf t sid off d1 d2 (f : bool) :
  bytes_at buf t (stream_bytes sid off d1 false) ->
  t + zlen (stream_bytes sid off d1 false) + zlen d2 <= zlen buf ->
  let buf1 := wr buf (t + zlen (stream_bytes sid off d1 false)) d2 in
  let buf2 := xqc_vint_write buf1 (t + stream_hdr sid off - 2) (zlen d1 + zlen d2) 1 2 in
  bytes_at (if f then wr buf2 t [rd buf2 t .| 0x01] else buf2) t
    (stream_bytes sid off (d1 ++ d2) f).
Proof.
  intros Hb Hz buf1 buf2.
  assert (bytes_at buf1 t (stream_bytes sid off d1 false ++ d2)) as H1 by by apply bytes_at_extend.
  assert (bytes_at buf2 t (stream_bytes sid off (d1 ++ d2) false)) as H2.
  { rewrite stream_bytes_pre in H1 |- *. unfold buf2, xqc_vint_write.
    replace (t + stream_hdr sid off - 2) with (t + zlen (stream_pre sid off false))
      by (rewrite zlen_stream_pre; lia).
    rewrite zlen_app, <- !app_assoc in *. eapply bytes_at_replace; [done|].
    by rewrite !zlen_vint_bytes_2. }
  destruct f; [|done]. clearbody buf2.
  assert (forall g, stream_bytes sid off (d1 ++ d2) g = [] ++ [stream_type off g]
    ++ (enc_vint sid ++ off_bytes off ++ xqc_vint_bytes (zlen (d1 ++ d2)) 1 2 ++ d1 ++ d2)) as Hs
    by done.
  rewrite Hs in H2 |- *. replace (rd buf2 t) with (stream_type off false)
    by (symmetry; by apply (bytes_at_rd buf2 t (stream_type off false)) in H2).
  rewrite stream_type_fin. replace t with (t + zlen (@nil Z)) at 1 by (rewrite zlen_nil; lia).
  by eapply bytes_at_replace.
Qed.

(** What the extension does to the packet; without new data, the rewritten length field is
    what was there. *)
Lemma gen_stream_append_ok po sid off d fin payload :
  tail_frame po sid off d false -> po_buf_size po < 16384 -> 0 <= po_reserved_size po ->
  0 <= xqc_get_po_remained_size po ->
  let t := ps_type_offset (po_sf po (po_stream_frames_idx po - 1)) in
  let k := Z.min (zlen payload) (xqc_get_po_remained_size po) in
  let e := take (Z.to_nat k) payload in
  let f := fin && (k =? zlen payload) in
  let buf2 := xqc_vint_write (wr (po_buf po) (po_used_size po) e) (t + stream_hdr sid off - 2)
                (zlen d + zlen e) 1 2 in
  zlen e = k /\
  gen_stream_append po fin payload
  = (k, po_set_stream po (if f then wr buf2 t [rd buf2 t .| 0x01] else buf2)
          (po_stream_frames_idx po - 1)
          (mk_psf sid off (zlen (d ++ e)) t (t + stream_hdr sid off - 2) true f)
          (po_stream_frames_idx po) (po_frame_types po) (po_flag po)).
Proof.
  intros [Hidx Hfr Hty Hst (He & Hb & Hu) Hl Hoff] Hsz Hres Hr t k e f buf2.
  pose proof (po_remained_le po Hres) as Hrem. pose proof (zlen_nonneg payload).
  pose proof (zlen_nonneg d).
  assert (zlen e = k) as Hke.
  { unfold e, zlen. rewrite length_take. unfold k, zlen in *. lia. }
  split; [done|]. fold t in He, Hb, Hu, Hst. unfold gen_stream_append. cbv zeta.
  rewrite He. cbn [ps_stream_id ps_offset ps_length ps_length_offset ps_type_offset
    ps_is_used ps_has_fin]. fold k. rewrite zlen_app.
  rewrite zlen_stream_bytes in Hu. assert (2 < stream_hdr sid off).
  { unfold stream_hdr. pose proof (vlen_range sid). pose proof (vlen_range off). case_if; lia. }
  destruct (fin && (zlen payload =? 0)) eqn:Efo.
  - apply andb_true_iff in Efo as [-> Ez]. zify_bools.
    assert (k = 0) as Hk by (unfold k; lia).
    assert (e = []) as Hnil by (apply nil_length_inv; unfold zlen in Hke; lia).
    assert (buf2 = po_buf po) as Hb2.
    { unfold buf2. rewrite Hnil, zlen_nil, Z.add_0_r. simpl. unfold xqc_vint_write, wr at 2. simpl.
      apply wr_same. rewrite stream_bytes_pre in Hb. apply bytes_at_app in Hb as [_ Hb].
      apply bytes_at_app in Hb as [Hb _]. rewrite zlen_stream_pre in Hb.
      by replace (t + stream_hdr sid off - 2) with (t + (stream_hdr sid off - 2)) by lia. }
    rewrite Hb2. unfold f. rewrite Hke, Hk, Ez, u32_small by lia. done.
  - fold e. unfold buf2. rewrite Hke, u32_small by (unfold k; lia).
    replace (if k =? zlen payload then fin else false) with f
      by (unfold f; destruct fin, (k =? zlen payload); done).
    by destruct f.
Qed.

Lemma stream_append_tail po sid off d fin payload n w po' :
  tail_frame po sid off d false ->
  xqc_gen_stream_frame po sid (off + zlen d) fin payload = (Ok n, w, po') ->
  po_buf_size po <= zlen (po_buf po) -> 0 <= po_reserved_size po -> po_buf_size po < 16384 ->
  po_used_size po <= po_buf_size po -> 0 <= xqc_get_po_remained_size po ->
  off + zlen d + zlen payload < 2 ^ 62 ->
  w = Z.min (zlen payload) (xqc_get_po_remained_size po)
  /\ tail_frame (po_advance po' n) sid off (d ++ take (Z.to_nat w) payload)
       (fin && (w =? zlen payload)).
Proof.
  intros Ht Hg Hz Hres Hsz Hub Hr Ho. pose proof (tail_can_combine _ _ _ _ Ht) as Hc.
  pose proof (po_remained_le po Hres) as Hrem. pose proof (zlen_nonneg payload).
  pose proof (zlen_nonneg d).
  destruct (gen_stream_append_ok po sid off d fin payload Ht Hsz Hres Hr) as [Hke Hga].
  destruct Ht as [Hidx Hfr Hty Hst (He & Hb & Hu) Hl Hoff].
  set (t := ps_type_offset _) in *.
  unfold xqc_gen_stream_frame in Hg. rewrite Hc, Hga in Hg.
  destruct (_ <=? _) eqn:E; [zb|]. clear E. injection Hg as <- <- <-.
  set (k := Z.min (zlen payload) (xqc_get_po_remained_size po)) in *.
  set (e := take (Z.to_nat k) payload) in *. set (f := fin && _) in *. split; [done|].
  assert (k <= xqc_get_po_remained_size po /\ k <= zlen payload) as Hk by (unfold k; lia).
  pose proof (append_bytes (po_buf po) t sid off d e f Hb) as Hab.
  rewrite <- Hu in Hab. specialize (Hab ltac:(lia)). cbv zeta in Hab.
  rewrite zlen_stream_bytes in Hu.
  set (pa := po_advance _ _).
  assert (po_sf pa (po_stream_frames_idx pa - 1)
      = mk_psf sid off (zlen (d ++ e)) t (t + stream_hdr sid off - 2) true f) as Hsf.
  { apply (po_sf_set po). unfold XQC_MAX_STREAM_FRAME_IN_PO in *. lia. }
  split; cbv zeta; rewrite ?Hsf; cbn [ps_type_offset]; try done.
  - simpl. by rewrite length_insert.
  - split_and!; [done|exact Hab|]. rewrite zlen_stream_bytes, zlen_app. simpl. lia.
  - rewrite zlen_app. unfold stream_hdr in Hu. pose proof (vlen_range sid).
    pose proof (vlen_range off). destruct (off =? 0); lia.
  - rewrite zlen_app. lia.
Qed.

(** ** Writing pieces of a stream one after the other *)

(** [xqc_write_stream_frame_to_packet] for each piece, all in one packet, FIN with the last:
    each write starts at the offset the previous one left, and the packet grows by what the
    generator returned. [None]: a piece did not fit as a whole. *)
Fixpoint stream_writes (po : xqc_packet_out_t) (stream_id offset : Z) (pieces : list (list Z))
    (fin : bool) : option xqc_packet_out_t :=
  match pieces with
  | [] => Some po
  | d :: ds =>
      let last := match ds with [] => true | _ => false end in
      match xqc_gen_stream_frame po stream_id offset (fin && last) d with
      | (Ok n, w, po') =>
          if w =? zlen d then stream_writes (po_advance po' n) stream_id (offset + w) ds fin
          else None
      | _ => None
      end
  end.

(** A packet buffer the generator can write to. *)
Record po_ok (po : xqc_packet_out_t) : Prop := {
  pk_used : 0 <= po_used_size po <= po_buf_size po;
  pk_reserved : 0 <= po_reserved_size po;
  pk_size : po_buf_size po <= zlen (po_buf po);
  pk_limit : po_buf_size po < 16384;
  pk_bytes : bytes_ok (po_buf po);
}.

Lemma po_remained_nonneg po : po_ok po -> 0 <= xqc_get_po_remained_size po.
Proof. intros []. unfold xqc_get_po_remained_size. case_if; [done|]. zify_bools. lia. Qed.

Lemma bytes_ok_take (l : list Z) n : bytes_ok l -> bytes_ok (take n l).
Proof. apply Forall_take. Qed.

Lemma bytes_ok_vint_write buf p v t n : bytes_ok buf -> bytes_ok (xqc_vint_write buf p v t n).
Proof. intros H. unfold xqc_vint_write. apply bytes_ok_wr; [done|apply vint_bytes_ok]. Qed.

Lemma bytes_ok_stream_bytes sid off d f : bytes_ok d -> bytes_ok (stream_bytes sid off d f).
Proof.
  intros Hd. unfold stream_bytes, off_bytes. apply bytes_ok_cons. split.
  - unfold stream_type, is_byte. destruct (off =? 0), f; lia.
  - rewrite !bytes_ok_app. split_and!; [apply enc_vint_ok| |apply vint_bytes_ok|done].
    case_if; [by constructor|apply enc_vint_ok].
Qed.

Lemma lor_1_byte b : is_byte b -> is_byte (b .| 0x01).
Proof.
  intros Hb. assert (Forall (fun q => is_byte (q .| 0x01)) (seqZ 0 256)) as Hall by by_decide.
  rewrite Forall_forall in Hall. apply Hall, elem_of_seqZ. unfold is_byte in Hb. lia.
Qed.

Lemma po_remained_max po :
  0 <= po_reserved_size po ->
  xqc_get_po_remained_size po = Z.max 0 (po_buf_size po - po_used_size po - po_reserved_size po).
Proof.
  intros. unfold xqc_get_po_remained_size.
  destruct (po_buf_size po <? po_used_size po) eqn:E1, (_ <? po_reserved_size po) eqn:E2;
    simpl; zify_bools; lia.
Qed.

Lemma po_advance_remained po n :
  0 <= po_reserved_size po -> 0 <= n <= xqc_get_po_remained_size po ->
  xqc_get_po_remained_size (po_advance po n) = xqc_get_po_remained_size po - n.
Proof. intros Hr. rewrite !po_remained_max by done. simpl. lia. Qed.

Lemma stream_append_step po sid off d fin payload :
  tail_frame po sid off d false -> po_ok po -> bytes_ok payload ->
  off + zlen d + zlen payload < 2 ^ 62 -> zlen payload <= xqc_get_po_remained_size po ->
  exists po', xqc_gen_stream_frame po sid (off + zlen d) fin payload
      = (Ok (zlen payload), zlen payload, po')
  /\ tail_frame (po_advance po' (zlen payload)) sid off (d ++ payload) fin
  /\ po_ok (po_advance po' (zlen payload))
  /\ po_used_size po' = po_used_size po /\ po_stream_frames_idx po' = po_stream_frames_idx po
  /\ agree (po_buf po) (po_buf po') 0 (ps_type_offset (po_sf po (po_stream_frames_idx po - 1)))
  /\ xqc_get_po_remained_size (po_advance po' (zlen payload))
     = xqc_get_po_remained_size po - zlen payload.
Proof.
  intros Ht Hpk Hb Ho Hfit. pose proof Hpk as [Hu Hres Hsz Hlim Hbuf].
  pose proof (po_remained_nonneg po Hpk) as Hr. pose proof (zlen_nonneg payload).
  pose proof (po_remained_le po Hres) as Hrem.
  destruct (xqc_gen_stream_frame po sid (off + zlen d) fin payload) as [[r w] po'] eqn:E.
  destruct (gen_stream_append_ok po sid off d fin payload Ht Hlim Hres Hr) as [Hke Hga].
  pose proof E as Eg. unfold xqc_gen_stream_frame in E.
  rewrite (tail_can_combine _ _ _ _ Ht), Hga in E.
  destruct (_ <=? _) eqn:E1; [destruct Ht; zb|]. injection E as <- <- <-.
  destruct (stream_append_tail _ _ _ _ _ _ _ _ _ Ht Eg) as [_ Htail]; try done; try lia.
  revert Htail Hke Eg. rewrite !Z.min_l, !Z.eqb_refl, !andb_true_r by lia.
  replace (take (Z.to_nat (zlen payload)) payload) with payload
    by (unfold zlen; by rewrite Nat2Z.id, firstn_all).
  intros Htail Hke Eg. eexists. split; [reflexivity|]. split; [done|].
  assert (forall fin buf, bytes_ok buf -> bytes_ok (if fin : bool then wr buf
    (ps_type_offset (po_sf po (po_stream_frames_idx po - 1)))
    [rd buf (ps_type_offset (po_sf po (po_stream_frames_idx po - 1))) .| 0x01] else buf)) as Hbf.
  { intros [] buf Hbb; [|done]. apply bytes_ok_wr; [done|]. apply bytes_ok_cons.
    split; [by apply lor_1_byte, rd_is_byte|constructor]. }
  assert (ps_type_offset (po_sf po (po_stream_frames_idx po - 1)) <= po_used_size po
    /\ 2 < stream_hdr sid off) as [Htu Hh].
  { unfold stream_hdr. pose proof (vlen_range sid). pose proof (vlen_range off).
    pose proof (zlen_nonneg d). destruct Ht as [_ _ _ _ (_ & _ & ->) _ _].
    rewrite zlen_stream_bytes. unfold stream_hdr. destruct (off =? 0); lia. }
  split_and!; [|done|done| |by apply (po_advance_remained po)].
  2: { simpl. destruct fin; unfold xqc_vint_write; repeat apply agree_wr; done || lia. }
  split; simpl; [lia|done| |done|].
  - destruct fin; unfold xqc_vint_write; rewrite ?zlen_wr; lia.
  - apply Hbf, bytes_ok_vint_write, bytes_ok_wr; done.
Qed.

(** The first write opens the frame. *)
Lemma stream_new_step po sid off fin payload :
  po_ok po -> bytes_ok payload -> payload <> [] -> can_combine po sid off = false ->
  0 <= po_stream_frames_idx po < XQC_MAX_STREAM_FRAME_IN_PO - 1 ->
  length (po_stream_frames po) = 3%nat ->
  po_frame_types po = 0 \/ po_frame_types po = XQC_FRAME_BIT_STREAM ->
  0 <= off -> off + zlen payload < 2 ^ 62 ->
  stream_hdr sid off + zlen payload <= xqc_get_po_remained_size po ->
  let n := stream_hdr sid off + zlen payload in
  exists po', xqc_gen_stream_frame po sid off fin payload = (Ok n, zlen payload, po')
  /\ tail_frame (po_advance po' n) sid off payload fin
  /\ po_ok (po_advance po' n)
  /\ po_used_size po' = po_used_size po
  /\ po_stream_frames_idx po' = po_stream_frames_idx po + 1
  /\ agree (po_buf po) (po_buf po') 0 (po_used_size po)
  /\ xqc_get_po_remained_size (po_advance po' n) = xqc_get_po_remained_size po - n.
Proof.
  intros Hpk Hb Hne Hc Hidx Hfr Hty Ho Hop Hfit n. pose proof Hpk as [Hu Hres Hsz Hlim Hbuf].
  pose proof (po_remained_le po Hres) as Hrem.
  assert (0 < zlen payload) as Hp by (destruct payload; [done|unfold zlen; simpl; lia]).
  assert (2 < stream_hdr sid off) as Hh.
  { unfold stream_hdr. pose proof (vlen_range sid). pose proof (vlen_range off). case_if; lia. }
  assert (fin && (zlen payload =? 0) = false) as Hfo
    by (apply andb_false_iff; right; apply Z.eqb_neq; lia).
  unfold xqc_gen_stream_frame. rewrite Hc.
  destruct (_ <=? po_stream_frames_idx po) eqn:E; [zb|]. clear E.
  destruct (gen_stream_new po sid off fin payload) as [[r w] po'] eqn:Eg.
  pose proof Eg as Eg'. rewrite gen_stream_new_ok in Eg' by (done || lia). cbv zeta in Eg'.
  rewrite Z.min_l, Z.eqb_refl, andb_true_r in Eg' by lia.
  replace (take (Z.to_nat (zlen payload)) payload) with payload in Eg'
    by (unfold zlen; by rewrite Nat2Z.id, firstn_all).
  rewrite zlen_stream_bytes in Eg'. fold n in Eg'. injection Eg' as <- <- <-.
  destruct (stream_new_tail _ _ _ _ _ _ _ _ Eg) as [_ Htail]; try done; try lia.
  rewrite Z.eqb_refl, andb_true_r in Htail.
  replace (take (Z.to_nat (zlen payload)) payload) with payload in Htail
    by (unfold zlen; by rewrite Nat2Z.id, firstn_all).
  eexists. split_and!; [reflexivity|done| |done|done| |apply (po_advance_remained po); lia].
  - split; simpl; [lia|done|by rewrite zlen_wr|done|].
    apply bytes_ok_wr; [done|by apply bytes_ok_stream_bytes].
  - simpl. apply agree_wr; [intros i; done|lia|lia].
Qed.

Lemma tail_start po sid off d fin :
  tail_frame po sid off d fin ->
  ps_type_offset (po_sf po (po_stream_frames_idx po - 1))
  = po_used_size po - stream_hdr sid off - zlen d.
Proof. intros [_ _ _ _ (_ & _ & ->) _ _]. rewrite zlen_stream_bytes. lia. Qed.

Lemma stream_writes_tail pieces : forall po sid off d fin,
  pieces <> [] -> tail_frame po sid off d false -> po_ok po -> bytes_ok (concat pieces) ->
  off + zlen d + zlen (concat pieces) < 2 ^ 62 ->
  zlen (concat pieces) <= xqc_get_po_remained_size po ->
  exists po', stream_writes po sid (off + zlen d) pieces fin = Some po'
  /\ tail_frame po' sid off (d ++ concat pieces) fin /\ po_ok po'
  /\ po_used_size po' = po_used_size po + zlen (concat pieces)
  /\ po_stream_frames_idx po' = po_stream_frames_idx po
  /\ agree (po_buf po) (po_buf po') 0 (ps_type_offset (po_sf po (po_stream_frames_idx po - 1))).
Proof.
  induction pieces as [|e ds IH]; intros po sid off d fin Hne Ht Hpk Hb Ho Hfit; [done|].
  cbn [concat] in *. rewrite zlen_app in *. apply bytes_ok_app in Hb as [He Hb].
  pose proof (zlen_nonneg e). pose proof (zlen_nonneg (concat ds)).
  destruct (stream_append_step po sid off d (fin && match ds with [] => true | _ => false end) e)
    as (po1 & E & Ht1 & Hpk1 & Hu1 & Hi1 & Ha1 & Hr1); [done..|lia|lia|].
  cbn [stream_writes]. rewrite E, Z.eqb_refl. destruct ds as [|e2 ds].
  - simpl in *. rewrite andb_true_r in Ht1. rewrite app_nil_r, zlen_nil.
    eexists. split_and!; [done|done|done|simpl; lia|done|done].
  - rewrite andb_false_r in *. replace (off + zlen d + zlen e) with (off + zlen (d ++ e))
      by (rewrite zlen_app; lia).
    edestruct (IH (po_advance po1 (zlen e)) sid off (d ++ e) fin)
      as (po2 & E2 & Ht2 & Hpk2 & Hu2 & Hi2 & Ha2); [done..|rewrite zlen_app; lia|lia|].
    rewrite (tail_start _ _ _ _ _ Ht1) in Ha2. rewrite (tail_start _ _ _ _ _ Ht) in Ha1 |- *.
    exists po2. simpl in *. rewrite <- app_assoc in Ht2.
    split_and!; [done|done|done|lia|congruence|].
    eapply agree_trans; [done|]. rewrite Hu1, zlen_app in Ha2.
    intros i Hi. apply Ha2. lia.
Qed.

(** Reading the frame the packet ends with. *)
Lemma tail_parse po sid off d fin c last :
  tail_frame po sid off d fin -> po_ok po -> xqc_stream_is_send_only (conn_type c) sid = false ->
  vint_ok sid -> d <> [] -> po_used_size po <= last <= zlen (po_buf po) ->
  run (xqc_parse_stream_frame true)
    (mk_pi (po_buf po) (po_used_size po - stream_hdr sid off - zlen d) last 0 2) c
  = (Ok (mk_sf (Some d) (zlen d) off fin, sid),
     mk_pi (po_buf po) (po_used_size po) last XQC_FRAME_BIT_STREAM 2, c).
Proof.
  intros Ht [] Hso Hs Hd Hlast. pose proof (tail_start _ _ _ _ _ Ht) as Hst.
  destruct Ht as [_ _ _ Hst0 (_ & Hb & Hu) Hl Ho]. rewrite Hst in *.
  pose proof (zlen_nonneg d).
  rewrite (parses_run _ (stream_bytes sid off d fin)
    (mk_sf (if 0 <? zlen d then Some d else None) (zlen d) off fin, sid) XQC_FRAME_BIT_STREAM);
    simpl; try done; try lia.
  - rewrite <- Hu. destruct (0 <? zlen d) eqn:E; [done|]. zify_bools.
    destruct d; [done|]. unfold zlen in E. simpl in E. lia.
  - apply parse_stream_ok; [done..| | |]; unfold vint_ok, XQC_VINT_MAX; eval_pow; lia.
Qed.

(** C24: pieces of a stream written one after the other into a packet of STREAM frames, when
    together they fit, become ONE frame: the first write opens it and the others extend it in
    place. The receiver reads it back as the concatenation of the pieces at the offset of the
    first, with FIN exactly when the last write had it, and what was in the packet before
    stays as it was. *)
Theorem stream_pieces_roundtrip po sid off d ds (fin : bool) c :
  po_ok po -> bytes_ok (concat (d :: ds)) -> d <> [] -> can_combine po sid off = false ->
  0 <= po_stream_frames_idx po < XQC_MAX_STREAM_FRAME_IN_PO - 1 ->
  length (po_stream_frames po) = 3%nat ->
  po_frame_types po = 0 \/ po_frame_types po = XQC_FRAME_BIT_STREAM ->
  xqc_stream_is_send_only (conn_type c) sid = false -> vint_ok sid ->
  0 <= off -> off + zlen (concat (d :: ds)) < 2 ^ 62 ->
  stream_hdr sid off + zlen (concat (d :: ds)) <= xqc_get_po_remained_size po ->
  let data := concat (d :: ds) in
  exists po', stream_writes po sid off (d :: ds) fin = Some po'
  /\ po_used_size po' = po_used_size po + stream_hdr sid off + zlen data
  /\ po_stream_frames_idx po' = po_stream_frames_idx po + 1
  /\ agree (po_buf po) (po_buf po') 0 (po_used_size po)
  /\ forall last, po_used_size po' <= last <= zlen (po_buf po') ->
     run (xqc_parse_stream_frame true) (mk_pi (po_buf po') (po_used_size po) last 0 2) c
     = (Ok (mk_sf (Some data) (zlen data) off fin, sid),
        mk_pi (po_buf po') (po_used_size po') last XQC_FRAME_BIT_STREAM 2, c).
Proof.
  intros Hpk Hb Hne Hc Hidx Hfr Hty Hso Hs Ho Hop Hfit data. cbn [concat] in Hb, Hop, Hfit.
  rewrite zlen_app in *. apply bytes_ok_app in Hb as [Hd Hb].
  pose proof (zlen_nonneg (concat ds)).
  destruct (stream_new_step po sid off (fin && match ds with [] => true | _ => false end) d)
    as (po1 & E & Ht1 & Hpk1 & Hu1 & Hi1 & Ha1 & Hr1); [done..|lia|lia|].
  assert (exists po', stream_writes po sid off (d :: ds) fin = Some po'
    /\ tail_frame po' sid off data fin /\ po_ok po'
    /\ po_used_size po' = po_used_size po + stream_hdr sid off + zlen data
    /\ po_stream_frames_idx po' = po_stream_frames_idx po + 1
    /\ agree (po_buf po) (po_buf po') 0 (po_used_size po))
    as (po' & Hw & Ht' & Hpk' & Hu' & Hi' & Ha').
  - cbn [stream_writes]. rewrite E, Z.eqb_refl. unfold data. cbn [concat]. rewrite zlen_app.
    destruct ds as [|e ds].
    + rewrite andb_true_r in Ht1. simpl. rewrite app_nil_r, zlen_nil. eexists.
      split_and!; [done|done|done|simpl; lia|done|done].
    + rewrite andb_false_r in Ht1. edestruct (stream_writes_tail (e :: ds))
        as (po2 & E2 & Ht2 & Hpk2 & Hu2 & Hi2 & Ha2); [done|exact Ht1|done|done|lia|lia|].
      exists po2. split_and!; [exact E2|done|done|simpl in *; lia|simpl in *; congruence|].
      rewrite (tail_start _ _ _ _ _ Ht1) in Ha2. simpl in Ha2. eapply agree_trans; [done|].
      intros i Hi. apply Ha2. lia.
  - exists po'. split_and!; [done..|]. intros last Hlast.
    replace (po_used_size po) with (po_used_size po' - stream_hdr sid off - zlen data) by lia.
    apply tail_parse; try done. unfold data. simpl. by destruct d.
Qed.

#[export] Instance po_ok_dec po : Decision (po_ok po).
Proof.
  destruct (decide (0 <= po_used_size po <= po_buf_size po /\ 0 <= po_reserved_size po
    /\ po_buf_size po <= zlen (po_buf po) /\ po_buf_size po < 16384 /\ bytes_ok (po_buf po)))
    as [H|H]; [left|right].
  - destruct H as (? & ? & ? & ? & ?). by split.
  - intros []. by apply H.
Defined.

Lemma stream_pieces_roundtrip_witness :
  let po := mk_po (replicate 40 0) 36 4 2 0 0 0 [psf_zero; psf_zero; psf_zero] 0 0 None 0 in
  let c := mk_conn XQC_CONN_TYPE_CLIENT 0 XQC_CONN_ERR_TYPE_UNKNOWN 0 0 3 false false in
  exists po', stream_writes po 4 1000 [[1; 2; 3]; []; [4; 5]; [6]] true = Some po'
  /\ po_used_size po' = 4 + stream_hdr 4 1000 + 6
  /\ po_stream_frames_idx po' = 0 + 1
  /\ agree (po_buf po) (po_buf po') 0 4
  /\ forall last, po_used_size po' <= last <= zlen (po_buf po') ->
     run (xqc_parse_stream_frame true) (mk_pi (po_buf po') 4 last 0 2) c
     = (Ok (mk_sf (Some [1; 2; 3; 4; 5; 6]) 6 1000 true, 4),
        mk_pi (po_buf po') (po_used_size po') last XQC_FRAME_BIT_STREAM 2, c).
Proof.
  intros po c. apply (stream_pieces_roundtrip po 4 1000 [1; 2; 3] [[]; [4; 5]; [6]] true c);
    by_decide.
Defined.

(** A STREAM write that opens a frame takes as much of the data as the room behind the
    header holds, and reports how much; the receiver reads exactly that prefix, and FIN only
    when the whole of the data went in. *)
Theorem stream_truncate_roundtrip po sid off payload (fin : bool) c :
  po_ok po -> bytes_ok payload -> payload <> [] -> can_combine po sid off = false ->
  0 <= po_stream_frames_idx po < XQC_MAX_STREAM_FRAME_IN_PO ->
  xqc_stream_is_send_only (conn_type c) sid = false -> vint_ok sid ->
  0 <= off -> off + zlen payload < 2 ^ 62 ->
  stream_hdr sid off < xqc_get_po_remained_size po ->
  let w := Z.min (zlen payload) (xqc_get_po_remained_size po - stream_hdr sid off) in
  exists n po', xqc_gen_stream_frame po sid off fin payload = (Ok n, w, po')
  /\ n <= xqc_get_po_remained_size po
  /\ forall last, po_used_size po + n <= last <= zlen (po_buf po) ->
     run (xqc_parse_stream_frame true) (mk_pi (po_buf po') (po_used_size po) last 0 2) c
     = (Ok (mk_sf (Some (take (Z.to_nat w) payload)) w off (fin && (w =? zlen payload)), sid),
        mk_pi (po_buf po') (po_used_size po + n) last XQC_FRAME_BIT_STREAM 2, c).
Proof.
  intros [Hu Hres Hsz Hlim Hbuf] Hb Hne Hc Hidx Hso Hs Ho Hop Hroom w.
  pose proof (po_remained_le po Hres) as Hrem.
  assert (0 < zlen payload) as Hp by (destruct payload; [done|unfold zlen; simpl; lia]).
  assert (2 < stream_hdr sid off) as Hh.
  { unfold stream_hdr. pose proof (vlen_range sid). pose proof (vlen_range off). case_if; lia. }
  unfold xqc_gen_stream_frame. rewrite Hc. destruct (_ <=? po_stream_frames_idx po) eqn:E; [zb|].
  assert (fin && (zlen payload =? 0) = false) as Hfo
    by (apply andb_false_iff; right; apply Z.eqb_neq; lia).
  rewrite gen_stream_new_ok by (done || lia). cbv zeta. fold w.
  set (d := take (Z.to_nat w) payload). set (f := fin && (w =? zlen payload)).
  assert (zlen d = w) as Hd by (unfold d, w, zlen in *; rewrite length_take; lia).
  eexists _, _. split; [done|]. rewrite zlen_stream_bytes.
  split; [unfold w in *; lia|]. intros last Hlast.
  rewrite (parses_run _ (stream_bytes sid off d f)
    (mk_sf (if 0 <? zlen d then Some d else None) (zlen d) off f, sid) XQC_FRAME_BIT_STREAM);
    simpl; rewrite ?zlen_wr, ?zlen_stream_bytes; try done; try (unfold w in *; lia).
  - rewrite Hd. destruct (0 <? w) eqn:E2; [done|]. unfold w in *. zb.
  - apply parse_stream_ok; [done..| | |]; unfold vint_ok, XQC_VINT_MAX; unfold w in *; eval_pow; lia.
  - apply bytes_ok_wr; [done|]. by apply bytes_ok_stream_bytes, bytes_ok_take.
  - apply bytes_at_wr; [lia|]. rewrite zlen_stream_bytes. unfold w in *. lia.
Qed.

Lemma stream_truncate_roundtrip_witness :
  let po := mk_po (replicate 40 0) 16 4 0 0 0 0 [psf_zero; psf_zero; psf_zero] 2 0 None 0 in
  let c := mk_conn XQC_CONN_TYPE_CLIENT 0 XQC_CONN_ERR_TYPE_UNKNOWN 0 0 3 false false in
  exists n po', xqc_gen_stream_frame po 4 0 true (replicate 100 7) = (Ok n, 8, po')
  /\ n <= 12
  /\ forall last, 4 + n <= last <= zlen (po_buf po) ->
     run (xqc_parse_stream_frame true) (mk_pi (po_buf po') 4 last 0 2) c
     = (Ok (mk_sf (Some (replicate 8 7)) 8 0 false, 4),
        mk_pi (po_buf po') (4 + n) last XQC_FRAME_BIT_STREAM 2, c).
Proof.
  intros po c. apply (stream_truncate_roundtrip po 4 0 (replicate 100 7) true c); by_decide.
Defined.

(** ** DATAGRAM frames *)

Definition datagram_bytes (d : list Z) : list Z := 0x31 :: xqc_vint_bytes (zlen d) 1 2 ++ d.

Lemma zlen_datagram_bytes d : zlen (datagram_bytes d) = 3 + zlen d.
Proof. unfold datagram_bytes. rewrite zlen_cons, zlen_app, zlen_vint_bytes_2. lia. Qed.

Lemma gen_datagram_ok po d :
  po_ok po -> 3 + zlen d <= xqc_get_po_remained_size po ->
  exists po', xqc_gen_datagram_frame po d = (Ok 0, po')
  /\ po_buf po' = wr (po_buf po) (po_used_size po) (datagram_bytes d)
  /\ po_used_size po' = po_used_size po + 3 + zlen d
  /\ po_dgram_payload_size po' = po_dgram_payload_size po + zlen d.
Proof.
  intros [Hu Hres Hsz Hlim Hbuf] Hroom. pose proof (po_remained_le po Hres).
  pose proof (zlen_nonneg d). unfold xqc_gen_datagram_frame, XQC_DATAGRAM_LENGTH_FIELD_BYTES.
  cbv zeta. destruct (_ <? _) eqn:E; [zb|]. eexists. split; [done|].
  cbn [po_buf po_used_size po_dgram_payload_size]. split_and!; [|lia|done].
  change (2 - 1) with 1. unfold xqc_vint_write.
  assert ((if 0 <? zlen d
    then wr (wr (po_buf po) (po_used_size po + 1) (xqc_vint_bytes (zlen d) 1 2))
           (po_used_size po + 1 + 2) d
    else wr (po_buf po) (po_used_size po + 1) (xqc_vint_bytes (zlen d) 1 2))
    = wr (po_buf po) (po_used_size po + 1) (xqc_vint_bytes (zlen d) 1 2 ++ d)) as ->.
  { rewrite <- wr_app, zlen_vint_bytes_2 by lia. destruct (0 <? zlen d) eqn:E2; [done|].
    zify_bools. destruct d; [done|]. rewrite zlen_cons in *. pose proof (zlen_nonneg d). lia. }
  apply wr_hd_last. lia.
Qed.

(** The value [*buffer] is a position: the datagram starts behind type and length. *)
Lemma parse_datagram_run c d pi :
  zlen d < 16384 -> zlen d + 3 <= max_datagram_frame_size c ->
  bytes_ok (pi_buf pi) -> pi_last pi <= zlen (pi_buf pi) ->
  bytes_at (pi_buf pi) (pi_pos pi) (datagram_bytes d) ->
  pi_pos pi + 3 + zlen d <= pi_last pi ->
  run xqc_parse_datagram_frame pi c
  = (Ok (pi_pos pi + 3, zlen d),
     mk_pi (pi_buf pi) (pi_pos pi + 3 + zlen d) (pi_last pi)
       (pi_frame_types pi .| XQC_FRAME_BIT_DATAGRAM) (pi_pkt_pns pi), c).
Proof.
  intros Hd Hm Hb Hl Ha Hf. pose proof (zlen_nonneg d). unfold datagram_bytes in Ha.
  apply bytes_at_cons in Ha as [Ht Ha]. apply bytes_at_app in Ha as [Hv Ha].
  pose proof (bytes_at_nonneg _ _ _ Ht).
  unfold run, xqc_parse_datagram_frame, mbind, parser_bind, p_byte, p_left, p_vint. simpl.
  rewrite (bytes_at_rd _ _ _ _ Ht). simpl.
  rewrite (vint_read_at _ _ _ (zlen d) 1)
    by (done || (apply vint_fits_2; lia) || (change (xqc_vint_len 1) with 2; lia)). simpl.
  unfold p_check, p_conn, p_fail, p_skip, p_commit. simpl. change (xqc_vint_len 1) with 2.
  destruct (_ <? zlen d) eqn:E; [zb|]. simpl.
  destruct (max_datagram_frame_size c <? _) eqn:E2; [zb|]. simpl.
  by replace (pi_pos pi + 1 + 2) with (pi_pos pi + 3) by lia.
Qed.

(** A DATAGRAM that fits into the packet reaches the receiver whole: the receiver gets
    the position of the payload in the packet, where the bytes of the datagram are, and its
    size, provided its frame is not larger than the limit the receiver advertised. *)
Theorem datagram_roundtrip po d c :
  po_ok po -> bytes_ok d -> 3 + zlen d <= xqc_get_po_remained_size po ->
  3 + zlen d <= max_datagram_frame_size c ->
  exists po', xqc_gen_datagram_frame po d = (Ok 0, po')
  /\ forall last, po_used_size po' <= last <= zlen (po_buf po') ->
     exists p, run xqc_parse_datagram_frame (mk_pi (po_buf po') (po_used_size po) last 0 2) c
       = (Ok (p, zlen d), mk_pi (po_buf po') (po_used_size po') last XQC_FRAME_BIT_DATAGRAM 2, c)
     /\ sub_bytes (po_buf po') p (zlen d) = d.
Proof.
  intros Hpk Hd Hroom Hmax. destruct (gen_datagram_ok po d Hpk Hroom) as (po' & E & Eb & Eu & _).
  destruct Hpk as [Hu Hres Hsz Hlim Hbuf]. pose proof (po_remained_le po Hres).
  pose proof (zlen_nonneg d). exists po'. split; [done|]. rewrite Eb, Eu, zlen_wr.
  intros last Hlast.
  assert (bytes_at (wr (po_buf po) (po_used_size po) (datagram_bytes d)) (po_used_size po)
    (datagram_bytes d)) as Hat by (apply bytes_at_wr; [lia|rewrite zlen_datagram_bytes; lia]).
  exists (po_used_size po + 3). split.
  - rewrite (parse_datagram_run c d); simpl; rewrite ?zlen_wr; try done; try lia.
    apply bytes_ok_wr; [done|]. unfold datagram_bytes. apply bytes_ok_cons. split; [done|].
    apply bytes_ok_app. split; [apply vint_bytes_ok|done].
  - unfold datagram_bytes in Hat. apply bytes_at_cons in Hat as [_ Hat].
    apply bytes_at_app in Hat as [_ [_ Hat]]. rewrite zlen_vint_bytes_2 in Hat.
    by replace (po_used_size po + 1 + 2) with (po_used_size po + 3) in Hat by lia.
Qed.

Lemma datagram_roundtrip_witness :
  let po := mk_po (replicate 20 0) 16 4 0 0 0 0 [] 0 0 None 0 in
  let c := mk_conn XQC_CONN_TYPE_CLIENT 0 XQC_CONN_ERR_TYPE_UNKNOWN 0 1200 3 false false in
  exists po', xqc_gen_datagram_frame po [9; 8; 7] = (Ok 0, po')
  /\ forall last, po_used_size po' <= last <= zlen (po_buf po') ->
     exists p, run xqc_parse_datagram_frame (mk_pi (po_buf po') 4 last 0 2) c
       = (Ok (p, 3), mk_pi (po_buf po') (po_used_size po') last XQC_FRAME_BIT_DATAGRAM 2, c)
     /\ sub_bytes (po_buf po') p 3 = [9; 8; 7].
Proof. intros po c. apply (datagram_roundtrip po [9; 8; 7] c); by_decide. Defined.

(** ** Header sizes, [src/transport/xqc_frame.c] *)

(** The conditional operator binds weaker than the additions around it: the C expression is
    [(1 + len(stream_id) + offset) ? len(offset) : (0 + len(length))]. *)
Definition xqc_stream_frame_header_size (stream_id offset length : Z) : Z :=
  if u64 (1 + vlen stream_id + offset) =? 0
  then 0 + vlen length
  else vlen offset.

Definition xqc_crypto_frame_header_size (offset length : Z) : Z :=
  1 + vlen offset + vlen length.

(** [xqc_stream_frame_header_size] is the length of the offset field alone, whatever the
    stream and the length are, and so less than the size of the header of every STREAM frame:
    type, stream id, offset unless it is 0, and length. *)
Theorem stream_frame_header_size_short sid off len :
  vint_ok sid -> vint_ok off -> vint_ok len ->
  xqc_stream_frame_header_size sid off len = vlen off
  /\ xqc_stream_frame_header_size sid off len
     < 1 + vlen sid + (if off =? 0 then 0 else vlen off) + vlen len.
Proof.
  intros Hs Ho Hl. unfold vint_ok, XQC_VINT_MAX, xqc_stream_frame_header_size in *.
  pose proof (vlen_range sid). pose proof (vlen_range off). pose proof (vlen_range len).
  rewrite u64_small by (eval_pow; lia). destruct (_ =? 0) eqn:E; [zb|].
  split; [done|]. destruct (off =? 0) eqn:E2; [|lia].
  zify_bools. subst off. change (vlen 0) with 1. lia.
Qed.

Lemma stream_frame_header_size_short_witness :
  xqc_stream_frame_header_size 1000 100000 10 = 4
  /\ xqc_stream_frame_header_size 1000 100000 10 < 1 + vlen 1000 + 4 + vlen 10.
Proof. apply (stream_frame_header_size_short 1000 100000 10); by_decide. Defined.

End StreamFrame.
