(* ===== verification/MpFrames.v ===== *)
(** The multipath frames of [src/transport/xqc_frame_parser.c], in both negotiated versions
    (draft-10 and draft-21 code points), and the dispatch on code point and version of
    [src/transport/xqc_frame.c]. ACK_MP is in AckFrame. *)

From stdpp Require Import base numbers list.
From S2P Require Import Prelude VInt RecvRecord PacketBuf Frames FrameSpec AckFrame.
Import RecvRecord.RecvRecord.
Import Frames FrameSpec AckFrame.

Module MpFrames.

(** ** Constants *)

Definition XQC_EMP_PATH_STATE_ERROR : Z := 654.

Definition XQC_TRANS_FRAME_TYPE_MP_ACK1 : Z := 0x15228c01.
Definition XQC_TRANS_FRAME_TYPE_MP_ABANDON : Z := 0x15228c05.
Definition XQC_TRANS_FRAME_TYPE_MP_STANDBY : Z := 0x15228c07.
Definition XQC_TRANS_FRAME_TYPE_MP_AVAILABLE : Z := 0x15228c08.
Definition XQC_TRANS_FRAME_TYPE_MP_NEW_CONN_ID : Z := 0x15228c09.
Definition XQC_TRANS_FRAME_TYPE_MP_RETIRE_CONN_ID : Z := 0x15228c0a.
Definition XQC_TRANS_FRAME_TYPE_MAX_PATH_ID : Z := 0x15228c0c.
Definition XQC_TRANS_FRAME_TYPE_MP_FROZEN : Z := 0x15228cff.
Definition XQC_TRANS_FRAME_TYPE_PATH_ACK_ECN : Z := 0x3f.
Definition XQC_TRANS_FRAME_TYPE_PATH_ABANDON_V21 : Z := 0x3e75.
Definition XQC_TRANS_FRAME_TYPE_PATH_STATUS_BACKUP : Z := 0x3e76.
Definition XQC_TRANS_FRAME_TYPE_PATH_STATUS_AVAILABLE_V21 : Z := 0x3e77.
Definition XQC_TRANS_FRAME_TYPE_PATH_NEW_CONNECTION_ID_V21 : Z := 0x3e78.
Definition XQC_TRANS_FRAME_TYPE_PATH_RETIRE_CONNECTION_ID_V21 : Z := 0x3e79.
Definition XQC_TRANS_FRAME_TYPE_MAX_PATH_ID_V21 : Z := 0x3e7a.
Definition XQC_TRANS_FRAME_TYPE_PATHS_BLOCKED : Z := 0x3e7b.
Definition XQC_TRANS_FRAME_TYPE_PATH_CIDS_BLOCKED : Z := 0x3e7c.

Inductive xqc_app_path_status_t :=
| XQC_APP_PATH_STATUS_NONE
| XQC_APP_PATH_STATUS_STANDBY
| XQC_APP_PATH_STATUS_AVAILABLE
| XQC_APP_PATH_STATUS_FROZEN.

#[export] Instance path_status_eq_dec : EqDecision xqc_app_path_status_t.
Proof. solve_decision. Defined.

(** ** Generators *)

Definition xqc_gen_path_abandon_frame (conn : xqc_connection_t) (po : xqc_packet_out_t)
    (path_id error_code : Z) : res Z * xqc_packet_out_t :=
  let mp_version := multipath_version conn in
  match xqc_mp_select_codepoint mp_version XQC_TRANS_FRAME_TYPE_MP_ABANDON
          XQC_TRANS_FRAME_TYPE_PATH_ABANDON_V21 with
  | Err e => (Err e, po)
  | Ok frame_type =>
      let reason_len := 0 in
      let need := vlen frame_type + vlen path_id + vlen error_code
        + (if mp_version =? XQC_MULTIPATH_3E then 0 else vlen reason_len + reason_len) in
      if xqc_get_po_remained_size po <? need then (Err XQC_ENOBUF, po)
      else
        let c := w_vint (po_cursor po) frame_type in
        let c := w_vint c path_id in
        let c := w_vint c error_code in
        let c := if mp_version =? XQC_MULTIPATH_3E then c else w_vint c reason_len in
        gen_done po c XQC_FRAME_BIT_PATH_ABANDON
  end.

(** The code point and the frame bit of a status, per version. *)
Definition path_status_type (mp_version : Z) (status : xqc_app_path_status_t) : res (Z * Z) :=
  if mp_version =? XQC_MULTIPATH_3E then
    match status with
    | XQC_APP_PATH_STATUS_STANDBY =>
        Ok (XQC_TRANS_FRAME_TYPE_PATH_STATUS_BACKUP, XQC_FRAME_BIT_PATH_STANDBY)
    | XQC_APP_PATH_STATUS_AVAILABLE =>
        Ok (XQC_TRANS_FRAME_TYPE_PATH_STATUS_AVAILABLE_V21, XQC_FRAME_BIT_PATH_AVAILABLE)
    | _ => Err XQC_EMP_PATH_STATE_ERROR
    end
  else if mp_version =? XQC_MULTIPATH_10 then
    match status with
    | XQC_APP_PATH_STATUS_STANDBY =>
        Ok (XQC_TRANS_FRAME_TYPE_MP_STANDBY, XQC_FRAME_BIT_PATH_STANDBY)
    | XQC_APP_PATH_STATUS_AVAILABLE =>
        Ok (XQC_TRANS_FRAME_TYPE_MP_AVAILABLE, XQC_FRAME_BIT_PATH_AVAILABLE)
    | XQC_APP_PATH_STATUS_FROZEN =>
        Ok (XQC_TRANS_FRAME_TYPE_MP_FROZEN, XQC_FRAME_BIT_PATH_FROZEN)
    | _ => Err XQC_EMP_PATH_STATE_ERROR
    end
  else Err XQC_EMP_INVALID_MP_VERTION.

Definition xqc_gen_path_status_frame (conn : xqc_connection_t) (po : xqc_packet_out_t)
    (path_id path_status_seq_num : Z) (status : xqc_app_path_status_t)
    : res Z * xqc_packet_out_t :=
  match path_status_type (multipath_version conn) status with
  | Err e => (Err e, po)
  | Ok (frame_type, ft_flag) =>
      let need := vlen frame_type + vlen path_id + vlen path_status_seq_num in
      if xqc_get_po_remained_size po <? need then (Err XQC_ENOBUF, po)
      else
        let c := w_vint (po_cursor po) frame_type in
        let c := w_vint c path_id in
        let c := w_vint c path_status_seq_num in
        gen_done po c ft_flag
  end.

(** Nothing is checked against the room that is left; the length of the connection ID is
    checked after type and path id were written. *)
Definition xqc_gen_mp_new_conn_id_frame (conn : xqc_connection_t) (po : xqc_packet_out_t)
    (new_cid : xqc_cid_t) (retire_prior_to : Z) (token : option (list Z)) (path_id : Z)
    : res Z * xqc_packet_out_t :=
  match xqc_mp_select_codepoint (multipath_version conn) XQC_TRANS_FRAME_TYPE_MP_NEW_CONN_ID
          XQC_TRANS_FRAME_TYPE_PATH_NEW_CONNECTION_ID_V21 with
  | Err e => (Err e, po)
  | Ok frame_type =>
      let c := w_vint (po_cursor po) frame_type in
      let c := w_vint c path_id in
      if XQC_MAX_CID_LEN <? cid_len new_cid then (Err XQC_EPARAM, po_set_buf po (fst c))
      else
        let c := w_vint c (cid_seq_num new_cid) in
        let c := w_vint c retire_prior_to in
        let c := w_vint c (cid_len new_cid) in
        let c := w_cid c new_cid token in
        gen_done po c XQC_FRAME_BIT_MP_NEW_CONNECTION_ID
  end.

Definition xqc_gen_mp_retire_conn_id_frame (conn : xqc_connection_t) (po : xqc_packet_out_t)
    (seq_num path_id : Z) : res Z * xqc_packet_out_t :=
  match xqc_mp_select_codepoint (multipath_version conn) XQC_TRANS_FRAME_TYPE_MP_RETIRE_CONN_ID
          XQC_TRANS_FRAME_TYPE_PATH_RETIRE_CONNECTION_ID_V21 with
  | Err e => (Err e, po)
  | Ok frame_type =>
      let c := w_vint (po_cursor po) frame_type in
      let c := w_vint c path_id in
      let c := w_vint c seq_num in
      gen_done po c XQC_FRAME_BIT_MP_RETIRE_CONNECTION_ID
  end.

Definition xqc_gen_max_path_id_frame (conn : xqc_connection_t) (po : xqc_packet_out_t)
    (max_path_id : Z) : res Z * xqc_packet_out_t :=
  match xqc_mp_select_codepoint (multipath_version conn) XQC_TRANS_FRAME_TYPE_MAX_PATH_ID
          XQC_TRANS_FRAME_TYPE_MAX_PATH_ID_V21 with
  | Err e => (Err e, po)
  | Ok frame_type =>
      let c := w_vint (po_cursor po) frame_type in
      let c := w_vint c max_path_id in
      gen_done po c XQC_FRAME_BIT_MAX_PATH_ID
  end.

(** Writes at [p] of a raw buffer, of which [buf_len] bytes are left. *)
Definition xqc_gen_paths_blocked_frame (buf : list Z) (p buf_len max_path_id : Z)
    : res Z * list Z :=
  let frame_type := XQC_TRANS_FRAME_TYPE_PATHS_BLOCKED in
  if buf_len <? vlen frame_type + vlen max_path_id then (Err XQC_ENOBUF, buf)
  else
    let c := w_vint (buf, p) frame_type in
    let c := w_vint c max_path_id in
    (Ok (snd c - p), fst c).

(** The part of [xqc_write_paths_blocked_frame_to_packet] after the packet was made: all of
    the buffer counts as room, the reserved bytes too. *)
Definition xqc_write_paths_blocked_frame (po : xqc_packet_out_t) (max_path_id : Z)
    : res unit * xqc_packet_out_t :=
  match xqc_gen_paths_blocked_frame (po_buf po) (po_used_size po)
          (po_buf_size po - po_used_size po) max_path_id with
  | (Err e, buf) => (Err XQC_EWRITE_PKT, po_set_buf po buf)
  | (Ok n, buf) => (Ok tt, po_advance (po_wrote po buf XQC_FRAME_BIT_PATHS_BLOCKED) n)
  end.

(** ** Parsers *)

(** In draft-10, the reason phrase is skipped without looking at [end]. *)
Definition xqc_parse_path_abandon_frame (mp_version : Z) : parser (Z * Z) :=
  _ ← p_vint;
  path_id ← p_vint;
  error_code ← p_vint;
  (if mp_version =? XQC_MULTIPATH_3E then mret tt
   else reason_len ← p_vint; if 0 <? reason_len then p_skip reason_len else mret tt);;
  p_commit XQC_FRAME_BIT_PATH_ABANDON;;
  mret (path_id, error_code).

(** The [switch] on the frame type: the status, and its frame bit. *)
Definition path_status_of (frame_type : Z) : option (xqc_app_path_status_t * Z) :=
  if (frame_type =? XQC_TRANS_FRAME_TYPE_MP_STANDBY)
     || (frame_type =? XQC_TRANS_FRAME_TYPE_PATH_STATUS_BACKUP)
  then Some (XQC_APP_PATH_STATUS_STANDBY, XQC_FRAME_BIT_PATH_STANDBY)
  else if (frame_type =? XQC_TRANS_FRAME_TYPE_MP_AVAILABLE)
          || (frame_type =? XQC_TRANS_FRAME_TYPE_PATH_STATUS_AVAILABLE_V21)
  then Some (XQC_APP_PATH_STATUS_AVAILABLE, XQC_FRAME_BIT_PATH_AVAILABLE)
  else if frame_type =? XQC_TRANS_FRAME_TYPE_MP_FROZEN
  then Some (XQC_APP_PATH_STATUS_FROZEN, XQC_FRAME_BIT_PATH_FROZEN)
  else None.

Definition xqc_parse_path_status_frame : parser (Z * Z * xqc_app_path_status_t) :=
  frame_type ← p_vint;
  path_id ← p_vint;
  path_status_seq_num ← p_vint;
  match path_status_of frame_type with
  | Some (status, bit) => p_commit bit;; mret (path_id, path_status_seq_num, status)
  | None => p_set_pos;; p_fail XQC_EILLEGAL_FRAME
  end.

Definition xqc_parse_mp_new_conn_id_frame (new_cid : xqc_cid_t) : parser (xqc_cid_t * Z * Z) :=
  _ ← p_vint;
  path_id ← p_vint;
  seq_num ← p_vint;
  retire_prior_to ← p_vint;
  '(len, cid, token) ← p_cid new_cid;
  p_commit XQC_FRAME_BIT_MP_NEW_CONNECTION_ID;;
  mret (mk_cid len cid seq_num token path_id, retire_prior_to, path_id).

Definition xqc_parse_mp_retire_conn_id_frame : parser (Z * Z) :=
  _ ← p_vint;
  path_id ← p_vint;
  seq_num ← p_vint;
  p_commit XQC_FRAME_BIT_MP_RETIRE_CONNECTION_ID;;
  mret (seq_num, path_id).

Definition xqc_parse_max_path_id_frame : parser Z :=
  _ ← p_vint;
  max_path_id ← p_vint;
  p_commit XQC_FRAME_BIT_MAX_PATH_ID;;
  mret max_path_id.

Definition xqc_parse_paths_blocked_frame : parser Z :=
  _ ← p_vint;
  max_path_id ← p_vint;
  p_commit XQC_FRAME_BIT_PATHS_BLOCKED;;
  mret max_path_id.

Definition xqc_parse_path_cids_blocked_frame : parser (Z * Z) :=
  _ ← p_vint;
  path_id ← p_vint;
  next_seq ← p_vint;
  p_commit XQC_FRAME_BIT_PATH_CIDS_BLOCKED;;
  mret (path_id, next_seq).

(** ** Dispatch *)

(** The handlers the table names. *)
Inductive mp_handler :=
| H_ack_mp | H_path_ack_ecn | H_path_abandon | H_path_status | H_mp_new_conn_id
| H_mp_retire_conn_id | H_max_path_id | H_paths_blocked | H_path_cids_blocked.

Definition xqc_mp_frame_dispatch_table : list (Z * Z * mp_handler) :=
  [ (XQC_TRANS_FRAME_TYPE_MP_ACK0, XQC_MULTIPATH_10, H_ack_mp);
    (XQC_TRANS_FRAME_TYPE_MP_ACK1, XQC_MULTIPATH_10, H_ack_mp);
    (XQC_TRANS_FRAME_TYPE_MP_ABANDON, XQC_MULTIPATH_10, H_path_abandon);
    (XQC_TRANS_FRAME_TYPE_MP_STANDBY, XQC_MULTIPATH_10, H_path_status);
    (XQC_TRANS_FRAME_TYPE_MP_AVAILABLE, XQC_MULTIPATH_10, H_path_status);
    (XQC_TRANS_FRAME_TYPE_MP_NEW_CONN_ID, XQC_MULTIPATH_10, H_mp_new_conn_id);
    (XQC_TRANS_FRAME_TYPE_MP_RETIRE_CONN_ID, XQC_MULTIPATH_10, H_mp_retire_conn_id);
    (XQC_TRANS_FRAME_TYPE_MAX_PATH_ID, XQC_MULTIPATH_10, H_max_path_id);
    (XQC_TRANS_FRAME_TYPE_PATH_ACK, XQC_MULTIPATH_3E, H_ack_mp);
    (XQC_TRANS_FRAME_TYPE_PATH_ACK_ECN, XQC_MULTIPATH_3E, H_path_ack_ecn);
    (XQC_TRANS_FRAME_TYPE_PATH_ABANDON_V21, XQC_MULTIPATH_3E, H_path_abandon);
    (XQC_TRANS_FRAME_TYPE_PATH_STATUS_BACKUP, XQC_MULTIPATH_3E, H_path_status);
    (XQC_TRANS_FRAME_TYPE_PATH_STATUS_AVAILABLE_V21, XQC_MULTIPATH_3E, H_path_status);
    (XQC_TRANS_FRAME_TYPE_PATH_NEW_CONNECTION_ID_V21, XQC_MULTIPATH_3E, H_mp_new_conn_id);
    (XQC_TRANS_FRAME_TYPE_PATH_RETIRE_CONNECTION_ID_V21, XQC_MULTIPATH_3E, H_mp_retire_conn_id);
    (XQC_TRANS_FRAME_TYPE_MAX_PATH_ID_V21, XQC_MULTIPATH_3E, H_max_path_id);
    (XQC_TRANS_FRAME_TYPE_PATHS_BLOCKED, XQC_MULTIPATH_3E, H_paths_blocked);
    (XQC_TRANS_FRAME_TYPE_PATH_CIDS_BLOCKED, XQC_MULTIPATH_3E, H_path_cids_blocked) ].

Definition xqc_frame_is_mp (frame_type : Z) : bool :=
  existsb (Z.eqb frame_type)
    [ XQC_TRANS_FRAME_TYPE_MP_ACK0; XQC_TRANS_FRAME_TYPE_MP_ACK1;
      XQC_TRANS_FRAME_TYPE_MP_ABANDON; XQC_TRANS_FRAME_TYPE_MP_STANDBY;
      XQC_TRANS_FRAME_TYPE_MP_AVAILABLE; XQC_TRANS_FRAME_TYPE_MP_FROZEN;
      XQC_TRANS_FRAME_TYPE_MP_NEW_CONN_ID; XQC_TRANS_FRAME_TYPE_MP_RETIRE_CONN_ID;
      XQC_TRANS_FRAME_TYPE_MAX_PATH_ID;
      XQC_TRANS_FRAME_TYPE_PATH_ACK; XQC_TRANS_FRAME_TYPE_PATH_ACK_ECN;
      XQC_TRANS_FRAME_TYPE_PATH_ABANDON_V21; XQC_TRANS_FRAME_TYPE_PATH_STATUS_BACKUP;
      XQC_TRANS_FRAME_TYPE_PATH_STATUS_AVAILABLE_V21;
      XQC_TRANS_FRAME_TYPE_PATH_NEW_CONNECTION_ID_V21;
      XQC_TRANS_FRAME_TYPE_PATH_RETIRE_CONNECTION_ID_V21;
      XQC_TRANS_FRAME_TYPE_MAX_PATH_ID_V21; XQC_TRANS_FRAME_TYPE_PATHS_BLOCKED;
      XQC_TRANS_FRAME_TYPE_PATH_CIDS_BLOCKED ].

(** The loop of [xqc_dispatch_mp_frame] over the table: the handler called, or the error. *)
Definition xqc_dispatch_mp_frame (enable_multipath : bool) (mp_version frame_type : Z)
    : res mp_handler :=
  if negb enable_multipath then Err XQC_EMP_INVALID_MP_VERTION
  else
    match find (fun '(t, v, _) => (t =? frame_type) && (v =? mp_version))
            xqc_mp_frame_dispatch_table with
    | Some (_, _, h) => Ok h
    | None => Err XQC_EMP_INVALID_MP_VERTION
    end.

(** ** Abstract frames *)

(** The frames this side sends. *)
Inductive mp_frame :=
| MP_PATH_ABANDON (path_id error_code : Z)
| MP_PATH_STATUS (path_id seq_num : Z) (status : xqc_app_path_status_t)
| MP_NEW_CONN_ID (path_id seq_num retire_prior_to : Z) (cid token : list Z)
| MP_RETIRE_CONN_ID (path_id seq_num : Z)
| MP_MAX_PATH_ID (max_path_id : Z)
| MP_PATHS_BLOCKED (max_path_id : Z).

(** The frames it receives. *)
Inductive mp_recv :=
| R_frame (f : mp_frame)
| R_path_cids_blocked (path_id next_seq : Z)
| R_ack (path_id : Z) (ack : xqc_ack_info_t).

(** The parser the handler starts with; [old] is what an uninitialised [largest_acked] holds. *)
Definition mp_parse (old mp_version : Z) (h : mp_handler) : parser mp_recv :=
  match h with
  | H_ack_mp => '(p, a) ← xqc_parse_ack_mp_frame old; mret (R_ack p a)
  | H_path_ack_ecn => '(p, a) ← xqc_parse_path_ack_ecn_frame old; mret (R_ack p a)
  | H_path_abandon =>
      '(p, e) ← xqc_parse_path_abandon_frame mp_version; mret (R_frame (MP_PATH_ABANDON p e))
  | H_path_status =>
      '(p, n, st) ← xqc_parse_path_status_frame; mret (R_frame (MP_PATH_STATUS p n st))
  | H_mp_new_conn_id =>
      '(cid, r, p) ← xqc_parse_mp_new_conn_id_frame cid_zero;
      mret (R_frame (MP_NEW_CONN_ID p (cid_seq_num cid) r
                       (sub_bytes (cid_buf cid) 0 (cid_len cid)) (sr_token cid)))
  | H_mp_retire_conn_id =>
      '(n, p) ← xqc_parse_mp_retire_conn_id_frame; mret (R_frame (MP_RETIRE_CONN_ID p n))
  | H_max_path_id => n ← xqc_parse_max_path_id_frame; mret (R_frame (MP_MAX_PATH_ID n))
  | H_paths_blocked => n ← xqc_parse_paths_blocked_frame; mret (R_frame (MP_PATHS_BLOCKED n))
  | H_path_cids_blocked =>
      '(p, n) ← xqc_parse_path_cids_blocked_frame; mret (R_path_cids_blocked p n)
  end.

(** The multipath arms of the [switch] in [xqc_process_frames]. PATH_FROZEN is not in the
    table: it is parsed in every version, and only draft-10 acts on it. *)
Definition mp_parse_by_type (old : Z) (enable_multipath : bool) (frame_type : Z) : parser mp_recv :=
  conn ← p_conn;
  if frame_type =? XQC_TRANS_FRAME_TYPE_MP_FROZEN then
    if negb enable_multipath then p_fail XQC_EMP_INVALID_MP_VERTION
    else mp_parse old (multipath_version conn) H_path_status
  else
    match xqc_dispatch_mp_frame enable_multipath (multipath_version conn) frame_type with
    | Ok h => mp_parse old (multipath_version conn) h
    | Err e => p_fail e
    end.

Definition mp_parse_frame (old : Z) (enable_multipath : bool) : parser mp_recv :=
  p_peek_type ≫= mp_parse_by_type old enable_multipath.

(** What the packet writers do with a generator: the packet grows by what it returns. *)
Definition advance_by (r : res Z * xqc_packet_out_t) : res unit * xqc_packet_out_t :=
  match r with
  | (Ok n, po) => (Ok tt, po_advance po n)
  | (Err e, po) => (Err e, po)
  end.

Definition write_mp_frame (conn : xqc_connection_t) (po : xqc_packet_out_t) (f : mp_frame)
    : res unit * xqc_packet_out_t :=
  match f with
  | MP_PATH_ABANDON p e => advance_by (xqc_gen_path_abandon_frame conn po p e)
  | MP_PATH_STATUS p n st => advance_by (xqc_gen_path_status_frame conn po p n st)
  | MP_NEW_CONN_ID p n r cid t =>
      advance_by (xqc_gen_mp_new_conn_id_frame conn po (mk_cid (zlen cid) cid n t p) r (Some t) p)
  | MP_RETIRE_CONN_ID p n => advance_by (xqc_gen_mp_retire_conn_id_frame conn po n p)
  | MP_MAX_PATH_ID n => advance_by (xqc_gen_max_path_id_frame conn po n)
  | MP_PATHS_BLOCKED n => xqc_write_paths_blocked_frame po n
  end.

(** ** The format *)

Definition mp_v21 (v : Z) : bool := v =? XQC_MULTIPATH_3E.

Definition mp_codepoint (v : Z) (f : mp_frame) : Z :=
  match f with
  | MP_PATH_ABANDON _ _ => if mp_v21 v then 0x3e75 else 0x15228c05
  | MP_PATH_STATUS _ _ XQC_APP_PATH_STATUS_AVAILABLE => if mp_v21 v then 0x3e77 else 0x15228c08
  | MP_PATH_STATUS _ _ XQC_APP_PATH_STATUS_FROZEN => 0x15228cff
  | MP_PATH_STATUS _ _ _ => if mp_v21 v then 0x3e76 else 0x15228c07
  | MP_NEW_CONN_ID _ _ _ _ _ => if mp_v21 v then 0x3e78 else 0x15228c09
  | MP_RETIRE_CONN_ID _ _ => if mp_v21 v then 0x3e79 else 0x15228c0a
  | MP_MAX_PATH_ID _ => if mp_v21 v then 0x3e7a else 0x15228c0c
  | MP_PATHS_BLOCKED _ => 0x3e7b
  end.

Definition mp_bytes (v : Z) (f : mp_frame) : list Z :=
  enc_vint (mp_codepoint v f) ++
  match f with
  | MP_PATH_ABANDON p e => enc_vint p ++ enc_vint e ++ (if mp_v21 v then [] else enc_vint 0)
  | MP_PATH_STATUS p n _ => enc_vint p ++ enc_vint n
  | MP_NEW_CONN_ID p n r cid t =>
      enc_vint p ++ enc_vint n ++ enc_vint r ++ [zlen cid] ++ cid ++ t
  | MP_RETIRE_CONN_ID p n => enc_vint p ++ enc_vint n
  | MP_MAX_PATH_ID n | MP_PATHS_BLOCKED n => enc_vint n
  end.

(** The fields are in range, and the version has the frame. *)
Definition mp_wf (v : Z) (f : mp_frame) : Prop :=
  match f with
  | MP_PATH_ABANDON p e => vint_ok p /\ vint_ok e
  | MP_PATH_STATUS p n st =>
      vint_ok p /\ vint_ok n /\ st <> XQC_APP_PATH_STATUS_NONE
      /\ (st = XQC_APP_PATH_STATUS_FROZEN -> v = XQC_MULTIPATH_10)
  | MP_NEW_CONN_ID p n r cid t =>
      vint_ok p /\ vint_ok n /\ vint_ok r /\ bytes_ok cid /\ bytes_ok t
      /\ 1 <= zlen cid <= XQC_MAX_CID_LEN /\ zlen t = XQC_STATELESS_RESET_TOKENLEN
  | MP_RETIRE_CONN_ID p n => vint_ok p /\ vint_ok n
  | MP_MAX_PATH_ID n => vint_ok n
  | MP_PATHS_BLOCKED n => vint_ok n /\ v = XQC_MULTIPATH_3E
  end.

Definition mp_bit (f : mp_frame) : Z :=
  match f with
  | MP_PATH_ABANDON _ _ => XQC_FRAME_BIT_PATH_ABANDON
  | MP_PATH_STATUS _ _ XQC_APP_PATH_STATUS_AVAILABLE => XQC_FRAME_BIT_PATH_AVAILABLE
  | MP_PATH_STATUS _ _ XQC_APP_PATH_STATUS_FROZEN => XQC_FRAME_BIT_PATH_FROZEN
  | MP_PATH_STATUS _ _ _ => XQC_FRAME_BIT_PATH_STANDBY
  | MP_NEW_CONN_ID _ _ _ _ _ => XQC_FRAME_BIT_MP_NEW_CONNECTION_ID
  | MP_RETIRE_CONN_ID _ _ => XQC_FRAME_BIT_MP_RETIRE_CONNECTION_ID
  | MP_MAX_PATH_ID _ => XQC_FRAME_BIT_MAX_PATH_ID
  | MP_PATHS_BLOCKED _ => XQC_FRAME_BIT_PATHS_BLOCKED
  end.

(** ** Writing *)

Lemma mp_select_ok v a b :
  v = XQC_MULTIPATH_10 \/ v = XQC_MULTIPATH_3E ->
  xqc_mp_select_codepoint v a b = Ok (if mp_v21 v then b else a).
Proof. unfold xqc_mp_select_codepoint, mp_v21. by intros [-> | ->]. Qed.

Lemma mp_status_ok v p n st :
  v = XQC_MULTIPATH_10 \/ v = XQC_MULTIPATH_3E -> mp_wf v (MP_PATH_STATUS p n st) ->
  path_status_type v st
  = Ok (mp_codepoint v (MP_PATH_STATUS p n st), mp_bit (MP_PATH_STATUS p n st)).
Proof.
  intros Hv (_ & _ & Hst & Hfr). destruct Hv as [-> | ->], st; try done. by specialize (Hfr eq_refl).
Qed.

Lemma write_paths_blocked_ok po n :
  0 <= po_used_size po -> vlen 0x3e7b + vlen n <= po_buf_size po - po_used_size po ->
  let bs := enc_vint 0x3e7b ++ enc_vint n in
  xqc_write_paths_blocked_frame po n
  = (Ok tt, po_advance (po_wrote po (wr (po_buf po) (po_used_size po) bs)
              XQC_FRAME_BIT_PATHS_BLOCKED) (zlen bs)).
Proof.
  intros Hu Hr bs. unfold xqc_write_paths_blocked_frame, xqc_gen_paths_blocked_frame.
  unfold XQC_TRANS_FRAME_TYPE_PATHS_BLOCKED. destruct (_ <? _) eqn:E; [zb|].
  change (po_buf po, po_used_size po) with (po_cursor po). run_writer.
  unfold wr_at. cbn [fst snd]. fold bs. by replace (po_used_size po + zlen bs - po_used_size po)
    with (zlen bs) by lia.
Qed.

Lemma write_mp_ok conn po f :
  let v := multipath_version conn in
  v = XQC_MULTIPATH_10 \/ v = XQC_MULTIPATH_3E -> mp_wf v f ->
  0 <= po_used_size po -> 0 <= po_reserved_size po ->
  zlen (mp_bytes v f) <= xqc_get_po_remained_size po ->
  write_mp_frame conn po f
  = (Ok tt, po_advance (po_wrote po (wr (po_buf po) (po_used_size po) (mp_bytes v f)) (mp_bit f))
              (zlen (mp_bytes v f))).
Proof.
  intros v Hv Hwf Hu Hres Hr. pose proof (po_remained_le po Hres).
  destruct f as [p e|p n st|p n r cid t|p n|n|n]; unfold mp_bytes in *; cbn [write_mp_frame].
  - unfold xqc_gen_path_abandon_frame. fold v. rewrite mp_select_ok by done.
    cbn [mp_codepoint] in *. fold (mp_v21 v). destruct (mp_v21 v) eqn:E; cbv zeta.
    + unfold XQC_TRANS_FRAME_TYPE_PATH_ABANDON_V21. gen_room. run_writer.
      by rewrite app_nil_r.
    + unfold XQC_TRANS_FRAME_TYPE_MP_ABANDON. gen_room. by run_writer.
  - unfold xqc_gen_path_status_frame. fold v. rewrite (mp_status_ok v p n) by done.
    cbv zeta. gen_room. by run_writer.
  - unfold xqc_gen_mp_new_conn_id_frame, w_cid. fold v. rewrite mp_select_ok by done.
    destruct Hwf as (_ & _ & _ & _ & _ & Hc & Ht). unfold XQC_MAX_CID_LEN in *.
    cbn [cid_len cid_buf cid_seq_num]. destruct (_ <? zlen cid) eqn:E; [zb|].
    rewrite <- Ht, !sub_bytes_all. run_writer. rewrite (enc_vint_1 (zlen cid)) by lia. done.
  - unfold xqc_gen_mp_retire_conn_id_frame. fold v. rewrite mp_select_ok by done. by run_writer.
  - unfold xqc_gen_max_path_id_frame. fold v. rewrite mp_select_ok by done. by run_writer.
  - rewrite write_paths_blocked_ok; [done|done|]. autorewrite with enc in Hr.
    cbn [mp_codepoint] in Hr. pose proof (vlen_range n).
    pose proof (vlen_range 15995). lia.
Qed.

(** ** Reading back *)

Lemma parses_peek_vint {B} c t bs (k : Z -> parser B) x f :
  vint_ok t -> parses c (k t) (enc_vint t ++ bs) x f ->
  parses c (p_peek_type ≫= k) (enc_vint t ++ bs) x f.
Proof.
  intros Hv Hk s Hc Hs. rewrite <- (Hk s Hc Hs). unfold mbind, parser_bind, p_peek_type.
  destruct (at_input_app s _ bs Hs) as [Hs1 _].
  pose proof (parses_vint c t Hv s Hc Hs1) as Hp. unfold p_vint in Hp.
  by destruct (xqc_vint_read _ _ _) as [[v n]|]; simplify_eq.
Qed.

Lemma mp_codepoint_ok v f : vint_ok (mp_codepoint v f).
Proof.
  unfold vint_ok, mp_codepoint. destruct f as [| ? ? []| | | |]; try destruct (mp_v21 v); by_decide.
Qed.

Lemma mp_dispatch_ok v f :
  v = XQC_MULTIPATH_10 \/ v = XQC_MULTIPATH_3E -> mp_wf v f ->
  match f with MP_PATH_STATUS _ _ XQC_APP_PATH_STATUS_FROZEN => false | _ => true end = true ->
  (mp_codepoint v f =? XQC_TRANS_FRAME_TYPE_MP_FROZEN) = false
  /\ xqc_dispatch_mp_frame true v (mp_codepoint v f)
     = Ok match f with
          | MP_PATH_ABANDON _ _ => H_path_abandon
          | MP_PATH_STATUS _ _ _ => H_path_status
          | MP_NEW_CONN_ID _ _ _ _ _ => H_mp_new_conn_id
          | MP_RETIRE_CONN_ID _ _ => H_mp_retire_conn_id
          | MP_MAX_PATH_ID _ => H_max_path_id
          | MP_PATHS_BLOCKED _ => H_paths_blocked
          end.
Proof.
  intros Hv Hwf Hf. destruct f as [| ? ? []| | | |]; try done; destruct Hv as [-> | ->]; try done.
  all: destruct Hwf as [_ Hw]; try done.
Qed.

Lemma path_status_of_ok v p n st :
  v = XQC_MULTIPATH_10 \/ v = XQC_MULTIPATH_3E -> mp_wf v (MP_PATH_STATUS p n st) ->
  path_status_of (mp_codepoint v (MP_PATH_STATUS p n st))
  = Some (st, mp_bit (MP_PATH_STATUS p n st)).
Proof.
  intros Hv (_ & _ & Hst & Hfr). destruct Hv as [-> | ->], st; done.
Qed.

Lemma mp_parse_status_ok c old p n st :
  let v := multipath_version c in
  v = XQC_MULTIPATH_10 \/ v = XQC_MULTIPATH_3E -> mp_wf v (MP_PATH_STATUS p n st) ->
  parses c (mp_parse old v H_path_status) (mp_bytes v (MP_PATH_STATUS p n st))
    (R_frame (MP_PATH_STATUS p n st)) (commit_eff (mp_bit (MP_PATH_STATUS p n st))).
Proof.
  intros v Hv Hwf. pose proof (path_status_of_ok v p n st Hv Hwf) as Hst.
  pose proof (mp_codepoint_ok v (MP_PATH_STATUS p n st)) as Hcp.
  destruct Hwf as (Hp & Hn & _). unfold mp_bytes, mp_parse, xqc_parse_path_status_frame.
  eapply parses_wrap.
  { repeat parse_step; try done. rewrite Hst. apply parses_commit. }
  reflexivity.
Qed.

Lemma mp_parse_ok c old f :
  let v := multipath_version c in
  v = XQC_MULTIPATH_10 \/ v = XQC_MULTIPATH_3E -> mp_wf v f ->
  parses c (mp_parse_by_type old true (mp_codepoint v f)) (mp_bytes v f) (R_frame f)
    (commit_eff (mp_bit f)).
Proof.
  intros v Hv Hwf. unfold mp_parse_by_type. apply parses_conn. fold v.
  destruct (match f with MP_PATH_STATUS _ _ XQC_APP_PATH_STATUS_FROZEN => false | _ => true end)
    eqn:Ef.
  2: { destruct f as [|p n []| | | |]; try done. by apply mp_parse_status_ok. }
  destruct (mp_dispatch_ok v f Hv Hwf Ef) as [-> ->]. clear Ef.
  pose proof (mp_codepoint_ok v f) as Hcp.
  destruct f as [p e|p n st|p n r cid t|p n|n|n]; [|by apply mp_parse_status_ok|..];
    unfold mp_bytes, mp_parse.
  - unfold xqc_parse_path_abandon_frame. fold (mp_v21 v). destruct Hwf.
    apply (parses_wrap _ _ _ _ (p, e)); [|done]. do 3 (parse_step; [done|]).
    destruct (mp_v21 v); [repeat parse_step|].
    change (enc_vint 0) with ([0] : list Z). parse_step. eapply (parses_bind _ p_vint _ [0] []).
    { by apply parses_vint_byte. }
    cbn. apply parses_commit.
  - destruct Hwf as (? & ? & ? & ? & ? & Hlen & Htl). unfold xqc_parse_mp_new_conn_id_frame, p_cid.
    eapply parses_wrap.
    { rewrite <- Htl. unfold XQC_MAX_CID_LEN in *. pose proof (zlen_nonneg t). cbn [app].
      repeat parse_step; parse_side. }
    cbn [cid_seq_num cid_buf cid_len sr_token]. unfold XQC_MAX_CID_LEN in Hlen.
    rewrite bytes_at_sub; [done|]. apply bytes_at_wr; [done|]. cbn. unfold zlen at 2. simpl. lia.
  - destruct Hwf. unfold xqc_parse_mp_retire_conn_id_frame. parse_all.
  - cbn [mp_wf] in Hwf. unfold xqc_parse_max_path_id_frame. parse_all.
  - destruct Hwf. unfold xqc_parse_paths_blocked_frame. parse_all.
Qed.

Lemma mp_bytes_ok v f : mp_wf v f -> bytes_ok (mp_bytes v f).
Proof.
  unfold mp_bytes. intros Hwf. apply bytes_ok_app. split; [apply enc_vint_ok|].
  destruct f; try destruct (mp_v21 v);
    repeat match goal with |- bytes_ok (_ ++ _) => apply bytes_ok_app; split end;
    try solve [apply enc_vint_ok | by constructor | apply Hwf].
  all: destruct Hwf as (_ & _ & _ & _ & _ & Hc & _); unfold XQC_MAX_CID_LEN in Hc.
  all: repeat constructor; lia.
Qed.

(** ** Everything this side sends for multipath *)

(** A frame of the kinds above, or an acknowledgement (ACK_MP or PATH_ACK) of the packets that
    the record [rr] of a path holds, the largest of them received at [t0]. *)
Inductive mp_out :=
| Out_frame (f : mp_frame)
| Out_ack (path_id now ack_delay_exponent t0 : Z) (rr : xqc_recv_record_t).

Definition write_mp_out (conn : xqc_connection_t) (po : xqc_packet_out_t) (x : mp_out)
    : res unit * xqc_packet_out_t :=
  match x with
  | Out_frame f => write_mp_frame conn po f
  | Out_ack p now e t0 rr =>
      match xqc_gen_ack_mp_frame conn p po now e rr t0 with
      | (Ok (n, _, _), po) => (Ok tt, po_advance po n)
      | (Err e, po) => (Err e, po)
      end
  end.

(** The bytes on the wire; the delay of an acknowledgement depends on the packet. *)
Definition mp_out_bytes (v : Z) (po : xqc_packet_out_t) (x : mp_out) : list Z :=
  match x with
  | Out_frame f => mp_bytes v f
  | Out_ack p now e t0 rr =>
      match ranges rr with
      | r0 :: l => ack_mp_bytes v p (ack_mp_delay po (now - t0) e) r0 l
      | [] => []
      end
  end.

(** The room: acknowledgements may use the space that is kept for them. *)
Definition mp_out_room (po : xqc_packet_out_t) (x : mp_out) : Z :=
  match x with
  | Out_frame _ => xqc_get_po_remained_size po
  | Out_ack _ _ _ _ _ => xqc_get_po_remained_size_with_ack_spc po
  end.

Definition mp_out_wf (v : Z) (po : xqc_packet_out_t) (x : mp_out) : Prop :=
  match x with
  | Out_frame f => mp_wf v f
  | Out_ack p now e t0 rr =>
      record_wf rr /\ ranges rr <> [] /\ span_ok (xqc_recv_record_largest rr) (ranges rr)
      /\ vint_ok p /\ vint_ok (ack_mp_delay po (now - t0) e)
  end.

(** What the other end reads: the frame, or the path and the ranges. The member
    [largest_acked] of an acknowledgement is not filled in: it holds [old]. *)
Definition mp_out_seen (c : xqc_connection_t) (old pns : Z) (po : xqc_packet_out_t) (x : mp_out)
    : mp_recv :=
  match x with
  | Out_frame f => R_frame f
  | Out_ack p now e t0 rr =>
      R_ack p (mk_ack_info pns p (ranges rr)
                 (u64 (ack_mp_delay po (now - t0) e << remote_ack_delay_exponent c)) old)
  end.

Definition mp_out_bit (x : mp_out) : Z :=
  match x with Out_frame f => mp_bit f | Out_ack _ _ _ _ _ => XQC_FRAME_BIT_ACK_MP end.

Lemma write_mp_out_ok conn po x :
  let v := multipath_version conn in
  v = XQC_MULTIPATH_10 \/ v = XQC_MULTIPATH_3E -> mp_out_wf v po x ->
  0 <= po_used_size po -> 0 <= po_reserved_size po -> XQC_MSS <= zlen (po_buf po) ->
  zlen (mp_out_bytes v po x) <= mp_out_room po x ->
  write_mp_out conn po x
  = (Ok tt, po_advance (po_wrote po (wr (po_buf po) (po_used_size po) (mp_out_bytes v po x))
              (mp_out_bit x)) (zlen (mp_out_bytes v po x))).
Proof.
  intros v Hv Hwf Hu Hres Hz Hr. destruct x as [f|p now e t0 rr]; [by apply write_mp_ok|].
  destruct Hwf as (Hrr & Hne & Hs & _ & _). unfold xqc_recv_record_largest in Hs. simpl in *.
  destruct (ranges rr) as [|r0 l] eqn:E; [done|].
  rewrite (gen_ack_mp_ok conn p po now e rr t0 r0 l) by (rewrite ?E; done). done.
Qed.

Lemma mp_out_parses c old pns po x :
  let v := multipath_version c in
  v = XQC_MULTIPATH_10 \/ v = XQC_MULTIPATH_3E -> mp_out_wf v po x ->
  forall s, ps_conn s = c -> at_input s (mp_out_bytes v po x) -> pi_pkt_pns (ps_in s) = pns ->
  mp_parse_frame old true s
  = (Ok (mp_out_seen c old pns po x),
     commit_eff (mp_out_bit x) (ps_move s (ps_p s + zlen (mp_out_bytes v po x)))).
Proof.
  intros v Hv Hwf s Hc Hs Hpns. unfold mp_parse_frame.
  destruct x as [f|p now e t0 rr]; simpl in Hwf, Hs |- *.
  { unfold mp_bytes in Hs |- *. revert s Hc Hs Hpns. intros s Hc Hs _.
    eapply (parses_peek_vint c); [apply mp_codepoint_ok| |done|exact Hs]. by apply mp_parse_ok. }
  destruct Hwf as (Hrr & Hne & _ & Hp & Hd). destruct (ranges rr) as [|r0 l] eqn:E; [done|].
  destruct Hrr as [Hwf Hcnt Hmax]. rewrite E in Hwf, Hcnt. cbn [length] in Hcnt.
  set (delay := ack_mp_delay _ _ _) in *.
  pose proof (parse_ack_mp_fields_ok c old pns v p delay r0 l Hwf ltac:(lia) Hd Hp) as Hf.
  assert (vint_ok (ack_mp_codepoint v)) as Hcp
    by (unfold ack_mp_codepoint; destruct (v =? _); by_decide).
  unfold ack_mp_bytes in Hs, Hf |- *.
  assert (mp_parse_by_type old true (ack_mp_codepoint v) s
    = ('(p, a) ← xqc_parse_ack_mp_frame old; mret (R_ack p a)) s) as Hm.
  { unfold mp_parse_by_type, mbind at 1, parser_bind at 1, p_conn at 1. rewrite Hc. fold v.
    by destruct Hv as [-> | ->]. }
  unfold mbind at 1, parser_bind at 1, p_peek_type.
  destruct (at_input_app s _ _ Hs) as [Hs1 _].
  pose proof (parses_vint c _ Hcp s Hc Hs1) as Hpv. unfold p_vint in Hpv.
  destruct (xqc_vint_read _ _ _) as [[t n]|]; [injection Hpv as -> _|done]. rewrite Hm.
  unfold mbind at 1, parser_bind at 1, xqc_parse_ack_mp_frame.
  unfold mbind at 1, parser_bind at 1, p_pns at 1. rewrite Hpns. by rewrite (Hf s Hc Hs).
Qed.

(** C31: whichever multipath version the two ends negotiated, whatever this side writes for
    multipath, acknowledgements (ACK_MP, PATH_ACK) included, is dispatched by the receiver to
    the right handler, whose parser consumes exactly its bytes and reads back the frame, or
    the path and the ranges acknowledged. What it does not fill in is the member
    [largest_acked] of an acknowledgement, which keeps what the caller's memory had. *)
Theorem mp_frame_roundtrip conn po x c old pns :
  let v := multipath_version conn in
  v = XQC_MULTIPATH_10 \/ v = XQC_MULTIPATH_3E -> multipath_version c = v -> mp_out_wf v po x ->
  0 <= po_used_size po -> 0 <= po_reserved_size po -> bytes_ok (po_buf po) ->
  XQC_MSS <= zlen (po_buf po) -> zlen (mp_out_bytes v po x) <= mp_out_room po x ->
  exists po', write_mp_out conn po x = (Ok tt, po')
  /\ po_used_size po' <= po_used_size po + mp_out_room po x
  /\ forall last, po_used_size po' <= last <= zlen (po_buf po) ->
     run (mp_parse_frame old true) (mk_pi (po_buf po') (po_used_size po) last 0 pns) c
     = (Ok (mp_out_seen c old pns po x),
        mk_pi (po_buf po') (po_used_size po') last (mp_out_bit x) pns, c).
Proof.
  intros v Hv Hvc Hwf Hu Hres Hb Hsz Hr. rewrite write_mp_out_ok by done. fold v.
  pose proof (zlen_nonneg (mp_out_bytes v po x)). eexists. split; [done|]. simpl.
  split; [lia|]. intros last Hlast. unfold run.
  rewrite (mp_out_parses c old pns po x); rewrite ?Hvc; try done.
  split; simpl; rewrite ?zlen_wr; try done; try lia.
  - apply bytes_ok_wr; [done|]. destruct x as [f|p now e t0 rr]; simpl; [by apply mp_bytes_ok|].
    destruct Hwf as ([_ Hcnt Hmax] & Hne & _). destruct (ranges rr) as [|r0 l]; [done|].
    cbn [length] in Hcnt. unfold ack_mp_bytes. rewrite !bytes_ok_app.
    split_and!; [apply enc_vint_ok..|apply ack_body_bytes_ok; lia].
  - apply bytes_at_wr; [done|]. lia.
Qed.

Lemma mp_frame_roundtrip_witness :
  let conn := mk_conn XQC_CONN_TYPE_SERVER 0 XQC_CONN_ERR_TYPE_UNKNOWN XQC_MULTIPATH_3E 0 3
                false false in
  let c := mk_conn XQC_CONN_TYPE_CLIENT 0 XQC_CONN_ERR_TYPE_UNKNOWN XQC_MULTIPATH_3E 0 3
             false false in
  let po := mk_po (replicate 1452 0) 1200 30 0 0 0 0 [] 0 0 None 2 in
  let x := Out_ack 1 1000 3 123 (mk_record [mk_range 108 110; mk_range 105 106] 0 2) in
  exists po', write_mp_out conn po x = (Ok tt, po')
  /\ po_used_size po' <= po_used_size po + mp_out_room po x
  /\ forall last, po_used_size po' <= last <= zlen (po_buf po) ->
     run (mp_parse_frame 0 true) (mk_pi (po_buf po') (po_used_size po) last 0 2) c
     = (Ok (mp_out_seen c 0 2 po x), mk_pi (po_buf po') (po_used_size po') last (mp_out_bit x) 2, c).
Proof.
  intros conn c po x. apply (mp_frame_roundtrip conn po x c 0 2); try (right; reflexivity);
    try by_decide. split_and!; try by_decide.
  split; [split; repeat constructor; simpl; done | done | done].
Defined.

(** The lookup in the table. *)
Lemma dispatch_in v t h :
  xqc_dispatch_mp_frame true v t = Ok h -> (t, v, h) ∈ xqc_mp_frame_dispatch_table.
Proof.
  unfold xqc_dispatch_mp_frame. cbn [negb].
  destruct (find _ _) as [[[t' v'] h']|] eqn:E; [|done]. intros [= ->].
  apply find_some in E as [Hin E]. apply list_elem_of_In in Hin.
  apply andb_true_iff in E as [E1 E2]. zify_bools. by subst.
Qed.

Lemma dispatch_some t v h :
  (t, v, h) ∈ xqc_mp_frame_dispatch_table -> exists h', xqc_dispatch_mp_frame true v t = Ok h'.
Proof.
  intros Hin. unfold xqc_dispatch_mp_frame. cbn [negb].
  destruct (find _ _) as [[[t' v'] h']|] eqn:E; [eauto|].
  apply list_elem_of_In in Hin. eapply find_none in E; [|exact Hin]. simpl in E.
  by rewrite !Z.eqb_refl in E.
Qed.

Lemma dispatch_codes t :
  t ∈ map (fun e => fst (fst e)) xqc_mp_frame_dispatch_table
  <-> xqc_frame_is_mp t = true /\ t <> XQC_TRANS_FRAME_TYPE_MP_FROZEN.
Proof.
  unfold xqc_frame_is_mp. rewrite existsb_exists. set (l := _ :: _). split.
  - intros Hin.
    assert (Forall (fun x => x ∈ l /\ x <> XQC_TRANS_FRAME_TYPE_MP_FROZEN)
      (map (fun e => fst (fst e)) xqc_mp_frame_dispatch_table)) as Hall by by_decide.
    rewrite Forall_forall in Hall. apply Hall in Hin as [Hin Hne]. split; [|done].
    exists t. by rewrite <- list_elem_of_In, Z.eqb_refl.
  - intros [(x & Hin & Heq) Hne]. zify_bools. subst x. apply list_elem_of_In in Hin.
    assert (Forall (fun x => x <> XQC_TRANS_FRAME_TYPE_MP_FROZEN ->
      x ∈ map (fun e => fst (fst e)) xqc_mp_frame_dispatch_table) l) as Hall by by_decide.
    rewrite Forall_forall in Hall. by apply Hall.
Qed.

(** Exactly the code points that [xqc_frame_is_mp] keeps out of packets other than 1-RTT
    are dispatched to a handler, PATH_FROZEN apart, each in exactly one of the versions, and
    none when multipath was not negotiated. *)
Theorem mp_dispatch_versions t :
  ((exists v h, xqc_dispatch_mp_frame true v t = Ok h)
    <-> xqc_frame_is_mp t = true /\ t <> XQC_TRANS_FRAME_TYPE_MP_FROZEN)
  /\ (forall v v' h h', xqc_dispatch_mp_frame true v t = Ok h ->
       xqc_dispatch_mp_frame true v' t = Ok h' -> v = v' /\ h = h')
  /\ (forall v, xqc_dispatch_mp_frame false v t = Err XQC_EMP_INVALID_MP_VERTION).
Proof.
  split_and!; [| |done].
  - rewrite <- dispatch_codes. rewrite list_elem_of_fmap. split.
    + intros (v & h & H). apply dispatch_in in H. by exists (t, v, h).
    + intros ([[t' v] h] & -> & Hin). exists v. eapply dispatch_some, Hin.
  - intros v v' h h' H H'. apply dispatch_in in H, H'.
    assert (NoDup (map (fun e => fst (fst e)) xqc_mp_frame_dispatch_table)) as Hnd by by_decide.
    apply list_elem_of_lookup in H as [i Hi]. apply list_elem_of_lookup in H' as [j Hj].
    assert (i = j) as ->.
    { eapply NoDup_lookup; [exact Hnd|rewrite list_lookup_fmap, Hi|rewrite list_lookup_fmap, Hj];
        done. }
    rewrite Hi in Hj. by injection Hj.
Qed.

(** C37: in draft-10 the length of the reason phrase of a PATH_ABANDON frame is not checked:
    the frame is accepted whatever length it declares, and [packet_in->pos] ends that many
    bytes behind the end of the packet. *)
Theorem path_abandon_overrun path_id error_code reason_len pi c :
  vint_ok path_id -> vint_ok error_code -> vint_ok reason_len ->
  bytes_ok (pi_buf pi) -> pi_last pi <= zlen (pi_buf pi) ->
  let bs := enc_vint XQC_TRANS_FRAME_TYPE_MP_ABANDON ++ enc_vint path_id ++ enc_vint error_code
            ++ enc_vint reason_len in
  bytes_at (pi_buf pi) (pi_pos pi) bs -> pi_pos pi + zlen bs = pi_last pi ->
  exists pi', run (xqc_parse_path_abandon_frame XQC_MULTIPATH_10) pi c
    = (Ok (path_id, error_code), pi', c)
  /\ pi_pos pi' = pi_last pi + reason_len /\ pi_last pi' = pi_last pi.
Proof.
  intros Hp He Hr Hb Hl bs Hat Hend.
  assert (parses c (xqc_parse_path_abandon_frame XQC_MULTIPATH_10) bs (path_id, error_code)
    (fun s => commit_eff XQC_FRAME_BIT_PATH_ABANDON (ps_move s (ps_p s + reason_len)))) as Hps.
  { unfold bs, xqc_parse_path_abandon_frame. assert (vint_ok 0x15228c05) as Ht by by_decide.
    do 3 (parse_step; [done|]). change (XQC_MULTIPATH_10 =? XQC_MULTIPATH_3E) with false. cbn iota. repeat parse_step; [done|].
    destruct (0 <? reason_len) eqn:E; intros s _ _; rewrite zlen_nil, ps_move_0; [done|].
    unfold vint_ok in Hr. zify_bools. assert (reason_len = 0) as -> by lia. by rewrite ps_move_0. }
  unfold run. rewrite (Hps (mk_ps pi (pi_pos pi) c)); [|done|split; simpl; done || lia].
  eexists. split; [reflexivity|]. simpl. lia.
Qed.

Lemma path_abandon_overrun_witness :
  let pi := mk_pi (enc_vint 0x15228c05 ++ [1; 0; 63]) 0 7 0 2 in
  let c := mk_conn XQC_CONN_TYPE_CLIENT 0 XQC_CONN_ERR_TYPE_UNKNOWN XQC_MULTIPATH_10 0 3
             false false in
  exists pi', run (xqc_parse_path_abandon_frame XQC_MULTIPATH_10) pi c = (Ok (1, 0), pi', c)
  /\ pi_pos pi' = 7 + 63 /\ pi_last pi' = 7.
Proof.
  intros pi c. apply (path_abandon_overrun 1 0 63 pi c); by_decide.
Defined.

End MpFrames.
