(* ===== verification/StreamRecv.v ===== *)
(** Receiving a stream: reassembly of STREAM frames
    ([xqc_insert_stream_frame] in [src/transport/xqc_frame.c]), reading
    ([xqc_stream_recv] in [src/transport/xqc_stream.c]) and the handler between them
    ([xqc_process_stream_frame]), with the receive windows. *)

From stdpp Require Import base numbers list relations.
From S2P Require Import Prelude VInt PacketBuf Frames FrameSpec.
Import Frames FrameSpec.

Module StreamRecv.

(** ** Constants *)

Definition XQC_EDUP_FRAME : Z := 627.
Definition XQC_ESTREAM_RESET : Z := 626.
Definition XQC_EAGAIN : Z := 610.
Definition XQC_CLI_BID : Z := 0.
Definition XQC_SVR_BID : Z := 1.
Definition TRA_FLOW_CONTROL_ERROR : Z := 0x3.
Definition TRA_FINAL_SIZE_ERROR : Z := 0x6.

Definition XQC_MAX_STREAM_FRAME_BUFFERED_COUNT : Z := 8192.
Definition XQC_MAX_STREAM_FRAME_BUFFERED_COUNT_HARD : Z := 32768.
Definition XQC_MIN_STREAM_BUFFERED_BYTES_PER_FRAME : Z := 256.
Definition XQC_MAX_RECV_WINDOW : Z := 16 * 1024 * 1024.
Definition XQC_MIN_RECV_WINDOW : Z := 63000.
Definition XQC_MAX_FLOW_CONTROL_WINDOW : Z := (1 << 62) - 1.

(** ** The frames a stream holds *)

(** A buffered [xqc_stream_frame_t]: [data] and [data_length] are one value here, and
    [nd_next] is the frame's [next_read_offset]. *)
Record node := mk_node {
  nd_offset : Z;
  nd_data : list Z;
  nd_next : Z;
}.

Definition nd_len (f : node) : Z := zlen (nd_data f).
Definition nd_end (f : node) : Z := nd_offset f + nd_len f.

(** What the parser of STREAM frames returns, as a node. *)
Definition node_of (f : xqc_stream_frame_t) : node :=
  mk_node (data_offset f) (default [] (data f)) 0.

Record xqc_stream_data_in_t := mk_sdi {
  frames_tailq : list node;
  merged_offset_end : Z;
  next_read_offset : Z;
  stream_length : Z;
  stream_determined : bool;
  buffered_frame_count : Z;
  buffered_data_bytes : Z;
  cap_reject_logged : bool;
}.

Definition sdi_init : xqc_stream_data_in_t := mk_sdi [] 0 0 0 false 0 0 false.

Definition set_frames (d : xqc_stream_data_in_t) (l : list node) : xqc_stream_data_in_t :=
  mk_sdi l (merged_offset_end d) (next_read_offset d) (stream_length d) (stream_determined d)
    (buffered_frame_count d) (buffered_data_bytes d) (cap_reject_logged d).

(** ** Inserting a frame *)

Definition extends_prefix (d : xqc_stream_data_in_t) (n : node) : bool :=
  (nd_offset n <=? merged_offset_end d) && (merged_offset_end d <? nd_end n).

(** The two limits on buffered nodes; [cfg] is [max_stream_frame_buffered_cnt]. *)
Definition sparse_cap (cfg : Z) : Z :=
  if 0 <? cfg then cfg else XQC_MAX_STREAM_FRAME_BUFFERED_COUNT.

Definition hard_cap (cfg : Z) : Z :=
  if 0 <? cfg then cfg else XQC_MAX_STREAM_FRAME_BUFFERED_COUNT_HARD.

Definition cap_rejects (cfg : Z) (d : xqc_stream_data_in_t) (n : node) : bool :=
  let count_after := buffered_frame_count d + (if extends_prefix d n then 0 else 1) in
  let hard_limit := hard_cap cfg <=? count_after in
  let sparse_limit :=
    (sparse_cap cfg <=? count_after)
    && (buffered_data_bytes d + nd_len n
        <? count_after * XQC_MIN_STREAM_BUFFERED_BYTES_PER_FRAME) in
  hard_limit || sparse_limit.

(** The data of [n] is all in the frame [f]. *)
Definition nd_dup (f n : node) : bool :=
  (nd_offset f <=? nd_offset n) && (0 <? nd_len n) && (nd_end n <=? nd_end f).

(** The loop from the tail: the frames before the new one and those after it, or [None]
    for a duplicate. [rl] is what is still to be visited, reversed. *)
Fixpoint insert_pos (rl after : list node) (n : node) : option (list node * list node) :=
  match rl with
  | [] => Some ([], after)
  | f :: rl' =>
      if nd_dup f n then None
      else if nd_offset f <=? nd_offset n then Some (rev rl, after)
      else insert_pos rl' (f :: after) n
  end.

(** "merge right". *)
Fixpoint merge_right (m : Z) (l : list node) : Z :=
  match l with
  | f :: l' => if nd_offset f <=? m then merge_right (Z.max (nd_end f) m) l' else m
  | [] => m
  end.

Definition xqc_insert_stream_frame (cfg : Z) (d : xqc_stream_data_in_t) (n : node)
    : res unit * xqc_stream_data_in_t :=
  if cap_rejects cfg d n then
    (Err XQC_ELIMIT,
     mk_sdi (frames_tailq d) (merged_offset_end d) (next_read_offset d) (stream_length d)
       (stream_determined d) (buffered_frame_count d) (buffered_data_bytes d) true)
  else
    match insert_pos (rev (frames_tailq d)) [] n with
    | None => (Err XQC_EDUP_FRAME, d)
    | Some (before, after) =>
        let m := merged_offset_end d in
        let m :=
          if (nd_offset n <=? m) && (m <? nd_end n) then merge_right (nd_end n) after else m in
        (Ok tt,
         mk_sdi (before ++ n :: after) m (next_read_offset d) (stream_length d)
           (stream_determined d) (buffered_frame_count d + 1)
           (buffered_data_bytes d + nd_len n) false)
    end.

(** ** Reading *)

(** [xqc_list_del_init], the counters, [xqc_free]; the list is what remains of it. *)
Definition free_frame (d : xqc_stream_data_in_t) (f : node) : xqc_stream_data_in_t :=
  mk_sdi (frames_tailq d) (merged_offset_end d) (next_read_offset d) (stream_length d)
    (stream_determined d)
    (if 0 <? buffered_frame_count d then buffered_frame_count d - 1 else buffered_frame_count d)
    (if nd_len f <=? buffered_data_bytes d then buffered_data_bytes d - nd_len f else 0)
    (cap_reject_logged d).

Definition read_on (d : xqc_stream_data_in_t) (n : Z) : xqc_stream_data_in_t :=
  mk_sdi (frames_tailq d) (merged_offset_end d) (next_read_offset d + n) (stream_length d)
    (stream_determined d) (buffered_frame_count d) (buffered_data_bytes d)
    (cap_reject_logged d).

(** The loop of [xqc_stream_recv]: [l] are the frames left, [out] the bytes copied to
    [recv_buf], so [read] is their number. *)
Fixpoint recv_loop (l : list node) (d : xqc_stream_data_in_t) (recv_buf_size : Z)
    (out : list Z) : xqc_stream_data_in_t * list Z :=
  match l with
  | [] => (set_frames d [], out)
  | f :: l' =>
      if merged_offset_end d <? nd_offset f then (set_frames d l, out)
      else if recv_buf_size <=? zlen out then (set_frames d l, out)
      else if nd_end f <? next_read_offset d then recv_loop l' (free_frame d f) recv_buf_size out
      else
        let nr :=
          if nd_offset f <? next_read_offset d
          then Z.max (nd_next f) (next_read_offset d - nd_offset f) else nd_next f in
        let frame_left := u64 (nd_len f - nr) in
        if zlen out + frame_left <=? recv_buf_size
        then recv_loop l' (free_frame (read_on d frame_left) f) recv_buf_size
               (out ++ sub_bytes (nd_data f) nr frame_left)
        else
          let k := recv_buf_size - zlen out in
          (set_frames (read_on d k) (mk_node (nd_offset f) (nd_data f) (nr + k) :: l'),
           out ++ sub_bytes (nd_data f) nr k)
  end.

(** ** The stream and the connection, as far as receiving goes *)

Record xqc_stream_flow_ctl_t := mk_sfc {
  fc_max_stream_data_can_recv : Z;
  fc_stream_recv_window_size : Z;
  fc_last_window_update_time : Z;
}.

Record xqc_conn_flow_ctl_t := mk_cfc {
  fc_max_data_can_recv : Z;
  fc_data_recved : Z;
  fc_data_read : Z;
  fc_recv_windows_size : Z;
  cfc_last_window_update_time : Z;
}.

Inductive xqc_stream_reset_at_recv_state_t :=
| XQC_RESET_AT_RECV_NONE
| XQC_RESET_AT_RELIABLE
| XQC_RESET_AT_ORDINARY.

Definition reset_at_none (s : xqc_stream_reset_at_recv_state_t) : bool :=
  match s with XQC_RESET_AT_RECV_NONE => true | _ => false end.

Record xqc_stream_reset_at_t := mk_ra {
  recv_seen : bool;
  recv_state : xqc_stream_reset_at_recv_state_t;
  recv_size : Z;
  recv_error : Z;
}.

(** [xqc_recv_stream_state_t]: the code compares its values. *)
Definition XQC_RECV_STREAM_ST_RECV : Z := 0.
Definition XQC_RECV_STREAM_ST_SIZE_KNOWN : Z := 1.
Definition XQC_RECV_STREAM_ST_DATA_RECVD : Z := 2.
Definition XQC_RECV_STREAM_ST_DATA_READ : Z := 3.
Definition XQC_RECV_STREAM_ST_RESET_RECVD : Z := 4.
Definition XQC_RECV_STREAM_ST_RESET_READ : Z := 5.

(** [xqc_send_stream_state_t]. *)
Definition XQC_SEND_STREAM_ST_READY : Z := 0.
Definition XQC_SEND_STREAM_ST_DATA_SENT : Z := 2.
Definition XQC_SEND_STREAM_ST_DATA_RECVD : Z := 3.
Definition XQC_SEND_STREAM_ST_RESET_SENT : Z := 4.
Definition XQC_SEND_STREAM_ST_RESET_RECVD : Z := 5.

Inductive xqc_stream_reset_at_send_state_t :=
| XQC_RESET_AT_NONE
| XQC_RESET_AT_READY
| XQC_RESET_AT_SENT.

#[export] Instance reset_at_send_state_eq_dec : EqDecision xqc_stream_reset_at_send_state_t.
Proof. solve_decision. Defined.

(** The sending part of a stream, as far as resetting it goes. *)
Record xqc_stream_send_t := mk_send {
  stream_state_send : Z;
  stream_send_offset : Z;
  send_state : xqc_stream_reset_at_send_state_t;
  send_size : Z;
  send_final_size : Z;
  send_error : Z;
  send_update_pending : bool;
  send_reset_acked : bool;
}.

Definition send_init : xqc_stream_send_t :=
  mk_send XQC_SEND_STREAM_ST_READY 0 XQC_RESET_AT_NONE 0 0 0 false false.

(** The flags are the bits READY_TO_READ, NEED_CLOSE and DISCARDED of [stream_flag]. *)
Record xqc_stream_t := mk_stream {
  stream_id : Z;
  stream_data_in : xqc_stream_data_in_t;
  stream_state_recv : Z;
  stream_send : xqc_stream_send_t;
  stream_flow_ctl : xqc_stream_flow_ctl_t;
  stream_max_recv_offset : Z;
  recv_rate_bytes_per_sec : Z;
  ready_to_read : bool;
  need_close : bool;
  discarded : bool;
  reset_at : xqc_stream_reset_at_t;
  stream_err : Z;
}.

(** [sent]: the frames written to packets for the peer, in order. *)
Record xqc_conn_t := mk_rconn {
  rc_type : xqc_conn_type_t;
  conn_flow_ctl : xqc_conn_flow_ctl_t;
  max_stream_frame_buffered_cnt : Z;
  conn_recv_rate_bytes_per_sec : Z;
  init_recv_window : Z;
  rc_err : Z;
  sent : list frame;
}.

Definition set_data_in (s : xqc_stream_t) (d : xqc_stream_data_in_t) : xqc_stream_t :=
  mk_stream (stream_id s) d (stream_state_recv s) (stream_send s) (stream_flow_ctl s)
    (stream_max_recv_offset s) (recv_rate_bytes_per_sec s) (ready_to_read s) (need_close s)
    (discarded s) (reset_at s) (stream_err s).

Definition xqc_stream_recv_state_update (s : xqc_stream_t) (state : Z) : xqc_stream_t :=
  mk_stream (stream_id s) (stream_data_in s) state (stream_send s) (stream_flow_ctl s)
    (stream_max_recv_offset s) (recv_rate_bytes_per_sec s) (ready_to_read s) (need_close s)
    (discarded s) (reset_at s) (stream_err s).

Definition set_flow (s : xqc_stream_t) (fc : xqc_stream_flow_ctl_t) (max_off : Z)
    : xqc_stream_t :=
  mk_stream (stream_id s) (stream_data_in s) (stream_state_recv s) (stream_send s) fc max_off
    (recv_rate_bytes_per_sec s) (ready_to_read s) (need_close s) (discarded s) (reset_at s)
    (stream_err s).

Definition set_flags (s : xqc_stream_t) (ready close : bool) : xqc_stream_t :=
  mk_stream (stream_id s) (stream_data_in s) (stream_state_recv s) (stream_send s)
    (stream_flow_ctl s) (stream_max_recv_offset s) (recv_rate_bytes_per_sec s) ready close
    (discarded s) (reset_at s) (stream_err s).

Definition set_stream_err (s : xqc_stream_t) (err : Z) : xqc_stream_t :=
  mk_stream (stream_id s) (stream_data_in s) (stream_state_recv s) (stream_send s)
    (stream_flow_ctl s) (stream_max_recv_offset s) (recv_rate_bytes_per_sec s) (ready_to_read s)
    (need_close s) (discarded s) (reset_at s) err.

Definition set_conn_flow (c : xqc_conn_t) (fc : xqc_conn_flow_ctl_t) : xqc_conn_t :=
  mk_rconn (rc_type c) fc (max_stream_frame_buffered_cnt c) (conn_recv_rate_bytes_per_sec c)
    (init_recv_window c) (rc_err c) (sent c).

(** [XQC_CONN_ERR]: the first error is kept. *)
Definition conn_error (c : xqc_conn_t) (err : Z) : xqc_conn_t :=
  mk_rconn (rc_type c) (conn_flow_ctl c) (max_stream_frame_buffered_cnt c)
    (conn_recv_rate_bytes_per_sec c) (init_recv_window c)
    (if rc_err c =? 0 then err else rc_err c) (sent c).

Definition send_frame (c : xqc_conn_t) (f : frame) : xqc_conn_t :=
  mk_rconn (rc_type c) (conn_flow_ctl c) (max_stream_frame_buffered_cnt c)
    (conn_recv_rate_bytes_per_sec c) (init_recv_window c) (rc_err c) (sent c ++ [f]).

Definition xqc_stream_ready_to_read (s : xqc_stream_t) : xqc_stream_t :=
  set_flags s true (need_close s).

Definition xqc_stream_shutdown_read (s : xqc_stream_t) : xqc_stream_t :=
  set_flags s false (need_close s).

(** ** Closing and receive windows *)

Definition send_closed (s : xqc_stream_t) : bool :=
  (stream_state_send (stream_send s) =? XQC_SEND_STREAM_ST_DATA_RECVD)
  || (stream_state_send (stream_send s) =? XQC_SEND_STREAM_ST_RESET_RECVD).

Definition xqc_stream_is_terminal_state (c : xqc_conn_t) (s : xqc_stream_t) : bool :=
  let recv_closed :=
    (stream_state_recv s =? XQC_RECV_STREAM_ST_DATA_READ)
    || (stream_state_recv s =? XQC_RECV_STREAM_ST_RESET_READ) in
  let ty := xqc_get_stream_type (stream_id s) in
  if (ty =? XQC_CLI_BID) || (ty =? XQC_SVR_BID) then send_closed s && recv_closed
  else if xqc_stream_is_send_only (rc_type c) (stream_id s) then send_closed s
  else recv_closed.

(** Statistics and the close timer are left out. *)
Definition xqc_stream_maybe_need_close (c : xqc_conn_t) (s : xqc_stream_t) : xqc_stream_t :=
  if need_close s then s
  else if xqc_stream_is_terminal_state c s
  then xqc_stream_shutdown_read (set_flags s (ready_to_read s) true)
  else s.

(** The clock and the round-trip times the window update reads. *)
Record rtt_env := mk_rtt { now : Z; min_srtt : Z; max_srtt : Z }.

Definition xqc_clamp_to_max_flow_ctl (v : Z) : Z :=
  if XQC_MAX_FLOW_CONTROL_WINDOW <? v then XQC_MAX_FLOW_CONTROL_WINDOW else v.

(** The window doubles when the previous update is less than two round trips ago. *)
Definition window_grow (e : rtt_env) (win last : Z) : Z :=
  if negb (last =? 0) && (u64 (now e - last) <? 2 * min_srtt e)
  then Z.min (u64 (win * 2)) XQC_MAX_RECV_WINDOW else win.

(** [1.5 * window] is computed in floating point, exactly for windows below [2^52]. *)
Definition xqc_stream_do_recv_conn_flow_ctl (e : rtt_env) (s : xqc_stream_t) (c : xqc_conn_t)
    : xqc_conn_t :=
  let fc := conn_flow_ctl c in
  let available_window := u64 (fc_max_data_can_recv fc - fc_data_read fc) in
  if available_window <? fc_recv_windows_size fc / 2 then
    let swin := fc_stream_recv_window_size (stream_flow_ctl s) in
    let win :=
      if conn_recv_rate_bytes_per_sec c =? 0 then
        let win := window_grow e (fc_recv_windows_size fc) (cfc_last_window_update_time fc) in
        if 2 * win <? 3 * swin then (3 * swin) / 2 else win
      else
        Z.min XQC_MAX_RECV_WINDOW
          (Z.max XQC_MIN_RECV_WINDOW
             (u64 (conn_recv_rate_bytes_per_sec c * max_srtt e) / 1000000)) in
    if available_window <? win then
      let m := xqc_clamp_to_max_flow_ctl
                 (u64 (fc_max_data_can_recv fc + (win - available_window))) in
      send_frame (set_conn_flow c (mk_cfc m (fc_data_recved fc) (fc_data_read fc) win (now e)))
        (F_MAX_DATA m)
    else
      set_conn_flow c (mk_cfc (fc_max_data_can_recv fc) (fc_data_recved fc) (fc_data_read fc)
                         win (now e))
  else c.

Definition xqc_stream_do_recv_flow_ctl (e : rtt_env) (s : xqc_stream_t) (c : xqc_conn_t)
    : xqc_stream_t * xqc_conn_t :=
  let fc := stream_flow_ctl s in
  let available_window :=
    u64 (fc_max_stream_data_can_recv fc - next_read_offset (stream_data_in s)) in
  let '(s, c) :=
    if available_window <? fc_stream_recv_window_size fc / 2 then
      let win :=
        if recv_rate_bytes_per_sec s =? 0
        then window_grow e (fc_stream_recv_window_size fc) (fc_last_window_update_time fc)
        else Z.min XQC_MAX_RECV_WINDOW
               (Z.max (init_recv_window c)
                  (u64 (recv_rate_bytes_per_sec s * max_srtt e) / 1000000)) in
      if available_window <? win then
        let m := xqc_clamp_to_max_flow_ctl
                   (u64 (fc_max_stream_data_can_recv fc + (win - available_window))) in
        (set_flow s (mk_sfc m win (now e)) (stream_max_recv_offset s),
         send_frame c (F_MAX_STREAM_DATA (stream_id s) m))
      else
        (set_flow s (mk_sfc (fc_max_stream_data_can_recv fc) win (now e))
           (stream_max_recv_offset s), c)
    else (s, c) in
  (s, xqc_stream_do_recv_conn_flow_ctl e s c).

Definition data_read (c : xqc_conn_t) (n : Z) : xqc_conn_t :=
  let fc := conn_flow_ctl c in
  set_conn_flow c (mk_cfc (fc_max_data_can_recv fc) (fc_data_recved fc)
                     (u64 (fc_data_read fc + n)) (fc_recv_windows_size fc)
                     (cfc_last_window_update_time fc)).

Definition xqc_stream_complete_recv_reset (e : rtt_env) (s : xqc_stream_t) (c : xqc_conn_t)
    (error_code final_size : Z) (consume_reset : bool) : xqc_stream_t * xqc_conn_t :=
  if stream_state_recv s =? XQC_RECV_STREAM_ST_DATA_READ then (s, c)
  else
    let s := set_stream_err s error_code in
    let '(s, c) :=
      if stream_state_recv s <? XQC_RECV_STREAM_ST_RESET_RECVD then
        let d := stream_data_in s in
        let c := data_read c (final_size - next_read_offset d) in
        let s := set_data_in s
                   (mk_sdi [] (merged_offset_end d) (next_read_offset d) (stream_length d)
                      (stream_determined d) 0 0 (cap_reject_logged d)) in
        let s := xqc_stream_recv_state_update s XQC_RECV_STREAM_ST_RESET_RECVD in
        let c := xqc_stream_do_recv_conn_flow_ctl e s c in
        ((if consume_reset then s else xqc_stream_ready_to_read s), c)
      else (s, c) in
    ((if consume_reset
      then xqc_stream_maybe_need_close c
             (xqc_stream_shutdown_read
                (xqc_stream_recv_state_update s XQC_RECV_STREAM_ST_RESET_READ))
      else s), c).

(** ** [xqc_stream_recv] *)

(** The bytes read and [*fin]; [-XQC_EAGAIN] when there is neither. *)
Definition xqc_stream_recv (e : rtt_env) (s : xqc_stream_t) (c : xqc_conn_t)
    (recv_buf_size : Z) : res (list Z * bool) * xqc_stream_t * xqc_conn_t :=
  let ra := reset_at s in
  let d := stream_data_in s in
  if (match recv_state ra with XQC_RESET_AT_RELIABLE => true | _ => false end)
     && negb (stream_state_recv s =? XQC_RECV_STREAM_ST_DATA_READ)
     && (stream_state_recv s <? XQC_RECV_STREAM_ST_RESET_RECVD)
     && (recv_size ra <=? next_read_offset d)
  then
    let '(s, c) :=
      xqc_stream_complete_recv_reset e s c (recv_error ra) (stream_length d) true in
    (Err XQC_ESTREAM_RESET, s, c)
  else if XQC_RECV_STREAM_ST_RESET_RECVD <=? stream_state_recv s then
    let s := xqc_stream_recv_state_update s XQC_RECV_STREAM_ST_RESET_READ in
    (Err XQC_ESTREAM_RESET, xqc_stream_maybe_need_close c (xqc_stream_shutdown_read s), c)
  else
    let size :=
      if reset_at_none (recv_state ra) then recv_buf_size
      else Z.min recv_buf_size (u64 (recv_size ra - next_read_offset d)) in
    let '(d, out) := recv_loop (frames_tailq d) d size [] in
    let s := set_data_in s d in
    let fin :=
      reset_at_none (recv_state ra) && stream_determined d
      && (next_read_offset d =? stream_length d) in
    let s :=
      if fin && (stream_state_recv s =? XQC_RECV_STREAM_ST_DATA_RECVD)
      then xqc_stream_maybe_need_close c
             (xqc_stream_recv_state_update s XQC_RECV_STREAM_ST_DATA_READ)
      else s in
    let c := data_read c (zlen out) in
    let '(s, c) := xqc_stream_do_recv_flow_ctl e (xqc_stream_shutdown_read s) c in
    let s :=
      if negb (reset_at_none (recv_state ra)) && (recv_size ra <=? next_read_offset d)
      then xqc_stream_ready_to_read s else s in
    ((if (zlen out =? 0) && negb fin then Err XQC_EAGAIN else Ok (out, fin)), s, c).

(** ** [xqc_process_stream_frame], from the stream that was found to the end *)

Definition set_final (d : xqc_stream_data_in_t) (len : Z) : xqc_stream_data_in_t :=
  mk_sdi (frames_tailq d) (merged_offset_end d) (next_read_offset d) len true
    (buffered_frame_count d) (buffered_data_bytes d) (cap_reject_logged d).

(** The completion of a stream whose data is all there. *)
Definition all_recvd (s : xqc_stream_t) : xqc_stream_t :=
  xqc_stream_ready_to_read
    (if stream_state_recv s =? XQC_RECV_STREAM_ST_SIZE_KNOWN
     then xqc_stream_recv_state_update s XQC_RECV_STREAM_ST_DATA_RECVD else s).

(** The FIN of the frame fixes the final size. *)
Definition on_fin (s : xqc_stream_t) (end_ : Z) : xqc_stream_t :=
  let s := set_data_in s (set_final (stream_data_in s) end_) in
  if stream_state_recv s =? XQC_RECV_STREAM_ST_RECV
  then xqc_stream_recv_state_update s XQC_RECV_STREAM_ST_SIZE_KNOWN else s.

(** After the frame was inserted: flow-control accounting, and waking the reader. *)
Definition after_insert (s : xqc_stream_t) (c : xqc_conn_t) (end_ : Z)
    : res unit * xqc_stream_t * xqc_conn_t :=
  let fc := conn_flow_ctl c in
  let '(s, c) :=
    if stream_max_recv_offset s <? end_ then
      (set_flow s (stream_flow_ctl s) end_,
       set_conn_flow c (mk_cfc (fc_max_data_can_recv fc)
                          (u64 (fc_data_recved fc + (end_ - stream_max_recv_offset s)))
                          (fc_data_read fc) (fc_recv_windows_size fc)
                          (cfc_last_window_update_time fc)))
    else (s, c) in
  if fc_max_data_can_recv (conn_flow_ctl c) <? fc_data_recved (conn_flow_ctl c)
  then (Err XQC_EPROTO, s, conn_error c TRA_FLOW_CONTROL_ERROR)
  else if fc_max_stream_data_can_recv (stream_flow_ctl s) <? stream_max_recv_offset s
  then (Err XQC_EPROTO, s, conn_error c TRA_FLOW_CONTROL_ERROR)
  else
    let d := stream_data_in s in
    let complete :=
      if reset_at_none (recv_state (reset_at s))
      then stream_length d =? merged_offset_end d
      else recv_size (reset_at s) <=? merged_offset_end d in
    let s :=
      if stream_determined d && complete then all_recvd s
      else if next_read_offset d <? merged_offset_end d then xqc_stream_ready_to_read s
      else s in
    (Ok tt, s, c).

(** The checks before the frame goes to the reassembly, and the reassembly. *)
Definition check_and_insert (short_header : bool) (f : xqc_stream_frame_t) (s : xqc_stream_t)
    (c : xqc_conn_t) : res unit * xqc_stream_t * xqc_conn_t :=
  let n := node_of f in
  let end_ := nd_end n in
  let d := stream_data_in s in
  let fc := conn_flow_ctl c in
  if stream_determined d && (stream_length d <? end_)
  then (Err XQC_EPROTO, s, conn_error c TRA_FINAL_SIZE_ERROR)
  else if discarded s
  then (Ok tt, (if fin f then set_flags s (ready_to_read s) true else s), c)
  else if fc_max_stream_data_can_recv (stream_flow_ctl s) <? end_
  then (Err XQC_EPROTO, s, conn_error c TRA_FLOW_CONTROL_ERROR)
  else if (stream_max_recv_offset s <? end_)
          && (fc_max_data_can_recv fc
              <? u64 (fc_data_recved fc + (end_ - stream_max_recv_offset s)))
  then (Err XQC_EPROTO, s, conn_error c TRA_FLOW_CONTROL_ERROR)
  else
    match xqc_insert_stream_frame (max_stream_frame_buffered_cnt c) d n with
    | (Err e, d) =>
        let s := set_data_in s d in
        if e =? XQC_EDUP_FRAME then (Ok tt, s, c)
        else if (e =? XQC_ELIMIT) && short_header then (Err XQC_EIGNORE_PKT, s, c)
        else (Err e, s, c)
    | (Ok _, d) => after_insert (set_data_in s d) c end_
    end.

Definition xqc_process_stream_frame (short_header : bool) (f : xqc_stream_frame_t)
    (s : xqc_stream_t) (c : xqc_conn_t) : res unit * xqc_stream_t * xqc_conn_t :=
  let end_ := nd_end (node_of f) in
  let d := stream_data_in s in
  if (recv_seen (reset_at s) || negb (reset_at_none (recv_state (reset_at s))))
     && ((stream_max_recv_offset s <? end_)
         || (fin f && negb (end_ =? stream_max_recv_offset s)))
  then (Err XQC_EPROTO, s, conn_error c TRA_FINAL_SIZE_ERROR)
  else if XQC_RECV_STREAM_ST_RESET_RECVD <=? stream_state_recv s then (Ok tt, s, c)
  else if (end_ <=? merged_offset_end d)
          && negb (fin f && (nd_len (node_of f) =? 0) && negb (stream_determined d))
  then
    (Ok tt,
     (if stream_determined d && (stream_length d =? merged_offset_end d)
         && (stream_state_recv s =? XQC_RECV_STREAM_ST_SIZE_KNOWN) && negb (discarded s)
      then all_recvd s else s), c)
  else if fin f then
    if stream_determined d && negb (stream_length d =? end_)
    then (Err XQC_EPROTO, s, conn_error c TRA_FINAL_SIZE_ERROR)
    else check_and_insert short_header f (on_fin s end_) c
  else check_and_insert short_header f s c.

End StreamRecv.
