(* ===== verification/StreamReset.v ===== *)
(** Resetting streams, and the other frames and calls that touch the receive windows:
    the handlers of RESET_STREAM (with and without the extension RESET_STREAM_AT),
    RESET_STREAM_AT, DATA_BLOCKED and STREAM_DATA_BLOCKED in [src/transport/xqc_frame.c], the
    reset of the sending part and the creation of streams in [src/transport/xqc_stream.c].

    Each handler starts from the stream that was found or created. The send queue, the mark of
    a stream as ready to write, statistics and the callbacks of the application are left out. *)

From stdpp Require Import base numbers list.
From S2P Require Import Prelude VInt PacketBuf Frames FrameSpec StreamRecv.
Import Frames FrameSpec StreamRecv.

Module StreamReset.

Definition XQC_ESTATE : Z := 612.

(** What the handlers read of the settings of the two ends. *)
Record xqc_trans_settings_t := mk_ts {
  max_data : Z;
  max_stream_data_bidi_local : Z;
  max_stream_data_bidi_remote : Z;
  max_stream_data_uni : Z;
  local_reset_stream_at : bool;
  remote_reset_stream_at : bool;
}.

(** ** The sending part *)

Definition set_send (s : xqc_stream_t) (p : xqc_stream_send_t) : xqc_stream_t :=
  mk_stream (stream_id s) (stream_data_in s) (stream_state_recv s) p (stream_flow_ctl s)
    (stream_max_recv_offset s) (recv_rate_bytes_per_sec s) (ready_to_read s) (need_close s)
    (discarded s) (reset_at s) (stream_err s).

Definition set_send_size (s : xqc_stream_t) (n : Z) : xqc_stream_t :=
  let p := stream_send s in
  set_send s (mk_send (stream_state_send p) (stream_send_offset p) (send_state p) n
                (send_final_size p) (send_error p) (send_update_pending p) (send_reset_acked p)).

(** [send_state] and [send_update_pending] after a frame was written. *)
Definition set_send_state (s : xqc_stream_t) (st : xqc_stream_reset_at_send_state_t)
    : xqc_stream_t :=
  let p := stream_send s in
  set_send s (mk_send (stream_state_send p) (stream_send_offset p) st (send_size p)
                (send_final_size p) (send_error p) false (send_reset_acked p)).

(** [w] is the outcome of making a packet and putting the frame in it. *)
Definition xqc_write_reset_stream_to_packet (w : res unit) (s : xqc_stream_t) (c : xqc_conn_t)
    (err_code final_size : Z) : res unit * xqc_stream_t * xqc_conn_t :=
  let p := stream_send s in
  if XQC_SEND_STREAM_ST_DATA_RECVD <=? stream_state_send p then (Ok tt, s, c)
  else
    match w with
    | Err e => (Err e, s, c)
    | Ok _ =>
        let st := if stream_state_send p <? XQC_SEND_STREAM_ST_RESET_SENT
                  then XQC_SEND_STREAM_ST_RESET_SENT else stream_state_send p in
        (Ok tt,
         set_stream_err
           (set_send s (mk_send st (stream_send_offset p) (send_state p) (send_size p)
                          (send_final_size p) err_code (send_update_pending p)
                          (send_reset_acked p))) err_code,
         send_frame c (F_RESET_STREAM (stream_id s) err_code final_size))
    end.

Definition xqc_write_reset_stream_at_to_packet (w : res unit) (s : xqc_stream_t)
    (c : xqc_conn_t) (err_code final_size reliable_size : Z) : res unit * xqc_conn_t :=
  match w with
  | Err e => (Err e, c)
  | Ok _ => (Ok tt, send_frame c (F_RESET_STREAM_AT (stream_id s) err_code final_size
                                    reliable_size))
  end.

Definition xqc_stream_do_reset (cfg : xqc_trans_settings_t) (w : res unit) (s : xqc_stream_t)
    (c : xqc_conn_t) (error_code : Z) : res unit * xqc_stream_t * xqc_conn_t :=
  let p := stream_send s in
  if bool_decide (send_state p = XQC_RESET_AT_SENT) then
    if negb (error_code =? send_error p) then (Err XQC_ESTATE, s, c)
    else if negb (send_update_pending p) then (Ok tt, s, c)
    else if send_size p =? 0 then
      match xqc_write_reset_stream_to_packet w s c error_code (send_final_size p) with
      | (Err e, s, c) => (Err e, s, c)
      | (Ok _, s, c) => (Ok tt, set_send_state s XQC_RESET_AT_NONE, c)
      end
    else
      match xqc_write_reset_stream_at_to_packet w s c error_code (send_final_size p)
              (send_size p) with
      | (Err e, c) => (Err e, s, c)
      | (Ok _, c) => (Ok tt, set_send_state s XQC_RESET_AT_SENT, c)
      end
  else if stream_state_send p =? XQC_SEND_STREAM_ST_DATA_RECVD then (Ok tt, s, c)
  else if XQC_SEND_STREAM_ST_RESET_SENT <=? stream_state_send p
  then ((if error_code =? send_error p then Ok tt else Err XQC_ESTATE), s, c)
  else if bool_decide (send_state p = XQC_RESET_AT_NONE)
  then xqc_write_reset_stream_to_packet w s c error_code (stream_send_offset p)
  else if (0 <? send_size p) && negb (remote_reset_stream_at cfg) then (Err XQC_ESTATE, s, c)
  else if stream_send_offset p <? send_size p then (Err XQC_EAGAIN, s, c)
  else if send_size p =? 0
  then xqc_write_reset_stream_to_packet w s c error_code (stream_send_offset p)
  else
    match xqc_write_reset_stream_at_to_packet w s c error_code (stream_send_offset p)
            (send_size p) with
    | (Err e, c) => (Err e, s, c)
    | (Ok _, c) =>
        (Ok tt,
         set_stream_err
           (set_send s (mk_send XQC_SEND_STREAM_ST_DATA_SENT (stream_send_offset p)
                          XQC_RESET_AT_SENT (send_size p) (stream_send_offset p) error_code
                          false false)) error_code, c)
    end.

(** [ret = xqc_stream_do_reset(...)], and once more without a reliable size on
    [-XQC_EAGAIN]. *)
Definition do_reset_twice (cfg : xqc_trans_settings_t) (w : res unit) (s : xqc_stream_t)
    (c : xqc_conn_t) (error_code : Z) : res unit * xqc_stream_t * xqc_conn_t :=
  match xqc_stream_do_reset cfg w s c error_code with
  | (Err e, s, c) =>
      if e =? XQC_EAGAIN then xqc_stream_do_reset cfg w (set_send_size s 0) c error_code
      else (Err e, s, c)
  | r => r
  end.

(** The sending part is still to be reset. *)
Definition send_open (c : xqc_conn_t) (s : xqc_stream_t) : bool :=
  negb (xqc_stream_is_recv_only (rc_type c) (stream_id s))
  && negb (bool_decide (send_state (stream_send s) = XQC_RESET_AT_SENT))
  && (stream_state_send (stream_send s) <? XQC_SEND_STREAM_ST_DATA_RECVD).

(** ** RESET_STREAM and RESET_STREAM_AT *)

Definition set_reset_at (s : xqc_stream_t) (ra : xqc_stream_reset_at_t) : xqc_stream_t :=
  mk_stream (stream_id s) (stream_data_in s) (stream_state_recv s) (stream_send s)
    (stream_flow_ctl s) (stream_max_recv_offset s) (recv_rate_bytes_per_sec s)
    (ready_to_read s) (need_close s) (discarded s) ra (stream_err s).

Definition charge (c : xqc_conn_t) (n : Z) : xqc_conn_t :=
  let fc := conn_flow_ctl c in
  set_conn_flow c (mk_cfc (fc_max_data_can_recv fc) (u64 (fc_data_recved fc + n))
                     (fc_data_read fc) (fc_recv_windows_size fc)
                     (cfc_last_window_update_time fc)).

Definition xqc_stream_account_reset_final_size (s : xqc_stream_t) (c : xqc_conn_t)
    (final_size : Z) : res unit * xqc_stream_t * xqc_conn_t :=
  let d := stream_data_in s in
  let fc := conn_flow_ctl c in
  if (final_size <? stream_max_recv_offset s)
     || (stream_determined d && negb (final_size =? stream_length d))
     || ((XQC_RECV_STREAM_ST_RESET_RECVD <=? stream_state_recv s)
         && negb (final_size =? stream_max_recv_offset s))
  then (Err XQC_EPROTO, s, conn_error c TRA_FINAL_SIZE_ERROR)
  else
    let increase := final_size - stream_max_recv_offset s in
    if (fc_max_stream_data_can_recv (stream_flow_ctl s) <? final_size)
       || (fc_max_data_can_recv fc <? fc_data_recved fc)
       || (fc_max_data_can_recv fc - fc_data_recved fc <? increase)
    then (Err XQC_EPROTO, s, conn_error c TRA_FLOW_CONTROL_ERROR)
    else (Ok tt, set_flow s (stream_flow_ctl s) final_size, charge c increase).

Definition xqc_process_reset_stream_fields (cfg : xqc_trans_settings_t) (e : rtt_env)
    (w : res unit) (s : xqc_stream_t) (c : xqc_conn_t) (err_code final_size : Z)
    : res unit * xqc_stream_t * xqc_conn_t :=
  let none := reset_at_none (recv_state (reset_at s)) in
  if none && (XQC_RECV_STREAM_ST_RESET_RECVD <=? stream_state_recv s) then
    if negb (err_code =? recv_error (reset_at s))
    then (Err XQC_EPROTO, s, conn_error c TRA_STREAM_STATE_ERROR)
    else if negb (final_size =? stream_max_recv_offset s)
    then (Err XQC_EPROTO, s, conn_error c TRA_FINAL_SIZE_ERROR)
    else (Ok tt, s, c)
  else if negb none && negb (err_code =? recv_error (reset_at s))
  then (Err XQC_EPROTO, s, conn_error c TRA_STREAM_STATE_ERROR)
  else
    match xqc_stream_account_reset_final_size s c final_size with
    | (Err err, s, c) => (Err err, s, c)
    | (Ok _, s, c) =>
        match (if send_open c s then do_reset_twice cfg w s c err_code else (Ok tt, s, c)) with
        | (Err err, s, c) => (Err err, s, c)
        | (Ok _, s, c) =>
            if stream_state_recv s =? XQC_RECV_STREAM_ST_DATA_READ then (Ok tt, s, c)
            else
              let ra := reset_at s in
              let s :=
                if none then set_reset_at s (mk_ra (recv_seen ra) (recv_state ra) (recv_size ra)
                                               err_code)
                else set_data_in
                       (set_reset_at s (mk_ra (recv_seen ra) XQC_RESET_AT_ORDINARY 0 err_code))
                       (set_final (stream_data_in s) final_size) in
              let '(s, c) := xqc_stream_complete_recv_reset e s c err_code final_size false in
              (Ok tt, s, c)
        end
    end.

(** The handler without the extension: nothing is compared with the limits. *)
Definition xqc_process_reset_stream_frame (w : res unit) (s : xqc_stream_t) (c : xqc_conn_t)
    (err_code final_size : Z) : res unit * xqc_stream_t * xqc_conn_t :=
  if (stream_state_recv s <? XQC_RECV_STREAM_ST_RESET_RECVD)
     && (final_size <? stream_max_recv_offset s)
  then (Err XQC_EPROTO, s, conn_error c TRA_FINAL_SIZE_ERROR)
  else
    let s := set_stream_err s err_code in
    let '(s, c) :=
      if send_open c s then
        let '(_, s, c) := xqc_write_reset_stream_to_packet w s c err_code
                            (stream_send_offset (stream_send s)) in (s, c)
      else (s, c) in
    if stream_state_recv s =? XQC_RECV_STREAM_ST_DATA_READ then (Ok tt, s, c)
    else if stream_state_recv s <? XQC_RECV_STREAM_ST_RESET_RECVD then
      let d := stream_data_in s in
      let s := xqc_stream_recv_state_update s XQC_RECV_STREAM_ST_RESET_RECVD in
      let c := data_read (charge c (final_size - stream_max_recv_offset s))
                 (final_size - next_read_offset d) in
      let s := set_data_in s
                 (mk_sdi [] (merged_offset_end d) (next_read_offset d) (stream_length d)
                    (stream_determined d) 0 0 (cap_reject_logged d)) in
      (Ok tt, xqc_stream_ready_to_read s, c)
    else (Ok tt, s, c).

(** The [case] of RESET_STREAM in [xqc_process_frames]. *)
Definition process_reset_stream (cfg : xqc_trans_settings_t) (e : rtt_env) (w : res unit)
    (s : xqc_stream_t) (c : xqc_conn_t) (err_code final_size : Z)
    : res unit * xqc_stream_t * xqc_conn_t :=
  if local_reset_stream_at cfg
  then xqc_process_reset_stream_fields cfg e w s c err_code final_size
  else xqc_process_reset_stream_frame w s c err_code final_size.

Definition see_reset_at (s : xqc_stream_t) (err_code : Z) : xqc_stream_t :=
  let ra := reset_at s in set_reset_at s (mk_ra true (recv_state ra) (recv_size ra) err_code).

(** From the stream on; the packet type was checked before the frame was parsed. *)
Definition xqc_process_reset_stream_at_frame (cfg : xqc_trans_settings_t) (e : rtt_env)
    (w : res unit) (s : xqc_stream_t) (c : xqc_conn_t)
    (error final_size reliable_size : Z) : res unit * xqc_stream_t * xqc_conn_t :=
  let none := reset_at_none (recv_state (reset_at s)) in
  let d := stream_data_in s in
  if negb (local_reset_stream_at cfg)
  then (Err XQC_EPROTO, s, conn_error c TRA_PROTOCOL_VIOLATION)
  else if xqc_stream_is_send_only (rc_type c) (stream_id s)
  then (Err XQC_EPROTO, s, conn_error c TRA_STREAM_STATE_ERROR)
  else if (XQC_RECV_STREAM_ST_RESET_RECVD <=? stream_state_recv s) && none then
    if negb (error =? recv_error (reset_at s))
    then (Err XQC_EPROTO, s, conn_error c TRA_STREAM_STATE_ERROR)
    else if negb (final_size =? stream_max_recv_offset s)
    then (Err XQC_EPROTO, s, conn_error c TRA_FINAL_SIZE_ERROR)
    else
      let s := see_reset_at s (recv_error (reset_at s)) in
      if reliable_size =? 0 then xqc_process_reset_stream_fields cfg e w s c error final_size
      else (Ok tt, s, c)
  else if negb none && negb (error =? recv_error (reset_at s))
  then (Err XQC_EPROTO, s, conn_error c TRA_STREAM_STATE_ERROR)
  else if negb none && (recv_size (reset_at s) <=? reliable_size) then
    if negb (final_size =? stream_length d)
    then (Err XQC_EPROTO, s, conn_error c TRA_FINAL_SIZE_ERROR)
    else (Ok tt, s, c)
  else
    match xqc_stream_account_reset_final_size s c final_size with
    | (Err err, s, c) => (Err err, s, c)
    | (Ok _, s, c) =>
        if reliable_size =? 0
        then xqc_process_reset_stream_fields cfg e w (see_reset_at s error) c error final_size
        else if stream_state_recv s =? XQC_RECV_STREAM_ST_DATA_READ then (Ok tt, s, c)
        else if XQC_RECV_STREAM_ST_RESET_RECVD <=? stream_state_recv s then (Ok tt, s, c)
        else
          let s := set_data_in s (set_final (stream_data_in s) final_size) in
          let s := set_reset_at s (mk_ra (recv_seen (reset_at s)) XQC_RESET_AT_RELIABLE
                                     reliable_size error) in
          if reliable_size <=? next_read_offset (stream_data_in s) then
            let '(s, c) := xqc_stream_complete_recv_reset e s c error final_size false in
            (Ok tt, s, c)
          else
            let st := if reliable_size <=? merged_offset_end (stream_data_in s)
                      then XQC_RECV_STREAM_ST_DATA_RECVD else XQC_RECV_STREAM_ST_SIZE_KNOWN in
            (Ok tt, xqc_stream_ready_to_read (xqc_stream_recv_state_update s st), c)
    end.

(** ** DATA_BLOCKED and STREAM_DATA_BLOCKED *)

Definition xqc_process_data_blocked_frame (w : res unit) (c : xqc_conn_t) (data_limit : Z)
    : res unit * xqc_conn_t :=
  let fc := conn_flow_ctl c in
  let room := u64 (fc_data_read fc + fc_recv_windows_size fc) in
  if room <=? data_limit then (Ok tt, c)
  else
    let new_limit := xqc_clamp_to_max_flow_ctl room in
    if fc_max_data_can_recv fc <? new_limit then
      let c := set_conn_flow c (mk_cfc new_limit (fc_data_recved fc) (fc_data_read fc)
                                  (fc_recv_windows_size fc) (cfc_last_window_update_time fc)) in
      match w with
      | Err e => (Err e, c)
      | Ok _ => (Ok tt, send_frame c (F_MAX_DATA new_limit))
      end
    else (Ok tt, c).

Definition xqc_process_stream_data_blocked_frame (w : res unit) (s : xqc_stream_t)
    (c : xqc_conn_t) (stream_data_limit : Z) : res unit * xqc_stream_t * xqc_conn_t :=
  let fc := stream_flow_ctl s in
  let room := u64 (next_read_offset (stream_data_in s) + fc_stream_recv_window_size fc) in
  if room <=? stream_data_limit then (Ok tt, s, c)
  else
    let new_limit := xqc_clamp_to_max_flow_ctl room in
    if fc_max_stream_data_can_recv fc <? new_limit then
      let s := set_flow s (mk_sfc new_limit (fc_stream_recv_window_size fc)
                             (fc_last_window_update_time fc)) (stream_max_recv_offset s) in
      match w with
      | Err e => (Err e, s, c)
      | Ok _ => (Ok tt, s, send_frame c (F_MAX_STREAM_DATA (stream_id s) new_limit))
      end
    else (Ok tt, s, c).

(** ** Creating a stream *)

(** The receive limit by stream type; the window has the same size. *)
Definition xqc_stream_set_flow_ctl (cfg : xqc_trans_settings_t) (ct : xqc_conn_type_t)
    (stream_type : Z) : xqc_stream_flow_ctl_t :=
  let v :=
    match ct with
    | XQC_CONN_TYPE_CLIENT =>
        if stream_type =? XQC_CLI_BID then max_stream_data_bidi_local cfg
        else if stream_type =? XQC_SVR_BID then max_stream_data_bidi_remote cfg
        else max_stream_data_uni cfg
    | _ =>
        if stream_type =? XQC_CLI_BID then max_stream_data_bidi_remote cfg
        else if stream_type =? XQC_SVR_BID then max_stream_data_bidi_local cfg
        else max_stream_data_uni cfg
    end in
  mk_sfc v v 0.

(** The stream that [xqc_create_stream_with_conn] makes. Its memory is zeroed, and the flow
    control is set before [stream_type] is assigned: the type that counts is 0. [rate] and
    [refused] are the rate of its settings and whether the application refused it. *)
Definition xqc_create_stream_with_conn (cfg : xqc_trans_settings_t) (c : xqc_conn_t) (id rate : Z)
    (refused : bool) : xqc_stream_t :=
  mk_stream id sdi_init XQC_RECV_STREAM_ST_RECV send_init
    (xqc_stream_set_flow_ctl cfg (rc_type c) 0) 0 rate false false refused
    (mk_ra false XQC_RESET_AT_RECV_NONE 0 0) 0.

(** The limits a connection starts with, by [enable_stream_rate_limit] and
    [init_recv_window]; [max_data] is computed from a rate or from the numbers of streams. *)
Definition xqc_conn_init_trans_settings (enable_stream_rate_limit : bool)
    (init_recv_window max_data : Z) (local_at remote_at : bool) : xqc_trans_settings_t :=
  mk_ts max_data
    (if enable_stream_rate_limit then init_recv_window else XQC_MAX_RECV_WINDOW)
    XQC_MAX_RECV_WINDOW XQC_MAX_RECV_WINDOW local_at remote_at.

End StreamReset.
