(* ===== verification/Reassembly.v ===== *)
(** Theorems about receiving a stream: whatever the order, the overlaps and the repetitions
    of the frames, the application reads the bytes the peer wrote, in order; the reader gets
    all there is; the buffered frames stay bounded. *)

From Stdlib Require Import Sorting.Sorted.
From stdpp Require Import base numbers list relations sorting.
From S2P Require Import Prelude VInt PacketBuf Frames FrameSpec StreamRecv.
Import Frames FrameSpec StreamRecv.

Module Reassembly.

Section stream.
(** The byte the peer wrote at each offset of the stream. *)
Context (S : Z -> Z).

(** The bytes from [a] up to, not including, [b]. *)
Definition slice (a b : Z) : list Z := map S (seqZ a (b - a)).

Lemma slice_nil a b : b <= a -> slice a b = [].
Proof. intros. unfold slice. by rewrite seqZ_nil by lia. Qed.

Lemma slice_app a b c : a <= b -> b <= c -> slice a c = slice a b ++ slice b c.
Proof.
  intros Hab Hbc. unfold slice. rewrite <- map_app. f_equal.
  replace (c - a) with ((b - a) + (c - b)) by lia. rewrite seqZ_app by lia. do 2 f_equal. lia.
Qed.

Lemma zlen_slice a b : a <= b -> zlen (slice a b) = b - a.
Proof. intros. unfold slice, zlen. rewrite length_map, length_seqZ. lia. Qed.

(** A part of a slice. *)
Lemma slice_sub a b p n :
  0 <= p -> 0 <= n -> a + p + n <= b -> sub_bytes (slice a b) p n = slice (a + p) (a + p + n).
Proof.
  intros Hp Hn Hb. rewrite (slice_app a (a + p) b), (slice_app (a + p) (a + p + n) b) by lia.
  unfold sub_bytes. rewrite drop_app_length', take_app_length'; [done| |].
  - pose proof (zlen_slice (a + p) (a + p + n)). unfold zlen in *. lia.
  - pose proof (zlen_slice a (a + p)). unfold zlen in *. lia.
Qed.

(** ** The invariant *)

(** A frame with the peer's data, of which the part before [next] may have been read. *)
Record node_ok (next : Z) (f : node) : Prop := {
  no_off : 0 <= nd_offset f;
  no_data : nd_data f = slice (nd_offset f) (nd_end f);
  no_read : 0 <= nd_next f <= Z.max 0 (next - nd_offset f);
  no_max : nd_end f < 2 ^ 62;
}.

Definition by_offset (f g : node) : Prop := nd_offset f <= nd_offset g.

(** The frames are in the order of their offsets, those that start inside the contiguous
    part end inside it, and the part that was not read is all there. *)
Record frames_ok (l : list node) (next merged : Z) : Prop := {
  fo_next : 0 <= next <= merged;
  fo_sorted : StronglySorted by_offset l;
  fo_nodes : Forall (node_ok next) l;
  fo_closed : forall f, f ∈ l -> nd_offset f <= merged -> nd_end f <= merged;
  fo_cover : forall x, next <= x < merged -> exists f, f ∈ l /\ nd_offset f <= x < nd_end f;
}.

Definition bytes_of (l : list node) : Z := foldr (fun f n => nd_len f + n) 0 l.

Record sdi_ok (d : xqc_stream_data_in_t) : Prop := {
  sd_frames : frames_ok (frames_tailq d) (next_read_offset d) (merged_offset_end d);
  sd_count : buffered_frame_count d = Z.of_nat (length (frames_tailq d));
  sd_bytes : buffered_data_bytes d = bytes_of (frames_tailq d);
}.

Lemma sdi_init_ok : sdi_ok sdi_init.
Proof.
  split; [|done|done]. split; simpl; [lia|constructor|constructor| |lia].
  intros f Hf. by apply not_elem_of_nil in Hf.
Qed.

Lemma nd_len_nonneg f : 0 <= nd_len f.
Proof. apply zlen_nonneg. Qed.

Lemma bytes_of_nonneg l : 0 <= bytes_of l.
Proof. induction l as [|f l IH]; simpl; [lia|]. pose proof (nd_len_nonneg f). lia. Qed.

Lemma bytes_of_app l k : bytes_of (l ++ k) = bytes_of l + bytes_of k.
Proof. induction l as [|f l IH]; simpl; lia. Qed.

Lemma node_ok_mono next next' f : node_ok next f -> next <= next' -> node_ok next' f.
Proof. intros [] Hle. split; [done|done|lia|done]. Qed.

(** ** Reading *)

(** A frame that was read to its end, or that the reader has passed, may go. *)
Lemma frames_ok_drop f l next next' merged :
  frames_ok (f :: l) next merged -> next <= next' <= merged -> nd_end f <= next' ->
  frames_ok l next' merged.
Proof.
  intros [Hn Hs Hf Hc Hv] Hle He. apply StronglySorted_inv in Hs as [Hs _].
  apply Forall_cons in Hf as [_ Hf]. split; [lia|done| | |].
  - eapply Forall_impl; [exact Hf|]. intros g Hg. eapply node_ok_mono; [done|lia].
  - intros g Hg. apply Hc. by right.
  - intros x Hx. destruct (Hv x) as (g & Hg & Hgx); [lia|].
    apply elem_of_cons in Hg as [-> | Hg]; [lia|eauto].
Qed.

(** No frame starts behind the first byte that is still to be read, unless all is read. *)
Lemma frames_ok_head f l next merged :
  frames_ok (f :: l) next merged -> nd_offset f <= merged -> nd_offset f <= next.
Proof.
  intros [Hn Hs Hf Hc Hv] Hm. destruct (decide (nd_offset f <= next)); [done|].
  destruct (Hv next) as (g & Hg & Hgx); [lia|]. apply elem_of_cons in Hg as [-> | Hg]; [lia|].
  apply StronglySorted_inv in Hs as [_ Hs]. rewrite Forall_forall in Hs.
  specialize (Hs g Hg). unfold by_offset in Hs. lia.
Qed.

Lemma frames_ok_beyond f l next merged :
  frames_ok (f :: l) next merged -> merged < nd_offset f -> next = merged.
Proof.
  intros [Hn Hs Hf Hc Hv] Hm. destruct (decide (next < merged)); [|lia].
  destruct (Hv next) as (g & Hg & Hgx); [lia|]. apply elem_of_cons in Hg as [-> | Hg]; [lia|].
  apply StronglySorted_inv in Hs as [_ Hs]. rewrite Forall_forall in Hs.
  specialize (Hs g Hg). unfold by_offset in Hs. lia.
Qed.

Lemma frames_ok_nil next merged : frames_ok [] next merged -> next = merged.
Proof.
  intros [Hn _ _ _ Hv]. destruct (decide (next < merged)); [|lia].
  destruct (Hv next) as (g & Hg & _); [lia|]. by apply not_elem_of_nil in Hg.
Qed.

(** A frame read in part. *)
Lemma frames_ok_part f l next next' merged :
  frames_ok (f :: l) next merged -> nd_offset f <= next -> next <= next' <= merged ->
  frames_ok (mk_node (nd_offset f) (nd_data f) (next' - nd_offset f) :: l) next' merged.
Proof.
  intros [Hn Hs Hf Hc Hv] Ho Hle. apply StronglySorted_inv in Hs as [Hs Hs'].
  apply Forall_cons in Hf as [[] Hf]. split; [lia| | | |].
  - by constructor.
  - constructor; [|eapply Forall_impl; [exact Hf|]; intros g Hg; eapply node_ok_mono; [done|lia]].
    split; [done|done|simpl; lia|done].
  - intros g Hg Hgm. apply elem_of_cons in Hg as [-> | Hg]; [|apply Hc; [by right|done]].
    apply (Hc f); [by left|done].
  - intros x Hx. destruct (Hv x) as (g & Hg & Hgx); [lia|].
    apply elem_of_cons in Hg as [-> | Hg]; [|exists g; split; [by right|done]].
    eexists. split; [by left|done].
Qed.

Lemma free_frame_counts d f l :
  buffered_frame_count d = Z.of_nat (length (f :: l)) -> buffered_data_bytes d = bytes_of (f :: l) ->
  buffered_frame_count (free_frame d f) = Z.of_nat (length l)
  /\ buffered_data_bytes (free_frame d f) = bytes_of l.
Proof.
  simpl. intros -> ->. pose proof (bytes_of_nonneg l).
  destruct (0 <? _) eqn:E1, (nd_len f <=? _) eqn:E2; zify_bools; lia.
Qed.

(** The part of a frame behind the read position. *)
Lemma node_part f next n :
  node_ok next f -> nd_offset f <= next -> 0 <= n -> next + n <= nd_end f ->
  sub_bytes (nd_data f) (next - nd_offset f) n = slice next (next + n).
Proof.
  intros [] Ho Hn He. rewrite no_data0, slice_sub by lia. f_equal; lia.
Qed.

(** The loop at a frame that has something behind the read position, or ends there. *)
Lemma recv_loop_take f l d size out :
  frames_ok (f :: l) (next_read_offset d) (merged_offset_end d) ->
  nd_offset f <= merged_offset_end d -> next_read_offset d <= nd_end f -> zlen out < size ->
  let next := next_read_offset d in
  let k := size - zlen out in
  recv_loop (f :: l) d size out
  = if zlen out + (nd_end f - next) <=? size
    then recv_loop l (free_frame (read_on d (nd_end f - next)) f) size
           (out ++ slice next (nd_end f))
    else (set_frames (read_on d k) (mk_node (nd_offset f) (nd_data f) (next + k - nd_offset f) :: l),
          out ++ slice next (next + k)).
Proof.
  intros Hok Hm He Hsz next k. pose proof (frames_ok_head _ _ _ _ Hok Hm) as Hhd.
  pose proof (fo_nodes _ _ _ Hok) as Hf. apply Forall_cons in Hf as [Hf _].
  cbn [recv_loop]. fold next. fold next in Hhd, Hf, He.
  destruct (merged_offset_end d <? nd_offset f) eqn:E1; [zb|].
  destruct (size <=? zlen out) eqn:E2; [zb|]. destruct (nd_end f <? next) eqn:E3; [zb|].
  assert ((if nd_offset f <? next then Z.max (nd_next f) (next - nd_offset f) else nd_next f)
    = next - nd_offset f) as ->.
  { destruct Hf as [_ _ Hr _]. destruct (nd_offset f <? next) eqn:E4; zify_bools; lia. }
  cbv zeta. assert (u64 (nd_len f - (next - nd_offset f)) = nd_end f - next) as ->.
  { pose proof (no_max _ _ Hf). pose proof (no_off _ _ Hf).
    rewrite u64_small; unfold nd_end in *; lia. }
  destruct (_ <=? size) eqn:E5; zify_bools;
    rewrite (node_part f next) by (done || unfold k in *; lia).
  - by replace (next + (nd_end f - next)) with (nd_end f) by lia.
  - fold k. by replace (next - nd_offset f + k) with (next + k - nd_offset f) by lia.
Qed.

(** The loop copies exactly the bytes of the stream from the read position on, as many as
    fit or as there are; with room to spare, only frames behind a hole remain. *)
Definition recv_spec (d : xqc_stream_data_in_t) (size : Z) (out : list Z)
    (x : xqc_stream_data_in_t * list Z) : Prop :=
  let next' := Z.min (next_read_offset d + (size - zlen out)) (merged_offset_end d) in
  let '(d', out') := x in
  out' = out ++ slice (next_read_offset d) next'
  /\ next_read_offset d' = next' /\ merged_offset_end d' = merged_offset_end d
  /\ stream_length d' = stream_length d /\ stream_determined d' = stream_determined d
  /\ sdi_ok d'
  /\ (merged_offset_end d < next_read_offset d + (size - zlen out) ->
      Forall (fun f => merged_offset_end d < nd_offset f) (frames_tailq d')).

Lemma recv_spec_fit d size out f x :
  next_read_offset d <= nd_end f <= merged_offset_end d ->
  zlen out + (nd_end f - next_read_offset d) <= size ->
  recv_spec (free_frame (read_on d (nd_end f - next_read_offset d)) f) size
    (out ++ slice (next_read_offset d) (nd_end f)) x ->
  recv_spec d size out x.
Proof.
  intros He Hsz. unfold recv_spec. destruct x as [d' out'].
  rewrite zlen_app, zlen_slice by lia. cbn [free_frame read_on next_read_offset
    merged_offset_end stream_length stream_determined].
  replace (next_read_offset d + (nd_end f - next_read_offset d)) with (nd_end f) by lia.
  replace (nd_end f + (size - (zlen out + (nd_end f - next_read_offset d))))
    with (next_read_offset d + (size - zlen out)) by lia.
  intros (-> & H). split; [|done]. rewrite <- app_assoc, <- slice_app by lia. done.
Qed.

Lemma recv_loop_ok l : forall d size out,
  frames_ok l (next_read_offset d) (merged_offset_end d) ->
  buffered_frame_count d = Z.of_nat (length l) -> buffered_data_bytes d = bytes_of l ->
  zlen out <= size -> recv_spec d size out (recv_loop l d size out).
Proof.
  induction l as [|f l IH]; intros d size out Hok Hcnt Hbytes Hsz.
  - cbn [recv_loop]. pose proof (frames_ok_nil _ _ Hok). unfold recv_spec.
    rewrite slice_nil, app_nil_r by lia.
    split_and!; [done|simpl; lia|done..|by split|by constructor].
  - pose proof (fo_next _ _ _ Hok) as Hn.
    destruct (decide (merged_offset_end d < nd_offset f)) as [Hb|Hb];
      [|destruct (decide (size <= zlen out)) as [Hf|Hf]].
    + cbn [recv_loop]. destruct (_ <? nd_offset f) eqn:E1; [|zb]. unfold recv_spec.
      pose proof (frames_ok_beyond _ _ _ _ Hok Hb) as Hnm. rewrite slice_nil, app_nil_r by lia.
      split_and!; [done|simpl; lia|done..|by split|]. intros _. simpl. constructor; [done|].
      eapply Forall_impl; [apply (StronglySorted_inv (fo_sorted _ _ _ Hok))|].
      intros g Hg. unfold by_offset in Hg. lia.
    + cbn [recv_loop]. destruct (_ <? nd_offset f) eqn:E1; [zb|].
      destruct (size <=? zlen out) eqn:E2; [|zb]. unfold recv_spec. rewrite slice_nil, app_nil_r by lia.
      split_and!; [done|simpl; lia|done..|by split|lia].
    + destruct (free_frame_counts d f l Hcnt Hbytes) as [Hcnt' Hbytes'].
      pose proof (fo_closed _ _ _ Hok f ltac:(by left) ltac:(lia)) as Hend.
      destruct (decide (nd_end f < next_read_offset d)) as [Hp|Hp].
      * cbn [recv_loop]. destruct (_ <? nd_offset f) eqn:E1; [zb|].
        destruct (size <=? zlen out) eqn:E2; [zb|]. destruct (nd_end f <? _) eqn:E3; [|zb].
        apply (IH (free_frame d f)); [|done|done|done].
        apply (frames_ok_drop f l (next_read_offset d)); [done|simpl; lia|simpl; lia].
      * rewrite recv_loop_take by (done || lia). cbv zeta.
        destruct (_ <=? size) eqn:E5; zify_bools.
        -- apply (recv_spec_fit d size out f); [lia|lia|]. apply IH; [|done|done|].
           ++ eapply frames_ok_drop; [exact Hok|simpl; lia|simpl; lia].
           ++ rewrite zlen_app, zlen_slice; lia.
        -- unfold recv_spec. rewrite (Z.min_l _ (merged_offset_end d)) by lia.
           split_and!; [done..| |lia]. split; simpl; [|done|done].
           eapply frames_ok_part; [done| |lia]. by apply (frames_ok_head _ _ _ _ Hok); lia.
Qed.

(** ** Inserting *)

Lemma insert_pos_some n rl : forall after before after',
  StronglySorted by_offset (rev rl ++ after) ->
  Forall (fun g => nd_offset n < nd_offset g) after ->
  insert_pos rl after n = Some (before, after') ->
  before ++ after' = rev rl ++ after
  /\ Forall (fun g => nd_offset g <= nd_offset n) before
  /\ Forall (fun g => nd_offset n < nd_offset g) after'.
Proof.
  induction rl as [|f rl IH]; intros after before after' Hs Ha E; cbn [insert_pos] in E.
  - injection E as <- <-. by split_and!.
  - destruct (nd_dup f n); [done|]. cbn [rev] in *. destruct (_ <=? _) eqn:Ef; zify_bools.
    + injection E as <- <-. split_and!; [done| |done]. cbn [rev].
      apply Forall_app. split; [|by constructor].
      rewrite <- app_assoc in Hs. apply Forall_forall. intros g Hg.
      pose proof (StronglySorted_app_1_elem_of _ _ _ g f Hs Hg ltac:(by left)) as Hgf.
      unfold by_offset in Hgf. lia.
    + destruct (IH (f :: after) before after') as (Heq & Hb & Ha'); [|by constructor|done|].
      * by rewrite <- app_assoc in Hs.
      * split_and!; [|done|done]. by rewrite Heq, <- app_assoc.
Qed.

Lemma insert_pos_none n rl : forall after,
  insert_pos rl after n = None -> exists f, f ∈ rl /\ nd_dup f n = true.
Proof.
  induction rl as [|f rl IH]; intros after E; cbn [insert_pos] in E; [done|].
  destruct (nd_dup f n) eqn:Ed; [exists f; split; [by left|done]|].
  destruct (_ <=? _); [done|]. destruct (IH _ E) as (g & Hg & Hd).
  exists g. split; [by right|done].
Qed.

(** The contiguous part grows over the frames that follow without a hole. *)
Lemma merge_right_ok l : forall m,
  StronglySorted by_offset l ->
  let m' := merge_right m l in
  m <= m' /\ (forall f, f ∈ l -> nd_offset f <= m' -> nd_end f <= m')
  /\ (forall x, m <= x < m' -> exists f, f ∈ l /\ nd_offset f <= x < nd_end f).
Proof.
  induction l as [|f l IH]; intros m Hs; cbn [merge_right].
  - split_and!; [lia| |lia]. intros f Hf. by apply not_elem_of_nil in Hf.
  - apply StronglySorted_inv in Hs as [Hs Hf]. rewrite Forall_forall in Hf.
    destruct (_ <=? m) eqn:E; zify_bools.
    + destruct (IH (Z.max (nd_end f) m) Hs) as (Hle & Hc & Hv). split_and!; [lia| |].
      * intros g Hg. apply elem_of_cons in Hg as [-> | Hg]; [lia|by apply Hc].
      * intros x Hx. destruct (decide (x < nd_end f)).
        -- exists f. split; [by left|lia].
        -- destruct (Hv x) as (g & Hg & Hgx); [lia|]. exists g. split; [by right|done].
    + split_and!; [lia| |lia]. intros g Hg Hgm. exfalso.
      apply elem_of_cons in Hg as [-> | Hg]; [lia|]. specialize (Hf g Hg). unfold by_offset in Hf. lia.
Qed.

Lemma sorted_insert before after n :
  StronglySorted by_offset (before ++ after) ->
  Forall (fun g => nd_offset g <= nd_offset n) before ->
  Forall (fun g => nd_offset n < nd_offset g) after ->
  StronglySorted by_offset (before ++ n :: after).
Proof.
  intros Hs Hb Ha. rewrite Forall_forall in Hb. pose proof Hs as Hs'.
  apply StronglySorted_app in Hs' as (Hba & Hs1 & Hs2). apply StronglySorted_app_2; [|done|].
  - intros f g Hf Hg. apply elem_of_cons in Hg as [-> | Hg]; [by apply Hb|by apply Hba].
  - constructor; [done|]. eapply Forall_impl; [exact Ha|]. intros g Hg. unfold by_offset.
    cbv beta in Hg. lia.
Qed.

(** The frame list and the contiguous part after a frame was put in its place. *)
Lemma frames_ok_insert before after n next merged :
  frames_ok (before ++ after) next merged -> node_ok next n ->
  Forall (fun g => nd_offset g <= nd_offset n) before ->
  Forall (fun g => nd_offset n < nd_offset g) after ->
  let m := if (nd_offset n <=? merged) && (merged <? nd_end n)
           then merge_right (nd_end n) after else merged in
  frames_ok (before ++ n :: after) next m /\ merged <= m
  /\ (nd_offset n <= merged -> nd_end n <= m).
Proof.
  intros [Hn Hs Hf Hc Hv] Hnode Hb Ha m.
  pose proof (sorted_insert before after n Hs Hb Ha) as Hs'.
  apply StronglySorted_app in Hs as (_ & _ & Hsa).
  destruct (merge_right_ok after (nd_end n) Hsa) as (Hle & Hmc & Hmv).
  assert (merged <= m /\ (nd_offset n <= merged -> nd_end n <= m)) as [Hmm Hnm].
  { unfold m. destruct (_ && _) eqn:E; [|split; [lia|]; intros Ho].
    - apply andb_true_iff in E as [E1 E2]. zify_bools. lia.
    - apply andb_false_iff in E as [E|E]; zify_bools; lia. }
  split; [|done]. assert (forall x, x ∈ before ++ n :: after <-> x ∈ before ++ after \/ x = n) as Hin
    by (intros x; rewrite !elem_of_app, elem_of_cons; tauto).
  rewrite Forall_forall in Hb. split; [lia|done| | |].
  - apply Forall_app in Hf as [Hf1 Hf2]. apply Forall_app. split; [done|by constructor].
  - intros f Hfin Hfm. apply Hin in Hfin as [Hfin | ->].
    + revert Hfm Hmm. unfold m. destruct (_ && _) eqn:E; [|intros; by apply Hc].
      apply andb_true_iff in E as [E1 E2]. zify_bools. intros Hfm Hmm.
      pose proof Hfin as Hfin'. apply elem_of_app in Hfin as [Hfb|Hfa]; [|by apply Hmc].
      pose proof (Hb f Hfb). specialize (Hc f Hfin' ltac:(lia)). lia.
    + destruct (decide (nd_offset n <= merged)); [by apply Hnm|]. unfold m in *.
      destruct (nd_offset n <=? merged) eqn:E; zify_bools; simpl in *; lia.
  - intros x Hx. destruct (decide (x < merged)).
    + destruct (Hv x) as (f & Hfin & Hfx); [lia|]. exists f. split; [apply Hin; by left|done].
    + unfold m in Hx. destruct (_ && _) eqn:E; [|lia].
      apply andb_true_iff in E as [E1 E2]. zify_bools. destruct (decide (x < nd_end n)).
      * exists n. split; [apply Hin; by right|lia].
      * destruct (Hmv x) as (f & Hfa & Hfx); [lia|]. exists f. split; [|done].
        apply Hin. left. apply elem_of_app. by right.
Qed.

Lemma insert_ok cfg d n :
  sdi_ok d -> node_ok (next_read_offset d) n ->
  let '(r, d') := xqc_insert_stream_frame cfg d n in
  sdi_ok d' /\ next_read_offset d' = next_read_offset d
  /\ stream_length d' = stream_length d /\ stream_determined d' = stream_determined d
  /\ merged_offset_end d <= merged_offset_end d'
  /\ (r = Ok tt -> nd_offset n <= merged_offset_end d -> nd_end n <= merged_offset_end d').
Proof.
  intros [Hf Hcnt Hbytes] Hn. unfold xqc_insert_stream_frame.
  destruct (cap_rejects cfg d n); [split_and!; done || lia|].
  destruct (insert_pos _ [] n) as [[before after]|] eqn:E; [|split_and!; done || lia].
  apply insert_pos_some in E as (Heq & Hb & Ha); [| |by constructor];
    rewrite rev_involutive, app_nil_r in *; [|apply Hf].
  cbn [next_read_offset merged_offset_end stream_length stream_determined].
  rewrite <- Heq in Hf, Hcnt, Hbytes.
  destruct (frames_ok_insert _ _ _ _ _ Hf Hn Hb Ha) as (Hok & Hle & He).
  split_and!; try done. split; simpl; [done| |].
  - rewrite Hcnt, !length_app. simpl. lia.
  - rewrite Hbytes, !bytes_of_app. simpl. lia.
Qed.

(** ** The stream as a whole *)

(** The length of the stream the peer finishes it with. *)
Context (L : Z).

(** A frame of the peer's stream. *)
Record honest (f : xqc_stream_frame_t) : Prop := {
  ho_node : node_ok 0 (node_of f);
  ho_end : nd_end (node_of f) <= L;
  ho_fin : fin f = true -> nd_end (node_of f) = L;
}.

Definition was_reset (s : xqc_stream_t) : Prop :=
  XQC_RECV_STREAM_ST_RESET_RECVD <= stream_state_recv s.

(** Until it is reset, the stream holds the peer's data; a known final size is the peer's. *)
Record stream_ok (s : xqc_stream_t) : Prop := {
  so_data : ~ was_reset s -> sdi_ok (stream_data_in s);
  so_len : stream_determined (stream_data_in s) = true -> stream_length (stream_data_in s) = L;
}.

(** [s'] has the data of [s], and is reset if and only if [s] is. *)
Definition same_data (s s' : xqc_stream_t) : Prop :=
  stream_data_in s' = stream_data_in s /\ (was_reset s' <-> was_reset s).

Lemma same_data_refl s : same_data s s.
Proof. done. Qed.

Lemma same_data_trans s1 s2 s3 : same_data s1 s2 -> same_data s2 s3 -> same_data s1 s3.
Proof. intros [H1 H2] [H3 H4]. split; [congruence|]. by rewrite H4. Qed.

Lemma same_data_ok s s' : same_data s s' -> stream_ok s -> stream_ok s'.
Proof. intros [Hd Hr] [H1 H2]. split; rewrite Hd; [|done]. by rewrite Hr. Qed.

Lemma set_flags_same s a b : same_data s (set_flags s a b).
Proof. done. Qed.

Lemma set_flow_same s fc m : same_data s (set_flow s fc m).
Proof. done. Qed.

Lemma state_same s t :
  ~ was_reset s -> t < XQC_RECV_STREAM_ST_RESET_RECVD ->
  same_data s (xqc_stream_recv_state_update s t).
Proof. unfold same_data, was_reset. simpl. intros Hn Ht. split; [done|]. split; lia. Qed.

Lemma all_recvd_same s : ~ was_reset s -> same_data s (all_recvd s).
Proof.
  intros Hn. unfold all_recvd. eapply same_data_trans; [|apply set_flags_same].
  case_if; [by apply state_same|apply same_data_refl].
Qed.

Lemma maybe_close_same c s : same_data s (xqc_stream_maybe_need_close c s).
Proof. unfold xqc_stream_maybe_need_close. repeat case_if; done. Qed.

Lemma after_insert_same s c e r s' c' :
  ~ was_reset s -> after_insert s c e = (r, s', c') -> same_data s s'.
Proof.
  intros Hn. unfold after_insert.
  assert (exists s1 c1, (if stream_max_recv_offset s <? e then
      (set_flow s (stream_flow_ctl s) e,
       set_conn_flow c (mk_cfc (fc_max_data_can_recv (conn_flow_ctl c))
         (u64 (fc_data_recved (conn_flow_ctl c) + (e - stream_max_recv_offset s)))
         (fc_data_read (conn_flow_ctl c)) (fc_recv_windows_size (conn_flow_ctl c))
         (cfc_last_window_update_time (conn_flow_ctl c))))
    else (s, c)) = (s1, c1) /\ same_data s s1) as (s1 & c1 & -> & Hs1)
    by (case_if; eexists _, _; split; done).
  repeat case_if; intros [= <- <- <-]; try done; eapply same_data_trans; try done.
  all: apply all_recvd_same; by rewrite (proj2 Hs1).
Qed.

Lemma do_flow_same e s c s' c' :
  xqc_stream_do_recv_flow_ctl e s c = (s', c') -> same_data s s'.
Proof.
  unfold xqc_stream_do_recv_flow_ctl. repeat case_match; intros; simplify_eq; done.
Qed.

Definition next_of (s : xqc_stream_t) : Z := next_read_offset (stream_data_in s).

Lemma set_final_ok d n : sdi_ok d -> sdi_ok (set_final d n).
Proof. intros []. by split. Qed.

Lemma on_fin_ok s :
  stream_ok s -> ~ was_reset s ->
  stream_ok (on_fin s L) /\ next_of (on_fin s L) = next_of s /\ ~ was_reset (on_fin s L).
Proof.
  intros [Hd Hl] Hn. unfold on_fin. set (s1 := set_data_in _ _).
  assert (stream_ok s1 /\ ~ was_reset s1) as [Hs1 Hn1].
  { split; [|done]. split; [|done]. intros _. by apply set_final_ok, Hd. }
  case_if; [|by split_and!].
  assert (same_data s1 (xqc_stream_recv_state_update s1 XQC_RECV_STREAM_ST_SIZE_KNOWN)) as Hs
    by by apply state_same.
  split_and!; [by eapply same_data_ok|done|]. by rewrite (proj2 Hs).
Qed.

Lemma check_and_insert_ok short f s c r s' c' :
  stream_ok s -> ~ was_reset s -> honest f -> check_and_insert short f s c = (r, s', c') ->
  stream_ok s' /\ next_of s' = next_of s /\ ~ was_reset s'.
Proof.
  intros Hs Hn Hf. pose proof Hs as [Hd Hl]. specialize (Hd Hn). unfold check_and_insert.
  case_if; [by intros [= <- <- <-]|]. case_if.
  { intros [= <- <- <-]. case_if; [|done].
    split_and!; [by eapply same_data_ok; [apply set_flags_same|]|done|done]. }
  do 2 (case_if; [by intros [= <- <- <-]|]).
  assert (node_ok (next_read_offset (stream_data_in s)) (node_of f)) as Hnode.
  { eapply node_ok_mono; [apply Hf|]. destruct Hd as [[Hd _ _ _ _] _ _]. lia. }
  pose proof (insert_ok (max_stream_frame_buffered_cnt c) (stream_data_in s) (node_of f) Hd Hnode)
    as Hi.
  destruct (xqc_insert_stream_frame _ _ _) as [ri d']. destruct Hi as (Hd' & Hnx & Hlen & Hdet & _).
  assert (stream_ok (set_data_in s d')) as Hs' by (split; simpl; [done|by rewrite Hdet, Hlen]).
  destruct ri as [u|e].
  - intros Ha. apply after_insert_same in Ha as [Hdd Hrr]; [|done].
    split_and!; [by eapply same_data_ok|unfold next_of; by rewrite Hdd|by rewrite Hrr].
  - repeat case_if; intros [= <- <- <-]; split_and!; done.
Qed.

Lemma process_ok short f s c r s' c' :
  stream_ok s -> honest f -> xqc_process_stream_frame short f s c = (r, s', c') ->
  stream_ok s' /\ next_of s' = next_of s /\ (was_reset s' <-> was_reset s).
Proof.
  intros Hs Hf. unfold xqc_process_stream_frame.
  case_if; [by intros [= <- <- <-]|]. destruct (_ <=? stream_state_recv s) eqn:Er;
    [by intros [= <- <- <-]|]. assert (~ was_reset s) as Hn by (unfold was_reset; zify_bools; lia).
  clear Er. case_if.
  { intros [= <- <- <-]. case_if; [|done]. pose proof (all_recvd_same s Hn) as Hsm.
    split_and!; [by eapply same_data_ok|unfold next_of; by rewrite (proj1 Hsm)|apply Hsm]. }
  destruct (fin f) eqn:Ef.
  - case_if; [by intros [= <- <- <-]|]. rewrite (ho_fin f Hf Ef).
    destruct (on_fin_ok s Hs Hn) as (H1 & H2 & H3). intros Hc.
    destruct (check_and_insert_ok _ _ _ _ _ _ _ H1 H3 Hf Hc) as (H4 & H5 & H6).
    split_and!; [done|congruence|tauto].
  - intros Hc. destruct (check_and_insert_ok _ _ _ _ _ _ _ Hs Hn Hf Hc) as (H4 & H5 & H6).
    split_and!; [done|congruence|tauto].
Qed.

(** The bytes a call of [xqc_stream_recv] gives to the application. *)
Definition got (r : res (list Z * bool)) : list Z :=
  match r with Ok (out, _) => out | Err _ => [] end.

Lemma complete_reset_ok e s c err size b s' c' :
  stream_ok s -> xqc_stream_complete_recv_reset e s c err size b = (s', c') ->
  stream_ok s' /\ next_of s' = next_of s.
Proof.
  intros [Hd Hl]. unfold xqc_stream_complete_recv_reset, xqc_stream_maybe_need_close.
  repeat case_match; intros; simplify_eq/=;
    (split; [|done]; split; [|done]; unfold was_reset; simpl; intros Hn; try (exfalso; apply Hn; done)).
  all: try by apply Hd.
Qed.

Lemma recv_data_same (b : bool) c s :
  ~ was_reset s ->
  same_data s (if b then xqc_stream_maybe_need_close c
                           (xqc_stream_recv_state_update s XQC_RECV_STREAM_ST_DATA_READ) else s).
Proof.
  intros Hn. destruct b; [|done]. eapply same_data_trans; [|apply maybe_close_same].
  by apply state_same.
Qed.

Definition reset_due (s : xqc_stream_t) : bool :=
  (match recv_state (reset_at s) with XQC_RESET_AT_RELIABLE => true | _ => false end)
  && negb (stream_state_recv s =? XQC_RECV_STREAM_ST_DATA_READ)
  && (stream_state_recv s <? XQC_RECV_STREAM_ST_RESET_RECVD)
  && (recv_size (reset_at s) <=? next_of s).

(** The size that counts when the peer announced a reset. *)
Definition read_limit (s : xqc_stream_t) (size : Z) : Z :=
  if reset_at_none (recv_state (reset_at s)) then size
  else Z.min size (u64 (recv_size (reset_at s) - next_of s)).

Lemma read_limit_nonneg s size : 0 <= size -> 0 <= read_limit s size.
Proof.
  unfold read_limit. intros. case_if; [done|].
  pose proof (u64_range (recv_size (reset_at s) - next_of s)). lia.
Qed.

(** Reading while the stream is not reset. *)
Lemma recv_open e s c size r s' c' :
  stream_ok s -> ~ was_reset s -> 0 <= size -> reset_due s = false ->
  xqc_stream_recv e s c size = (r, s', c') ->
  let next' := Z.min (next_of s + read_limit s size) (merged_offset_end (stream_data_in s)) in
  stream_ok s' /\ got r = slice (next_of s) next' /\ next_of s' = next'
  /\ next_of s <= next'
  /\ (forall out, r = Ok (out, true) -> next' = L)
  /\ merged_offset_end (stream_data_in s') = merged_offset_end (stream_data_in s)
  /\ (merged_offset_end (stream_data_in s) < next_of s + read_limit s size ->
      Forall (fun f => merged_offset_end (stream_data_in s) < nd_offset f)
        (frames_tailq (stream_data_in s')))
  /\ stream_data_in s'
     = fst (recv_loop (frames_tailq (stream_data_in s)) (stream_data_in s) (read_limit s size) [])
  /\ ~ was_reset s'.
Proof.
  intros Hs Hn Hsz Hdue. unfold xqc_stream_recv. fold (next_of s). fold (reset_due s).
  rewrite Hdue. fold (read_limit s size). pose proof (read_limit_nonneg s size Hsz) as Hsz'.
  set (sz := read_limit s size) in *.
  destruct (_ <=? stream_state_recv s) eqn:Er; [exfalso; apply Hn; unfold was_reset; zify_bools; lia|].
  pose proof (so_data s Hs Hn) as [Hf Hc Hb]. pose proof (fo_next _ _ _ Hf) as Hnm.
  pose proof (recv_loop_ok (frames_tailq (stream_data_in s)) (stream_data_in s) sz [] Hf Hc Hb
    ltac:(rewrite zlen_nil; lia)) as Hl. unfold recv_spec in Hl. rewrite zlen_nil, Z.sub_0_r in Hl.
  fold (next_of s) in Hl, Hnm. set (next' := Z.min _ _) in *.
  destruct (recv_loop _ _ _ _) as [d out]. destruct Hl as (-> & Hn' & Hm' & Hl' & Hd' & Hok' & Hdr).
  cbn [app]. set (s1 := set_data_in s d).
  assert (stream_ok s1 /\ ~ was_reset s1) as [Hs1 Hn1].
  { split; [|done]. split; [done|]. simpl. rewrite Hd', Hl'. apply Hs. }
  set (fin := reset_at_none _ && _ && _).
  pose proof (recv_data_same (fin && (stream_state_recv s1 =? XQC_RECV_STREAM_ST_DATA_RECVD)) c s1
    Hn1) as Hs2. set (s2 := if _ && _ then _ else s1) in *.
  destruct (xqc_stream_do_recv_flow_ctl _ _ _) as [s3 c3] eqn:Efl. apply do_flow_same in Efl.
  set (s4 := if negb _ && _ then _ else s3).
  assert (same_data s1 s4) as H4.
  { eapply same_data_trans; [exact Hs2|]. eapply same_data_trans; [apply set_flags_same|].
    eapply same_data_trans; [exact Efl|]. unfold s4. case_if; done. }
  intros [= <- <- <-].
  assert (next_of s4 = next') as Hn4 by (unfold next_of; by rewrite (proj1 H4)).
  split_and!; [by eapply same_data_ok| |done|unfold next'; lia| | | | |];
    [| |by rewrite (proj1 H4)..|by rewrite (proj2 H4)].
  - destruct (_ && negb fin) eqn:E0; [|done]. apply andb_true_iff in E0 as [E0 _]. zify_bools.
    rewrite zlen_slice in E0 by (unfold next'; lia). by rewrite slice_nil by lia.
  - intros out. destruct (_ && negb fin); [done|]. intros [= _ Hfin]. unfold fin in Hfin.
    apply andb_true_iff in Hfin as [Hfin Heq]. apply andb_true_iff in Hfin as [_ Hdet]. zify_bools.
    rewrite <- Hn', Heq. by apply (so_len s1 Hs1).
Qed.

Lemma recv_ok e s c size r s' c' :
  stream_ok s -> 0 <= size -> xqc_stream_recv e s c size = (r, s', c') ->
  stream_ok s' /\ got r = slice (next_of s) (next_of s') /\ next_of s <= next_of s'
  /\ (forall out, r = Ok (out, true) -> next_of s' = L).
Proof.
  intros Hs Hsz Hr. destruct (reset_due s) eqn:Ed; [|destruct (decide (was_reset s)) as [Hw|Hw]].
  - unfold xqc_stream_recv in Hr. fold (next_of s) in Hr. fold (reset_due s) in Hr. rewrite Ed in Hr.
    destruct (xqc_stream_complete_recv_reset _ _ _ _ _ _) as [s1 c1] eqn:Ec.
    injection Hr as <- <- <-. apply complete_reset_ok in Ec as [Hs1 Hn1]; [|done].
    split_and!; [done|by rewrite Hn1, slice_nil by lia|lia|done].
  - unfold xqc_stream_recv in Hr. fold (next_of s) in Hr. fold (reset_due s) in Hr. rewrite Ed in Hr.
    unfold was_reset in Hw. destruct (_ <=? stream_state_recv s) eqn:Er; [|zb].
    injection Hr as <- <- <-. set (s1 := xqc_stream_shutdown_read _).
    pose proof (maybe_close_same c s1) as Hsm. destruct Hs as [Hd Hl].
    assert (stream_ok s1) as Hs1 by (split; [intros Hn; exfalso; by apply Hn|done]).
    split_and!; [by eapply same_data_ok| | |done]; unfold next_of; rewrite (proj1 Hsm); simpl; [|lia].
    by rewrite slice_nil by lia.
  - destruct (recv_open _ _ _ _ _ _ _ Hs Hw Hsz Ed Hr) as (H1 & H2 & H3 & H4 & H5 & _).
    split_and!; [done|by rewrite H3|lia|]. intros out Ho. rewrite H3. by eapply H5.
Qed.

(** ** Runs *)

(** One step of a stream with the data the application has read so far: a frame arrives, or
    the application reads. *)
Inductive recv_step : xqc_stream_t * xqc_conn_t * list Z -> xqc_stream_t * xqc_conn_t * list Z -> Prop :=
| step_frame short f s c r s' c' app :
    honest f -> xqc_process_stream_frame short f s c = (r, s', c') ->
    recv_step (s, c, app) (s', c', app)
| step_read e size s c r s' c' app :
    0 <= size -> xqc_stream_recv e s c size = (r, s', c') ->
    recv_step (s, c, app) (s', c', app ++ got r).

Definition run_ok (x : xqc_stream_t * xqc_conn_t * list Z) : Prop :=
  let '(s, c, app) := x in stream_ok s /\ app = slice 0 (next_of s) /\ 0 <= next_of s.

Lemma recv_step_ok x y : recv_step x y -> run_ok x -> run_ok y.
Proof.
  intros Hst. destruct Hst as [? ? ? ? ? ? ? ? Hf Hp|? ? ? ? ? ? ? ? Hsz Hp];
    intros (Hs & Happ & Hn).
  - destruct (process_ok _ _ _ _ _ _ _ Hs Hf Hp) as (Hs' & Hn' & _). unfold run_ok.
    by rewrite Hn'.
  - destruct (recv_ok _ _ _ _ _ _ _ Hs Hsz Hp) as (Hs' & Hg & Hle & _).
    split_and!; [done| |lia]. rewrite Happ, Hg, <- slice_app by lia. done.
Qed.

Lemma run_reach x y : rtc recv_step x y -> run_ok x -> run_ok y.
Proof. induction 1; eauto using recv_step_ok. Qed.

Lemma init_run_ok s c : stream_data_in s = sdi_init -> run_ok (s, c, []).
Proof.
  intros Hs. unfold run_ok, next_of. rewrite Hs. split_and!; [|done|done].
  split; rewrite Hs; [|done]. intros _. apply sdi_init_ok.
Qed.

(** C2: whatever the order in which the frames of a stream arrive, overlapping, repeated or
    dropped for lack of room, and however the application's reads fall between them, what the
    application has read is a prefix of what the peer wrote; when a read reports the end of
    the stream, the application has read all of it. *)
Theorem stream_delivery s0 c0 s c app e size r s' c' :
  stream_data_in s0 = sdi_init -> rtc recv_step (s0, c0, []) (s, c, app) -> 0 <= size ->
  xqc_stream_recv e s c size = (r, s', c') ->
  app ++ got r = slice 0 (zlen (app ++ got r))
  /\ (forall out, r = Ok (out, true) -> app ++ out = slice 0 L).
Proof.
  intros Hi Hrun Hsz Hr. pose proof (run_reach _ _ Hrun (init_run_ok s0 c0 Hi)) as (Hs & Happ & Hn).
  destruct (recv_ok _ _ _ _ _ _ _ Hs Hsz Hr) as (_ & Hg & Hle & Hfin).
  assert (app ++ got r = slice 0 (next_of s')) as Heq.
  { rewrite Happ, Hg. symmetry. apply slice_app; lia. }
  split.
  - rewrite Heq. rewrite zlen_slice by lia. by rewrite Z.sub_0_r.
  - intros out ->. specialize (Hfin out eq_refl). simpl in Heq. by rewrite Heq, Hfin.
Qed.

(** ** What was received can be read *)

Lemma insert_dup_merged d n :
  sdi_ok d -> insert_pos (rev (frames_tailq d)) [] n = None ->
  nd_offset n <= merged_offset_end d -> nd_end n <= merged_offset_end d.
Proof.
  intros [[_ _ _ Hc _] _ _] E Ho. apply insert_pos_none in E as (f & Hf & Hd).
  rewrite list_elem_of_In, <- in_rev, <- list_elem_of_In in Hf. unfold nd_dup in Hd. apply andb_true_iff in Hd as [Hd H3].
  apply andb_true_iff in Hd as [H1 H2]. zify_bools. specialize (Hc f Hf ltac:(lia)). lia.
Qed.

Lemma check_and_insert_merged short f s c s' c' :
  stream_ok s -> ~ was_reset s -> discarded s = false -> honest f ->
  check_and_insert short f s c = (Ok tt, s', c') ->
  nd_offset (node_of f) <= merged_offset_end (stream_data_in s) ->
  nd_end (node_of f) <= merged_offset_end (stream_data_in s').
Proof.
  intros Hs Hn Hdis Hf. pose proof (so_data s Hs Hn) as Hd. unfold check_and_insert. rewrite Hdis.
  do 3 (case_if; [done|]).
  assert (node_ok (next_read_offset (stream_data_in s)) (node_of f)) as Hnode.
  { eapply node_ok_mono; [apply Hf|]. destruct Hd as [[Hd _ _ _ _] _ _]. lia. }
  pose proof (insert_ok (max_stream_frame_buffered_cnt c) (stream_data_in s) (node_of f) Hd Hnode)
    as Hi.
  destruct (xqc_insert_stream_frame _ _ _) as [ri d'] eqn:Ei.
  destruct Hi as (Hd' & Hnx & Hlen & Hdet & Hle & Hm). destruct ri as [[]|e].
  - intros Ha Ho. apply after_insert_same in Ha as [Hdd _]; [|done]. rewrite Hdd. simpl. auto.
  - unfold xqc_insert_stream_frame in Ei. destruct (cap_rejects _ _ _).
    { injection Ei as <- <-. repeat case_if; done. }
    destruct (insert_pos _ _ _) as [[before after]|] eqn:Epos; [done|]. injection Ei as <- <-.
    simpl. intros [= <- <-] Ho. simpl. by eapply insert_dup_merged.
Qed.

Lemma process_merged short f s c s' c' :
  stream_ok s -> ~ was_reset s -> discarded s = false -> honest f ->
  xqc_process_stream_frame short f s c = (Ok tt, s', c') ->
  nd_offset (node_of f) <= merged_offset_end (stream_data_in s) ->
  nd_end (node_of f) <= merged_offset_end (stream_data_in s').
Proof.
  intros Hs Hn Hdis Hf. unfold xqc_process_stream_frame.
  case_if; [done|]. destruct (_ <=? stream_state_recv s) eqn:Er;
    [exfalso; apply Hn; unfold was_reset; zify_bools; lia|].
  match goal with |- (if ?b then _ else _) = _ -> _ => destruct b eqn:Em end.
  { intros [= <- <-] _. apply andb_true_iff in Em as [Em _]. zify_bools.
    case_if; [|done]. pose proof (all_recvd_same s Hn) as Hsm. by rewrite (proj1 Hsm). }
  destruct (fin f) eqn:Ef.
  - case_if; [done|]. rewrite (ho_fin f Hf Ef) at 1. destruct (on_fin_ok s Hs Hn) as (H1 & H2 & H3).
    intros Hc Ho. eapply check_and_insert_merged; [exact H1|done| |done|exact Hc|].
    + unfold on_fin. case_if; done.
    + unfold on_fin. case_if; done.
  - intros Hc Ho. by eapply check_and_insert_merged.
Qed.

(** C29: a frame that continues the contiguous part of the stream and is accepted can be read
    at once: a read with room for it gives the application the bytes up to its end. *)
Theorem stream_accept_then_read s0 c0 s c app short f s1 c1 e size r s' c' :
  stream_data_in s0 = sdi_init -> rtc recv_step (s0, c0, []) (s, c, app) ->
  ~ was_reset s -> discarded s = false -> recv_state (reset_at s1) = XQC_RESET_AT_RECV_NONE ->
  honest f -> nd_offset (node_of f) <= merged_offset_end (stream_data_in s) ->
  xqc_process_stream_frame short f s c = (Ok tt, s1, c1) ->
  nd_end (node_of f) <= zlen app + size ->
  0 <= size -> xqc_stream_recv e s1 c1 size = (r, s', c') ->
  nd_end (node_of f) <= zlen (app ++ got r) /\ app ++ got r = slice 0 (zlen (app ++ got r)).
Proof.
  intros Hi Hrun Hn Hdis Hra Hf Ho Hp Hroom Hsz Hr.
  pose proof (run_reach _ _ Hrun (init_run_ok s0 c0 Hi)) as (Hs & Happ & Hn0).
  destruct (process_ok _ _ _ _ _ _ _ Hs Hf Hp) as (Hs1 & Hn1 & Hw).
  pose proof (process_merged _ _ _ _ _ _ Hs Hn Hdis Hf Hp Ho) as Hm.
  assert (reset_due s1 = false) as Hdue by (unfold reset_due; by rewrite Hra).
  destruct (recv_open _ _ _ _ _ _ _ Hs1 ltac:(by rewrite Hw) Hsz Hdue Hr) as (_ & Hg & _ & Hle & _).
  unfold read_limit in *. rewrite Hra in *. simpl in *. rewrite Hn1 in *.
  set (next' := Z.min _ _) in *.
  assert (app ++ got r = slice 0 next') as Heq.
  { rewrite Happ, Hg. symmetry. apply slice_app; lia. }
  assert (zlen app = next_of s) as Hza by (rewrite Happ, zlen_slice; lia).
  rewrite Heq, zlen_slice, Z.sub_0_r by lia. split; [|done]. unfold next'. lia.
Qed.

End stream.

(** ** Examples *)

Lemma triple_eta {A B C} (x : A * B * C) : x = (fst (fst x), snd (fst x), snd x).
Proof. by destruct x as [[a b] c]. Qed.

Definition ex_stream : xqc_stream_t :=
  mk_stream 0 sdi_init XQC_RECV_STREAM_ST_RECV send_init (mk_sfc 100 100 0) 0 0 false false false
    (mk_ra false XQC_RESET_AT_RECV_NONE 0 0) 0.

Definition ex_conn : xqc_conn_t :=
  mk_rconn XQC_CONN_TYPE_CLIENT (mk_cfc 100 0 0 100 0) 0 0 100 0 [].

(** The stream [0, 1, 2, ...], cut at 6. *)
Definition ex_frame1 : xqc_stream_frame_t := mk_sf (Some [3; 4; 5]) 3 3 true.
Definition ex_frame2 : xqc_stream_frame_t := mk_sf (Some [0; 1; 2; 3]) 4 0 false.

Lemma ex_honest : honest (fun i => i) 6 ex_frame1 /\ honest (fun i => i) 6 ex_frame2.
Proof. split; (split; [split|..]); vm_compute; intuition congruence. Qed.

Lemma stream_delivery_witness :
  let p1 := xqc_process_stream_frame true ex_frame1 ex_stream ex_conn in
  let p2 := xqc_process_stream_frame true ex_frame2 (snd (fst p1)) (snd p1) in
  let rd := xqc_stream_recv (mk_rtt 1 1 1) (snd (fst p2)) (snd p2) 10 in
  [] ++ got (fst (fst rd)) = slice (fun i => i) 0 (zlen ([] ++ got (fst (fst rd))))
  /\ (forall out, fst (fst rd) = Ok (out, true) -> [] ++ out = slice (fun i => i) 0 6).
Proof.
  intros p1 p2 rd.
  apply (stream_delivery (fun i => i) 6 ex_stream ex_conn (snd (fst p2)) (snd p2) []
    (mk_rtt 1 1 1) 10 (fst (fst rd)) (snd (fst rd)) (snd rd)); [done| |lia|apply triple_eta].
  eapply rtc_l; [eapply (step_frame _ _ true ex_frame1); [apply ex_honest|apply triple_eta]|].
  eapply rtc_l; [eapply (step_frame _ _ true ex_frame2); [apply ex_honest|apply triple_eta]|].
  apply rtc_refl.
Defined.

Lemma stream_accept_then_read_witness :
  let p1 := xqc_process_stream_frame true ex_frame1 ex_stream ex_conn in
  let p2 := xqc_process_stream_frame true ex_frame2 (snd (fst p1)) (snd p1) in
  let rd := xqc_stream_recv (mk_rtt 1 1 1) (snd (fst p2)) (snd p2) 10 in
  4 <= zlen ([] ++ got (fst (fst rd)))
  /\ [] ++ got (fst (fst rd)) = slice (fun i => i) 0 (zlen ([] ++ got (fst (fst rd)))).
Proof.
  intros p1 p2 rd.
  apply (stream_accept_then_read (fun i => i) 6 ex_stream ex_conn (snd (fst p1)) (snd p1) [] true
    ex_frame2 (snd (fst p2)) (snd p2) (mk_rtt 1 1 1) 10 (fst (fst rd)) (snd (fst rd)) (snd rd)).
  - reflexivity.
  - eapply rtc_l; [eapply (step_frame _ _ true ex_frame1); [apply ex_honest|apply triple_eta]|].
    apply rtc_refl.
  - intros H. vm_compute in H. by apply H.
  - vm_compute. reflexivity.
  - vm_compute. reflexivity.
  - apply ex_honest.
  - vm_compute. discriminate.
  - unfold p2. vm_compute. reflexivity.
  - vm_compute. discriminate.
  - lia.
  - apply triple_eta.
Defined.

End Reassembly.
