(* ===== verification/ReassemblyCap.v ===== *)
(** The bounds on what a stream buffers: the number of frames stays under the ceiling whatever
    the peer sends; with a configured ceiling the frame that fills the first hole is let in,
    with the default one there is a run after which it is not. *)

From Stdlib Require Import Sorting.Sorted.
From stdpp Require Import base numbers list relations sorting.
From S2P Require Import Prelude VInt PacketBuf Frames FrameSpec StreamRecv StreamReset Reassembly.
Import Frames FrameSpec StreamRecv StreamReset Reassembly.

Module ReassemblyCap.

(** The frames that start behind the contiguous part. *)
Definition beyond (m : Z) (l : list node) : list node := filter (fun f => m < nd_offset f) l.

(** The counter counts the frames; they are at most the ceiling, and those behind a hole are
    one less. *)
Record count_ok (cap : Z) (d : xqc_stream_data_in_t) : Prop := {
  co_count : buffered_frame_count d = Z.of_nat (length (frames_tailq d));
  co_cap : buffered_frame_count d <= cap;
  co_beyond : Z.of_nat (length (beyond (merged_offset_end d) (frames_tailq d))) < cap;
}.

Lemma hard_cap_pos cfg : 0 < hard_cap cfg.
Proof. unfold hard_cap. destruct (0 <? cfg) eqn:E; zify_bools; done || lia. Qed.

Lemma beyond_app m l k : beyond m (l ++ k) = beyond m l ++ beyond m k.
Proof. apply filter_app. Qed.

Lemma beyond_le m m' l : m <= m' -> (length (beyond m' l) <= length (beyond m l))%nat.
Proof.
  intros Hm. induction l as [|f l IH]; [done|]. unfold beyond in *. rewrite !filter_cons.
  repeat case_decide; simpl; lia.
Qed.

Lemma beyond_length m l : (length (beyond m l) <= length l)%nat.
Proof. apply length_filter. Qed.

Lemma merge_right_le m l : m <= merge_right m l.
Proof.
  revert m. induction l as [|f l IH]; intros m; simpl; [lia|]. case_if; [|lia].
  specialize (IH (Z.max (nd_end f) m)). lia.
Qed.

Lemma insert_pos_app n rl : forall after before after',
  insert_pos rl after n = Some (before, after') -> before ++ after' = rev rl ++ after.
Proof.
  induction rl as [|f rl IH]; intros after before after' E; cbn [insert_pos] in E.
  - by injection E as <- <-.
  - destruct (nd_dup f n); [done|]. destruct (_ <=? _); [by injection E as <- <-|].
    rewrite (IH _ _ _ E). simpl. by rewrite <- app_assoc.
Qed.

(** ** Each operation keeps the bounds *)

Lemma insert_count cfg d n :
  count_ok (hard_cap cfg) d -> count_ok (hard_cap cfg) (snd (xqc_insert_stream_frame cfg d n)).
Proof.
  intros Hd. pose proof Hd as [Hc Hcap Hb]. unfold xqc_insert_stream_frame.
  destruct (cap_rejects cfg d n) eqn:Ec; [by split|].
  destruct (insert_pos _ _ _) as [[before after]|] eqn:Ei; [|done].
  apply insert_pos_app in Ei. rewrite rev_involutive, app_nil_r in Ei.
  unfold cap_rejects in Ec. apply orb_false_iff in Ec as [Ec _]. zify_bools.
  rewrite <- Ei in Hc, Hb. rewrite length_app in Hc. split; simpl.
  - rewrite length_app. simpl. lia.
  - destruct (extends_prefix d n); lia.
  - fold (extends_prefix d n). rewrite beyond_app in Hb |- *. rewrite length_app in Hb |- *.
    destruct (extends_prefix d n) eqn:Ex.
    + unfold extends_prefix in Ex. apply andb_true_iff in Ex as [E1 E2]. zify_bools.
      pose proof (merge_right_le (nd_end n) after) as Hle. set (m := merge_right _ _) in *.
      unfold beyond at 2. rewrite filter_cons, decide_False by lia. fold (beyond m after).
      pose proof (beyond_le (merged_offset_end d) m before ltac:(lia)).
      pose proof (beyond_le (merged_offset_end d) m after ltac:(lia)). lia.
    + pose proof (beyond_length (merged_offset_end d) before).
      pose proof (beyond_length (merged_offset_end d) (n :: after)). simpl in *. lia.
Qed.

(** The frames a read leaves are some of the last ones. *)
Lemma recv_loop_count l : forall d size out,
  buffered_frame_count d = Z.of_nat (length l) ->
  let d' := fst (recv_loop l d size out) in
  merged_offset_end d' = merged_offset_end d
  /\ buffered_frame_count d' = Z.of_nat (length (frames_tailq d'))
  /\ (length (frames_tailq d') <= length l)%nat
  /\ (length (beyond (merged_offset_end d) (frames_tailq d'))
      <= length (beyond (merged_offset_end d) l))%nat.
Proof.
  induction l as [|f l IH]; intros d size out Hc; cbn [recv_loop]; [done|].
  assert (length (beyond (merged_offset_end d) l)
    <= length (beyond (merged_offset_end d) (f :: l)))%nat as Hbl.
  { unfold beyond. rewrite filter_cons. case_decide; simpl; lia. }
  assert (forall d1, merged_offset_end d1 = merged_offset_end d ->
    buffered_frame_count d1 = Z.of_nat (length (f :: l)) ->
    forall out1, let d' := fst (recv_loop l (free_frame d1 f) size out1) in
    merged_offset_end d' = merged_offset_end d
    /\ buffered_frame_count d' = Z.of_nat (length (frames_tailq d'))
    /\ (length (frames_tailq d') <= length (f :: l))%nat
    /\ (length (beyond (merged_offset_end d) (frames_tailq d'))
        <= length (beyond (merged_offset_end d) (f :: l)))%nat) as Hfree.
  { intros d1 Hm Hc1 out1. destruct (IH (free_frame d1 f) size out1) as (H1 & H2 & H3 & H4).
    - simpl. destruct (0 <? buffered_frame_count d1) eqn:E; zify_bools; simpl in *; lia.
    - simpl in H1, H4. rewrite Hm in H1, H4. split_and!; [done|done|simpl; lia|lia]. }
  destruct (merged_offset_end d <? nd_offset f); [done|].
  destruct (size <=? zlen out); [done|].
  destruct (nd_end f <? next_read_offset d); [by apply Hfree|].
  set (nr := if nd_offset f <? next_read_offset d then _ else _). cbv zeta.
  destruct (_ <=? size); [by apply Hfree|].
  split_and!; [done|done|done|]. unfold beyond. simpl. rewrite !filter_cons. simpl.
  repeat case_decide; simpl in *; lia.
Qed.

(** ** Runs with arbitrary frames *)

Definition cfg_of (c : xqc_conn_t) : Z := max_stream_frame_buffered_cnt c.

(** The peer may send any of the frames that reach the receiving part of a stream, honest or
    not. *)
Inductive any_step : xqc_stream_t * xqc_conn_t -> xqc_stream_t * xqc_conn_t -> Prop :=
| any_frame short f s c r s' c' :
    xqc_process_stream_frame short f s c = (r, s', c') -> any_step (s, c) (s', c')
| any_reset cfg e w err size s c r s' c' :
    process_reset_stream cfg e w s c err size = (r, s', c') -> any_step (s, c) (s', c')
| any_reset_at cfg e w err size rel s c r s' c' :
    xqc_process_reset_stream_at_frame cfg e w s c err size rel = (r, s', c') ->
    any_step (s, c) (s', c')
| any_data_blocked w limit s c r c' :
    xqc_process_data_blocked_frame w c limit = (r, c') -> any_step (s, c) (s, c')
| any_stream_blocked w limit s c r s' c' :
    xqc_process_stream_data_blocked_frame w s c limit = (r, s', c') -> any_step (s, c) (s', c')
| any_read e size s c r s' c' :
    xqc_stream_recv e s c size = (r, s', c') -> any_step (s, c) (s', c').

Lemma after_insert_count s c e r s' c' :
  after_insert s c e = (r, s', c') ->
  stream_data_in s' = stream_data_in s /\ cfg_of c' = cfg_of c.
Proof.
  unfold after_insert, all_recvd. repeat case_match; intros; simplify_eq/=; done.
Qed.

Lemma process_count short f s c r s' c' :
  count_ok (hard_cap (cfg_of c)) (stream_data_in s) ->
  xqc_process_stream_frame short f s c = (r, s', c') ->
  count_ok (hard_cap (cfg_of c)) (stream_data_in s') /\ cfg_of c' = cfg_of c.
Proof.
  intros Hd. unfold xqc_process_stream_frame.
  assert (forall s1, count_ok (hard_cap (cfg_of c)) (stream_data_in s1) ->
    check_and_insert short f s1 c = (r, s', c') ->
    count_ok (hard_cap (cfg_of c)) (stream_data_in s') /\ cfg_of c' = cfg_of c) as Hci.
  { intros s1 Hd1. unfold check_and_insert. case_if; [by intros [= <- <- <-]|].
    case_if; [intros [= <- <- <-]; by case_if|]. do 2 (case_if; [by intros [= <- <- <-]|]).
    pose proof (insert_count (cfg_of c) _ (node_of f) Hd1) as Hi. fold (cfg_of c).
    destruct (xqc_insert_stream_frame _ _ _) as [[u|e] d'].
    - intros Ha. apply after_insert_count in Ha as [-> ->]. done.
    - repeat case_if; by intros [= <- <- <-]. }
  case_if; [by intros [= <- <- <-]|]. case_if; [by intros [= <- <- <-]|].
  case_if; [intros [= <- <- <-]; unfold all_recvd; repeat case_if; done|].
  case_if; [|by apply Hci]. case_if; [by intros [= <- <- <-]|]. apply Hci.
  destruct Hd. unfold on_fin. case_if; by split.
Qed.

Lemma flow_count e s c :
  stream_data_in (fst (xqc_stream_do_recv_flow_ctl e s c)) = stream_data_in s
  /\ cfg_of (snd (xqc_stream_do_recv_flow_ctl e s c)) = cfg_of c.
Proof.
  unfold xqc_stream_do_recv_flow_ctl, xqc_stream_do_recv_conn_flow_ctl. repeat case_match; simplify_eq/=; done.
Qed.

Lemma reset_count e s c err size consume s' c' cap :
  0 < cap -> count_ok cap (stream_data_in s) ->
  xqc_stream_complete_recv_reset e s c err size consume = (s', c') ->
  count_ok cap (stream_data_in s') /\ cfg_of c' = cfg_of c.
Proof.
  intros Hcap Hd. unfold xqc_stream_complete_recv_reset, xqc_stream_maybe_need_close,
    xqc_stream_do_recv_conn_flow_ctl.
  repeat case_match; intros; simplify_eq/=; (split; [|done]); first [done | split; simpl; lia].
Qed.

Lemma recv_count e size s c r s' c' :
  count_ok (hard_cap (cfg_of c)) (stream_data_in s) ->
  xqc_stream_recv e s c size = (r, s', c') ->
  count_ok (hard_cap (cfg_of c)) (stream_data_in s') /\ cfg_of c' = cfg_of c.
Proof.
  intros Hd. unfold xqc_stream_recv. case_if.
  { destruct (xqc_stream_complete_recv_reset _ _ _ _ _ _) as [s1 c1] eqn:Ec.
    intros [= <- <- <-]. by eapply reset_count; [apply hard_cap_pos| |]. }
  case_if; [intros [= <- <- <-]; unfold xqc_stream_maybe_need_close; repeat case_if; done|].
  set (sz := if reset_at_none _ then _ else _).
  destruct Hd as [Hc Hcap Hb]. pose proof (recv_loop_count _ _ sz [] Hc) as Hl.
  destruct (recv_loop _ _ _ _) as [d out]. simpl in Hl. destruct Hl as (Hm & Hc' & Hle & Hbl).
  assert (count_ok (hard_cap (cfg_of c)) d) as Hd by (split; [done|lia|rewrite Hm; lia]).
  set (s1 := if _ && _ then _ else _).
  assert (stream_data_in s1 = d) as Hs1
    by (unfold s1, xqc_stream_maybe_need_close; repeat case_if; done).
  pose proof (flow_count e (xqc_stream_shutdown_read s1) (data_read c (zlen out))) as Hf.
  destruct (xqc_stream_do_recv_flow_ctl _ _ _) as [s3 c3]. simpl in Hf. destruct Hf as [Hf1 Hf2].
  intros [= <- <- <-]. split; [|done].
  assert (stream_data_in s3 = d) as Hs3 by congruence. case_if; simpl; by rewrite Hs3.
Qed.

(** ** Resets *)

(** The step keeps the counts in order, under any ceiling, and the configuration. *)
Definition keeps (s : xqc_stream_t) (c : xqc_conn_t) (s' : xqc_stream_t) (c' : xqc_conn_t) : Prop :=
  (forall cap, 0 < cap -> count_ok cap (stream_data_in s) -> count_ok cap (stream_data_in s'))
  /\ cfg_of c' = cfg_of c.

Lemma keeps_same s c s' c' :
  stream_data_in s' = stream_data_in s -> cfg_of c' = cfg_of c -> keeps s c s' c'.
Proof. intros Hd Hc. split; [by rewrite Hd|done]. Qed.

Lemma keeps_trans s c s1 c1 s' c' : keeps s c s1 c1 -> keeps s1 c1 s' c' -> keeps s c s' c'.
Proof. intros [H1 H2] [H3 H4]. split; [eauto|congruence]. Qed.

Lemma complete_keeps e s c err size consume s' c' :
  xqc_stream_complete_recv_reset e s c err size consume = (s', c') -> keeps s c s' c'.
Proof.
  intros H. split.
  - intros cap Hcap Hd. by destruct (reset_count _ _ _ _ _ _ _ _ _ Hcap Hd H).
  - revert H. unfold xqc_stream_complete_recv_reset, xqc_stream_maybe_need_close,
      xqc_stream_do_recv_conn_flow_ctl. repeat case_match; intros; by simplify_eq/=.
Qed.

(** [stream_length] and its flag are no part of the counts. *)
Lemma final_keeps s c size : keeps s c (set_data_in s (set_final (stream_data_in s) size)) c.
Proof. by split; [intros cap _ []|]. Qed.

Lemma write_reset_keeps w s c err size r s' c' :
  xqc_write_reset_stream_to_packet w s c err size = (r, s', c') -> keeps s c s' c'.
Proof.
  unfold xqc_write_reset_stream_to_packet. repeat case_match; intros; simplify_eq; by apply keeps_same.
Qed.

Lemma do_reset_keeps cfg w s c err r s' c' :
  xqc_stream_do_reset cfg w s c err = (r, s', c') -> keeps s c s' c'.
Proof.
  unfold xqc_stream_do_reset, xqc_write_reset_stream_at_to_packet.
  repeat case_if; try (intros [= <- <- <-]; by apply keeps_same); try apply write_reset_keeps.
  - destruct (xqc_write_reset_stream_to_packet _ _ _ _ _) as [[[u|x] s1] c1] eqn:Ew;
      apply write_reset_keeps in Ew; intros [= <- <- <-]; done.
  - destruct w; intros [= <- <- <-]; by apply keeps_same.
  - destruct w; intros [= <- <- <-]; by apply keeps_same.
Qed.

Lemma do_reset_twice_keeps cfg w s c err r s' c' :
  do_reset_twice cfg w s c err = (r, s', c') -> keeps s c s' c'.
Proof.
  unfold do_reset_twice. destruct (xqc_stream_do_reset _ _ _ _ _) as [[[u|x] s1] c1] eqn:E1;
    apply do_reset_keeps in E1; [by intros [= <- <- <-]|].
  case_if; [|by intros [= <- <- <-]]. intros E2. apply do_reset_keeps in E2.
  eapply keeps_trans; [exact E1|]. exact E2.
Qed.

Lemma account_keeps s c size r s' c' :
  xqc_stream_account_reset_final_size s c size = (r, s', c') -> keeps s c s' c'.
Proof.
  unfold xqc_stream_account_reset_final_size. repeat case_if; intros [= <- <- <-]; by apply keeps_same.
Qed.

Lemma fields_keeps cfg e w s c err size r s' c' :
  xqc_process_reset_stream_fields cfg e w s c err size = (r, s', c') -> keeps s c s' c'.
Proof.
  unfold xqc_process_reset_stream_fields.
  repeat (case_if; [repeat case_if; intros [= <- <- <-]; by apply keeps_same|]).
  destruct (xqc_stream_account_reset_final_size s c size) as [[[u|x] s1] c1] eqn:Ea;
    apply account_keeps in Ea; [|by intros [= <- <- <-]].
  destruct (if send_open c1 s1 then _ else _) as [[[u'|x] s2] c2] eqn:Er.
  all: assert (keeps s c s2 c2) as Hk2 by (eapply keeps_trans; [exact Ea|];
    destruct (send_open c1 s1); [by eapply do_reset_twice_keeps|simplify_eq; by apply keeps_same]).
  2: by intros [= <- <- <-].
  case_if; [by intros [= <- <- <-]|]. cbv zeta. set (s3 := if reset_at_none _ then _ else _).
  destruct (xqc_stream_complete_recv_reset _ _ _ _ _ _) as [s4 c4] eqn:Ec. intros [= <- <- <-].
  apply complete_keeps in Ec. eapply keeps_trans; [exact Hk2|]. eapply keeps_trans; [|exact Ec].
  unfold s3. case_if; [by apply keeps_same|apply (final_keeps (set_reset_at s2 _))].
Qed.

Lemma process_reset_keeps cfg e w s c err size r s' c' :
  process_reset_stream cfg e w s c err size = (r, s', c') -> keeps s c s' c'.
Proof.
  unfold process_reset_stream, xqc_process_reset_stream_frame.
  case_if; [apply fields_keeps|]. case_if; [intros [= <- <- <-]; by apply keeps_same|].
  cbv zeta. set (s0 := set_stream_err s err).
  destruct (if send_open c s0 then _ else _) as [s1 c1] eqn:E1.
  assert (keeps s c s1 c1) as Hk.
  { destruct (send_open c s0); [|injection E1 as <- <-; by apply keeps_same].
    destruct (xqc_write_reset_stream_to_packet _ _ _ _ _) as [[x s2] c2] eqn:Ew.
    injection E1 as <- <-. apply write_reset_keeps in Ew. exact Ew. }
  repeat case_if; intros [= <- <- <-]; try exact Hk.
  eapply keeps_trans; [exact Hk|]. split; [|done]. intros cap Hcap _. split; simpl; lia.
Qed.

Lemma reset_at_keeps cfg e w s c err size rel r s' c' :
  xqc_process_reset_stream_at_frame cfg e w s c err size rel = (r, s', c') -> keeps s c s' c'.
Proof.
  unfold xqc_process_reset_stream_at_frame.
  do 2 (case_if; [intros [= <- <- <-]; by apply keeps_same|]). case_if.
  { do 2 (case_if; [intros [= <- <- <-]; by apply keeps_same|]). cbv zeta.
    case_if; [|intros [= <- <- <-]; by apply keeps_same]. intros Hf. apply fields_keeps in Hf.
    exact Hf. }
  case_if; [intros [= <- <- <-]; by apply keeps_same|].
  case_if; [case_if; intros [= <- <- <-]; by apply keeps_same|].
  destruct (xqc_stream_account_reset_final_size s c size) as [[[u|x] s1] c1] eqn:Ea;
    apply account_keeps in Ea; [|by intros [= <- <- <-]].
  case_if. { intros Hf. apply fields_keeps in Hf. eapply keeps_trans; [exact Ea|exact Hf]. }
  do 2 (case_if; [by intros [= <- <- <-]|]). cbv zeta. set (s2 := set_reset_at _ _).
  assert (keeps s c s2 c1) as Hk2.
  { eapply keeps_trans; [exact Ea|]. exact (final_keeps s1 c1 size). }
  case_if; [|by intros [= <- <- <-]].
  destruct (xqc_stream_complete_recv_reset _ _ _ _ _ _) as [s4 c4] eqn:Ec. intros [= <- <- <-].
  apply complete_keeps in Ec. by eapply keeps_trans.
Qed.

Lemma keeps_count s c s' c' :
  keeps s c s' c' -> count_ok (hard_cap (cfg_of c)) (stream_data_in s) ->
  count_ok (hard_cap (cfg_of c)) (stream_data_in s') /\ cfg_of c' = cfg_of c.
Proof. intros [H1 H2] Hd. split; [apply H1; [apply hard_cap_pos|done]|done]. Qed.

Lemma any_step_count x y :
  any_step x y -> count_ok (hard_cap (cfg_of (snd x))) (stream_data_in (fst x)) ->
  count_ok (hard_cap (cfg_of (snd x))) (stream_data_in (fst y)) /\ cfg_of (snd y) = cfg_of (snd x).
Proof.
  intros Hxy Hx. destruct Hxy as [short f s c r s' c' E|cfg e w err size s c r s' c' E
    |cfg e w err size rel s c r s' c' E|w limit s c r c' E|w limit s c r s' c' E
    |e size s c r s' c' E]; simpl in *.
  - by eapply process_count.
  - eapply keeps_count; [by eapply process_reset_keeps|done].
  - eapply keeps_count; [by eapply reset_at_keeps|done].
  - apply (keeps_count s c); [|done]. revert E. unfold xqc_process_data_blocked_frame.
    repeat case_match; intros; simplify_eq; by apply keeps_same.
  - apply (keeps_count s c); [|done]. revert E. unfold xqc_process_stream_data_blocked_frame.
    repeat case_match; intros; simplify_eq; by apply keeps_same.
  - by eapply recv_count.
Qed.

Lemma any_reach x y :
  rtc any_step x y -> count_ok (hard_cap (cfg_of (snd x))) (stream_data_in (fst x)) ->
  count_ok (hard_cap (cfg_of (snd x))) (stream_data_in (fst y)) /\ cfg_of (snd y) = cfg_of (snd x).
Proof.
  induction 1 as [|x y z Hxy _ IH]; [done|]. intros Hx.
  assert (count_ok (hard_cap (cfg_of (snd x))) (stream_data_in (fst y))
    /\ cfg_of (snd y) = cfg_of (snd x)) as [Hy Hc].
  { by apply any_step_count. }
  rewrite <- Hc in Hy. destruct (IH Hy) as [Hz Hcz]. rewrite Hc in Hz. split; [done|congruence].
Qed.

Lemma init_count cfg : count_ok (hard_cap cfg) sdi_init.
Proof. pose proof (hard_cap_pos cfg). split; simpl; [done|lia|lia]. Qed.

(** C33: whatever STREAM, RESET_STREAM, RESET_STREAM_AT and blocked frames the peer sends,
    honest or not, and however the application reads, the counter of a stream counts its
    buffered frames and never passes the ceiling: the configured one, or 32768. *)
Theorem buffered_frames_bounded s0 c0 s c :
  stream_data_in s0 = sdi_init -> rtc any_step (s0, c0) (s, c) ->
  buffered_frame_count (stream_data_in s) = Z.of_nat (length (frames_tailq (stream_data_in s)))
  /\ buffered_frame_count (stream_data_in s) <= hard_cap (max_stream_frame_buffered_cnt c0).
Proof.
  intros Hi Hrun. apply any_reach in Hrun as [[Hc Hcap _] _]; [done|].
  simpl. rewrite Hi. apply init_count.
Qed.

Lemma buffered_frames_bounded_witness :
  let p := xqc_process_stream_frame true ex_frame1 ex_stream ex_conn in
  let d := stream_data_in (snd (fst p)) in
  buffered_frame_count d = Z.of_nat (length (frames_tailq d))
  /\ buffered_frame_count d <= hard_cap (max_stream_frame_buffered_cnt ex_conn).
Proof.
  intros p d. apply (buffered_frames_bounded ex_stream ex_conn (snd (fst p)) (snd p)); [done|].
  eapply rtc_l; [eapply (any_frame true ex_frame1), triple_eta|apply rtc_refl].
Defined.

(** ** The first hole can be filled *)

Lemma honest_any S L x y : rtc (recv_step S L) x y -> rtc any_step (fst x) (fst y).
Proof.
  induction 1 as [|x y z Hxy _ IH]; [apply rtc_refl|]. eapply rtc_l; [|exact IH].
  destruct Hxy; simpl; [by eapply any_frame|by eapply any_read].
Qed.

Lemma beyond_all m l : Forall (fun f => m < nd_offset f) l -> beyond m l = l.
Proof.
  induction 1 as [|f l Hf _ IH]; [done|]. unfold beyond in *. rewrite filter_cons.
  by rewrite decide_True, IH.
Qed.

(** No frame behind a hole holds the data of a frame that starts before it. *)
Lemma insert_pos_beyond n m l :
  Forall (fun f => m < nd_offset f) l -> nd_offset n <= m -> is_Some (insert_pos (rev l) [] n).
Proof.
  intros Hl Hn. destruct (insert_pos (rev l) [] n) as [x|] eqn:E; [eauto|].
  apply insert_pos_none in E as (f & Hf & Hd). rewrite Forall_forall in Hl.
  rewrite list_elem_of_In, <- in_rev, <- list_elem_of_In in Hf. specialize (Hl f Hf).
  unfold nd_dup in Hd. apply andb_true_iff in Hd as [Hd _]. apply andb_true_iff in Hd as [Hd _].
  cbv beta in Hl. zb.
Qed.

(** With a configured ceiling, once the application has read all that can be read (its
    last read did not fill the buffer), a frame that continues the contiguous part is
    always taken, however many frames wait behind the hole, and the part grows to its end:
    the stream cannot get stuck. *)
Theorem hole_filler_admitted S L s0 c0 s c app e size r s' c' n :
  stream_data_in s0 = sdi_init -> rtc (recv_step S L) (s0, c0, []) (s, c, app) ->
  0 < max_stream_frame_buffered_cnt c0 -> ~ was_reset s ->
  recv_state (reset_at s) = XQC_RESET_AT_RECV_NONE -> 0 <= size ->
  xqc_stream_recv e s c size = (r, s', c') -> zlen (got r) < size ->
  extends_prefix (stream_data_in s') n = true ->
  exists d, xqc_insert_stream_frame (max_stream_frame_buffered_cnt c0) (stream_data_in s') n
    = (Ok tt, d) /\ nd_end n <= merged_offset_end d.
Proof.
  intros Hi Hrun Hcfg Hw Hra Hsz Hr Hg Hext.
  pose proof (run_reach _ _ _ _ Hrun (init_run_ok _ _ s0 c0 Hi)) as (Hs & _ & _).
  assert (reset_due s = false) as Hdue by (unfold reset_due; by rewrite Hra).
  destruct (recv_open _ _ _ _ _ _ _ _ _ Hs Hw Hsz Hdue Hr) as (_ & Hgot & _ & Hle & _ & Hm & Hdr & _).
  unfold read_limit in *. rewrite Hra in *. cbn [reset_at_none] in *.
  rewrite Hgot, zlen_slice in Hg by lia. specialize (Hdr ltac:(lia)). rewrite <- Hm in Hdr.
  assert (rtc any_step (s0, c0) (s', c')) as Hany.
  { eapply rtc_r; [apply (honest_any _ _ _ _ Hrun)|]. by eapply any_read. }
  apply any_reach in Hany as [[Hc _ Hb] _]; [|simpl; rewrite Hi; apply init_count].
  cbn [fst snd] in *. rewrite beyond_all in Hb by done. unfold cfg_of in Hb.
  pose proof Hext as Hext'. unfold extends_prefix in Hext'. apply andb_true_iff in Hext' as [E1 E2].
  unfold xqc_insert_stream_frame.
  assert (cap_rejects (max_stream_frame_buffered_cnt c0) (stream_data_in s') n = false) as ->.
  { unfold cap_rejects. rewrite Hext. unfold hard_cap, sparse_cap in *.
    destruct (0 <? max_stream_frame_buffered_cnt c0) eqn:E; [|zb]. apply orb_false_iff.
    split; [|apply andb_false_iff; left]; apply Z.leb_gt; lia. }
  destruct (insert_pos_beyond n (merged_offset_end (stream_data_in s'))
    (frames_tailq (stream_data_in s'))) as [[before after] ->]; [done|zb|].
  eexists. split; [done|]. simpl. rewrite E1, E2. apply merge_right_le.
Qed.

Definition ex_conn_cap : xqc_conn_t :=
  mk_rconn XQC_CONN_TYPE_CLIENT (mk_cfc 100 0 0 100 0) 4 0 100 0 [].

Lemma hole_filler_admitted_witness :
  let p := xqc_process_stream_frame true ex_frame1 ex_stream ex_conn_cap in
  let rd := xqc_stream_recv (mk_rtt 1 1 1) (snd (fst p)) (snd p) 10 in
  exists d, xqc_insert_stream_frame 4 (stream_data_in (snd (fst rd))) (node_of ex_frame2)
    = (Ok tt, d) /\ 4 <= merged_offset_end d.
Proof.
  intros p rd.
  apply (hole_filler_admitted (fun i => i) 6 ex_stream ex_conn_cap (snd (fst p)) (snd p) []
    (mk_rtt 1 1 1) 10 (fst (fst rd)) (snd (fst rd)) (snd rd) (node_of ex_frame2)).
  - reflexivity.
  - eapply rtc_l; [eapply (step_frame _ _ true ex_frame1); [apply ex_honest|apply triple_eta]|].
    apply rtc_refl.
  - reflexivity.
  - intros H. vm_compute in H. by apply H.
  - vm_compute. reflexivity.
  - lia.
  - apply triple_eta.
  - vm_compute. reflexivity.
  - vm_compute. reflexivity.
Defined.

(** ** Without a configured ceiling *)

(** A read does not touch the frames behind a hole. *)
Lemma recv_loop_beyond l : forall d size out,
  beyond (merged_offset_end d) (frames_tailq (fst (recv_loop l d size out)))
  = beyond (merged_offset_end d) l.
Proof.
  induction l as [|f l IH]; intros d size out; cbn [recv_loop]; [done|].
  destruct (merged_offset_end d <? nd_offset f) eqn:E1; zify_bools; [done|].
  assert (beyond (merged_offset_end d) (f :: l) = beyond (merged_offset_end d) l) as Hf
    by (unfold beyond; rewrite filter_cons, decide_False; [done|lia]).
  destruct (size <=? zlen out); [done|].
  destruct (nd_end f <? next_read_offset d); [rewrite Hf; apply (IH (free_frame d f))|].
  set (nr := if nd_offset f <? next_read_offset d then _ else _). cbv zeta.
  destruct (_ <=? size).
  - rewrite Hf. apply (IH (free_frame (read_on d (u64 (nd_len f - nr))) f)).
  - rewrite Hf. unfold beyond. simpl. by rewrite filter_cons, decide_False by (simpl; lia).
Qed.

(** A stream that takes any frame inside a window of 16 MiB; no ceiling is configured. *)
Definition WINDOW : Z := XQC_MAX_RECV_WINDOW.

Record wide_open (s : xqc_stream_t) (c : xqc_conn_t) : Prop := {
  wo_reset : reset_at s = mk_ra false XQC_RESET_AT_RECV_NONE 0 0;
  wo_state : stream_state_recv s = XQC_RECV_STREAM_ST_RECV;
  wo_size : stream_determined (stream_data_in s) = false;
  wo_disc : discarded s = false;
  wo_max : 0 <= stream_max_recv_offset s <= WINDOW;
  wo_recved : fc_data_recved (conn_flow_ctl c) = stream_max_recv_offset s;
  wo_swin : fc_max_stream_data_can_recv (stream_flow_ctl s) = WINDOW;
  wo_cwin : fc_max_data_can_recv (conn_flow_ctl c) = WINDOW;
  wo_cfg : max_stream_frame_buffered_cnt c = 0;
}.

Lemma account_open s c e :
  wide_open s c -> 0 <= e <= WINDOW ->
  exists s1 c1,
    (if stream_max_recv_offset s <? e then
      (set_flow s (stream_flow_ctl s) e,
       set_conn_flow c (mk_cfc (fc_max_data_can_recv (conn_flow_ctl c))
         (u64 (fc_data_recved (conn_flow_ctl c) + (e - stream_max_recv_offset s)))
         (fc_data_read (conn_flow_ctl c)) (fc_recv_windows_size (conn_flow_ctl c))
         (cfc_last_window_update_time (conn_flow_ctl c))))
    else (s, c)) = (s1, c1)
  /\ stream_data_in s1 = stream_data_in s /\ wide_open s1 c1.
Proof.
  intros Ho He. pose proof Ho as []. destruct (_ <? _) eqn:E; [|by eexists _, _].
  eexists _, _. split_and!; [done|done|]. zify_bools. unfold WINDOW, XQC_MAX_RECV_WINDOW in *.
  split; try done. simpl. rewrite u64_small by lia. lia.
Qed.

Lemma after_insert_open s c e :
  wide_open s c -> 0 <= e <= WINDOW ->
  exists s' c', after_insert s c e = (Ok tt, s', c')
    /\ stream_data_in s' = stream_data_in s /\ wide_open s' c'.
Proof.
  intros Ho He. unfold after_insert.
  destruct (account_open s c e Ho He) as (s1 & c1 & -> & Hd & Ho1). pose proof Ho1 as [].
  destruct (fc_max_data_can_recv _ <? _) eqn:E1; [zb|].
  destruct (fc_max_stream_data_can_recv _ <? _) eqn:E2; [zb|].
  rewrite wo_size0. cbn [andb]. eexists _, _. split; [done|].
  split; [by case_if|]. case_if; [by split|done].
Qed.

Lemma feed s c f d' :
  wide_open s c -> fin f = false -> 0 <= nd_end (node_of f) <= WINDOW ->
  merged_offset_end (stream_data_in s) < nd_end (node_of f) ->
  xqc_insert_stream_frame 0 (stream_data_in s) (node_of f) = (Ok tt, d') ->
  stream_determined d' = false ->
  exists s' c', xqc_process_stream_frame true f s c = (Ok tt, s', c')
    /\ stream_data_in s' = d' /\ wide_open s' c'.
Proof.
  intros Ho Hfin Hend Hm Hins Hdet.
  assert (wide_open (set_data_in s d') c) as Ho' by (destruct Ho; by split).
  destruct (after_insert_open _ c _ Ho' Hend) as (s' & c' & Ha & Hd & Hw).
  destruct Ho. unfold xqc_process_stream_frame, check_and_insert.
  rewrite wo_reset0, wo_state0, Hfin, wo_size0, wo_disc0, wo_swin0, wo_cwin0, wo_recved0, wo_cfg0, Hins.
  cbn [recv_seen recv_state reset_at_none negb orb andb].
  destruct (nd_end (node_of f) <=? _) eqn:E1; [zb|]. destruct (WINDOW <? nd_end _) eqn:E2; [zb|].
  cbn [andb]. change (_ <=? XQC_RECV_STREAM_ST_RECV) with false. cbn iota.
  unfold WINDOW, XQC_MAX_RECV_WINDOW in *.
  rewrite u64_small by lia. destruct (_ && _) eqn:E3; [apply andb_true_iff in E3 as [_ E3]; zb|].
  eauto.
Qed.

(** ** Dense frames, then single bytes behind a hole *)

Definition dense_node (i : Z) : node := mk_node (1400 * i) (replicate 1400 0) 0.
Definition DENSE : Z := 2048.
Definition EDGE : Z := 1400 * DENSE.
Definition sparse_node (i : Z) : node := mk_node (EDGE + 2 + 2 * i) [0] 0.
Definition SPARSE : Z := 8192.

Definition dense (i : Z) : xqc_stream_data_in_t :=
  mk_sdi (map dense_node (seqZ 0 i)) (1400 * i) 0 0 false i (1400 * i) false.

Definition sparse (j : Z) : xqc_stream_data_in_t :=
  mk_sdi (map dense_node (seqZ 0 DENSE) ++ map sparse_node (seqZ 0 j)) EDGE 0 0 false (DENSE + j)
    (EDGE + j) false.

Lemma seqZ_snoc n : 0 <= n -> seqZ 0 (n + 1) = seqZ 0 n ++ [n].
Proof. intros Hn. rewrite seqZ_app by lia. f_equal. Qed.

(** A frame behind all others. *)
Lemma insert_pos_last l f n :
  nd_offset f <= nd_offset n -> nd_end f < nd_end n ->
  insert_pos (rev (l ++ [f])) [] n = Some (l ++ [f], []).
Proof.
  intros Ho He. rewrite rev_app_distr. cbn [rev app insert_pos].
  destruct (nd_dup f n) eqn:E.
  { unfold nd_dup in E. apply andb_true_iff in E as [_ E]. zb. }
  destruct (_ <=? _) eqn:E1; [|zb]. by rewrite rev_involutive.
Qed.

Lemma dense_end i : nd_end (dense_node i) = 1400 * i + 1400.
Proof. reflexivity. Qed.

Lemma dense_step i :
  0 <= i < DENSE -> xqc_insert_stream_frame 0 (dense i) (dense_node i) = (Ok tt, dense (i + 1)).
Proof.
  unfold DENSE. intros Hi. unfold xqc_insert_stream_frame.
  assert (extends_prefix (dense i) (dense_node i) = true) as Hx.
  { unfold extends_prefix. rewrite dense_end. cbn [nd_offset dense_node merged_offset_end dense].
    apply andb_true_iff. split;
      [apply Z.leb_le|apply Z.ltb_lt]; lia. }
  assert (cap_rejects 0 (dense i) (dense_node i) = false) as ->.
  { unfold cap_rejects. rewrite Hx. change (hard_cap 0) with 32768. change (sparse_cap 0) with 8192.
    cbn [buffered_frame_count dense]. apply orb_false_iff.
    split; [|apply andb_false_iff; left]; apply Z.leb_gt; lia. }
  assert (insert_pos (rev (frames_tailq (dense i))) [] (dense_node i)
    = Some (frames_tailq (dense i), [])) as ->.
  { cbn [frames_tailq dense]. destruct (decide (i = 0)) as [->|]; [done|].
    replace i with ((i - 1) + 1) at 1 3 by lia. rewrite seqZ_snoc by lia. rewrite map_app.
    apply insert_pos_last; rewrite ?dense_end; cbn [nd_offset dense_node]; lia. }
  fold (extends_prefix (dense i) (dense_node i)). rewrite Hx. unfold dense.
  cbn [frames_tailq next_read_offset stream_length stream_determined buffered_frame_count
    buffered_data_bytes merged_offset_end merge_right].
  rewrite seqZ_snoc, map_app by lia. rewrite dense_end. change (nd_len (dense_node i)) with 1400.
  f_equal. f_equal; lia.
Qed.

Lemma sparse_end i : nd_end (sparse_node i) = EDGE + 3 + 2 * i.
Proof. unfold nd_end. change (nd_len (sparse_node i)) with 1. cbn [nd_offset sparse_node]. lia. Qed.

Lemma sparse_0 : sparse 0 = dense DENSE.
Proof.
  unfold sparse, dense, EDGE. change (map sparse_node (seqZ 0 0)) with ([] : list node).
  by rewrite app_nil_r, !Z.add_0_r.
Qed.

Lemma sparse_step j :
  0 <= j < SPARSE -> xqc_insert_stream_frame 0 (sparse j) (sparse_node j) = (Ok tt, sparse (j + 1)).
Proof.
  unfold SPARSE. intros Hj. unfold xqc_insert_stream_frame.
  assert ((nd_offset (sparse_node j) <=? merged_offset_end (sparse j)) = false) as Ho
    by (apply Z.leb_gt; cbn [nd_offset sparse_node merged_offset_end sparse]; lia).
  assert (cap_rejects 0 (sparse j) (sparse_node j) = false) as ->.
  { unfold cap_rejects, extends_prefix. rewrite Ho. cbn [andb].
    change (hard_cap 0) with 32768. change (sparse_cap 0) with 8192.
    cbn [buffered_frame_count buffered_data_bytes sparse]. change (nd_len (sparse_node j)) with 1.
    unfold EDGE, DENSE, XQC_MIN_STREAM_BUFFERED_BYTES_PER_FRAME. apply orb_false_iff.
    split; [|apply andb_false_iff; right]; [apply Z.leb_gt|apply Z.ltb_ge]; lia. }
  assert (insert_pos (rev (frames_tailq (sparse j))) [] (sparse_node j)
    = Some (frames_tailq (sparse j), [])) as ->.
  { cbn [frames_tailq sparse]. destruct (decide (j = 0)) as [->|].
    - change (map sparse_node (seqZ 0 0)) with ([] : list node).
      rewrite app_nil_r. change DENSE with (2047 + 1). rewrite seqZ_snoc, map_app by lia.
      apply insert_pos_last; rewrite ?sparse_end, ?dense_end;
        cbn [nd_offset dense_node sparse_node map]; unfold EDGE, DENSE; lia.
    - replace j with ((j - 1) + 1) at 1 3 by lia. rewrite seqZ_snoc, map_app, app_assoc by lia.
      apply insert_pos_last; rewrite ?sparse_end; cbn [nd_offset sparse_node]; lia. }
  rewrite Ho. cbn [andb]. unfold sparse. cbn [frames_tailq next_read_offset stream_length
    stream_determined buffered_frame_count buffered_data_bytes merged_offset_end].
  change (nd_len (sparse_node j)) with 1.
  rewrite (seqZ_snoc j), map_app, <- app_assoc by lia. f_equal. f_equal; lia.
Qed.

(** ** The run *)

Definition zeros : Z -> Z := fun _ => 0.

Lemma slice_zeros a b : slice zeros a b = replicate (Z.to_nat (b - a)) 0.
Proof.
  unfold slice, zeros. generalize (b - a) as n. intros n.
  rewrite <- (length_seqZ a n). generalize (seqZ a n) as l.
  induction l as [|x l IH]; simpl; [done|by rewrite IH].
Qed.

Definition frame_of (n : node) : xqc_stream_frame_t :=
  mk_sf (Some (nd_data n)) (nd_len n) (nd_offset n) false.

Lemma frame_of_honest n k :
  nd_next n = 0 -> nd_data n = replicate k 0 -> 0 <= nd_offset n -> nd_end n <= WINDOW ->
  honest zeros WINDOW (frame_of n).
Proof.
  intros Hx Hd Ho He.
  assert (nd_end (node_of (frame_of n)) = nd_end n) as Hee by reflexivity.
  split; [|by rewrite Hee|done]. split; [done| |simpl; lia|].
  - rewrite slice_zeros, Hee. unfold nd_end, nd_len, zlen. simpl. rewrite Hd, length_replicate.
    f_equal. lia.
  - rewrite Hee. unfold WINDOW, XQC_MAX_RECV_WINDOW in He. eval_pow. lia.
Qed.

Definition st0 : xqc_stream_t :=
  mk_stream 0 sdi_init XQC_RECV_STREAM_ST_RECV send_init (mk_sfc WINDOW WINDOW 0) 0 0 false false false
    (mk_ra false XQC_RESET_AT_RECV_NONE 0 0) 0.

Definition cn0 : xqc_conn_t :=
  mk_rconn XQC_CONN_TYPE_CLIENT (mk_cfc WINDOW 0 0 WINDOW 0) 0 0 100 0 [].

(** A stream in the given state can be reached, before anything was read. *)
Definition reaches (d : xqc_stream_data_in_t) : Prop :=
  exists s c, rtc (recv_step zeros WINDOW) (st0, cn0, []) (s, c, [])
    /\ stream_data_in s = d /\ wide_open s c.

Lemma reaches_step d n k d' :
  reaches d -> nd_next n = 0 -> nd_data n = replicate k 0 -> 0 <= nd_offset n ->
  nd_end n <= WINDOW -> merged_offset_end d < nd_end n -> 0 <= merged_offset_end d ->
  xqc_insert_stream_frame 0 d n = (Ok tt, d') -> stream_determined d' = false -> reaches d'.
Proof.
  intros (s & c & Hrun & Hd & Hw) Hx Hdat Ho He Hm Hm0 Hi Hdet.
  assert (node_of (frame_of n) = n) as Hn.
  { unfold frame_of, node_of. simpl. rewrite <- Hx. by destruct n. }
  destruct (feed s c (frame_of n) d') as (s' & c' & Hp & Hd' & Hw'); try done.
  - rewrite Hn. lia.
  - by rewrite Hn, Hd.
  - by rewrite Hn, Hd.
  - exists s', c'. split_and!; [|done|done]. eapply rtc_r; [exact Hrun|].
    eapply step_frame; [by eapply frame_of_honest|exact Hp].
Qed.

Lemma reaches_dense i : 0 <= i <= DENSE -> reaches (dense i).
Proof.
  intros [Hi Hle]. revert Hle. pattern i. apply natlike_ind; [| |done].
  - intros _. exists st0, cn0. split_and!; [apply rtc_refl|done|]. by split.
  - intros x Hx IH Hle. replace (Z.succ x) with (x + 1) in * by lia. unfold DENSE in *.
    apply (reaches_step (dense x) (dense_node x) 1400).
    + apply IH. lia.
    + done.
    + done.
    + cbn [nd_offset dense_node]. lia.
    + rewrite dense_end. unfold WINDOW, XQC_MAX_RECV_WINDOW. lia.
    + rewrite dense_end. cbn [merged_offset_end dense]. lia.
    + cbn [merged_offset_end dense]. lia.
    + apply dense_step. unfold DENSE. lia.
    + done.
Qed.

Lemma reaches_sparse j : 0 <= j <= SPARSE -> reaches (sparse j).
Proof.
  intros [Hj Hle]. revert Hle. pattern j. apply natlike_ind; [| |done].
  - intros _. rewrite sparse_0. apply reaches_dense. unfold DENSE. lia.
  - intros x Hx IH Hle. replace (Z.succ x) with (x + 1) in * by lia. unfold SPARSE in *.
    apply (reaches_step (sparse x) (sparse_node x) 1).
    + apply IH. lia.
    + done.
    + done.
    + cbn [nd_offset sparse_node]. unfold EDGE, DENSE. lia.
    + rewrite sparse_end. unfold EDGE, DENSE, WINDOW, XQC_MAX_RECV_WINDOW. lia.
    + rewrite sparse_end. cbn [merged_offset_end sparse]. lia.
    + cbn [merged_offset_end sparse]. unfold EDGE, DENSE. lia.
    + apply sparse_step. unfold SPARSE. lia.
    + done.
Qed.

Lemma beyond_sparse : beyond EDGE (frames_tailq (sparse SPARSE)) = map sparse_node (seqZ 0 SPARSE).
Proof.
  cbn [frames_tailq sparse]. rewrite beyond_app.
  assert (forall l, Forall (fun i => i < DENSE) l -> beyond EDGE (map dense_node l) = []) as Hd.
  { induction 1 as [|i l Hi _ IH]; [done|]. unfold beyond in *. cbn [map].
    rewrite filter_cons, decide_False, IH; [done|]. cbn [nd_offset dense_node]. unfold EDGE. lia. }
  rewrite Hd by (apply Forall_seqZ; intros; lia). cbn [app]. apply beyond_all.
  apply Forall_map, Forall_seqZ. intros i Hi. cbn [nd_offset sparse_node]. lia.
Qed.

Lemma bytes_sparse l : bytes_of (map sparse_node l) = Z.of_nat (length l).
Proof.
  induction l as [|i l IH]; [done|]. cbn [map bytes_of foldr]. fold (bytes_of (map sparse_node l)).
  rewrite IH. change (nd_len (sparse_node i)) with 1. cbn [length]. lia.
Qed.

Lemma sparse_edge : 0 <= EDGE < WINDOW.
Proof. unfold EDGE, DENSE, WINDOW, XQC_MAX_RECV_WINDOW. lia. Qed.

(** The frames that are left when the full frames were read. *)
Lemma sparse_left d' :
  Forall (fun f => EDGE < nd_offset f) (frames_tailq d') ->
  d' = fst (recv_loop (frames_tailq (sparse SPARSE)) (sparse SPARSE) WINDOW []) -> sdi_ok zeros d' ->
  buffered_frame_count d' = SPARSE /\ buffered_data_bytes d' = SPARSE.
Proof.
  intros Hdr Hloop [_ Hc Hb].
  assert (frames_tailq d' = map sparse_node (seqZ 0 SPARSE)) as Hfr.
  { rewrite <- (beyond_all EDGE _ Hdr), Hloop, <- beyond_sparse.
    apply (recv_loop_beyond _ (sparse SPARSE)). }
  rewrite Hfr in Hc, Hb. rewrite bytes_sparse in Hb.
  rewrite length_map, length_seqZ, Z2Nat.id in Hc by (unfold SPARSE; lia).
  rewrite length_seqZ, Z2Nat.id in Hb by (unfold SPARSE; lia). split; assumption.
Qed.

(** C34: without a configured ceiling the stream can get stuck. The peer sends 2048 full
    frames and then 8192 single bytes behind a hole, all of them taken; the application reads
    the full frames, and nothing else can be read. From then on every frame that would fill
    the hole is refused, and the refusal changes nothing: the limit on sparse frames counts
    the frames behind the hole, for which the full frames made room. *)
Theorem hole_filler_refused :
  exists s0 c0 s c app e size r s' c',
    stream_data_in s0 = sdi_init /\ max_stream_frame_buffered_cnt c0 = 0
    /\ rtc (recv_step zeros WINDOW) (s0, c0, []) (s, c, app)
    /\ xqc_stream_recv e s c size = (r, s', c') /\ 0 < zlen (got r) < size
    /\ forall n, extends_prefix (stream_data_in s') n = true -> nd_len n <= 65535 ->
       exists d, xqc_insert_stream_frame 0 (stream_data_in s') n = (Err XQC_ELIMIT, d)
       /\ frames_tailq d = frames_tailq (stream_data_in s')
       /\ merged_offset_end d = merged_offset_end (stream_data_in s')
       /\ next_read_offset d = next_read_offset (stream_data_in s').
Proof.
  destruct (reaches_sparse SPARSE) as (s & c & Hrun & Hd & Hw); [unfold SPARSE; lia|].
  pose proof (run_reach _ _ _ _ Hrun (init_run_ok _ _ st0 cn0 eq_refl)) as (Hs & _ & _).
  destruct (xqc_stream_recv (mk_rtt 1 1 1) s c WINDOW) as [[r s'] c'] eqn:Hrd.
  exists st0, cn0, s, c, [], (mk_rtt 1 1 1), WINDOW, r, s', c'.
  destruct Hw. assert (~ was_reset s) as Hwr by (unfold was_reset; rewrite wo_state0; by intros []).
  assert (reset_due s = false) as Hdue by (unfold reset_due; by rewrite wo_reset0).
  assert (0 <= WINDOW) as Hsz by (unfold WINDOW, XQC_MAX_RECV_WINDOW; lia).
  destruct (recv_open zeros WINDOW (mk_rtt 1 1 1) s c WINDOW _ _ _ Hs Hwr Hsz Hdue Hrd)
    as (Hs' & Hgot & Hn' & Hle & _ & Hm & Hdr & Hloop & Hwr').
  assert (read_limit s WINDOW = WINDOW) as Hrl by (unfold read_limit; by rewrite wo_reset0).
  pose proof sparse_edge as Hedge.
  assert (next_of s = 0) as Hn0 by (unfold next_of; rewrite Hd; reflexivity).
  rewrite Hrl, Hn0 in *. rewrite Hd in *.
  change (merged_offset_end (sparse SPARSE)) with EDGE in *. rewrite Z.min_r in * by lia.
  destruct (sparse_left (stream_data_in s')) as [Hc Hb];
    [apply Hdr; lia|exact Hloop|exact (so_data _ _ _ Hs' Hwr')|].
  split; [reflexivity|]. split; [reflexivity|]. split; [exact Hrun|]. split; [exact Hrd|].
  rewrite Hgot, zlen_slice by lia. split; [unfold EDGE, DENSE in *; lia|].
  intros n Hext Hlen. unfold xqc_insert_stream_frame.
  assert (cap_rejects 0 (stream_data_in s') n = true) as ->;
    [|eexists; split; [reflexivity|]; split_and!; reflexivity].
  unfold cap_rejects. rewrite Hext, Hc, Hb. apply orb_true_iff. right. apply andb_true_iff.
  unfold XQC_MIN_STREAM_BUFFERED_BYTES_PER_FRAME, SPARSE. split; [reflexivity|].
  apply Z.ltb_lt. lia.
Qed.

End ReassemblyCap.
