(* ===== verification/RecvFlow.v ===== *)
(** Receive flow control: whatever frames for its streams the peer sends, nothing is buffered
    behind the limits of the streams, the limits never shrink, and, with the extension
    RESET_STREAM_AT, the connection is charged no more than its limit. Without the extension a
    RESET_STREAM can overcharge it, and new streams get the limit of another type. *)

From stdpp Require Import base numbers list gmap relations.
From S2P Require Import Prelude VInt PacketBuf Frames FrameSpec StreamRecv StreamReset Reassembly ReassemblyCap.
Import Frames FrameSpec StreamRecv StreamReset Reassembly ReassemblyCap.

Module RecvFlow.


Lemma limit_val : XQC_MAX_FLOW_CONTROL_WINDOW = 4611686018427387903.
Proof. reflexivity. Qed.

(** Below this bound [1.5 * window] is exact in a double. *)
Definition WIN_MAX : Z := 4503599627370496.

Definition slimit (s : xqc_stream_t) : Z := fc_max_stream_data_can_recv (stream_flow_ctl s).
Definition swin (s : xqc_stream_t) : Z := fc_stream_recv_window_size (stream_flow_ctl s).
Definition climit (c : xqc_conn_t) : Z := fc_max_data_can_recv (conn_flow_ctl c).
Definition cwin (c : xqc_conn_t) : Z := fc_recv_windows_size (conn_flow_ctl c).
Definition crecved (c : xqc_conn_t) : Z := fc_data_recved (conn_flow_ctl c).

(** The limits are variable-length integers, and the windows are exact in a double. *)
Record windows_ok (s : xqc_stream_t) (c : xqc_conn_t) : Prop := {
  wk_slimit : 0 <= slimit s <= XQC_MAX_FLOW_CONTROL_WINDOW;
  wk_swin : 0 <= swin s <= WIN_MAX;
  wk_climit : 0 <= climit c <= XQC_MAX_FLOW_CONTROL_WINDOW;
  wk_cwin : 0 <= cwin c <= 2 * WIN_MAX;
}.

(** Everything received is inside the limits: that of the connection when [b] says so. *)
Record within (b : bool) (s : xqc_stream_t) (c : xqc_conn_t) : Prop := {
  wi_frames : Forall (fun f => nd_end f <= stream_max_recv_offset s)
                (frames_tailq (stream_data_in s));
  wi_stream : 0 <= stream_max_recv_offset s <= slimit s;
  wi_conn : b = true -> 0 <= crecved c <= climit c;
}.

Lemma clamp_ok v :
  0 <= v -> 0 <= xqc_clamp_to_max_flow_ctl v <= XQC_MAX_FLOW_CONTROL_WINDOW
  /\ forall x, x <= XQC_MAX_FLOW_CONTROL_WINDOW -> x <= v -> x <= xqc_clamp_to_max_flow_ctl v.
Proof.
  unfold xqc_clamp_to_max_flow_ctl. rewrite limit_val. intros Hv.
  destruct (_ <? v) eqn:E; zify_bools; split; intros; lia.
Qed.

(** Raising a limit by the part of the window that is in use. *)
Lemma raise_ok m win avail :
  0 <= m <= XQC_MAX_FLOW_CONTROL_WINDOW -> 0 <= avail < win -> win <= 2 * WIN_MAX ->
  m <= xqc_clamp_to_max_flow_ctl (u64 (m + (win - avail))) <= XQC_MAX_FLOW_CONTROL_WINDOW.
Proof.
  intros Hm Ha Hw. rewrite u64_small
    by (revert Hm Hw; rewrite limit_val; unfold WIN_MAX; eval_pow; lia).
  destruct (clamp_ok (m + (win - avail))) as [H1 H2]; [lia|]. split; [apply H2; lia|lia].
Qed.

Lemma window_grow_ok e w last b :
  0 <= w <= b -> XQC_MAX_RECV_WINDOW <= b -> 0 <= window_grow e w last <= b.
Proof.
  intros Hw Hb. unfold window_grow. case_if; [|done].
  pose proof (u64_range (w * 2)). unfold XQC_MAX_RECV_WINDOW in *. lia.
Qed.

(** A window from the measured rate stays under the largest window. *)
Lemma rate_window_ok a r t b :
  XQC_MAX_RECV_WINDOW <= b ->
  0 <= Z.min XQC_MAX_RECV_WINDOW (Z.max a (u64 (r * t) / 1000000)) <= b.
Proof.
  intros Hb. pose proof (u64_range (r * t)).
  assert (0 <= u64 (r * t) / 1000000) by (apply Z.div_pos; lia).
  unfold XQC_MAX_RECV_WINDOW in *. lia.
Qed.

Lemma conn_flow_ok e s c :
  windows_ok s c -> let c' := xqc_stream_do_recv_conn_flow_ctl e s c in
  windows_ok s c' /\ climit c <= climit c' /\ crecved c' = crecved c.
Proof.
  intros Hk c'. pose proof Hk as [Hs Hw Hc Hcw]. unfold c', xqc_stream_do_recv_conn_flow_ctl.
  fold (climit c) (cwin c) (swin s).
  set (avail := u64 (climit c - fc_data_read (conn_flow_ctl c))).
  pose proof (u64_range (climit c - fc_data_read (conn_flow_ctl c)) : 0 <= avail < _) as Hav.
  destruct (avail <? cwin c / 2) eqn:E0; [|by split_and!; [|lia|]]. zify_bools.
  set (win := if conn_recv_rate_bytes_per_sec c =? 0 then _ else _).
  assert (0 <= win <= 2 * WIN_MAX) as Hwin.
  { unfold win. case_if; [|by apply rate_window_ok].
    pose proof (window_grow_ok e (cwin c) (cfc_last_window_update_time (conn_flow_ctl c))
      (2 * WIN_MAX) Hcw ltac:(done)). case_if; [|done].
    split; [apply Z.div_pos; lia|]. apply Z.div_le_upper_bound; lia. }
  destruct (avail <? win) eqn:E1; zify_bools.
  - pose proof (raise_ok (climit c) win avail Hc ltac:(lia) ltac:(lia)).
    split_and!; [split; try done|..]; unfold climit in *; simpl; lia || done.
  - split_and!; [by split|unfold climit; simpl; lia|done].
Qed.

Lemma flow_ok e s c s' c' :
  windows_ok s c -> xqc_stream_do_recv_flow_ctl e s c = (s', c') ->
  windows_ok s' c' /\ slimit s <= slimit s' /\ climit c <= climit c' /\ crecved c' = crecved c
  /\ stream_max_recv_offset s' = stream_max_recv_offset s.
Proof.
  intros Hk. pose proof Hk as [Hs Hw Hc Hcw]. unfold xqc_stream_do_recv_flow_ctl.
  fold (slimit s) (swin s).
  set (avail := u64 (slimit s - next_read_offset (stream_data_in s))).
  pose proof (u64_range (slimit s - next_read_offset (stream_data_in s)) : 0 <= avail < _) as Hav.
  set (win := if recv_rate_bytes_per_sec s =? 0 then _ else _).
  assert (0 <= win <= WIN_MAX) as Hwin.
  { unfold win. case_if; [by apply window_grow_ok|by apply rate_window_ok]. }
  destruct (avail <? swin s / 2) eqn:E0; [destruct (avail <? win) eqn:E1|]; intros [= <- <-].
  - zify_bools. pose proof (raise_ok (slimit s) win avail Hs ltac:(lia) ltac:(lia)) as Hr.
    set (m := xqc_clamp_to_max_flow_ctl _) in *. set (s1 := set_flow _ _ _).
    set (c1 := send_frame _ _).
    assert (windows_ok s1 c1) as Hk1 by (split; try done; unfold slimit in *; simpl; lia).
    destruct (conn_flow_ok e s1 c1 Hk1) as (H1 & H2 & H3). split_and!; try done.
    unfold s1, slimit in *. simpl. lia.
  - set (s1 := set_flow _ _ _). assert (windows_ok s1 c) as Hk1 by by split.
    destruct (conn_flow_ok e s1 c Hk1) as (H1 & H2 & H3). by split_and!.
  - destruct (conn_flow_ok e s c Hk) as (H1 & H2 & H3). by split_and!.
Qed.

(** ** The frames of a stream stay inside the limits *)

Lemma recv_loop_ends m l : forall d size out,
  Forall (fun f => nd_end f <= m) l ->
  Forall (fun f => nd_end f <= m) (frames_tailq (fst (recv_loop l d size out))).
Proof.
  induction l as [|f l IH]; intros d size out Hl; cbn [recv_loop]; [done|].
  pose proof (Forall_inv_tail Hl) as Hl'. case_if; [done|]. case_if; [done|].
  case_if; [by apply IH|]. set (nr := if nd_offset f <? next_read_offset d then _ else _).
  cbv zeta. destruct (_ <=? size); [by apply IH|]. simpl.
  constructor; [apply (Forall_inv Hl)|done].
Qed.

Lemma insert_ends m cfg d n :
  Forall (fun f => nd_end f <= m) (frames_tailq d) -> nd_end n <= m ->
  Forall (fun f => nd_end f <= m) (frames_tailq (snd (xqc_insert_stream_frame cfg d n))).
Proof.
  intros Hd Hn. unfold xqc_insert_stream_frame. case_if; [done|].
  destruct (insert_pos _ _ _) as [[before after]|] eqn:Ei; [|done].
  apply insert_pos_app in Ei. rewrite rev_involutive, app_nil_r in Ei. simpl.
  rewrite <- Ei, Forall_app in Hd. destruct Hd. apply Forall_app. split; [done|by constructor].
Qed.

Lemma insert_err_ends cfg d n e d' :
  xqc_insert_stream_frame cfg d n = (Err e, d') -> frames_tailq d' = frames_tailq d.
Proof. unfold xqc_insert_stream_frame. repeat case_match; intros; by simplify_eq/=. Qed.

(** The parts of the state the limits are about. *)
Definition same_flow (s s' : xqc_stream_t) : Prop :=
  frames_tailq (stream_data_in s') = frames_tailq (stream_data_in s)
  /\ stream_max_recv_offset s' = stream_max_recv_offset s
  /\ stream_flow_ctl s' = stream_flow_ctl s.

Section Grows.
Context (b : bool).
Abbreviation within := (within b).

(** A state of the run: the limits only grow from [(s, c)] to [(s', c')]. *)
Definition grows (s : xqc_stream_t) (c : xqc_conn_t) (s' : xqc_stream_t) (c' : xqc_conn_t) : Prop :=
  windows_ok s' c' /\ within s' c' /\ slimit s <= slimit s' /\ climit c <= climit c'.

Lemma grows_refl s c : windows_ok s c -> within s c -> grows s c s c.
Proof. by intros ??; split_and!. Qed.

Lemma grows_same s c s1 c1 s2 c2 :
  grows s c s1 c1 -> same_flow s1 s2 -> conn_flow_ctl c2 = conn_flow_ctl c1 -> grows s c s2 c2.
Proof.
  intros ([K1 K2 K3 K4] & [W1 W2 W3] & Hs & Hc) (F1 & F2 & F3) Fc.
  unfold grows, slimit, climit in *. rewrite F3, Fc. split_and!; try done; split;
    unfold slimit, swin, climit, cwin, crecved in *; rewrite ?F1, ?F2, ?F3, ?Fc; done.
Qed.

Lemma all_recvd_flow s : same_flow s (all_recvd s).
Proof. unfold all_recvd. case_if; done. Qed.

Lemma maybe_close_flow c s0 s : same_flow s0 s -> same_flow s0 (xqc_stream_maybe_need_close c s).
Proof. unfold xqc_stream_maybe_need_close. repeat case_if; done. Qed.

(** The accounting of an accepted frame: the bytes it adds are inside both limits. *)
Lemma after_insert_grows s c n r s' c' :
  windows_ok s c -> 0 <= stream_max_recv_offset s <= slimit s ->
  (b = true -> 0 <= crecved c <= climit c) -> n <= slimit s ->
  (stream_max_recv_offset s < n ->
   u64 (crecved c + (n - stream_max_recv_offset s)) <= climit c) ->
  Forall (fun f => nd_end f <= Z.max n (stream_max_recv_offset s))
    (frames_tailq (stream_data_in s)) ->
  after_insert s c n = (r, s', c') -> grows s c s' c'.
Proof.
  intros Hk Hs Hc Hn Hcn Hf. unfold after_insert.
  destruct (if stream_max_recv_offset s <? n then _ else _) as [s1 c1] eqn:E1.
  assert (grows s c s1 c1) as Hg.
  { destruct (stream_max_recv_offset s <? n) eqn:E; simplify_eq; zify_bools.
    - specialize (Hcn ltac:(lia)). rewrite Z.max_l in Hf by lia.
      pose proof (u64_range (crecved c + (n - stream_max_recv_offset s))).
      destruct Hk. split_and!; [by split| |done|done].
      split; [done|split; [simpl; lia|done]|]. unfold crecved, climit in *. simpl. lia.
    - rewrite Z.max_r in Hf by lia. by apply grows_refl. }
  case_if; [intros [= <- <- <-]; by eapply grows_same|].
  case_if; [intros [= <- <- <-]; by eapply grows_same|].
  intros [= <- <- <-]. eapply grows_same; [done| |done]. clear.
  destruct (_ && _); [apply all_recvd_flow|]. by case_if.
Qed.

(** ** The operations *)

Lemma check_and_insert_grows short f s c r s' c' :
  windows_ok s c -> within s c -> check_and_insert short f s c = (r, s', c') -> grows s c s' c'.
Proof.
  intros Hk Hw. pose proof Hw as [Hf Hs Hc]. unfold check_and_insert.
  pose proof (grows_refl s c Hk Hw) as Hg.
  case_if; [intros [= <- <- <-]; by eapply grows_same|].
  case_if; [intros [= <- <- <-]; eapply grows_same; [done| |done]; by case_if|].
  destruct (fc_max_stream_data_can_recv _ <? _) eqn:E1; [intros [= <- <- <-]; by eapply grows_same|].
  destruct ((stream_max_recv_offset s <? _) && _) eqn:E2;
    [intros [= <- <- <-]; by eapply grows_same|].
  set (n := node_of f) in *. set (m := Z.max (nd_end n) (stream_max_recv_offset s)).
  assert (Forall (fun f => nd_end f <= m) (frames_tailq (stream_data_in s))) as Hm
    by (eapply Forall_impl; [exact Hf|]; intros; simpl in *; lia).
  pose proof (insert_ends m (max_stream_frame_buffered_cnt c) _ n Hm ltac:(lia)) as Hi.
  destruct (xqc_insert_stream_frame _ _ _) as [[u|e] d'] eqn:Ei.
  - intros Ha. apply Z.ltb_ge in E1. eapply (after_insert_grows (set_data_in s d') c (nd_end n));
      [destruct Hk; by split|done|done|done| |done|done].
    intros Hlt. apply andb_false_iff in E2 as [E2|E2]; zify_bools; [simpl in *; lia|done].
  - apply insert_err_ends in Ei. assert (same_flow s (set_data_in s d')) by done.
    repeat case_if; intros [= <- <- <-]; by eapply grows_same.
Qed.

Lemma process_grows short f s c r s' c' :
  windows_ok s c -> within s c -> xqc_process_stream_frame short f s c = (r, s', c') ->
  grows s c s' c'.
Proof.
  intros Hk Hw. pose proof (grows_refl s c Hk Hw) as Hg. unfold xqc_process_stream_frame.
  case_if; [intros [= <- <- <-]; by eapply grows_same|].
  case_if; [by intros [= <- <- <-]|].
  case_if; [intros [= <- <- <-]; eapply grows_same;
            [done|case_if; [apply all_recvd_flow|done]|done]|].
  case_if; [|by apply check_and_insert_grows].
  case_if; [intros [= <- <- <-]; by eapply grows_same|].
  set (s1 := on_fin _ _). assert (same_flow s s1) as Hs1 by (unfold s1, on_fin; by case_if).
  pose proof (grows_same _ _ _ _ _ c Hg Hs1 eq_refl) as (Hk1 & Hw1 & Hl1 & _). intros Hci.
  apply check_and_insert_grows in Hci as (H1 & H2 & H3 & H4); [|done|done].
  split_and!; try done. lia.
Qed.

Lemma reset_grows e s c err size consume s' c' :
  windows_ok s c -> within s c ->
  xqc_stream_complete_recv_reset e s c err size consume = (s', c') -> grows s c s' c'.
Proof.
  intros Hk Hw. pose proof (grows_refl s c Hk Hw) as Hg. unfold xqc_stream_complete_recv_reset.
  case_if; [by intros [= <- <-]|]. case_if.
  - cbv zeta. set (s1 := xqc_stream_recv_state_update _ XQC_RECV_STREAM_ST_RESET_RECVD).
    set (c1 := data_read _ _).
    assert (windows_ok s1 c1) as Hk1 by (destruct Hk; by split).
    destruct (conn_flow_ok e s1 c1 Hk1) as (H1 & H2 & H3).
    set (c2 := xqc_stream_do_recv_conn_flow_ctl _ _ _) in *.
    intros [= <- <-].
    apply (grows_same _ _ s1 c2); [|destruct consume; [by apply maybe_close_flow|done]|done].
    destruct Hw as [Hf Hs Hc]. split_and!; [done| |done|done].
    split; [done|done|]. intros Hb. specialize (Hc Hb). rewrite H3.
    unfold crecved, climit in *. simpl in *. lia.
  - intros [= <- <-]. eapply grows_same; [done| |done].
    destruct consume; [by apply maybe_close_flow|done].
Qed.

Lemma recv_grows e size s c r s' c' :
  windows_ok s c -> within s c -> xqc_stream_recv e s c size = (r, s', c') -> grows s c s' c'.
Proof.
  intros Hk Hw. pose proof (grows_refl s c Hk Hw) as Hg. unfold xqc_stream_recv. case_if.
  { destruct (xqc_stream_complete_recv_reset _ _ _ _ _ _) as [s1 c1] eqn:Ec.
    intros [= <- <- <-]. by eapply reset_grows. }
  case_if; [intros [= <- <- <-]; eapply grows_same; [done|by apply maybe_close_flow|done]|].
  set (sz := if reset_at_none _ then _ else _). pose proof Hw as [Hf Hs Hc].
  pose proof (recv_loop_ends _ _ (stream_data_in s) sz [] Hf) as Hl.
  destruct (recv_loop _ _ _ _) as [d out]. simpl in Hl. set (s1 := if _ && _ then _ else _).
  set (c1 := data_read _ _). set (s2 := xqc_stream_shutdown_read s1).
  assert (same_flow (set_data_in s d) s2) as (F1 & F2 & F3)
    by (unfold s2, s1; case_if; [by apply maybe_close_flow|done]).
  assert (windows_ok s2 c1) as Hk1.
  { destruct Hk. unfold slimit, swin in *. split; unfold slimit, swin; rewrite ?F3; done. }
  destruct (xqc_stream_do_recv_flow_ctl _ _ _) as [s3 c3] eqn:Efl.
  pose proof (flow_count e s2 c1) as [Fd _]. rewrite Efl in Fd. simpl in Fd.
  apply flow_ok in Efl as (H1 & H2 & H3 & H4 & H5); [|done].
  assert (slimit s2 = slimit s) as Hls by (unfold slimit; by rewrite F3).
  assert (climit c1 = climit c /\ crecved c1 = crecved c) as [Hlc Hrc] by done.
  simpl in F1, F2, H5. intros [= <- <- <-]. apply (grows_same _ _ s3 c3); [|by case_if|done].
  split_and!; [done| |lia|lia]. split; rewrite ?Fd, ?F1, ?H5, ?F2; [done|lia|].
  intros Hb. specialize (Hc Hb). lia.
Qed.

(** ** Resets and blocked frames *)

Lemma write_reset_flow w s c err size r s' c' :
  xqc_write_reset_stream_to_packet w s c err size = (r, s', c') ->
  same_flow s s' /\ conn_flow_ctl c' = conn_flow_ctl c.
Proof. unfold xqc_write_reset_stream_to_packet. repeat case_match; intros; by simplify_eq. Qed.

Lemma do_reset_flow cfg w s c err r s' c' :
  xqc_stream_do_reset cfg w s c err = (r, s', c') ->
  same_flow s s' /\ conn_flow_ctl c' = conn_flow_ctl c.
Proof.
  unfold xqc_stream_do_reset, xqc_write_reset_stream_at_to_packet.
  repeat case_if; try (intros [= <- <- <-]; done); try apply write_reset_flow.
  - destruct (xqc_write_reset_stream_to_packet _ _ _ _ _) as [[[u|x] s1] c1] eqn:Ew;
      apply write_reset_flow in Ew as [Hs Hc]; intros [= <- <- <-]; done.
  - destruct w; intros [= <- <- <-]; done.
  - destruct w; intros [= <- <- <-]; done.
Qed.

Lemma same_flow_trans s s1 s2 : same_flow s s1 -> same_flow s1 s2 -> same_flow s s2.
Proof. unfold same_flow. intros (-> & -> & ->) (-> & -> & ->). done. Qed.

Lemma do_reset_twice_flow cfg w s c err r s' c' :
  do_reset_twice cfg w s c err = (r, s', c') ->
  same_flow s s' /\ conn_flow_ctl c' = conn_flow_ctl c.
Proof.
  unfold do_reset_twice. destruct (xqc_stream_do_reset _ _ _ _ _) as [[[u|x] s1] c1] eqn:E1;
    apply do_reset_flow in E1 as [Hs Hc]; [by intros [= <- <- <-]|].
  case_if; [|by intros [= <- <- <-]]. intros E2. apply do_reset_flow in E2 as [Hs2 Hc2].
  split; [|congruence]. eapply same_flow_trans; [exact Hs|]. exact Hs2.
Qed.

Lemma account_grows s c size r s' c' :
  windows_ok s c -> within s c ->
  xqc_stream_account_reset_final_size s c size = (r, s', c') -> grows s c s' c'.
Proof.
  intros Hk Hw. pose proof (grows_refl s c Hk Hw) as Hg. destruct Hw as [Hf Hs Hc].
  unfold xqc_stream_account_reset_final_size.
  fold (slimit s) (climit c) (crecved c).
  destruct (_ || _ || _) eqn:E1; [intros [= <- <- <-]; by eapply grows_same|].
  destruct ((_ <? size) || _ || _) eqn:E2; intros [= <- <- <-]; [by eapply grows_same|].
  apply orb_false_iff in E1 as [E1 _]. apply orb_false_iff in E1 as [E1 _].
  apply orb_false_iff in E2 as [E2 E4]. apply orb_false_iff in E2 as [E2 E3].
  zify_bools. destruct Hk as [K1 K2 K3 K4]. split_and!; [by split| |done|done].
  split; [|split; [simpl; lia|done]|].
  - eapply Forall_impl; [exact Hf|]. simpl. intros. lia.
  - intros Hb. specialize (Hc Hb). unfold crecved, climit in *. simpl.
    rewrite u64_small; [lia|]. revert K3. rewrite limit_val. eval_pow. lia.
Qed.

(** A state that grew may grow on. *)
Lemma grows_trans s c s1 c1 s2 c2 :
  grows s c s1 c1 -> (windows_ok s1 c1 -> within s1 c1 -> grows s1 c1 s2 c2) -> grows s c s2 c2.
Proof.
  intros (K & W & L1 & L2) H. destruct (H K W) as (K' & W' & L1' & L2').
  split_and!; [done|done|lia|lia].
Qed.

Lemma fields_grows cfg e w s c err size r s' c' :
  windows_ok s c -> within s c ->
  xqc_process_reset_stream_fields cfg e w s c err size = (r, s', c') -> grows s c s' c'.
Proof.
  intros Hk Hw. pose proof (grows_refl s c Hk Hw) as Hg. unfold xqc_process_reset_stream_fields.
  repeat (case_if; [repeat case_if; intros [= <- <- <-]; by eapply grows_same|]).
  destruct (xqc_stream_account_reset_final_size s c size) as [[[u|x] s1] c1] eqn:Ea;
    apply account_grows in Ea; try done; [|by intros [= <- <- <-]].
  destruct (if send_open c1 s1 then _ else _) as [[[u'|x] s2] c2] eqn:Er.
  all: assert (same_flow s1 s2 /\ conn_flow_ctl c2 = conn_flow_ctl c1) as [Hs2 Hc2]
    by (destruct (send_open c1 s1); [by eapply do_reset_twice_flow|by simplify_eq]).
  all: pose proof (grows_same _ _ _ _ _ _ Ea Hs2 Hc2) as Hg2.
  2: by intros [= <- <- <-].
  case_if; [by intros [= <- <- <-]|]. cbv zeta.
  set (s3 := if reset_at_none _ then _ else _). assert (same_flow s2 s3) by (unfold s3; by case_if).
  destruct (xqc_stream_complete_recv_reset _ _ _ _ _ _) as [s4 c4] eqn:Ec. intros [= <- <- <-].
  eapply grows_trans; [eapply grows_same; [exact Hg2|done|reflexivity]|].
  intros. by eapply reset_grows.
Qed.

Lemma plain_reset_grows w s c err size r s' c' :
  b = false -> windows_ok s c -> within s c ->
  xqc_process_reset_stream_frame w s c err size = (r, s', c') -> grows s c s' c'.
Proof.
  intros Hb Hk Hw. pose proof (grows_refl s c Hk Hw) as Hg. unfold xqc_process_reset_stream_frame.
  case_if; [intros [= <- <- <-]; by eapply grows_same|]. cbv zeta. set (s0 := set_stream_err s err).
  destruct (if send_open c s0 then _ else _) as [s1 c1] eqn:E1.
  assert (same_flow s0 s1 /\ conn_flow_ctl c1 = conn_flow_ctl c) as [Hs1 Hc1].
  { destruct (send_open c s0); [|by injection E1 as <- <-].
    destruct (xqc_write_reset_stream_to_packet _ _ _ _ _) as [[x s2] c2] eqn:Ew.
    injection E1 as <- <-. by eapply write_reset_flow. }
  pose proof (grows_same _ _ _ _ s1 c1 Hg Hs1 Hc1) as Hg1.
  case_if; [by intros [= <- <- <-]|]. case_if; intros [= <- <- <-]; [|done].
  destruct Hg1 as ([K1 K2 K3 K4] & [Hf Hs Hc] & L1 & L2).
  split_and!; [by split| |done|done]. split; [by constructor|done|by rewrite Hb].
Qed.

Lemma process_reset_grows cfg e w s c err size r s' c' :
  (b = true -> local_reset_stream_at cfg = true) -> windows_ok s c -> within s c ->
  process_reset_stream cfg e w s c err size = (r, s', c') -> grows s c s' c'.
Proof.
  intros Hb Hk Hw. unfold process_reset_stream. destruct (local_reset_stream_at cfg);
    [by apply fields_grows|]. apply plain_reset_grows; [|done|done].
  destruct b; [by specialize (Hb eq_refl)|done].
Qed.

Lemma reset_at_grows cfg e w s c err size rel r s' c' :
  windows_ok s c -> within s c ->
  xqc_process_reset_stream_at_frame cfg e w s c err size rel = (r, s', c') -> grows s c s' c'.
Proof.
  intros Hk Hw. pose proof (grows_refl s c Hk Hw) as Hg. unfold xqc_process_reset_stream_at_frame.
  do 2 (case_if; [intros [= <- <- <-]; by eapply grows_same|]). case_if.
  { do 2 (case_if; [intros [= <- <- <-]; by eapply grows_same|]). cbv zeta.
    set (s1 := see_reset_at _ _). assert (grows s c s1 c) as Hg1 by by eapply grows_same.
    case_if; [|by intros [= <- <- <-]]. intros Hf. eapply grows_trans; [exact Hg1|].
    intros. by eapply fields_grows. }
  case_if; [intros [= <- <- <-]; by eapply grows_same|].
  case_if; [case_if; intros [= <- <- <-]; by eapply grows_same|].
  destruct (xqc_stream_account_reset_final_size s c size) as [[[u|x] s1] c1] eqn:Ea;
    apply account_grows in Ea; try done; [|by intros [= <- <- <-]].
  case_if.
  { intros Hf. apply (grows_trans _ _ (see_reset_at s1 err) c1); [by eapply grows_same|].
    intros. by eapply fields_grows. }
  do 2 (case_if; [by intros [= <- <- <-]|]). cbv zeta. set (s2 := set_reset_at _ _).
  assert (grows s c s2 c1) as Hg2 by by eapply grows_same. case_if.
  - destruct (xqc_stream_complete_recv_reset _ _ _ _ _ _) as [s4 c4] eqn:Ec. intros [= <- <- <-].
    eapply grows_trans; [exact Hg2|]. intros. by eapply reset_grows.
  - intros [= <- <- <-]. by eapply grows_same.
Qed.

Lemma data_blocked_grows w s c limit r c' :
  windows_ok s c -> within s c ->
  xqc_process_data_blocked_frame w c limit = (r, c') -> grows s c s c'.
Proof.
  intros Hk Hw. pose proof (grows_refl s c Hk Hw) as Hg. unfold xqc_process_data_blocked_frame.
  fold (climit c) (cwin c). case_if; [by intros [= <- <-]|]. cbv zeta. set (room := u64 _).
  pose proof (u64_range (fc_data_read (conn_flow_ctl c) + cwin c) : 0 <= room < _) as Hr.
  destruct (clamp_ok room ltac:(lia)) as [H1 _].
  destruct (climit c <? _) eqn:El; [|by intros [= <- <-]]. zify_bools.
  destruct Hk as [K1 K2 K3 K4], Hw as [Hf Hs Hc].
  assert (forall c1, conn_flow_ctl c1 = mk_cfc (xqc_clamp_to_max_flow_ctl room) (crecved c)
    (fc_data_read (conn_flow_ctl c)) (cwin c) (cfc_last_window_update_time (conn_flow_ctl c)) ->
    grows s c s c1) as Hgo.
  { intros c1 E1. split_and!; [split; try done| |done|];
      unfold climit, cwin, crecved in *; rewrite ?E1; simpl; try lia; try done.
    split; [done|done|]. intros Hb. specialize (Hc Hb).
    unfold climit, crecved in *. rewrite E1. simpl. lia. }
  destruct w; intros [= <- <-]; by apply Hgo.
Qed.

Lemma stream_blocked_grows w s c limit r s' c' :
  windows_ok s c -> within s c ->
  xqc_process_stream_data_blocked_frame w s c limit = (r, s', c') -> grows s c s' c'.
Proof.
  intros Hk Hw. pose proof (grows_refl s c Hk Hw) as Hg. unfold xqc_process_stream_data_blocked_frame.
  fold (slimit s) (swin s). case_if; [by intros [= <- <- <-]|]. cbv zeta. set (room := u64 _).
  pose proof (u64_range (next_read_offset (stream_data_in s) + swin s) : 0 <= room < _) as Hr.
  destruct (clamp_ok room ltac:(lia)) as [H1 _].
  destruct (slimit s <? _) eqn:El; [|by intros [= <- <- <-]]. zify_bools.
  destruct Hk as [K1 K2 K3 K4], Hw as [Hf Hs Hc].
  destruct w; intros [= <- <- <-]; (split_and!; [split; try done| |unfold slimit in *; simpl; lia|done]);
    try (split; [done|unfold slimit in *; simpl; lia|done]); unfold slimit in *; simpl; lia.
Qed.

End Grows.

(** ** A connection with its streams *)

Definition conn_t : Type := gmap Z xqc_stream_t * xqc_conn_t.

Definition upd (i : Z) (s : xqc_stream_t) (m : gmap Z xqc_stream_t) : gmap Z xqc_stream_t :=
  <[i := s]> m.

(** What can happen: the peer sends STREAM, RESET_STREAM, RESET_STREAM_AT, DATA_BLOCKED or
    STREAM_DATA_BLOCKED frames with any fields, the application reads, and streams are created
    by either end and destroyed. *)
Inductive peer_step (cfg : xqc_trans_settings_t) : conn_t -> conn_t -> Prop :=
| peer_frame short f i m s c r s' c' :
    m !! i = Some s -> xqc_process_stream_frame short f s c = (r, s', c') ->
    peer_step cfg (m, c) (upd i s' m, c')
| peer_reset e w err size i m s c r s' c' :
    m !! i = Some s -> process_reset_stream cfg e w s c err size = (r, s', c') ->
    peer_step cfg (m, c) (upd i s' m, c')
| peer_reset_at e w err size rel i m s c r s' c' :
    m !! i = Some s ->
    xqc_process_reset_stream_at_frame cfg e w s c err size rel = (r, s', c') ->
    peer_step cfg (m, c) (upd i s' m, c')
| peer_data_blocked w limit m c r c' :
    xqc_process_data_blocked_frame w c limit = (r, c') -> peer_step cfg (m, c) (m, c')
| peer_stream_blocked w limit i m s c r s' c' :
    m !! i = Some s -> xqc_process_stream_data_blocked_frame w s c limit = (r, s', c') ->
    peer_step cfg (m, c) (upd i s' m, c')
| peer_read e size i m s c r s' c' :
    m !! i = Some s -> xqc_stream_recv e s c size = (r, s', c') ->
    peer_step cfg (m, c) (upd i s' m, c')
| peer_create i rate refused m c :
    m !! i = None ->
    peer_step cfg (m, c) (upd i (xqc_create_stream_with_conn cfg c i rate refused) m, c)
| peer_destroy i m c : peer_step cfg (m, c) (delete i m, c).

(** The limits of the settings are windows that are exact in a double. *)
Definition settings_ok (cfg : xqc_trans_settings_t) : Prop :=
  0 <= max_stream_data_bidi_local cfg <= WIN_MAX
  /\ 0 <= max_stream_data_bidi_remote cfg <= WIN_MAX
  /\ 0 <= max_stream_data_uni cfg <= WIN_MAX.

Record conn_ok (b : bool) (c : xqc_conn_t) : Prop := {
  ck_climit : 0 <= climit c <= XQC_MAX_FLOW_CONTROL_WINDOW;
  ck_cwin : 0 <= cwin c <= 2 * WIN_MAX;
  ck_conn : b = true -> 0 <= crecved c <= climit c;
}.

Record stream_ok (s : xqc_stream_t) : Prop := {
  sk_frames : Forall (fun f => nd_end f <= stream_max_recv_offset s)
                (frames_tailq (stream_data_in s));
  sk_max : 0 <= stream_max_recv_offset s <= slimit s;
  sk_slimit : 0 <= slimit s <= XQC_MAX_FLOW_CONTROL_WINDOW;
  sk_swin : 0 <= swin s <= WIN_MAX;
}.

Definition all_ok (cfg : xqc_trans_settings_t) (x : conn_t) : Prop :=
  conn_ok (local_reset_stream_at cfg) (snd x) /\ map_Forall (fun _ => stream_ok) (fst x).

(** The limits of [y] are those of [x], or larger ones. *)
Definition limits_le (x y : conn_t) : Prop :=
  climit (snd x) <= climit (snd y)
  /\ forall i s s', fst x !! i = Some s -> fst y !! i = Some s' -> slimit s <= slimit s'.

Lemma ok_split b s c : stream_ok s -> conn_ok b c -> windows_ok s c /\ within b s c.
Proof. intros [] []. by split. Qed.

Lemma ok_join b s c s' c' : grows b s c s' c' -> stream_ok s' /\ conn_ok b c'.
Proof. intros ([] & [] & _ & _). by split. Qed.

(** One stream and the connection change. *)
Lemma step_one cfg i m s c s' c' :
  all_ok cfg (m, c) -> m !! i = Some s ->
  (windows_ok s c -> within (local_reset_stream_at cfg) s c ->
   grows (local_reset_stream_at cfg) s c s' c') ->
  all_ok cfg (upd i s' m, c') /\ limits_le (m, c) (upd i s' m, c').
Proof.
  intros [Hc Hm] Hi Hg. destruct (ok_split _ s c (Hm i s Hi) Hc) as [Hk Hw].
  specialize (Hg Hk Hw). destruct (ok_join _ _ _ _ _ Hg) as [Hs' Hc'].
  destruct Hg as (_ & _ & L1 & L2). split; [split; [done|by apply map_Forall_insert_2]|].
  split; [done|]. simpl. intros j t t' Ht Ht'. unfold upd in Ht'.
  destruct (decide (i = j)) as [<-|Hne];
    [rewrite lookup_insert_eq in Ht'|rewrite lookup_insert_ne in Ht' by done]; simplify_eq; lia.
Qed.

Lemma fresh_stream_ok cfg c i rate refused :
  settings_ok cfg -> stream_ok (xqc_create_stream_with_conn cfg c i rate refused).
Proof.
  intros (H1 & H2 & H3).
  assert (WIN_MAX <= XQC_MAX_FLOW_CONTROL_WINDOW) by by_decide.
  split; unfold slimit, swin, xqc_create_stream_with_conn, xqc_stream_set_flow_ctl; simpl;
    [by constructor|..]; destruct (rc_type c); simpl; lia.
Qed.

Lemma limits_le_same m m' c :
  (forall i s s', m !! i = Some s -> m' !! i = Some s' -> s' = s) -> limits_le (m, c) (m', c).
Proof. intros H. split; simpl; [lia|]. intros i s s' Hi Hi'. by rewrite (H i s s' Hi Hi'). Qed.

Lemma peer_step_ok cfg x y :
  settings_ok cfg -> peer_step cfg x y -> all_ok cfg x -> all_ok cfg y /\ limits_le x y.
Proof.
  intros Hcfg Hxy Hx. destruct Hxy as
    [short f i m s c r s' c' Hi E|e w err size i m s c r s' c' Hi E
    |e w err size rel i m s c r s' c' Hi E|w limit m c r c' E|w limit i m s c r s' c' Hi E
    |e size i m s c r s' c' Hi E|i rate refused m c Hi|i m c].
  - eapply step_one; [done|done|]. intros. by eapply process_grows.
  - eapply step_one; [done|done|]. intros. by eapply process_reset_grows.
  - eapply step_one; [done|done|]. intros. by eapply reset_at_grows.
  - destruct Hx as [Hc Hm]. set (s := xqc_create_stream_with_conn cfg c 0 0 false).
    destruct (ok_split _ s c (fresh_stream_ok cfg c 0 0 false Hcfg) Hc) as [Hk Hw].
    pose proof (data_blocked_grows _ w s c limit r c' Hk Hw E) as Hg.
    destruct (ok_join _ _ _ _ _ Hg) as [_ Hc']. destruct Hg as (_ & _ & _ & L2).
    split; [by split|]. split; [done|]. simpl. intros j t t' Ht Ht'. simplify_eq. lia.
  - eapply step_one; [done|done|]. intros. by eapply stream_blocked_grows.
  - eapply step_one; [done|done|]. intros. by eapply recv_grows.
  - destruct Hx as [Hc Hm]. split; [split; [done|]|].
    + apply map_Forall_insert_2; [by apply fresh_stream_ok|done].
    + apply limits_le_same. intros j t t' Ht Ht'. unfold upd in Ht'.
      rewrite lookup_insert_ne in Ht' by congruence. congruence.
  - destruct Hx as [Hc Hm]. split; [split; [done|by apply map_Forall_delete]|].
    apply limits_le_same. intros j t t' Ht Ht'. apply lookup_delete_Some in Ht' as [_ Ht'].
    congruence.
Qed.

Lemma peer_run_ok cfg x y :
  settings_ok cfg -> rtc (peer_step cfg) x y -> all_ok cfg x ->
  all_ok cfg y /\ climit (snd x) <= climit (snd y).
Proof.
  intros Hcfg. induction 1 as [|x y z Hxy _ IH]; intros Hx; [done|].
  destruct (peer_step_ok cfg x y Hcfg Hxy Hx) as [Hy [L _]]. destruct (IH Hy). split; [done|lia].
Qed.

(** ** The theorems *)

(** C4: whatever STREAM, RESET_STREAM, RESET_STREAM_AT, DATA_BLOCKED and STREAM_DATA_BLOCKED
    frames the peer sends, for any streams and with any fields, and however the application
    reads and streams come and go, no stream buffers a byte behind its limit, the limits stay
    in the range of a variable-length integer, and no step lowers the limit of a stream or of
    the connection. When the extension RESET_STREAM_AT is on, the connection is never charged
    more than its limit; without it, that holds no longer ([reset_overcharges]). *)
Theorem flow_limits_hold cfg c0 m c :
  settings_ok cfg -> conn_ok true c0 -> rtc (peer_step cfg) (∅, c0) (m, c) ->
  (forall i s, m !! i = Some s ->
     Forall (fun f => nd_end f <= fc_max_stream_data_can_recv (stream_flow_ctl s))
       (frames_tailq (stream_data_in s))
     /\ stream_max_recv_offset s <= fc_max_stream_data_can_recv (stream_flow_ctl s)
     /\ fc_max_stream_data_can_recv (stream_flow_ctl s) <= XQC_MAX_FLOW_CONTROL_WINDOW)
  /\ climit c0 <= climit c <= XQC_MAX_FLOW_CONTROL_WINDOW
  /\ (local_reset_stream_at cfg = true ->
      fc_data_recved (conn_flow_ctl c) <= fc_max_data_can_recv (conn_flow_ctl c))
  /\ (forall y, peer_step cfg (m, c) y -> limits_le (m, c) y).
Proof.
  intros Hcfg [H1 H2 H3] Hrun. specialize (H3 eq_refl).
  destruct (peer_run_ok _ _ _ Hcfg Hrun) as [[[C1 C2 C3] Hm] Hl].
  { split; [by split|apply map_Forall_empty]. }
  simpl in *. split_and!; [|lia|lia|intros Hb; by apply C3|].
  - intros i s Hi. destruct (Hm i s Hi) as [Hf Hmax Hsl _]. fold (slimit s).
    split_and!; [|lia|lia]. eapply Forall_impl; [exact Hf|]. simpl. intros. lia.
  - intros y Hy. by apply (peer_step_ok cfg (m, c) y).
Qed.

Definition ex_reader : rtt_env := mk_rtt 1000 10 10.
Definition ex_settings : xqc_trans_settings_t := xqc_conn_init_trans_settings false 0 100 true true.

Lemma flow_limits_hold_witness :
  let s0 := xqc_create_stream_with_conn ex_settings ex_conn 4 0 false in
  let p := xqc_process_stream_frame true ex_frame2 s0 ex_conn in
  let q := process_reset_stream ex_settings ex_reader (Ok tt) (snd (fst p)) (snd p) 7 90 in
  fst (fst p) = Ok tt /\ fst (fst q) = Ok tt
  /\ fc_data_recved (conn_flow_ctl (snd q)) <= fc_max_data_can_recv (conn_flow_ctl (snd q)).
Proof.
  intros s0 p q. split_and!; [reflexivity|reflexivity|].
  refine (proj1 (proj2 (proj2 (flow_limits_hold ex_settings ex_conn
    (upd 4 (snd (fst q)) (upd 4 (snd (fst p)) (upd 4 s0 ∅))) (snd q) _ _ _))) eq_refl);
    [by split_and!; vm_compute|by split; vm_compute|].
  eapply rtc_l; [by apply (peer_create ex_settings 4 0 false)|].
  eapply rtc_l; [eapply (peer_frame ex_settings true ex_frame2 4); [apply lookup_insert_eq|apply triple_eta]|].
  apply rtc_once. eapply (peer_reset ex_settings ex_reader (Ok tt) 7 90 4);
    [apply lookup_insert_eq|apply triple_eta].
Defined.







(** The limit the peer was told for a stream that it opens to a client. *)
Definition advertised (cfg : xqc_trans_settings_t) (id : Z) : Z :=
  fc_max_stream_data_can_recv
    (xqc_stream_set_flow_ctl cfg XQC_CONN_TYPE_CLIENT (xqc_get_stream_type id)).

(** A client that limits the rate of its streams advertises [XQC_MAX_RECV_WINDOW] for the
    streams the server opens and [init_recv_window] for its own, but gives every new stream
    the latter: the first frame of a stream of the server, inside the advertised limit and
    beyond [init_recv_window], closes the connection with FLOW_CONTROL_ERROR. *)
Theorem new_stream_limit_too_small window data la ra c id rate short f :
  let cfg := xqc_conn_init_trans_settings true window data la ra in
  rc_type c = XQC_CONN_TYPE_CLIENT -> rc_err c = 0 ->
  xqc_get_stream_type id = XQC_SVR_BID \/ xqc_get_stream_type id = XQC_SVR_UNI ->
  0 <= window < nd_end (node_of f) -> nd_end (node_of f) <= XQC_MAX_RECV_WINDOW ->
  nd_end (node_of f) <= advertised cfg id
  /\ let r := xqc_process_stream_frame short f
                (xqc_create_stream_with_conn cfg c id rate false) c in
     fst (fst r) = Err XQC_EPROTO /\ rc_err (snd r) = TRA_FLOW_CONTROL_ERROR.
Proof.
  intros cfg Hct He Ht Hw Hm. split.
  { unfold advertised, xqc_stream_set_flow_ctl. by destruct Ht as [-> | ->]. }
  unfold xqc_process_stream_frame, xqc_create_stream_with_conn, check_and_insert, on_fin,
    xqc_stream_set_flow_ctl. rewrite Hct. simpl.
  rewrite (proj2 (Z.leb_gt (nd_end (node_of f)) 0)) by lia. simpl.
  destruct (fin f); simpl; rewrite ?Z.ltb_irrefl; simpl;
    rewrite (proj2 (Z.ltb_lt _ _)) by lia; simpl; by rewrite He.
Qed.

Definition ex_client : xqc_conn_t :=
  mk_rconn XQC_CONN_TYPE_CLIENT (mk_cfc 16777216 0 0 16777216 0) 0 0 65536 0 [].
Definition ex_late : xqc_stream_frame_t := mk_sf (Some [1]) 1 65536 false.

Lemma new_stream_limit_too_small_witness :
  let cfg := xqc_conn_init_trans_settings true 65536 16777216 true true in
  nd_end (node_of ex_late) <= advertised cfg 3
  /\ let r := xqc_process_stream_frame true ex_late
                (xqc_create_stream_with_conn cfg ex_client 3 0 false) ex_client in
     fst (fst r) = Err XQC_EPROTO /\ rc_err (snd r) = TRA_FLOW_CONTROL_ERROR.
Proof.
  apply (new_stream_limit_too_small 65536 16777216 true true ex_client 3 0 true ex_late);
    [done|done|by right|by vm_compute|by vm_compute].
Defined.

End RecvFlow.
