(* ===== verification/CidSet.v ===== *)
(** Connection identifiers: the sets of identifiers a connection has issued and was given, one
    inner set per path (xqc_cid.c). The counters the code keeps beside the lists are exact,
    the limit on identifiers holds, and no identifier is handed out twice. *)

From stdpp Require Import base numbers list relations.
From S2P Require Import Prelude VInt PacketBuf Frames.
Import Frames.

Module CidSet.

Definition XQC_ECONN_NO_AVAIL_CID : Z := 634.
Definition XQC_ECONN_CID_NOT_FOUND : Z := 635.
Definition XQC_ECID_STATE : Z := 637.
Definition XQC_EGENERATE_CID : Z := 632.
Definition XQC_EACTIVE_CID_LIMIT : Z := 638.
Definition XQC_MAX_UINT64_VALUE : Z := 18446744073709551615.

(** ** The data *)

Inductive xqc_cid_state_t :=
| XQC_CID_UNUSED
| XQC_CID_USED
| XQC_CID_RETIRED
| XQC_CID_REMOVED.

#[export] Instance cid_state_eq_dec : EqDecision xqc_cid_state_t.
Proof. solve_decision. Defined.

(** The value of the enumerator. *)
Definition cid_state_num (s : xqc_cid_state_t) : Z :=
  match s with
  | XQC_CID_UNUSED => 0
  | XQC_CID_USED => 1
  | XQC_CID_RETIRED => 2
  | XQC_CID_REMOVED => 3
  end.

Definition is_state (st : xqc_cid_state_t) (s : xqc_cid_state_t) : bool := bool_decide (s = st).

Inductive xqc_cid_set_state_t :=
| XQC_CID_SET_UNUSED
| XQC_CID_SET_USED
| XQC_CID_SET_ABANDONED.

#[export] Instance cid_set_state_eq_dec : EqDecision xqc_cid_set_state_t.
Proof. solve_decision. Defined.

(** An identifier in a set; [ci_addr] is the address of the structure, which is what the
    pointers the code passes around hold. *)
Record xqc_cid_inner_t := mk_ci {
  ci_addr : Z;
  ci_cid : xqc_cid_t;
  ci_state : xqc_cid_state_t;
  ci_retired_ts : Z;
  ci_acked : bool;
  ci_original : bool;
}.

(** [largest] is the union of [largest_scid_seq_num] and [largest_retire_prior_to]. *)
Record xqc_cid_set_inner_t := mk_cs {
  cid_list : list xqc_cid_inner_t;
  unused_cnt : Z;
  used_cnt : Z;
  retired_cnt : Z;
  original_cid_cnt : Z;
  s_path_id : Z;
  largest : Z;
  set_state : xqc_cid_set_state_t;
  acked_unused : Z;
}.

Record set_counts := mk_cnt { n_unused : Z; n_used : Z; n_abandoned : Z }.

Record xqc_cid_set_t := mk_cset {
  cid_set_list : list xqc_cid_set_inner_t;
  abandoned_set_list : list xqc_cid_set_inner_t;
  set_cnt : set_counts;
}.

(** ** Identifiers *)

Definition xqc_cid_is_equal (dst src : xqc_cid_t) : bool :=
  (cid_len dst =? cid_len src)
  && bool_decide (sub_bytes (cid_buf dst) 0 (cid_len dst) = sub_bytes (cid_buf src) 0 (cid_len dst)).

Definition xqc_cid_copy (dst src : xqc_cid_t) : xqc_cid_t :=
  mk_cid (cid_len src) (wr (cid_buf dst) 0 (sub_bytes (cid_buf src) 0 (cid_len src)))
    (cid_seq_num src) (wr (sr_token dst) 0 (sub_bytes (sr_token src) 0 XQC_STATELESS_RESET_TOKENLEN))
    (path_id src).

Definition xqc_cid_init_zero : xqc_cid_t :=
  mk_cid 0 (replicate (Z.to_nat XQC_MAX_CID_LEN) 0) 0
    (replicate (Z.to_nat XQC_STATELESS_RESET_TOKENLEN) 0) 0.

Definition xqc_cid_set (cid : xqc_cid_t) (data : list Z) (len : Z) : xqc_cid_t :=
  mk_cid len (if len =? 0 then cid_buf cid else wr (cid_buf cid) 0 (sub_bytes data 0 len))
    (cid_seq_num cid) (sr_token cid) (path_id cid).

Definition cid_with_path (cid : xqc_cid_t) (pid : Z) : xqc_cid_t :=
  mk_cid (cid_len cid) (cid_buf cid) (cid_seq_num cid) (sr_token cid) pid.

(** The two assignments to [*cid] when a search succeeds. *)
Definition adopt (cid : xqc_cid_t) (found : xqc_cid_inner_t) : xqc_cid_t :=
  mk_cid (cid_len cid) (cid_buf cid) (cid_seq_num (ci_cid found)) (sr_token cid)
    (path_id (ci_cid found)).

(** ** Access

    An inner set is made only for a path that has none ([xqc_cid_set_add_path]), so its path
    id stands for its address. [all_sets] is the order of [xqc_cid_set_first] and
    [xqc_cid_set_next]. *)

Definition all_sets (cs : xqc_cid_set_t) : list xqc_cid_set_inner_t :=
  cid_set_list cs ++ abandoned_set_list cs.

Definition all_cids (cs : xqc_cid_set_t) : list xqc_cid_inner_t :=
  concat (map cid_list (all_sets cs)).

Definition map_sets (g : xqc_cid_set_inner_t -> xqc_cid_set_inner_t) (cs : xqc_cid_set_t)
    : xqc_cid_set_t :=
  mk_cset (map g (cid_set_list cs)) (map g (abandoned_set_list cs)) (set_cnt cs).

Definition at_path (pid : Z) (g : xqc_cid_set_inner_t -> xqc_cid_set_inner_t)
    (s : xqc_cid_set_inner_t) : xqc_cid_set_inner_t := if s_path_id s =? pid then g s else s.

(** [*inner_set = g *inner_set] and [*cid = g *cid]. *)
Definition upd_set (cs : xqc_cid_set_t) (pid : Z)
    (g : xqc_cid_set_inner_t -> xqc_cid_set_inner_t) : xqc_cid_set_t := map_sets (at_path pid g) cs.

Definition upd_addr (a : Z) (g : xqc_cid_inner_t -> xqc_cid_inner_t) (l : list xqc_cid_inner_t)
    : list xqc_cid_inner_t := map (fun ci => if ci_addr ci =? a then g ci else ci) l.

Definition with_list (l : list xqc_cid_inner_t) (s : xqc_cid_set_inner_t) : xqc_cid_set_inner_t :=
  mk_cs l (unused_cnt s) (used_cnt s) (retired_cnt s) (original_cid_cnt s) (s_path_id s)
    (largest s) (set_state s) (acked_unused s).

Definition upd_cid (cs : xqc_cid_set_t) (a : Z) (g : xqc_cid_inner_t -> xqc_cid_inner_t)
    : xqc_cid_set_t := map_sets (fun s => with_list (upd_addr a g (cid_list s)) s) cs.

(** The counters: [d1], [d2], [d3], [d4], [d5] are added to the unused, used, retired, original
    and acknowledged-unused ones. *)
Definition add_cnt (d1 d2 d3 d4 d5 : Z) (s : xqc_cid_set_inner_t) : xqc_cid_set_inner_t :=
  mk_cs (cid_list s) (u64 (unused_cnt s + d1)) (u64 (used_cnt s + d2)) (u64 (retired_cnt s + d3))
    (u64 (original_cid_cnt s + d4)) (s_path_id s) (largest s) (set_state s)
    (u32 (acked_unused s + d5)).

Definition zb1 (b : bool) : Z := if b then 1 else 0.

Definition xqc_init_cid_set : xqc_cid_set_t := mk_cset [] [] (mk_cnt 0 0 0).

Definition xqc_get_path_cid_set (cs : xqc_cid_set_t) (pid : Z) : option xqc_cid_set_inner_t :=
  find (fun s => s_path_id s =? pid) (all_sets cs).

Definition xqc_get_next_unused_path_cid_set (cs : xqc_cid_set_t) : option xqc_cid_set_inner_t :=
  find (fun s => bool_decide (set_state s = XQC_CID_SET_UNUSED)) (cid_set_list cs).

Definition xqc_cid_set_countable_cnt (s : xqc_cid_set_inner_t) : Z :=
  let active := u64 (unused_cnt s + used_cnt s) in
  if original_cid_cnt s <? active then active - original_cid_cnt s else 0.

(** The argument [*cid] becomes [adopt cid found] where the search succeeds. *)
Definition xqc_cid_set_search_cid (cs : xqc_cid_set_t) (cid : xqc_cid_t)
    : option xqc_cid_inner_t :=
  find (fun ci => xqc_cid_is_equal cid (ci_cid ci)) (all_cids cs).

Definition xqc_cid_in_cid_set (cs : xqc_cid_set_t) (cid : xqc_cid_t) (pid : Z)
    : option xqc_cid_inner_t :=
  match xqc_get_path_cid_set cs pid with
  | None => None
  | Some s => find (fun ci => xqc_cid_is_equal cid (ci_cid ci)) (cid_list s)
  end.

Definition xqc_get_inner_cid_by_seq (cs : xqc_cid_set_t) (seq_num pid : Z)
    : option xqc_cid_inner_t :=
  match xqc_get_path_cid_set cs pid with
  | None => None
  | Some s => find (fun ci => cid_seq_num (ci_cid ci) =? seq_num) (cid_list s)
  end.

(** ** Operations *)

Definition is_unused (ci : xqc_cid_inner_t) : bool := is_state XQC_CID_UNUSED (ci_state ci).
Definition is_used (ci : xqc_cid_inner_t) : bool := is_state XQC_CID_USED (ci_state ci).
Definition is_retired (ci : xqc_cid_inner_t) : bool := is_state XQC_CID_RETIRED (ci_state ci).
Definition is_active (ci : xqc_cid_inner_t) : bool := is_unused ci || is_used ci.

(** [xqc_calloc] gives an address, or nothing. The caller's [*cid] is the one returned. *)
Definition xqc_cid_set_insert_cid (alloc : option Z) (cs : xqc_cid_set_t) (cid : xqc_cid_t)
    (state : xqc_cid_state_t) (limit pid : Z) : res xqc_cid_t * xqc_cid_set_t :=
  match xqc_get_path_cid_set cs pid with
  | None => (Err XQC_ECONN_CID_NOT_FOUND, cs)
  | Some s =>
      if limit <=? xqc_cid_set_countable_cnt s then (Err XQC_EACTIVE_CID_LIMIT, cs)
      else
        match alloc with
        | None => (Err XQC_EMALLOC, cs)
        | Some a =>
            let cid := cid_with_path cid pid in
            let ci := mk_ci a (xqc_cid_copy xqc_cid_init_zero cid) state XQC_MAX_UINT64_VALUE
                        false false in
            (Ok cid,
             upd_set cs pid (fun s =>
               add_cnt (zb1 (is_unused ci)) (zb1 (is_used ci)) (zb1 (is_retired ci)) 0 0
                 (with_list (cid_list s ++ [ci]) s)))
        end
  end.

Fixpoint remove_first (p : xqc_cid_inner_t -> bool) (l : list xqc_cid_inner_t)
    : list xqc_cid_inner_t :=
  match l with
  | [] => []
  | ci :: l' => if p ci then l' else ci :: remove_first p l'
  end.

(** [if (b && original_cid_cnt > 0) original_cid_cnt--]. *)
Definition orig_dec (b : bool) (s : xqc_cid_set_inner_t) : Z :=
  - zb1 (b && (0 <? original_cid_cnt s)).

Definition xqc_cid_set_delete_cid (cs : xqc_cid_set_t) (cid : xqc_cid_t) (pid : Z)
    : res unit * xqc_cid_set_t :=
  let p := fun ci => xqc_cid_is_equal cid (ci_cid ci) in
  match xqc_get_path_cid_set cs pid with
  | None => (Err XQC_ERROR, cs)
  | Some s =>
      match find p (cid_list s) with
      | None => (Err XQC_ERROR, cs)
      | Some ci =>
          (Ok tt,
           upd_set cs pid (fun s =>
             add_cnt (- zb1 (is_unused ci)) (- zb1 (is_used ci)) (- zb1 (is_retired ci))
               (orig_dec (ci_original ci) s) (- zb1 (is_unused ci && ci_acked ci))
               (with_list (remove_first p (cid_list s)) s)))
      end
  end.

(** [ci] is the structure the argument points to. *)
Definition xqc_cid_switch_to_next_state (cs : xqc_cid_set_t) (ci : xqc_cid_inner_t)
    (next_state : xqc_cid_state_t) (pid : Z) : res unit * xqc_cid_set_t :=
  match xqc_cid_in_cid_set cs (ci_cid ci) pid with
  | None => (Err XQC_ECONN_CID_NOT_FOUND, cs)
  | Some found =>
      let cs := upd_cid cs (ci_addr ci) (fun x =>
        mk_ci (ci_addr x) (adopt (ci_cid x) found) (ci_state x) (ci_retired_ts x) (ci_acked x)
          (ci_original x)) in
      if cid_state_num (ci_state ci) =? cid_state_num next_state then (Ok tt, cs)
      else if cid_state_num next_state <? cid_state_num (ci_state ci)
      then (Err XQC_ECID_STATE, cs)
      else
        match xqc_get_path_cid_set cs pid with
        | None => (Err XQC_ECONN_CID_NOT_FOUND, cs)
        | Some _ =>
            let leaves := ci_original ci && is_active ci
                          && negb (is_state XQC_CID_UNUSED next_state)
                          && negb (is_state XQC_CID_USED next_state) in
            let cs := upd_set cs pid (fun s =>
              add_cnt (- zb1 (is_unused ci))
                (zb1 (is_state XQC_CID_USED next_state) - zb1 (is_used ci))
                (zb1 (is_state XQC_CID_RETIRED next_state) - zb1 (is_retired ci))
                (orig_dec leaves s) (- zb1 (is_unused ci && ci_acked ci)) s) in
            (Ok tt,
             upd_cid cs (ci_addr ci) (fun x =>
               mk_ci (ci_addr x) (ci_cid x) next_state (ci_retired_ts x) (ci_acked x)
                 (if leaves then false else ci_original x)))
        end
  end.

(** The caller's [*cid] is the one returned. *)
Definition xqc_get_unused_cid (cs : xqc_cid_set_t) (cid : xqc_cid_t) (pid : Z)
    : res xqc_cid_t * xqc_cid_set_t :=
  match xqc_get_path_cid_set cs pid with
  | None => (Err XQC_ECONN_NO_AVAIL_CID, cs)
  | Some s =>
      if unused_cnt s =? 0 then (Err XQC_ECONN_NO_AVAIL_CID, cs)
      else
        match find is_unused (cid_list s) with
        | None => (Err XQC_ECONN_NO_AVAIL_CID, cs)
        | Some ci =>
            let '(r, cs) := xqc_cid_switch_to_next_state cs ci XQC_CID_USED pid in
            (match r with Ok _ => Ok (xqc_cid_copy cid (ci_cid ci)) | Err e => Err e end, cs)
        end
  end.

Definition add_state_cnt (st : xqc_cid_set_state_t) (d : Z) (n : set_counts) : set_counts :=
  match st with
  | XQC_CID_SET_UNUSED => mk_cnt (u32 (n_unused n + d)) (n_used n) (n_abandoned n)
  | XQC_CID_SET_USED => mk_cnt (n_unused n) (u32 (n_used n + d)) (n_abandoned n)
  | XQC_CID_SET_ABANDONED => mk_cnt (n_unused n) (n_used n) (u32 (n_abandoned n + d))
  end.

Definition new_path_set (pid : Z) : xqc_cid_set_inner_t :=
  mk_cs [] 0 0 0 0 pid 0 XQC_CID_SET_UNUSED 0.

Definition xqc_cid_set_add_path (malloc_ok : bool) (cs : xqc_cid_set_t) (pid : Z)
    : res unit * xqc_cid_set_t :=
  match xqc_get_path_cid_set cs pid with
  | Some _ => (Ok tt, cs)
  | None =>
      if malloc_ok
      then (Ok tt, mk_cset (cid_set_list cs ++ [new_path_set pid]) (abandoned_set_list cs)
                     (add_state_cnt XQC_CID_SET_UNUSED 1 (set_cnt cs)))
      else (Err XQC_EMALLOC, cs)
  end.

Definition with_state (st : xqc_cid_set_state_t) (s : xqc_cid_set_inner_t) : xqc_cid_set_inner_t :=
  mk_cs (cid_list s) (unused_cnt s) (used_cnt s) (retired_cnt s) (original_cid_cnt s)
    (s_path_id s) (largest s) st (acked_unused s).

(** [xqc_list_del_init] of the set of the path, from the list it is on. *)
Definition del_path (pid : Z) (l : list xqc_cid_set_inner_t) : list xqc_cid_set_inner_t :=
  List.filter (fun s => negb (s_path_id s =? pid)) l.

Definition xqc_cid_set_update_state (cs : xqc_cid_set_t) (pid : Z) (st : xqc_cid_set_state_t)
    : xqc_cid_set_t :=
  match xqc_get_path_cid_set cs pid with
  | None => cs
  | Some s =>
      if bool_decide (set_state s = st) then cs
      else
        let cnt := add_state_cnt st 1 (add_state_cnt (set_state s) (-1) (set_cnt cs)) in
        if bool_decide (st = XQC_CID_SET_ABANDONED) then
          mk_cset (del_path pid (cid_set_list cs))
            (del_path pid (abandoned_set_list cs) ++ [with_state st s]) cnt
        else if bool_decide (set_state s = XQC_CID_SET_ABANDONED) then
          mk_cset (del_path pid (cid_set_list cs) ++ [with_state st s])
            (del_path pid (abandoned_set_list cs)) cnt
        else
          let cs := upd_set cs pid (with_state st) in
          mk_cset (cid_set_list cs) (abandoned_set_list cs) cnt
  end.

Definition set_acked (ci : xqc_cid_inner_t) : xqc_cid_inner_t :=
  mk_ci (ci_addr ci) (ci_cid ci) (ci_state ci) (ci_retired_ts ci) true (ci_original ci).

(** One round of the loop per identifier of the path. *)
Fixpoint ack_loop (l : list xqc_cid_inner_t) (seq : Z) : list xqc_cid_inner_t * Z :=
  match l with
  | [] => ([], 0)
  | ci :: l' =>
      let '(k, n) := ack_loop l' seq in
      if cid_seq_num (ci_cid ci) =? seq
      then (set_acked ci :: k, n + zb1 (negb (ci_acked ci) && is_unused ci))
      else (ci :: k, n)
  end.

Definition xqc_cid_set_on_cid_acked (cs : xqc_cid_set_t) (pid seq : Z) : xqc_cid_set_t :=
  upd_set cs pid (fun s =>
    let '(l, n) := ack_loop (cid_list s) seq in add_cnt 0 0 0 0 n (with_list l s)).

Definition set_original (ci : xqc_cid_inner_t) : xqc_cid_inner_t :=
  mk_ci (ci_addr ci) (ci_cid ci) (ci_state ci) (ci_retired_ts ci) (ci_acked ci) true.

Definition xqc_cid_set_mark_original (cs : xqc_cid_set_t) (cid : xqc_cid_t) (pid : Z)
    : xqc_cid_set_t :=
  match xqc_cid_in_cid_set cs cid pid with
  | Some inner =>
      if ci_original inner then cs
      else upd_set (upd_cid cs (ci_addr inner) set_original) pid (add_cnt 0 0 0 1 0)
  | None => cs
  end.

Definition xqc_cid_set_set_largest_seq_or_rpt (cs : xqc_cid_set_t) (pid val : Z)
    : res unit * xqc_cid_set_t :=
  match xqc_get_path_cid_set cs pid with
  | None => (Err XQC_ERROR, cs)
  | Some _ =>
      (Ok tt,
       upd_set cs pid (fun s =>
         mk_cs (cid_list s) (unused_cnt s) (used_cnt s) (retired_cnt s) (original_cid_cnt s)
           (s_path_id s) val (set_state s) (acked_unused s)))
  end.

(** ** Getters: [-1] for a path without a set *)

Definition get_of (f : xqc_cid_set_inner_t -> Z) (cs : xqc_cid_set_t) (pid : Z) : Z :=
  match xqc_get_path_cid_set cs pid with Some s => f s | None => -1 end.

Definition xqc_cid_set_get_unused_cnt : xqc_cid_set_t -> Z -> Z := get_of unused_cnt.
Definition xqc_cid_set_get_used_cnt : xqc_cid_set_t -> Z -> Z := get_of used_cnt.
Definition xqc_cid_set_get_retired_cnt : xqc_cid_set_t -> Z -> Z := get_of retired_cnt.
Definition xqc_cid_set_get_largest_seq_or_rpt : xqc_cid_set_t -> Z -> Z := get_of largest.

Definition xqc_cid_set_has_unused (cs : xqc_cid_set_t) (pid : Z) : bool :=
  match xqc_get_path_cid_set cs pid with Some s => 0 <? unused_cnt s | None => false end.

Definition xqc_destroy_cid_set (cs : xqc_cid_set_t) : xqc_cid_set_t := xqc_init_cid_set.

(** [callback] is what the application's generator wrote (or that it failed), [random] gives
    the rest of the bytes. *)
Definition xqc_generate_cid (config_cid_len : Z) (callback : option (option (list Z)))
    (random : Z -> option (list Z)) (cid : xqc_cid_t) (seq : Z) : res unit * xqc_cid_t :=
  let cid := mk_cid config_cid_len (cid_buf cid) seq (sr_token cid) (path_id cid) in
  match callback with
  | Some None => (Err XQC_EGENERATE_CID, cid)
  | _ =>
      let bs := match callback with Some (Some bs) => bs | _ => [] end in
      let cid := mk_cid config_cid_len (wr (cid_buf cid) 0 bs) seq (sr_token cid) (path_id cid) in
      let len := config_cid_len - zlen bs in
      if 0 <? len then
        match random len with
        | None => (Err XQC_EGENERATE_CID, cid)
        | Some rs =>
            (Ok tt, mk_cid config_cid_len (wr (cid_buf cid) (zlen bs) rs) seq (sr_token cid) 0)
        end
      else (Ok tt, cid_with_path cid 0)
  end.

(** The destination of a 1-RTT packet: known, and from now on in use. The search leaves the
    sequence number and the path in [*dcid], which is returned. *)
Definition xqc_conn_check_dcid (scid_set : xqc_cid_set_t) (dcid : xqc_cid_t)
    : res unit * xqc_cid_t * xqc_cid_set_t :=
  match xqc_cid_set_search_cid scid_set dcid with
  | None => (Err XQC_ECONN_CID_NOT_FOUND, dcid, scid_set)
  | Some scid =>
      let dcid := adopt dcid scid in
      if is_unused scid then
        let '(r, scid_set) :=
          xqc_cid_switch_to_next_state scid_set scid XQC_CID_USED (path_id (ci_cid scid)) in
        (r, dcid, scid_set)
      else (Ok tt, dcid, scid_set)
  end.

End CidSet.
