(* ===== verification/CidSetSpec.v ===== *)
(** The invariant of the sets of connection identifiers, and the runs that keep it. *)

From stdpp Require Import base numbers list relations.
From S2P Require Import Prelude VInt PacketBuf Frames CidSet.
Import Frames CidSet.

Module CidSetSpec.

(** ** Counting *)

Definition count {A} (p : A -> bool) (l : list A) : Z := Z.of_nat (length (List.filter p l)).

(** An identifier of the peer that counts against the limit. *)
Definition peer_active (ci : xqc_cid_inner_t) : bool := is_active ci && negb (ci_original ci).

Lemma count_app {A} (p : A -> bool) l k : count p (l ++ k) = count p l + count p k.
Proof. unfold count. rewrite List.filter_app, length_app. lia. Qed.

Lemma count_cons {A} (p : A -> bool) x l : count p (x :: l) = zb1 (p x) + count p l.
Proof. unfold count. simpl. destruct (p x); simpl; lia. Qed.

Lemma count_nil {A} (p : A -> bool) : count p [] = 0.
Proof. done. Qed.

Lemma count_snoc {A} (p : A -> bool) l x : count p (l ++ [x]) = count p l + zb1 (p x).
Proof. rewrite count_app, count_cons, count_nil. lia. Qed.

Lemma count_bound {A} (p : A -> bool) l : 0 <= count p l <= Z.of_nat (length l).
Proof. unfold count. pose proof (List.filter_length_le p l). lia. Qed.

Lemma count_pos {A} (p : A -> bool) x l : x ∈ l -> p x = true -> 0 < count p l.
Proof.
  intros Hx Hp. unfold count. destruct (List.filter p l) eqn:E; simpl; [|lia].
  apply list_elem_of_In in Hx. assert (In x (List.filter p l)) as H by by apply filter_In.
  by rewrite E in H.
Qed.

Lemma count_ext {A} (p q : A -> bool) l : (forall x, x ∈ l -> p x = q x) -> count p l = count q l.
Proof.
  induction l as [|x l IH]; intros H; [done|]. rewrite !count_cons.
  rewrite (H x) by left. rewrite IH; [done|]. intros y Hy. apply H. by right.
Qed.

Lemma count_map {A B} (p : B -> bool) (f : A -> B) l : count p (map f l) = count (fun x => p (f x)) l.
Proof. induction l as [|x l IH]; [done|]. simpl. rewrite !count_cons. lia. Qed.

Lemma count_upd p g a l ci :
  NoDup (map ci_addr l) -> ci ∈ l -> ci_addr ci = a ->
  count p (upd_addr a g l) = count p l - zb1 (p ci) + zb1 (p (g ci)).
Proof.
  intros Hnd Hin Ha. unfold upd_addr. induction l as [|x l IH]; [by apply not_elem_of_nil in Hin|].
  simpl in *. apply NoDup_cons in Hnd as [Hx Hnd]. rewrite !count_cons.
  apply elem_of_cons in Hin as [<-|Hin].
  - rewrite Ha, Z.eqb_refl, count_map. rewrite (count_ext _ p l); [lia|].
    intros y Hy. destruct (ci_addr y =? a) eqn:E; [|done]. zify_bools. exfalso. apply Hx.
    rewrite Ha, <- E. apply list_elem_of_fmap. by exists y.
  - rewrite (IH Hnd Hin). destruct (ci_addr x =? a) eqn:E; [|lia]. zify_bools. exfalso. apply Hx.
    rewrite E, <- Ha. apply list_elem_of_fmap. by exists ci.
Qed.

Lemma upd_addr_other g a l : a ∉ map ci_addr l -> upd_addr a g l = l.
Proof.
  intros Ha. unfold upd_addr. induction l as [|x l IH]; [done|]. simpl in *.
  apply not_elem_of_cons in Ha as [Hx Ha]. rewrite IH by done.
  destruct (ci_addr x =? a) eqn:E; [|done]. zify_bools. by subst.
Qed.

Lemma upd_addr_addrs g a l :
  (forall x, ci_addr (g x) = ci_addr x) -> map ci_addr (upd_addr a g l) = map ci_addr l.
Proof.
  intros Hg. unfold upd_addr. rewrite map_map. apply map_ext. intros x. by destruct (_ =? _).
Qed.

Lemma length_upd_addr g a l : length (upd_addr a g l) = length l.
Proof. apply length_map. Qed.

Lemma Forall_upd_addr (P : xqc_cid_inner_t -> Prop) g a l :
  Forall P l -> (forall x, x ∈ l -> ci_addr x = a -> P (g x)) -> Forall P (upd_addr a g l).
Proof.
  rewrite !Forall_forall. intros Hl Hg y Hy. unfold upd_addr in Hy.
  apply list_elem_of_fmap in Hy as (x & -> & Hx). destruct (ci_addr x =? a) eqn:E; [|by apply Hl].
  zify_bools. by apply Hg.
Qed.

Lemma find_split {A} (q : A -> bool) l x :
  find q l = Some x -> exists l1 l2, l = l1 ++ x :: l2 /\ q x = true /\ Forall (fun y => q y = false) l1.
Proof.
  induction l as [|y l IH]; [done|]. simpl. destruct (q y) eqn:E.
  - intros [= ->]. by exists [], l.
  - intros H. destruct (IH H) as (l1 & l2 & -> & Hx & Hl). exists (y :: l1), l2. auto.
Qed.

Lemma remove_first_split q l1 x l2 :
  q x = true -> Forall (fun y => q y = false) l1 -> remove_first q (l1 ++ x :: l2) = l1 ++ l2.
Proof.
  intros Hx. induction 1 as [|y l1 Hy _ IH]; simpl; [by rewrite Hx|]. by rewrite Hy, IH.
Qed.

(** ** The invariant *)

(** One path: the counters count, what was chosen here is in use, and the identifiers of the
    peer that are active are no more than [lim]. *)
Record inner_ok (lim : Z) (s : xqc_cid_set_inner_t) : Prop := {
  io_unused : unused_cnt s = count is_unused (cid_list s);
  io_used : used_cnt s = count is_used (cid_list s);
  io_retired : retired_cnt s = count is_retired (cid_list s);
  io_original : original_cid_cnt s = count ci_original (cid_list s);
  io_acked : acked_unused s = count (fun ci => is_unused ci && ci_acked ci) (cid_list s);
  io_active : Forall (fun ci => ci_original ci = true -> is_active ci = true) (cid_list s);
  io_path : Forall (fun ci => path_id (ci_cid ci) = s_path_id s) (cid_list s);
  io_len : Z.of_nat (length (cid_list s)) < 2 ^ 32;
  io_lim : count peer_active (cid_list s) <= lim;
}.

Definition set_count (st : xqc_cid_set_state_t) (l : list xqc_cid_set_inner_t) : Z :=
  count (fun s => bool_decide (set_state s = st)) l.

Record set_ok (lim : Z) (cs : xqc_cid_set_t) : Prop := {
  so_inner : Forall (inner_ok lim) (all_sets cs);
  so_paths : NoDup (map s_path_id (all_sets cs));
  so_addrs : NoDup (map ci_addr (all_cids cs));
  so_live : Forall (fun s => set_state s <> XQC_CID_SET_ABANDONED) (cid_set_list cs);
  so_abandoned : Forall (fun s => set_state s = XQC_CID_SET_ABANDONED) (abandoned_set_list cs);
  so_n1 : n_unused (set_cnt cs) = set_count XQC_CID_SET_UNUSED (all_sets cs);
  so_n2 : n_used (set_cnt cs) = set_count XQC_CID_SET_USED (all_sets cs);
  so_n3 : n_abandoned (set_cnt cs) = set_count XQC_CID_SET_ABANDONED (all_sets cs);
  so_len : Z.of_nat (length (all_sets cs)) < 2 ^ 32;
}.

Lemma count_active l : count is_unused l + count is_used l = count is_active l.
Proof.
  induction l as [|ci l IH]; [done|]. rewrite !count_cons.
  unfold is_active, is_unused, is_used, is_state in *.
  destruct (ci_state ci); simpl in *; lia.
Qed.

Lemma count_peer l :
  Forall (fun ci => ci_original ci = true -> is_active ci = true) l ->
  count is_active l = count peer_active l + count ci_original l.
Proof.
  induction 1 as [|ci l H _ IH]; [done|]. rewrite !count_cons, IH. unfold peer_active.
  destruct (ci_original ci), (is_active ci); simpl; lia.
Qed.

(** The number the code compares with the limit is the number of active identifiers of the
    peer. *)
Lemma countable_ok lim s :
  inner_ok lim s -> xqc_cid_set_countable_cnt s = count peer_active (cid_list s).
Proof.
  intros [H1 H2 _ H4 _ Ha _ Hl _]. unfold xqc_cid_set_countable_cnt. rewrite H1, H2, H4.
  pose proof (count_active (cid_list s)). pose proof (count_peer _ Ha).
  pose proof (count_bound is_active (cid_list s)). pose proof (count_bound peer_active (cid_list s)).
  rewrite u64_small by (revert Hl; eval_pow; lia). destruct (_ <? _) eqn:E; zb.
Qed.

(** ** One path of the set *)

Lemma get_path lim cs pid s :
  set_ok lim cs -> xqc_get_path_cid_set cs pid = Some s ->
  exists l1 l2, all_sets cs = l1 ++ s :: l2 /\ s_path_id s = pid
  /\ Forall (fun s' => s_path_id s' <> pid) (l1 ++ l2) /\ inner_ok lim s
  /\ NoDup (map ci_addr (cid_list s)).
Proof.
  intros Hok Hg. apply find_split in Hg as (l1 & l2 & Heq & Hp & _). zify_bools.
  exists l1, l2. pose proof (so_inner _ _ Hok) as Hi. pose proof (so_paths _ _ Hok) as Hn.
  pose proof (so_addrs _ _ Hok) as Ha. unfold all_cids in Ha. rewrite Heq in Hi, Hn, Ha.
  rewrite map_app in Hn, Ha. simpl in Hn, Ha. split_and!; [done|done| | |].
  - apply Forall_forall. intros s' Hs' He. apply NoDup_app in Hn as (_ & Hn1 & Hn2).
    apply NoDup_cons in Hn2 as [Hn2 _]. apply elem_of_app in Hs' as [Hs'|Hs'].
    + apply (Hn1 (s_path_id s')); [apply list_elem_of_fmap; by exists s'|]. rewrite He, <- Hp. left.
    + apply Hn2. rewrite Hp, <- He. apply list_elem_of_fmap. by exists s'.
  - apply Forall_app in Hi as [_ Hi]. by apply Forall_cons in Hi as [Hi _].
  - rewrite concat_app, map_app in Ha. apply NoDup_app in Ha as (_ & _ & Ha). simpl in Ha.
    rewrite map_app in Ha. by apply NoDup_app in Ha as [Ha _].
Qed.

Lemma all_sets_map g cs : all_sets (map_sets g cs) = map g (all_sets cs).
Proof. unfold all_sets. simpl. by rewrite map_app. Qed.

Lemma at_path_other pid g l :
  Forall (fun s => s_path_id s <> pid) l -> map (at_path pid g) l = l.
Proof.
  induction 1 as [|s l H _ IH]; [done|]. simpl. rewrite IH. unfold at_path.
  by rewrite (proj2 (Z.eqb_neq _ _) H).
Qed.

Lemma upd_set_split cs pid g l1 s l2 :
  all_sets cs = l1 ++ s :: l2 -> s_path_id s = pid ->
  Forall (fun s' => s_path_id s' <> pid) (l1 ++ l2) ->
  all_sets (upd_set cs pid g) = l1 ++ g s :: l2.
Proof.
  intros Heq Hp Ho. apply Forall_app in Ho as [H1 H2]. unfold upd_set.
  rewrite all_sets_map, Heq, map_app. simpl. rewrite !at_path_other by done. unfold at_path.
  by rewrite Hp, Z.eqb_refl.
Qed.

Lemma with_list_id s : with_list (cid_list s) s = s.
Proof. by destruct s. Qed.

Lemma addr_only_here lim cs l1 s l2 ci :
  set_ok lim cs -> all_sets cs = l1 ++ s :: l2 -> ci ∈ cid_list s ->
  Forall (fun s' => ci_addr ci ∉ map ci_addr (cid_list s')) (l1 ++ l2).
Proof.
  intros Hok Heq Hci. pose proof (so_addrs _ _ Hok) as Ha. unfold all_cids in Ha.
  rewrite Heq, map_app, concat_app, map_app in Ha. simpl in Ha. rewrite map_app in Ha.
  apply NoDup_app in Ha as (_ & Ha1 & Ha). apply NoDup_app in Ha as (_ & Ha2 & _).
  assert (ci_addr ci ∈ map ci_addr (cid_list s)) as Hin by (apply list_elem_of_fmap; by exists ci).
  assert (forall s' l, s' ∈ l -> ci_addr ci ∈ map ci_addr (cid_list s') ->
    ci_addr ci ∈ map ci_addr (concat (map cid_list l))) as Hc.
  { intros s' l Hs' Hx. apply list_elem_of_fmap in Hx as (x & Hx & Hxl). rewrite Hx.
    apply list_elem_of_fmap. exists x. split; [done|]. apply list_elem_of_In.
    apply in_concat. exists (cid_list s'). split; [|by apply list_elem_of_In].
    apply in_map. by apply list_elem_of_In. }
  apply Forall_forall. intros s' Hs' Hx. apply elem_of_app in Hs' as [Hs'|Hs'].
  - apply (Ha1 (ci_addr ci)); [by eapply Hc|]. apply elem_of_app. by left.
  - apply (Ha2 (ci_addr ci)); [done|by eapply Hc].
Qed.

Lemma upd_cid_split cs g l1 s l2 a :
  all_sets cs = l1 ++ s :: l2 ->
  Forall (fun s' => a ∉ map ci_addr (cid_list s')) (l1 ++ l2) ->
  all_sets (upd_cid cs a g) = l1 ++ with_list (upd_addr a g (cid_list s)) s :: l2.
Proof.
  intros Heq Ho. apply Forall_app in Ho as [H1 H2]. unfold upd_cid. rewrite all_sets_map, Heq, map_app.
  assert (forall l, Forall (fun s' => a ∉ map ci_addr (cid_list s')) l ->
    map (fun s => with_list (upd_addr a g (cid_list s)) s) l = l) as Hid.
  { induction 1 as [|s' l Hs _ IH]; [done|]. simpl.
    by rewrite IH, upd_addr_other, with_list_id. }
  simpl. by rewrite !Hid.
Qed.

(** Replacing the set of one path keeps the invariant. *)
Lemma replace_ok lim cs cs' l1 s s' l2 :
  set_ok lim cs -> all_sets cs = l1 ++ s :: l2 -> all_sets cs' = l1 ++ s' :: l2 ->
  set_cnt cs' = set_cnt cs -> map set_state (cid_set_list cs') = map set_state (cid_set_list cs) ->
  map set_state (abandoned_set_list cs') = map set_state (abandoned_set_list cs) ->
  s_path_id s' = s_path_id s -> inner_ok lim s' -> NoDup (map ci_addr (cid_list s')) ->
  (forall a, a ∈ map ci_addr (cid_list s') ->
     a ∈ map ci_addr (cid_list s) \/ a ∉ map ci_addr (all_cids cs)) ->
  set_ok lim cs'.
Proof.
  intros Hok Heq Heq' Hc Hl Hb Hp Hi Hnd Hfresh.
  assert (set_state s' = set_state s) as Hst.
  { assert (map set_state (all_sets cs') = map set_state (all_sets cs)) as H
      by (unfold all_sets; by rewrite !map_app, Hl, Hb).
    rewrite Heq, Heq', !map_app in H. apply app_inj_1 in H as [_ H]; [|done]. by injection H. }
  pose proof Hok as [K1 K2 K3 K4 K5 K6 K7 K8 K9].
  assert (forall st, set_count st (all_sets cs') = set_count st (all_sets cs)) as Hcnt.
  { intros st. unfold set_count. rewrite Heq, Heq', !count_app, !count_cons. by rewrite Hst. }
  unfold all_cids in *. split; rewrite ?Hcnt, ?Hc; try done.
  - rewrite Heq in K1. rewrite Heq'. apply Forall_app in K1 as [K1 K1'].
    apply Forall_cons in K1' as [_ K1']. apply Forall_app. split; [done|by constructor].
  - rewrite Heq in K2. rewrite Heq'. rewrite map_app in *. simpl in *. by rewrite Hp.
  - unfold all_cids. rewrite Heq in K3, Hfresh. rewrite Heq'. rewrite !map_app, !concat_app, !map_app in *.
    simpl in *. rewrite !map_app in *. apply NoDup_app in K3 as (N1 & D1 & N2).
    apply NoDup_app in N2 as (N2 & D2 & N3). apply NoDup_app. split_and!; [done| |].
    + intros a Ha Hin. apply elem_of_app in Hin as [Hin|Hin].
      * destruct (Hfresh a Hin) as [H|H]; [apply (D1 a Ha)|apply H]; apply elem_of_app; by left.
      * apply (D1 a Ha). apply elem_of_app. by right.
    + apply NoDup_app. split_and!; [done| |done]. intros a Ha Hin.
      destruct (Hfresh a Ha) as [H|H]; [by apply (D2 a H)|]. apply H.
      rewrite !elem_of_app. by right; right.
  - rewrite <- (Forall_map set_state (fun st => st <> XQC_CID_SET_ABANDONED)) in K4 |- *. by rewrite Hl.
  - rewrite <- (Forall_map set_state (fun st => st = XQC_CID_SET_ABANDONED)) in K5 |- *. by rewrite Hb.
  - rewrite Heq in K9. rewrite Heq'. rewrite length_app in *. simpl in *. lia.
Qed.

(** ** The operations keep it *)

Lemma add_cnt_ok lim s l d1 d2 d3 d4 d5 :
  inner_ok lim s ->
  count is_unused l = count is_unused (cid_list s) + d1 ->
  count is_used l = count is_used (cid_list s) + d2 ->
  count is_retired l = count is_retired (cid_list s) + d3 ->
  count ci_original l = count ci_original (cid_list s) + d4 ->
  count (fun ci => is_unused ci && ci_acked ci) l
  = count (fun ci => is_unused ci && ci_acked ci) (cid_list s) + d5 ->
  Forall (fun ci => ci_original ci = true -> is_active ci = true) l ->
  Forall (fun ci => path_id (ci_cid ci) = s_path_id s) l ->
  Z.of_nat (length l) < 2 ^ 32 -> count peer_active l <= lim ->
  inner_ok lim (add_cnt d1 d2 d3 d4 d5 (with_list l s)).
Proof.
  intros [] E1 E2 E3 E4 E5 Ha Hp Hl Hlim.
  pose proof (count_bound is_unused l). pose proof (count_bound is_used l).
  pose proof (count_bound is_retired l). pose proof (count_bound ci_original l).
  pose proof (count_bound (fun ci => is_unused ci && ci_acked ci) l).
  assert (forall x y, x = y -> 0 <= y <= Z.of_nat (length l) -> u64 x = y /\ u32 x = y) as Hu.
  { intros x y -> Hy. rewrite u64_small, u32_small by (revert Hl; eval_pow; lia). done. }
  split; simpl; [apply Hu; lia..| | | |]; done.
Qed.

Lemma cid_in_set lim cs cid pid ci :
  set_ok lim cs -> xqc_cid_in_cid_set cs cid pid = Some ci ->
  exists s, xqc_get_path_cid_set cs pid = Some s /\ ci ∈ cid_list s
  /\ xqc_cid_is_equal cid (ci_cid ci) = true.
Proof.
  intros Hok. unfold xqc_cid_in_cid_set. destruct (xqc_get_path_cid_set cs pid) as [s|]; [|done].
  intros H. exists s. apply find_some in H as [Hin Hq]. split_and!; [done|by apply list_elem_of_In|done].
Qed.

Lemma cid_insert_ok lim alloc cs cid st limit pid :
  set_ok lim cs -> limit <= lim ->
  (forall a, alloc = Some a -> a ∉ map ci_addr (all_cids cs)) ->
  (forall s, xqc_get_path_cid_set cs pid = Some s -> Z.of_nat (length (cid_list s)) < 2 ^ 32 - 1) ->
  set_ok lim (snd (xqc_cid_set_insert_cid alloc cs cid st limit pid)).
Proof.
  intros Hok Hlim Hfresh Hroom. unfold xqc_cid_set_insert_cid.
  destruct (xqc_get_path_cid_set cs pid) as [s|] eqn:Hg; [|done]. specialize (Hroom s eq_refl).
  destruct (limit <=? _) eqn:El; [done|]. destruct alloc as [a|]; [|done]. specialize (Hfresh a eq_refl).
  destruct (get_path _ _ _ _ Hok Hg) as (l1 & l2 & Heq & Hp & Ho & Hi & Hnd). cbn [snd].
  set (ci := mk_ci a _ st _ false false).
  rewrite (countable_ok _ _ Hi) in El. zify_bools.
  eapply (replace_ok lim cs _ l1 s _ l2 Hok Heq); [by apply upd_set_split|done| | |done| | |].
  1-2: simpl; rewrite map_map; apply map_ext; intros x; unfold at_path; by case_if.
  - pose proof Hi as []. apply add_cnt_ok; rewrite ?count_snoc; try done.
    + change (ci_acked ci) with false. by rewrite andb_false_r.
    + apply Forall_app. split; [done|]. by constructor.
    + apply Forall_app. split; [done|]. constructor; [|done]. by simpl.
    + rewrite length_app. simpl. lia.
    + unfold zb1. case_if; lia.
  - simpl. rewrite map_app. simpl. apply NoDup_app. split_and!; [done| |apply NoDup_singleton].
    intros x Hx ->%list_elem_of_singleton. apply Hfresh. apply list_elem_of_fmap in Hx as (y & -> & Hy).
    apply list_elem_of_fmap. exists y. split; [done|]. unfold all_cids. rewrite Heq, map_app, concat_app.
    simpl. rewrite !elem_of_app. by right; left.
  - simpl. rewrite map_app. intros x Hx. apply elem_of_app in Hx as [Hx|Hx]; [by left|].
    apply list_elem_of_singleton in Hx as ->. by right.
Qed.

Lemma delete_ok lim cs cid pid :
  set_ok lim cs -> set_ok lim (snd (xqc_cid_set_delete_cid cs cid pid)).
Proof.
  intros Hok. unfold xqc_cid_set_delete_cid.
  destruct (xqc_get_path_cid_set cs pid) as [s|] eqn:Hg; [|done].
  destruct (find _ (cid_list s)) as [ci|] eqn:Hf; [|done]. cbn [snd].
  destruct (get_path _ _ _ _ Hok Hg) as (l1 & l2 & Heq & Hp & Ho & Hi & Hnd).
  apply find_split in Hf as (k1 & k2 & Hk & Hq & Hk1).
  set (q := fun ci => xqc_cid_is_equal cid (ci_cid ci)) in *.
  pose proof (remove_first_split q k1 ci k2 Hq Hk1) as Hr. rewrite <- Hk in Hr.
  eapply (replace_ok lim cs _ l1 s _ l2 Hok Heq); [by apply upd_set_split|done| | |done| | |].
  1-2: simpl; rewrite map_map; apply map_ext; intros x; unfold at_path; by case_if.
  - rewrite Hr. pose proof Hi as []. rewrite Hk in *. rewrite length_app in *.
    apply Forall_app in io_active0 as [? [? ?]%Forall_cons].
    apply Forall_app in io_path0 as [? [? ?]%Forall_cons].
    rewrite !count_app, !count_cons in *.
    apply add_cnt_ok; rewrite ?Hk, ?count_app, ?count_cons; try done; try lia.
    + unfold orig_dec. rewrite io_original0. pose proof (count_bound ci_original k1).
      pose proof (count_bound ci_original k2). destruct (ci_original ci); simpl; [|lia].
      destruct (0 <? _) eqn:E; zify_bools; simpl in *; lia.
    + by apply Forall_app.
    + by apply Forall_app.
    + rewrite length_app. simpl in *. lia.
    + destruct (peer_active ci); simpl in *; lia.
  - simpl. rewrite Hr. rewrite Hk in Hnd. rewrite map_app in Hnd |- *. simpl in Hnd.
    apply NoDup_app in Hnd as (N1 & D & N2). apply NoDup_cons in N2 as [_ N2].
    apply NoDup_app. split_and!; [done| |done]. intros x Hx Hx2. apply (D x Hx). by right.
  - simpl. rewrite Hr, Hk, !map_app. simpl. intros x Hx. left. rewrite elem_of_app in *.
    destruct Hx; [by left|right; by right].
Qed.

Lemma upd_addr_comp a f g l :
  (forall x, ci_addr (f x) = ci_addr x) ->
  upd_addr a g (upd_addr a f l) = upd_addr a (fun x => g (f x)) l.
Proof.
  intros Hf. unfold upd_addr. rewrite map_map. apply map_ext. intros x.
  destruct (ci_addr x =? a) eqn:E; [by rewrite Hf, E|by rewrite E].
Qed.

Lemma add_cnt_0 lim s l : inner_ok lim s -> add_cnt 0 0 0 0 0 (with_list l s) = with_list l s.
Proof.
  intros [H1 H2 H3 H4 H5 _ _ Hl _]. unfold add_cnt, with_list. simpl. rewrite !Z.add_0_r.
  pose proof (count_bound is_unused (cid_list s)). pose proof (count_bound is_used (cid_list s)).
  pose proof (count_bound is_retired (cid_list s)). pose proof (count_bound ci_original (cid_list s)).
  pose proof (count_bound (fun ci => is_unused ci && ci_acked ci) (cid_list s)).
  rewrite !u64_small, u32_small by (revert Hl; eval_pow; lia). done.
Qed.

(** Changing one identifier in place, with the counters adjusted. *)
Lemma change_ok lim cs cs' l1 s l2 ci g d1 d2 d3 d4 d5 :
  set_ok lim cs -> all_sets cs = l1 ++ s :: l2 -> inner_ok lim s ->
  NoDup (map ci_addr (cid_list s)) -> ci ∈ cid_list s ->
  all_sets cs' = l1 ++ add_cnt d1 d2 d3 d4 d5
    (with_list (upd_addr (ci_addr ci) g (cid_list s)) s) :: l2 ->
  set_cnt cs' = set_cnt cs -> map set_state (cid_set_list cs') = map set_state (cid_set_list cs) ->
  map set_state (abandoned_set_list cs') = map set_state (abandoned_set_list cs) ->
  (forall x, ci_addr (g x) = ci_addr x) ->
  path_id (ci_cid (g ci)) = s_path_id s -> (ci_original (g ci) = true -> is_active (g ci) = true) ->
  (peer_active (g ci) = true -> peer_active ci = true) ->
  d1 = zb1 (is_unused (g ci)) - zb1 (is_unused ci) ->
  d2 = zb1 (is_used (g ci)) - zb1 (is_used ci) ->
  d3 = zb1 (is_retired (g ci)) - zb1 (is_retired ci) ->
  d4 = zb1 (ci_original (g ci)) - zb1 (ci_original ci) ->
  d5 = zb1 (is_unused (g ci) && ci_acked (g ci)) - zb1 (is_unused ci && ci_acked ci) ->
  set_ok lim cs'.
Proof.
  intros Hok Heq Hi Hnd Hci Heq' Hc Hl Hb Hg Hp Ha Hpe -> -> -> -> ->.
  assert (forall x, x ∈ cid_list s -> ci_addr x = ci_addr ci -> x = ci) as Huniq.
  { intros x Hx He. apply list_elem_of_lookup in Hx as [i Hx], Hci as [j Hci].
    assert (i = j) as ->; [|congruence].
    eapply NoDup_lookup; [exact Hnd|rewrite list_lookup_fmap, Hx; done|].
    rewrite list_lookup_fmap, Hci. simpl. by rewrite He. }
  eapply (replace_ok lim cs cs' l1 s _ l2 Hok Heq Heq'); try done.
  - pose proof Hi as [].
    apply add_cnt_ok; rewrite ?(count_upd _ _ _ _ _ Hnd Hci eq_refl); try done; try lia.
    + apply Forall_upd_addr; [done|]. intros x Hx He. by rewrite (Huniq x Hx He).
    + apply Forall_upd_addr; [done|]. intros x Hx He. by rewrite (Huniq x Hx He).
    + by rewrite length_upd_addr.
    + destruct (peer_active (g ci)); [rewrite Hpe by done|destruct (peer_active ci)]; simpl; lia.
  - simpl. by rewrite upd_addr_addrs.
  - simpl. rewrite upd_addr_addrs by done. by left.
Qed.

Lemma map_sets_states g l :
  (forall s, set_state (g s) = set_state s) -> map set_state (map g l) = map set_state l.
Proof. intros H. rewrite map_map. by apply map_ext. Qed.

Lemma at_path_state pid g s :
  (forall x, set_state (g x) = set_state x) -> set_state (at_path pid g s) = set_state s.
Proof. intros H. unfold at_path. by case_if. Qed.

Lemma at_path_path pid g s :
  (forall x, s_path_id (g x) = s_path_id x) -> s_path_id (at_path pid g s) = s_path_id s.
Proof. intros H. unfold at_path. by case_if. Qed.

(** What [xqc_cid_switch_to_next_state] makes of an identifier. *)
Definition leaves (ci : xqc_cid_inner_t) (next : xqc_cid_state_t) : bool :=
  ci_original ci && is_active ci && negb (is_state XQC_CID_UNUSED next)
  && negb (is_state XQC_CID_USED next).

Definition switch_ci (ci found : xqc_cid_inner_t) (next : xqc_cid_state_t) (x : xqc_cid_inner_t)
    : xqc_cid_inner_t :=
  mk_ci (ci_addr x) (adopt (ci_cid x) found) next (ci_retired_ts x) (ci_acked x)
    (if leaves ci next then false else ci_original x).

Definition adopt_ci (found x : xqc_cid_inner_t) : xqc_cid_inner_t :=
  mk_ci (ci_addr x) (adopt (ci_cid x) found) (ci_state x) (ci_retired_ts x) (ci_acked x)
    (ci_original x).

Lemma get_path_mid cs pid l1 s l2 :
  all_sets cs = l1 ++ s :: l2 -> s_path_id s = pid ->
  Forall (fun s' => s_path_id s' <> pid) (l1 ++ l2) -> xqc_get_path_cid_set cs pid = Some s.
Proof.
  intros Heq Hp Ho. apply Forall_app in Ho as [Ho _]. unfold xqc_get_path_cid_set. rewrite Heq.
  clear Heq. induction Ho as [|x l1 Hx _ IH]; simpl; [by rewrite Hp, Z.eqb_refl|].
  by rewrite (proj2 (Z.eqb_neq _ _) Hx).
Qed.

Lemma cid_equal_refl c : xqc_cid_is_equal c c = true.
Proof. unfold xqc_cid_is_equal. rewrite Z.eqb_refl. by rewrite bool_decide_true. Qed.

Lemma in_set_found cs pid s ci :
  xqc_get_path_cid_set cs pid = Some s -> ci ∈ cid_list s ->
  exists found, xqc_cid_in_cid_set cs (ci_cid ci) pid = Some found /\ found ∈ cid_list s.
Proof.
  intros Hg Hci. unfold xqc_cid_in_cid_set. rewrite Hg.
  destruct (find _ (cid_list s)) as [found|] eqn:Hf.
  - exists found. split; [done|]. apply find_some in Hf as [Hf _]. by apply list_elem_of_In.
  - apply list_elem_of_In in Hci. apply (find_none _ _ Hf) in Hci. simpl in Hci.
    by rewrite cid_equal_refl in Hci.
Qed.

Definition same_states (cs cs' : xqc_cid_set_t) : Prop :=
  set_cnt cs' = set_cnt cs /\ map set_state (cid_set_list cs') = map set_state (cid_set_list cs)
  /\ map set_state (abandoned_set_list cs') = map set_state (abandoned_set_list cs).

(** A switch moves the state of the identifier forward, with its counters, or changes no
    state. *)
Lemma switch_cases lim cs ci next pid s l1 l2 r cs' :
  set_ok lim cs -> all_sets cs = l1 ++ s :: l2 -> s_path_id s = pid ->
  Forall (fun s' => s_path_id s' <> pid) (l1 ++ l2) -> ci ∈ cid_list s ->
  xqc_cid_switch_to_next_state cs ci next pid = (r, cs') ->
  same_states cs cs' /\ exists found, found ∈ cid_list s /\
  ((r = Ok tt /\ ci_state ci = next
    \/ r = Err XQC_ECID_STATE /\ cid_state_num next < cid_state_num (ci_state ci))
   /\ all_sets cs' = l1 ++ with_list (upd_addr (ci_addr ci) (adopt_ci found) (cid_list s)) s :: l2
   \/ r = Ok tt /\ cid_state_num (ci_state ci) < cid_state_num next
   /\ all_sets cs' = l1 ++ add_cnt (- zb1 (is_unused ci))
        (zb1 (is_state XQC_CID_USED next) - zb1 (is_used ci))
        (zb1 (is_state XQC_CID_RETIRED next) - zb1 (is_retired ci))
        (orig_dec (leaves ci next) s) (- zb1 (is_unused ci && ci_acked ci))
        (with_list (upd_addr (ci_addr ci) (switch_ci ci found next) (cid_list s)) s) :: l2).
Proof.
  intros Hok Heq Hp Ho Hci. pose proof (get_path_mid cs pid l1 s l2 Heq Hp Ho) as Hg.
  destruct (in_set_found cs pid s ci Hg Hci) as (found & Hf & Hfin).
  pose proof (addr_only_here _ _ _ _ _ _ Hok Heq Hci) as Hao.
  unfold xqc_cid_switch_to_next_state. rewrite Hf. fold (adopt_ci found). fold (leaves ci next).
  pose proof (upd_cid_split cs (adopt_ci found) l1 s l2 _ Heq Hao) as H1.
  set (cs1 := upd_cid cs (ci_addr ci) (adopt_ci found)) in *.
  assert (same_states cs cs1) as Hs1 by (split_and!; [done|by apply map_sets_states..]).
  destruct (cid_state_num (ci_state ci) =? cid_state_num next) eqn:E1.
  { intros [= <- <-]. split; [done|]. exists found. split; [done|]. left. split; [|done]. left.
    split; [done|]. zify_bools. destruct (ci_state ci), next; done. }
  destruct (cid_state_num next <? cid_state_num (ci_state ci)) eqn:E2.
  { intros [= <- <-]. split; [done|]. exists found. split; [done|]. left. split; [|done]. right. split; [done|zb]. }
  rewrite (get_path_mid cs1 pid _ _ _ H1) by done. cbv zeta. intros [= <- <-].
  set (f := fun s0 => add_cnt _ _ _ (orig_dec _ s0) _ s0).
  pose proof (upd_set_split cs1 pid f _ _ _ H1 Hp Ho) as H2. set (cs2 := upd_set cs1 pid f) in *.
  destruct Hs1 as (S1 & S2 & S3). split.
  - assert (forall x, set_state (f x) = set_state x) as Hfs by done.
    split_and!; [done|simpl; rewrite !map_sets_states; try done..];
      intros; by apply at_path_state.
  - exists found. split; [done|]. right. split; [done|]. split; [zb|].
    rewrite (upd_cid_split cs2 _ l1 _ l2 _ H2 Hao). simpl. rewrite upd_addr_comp by done. done.
Qed.

Lemma orig_dec_ok lim s ci (b : bool) :
  inner_ok lim s -> ci ∈ cid_list s -> (b = true -> ci_original ci = true) -> orig_dec b s = - zb1 b.
Proof.
  intros Hi Hci Hb. unfold orig_dec. destruct b; [|done]. rewrite (io_original _ _ Hi).
  pose proof (count_pos ci_original ci _ Hci (Hb eq_refl)). destruct (0 <? _) eqn:E; zb || done.
Qed.

Lemma switch_ok lim cs ci next pid s :
  set_ok lim cs -> xqc_get_path_cid_set cs pid = Some s -> ci ∈ cid_list s ->
  set_ok lim (snd (xqc_cid_switch_to_next_state cs ci next pid)).
Proof.
  intros Hok Hg Hci. destruct (get_path _ _ _ _ Hok Hg) as (l1 & l2 & Heq & Hp & Ho & Hi & Hnd).
  destruct (xqc_cid_switch_to_next_state cs ci next pid) as [r cs'] eqn:Hsw.
  destruct (switch_cases _ _ _ _ _ _ _ _ _ _ Hok Heq Hp Ho Hci Hsw)
    as ((S1 & S2 & S3) & found & Hf & Hcase). simpl.
  assert (path_id (ci_cid found) = s_path_id s) as Hpf
    by (pose proof (io_path _ _ Hi) as H; rewrite Forall_forall in H; by apply H).
  assert (ci_original ci = true -> is_active ci = true) as Hact
    by (pose proof (io_active _ _ Hi) as H; rewrite Forall_forall in H; by apply H).
  destruct Hcase as [[_ Heq']|(_ & Hlt & Heq')].
  - rewrite <- (add_cnt_0 lim) in Heq' by done.
    by eapply (change_ok lim cs cs' l1 s l2 ci); try done; rewrite Z.sub_diag.
  - rewrite (orig_dec_ok lim s ci) in Heq'; [|done|done|].
    2: { unfold leaves. by destruct (ci_original ci). }
    eapply (change_ok lim cs cs' l1 s l2 ci (switch_ci ci found next)); try done.
    all: unfold switch_ci, leaves, peer_active, is_active, is_unused, is_used, is_retired, is_state in *.
    all: simpl in *.
    all: destruct (ci_state ci), next, (ci_original ci); simpl in *; try done; try lia.
Qed.

Lemma get_unused_ok lim cs cid pid :
  set_ok lim cs -> set_ok lim (snd (xqc_get_unused_cid cs cid pid)).
Proof.
  intros Hok. unfold xqc_get_unused_cid. destruct (xqc_get_path_cid_set cs pid) as [s|] eqn:Hg; [|done].
  case_if; [done|]. destruct (find is_unused (cid_list s)) as [ci|] eqn:Hf; [|done].
  apply find_some in Hf as [Hf _]. apply list_elem_of_In in Hf.
  pose proof (switch_ok lim cs ci XQC_CID_USED pid s Hok Hg Hf) as H.
  by destruct (xqc_cid_switch_to_next_state _ _ _ _).
Qed.

Lemma path_none cs pid g :
  xqc_get_path_cid_set cs pid = None -> upd_set cs pid g = cs.
Proof.
  intros Hn. assert (Forall (fun s => s_path_id s <> pid) (all_sets cs)) as Ho.
  { apply Forall_forall. intros s Hs He. apply list_elem_of_In in Hs.
    apply (find_none _ _ Hn) in Hs. simpl in Hs. zify_bools. done. }
  apply Forall_app in Ho as [H1 H2]. unfold upd_set, map_sets. rewrite !at_path_other by done.
  by destruct cs.
Qed.

Lemma ack_loop_ok seq l :
  let '(k, n) := ack_loop l seq in
  map ci_addr k = map ci_addr l /\ length k = length l
  /\ (forall P : xqc_cid_inner_t -> Prop, (forall x, P x -> P (set_acked x)) -> Forall P l -> Forall P k)
  /\ (forall p, (forall x, p (set_acked x) = p x) -> count p k = count p l)
  /\ count (fun ci => is_unused ci && ci_acked ci) k
      = count (fun ci => is_unused ci && ci_acked ci) l + n.
Proof.
  induction l as [|ci l IH]; [simpl; split_and!; auto|]. simpl. destruct (ack_loop l seq) as [k n].
  destruct IH as (H1 & H2 & H3 & H4 & H5). case_if; simpl; rewrite ?count_cons; split_and!;
    try congruence.
  - intros P HP Hl. apply Forall_cons in Hl as [? ?]. constructor; eauto.
  - intros p Hp. rewrite !count_cons, Hp, (H4 p Hp). done.
  - rewrite H5. change (is_unused (set_acked ci)) with (is_unused ci). simpl.
    destruct (is_unused ci), (ci_acked ci); simpl; lia.
  - intros P HP Hl. apply Forall_cons in Hl as [? ?]. constructor; eauto.
  - intros p Hp. rewrite !count_cons, (H4 p Hp). done.
  - lia.
Qed.

Lemma acked_ok lim cs pid seq : set_ok lim cs -> set_ok lim (xqc_cid_set_on_cid_acked cs pid seq).
Proof.
  intros Hok. unfold xqc_cid_set_on_cid_acked.
  destruct (xqc_get_path_cid_set cs pid) as [s|] eqn:Hg; [|by rewrite path_none].
  destruct (get_path _ _ _ _ Hok Hg) as (l1 & l2 & Heq & Hp & Ho & Hi & Hnd). set (f := fun s => _).
  assert (forall x, set_state (f x) = set_state x) as Hfs
    by (intros x; unfold f; by destruct (ack_loop _ _)).
  eapply (replace_ok lim cs _ l1 s (f s) l2 Hok Heq); [by apply upd_set_split|done|..].
  1-2: simpl; apply map_sets_states; intros x; by apply at_path_state.
  all: unfold f; pose proof (ack_loop_ok seq (cid_list s)) as Hl;
    destruct (ack_loop (cid_list s) seq) as [k n]; destruct Hl as (H1 & H2 & H3 & H4 & H5).
  - done.
  - pose proof Hi as [].
    apply add_cnt_ok; rewrite ?H2, ?H5, ?Z.add_0_r; rewrite ?(H4 peer_active) by done; try done.
    all: first [by apply H4 | by apply H3].
  - simpl. by rewrite H1.
  - simpl. rewrite H1. by left.
Qed.

Lemma mark_ok lim cs cid pid :
  set_ok lim cs ->
  (forall ci, xqc_cid_in_cid_set cs cid pid = Some ci -> is_active ci = true) ->
  set_ok lim (xqc_cid_set_mark_original cs cid pid).
Proof.
  intros Hok Hact. unfold xqc_cid_set_mark_original.
  destruct (xqc_cid_in_cid_set cs cid pid) as [ci|] eqn:Hf; [|done].
  destruct (cid_in_set _ _ _ _ _ Hok Hf) as (s & Hg & Hci & _). specialize (Hact ci eq_refl).
  destruct (get_path _ _ _ _ Hok Hg) as (l1 & l2 & Heq & Hp & Ho & Hi & Hnd).
  destruct (ci_original ci) eqn:Eo; [done|].
  pose proof (addr_only_here _ _ _ _ _ _ Hok Heq Hci) as Hao.
  pose proof (upd_cid_split cs set_original l1 s l2 _ Heq Hao) as H1.
  pose proof (upd_set_split _ pid (add_cnt 0 0 0 1 0) _ _ _ H1 Hp Ho) as H2.
  pose proof (io_path _ _ Hi) as Hpath. rewrite Forall_forall in Hpath.
  eapply (change_ok lim cs _ l1 s l2 ci set_original _ _ _ _ _ Hok Heq Hi Hnd Hci H2); try done.
  1-2: simpl; rewrite !map_sets_states; try done; intros; by apply at_path_state.
  all: unfold is_unused, is_used, is_retired, peer_active; simpl; rewrite ?andb_false_r, ?Eo.
  all: first [by apply Hpath | done | simpl; lia].
Qed.

Lemma count_perm {A} (p : A -> bool) l k : l ≡ₚ k -> count p l = count p k.
Proof. induction 1; rewrite ?count_cons in *; lia. Qed.

Lemma Forall_perm {A} (P : A -> Prop) l k : l ≡ₚ k -> Forall P l -> Forall P k.
Proof. intros Hlk. by rewrite Hlk. Qed.

Lemma with_state_ok lim st s : inner_ok lim s -> inner_ok lim (with_state st s).
Proof. by intros []. Qed.

(** Moving a path to another state, and to the list of that state. *)
Lemma move_ok lim cs cs' l1 s l2 st :
  set_ok lim cs -> all_sets cs = l1 ++ s :: l2 -> set_state s <> st ->
  all_sets cs' ≡ₚ l1 ++ with_state st s :: l2 ->
  Forall (fun s => set_state s <> XQC_CID_SET_ABANDONED) (cid_set_list cs') ->
  Forall (fun s => set_state s = XQC_CID_SET_ABANDONED) (abandoned_set_list cs') ->
  set_cnt cs' = add_state_cnt st 1 (add_state_cnt (set_state s) (-1) (set_cnt cs)) ->
  set_ok lim cs'.
Proof.
  intros [K1 K2 K3 K4 K5 K6 K7 K8 K9] Heq Hne Hperm Hl Hb Hc. unfold all_cids in K3.
  rewrite Heq in *.
  assert (forall st', set_count st' (all_sets cs') = set_count st' (l1 ++ s :: l2)
    - zb1 (bool_decide (set_state s = st')) + zb1 (bool_decide (st = st'))
    /\ 0 <= set_count st' (all_sets cs') < 2 ^ 32
    /\ 0 <= set_count st' (l1 ++ s :: l2) < 2 ^ 32) as Hcnt.
  { intros st'. unfold set_count. rewrite (count_perm _ _ _ Hperm), !count_app, !count_cons. simpl.
    pose proof (count_bound (fun s => bool_decide (set_state s = st')) (l1 ++ s :: l2)) as B1.
    pose proof (count_bound (fun s => bool_decide (set_state s = st')) (l1 ++ with_state st s :: l2)) as B2.
    rewrite length_app in K9, B1, B2. rewrite count_app, count_cons in B1, B2. simpl in K9, B1, B2. lia. }
  pose proof (Hcnt XQC_CID_SET_UNUSED) as (C1 & R1 & Q1).
  pose proof (Hcnt XQC_CID_SET_USED) as (C2 & R2 & Q2).
  pose proof (Hcnt XQC_CID_SET_ABANDONED) as (C3 & R3 & Q3).
  split; try done.
  - eapply Forall_perm; [symmetry; exact Hperm|]. apply Forall_app in K1 as [K1 K1'].
    apply Forall_cons in K1' as [K1' K1'']. apply Forall_app. split; [done|].
    constructor; [by apply with_state_ok|done].
  - rewrite (Permutation_map s_path_id Hperm). by rewrite map_app in *.
  - unfold all_cids. rewrite <- flat_map_concat_map, (Permutation_flat_map cid_list Hperm).
    rewrite flat_map_concat_map. by rewrite !map_app, !concat_app in *.
  - rewrite Hc. destruct (set_state s), st; try done; simpl in *; rewrite ?K6, ?u32_small; lia.
  - rewrite Hc. destruct (set_state s), st; try done; simpl in *; rewrite ?K7, ?u32_small; lia.
  - rewrite Hc. destruct (set_state s), st; try done; simpl in *; rewrite ?K8, ?u32_small; lia.
  - rewrite (Permutation_length Hperm). by rewrite length_app in *.
Qed.

Lemma del_path_other pid l : Forall (fun s => s_path_id s <> pid) l -> del_path pid l = l.
Proof.
  induction 1 as [|s l H _ IH]; [done|]. unfold del_path in *. simpl.
  by rewrite (proj2 (Z.eqb_neq _ _) H), IH.
Qed.

Lemma del_path_split pid l1 s l2 :
  s_path_id s = pid -> Forall (fun s' => s_path_id s' <> pid) (l1 ++ l2) ->
  del_path pid (l1 ++ s :: l2) = l1 ++ l2.
Proof.
  intros Hp Ho. apply Forall_app in Ho as [H1 H2]. unfold del_path. rewrite List.filter_app. simpl.
  rewrite Hp, Z.eqb_refl. simpl. fold (del_path pid l1) (del_path pid l2).
  by rewrite !del_path_other.
Qed.

Lemma Forall_del_path (P : xqc_cid_set_inner_t -> Prop) pid l : Forall P l -> Forall P (del_path pid l).
Proof.
  induction 1 as [|s l H _ IH]; [done|]. unfold del_path in *. simpl. case_if; [by constructor|done].
Qed.

Lemma update_state_sets cs pid st s l1 l2 :
  all_sets cs = l1 ++ s :: l2 -> s_path_id s = pid ->
  Forall (fun s' => s_path_id s' <> pid) (l1 ++ l2) -> set_state s <> st ->
  all_sets (xqc_cid_set_update_state cs pid st) ≡ₚ l1 ++ with_state st s :: l2.
Proof.
  intros Heq Hp Ho Hne. unfold xqc_cid_set_update_state.
  rewrite (get_path_mid cs pid l1 s l2 Heq Hp Ho). rewrite bool_decide_false by done.
  assert (del_path pid (cid_set_list cs) ++ del_path pid (abandoned_set_list cs) = l1 ++ l2) as Hd.
  { unfold del_path. rewrite <- List.filter_app. fold (all_sets cs). rewrite Heq.
    by apply del_path_split. }
  pose proof (upd_set_split cs pid (with_state st) _ _ _ Heq Hp Ho) as H2.
  assert (forall x, (l1 ++ l2) ++ [x] ≡ₚ l1 ++ x :: l2) as Hend.
  { intros x. rewrite <- app_assoc. apply Permutation_app_head. by rewrite Permutation_app_comm. }
  case_bool_decide; [|case_bool_decide]; unfold all_sets at 1; simpl.
  - by rewrite app_assoc, Hd.
  - by rewrite <- app_assoc, (Permutation_app_comm [_]), app_assoc, Hd.
  - unfold all_sets in H2. simpl in H2. by rewrite H2.
Qed.

Lemma update_state_ok lim cs pid st : set_ok lim cs -> set_ok lim (xqc_cid_set_update_state cs pid st).
Proof.
  intros Hok. unfold xqc_cid_set_update_state.
  destruct (xqc_get_path_cid_set cs pid) as [s|] eqn:Hg; [|done].
  destruct (get_path _ _ _ _ Hok Hg) as (l1 & l2 & Heq & Hp & Ho & Hi & Hnd).
  pose proof Hok as [_ _ _ K4 K5 _ _ _ _]. destruct (decide (set_state s = st)) as [|Hne];
    [by rewrite bool_decide_true|]. pose proof (update_state_sets cs pid st s l1 l2 Heq Hp Ho Hne) as Hperm.
  unfold xqc_cid_set_update_state in Hperm. rewrite Hg in Hperm. rewrite bool_decide_false in Hperm |- * by done.
  case_bool_decide as Hst; [|case_bool_decide as Hsa];
    apply (move_ok lim cs _ l1 s l2 st Hok Heq Hne Hperm); try done; simpl;
    try apply Forall_app; try split; try by apply Forall_del_path.
  - by constructor.
  - by constructor.
  - apply Forall_map. eapply Forall_impl; [exact K4|]. intros x Hx. unfold at_path. by case_if.
  - apply Forall_map. apply Forall_forall. intros x Hx. unfold at_path.
      rewrite Forall_forall in K5. specialize (K5 x Hx). destruct (s_path_id x =? pid) eqn:E; [|done].
      exfalso. zify_bools. assert (x = s) as ->; [|done].
      assert (x ∈ all_sets cs) as Hxa by (unfold all_sets; apply elem_of_app; by right).
      rewrite Heq in Hxa. rewrite Forall_forall in Ho. apply elem_of_app in Hxa as [Hxa|Hxa].
    + exfalso. apply (Ho x); [apply elem_of_app; by left|done].
    + apply elem_of_cons in Hxa as [->|Hxa]; [done|]. exfalso.
        apply (Ho x); [apply elem_of_app; by right|done].
Qed.

Lemma add_path_ok lim b cs pid :
  0 <= lim -> set_ok lim cs -> Z.of_nat (length (all_sets cs)) < 2 ^ 32 - 1 ->
  set_ok lim (snd (xqc_cid_set_add_path b cs pid)).
Proof.
  intros Hlim [K1 K2 K3 K4 K5 K6 K7 K8 K9] Hroom. unfold xqc_cid_set_add_path.
  destruct (xqc_get_path_cid_set cs pid) as [s|] eqn:Hg; [done|]. destruct b; [|done]. cbn [snd].
  assert (forall cnt, all_sets (mk_cset (cid_set_list cs ++ [new_path_set pid]) (abandoned_set_list cs) cnt)
    ≡ₚ new_path_set pid :: all_sets cs) as Hperm.
  { intros cnt. unfold all_sets. simpl. rewrite <- app_assoc. symmetry. apply Permutation_middle. }
  set (cs' := mk_cset _ _ _). specialize (Hperm (set_cnt cs')). change (mk_cset _ _ _) with cs' in Hperm.
  assert (forall st, set_count st (all_sets cs')
    = zb1 (bool_decide (XQC_CID_SET_UNUSED = st)) + set_count st (all_sets cs)) as Hcnt.
  { intros st. unfold set_count. by rewrite (count_perm _ _ _ Hperm), count_cons. }
  pose proof (count_bound (fun s => bool_decide (set_state s = XQC_CID_SET_UNUSED)) (all_sets cs)) as Hb.
  fold (set_count XQC_CID_SET_UNUSED (all_sets cs)) in Hb.
  split; rewrite ?Hcnt; try done.
  - eapply Forall_perm; [symmetry; exact Hperm|]. constructor; [|done]. split; done.
  - rewrite (Permutation_map s_path_id Hperm). simpl. apply NoDup_cons. split; [|done].
    intros Hin. apply list_elem_of_fmap in Hin as (s & Hs & Hin). apply list_elem_of_In in Hin.
    apply (find_none _ _ Hg) in Hin. simpl in Hin. zify_bools. done.
  - unfold all_cids. rewrite <- flat_map_concat_map, (Permutation_flat_map cid_list Hperm).
    by rewrite flat_map_concat_map.
  - simpl. apply Forall_app. split; [done|]. by constructor.
  - simpl. rewrite K6, u32_small by lia. lia.
  - rewrite (Permutation_length Hperm). simpl. lia.
Qed.

Lemma largest_ok lim cs pid v :
  set_ok lim cs -> set_ok lim (snd (xqc_cid_set_set_largest_seq_or_rpt cs pid v)).
Proof.
  intros Hok. unfold xqc_cid_set_set_largest_seq_or_rpt.
  destruct (xqc_get_path_cid_set cs pid) as [s|] eqn:Hg; [|done]. cbn [snd].
  destruct (get_path _ _ _ _ Hok Hg) as (l1 & l2 & Heq & Hp & Ho & Hi & Hnd).
  eapply (replace_ok lim cs _ l1 s _ l2 Hok Heq); [by apply upd_set_split|done| | |done| |done|by left].
  1-2: simpl; apply map_sets_states; intros x; by apply at_path_state.
  by destruct Hi.
Qed.

(** An identifier of the set is on the list of its path. *)
Lemma cid_path lim cs ci :
  set_ok lim cs -> ci ∈ all_cids cs ->
  exists s, xqc_get_path_cid_set cs (path_id (ci_cid ci)) = Some s /\ ci ∈ cid_list s.
Proof.
  intros Hok Hci. unfold all_cids in Hci. apply list_elem_of_In, in_concat in Hci as (l & Hl & Hci).
  apply in_map_iff in Hl as (s & <- & Hs). apply list_elem_of_In in Hs, Hci. exists s. split; [|done].
  pose proof (so_inner _ _ Hok) as Hi. rewrite Forall_forall in Hi. specialize (Hi s Hs).
  pose proof (io_path _ _ Hi) as Hp. rewrite Forall_forall in Hp. rewrite (Hp ci Hci).
  destruct (xqc_get_path_cid_set cs (s_path_id s)) as [s'|] eqn:Hg.
  - pose proof Hg as Hg'. apply find_some in Hg' as [Hin Hq]. zify_bools. f_equal.
    apply list_elem_of_In, list_elem_of_lookup in Hin as [i Hin]. apply list_elem_of_lookup in Hs as [j Hs].
    assert (i = j) as ->; [|congruence]. eapply NoDup_lookup; [apply (so_paths _ _ Hok)|..].
    + rewrite list_lookup_fmap, Hin. done.
    + rewrite list_lookup_fmap, Hs. simpl. by rewrite Hq.
  - apply list_elem_of_In in Hs. apply (find_none _ _ Hg) in Hs. simpl in Hs. by rewrite Z.eqb_refl in Hs.
Qed.

Lemma check_dcid_ok lim cs dcid : set_ok lim cs -> set_ok lim (snd (xqc_conn_check_dcid cs dcid)).
Proof.
  intros Hok. unfold xqc_conn_check_dcid. destruct (xqc_cid_set_search_cid cs dcid) as [ci|] eqn:Hs; [|done].
  case_if; [|done]. apply find_some in Hs as [Hs _]. apply list_elem_of_In in Hs.
  destruct (cid_path _ _ _ Hok Hs) as (s & Hg & Hci).
  pose proof (switch_ok lim cs ci XQC_CID_USED _ s Hok Hg Hci) as H.
  by destruct (xqc_cid_switch_to_next_state _ _ _ _).
Qed.

(** ** Runs *)

(** What the connection does to a set, in any order. [lim] bounds the limits it inserts with;
    an allocated structure has an address of its own; the lists hold fewer than [2^32]
    structures, which is what memory allows. *)
Inductive cid_step (lim : Z) : xqc_cid_set_t -> xqc_cid_set_t -> Prop :=
| step_insert alloc cs cid st limit pid :
    limit <= lim -> (forall a, alloc = Some a -> a ∉ map ci_addr (all_cids cs)) ->
    (forall s, xqc_get_path_cid_set cs pid = Some s -> Z.of_nat (length (cid_list s)) < 2 ^ 32 - 1) ->
    cid_step lim cs (snd (xqc_cid_set_insert_cid alloc cs cid st limit pid))
| step_delete cs cid pid : cid_step lim cs (snd (xqc_cid_set_delete_cid cs cid pid))
| step_switch cs ci next :
    ci ∈ all_cids cs ->
    cid_step lim cs (snd (xqc_cid_switch_to_next_state cs ci next (path_id (ci_cid ci))))
| step_get_unused cs cid pid : cid_step lim cs (snd (xqc_get_unused_cid cs cid pid))
| step_check_dcid cs dcid : cid_step lim cs (snd (xqc_conn_check_dcid cs dcid))
| step_add_path b cs pid :
    Z.of_nat (length (all_sets cs)) < 2 ^ 32 - 1 ->
    cid_step lim cs (snd (xqc_cid_set_add_path b cs pid))
| step_update_state cs pid st : cid_step lim cs (xqc_cid_set_update_state cs pid st)
| step_acked cs pid seq : cid_step lim cs (xqc_cid_set_on_cid_acked cs pid seq)
| step_mark cs cid pid :
    (forall ci, xqc_cid_in_cid_set cs cid pid = Some ci -> is_active ci = true) ->
    cid_step lim cs (xqc_cid_set_mark_original cs cid pid)
| step_largest cs pid v : cid_step lim cs (snd (xqc_cid_set_set_largest_seq_or_rpt cs pid v)).

Lemma step_ok lim cs cs' : 0 <= lim -> cid_step lim cs cs' -> set_ok lim cs -> set_ok lim cs'.
Proof.
  intros Hlim [] Hok;
    eauto using cid_insert_ok, delete_ok, get_unused_ok, check_dcid_ok, add_path_ok, update_state_ok,
      acked_ok, mark_ok, largest_ok.
  destruct (cid_path _ _ _ Hok H) as (s & Hg & Hci). by eapply switch_ok.
Qed.

Lemma init_ok lim : set_ok lim xqc_init_cid_set.
Proof. split; done || constructor. Qed.

Lemma reach_ok lim cs : 0 <= lim -> rtc (cid_step lim) xqc_init_cid_set cs -> set_ok lim cs.
Proof.
  intros Hlim Hrun. pose proof (init_ok lim) as Hi. revert Hi.
  induction Hrun; eauto using step_ok.
Qed.

(** C25: in every state the operations lead to, in any order, the counters of each path are
    the numbers of its identifiers that are unused, used, retired, chosen here, and unused
    and acknowledged; at most [lim] identifiers of the peer are active; the abandoned paths
    are exactly those on the list of abandoned paths, and the numbers of paths per state are
    right. *)
Theorem cid_sets_reachable lim cs :
  0 <= lim -> rtc (cid_step lim) xqc_init_cid_set cs ->
  (forall pid s, xqc_get_path_cid_set cs pid = Some s ->
     unused_cnt s = count is_unused (cid_list s) /\ used_cnt s = count is_used (cid_list s)
     /\ retired_cnt s = count is_retired (cid_list s)
     /\ original_cid_cnt s = count ci_original (cid_list s)
     /\ acked_unused s = count (fun ci => is_unused ci && ci_acked ci) (cid_list s)
     /\ count peer_active (cid_list s) <= lim
     /\ (s ∈ abandoned_set_list cs <-> set_state s = XQC_CID_SET_ABANDONED))
  /\ n_unused (set_cnt cs) = set_count XQC_CID_SET_UNUSED (all_sets cs)
  /\ n_used (set_cnt cs) = set_count XQC_CID_SET_USED (all_sets cs)
  /\ n_abandoned (set_cnt cs) = set_count XQC_CID_SET_ABANDONED (all_sets cs).
Proof.
  intros Hlim Hrun. pose proof (reach_ok _ _ Hlim Hrun) as Hok. pose proof Hok as [].
  split_and!; try done. intros pid s Hg.
  destruct (get_path _ _ _ _ Hok Hg) as (l1 & l2 & Heq & Hp & Ho & [] & Hnd). split_and!; try done.
  rewrite Forall_forall in so_live0, so_abandoned0. split; [by apply so_abandoned0|].
  intros Hst. assert (s ∈ all_sets cs) as Hin by (rewrite Heq; apply elem_of_app; right; left).
  apply elem_of_app in Hin as [Hin|Hin]; [|done]. by apply so_live0 in Hin.
Qed.

(** ** States only move forward *)

(** The identifiers of [k] are identifiers of [l], in the same state or a later one. *)
Definition forward (l k : list xqc_cid_inner_t) : Prop :=
  forall y, y ∈ k -> exists x, x ∈ l /\ ci_addr x = ci_addr y
    /\ cid_state_num (ci_state x) <= cid_state_num (ci_state y).

Lemma forward_refl l : forward l l.
Proof. intros y Hy. by exists y. Qed.

Lemma all_cids_split cs l1 s l2 :
  all_sets cs = l1 ++ s :: l2 ->
  all_cids cs = concat (map cid_list l1) ++ cid_list s ++ concat (map cid_list l2).
Proof. intros Heq. unfold all_cids. by rewrite Heq, map_app, concat_app. Qed.

Lemma forward_replace cs cs' l1 s s' l2 :
  all_sets cs = l1 ++ s :: l2 -> all_sets cs' = l1 ++ s' :: l2 ->
  forward (cid_list s) (cid_list s') -> forward (all_cids cs) (all_cids cs').
Proof.
  intros Heq Heq' Hf y. rewrite (all_cids_split _ _ _ _ Heq), (all_cids_split _ _ _ _ Heq'), !elem_of_app.
  intros [Hy|[Hy|Hy]].
  - exists y. rewrite !elem_of_app. split_and!; [tauto|done|lia].
  - destruct (Hf y Hy) as (x & Hx & ?). exists x. rewrite !elem_of_app. tauto.
  - exists y. rewrite !elem_of_app. split_and!; [tauto|done|lia].
Qed.

Lemma forward_upd l g ci :
  NoDup (map ci_addr l) -> ci ∈ l -> ci_addr (g ci) = ci_addr ci ->
  cid_state_num (ci_state ci) <= cid_state_num (ci_state (g ci)) ->
  forward l (upd_addr (ci_addr ci) g l).
Proof.
  intros Hnd Hci Ha Hs y Hy. unfold upd_addr in Hy. apply list_elem_of_fmap in Hy as (x & -> & Hx).
  destruct (ci_addr x =? ci_addr ci) eqn:E; [|by exists x]. zify_bools.
  assert (x = ci) as ->; [|by exists ci].
  apply list_elem_of_lookup in Hx as [i Hx], Hci as [j Hci]. assert (i = j) as ->; [|congruence].
  eapply NoDup_lookup; [exact Hnd|rewrite list_lookup_fmap, Hx; done|].
  rewrite list_lookup_fmap, Hci. simpl. by rewrite E.
Qed.

Lemma forward_perm cs cs' l1 s s' l2 :
  all_sets cs = l1 ++ s :: l2 -> all_sets cs' ≡ₚ l1 ++ s' :: l2 -> cid_list s' = cid_list s ->
  forward (all_cids cs) (all_cids cs').
Proof.
  intros Heq Hperm Hs y Hy. exists y. split_and!; [|done..].
  unfold all_cids in Hy. rewrite <- flat_map_concat_map in Hy.
  rewrite (Permutation_flat_map cid_list Hperm), flat_map_concat_map, map_app, concat_app in Hy.
  simpl in Hy. rewrite Hs in Hy. by rewrite (all_cids_split _ _ _ _ Heq).
Qed.

Lemma switch_forward lim cs ci next pid s :
  set_ok lim cs -> xqc_get_path_cid_set cs pid = Some s -> ci ∈ cid_list s ->
  forward (all_cids cs) (all_cids (snd (xqc_cid_switch_to_next_state cs ci next pid))).
Proof.
  intros Hok Hg Hci. destruct (get_path _ _ _ _ Hok Hg) as (l1 & l2 & Heq & Hp & Ho & Hi & Hnd).
  destruct (xqc_cid_switch_to_next_state cs ci next pid) as [r cs'] eqn:Hsw.
  destruct (switch_cases _ _ _ _ _ _ _ _ _ _ Hok Heq Hp Ho Hci Hsw) as (_ & found & _ & Hcase). simpl.
  destruct Hcase as [[_ Heq']|(_ & Hlt & Heq')]; (eapply forward_replace; [done|exact Heq'|]); simpl;
    apply forward_upd; try done. simpl. lia.
Qed.

Lemma update_state_forward lim cs pid st :
  set_ok lim cs -> forward (all_cids cs) (all_cids (xqc_cid_set_update_state cs pid st)).
Proof.
  intros Hok. destruct (xqc_get_path_cid_set cs pid) as [s|] eqn:Hg.
  - destruct (get_path _ _ _ _ Hok Hg) as (l1 & l2 & Heq & Hp & Ho & _ & _).
    destruct (decide (set_state s = st)) as [|Hne].
    + unfold xqc_cid_set_update_state. rewrite Hg, bool_decide_true by done. apply forward_refl.
    + apply (forward_perm _ _ l1 s (with_state st s) l2 Heq); [|done]. by apply update_state_sets.
  - unfold xqc_cid_set_update_state. rewrite Hg. apply forward_refl.
Qed.

Lemma insert_forward lim alloc cs cid st limit pid y :
  set_ok lim cs -> y ∈ all_cids (snd (xqc_cid_set_insert_cid alloc cs cid st limit pid)) ->
  y ∈ all_cids cs \/ alloc = Some (ci_addr y).
Proof.
  intros Hok. unfold xqc_cid_set_insert_cid.
  destruct (xqc_get_path_cid_set cs pid) as [s|] eqn:Hg; [|by left]. case_if; [by left|].
  destruct alloc as [a|]; [|by left]. cbn [snd].
  destruct (get_path _ _ _ _ Hok Hg) as (l1 & l2 & Heq & Hp & Ho & _ & _).
  rewrite (all_cids_split _ _ _ _ Heq), (all_cids_split _ _ _ _ (upd_set_split _ _ _ _ _ _ Heq Hp Ho)).
  simpl. rewrite !elem_of_app, list_elem_of_singleton. intros [?|[[?| ->]|?]]; [tauto..|by right|tauto].
Qed.

Lemma remove_first_incl q l y : y ∈ remove_first q l -> y ∈ l.
Proof.
  induction l as [|x l IH]; simpl; [done|]. case_if; [by right|]. rewrite !elem_of_cons. tauto.
Qed.

Lemma delete_forward lim cs cid pid :
  set_ok lim cs -> forward (all_cids cs) (all_cids (snd (xqc_cid_set_delete_cid cs cid pid))).
Proof.
  intros Hok. unfold xqc_cid_set_delete_cid.
  destruct (xqc_get_path_cid_set cs pid) as [s|] eqn:Hg; [|apply forward_refl].
  destruct (find _ _); [|apply forward_refl]. cbn [snd].
  destruct (get_path _ _ _ _ Hok Hg) as (l1 & l2 & Heq & Hp & Ho & _ & _).
  eapply forward_replace; [done|by apply upd_set_split|]. simpl. intros y Hy.
  exists y. apply remove_first_incl in Hy. done.
Qed.

Lemma ack_loop_forward seq l : forward l (fst (ack_loop l seq)).
Proof.
  induction l as [|ci l IH]; simpl; [apply forward_refl|].
  destruct (ack_loop l seq) as [k n]. simpl in IH.
  assert (forall c, ci_addr c = ci_addr ci -> ci_state c = ci_state ci -> forward (ci :: l) (c :: k)) as H.
  { intros c Ha Hs y Hy. apply elem_of_cons in Hy as [->|Hy].
    - exists ci. split; [left|]. rewrite Ha, Hs. split; [done|lia].
    - destruct (IH y Hy) as (x & Hx & ?). exists x. split; [by right|done]. }
  case_if; by apply H.
Qed.

Lemma acked_forward lim cs pid seq :
  set_ok lim cs -> forward (all_cids cs) (all_cids (xqc_cid_set_on_cid_acked cs pid seq)).
Proof.
  intros Hok. unfold xqc_cid_set_on_cid_acked.
  destruct (xqc_get_path_cid_set cs pid) as [s|] eqn:Hg; [|rewrite path_none by done; apply forward_refl].
  destruct (get_path _ _ _ _ Hok Hg) as (l1 & l2 & Heq & Hp & Ho & _ & _).
  eapply forward_replace; [done|by apply upd_set_split|].
  pose proof (ack_loop_forward seq (cid_list s)) as H. by destruct (ack_loop (cid_list s) seq).
Qed.

Lemma mark_forward lim cs cid pid :
  set_ok lim cs -> forward (all_cids cs) (all_cids (xqc_cid_set_mark_original cs cid pid)).
Proof.
  intros Hok. unfold xqc_cid_set_mark_original.
  destruct (xqc_cid_in_cid_set cs cid pid) as [ci|] eqn:Hf; [|apply forward_refl].
  destruct (cid_in_set _ _ _ _ _ Hok Hf) as (s & Hg & Hci & _). case_if; [apply forward_refl|].
  destruct (get_path _ _ _ _ Hok Hg) as (l1 & l2 & Heq & Hp & Ho & Hi & Hnd).
  pose proof (addr_only_here _ _ _ _ _ _ Hok Heq Hci) as Hao.
  pose proof (upd_cid_split cs set_original l1 s l2 _ Heq Hao) as H1.
  eapply forward_replace; [done|by apply (upd_set_split _ pid _ _ _ _ H1)|]. simpl. by apply forward_upd.
Qed.

Lemma add_path_forward b cs pid :
  forward (all_cids cs) (all_cids (snd (xqc_cid_set_add_path b cs pid))).
Proof.
  unfold xqc_cid_set_add_path. destruct (xqc_get_path_cid_set cs pid); [apply forward_refl|].
  destruct b; [|apply forward_refl]. simpl. unfold all_cids, all_sets. simpl.
  rewrite !map_app, !concat_app. simpl. rewrite app_nil_r. apply forward_refl.
Qed.

Lemma largest_forward lim cs pid v :
  set_ok lim cs -> forward (all_cids cs) (all_cids (snd (xqc_cid_set_set_largest_seq_or_rpt cs pid v))).
Proof.
  intros Hok. unfold xqc_cid_set_set_largest_seq_or_rpt.
  destruct (xqc_get_path_cid_set cs pid) as [s|] eqn:Hg; [|apply forward_refl].
  destruct (get_path _ _ _ _ Hok Hg) as (l1 & l2 & Heq & Hp & Ho & _ & _).
  eapply forward_replace; [done|by apply upd_set_split|]. apply forward_refl.
Qed.

Lemma get_unused_forward lim cs cid pid :
  set_ok lim cs -> forward (all_cids cs) (all_cids (snd (xqc_get_unused_cid cs cid pid))).
Proof.
  intros Hok. unfold xqc_get_unused_cid.
  destruct (xqc_get_path_cid_set cs pid) as [s|] eqn:Hg; [|apply forward_refl].
  case_if; [apply forward_refl|]. destruct (find is_unused _) as [ci|] eqn:Hf; [|apply forward_refl].
  apply find_some in Hf as [Hf _]. apply list_elem_of_In in Hf.
  pose proof (switch_forward lim cs ci XQC_CID_USED pid s Hok Hg Hf) as H.
  by destruct (xqc_cid_switch_to_next_state _ _ _ _).
Qed.

Lemma check_dcid_forward lim cs dcid :
  set_ok lim cs -> forward (all_cids cs) (all_cids (snd (xqc_conn_check_dcid cs dcid))).
Proof.
  intros Hok. unfold xqc_conn_check_dcid.
  destruct (xqc_cid_set_search_cid cs dcid) as [ci|] eqn:Hs; [|apply forward_refl].
  case_if; [|apply forward_refl]. apply find_some in Hs as [Hs _]. apply list_elem_of_In in Hs.
  destruct (cid_path _ _ _ Hok Hs) as (s & Hg & Hci).
  pose proof (switch_forward lim cs ci XQC_CID_USED _ s Hok Hg Hci) as H.
  by destruct (xqc_cid_switch_to_next_state _ _ _ _).
Qed.

Lemma step_forward lim cs cs' :
  set_ok lim cs -> cid_step lim cs cs' ->
  (forall y, y ∈ all_cids cs' -> y ∈ all_cids cs \/ ci_addr y ∉ map ci_addr (all_cids cs))
  \/ forward (all_cids cs) (all_cids cs').
Proof.
  intros Hok Hstep. revert Hok.
  destruct Hstep as [alloc cs cid st limit pid Hl Hfresh Hroom| | | | | | | | |]; intros Hok; [left|right..];
    eauto using delete_forward, get_unused_forward, check_dcid_forward, add_path_forward,
      update_state_forward, acked_forward, mark_forward, largest_forward.
  - intros y Hy. destruct (insert_forward _ _ _ _ _ _ _ _ Hok Hy) as [|Ha]; [by left|right; by apply Hfresh].
  - destruct (cid_path _ _ _ Hok H) as (s & Hg & Hci). by eapply switch_forward.
Qed.

(** No operation takes an identifier back to an earlier state: one that was handed out is
    never unused again, and one that was retired is never used again. *)
Theorem cid_state_forward lim cs cs' x y :
  0 <= lim -> rtc (cid_step lim) xqc_init_cid_set cs -> cid_step lim cs cs' ->
  x ∈ all_cids cs -> y ∈ all_cids cs' -> ci_addr x = ci_addr y ->
  cid_state_num (ci_state x) <= cid_state_num (ci_state y).
Proof.
  intros Hlim Hrun Hstep Hx Hy Ha. pose proof (reach_ok _ _ Hlim Hrun) as Hok.
  assert (forall z, z ∈ all_cids cs -> ci_addr z = ci_addr x -> z = x) as Huniq.
  { intros z Hz Hzx. apply list_elem_of_lookup in Hz as [i Hz], Hx as [j Hx].
    assert (i = j) as ->; [|congruence].
    eapply NoDup_lookup; [apply (so_addrs _ _ Hok)|rewrite list_lookup_fmap, Hz; done|].
    rewrite list_lookup_fmap, Hx. simpl. by rewrite Hzx. }
  destruct (step_forward _ _ _ Hok Hstep) as [Hf|Hf].
  - destruct (Hf y Hy) as [Hy'|Hn].
    + rewrite (Huniq y Hy') by done. lia.
    + exfalso. apply Hn. rewrite <- Ha. apply list_elem_of_fmap. by exists x.
  - destruct (Hf y Hy) as (z & Hz & Hza & Hle). by rewrite <- (Huniq z Hz) by congruence.
Qed.

(** ** Handing out identifiers *)

Lemma find_unused_none l : find is_unused l = None -> count is_unused l = 0.
Proof.
  intros Hn. unfold count. destruct (List.filter is_unused l) as [|x k] eqn:E; [done|].
  assert (In x (List.filter is_unused l)) as Hx by (rewrite E; by left).
  apply filter_In in Hx as [Hx Hu]. apply (find_none _ _ Hn) in Hx. congruence.
Qed.

(** [xqc_get_unused_cid] finds an unused identifier of the path exactly when there is
    one. The identifier it hands out was unused, is used from then on, and every other
    identifier of every path stays as it was, so that the next call hands out another. *)
Theorem get_unused_cid_correct lim cs cid pid s :
  0 <= lim -> rtc (cid_step lim) xqc_init_cid_set cs -> xqc_get_path_cid_set cs pid = Some s ->
  match xqc_get_unused_cid cs cid pid with
  | (Ok c, cs') =>
      exists ci ci', ci ∈ cid_list s /\ ci_state ci = XQC_CID_UNUSED
      /\ c = xqc_cid_copy cid (ci_cid ci)
      /\ ci' ∈ all_cids cs' /\ ci_addr ci' = ci_addr ci /\ ci_state ci' = XQC_CID_USED
      /\ forall x, ci_addr x <> ci_addr ci -> x ∈ all_cids cs <-> x ∈ all_cids cs'
  | (Err e, cs') =>
      e = XQC_ECONN_NO_AVAIL_CID /\ cs' = cs
      /\ Forall (fun ci => ci_state ci <> XQC_CID_UNUSED) (cid_list s)
  end.
Proof.
  intros Hlim Hrun Hg. pose proof (reach_ok _ _ Hlim Hrun) as Hok. unfold xqc_get_unused_cid. rewrite Hg.
  destruct (get_path _ _ _ _ Hok Hg) as (l1 & l2 & Heq & Hp & Ho & Hi & Hnd).
  assert (count is_unused (cid_list s) = 0 ->
    Forall (fun ci => ci_state ci <> XQC_CID_UNUSED) (cid_list s)) as Hnone.
  { intros H0. apply Forall_forall. intros ci Hci Hs.
    assert (is_unused ci = true) as Hu by (unfold is_unused, is_state; by rewrite bool_decide_true).
    pose proof (count_pos is_unused ci _ Hci Hu). lia. }
  destruct (unused_cnt s =? 0) eqn:E0; zify_bools.
  { split_and!; [done|done|]. apply Hnone. by rewrite <- (io_unused _ _ Hi). }
  destruct (find is_unused (cid_list s)) as [ci|] eqn:Hf.
  2: { split_and!; [done|done|]. by apply Hnone, find_unused_none. }
  apply find_some in Hf as [Hci Hu]. apply list_elem_of_In in Hci.
  apply bool_decide_eq_true_1 in Hu.
  destruct (xqc_cid_switch_to_next_state cs ci XQC_CID_USED pid) as [r cs'] eqn:Hsw.
  destruct (switch_cases _ _ _ _ _ _ _ _ _ _ Hok Heq Hp Ho Hci Hsw) as (_ & found & _ & Hcase).
  rewrite Hu in Hcase. simpl in Hcase.
  destruct Hcase as [[[[_ H]|[_ H]] _]|(-> & _ & Heq')]; [done|lia|].
  exists ci, (switch_ci ci found XQC_CID_USED ci).
  rewrite (all_cids_split _ _ _ _ Heq), (all_cids_split _ _ _ _ Heq'). simpl.
  assert (forall x, x ∈ upd_addr (ci_addr ci) (switch_ci ci found XQC_CID_USED) (cid_list s)
    <-> exists y, x = (if ci_addr y =? ci_addr ci then switch_ci ci found XQC_CID_USED y else y)
        /\ y ∈ cid_list s) as Hin by (intros x; apply list_elem_of_fmap).
  split_and!; try done.
  - rewrite !elem_of_app. right; left. apply Hin. exists ci. by rewrite Z.eqb_refl.
  - intros x Hx. rewrite !elem_of_app, Hin. split; (intros [?|[H|?]]; [tauto| |tauto]); right; left.
    + exists x. by rewrite (proj2 (Z.eqb_neq _ _) Hx).
    + destruct H as (y & -> & Hy). destruct (ci_addr y =? ci_addr ci) eqn:E; [|done].
      simpl in Hx. zify_bools. done.
Qed.

(** ** Finding identifiers *)

Lemma find_app_none {A} (q : A -> bool) l k : find q l = None -> find q (l ++ k) = find q k.
Proof. induction l as [|x l IH]; simpl; [done|]. by destruct (q x). Qed.

Lemma find_app_inv {A} (q : A -> bool) l k :
  find q (l ++ k) = None -> find q l = None /\ find q k = None.
Proof. induction l as [|x l IH]; simpl; [done|]. by destruct (q x). Qed.

Lemma cid_copy_equal cid pid :
  0 <= cid_len cid <= XQC_MAX_CID_LEN -> cid_len cid <= zlen (cid_buf cid) ->
  xqc_cid_is_equal cid (xqc_cid_copy xqc_cid_init_zero (cid_with_path cid pid)) = true.
Proof.
  intros Hlen Hbuf. unfold xqc_cid_is_equal. cbn [cid_len cid_buf xqc_cid_copy cid_with_path].
  rewrite Z.eqb_refl. apply bool_decide_eq_true_2.
  set (bs := sub_bytes (cid_buf cid) 0 (cid_len cid)).
  assert (zlen bs = cid_len cid) as Hbs by (apply zlen_sub_bytes; lia).
  rewrite <- Hbs. symmetry. apply bytes_at_sub. apply bytes_at_wr; [lia|].
  unfold xqc_cid_init_zero. cbn [cid_buf]. unfold zlen at 2. rewrite length_replicate.
  unfold XQC_MAX_CID_LEN in *. lia.
Qed.

(** An identifier that was not known and is inserted is found, at the path, with the
    sequence number and in the state it was inserted with; deleting it makes it unknown
    again. *)
Theorem cid_insert_found lim cs a cid st limit pid c cs' :
  0 <= lim -> rtc (cid_step lim) xqc_init_cid_set cs ->
  0 <= cid_len cid <= XQC_MAX_CID_LEN -> cid_len cid <= zlen (cid_buf cid) ->
  xqc_cid_set_search_cid cs cid = None ->
  xqc_cid_set_insert_cid (Some a) cs cid st limit pid = (Ok c, cs') ->
  (exists ci, xqc_cid_set_search_cid cs' cid = Some ci /\ path_id (ci_cid ci) = pid
     /\ cid_seq_num (ci_cid ci) = cid_seq_num cid /\ ci_state ci = st)
  /\ exists cs'', xqc_cid_set_delete_cid cs' cid pid = (Ok tt, cs'')
     /\ xqc_cid_set_search_cid cs'' cid = None.
Proof.
  intros Hlim Hrun Hlen Hbuf Hno. pose proof (reach_ok _ _ Hlim Hrun) as Hok.
  unfold xqc_cid_set_insert_cid. destruct (xqc_get_path_cid_set cs pid) as [s|] eqn:Hg; [|done].
  case_if; [done|]. intros [= _ <-].
  destruct (get_path _ _ _ _ Hok Hg) as (l1 & l2 & Heq & Hp & Ho & Hi & Hnd).
  set (ci := mk_ci a _ st _ false false). set (f := fun s => add_cnt _ _ _ _ _ _).
  pose proof (upd_set_split cs pid f _ _ _ Heq Hp Ho) as Heq1.
  set (q := fun ci => xqc_cid_is_equal cid (ci_cid ci)).
  assert (q ci = true) as Hq by by apply cid_copy_equal.
  unfold xqc_cid_set_search_cid in *. fold q in Hno |- *. rewrite (all_cids_split _ _ _ _ Heq) in Hno.
  apply find_app_inv in Hno as [N1 Hno]. apply find_app_inv in Hno as [N2 N3]. split.
  - exists ci. rewrite (all_cids_split _ _ _ _ Heq1). simpl.
    rewrite (find_app_none _ _ _ N1), <- app_assoc, (find_app_none _ _ _ N2). simpl. rewrite Hq. done.
  - unfold xqc_cid_set_delete_cid. fold q. rewrite (get_path_mid _ pid _ _ _ Heq1) by done. simpl.
    rewrite (find_app_none _ _ _ N2). simpl. rewrite Hq. eexists. split; [done|].
    set (f2 := fun s => add_cnt _ _ _ (orig_dec _ s) _ _).
    pose proof (upd_set_split _ pid f2 _ _ _ Heq1 Hp Ho) as Heq2.
    rewrite (all_cids_split _ _ _ _ Heq2). simpl.
    assert (remove_first q (cid_list s ++ [ci]) = cid_list s) as ->.
    { rewrite remove_first_split; [by rewrite app_nil_r|done|]. apply Forall_forall. intros x Hx.
      apply list_elem_of_In in Hx. by apply (find_none _ _ N2). }
    by rewrite (find_app_none _ _ _ N1), (find_app_none _ _ _ N2).
Qed.

(** ** Examples *)

Definition ex_cid (b : Z) : xqc_cid_t := mk_cid 8 (replicate 20 b) b (replicate 16 0) 0.

Definition ex_set0 : xqc_cid_set_t := snd (xqc_cid_set_add_path true xqc_init_cid_set 0).
Definition ex_set1 : xqc_cid_set_t :=
  snd (xqc_cid_set_insert_cid (Some 100) ex_set0 (ex_cid 1) XQC_CID_UNUSED 2 0).

Lemma ex_set0_run : rtc (cid_step 2) xqc_init_cid_set ex_set0.
Proof. apply rtc_once. apply step_add_path. done. Qed.

Lemma ex_set1_run : rtc (cid_step 2) xqc_init_cid_set ex_set1.
Proof.
  eapply rtc_r; [exact ex_set0_run|]. apply step_insert; [lia| |].
  - intros a _. by_decide.
  - intros s [= <-]. done.
Qed.

Lemma cid_sets_reachable_witness :
  exists s, xqc_get_path_cid_set ex_set1 0 = Some s /\ unused_cnt s = 1
  /\ unused_cnt s = count is_unused (cid_list s) /\ count peer_active (cid_list s) <= 2.
Proof.
  eexists. split; [reflexivity|]. split; [reflexivity|].
  destruct (cid_sets_reachable 2 ex_set1 ltac:(lia) ex_set1_run) as [H _].
  destruct (H 0 _ eq_refl) as (H1 & _ & _ & _ & _ & H2 & _). split; [exact H1|exact H2].
Defined.

Lemma cid_state_forward_witness :
  exists x y, x ∈ all_cids ex_set1 /\ y ∈ all_cids (snd (xqc_get_unused_cid ex_set1 (ex_cid 0) 0))
  /\ cid_state_num (ci_state x) <= cid_state_num (ci_state y).
Proof.
  eexists _, _. split; [|split].
  - apply list_elem_of_here.
  - apply list_elem_of_here.
  - apply (cid_state_forward 2 ex_set1 (snd (xqc_get_unused_cid ex_set1 (ex_cid 0) 0)));
      [lia|exact ex_set1_run|apply step_get_unused|apply list_elem_of_here|apply list_elem_of_here|].
    reflexivity.
Defined.

Lemma get_unused_cid_correct_witness :
  exists s, xqc_get_path_cid_set ex_set1 0 = Some s
  /\ exists c cs', xqc_get_unused_cid ex_set1 (ex_cid 0) 0 = (Ok c, cs')
  /\ exists ci, ci ∈ cid_list s /\ ci_state ci = XQC_CID_UNUSED.
Proof.
  eexists. split; [reflexivity|]. eexists _, _. split; [reflexivity|].
  destruct (get_unused_cid_correct 2 ex_set1 (ex_cid 0) 0 _ ltac:(lia) ex_set1_run eq_refl)
    as (ci & _ & H1 & H2 & _). exists ci. split; [exact H1|exact H2].
Defined.

Lemma cid_insert_found_witness :
  exists ci, xqc_cid_set_search_cid
    (snd (xqc_cid_set_insert_cid (Some 200) ex_set1 (ex_cid 2) XQC_CID_USED 2 0)) (ex_cid 2) = Some ci
  /\ cid_seq_num (ci_cid ci) = 2.
Proof.
  destruct (cid_insert_found 2 ex_set1 200 (ex_cid 2) XQC_CID_USED 2 0 _ _ ltac:(lia) ex_set1_run
    ltac:(by_decide) ltac:(by_decide) eq_refl eq_refl) as [(ci & H1 & _ & H2 & _) _].
  exists ci. split; [exact H1|exact H2].
Defined.

End CidSetSpec.
