(* ===== verification/PktHeader.v ===== *)
(** Packet headers: packet numbers, the short and the long header, written by
    [xqc_gen_short_packet_header] and [xqc_gen_long_packet_header] and read by the parsers of
    xqc_packet_parser.c. *)

From stdpp Require Import base numbers list relations.
From S2P Require Import Prelude VInt PacketBuf Frames CidSet CidSetSpec.
Import VInt Frames CidSet CidSetSpec.

Module PktHeader.

Definition XQC_EILLPKT : Z := 604.
Definition XQC_EVERSION : Z := 629.
Definition XQC_PTYPE_INIT : Z := 0.
Definition XQC_PTYPE_0RTT : Z := 1.
Definition XQC_PTYPE_HSK : Z := 2.
Definition XQC_PTYPE_RETRY : Z := 3.
Definition XQC_PTYPE_SHORT_HEADER : Z := 4.
Definition XQC_PTYPE_VERSION_NEGOTIATION : Z := 5.
Definition XQC_PNS_INIT : Z := 0.
Definition XQC_PNS_HSK : Z := 1.
Definition XQC_PNS_APP_DATA : Z := 2.
Definition XQC_INITIAL_PATH_ID : Z := 0.
Definition XQC_LONG_HEADER_LENGTH_BYTE : Z := 2.
Definition XQC_PACKET_VERSION_LENGTH : Z := 4.
Definition XQC_PACKET_LONG_HEADER_PREFIX_LENGTH : Z := 1 + XQC_PACKET_VERSION_LENGTH.
Definition XQC_MAX_TOKEN_LEN : Z := 256.
Definition XQC_RETRY_INTEGRITY_TAG_LEN : Z := 16.
Definition XQC_ESTATE : Z := 612.
Definition XQC_EVERSION_NEGOTIATION : Z := 643.
Definition TRA_VERSION_NEGOTIATION_ERROR : Z := 0x53.
Definition XQC_CONN_STATE_CLIENT_INITIAL_SENT : Z := 6.
Definition XQC_CONN_STATE_CLOSED : Z := 13.
Definition XQC_IDRAFT_INIT_VER : Z := 0.
Definition XQC_IDRAFT_VER_NEGOTIATION : Z := 3.

(** ** Packet numbers *)

Definition xqc_packet_number_bits2len (b : Z) : Z := b + 1.

Definition pktno_bytes (packet_number bits : Z) : list Z :=
  let len := xqc_packet_number_bits2len bits in
  (if len =? 4 then [u8 (packet_number >> 24)] else [])
  ++ (if 3 <=? len then [u8 (packet_number >> 16)] else [])
  ++ (if 2 <=? len then [u8 (packet_number >> 8)] else [])
  ++ [u8 packet_number].

(** The buffer and the number of bytes written at [p]. *)
Definition xqc_write_packet_number (buf : list Z) (p packet_number bits : Z) : list Z * Z :=
  let bs := pktno_bytes packet_number bits in (wr buf p bs, zlen bs).

Fixpoint parse_pktno_loop (buf : list Z) (pos : Z) (n : nat) (packet_num : Z) : Z :=
  match n with
  | O => packet_num
  | S n' => parse_pktno_loop buf (pos + 1) n' (u64 ((packet_num << 8) + rd buf pos))
  end.

Definition xqc_packet_parse_packet_number (buf : list Z) (pos packet_number_len : Z) : Z :=
  parse_pktno_loop buf pos (Z.to_nat packet_number_len) 0.

Definition xqc_packet_decode_packet_number (largest_pn truncated_pn pn_nbits : Z) : Z :=
  let expected_pn := u64 (largest_pn + 1) in
  let pn_win := u64 (1 << pn_nbits) in
  let pn_hwin := pn_win >> 1 in
  let pn_mask := u64 (pn_win - 1) in
  let candidate_pn := (expected_pn .& (2 ^ 64 - 1 - pn_mask)) .| truncated_pn in
  if (u64 (candidate_pn + pn_hwin) <=? expected_pn) && (candidate_pn <? u64 ((1 << 62) - pn_win))
  then u64 (candidate_pn + pn_win)
  else if (u64 (expected_pn + pn_hwin) <? candidate_pn) && (pn_win <=? candidate_pn)
  then u64 (candidate_pn - pn_win)
  else candidate_pn.

(** ** What a header is written into and read from *)

(** The part of [xqc_packet_out_t] that holds the header; [po_ppktno] and [po_payload] are
    offsets into [po_buf]. *)
Record hdr_out := mk_ho {
  ho_po : xqc_packet_out_t;
  ho_pkt_type : Z;
  ho_pkt_num : Z;
  po_ppktno : Z;
  po_payload : Z;
}.

(** The part of [xqc_packet_in_t] that holds the header; [hi_pos], [hi_last] are offsets. *)
Record hdr_in := mk_hi {
  hi_buf : list Z;
  hi_buf_size : Z;
  hi_pos : Z;
  hi_last : Z;
  hi_datagram_size : Z;
  hi_pkt_type : Z;
  hi_pkt_pns : Z;
  hi_dcid : xqc_cid_t;
  hi_scid : xqc_cid_t;
  hi_length : Z;
  hi_pkt_num_offset : Z;
  hi_path_id : Z;
}.

(** The part of the connection that Retry and Version Negotiation packets involve. *)
Record hs_state := mk_hs {
  hs_conn_state : Z;
  hs_original_dcid : xqc_cid_t;
  hs_initial_scid : xqc_cid_t;
  hs_current_dcid : xqc_cid_t;
  hs_path_dcid : xqc_cid_t;
  hs_retry_scid : xqc_cid_t;
  hs_retry_recvd : bool;
  hs_init_recvd : bool;
}.

(** The part of the connection that reading a header involves. *)
Record hdr_conn := mk_hc {
  hc_type : xqc_conn_type_t;
  hc_err : Z;
  hc_scid_set : xqc_cid_set_t;
  hc_dcid_set : xqc_cid_set_t;
  hc_scid_len : Z;
  hc_dcid_ok : bool;
  hc_version : Z;
  hc_support_versions : list Z;
  hc_version_negotiation : bool;
  hc_token : list Z;
  hc_hs : hs_state;
}.

(** ** Writing *)

Definition xqc_short_packet_header_size (dcid_len pktno_bits : Z) : Z :=
  1 + dcid_len + xqc_packet_number_bits2len pktno_bits.

Definition xqc_long_packet_header_size (dcid_len scid_len token_len pktno_bits type : Z) : Z :=
  1 + 4 + 2 + dcid_len + scid_len
  + (if type =? XQC_PTYPE_INIT then vlen token_len + token_len else 0)
  + XQC_LONG_HEADER_LENGTH_BYTE + xqc_packet_number_bits2len pktno_bits.

Definition with_buf (ho : hdr_out) (buf : list Z) (type ppktno payload : Z) : hdr_out :=
  mk_ho (po_set_buf (ho_po ho) buf) type (ho_pkt_num ho) ppktno payload.

Definition xqc_gen_short_packet_header (ho : hdr_out) (dcid : list Z) (dcid_len bits : Z)
    (packet_number : Z) (key_phase : bool) : res Z * hdr_out :=
  let spin_bit := 0x01 in
  let reserved_bits := 0x00 in
  let key_phase_bit := if key_phase then 0x01 else 0x00 in
  let need := 1 + dcid_len + xqc_packet_number_bits2len bits in
  let dst_buf_size := xqc_get_po_remained_size (ho_po ho) in
  let ho := mk_ho (ho_po ho) XQC_PTYPE_SHORT_HEADER (ho_pkt_num ho) (po_ppktno ho) (po_payload ho) in
  if dst_buf_size <? need then (Err XQC_ENOBUF, ho)
  else
    let c := w_byte (po_buf (ho_po ho), 0)
               (u8 (0x40 .| (spin_bit << 5) .| (reserved_bits << 3) .| (key_phase_bit << 2) .| bits)) in
    let c := w_bytes c (sub_bytes dcid 0 dcid_len) in
    let ppktno := 1 + dcid_len in
    let '(buf, n) := xqc_write_packet_number (fst c) ppktno packet_number bits in
    (Ok need, with_buf ho buf XQC_PTYPE_SHORT_HEADER ppktno (ppktno + n)).

Definition xqc_proto_version_field (ver : Z) : list Z :=
  match ver with
  | 0 => [0xFF; 0xFF; 0xFF; 0xFF]
  | 1 => [0x00; 0x00; 0x00; 0x01]
  | 2 => [0xFF; 0x00; 0x00; 0x1D]
  | _ => [0x00; 0x00; 0x00; 0x00]
  end.

Definition xqc_proto_version_value (ver : Z) : Z :=
  match ver with
  | 0 => 0xFFFFFFFF
  | 1 => 0x00000001
  | 2 => 0xFF00001D
  | _ => 0x00000000
  end.

Definition xqc_check_proto_version_valid (ver : Z) : bool :=
  (XQC_IDRAFT_INIT_VER <? ver) && (ver <? XQC_IDRAFT_VER_NEGOTIATION).

(** The two bytes of the Length field are left as they are; [xqc_long_packet_update_length]
    sets them. *)
Definition xqc_gen_long_packet_header (ho : hdr_out) (dcid : list Z) (dcid_len : Z)
    (scid : list Z) (scid_len : Z) (token : list Z) (token_len ver pktno_bits : Z)
    : res Z * hdr_out :=
  let type := ho_pkt_type ho in
  let need := xqc_long_packet_header_size dcid_len scid_len token_len pktno_bits type in
  if negb (xqc_check_proto_version_valid ver) then (Err XQC_EPROTO, ho)
  else if xqc_get_po_remained_size (ho_po ho) <? need then (Err XQC_ENOBUF, ho)
  else if scid_len <? 3 then (Err XQC_EILLPKT, ho)
  else
    let first_byte := u8 (0xC0 .| (type << 4) .| pktno_bits) in
    let c := w_byte (po_buf (ho_po ho), 0) first_byte in
    let c := w_bytes c (xqc_proto_version_field ver) in
    let c := w_byte c dcid_len in
    let c := w_bytes c (sub_bytes dcid 0 dcid_len) in
    let c := w_byte c scid_len in
    let c := w_bytes c (sub_bytes scid 0 scid_len) in
    let c := if type =? XQC_PTYPE_INIT
             then w_bytes (w_vint c token_len) (sub_bytes token 0 token_len) else c in
    let ppktno := snd c + XQC_LONG_HEADER_LENGTH_BYTE in
    let '(buf, n) := xqc_write_packet_number (fst c) ppktno (ho_pkt_num ho) pktno_bits in
    (Ok (ppktno + n), with_buf ho buf type ppktno (ppktno + n)).

Definition xqc_long_packet_update_length (ho : hdr_out) : hdr_out :=
  if (ho_pkt_type ho =? XQC_PTYPE_INIT) || (ho_pkt_type ho =? XQC_PTYPE_HSK)
     || (ho_pkt_type ho =? XQC_PTYPE_0RTT)
  then
    let plength := po_ppktno ho - XQC_LONG_HEADER_LENGTH_BYTE in
    let length := u32 (po_used_size (ho_po ho) - po_ppktno ho) in
    with_buf ho (xqc_vint_write (po_buf (ho_po ho)) plength length 0x01 2) (ho_pkt_type ho)
      (po_ppktno ho) (po_payload ho)
  else ho.

Definition xqc_short_packet_update_key_phase (ho : hdr_out) (key_phase : bool) : hdr_out :=
  if ho_pkt_type ho =? XQC_PTYPE_SHORT_HEADER then
    let buf := po_buf (ho_po ho) in
    let b := rd buf 0 .& (255 - (1 << 2)) in
    let b := b .| ((if key_phase then 0x01 else 0x00) << 2) in
    with_buf ho (wr buf 0 [b]) (ho_pkt_type ho) (po_ppktno ho) (po_payload ho)
  else ho.

(** ** Reading *)

Definition XQC_BUFF_LEFT_SIZE (pos last : Z) : Z := if pos <? last then last - pos else 0.

(** [memcpy(cid->cid_buf, buf + pos, len)] after [cid->cid_len = len]. *)
Definition read_cid (cid : xqc_cid_t) (buf : list Z) (pos len : Z) : xqc_cid_t :=
  mk_cid len (wr (cid_buf cid) 0 (sub_bytes buf pos len)) (cid_seq_num cid) (sr_token cid)
    (path_id cid).

Definition cid_with_len (cid : xqc_cid_t) (len : Z) : xqc_cid_t :=
  mk_cid len (cid_buf cid) (cid_seq_num cid) (sr_token cid) (path_id cid).

(** [*dcid] and [*scid] are the ones returned. *)
Definition xqc_packet_parse_cid (dcid scid : xqc_cid_t) (cid_len_ : Z) (buf : list Z) (size : Z)
    : res unit * xqc_cid_t * xqc_cid_t :=
  if size <=? 0 then (Err XQC_EPARAM, dcid, scid)
  else if (rd buf 0 .& 0x40 =? 0) && (rd buf 0 .& 0x80 =? 0) then (Err XQC_EILLPKT, dcid, scid)
  else if rd buf 0 .& 0xC0 =? 0x40 then
    if size <? 1 + cid_len_ then (Err XQC_EILLPKT, dcid, scid)
    else (Ok tt, xqc_cid_set dcid (sub_bytes buf 1 cid_len_) cid_len_, scid)
  else if size <? XQC_PACKET_LONG_HEADER_PREFIX_LENGTH + 2 then (Err XQC_EILLPKT, dcid, scid)
  else
    let pos := 1 + XQC_PACKET_VERSION_LENGTH in
    let dlen := rd buf pos in
    let dcid1 := cid_with_len dcid dlen in
    if XQC_MAX_CID_LEN <? dlen then (Err XQC_EILLPKT, dcid1, scid)
    else
      let pos := pos + 1 in
      if XQC_BUFF_LEFT_SIZE pos size <? dlen + 1 then (Err XQC_EILLPKT, dcid1, scid)
      else
        let dcid := read_cid dcid buf pos dlen in
        let pos := pos + dlen in
        let slen := rd buf pos in
        let scid1 := cid_with_len scid slen in
        if XQC_MAX_CID_LEN <? slen then (Err XQC_EILLPKT, dcid, scid1)
        else
          let pos := pos + 1 in
          if XQC_BUFF_LEFT_SIZE pos size <? slen then (Err XQC_EILLPKT, dcid, scid1)
          else (Ok tt, dcid, read_cid scid buf pos slen).

Definition hi_set_type (pi : hdr_in) (type pns : Z) : hdr_in :=
  mk_hi (hi_buf pi) (hi_buf_size pi) (hi_pos pi) (hi_last pi) (hi_datagram_size pi) type pns
    (hi_dcid pi) (hi_scid pi) (hi_length pi) (hi_pkt_num_offset pi) (hi_path_id pi).

Definition hi_set_dcid (pi : hdr_in) (dcid : xqc_cid_t) : hdr_in :=
  mk_hi (hi_buf pi) (hi_buf_size pi) (hi_pos pi) (hi_last pi) (hi_datagram_size pi) (hi_pkt_type pi)
    (hi_pkt_pns pi) dcid (hi_scid pi) (hi_length pi) (hi_pkt_num_offset pi) (hi_path_id pi).

Definition hi_set_scid (pi : hdr_in) (scid : xqc_cid_t) : hdr_in :=
  mk_hi (hi_buf pi) (hi_buf_size pi) (hi_pos pi) (hi_last pi) (hi_datagram_size pi) (hi_pkt_type pi)
    (hi_pkt_pns pi) (hi_dcid pi) scid (hi_length pi) (hi_pkt_num_offset pi) (hi_path_id pi).

Definition hi_set_path (pi : hdr_in) (pid : Z) : hdr_in :=
  mk_hi (hi_buf pi) (hi_buf_size pi) (hi_pos pi) (hi_last pi) (hi_datagram_size pi) (hi_pkt_type pi)
    (hi_pkt_pns pi) (hi_dcid pi) (hi_scid pi) (hi_length pi) (hi_pkt_num_offset pi) pid.

Definition hi_set_pos (pi : hdr_in) (pos : Z) : hdr_in :=
  mk_hi (hi_buf pi) (hi_buf_size pi) pos (hi_last pi) (hi_datagram_size pi) (hi_pkt_type pi)
    (hi_pkt_pns pi) (hi_dcid pi) (hi_scid pi) (hi_length pi) (hi_pkt_num_offset pi) (hi_path_id pi).

Definition hi_set_payload (pi : hdr_in) (last length offset : Z) : hdr_in :=
  mk_hi (hi_buf pi) (hi_buf_size pi) (hi_pos pi) last (hi_datagram_size pi) (hi_pkt_type pi)
    (hi_pkt_pns pi) (hi_dcid pi) (hi_scid pi) length offset (hi_path_id pi).

Definition hc_set_scid_set (c : hdr_conn) (cs : xqc_cid_set_t) : hdr_conn :=
  mk_hc (hc_type c) (hc_err c) cs (hc_dcid_set c) (hc_scid_len c) (hc_dcid_ok c) (hc_version c)
    (hc_support_versions c) (hc_version_negotiation c) (hc_token c) (hc_hs c).

Definition hc_set_err (c : hdr_conn) (err : Z) : hdr_conn :=
  mk_hc (hc_type c) (if hc_err c =? 0 then err else hc_err c) (hc_scid_set c) (hc_dcid_set c)
    (hc_scid_len c) (hc_dcid_ok c) (hc_version c) (hc_support_versions c)
    (hc_version_negotiation c) (hc_token c) (hc_hs c).

Definition hc_set_version (c : hdr_conn) (v : Z) (vn : bool) : hdr_conn :=
  mk_hc (hc_type c) (hc_err c) (hc_scid_set c) (hc_dcid_set c) (hc_scid_len c) (hc_dcid_ok c) v
    (hc_support_versions c) vn (hc_token c) (hc_hs c).

Definition hc_set_token (c : hdr_conn) (t : list Z) : hdr_conn :=
  mk_hc (hc_type c) (hc_err c) (hc_scid_set c) (hc_dcid_set c) (hc_scid_len c) (hc_dcid_ok c)
    (hc_version c) (hc_support_versions c) (hc_version_negotiation c) t (hc_hs c).

Definition hc_set_hs (c : hdr_conn) (hs : hs_state) : hdr_conn :=
  mk_hc (hc_type c) (hc_err c) (hc_scid_set c) (hc_dcid_set c) (hc_scid_len c) (hc_dcid_ok c)
    (hc_version c) (hc_support_versions c) (hc_version_negotiation c) (hc_token c) hs.

Definition is_server (t : xqc_conn_type_t) : bool :=
  match t with XQC_CONN_TYPE_SERVER => true | XQC_CONN_TYPE_CLIENT => false end.

(** [pkt_num_offset] is relative to [buf], which is offset 0 of [hi_buf]. *)
Definition xqc_packet_parse_short_header (c : hdr_conn) (pi : hdr_in)
    : res unit * hdr_in * hdr_conn :=
  let pos := hi_pos pi in
  let cid_len := hc_scid_len c in
  let pi := hi_set_type pi XQC_PTYPE_SHORT_HEADER XQC_PNS_APP_DATA in
  if XQC_BUFF_LEFT_SIZE pos (hi_last pi) <? 1 + cid_len then (Err XQC_EILLPKT, pi, c)
  else if rd (hi_buf pi) pos .& 0x40 =? 0 then (Err XQC_EILLPKT, pi, c)
  else
    let pos := pos + 1 in
    let dcid := xqc_cid_set (hi_dcid pi) (sub_bytes (hi_buf pi) pos cid_len) cid_len in
    let pos := pos + cid_len in
    let '(r, dcid, scid_set) := xqc_conn_check_dcid (hc_scid_set c) dcid in
    let pi := hi_set_dcid pi dcid in
    let c := hc_set_scid_set c scid_set in
    match r with
    | Err _ => (Err XQC_EILLPKT, pi, c)
    | Ok _ =>
        let pi := hi_set_path pi (path_id dcid) in
        (Ok tt, hi_set_payload pi (hi_last pi) (hi_last pi - pos) pos, c)
    end.

(** The Length field and what follows from it, the end of the parsers of the long header. *)
Definition parse_length (c : hdr_conn) (pi : hdr_in) (pos : Z) : res unit * hdr_in * hdr_conn :=
  let end_ := hi_last pi in
  match xqc_vint_read (hi_buf pi) pos end_ with
  | None => (Err XQC_EILLPKT, pi, c)
  | Some (length, size) =>
      if XQC_BUFF_LEFT_SIZE pos end_ <? u64 (size + length) then (Err XQC_EILLPKT, pi, c)
      else
        let pos := pos + size in
        let pi := hi_set_payload pi (pos + length) length pos in
        if end_ <? hi_last pi then (Err XQC_EILLPKT, pi, c) else (Ok tt, pi, c)
  end.

Definition xqc_packet_parse_initial (c : hdr_conn) (pi : hdr_in) : res unit * hdr_in * hdr_conn :=
  let pos := hi_pos pi in
  let end_ := hi_last pi in
  let pi := hi_set_type pi XQC_PTYPE_INIT XQC_PNS_INIT in
  if is_server (hc_type c) && (hi_datagram_size pi <? XQC_PACKET_INITIAL_MIN_LENGTH)
  then (Err XQC_EILLPKT, pi, hc_set_err c TRA_PROTOCOL_VIOLATION)
  else
    match xqc_vint_read (hi_buf pi) pos end_ with
    | None => (Err XQC_EILLPKT, pi, c)
    | Some (token_len, size) =>
        if XQC_BUFF_LEFT_SIZE pos end_ <? u64 (size + token_len) then (Err XQC_EILLPKT, pi, c)
        else
          let pos := pos + size in
          if XQC_MAX_TOKEN_LEN <? token_len then (Err XQC_EILLPKT, pi, c)
          else
            let c := if is_server (hc_type c)
                     then hc_set_token c (sub_bytes (hi_buf pi) pos token_len) else c in
            parse_length c pi (pos + token_len)
    end.

Definition xqc_packet_parse_zero_rtt (c : hdr_conn) (pi : hdr_in) : res unit * hdr_in * hdr_conn :=
  parse_length c (hi_set_type pi XQC_PTYPE_0RTT XQC_PNS_APP_DATA) (hi_pos pi).

Definition xqc_packet_parse_handshake (c : hdr_conn) (pi : hdr_in) : res unit * hdr_in * hdr_conn :=
  parse_length c (hi_set_type pi XQC_PTYPE_HSK XQC_PNS_HSK) (hi_pos pi).

Definition xqc_parse_uint32 (buf : list Z) (p : Z) : Z :=
  (rd buf p << 24) .| (rd buf (p + 1) << 16) .| (rd buf (p + 2) << 8) .| rd buf (p + 3).

(** The loop looks at the versions 1 and 2. *)
Definition xqc_conn_version_check (c : hdr_conn) (version : Z) : res unit * hdr_conn :=
  if is_server (hc_type c) && (hc_version c =? XQC_IDRAFT_INIT_VER) then
    if negb (existsb (Z.eqb version) (hc_support_versions c)) then (Err XQC_EPROTO, c)
    else
      match find (fun i => xqc_proto_version_value i =? version) [1; 2] with
      | Some i => (Ok tt, hc_set_version c i (hc_version_negotiation c))
      | None => (Err XQC_EPROTO, c)
      end
  else (Ok tt, c).

(** The check of both identifiers; each search that succeeds changes its argument. *)
Definition check_known_cids (c : hdr_conn) (pi : hdr_in) : bool * hdr_in :=
  match xqc_cid_set_search_cid (hc_scid_set c) (hi_dcid pi) with
  | None => (false, pi)
  | Some d =>
      let pi := hi_set_dcid pi (adopt (hi_dcid pi) d) in
      match xqc_cid_set_search_cid (hc_dcid_set c) (hi_scid pi) with
      | None => (false, pi)
      | Some s => (true, hi_set_scid pi (adopt (hi_scid pi) s))
      end
  end.

Definition handler : Type := hdr_conn -> hdr_in -> res unit * hdr_in * hdr_conn.

(** *** Retry *)

Definition RETRY_PSEUDO_PACKET_SIZE : Z := 3 * (1 + XQC_MAX_CID_LEN) + 1 + 4 + XQC_MAX_TOKEN_LEN.

Section retry.

(** [xqc_tls_cal_retry_integrity_tag], which the cryptographic library computes: the tag of a
    pseudo packet under a version. *)
Context (cal_tag : Z -> list Z -> option (list Z)).
(** Resetting the keys and the recovery state, and sending the Initial packet again. *)
Context (restart : hdr_conn -> res unit).

Definition xqc_conn_gen_retry_integrity_tag (version : Z) (odcid : list Z) (odcid_len : Z)
    (retry_buf : list Z) (retry_len : Z) : res (list Z) :=
  if RETRY_PSEUDO_PACKET_SIZE <? u32 (retry_len + odcid_len) then Err XQC_ERROR
  else
    match cal_tag version ([odcid_len] ++ sub_bytes odcid 0 odcid_len
                           ++ sub_bytes retry_buf 0 retry_len) with
    | None => Err XQC_ERROR
    | Some tag => if zlen tag =? XQC_RETRY_INTEGRITY_TAG_LEN then Ok tag else Err XQC_ERROR
    end.

(** The bytes of the packet; [None] where the tag cannot be computed. *)
Definition xqc_gen_retry_packet (version : Z) (dcid : list Z) (dcid_len : Z) (scid : list Z)
    (scid_len : Z) (odcid : list Z) (odcid_len : Z) (token : list Z) (token_len ver : Z) : option (list Z) :=
  let bs := [u8 (0xC0 .| (XQC_PTYPE_RETRY << 4))] ++ be_bytes 4 ver
            ++ [dcid_len] ++ sub_bytes dcid 0 dcid_len
            ++ [scid_len] ++ sub_bytes scid 0 scid_len ++ sub_bytes token 0 token_len in
  match xqc_conn_gen_retry_integrity_tag version odcid odcid_len bs (zlen bs) with
  | Err _ => None
  | Ok tag => Some (bs ++ tag)
  end.

Definition xqc_conn_on_recv_retry (c : hdr_conn) (retry_scid : xqc_cid_t) : res unit * hdr_conn :=
  let hs := hc_hs c in
  let c := hc_set_hs c
             (mk_hs (hs_conn_state hs) (hs_original_dcid hs) (hs_initial_scid hs)
                (xqc_cid_copy (hs_current_dcid hs) retry_scid)
                (xqc_cid_copy (hs_path_dcid hs) retry_scid)
                (xqc_cid_copy (hs_retry_scid hs) retry_scid) true (hs_init_recvd hs)) in
  (restart c, c).

Definition xqc_packet_parse_retry : handler := fun c pi =>
  let hs := hc_hs c in
  let pi := hi_set_type pi XQC_PTYPE_RETRY (hi_pkt_pns pi) in
  if is_server (hc_type c) then (Err XQC_EPROTO, pi, c)
  else if xqc_cid_is_equal (hs_original_dcid hs) (hi_scid pi) then (Err XQC_EILLPKT, pi, c)
  else if hs_retry_recvd hs || hs_init_recvd hs then (Ok tt, hi_set_pos pi (hi_last pi), c)
  else
    let pos := hi_pos pi in
    let end_ := hi_last pi in
    if XQC_BUFF_LEFT_SIZE pos end_ <? XQC_RETRY_INTEGRITY_TAG_LEN + 1 then (Err XQC_EILLPKT, pi, c)
    else
      let retry_token_len := u32 (XQC_BUFF_LEFT_SIZE pos end_ - XQC_RETRY_INTEGRITY_TAG_LEN) in
      if XQC_MAX_TOKEN_LEN <? retry_token_len then (Err XQC_EILLPKT, pi, c)
      else
        let c := hc_set_token c (sub_bytes (hi_buf pi) pos retry_token_len) in
        let pos := pos + retry_token_len in
        match xqc_conn_gen_retry_integrity_tag (hc_version c) (cid_buf (hs_original_dcid hs))
                (cid_len (hs_original_dcid hs)) (hi_buf pi)
                (u32 (hi_buf_size pi - XQC_RETRY_INTEGRITY_TAG_LEN)) with
        | Err _ => (Err XQC_EILLPKT, pi, c)
        | Ok tag =>
            if negb (bool_decide (tag = sub_bytes (hi_buf pi) pos XQC_RETRY_INTEGRITY_TAG_LEN))
            then (Ok tt, hi_set_pos pi (hi_last pi), c)
            else
              let pos := pos + XQC_RETRY_INTEGRITY_TAG_LEN in
              let pi := hi_set_payload pi pos (hi_length pi) (hi_pkt_num_offset pi) in
              if end_ <? pos then (Err XQC_EILLPKT, pi, c)
              else let '(r, c) := xqc_conn_on_recv_retry c (hi_scid pi) in (r, pi, c)
        end.

End retry.

(** *** Version Negotiation *)

(** The loop over the versions: each round takes four bytes, so the bytes left bound the
    rounds. [vs] are the versions found, in order. *)
Fixpoint vn_loop (n : nat) (buf : list Z) (pos end_ : Z) (vs : list Z) : list Z :=
  match n with
  | O => vs
  | S n' =>
      if XQC_BUFF_LEFT_SIZE pos end_ <? XQC_PACKET_VERSION_LENGTH then vs
      else
        let version := be_val (sub_bytes buf pos 4) in
        let vs := if (version =? 0) || existsb (Z.eqb version) vs || (256 <=? Z.of_nat (length vs))
                  then vs else vs ++ [version] in
        vn_loop n' buf (pos + XQC_PACKET_VERSION_LENGTH) end_ vs
  end.

Definition xqc_packet_parse_version_negotiation : handler := fun c pi =>
  let hs := hc_hs c in
  if negb (xqc_cid_is_equal (hs_original_dcid hs) (hi_scid pi)) then (Err XQC_EILLPKT, pi, c)
  else if negb (xqc_cid_is_equal (hs_initial_scid hs) (hi_dcid pi)) then (Err XQC_EILLPKT, pi, c)
  else
    let pos := hi_pos pi in
    let end_ := hi_last pi in
    let pi := hi_set_type pi XQC_PTYPE_VERSION_NEGOTIATION (hi_pkt_pns pi) in
    if XQC_BUFF_LEFT_SIZE pos end_ <? XQC_PACKET_VERSION_LENGTH then (Err XQC_EILLPKT, pi, c)
    else if negb (hs_conn_state hs =? XQC_CONN_STATE_CLIENT_INITIAL_SENT) then (Err XQC_ESTATE, pi, c)
    else if is_server (hc_type c) then (Err XQC_EPROTO, pi, c)
    else
      let vs := vn_loop (Z.to_nat (end_ - pos)) (hi_buf pi) pos end_ [] in
      let pi := hi_set_pos pi (hi_last pi) in
      let current := if hc_version c <? 4 then xqc_proto_version_value (hc_version c) else 0 in
      if existsb (Z.eqb current) vs then (Ok tt, pi, c)
      else
        (Err XQC_EVERSION_NEGOTIATION, pi,
         hc_set_hs (hc_set_err c TRA_VERSION_NEGOTIATION_ERROR)
           (mk_hs XQC_CONN_STATE_CLOSED (hs_original_dcid hs) (hs_initial_scid hs)
              (hs_current_dcid hs) (hs_path_dcid hs) (hs_retry_scid hs) (hs_retry_recvd hs)
              (hs_init_recvd hs))).

(** *** The long header *)

(** From the type of the packet on. *)
Definition parse_long_by_type (parse_retry : handler) (type : Z) : handler := fun c pi =>
  if type =? XQC_PTYPE_INIT then xqc_packet_parse_initial c pi
  else if type =? XQC_PTYPE_0RTT then xqc_packet_parse_zero_rtt c pi
  else if type =? XQC_PTYPE_HSK then xqc_packet_parse_handshake c pi
  else if type =? XQC_PTYPE_RETRY then parse_retry c pi
  else if type =? XQC_PTYPE_VERSION_NEGOTIATION then xqc_packet_parse_version_negotiation c pi
  else (Err XQC_EILLPKT, pi, c).

Definition parse_long_checked (parse_retry : handler) (type version : Z)
    : handler := fun c pi =>
  let '(known, pi) :=
    if negb (type =? XQC_PTYPE_INIT) && negb (type =? XQC_PTYPE_0RTT) && hc_dcid_ok c
    then check_known_cids c pi else (true, pi) in
  if negb known then (Err XQC_EILLPKT, pi, c)
  else
    match xqc_conn_version_check c version with
    | (Err _, c) =>
        (Err XQC_EVERSION, pi,
         if is_server (hc_type c) then hc_set_version c (hc_version c) true else c)
    | (Ok _, c) => parse_long_by_type parse_retry type c pi
    end.

(** The two identifiers: the position after them. *)
Definition parse_long_cids (pi : hdr_in) (pos : Z) : res Z * hdr_in :=
  let buf := hi_buf pi in
  let end_ := hi_last pi in
  let dlen := rd buf pos in
  let pos := pos + 1 in
  if (XQC_BUFF_LEFT_SIZE pos end_ <? dlen + 1) || (XQC_MAX_CID_LEN <? dlen)
  then (Err XQC_EILLPKT, hi_set_dcid pi (cid_with_len (hi_dcid pi) dlen))
  else
    let pi := hi_set_dcid pi (cid_with_path (read_cid (hi_dcid pi) buf pos dlen)
                                XQC_INITIAL_PATH_ID) in
    let pos := pos + dlen in
    let slen := rd buf pos in
    let pos := pos + 1 in
    if (XQC_BUFF_LEFT_SIZE pos end_ <? slen) || (XQC_MAX_CID_LEN <? slen)
    then (Err XQC_EILLPKT, hi_set_scid pi (cid_with_len (hi_scid pi) slen))
    else
      let pi := hi_set_scid pi (cid_with_path (read_cid (hi_scid pi) buf pos slen)
                                  XQC_INITIAL_PATH_ID) in
      (Ok (pos + slen), pi).

Definition xqc_packet_parse_long_header (cal_tag : Z -> list Z -> option (list Z))
    (restart : hdr_conn -> res unit) : handler := fun c pi =>
  let pos := hi_pos pi in
  let end_ := hi_last pi in
  let buf := hi_buf pi in
  let pi := hi_set_path pi XQC_INITIAL_PATH_ID in
  if XQC_BUFF_LEFT_SIZE pos end_ <? XQC_PACKET_LONG_HEADER_PREFIX_LENGTH + 2
  then (Err XQC_EILLPKT, pi, c)
  else
    let fixed_bit := rd buf pos .& 0x40 in
    let type := (rd buf pos .& 0x30) >> 4 in
    let pos := pos + 1 in
    let version := xqc_parse_uint32 buf pos in
    if (version =? 0) && is_server (hc_type c) then (Err XQC_EILLPKT, pi, c)
    else
      let type := if version =? 0 then XQC_PTYPE_VERSION_NEGOTIATION else type in
      let pos := pos + XQC_PACKET_VERSION_LENGTH in
      if negb (type =? XQC_PTYPE_VERSION_NEGOTIATION) && (fixed_bit =? 0)
      then (Err XQC_EILLPKT, pi, c)
      else
        match parse_long_cids pi pos with
        | (Err e, pi) => (Err e, pi, c)
        | (Ok pos, pi) =>
            parse_long_checked (xqc_packet_parse_retry cal_tag restart) type version c
              (hi_set_pos pi pos)
        end.

End PktHeader.
