(* ===== verification/FrameLoop.v ===== *)
(** The receive loop over the frames of a packet: [xqc_process_frames] of
    [src/transport/xqc_frame.c], with its guards, its dispatch on every frame type, and each
    handler up to the end of its parsing.

    What the handlers do after parsing, and [xqc_conn_immediate_close], are arguments of the
    loop: the theorems hold whatever they do. The two frame types of XQC_ENABLE_FEC and the
    check of XQC_PING_ATTACK_PROTECT, both off by default, are left out. *)

From stdpp Require Import base numbers list.
From S2P Require Import Prelude VInt RecvRecord PacketBuf Frames FrameSpec AckFrame StreamFrame MpFrames PktHeader.
Import RecvRecord.RecvRecord.
Import Frames FrameSpec AckFrame StreamFrame MpFrames.

Module FrameLoop.

Definition XQC_PTYPE_INIT : Z := PktHeader.XQC_PTYPE_INIT.
Definition XQC_PTYPE_0RTT : Z := PktHeader.XQC_PTYPE_0RTT.
Definition XQC_PTYPE_HSK : Z := PktHeader.XQC_PTYPE_HSK.
Definition XQC_PTYPE_SHORT_HEADER : Z := PktHeader.XQC_PTYPE_SHORT_HEADER.
Definition XQC_MAX_TOKEN_LEN : Z := PktHeader.XQC_MAX_TOKEN_LEN.

Definition XQC_ESYS : Z := 609.
Definition XQC_EACK_EXT_ABN_VAL : Z := 690.
Definition XQC_TRANS_FRAME_TYPE_ACK_EXT : Z := 0xB1.
Definition XQC_ACK_EXT_FEATURE_BIT_RECV_TS : Z := 2.
Definition XQC_RECV_TIMESTAMPS_INFO_MAX_LENGTH : Z := 64.
Definition XQC_CONN_STATE_CLOSING : Z := 11.
Definition XQC_CONN_STATE_DRAINING : Z := 12.

(** What the loop reads beside the packet and the connection: the type of the packet, settings,
    the results of the allocations of the frame at a position, and what the uninitialised
    [largest_acked] of the multipath handler holds. *)
Record recv_cfg := mk_rcfg {
  pkt_type : Z;
  enable_multipath : bool;
  reset_stream_at : bool;
  receive_timestamps_exponent : Z;
  max_receive_timestamps_per_ack : Z;
  conn_create_time : Z;
  calloc_ok : Z -> bool;
  malloc_ok : Z -> bool;
  old_largest : Z;
}.

(** ** ACK_EXTENDED *)

(** [xqc_ack_timestamp_info_t]: the packet numbers and times reported so far. *)
Definition ts_info : Type := list (Z * Z).

Definition XQC_USEC_BASE (g : recv_cfg) : Z := conn_create_time g / 1000.

(** One report: [first_range] and [first_pkt] are the two flags of the loops. *)
Definition ts_report (g : recv_cfg) (largest_acked gap delta : Z) (first_range first_pkt : bool)
    (l : ts_info) : ts_info :=
  let d := u64 (delta << receive_timestamps_exponent g) in
  let '(n, t) := List.last l (0, 0) in
  l ++ [if first_pkt then
          if first_range then (u64 (largest_acked - gap), u64 (d + XQC_USEC_BASE g))
          else (u64 (n - gap), u64 (t - d))
        else (u64 (n - 1), u64 (t - d))].

(** The inner loop: [n] packets of the range are left. *)
Fixpoint ts_packets (g : recv_cfg) (largest_acked gap : Z) (n : nat)
    (first_range first_pkt : bool) (l : ts_info) : parser ts_info :=
  match n with
  | O => mret l
  | S n' =>
      delta ← p_vint;
      let l := ts_report g largest_acked gap delta first_range first_pkt l in
      p_check (max_receive_timestamps_per_ack g <? Z.of_nat (List.length l)) XQC_EACK_EXT_ABN_VAL;;
      ts_packets g largest_acked gap n' false false l
  end.

(** The outer loop: [n] ranges are left. *)
Fixpoint ts_ranges (g : recv_cfg) (largest_acked : Z) (n : nat) (first_range : bool)
    (l : ts_info) : parser ts_info :=
  match n with
  | O => mret l
  | S n' =>
      gap ← p_vint;
      len ← p_vint;
      p_check (XQC_RECV_TIMESTAMPS_INFO_MAX_LENGTH <=? len) XQC_EACK_EXT_ABN_VAL;;
      p_check (len =? 0) XQC_EIGNORE_PKT;;
      l ← ts_packets g largest_acked gap (Z.to_nat len) first_range true l;
      ts_ranges g largest_acked n' false l
  end.

Definition xqc_parse_timestamps_in_ack_ext (g : recv_cfg) (largest_acked : Z)
    : parser ts_info :=
  count ← p_vint;
  p_check (XQC_RECV_TIMESTAMPS_INFO_MAX_LENGTH <=? count) XQC_EACK_EXT_ABN_VAL;;
  l ← ts_ranges g largest_acked (Z.to_nat count) true [];
  p_set_pos;;
  mret l.

Definition xqc_parse_ack_ext_frame (g : recv_cfg) : parser (xqc_ack_info_t * ts_info) :=
  ack ← xqc_parse_ack_frame;
  feature ← p_vint;
  p_set_pos;;
  if feature .& XQC_ACK_EXT_FEATURE_BIT_RECV_TS =? 0 then mret (ack, [])
  else l ← xqc_parse_timestamps_in_ack_ext g (largest_acked ack); mret (ack, l).

(** ** The handlers, up to the end of their parsing *)

(** What a handler has parsed. *)
Inductive recv_frame :=
| RF_padding
| RF_control (f : frame)
| RF_ack (ack : xqc_ack_info_t)
| RF_ack_ext (ack : xqc_ack_info_t) (ts : ts_info)
| RF_crypto (f : xqc_stream_frame_t)
| RF_stream (f : xqc_stream_frame_t) (stream_id : Z)
| RF_close (err_code : Z)
| RF_datagram (offset length : Z)
| RF_mp (r : mp_recv).

(** [if (ret is one of these) XQC_CONN_ERR(conn, err); return ret]. *)
Definition p_on_error {A} (sel : Z -> bool) (err : Z) (m : parser A) : parser A := fun s =>
  match m s with
  | (Err e, s') =>
      (Err e, if sel e then mk_ps (ps_in s') (ps_p s') (XQC_CONN_ERR (ps_conn s') err) else s')
  | r => r
  end.

Definition p_pos : parser Z := fun s => (Ok (pi_pos (ps_in s)), s).

Definition p_padding : parser unit := fun s =>
  let pi := xqc_parse_padding_frame (ps_in s) in (Ok tt, mk_ps pi (pi_pos pi) (ps_conn s)).

Definition is_server (c : xqc_connection_t) : bool :=
  match conn_type c with XQC_CONN_TYPE_SERVER => true | _ => false end.

Definition is_control (t : Z) : bool :=
  existsb (Z.eqb t) [0x01; 0x04; 0x24; 0x05; 0x07; 0x10; 0x11; 0x12; 0x13; 0x14; 0x15; 0x16;
                     0x17; 0x18; 0x19; 0x1a; 0x1b; 0x1e].

(** The checks of NEW_TOKEN, HANDSHAKE_DONE and RESET_STREAM_AT come before the parser; a
    malformed RESET_STREAM_AT closes the connection. *)
Definition process_control (g : recv_cfg) (t : Z) : parser frame :=
  conn ← p_conn;
  p_check ((t =? 0x07) && is_server conn) XQC_EPROTO;;
  p_check_conn ((t =? 0x1e) && is_server conn) TRA_PROTOCOL_VIOLATION XQC_EPROTO;;
  p_check_conn ((t =? 0x24)
                && (negb (reset_stream_at g)
                    || (negb (pkt_type g =? XQC_PTYPE_SHORT_HEADER)
                        && negb (pkt_type g =? XQC_PTYPE_0RTT))))
    TRA_PROTOCOL_VIOLATION XQC_EPROTO;;
  p_on_error (fun _ => t =? 0x24) TRA_FRAME_ENCODING_ERROR (parse_control XQC_MAX_TOKEN_LEN t).

(** The flag INIT_RECVD that the handler also sets is left out. *)
Definition process_crypto (g : recv_cfg) : parser xqc_stream_frame_t :=
  p_check_conn (pkt_type g =? XQC_PTYPE_0RTT) TRA_PROTOCOL_VIOLATION XQC_EPROTO;;
  p_frame_type XQC_FRAME_BIT_CRYPTO;;
  pos ← p_pos;
  p_check (negb (calloc_ok g pos)) XQC_EMALLOC;;
  xqc_parse_crypto_frame (malloc_ok g pos).

Definition process_stream (g : recv_cfg) : parser (xqc_stream_frame_t * Z) :=
  p_check_conn ((pkt_type g =? XQC_PTYPE_INIT) || (pkt_type g =? XQC_PTYPE_HSK))
    TRA_PROTOCOL_VIOLATION XQC_EPROTO;;
  pos ← p_pos;
  p_check (negb (calloc_ok g pos)) XQC_EMALLOC;;
  xqc_parse_stream_frame (malloc_ok g pos).

(** [packet_in->pos[0] == 0x1d]. *)
Definition p_first_byte : parser Z := fun s => (Ok (rd (pi_buf (ps_in s)) (ps_p s)), s).

Definition process_conn_close (g : recv_cfg) : parser Z :=
  b ← p_first_byte;
  p_check_conn ((b =? 0x1d) && ((pkt_type g =? XQC_PTYPE_INIT) || (pkt_type g =? XQC_PTYPE_HSK)))
    TRA_PROTOCOL_VIOLATION XQC_EPROTO;;
  xqc_parse_conn_close_frame.

Definition process_datagram (g : recv_cfg) : parser (Z * Z) :=
  p_check_conn (negb (pkt_type g =? XQC_PTYPE_0RTT) && negb (pkt_type g =? XQC_PTYPE_SHORT_HEADER))
    TRA_PROTOCOL_VIOLATION XQC_EPROTO;;
  conn ← p_conn;
  p_check_conn (max_datagram_frame_size conn =? 0) TRA_PROTOCOL_VIOLATION XQC_EPROTO;;
  p_on_error (Z.eqb XQC_EPROTO) TRA_PROTOCOL_VIOLATION xqc_parse_datagram_frame.

(** A bad length of a connection ID in MP_NEW_CONNECTION_ID closes the connection. *)
Definition process_mp (g : recv_cfg) (t : Z) : parser mp_recv :=
  p_on_error (fun e => (e =? XQC_EPROTO)
                       && ((t =? XQC_TRANS_FRAME_TYPE_MP_NEW_CONN_ID)
                           || (t =? XQC_TRANS_FRAME_TYPE_PATH_NEW_CONNECTION_ID_V21)))
    TRA_FRAME_ENCODING_ERROR (mp_parse_by_type (old_largest g) (enable_multipath g) t).

(** The [switch] on the frame type. *)
Definition process_by_type (g : recv_cfg) (t : Z) : parser recv_frame :=
  if t =? 0x00 then p_padding;; mret RF_padding
  else if is_control t then f ← process_control g t; mret (RF_control f)
  else if (t =? 0x02) || (t =? 0x03) then a ← xqc_parse_ack_frame; mret (RF_ack a)
  else if t =? 0x06 then f ← process_crypto g; mret (RF_crypto f)
  else if (0x08 <=? t) && (t <=? 0x0f)
  then '(f, s) ← process_stream g; mret (RF_stream f s)
  else if (t =? 0x1c) || (t =? 0x1d) then e ← process_conn_close g; mret (RF_close e)
  else if (t =? 0x30) || (t =? 0x31)
  then '(o, n) ← process_datagram g; mret (RF_datagram o n)
  else if t =? XQC_TRANS_FRAME_TYPE_ACK_EXT
  then '(a, l) ← xqc_parse_ack_ext_frame g; mret (RF_ack_ext a l)
  else if xqc_frame_is_mp t then r ← process_mp g t; mret (RF_mp r)
  else p_fail XQC_EIGNORE_PKT.

Definition process_frame (g : recv_cfg) : parser recv_frame :=
  p_peek_type ≫= process_by_type g.

(** ** The loop *)

Section Loop.

(** [T] is the rest of the connection: its state, the reply to a packet while it closes, and
    the handlers after their parsing. *)
Context {T : Type} (conn_state : T -> Z)
  (xqc_conn_immediate_close : xqc_connection_t -> T -> xqc_connection_t * T)
  (handle : recv_frame -> xqc_connection_t -> T -> res unit * xqc_connection_t * T).

Definition loop_result : Type := res unit * xqc_packet_in_t * xqc_connection_t * T.

Definition pi_set_pos (pi : xqc_packet_in_t) (pos : Z) : xqc_packet_in_t :=
  mk_pi (pi_buf pi) pos (pi_last pi) (pi_frame_types pi) (pi_pkt_pns pi).

(** While the connection closes, only these are looked at. *)
Definition closing_skips (frame_type : Z) : bool :=
  negb (existsb (Z.eqb frame_type)
          [0x1c; 0x1d; XQC_TRANS_FRAME_TYPE_MP_ACK0; XQC_TRANS_FRAME_TYPE_MP_ACK1]).

(** One round: [inl] goes on, [inr] returns. *)
Definition process_round (g : recv_cfg) (pi : xqc_packet_in_t) (c : xqc_connection_t) (t : T)
    : xqc_packet_in_t * xqc_connection_t * T + loop_result :=
  match xqc_vint_read (pi_buf pi) (pi_pos pi) (pi_last pi) with
  | None => inr (Err XQC_EVINTREAD, pi, c, t)
  | Some (frame_type, _) =>
      if (conn_state t =? XQC_CONN_STATE_CLOSING) && closing_skips frame_type then
        let '(c, t) := xqc_conn_immediate_close c t in
        inr (Ok tt, pi_set_pos pi (pi_last pi), c, t)
      else if XQC_CONN_STATE_DRAINING <=? conn_state t
      then inr (Ok tt, pi_set_pos pi (pi_last pi), c, t)
      else if xqc_frame_is_mp frame_type && negb (pkt_type g =? XQC_PTYPE_SHORT_HEADER)
      then inr (Err XQC_EILLEGAL_FRAME, pi, XQC_CONN_ERR c TRA_PROTOCOL_VIOLATION, t)
      else
        match run (process_by_type g frame_type) pi c with
        | (Err e, pi', c) => inr (Err e, pi', c, t)
        | (Ok f, pi', c) =>
            match handle f c t with
            | (Err e, c, t) => inr (Err e, pi', c, t)
            | (Ok _, c, t) =>
                if pi_pos pi' =? pi_pos pi then inr (Err XQC_ESYS, pi', c, t)
                else inl (pi', c, t)
            end
        end
  end.

(** After the loop: a packet without frames is an error. *)
Definition process_end (pi : xqc_packet_in_t) (c : xqc_connection_t) (t : T) : loop_result :=
  (Ok tt, pi,
   if pi_frame_types pi =? 0 then XQC_CONN_ERR c TRA_PROTOCOL_VIOLATION else c, t).

(** [None]: out of fuel. *)
Fixpoint xqc_process_frames (fuel : nat) (g : recv_cfg) (pi : xqc_packet_in_t)
    (c : xqc_connection_t) (t : T) : option loop_result :=
  if pi_pos pi <? pi_last pi then
    match fuel with
    | O => None
    | S fuel' =>
        match process_round g pi c t with
        | inr r => Some r
        | inl (pi, c, t) => xqc_process_frames fuel' g pi c t
        end
    end
  else Some (process_end pi c t).

End Loop.

(** ** The parsers stay inside the packet *)

Lemma local_bind {A B} (m : parser A) (k : A -> parser B) s :
  local_at m s -> (forall a s', m s = (Ok a, s') -> local_at (k a) s') -> local_at (m ≫= k) s.
Proof.
  intros [Hb Hl Hp Hpos Ha] Hk. unfold mbind, parser_bind in *.
  destruct (m s) as [[a|e] s'] eqn:E; simpl in *.
  - destruct (Hk a s' eq_refl) as [Hb' Hl' Hp' Hpos' Ha']. rewrite Hl in *. split.
    + rewrite E. congruence.
    + rewrite E. congruence.
    + rewrite E. lia.
    + rewrite E. destruct Hpos' as [Hq|Hq]; [rewrite Hq; destruct Hpos; [by left|right; lia]|].
      right. lia.
    + intros b2 Hz Hag. rewrite E, (Ha b2 Hz Hag). simpl. apply Ha'; [done|].
      rewrite Hb. eapply agree_mono; [exact Hag|lia].
  - split; rewrite ?E; simpl; try done. intros b2 Hz Hag. by rewrite (Ha b2 Hz Hag).
Qed.

(** A parser that only looks at, or changes, what is not the buffer. *)
Lemma local_same {A} (m : parser A) s :
  ps_ok s -> ps_p (snd (m s)) = ps_p s -> pi_buf (ps_in (snd (m s))) = pi_buf (ps_in s) ->
  pi_last (ps_in (snd (m s))) = pi_last (ps_in s) ->
  pi_pos (ps_in (snd (m s))) = pi_pos (ps_in s) \/ pi_pos (ps_in (snd (m s))) = ps_p s ->
  (forall b2, m (ps_set_buf s b2) = (fst (m s), ps_set_buf (snd (m s)) b2)) -> local_at m s.
Proof.
  unfold ps_ok. intros Hok Hp Hb Hl Hpos Ha. split; try done; [lia|].
  destruct Hpos as [Hpos|Hpos]; [by left|right; lia].
Qed.

Lemma local_mret_at {A} (a : A) s : ps_ok s -> local_at (mret a) s.
Proof. intros Hok. by apply local_same; [|..|left|]. Qed.

Lemma local_set_pos s : ps_ok s -> local_at p_set_pos s.
Proof. intros Hok. by apply local_same; [|..|right|]. Qed.

Lemma local_vint_at s : ps_ok s -> bytes_ok (pi_buf (ps_in s)) -> local_at p_vint s.
Proof.
  intros Hok Hb. pose proof (local_vint mret s Hok Hb) as Hl.
  assert (forall t, (p_vint ≫= mret) t = p_vint t) as E.
  { intros t. unfold mbind, parser_bind. by destruct (p_vint t) as [[]]. }
  destruct Hl as [H1 H2 H3 H4 H5].
  { intros v n _ Hn Hle. apply local_mret_at. unfold ps_ok in *. simpl. lia. }
  split; rewrite <- ?E; try done. intros b2 Hz Ha. rewrite <- !E. by apply H5.
Qed.

Lemma local_further {A} (m : parser A) s r s' :
  local_at m s -> ps_ok s -> bytes_ok (pi_buf (ps_in s)) -> m s = (r, s') ->
  ps_ok s' /\ bytes_ok (pi_buf (ps_in s')).
Proof.
  intros [Hb Hl Hp _ _] Hok Hbs E. rewrite E in *. simpl in *. unfold ps_ok in *.
  rewrite Hl, Hb. split; [lia|done].
Qed.

(** The result of the first parser does not matter to the second. *)
Lemma local_then {A B} (m : parser A) (k : A -> parser B) s :
  ps_ok s -> bytes_ok (pi_buf (ps_in s)) -> local_at m s ->
  (forall a s', ps_ok s' -> bytes_ok (pi_buf (ps_in s')) -> local_at (k a) s') ->
  local_at (m ≫= k) s.
Proof.
  intros Hok Hb Hm Hk. apply local_bind; [done|]. intros a s' E.
  destruct (local_further _ _ _ _ Hm Hok Hb E). by apply Hk.
Qed.

Lemma local_on_error {A} sel err (m : parser A) s : local_at m s -> local_at (p_on_error sel err m) s.
Proof.
  intros [Hb Hl Hp Hpos Ha]. unfold p_on_error.
  split; try (destruct (m s) as [[a|e] s'] eqn:E; simpl in *; by try case_match).
  intros b2 Hz Hag. rewrite (Ha b2 Hz Hag).
  destruct (m s) as [[a|e] s'] eqn:E; simpl; [done|]. by case_match.
Qed.

Lemma local_ack_loop fuel : forall count prev rs s,
  ps_ok s -> bytes_ok (pi_buf (ps_in s)) -> local_at (parse_ack_loop fuel count prev rs) s.
Proof.
  induction fuel as [|fuel IH]; intros count prev rs s Hok Hb; cbn [parse_ack_loop];
    (case_if; [by apply local_mret_at|]); [by apply local_p_fail|].
  local_tac. apply IH; [|done]. unfold ps_ok in *. simpl. lia.
Qed.

Lemma local_ack_mp_loop fuel : forall count rs s,
  ps_ok s -> bytes_ok (pi_buf (ps_in s)) -> local_at (parse_ack_mp_loop fuel count rs) s.
Proof.
  induction fuel as [|fuel IH]; intros count rs s Hok Hb; cbn [parse_ack_mp_loop];
    (case_if; [by apply local_mret_at|]); [by apply local_p_fail|].
  local_tac. apply IH; [|done]. unfold ps_ok in *. simpl. lia.
Qed.

Lemma local_ack s :
  ps_ok s -> bytes_ok (pi_buf (ps_in s)) -> local_at xqc_parse_ack_frame s.
Proof.
  intros Hok Hb. unfold xqc_parse_ack_frame, parse_ack_fields. local_tac.
  apply local_then; [by local_side|done|apply local_ack_loop; [by local_side|done]|].
  intros rs s' Hok' Hb'. destruct (_ =? 0x03); local_tac.
Qed.

Lemma local_ack_mp old s :
  ps_ok s -> bytes_ok (pi_buf (ps_in s)) -> local_at (xqc_parse_ack_mp_frame old) s.
Proof.
  intros Hok Hb. unfold xqc_parse_ack_mp_frame, parse_ack_mp_fields. local_tac.
  apply local_then; [by local_side|done|apply local_ack_mp_loop; [by local_side|done]|].
  intros rs s' Hok' Hb'. local_tac.
Qed.

Lemma local_ack_ecn old s :
  ps_ok s -> bytes_ok (pi_buf (ps_in s)) -> local_at (xqc_parse_path_ack_ecn_frame old) s.
Proof.
  intros Hok Hb. unfold xqc_parse_path_ack_ecn_frame.
  apply local_then; [done|done|by apply local_ack_mp|]. intros r s' Hok' Hb'. local_tac.
  apply local_then; [by local_side|done|apply local_set_pos; by local_side|].
  intros. by apply local_mret_at.
Qed.

Lemma local_ts_packets g la gap n : forall fr fp l s,
  ps_ok s -> bytes_ok (pi_buf (ps_in s)) -> local_at (ts_packets g la gap n fr fp l) s.
Proof.
  induction n as [|n IH]; intros fr fp l s Hok Hb; cbn [ts_packets]; [by apply local_mret_at|].
  local_tac. apply IH; [|done]. unfold ps_ok in *. simpl. lia.
Qed.

Lemma local_ts_ranges g la n : forall fr l s,
  ps_ok s -> bytes_ok (pi_buf (ps_in s)) -> local_at (ts_ranges g la n fr l) s.
Proof.
  induction n as [|n IH]; intros fr l s Hok Hb; cbn [ts_ranges]; [by apply local_mret_at|].
  local_tac. apply local_then; [by local_side|done|apply local_ts_packets; [by local_side|done]|].
  intros. by apply IH.
Qed.

Lemma local_ack_ext g s :
  ps_ok s -> bytes_ok (pi_buf (ps_in s)) -> local_at (xqc_parse_ack_ext_frame g) s.
Proof.
  intros Hok Hb. unfold xqc_parse_ack_ext_frame.
  apply local_then; [done|done|by apply local_ack|]. intros ack s1 Hok1 Hb1.
  apply local_then; [done|done|by apply local_vint_at|]. intros feature s2 Hok2 Hb2.
  apply local_then; [done|done|by apply local_set_pos|]. intros _ s3 Hok3 Hb3.
  case_if; [by apply local_mret_at|].
  apply local_then; [done|done| |intros; by apply local_mret_at].
  unfold xqc_parse_timestamps_in_ack_ext. local_tac.
  apply local_then; [by local_side|done|apply local_ts_ranges; [by local_side|done]|].
  intros l s4 Hok4 Hb4. apply local_then; [done|done|by apply local_set_pos|].
  intros. by apply local_mret_at.
Qed.

(** [p_tail] of a parser whose conditional parts come first in a bind. *)
Ltac local_if_tac :=
  match goal with
  | |- local_at ((if ?b then _ else _) ≫= _) _ => destruct b eqn:?
  | |- local_at ((fun s => (Ok (ps_p s), s)) ≫= _) _ =>
      eapply local_pure; [|reflexivity|reflexivity|]
  | _ => local_step_tac
  end.
Ltac local_all := repeat (local_if_tac; local_side).

Lemma local_stream b s :
  ps_ok s -> bytes_ok (pi_buf (ps_in s)) -> ps_p s < pi_last (ps_in s) ->
  local_at (xqc_parse_stream_frame b) s.
Proof. intros Hok Hb Hlt. unfold xqc_parse_stream_frame. local_all. Qed.

Lemma local_datagram s :
  ps_ok s -> bytes_ok (pi_buf (ps_in s)) -> ps_p s < pi_last (ps_in s) ->
  local_at xqc_parse_datagram_frame s.
Proof. intros Hok Hb Hlt. unfold xqc_parse_datagram_frame. local_all. Qed.

Lemma local_crypto b s :
  ps_ok s -> bytes_ok (pi_buf (ps_in s)) -> ps_p s < pi_last (ps_in s) ->
  local_at (xqc_parse_crypto_frame b) s.
Proof. intros Hok Hb Hlt. unfold xqc_parse_crypto_frame. local_all. Qed.

Lemma local_commit_at bit s : ps_ok s -> local_at (p_commit bit) s.
Proof. intros Hok. by apply local_same; [|..|right|]. Qed.

Lemma local_conn_close s :
  ps_ok s -> bytes_ok (pi_buf (ps_in s)) -> ps_p s < pi_last (ps_in s) ->
  local_at xqc_parse_conn_close_frame s.
Proof.
  intros Hok Hb Hlt. unfold xqc_parse_conn_close_frame. local_all.
  all: apply local_then; [by local_side|done|apply local_commit_at; by local_side|].
  all: intros _ s' Hok' Hb'; by apply local_same; [|..|left|].
Qed.

Lemma local_mp_parse old v h s :
  ps_ok s -> bytes_ok (pi_buf (ps_in s)) -> (h = H_path_abandon -> v = XQC_MULTIPATH_3E) ->
  local_at (mp_parse old v h) s.
Proof.
  intros Hok Hb Hv. destruct h; cbn [mp_parse]; apply local_wrap;
    try (intros; repeat case_match; eexists; reflexivity).
  - by apply local_ack_mp.
  - by apply local_ack_ecn.
  - unfold xqc_parse_path_abandon_frame. rewrite Hv by done. cbn [Z.eqb Pos.eqb XQC_MULTIPATH_3E].
    local_all.
  - unfold xqc_parse_path_status_frame. local_all. destruct (path_status_of _) as [[st bit]|].
    + local_all.
    + apply local_then; [by local_side|done|apply local_set_pos; by local_side|].
      intros. by apply local_p_fail.
  - unfold xqc_parse_mp_new_conn_id_frame, p_cid, XQC_STATELESS_RESET_TOKENLEN. local_all.
  - unfold xqc_parse_mp_retire_conn_id_frame. local_all.
  - unfold xqc_parse_max_path_id_frame. local_all.
  - unfold xqc_parse_paths_blocked_frame. local_all.
  - unfold xqc_parse_path_cids_blocked_frame. local_all.
Qed.

(** Only two code points lead to PATH_ABANDON, one for each version. *)
Lemma dispatch_abandon mp v t :
  xqc_dispatch_mp_frame mp v t = Ok H_path_abandon ->
  v = XQC_MULTIPATH_3E \/ t = XQC_TRANS_FRAME_TYPE_MP_ABANDON.
Proof.
  unfold xqc_dispatch_mp_frame. destruct (negb mp); [done|].
  destruct (find _ _) as [[[t' v'] h]|] eqn:E; [|done]. intros [= ->].
  apply find_some in E as [Hin Hb]. apply andb_true_iff in Hb as [Ht Hv]. zify_bools. subst t' v'.
  repeat (destruct Hin as [Hin|Hin]; [simplify_eq; auto|]). done.
Qed.

Lemma local_process_mp g t s :
  ps_ok s -> bytes_ok (pi_buf (ps_in s)) -> t <> XQC_TRANS_FRAME_TYPE_MP_ABANDON ->
  local_at (process_mp g t) s.
Proof.
  intros Hok Hb Ht. apply local_on_error. unfold mp_parse_by_type. apply local_conn; [done|].
  case_if; [case_if; [by apply local_p_fail|by apply local_mp_parse]|].
  destruct (xqc_dispatch_mp_frame _ _ _) as [h|e] eqn:Ed; [|by apply local_p_fail].
  apply local_mp_parse; [done|done|]. intros ->. by apply dispatch_abandon in Ed as [?|?].
Qed.

Lemma local_padding s :
  ps_ok s -> pi_pos (ps_in s) = ps_p s -> ps_p s < pi_last (ps_in s) -> local_at p_padding s.
Proof.
  intros Hok Hp Hlt.
  assert (forall b2 n pos, ps_p s <= pos -> agree (pi_buf (ps_in s)) b2 (ps_p s) (pi_last (ps_in s)) ->
    padding_skip b2 pos (pi_last (ps_in s)) n
    = padding_skip (pi_buf (ps_in s)) pos (pi_last (ps_in s)) n) as Hag.
  { intros b2 n. induction n as [|n IH]; intros pos Hpos Ha; [done|]. cbn [padding_skip].
    destruct (pos <? pi_last (ps_in s)) eqn:E; [|done]. zify_bools.
    rewrite (Ha pos) by lia. case_if; [apply IH; [lia|done]|done]. }
  assert (forall n pos, pos <= pi_last (ps_in s) ->
    pos <= padding_skip (pi_buf (ps_in s)) pos (pi_last (ps_in s)) n <= pi_last (ps_in s)) as Hr.
  { intros n. induction n as [|n IH]; intros pos Hpos; cbn [padding_skip]; [lia|].
    destruct (pos <? pi_last (ps_in s)) eqn:E; [|simpl; lia]. zify_bools.
    case_if; [|lia]. specialize (IH (pos + 1) ltac:(lia)). lia. }
  specialize (Hr (Z.to_nat (pi_last (ps_in s) - (pi_pos (ps_in s) + 1))) (pi_pos (ps_in s) + 1)).
  unfold ps_ok in Hok. split; simpl; try done; [lia|right; lia|].
  intros b2 Hz Ha. unfold p_padding, xqc_parse_padding_frame, ps_set_buf. simpl.
  by rewrite (Hag b2) by (done || lia).
Qed.

Lemma local_process_control g t s :
  ps_ok s -> bytes_ok (pi_buf (ps_in s)) -> ps_p s < pi_last (ps_in s) ->
  local_at (process_control g t) s.
Proof.
  intros Hok Hb Hlt. unfold process_control. apply local_conn; [done|].
  apply local_check; [done|intros _]. apply local_check_conn; [done|intros _].
  apply local_check_conn; [done|intros _]. by apply local_on_error, parse_control_local.
Qed.

Lemma local_process_by_type g t s :
  ps_ok s -> bytes_ok (pi_buf (ps_in s)) -> ps_p s < pi_last (ps_in s) ->
  pi_pos (ps_in s) = ps_p s -> t <> XQC_TRANS_FRAME_TYPE_MP_ABANDON ->
  local_at (process_by_type g t) s.
Proof.
  intros Hok Hb Hlt Hpos Ht. unfold process_by_type.
  repeat (case_if; [apply local_wrap; [intros; repeat case_match; eexists; reflexivity|]|]).
  - by apply local_padding.
  - by apply local_process_control.
  - by apply local_ack.
  - unfold process_crypto. apply local_check_conn; [done|intros _].
    apply local_bind; [by apply local_same; [|..|left|]|]. intros ? s' [= <- <-].
    apply local_bind; [by apply local_same; [|..|left|]|]. intros ? s' [= <- <-].
    apply local_check; [done|intros _]. by apply local_crypto.
  - unfold process_stream. apply local_check_conn; [done|intros _].
    apply local_bind; [by apply local_same; [|..|left|]|]. intros ? s' [= <- <-].
    apply local_check; [done|intros _]. by apply local_stream.
  - unfold process_conn_close.
    apply (local_step p_first_byte _ s (rd (pi_buf (ps_in s)) (ps_p s)) 0); try done;
      [unfold ps_ok in Hok; lia|by rewrite ps_move_0| |].
    + intros b2 Hz Ha. unfold p_first_byte. unfold ps_move, ps_set_buf. simpl.
      by rewrite (Ha (ps_p s)), Z.add_0_r by lia.
    + rewrite ps_move_0. apply local_check_conn; [done|intros _]. by apply local_conn_close.
  - unfold process_datagram. apply local_check_conn; [done|intros _]. apply local_conn; [done|].
    apply local_check_conn; [done|intros _]. by apply local_on_error, local_datagram.
  - by apply local_ack_ext.
  - by apply local_process_mp.
  - by apply local_p_fail.
Qed.

(** ** Every parser moves forward *)

(** As [local_at], without the end of the packet: PATH_ABANDON of draft-10 passes it. *)
Record forward_at {A} (m : parser A) (s : pstate) : Prop := {
  fa_buf : pi_buf (ps_in (snd (m s))) = pi_buf (ps_in s);
  fa_last : pi_last (ps_in (snd (m s))) = pi_last (ps_in s);
  fa_p : ps_p s <= ps_p (snd (m s));
  fa_pos : pi_pos (ps_in (snd (m s))) = pi_pos (ps_in s) \/ ps_p s <= pi_pos (ps_in (snd (m s)));
}.

Lemma local_forward {A} (m : parser A) s : local_at m s -> forward_at m s.
Proof.
  intros [Hb Hl Hp Hpos _]. split; [done|done|lia|]. destruct Hpos; [by left|right; lia].
Qed.

Lemma forward_bind {A B} (m : parser A) (k : A -> parser B) s :
  forward_at m s -> (forall a s', m s = (Ok a, s') -> forward_at (k a) s') ->
  forward_at (m ≫= k) s.
Proof.
  intros [H1 H2 H3 H4] Hk. unfold mbind, parser_bind in *.
  destruct (m s) as [[a|e] s'] eqn:E; simpl in *.
  - destruct (Hk a s' eq_refl) as [K1 K2 K3 K4].
    split; rewrite E; [congruence|congruence|lia|].
    destruct K4 as [K4|K4]; [rewrite K4; destruct H4; [by left|right; lia]|right; lia].
  - by split; rewrite E.
Qed.

Lemma forward_mret {A} (a : A) s : forward_at (mret a) s.
Proof. split; simpl; try done; by left. Qed.

Lemma forward_skip n s : 0 <= n -> forward_at (p_skip n) s.
Proof. intros Hn. split; simpl; try done; [lia|by left]. Qed.

Lemma forward_commit bit s : forward_at (p_commit bit) s.
Proof. split; simpl; try done; by right. Qed.

Lemma forward_vint {B} (k : Z -> parser B) s :
  bytes_ok (pi_buf (ps_in s)) ->
  (forall v s', 0 <= v -> bytes_ok (pi_buf (ps_in s')) -> forward_at (k v) s') ->
  forward_at (p_vint ≫= k) s.
Proof.
  intros Hb Hk. apply forward_bind.
  - unfold p_vint. split; destruct (xqc_vint_read _ _ _) as [[v n]|] eqn:E; simpl; try done;
      try (by left); try lia. apply vint_read_len in E. lia.
  - unfold p_vint. intros a s'. destruct (xqc_vint_read _ _ _) as [[v n]|] eqn:E; [|done].
    intros [= <- <-]. apply Hk; [by eapply vint_read_nonneg|done].
Qed.

Lemma forward_abandon v s :
  bytes_ok (pi_buf (ps_in s)) -> forward_at (xqc_parse_path_abandon_frame v) s.
Proof.
  intros Hb. unfold xqc_parse_path_abandon_frame.
  do 3 (apply forward_vint; [done|clear dependent s; intros ? s ? Hb]).
  apply forward_bind; [|intros; apply forward_bind; [apply forward_commit|intros; apply forward_mret]].
  case_if; [apply forward_mret|]. apply forward_vint; [done|]. intros n s' Hn _.
  case_if; [by apply forward_skip|apply forward_mret].
Qed.

Lemma forward_on_error {A} sel err (m : parser A) s :
  forward_at m s -> forward_at (p_on_error sel err m) s.
Proof.
  intros [H1 H2 H3 H4]. unfold p_on_error.
  split; destruct (m s) as [[a|e] s'] eqn:E; simpl in *; by try case_match.
Qed.

Lemma forward_process_by_type g t s :
  ps_ok s -> bytes_ok (pi_buf (ps_in s)) -> ps_p s < pi_last (ps_in s) ->
  pi_pos (ps_in s) = ps_p s -> forward_at (process_by_type g t) s.
Proof.
  intros Hok Hb Hlt Hpos. destruct (decide (t = XQC_TRANS_FRAME_TYPE_MP_ABANDON)) as [->|Ht];
    [|by apply local_forward, local_process_by_type].
  change (forward_at (process_mp g XQC_TRANS_FRAME_TYPE_MP_ABANDON ≫= fun r => mret (RF_mp r)) s).
  apply forward_bind; [|intros; apply forward_mret]. apply forward_on_error.
  unfold mp_parse_by_type. apply forward_bind; [by apply local_forward, local_same; [|..|left|]|].
  intros conn s' [= <- <-]. change (XQC_TRANS_FRAME_TYPE_MP_ABANDON =? XQC_TRANS_FRAME_TYPE_MP_FROZEN) with false.
  cbv iota. destruct (xqc_dispatch_mp_frame _ _ _) as [h|e] eqn:Ed;
    [|by apply local_forward, local_p_fail].
  assert (h = H_path_abandon \/ h <> H_path_abandon) as [->|Hh] by (destruct h; by (left + right)).
  - cbn [mp_parse]. apply forward_bind; [by apply forward_abandon|]. intros [p err] s' _. apply forward_mret.
  - apply local_forward, local_mp_parse; try done.
Qed.

(** ** The loop stops *)

Section Total.

Context {T : Type} (conn_state : T -> Z)
  (immediate_close : xqc_connection_t -> T -> xqc_connection_t * T)
  (handle : recv_frame -> xqc_connection_t -> T -> res unit * xqc_connection_t * T)
  (g : recv_cfg).

Abbreviation round := (process_round conn_state immediate_close handle g).
Abbreviation frames := (fun n => xqc_process_frames conn_state immediate_close handle n g).

(** A round that goes on has moved forward; one that succeeds for good is at the end. *)
Lemma round_forward pi c t :
  bytes_ok (pi_buf pi) -> 0 <= pi_pos pi < pi_last pi -> pi_last pi <= zlen (pi_buf pi) ->
  match round pi c t with
  | inl (pi', _, _) =>
      pi_buf pi' = pi_buf pi /\ pi_last pi' = pi_last pi /\ pi_pos pi < pi_pos pi'
  | inr (r, pi', _, _) => pi_buf pi' = pi_buf pi /\ (r = Ok tt -> pi_pos pi' = pi_last pi)
  end.
Proof.
  intros Hb Hp Hl. unfold process_round. destruct (xqc_vint_read _ _ _) as [[ft n]|]; [|done].
  case_if; [by destruct (immediate_close c t)|]. case_if; [done|]. case_if; [done|].
  destruct (forward_process_by_type g ft (mk_ps pi (pi_pos pi) c)) as [H1 H2 _ H4];
    try done; [unfold ps_ok; simpl; lia|simpl; lia|].
  unfold run. destruct (process_by_type g ft _) as [[f|e] s']; simpl in *; [|done].
  destruct (handle f (ps_conn s') t) as [[[u|e] c'] t']; [|done].
  destruct (pi_pos (ps_in s') =? pi_pos pi) eqn:Epos; [done|]. zify_bools.
  split_and!; [done|done|]. lia.
Qed.

Lemma frames_forward n : forall pi c t,
  bytes_ok (pi_buf pi) -> 0 <= pi_pos pi -> pi_last pi <= zlen (pi_buf pi) ->
  pi_last pi - pi_pos pi <= Z.of_nat n ->
  exists r pi' c' t', frames n pi c t = Some (r, pi', c', t')
    /\ pi_buf pi' = pi_buf pi /\ (r = Ok tt -> pi_last pi <= pi_pos pi').
Proof.
  induction n as [|n IH]; intros pi c t Hb Hp Hl Hn; cbn [xqc_process_frames];
    (destruct (pi_pos pi <? pi_last pi) eqn:E; zify_bools; [|by eexists _, _, _, _]); [lia|].
  pose proof (round_forward pi c t Hb ltac:(lia) Hl) as Hr.
  destruct (round pi c t) as [[[pi' c'] t']|[[[r pi'] c'] t']].
  - destruct Hr as (H1 & H2 & H3).
    destruct (IH pi' c' t') as (r & pi2 & c2 & t2 & E2 & Hb2 & Hok);
      [by rewrite H1|lia|by rewrite H1, H2|lia|].
    exists r, pi2, c2, t2. rewrite Hb2, H1, <- H2. done.
  - destruct Hr as [H1 H2]. eexists _, _, _, _. split_and!; [done|done|].
    intros ->. rewrite H2 by done. lia.
Qed.

End Total.

(** C35: on every packet, whatever its bytes, its type and the settings, and whatever the
    handlers do with the frames they are given, the receive loop returns: each round moves
    [pos] forward or ends the loop, so as many rounds as the packet has bytes are enough. When
    it returns success, nothing of the packet is left unread. *)
Theorem process_frames_total {T} (conn_state : T -> Z) immediate_close handle g pi c t :
  bytes_ok (pi_buf pi) -> 0 <= pi_pos pi -> pi_last pi <= zlen (pi_buf pi) ->
  exists r pi' c' t',
    xqc_process_frames conn_state immediate_close handle (Z.to_nat (pi_last pi - pi_pos pi))
      g pi c t = Some (r, pi', c', t')
    /\ pi_buf pi' = pi_buf pi /\ (r = Ok tt -> pi_last pi <= pi_pos pi').
Proof. intros Hb Hp Hl. apply frames_forward; try done. lia. Qed.

(** A connection whose handlers note the frames they are given. *)
Definition ex_cfg : recv_cfg := mk_rcfg XQC_PTYPE_SHORT_HEADER false false 0 0 0
  (fun _ => true) (fun _ => true) 0.

Definition ex_client : xqc_connection_t :=
  mk_conn XQC_CONN_TYPE_CLIENT 0 XQC_CONN_ERR_TYPE_UNKNOWN 0 0 3 false false.

Definition note (f : recv_frame) (c : xqc_connection_t) (t : list recv_frame)
    : res unit * xqc_connection_t * list recv_frame := (Ok tt, c, t ++ [f]).

Definition no_close (c : xqc_connection_t) (t : list recv_frame)
    : xqc_connection_t * list recv_frame := (c, t).

Lemma process_frames_total_witness :
  exists r pi' c' t',
    xqc_process_frames (fun _ => 10) no_close note 7 ex_cfg
      (mk_pi [0x00; 0x00; 0x01; 0x0a; 0x04; 0x01; 0x07] 0 7 0 2) ex_client []
    = Some (r, pi', c', t')
    /\ pi_buf pi' = [0x00; 0x00; 0x01; 0x0a; 0x04; 0x01; 0x07] /\ (r = Ok tt -> 7 <= pi_pos pi').
Proof.
  apply (process_frames_total (fun _ => 10) no_close note ex_cfg
    (mk_pi [0x00; 0x00; 0x01; 0x0a; 0x04; 0x01; 0x07] 0 7 0 2) ex_client []); by_decide.
Defined.

(** C28: whatever the bytes of a packet, a handler of any frame but PATH_ABANDON of draft-10
    (type 0x15228c05) that parses at a position inside the packet changes nothing in the
    buffer, never moves [pos] backwards or past [last], and its result does not depend on any
    byte outside [pos .. last): the parsers read no memory beyond the packet. *)
Theorem process_frame_local g pi c :
  bytes_ok (pi_buf pi) -> 0 <= pi_pos pi < pi_last pi -> pi_last pi <= zlen (pi_buf pi) ->
  (forall n, xqc_vint_read (pi_buf pi) (pi_pos pi) (pi_last pi)
             <> Some (XQC_TRANS_FRAME_TYPE_MP_ABANDON, n)) ->
  local_at (process_frame g) (mk_ps pi (pi_pos pi) c).
Proof.
  intros Hb Hp Hl Hab. assert (ps_ok (mk_ps pi (pi_pos pi) c)) by (unfold ps_ok; simpl; lia).
  apply local_peek; [done|]. intros t n E. apply local_process_by_type; try done; [simpl; lia|].
  intros ->. by apply (Hab n).
Qed.

Lemma process_frame_local_witness :
  local_at (process_frame ex_cfg) (mk_ps (mk_pi [9; 0x04; 0x41] 1 3 0 2) 1 ex_client).
Proof.
  apply (process_frame_local ex_cfg (mk_pi [9; 0x04; 0x41] 1 3 0 2)); try by_decide.
  intros n. vm_compute. congruence.
Defined.

(** ** Control frames, through the loop *)

(** What the handlers demand of a control frame before it is parsed. *)
Definition frame_allowed (g : recv_cfg) (ct : xqc_conn_type_t) (f : frame) : Prop :=
  match f with
  | F_NEW_TOKEN t => ct = XQC_CONN_TYPE_CLIENT /\ zlen t <= XQC_MAX_TOKEN_LEN
  | F_HANDSHAKE_DONE => ct = XQC_CONN_TYPE_CLIENT
  | F_RESET_STREAM_AT _ _ _ _ =>
      reset_stream_at g = true
      /\ (pkt_type g = XQC_PTYPE_SHORT_HEADER \/ pkt_type g = XQC_PTYPE_0RTT)
  | F_RESET_STREAM s _ _ => xqc_stream_is_send_only ct s = false
  | F_STOP_SENDING s _ | F_MAX_STREAM_DATA s _ => xqc_stream_is_recv_only ct s = false
  | _ => True
  end.

Lemma parses_on_error {A} c sel err (m : parser A) bs a f :
  parses c m bs a f -> parses c (p_on_error sel err m) bs a f.
Proof. intros Hm s Hc Hs. unfold p_on_error. by rewrite (Hm s Hc Hs). Qed.

Lemma process_control_ok g c f :
  frame_wf f -> frame_allowed g (conn_type c) f ->
  parses c (process_by_type g (hd 0 (frame_bytes f))) (frame_bytes f) (RF_control f)
    (commit_eff (frame_bit f)).
Proof.
  intros Hwf Ha. assert (frame_receivable c XQC_MAX_TOKEN_LEN f) as Hrx.
  { destruct f; simpl in *; try done. by destruct Ha. }
  pose proof (parse_control_ok c XQC_MAX_TOKEN_LEN f Hwf Hrx) as Hp.
  assert (process_by_type g (hd 0 (frame_bytes f))
    = process_control g (hd 0 (frame_bytes f)) ≫= fun f => mret (RF_control f)) as ->
    by (destruct f; try destruct bidirectional; reflexivity).
  eapply parses_wrap; [|reflexivity]. unfold process_control. apply parses_conn.
  apply parses_check; [|apply parses_check_conn; [|apply parses_check_conn;
    [|by apply parses_on_error]]];
    destruct f; try destruct bidirectional; try reflexivity; simpl in Ha.
  - unfold is_server. by rewrite (proj1 Ha).
  - unfold is_server. by rewrite Ha.
  - destruct Ha as [-> [-> | ->]]; done.
Qed.

Section Deliver.

Context {T : Type} (conn_state : T -> Z)
  (immediate_close : xqc_connection_t -> T -> xqc_connection_t * T)
  (handle : recv_frame -> xqc_connection_t -> T -> res unit * xqc_connection_t * T).

(** Control frames given to their handlers in order: until a handler fails, or the
    connection closes. *)
Fixpoint deliver (fs : list frame) (c : xqc_connection_t) (t : T)
    : res unit * xqc_connection_t * T :=
  match fs with
  | [] => (Ok tt, c, t)
  | f :: fs' =>
      if conn_state t =? XQC_CONN_STATE_CLOSING then
        let '(c, t) := immediate_close c t in (Ok tt, c, t)
      else if XQC_CONN_STATE_DRAINING <=? conn_state t then (Ok tt, c, t)
      else
        match handle (RF_control f) c t with
        | (Err e, c, t) => (Err e, c, t)
        | (Ok _, c, t) => deliver fs' c t
        end
  end.

Hypothesis handle_type : forall f c t,
  conn_type (snd (fst (handle f c t))) = conn_type c.

Context (g : recv_cfg).

Lemma control_type f :
  closing_skips (hd 0 (frame_bytes f)) = true /\ xqc_frame_is_mp (hd 0 (frame_bytes f)) = false
  /\ frame_bit f <> 0.
Proof. destruct f; try destruct bidirectional; by vm_compute. Qed.

Lemma frame_head f pi :
  bytes_ok (pi_buf pi) -> pi_last pi <= zlen (pi_buf pi) ->
  bytes_at (pi_buf pi) (pi_pos pi) (frame_bytes f) ->
  pi_pos pi + zlen (frame_bytes f) <= pi_last pi ->
  exists n, xqc_vint_read (pi_buf pi) (pi_pos pi) (pi_last pi) = Some (hd 0 (frame_bytes f), n).
Proof.
  intros Hb Hl Hat Hfit. pose proof (frame_type_range f) as Ht.
  destruct (frame_bytes f) as [|b bs] eqn:E; [by destruct f; try destruct bidirectional|].
  cbn [hd] in *. rewrite zlen_cons in Hfit. pose proof (zlen_nonneg bs).
  change (b :: bs) with ([b] ++ bs) in Hat. apply bytes_at_app in Hat as [Hat _].
  assert (vlen b = 1) as Hv by (rewrite <- zlen_enc_vint, enc_vint_1 by done; done).
  rewrite <- (enc_vint_1 b Ht) in Hat. unfold vlen in Hv.
  eexists. apply vint_read_at; [done| |exact Hat|lia|done].
  apply vint_fits_2bit. unfold XQC_VINT_MAX. eval_pow. lia.
Qed.

Lemma frames_deliver fs : forall n pi c t,
  Forall frame_wf fs -> Forall (frame_allowed g (conn_type c)) fs ->
  bytes_ok (pi_buf pi) -> pi_last pi <= zlen (pi_buf pi) ->
  bytes_at (pi_buf pi) (pi_pos pi) (frames_bytes fs) ->
  pi_last pi = pi_pos pi + zlen (frames_bytes fs) -> pi_last pi - pi_pos pi <= Z.of_nat n ->
  fs <> [] \/ pi_frame_types pi <> 0 ->
  exists r pi' c' t',
    xqc_process_frames conn_state immediate_close handle n g pi c t = Some (r, pi', c', t')
    /\ deliver fs c t = (r, c', t').
Proof.
  induction fs as [|f fs IH]; intros n pi c t Hwf Ha Hb Hl Hat Hlast Hn Hne.
  - unfold frames_bytes in Hlast. cbn in Hlast. rewrite zlen_nil in Hlast.
    destruct Hne as [?|Hne]; [done|].
    assert ((pi_pos pi <? pi_last pi) = false) as E by (apply Z.ltb_ge; lia).
    assert ((pi_frame_types pi =? 0) = false) as E0 by (by apply Z.eqb_neq).
    destruct n; cbn [xqc_process_frames deliver]; rewrite E; unfold process_end; rewrite E0; eauto 10.
  - apply Forall_cons in Hwf as [Hf Hfs]. apply Forall_cons in Ha as [Haf Has].
    unfold frames_bytes in *. cbn [map concat] in *. apply bytes_at_app in Hat as [Hat1 Hat2].
    rewrite zlen_app in *. pose proof (zlen_nonneg (concat (map frame_bytes fs))).
    pose proof (frame_bytes_pos f). destruct n as [|n]; [lia|].
    cbn [xqc_process_frames deliver]. destruct (pi_pos pi <? pi_last pi) eqn:E; [|zb].
    destruct (frame_head f pi) as [m Hm]; [done|done|done|lia|].
    destruct (control_type f) as (Hsk & Hmp & Hbit).
    unfold process_round. rewrite Hm, Hsk, Hmp, andb_true_r. simpl.
    destruct (conn_state t =? XQC_CONN_STATE_CLOSING);
      [destruct (immediate_close c t); eauto 10|].
    destruct (XQC_CONN_STATE_DRAINING <=? conn_state t); [eauto 10|].
    rewrite (parses_run _ (frame_bytes f) (RF_control f) (frame_bit f));
      [|by apply process_control_ok|done|done|done|lia].
    pose proof (handle_type (RF_control f) c t) as Hct.
    destruct (handle (RF_control f) c t) as [[[u|e] c'] t']; [|eauto 10]. simpl in Hct.
    cbn [pi_pos]. destruct (_ =? _) eqn:E2; [zb|]. apply IH; simpl; try done; try lia.
    + by rewrite Hct.
    + right. intros Hz. apply Z.lor_eq_0_iff in Hz as [_ Hz]. done.
Qed.

End Deliver.

(** C1: control frames written one after another into a packet that has room for them are
    written at the end of what the packet holds, and the receive loop of the other end gives
    its handlers exactly these frames, in this order and nothing else, until one of them fails
    or closes the connection, whatever the handlers do. The frames are those that its role, its
    settings and the type of the packet allow ([frame_allowed]). *)
Theorem packet_frames_roundtrip {T} (conn_state : T -> Z) immediate_close handle g c t po fs :
  (forall f c t, conn_type (snd (fst (handle f c t))) = conn_type c) ->
  fs <> [] -> Forall frame_wf fs -> Forall (frame_allowed g (conn_type c)) fs ->
  bytes_ok (po_buf po) -> 0 <= po_used_size po -> 0 <= po_reserved_size po ->
  po_used_size po + zlen (frames_bytes fs) <= zlen (po_buf po) ->
  zlen (frames_bytes fs) <= xqc_get_po_remained_size po ->
  exists po' r pi' c' t', gen_frames po fs = (Ok tt, po')
    /\ po_used_size po' = po_used_size po + zlen (frames_bytes fs)
    /\ take (Z.to_nat (po_used_size po)) (po_buf po') = take (Z.to_nat (po_used_size po)) (po_buf po)
    /\ xqc_process_frames conn_state immediate_close handle (Z.to_nat (zlen (frames_bytes fs))) g
         (mk_pi (po_buf po') (po_used_size po) (po_used_size po') 0 (po_pkt_pns po)) c t
       = Some (r, pi', c', t')
    /\ deliver conn_state immediate_close handle fs c t = (r, c', t').
Proof.
  intros Hh Hne Hwf Ha Hb Hu Hres Hz Hr.
  destruct (gen_frames_ok po fs) as (po' & Hg & Hbuf & Hused); try done.
  pose proof (zlen_nonneg (frames_bytes fs)).
  destruct (frames_deliver conn_state immediate_close handle Hh g fs
    (Z.to_nat (zlen (frames_bytes fs)))
    (mk_pi (po_buf po') (po_used_size po) (po_used_size po') 0 (po_pkt_pns po)) c t)
    as (r & pi' & c' & t' & E & Hd);
    simpl; rewrite ?Hbuf, ?Hused, ?zlen_wr; try done; try lia.
  - apply bytes_ok_wr; [done|]. apply Forall_concat, Forall_map.
    eapply Forall_impl; [exact Hwf|]. intros f Hf. by apply frame_bytes_ok.
  - by apply bytes_at_wr.
  - by left.
  - exists po', r, pi', c', t'. split_and!; try done. rewrite Hbuf. unfold wr.
    apply list_eq. intros i. destruct (decide (i < Z.to_nat (po_used_size po))%nat);
      [by rewrite !lookup_take_lt, list_lookup_inserts_lt | by rewrite !lookup_take_ge by lia].
Qed.

Definition ex_frames : list frame :=
  [F_MAX_DATA 1000; F_RESET_STREAM 4 7 20000; F_NEW_TOKEN [9];
   F_PATH_CHALLENGE [1; 2; 3; 4; 5; 6; 7; 8]].

Lemma packet_frames_roundtrip_witness :
  let po := mk_po (replicate 64 0) 60 5 0 0 0 0 [] 0 0 None 2 in
  exists po' r pi' c' t', gen_frames po ex_frames = (Ok tt, po')
    /\ po_used_size po' = po_used_size po + zlen (frames_bytes ex_frames)
    /\ take (Z.to_nat (po_used_size po)) (po_buf po') = take (Z.to_nat (po_used_size po)) (po_buf po)
    /\ xqc_process_frames (fun _ => 10) no_close note (Z.to_nat (zlen (frames_bytes ex_frames)))
         ex_cfg (mk_pi (po_buf po') (po_used_size po) (po_used_size po') 0 (po_pkt_pns po))
         ex_client []
       = Some (r, pi', c', t')
    /\ (Ok tt, ex_client, map RF_control ex_frames) = (r, c', t').
Proof.
  intros po. apply (packet_frames_roundtrip (fun _ => 10) no_close note ex_cfg ex_client [] po);
    try by_decide; try done.
  - repeat constructor; by_decide.
  - repeat constructor; by_decide.
Defined.

End FrameLoop.
