(* ===== verification/PktHeaderSpec.v ===== *)
(** What the packet headers promise: the receiver recovers the packet number, the identifiers,
    the token and the extent of the packet that the sender wrote, and accepts no header that
    reaches past the datagram. *)

From stdpp Require Import base numbers list relations.
From S2P Require Import Prelude VInt PacketBuf Frames CidSet CidSetSpec PktHeader.
Import VInt Frames CidSet CidSetSpec PktHeader.

Module PktHeaderSpec.

(** ** Packet numbers *)

Lemma pktno_bytes_be pn bits :
  0 <= bits <= 3 -> pktno_bytes pn bits = be_bytes (Z.to_nat (bits + 1)) pn.
Proof.
  intros Hb. assert (bits = 0 \/ bits = 1 \/ bits = 2 \/ bits = 3) as [->|[->|[->| ->]]] by lia;
    cbv [pktno_bytes xqc_packet_number_bits2len]; simpl; by rewrite Z.shiftr_0_r.
Qed.

Lemma zlen_pktno_bytes pn bits : 0 <= bits <= 3 -> zlen (pktno_bytes pn bits) = bits + 1.
Proof. intros. rewrite pktno_bytes_be, zlen_be_bytes by done. lia. Qed.

Lemma parse_pktno_loop_at buf l : forall pos acc,
  bytes_at buf pos l -> bytes_ok l -> 0 <= acc -> acc * 256 ^ zlen l + be_val l < 2 ^ 64 ->
  parse_pktno_loop buf pos (length l) acc = acc * 256 ^ zlen l + be_val l.
Proof.
  induction l as [|b l IH]; intros pos acc Hat Hok Hacc Hlt; cbn [length parse_pktno_loop].
  { unfold zlen, be_val. simpl. lia. }
  apply bytes_ok_cons in Hok as [Hb Hok].
  rewrite (bytes_at_rd _ _ _ _ Hat). apply bytes_at_cons in Hat as [_ Hat].
  rewrite be_val_cons, zlen_cons, Z.pow_add_r in * by (unfold zlen; lia).
  pose proof (be_val_bound l Hok). unfold is_byte in Hb.
  rewrite Z.shiftl_mul_pow2 by lia. change (2 ^ 8) with 256. change (256 ^ 1) with 256 in *.
  assert (0 < 256 ^ zlen l) by (apply Z.pow_pos_nonneg; unfold zlen; lia).
  rewrite u64_small by nia. rewrite IH by (done || nia). lia.
Qed.

Lemma parse_packet_number_at buf pos pn bits :
  0 <= bits <= 3 -> bytes_at buf pos (pktno_bytes pn bits) ->
  xqc_packet_parse_packet_number buf pos (bits + 1) = pn mod 2 ^ (8 * (bits + 1)).
Proof.
  intros Hb Hat. unfold xqc_packet_parse_packet_number.
  rewrite pktno_bytes_be in Hat by done.
  replace (Z.to_nat (bits + 1)) with (length (be_bytes (Z.to_nat (bits + 1)) pn)) at 1
    by apply length_be_bytes.
  pose proof (be_val_bound _ (be_bytes_ok (Z.to_nat (bits + 1)) pn)) as Hv.
  rewrite zlen_be_bytes, Z2Nat.id in Hv by lia.
  assert (256 ^ (bits + 1) <= 256 ^ 4) by (apply Z.pow_le_mono_r; lia).
  rewrite parse_pktno_loop_at; auto with xqc; [|lia|rewrite Z.mul_0_l; lia].
  rewrite be_val_be_bytes, Z2Nat.id by lia. rewrite Z.mul_0_l, Z.pow_mul_r by lia. done.
Qed.

(** The candidate is the number of the window's block with the given low bits. *)
Lemma candidate_pn e t n :
  0 <= n < 64 -> 0 <= e < 2 ^ 64 -> 0 <= t < 2 ^ n ->
  (e .& (2 ^ 64 - 1 - (2 ^ n - 1))) .| t = 2 ^ n * (e / 2 ^ n) + t.
Proof.
  intros Hn He Ht.
  replace (2 ^ 64 - 1 - (2 ^ n - 1)) with ((2 ^ (64 - n) - 1) << n).
  2: { rewrite Z.shiftl_mul_pow2, Z.mul_sub_distr_r, <- Z.pow_add_r by lia.
       replace (64 - n + n) with 64 by lia. lia. }
  assert (e .& ((2 ^ (64 - n) - 1) << n) = (e / 2 ^ n) << n) as ->.
  { replace (2 ^ (64 - n) - 1) with (Z.ones (64 - n)) by (rewrite Z.ones_equiv; lia).
    apply Z.bits_inj'. intros i Hi. rewrite Z.land_spec, !Z.shiftl_spec by done.
    rewrite <- Z.shiftr_div_pow2 by lia.
    destruct (decide (i < n)) as [Hin|Hin].
    { rewrite (Z.testbit_neg_r _ (i - n)), (Z.testbit_neg_r (e >> n)) by lia.
      apply andb_false_r. }
    rewrite Z.shiftr_spec by lia. replace (i - n + n) with i by lia.
    destruct (decide (i < 64)).
    - rewrite Z.ones_spec_low by lia. apply andb_true_r.
    - rewrite Z.ones_spec_high, andb_false_r by lia. symmetry.
      apply Z.bits_above_log2; [lia|]. destruct (decide (e = 0)) as [->|]; [simpl; lia|].
      apply Z.log2_lt_pow2; [lia|]. assert (2 ^ 64 <= 2 ^ i) by (apply Z.pow_le_mono_r; lia). lia. }
  rewrite shiftl_lor_add by lia. lia.
Qed.

(** Numbers within half a window of the expected one are recovered from their low bits. *)
Lemma decode_packet_number_near largest pn n :
  let e := u64 (largest + 1) in
  1 <= n <= 32 -> e <= 2 ^ 62 -> 0 <= pn < 2 ^ 62 ->
  e - 2 ^ (n - 1) < pn <= e + 2 ^ (n - 1) ->
  xqc_packet_decode_packet_number largest (pn mod 2 ^ n) n = pn.
Proof.
  intros e Hn He Hpn Hwin. unfold xqc_packet_decode_packet_number. fold e.
  assert (0 <= e < 2 ^ 64) as He' by apply u64_range.
  rewrite Z.shiftl_1_l, (u64_small (2 ^ n)) by (split; [lia|apply Z.pow_lt_mono_r; lia]).
  assert (2 ^ n <= 2 ^ 32) by (apply Z.pow_le_mono_r; lia).
  assert (2 ^ n = 2 * 2 ^ (n - 1)) as Hhalf by (rewrite <- Z.pow_succ_r by lia; f_equal; lia).
  assert (0 < 2 ^ (n - 1)) by lia.
  replace ((2 ^ n) >> 1) with (2 ^ (n - 1))
    by (rewrite Z.shiftr_div_pow2, Hhalf, Z.mul_comm by lia; change (2 ^ 1) with 2; by rewrite Z.div_mul).
  rewrite (u64_small (2 ^ n - 1)) by lia.
  pose proof (Z.mod_pos_bound pn (2 ^ n) ltac:(lia)).
  rewrite candidate_pn by lia.
  pose proof (Z.div_mod pn (2 ^ n) ltac:(lia)) as Hp.
  pose proof (Z.div_mod e (2 ^ n) ltac:(lia)) as He2.
  pose proof (Z.mod_pos_bound e (2 ^ n) ltac:(lia)).
  remember (pn mod 2 ^ n) as r. remember (e / 2 ^ n) as q. remember (pn / 2 ^ n) as q'.
  remember (2 ^ n) as W. remember (2 ^ (n - 1)) as h. change (1 << 62) with (2 ^ 62).
  assert (0 <= q) by (subst q; apply Z.div_pos; lia).
  assert (0 <= q') by (subst q'; apply Z.div_pos; lia).
  assert (W * q <= e) by lia.
  rewrite (u64_small (W * q + r + h)), (u64_small (2 ^ 62 - W)), (u64_small (W * q + r + W)),
    (u64_small (e + h)) by lia.
  assert (q' = q - 1 \/ q' = q \/ q' = q + 1) as Hq by nia.
  repeat case_if; zify_bools; destruct Hq as [Hq|[Hq|Hq]]; rewrite Hq in *;
    try rewrite Z.mul_add_distr_l in *; try rewrite Z.mul_sub_distr_l in *;
    rewrite ?u64_small by lia; lia.
Qed.

(** ** The short header *)

Definition short_first (key_phase : bool) (bits : Z) : Z :=
  u8 (0x40 .| (0x01 << 5) .| (0x00 << 3) .| ((if key_phase then 0x01 else 0x00) << 2) .| bits).

Definition short_bytes (dcid : list Z) (dlen bits pn : Z) (key_phase : bool) : list Z :=
  [short_first key_phase bits] ++ sub_bytes dcid 0 dlen ++ pktno_bytes pn bits.

(** [XQC_PACKET_SHORT_HEADER_PKTNO_LEN] and [XQC_PACKET_SHORT_HEADER_KEY_PHASE] of what is
    written. *)
Lemma short_first_fields kp bits :
  0 <= bits <= 3 ->
  short_first kp bits .& 0x40 = 0x40 /\ (short_first kp bits .& 0x03) + 1 = bits + 1
  /\ (short_first kp bits .& 0x04) >> 2 = (if kp then 1 else 0).
Proof.
  intros Hb. assert (bits = 0 \/ bits = 1 \/ bits = 2 \/ bits = 3) as [->|[->|[->| ->]]] by lia;
    by destruct kp.
Qed.

(** What the sender needs to write a header at the front of its buffer. *)
Record out_ready (ho : hdr_out) (need : Z) : Prop := {
  or_empty : po_used_size (ho_po ho) = 0;
  or_reserved : 0 <= po_reserved_size (ho_po ho);
  or_buf : po_buf_size (ho_po ho) <= zlen (po_buf (ho_po ho));
  or_room : 0 < need <= xqc_get_po_remained_size (ho_po ho);
}.

Lemma out_ready_room ho need : out_ready ho need -> need <= zlen (po_buf (ho_po ho)).
Proof. intros []. pose proof (po_remained_le (ho_po ho) or_reserved0). lia. Qed.

Lemma cursor_front buf : (buf, 0) = wr_at buf 0 [].
Proof. done. Qed.

(** The packet number goes right behind what was written. *)
Lemma write_pktno_wr buf l pn bits p :
  p = zlen l -> 0 <= bits <= 3 ->
  xqc_write_packet_number (wr buf 0 l) p pn bits = (wr buf 0 (l ++ pktno_bytes pn bits), bits + 1).
Proof.
  intros -> Hb. unfold xqc_write_packet_number. rewrite zlen_pktno_bytes by done. f_equal.
  by apply (wr_app buf 0).
Qed.

Lemma gen_short_header ho dcid dlen bits pn kp :
  0 <= bits <= 3 -> 0 <= dlen <= zlen dcid ->
  out_ready ho (xqc_short_packet_header_size dlen bits) ->
  exists ho', xqc_gen_short_packet_header ho dcid dlen bits pn kp
              = (Ok (xqc_short_packet_header_size dlen bits), ho')
  /\ po_buf (ho_po ho') = wr (po_buf (ho_po ho)) 0 (short_bytes dcid dlen bits pn kp)
  /\ po_ppktno ho' = 1 + dlen /\ po_payload ho' = xqc_short_packet_header_size dlen bits
  /\ ho_pkt_type ho' = XQC_PTYPE_SHORT_HEADER.
Proof.
  intros Hb Hd Hr. pose proof (or_room _ _ Hr) as Hroom. unfold xqc_gen_short_packet_header.
  fold (xqc_short_packet_header_size dlen bits). cbn [ho_po].
  destruct (_ <? xqc_short_packet_header_size dlen bits) eqn:E; [zb|].
  fold (short_first kp bits). rewrite cursor_front, w_byte_wr, w_bytes_wr by lia. cbv [wr_at fst].
  rewrite write_pktno_wr; [|rewrite zlen_app, zlen_sub_bytes by lia; done|done].
  eexists. split; [done|]. done.
Qed.

Lemma sub_bytes_idem l n : sub_bytes (sub_bytes l 0 n) 0 n = sub_bytes l 0 n.
Proof. unfold sub_bytes. simpl. rewrite !drop_0, take_take. f_equal. lia. Qed.

Lemma check_dcid_known lim cs dcid ci :
  set_ok lim cs -> xqc_cid_set_search_cid cs dcid = Some ci ->
  exists cs', xqc_conn_check_dcid cs dcid = (Ok tt, adopt dcid ci, cs').
Proof.
  intros Hok Hs. unfold xqc_conn_check_dcid. rewrite Hs.
  destruct (is_unused ci) eqn:Hu; [|by eexists].
  apply find_some in Hs as [Hs _]. apply list_elem_of_In in Hs.
  destruct (cid_path _ _ _ Hok Hs) as (s & Hg & Hci).
  destruct (xqc_cid_switch_to_next_state _ _ _ _) as [r cs'] eqn:Hsw. exists cs'.
  destruct (get_path _ _ _ _ Hok Hg) as (l1 & l2 & Heq & Hp & Ho & Hi & Hnd).
  destruct (switch_cases _ _ _ _ _ _ _ _ _ _ Hok Heq Hp Ho Hci Hsw) as (_ & found & _ & Hcase).
  apply bool_decide_eq_true_1 in Hu. rewrite Hu in Hcase. simpl in Hcase.
  destruct Hcase as [[[[-> _]|[_ ?]] _]|[-> _]]; done || lia.
Qed.

(** Of the first byte only the fixed bit matters: the others may be protected. *)
Lemma parse_short_at c pi dcid f lim ci :
  f .& 0x40 = 0x40 -> 0 <= hc_scid_len c <= zlen dcid ->
  bytes_at (hi_buf pi) 0 ([f] ++ sub_bytes dcid 0 (hc_scid_len c)) ->
  hi_pos pi = 0 -> 1 + hc_scid_len c <= hi_last pi ->
  set_ok lim (hc_scid_set c) ->
  xqc_cid_set_search_cid (hc_scid_set c) (xqc_cid_set (hi_dcid pi) dcid (hc_scid_len c)) = Some ci ->
  exists pi' c', xqc_packet_parse_short_header c pi = (Ok tt, pi', c')
  /\ hi_buf pi' = hi_buf pi /\ hi_pkt_type pi' = XQC_PTYPE_SHORT_HEADER
  /\ hi_pkt_pns pi' = XQC_PNS_APP_DATA
  /\ hi_dcid pi' = adopt (xqc_cid_set (hi_dcid pi) dcid (hc_scid_len c)) ci
  /\ hi_path_id pi' = path_id (ci_cid ci)
  /\ hi_pkt_num_offset pi' = 1 + hc_scid_len c /\ hi_last pi' = hi_last pi
  /\ hi_length pi' = hi_last pi - (1 + hc_scid_len c).
Proof.
  intros Hb Hd Hat Hpos Hlast Hok Hs. unfold xqc_packet_parse_short_header.
  cbn [hi_buf hi_last hi_dcid hi_set_type]. rewrite Hpos.
  unfold XQC_BUFF_LEFT_SIZE. destruct (0 <? hi_last pi) eqn:E0; [|zb].
  destruct (hi_last pi - 0 <? 1 + hc_scid_len c) eqn:E1; [zb|].
  rewrite (bytes_at_rd _ _ _ _ Hat), Hb.
  change (0x40 =? 0) with false. change (0 + 1) with 1. cbv iota.
  apply bytes_at_app in Hat as [_ Hat]. apply bytes_at_sub in Hat.
  rewrite zlen_sub_bytes in Hat by lia. change (0 + zlen [f]) with 1 in Hat. rewrite Hat.
  assert (xqc_cid_set (hi_dcid pi) (sub_bytes dcid 0 (hc_scid_len c)) (hc_scid_len c)
          = xqc_cid_set (hi_dcid pi) dcid (hc_scid_len c)) as ->.
  { unfold xqc_cid_set. by rewrite sub_bytes_idem. }
  destruct (check_dcid_known _ _ _ _ Hok Hs) as [cs' ->].
  eexists _, _. split; [done|]. done.
Qed.

(** ** The long header *)

Definition long_first (type bits : Z) : Z := u8 (0xC0 .| (type << 4) .| bits).

(** The identifiers of a header: both lengths and both values. *)
Definition cid_fields (dcid : list Z) (dlen : Z) (scid : list Z) (slen : Z) : list Z :=
  [dlen] ++ sub_bytes dcid 0 dlen ++ [slen] ++ sub_bytes scid 0 slen.

Definition token_field (type : Z) (token : list Z) (tlen : Z) : list Z :=
  if type =? XQC_PTYPE_INIT then enc_vint tlen ++ sub_bytes token 0 tlen else [].

(** All that precedes the Length field. *)
Definition long_prefix (type ver bits : Z) (dcid : list Z) (dlen : Z) (scid : list Z) (slen : Z)
    (token : list Z) (tlen : Z) : list Z :=
  [long_first type bits] ++ xqc_proto_version_field ver ++ cid_fields dcid dlen scid slen
  ++ token_field type token tlen.

Definition length_field (len : Z) : list Z := xqc_vint_bytes len 0x01 2.

Lemma zlen_length_field len : zlen (length_field len) = 2.
Proof. by apply zlen_vint_bytes. Qed.

Lemma long_first_fields type bits :
  0 <= type <= 3 -> 0 <= bits <= 3 ->
  long_first type bits .& 0x40 = 0x40 /\ (long_first type bits .& 0x30) >> 4 = type
  /\ (long_first type bits .& 0x03) + 1 = bits + 1 /\ is_byte (long_first type bits).
Proof.
  intros Ht Hb. assert (bits = 0 \/ bits = 1 \/ bits = 2 \/ bits = 3) as [->|[->|[->| ->]]] by lia;
    assert (type = 0 \/ type = 1 \/ type = 2 \/ type = 3) as [->|[->|[->| ->]]] by lia;
    split_and!; by_decide.
Qed.

Lemma version_field_value buf p ver :
  (ver = 1 \/ ver = 2) -> bytes_at buf p (xqc_proto_version_field ver) ->
  xqc_parse_uint32 buf p = xqc_proto_version_value ver.
Proof.
  intros Hver Hat. unfold xqc_parse_uint32.
  destruct Hver as [-> | ->]; cbn [xqc_proto_version_field] in Hat;
    pose proof (bytes_at_rd _ _ _ _ Hat) as E0; apply bytes_at_cons in Hat as [_ Hat];
    pose proof (bytes_at_rd _ _ _ _ Hat) as E1; apply bytes_at_cons in Hat as [_ Hat];
    pose proof (bytes_at_rd _ _ _ _ Hat) as E2; apply bytes_at_cons in Hat as [_ Hat];
    pose proof (bytes_at_rd _ _ _ _ Hat) as E3;
    replace (p + 3) with (p + 1 + 1 + 1) by lia; replace (p + 2) with (p + 1 + 1) by lia;
    by rewrite E0, E1, E2, E3.
Qed.

Lemma zlen_version_field ver : zlen (xqc_proto_version_field ver) = 4.
Proof. by destruct ver as [|[[|[]|]|[]|]|]. Qed.

(** The arguments of [xqc_gen_long_packet_header]. *)
Record long_args_ok (type ver bits : Z) (dcid : list Z) (dlen : Z) (scid : list Z) (slen : Z)
    (token : list Z) (tlen : Z) : Prop := {
  la_type : type = XQC_PTYPE_INIT \/ type = XQC_PTYPE_0RTT \/ type = XQC_PTYPE_HSK;
  la_ver : ver = 1 \/ ver = 2;
  la_bits : 0 <= bits <= 3;
  la_dcid : 0 <= dlen <= XQC_MAX_CID_LEN /\ dlen <= zlen dcid;
  la_scid : 3 <= slen <= XQC_MAX_CID_LEN /\ slen <= zlen scid;
  la_token : 0 <= tlen <= XQC_MAX_TOKEN_LEN /\ tlen <= zlen token;
}.

Section long_header.

Context (type ver bits : Z) (dcid : list Z) (dlen : Z) (scid : list Z) (slen : Z).
Context (token : list Z) (tlen : Z).
Context (Hargs : long_args_ok type ver bits dcid dlen scid slen token tlen).

Let need := xqc_long_packet_header_size dlen slen tlen bits type.
Let prefix := long_prefix type ver bits dcid dlen scid slen token tlen.

Lemma zlen_long_prefix : zlen prefix + 2 + (bits + 1) = need.
Proof.
  destruct Hargs. unfold prefix, need, long_prefix, cid_fields, token_field, xqc_long_packet_header_size,
    XQC_LONG_HEADER_LENGTH_BYTE, xqc_packet_number_bits2len.
  rewrite !zlen_app, zlen_version_field, !zlen_sub_bytes by lia.
  change (zlen [_]) with 1. case_if; rewrite ?zlen_app, ?zlen_enc_vint, ?zlen_sub_bytes by lia;
    rewrite ?zlen_cons, ?zlen_nil; lia.
Qed.

Lemma gen_long_header ho :
  ho_pkt_type ho = type -> out_ready ho need ->
  exists ho', xqc_gen_long_packet_header ho dcid dlen scid slen token tlen ver bits = (Ok need, ho')
  /\ po_buf (ho_po ho')
     = wr (wr (po_buf (ho_po ho)) 0 prefix) (zlen prefix + 2) (pktno_bytes (ho_pkt_num ho) bits)
  /\ po_ppktno ho' = zlen prefix + 2 /\ po_payload ho' = need /\ ho_pkt_type ho' = type
  /\ ho_pkt_num ho' = ho_pkt_num ho.
Proof.
  intros Ht Hr. pose proof (or_room _ _ Hr) as Hroom. pose proof zlen_long_prefix as Hz.
  unfold xqc_gen_long_packet_header. rewrite Ht. fold need.
  assert (xqc_check_proto_version_valid ver = true) as ->
    by (destruct (la_ver _ _ _ _ _ _ _ _ _ Hargs) as [-> | ->]; done).
  destruct (_ <? need) eqn:E; [zb|]. cbn [negb].
  destruct (slen <? 3) eqn:E1; [destruct Hargs; zb|].
  rewrite cursor_front. fold (long_first type bits).
  rewrite !w_byte_wr, !w_bytes_wr, !w_byte_wr, !w_bytes_wr, !w_byte_wr, !w_bytes_wr by lia.
  assert (forall c : cursor, c = wr_at (po_buf (ho_po ho)) 0 prefix ->
    (let ppktno := snd c + XQC_LONG_HEADER_LENGTH_BYTE in
     let '(buf, n) := xqc_write_packet_number (fst c) ppktno (ho_pkt_num ho) bits in
     (@Ok Z (ppktno + n), with_buf ho buf type ppktno (ppktno + n)))
    = (Ok need, with_buf ho (wr (wr (po_buf (ho_po ho)) 0 prefix) (zlen prefix + 2)
                   (pktno_bytes (ho_pkt_num ho) bits)) type (zlen prefix + 2) need)) as Hend.
  { intros c ->. unfold xqc_write_packet_number, XQC_LONG_HEADER_LENGTH_BYTE. cbn [wr_at fst snd].
    rewrite zlen_pktno_bytes by apply Hargs. rewrite <- Hz. done. }
  eexists. split; [apply Hend|done].
  unfold prefix, long_prefix, cid_fields, token_field.
  destruct (type =? XQC_PTYPE_INIT).
  - rewrite w_vint_wr, w_bytes_wr by lia. by rewrite <- !app_assoc.
  - by rewrite <- !app_assoc, !app_nil_r.
Qed.

(** Setting the Length field once the size of the packet is known. *)
Lemma update_length_at ho pk :
  ho_pkt_type ho = type -> po_ppktno ho = zlen prefix + 2 ->
  bytes_at (po_buf (ho_po ho)) 0 prefix -> bytes_at (po_buf (ho_po ho)) (zlen prefix + 2) pk ->
  pk <> [] -> 0 <= po_used_size (ho_po ho) - po_ppktno ho < 2 ^ 32 ->
  bytes_at (po_buf (ho_po (xqc_long_packet_update_length ho))) 0
    (prefix ++ length_field (po_used_size (ho_po ho) - po_ppktno ho) ++ pk).
Proof.
  intros Ht Hpp Hpre Hpk Hne Hlen. unfold xqc_long_packet_update_length. rewrite Ht.
  assert ((type =? XQC_PTYPE_INIT) || (type =? XQC_PTYPE_HSK) || (type =? XQC_PTYPE_0RTT) = true) as ->
    by (destruct (la_type _ _ _ _ _ _ _ _ _ Hargs) as [-> | [-> | ->]]; done).
  rewrite u32_small by done. cbn [po_buf ho_po with_buf po_set_buf po_wrote].
  unfold xqc_vint_write, XQC_LONG_HEADER_LENGTH_BYTE. fold (length_field (po_used_size (ho_po ho) - po_ppktno ho)).
  rewrite Hpp at 1. replace (zlen prefix + 2 - 2) with (zlen prefix) by lia.
  pose proof (bytes_at_bound _ _ _ Hpk Hne). pose proof (zlen_nonneg prefix). pose proof (zlen_nonneg pk).
  apply bytes_at_app. split; [|apply bytes_at_app; split].
  - apply bytes_at_wr_ne; rewrite ?zlen_length_field; [lia|done|lia].
  - rewrite Z.add_0_l. apply bytes_at_wr; rewrite ?zlen_length_field; lia.
  - rewrite zlen_length_field, Z.add_0_l. apply bytes_at_wr_ne; rewrite ?zlen_length_field; [lia|done|lia].
Qed.

End long_header.

(** ** Reading the long header *)

Lemma left_size pos last : pos <= last -> XQC_BUFF_LEFT_SIZE pos last = last - pos.
Proof. intros. unfold XQC_BUFF_LEFT_SIZE. case_if; zb. Qed.

Lemma parse_length_at c pi pos len :
  bytes_ok (hi_buf pi) -> bytes_at (hi_buf pi) pos (length_field len) -> 0 <= len < 2 ^ 14 ->
  pos + 2 + len <= hi_last pi <= zlen (hi_buf pi) ->
  parse_length c pi pos = (Ok tt, hi_set_payload pi (pos + 2 + len) len (pos + 2), c).
Proof.
  intros Hok Hat Hlen Hlast. unfold parse_length.
  rewrite (vint_read_at _ _ _ len 1) by (done || (split; [lia|done]) || (change (xqc_vint_len 1) with 2; lia)).
  change (xqc_vint_len 1) with 2. rewrite left_size, u64_small by lia.
  case_if; [zb|]. cbn [hi_last hi_set_payload]. case_if; [zb|done].
Qed.

(** What a field of [packet_in] that held [cid] becomes. *)
Definition got (cid : xqc_cid_t) (bytes : list Z) (len : Z) : xqc_cid_t :=
  mk_cid len (wr (cid_buf cid) 0 (sub_bytes bytes 0 len)) (cid_seq_num cid) (sr_token cid)
    XQC_INITIAL_PATH_ID.

Lemma read_cid_got cid buf pos bytes len :
  0 <= len <= zlen bytes -> bytes_at buf pos (sub_bytes bytes 0 len) ->
  cid_with_path (read_cid cid buf pos len) XQC_INITIAL_PATH_ID = got cid bytes len.
Proof.
  intros Hl Hat. apply bytes_at_sub in Hat. rewrite zlen_sub_bytes in Hat by lia.
  unfold read_cid, got, cid_with_path. simpl. by rewrite Hat.
Qed.

Lemma got_bytes cid bytes len :
  0 <= len <= XQC_MAX_CID_LEN -> len <= zlen bytes -> zlen (cid_buf cid) = XQC_MAX_CID_LEN ->
  sub_bytes (cid_buf (got cid bytes len)) 0 len = sub_bytes bytes 0 len.
Proof.
  intros Hl Hz Hc. unfold got. cbn [cid_buf].
  rewrite <- (zlen_sub_bytes bytes 0 len) at 2 by lia. apply bytes_at_sub, bytes_at_wr; [lia|].
  rewrite zlen_sub_bytes by lia. lia.
Qed.

Lemma parse_long_cids_at pi pos dcid dlen scid slen :
  0 <= dlen <= XQC_MAX_CID_LEN -> dlen <= zlen dcid -> 0 <= slen <= XQC_MAX_CID_LEN ->
  slen <= zlen scid -> bytes_at (hi_buf pi) pos (cid_fields dcid dlen scid slen) ->
  pos + (2 + dlen + slen) <= hi_last pi ->
  parse_long_cids pi pos
  = (Ok (pos + (2 + dlen + slen)),
     hi_set_scid (hi_set_dcid pi (got (hi_dcid pi) dcid dlen)) (got (hi_scid pi) scid slen)).
Proof.
  intros Hd Hd' Hs Hs' Hat Hlast. unfold parse_long_cids, cid_fields in *.
  rewrite (bytes_at_rd _ _ _ _ Hat). apply bytes_at_app in Hat as [_ Hat].
  apply bytes_at_app in Hat as [HD Hat]. rewrite zlen_sub_bytes in Hat by lia.
  change (zlen [dlen]) with 1 in *. rewrite (left_size (pos + 1)) by lia.
  case_if; [zb|]. cbn [hi_set_dcid hi_buf hi_last hi_scid].
  rewrite (bytes_at_rd _ _ _ _ Hat). apply bytes_at_app in Hat as [_ Hat].
  change (zlen [slen]) with 1 in *. rewrite (left_size (pos + 1 + dlen + 1)) by lia.
  case_if; [zb|]. rewrite (read_cid_got _ _ _ dcid), (read_cid_got _ _ _ scid) by (done || lia).
  f_equal. f_equal. lia.
Qed.

Definition pns_of (type : Z) : Z :=
  if type =? XQC_PTYPE_INIT then XQC_PNS_INIT
  else if type =? XQC_PTYPE_HSK then XQC_PNS_HSK else XQC_PNS_APP_DATA.

(** A server keeps the token of an Initial packet. *)
Definition token_kept (c : hdr_conn) (type : Z) (token : list Z) : hdr_conn :=
  if (type =? XQC_PTYPE_INIT) && is_server (hc_type c) then hc_set_token c token else c.

Lemma parse_long_by_type_at retry type c pi token tlen len :
  type = XQC_PTYPE_INIT \/ type = XQC_PTYPE_0RTT \/ type = XQC_PTYPE_HSK ->
  (type = XQC_PTYPE_INIT -> is_server (hc_type c) = true ->
   XQC_PACKET_INITIAL_MIN_LENGTH <= hi_datagram_size pi) ->
  0 <= tlen <= XQC_MAX_TOKEN_LEN -> tlen <= zlen token -> bytes_ok (hi_buf pi) ->
  bytes_at (hi_buf pi) (hi_pos pi) (token_field type token tlen ++ length_field len) ->
  0 <= len < 2 ^ 14 ->
  let p := hi_pos pi + zlen (token_field type token tlen) in
  p + 2 + len <= hi_last pi <= zlen (hi_buf pi) ->
  parse_long_by_type retry type c pi
  = (Ok tt, hi_set_payload (hi_set_type pi type (pns_of type)) (p + 2 + len) len (p + 2),
     token_kept c type (sub_bytes token 0 tlen)).
Proof.
  intros Ht Hdg Htl Htz Hok Hat Hlen p Hlast. pose proof (bytes_at_nonneg _ _ _ Hat).
  apply bytes_at_app in Hat as [Htok Hat]. fold p in Hat. unfold parse_long_by_type, token_kept, pns_of.
  destruct Ht as [->|[->|Ht]].
  - unfold xqc_packet_parse_initial. cbn [XQC_PTYPE_INIT Z.eqb andb].
    cbn [hi_buf hi_last hi_datagram_size hi_set_type]. destruct (_ && _) eqn:E.
    { apply andb_true_iff in E as [E1 E2]. specialize (Hdg eq_refl E1). zb. }
    unfold p, token_field in *. cbn [XQC_PTYPE_INIT Z.eqb] in *.
    apply bytes_at_app in Htok as [Hv Htok]. rewrite zlen_app, zlen_enc_vint in *.
    rewrite zlen_sub_bytes in * by lia.
    rewrite (vint_read_at _ _ _ tlen (xqc_vint_get_2bit tlen)); try done.
    2: { apply vint_fits_2bit. unfold XQC_VINT_MAX, XQC_MAX_TOKEN_LEN in *. eval_pow. lia. }
    2: { fold (vlen tlen). lia. }
    2: lia.
    fold (vlen tlen). pose proof (vlen_range tlen). unfold XQC_MAX_TOKEN_LEN in *.
    rewrite left_size, u64_small by lia. case_if; [zb|]. case_if; [zb|].
    apply bytes_at_sub in Htok. rewrite zlen_sub_bytes in Htok by lia. rewrite Htok.
    rewrite Z.add_assoc in Hat. rewrite (parse_length_at _ _ _ len) by (done || simpl; lia).
    replace (hi_pos pi + vlen tlen + tlen) with (hi_pos pi + (vlen tlen + tlen)) by lia. done.
  - assert (hi_pos pi = p) as Hp by (unfold p; change (zlen (token_field _ _ _)) with 0; lia).
    cbn [XQC_PTYPE_0RTT XQC_PTYPE_INIT Z.eqb andb].
    unfold xqc_packet_parse_zero_rtt. rewrite Hp. by rewrite (parse_length_at _ _ p len).
  - subst type. assert (hi_pos pi = p) as Hp by (unfold p; change (zlen (token_field _ _ _)) with 0; lia).
    cbn [XQC_PTYPE_HSK XQC_PTYPE_0RTT XQC_PTYPE_INIT Z.eqb Pos.eqb andb].
    unfold xqc_packet_parse_handshake. rewrite Hp. by rewrite (parse_length_at _ _ p len).
Qed.

(** What the receiver of a long header needs: it is at the start of the packet, it knows the
    version, the datagram of an Initial packet is large enough, and the identifiers of a
    Handshake packet are known once the identifiers of the peer are confirmed. *)
Record long_recv_ok (c : hdr_conn) (pi : hdr_in) (type ver : Z) (dcid : list Z) (dlen : Z)
    (scid : list Z) (slen : Z) : Prop := {
  lr_pos : hi_pos pi = 0;
  lr_bytes : bytes_ok (hi_buf pi);
  lr_last : hi_last pi <= zlen (hi_buf pi);
  lr_dcid : zlen (cid_buf (hi_dcid pi)) = XQC_MAX_CID_LEN;
  lr_scid : zlen (cid_buf (hi_scid pi)) = XQC_MAX_CID_LEN;
  lr_version : is_server (hc_type c) = true -> hc_version c = XQC_IDRAFT_INIT_VER ->
    xqc_proto_version_value ver ∈ hc_support_versions c;
  lr_datagram : type = XQC_PTYPE_INIT -> is_server (hc_type c) = true ->
    XQC_PACKET_INITIAL_MIN_LENGTH <= hi_datagram_size pi;
  lr_known : type = XQC_PTYPE_HSK -> hc_dcid_ok c = true -> exists d s,
    xqc_cid_set_search_cid (hc_scid_set c) (got (hi_dcid pi) dcid dlen) = Some d
    /\ xqc_cid_set_search_cid (hc_dcid_set c) (got (hi_scid pi) scid slen) = Some s;
}.

Lemma version_check_ok c ver :
  (ver = 1 \/ ver = 2) ->
  (is_server (hc_type c) = true -> hc_version c = XQC_IDRAFT_INIT_VER ->
   xqc_proto_version_value ver ∈ hc_support_versions c) ->
  exists v, xqc_conn_version_check c (xqc_proto_version_value ver)
            = (Ok tt, hc_set_version c v (hc_version_negotiation c)).
Proof.
  intros Hver Hs. unfold xqc_conn_version_check. destruct (_ && _) eqn:E.
  - apply andb_true_iff in E as [E1 E2]. apply Z.eqb_eq in E2. specialize (Hs E1 E2).
    apply list_elem_of_In in Hs.
    assert (existsb (Z.eqb (xqc_proto_version_value ver)) (hc_support_versions c) = true) as ->.
    { apply existsb_exists. eexists. split; [done|]. apply Z.eqb_refl. }
    destruct Hver as [-> | ->]; by eexists.
  - exists (hc_version c). by destruct c.
Qed.

(** The identifiers keep their bytes when the search gives them their sequence numbers. *)
Lemma checked_cids c pi type ver dcid dlen scid slen pos :
  long_recv_ok c pi type ver dcid dlen scid slen ->
  type = XQC_PTYPE_INIT \/ type = XQC_PTYPE_0RTT \/ type = XQC_PTYPE_HSK ->
  let pi1 := hi_set_pos (hi_set_scid (hi_set_dcid pi (got (hi_dcid pi) dcid dlen))
               (got (hi_scid pi) scid slen)) pos in
  exists D S,
  (if negb (type =? XQC_PTYPE_INIT) && negb (type =? XQC_PTYPE_0RTT) && hc_dcid_ok c
   then check_known_cids c pi1 else (true, pi1))
  = (true, hi_set_pos (hi_set_scid (hi_set_dcid pi D) S) pos)
  /\ cid_len D = dlen /\ cid_buf D = cid_buf (got (hi_dcid pi) dcid dlen)
  /\ cid_len S = slen /\ cid_buf S = cid_buf (got (hi_scid pi) scid slen).
Proof.
  intros Hr Ht pi1. destruct (_ && hc_dcid_ok c) eqn:E; [|by eexists _, _].
  apply andb_true_iff in E as [E Hok]. apply andb_true_iff in E as [E1 E2].
  destruct (lr_known _ _ _ _ _ _ _ _ Hr) as (d & s & Hd & Hs); [|done|].
  { destruct Ht as [->|[->|Ht]]; done. }
  unfold check_known_cids, pi1. cbn [hi_dcid hi_scid hi_set_pos hi_set_scid hi_set_dcid].
  rewrite Hd. cbn [hi_dcid hi_scid hi_set_pos hi_set_scid hi_set_dcid]. rewrite Hs.
  by eexists _, _.
Qed.

Lemma zlen_cid_fields dcid dlen scid slen :
  0 <= dlen <= zlen dcid -> 0 <= slen <= zlen scid ->
  zlen (cid_fields dcid dlen scid slen) = 2 + dlen + slen.
Proof.
  intros. unfold cid_fields. rewrite !zlen_app, !zlen_sub_bytes by lia.
  rewrite !zlen_cons, !zlen_nil. lia.
Qed.

(** The fields of the header, each at its place. *)
Lemma long_prefix_at buf type ver bits dcid dlen scid slen token tlen len :
  long_args_ok type ver bits dcid dlen scid slen token tlen ->
  let prefix := long_prefix type ver bits dcid dlen scid slen token tlen in
  bytes_at buf 0 (prefix ++ length_field len) ->
  zlen prefix = 5 + (2 + dlen + slen) + zlen (token_field type token tlen)
  /\ rd buf 0 = long_first type bits /\ bytes_at buf 1 (xqc_proto_version_field ver)
  /\ bytes_at buf 5 (cid_fields dcid dlen scid slen)
  /\ bytes_at buf (5 + (2 + dlen + slen)) (token_field type token tlen ++ length_field len).
Proof.
  intros [Ht Hver Hb Hd Hs Htk] prefix Hat. unfold prefix, long_prefix in *.
  rewrite !zlen_app, zlen_version_field, zlen_cid_fields by lia. split; [rewrite zlen_cons, zlen_nil; lia|].
  rewrite <- !app_assoc in Hat. split; [exact (bytes_at_rd _ _ _ _ Hat)|].
  apply bytes_at_app in Hat as [_ Hat]. apply bytes_at_app in Hat as [Hv Hat].
  apply bytes_at_app in Hat as [Hcid Hat]. rewrite zlen_version_field, ?zlen_cid_fields in * by lia.
  done.
Qed.

Lemma parse_long_at cal_tag restart c pi type ver bits dcid dlen scid slen token tlen len :
  long_args_ok type ver bits dcid dlen scid slen token tlen ->
  long_recv_ok c pi type ver dcid dlen scid slen ->
  let prefix := long_prefix type ver bits dcid dlen scid slen token tlen in
  bytes_at (hi_buf pi) 0 (prefix ++ length_field len) -> 0 <= len < 2 ^ 14 ->
  zlen prefix + 2 + len <= hi_last pi ->
  exists pi' v, xqc_packet_parse_long_header cal_tag restart c pi
    = (Ok tt, pi', token_kept (hc_set_version c v (hc_version_negotiation c)) type
                     (sub_bytes token 0 tlen))
  /\ hi_buf pi' = hi_buf pi /\ hi_pkt_type pi' = type /\ hi_pkt_pns pi' = pns_of type
  /\ cid_len (hi_dcid pi') = dlen
  /\ sub_bytes (cid_buf (hi_dcid pi')) 0 dlen = sub_bytes dcid 0 dlen
  /\ cid_len (hi_scid pi') = slen
  /\ sub_bytes (cid_buf (hi_scid pi')) 0 slen = sub_bytes scid 0 slen
  /\ hi_pkt_num_offset pi' = zlen prefix + 2 /\ hi_length pi' = len
  /\ hi_last pi' = zlen prefix + 2 + len.
Proof.
  intros Ha Hr prefix Hat Hlen Hlast.
  destruct (long_prefix_at _ _ _ _ _ _ _ _ _ _ _ Ha Hat) as (Hz & H0 & Hv & Hcid & Htok).
  fold prefix in Hz. destruct Ha as [Ht Hver Hb [Hd Hd'] [Hs Hs'] [Htk Htk']].
  pose proof (zlen_nonneg (token_field type token tlen)).
  destruct (long_first_fields type bits) as (F1 & F2 & _);
    [unfold XQC_PTYPE_INIT, XQC_PTYPE_0RTT, XQC_PTYPE_HSK in Ht; lia|done|].
  unfold xqc_packet_parse_long_header. pose proof (lr_pos _ _ _ _ _ _ _ _ Hr) as Hp.
  cbn [hi_set_path hi_buf hi_last]. rewrite Hp, left_size by lia.
  change (XQC_PACKET_LONG_HEADER_PREFIX_LENGTH + 2) with 7. destruct (hi_last pi - 0 <? 7) eqn:E; [zb|].
  rewrite H0, F1, F2. change (0 + 1) with 1.
  rewrite (version_field_value _ _ ver) by done.
  assert ((xqc_proto_version_value ver =? 0) = false) as -> by (destruct Hver as [-> | ->]; done).
  assert ((type =? XQC_PTYPE_VERSION_NEGOTIATION) = false) as ->
    by (destruct Ht as [->|[->|Ht]]; [done..|by subst]).
  change (64 =? 0) with false. cbn [andb negb]. change (1 + XQC_PACKET_VERSION_LENGTH) with 5.
  rewrite (parse_long_cids_at _ _ dcid dlen scid slen) by (done || simpl; lia).
  unfold parse_long_checked.
  destruct (checked_cids c (hi_set_path pi XQC_INITIAL_PATH_ID) type ver dcid dlen scid slen
              (5 + (2 + dlen + slen))) as (D & S & -> & D1 & D2 & S1 & S2);
    [destruct Hr; by constructor|done|].
  destruct (version_check_ok c ver) as [v ->]; [done|apply Hr|]. cbn [negb].
  pose proof (lr_last _ _ _ _ _ _ _ _ Hr).
  rewrite (parse_long_by_type_at _ _ _ _ token tlen len); try done; try (apply Hr); [|simpl; lia].
  clearbody prefix. eexists _, v. split; [done|]. cbn -[got]. rewrite D1, D2, S1, S2. destruct Hr.
  rewrite !got_bytes by (done || lia). split_and!; try done; lia.
Qed.

(** ** What the receiver recovers *)

(** A packet number within half a window of the next expected one survives the truncation
    to one to four bytes: writing it, reading the bytes back and decoding them against the
    largest number received gives the number. *)
Theorem pktno_roundtrip buf p pn bits largest :
  0 <= bits <= 3 -> 0 <= p -> p + (bits + 1) <= zlen buf ->
  0 <= pn < 2 ^ 62 -> u64 (largest + 1) <= 2 ^ 62 ->
  u64 (largest + 1) - 2 ^ (8 * (bits + 1) - 1) < pn
    <= u64 (largest + 1) + 2 ^ (8 * (bits + 1) - 1) ->
  let '(buf', n) := xqc_write_packet_number buf p pn bits in
  n = bits + 1
  /\ xqc_packet_decode_packet_number largest (xqc_packet_parse_packet_number buf' p n) (n * 8) = pn.
Proof.
  intros Hb Hp Hz Hpn He Hwin. unfold xqc_write_packet_number.
  rewrite zlen_pktno_bytes by done. split; [done|]. rewrite (parse_packet_number_at _ _ pn) by
    (done || (apply bytes_at_wr; rewrite ?zlen_pktno_bytes by done; lia)).
  rewrite (Z.mul_comm _ 8). apply decode_packet_number_near; try done; lia.
Qed.

Lemma pktno_roundtrip_witness :
  xqc_packet_decode_packet_number 0xa82f30ea
    (xqc_packet_parse_packet_number (wr (replicate 8 0) 3 [0x9b; 0x32]) 3 2) (2 * 8) = 0xa82f9b32.
Proof. apply (pktno_roundtrip (replicate 8 0) 3 0xa82f9b32 1 0xa82f30ea); by_decide. Defined.

(** Two buffers that start with the same bytes. *)
Lemma bytes_at_front b1 b2 n p l :
  sub_bytes b1 0 n = sub_bytes b2 0 n -> bytes_at b1 p l -> p + zlen l <= n -> bytes_at b2 p l.
Proof.
  unfold sub_bytes, zlen. simpl. rewrite !drop_0. intros Heq. rewrite !bytes_at_lookup.
  intros [Hp H] Hn. split; [done|]. intros i x Hx. pose proof (lookup_lt_Some _ _ _ Hx).
  specialize (H i x Hx). rewrite <- (lookup_take_lt _ (Z.to_nat n)) in H by lia.
  by rewrite Heq, lookup_take_lt in H by lia.
Qed.

(** C27: the receiver of a short header finds the identifier it was sent to, takes the packet
    to the path of that identifier, and finds the packet number where the sender put it; the
    first byte tells the length of the number and the key phase, and the number decodes to the
    one sent when it is within half a window of the expected one. *)
Theorem short_header_roundtrip ho dcid bits pn kp c pi lim ci largest :
  let dlen := hc_scid_len c in
  let n := xqc_short_packet_header_size dlen bits in
  0 <= bits <= 3 -> 0 <= dlen <= zlen dcid -> out_ready ho n ->
  hi_pos pi = 0 -> n <= hi_last pi ->
  0 <= lim -> rtc (cid_step lim) xqc_init_cid_set (hc_scid_set c) ->
  xqc_cid_set_search_cid (hc_scid_set c) (xqc_cid_set (hi_dcid pi) dcid dlen) = Some ci ->
  0 <= pn < 2 ^ 62 -> u64 (largest + 1) <= 2 ^ 62 ->
  u64 (largest + 1) - 2 ^ (8 * (bits + 1) - 1) < pn
    <= u64 (largest + 1) + 2 ^ (8 * (bits + 1) - 1) ->
  let '(r, ho') := xqc_gen_short_packet_header ho dcid dlen bits pn kp in
  r = Ok n /\
  (sub_bytes (po_buf (ho_po ho')) 0 n = sub_bytes (hi_buf pi) 0 n ->
   let '(r, pi', c') := xqc_packet_parse_short_header c pi in
   let h := rd (hi_buf pi') 0 in
   let pn_len := (h .& 0x03) + 1 in
   r = Ok tt /\ hi_dcid pi' = adopt (xqc_cid_set (hi_dcid pi) dcid dlen) ci
   /\ hi_path_id pi' = path_id (ci_cid ci)
   /\ hi_pkt_num_offset pi' = po_ppktno ho' /\ po_ppktno ho' + pn_len = po_payload ho'
   /\ hi_pkt_num_offset pi' + hi_length pi' = hi_last pi'
   /\ (h .& 0x04) >> 2 = (if kp then 1 else 0)
   /\ xqc_packet_decode_packet_number largest
        (xqc_packet_parse_packet_number (hi_buf pi') (hi_pkt_num_offset pi') pn_len) (pn_len * 8)
      = pn).
Proof.
  intros dlen n Hb Hd Hr Hpos Hlast Hlim Hrun Hs Hpn He Hwin.
  destruct (gen_short_header ho dcid dlen bits pn kp) as (ho' & -> & Hbuf & Hpp & Hpay & _); [done..|].
  split; [done|]. intros Hsame. pose proof (out_ready_room _ _ Hr) as Hroom. fold n in Hpay.
  assert (zlen (short_bytes dcid dlen bits pn kp) = n) as Hz.
  { unfold short_bytes. rewrite !zlen_app, zlen_sub_bytes, zlen_pktno_bytes by lia.
    unfold n, xqc_short_packet_header_size, xqc_packet_number_bits2len. rewrite zlen_cons, zlen_nil. lia. }
  assert (bytes_at (hi_buf pi) 0 (short_bytes dcid dlen bits pn kp)) as Hat.
  { eapply bytes_at_front; [exact Hsame| |lia]. rewrite Hbuf. apply bytes_at_wr; lia. }
  unfold short_bytes in Hat. rewrite app_assoc in Hat. apply bytes_at_app in Hat as [Hat Hpk].
  assert (n = 1 + dlen + (bits + 1)) as Hn by done.
  destruct (parse_short_at c pi dcid (short_first kp bits) lim ci) as (pi' & c' & -> & B & _ & _ & D & P & O & L & G);
    try done; [by apply short_first_fields|lia|by apply reach_ok|]. cbv zeta. rewrite B, O, L, G, D, P, Hpp, Hpay, Hn.
  rewrite (bytes_at_rd _ _ _ _ Hat). destruct (short_first_fields kp bits Hb) as (_ & -> & ->).
  fold dlen. rewrite zlen_app, zlen_sub_bytes in Hpk by lia. rewrite zlen_cons, zlen_nil in Hpk.
  rewrite (parse_packet_number_at _ _ pn) by done. split_and!; try done; try lia.
  rewrite (Z.mul_comm _ 8). apply decode_packet_number_near; try done; lia.
Qed.

(** C22: an Initial, 0-RTT or Handshake packet whose header is written first, whose frames are
    then added behind it and whose Length is set at the end is read back by the receiver with
    the type, the identifiers, the token (kept by a server) and the extent it was given, also
    when other packets follow in the datagram; the packet number is where the sender put it
    and decodes to the one sent when it is within half a window of the expected one. *)
Theorem long_header_roundtrip cal_tag restart ho ho2 type ver bits dcid dlen scid slen token tlen
    c pi largest :
  long_args_ok type ver bits dcid dlen scid slen token tlen ->
  let n := xqc_long_packet_header_size dlen slen tlen bits type in
  ho_pkt_type ho = type -> out_ready ho n ->
  long_recv_ok c pi type ver dcid dlen scid slen ->
  0 <= ho_pkt_num ho < 2 ^ 62 -> u64 (largest + 1) <= 2 ^ 62 ->
  u64 (largest + 1) - 2 ^ (8 * (bits + 1) - 1) < ho_pkt_num ho
    <= u64 (largest + 1) + 2 ^ (8 * (bits + 1) - 1) ->
  let '(r, ho1) := xqc_gen_long_packet_header ho dcid dlen scid slen token tlen ver bits in
  let used := po_used_size (ho_po ho2) in
  r = Ok n /\
  (ho_pkt_type ho2 = ho_pkt_type ho1 -> po_ppktno ho2 = po_ppktno ho1 ->
   sub_bytes (po_buf (ho_po ho1)) 0 n = sub_bytes (po_buf (ho_po ho2)) 0 n ->
   n <= used < po_ppktno ho1 + 2 ^ 14 -> used <= hi_last pi ->
   sub_bytes (po_buf (ho_po (xqc_long_packet_update_length ho2))) 0 used
     = sub_bytes (hi_buf pi) 0 used ->
   let '(r, pi', c') := xqc_packet_parse_long_header cal_tag restart c pi in
   let pn_len := (rd (hi_buf pi') 0 .& 0x03) + 1 in
   r = Ok tt /\ hi_pkt_type pi' = type /\ hi_pkt_pns pi' = pns_of type
   /\ cid_len (hi_dcid pi') = dlen
   /\ sub_bytes (cid_buf (hi_dcid pi')) 0 dlen = sub_bytes dcid 0 dlen
   /\ cid_len (hi_scid pi') = slen
   /\ sub_bytes (cid_buf (hi_scid pi')) 0 slen = sub_bytes scid 0 slen
   /\ (type = XQC_PTYPE_INIT -> is_server (hc_type c) = true -> hc_token c' = sub_bytes token 0 tlen)
   /\ hi_pkt_num_offset pi' = po_ppktno ho1 /\ po_ppktno ho1 + pn_len = po_payload ho1
   /\ hi_pkt_num_offset pi' + hi_length pi' = used /\ hi_last pi' = used
   /\ xqc_packet_decode_packet_number largest
        (xqc_packet_parse_packet_number (hi_buf pi') (hi_pkt_num_offset pi') pn_len) (pn_len * 8)
      = ho_pkt_num ho).
Proof.
  intros Ha n Ht Hr Hrecv Hpn He Hwin. pose proof (la_bits _ _ _ _ _ _ _ _ _ Ha) as Hb.
  destruct (gen_long_header _ _ _ _ _ _ _ _ _ Ha ho Ht Hr) as (ho1 & -> & Hbuf & Hpp & Hpay & Ht1 & _).
  pose proof (zlen_long_prefix _ _ _ _ _ _ _ _ _ Ha) as Hz. fold n in Hz.
  remember (long_prefix type ver bits dcid dlen scid slen token tlen) as prefix eqn:Hpre.
  pose proof (out_ready_room _ _ Hr) as Hroom. pose proof (zlen_nonneg prefix). fold n in Hpay.
  split; [done|]. intros Ht2 Hpp2 Hsame Hused Hlast Hsame2. rewrite Hpp in *.
  assert (zlen (pktno_bytes (ho_pkt_num ho) bits) = bits + 1) as Hpz by by apply zlen_pktno_bytes.
  assert (bytes_at (po_buf (ho_po ho2)) 0 prefix
          /\ bytes_at (po_buf (ho_po ho2)) (zlen prefix + 2) (pktno_bytes (ho_pkt_num ho) bits)) as [B1 B2].
  { rewrite Hbuf in Hsame. split; (eapply bytes_at_front; [exact Hsame| |lia]).
    - apply bytes_at_wr_ne; [lia| |lia]. apply bytes_at_wr; lia.
    - apply bytes_at_wr; rewrite ?zlen_wr; lia. }
  pose proof (update_length_at _ _ _ _ _ _ _ _ _ Ha ho2 (pktno_bytes (ho_pkt_num ho) bits)) as Hup.
  rewrite <- Hpre, Hpp2 in Hup. apply (bytes_at_front _ (hi_buf pi) (po_used_size (ho_po ho2))) in Hup;
    [|done|by rewrite Ht2|done|done|done|intros E; rewrite E, zlen_nil in Hpz; lia|lia|
     rewrite !zlen_app, zlen_length_field; lia].
  rewrite app_assoc in Hup. apply bytes_at_app in Hup as [Hup Hpk].
  rewrite zlen_app, zlen_length_field, Z.add_0_l in Hpk. rewrite Hpre in Hup.
  destruct (parse_long_at cal_tag restart c pi _ _ _ _ _ _ _ _ _ _ Ha Hrecv Hup)
    as (pi' & v & -> & B & T & P & D1 & D2 & S1 & S2 & O & G & L); [rewrite <- Hpre; lia..|].
  rewrite <- Hpre in *. cbv zeta. rewrite B, T, P, D1, D2, S1, S2, O, G, L, Hpay.
  destruct (long_prefix_at _ _ _ _ _ _ _ _ _ _ _ Ha ltac:(rewrite <- Hpre; exact Hup)) as (_ & -> & _).
  destruct (long_first_fields type bits) as (_ & _ & -> & _); [|done|].
  { destruct (la_type _ _ _ _ _ _ _ _ _ Ha) as [-> | [-> | ->]]; done. }
  rewrite (parse_packet_number_at _ _ (ho_pkt_num ho)) by done.
  split_and!; try done; try lia.
  - intros -> Hsv. unfold token_kept. simpl. by rewrite Hsv.
  - rewrite (Z.mul_comm _ 8). apply decode_packet_number_near; try done; lia.
Qed.

(** ** Reading stays inside the datagram *)

Definition with_hbuf (b : list Z) (pi : hdr_in) : hdr_in :=
  mk_hi b (hi_buf_size pi) (hi_pos pi) (hi_last pi) (hi_datagram_size pi) (hi_pkt_type pi)
    (hi_pkt_pns pi) (hi_dcid pi) (hi_scid pi) (hi_length pi) (hi_pkt_num_offset pi)
    (hi_path_id pi).

Definition swap_buf (b : list Z) (o : res unit * hdr_in * hdr_conn) : res unit * hdr_in * hdr_conn :=
  let '(r, pi, c) := o in (r, with_hbuf b pi, c).

(** The packet at the front of a buffer that holds at least the datagram. *)
Record in_ok (pi : hdr_in) : Prop := {
  in_bytes : bytes_ok (hi_buf pi);
  in_pos : 0 <= hi_pos pi;
  in_last : hi_last pi <= zlen (hi_buf pi);
  in_size : hi_buf_size pi = hi_last pi;
  in_width : hi_last pi < 2 ^ 32;
}.

(** [b] holds the same datagram; what lies behind it may differ. *)
Definition same_dgram (pi : hdr_in) (b : list Z) : Prop :=
  agree (hi_buf pi) b 0 (hi_last pi) /\ hi_last pi <= zlen b.

(** The handler's outcome does not depend on the bytes behind the datagram. *)
Definition reads_inside (h : handler) (c : hdr_conn) (pi : hdr_in) : Prop :=
  forall b, same_dgram pi b -> h c (with_hbuf b pi) = swap_buf b (h c pi).

(** The payload that was announced lies inside the datagram. *)
Definition extent_inside (h : handler) (c : hdr_conn) (pi : hdr_in) : Prop :=
  forall pi' c', h c pi = (Ok tt, pi', c') ->
  hi_last pi' <= hi_last pi
  /\ (hi_pkt_type pi' <> XQC_PTYPE_RETRY -> hi_pkt_type pi' <> XQC_PTYPE_VERSION_NEGOTIATION ->
      hi_pos pi < hi_pkt_num_offset pi' /\ 0 <= hi_length pi'
      /\ hi_pkt_num_offset pi' + hi_length pi' = hi_last pi').

(** The next guard that refuses the packet does so whatever lies behind the datagram. *)
Ltac skip_err :=
  match goal with
  | |- context [if ?b then (Err _, _, _) else _] => destruct b eqn:?; [done|]
  end.

Lemma vint_read_dgram pi b pos :
  same_dgram pi b -> hi_last pi <= zlen (hi_buf pi) -> 0 <= pos ->
  xqc_vint_read b pos (hi_last pi) = xqc_vint_read (hi_buf pi) pos (hi_last pi).
Proof. intros [Ha Hz] Hl Hp. symmetry. apply vint_read_agree; [by eapply agree_mono|done..]. Qed.

Lemma sub_bytes_dgram pi b pos n :
  same_dgram pi b -> hi_last pi <= zlen (hi_buf pi) -> 0 <= pos -> 0 <= n -> pos + n <= hi_last pi ->
  sub_bytes b pos n = sub_bytes (hi_buf pi) pos n.
Proof. intros [Ha Hb] **. symmetry. eapply agree_sub_bytes; [by eapply agree_mono|done..]. Qed.

Lemma rd_dgram pi b i : same_dgram pi b -> 0 <= i < hi_last pi -> rd b i = rd (hi_buf pi) i.
Proof. intros [Ha _] Hi. symmetry. by apply Ha. Qed.

Lemma left_size_pos pos last n : 0 < n -> n <= XQC_BUFF_LEFT_SIZE pos last -> pos + n <= last.
Proof. unfold XQC_BUFF_LEFT_SIZE. intros Hn. case_if; zb. Qed.

Lemma parse_length_inside c pi pos :
  0 <= pos -> hi_last pi <= zlen (hi_buf pi) ->
  reads_inside (fun c pi => parse_length c pi pos) c pi.
Proof.
  intros Hp Hl b Hs. unfold parse_length. cbn [hi_buf hi_last with_hbuf].
  rewrite (vint_read_dgram _ _ _ Hs Hl Hp).
  destruct (xqc_vint_read _ _ _) as [[len n]|]; [|done]. cbn [hi_last hi_set_payload].
  case_if; [done|]. by case_if.
Qed.

Lemma parse_length_extent c pi pos pi' c' :
  bytes_ok (hi_buf pi) -> parse_length c pi pos = (Ok tt, pi', c') ->
  c' = c /\ hi_pkt_type pi' = hi_pkt_type pi /\ hi_last pi' <= hi_last pi
  /\ pos < hi_pkt_num_offset pi' /\ 0 <= hi_length pi'
  /\ hi_pkt_num_offset pi' + hi_length pi' = hi_last pi'.
Proof.
  intros Hok. unfold parse_length. destruct (xqc_vint_read _ _ _) as [[len n]|] eqn:E; [|done].
  pose proof (vint_read_len _ _ _ _ _ E). pose proof (vint_read_nonneg _ _ _ _ _ E Hok).
  case_if; [done|]. cbn [hi_last hi_set_payload].
  case_if; [done|]. intros [= <- <-]. cbn. split_and!; done || zb.
Qed.

Lemma parse_initial_inside c pi : in_ok pi -> reads_inside xqc_packet_parse_initial c pi.
Proof.
  intros Hok b Hs. destruct Hok. unfold xqc_packet_parse_initial.
  cbn [hi_buf hi_last hi_pos hi_set_type hi_datagram_size with_hbuf].
  rewrite (vint_read_dgram _ _ _ Hs in_last0 in_pos0). case_if; [done|].
  destruct (xqc_vint_read _ _ _) as [[tl n]|] eqn:Ev; [|done].
  pose proof (vint_read_len _ _ _ _ _ Ev). pose proof (vint_read_nonneg _ _ _ _ _ Ev in_bytes0).
  destruct (_ <? u64 (n + tl)) eqn:E1; [done|].
  destruct (XQC_MAX_TOKEN_LEN <? tl) eqn:E2; [done|]. unfold XQC_MAX_TOKEN_LEN in E2. zify_bools.
  rewrite u64_small in E1 by lia. apply left_size_pos in E1; [|lia].
  rewrite (sub_bytes_dgram pi b) by (done || lia).
  apply (parse_length_inside _ (hi_set_type pi XQC_PTYPE_INIT XQC_PNS_INIT)); [lia|done..].
Qed.

Lemma parse_initial_extent c pi : in_ok pi -> extent_inside xqc_packet_parse_initial c pi.
Proof.
  intros Hok pi' c'. destruct Hok. unfold xqc_packet_parse_initial.
  cbn [hi_buf hi_last hi_set_type hi_datagram_size]. case_if; [done|].
  destruct (xqc_vint_read _ _ _) as [[tl n]|] eqn:Ev; [|done].
  pose proof (vint_read_len _ _ _ _ _ Ev). pose proof (vint_read_nonneg _ _ _ _ _ Ev in_bytes0).
  case_if; [done|]. case_if; [done|]. intros Hp. apply parse_length_extent in Hp; [|done].
  cbn [hi_last hi_set_type] in Hp. destruct Hp as (_ & _ & Hl & Hp & Hn & Hs). split; [done|]. lia.
Qed.

Lemma parse_retry_inside cal_tag restart c pi :
  in_ok pi -> reads_inside (xqc_packet_parse_retry cal_tag restart) c pi.
Proof.
  intros Hok b Hs. destruct Hok. unfold xqc_packet_parse_retry.
  cbn [hi_buf hi_last hi_pos hi_set_type hi_buf_size hi_scid with_hbuf hc_version hc_set_token].
  rewrite in_size0.
  do 3 (case_if; [done|]). destruct (XQC_BUFF_LEFT_SIZE _ _ <? _) eqn:Eleft; [done|].
  apply Z.ltb_ge, left_size_pos in Eleft; [|done]. unfold XQC_RETRY_INTEGRITY_TAG_LEN in *.
  rewrite left_size, (u32_small (hi_last pi - hi_pos pi - 16)), (u32_small (hi_last pi - 16)) by lia.
  case_if; [done|]. rewrite !(sub_bytes_dgram pi b) by (done || lia).
  assert (xqc_conn_gen_retry_integrity_tag cal_tag (hc_version c) (cid_buf (hs_original_dcid (hc_hs c)))
      (cid_len (hs_original_dcid (hc_hs c))) b (hi_last pi - 16)
    = xqc_conn_gen_retry_integrity_tag cal_tag (hc_version c) (cid_buf (hs_original_dcid (hc_hs c)))
      (cid_len (hs_original_dcid (hc_hs c))) (hi_buf pi) (hi_last pi - 16)) as ->.
  { unfold xqc_conn_gen_retry_integrity_tag. by rewrite (sub_bytes_dgram pi b) by (done || lia). }
  destruct (xqc_conn_gen_retry_integrity_tag _ _ _ _ _ _); [|done].
  case_if; [done|]. by case_if.
Qed.

Lemma parse_retry_extent cal_tag restart c pi pi' c' :
  xqc_packet_parse_retry cal_tag restart c pi = (Ok tt, pi', c') ->
  hi_last pi' <= hi_last pi /\ hi_pkt_type pi' = XQC_PTYPE_RETRY.
Proof.
  unfold xqc_packet_parse_retry. cbn [hi_buf hi_last hi_pos hi_set_type hi_buf_size hi_scid].
  do 2 (case_if; [done|]). case_if; [intros [= <- <-]; split; [done|done]|].
  do 2 (case_if; [done|]). destruct (xqc_conn_gen_retry_integrity_tag _ _ _ _ _ _); [|done].
  case_if; [intros [= <- <-]; split; done|]. case_if; [done|].
  intros [= _ <- <-]. cbn. split; [zb|done].
Qed.

Lemma vn_loop_inside pi b : same_dgram pi b -> hi_last pi <= zlen (hi_buf pi) ->
  forall n pos vs, 0 <= pos -> vn_loop n b pos (hi_last pi) vs = vn_loop n (hi_buf pi) pos (hi_last pi) vs.
Proof.
  intros Hs Hl. induction n as [|n IH]; intros pos vs Hp; [done|]. cbn [vn_loop].
  destruct (_ <? _) eqn:E; [done|]. apply Z.ltb_ge, left_size_pos in E; [|done].
  unfold XQC_PACKET_VERSION_LENGTH in *.
  rewrite (sub_bytes_dgram pi b) by (done || lia). apply IH. lia.
Qed.

Lemma parse_vn_inside c pi : in_ok pi -> reads_inside xqc_packet_parse_version_negotiation c pi.
Proof.
  intros Hok b Hs. destruct Hok. unfold xqc_packet_parse_version_negotiation.
  cbn [hi_buf hi_last hi_pos hi_set_type hi_set_pos hi_scid hi_dcid with_hbuf].
  rewrite (vn_loop_inside pi b) by done. do 5 skip_err. by destruct (existsb _ _).
Qed.

Lemma parse_vn_extent c pi pi' c' :
  xqc_packet_parse_version_negotiation c pi = (Ok tt, pi', c') ->
  hi_last pi' <= hi_last pi /\ hi_pkt_type pi' = XQC_PTYPE_VERSION_NEGOTIATION.
Proof.
  unfold xqc_packet_parse_version_negotiation. do 5 skip_err.
  destruct (existsb _ _); [|done]. intros [= <- <-]. done.
Qed.

Lemma by_type_inside cal_tag restart type c pi :
  in_ok pi ->
  reads_inside (parse_long_by_type (xqc_packet_parse_retry cal_tag restart) type) c pi
  /\ extent_inside (parse_long_by_type (xqc_packet_parse_retry cal_tag restart) type) c pi.
Proof.
  intros Hok. pose proof Hok as [Hb Hp Hl _ _]. unfold parse_long_by_type. split.
  - intros b Hs. case_if; [by apply parse_initial_inside|].
    case_if; [by apply (parse_length_inside c (hi_set_type pi XQC_PTYPE_0RTT XQC_PNS_APP_DATA))|].
    case_if; [by apply (parse_length_inside c (hi_set_type pi XQC_PTYPE_HSK XQC_PNS_HSK))|].
    case_if; [by apply parse_retry_inside|]. case_if; [by apply parse_vn_inside|done].
  - intros pi' c'. case_if; [by apply parse_initial_extent|].
    case_if; [intros H; apply parse_length_extent in H; [|done]; cbn in H; split; lia|].
    case_if; [intros H; apply parse_length_extent in H; [|done]; cbn in H; split; lia|].
    case_if; [intros H; apply parse_retry_extent in H as [? ?]; split; [done|congruence]|].
    case_if; [intros H; apply parse_vn_extent in H as [? ?]; split; [done|congruence]|done].
Qed.

Lemma known_cids_buf c pi b :
  check_known_cids c (with_hbuf b pi)
  = (fst (check_known_cids c pi), with_hbuf b (snd (check_known_cids c pi))).
Proof.
  unfold check_known_cids. cbn [hi_dcid hi_scid with_hbuf].
  destruct (xqc_cid_set_search_cid _ _); [|done]. cbn [hi_dcid hi_scid with_hbuf hi_set_dcid].
  by destruct (xqc_cid_set_search_cid _ _).
Qed.

(** The checks leave all but the identifiers as it was. *)
Lemma known_cids_same c pi :
  let pi' := snd (check_known_cids c pi) in
  hi_buf pi' = hi_buf pi /\ hi_buf_size pi' = hi_buf_size pi /\ hi_pos pi' = hi_pos pi
  /\ hi_last pi' = hi_last pi.
Proof. unfold check_known_cids. by repeat destruct (xqc_cid_set_search_cid _ _). Qed.

Lemma checked_inside cal_tag restart type version c pi :
  in_ok pi ->
  reads_inside (parse_long_checked (xqc_packet_parse_retry cal_tag restart) type version) c pi
  /\ extent_inside (parse_long_checked (xqc_packet_parse_retry cal_tag restart) type version) c pi.
Proof.
  intros Hok. set (cond := negb (type =? XQC_PTYPE_INIT) && negb (type =? XQC_PTYPE_0RTT) && hc_dcid_ok c).
  set (pi1 := if cond then snd (check_known_cids c pi) else pi).
  assert (in_ok pi1 /\ hi_pos pi1 = hi_pos pi /\ hi_last pi1 = hi_last pi /\ hi_buf pi1 = hi_buf pi)
    as (Hok1 & Hp1 & Hl1 & Hb1).
  { unfold pi1. destruct cond; [|done]. destruct (known_cids_same c pi) as (E1 & E2 & E3 & E4).
    split_and!; try done. destruct Hok. split; congruence. }
  assert (forall b, (if cond then check_known_cids c (with_hbuf b pi) else (true, with_hbuf b pi))
    = (if cond then fst (check_known_cids c pi) else true, with_hbuf b pi1)) as Hkn.
  { intros b. unfold pi1. destruct cond; [apply known_cids_buf|done]. }
  assert ((if cond then check_known_cids c pi else (true, pi))
    = (if cond then fst (check_known_cids c pi) else true, pi1)) as Hkn0.
  { unfold pi1. destruct cond; [by destruct (check_known_cids c pi)|done]. }
  unfold parse_long_checked. split.
  - intros b Hs. fold cond. rewrite Hkn, Hkn0. skip_err.
    destruct (xqc_conn_version_check c version) as [[] c1]; [|done].
    apply by_type_inside; [done|]. unfold same_dgram. by rewrite Hb1, Hl1.
  - intros pi' c'. fold cond. rewrite Hkn0. skip_err.
    destruct (xqc_conn_version_check c version) as [[] c1]; [|done]. intros H.
    apply by_type_inside in H; [|done]. by rewrite Hp1, Hl1 in H.
Qed.

(** The identifiers are read inside the datagram and fit their fields. *)
Lemma parse_long_cids_inside pi pos r pi' :
  0 <= pos < hi_last pi -> bytes_ok (hi_buf pi) -> parse_long_cids pi pos = (r, pi') ->
  (forall b, same_dgram pi b -> hi_last pi <= zlen (hi_buf pi) ->
     parse_long_cids (with_hbuf b pi) pos = (r, with_hbuf b pi'))
  /\ hi_buf pi' = hi_buf pi /\ hi_buf_size pi' = hi_buf_size pi /\ hi_last pi' = hi_last pi
  /\ match r with
     | Ok p => pos < p <= hi_last pi /\ 0 <= cid_len (hi_dcid pi') <= XQC_MAX_CID_LEN
               /\ 0 <= cid_len (hi_scid pi') <= XQC_MAX_CID_LEN
     | Err _ => True
     end.
Proof.
  intros Hp Hok. unfold parse_long_cids. cbn [hi_buf hi_last with_hbuf].
  pose proof (rd_is_byte (hi_buf pi) pos Hok) as Hd. unfold is_byte in Hd.
  destruct (_ || (XQC_MAX_CID_LEN <? rd (hi_buf pi) pos)) eqn:E1.
  { intros [= <- <-]. split_and!; try done. intros b Hs Hl.
    by rewrite (rd_dgram pi b), E1 by (done || lia). }
  apply orb_false_iff in E1 as [E1 E1']. pose proof E1 as E1b. apply Z.ltb_ge, left_size_pos in E1b; [|lia].
  set (p2 := pos + 1 + rd (hi_buf pi) pos). cbn [hi_buf hi_last hi_scid hi_dcid hi_set_dcid].
  pose proof (rd_is_byte (hi_buf pi) p2 Hok) as Hs2. unfold is_byte in Hs2.
  assert (forall b, same_dgram pi b -> hi_last pi <= zlen (hi_buf pi) ->
    rd b pos = rd (hi_buf pi) pos /\ rd b p2 = rd (hi_buf pi) p2
    /\ read_cid (hi_dcid (with_hbuf b pi)) b (pos + 1) (rd (hi_buf pi) pos)
       = read_cid (hi_dcid pi) (hi_buf pi) (pos + 1) (rd (hi_buf pi) pos)) as Hsame.
  { intros b Hs Hl. split_and!; try (apply (rd_dgram pi b); done || lia).
    unfold read_cid. by rewrite (sub_bytes_dgram pi b) by (done || lia). }
  destruct (_ || (XQC_MAX_CID_LEN <? rd (hi_buf pi) p2)) eqn:E2.
  { intros [= <- <-]. split_and!; try done. intros b Hs Hl. destruct (Hsame b Hs Hl) as (-> & R & ->).
    rewrite E1, E1'. cbn [orb]. fold p2. by rewrite R, E2. }
  intros [= <- <-]. apply orb_false_iff in E2 as [E2 E2']. apply Z.ltb_ge in E1', E2'.
  assert (p2 + 1 + rd (hi_buf pi) p2 <= hi_last pi) as E2b.
  { apply Z.ltb_ge in E2. destruct (decide (rd (hi_buf pi) p2 = 0)); [lia|]. apply left_size_pos in E2; lia. }
  split_and!; try done; try (cbn; lia). intros b Hs Hl. destruct (Hsame b Hs Hl) as (-> & R & ->).
  apply Z.ltb_ge in E1', E2'. rewrite E1, E1'. cbn [orb]. fold p2. rewrite R, E2, E2'. cbn [orb].
  unfold read_cid. by rewrite (sub_bytes_dgram pi b) by (done || lia).
Qed.

(** C23: whatever the bytes of a datagram, the reader of a long header looks at no byte behind
    it: the outcome is the same whatever follows. Where it accepts the packet, the packet
    ends inside the datagram, and an Initial, 0-RTT or Handshake
    packet has its packet number behind the start and a payload of exactly the length it
    announced. *)
Theorem long_header_safe cal_tag restart c pi :
  in_ok pi ->
  reads_inside (xqc_packet_parse_long_header cal_tag restart) c pi
  /\ extent_inside (xqc_packet_parse_long_header cal_tag restart) c pi.
Proof.
  intros Hok. pose proof Hok as [Hb Hp Hl Hsz Hw]. unfold reads_inside, extent_inside, xqc_packet_parse_long_header.
  cbn [hi_buf hi_last hi_pos hi_set_path with_hbuf].
  destruct (_ <? XQC_PACKET_LONG_HEADER_PREFIX_LENGTH + 2) eqn:E; [done|].
  apply Z.ltb_ge, left_size_pos in E; [|done]. change (XQC_PACKET_LONG_HEADER_PREFIX_LENGTH + 2) with 7 in E.
  change XQC_PACKET_VERSION_LENGTH with 4. set (p := hi_pos pi + 1 + 4).
  set (pi0 := hi_set_path pi XQC_INITIAL_PATH_ID).
  destruct (parse_long_cids pi0 p) as [r pi1] eqn:Hcid.
  destruct (parse_long_cids_inside pi0 p r pi1) as (Hag & B & S & L & Hr); [unfold p; cbn; lia|done..|].
  split.
  - intros b Hs. unfold xqc_parse_uint32. rewrite !(rd_dgram pi b) by (done || lia).
    do 2 skip_err.
    change (hi_set_path (with_hbuf b pi) XQC_INITIAL_PATH_ID) with (with_hbuf b pi0).
    rewrite (Hag b Hs Hl). destruct r as [p'|e]; [|done].
    apply (checked_inside _ _ _ _ c (hi_set_pos pi1 p')).
    + destruct Hr. unfold p, pi0 in *. cbn in *. split; cbn; congruence || lia.
    + unfold same_dgram. cbn [hi_buf hi_last hi_set_pos]. by rewrite B, L.
  - intros pi' c'. do 2 skip_err. destruct r as [p'|e]; [|done]. intros H.
    apply (checked_inside _ _ _ _ c (hi_set_pos pi1 p')) in H.
    + cbn [hi_last hi_pos hi_set_pos] in H. rewrite L in H. destruct Hr as [Hr _]. unfold p, pi0 in *.
      cbn in *. destruct H as [H1 H2]. split; [done|]. intros T1 T2. specialize (H2 T1 T2). lia.
    + destruct Hr. unfold p, pi0 in *. cbn in *. split; cbn; congruence || lia.
Qed.

(** ** Retry *)

Definition retry_bytes (dcid : list Z) (dlen : Z) (scid : list Z) (slen : Z) (token : list Z)
    (tlen ver : Z) : list Z :=
  [u8 (0xC0 .| (XQC_PTYPE_RETRY << 4))] ++ be_bytes 4 ver ++ cid_fields dcid dlen scid slen
  ++ sub_bytes token 0 tlen.

(** A client that has sent its first Initial packet and received nothing yet. *)
Record client_waiting (c : hdr_conn) : Prop := {
  cw_type : hc_type c = XQC_CONN_TYPE_CLIENT;
  cw_retry : hs_retry_recvd (hc_hs c) = false;
  cw_init : hs_init_recvd (hc_hs c) = false;
  cw_dcid : hc_dcid_ok c = false;
}.

(** The whole datagram is one packet. *)
Record whole_packet (pi : hdr_in) (pkt : list Z) : Prop := {
  wp_buf : hi_buf pi = pkt;
  wp_pos : hi_pos pi = 0;
  wp_last : hi_last pi = zlen pkt;
  wp_size : hi_buf_size pi = zlen pkt;
}.

Section retry.

Context (cal_tag : Z -> list Z -> option (list Z)) (restart : hdr_conn -> res unit).
Context (dcid : list Z) (dlen : Z) (scid : list Z) (slen : Z) (token : list Z) (tlen ver : Z).
Context (Hd : 0 <= dlen <= XQC_MAX_CID_LEN) (Hdz : dlen <= zlen dcid).
Context (Hs : 0 <= slen <= XQC_MAX_CID_LEN) (Hsz : slen <= zlen scid).
Context (Ht : 1 <= tlen <= XQC_MAX_TOKEN_LEN) (Htz : tlen <= zlen token).
Context (Hver : 0 < ver < 2 ^ 32).

Let bs := retry_bytes dcid dlen scid slen token tlen ver.

Lemma zlen_retry_bytes : zlen bs = 7 + dlen + slen + tlen.
Proof.
  unfold bs, retry_bytes. rewrite !zlen_app, zlen_cid_fields, zlen_be_bytes, zlen_sub_bytes by lia.
  rewrite zlen_cons, zlen_nil. lia.
Qed.

Lemma be_uint32 buf p v : 0 <= v < 2 ^ 32 -> bytes_at buf p (be_bytes 4 v) -> xqc_parse_uint32 buf p = v.
Proof.
  intros Hv Hat. pose proof (be_val_be_bytes_small 4 v ltac:(lia)) as Hval.
  unfold xqc_parse_uint32. cbn [be_bytes] in *.
  rewrite (bytes_at_rd _ _ _ _ Hat). apply bytes_at_cons in Hat as [_ Hat].
  rewrite (bytes_at_rd _ _ _ _ Hat). apply bytes_at_cons in Hat as [_ Hat].
  replace (p + 2) with (p + 1 + 1) by lia. replace (p + 3) with (p + 1 + 1 + 1) by lia.
  rewrite (bytes_at_rd _ _ _ _ Hat). apply bytes_at_cons in Hat as [_ Hat].
  rewrite (bytes_at_rd _ _ _ _ Hat).
  rewrite !be_val_cons, !zlen_cons, !zlen_nil in Hval. change (be_val []) with 0 in Hval.
  pose proof (u8_range (v >> (8 * Z.of_nat 3))). pose proof (u8_range (v >> (8 * Z.of_nat 2))).
  pose proof (u8_range (v >> (8 * Z.of_nat 1))). pose proof (u8_range (v >> (8 * Z.of_nat 0))).
  remember (u8 (v >> (8 * Z.of_nat 3))) as b0. remember (u8 (v >> (8 * Z.of_nat 2))) as b1.
  remember (u8 (v >> (8 * Z.of_nat 1))) as b2. remember (u8 (v >> (8 * Z.of_nat 0))) as b3.
  rewrite <- !Z.lor_assoc, (shiftl_lor_add b3 b2 8) by lia.
  rewrite (shiftl_lor_add _ b1 16), (shiftl_lor_add _ b0 24) by lia. lia.
Qed.

Context (tail : list Z) (Htail : zlen tail = XQC_RETRY_INTEGRITY_TAG_LEN).
Context (c : hdr_conn) (Hc : client_waiting c).
Context (pi : hdr_in) (Hpi : whole_packet pi (bs ++ tail)).

(** The header is read up to the token. *)
Let at_token : hdr_in :=
  hi_set_pos (hi_set_scid (hi_set_dcid (hi_set_path pi XQC_INITIAL_PATH_ID)
    (got (hi_dcid pi) dcid dlen)) (got (hi_scid pi) scid slen)) (7 + dlen + slen).

Lemma retry_at :
  rd (hi_buf pi) 0 = 0xF0 /\ bytes_at (hi_buf pi) 1 (be_bytes 4 ver)
  /\ bytes_at (hi_buf pi) 5 (cid_fields dcid dlen scid slen)
  /\ bytes_at (hi_buf pi) (7 + dlen + slen) (sub_bytes token 0 tlen)
  /\ bytes_at (hi_buf pi) (zlen bs) tail /\ sub_bytes (hi_buf pi) 0 (zlen bs) = bs.
Proof.
  rewrite (wp_buf _ _ Hpi). assert (bytes_at (bs ++ tail) 0 (bs ++ tail)) as Hat.
  { split; [done|apply sub_bytes_all]. }
  apply bytes_at_app in Hat as [Hat Htl]. pose proof Hat as [_ Hsub].
  unfold bs in Hat at 2. unfold retry_bytes in Hat.
  split; [exact (bytes_at_rd _ _ _ _ Hat)|]. apply bytes_at_app in Hat as [_ Hat].
  apply bytes_at_app in Hat as [Hv Hat]. apply bytes_at_app in Hat as [Hcid Hat].
  rewrite zlen_cid_fields, zlen_be_bytes in * by lia. split_and!; try done.
  replace (7 + dlen + slen) with (0 + zlen [u8 (0xC0 .| (XQC_PTYPE_RETRY << 4))] + Z.of_nat 4 + (2 + dlen + slen)).
  - done.
  - rewrite zlen_cons, zlen_nil. lia.
Qed.

Lemma retry_dispatch :
  xqc_packet_parse_long_header cal_tag restart c pi
  = xqc_packet_parse_retry cal_tag restart c at_token.
Proof.
  destruct retry_at as (H0 & Hv & Hcid & _). pose proof zlen_retry_bytes as Hz.
  unfold xqc_packet_parse_long_header. cbn [hi_set_path hi_buf hi_last].
  rewrite (wp_pos _ _ Hpi), left_size by (rewrite (wp_last _ _ Hpi); apply zlen_nonneg).
  rewrite (wp_last _ _ Hpi), zlen_app, Htail, Hz.
  change (XQC_PACKET_LONG_HEADER_PREFIX_LENGTH + 2) with 7. unfold XQC_RETRY_INTEGRITY_TAG_LEN.
  destruct (_ <? 7) eqn:E; [zb|]. rewrite H0. change (0 + 1) with 1. rewrite (be_uint32 _ _ ver) by (done || lia).
  assert ((ver =? 0) = false) as -> by (apply Z.eqb_neq; lia).
  change (0xF0 .& 0x40) with 0x40. change ((0xF0 .& 0x30) >> 4) with XQC_PTYPE_RETRY.
  cbn [andb negb XQC_PTYPE_RETRY XQC_PTYPE_VERSION_NEGOTIATION Z.eqb Pos.eqb].
  change (1 + XQC_PACKET_VERSION_LENGTH) with 5.
  rewrite (parse_long_cids_at _ _ dcid dlen scid slen); try done.
  2: { cbn. rewrite (wp_last _ _ Hpi), zlen_app, Htail, Hz. unfold XQC_RETRY_INTEGRITY_TAG_LEN. lia. }
  unfold parse_long_checked. rewrite (cw_dcid _ Hc), andb_false_r. cbn [negb].
  unfold xqc_conn_version_check. rewrite (cw_type _ Hc). cbn [is_server andb].
  unfold at_token. by replace (7 + dlen + slen) with (5 + (2 + dlen + slen)) by lia.
Qed.

(** What a waiting client does with the packet, by the tag it carries. *)
Lemma retry_outcome :
  xqc_cid_is_equal (hs_original_dcid (hc_hs c)) (got (hi_scid pi) scid slen) = false ->
  let c1 := hc_set_token c (sub_bytes token 0 tlen) in
  let pi1 := hi_set_type at_token XQC_PTYPE_RETRY (hi_pkt_pns pi) in
  xqc_packet_parse_long_header cal_tag restart c pi
  = match xqc_conn_gen_retry_integrity_tag cal_tag (hc_version c)
            (cid_buf (hs_original_dcid (hc_hs c))) (cid_len (hs_original_dcid (hc_hs c))) bs (zlen bs) with
    | Err _ => (Err XQC_EILLPKT, pi1, c1)
    | Ok tag =>
        if bool_decide (tag = tail)
        then let '(r, c2) := xqc_conn_on_recv_retry restart c1 (got (hi_scid pi) scid slen) in
             (r, hi_set_payload pi1 (hi_last pi) (hi_length pi) (hi_pkt_num_offset pi), c2)
        else (Ok tt, hi_set_pos pi1 (hi_last pi), c1)
    end.
Proof.
  intros Hne c1 pi1. rewrite retry_dispatch. destruct retry_at as (_ & _ & _ & Htk & Htg & Hsub).
  pose proof zlen_retry_bytes as Hz. unfold XQC_RETRY_INTEGRITY_TAG_LEN, XQC_MAX_TOKEN_LEN, XQC_MAX_CID_LEN in *.
  unfold xqc_packet_parse_retry, at_token.
  cbn [hi_buf hi_last hi_pos hi_set_type hi_buf_size hi_scid hi_set_pos hi_set_scid hi_set_dcid hi_set_path
       hc_version hc_set_token].
  rewrite (cw_type _ Hc), (cw_retry _ Hc), (cw_init _ Hc), Hne. cbn [is_server orb].
  rewrite (wp_last _ _ Hpi), (wp_size _ _ Hpi), zlen_app, Htail, Hz, left_size by lia.
  unfold XQC_RETRY_INTEGRITY_TAG_LEN, XQC_MAX_TOKEN_LEN.
  replace (7 + dlen + slen + tlen + 16 - (7 + dlen + slen)) with (tlen + 16) by lia.
  replace (tlen + 16 - 16) with tlen by lia. replace (7 + dlen + slen + tlen + 16 - 16) with (zlen bs) by lia.
  rewrite (u32_small tlen), (u32_small (zlen bs)) by lia.
  destruct (tlen + 16 <? 16 + 1) eqn:E1; [zb|]. destruct (256 <? tlen) eqn:E2; [zb|].
  apply bytes_at_sub in Htk. rewrite zlen_sub_bytes in Htk by lia. rewrite Htk.
  replace (7 + dlen + slen + tlen) with (zlen bs) by lia.
  apply bytes_at_sub in Htg. rewrite Htail in Htg. rewrite Htg.
  assert (forall v o l, xqc_conn_gen_retry_integrity_tag cal_tag v o l (hi_buf pi) (zlen bs)
                        = xqc_conn_gen_retry_integrity_tag cal_tag v o l bs (zlen bs)) as ->.
  { intros v o l. unfold xqc_conn_gen_retry_integrity_tag. by rewrite Hsub, sub_bytes_all. }
  destruct (xqc_conn_gen_retry_integrity_tag _ _ _ _ _ _) as [tag|]; [|done].
  case_bool_decide; cbn [negb]; [|done]. destruct (zlen bs + 16 <? zlen bs + 16) eqn:E3; [zb|]. done.
Qed.

End retry.

Record retry_args_ok (dcid : list Z) (dlen : Z) (scid : list Z) (slen : Z) (token : list Z)
    (tlen ver : Z) : Prop := {
  ra_dcid : 0 <= dlen <= XQC_MAX_CID_LEN /\ dlen <= zlen dcid;
  ra_scid : 0 <= slen <= XQC_MAX_CID_LEN /\ slen <= zlen scid;
  ra_token : 1 <= tlen <= XQC_MAX_TOKEN_LEN /\ tlen <= zlen token;
  ra_ver : 0 < ver < 2 ^ 32;
}.

(** The server's packet: the fields and the tag of the fields. *)
Lemma gen_retry cal_tag v dcid dlen scid slen odcid olen token tlen ver pkt :
  xqc_gen_retry_packet cal_tag v dcid dlen scid slen odcid olen token tlen ver = Some pkt ->
  let bs := retry_bytes dcid dlen scid slen token tlen ver in
  exists tag, xqc_conn_gen_retry_integrity_tag cal_tag v odcid olen bs (zlen bs) = Ok tag
  /\ pkt = bs ++ tag /\ zlen tag = XQC_RETRY_INTEGRITY_TAG_LEN.
Proof.
  unfold xqc_gen_retry_packet, retry_bytes, cid_fields. rewrite <- !app_assoc.
  destruct (xqc_conn_gen_retry_integrity_tag _ _ _ _ _ _) as [tag|] eqn:E; [|done].
  intros [= <-]. exists tag. split_and!; [done|done|].
  unfold xqc_conn_gen_retry_integrity_tag in E. destruct (RETRY_PSEUDO_PACKET_SIZE <? _); [done|].
  destruct (cal_tag _ _); [|done]. destruct (zlen _ =? _) eqn:E2; [|done]. injection E as <-. zb.
Qed.

Lemma retry_once cal_tag restart c pi :
  hs_retry_recvd (hc_hs c) = true -> snd (xqc_packet_parse_retry cal_tag restart c pi) = c.
Proof.
  intros Hr. unfold xqc_packet_parse_retry. rewrite Hr. case_if; [done|]. by case_if.
Qed.

(** A Retry packet that the server makes for a client is accepted by that client, whatever
    the tag function: the client keeps exactly the token, from then on addresses the server by
    the identifier the server chose, and no further Retry packet changes its connection. *)
Theorem retry_roundtrip cal_tag restart dcid dlen scid slen token tlen ver c pi pkt :
  retry_args_ok dcid dlen scid slen token tlen ver -> client_waiting c ->
  let odcid := hs_original_dcid (hc_hs c) in
  zlen (cid_buf (hi_scid pi)) = XQC_MAX_CID_LEN ->
  zlen (cid_buf (hs_current_dcid (hc_hs c))) = XQC_MAX_CID_LEN ->
  xqc_cid_is_equal odcid (got (hi_scid pi) scid slen) = false ->
  xqc_gen_retry_packet cal_tag (hc_version c) dcid dlen scid slen (cid_buf odcid) (cid_len odcid)
    token tlen ver = Some pkt ->
  whole_packet pi pkt ->
  let '(r, pi', c') := xqc_packet_parse_long_header cal_tag restart c pi in
  r = restart c' /\ hi_last pi' = hi_last pi /\ hc_token c' = sub_bytes token 0 tlen
  /\ cid_len (hs_current_dcid (hc_hs c')) = slen
  /\ sub_bytes (cid_buf (hs_current_dcid (hc_hs c'))) 0 slen = sub_bytes scid 0 slen
  /\ hs_retry_recvd (hc_hs c') = true
  /\ forall pi2, snd (xqc_packet_parse_retry cal_tag restart c' pi2) = c'.
Proof.
  intros [[Hd Hdz] [Hs Hsz] [Ht Htz] Hver] Hc odcid Hzs Hzc Hne Hgen Hpi.
  destruct (gen_retry _ _ _ _ _ _ _ _ _ _ _ _ Hgen) as (tag & Htag & -> & Hlen).
  rewrite (retry_outcome cal_tag restart dcid dlen scid slen token tlen ver Hd Hdz Hs Hsz Ht Htz Hver
             tag Hlen c Hc pi Hpi Hne). fold odcid. rewrite Htag.
  rewrite bool_decide_true by done. unfold xqc_conn_on_recv_retry.
  cbn [hc_hs hc_set_hs hc_token hc_set_token hs_current_dcid hs_retry_recvd hi_last hi_set_payload].
  split_and!; try done.
  - unfold xqc_cid_copy. cbn [cid_buf]. change (cid_len (got _ _ _)) with slen. rewrite got_bytes by done. rewrite <- (zlen_sub_bytes scid 0 slen) at 2 by lia.
    apply bytes_at_sub, bytes_at_wr; [lia|]. rewrite zlen_sub_bytes; lia.
  - intros pi2. by apply retry_once.
Qed.

(** C36: a Retry packet whose integrity tag does not validate is discarded, and yet its token
    replaces the token of the client: the next Initial packet carries a token that no server
    chose. The identifiers and the flags of the connection stay. *)
Theorem retry_bad_tag_overwrites_token cal_tag restart dcid dlen scid slen token tlen ver c pi tag tail :
  retry_args_ok dcid dlen scid slen token tlen ver -> client_waiting c ->
  let odcid := hs_original_dcid (hc_hs c) in
  let bs := retry_bytes dcid dlen scid slen token tlen ver in
  xqc_cid_is_equal odcid (got (hi_scid pi) scid slen) = false ->
  xqc_conn_gen_retry_integrity_tag cal_tag (hc_version c) (cid_buf odcid) (cid_len odcid) bs (zlen bs)
    = Ok tag ->
  zlen tail = XQC_RETRY_INTEGRITY_TAG_LEN -> tail <> tag -> whole_packet pi (bs ++ tail) ->
  let '(r, pi', c') := xqc_packet_parse_long_header cal_tag restart c pi in
  r = Ok tt /\ hi_pos pi' = hi_last pi' /\ hc_hs c' = hc_hs c
  /\ hc_token c' = sub_bytes token 0 tlen.
Proof.
  intros [[Hd Hdz] [Hs Hsz] [Ht Htz] Hver] Hc odcid bs Hne Htag Hlen Hbad Hpi.
  rewrite (retry_outcome cal_tag restart dcid dlen scid slen token tlen ver Hd Hdz Hs Hsz Ht Htz Hver
             tail Hlen c Hc pi Hpi Hne). fold bs odcid. rewrite Htag.
  by rewrite bool_decide_false by congruence.
Qed.

(** ** Examples *)

Definition ex_po : xqc_packet_out_t := mk_po (replicate 200 7) 200 0 16 0 0 0 [] 0 0 None 0.
Definition ex_ho (type : Z) : hdr_out := mk_ho ex_po type 1000 0 0.

Definition ex_hs : hs_state :=
  mk_hs XQC_CONN_STATE_CLIENT_INITIAL_SENT (ex_cid 9) (ex_cid 8) (ex_cid 9) (ex_cid 9)
    xqc_cid_init_zero false false.

Definition ex_conn (t : xqc_conn_type_t) (cs : xqc_cid_set_t) : hdr_conn :=
  mk_hc t 0 cs xqc_init_cid_set 8 false (if is_server t then 0 else 1) [1] false [] ex_hs.

Definition ex_in (buf : list Z) (last : Z) : hdr_in :=
  mk_hi buf last 0 last 1200 0 0 xqc_cid_init_zero xqc_cid_init_zero 0 0 0.

Lemma short_header_roundtrip_witness :
  let buf := po_buf (ho_po (snd (xqc_gen_short_packet_header (ex_ho 0) (replicate 8 1) 8 3 1000 true))) in
  let '(r, pi', c') :=
    xqc_packet_parse_short_header (ex_conn XQC_CONN_TYPE_SERVER ex_set1) (ex_in buf 100) in
  r = Ok tt /\ hi_pkt_num_offset pi' = 9.
Proof.
  pose proof (short_header_roundtrip (ex_ho 0) (replicate 8 1) 3 1000 true
    (ex_conn XQC_CONN_TYPE_SERVER ex_set1)
    (ex_in (po_buf (ho_po (snd (xqc_gen_short_packet_header (ex_ho 0) (replicate 8 1) 8 3 1000 true)))) 100)
    2 (mk_ci 100 (xqc_cid_copy xqc_cid_init_zero (ex_cid 1)) XQC_CID_UNUSED XQC_MAX_UINT64_VALUE
         false false) 990
    ltac:(by_decide) ltac:(by_decide) ltac:(split; by_decide) eq_refl ltac:(by_decide) ltac:(by_decide)
    ex_set1_run eq_refl ltac:(by_decide) ltac:(by_decide) ltac:(by_decide)) as [_ H].
  specialize (H eq_refl). vm_compute in H. vm_compute. tauto.
Defined.

(** An Initial packet with a token of three bytes and forty bytes of frames. *)
Definition ex_long_out : hdr_out :=
  snd (xqc_gen_long_packet_header (ex_ho XQC_PTYPE_INIT) (replicate 8 9) 8 (replicate 8 8) 8 [1; 2; 3] 3 1 3).

Definition ex_long_sent : hdr_out :=
  mk_ho (po_advance (ho_po ex_long_out) 73) XQC_PTYPE_INIT 1000 (po_ppktno ex_long_out)
    (po_payload ex_long_out).

Definition ex_long_buf : list Z := po_buf (ho_po (xqc_long_packet_update_length ex_long_sent)).

Lemma long_header_roundtrip_witness :
  let '(r, pi', c') := xqc_packet_parse_long_header (fun _ _ => None) (fun _ => Ok tt)
                         (ex_conn XQC_CONN_TYPE_SERVER xqc_init_cid_set) (ex_in ex_long_buf 150) in
  r = Ok tt /\ hc_token c' = [1; 2; 3] /\ hi_last pi' = 73.
Proof.
  pose proof (long_header_roundtrip (fun _ _ => None) (fun _ => Ok tt) (ex_ho XQC_PTYPE_INIT) ex_long_sent
    XQC_PTYPE_INIT 1 3 (replicate 8 9) 8 (replicate 8 8) 8 [1; 2; 3] 3
    (ex_conn XQC_CONN_TYPE_SERVER xqc_init_cid_set) (ex_in ex_long_buf 150) 990
    ltac:(split; by_decide) eq_refl ltac:(split; by_decide)) as H.
  specialize (H ltac:(split; try by_decide; done) ltac:(by_decide) ltac:(by_decide) ltac:(by_decide)).
  destruct H as [_ H].
  specialize (H eq_refl eq_refl eq_refl ltac:(by_decide) ltac:(by_decide) eq_refl).
  vm_compute in H. vm_compute. tauto.
Defined.

Definition ex_tag (v : Z) (l : list Z) : option (list Z) := Some (be_bytes 16 (be_val l * 7919 + v)).

Lemma ex_retry_args : retry_args_ok (replicate 8 8) 8 (replicate 8 5) 8 [1; 2; 3; 4] 4 1.
Proof. split; by_decide. Qed.

Lemma ex_waiting : client_waiting (ex_conn XQC_CONN_TYPE_CLIENT xqc_init_cid_set).
Proof. done. Qed.

Definition ex_retry_bytes : list Z := retry_bytes (replicate 8 8) 8 (replicate 8 5) 8 [1; 2; 3; 4] 4 1.

Definition ex_retry_pkt : list Z :=
  match xqc_gen_retry_packet ex_tag 1 (replicate 8 8) 8 (replicate 8 5) 8 (replicate 20 9) 8
          [1; 2; 3; 4] 4 1 with Some pkt => pkt | None => [] end.

Lemma long_header_safe_witness :
  xqc_packet_parse_long_header ex_tag (fun _ => Ok tt) (ex_conn XQC_CONN_TYPE_CLIENT xqc_init_cid_set)
    (ex_in (ex_retry_pkt ++ [1; 2; 3]) (zlen ex_retry_pkt))
  = swap_buf (ex_retry_pkt ++ [1; 2; 3])
      (xqc_packet_parse_long_header ex_tag (fun _ => Ok tt) (ex_conn XQC_CONN_TYPE_CLIENT xqc_init_cid_set)
         (ex_in ex_retry_pkt (zlen ex_retry_pkt))).
Proof.
  destruct (long_header_safe ex_tag (fun _ => Ok tt) (ex_conn XQC_CONN_TYPE_CLIENT xqc_init_cid_set)
    (ex_in ex_retry_pkt (zlen ex_retry_pkt))) as [H _].
  { split; by_decide. }
  apply (H (ex_retry_pkt ++ [1; 2; 3])). split; [|by_decide]. intros i Hi. cbn [hi_buf ex_in] in *.
  cbn [hi_last ex_in] in Hi. unfold rd, zlen in *. rewrite app_nth1; [reflexivity|lia].
Defined.

Lemma retry_roundtrip_witness :
  let '(r, pi', c') :=
    xqc_packet_parse_long_header ex_tag (fun _ => Ok tt) (ex_conn XQC_CONN_TYPE_CLIENT xqc_init_cid_set)
      (ex_in ex_retry_pkt (zlen ex_retry_pkt)) in
  r = Ok tt /\ hc_token c' = [1; 2; 3; 4].
Proof.
  pose proof (retry_roundtrip ex_tag (fun _ => Ok tt) (replicate 8 8) 8 (replicate 8 5) 8 [1; 2; 3; 4] 4 1
    (ex_conn XQC_CONN_TYPE_CLIENT xqc_init_cid_set) (ex_in ex_retry_pkt (zlen ex_retry_pkt)) ex_retry_pkt
    ex_retry_args ex_waiting eq_refl eq_refl eq_refl eq_refl ltac:(split; reflexivity)) as H.
  destruct (xqc_packet_parse_long_header _ _ _ _) as [[r pi'] c'].
  destruct H as (H1 & _ & H2 & _). split; [exact H1|exact H2].
Defined.

Lemma retry_bad_tag_overwrites_token_witness :
  let '(r, pi', c') :=
    xqc_packet_parse_long_header ex_tag (fun _ => Ok tt) (ex_conn XQC_CONN_TYPE_CLIENT xqc_init_cid_set)
      (ex_in (ex_retry_bytes ++ replicate 16 0) (zlen ex_retry_bytes + 16)) in
  r = Ok tt /\ hc_token c' = [1; 2; 3; 4].
Proof.
  pose proof (retry_bad_tag_overwrites_token ex_tag (fun _ => Ok tt) (replicate 8 8) 8 (replicate 8 5) 8
    [1; 2; 3; 4] 4 1 (ex_conn XQC_CONN_TYPE_CLIENT xqc_init_cid_set)
    (ex_in (ex_retry_bytes ++ replicate 16 0) (zlen ex_retry_bytes + 16)) _ (replicate 16 0)
    ex_retry_args ex_waiting eq_refl eq_refl eq_refl ltac:(by vm_compute) ltac:(split; reflexivity)) as H.
  destruct (xqc_packet_parse_long_header _ _ _ _) as [[r pi'] c'].
  destruct H as (H1 & _ & _ & H2). split; [exact H1|exact H2].
Defined.

End PktHeaderSpec.
