(* ===== verification/PktProtect.v ===== *)
(** Packet protection: header protection, the nonce and the AEAD calls of xqc_crypto.c, the key
    update, and the sealing and opening of packets ([xqc_packet_encrypt_buf] and
    [xqc_packet_decrypt]). The primitives of the cryptographic library are a class. *)

From stdpp Require Import base numbers list.
From S2P Require Import Prelude VInt RecvRecord PacketBuf Frames CidSet PktHeader.
Import VInt RecvRecord Frames CidSet PktHeader.

Module PktProtect.

Definition XQC_EENCRYPT : Z := 621.
Definition XQC_EAEAD_LIMIT : Z := 644.
Definition XQC_EMP_PATH_NOT_FOUND : Z := 653.
Definition XQC_TLS_INVALID_STATE : Z := 704.
Definition XQC_TLS_DATA_REJECT : Z := 733.
Definition XQC_TLS_ENCRYPT_DATA_ERROR : Z := 736.
Definition XQC_TLS_DECRYPT_DATA_ERROR : Z := 737.
Definition XQC_TLS_UPDATE_KEY_ERROR : Z := 744.
Definition XQC_TLS_DECRYPT_WHEN_KU_ERROR : Z := 745.
Definition TRA_INTERNAL_ERROR : Z := 0x1.
Definition TRA_KEY_UPDATE_ERROR : Z := 0xE.
Definition TRA_AEAD_LIMIT_REACHED : Z := 0xF.
Definition XQC_HP_SAMPLELEN : Z := 16.
Definition XQC_HP_MASKLEN : Z := 5.
Definition XQC_MAX_KNP_LEN : Z := 64.
Definition XQC_ENC_LEV_INIT : Z := 0.
Definition XQC_ENC_LEV_0RTT : Z := 1.
Definition XQC_ENC_LEV_HSK : Z := 2.
Definition XQC_ENC_LEV_1RTT : Z := 3.

(** ** The library *)

(** HKDF-Expand of a secret with an info string; sealing and opening under a cipher, a key, a
    nonce and associated data, into a buffer of a capacity; the header-protection mask of a
    sample. *)
Class CryptoLib := {
  lib_expand : list Z -> list Z -> Z -> option (list Z);
  lib_seal : Z -> list Z -> list Z -> list Z -> list Z -> Z -> option (list Z);
  lib_open : Z -> list Z -> list Z -> list Z -> list Z -> Z -> option (list Z);
  lib_hp_mask : Z -> list Z -> list Z -> option (list Z);
}.

(** ** Keys *)

(** An empty vector is one that is not set. *)
Record xqc_crypto_km_t := mk_km {
  km_key : list Z;
  km_iv : list Z;
  km_secret : list Z;
}.

Definition km_none : xqc_crypto_km_t := mk_km [] [] [].

(** The two entries of [rx_ckm] and [tx_ckm]. *)
Record km2 := mk_km2 { km_0 : xqc_crypto_km_t; km_1 : xqc_crypto_km_t }.

Definition km_at (k : km2) (phase : Z) : xqc_crypto_km_t := if phase =? 0 then km_0 k else km_1 k.

Definition km_set (k : km2) (phase : Z) (v : xqc_crypto_km_t) : km2 :=
  if phase =? 0 then mk_km2 v (km_1 k) else mk_km2 (km_0 k) v.

Record xqc_crypto_t := mk_crypto {
  cipher_id : Z;
  aead_keylen : Z;
  aead_noncelen : Z;
  aead_taglen : Z;
  rx_ckm : km2;
  tx_ckm : km2;
  rx_hp : list Z;
  tx_hp : list Z;
  cr_key_phase : Z;
}.

Inductive xqc_key_type_t :=
| XQC_KEY_TYPE_RX_READ
| XQC_KEY_TYPE_TX_WRITE.

Definition keys_of (cr : xqc_crypto_t) (type : xqc_key_type_t) : km2 :=
  match type with XQC_KEY_TYPE_RX_READ => rx_ckm cr | XQC_KEY_TYPE_TX_WRITE => tx_ckm cr end.

Definition set_keys (cr : xqc_crypto_t) (type : xqc_key_type_t) (k : km2) : xqc_crypto_t :=
  match type with
  | XQC_KEY_TYPE_RX_READ =>
      mk_crypto (cipher_id cr) (aead_keylen cr) (aead_noncelen cr) (aead_taglen cr) k (tx_ckm cr)
        (rx_hp cr) (tx_hp cr) (cr_key_phase cr)
  | XQC_KEY_TYPE_TX_WRITE =>
      mk_crypto (cipher_id cr) (aead_keylen cr) (aead_noncelen cr) (aead_taglen cr) (rx_ckm cr) k
        (rx_hp cr) (tx_hp cr) (cr_key_phase cr)
  end.

Definition set_phase (cr : xqc_crypto_t) (phase : Z) : xqc_crypto_t :=
  mk_crypto (cipher_id cr) (aead_keylen cr) (aead_noncelen cr) (aead_taglen cr) (rx_ckm cr)
    (tx_ckm cr) (rx_hp cr) (tx_hp cr) phase.

Definition unset (l : list Z) : bool := bool_decide (l = []).

Section lib.

Context {lib : CryptoLib}.

(** ["tls13 "] *)
Definition tls13_label : list Z := [116; 108; 115; 49; 51; 32].

Definition xqc_hkdf_expand_label (destlen : Z) (secret label : list Z) : option (list Z) :=
  lib_expand secret
    ([u8 (destlen / 256); u8 (destlen mod 256); u8 (zlen tls13_label + zlen label)]
     ++ tls13_label ++ label ++ [0]) destlen.

(** ["quic key"], ["quic iv"], ["quic ku"] *)
Definition label_key : list Z := [113; 117; 105; 99; 32; 107; 101; 121].
Definition label_iv : list Z := [113; 117; 105; 99; 32; 105; 118].
Definition label_ku : list Z := [113; 117; 105; 99; 32; 107; 117].

Definition xqc_crypto_derive_packet_protection_key (cr : xqc_crypto_t) (secret : list Z)
    : option (list Z) :=
  if XQC_MAX_KNP_LEN <? aead_keylen cr then None
  else xqc_hkdf_expand_label (aead_keylen cr) secret label_key.

Definition xqc_crypto_derive_packet_protection_iv (cr : xqc_crypto_t) (secret : list Z)
    : option (list Z) :=
  let ivlen := Z.max 8 (aead_noncelen cr) in
  if XQC_MAX_KNP_LEN <? ivlen then None else xqc_hkdf_expand_label ivlen secret label_iv.

Definition xqc_crypto_derive_updated_keys (cr : xqc_crypto_t) (type : xqc_key_type_t)
    : res unit * xqc_crypto_t :=
  let cur := cr_key_phase cr in
  let upd := Z.lxor cur 1 in
  let secret := km_secret (km_at (keys_of cr type) cur) in
  let old := km_at (keys_of cr type) upd in
  if XQC_MAX_KNP_LEN <? zlen secret then (Err XQC_TLS_UPDATE_KEY_ERROR, cr)
  else
    match xqc_hkdf_expand_label (zlen secret) secret label_ku with
    | None => (Err XQC_TLS_UPDATE_KEY_ERROR, cr)
    | Some next =>
        let cr1 := set_keys cr type
                     (km_set (keys_of cr type) upd (mk_km (km_key old) (km_iv old) next)) in
        match xqc_crypto_derive_packet_protection_key cr next with
        | None => (Err XQC_TLS_UPDATE_KEY_ERROR, cr1)
        | Some key =>
            if aead_keylen cr <=? 0 then (Err XQC_TLS_UPDATE_KEY_ERROR, cr1)
            else
              match xqc_crypto_derive_packet_protection_iv cr next with
              | None => (Err XQC_TLS_UPDATE_KEY_ERROR, cr1)
              | Some iv =>
                  (Ok tt, set_keys cr type (km_set (keys_of cr type) upd (mk_km key iv next)))
              end
        end
    end.

Definition xqc_crypto_discard_old_keys (cr : xqc_crypto_t) : xqc_crypto_t :=
  let old := Z.lxor (cr_key_phase cr) 1 in
  set_keys (set_keys cr XQC_KEY_TYPE_RX_READ (km_set (rx_ckm cr) old km_none))
    XQC_KEY_TYPE_TX_WRITE (km_set (tx_ckm cr) old km_none).

Definition xqc_crypto_is_key_ready (cr : xqc_crypto_t) (type : xqc_key_type_t) : bool :=
  let km := km_at (keys_of cr type) (cr_key_phase cr) in
  let hp := match type with XQC_KEY_TYPE_RX_READ => rx_hp cr | XQC_KEY_TYPE_TX_WRITE => tx_hp cr end in
  negb (unset (km_key km)) && negb (unset (km_iv km)) && negb (unset hp).

(** [0x03001303] is TLS_CHACHA20_POLY1305_SHA256. *)
Definition xqc_aead_confidentiality_limit (cipher : Z) : Z :=
  if cipher =? 0x03001303 then 1 << 62 else 1 << 23.

(** ** Header protection *)

(** [for (i = 0; i < n; ++i) buf[off + i] ^= bs[i]]. *)
Definition xor_at (buf : list Z) (off : Z) (bs : list Z) : list Z :=
  wr buf off (zip_with Z.lxor (sub_bytes buf off (zlen bs)) bs).

Definition XQC_PACKET_SHORT_HEADER_PKTNO_LEN (buf : list Z) : Z := (rd buf 0 .& 0x03) + 1.
Definition XQC_PACKET_SHORT_HEADER_KEY_PHASE (buf : list Z) : Z := (rd buf 0 .& 0x04) >> 2.

Definition xqc_crypto_check_hp_sample (pktno end_ : Z) : bool :=
  negb ((end_ <? pktno) || (end_ - pktno <? 4 + XQC_HP_SAMPLELEN)).

(** The bits of the first byte that are protected. *)
Definition first_mask (pkt_type m : Z) : Z :=
  if pkt_type =? XQC_PTYPE_SHORT_HEADER then m .& 0x1f else m .& 0x0f.

(** [pktno] and [end_] are offsets into the packet [buf]. *)
Definition xqc_crypto_encrypt_header (cr : xqc_crypto_t) (pkt_type : Z) (buf : list Z)
    (pktno end_ : Z) : res unit * list Z :=
  let pktno_len := XQC_PACKET_SHORT_HEADER_PKTNO_LEN buf in
  if unset (tx_hp cr) then (Err XQC_EENCRYPT, buf)
  else if (end_ <? pktno) || (end_ - pktno <? pktno_len) then (Err XQC_EILLPKT, buf)
  else if negb (xqc_crypto_check_hp_sample pktno end_) then (Err XQC_EILLPKT, buf)
  else
    match lib_hp_mask (cipher_id cr) (tx_hp cr) (sub_bytes buf (pktno + 4) XQC_HP_SAMPLELEN) with
    | None => (Err XQC_EENCRYPT, buf)
    | Some mask =>
        if zlen mask <? XQC_HP_MASKLEN then (Err XQC_EENCRYPT, buf)
        else
          let buf := wr buf 0 [Z.lxor (rd buf 0) (first_mask pkt_type (rd mask 0))] in
          (Ok tt, xor_at buf pktno (sub_bytes mask 1 pktno_len))
    end.

Definition xqc_crypto_decrypt_header (cr : xqc_crypto_t) (pkt_type : Z) (buf : list Z)
    (pktno end_ : Z) : res unit * list Z :=
  if unset (rx_hp cr) then (Err XQC_TLS_DECRYPT_DATA_ERROR, buf)
  else if negb (xqc_crypto_check_hp_sample pktno end_) then (Err XQC_EILLPKT, buf)
  else
    match lib_hp_mask (cipher_id cr) (rx_hp cr) (sub_bytes buf (pktno + 4) XQC_HP_SAMPLELEN) with
    | None => (Err XQC_TLS_DECRYPT_DATA_ERROR, buf)
    | Some mask =>
        if zlen mask <? XQC_HP_MASKLEN then (Err XQC_TLS_DECRYPT_DATA_ERROR, buf)
        else
          let buf := wr buf 0 [Z.lxor (rd buf 0) (first_mask pkt_type (rd mask 0))] in
          let pktno_len := XQC_PACKET_SHORT_HEADER_PKTNO_LEN buf in
          if (end_ <? pktno) || (end_ - pktno <? pktno_len) then (Err XQC_EILLPKT, buf)
          else (Ok tt, xor_at buf pktno (sub_bytes mask 1 pktno_len))
    end.

(** ** Payload protection *)

(** The first [ivlen] bytes of [dest]. *)
Definition xqc_crypto_create_nonce (iv : list Z) (pktno path_id : Z) : list Z :=
  let ivlen := zlen iv in
  let dest := xor_at iv (ivlen - 8) (be_bytes 8 pktno) in
  if 12 <=? ivlen then xor_at dest (ivlen - 12) (be_bytes 4 path_id) else dest.

Definition xqc_crypto_encrypt_payload (cr : xqc_crypto_t) (pktno key_phase path_id : Z)
    (header payload : list Z) (cap : Z) : res (list Z) :=
  let ckm := km_at (tx_ckm cr) key_phase in
  if unset (km_key ckm) || unset (km_iv ckm) then Err XQC_TLS_ENCRYPT_DATA_ERROR
  else
    let nonce := xqc_crypto_create_nonce (km_iv ckm) pktno path_id in
    match lib_seal (cipher_id cr) (km_key ckm) nonce header payload cap with
    | None => Err XQC_TLS_ENCRYPT_DATA_ERROR
    | Some ct =>
        if zlen ct =? zlen payload + aead_taglen cr then Ok ct else Err XQC_TLS_ENCRYPT_DATA_ERROR
    end.

Definition xqc_crypto_decrypt_payload (cr : xqc_crypto_t) (pktno key_phase path_id : Z)
    (header payload : list Z) (cap : Z) : res (list Z) :=
  let ckm := km_at (rx_ckm cr) key_phase in
  if unset (km_key ckm) || unset (km_iv ckm) then Err XQC_TLS_DECRYPT_DATA_ERROR
  else
    let nonce := xqc_crypto_create_nonce (km_iv ckm) pktno path_id in
    match lib_open (cipher_id cr) (km_key ckm) nonce header payload cap with
    | None => Err XQC_TLS_DECRYPT_DATA_ERROR
    | Some pt =>
        if zlen pt =? zlen payload - aead_taglen cr then Ok pt else Err XQC_TLS_DECRYPT_DATA_ERROR
    end.

(** ** The connection *)

(** The read keys of the other key phase. *)
Inductive xqc_ku_rx_keys_t :=
| XQC_KU_RX_KEYS_NONE
| XQC_KU_RX_KEYS_OLD
| XQC_KU_RX_KEYS_NEXT.

Record xqc_key_update_ctx_t := mk_ku {
  cur_out_key_phase : Z;
  next_in_key_phase : Z;
  key_update_cnt : Z;
  other_rx_keys : xqc_ku_rx_keys_t;
  enc_pkt_cnt : Z;
  aead_confidentiality_limit : Z;
  initiate_time_guard : Z;
  current_keys_acked : bool;
  awaiting_peer_key_update : bool;
}.

(** What packet protection uses of a path: its received packets per space, the next packet
    number of the application data space, and the marks of the key update. *)
Record prot_path := mk_pp {
  pp_id : Z;
  pp_records : list xqc_recv_record_t;
  pp_next_pn : Z;
  path_ku_first_sent_pktno : Z;
  path_ku_first_recv_pktno : Z;
}.

(** [pc_crypto] is [tls->crypto] by level; [pc_timer] is when the key-update timer expires, if
    it is set; the last three are settings and the state of early data. *)
Record prot_conn := mk_pc {
  pc_crypto : list (option xqc_crypto_t);
  pc_ku : xqc_key_update_ctx_t;
  pc_timer : option Z;
  pc_paths : list prot_path;
  pc_err : Z;
  pc_multipath : bool;
  pc_threshold : Z;
  pc_marking : bool;
  pc_early_accepted : bool;
}.

Definition tls_crypto (c : prot_conn) (level : Z) : option xqc_crypto_t :=
  nth (Z.to_nat level) (pc_crypto c) None.

Definition set_1rtt (c : prot_conn) (cr : xqc_crypto_t) : prot_conn :=
  mk_pc (<[Z.to_nat XQC_ENC_LEV_1RTT := Some cr]> (pc_crypto c)) (pc_ku c) (pc_timer c) (pc_paths c)
    (pc_err c) (pc_multipath c) (pc_threshold c) (pc_marking c) (pc_early_accepted c).

Definition set_ku (c : prot_conn) (ku : xqc_key_update_ctx_t) : prot_conn :=
  mk_pc (pc_crypto c) ku (pc_timer c) (pc_paths c) (pc_err c) (pc_multipath c) (pc_threshold c)
    (pc_marking c) (pc_early_accepted c).

Definition set_timer (c : prot_conn) (t : option Z) : prot_conn :=
  mk_pc (pc_crypto c) (pc_ku c) t (pc_paths c) (pc_err c) (pc_multipath c) (pc_threshold c)
    (pc_marking c) (pc_early_accepted c).

Definition set_paths (c : prot_conn) (ps : list prot_path) : prot_conn :=
  mk_pc (pc_crypto c) (pc_ku c) (pc_timer c) ps (pc_err c) (pc_multipath c) (pc_threshold c)
    (pc_marking c) (pc_early_accepted c).

(** [XQC_CONN_ERR]. *)
Definition prot_err (c : prot_conn) (err : Z) : prot_conn :=
  mk_pc (pc_crypto c) (pc_ku c) (pc_timer c) (pc_paths c) (if pc_err c =? 0 then err else pc_err c)
    (pc_multipath c) (pc_threshold c) (pc_marking c) (pc_early_accepted c).

Definition xqc_conn_find_path_by_path_id (c : prot_conn) (pid : Z) : option prot_path :=
  find (fun p => pp_id p =? pid) (pc_paths c).

Definition xqc_packet_type_to_enc_level (pkt_type : Z) : Z :=
  if pkt_type =? XQC_PTYPE_0RTT then XQC_ENC_LEV_0RTT
  else if pkt_type =? XQC_PTYPE_HSK then XQC_ENC_LEV_HSK
  else if pkt_type =? XQC_PTYPE_SHORT_HEADER then XQC_ENC_LEV_1RTT
  else XQC_ENC_LEV_INIT.

(** ** Key update *)

Definition xqc_conn_init_key_update_ctx : xqc_key_update_ctx_t :=
  mk_ku 0 0 0 XQC_KU_RX_KEYS_NONE 0 0 0 false false.

Definition xqc_tls_update_1rtt_keys (c : prot_conn) (type : xqc_key_type_t)
    : res unit * prot_conn :=
  match tls_crypto c XQC_ENC_LEV_1RTT with
  | None => (Err XQC_TLS_UPDATE_KEY_ERROR, c)
  | Some cr => let '(r, cr) := xqc_crypto_derive_updated_keys cr type in (r, set_1rtt c cr)
  end.

(** [now] is [xqc_monotonic_timestamp], [pto] is [xqc_conn_get_max_pto]. *)
Definition xqc_conn_set_key_update_timer (c : prot_conn) (now pto : Z) : prot_conn :=
  set_timer c (Some (u64 (now + 3 * pto))).

Definition start_phase (p : prot_path) : prot_path :=
  mk_pp (pp_id p) (pp_records p) (pp_next_pn p) (pp_next_pn p) XQC_MAX_UINT64_VALUE.

Definition xqc_conn_record_key_phase_start (c : prot_conn) : prot_conn :=
  let ku := pc_ku c in
  set_ku (set_paths c (map start_phase (pc_paths c)))
    (mk_ku (cur_out_key_phase ku) (next_in_key_phase ku) (key_update_cnt ku) (other_rx_keys ku)
       (enc_pkt_cnt ku) (aead_confidentiality_limit ku) (initiate_time_guard ku) false
       (awaiting_peer_key_update ku)).

Definition xqc_tls_set_1rtt_key_phase (c : prot_conn) (phase : Z) : prot_conn :=
  match tls_crypto c XQC_ENC_LEV_1RTT with
  | Some cr => set_1rtt c (set_phase cr phase)
  | None => c
  end.

Definition xqc_conn_confirm_key_update (c : prot_conn) (initiated : bool) (now pto : Z) : prot_conn :=
  let c := set_ku c
             (let ku := pc_ku c in
              mk_ku (cur_out_key_phase ku) (next_in_key_phase ku) (u64 (key_update_cnt ku + 1))
                (other_rx_keys ku) (enc_pkt_cnt ku) (aead_confidentiality_limit ku)
                (initiate_time_guard ku) (current_keys_acked ku) (awaiting_peer_key_update ku)) in
  let c := xqc_conn_record_key_phase_start c in
  let ku := pc_ku c in
  let c := set_ku c
             (mk_ku (Z.lxor (cur_out_key_phase ku) 1) (Z.lxor (next_in_key_phase ku) 1)
                (key_update_cnt ku) XQC_KU_RX_KEYS_OLD 0 (aead_confidentiality_limit ku)
                (initiate_time_guard ku) (current_keys_acked ku) initiated) in
  let c := xqc_tls_set_1rtt_key_phase c (cur_out_key_phase (pc_ku c)) in
  if initiated then set_timer c None else xqc_conn_set_key_update_timer c now pto.

Definition set_other (c : prot_conn) (o : xqc_ku_rx_keys_t) : prot_conn :=
  let ku := pc_ku c in
  set_ku c (mk_ku (cur_out_key_phase ku) (next_in_key_phase ku) (key_update_cnt ku) o
              (enc_pkt_cnt ku) (aead_confidentiality_limit ku) (initiate_time_guard ku)
              (current_keys_acked ku) (awaiting_peer_key_update ku)).

(** Also what the timer does when it expires. *)
Definition xqc_conn_discard_old_rx_keys (c : prot_conn) : prot_conn :=
  let c := match tls_crypto c XQC_ENC_LEV_1RTT with
           | Some cr => set_1rtt c (xqc_crypto_discard_old_keys cr)
           | None => c
           end in
  set_timer (set_other c XQC_KU_RX_KEYS_NONE) None.

Definition xqc_conn_confirm_peer_key_update (c : prot_conn) (now pto : Z) : prot_conn :=
  let ku := pc_ku c in
  if awaiting_peer_key_update ku
  then xqc_conn_set_key_update_timer
         (set_ku c (mk_ku (cur_out_key_phase ku) (next_in_key_phase ku) (key_update_cnt ku)
                      (other_rx_keys ku) (enc_pkt_cnt ku) (aead_confidentiality_limit ku)
                      (initiate_time_guard ku) (current_keys_acked ku) false)) now pto
  else c.

Definition xqc_conn_on_key_phase_acked (c : prot_conn) (p : prot_path) (pkt_num ack_recv_time pto : Z)
    : prot_conn :=
  let ku := pc_ku c in
  if (key_update_cnt ku =? 0) || current_keys_acked ku || (pkt_num <? path_ku_first_sent_pktno p)
  then c
  else
    set_ku c (mk_ku (cur_out_key_phase ku) (next_in_key_phase ku) (key_update_cnt ku)
                (other_rx_keys ku) (enc_pkt_cnt ku) (aead_confidentiality_limit ku)
                (u64 (ack_recv_time + 3 * pto)) true (awaiting_peer_key_update ku)).

Definition xqc_packet_can_initiate_key_update (c : prot_conn) (now : Z) : bool :=
  if now <=? initiate_time_guard (pc_ku c) then false
  else (key_update_cnt (pc_ku c) =? 0) || current_keys_acked (pc_ku c).

Definition xqc_packet_initiate_key_update (c : prot_conn) (now pto : Z) : res unit * prot_conn :=
  match xqc_tls_update_1rtt_keys c XQC_KEY_TYPE_RX_READ with
  | (Err e, c) => (Err e, c)
  | (Ok _, c) =>
      match xqc_tls_update_1rtt_keys c XQC_KEY_TYPE_TX_WRITE with
      | (Err e, c) => (Err e, c)
      | (Ok _, c) => (Ok tt, xqc_conn_confirm_key_update c true now pto)
      end
  end.

(** ** Sealing *)

Definition set_limit (c : prot_conn) (limit : Z) : prot_conn :=
  let ku := pc_ku c in
  set_ku c (mk_ku (cur_out_key_phase ku) (next_in_key_phase ku) (key_update_cnt ku)
              (other_rx_keys ku) (enc_pkt_cnt ku) limit (initiate_time_guard ku)
              (current_keys_acked ku) (awaiting_peer_key_update ku)).

Definition count_enc (c : prot_conn) : prot_conn :=
  let ku := pc_ku c in
  set_ku c (mk_ku (cur_out_key_phase ku) (next_in_key_phase ku) (key_update_cnt ku)
              (other_rx_keys ku) (u64 (enc_pkt_cnt ku + 1)) (aead_confidentiality_limit ku)
              (initiate_time_guard ku) (current_keys_acked ku) (awaiting_peer_key_update ku)).

Definition xqc_packet_check_aead_confidentiality_limit (c : prot_conn) : res unit * prot_conn :=
  if enc_pkt_cnt (pc_ku c) <? aead_confidentiality_limit (pc_ku c) then (Ok tt, c)
  else (Err XQC_EAEAD_LIMIT, prot_err c TRA_AEAD_LIMIT_REACHED).

(** The limit of a 1-RTT packet: whether packets are counted, and the connection. *)
Definition aead_limit_of (c : prot_conn) (cr : xqc_crypto_t) (is_1rtt : bool) : bool * prot_conn :=
  if is_1rtt && (aead_confidentiality_limit (pc_ku c) =? 0) then
    if cipher_id cr =? 0 then (false, c)
    else (true, set_limit c (xqc_aead_confidentiality_limit (cipher_id cr)))
  else (is_1rtt, c).

(** What follows a protected 1-RTT packet. *)
Definition after_seal (c : prot_conn) (now pto : Z) : res unit * prot_conn :=
  let c := count_enc c in
  let limit := aead_confidentiality_limit (pc_ku c) in
  let cnt := enc_pkt_cnt (pc_ku c) in
  let confidentiality_trigger := limit - (limit >> 3) <=? cnt in
  let configured_trigger := (0 <? pc_threshold c) && (pc_threshold c <? cnt) in
  if (confidentiality_trigger || configured_trigger) && xqc_packet_can_initiate_key_update c now
  then
    match xqc_packet_initiate_key_update c now pto with
    | (Ok _, c) => (Ok tt, c)
    | (Err e, c) =>
        (Err e, if confidentiality_trigger then prot_err c TRA_AEAD_LIMIT_REACHED else c)
    end
  else (Ok tt, c).

(** The header in [enc_pkt], with the Length that the tag adds to. *)
Definition copy_header (cr : xqc_crypto_t) (ho : hdr_out) (enc_pkt : list Z) : list Z :=
  let level := xqc_packet_type_to_enc_level (ho_pkt_type ho) in
  let enc := wr enc_pkt 0 (sub_bytes (po_buf (ho_po ho)) 0 (po_payload ho)) in
  if (level =? XQC_ENC_LEV_INIT) || (level =? XQC_ENC_LEV_0RTT) || (level =? XQC_ENC_LEV_HSK)
  then xqc_vint_write enc (po_ppktno ho - XQC_LONG_HEADER_LENGTH_BYTE)
         (u32 (u32 (po_used_size (ho_po ho) - po_ppktno ho) + aead_taglen cr)) 0x01 2
  else enc.

(** The part from the copy of the header on. *)
Definition seal_packet (c : prot_conn) (cr : xqc_crypto_t) (counted : bool) (ho : hdr_out)
    (po_path_id : Z) (enc_pkt : list Z) (enc_pkt_cap now pto : Z) : res Z * prot_conn * list Z :=
  let buf := po_buf (ho_po ho) in
  let header_len := po_payload ho in
  let payload := sub_bytes buf header_len (po_used_size (ho_po ho) - header_len) in
  let level := xqc_packet_type_to_enc_level (ho_pkt_type ho) in
  match xqc_conn_find_path_by_path_id c po_path_id with
  | None => (Err XQC_EMP_PATH_NOT_FOUND, prot_err c TRA_INTERNAL_ERROR, enc_pkt)
  | Some path =>
      let enc := copy_header cr ho enc_pkt in
      let header := sub_bytes enc 0 header_len in
      let nonce_path_id := if pc_multipath c then u32 (pp_id path) else 0 in
      let phase := if level =? XQC_ENC_LEV_1RTT then XQC_PACKET_SHORT_HEADER_KEY_PHASE enc else 0 in
      match xqc_crypto_encrypt_payload cr (ho_pkt_num ho) phase nonce_path_id header payload
              (enc_pkt_cap - header_len) with
      | Err e => (Err e, prot_err c TRA_INTERNAL_ERROR, enc)
      | Ok ct =>
          let enc := wr enc header_len ct in
          let len := header_len + zlen ct in
          match xqc_crypto_encrypt_header cr (ho_pkt_type ho) enc (po_ppktno ho) len with
          | (Err e, enc) => (Err e, c, enc)
          | (Ok _, enc) =>
              if counted then
                match after_seal c now pto with
                | (Err e, c) => (Err e, c, enc)
                | (Ok _, c) => (Ok len, c, enc)
                end
              else (Ok len, c, enc)
          end
      end
  end.

(** The length of the packet, the connection and the buffer [enc_pkt]. *)
Definition xqc_packet_encrypt_buf (c : prot_conn) (ho : hdr_out) (po_path_id : Z)
    (enc_pkt : list Z) (enc_pkt_cap now pto : Z) : res Z * prot_conn * list Z :=
  let level := xqc_packet_type_to_enc_level (ho_pkt_type ho) in
  let is_1rtt := (ho_pkt_type ho =? XQC_PTYPE_SHORT_HEADER) && (level =? XQC_ENC_LEV_1RTT) in
  match tls_crypto c level with
  | None => (Err XQC_TLS_INVALID_STATE, c, enc_pkt)
  | Some cr =>
      if negb (xqc_crypto_is_key_ready cr XQC_KEY_TYPE_TX_WRITE)
      then (Err XQC_TLS_INVALID_STATE, c, enc_pkt)
      else
        let '(counted, c) := aead_limit_of c cr is_1rtt in
        match (if counted then xqc_packet_check_aead_confidentiality_limit c else (Ok tt, c)) with
        | (Err e, c) => (Err e, c, enc_pkt)
        | (Ok _, c) => seal_packet c cr counted ho po_path_id enc_pkt enc_pkt_cap now pto
        end
  end.

(** ** Opening *)

Record opened := mk_opened {
  op_pkt_num : Z;
  op_payload : list Z;
  op_reinjected : bool;
  op_current_phase : bool;
}.

Definition largest_of (c : prot_conn) (pid pns : Z) : Z :=
  match xqc_conn_find_path_by_path_id c pid with
  | Some p => match nth_error (pp_records p) (Z.to_nat pns) with
              | Some rr => xqc_recv_record_largest rr
              | None => 0
              end
  | None => 0
  end.

(** The keys of the other phase before a packet that carries it is opened: keys past their
    deadline are discarded, and the next keys are derived where there are none. *)
Definition prepare_keys (c : prot_conn) (other_phase : bool) (now : Z) : res unit * prot_conn :=
  if negb other_phase then (Ok tt, c)
  else
    let c :=
      match other_rx_keys (pc_ku c), pc_timer c with
      | XQC_KU_RX_KEYS_OLD, Some t => if t <=? now then xqc_conn_discard_old_rx_keys c else c
      | _, _ => c
      end in
    match other_rx_keys (pc_ku c) with
    | XQC_KU_RX_KEYS_NONE =>
        match xqc_tls_update_1rtt_keys c XQC_KEY_TYPE_RX_READ with
        | (Err e, c) => (Err e, c)
        | (Ok _, c) => (Ok tt, set_other c XQC_KU_RX_KEYS_NEXT)
        end
    | _ => (Ok tt, c)
    end.

Definition is_next (o : xqc_ku_rx_keys_t) : bool :=
  match o with XQC_KU_RX_KEYS_NEXT => true | _ => false end.
Definition is_old (o : xqc_ku_rx_keys_t) : bool :=
  match o with XQC_KU_RX_KEYS_OLD => true | _ => false end.

Definition note_recv (pid pn : Z) (c : prot_conn) : prot_conn :=
  set_paths c (map (fun p =>
    if (pp_id p =? pid) && (pn <? path_ku_first_recv_pktno p)
    then mk_pp (pp_id p) (pp_records p) (pp_next_pn p) (path_ku_first_sent_pktno p) pn
    else p) (pc_paths c)).

(** After a 1-RTT packet was opened: whether it was of the current key phase. *)
Definition after_open (c : prot_conn) (other_phase : bool) (pid pn now pto : Z)
    : res bool * prot_conn :=
  if other_phase && is_old (other_rx_keys (pc_ku c)) then
    match xqc_conn_find_path_by_path_id c pid with
    | Some p => if path_ku_first_recv_pktno p <? pn
                then (Err XQC_EPROTO, prot_err c TRA_KEY_UPDATE_ERROR) else (Ok false, c)
    | None => (Ok false, c)
    end
  else if other_phase then
    match xqc_tls_update_1rtt_keys c XQC_KEY_TYPE_TX_WRITE with
    | (Err e, c) => (Err e, c)
    | (Ok _, c) => (Ok true, note_recv pid pn (xqc_conn_confirm_key_update c false now pto))
    end
  else (Ok true, note_recv pid pn (xqc_conn_confirm_peer_key_update c now pto)).

(** [pi] is the packet its header was read from; the buffer returned is [packet_in->buf], whose
    header is unprotected in place. [cap] is [decode_payload_size]. *)
Definition xqc_packet_decrypt (c : prot_conn) (pi : hdr_in) (cap now pto : Z)
    : res opened * prot_conn * list Z :=
  let level := xqc_packet_type_to_enc_level (hi_pkt_type pi) in
  if (level =? XQC_ENC_LEV_0RTT) && negb (pc_early_accepted c)
  then (Err XQC_TLS_DATA_REJECT, c, hi_buf pi)
  else
    match tls_crypto c level with
    | None => (Err XQC_TLS_INVALID_STATE, c, hi_buf pi)
    | Some cr =>
        let pktno := hi_pkt_num_offset pi in
        match xqc_crypto_decrypt_header cr (hi_pkt_type pi) (hi_buf pi) pktno (pktno + hi_length pi) with
        | (Err e, buf) => (Err e, c, buf)
        | (Ok _, buf) =>
            let pktno_len := XQC_PACKET_SHORT_HEADER_PKTNO_LEN buf in
            let header_len := pktno + pktno_len in
            let payload := sub_bytes buf header_len (hi_length pi - pktno_len) in
            let reserved :=
              if hi_pkt_type pi =? XQC_PTYPE_0RTT then (rd buf 0 .& 0x0c) >> 2
              else if hi_pkt_type pi =? XQC_PTYPE_SHORT_HEADER then (rd buf 0 .& 0x18) >> 3 else 0 in
            let reinjected := (reserved =? 0x02) && pc_marking c in
            let truncated_pn := xqc_packet_parse_packet_number buf pktno pktno_len in
            let pn := xqc_packet_decode_packet_number (largest_of c (hi_path_id pi) (hi_pkt_pns pi))
                        truncated_pn (pktno_len * 8) in
            let is_1rtt := hi_pkt_type pi =? XQC_PTYPE_SHORT_HEADER in
            let key_phase := XQC_PACKET_SHORT_HEADER_KEY_PHASE buf in
            let other_phase := is_1rtt && negb (key_phase =? next_in_key_phase (pc_ku c)) in
            match prepare_keys c other_phase now with
            | (Err e, c) => (Err e, c, buf)
            | (Ok _, c) =>
                let nonce_path_id := if pc_multipath c then u32 (hi_path_id pi) else 0 in
                match tls_crypto c level with
                | None => (Err XQC_TLS_INVALID_STATE, c, buf)
                | Some cr =>
                    match xqc_crypto_decrypt_payload cr pn (if is_1rtt then key_phase else 0)
                            nonce_path_id (sub_bytes buf 0 header_len) payload cap with
                    | Err e =>
                        (Err (if other_phase && is_next (other_rx_keys (pc_ku c))
                              then XQC_TLS_DECRYPT_WHEN_KU_ERROR else e), c, buf)
                    | Ok pt =>
                        if negb is_1rtt then (Ok (mk_opened pn pt reinjected false), c, buf)
                        else
                          match after_open c other_phase (hi_path_id pi) pn now pto with
                          | (Err e, c) => (Err e, c, buf)
                          | (Ok cur, c) => (Ok (mk_opened pn pt reinjected cur), c, buf)
                          end
                    end
                end
            end
        end
    end.

End lib.

End PktProtect.
