(* ===== verification/PktProtectSpec.v ===== *)
(** What packet protection promises, given that the library opens what it sealed: a protected
    packet is opened to the packet number and the payload that were sealed, no two packets of a
    key share a nonce, and the keys of both ends stay in step across key updates. *)

From stdpp Require Import base numbers list relations.
From S2P Require Import Prelude VInt RecvRecord PacketBuf Frames CidSet CidSetSpec.
From S2P Require Import PktHeader PktHeaderSpec PktProtect.
Import VInt RecvRecord Frames CidSet CidSetSpec PktHeader PktHeaderSpec PktProtect.

Module PktProtectSpec.

(** What is documented of the library: opening undoes sealing under the same cipher, key, nonce
    and associated data, sealing stays inside its buffer, and a mask is a list of bytes. *)
Class CryptoLaws {lib : CryptoLib} : Prop := {
  open_seal : forall cipher key nonce ad pt cap ct cap',
    lib_seal cipher key nonce ad pt cap = Some ct -> zlen pt <= cap' ->
    lib_open cipher key nonce ad ct cap' = Some pt;
  seal_fits : forall cipher key nonce ad pt cap ct,
    lib_seal cipher key nonce ad pt cap = Some ct -> zlen ct <= cap;
  mask_bytes : forall cipher key sample mask,
    lib_hp_mask cipher key sample = Some mask -> bytes_ok mask;
}.

(** ** Exclusive or in place *)

Lemma zlen_zip l k : zlen l = zlen k -> zlen (zip_with Z.lxor l k) = zlen k.
Proof. unfold zlen. intros. rewrite length_zip_with. lia. Qed.

Lemma zlen_xor_at buf off bs : zlen (xor_at buf off bs) = zlen buf.
Proof. apply zlen_wr. Qed.

Lemma rd_zip l k i : zlen l = zlen k -> 0 <= i < zlen k ->
  rd (zip_with Z.lxor l k) i = Z.lxor (rd l i) (rd k i).
Proof.
  unfold zlen, rd. intros Hz Hi. rewrite !nth_lookup, lookup_zip_with.
  destruct (lookup_lt_is_Some_2 l (Z.to_nat i)) as [x Hx]; [lia|].
  destruct (lookup_lt_is_Some_2 k (Z.to_nat i)) as [y Hy]; [lia|]. by rewrite Hx, Hy.
Qed.

Lemma rd_xor_at buf off bs i :
  0 <= off -> off + zlen bs <= zlen buf -> 0 <= i ->
  rd (xor_at buf off bs) i
  = if decide (off <= i < off + zlen bs) then Z.lxor (rd buf i) (rd bs (i - off)) else rd buf i.
Proof.
  intros Ho Hz Hi. pose proof (zlen_nonneg bs). unfold xor_at.
  assert (zlen (sub_bytes buf off (zlen bs)) = zlen bs) as Hs by (apply zlen_sub_bytes; lia).
  case_decide as Hin.
  - rewrite rd_wr_in by (rewrite ?zlen_zip by done; lia).
    rewrite rd_zip, rd_sub by (done || lia). f_equal. f_equal. lia.
  - apply rd_wr_ne; rewrite ?zlen_zip by done; lia.
Qed.

Lemma lxor_twice a b : Z.lxor (Z.lxor a b) b = a.
Proof. by rewrite Z.lxor_assoc, Z.lxor_nilpotent, Z.lxor_0_r. Qed.

Lemma xor_at_inj buf off b1 b2 :
  zlen b1 = zlen b2 -> 0 <= off -> off + zlen b1 <= zlen buf ->
  xor_at buf off b1 = xor_at buf off b2 -> b1 = b2.
Proof.
  intros Hz Ho Hl Heq. apply buf_ext; [done|]. intros i Hi.
  assert (rd (xor_at buf off b1) (off + i) = rd (xor_at buf off b2) (off + i)) as H by by rewrite Heq.
  rewrite !rd_xor_at in H by lia. rewrite !decide_True in H by lia.
  replace (off + i - off) with i in H by lia. apply (f_equal (Z.lxor (rd buf (off + i)))) in H.
  by rewrite <- !Z.lxor_assoc, Z.lxor_nilpotent, !Z.lxor_0_l in H.
Qed.

(** ** Nonces *)

Lemma be_bytes_inj n v w :
  0 <= v < 256 ^ Z.of_nat n -> 0 <= w < 256 ^ Z.of_nat n -> be_bytes n v = be_bytes n w -> v = w.
Proof.
  intros Hv Hw H. rewrite <- (be_val_be_bytes_small n v Hv), <- (be_val_be_bytes_small n w Hw). congruence.
Qed.

(** C30: under one IV of at least 96 bits, two packets have the same nonce only when they have
    the same packet number and the same path: no nonce is used twice with a key. *)
Theorem nonce_injective iv pn1 path1 pn2 path2 :
  12 <= zlen iv -> 0 <= pn1 < 2 ^ 64 -> 0 <= pn2 < 2 ^ 64 -> 0 <= path1 < 2 ^ 32 -> 0 <= path2 < 2 ^ 32 ->
  xqc_crypto_create_nonce iv pn1 path1 = xqc_crypto_create_nonce iv pn2 path2 ->
  pn1 = pn2 /\ path1 = path2.
Proof.
  intros Hz H1 H2 P1 P2 Heq. unfold xqc_crypto_create_nonce in Heq.
  destruct (12 <=? zlen iv) eqn:E; [|zb].
  assert (zlen (be_bytes 8 pn1) = 8 /\ zlen (be_bytes 8 pn2) = 8) as [Z1 Z2] by (rewrite !zlen_be_bytes; lia).
  assert (zlen (be_bytes 4 path1) = 4 /\ zlen (be_bytes 4 path2) = 4) as [Z3 Z4] by (rewrite !zlen_be_bytes; lia).
  assert (xor_at iv (zlen iv - 8) (be_bytes 8 pn1) = xor_at iv (zlen iv - 8) (be_bytes 8 pn2)) as Hpn.
  { apply buf_ext; [by rewrite !zlen_xor_at|]. rewrite zlen_xor_at. intros i Hi.
    assert (rd (xor_at (xor_at iv (zlen iv - 8) (be_bytes 8 pn1)) (zlen iv - 12) (be_bytes 4 path1)) i
            = rd (xor_at (xor_at iv (zlen iv - 8) (be_bytes 8 pn2)) (zlen iv - 12) (be_bytes 4 path2)) i)
      as H by by rewrite Heq.
    destruct (decide (zlen iv - 8 <= i)).
    - rewrite !(rd_xor_at (xor_at _ _ _)), !decide_False in H by (rewrite ?zlen_xor_at; lia). done.
    - rewrite !rd_xor_at, !decide_False by lia. done. }
  split.
  - apply (be_bytes_inj 8); [lia..|]. eapply xor_at_inj; [congruence| | |exact Hpn]; lia.
  - rewrite Hpn in Heq. apply (be_bytes_inj 4); [lia..|].
    eapply xor_at_inj; [congruence| | |exact Heq]; rewrite ?zlen_xor_at; lia.
Qed.

Lemma nonce_injective_witness :
  xqc_crypto_create_nonce (replicate 12 5) 7 3 = xqc_crypto_create_nonce (replicate 12 5) 7 3 /\ 7 = 7.
Proof.
  split; [reflexivity|].
  apply (nonce_injective (replicate 12 5) 7 3 7 3); by_decide || reflexivity.
Defined.

(** ** Header protection *)

Section protection.

Context {lib : CryptoLib} {laws : CryptoLaws}.

Lemma pktno_len_range buf : 1 <= XQC_PACKET_SHORT_HEADER_PKTNO_LEN buf <= 4.
Proof.
  unfold XQC_PACKET_SHORT_HEADER_PKTNO_LEN. change 3 with (Z.ones 2). rewrite land_mask by lia.
  pose proof (Z.mod_pos_bound (rd buf 0) (2 ^ 2)). lia.
Qed.

(** The mask of a protected packet and where it lies. *)
Lemma encrypt_header_ok cr pkt_type buf pktno len buf' :
  0 < pktno -> len <= zlen buf ->
  xqc_crypto_encrypt_header cr pkt_type buf pktno len = (Ok tt, buf') ->
  let n := XQC_PACKET_SHORT_HEADER_PKTNO_LEN buf in
  exists mask,
    lib_hp_mask (cipher_id cr) (tx_hp cr) (sub_bytes buf (pktno + 4) XQC_HP_SAMPLELEN) = Some mask
    /\ (zlen mask <? XQC_HP_MASKLEN) = false /\ zlen (sub_bytes mask 1 n) = n
    /\ unset (tx_hp cr) = false /\ xqc_crypto_check_hp_sample pktno len = true
    /\ pktno + 20 <= len /\ zlen buf' = zlen buf
    /\ forall i, 0 <= i -> rd buf' i =
         if decide (i = 0) then Z.lxor (rd buf 0) (first_mask pkt_type (rd mask 0))
         else if decide (pktno <= i < pktno + n) then Z.lxor (rd buf i) (rd (sub_bytes mask 1 n) (i - pktno))
         else rd buf i.
Proof.
  intros Hp Hz H n. unfold xqc_crypto_encrypt_header in H. fold n in H.
  destruct (unset (tx_hp cr)); [done|]. destruct (_ || _) eqn:E1; [done|].
  destruct (xqc_crypto_check_hp_sample pktno len) eqn:E2; [|done].
  destruct (lib_hp_mask _ _ _) as [mask|] eqn:Em; [|done]. exists mask.
  destruct (zlen mask <? XQC_HP_MASKLEN) eqn:E3; [done|]. injection H as <-.
  pose proof (pktno_len_range buf) as Hn. fold n in Hn.
  assert (zlen (sub_bytes mask 1 n) = n) as Hmz
    by (apply zlen_sub_bytes; unfold XQC_HP_MASKLEN in E3; zb).
  assert (pktno + 20 <= len).
  { unfold xqc_crypto_check_hp_sample, XQC_HP_SAMPLELEN in E2. apply negb_true_iff in E2. zb. }
  split_and!; try done; [by rewrite zlen_xor_at, zlen_wr|]. intros i Hi.
  rewrite rd_xor_at by (rewrite ?zlen_wr; lia). rewrite Hmz.
  destruct (decide (pktno <= i < pktno + n)), (decide (i = 0)) as [->|]; try lia;
    rewrite ?rd_wr_ne by (rewrite ?zlen_cons, ?zlen_nil; lia); try done.
  by rewrite rd_wr_hd by lia.
Qed.

(** The receiver's buffer holds the protected packet, perhaps with more behind it: after
    removing the protection it holds the packet as it was. *)
Lemma header_protection_undone cr cr' pkt_type buf pktno len buf' b :
  0 < pktno -> len <= zlen buf -> len <= zlen b ->
  cipher_id cr' = cipher_id cr -> rx_hp cr' = tx_hp cr ->
  xqc_crypto_encrypt_header cr pkt_type buf pktno len = (Ok tt, buf') ->
  agree buf' b 0 len ->
  exists b', xqc_crypto_decrypt_header cr' pkt_type b pktno len = (Ok tt, b')
  /\ zlen b' = zlen b /\ agree buf b' 0 len.
Proof.
  intros Hp Hz Hzb Hc Hhp Henc Hag.
  destruct (encrypt_header_ok _ _ _ _ _ _ Hp Hz Henc) as (mask & Em & E3 & Hmz & Eu & E2 & Hl & _ & Hb').
  set (n := XQC_PACKET_SHORT_HEADER_PKTNO_LEN buf) in *. pose proof (pktno_len_range buf) as Hn. fold n in Hn.
  set (m0 := first_mask pkt_type (rd mask 0)) in *.
  assert (forall i, 0 <= i < len -> rd b i =
    if decide (i = 0) then Z.lxor (rd buf 0) m0
    else if decide (pktno <= i < pktno + n) then Z.lxor (rd buf i) (rd (sub_bytes mask 1 n) (i - pktno))
    else rd buf i) as Hb by (intros i Hi; rewrite <- (Hag i) by lia; apply Hb'; lia).
  unfold xqc_crypto_decrypt_header. rewrite Hc, Hhp, Eu, E2. cbn [negb].
  assert (sub_bytes b (pktno + 4) XQC_HP_SAMPLELEN = sub_bytes buf (pktno + 4) XQC_HP_SAMPLELEN) as ->.
  { unfold XQC_HP_SAMPLELEN. eapply agree_sub_bytes with (e := len); [|lia..]. intros i Hi. rewrite Hb by lia.
    by rewrite !decide_False by lia. }
  rewrite Em, E3. fold m0. rewrite (Hb 0), decide_True, lxor_twice by lia. set (b1 := wr b 0 [rd buf 0]).
  assert (XQC_PACKET_SHORT_HEADER_PKTNO_LEN b1 = n) as ->.
  { unfold n, XQC_PACKET_SHORT_HEADER_PKTNO_LEN, b1. by rewrite rd_wr_hd by lia. }
  destruct (_ || _) eqn:E1; [zb|]. eexists. split; [done|]. unfold b1.
  split; [by rewrite zlen_xor_at, zlen_wr|]. intros i Hi. rewrite rd_xor_at by (rewrite ?zlen_wr; lia). rewrite Hmz.
  destruct (decide (i = 0)) as [->|].
  { rewrite decide_False by lia. by rewrite rd_wr_hd by lia. }
  rewrite rd_wr_ne by (rewrite ?zlen_cons, ?zlen_nil; lia). rewrite Hb by lia.
  rewrite (decide_False (P := i = 0)) by done. case_decide; [|done]. by rewrite lxor_twice.
Qed.

Lemma first_mask_fixed_bit type m a : Z.lxor a (first_mask type m) .& 0x40 = a .& 0x40.
Proof.
  assert (exists k, first_mask type m = m .& k /\ k .& 0x40 = 0) as (k & -> & Hk).
  { unfold first_mask. case_if; eexists; done. }
  apply Z.bits_inj'. intros i Hi. apply (f_equal (fun z => Z.testbit z i)) in Hk.
  rewrite Z.bits_0 in Hk. rewrite !Z.land_spec, Z.lxor_spec, Z.land_spec in *.
  destruct (Z.testbit k i), (Z.testbit 64 i), (Z.testbit m i), (Z.testbit a i); done.
Qed.

(** Header protection leaves the fixed bit and what lies before the packet number. *)
Lemma protection_clear cr pkt_type buf pktno end_ buf' :
  0 < pktno -> end_ <= zlen buf ->
  xqc_crypto_encrypt_header cr pkt_type buf pktno end_ = (Ok tt, buf') ->
  rd buf' 0 .& 0x40 = rd buf 0 .& 0x40 /\ agree buf buf' 1 pktno /\ zlen buf' = zlen buf.
Proof.
  intros Hp Hz Henc.
  destruct (encrypt_header_ok _ _ _ _ _ _ Hp Hz Henc) as (mask & _ & _ & _ & _ & _ & Hl & Hz' & Hb).
  split_and!; [| |done].
  - rewrite Hb, decide_True by lia. apply first_mask_fixed_bit.
  - intros i Hi. by rewrite Hb, !decide_False by lia.
Qed.

(** ** Opening what was sealed *)

Definition payload_of (ho : hdr_out) : list Z :=
  sub_bytes (po_buf (ho_po ho)) (po_payload ho) (po_used_size (ho_po ho) - po_payload ho).

Definition phase_of (ho : hdr_out) (buf : list Z) : Z :=
  if xqc_packet_type_to_enc_level (ho_pkt_type ho) =? XQC_ENC_LEV_1RTT
  then XQC_PACKET_SHORT_HEADER_KEY_PHASE buf else 0.

Definition nonce_path (c : prot_conn) (pid : Z) : Z := if pc_multipath c then u32 pid else 0.

(** What a call that sealed a packet did. *)
Lemma seal_inv c ho pid enc cap now pto len c' enc' :
  xqc_packet_encrypt_buf c ho pid enc cap now pto = (Ok len, c', enc') ->
  let level := xqc_packet_type_to_enc_level (ho_pkt_type ho) in
  exists cr ct, tls_crypto c level = Some cr
  /\ let enc0 := copy_header cr ho enc in
     xqc_crypto_encrypt_payload cr (ho_pkt_num ho) (phase_of ho enc0) (nonce_path c pid)
       (sub_bytes enc0 0 (po_payload ho)) (payload_of ho) (cap - po_payload ho) = Ok ct
     /\ len = po_payload ho + zlen ct
     /\ xqc_crypto_encrypt_header cr (ho_pkt_type ho) (wr enc0 (po_payload ho) ct) (po_ppktno ho) len
        = (Ok tt, enc').
Proof.
  intros H level. unfold xqc_packet_encrypt_buf in H. fold level in H.
  destruct (tls_crypto c level) as [cr|] eqn:Ec; [|done]. destruct (negb _); [done|].
  destruct (aead_limit_of c cr _) as [counted c1] eqn:E1.
  assert (pc_paths c1 = pc_paths c /\ pc_multipath c1 = pc_multipath c) as [Hp1 Hm1].
  { unfold aead_limit_of in E1. repeat case_match; simplify_eq; done. }
  destruct (if counted then _ else _) as [[] c2] eqn:E2; [|done].
  assert (c2 = c1) as ->.
  { destruct counted; [|congruence]. unfold xqc_packet_check_aead_confidentiality_limit in E2.
    case_match; congruence. }
  unfold seal_packet in H. unfold xqc_conn_find_path_by_path_id in H. rewrite Hp1, Hm1 in H.
  destruct (find _ _) as [path|] eqn:Ef; [|done]. apply find_some in Ef as [_ Ef]. apply Z.eqb_eq in Ef.
  fold level in H. fold (payload_of ho) in H. rewrite Ef in H. fold (nonce_path c pid) in H.
  exists cr. fold (phase_of ho (copy_header cr ho enc)) in H.
  destruct (xqc_crypto_encrypt_payload _ _ _ _ _ _ _) as [ct|] eqn:Ep; [|done]. exists ct.
  split; [done|]. cbv zeta. split; [done|].
  destruct (xqc_crypto_encrypt_header _ _ _ _ _) as [[[]|] enc2] eqn:Eh; [|done].
  assert (len = po_payload ho + zlen ct /\ enc2 = enc') as [-> ->].
  { destruct counted; [destruct (after_seal c1 now pto) as [[] ?]|]; simplify_eq; done. }
  done.
Qed.

(** The sender's packet: a header that ends with its packet number and says so in the first
    byte. *)
Record out_packet (ho : hdr_out) (bits : Z) : Prop := {
  op_bits : 0 <= bits <= 3;
  op_pn : 0 <= ho_pkt_num ho < 2 ^ 62;
  op_at : bytes_at (po_buf (ho_po ho)) (po_ppktno ho) (pktno_bytes (ho_pkt_num ho) bits);
  op_first : rd (po_buf (ho_po ho)) 0 .& 0x03 = bits;
  op_pos : 3 <= po_ppktno ho;
  op_end : po_payload ho = po_ppktno ho + (bits + 1);
  op_used : po_payload ho <= po_used_size (ho_po ho) <= zlen (po_buf (ho_po ho));
}.

Lemma copy_header_agree cr ho bits enc :
  out_packet ho bits -> po_payload ho <= zlen enc ->
  zlen (copy_header cr ho enc) = zlen enc
  /\ (forall i, 0 <= i < po_payload ho ->
      i = po_ppktno ho - 2 \/ i = po_ppktno ho - 1 \/ rd (copy_header cr ho enc) i = rd (po_buf (ho_po ho)) i).
Proof.
  intros [Hb Hpn Hat Hf Hp He Hu] Hz. unfold copy_header.
  assert (forall i, 0 <= i < po_payload ho ->
    rd (wr enc 0 (sub_bytes (po_buf (ho_po ho)) 0 (po_payload ho))) i = rd (po_buf (ho_po ho)) i) as Hcopy.
  { intros i Hi. assert (zlen (sub_bytes (po_buf (ho_po ho)) 0 (po_payload ho)) = po_payload ho) as Hs
      by (apply zlen_sub_bytes; lia).
    rewrite rd_wr_in by lia. rewrite rd_sub by lia. f_equal. lia. }
  case_if; [|split; [apply zlen_wr|auto]]. unfold xqc_vint_write, XQC_LONG_HEADER_LENGTH_BYTE.
  rewrite !zlen_wr. split; [done|]. intros i Hi.
  destruct (decide (i = po_ppktno ho - 2)); [by left|]. destruct (decide (i = po_ppktno ho - 1)); [tauto|].
  right. right. rewrite rd_wr_ne; [by apply Hcopy|lia..|].
  rewrite zlen_vint_bytes by lia. lia.
Qed.

(** The two ends hold the same key and IV for a phase. *)
Record same_key (cr cr' : xqc_crypto_t) (phase : Z) : Prop := {
  sk_cipher : cipher_id cr' = cipher_id cr;
  sk_taglen : aead_taglen cr' = aead_taglen cr;
  sk_key : km_key (km_at (rx_ckm cr') phase) = km_key (km_at (tx_ckm cr) phase);
  sk_iv : km_iv (km_at (rx_ckm cr') phase) = km_iv (km_at (tx_ckm cr) phase);
}.

Lemma encrypt_payload_fits cr pn phase np hdr pt cap ct :
  xqc_crypto_encrypt_payload cr pn phase np hdr pt cap = Ok ct ->
  zlen ct <= cap /\ zlen ct = zlen pt + aead_taglen cr.
Proof.
  unfold xqc_crypto_encrypt_payload. destruct (_ || _); [done|].
  destruct (lib_seal _ _ _ _ _ _) as [ct'|] eqn:E; [|done].
  destruct (zlen ct' =? _) eqn:E2; [|done]. intros [= <-]. split; [by eapply seal_fits|zb].
Qed.

Lemma payload_opened cr cr' pn phase np hdr pt cap ct cap' :
  xqc_crypto_encrypt_payload cr pn phase np hdr pt cap = Ok ct -> same_key cr cr' phase ->
  zlen pt <= cap' -> xqc_crypto_decrypt_payload cr' pn phase np hdr ct cap' = Ok pt.
Proof.
  unfold xqc_crypto_encrypt_payload, xqc_crypto_decrypt_payload. intros H [Hc Ht Hk Hi] Hcap.
  rewrite Hk, Hi, Hc, Ht. destruct (_ || _); [done|].
  destruct (lib_seal _ _ _ _ _ _) as [ct'|] eqn:E; [|done].
  destruct (zlen ct' =? _) eqn:E2; [|done]. injection H as <-. apply Z.eqb_eq in E2.
  rewrite (open_seal _ _ _ _ _ _ _ _ E Hcap). destruct (zlen pt =? _) eqn:E3; [done|]. zb.
Qed.

(** The packet as the receiver has it after its header was read. *)
Record in_packet (ho : hdr_out) (len : Z) (enc : list Z) (pi : hdr_in) : Prop := {
  ip_type : hi_pkt_type pi = ho_pkt_type ho;
  ip_offset : hi_pkt_num_offset pi = po_ppktno ho;
  ip_length : hi_pkt_num_offset pi + hi_length pi = len;
  ip_bytes : agree enc (hi_buf pi) 0 len;
  ip_room : len <= zlen (hi_buf pi);
}.

(** Removing header protection gives back the header, the packet number and the sealed
    payload. *)
Lemma header_opened cr cr' ho bits enc ct enc' pi :
  let hl := po_payload ho in let len := hl + zlen ct in
  let enc0 := copy_header cr ho enc in
  out_packet ho bits -> len <= zlen enc ->
  cipher_id cr' = cipher_id cr -> rx_hp cr' = tx_hp cr ->
  xqc_crypto_encrypt_header cr (ho_pkt_type ho) (wr enc0 hl ct) (po_ppktno ho) len = (Ok tt, enc') ->
  in_packet ho len enc' pi ->
  exists b, xqc_crypto_decrypt_header cr' (hi_pkt_type pi) (hi_buf pi) (hi_pkt_num_offset pi)
              (hi_pkt_num_offset pi + hi_length pi) = (Ok tt, b)
  /\ rd b 0 = rd (po_buf (ho_po ho)) 0
  /\ bytes_at b (po_ppktno ho) (pktno_bytes (ho_pkt_num ho) bits)
  /\ sub_bytes b 0 hl = sub_bytes enc0 0 hl /\ sub_bytes b hl (zlen ct) = ct.
Proof.
  intros hl len enc0 Ho Hz Hc Hhp Henc [It Io Il Ib Ir]. pose proof (zlen_nonneg ct).
  destruct (copy_header_agree cr ho bits enc Ho) as [Hz0 Hcopy]; [fold hl; lia|]. fold enc0 in Hz0, Hcopy.
  destruct Ho as [Hb Hpn Hat Hf Hp He Hu]. fold hl in He, Hcopy. rewrite It, Il, Io in *.
  destruct (header_protection_undone cr cr' (ho_pkt_type ho) (wr enc0 hl ct) (po_ppktno ho) len enc'
              (hi_buf pi)) as (b & Hd & Hbz & Hag); try done; [lia|rewrite zlen_wr; lia|].
  exists b. split; [done|].
  assert (forall i, 0 <= i < hl -> rd b i = rd enc0 i) as Hhead.
  { intros i Hi. rewrite <- (Hag i) by lia. apply rd_wr_ne; lia. }
  assert (agree enc0 b 0 hl) as Hag0 by (intros i Hi; symmetry; apply Hhead; lia).
  split_and!.
  - rewrite Hhead by lia. destruct (Hcopy 0) as [?|[?|?]]; [lia|lia|lia|done].
  - assert (zlen (pktno_bytes (ho_pkt_num ho) bits) = bits + 1) as Hpz by by apply zlen_pktno_bytes.
    pose proof (bytes_at_sub _ _ _ Hat) as Hs. rewrite Hpz in Hs. split; [lia|]. rewrite Hpz, <- Hs.
    apply (agree_sub_bytes _ _ _ _ hl); [|lia..]. intros i Hi. rewrite Hhead by lia.
    destruct (Hcopy i) as [?|[?|?]]; [lia|lia|lia|done].
  - symmetry. apply (agree_sub_bytes _ _ _ _ hl); [done|lia..].
  - assert (bytes_at (wr enc0 hl ct) hl ct) as Hct by (apply bytes_at_wr; lia).
    apply bytes_at_sub in Hct. rewrite <- Hct at 2. symmetry.
    apply (agree_sub_bytes _ _ _ _ len); [apply (agree_mono _ _ 0); [done|lia]|rewrite ?zlen_wr; lia..].
Qed.

Definition is_short (ho : hdr_out) : bool := ho_pkt_type ho =? XQC_PTYPE_SHORT_HEADER.

Lemma level_short type : (xqc_packet_type_to_enc_level type =? XQC_ENC_LEV_1RTT) = (type =? XQC_PTYPE_SHORT_HEADER).
Proof.
  unfold xqc_packet_type_to_enc_level, XQC_PTYPE_0RTT, XQC_PTYPE_HSK, XQC_PTYPE_SHORT_HEADER.
  repeat case_if; zify_bools; subst; done.
Qed.

(** The packet is opened once the keys of its phase are there. *)
Lemma open_sealed c ho bits pid enc cap now pto len c' enc' d pi cap' now' pto' d1 :
  let level := xqc_packet_type_to_enc_level (ho_pkt_type ho) in
  let phase := XQC_PACKET_SHORT_HEADER_KEY_PHASE (po_buf (ho_po ho)) in
  let other := is_short ho && negb (phase =? next_in_key_phase (pc_ku d)) in
  let e := u64 (largest_of d (hi_path_id pi) (hi_pkt_pns pi) + 1) in
  out_packet ho bits -> cap <= zlen enc ->
  xqc_packet_encrypt_buf c ho pid enc cap now pto = (Ok len, c', enc') ->
  in_packet ho len enc' pi ->
  (level =? XQC_ENC_LEV_0RTT) && negb (pc_early_accepted d) = false ->
  (exists cr cr', tls_crypto c level = Some cr /\ tls_crypto d level = Some cr'
     /\ cipher_id cr' = cipher_id cr /\ rx_hp cr' = tx_hp cr) ->
  prepare_keys d other now' = (Ok tt, d1) ->
  (exists cr cr1, tls_crypto c level = Some cr /\ tls_crypto d1 level = Some cr1
     /\ same_key cr cr1 (if is_short ho then phase else 0)) ->
  nonce_path c pid = nonce_path d1 (hi_path_id pi) ->
  e <= 2 ^ 62 -> e - 2 ^ (8 * (bits + 1) - 1) < ho_pkt_num ho <= e + 2 ^ (8 * (bits + 1) - 1) ->
  zlen (payload_of ho) <= cap' ->
  exists buf reinj, xqc_packet_decrypt d pi cap' now' pto'
  = if negb (is_short ho)
    then (Ok (mk_opened (ho_pkt_num ho) (payload_of ho) reinj false), d1, buf)
    else match after_open d1 other (hi_path_id pi) (ho_pkt_num ho) now' pto' with
         | (Err err, d2) => (Err err, d2, buf)
         | (Ok cur, d2) => (Ok (mk_opened (ho_pkt_num ho) (payload_of ho) reinj cur), d2, buf)
         end.
Proof.
  intros level phase other e Ho Hcap Hseal Hin Hearly (cr & cr' & Ec & Ed & Hci & Hhp) Hprep
    (cr_ & cr1 & Ec_ & Ed1 & Hkey) Hnp He Hwin Hpt.
  destruct (seal_inv _ _ _ _ _ _ _ _ _ _ Hseal) as (cr2 & ct & Ec2 & Hp & -> & Hh).
  fold level in Ec2. simplify_eq. set (enc0 := copy_header cr ho enc) in *.
  destruct (encrypt_payload_fits _ _ _ _ _ _ _ _ Hp) as [Hfit Hctz].
  destruct (header_opened cr cr' ho bits enc ct enc' pi Ho) as (b & Hdh & Hb0 & Hpk & Hhd & Hct);
    [lia|done..|]. fold enc0 in Hhd.
  pose proof Ho as [Hb Hpn Hat Hf Hpp Hend Hu]. pose proof Hin as [It Io Il Ib Ir].
  exists b. unfold xqc_packet_decrypt. rewrite It, Io in *. fold level. rewrite Hearly, Ed, Hdh.
  assert (XQC_PACKET_SHORT_HEADER_PKTNO_LEN b = bits + 1) as Hnl
    by (unfold XQC_PACKET_SHORT_HEADER_PKTNO_LEN; rewrite Hb0; lia).
  assert (XQC_PACKET_SHORT_HEADER_KEY_PHASE b = phase) as Hph
    by (unfold XQC_PACKET_SHORT_HEADER_KEY_PHASE, phase; by rewrite Hb0).
  rewrite Hnl, Hph. fold (is_short ho). fold other. rewrite Hprep, Ed1. fold (nonce_path d1 (hi_path_id pi)).
  rewrite (parse_packet_number_at _ _ (ho_pkt_num ho)), <- (Z.mul_comm 8) by done.
  rewrite (decode_packet_number_near (largest_of d (hi_path_id pi) (hi_pkt_pns pi)) (ho_pkt_num ho)) by (done || lia).
  rewrite <- Hend. replace (hi_length pi - (bits + 1)) with (zlen ct) by lia. rewrite Hct, Hhd, <- Hnp.
  assert (phase_of ho enc0 = if is_short ho then phase else 0) as Hpo.
  { unfold phase_of, is_short, phase. rewrite level_short. case_if; [|done].
    unfold XQC_PACKET_SHORT_HEADER_KEY_PHASE.
    assert (rd enc0 0 = rd (po_buf (ho_po ho)) 0) as ->; [|done].
    destruct (copy_header_agree cr ho bits enc Ho) as [_ Hc]; [pose proof (zlen_nonneg ct); lia|].
    destruct (Hc 0) as [?|[?|?]]; [lia|lia|lia|done]. }
  rewrite Hpo in Hp. rewrite (payload_opened cr cr1 _ _ _ _ _ _ _ cap' Hp Hkey Hpt).
  destruct (is_short ho); eexists; reflexivity.
Qed.

End protection.

End PktProtectSpec.
