(* ===== verification/KeyUpdate.v ===== *)
(** The key update: at every moment the keys in the slots of a connection are those of its
    generation, no key seals more packets than its limit, and a 1-RTT packet of the peer is
    opened whichever of the admissible generations sealed it. *)

From stdpp Require Import base numbers list relations.
From S2P Require Import Prelude VInt RecvRecord PacketBuf Frames CidSet CidSetSpec.
From S2P Require Import PktHeader PktHeaderSpec PktProtect PktProtectSpec.
Import VInt RecvRecord Frames CidSet CidSetSpec PktHeader PktHeaderSpec PktProtect PktProtectSpec.

Module KeyUpdate.

(** Documented of HKDF-Expand: it gives output of the length asked for. *)
Class ExpandLaw {lib : CryptoLib} : Prop := {
  expand_total : forall secret info len, 0 <= len <= XQC_MAX_KNP_LEN ->
    exists out, lib_expand secret info len = Some out /\ zlen out = len;
}.

(** What both ends agree on for one direction each: the cipher, the lengths, the header keys and
    the first secrets. *)
Record key_params := mk_kp {
  kp_cipher : Z;
  kp_keylen : Z;
  kp_noncelen : Z;
  kp_taglen : Z;
  kp_rx_hp : list Z;
  kp_tx_hp : list Z;
  kp_rx_secret : list Z;
  kp_tx_secret : list Z;
}.

Record params_ok (K : key_params) : Prop := {
  po_keylen : 0 < kp_keylen K <= XQC_MAX_KNP_LEN;
  po_noncelen : 0 <= kp_noncelen K <= XQC_MAX_KNP_LEN;
  po_rx : zlen (kp_rx_secret K) <= XQC_MAX_KNP_LEN;
  po_tx : zlen (kp_tx_secret K) <= XQC_MAX_KNP_LEN;
}.

Section keys.

Context {lib : CryptoLib} {law : ExpandLaw}.
Context (K : key_params) (HK : params_ok K).

(** ** Generations *)

Definition next_secret (s : list Z) : list Z :=
  match xqc_hkdf_expand_label (zlen s) s label_ku with Some out => out | None => [] end.

(** The secret of a generation. *)
Definition gen (n : nat) (s : list Z) : list Z := Nat.iter n next_secret s.

(** The key material of a secret. *)
Definition km_of (s : list Z) : xqc_crypto_km_t :=
  mk_km
    (match xqc_hkdf_expand_label (kp_keylen K) s label_key with Some k => k | None => [] end)
    (match xqc_hkdf_expand_label (Z.max 8 (kp_noncelen K)) s label_iv with Some v => v | None => [] end)
    s.

Lemma expand_label_total len s label :
  0 <= len <= XQC_MAX_KNP_LEN ->
  exists out, xqc_hkdf_expand_label len s label = Some out /\ zlen out = len.
Proof. intros. by apply expand_total. Qed.

Lemma gen_len n s : zlen s <= XQC_MAX_KNP_LEN -> zlen (gen n s) = zlen s.
Proof.
  intros Hs. unfold gen. induction n as [|n IH]; [done|]. simpl. unfold next_secret at 1.
  destruct (expand_label_total (zlen (Nat.iter n next_secret s)) (Nat.iter n next_secret s) label_ku)
    as (out & -> & Hz); [pose proof (zlen_nonneg (Nat.iter n next_secret s)); lia|]. congruence.
Qed.

Lemma gen_S n s : next_secret (gen n s) = gen (S n) s.
Proof. done. Qed.

Definition phase (n : nat) : Z := Z.of_nat n mod 2.

Lemma phase_cases n : phase n = 0 /\ phase (S n) = 1 \/ phase n = 1 /\ phase (S n) = 0.
Proof.
  unfold phase. rewrite Nat2Z.inj_succ. pose proof (Z.mod_pos_bound (Z.of_nat n) 2 ltac:(lia)).
  pose proof (Z.div_mod (Z.of_nat n) 2 ltac:(lia)). unfold Z.succ.
  assert (Z.of_nat n mod 2 = 0 \/ Z.of_nat n mod 2 = 1) as [E|E] by lia; rewrite E; [left|right];
    (split; [done|]); symmetry; [apply (Z.mod_unique _ _ (Z.of_nat n / 2))|apply (Z.mod_unique _ _ (Z.of_nat n / 2 + 1))]; lia.
Qed.

Lemma phase_SS n : phase (S (S n)) = phase n.
Proof. destruct (phase_cases n) as [[]|[]], (phase_cases (S n)) as [[]|[]]; congruence. Qed.

Lemma phase_flip n : Z.lxor (phase n) 1 = phase (S n).
Proof. by destruct (phase_cases n) as [[-> ->]|[-> ->]]. Qed.

Lemma phase_ne n : phase (S n) <> phase n.
Proof. destruct (phase_cases n) as [[-> ->]|[-> ->]]; done. Qed.

Lemma km_at_set_eq k n v : km_at (km_set k (phase n) v) (phase n) = v.
Proof. unfold km_at, km_set. by destruct (phase n =? 0). Qed.

Lemma km_at_set_ne k n v : km_at (km_set k (phase (S n)) v) (phase n) = km_at k (phase n).
Proof. by destruct (phase_cases n) as [[-> ->]|[-> ->]]. Qed.

(** ** The invariant *)

(** The 1-RTT keys of generation [n]: the slot of the current phase holds the keys of the
    generation, the other one those that [other_rx_keys] says. *)
Record crypto_gen (n : nat) (other : xqc_ku_rx_keys_t) (cr : xqc_crypto_t) : Prop := {
  cg_cipher : cipher_id cr = kp_cipher K;
  cg_keylen : aead_keylen cr = kp_keylen K;
  cg_noncelen : aead_noncelen cr = kp_noncelen K;
  cg_taglen : aead_taglen cr = kp_taglen K;
  cg_rx_hp : rx_hp cr = kp_rx_hp K;
  cg_tx_hp : tx_hp cr = kp_tx_hp K;
  cg_phase : cr_key_phase cr = phase n;
  cg_tx : km_at (tx_ckm cr) (phase n) = km_of (gen n (kp_tx_secret K));
  cg_rx : km_at (rx_ckm cr) (phase n) = km_of (gen n (kp_rx_secret K));
  cg_other : match other with
             | XQC_KU_RX_KEYS_NONE => True
             | XQC_KU_RX_KEYS_OLD => exists m, n = S m
                 /\ km_at (rx_ckm cr) (phase (S n)) = km_of (gen m (kp_rx_secret K))
             | XQC_KU_RX_KEYS_NEXT =>
                 km_at (rx_ckm cr) (phase (S n)) = km_of (gen (S n) (kp_rx_secret K))
             end;
}.

(** The context agrees with the keys, and the packets sealed under the current key stay within
    the limit. *)
Record ku_inv (n : nat) (c : prot_conn) : Prop := {
  ki_crypto : exists cr, tls_crypto c XQC_ENC_LEV_1RTT = Some cr
                         /\ crypto_gen n (other_rx_keys (pc_ku c)) cr;
  ki_out : cur_out_key_phase (pc_ku c) = phase n;
  ki_in : next_in_key_phase (pc_ku c) = phase n;
  ki_cnt : key_update_cnt (pc_ku c) = u64 (Z.of_nat n);
  ki_limit : (aead_confidentiality_limit (pc_ku c) = 0 /\ enc_pkt_cnt (pc_ku c) = 0)
             \/ (kp_cipher K <> 0
                 /\ aead_confidentiality_limit (pc_ku c) = xqc_aead_confidentiality_limit (kp_cipher K)
                 /\ 0 <= enc_pkt_cnt (pc_ku c) <= aead_confidentiality_limit (pc_ku c));
}.

Lemma derive_ok n other cr type :
  crypto_gen n other cr ->
  let s := match type with XQC_KEY_TYPE_RX_READ => kp_rx_secret K | XQC_KEY_TYPE_TX_WRITE => kp_tx_secret K end in
  xqc_crypto_derive_updated_keys cr type
  = (Ok tt, set_keys cr type (km_set (keys_of cr type) (phase (S n)) (km_of (gen (S n) s)))).
Proof.
  intros [] s. unfold xqc_crypto_derive_updated_keys. rewrite cg_phase0, phase_flip.
  assert (km_at (keys_of cr type) (phase n) = km_of (gen n s)) as -> by (unfold s; by destruct type).
  cbn [km_secret km_of]. assert (zlen s <= XQC_MAX_KNP_LEN) as Hs by (unfold s; destruct HK, type; done).
  pose proof (zlen_nonneg s). rewrite (gen_len n s Hs).
  destruct (XQC_MAX_KNP_LEN <? zlen s) eqn:E; [zb|].
  destruct (expand_label_total (zlen s) (gen n s) label_ku) as (next & Hn & Hz); [lia|]. rewrite Hn.
  assert (gen (S n) s = next) as Hg.
  { rewrite <- gen_S. unfold next_secret. rewrite (gen_len n s Hs). by rewrite Hn. }
  unfold xqc_crypto_derive_packet_protection_key, xqc_crypto_derive_packet_protection_iv.
  rewrite cg_keylen0, cg_noncelen0. pose proof HK as [].
  destruct (XQC_MAX_KNP_LEN <? kp_keylen K) eqn:E2; [zb|].
  destruct (expand_label_total (kp_keylen K) next label_key) as (key & Hk & _); [lia|]. rewrite Hk.
  destruct (kp_keylen K <=? 0) eqn:E3; [zb|].
  destruct (XQC_MAX_KNP_LEN <? Z.max 8 (kp_noncelen K)) eqn:E4; [unfold XQC_MAX_KNP_LEN in *; zb|].
  destruct (expand_label_total (Z.max 8 (kp_noncelen K)) next label_iv) as (iv & Hi & _);
    [unfold XQC_MAX_KNP_LEN in *; lia|].
  rewrite Hi, Hg. unfold km_of. by rewrite Hk, Hi.
Qed.

Lemma tls_set_1rtt c cr cr0 :
  tls_crypto c XQC_ENC_LEV_1RTT = Some cr0 -> tls_crypto (set_1rtt c cr) XQC_ENC_LEV_1RTT = Some cr.
Proof.
  unfold tls_crypto, set_1rtt. cbn [pc_crypto]. rewrite !nth_lookup. intros H.
  rewrite list_lookup_insert_eq; [done|].
  destruct (pc_crypto c !! Z.to_nat XQC_ENC_LEV_1RTT) eqn:E; [by eapply lookup_lt_Some|done].
Qed.

(** Only the other slot of one direction changes. *)
Lemma update_keys c n type :
  ku_inv n c ->
  exists cr cr', tls_crypto c XQC_ENC_LEV_1RTT = Some cr /\ crypto_gen n (other_rx_keys (pc_ku c)) cr
  /\ xqc_tls_update_1rtt_keys c type = (Ok tt, set_1rtt c cr')
  /\ let s := match type with XQC_KEY_TYPE_RX_READ => kp_rx_secret K | XQC_KEY_TYPE_TX_WRITE => kp_tx_secret K end in
     cr' = set_keys cr type (km_set (keys_of cr type) (phase (S n)) (km_of (gen (S n) s))).
Proof.
  intros []. destruct ki_crypto0 as (cr & Hc & Hg). exists cr. eexists. split_and!; try done.
  unfold xqc_tls_update_1rtt_keys. rewrite Hc, (derive_ok n _ cr type Hg). done.
Qed.

(** The next read keys fill the free slot. *)
Lemma derive_rx_inv c n c1 :
  ku_inv n c -> xqc_tls_update_1rtt_keys c XQC_KEY_TYPE_RX_READ = (Ok tt, c1) ->
  ku_inv n (set_other c1 XQC_KU_RX_KEYS_NEXT).
Proof.
  intros Hi Hu. destruct (update_keys c n XQC_KEY_TYPE_RX_READ Hi) as (cr & cr' & Hc & Hg & Hu' & ->).
  rewrite Hu in Hu'. injection Hu' as ->. destruct Hi, Hg. constructor; try done.
  eexists. split; [by eapply tls_set_1rtt|]. constructor; try done; cbn.
  - by rewrite km_at_set_ne.
  - by rewrite km_at_set_eq.
Qed.

Lemma confirm_shape c initiated now pto :
  exists t ps, let ku := pc_ku c in
  xqc_conn_confirm_key_update c initiated now pto
  = set_timer (xqc_tls_set_1rtt_key_phase
      (set_ku (set_paths c ps)
         (mk_ku (Z.lxor (cur_out_key_phase ku) 1) (Z.lxor (next_in_key_phase ku) 1)
            (u64 (key_update_cnt ku + 1)) XQC_KU_RX_KEYS_OLD 0 (aead_confidentiality_limit ku)
            (initiate_time_guard ku) false initiated)) (Z.lxor (cur_out_key_phase ku) 1)) t.
Proof. destruct initiated; eexists _, (map start_phase (pc_paths c)); reflexivity. Qed.

(** With the next keys in both directions, confirming the update moves to the next
    generation. *)
Lemma confirm_inv c n cr initiated now pto :
  ku_inv n c -> tls_crypto c XQC_ENC_LEV_1RTT = Some cr ->
  km_at (rx_ckm cr) (phase (S n)) = km_of (gen (S n) (kp_rx_secret K)) ->
  forall cr2, cr2 = set_keys cr XQC_KEY_TYPE_TX_WRITE
    (km_set (tx_ckm cr) (phase (S n)) (km_of (gen (S n) (kp_tx_secret K)))) ->
  ku_inv (S n) (xqc_conn_confirm_key_update (set_1rtt c cr2) initiated now pto).
Proof.
  intros [] Hc Hrx cr2 ->. destruct ki_crypto0 as (cr0 & Hc0 & Hg).
  assert (cr0 = cr) as -> by congruence. destruct Hg.
  set (cr2 := set_keys cr _ _).
  assert (tls_crypto (set_1rtt c cr2) XQC_ENC_LEV_1RTT = Some cr2) as Ht by by eapply tls_set_1rtt.
  assert (forall c0, tls_crypto c0 XQC_ENC_LEV_1RTT = Some cr2 -> forall t,
    tls_crypto (set_timer (xqc_tls_set_1rtt_key_phase c0 (phase (S n))) t) XQC_ENC_LEV_1RTT
    = Some (set_phase cr2 (phase (S n)))) as Hph.
  { intros c0 H0 t. unfold xqc_tls_set_1rtt_key_phase. rewrite H0.
    exact (tls_set_1rtt c0 (set_phase cr2 (phase (S n))) cr2 H0). }
  destruct (confirm_shape (set_1rtt c cr2) initiated now pto) as (t & ps & ->).
  cbn [pc_ku set_1rtt]. rewrite ki_out0, ki_in0, !phase_flip. set (ku := mk_ku _ _ _ _ _ _ _ _ _).
  set (c3 := set_ku _ ku). assert (tls_crypto c3 XQC_ENC_LEV_1RTT = Some cr2) as H3 by exact Ht.
  assert (pc_ku (set_timer (xqc_tls_set_1rtt_key_phase c3 (phase (S n))) t) = pc_ku c3) as Hk.
  { unfold xqc_tls_set_1rtt_key_phase. by rewrite H3. }
  constructor; rewrite ?Hk; cbn [pc_ku c3 ku set_ku other_rx_keys cur_out_key_phase next_in_key_phase key_update_cnt
    aead_confidentiality_limit enc_pkt_cnt]; try done.
  - exists (set_phase cr2 (phase (S n))). split; [by apply Hph|]. constructor; try done; cbn.
    + by rewrite km_at_set_eq.
    + exists n. split; [done|]. by rewrite phase_SS.
  - rewrite ki_cnt0. unfold u64. rewrite Nat2Z.inj_succ. unfold Z.succ. by rewrite Zplus_mod_idemp_l.
  - destruct ki_limit0 as [[-> _]|(? & -> & ?)]; [by left|right]. split_and!; [done|done|lia|].
    unfold xqc_aead_confidentiality_limit. case_if; by_decide.
Qed.

Lemma initiate_inv c n now pto :
  ku_inv n c -> exists c', xqc_packet_initiate_key_update c now pto = (Ok tt, c') /\ ku_inv (S n) c'.
Proof.
  intros Hi. unfold xqc_packet_initiate_key_update.
  destruct (update_keys c n XQC_KEY_TYPE_RX_READ Hi) as (cr & cr1 & Hc & Hg & Hu & Hcr1). rewrite Hu.
  pose proof (derive_rx_inv c n _ Hi Hu) as Hi1.
  assert (tls_crypto (set_1rtt c cr1) XQC_ENC_LEV_1RTT = Some cr1) as Hc1 by by eapply tls_set_1rtt.
  unfold xqc_tls_update_1rtt_keys. rewrite Hc1.
  pose proof Hi1 as [(cr1' & Hc1' & Hg1) _ _ _ _].
  assert (cr1' = cr1) as -> by (change (tls_crypto (set_1rtt c cr1) XQC_ENC_LEV_1RTT = Some cr1') in Hc1'; congruence).
  rewrite (derive_ok n _ cr1 XQC_KEY_TYPE_TX_WRITE Hg1). eexists. split; [done|].
  assert (forall c0 o, xqc_conn_confirm_key_update (set_other c0 o) true now pto
                       = xqc_conn_confirm_key_update c0 true now pto) as Hother by done.
  rewrite <- (Hother _ XQC_KU_RX_KEYS_NEXT).
  apply (confirm_inv (set_other (set_1rtt c cr1) XQC_KU_RX_KEYS_NEXT) n cr1 true now pto Hi1 Hc1 (cg_other _ _ _ Hg1) _ eq_refl).
Qed.

(** The invariant reads the crypto contexts and some fields of the update context only. *)
Lemma ku_inv_same c c' n :
  ku_inv n c -> pc_crypto c' = pc_crypto c ->
  other_rx_keys (pc_ku c') = other_rx_keys (pc_ku c) ->
  cur_out_key_phase (pc_ku c') = cur_out_key_phase (pc_ku c) ->
  next_in_key_phase (pc_ku c') = next_in_key_phase (pc_ku c) ->
  key_update_cnt (pc_ku c') = key_update_cnt (pc_ku c) ->
  aead_confidentiality_limit (pc_ku c') = aead_confidentiality_limit (pc_ku c) ->
  enc_pkt_cnt (pc_ku c') = enc_pkt_cnt (pc_ku c) -> ku_inv n c'.
Proof.
  intros [] Hc Ho Hout Hin Hcnt Hl He. constructor; rewrite ?Ho, ?Hout, ?Hin, ?Hcnt, ?Hl, ?He; try done.
  unfold tls_crypto. by rewrite Hc.
Qed.

Lemma discard_inv c n : ku_inv n c -> ku_inv n (xqc_conn_discard_old_rx_keys c).
Proof.
  intros []. destruct ki_crypto0 as (cr & Hc & []). unfold xqc_conn_discard_old_rx_keys. rewrite Hc.
  constructor; try done. eexists. split; [by eapply tls_set_1rtt|].
  constructor; try done; cbn; by rewrite cg_phase0, phase_flip, km_at_set_ne.
Qed.

(** Where a packet carries the other phase, there is a read key for it: the old one or the
    next one. *)
Lemma prepare_inv c n other now :
  ku_inv n c ->
  exists c', prepare_keys c other now = (Ok tt, c') /\ ku_inv n c' /\ pc_multipath c' = pc_multipath c
  /\ (other = true -> other_rx_keys (pc_ku c') <> XQC_KU_RX_KEYS_NONE).
Proof.
  intros Hi. unfold prepare_keys. destruct other; simpl; [|by exists c].
  set (c0 := match other_rx_keys (pc_ku c) with XQC_KU_RX_KEYS_OLD => _ | _ => _ end).
  assert (ku_inv n c0 /\ pc_multipath c0 = pc_multipath c) as [H0 Hm].
  { unfold c0. repeat case_match; (split; [by first [apply discard_inv|done]|]); try done.
    unfold xqc_conn_discard_old_rx_keys. by case_match. }
  clearbody c0. destruct (other_rx_keys (pc_ku c0)) eqn:Eo; [|by exists c0; rewrite Eo..].
  destruct (update_keys c0 n XQC_KEY_TYPE_RX_READ H0) as (cr & cr' & _ & _ & Hu & _). rewrite Hu.
  eexists. split_and!; [done|by eapply derive_rx_inv|done|done].
Qed.

Lemma note_recv_inv c n pid pn : ku_inv n c -> ku_inv n (note_recv pid pn c).
Proof. intros H. by eapply ku_inv_same. Qed.

(** A packet under the next key moves the receiver to its generation, any other leaves it. *)
Lemma after_open_next c n pid pn now pto :
  ku_inv n c -> other_rx_keys (pc_ku c) = XQC_KU_RX_KEYS_NEXT ->
  exists c', after_open c true pid pn now pto = (Ok true, c') /\ ku_inv (S n) c'.
Proof.
  intros Hi Ho. unfold after_open. rewrite Ho. cbn [is_old andb].
  destruct (update_keys c n XQC_KEY_TYPE_TX_WRITE Hi) as (cr & cr' & Hc & Hg & -> & Hcr').
  eexists. split; [done|]. apply note_recv_inv, (confirm_inv c n cr); try done.
  destruct Hg. by rewrite Ho in cg_other0.
Qed.

Lemma after_open_current c n pid pn now pto :
  ku_inv n c -> exists c', after_open c false pid pn now pto = (Ok true, c') /\ ku_inv n c'.
Proof.
  intros Hi. eexists. split; [done|]. apply note_recv_inv. unfold xqc_conn_confirm_peer_key_update.
  case_match; [by eapply ku_inv_same|done].
Qed.








(** ** The counter *)

(** The counter of sealed packets stays, or the generation moves on and it starts again. *)
Definition counts (c c' : prot_conn) : Prop :=
  (key_update_cnt (pc_ku c') = key_update_cnt (pc_ku c) /\ enc_pkt_cnt (pc_ku c') = enc_pkt_cnt (pc_ku c))
  \/ (key_update_cnt (pc_ku c') = u64 (key_update_cnt (pc_ku c) + 1) /\ enc_pkt_cnt (pc_ku c') = 0).





Lemma discard_counts c : counts c (xqc_conn_discard_old_rx_keys c).
Proof. left. unfold xqc_conn_discard_old_rx_keys. by case_match. Qed.




(** ** Every run *)




(** The 1-RTT packets a connection sealed: the number of key updates before each, and its key. *)
Abbreviation seal_log := (list (nat * option xqc_crypto_km_t)).



















(** The connection when the handshake installed the 1-RTT keys. *)
Definition keys_installed (c : prot_conn) : Prop :=
  pc_ku c = xqc_conn_init_key_update_ctx
  /\ exists cr, tls_crypto c XQC_ENC_LEV_1RTT = Some cr /\ crypto_gen 0 XQC_KU_RX_KEYS_NONE cr.

Lemma installed_inv c : keys_installed c -> ku_inv 0 c.
Proof. intros [Hk (cr & Hc & Hg)]. constructor; rewrite ?Hk; try done; [by exists cr|by left]. Qed.

(** ** The receiver's keys *)

(** Receiver of generation [n] can open a packet of generation [g]: of its own generation; of
    the next one, unless it still keeps the previous keys; of the previous one while it keeps
    them, for a packet number below those received under the current key. *)
Definition key_available (n g : nat) (d : prot_conn) (pid pn now : Z) : Prop :=
  g = n
  \/ g = S n /\ (other_rx_keys (pc_ku d) <> XQC_KU_RX_KEYS_OLD \/ exists t, pc_timer d = Some t /\ t <= now)
  \/ n = S g /\ other_rx_keys (pc_ku d) = XQC_KU_RX_KEYS_OLD /\ (forall t, pc_timer d = Some t -> now < t)
     /\ (forall p, xqc_conn_find_path_by_path_id d pid = Some p -> pn <= path_ku_first_recv_pktno p).

Lemma prepare_next d n now :
  ku_inv n d -> other_rx_keys (pc_ku d) <> XQC_KU_RX_KEYS_OLD \/ (exists t, pc_timer d = Some t /\ t <= now) ->
  exists d1, prepare_keys d true now = (Ok tt, d1) /\ ku_inv n d1 /\ pc_multipath d1 = pc_multipath d
  /\ other_rx_keys (pc_ku d1) = XQC_KU_RX_KEYS_NEXT.
Proof.
  intros Hi Ho. destruct (prepare_inv d n true now Hi) as (d1 & Hp & H1 & Hm & Hn). specialize (Hn eq_refl).
  exists d1. split_and!; [done..|]. unfold prepare_keys in Hp. cbn [negb] in Hp. revert Hp.
  set (c0 := match other_rx_keys (pc_ku d) with XQC_KU_RX_KEYS_OLD => _ | _ => _ end).
  assert (other_rx_keys (pc_ku c0) <> XQC_KU_RX_KEYS_OLD) as H0.
  { unfold c0. destruct Ho as [Ho|(t & Ht & Hle)]; [by destruct (other_rx_keys (pc_ku d)) eqn:E; rewrite ?E|].
    destruct (other_rx_keys (pc_ku d)) eqn:E; rewrite ?E; try done. rewrite Ht.
    destruct (t <=? now) eqn:El; [done|zb]. }
  clearbody c0. destruct (other_rx_keys (pc_ku c0)) eqn:E; [|done|by intros [= <-]].
  destruct (xqc_tls_update_1rtt_keys c0 _) as [[] c1]; [|done]. by intros [= <-].
Qed.

Lemma receiver_ready d n g pid pn now pto :
  ku_inv n d -> key_available n g d pid pn now ->
  let other := negb (phase g =? next_in_key_phase (pc_ku d)) in
  exists d1 cr1 o cur d2, prepare_keys d other now = (Ok tt, d1) /\ pc_multipath d1 = pc_multipath d
  /\ tls_crypto d1 XQC_ENC_LEV_1RTT = Some cr1 /\ crypto_gen n o cr1
  /\ km_at (rx_ckm cr1) (phase g) = km_of (gen g (kp_rx_secret K))
  /\ after_open d1 other pid pn now pto = (Ok cur, d2) /\ ku_inv (Nat.max n g) d2.
Proof.
  intros Hi Hav other. unfold other. rewrite (ki_in _ _ Hi).
  destruct Hav as [->|[[-> Ho]|(-> & Ho & Ht & Hp)]].
  - rewrite Z.eqb_refl. pose proof Hi as [(cr & Hc & Hg) _ _ _ _].
    destruct (after_open_current d n pid pn now pto Hi) as (d2 & Ha & H2).
    exists d, cr. eexists _, _, d2. split_and!; try done; [apply Hg|by rewrite Nat.max_id].
  - rewrite (proj2 (Z.eqb_neq _ _) (phase_ne n)). destruct (prepare_next d n now Hi Ho) as (d1 & Hp & H1 & Hm & Hn).
    pose proof H1 as [(cr & Hc & Hg) _ _ _ _]. destruct (after_open_next d1 n pid pn now pto H1 Hn) as (d2 & Ha & H2).
    exists d1, cr. eexists _, _, d2. split_and!; try done; [|by rewrite Nat.max_r by lia].
    pose proof (cg_other _ _ _ Hg) as Hx. by rewrite Hn in Hx.
  - rewrite (proj2 (Z.eqb_neq _ _) (not_eq_sym (phase_ne g))). pose proof Hi as [(cr & Hc & Hg) _ _ _ _].
    exists d, cr, (other_rx_keys (pc_ku d)), false, d. split_and!; try done.
    + unfold prepare_keys. rewrite Ho. simpl. destruct (pc_timer d) as [t|]; rewrite ?Ho; [|done].
      specialize (Ht t eq_refl). destruct (t <=? now) eqn:E; [zb|]. by rewrite Ho.
    + pose proof (cg_other _ _ _ Hg) as Hx. rewrite Ho in Hx. destruct Hx as (m & [= <-] & Hx).
      by rewrite phase_SS in Hx.
    + unfold after_open. rewrite Ho. cbn [is_old andb negb].
      destruct (xqc_conn_find_path_by_path_id d pid) as [p|]; [|done]. specialize (Hp p eq_refl).
      destruct (_ <? pn) eqn:E; [zb|done].
    + by rewrite Nat.max_l by lia.
Qed.

End keys.

(** The parameters as the other end has them. *)
Definition mirror (K : key_params) : key_params :=
  mk_kp (kp_cipher K) (kp_keylen K) (kp_noncelen K) (kp_taglen K) (kp_tx_hp K) (kp_rx_hp K)
    (kp_tx_secret K) (kp_rx_secret K).

Lemma mirror_ok K : params_ok K -> params_ok (mirror K).
Proof. intros []. by constructor. Qed.

Section theorems.

Context {lib : CryptoLib} {law : ExpandLaw}.


Context {laws : CryptoLaws}.

(** The packet [ho] has the header that [xqc_gen_short_packet_header] wrote to [h], and frames
    behind it. *)
Record carries (h ho : hdr_out) (pn : Z) : Prop := {
  ca_type : ho_pkt_type ho = ho_pkt_type h;
  ca_pn : ho_pkt_num ho = pn;
  ca_ppktno : po_ppktno ho = po_ppktno h;
  ca_payload : po_payload ho = po_payload h;
  ca_header : agree (po_buf (ho_po h)) (po_buf (ho_po ho)) 0 (po_payload h);
  ca_used : po_payload h <= po_used_size (ho_po ho) <= zlen (po_buf (ho_po ho));
}.

Lemma carried_out h0 h ho dcid dlen bits pn g :
  0 <= bits <= 3 -> 2 <= dlen <= zlen dcid -> 0 <= pn < 2 ^ 62 ->
  out_ready h0 (xqc_short_packet_header_size dlen bits) ->
  xqc_gen_short_packet_header h0 dcid dlen bits pn (phase g =? 1) = (Ok (xqc_short_packet_header_size dlen bits), h) ->
  carries h ho pn ->
  out_packet ho bits /\ is_short ho = true /\ po_ppktno ho = 1 + dlen
  /\ XQC_PACKET_SHORT_HEADER_KEY_PHASE (po_buf (ho_po ho)) = phase g
  /\ bytes_at (po_buf (ho_po ho)) 0 ([short_first (phase g =? 1) bits] ++ sub_bytes dcid 0 dlen).
Proof.
  intros Hb Hd Hpn Hr Hgen [Ct Cp Co Cy Ch Cu].
  destruct (gen_short_header h0 dcid dlen bits pn (phase g =? 1)) as (h' & Hgen' & Hbuf & Hpp & Hpay & Hty);
    [done|lia|done|]. rewrite Hgen in Hgen'. injection Hgen' as <-.
  set (n := xqc_short_packet_header_size dlen bits) in *. pose proof (out_ready_room _ _ Hr) as Hroom.
  assert (n = 1 + dlen + (bits + 1)) as Hn by done.
  assert (zlen (short_bytes dcid dlen bits pn (phase g =? 1)) = n) as Hz.
  { unfold short_bytes. rewrite !zlen_app, zlen_sub_bytes, zlen_pktno_bytes by lia. rewrite zlen_cons, zlen_nil. lia. }
  assert (bytes_at (po_buf (ho_po ho)) 0 (short_bytes dcid dlen bits pn (phase g =? 1))) as Hat.
  { apply (bytes_at_agree _ _ _ _ (po_payload h) Ch); [|lia|rewrite Hbuf, zlen_wr; lia|lia].
    rewrite Hbuf. apply bytes_at_wr; lia. }
  unfold short_bytes in Hat. rewrite app_assoc in Hat. apply bytes_at_app in Hat as [Hat Hpk].
  rewrite zlen_app, zlen_sub_bytes, zlen_cons, zlen_nil in Hpk by lia.
  pose proof (bytes_at_rd _ _ _ _ Hat) as Hf. destruct (short_first_fields (phase g =? 1) bits Hb) as (_ & Hl & Hk).
  split_and!; [|by unfold is_short; rewrite Ct, Hty|lia| |done].
  - constructor; rewrite ?Cp, ?Co, ?Cy, ?Hpp; [done|done| |rewrite Hf; lia|lia..].
    by replace (1 + dlen) with (0 + (1 + 0 + dlen)) by lia.
  - unfold XQC_PACKET_SHORT_HEADER_KEY_PHASE. rewrite Hf, Hk.
    by destruct (phase_cases g) as [[-> _]|[-> _]].
Qed.

(** The receiver finds the connection identifier in the protected packet. *)
Lemma sealed_header_found c ho bits pid enc cap now pto len c' enc' f dcid hc pi lim ci :
  out_packet ho bits -> cap <= zlen enc -> is_short ho = true ->
  xqc_packet_encrypt_buf c ho pid enc cap now pto = (Ok len, c', enc') ->
  f .& 0x40 = 0x40 -> 0 <= hc_scid_len hc <= zlen dcid -> po_ppktno ho = 1 + hc_scid_len hc ->
  bytes_at (po_buf (ho_po ho)) 0 ([f] ++ sub_bytes dcid 0 (hc_scid_len hc)) ->
  hi_pos pi = 0 -> hi_last pi = len -> len <= zlen (hi_buf pi) -> agree enc' (hi_buf pi) 0 len ->
  set_ok lim (hc_scid_set hc) ->
  xqc_cid_set_search_cid (hc_scid_set hc) (xqc_cid_set (hi_dcid pi) dcid (hc_scid_len hc)) = Some ci ->
  exists pi' hc', xqc_packet_parse_short_header hc pi = (Ok tt, pi', hc') /\ in_packet ho len enc' pi'
  /\ hi_path_id pi' = path_id (ci_cid ci) /\ hi_pkt_pns pi' = XQC_PNS_APP_DATA.
Proof.
  intros Ho Hcap Hs Hseal Hf Hd Hpp Hat Hpos Hlast Hroom Hag Hok Hci.
  destruct (seal_inv _ _ _ _ _ _ _ _ _ _ Hseal) as (cr & ct & _ & Hp & -> & Hh).
  destruct (encrypt_payload_fits _ _ _ _ _ _ _ _ Hp) as [Hfit Hctz].
  pose proof Ho as [Hb _ _ _ Hp3 Hend _]. pose proof (zlen_nonneg ct).
  destruct (copy_header_agree cr ho bits enc Ho ltac:(lia)) as [Hz0 _].
  assert (agree (po_buf (ho_po ho)) (copy_header cr ho enc) 0 (po_payload ho)) as Hcopy.
  { unfold is_short in Hs. apply Z.eqb_eq in Hs. unfold copy_header. rewrite Hs. intros i Hi. simpl.
    destruct Ho. assert (zlen (sub_bytes (po_buf (ho_po ho)) 0 (po_payload ho)) = po_payload ho) as Hsz
      by (apply zlen_sub_bytes; lia).
    rewrite rd_wr_in by lia. rewrite rd_sub by lia. f_equal. lia. }
  apply protection_clear in Hh as (Hbit & Hclear & Hze); [|lia|rewrite zlen_wr; lia].
  rewrite zlen_wr, Hz0 in Hze. set (enc0 := copy_header cr ho enc) in *.
  assert (bytes_at enc0 0 ([f] ++ sub_bytes dcid 0 (hc_scid_len hc))) as Hat0.
  { destruct Ho. apply (bytes_at_agree _ _ _ _ (po_payload ho) Hcopy); try done; try lia.
    rewrite zlen_app, zlen_sub_bytes, zlen_cons, zlen_nil by lia. lia. }
  apply bytes_at_wr_ne with (p := po_payload ho) (bs := ct) in Hat0; [|lia|].
  2: { left. rewrite zlen_app, zlen_sub_bytes, zlen_cons, zlen_nil by lia. lia. }
  assert (bytes_at (hi_buf pi) 0 ([rd (hi_buf pi) 0] ++ sub_bytes dcid 0 (hc_scid_len hc))) as Hin.
  { apply bytes_at_app in Hat0 as [_ Hat0].
    assert (0 + zlen [f] + zlen (sub_bytes dcid 0 (hc_scid_len hc)) = po_ppktno ho)
      by (rewrite zlen_sub_bytes, zlen_cons, zlen_nil by lia; lia).
    apply bytes_at_app. split; [by apply bytes_at_byte; lia|].
    change (0 + zlen [rd (hi_buf pi) 0]) with (0 + zlen [f]).
    apply (bytes_at_agree_at (wr enc0 (po_payload ho) ct) _ _ _ (po_ppktno ho)); [|done|..]; rewrite ?zlen_wr; try lia.
    intros i Hi. change (0 + zlen [f]) with 1 in Hi. rewrite (Hclear i) by lia. apply Hag. lia. }
  destruct (parse_short_at hc pi dcid (rd (hi_buf pi) 0) lim ci) as (pi' & hc' & Hparse & B & T & N & _ & P & O & L & G);
    try done; [|lia|].
  { rewrite <- (Hag 0) by lia. rewrite Hbit, rd_wr_ne by lia. rewrite <- (Hcopy 0) by lia.
    by rewrite (bytes_at_rd _ _ _ _ Hat). }
  exists pi', hc'. split_and!; try done. unfold is_short in Hs. apply Z.eqb_eq in Hs.
  constructor; rewrite ?B; congruence || lia || done.
Qed.

(** C6: a 1-RTT packet crosses the connection. Sender and receiver hold mirrored keys, the sender
    in generation [g] and the receiver in generation [n]. The sender writes a short header with
    its key phase, puts frames behind it and protects the packet. The receiver, given the
    bytes, finds the path of the connection identifier, removes the header protection, recovers
    the packet number and opens the payload to the frames that were sealed, whenever [g] is its
    own generation, the next one (it then moves there, deriving the keys it needs) or the
    previous one whose keys it still keeps. *)
Theorem onertt_delivery K c g d n h0 h ho dcid bits pn pid enc cap now pto len c' enc'
    hc pi lim ci cap' now' pto' :
  let dlen := hc_scid_len hc in
  let path := path_id (ci_cid ci) in
  let e := u64 (largest_of d path XQC_PNS_APP_DATA + 1) in
  params_ok K -> ku_inv K g c -> ku_inv (mirror K) n d ->
  0 <= bits <= 3 -> 2 <= dlen <= zlen dcid -> 0 <= pn < 2 ^ 62 ->
  out_ready h0 (xqc_short_packet_header_size dlen bits) ->
  xqc_gen_short_packet_header h0 dcid dlen bits pn (cur_out_key_phase (pc_ku c) =? 1)
    = (Ok (xqc_short_packet_header_size dlen bits), h) ->
  carries h ho pn -> cap <= zlen enc ->
  xqc_packet_encrypt_buf c ho pid enc cap now pto = (Ok len, c', enc') ->
  hi_pos pi = 0 -> hi_last pi = len -> len <= zlen (hi_buf pi) -> agree enc' (hi_buf pi) 0 len ->
  0 <= lim -> rtc (cid_step lim) xqc_init_cid_set (hc_scid_set hc) ->
  xqc_cid_set_search_cid (hc_scid_set hc) (xqc_cid_set (hi_dcid pi) dcid dlen) = Some ci ->
  nonce_path c pid = nonce_path d path ->
  e <= 2 ^ 62 -> e - 2 ^ (8 * (bits + 1) - 1) < pn <= e + 2 ^ (8 * (bits + 1) - 1) ->
  zlen (payload_of ho) <= cap' ->
  key_available n g d path pn now' ->
  exists pi' hc' reinj cur d' buf,
    xqc_packet_parse_short_header hc pi = (Ok tt, pi', hc')
    /\ hi_path_id pi' = path
    /\ xqc_packet_decrypt d pi' cap' now' pto' = (Ok (mk_opened pn (payload_of ho) reinj cur), d', buf)
    /\ ku_inv (mirror K) (Nat.max n g) d'.
Proof.
  intros dlen path e HK Hc Hd Hb Hdl Hpn Hr Hgen Hca Hcap Hseal Hpos Hlast Hroom Hag Hlim Hrun Hci Hnp He Hwin
    Hpt Hav. rewrite (ki_out _ _ _ Hc) in Hgen.
  destruct (carried_out h0 h ho dcid dlen bits pn g) as (Ho & Hs & Hpp & Hph & Hat); try done.
  destruct (short_first_fields (phase g =? 1) bits Hb) as (Hfix & _).
  destruct (sealed_header_found c ho bits pid enc cap now pto len c' enc' (short_first (phase g =? 1) bits) dcid hc pi lim ci)
    as (pi' & hc' & Hparse & Hin & Hpath & Hpns); try done; [fold dlen; lia|by apply reach_ok|].
  exists pi', hc'. fold path in Hpath.
  destruct (receiver_ready (mirror K) (mirror_ok K HK) d n g path pn now' pto' Hd Hav)
    as (d1 & cr1 & o & cur & d2 & Hprep & Hm & Hc1 & Hg1 & Hrx & Hopen & Hd2).
  pose proof Hc as [(cr & Hcr & Hg) _ _ _ _]. pose proof Hd as [(crd & Hcrd & Hgd) _ _ _ _].
  assert (ho_pkt_num ho = pn) as Hpnum by apply Hca.
  assert (xqc_packet_type_to_enc_level (ho_pkt_type ho) = XQC_ENC_LEV_1RTT) as Hlev.
  { apply Z.eqb_eq. by rewrite level_short. }
  destruct (open_sealed c ho bits pid enc cap now pto len c' enc' d pi' cap' now' pto' d1)
    as (buf & reinj & Hdec); rewrite ?Hlev, ?Hs, ?Hph, ?Hpath, ?Hpns, ?Hpnum; try done.
  - exists cr, crd. destruct Hg, Hgd. cbn [mirror kp_cipher kp_rx_hp] in *. split_and!; congruence.
  - exists cr, cr1. split_and!; [done..|]. destruct Hg, Hg1. cbn [mirror kp_cipher kp_taglen] in *.
    constructor; try congruence; rewrite Hrx, cg_tx0; done.
  - rewrite Hnp. unfold nonce_path. by rewrite Hm.
  - exists reinj, cur, d2, buf. split_and!; try done. rewrite Hdec, Hs, Hph, Hpath, Hpnum. simpl.
    by rewrite Hopen.
Qed.

End theorems.

(** ** Examples *)

Module Toy.

(** A library that satisfies the laws: outputs and tags are sums of the inputs. *)
Definition sum (l : list Z) : Z := u8 (foldr Z.add 0 l).

Definition tag (key nonce ad : list Z) : list Z := replicate 16 (sum (key ++ nonce ++ ad)).

#[export] Instance toy_lib : CryptoLib := {
  lib_expand secret info len := Some (replicate (Z.to_nat len) (sum (secret ++ info)));
  lib_seal _ key nonce ad pt cap :=
    if zlen pt + 16 <=? cap then Some (pt ++ tag key nonce ad) else None;
  lib_open _ key nonce ad ct cap :=
    let m := zlen ct - 16 in
    if (0 <=? m) && (m <=? cap) && bool_decide (drop (Z.to_nat m) ct = tag key nonce ad)
    then Some (take (Z.to_nat m) ct) else None;
  lib_hp_mask _ key sample := Some (replicate 5 (sum (key ++ sample)));
}.

#[export] Instance toy_expand : ExpandLaw.
Proof.
  constructor. intros secret info len Hl. eexists. split; [done|]. unfold zlen. rewrite length_replicate. lia.
Qed.

#[export] Instance toy_laws : CryptoLaws.
Proof.
  constructor; unfold lib_seal, lib_open, lib_hp_mask, toy_lib.
  - intros cipher key nonce ad pt cap ct cap' H Hc. destruct (_ <=? cap); [|done]. injection H as <-.
    assert (zlen (pt ++ tag key nonce ad) - 16 = zlen pt) as ->
      by (rewrite zlen_app; unfold tag, zlen at 2; rewrite length_replicate; lia).
    pose proof (zlen_nonneg pt). destruct (_ && _) eqn:E.
    + unfold zlen. by rewrite Nat2Z.id, take_app_length.
    + unfold zlen in E. rewrite Nat2Z.id, drop_app_length, bool_decide_true in E by done. unfold zlen in *. zb.
  - intros cipher key nonce ad pt cap ct H. destruct (_ <=? cap) eqn:E; [|done]. injection H as <-.
    rewrite zlen_app. unfold tag, zlen at 2. rewrite length_replicate. zb.
  - intros cipher key sample mask [= <-]. apply (Forall_replicate _ 5). unfold sum, u8.
    apply Z.mod_pos_bound. lia.
Qed.

Definition params : key_params :=
  mk_kp 0x03001301 16 12 16 (replicate 16 2) (replicate 16 3) (replicate 32 4) (replicate 32 5).

(** The 1-RTT context that the handshake installs. *)
Definition crypto (K : key_params) : xqc_crypto_t :=
  mk_crypto (kp_cipher K) (kp_keylen K) (kp_noncelen K) (kp_taglen K)
    (mk_km2 (km_of K (kp_rx_secret K)) km_none) (mk_km2 (km_of K (kp_tx_secret K)) km_none)
    (kp_rx_hp K) (kp_tx_hp K) 0.

Definition conn (K : key_params) : prot_conn :=
  mk_pc [None; None; None; Some (crypto K)] xqc_conn_init_key_update_ctx None
    [mk_pp 0 (replicate 3 (mk_record [mk_range 0 990] 0 1)) 1000 0 XQC_MAX_UINT64_VALUE]
    0 false 0 false false.

Lemma installed K : keys_installed K (conn K).
Proof. split; [done|]. eexists. split; [done|]. by constructor. Qed.

(** The sender after it initiated a key update. *)
Definition sender : prot_conn := snd (xqc_packet_initiate_key_update (conn params) 10 100).
Definition receiver : prot_conn := conn (mirror params).

Lemma params_fine : params_ok params.
Proof. split; by_decide. Qed.

Lemma sender_inv : ku_inv params 1 sender.
Proof.
  destruct (initiate_inv params params_fine (conn params) 0 10 100) as (c & H & Hi);
    [apply installed_inv, installed|]. unfold sender. by rewrite H.
Qed.

(** A short header of 13 bytes, then 47 bytes of frames. *)
Definition header : hdr_out :=
  snd (xqc_gen_short_packet_header (ex_ho 0) (replicate 8 1) 8 3 1000 true).
Definition packet : hdr_out :=
  mk_ho (po_advance (ho_po header) 60) XQC_PTYPE_SHORT_HEADER 1000 (po_ppktno header) (po_payload header).
Definition sealed : res Z * prot_conn * list Z :=
  xqc_packet_encrypt_buf sender packet 0 (replicate 200 0) 200 20 100.
Definition received : hdr_in :=
  snd (fst (xqc_packet_parse_short_header (ex_conn XQC_CONN_TYPE_SERVER ex_set1) (ex_in (snd sealed) 76))).

End Toy.

Import Toy.



Lemma onertt_delivery_witness :
  exists pi' hc' reinj cur d' buf,
    xqc_packet_parse_short_header (ex_conn XQC_CONN_TYPE_SERVER ex_set1) (ex_in (snd sealed) 76)
      = (Ok tt, pi', hc')
    /\ hi_path_id pi' = 0
    /\ xqc_packet_decrypt receiver pi' 1500 50 100
       = (Ok (mk_opened 1000 (payload_of packet) reinj cur), d', buf)
    /\ ku_inv (mirror params) 1 d'.
Proof.
  apply (onertt_delivery params sender 1 receiver 0 (ex_ho 0) header packet (replicate 8 1) 3 1000 0
    (replicate 200 0) 200 20 100 76 (snd (fst sealed)) (snd sealed)
    (ex_conn XQC_CONN_TYPE_SERVER ex_set1) (ex_in (snd sealed) 76) 2
    (mk_ci 100 (xqc_cid_copy xqc_cid_init_zero (ex_cid 1)) XQC_CID_UNUSED XQC_MAX_UINT64_VALUE
         false false) 1500 50 100 params_fine sender_inv (installed_inv _ _ (installed _))); try by_decide; try done.
  - exact ex_set1_run.
  - right. left. split; [reflexivity|]. left. discriminate.
Defined.

End KeyUpdate.
