(* ===== verification/RingArray.v ===== *)
(** The ring array of src/src/common/utils/ringarray: a queue open at both ends in a buffer
    whose size is a power of two. Every operation refines its effect on a list. *)

From stdpp Require Import base numbers list.
From S2P Require Import Prelude.

Module RingArray.

Definition XQC_EPARAM : Z := 611.
Definition XQC_EMALLOC : Z := 603.
Definition XQC_POW2_UPPER_ERROR : Z := 0.

(** [for (; m < n; m = m << 1)]. *)
Fixpoint pow2_loop (fuel : nat) (m n : Z) : Z :=
  match fuel with
  | O => m
  | S f => if m <? n then pow2_loop f (u64 (m << 1)) n else m
  end.

Definition xqc_pow2_upper (n : Z) : Z :=
  if 0x8000000000000000 <? n then XQC_POW2_UPPER_ERROR else pow2_loop 64 1 n.

(** An element that was never written is [None]. [ra_alloc] tells the buffers apart that the
    array has had; a pointer to an element is the number of its slot. *)
Record xqc_rarray_t (A : Type) := mk_ra {
  ra_buf : list (option A);
  ra_alloc : Z;
  ra_esize : Z;
  ra_cap : Z;
  ra_count : Z;
  ra_offset : Z;
  ra_mask : Z;
}.
Arguments mk_ra {A}.
Arguments ra_buf {A}.
Arguments ra_alloc {A}.
Arguments ra_esize {A}.
Arguments ra_cap {A}.
Arguments ra_count {A}.
Arguments ra_offset {A}.
Arguments ra_mask {A}.

Section ops.

Context {A : Type}.
Implicit Type ra : xqc_rarray_t A.

(** [mem]: the allocations succeed. *)
Definition xqc_rarray_create (mem : bool) (cap esize : Z) : option (xqc_rarray_t A) :=
  if negb mem then None
  else if esize =? 0 then Some (mk_ra [] 0 esize 0 0 0 (u64 (0 - 1)))
  else
    let array_cap := xqc_pow2_upper cap in
    if array_cap =? XQC_POW2_UPPER_ERROR then None
    else Some (mk_ra (replicate (Z.to_nat array_cap) None) 0 esize array_cap 0 0 (u64 (array_cap - 1))).

Definition xqc_rarray_check_range ra (offset : Z) : bool :=
  let eoffset := u64 (ra_offset ra + ra_count ra) .& ra_mask ra in
  if eoffset <=? ra_offset ra then
    if ra_count ra =? 0 then false else (ra_offset ra <=? offset) || (offset <? eoffset)
  else (ra_offset ra <=? offset) && (offset <? eoffset).

Definition xqc_rarray_get ra (idx : Z) : option Z :=
  if ra_cap ra <=? idx then None
  else
    let offset := u64 (idx + ra_offset ra) .& ra_mask ra in
    if xqc_rarray_check_range ra offset then Some offset else None.

Definition xqc_rarray_size ra : Z := ra_count ra.

Definition xqc_rarray_full ra : bool := ra_cap ra <=? ra_count ra.

Definition xqc_rarray_front ra : option Z :=
  if ra_count ra =? 0 then None else Some (ra_offset ra).

Definition set_window ra (offset count : Z) : xqc_rarray_t A :=
  mk_ra (ra_buf ra) (ra_alloc ra) (ra_esize ra) (ra_cap ra) count offset (ra_mask ra).

Definition xqc_rarray_push ra : option Z * xqc_rarray_t A :=
  if ra_cap ra <=? ra_count ra then (None, ra)
  else (Some (u64 (ra_offset ra + ra_count ra) .& ra_mask ra),
        set_window ra (ra_offset ra) (u64 (ra_count ra + 1))).

Definition xqc_rarray_push_front ra : option Z * xqc_rarray_t A :=
  if ra_cap ra <=? ra_count ra then (None, ra)
  else
    let offset := u64 (ra_offset ra - 1) .& ra_mask ra in
    (Some offset, set_window ra offset (u64 (ra_count ra + 1))).

Definition xqc_rarray_pop_front ra : bool * xqc_rarray_t A :=
  if ra_count ra =? 0 then (false, ra)
  else (true, set_window ra (u64 (ra_offset ra + 1) .& ra_mask ra) (ra_count ra - 1)).

Definition xqc_rarray_pop_back ra : bool * xqc_rarray_t A :=
  if ra_count ra =? 0 then (false, ra)
  else (true, set_window ra (ra_offset ra) (ra_count ra - 1)).

Definition xqc_rarray_pop_from ra (idx : Z) : bool * xqc_rarray_t A :=
  if ra_count ra <=? idx then (false, ra) else (true, set_window ra (ra_offset ra) idx).

(** [memcpy] of [n] elements. *)
Definition elems (buf : list (option A)) (p n : Z) : list (option A) :=
  take (Z.to_nat n) (drop (Z.to_nat p) buf).

Definition put_elems (buf : list (option A)) (p : Z) (l : list (option A)) : list (option A) :=
  list_inserts (Z.to_nat p) l buf.

Definition xqc_rarray_resize (mem : bool) ra (cap : Z) : res unit * xqc_rarray_t A :=
  if cap <? ra_count ra then (Err XQC_EPARAM, ra)
  else if cap <=? ra_cap ra then (Ok tt, ra)
  else
    let array_cap := xqc_pow2_upper cap in
    if array_cap =? XQC_POW2_UPPER_ERROR then (Err XQC_EMALLOC, ra)
    else if negb mem then (Err XQC_EMALLOC, ra)
    else
      let buf := replicate (Z.to_nat array_cap) None in
      let buf :=
        if ra_cap ra =? 0 then buf
        else
          let end_ := u64 (ra_offset ra + ra_count ra) .& ra_mask ra in
          if (ra_offset ra <? end_) || (ra_count ra =? 0)
          then put_elems buf 0 (elems (ra_buf ra) (ra_offset ra) (ra_count ra))
          else
            let buf := put_elems buf 0 (elems (ra_buf ra) (ra_offset ra) (ra_cap ra - ra_offset ra)) in
            put_elems buf (ra_cap ra - ra_offset ra) (elems (ra_buf ra) 0 end_) in
      (Ok tt, mk_ra buf (ra_alloc ra + 1) (ra_esize ra) array_cap (ra_count ra) 0 (u64 (array_cap - 1))).

(** [zero] is the element of zero bytes. *)
Definition xqc_rarray_reinit (zero : A) ra : xqc_rarray_t A :=
  mk_ra (replicate (Z.to_nat (ra_cap ra)) (Some zero)) (ra_alloc ra) (ra_esize ra) (ra_cap ra) 0 0
    (ra_mask ra).

(** Reading and writing an element through a pointer. *)
Definition ra_at ra (slot : Z) : option A := nth (Z.to_nat slot) (ra_buf ra) None.

Definition ra_store ra (slot : Z) (x : A) : xqc_rarray_t A :=
  mk_ra (<[Z.to_nat slot := Some x]> (ra_buf ra)) (ra_alloc ra) (ra_esize ra) (ra_cap ra)
    (ra_count ra) (ra_offset ra) (ra_mask ra).

End ops.

(** ** The size of the buffer *)

Lemma pow2_loop_spec fuel k n :
  0 <= k -> k + Z.of_nat fuel <= 64 -> n <= 2 ^ 63 -> (k = 0 \/ 2 ^ (k - 1) < n) ->
  (64 <= k + Z.of_nat fuel) ->
  exists j, k <= j <= 63 /\ pow2_loop fuel (2 ^ k) n = 2 ^ j /\ n <= 2 ^ j /\ (j = 0 \/ 2 ^ (j - 1) < n).
Proof.
  revert k. induction fuel as [|f IH]; intros k Hk Hf Hn Hlow Hfuel.
  - assert (k = 64) as -> by lia. destruct Hlow as [?|Hlow]; [lia|]. change (64 - 1) with 63 in Hlow. lia.
  - simpl. destruct (2 ^ k <? n) eqn:E; [|exists k; split_and!; zb; lia || done].
    assert (k <= 62) as Hk2.
    { destruct (decide (k <= 62)); [done|]. assert (2 ^ 63 <= 2 ^ k) by (apply Z.pow_le_mono_r; lia). zb. }
    assert (u64 ((2 ^ k) << 1) = 2 ^ (k + 1)) as ->.
    { rewrite Z.shiftl_mul_pow2 by lia. rewrite <- Z.pow_add_r by lia. unfold u64.
      rewrite Z.mod_small; [done|]. split; [lia|]. apply Z.pow_lt_mono_r; lia. }
    destruct (IH (k + 1)) as (j & ? & ? & ? & ?); try lia.
    + right. replace (k + 1 - 1) with k by lia. zb.
    + exists j. split_and!; lia || done.
Qed.

Lemma pow2_upper_spec n :
  n <= 2 ^ 63 -> exists j, 0 <= j <= 63 /\ xqc_pow2_upper n = 2 ^ j /\ n <= 2 ^ j /\ (j = 0 \/ 2 ^ (j - 1) < n).
Proof.
  intros Hn. unfold xqc_pow2_upper. destruct (_ <? n) eqn:E; [zb|].
  apply (pow2_loop_spec 64 0 n); lia.
Qed.

Lemma land_ring x k : 0 <= k <= 63 -> u64 x .& u64 (2 ^ k - 1) = x mod 2 ^ k.
Proof.
  intros Hk. assert (0 < 2 ^ k) by (apply Z.pow_pos_nonneg; lia).
  assert (2 ^ k <= 2 ^ 63) by (apply Z.pow_le_mono_r; lia).
  replace (u64 (2 ^ k - 1)) with (Z.ones k).
  2: { rewrite Z.ones_equiv. unfold u64. rewrite Z.mod_small; lia. }
  rewrite land_mask by lia. unfold u64. apply Z.mod_mod_divide.
  exists (2 ^ (64 - k)). rewrite <- Z.pow_add_r by lia. f_equal. lia.
Qed.

(** A sum of two positions below the size wraps around at most once. *)
Lemma mod_wrap a n : 0 < n -> 0 <= a < 2 * n -> a mod n = if a <? n then a else a - n.
Proof.
  intros Hn Ha. destruct (a <? n) eqn:E; [apply Z.mod_small; zb|].
  symmetry. apply (Z.mod_unique _ _ 1); zb.
Qed.

(** ** The list in the array *)

Section spec.

Context {A : Type}.
Implicit Type ra : xqc_rarray_t A.

Record ra_ok ra : Prop := {
  ra_pow : exists k, 0 <= k <= 63 /\ ra_cap ra = 2 ^ k;
  ra_mask_ok : ra_mask ra = u64 (ra_cap ra - 1);
  ra_offset_ok : 0 <= ra_offset ra < ra_cap ra;
  ra_count_ok : 0 <= ra_count ra <= ra_cap ra;
  ra_len : Z.of_nat (length (ra_buf ra)) = ra_cap ra;
}.

(** The slot of an index. *)
Definition slot ra (i : Z) : Z := (ra_offset ra + i) mod ra_cap ra.

(** The elements from the front to the back. *)
Definition ra_list ra : list (option A) :=
  map (fun i => ra_at ra (slot ra (Z.of_nat i))) (seq 0 (Z.to_nat (ra_count ra))).

Lemma ra_land ra x : ra_ok ra -> u64 x .& ra_mask ra = x mod ra_cap ra.
Proof. intros [(k & Hk & Hc) Hm _ _ _]. rewrite Hm, Hc. by apply land_ring. Qed.

Lemma ra_cap_bounds ra : ra_ok ra -> 0 < ra_cap ra <= 2 ^ 63.
Proof.
  intros [(k & Hk & Hc) _ _ _ _]. rewrite Hc. split; [apply Z.pow_pos_nonneg; lia|].
  apply Z.pow_le_mono_r; lia.
Qed.

Lemma length_ra_list ra : length (ra_list ra) = Z.to_nat (ra_count ra).
Proof. unfold ra_list. by rewrite length_map, length_seq. Qed.

Lemma ra_list_lookup ra i :
  (i < Z.to_nat (ra_count ra))%nat -> ra_list ra !! i = Some (ra_at ra (slot ra (Z.of_nat i))).
Proof. intros Hi. unfold ra_list. rewrite list_lookup_fmap, lookup_seq_lt by done. done. Qed.

Lemma ra_list_ext ra (l : list (option A)) :
  Z.of_nat (length l) = ra_count ra ->
  (forall i, (i < length l)%nat -> l !! i = Some (ra_at ra (slot ra (Z.of_nat i)))) -> ra_list ra = l.
Proof.
  intros Hl H. apply list_eq. intros i. destruct (decide (i < length l)%nat).
  - rewrite H by done. apply ra_list_lookup. lia.
  - rewrite !lookup_ge_None_2; [done|lia|rewrite length_ra_list; lia].
Qed.

Lemma slot_range ra i : ra_ok ra -> 0 <= slot ra i < ra_cap ra.
Proof. intros H. apply Z.mod_pos_bound. pose proof (ra_cap_bounds ra H). lia. Qed.

Lemma slot_wrap ra i : ra_ok ra -> 0 <= i <= ra_cap ra ->
  slot ra i = if ra_offset ra + i <? ra_cap ra then ra_offset ra + i else ra_offset ra + i - ra_cap ra.
Proof. intros H Hi. pose proof (ra_cap_bounds ra H). destruct H. apply mod_wrap; lia. Qed.

Lemma slot_lo ra i : ra_ok ra -> 0 <= i -> ra_offset ra + i < ra_cap ra -> slot ra i = ra_offset ra + i.
Proof. intros H Hi Hl. destruct H. apply Z.mod_small. lia. Qed.

Lemma slot_hi ra i : ra_ok ra -> i <= ra_cap ra -> ra_cap ra <= ra_offset ra + i ->
  slot ra i = ra_offset ra + i - ra_cap ra.
Proof. intros H Hi Hl. destruct H. unfold slot. rewrite mod_wrap by lia. case_if; zb. Qed.

Lemma slot_inj ra i j : ra_ok ra -> 0 <= i < ra_cap ra -> 0 <= j < ra_cap ra -> slot ra i = slot ra j -> i = j.
Proof.
  intros H Hi Hj. pose proof (ra_offset_ok _ H). rewrite !slot_wrap by (done || lia).
  destruct (_ <? _) eqn:E1, (ra_offset ra + j <? _) eqn:E2; zb.
Qed.

Lemma check_range_ok ra i : ra_ok ra -> 0 <= i < ra_cap ra ->
  xqc_rarray_check_range ra (slot ra i) = (i <? ra_count ra).
Proof.
  intros H Hi. unfold xqc_rarray_check_range. rewrite ra_land by done. fold (slot ra (ra_count ra)).
  pose proof (ra_offset_ok _ H). pose proof (ra_count_ok _ H).
  rewrite !slot_wrap by (done || lia). apply eq_bool_prop_intro. rewrite !Is_true_true.
  repeat case_if; rewrite ?orb_true_iff, ?andb_true_iff, ?Z.leb_le, ?Z.ltb_lt; zb.
Qed.

Lemma get_spec ra i : ra_ok ra -> 0 <= i < 2 ^ 64 ->
  xqc_rarray_get ra i = if i <? ra_count ra then Some (slot ra i) else None.
Proof.
  intros H Hi. pose proof (ra_count_ok _ H). unfold xqc_rarray_get.
  destruct (ra_cap ra <=? i) eqn:E; [destruct (i <? _) eqn:E2; [zb|done]|].
  rewrite ra_land, (Z.add_comm i) by done. fold (slot ra i). by rewrite check_range_ok by (done || zb).
Qed.

Lemma ra_at_store ra s s' x : 0 <= s < Z.of_nat (length (ra_buf ra)) -> 0 <= s' ->
  ra_at (ra_store ra s x) s' = if decide (s' = s) then Some x else ra_at ra s'.
Proof.
  intros Hs Hs'. unfold ra_at, ra_store. cbn [ra_buf]. rewrite !nth_lookup.
  case_decide as E; [subst; by rewrite list_lookup_insert_eq by lia|].
  by rewrite list_lookup_insert_ne by lia.
Qed.

(** The window moves while the buffer stays. *)
Lemma window_ok ra offset count :
  ra_ok ra -> 0 <= offset < ra_cap ra -> 0 <= count <= ra_cap ra -> ra_ok (set_window ra offset count).
Proof. intros [] Ho Hc. by constructor. Qed.

Lemma store_ok ra s x : ra_ok ra -> ra_ok (ra_store ra s x).
Proof. intros []. constructor; try done. unfold ra_store. cbn [ra_buf ra_cap]. by rewrite length_insert. Qed.

Lemma slot_window ra offset count i :
  slot (set_window ra offset count) i = (offset + i) mod ra_cap ra.
Proof. done. Qed.

Lemma push_spec ra x : ra_ok ra ->
  match xqc_rarray_push ra with
  | (Some s, ra1) => ra_count ra < ra_cap ra /\ s = slot ra (ra_count ra) /\ ra_ok (ra_store ra1 s x)
      /\ ra_list (ra_store ra1 s x) = ra_list ra ++ [Some x]
  | (None, ra1) => ra_cap ra <= ra_count ra /\ ra1 = ra
  end.
Proof.
  intros H. pose proof (ra_count_ok _ H). pose proof (ra_cap_bounds _ H). unfold xqc_rarray_push.
  destruct (ra_cap ra <=? ra_count ra) eqn:E; [split; [zb|done]|]. apply Z.leb_gt in E.
  rewrite ra_land by done. fold (slot ra (ra_count ra)). pose proof (slot_range ra (ra_count ra) H).
  assert (u64 (ra_count ra + 1) = ra_count ra + 1) as -> by (unfold u64; rewrite Z.mod_small; lia).
  set (ra1 := set_window _ _ _). assert (ra_ok ra1) as Hok1 by (apply window_ok; [done|apply H|lia]).
  split_and!; [done..|by apply store_ok|]. pose proof (ra_len _ H).
  apply ra_list_ext; rewrite length_app, length_ra_list; cbn [length ra1 ra_store ra_count set_window]; [lia|].
  intros i Hi. rewrite ra_at_store by (cbn [ra_buf ra1 set_window]; first [lia|apply slot_range; by apply store_ok]).
  change (slot (ra_store ra1 (slot ra (ra_count ra)) x) (Z.of_nat i)) with (slot ra (Z.of_nat i)).
  case_decide as Es.
  - apply slot_inj in Es; [|done|lia..]. rewrite lookup_app_r by (rewrite length_ra_list; lia).
    rewrite length_ra_list. by replace (i - Z.to_nat (ra_count ra))%nat with 0%nat by lia.
  - assert (i <> Z.to_nat (ra_count ra)) by (intros ->; apply Es; f_equal; lia).
    rewrite lookup_app_l by (rewrite length_ra_list; lia). by rewrite ra_list_lookup by lia.
Qed.

Lemma push_front_spec ra x : ra_ok ra ->
  match xqc_rarray_push_front ra with
  | (Some s, ra1) => ra_count ra < ra_cap ra /\ ra_ok (ra_store ra1 s x)
      /\ ra_list (ra_store ra1 s x) = Some x :: ra_list ra
  | (None, ra1) => ra_cap ra <= ra_count ra /\ ra1 = ra
  end.
Proof.
  intros H. pose proof (ra_count_ok _ H). pose proof (ra_cap_bounds _ H). pose proof (ra_offset_ok _ H).
  unfold xqc_rarray_push_front.
  destruct (ra_cap ra <=? ra_count ra) eqn:E; [split; [zb|done]|]. apply Z.leb_gt in E.
  rewrite ra_land by done. set (o := (ra_offset ra - 1) mod ra_cap ra).
  assert (0 <= o < ra_cap ra) as Ho by (apply Z.mod_pos_bound; lia).
  assert (u64 (ra_count ra + 1) = ra_count ra + 1) as -> by (unfold u64; rewrite Z.mod_small; lia).
  set (ra1 := set_window _ _ _). assert (ra_ok ra1) as Hok1 by (apply window_ok; [done|done|lia]).
  split_and!; [done|by apply store_ok|]. pose proof (ra_len _ H).
  assert (forall i, 0 <= i -> slot ra1 (i + 1) = slot ra i) as Hs.
  { intros i Hi. unfold slot, ra1. cbn [ra_offset ra_cap set_window]. unfold o.
    rewrite Zplus_mod_idemp_l. f_equal. lia. }
  assert (slot ra1 0 = o) as Hs0 by (unfold slot, ra1; cbn [ra_offset ra_cap set_window]; rewrite Z.add_0_r; by apply Z.mod_small).
  apply ra_list_ext; cbn [length]; rewrite length_ra_list; cbn [ra1 ra_store ra_count set_window]; [lia|].
  intros i Hi. rewrite ra_at_store by (cbn [ra_buf ra1 set_window]; first [lia|apply slot_range; by apply store_ok]).
  change (slot (ra_store ra1 o x) (Z.of_nat i)) with (slot ra1 (Z.of_nat i)). destruct i as [|i].
  { change (Z.of_nat 0) with 0. by rewrite Hs0, decide_True. }
  rewrite <- Hs0. case_decide as Es; [apply slot_inj in Es; [lia|done|..]; cbn [ra_cap ra1 set_window]; lia|].
  rewrite Nat2Z.inj_succ. unfold Z.succ. rewrite Hs by lia. cbn. by rewrite ra_list_lookup by lia.
Qed.

(** Shrinking the window keeps the rest of the list. *)
Lemma pop_front_spec ra : ra_ok ra ->
  xqc_rarray_pop_front ra = (negb (ra_count ra =? 0), snd (xqc_rarray_pop_front ra))
  /\ ra_ok (snd (xqc_rarray_pop_front ra))
  /\ ra_list (snd (xqc_rarray_pop_front ra)) = drop 1 (ra_list ra).
Proof.
  intros H. pose proof (ra_count_ok _ H). pose proof (ra_cap_bounds _ H). unfold xqc_rarray_pop_front.
  destruct (ra_count ra =? 0) eqn:E; cbn [snd negb].
  - split_and!; [done|done|]. apply Z.eqb_eq in E. unfold ra_list. by rewrite E.
  - apply Z.eqb_neq in E. rewrite ra_land by done.
    split_and!; [done|apply window_ok; [done|apply Z.mod_pos_bound; lia|lia]|].
    apply ra_list_ext; rewrite ?length_drop, ?length_ra_list; cbn [ra_count set_window]; [lia|].
    intros i Hi. rewrite lookup_drop, ra_list_lookup by lia. unfold slot. cbn [ra_offset ra_cap set_window].
    rewrite Zplus_mod_idemp_l. f_equal. unfold ra_at. cbn [ra_buf]. do 3 f_equal. lia.
Qed.

Lemma shrink_spec ra n : ra_ok ra -> 0 <= n <= ra_count ra ->
  ra_ok (set_window ra (ra_offset ra) n) /\ ra_list (set_window ra (ra_offset ra) n) = take (Z.to_nat n) (ra_list ra).
Proof.
  intros H Hn. pose proof (ra_count_ok _ H). split; [apply window_ok; [done|apply H|lia]|].
  apply ra_list_ext; rewrite length_take, length_ra_list; cbn [ra_count set_window]; [lia|].
  intros i Hi. rewrite lookup_take_lt by lia. by rewrite ra_list_lookup by lia.
Qed.

Lemma elems_lookup (buf : list (option A)) p n i :
  0 <= p -> (i < Z.to_nat n)%nat -> elems buf p n !! i = buf !! (Z.to_nat p + i)%nat.
Proof. intros Hp Hi. unfold elems. by rewrite lookup_take_lt, lookup_drop by lia. Qed.

Lemma length_elems (buf : list (option A)) p n :
  0 <= p -> 0 <= n -> p + n <= Z.of_nat (length buf) -> length (elems buf p n) = Z.to_nat n.
Proof. intros. unfold elems. rewrite length_take, length_drop. lia. Qed.

Lemma ra_at_lookup ra s : 0 <= s < Z.of_nat (length (ra_buf ra)) -> ra_buf ra !! Z.to_nat s = Some (ra_at ra s).
Proof.
  intros Hs. unfold ra_at. rewrite nth_lookup.
  destruct (lookup_lt_is_Some_2 (ra_buf ra) (Z.to_nat s)) as [x Hx]; [lia|]. by rewrite Hx.
Qed.

(** The one or two pieces of the buffer that hold the list. *)
Lemma ra_list_pieces ra : ra_ok ra ->
  let end_ := slot ra (ra_count ra) in
  ra_list ra = if (ra_offset ra <? end_) || (ra_count ra =? 0) then elems (ra_buf ra) (ra_offset ra) (ra_count ra)
               else elems (ra_buf ra) (ra_offset ra) (ra_cap ra - ra_offset ra) ++ elems (ra_buf ra) 0 end_.
Proof.
  intros H end_. pose proof (ra_offset_ok _ H). pose proof (ra_count_ok _ H). pose proof (ra_len _ H).
  assert (end_ = if ra_offset ra + ra_count ra <? ra_cap ra then ra_offset ra + ra_count ra
                 else ra_offset ra + ra_count ra - ra_cap ra) as He by (apply slot_wrap; [done|lia]).
  clearbody end_.
  assert (forall i (p : nat), 0 <= i < ra_count ra -> Z.of_nat p = slot ra i ->
    ra_buf ra !! p = Some (ra_at ra (slot ra i))) as Hat.
  { intros i p Hi Hp. rewrite <- Hp, <- (Nat2Z.id p) at 1. pose proof (slot_range ra i H). apply ra_at_lookup. lia. }
  destruct (_ || _) eqn:E.
  - assert (ra_offset ra + ra_count ra <= ra_cap ra) by (destruct (_ <? ra_cap ra) eqn:E2 in He; zb).
    apply ra_list_ext; rewrite length_elems by lia; [lia|]. intros i Hi. rewrite elems_lookup by lia.
    apply Hat; [lia|]. rewrite slot_lo by (done || lia). lia.
  - assert (ra_cap ra <= ra_offset ra + ra_count ra /\ end_ = ra_offset ra + ra_count ra - ra_cap ra) as [Hw ->]
      by (destruct (_ <? ra_cap ra) eqn:E2 in He; zb).
    apply ra_list_ext; rewrite length_app, !length_elems by lia; [lia|]. intros i Hi.
    destruct (decide (i < Z.to_nat (ra_cap ra - ra_offset ra))%nat).
    + rewrite lookup_app_l by (rewrite length_elems by lia; lia). rewrite elems_lookup by lia.
      apply Hat; [lia|]. rewrite slot_lo by (done || lia). lia.
    + rewrite lookup_app_r by (rewrite length_elems by lia; lia). rewrite length_elems by lia.
      rewrite elems_lookup by lia. apply Hat; [lia|]. rewrite slot_hi by (done || lia). lia.
Qed.

Lemma resize_spec mem ra cap : ra_ok ra -> 0 <= cap ->
  let '(r, ra') := xqc_rarray_resize mem ra cap in
  ra_ok ra' /\ ra_list ra' = ra_list ra
  /\ r = (if cap <? ra_count ra then Err XQC_EPARAM
          else if (cap <=? ra_cap ra) || ((cap <=? 2 ^ 63) && mem) then Ok tt else Err XQC_EMALLOC)
  /\ ra_cap ra' = (if (cap <=? ra_cap ra) || negb ((cap <=? 2 ^ 63) && mem) then ra_cap ra
                   else xqc_pow2_upper cap)
  /\ (ra_cap ra' = ra_cap ra -> ra' = ra).
Proof.
  intros H Hcap. pose proof (ra_count_ok _ H). pose proof (ra_cap_bounds _ H). unfold xqc_rarray_resize.
  destruct (cap <? ra_count ra) eqn:E1; [destruct (cap <=? ra_cap ra) eqn:E2; [done|zb]|].
  destruct (cap <=? ra_cap ra) eqn:E2; [done|]. cbn [orb].
  destruct (cap <=? 2 ^ 63) eqn:E3; cycle 1.
  { unfold xqc_pow2_upper. destruct (_ <? cap) eqn:E4; [done|zb]. }
  destruct (pow2_upper_spec cap) as (j & Hj & Hp & Hle & _); [zb|].
  assert (0 < 2 ^ j) by (apply Z.pow_pos_nonneg; lia).
  destruct (xqc_pow2_upper cap =? XQC_POW2_UPPER_ERROR) eqn:E4; [unfold XQC_POW2_UPPER_ERROR in E4; zb|].
  destruct mem; [|done]. cbn [negb]. rewrite Hp in *. destruct (ra_cap ra =? 0) eqn:E5; [zb|].
  rewrite ra_land by done. fold (slot ra (ra_count ra)).
  pose proof (ra_list_pieces ra H) as Hl. cbv zeta in Hl. set (end_ := slot ra (ra_count ra)) in *.
  set (nb := replicate (Z.to_nat (2 ^ j)) (@None A)).
  replace (if _ || _ then _ else _) with (put_elems nb 0 (ra_list ra)).
  2: { rewrite Hl. case_if; [done|]. unfold put_elems. rewrite list_inserts_app_l.
       pose proof (ra_offset_ok _ H). pose proof (ra_len _ H). rewrite length_elems by lia. f_equal; lia. }
  assert (length (put_elems nb 0 (ra_list ra)) = Z.to_nat (2 ^ j)) as Hlen
    by (unfold put_elems; by rewrite length_inserts; unfold nb; rewrite length_replicate).
  split_and!; [|clear Hl|done|done|cbn [ra_cap]; zb].
  - constructor; cbn [ra_cap ra_mask ra_offset ra_count ra_buf]; try done; [by exists j|zb|lia].
  - apply ra_list_ext; rewrite length_ra_list; [cbn; lia|]. intros i Hi. rewrite ra_list_lookup by done.
    f_equal. unfold ra_at at 2, slot at 2. cbn [ra_buf ra_offset ra_cap]. rewrite Z.mod_small by zb.
    rewrite nth_lookup. unfold put_elems.
    rewrite list_lookup_inserts; [|rewrite length_ra_list; lia|unfold nb; rewrite length_replicate; zb].
    rewrite ra_list_lookup by lia. cbn. do 2 f_equal. lia.
Qed.

Lemma create_spec (cap esize : Z) :
  esize <> 0 -> 0 <= cap <= 2 ^ 63 ->
  exists ra, @xqc_rarray_create A true cap esize = Some ra /\ ra_ok ra /\ ra_list ra = [] /\ cap <= ra_cap ra.
Proof.
  intros He Hc. unfold xqc_rarray_create. cbn [negb]. destruct (esize =? 0) eqn:E; [zb|].
  destruct (pow2_upper_spec cap) as (j & Hj & Hp & Hle & _); [lia|]. rewrite Hp.
  assert (0 < 2 ^ j) by (apply Z.pow_pos_nonneg; lia).
  destruct (2 ^ j =? XQC_POW2_UPPER_ERROR) eqn:E2; [unfold XQC_POW2_UPPER_ERROR in E2; zb|].
  eexists. split_and!; [done| |done|done].
  constructor; cbn [ra_cap ra_mask ra_offset ra_count ra_buf]; try done; [by exists j|lia|].
  rewrite length_replicate. lia.
Qed.

(** ** Refinement *)

(** The calls on an array; a pushed element is written through the pointer that the push
    returns. *)
Inductive ra_op :=
| Push (x : A)
| Push_front (x : A)
| Pop_front
| Pop_back
| Pop_from (idx : Z)
| Get (idx : Z)
| Front
| Size
| Full
| Resize (mem : bool) (cap : Z)
| Reinit (zero : A).

Inductive ra_out :=
| Out_elem (e : option (option A))
| Out_bool (b : bool)
| Out_num (n : Z)
| Out_res (r : res unit).

Definition ra_run ra (op : ra_op) : ra_out * xqc_rarray_t A :=
  match op with
  | Push x => match xqc_rarray_push ra with
              | (Some s, ra') => (Out_bool true, ra_store ra' s x)
              | (None, ra') => (Out_bool false, ra')
              end
  | Push_front x => match xqc_rarray_push_front ra with
                    | (Some s, ra') => (Out_bool true, ra_store ra' s x)
                    | (None, ra') => (Out_bool false, ra')
                    end
  | Pop_front => let '(b, ra') := xqc_rarray_pop_front ra in (Out_bool b, ra')
  | Pop_back => let '(b, ra') := xqc_rarray_pop_back ra in (Out_bool b, ra')
  | Pop_from idx => let '(b, ra') := xqc_rarray_pop_from ra idx in (Out_bool b, ra')
  | Get idx => (Out_elem (ra_at ra <$> xqc_rarray_get ra idx), ra)
  | Front => (Out_elem (ra_at ra <$> xqc_rarray_front ra), ra)
  | Size => (Out_num (xqc_rarray_size ra), ra)
  | Full => (Out_bool (xqc_rarray_full ra), ra)
  | Resize mem cap => let '(r, ra') := xqc_rarray_resize mem ra cap in (Out_res r, ra')
  | Reinit zero => (Out_bool true, xqc_rarray_reinit zero ra)
  end.

(** What they promise: a list of bounded length. *)
Definition spec_run (cl : Z * list (option A)) (op : ra_op) : ra_out * (Z * list (option A)) :=
  let '(cap, l) := cl in
  let n := Z.of_nat (length l) in
  match op with
  | Push x => if n <? cap then (Out_bool true, (cap, l ++ [Some x])) else (Out_bool false, cl)
  | Push_front x => if n <? cap then (Out_bool true, (cap, Some x :: l)) else (Out_bool false, cl)
  | Pop_front => (Out_bool (negb (n =? 0)), (cap, drop 1 l))
  | Pop_back => (Out_bool (negb (n =? 0)), (cap, take (length l - 1) l))
  | Pop_from idx => if idx <? n then (Out_bool true, (cap, take (Z.to_nat idx) l)) else (Out_bool false, cl)
  | Get idx => (Out_elem (l !! Z.to_nat idx), cl)
  | Front => (Out_elem (head l), cl)
  | Size => (Out_num n, cl)
  | Full => (Out_bool (cap <=? n), cl)
  | Resize mem c =>
      if c <? n then (Out_res (Err XQC_EPARAM), cl)
      else if c <=? cap then (Out_res (Ok tt), cl)
      else if (c <=? 2 ^ 63) && mem then (Out_res (Ok tt), (xqc_pow2_upper c, l))
      else (Out_res (Err XQC_EMALLOC), cl)
  | Reinit _ => (Out_bool true, (cap, []))
  end.

(** The arguments are 64-bit integers. *)
Definition op_args (op : ra_op) : Prop :=
  match op with
  | Pop_from idx | Get idx => 0 <= idx < 2 ^ 64
  | Resize _ cap => 0 <= cap < 2 ^ 64
  | _ => True
  end.

Definition abs ra : Z * list (option A) := (ra_cap ra, ra_list ra).

Lemma abs_len ra : ra_ok ra -> Z.of_nat (length (ra_list ra)) = ra_count ra.
Proof. intros []. rewrite length_ra_list. lia. Qed.

(** One call. *)
Lemma ra_run_refines ra op : ra_ok ra -> op_args op ->
  let '(out, ra') := ra_run ra op in ra_ok ra' /\ spec_run (abs ra) op = (out, abs ra').
Proof.
  intros H Hargs. unfold spec_run, abs. rewrite (abs_len ra H). pose proof (ra_count_ok _ H) as Hc.
  pose proof (abs_len ra H) as Hlen. destruct op; cbn [ra_run op_args] in *.
  - pose proof (push_spec ra x H) as Hp. destruct (xqc_rarray_push ra) as [[s|] ra1] eqn:E.
    + destruct Hp as (Hlt & _ & Hok & Hl). split; [done|]. destruct (_ <? _) eqn:E2; [|zb]. rewrite Hl.
      unfold xqc_rarray_push in E. destruct (_ <=? _); by simplify_eq.
    + destruct Hp as [Hge ->]. split; [done|]. destruct (_ <? _) eqn:E2; [zb|done].
  - pose proof (push_front_spec ra x H) as Hp. destruct (xqc_rarray_push_front ra) as [[s|] ra1] eqn:E.
    + destruct Hp as (Hlt & Hok & Hl). split; [done|]. destruct (_ <? _) eqn:E2; [|zb]. rewrite Hl.
      unfold xqc_rarray_push_front in E. destruct (_ <=? _); by simplify_eq.
    + destruct Hp as [Hge ->]. split; [done|]. destruct (_ <? _) eqn:E2; [zb|done].
  - destruct (pop_front_spec ra H) as (E & Hok & Hl). rewrite E. split; [done|]. rewrite Hl.
    unfold xqc_rarray_pop_front. by destruct (_ =? _).
  - unfold xqc_rarray_pop_back. destruct (ra_count ra =? 0) eqn:E; cbn [negb].
    + split; [done|]. apply Z.eqb_eq in E. destruct (ra_list ra); [done|]. simpl in Hlen. lia.
    + apply Z.eqb_neq in E. destruct (shrink_spec ra (ra_count ra - 1) H) as [Hok ->]; [lia|]. split; [done|].
      do 3 f_equal. lia.
  - unfold xqc_rarray_pop_from. destruct (ra_count ra <=? idx) eqn:E, (idx <? ra_count ra) eqn:E2; try zb; [done|].
    destruct (shrink_spec ra idx H) as [Hok ->]; [zb|]. done.
  - split; [done|]. rewrite get_spec by done. do 2 f_equal. destruct (idx <? ra_count ra) eqn:E; simpl.
    + rewrite ra_list_lookup by zb. do 3 f_equal. lia.
    + apply lookup_ge_None_2. zb.
  - split; [done|]. do 2 f_equal. unfold xqc_rarray_front. destruct (ra_count ra =? 0) eqn:E; simpl.
    + apply Z.eqb_eq in E. destruct (ra_list ra); [done|]. simpl in Hlen. lia.
    + apply Z.eqb_neq in E. rewrite head_lookup, ra_list_lookup by lia.
      rewrite slot_lo by (done || destruct H; lia). do 2 f_equal. lia.
  - done.
  - done.
  - pose proof (resize_spec mem ra cap H ltac:(lia)) as Hr.
    destruct (xqc_rarray_resize mem ra cap) as [r ra']. destruct Hr as (Hok & Hl & Hres & Hcap & _). split; [done|].
    rewrite Hl, Hcap, Hres. pose proof (ra_count_ok _ H).
    destruct (cap <? ra_count ra) eqn:E1, (cap <=? ra_cap ra) eqn:E2, ((cap <=? 2 ^ 63) && mem); done || zb.
  - split; [|done]. pose proof (ra_cap_bounds _ H). destruct H. constructor; try done; cbn; [lia..|].
    rewrite length_replicate. lia.
Qed.

End spec.

Arguments ra_op : clear implicits.
Arguments ra_out : clear implicits.

Fixpoint run_all {A S} (step : S -> ra_op A -> ra_out A * S) (s : S) (ops : list (ra_op A)) : list (ra_out A) * S :=
  match ops with
  | [] => ([], s)
  | op :: rest => let '(o, s1) := step s op in let '(os, s2) := run_all step s1 rest in (o :: os, s2)
  end.

(** The ring array is a bounded list: through every sequence of calls, whatever wraps around
    and however often the array grows, the results are those of the list of its elements, and
    the array stays well formed. *)
Theorem rarray_refines {A} (ra : xqc_rarray_t A) ops :
  ra_ok ra -> Forall op_args ops ->
  let '(outs, ra') := run_all ra_run ra ops in
  ra_ok ra' /\ run_all spec_run (abs ra) ops = (outs, abs ra').
Proof.
  intros H Hops. revert ra H. induction Hops as [|op ops Hop _ IH]; intros ra H; cbn [run_all]; [done|].
  pose proof (ra_run_refines ra op H Hop) as Hs. destruct (ra_run ra op) as [o ra1].
  destruct Hs as [H1 ->]. specialize (IH ra1 H1). destruct (run_all ra_run ra1 ops) as [os ra2].
  destruct IH as [H2 ->]. done.
Qed.

Definition ex_ops : list (ra_op Z) :=
  [Push 1; Push 2; Pop_front; Push_front 7; Push 3; Resize true 3; Push 4; Get 2; Pop_from 3; Full].

Lemma rarray_refines_witness :
  exists ra, @xqc_rarray_create Z true 2 8 = Some ra
  /\ run_all spec_run (abs ra) ex_ops
     = ([Out_bool true; Out_bool true; Out_bool true; Out_bool true; Out_bool false; Out_res (Ok tt);
         Out_bool true; Out_elem (Some (Some 4)); Out_bool false; Out_bool false],
        (4, [Some 7; Some 2; Some 4])).
Proof.
  destruct (create_spec (A := Z) 2 8) as (ra & Hc & Hok & _); [done|done|]. exists ra. split; [done|].
  vm_compute in Hc. injection Hc as Hra.
  assert (Forall op_args ex_ops) as Hargs by (repeat constructor; by_decide).
  pose proof (rarray_refines ra ex_ops Hok Hargs) as H. subst ra. vm_compute in H. vm_compute. tauto.
Defined.

End RingArray.
