(* ===== verification/RingMem.v ===== *)
(** The ring memory of src/src/common/utils/ringmem: blocks of bytes in a ring whose size is a
    power of two, addressed by indices that only grow. It refines a queue of bytes. *)

From stdpp Require Import base numbers list.
From S2P Require Import Prelude RingArray.
Import RingArray.

Module RingMem.

Definition XQC_ENOBUF : Z := 600.
Definition XQC_ELIMIT : Z := 613.

Record xqc_ring_mem_t := mk_rm {
  rm_buf : list Z;
  rm_capacity : Z;
  rm_mask : Z;
  rm_used : Z;
  rm_sidx : Z;
  rm_eidx : Z;
}.

(** [mem]: the allocations succeed; [junk] is what a new buffer holds. *)
Definition xqc_ring_mem_create (mem : bool) (junk : Z -> list Z) (sz : Z) : option xqc_ring_mem_t :=
  if negb mem then None
  else if sz =? 0 then Some (mk_rm [] 0 (u64 (0 - 1)) 0 0 0)
  else
    let msize := xqc_pow2_upper sz in
    if msize =? XQC_POW2_UPPER_ERROR then None
    else Some (mk_rm (junk msize) msize (u64 (msize - 1)) 0 0 0).

Definition xqc_ring_mem_used_size (rm : xqc_ring_mem_t) : Z := rm_used rm.

(** The bytes that are written to the destination of [sz] bytes. *)
Definition xqc_ring_mem_copy (rm : xqc_ring_mem_t) (idx len sz : Z) : res (list Z) :=
  if sz <? len then Err XQC_ENOBUF
  else if (idx <? rm_sidx rm) || (rm_eidx rm <=? idx) then Err XQC_EPARAM
  else if rm_eidx rm <? u64 (idx + len) then Err XQC_EPARAM
  else
    let soffset := idx .& rm_mask rm in
    let eoffset := u64 (idx + len) .& rm_mask rm in
    if soffset <? eoffset then Ok (sub_bytes (rm_buf rm) soffset len)
    else Ok (sub_bytes (rm_buf rm) soffset (rm_capacity rm - soffset) ++ sub_bytes (rm_buf rm) 0 eoffset).

Definition xqc_ring_mem_enqueue (rm : xqc_ring_mem_t) (data : list Z) : res Z * xqc_ring_mem_t :=
  let len := zlen data in
  if rm_capacity rm - rm_used rm <? len then (Err XQC_ELIMIT, rm)
  else
    let soffset := rm_eidx rm .& rm_mask rm in
    let eoffset := u64 (rm_eidx rm + len) .& rm_mask rm in
    let buf :=
      if soffset <? eoffset then wr (rm_buf rm) soffset data
      else
        let buf := wr (rm_buf rm) soffset (sub_bytes data 0 (rm_capacity rm - soffset)) in
        wr buf 0 (sub_bytes data (rm_capacity rm - soffset) eoffset) in
    (Ok (rm_eidx rm),
     mk_rm buf (rm_capacity rm) (rm_mask rm) (u64 (rm_used rm + len)) (rm_sidx rm) (u64 (rm_eidx rm + len))).

Definition xqc_ring_mem_dequeue (rm : xqc_ring_mem_t) (idx len : Z) : res unit * xqc_ring_mem_t :=
  if negb (rm_sidx rm =? idx) || (rm_used rm <? len) then (Err XQC_EPARAM, rm)
  else (Ok tt, mk_rm (rm_buf rm) (rm_capacity rm) (rm_mask rm) (rm_used rm - len) (u64 (rm_sidx rm + len))
                 (rm_eidx rm)).

Definition xqc_ring_mem_undo (rm : xqc_ring_mem_t) (idx len : Z) : res unit * xqc_ring_mem_t :=
  if idx <? rm_sidx rm then
    if (rm_capacity rm - rm_used rm <? len) || negb (idx =? u64 (rm_sidx rm - len)) then (Err XQC_EPARAM, rm)
    else (Ok tt, mk_rm (rm_buf rm) (rm_capacity rm) (rm_mask rm) (u64 (rm_used rm + len)) idx (rm_eidx rm))
  else
    if (rm_used rm <? len) || negb (idx =? u64 (rm_eidx rm - len)) then (Err XQC_EPARAM, rm)
    else (Ok tt, mk_rm (rm_buf rm) (rm_capacity rm) (rm_mask rm) (rm_used rm - len) (rm_sidx rm) idx).

(** The sign of [memcmp] over the first [n] bytes. *)
Fixpoint memcmp (a b : list Z) (n : nat) : Z :=
  match n, a, b with
  | S m, x :: a', y :: b' => if x =? y then memcmp a' b' m else if x <? y then -1 else 1
  | _, _, _ => 0
  end.

(** Zero when the block is [data]; [-XQC_EPARAM] when there is no such block. *)
Definition xqc_ring_mem_cmp (rm : xqc_ring_mem_t) (idx : Z) (data : list Z) : Z :=
  let len := zlen data in
  if (idx <? rm_sidx rm) || (rm_eidx rm <? u64 (idx + len)) || (len =? 0) then - XQC_EPARAM
  else
    let soffset := idx .& rm_mask rm in
    let eoffset := u64 (idx + len) .& rm_mask rm in
    if soffset <? eoffset then memcmp (drop (Z.to_nat soffset) (rm_buf rm)) data (Z.to_nat len)
    else
      let first := rm_capacity rm - soffset in
      if (memcmp (drop (Z.to_nat soffset) (rm_buf rm)) data (Z.to_nat first) =? 0)
         && (memcmp (rm_buf rm) (drop (Z.to_nat first) data) (Z.to_nat eoffset) =? 0)
      then 0 else -1.

(** The copy of the used bytes into a larger buffer. *)
Definition resize_copy (rm : xqc_ring_mem_t) (mcap : Z) (buf : list Z) : res (list Z) :=
  let mask_new := u64 (mcap - 1) in
  let soffset_new := rm_sidx rm .& mask_new in
  let eoffset_new := rm_eidx rm .& mask_new in
  if soffset_new <? eoffset_new then
    match xqc_ring_mem_copy rm (rm_sidx rm) (rm_used rm) (mcap - soffset_new) with
    | Err e => Err e
    | Ok bytes => Ok (wr buf soffset_new bytes)
    end
  else
    let soffset_ori := rm_sidx rm .& rm_mask rm in
    let eoffset_ori := rm_eidx rm .& rm_mask rm in
    if soffset_ori <? eoffset_ori then
      let sz := mcap - soffset_new in
      let buf := wr buf soffset_new (sub_bytes (rm_buf rm) soffset_ori sz) in
      Ok (wr buf 0 (sub_bytes (rm_buf rm) (soffset_ori + sz) (rm_used rm - sz)))
    else
      let new_sz1 := mcap - soffset_new in
      let ori_sz1 := rm_capacity rm - soffset_ori in
      if ori_sz1 <=? new_sz1 then
        let buf := wr buf soffset_new (sub_bytes (rm_buf rm) soffset_ori ori_sz1) in
        let buf := wr buf (soffset_new + ori_sz1) (sub_bytes (rm_buf rm) 0 (new_sz1 - ori_sz1)) in
        Ok (wr buf 0 (sub_bytes (rm_buf rm) (new_sz1 - ori_sz1) (rm_used rm - new_sz1)))
      else
        let buf := wr buf soffset_new (sub_bytes (rm_buf rm) soffset_ori new_sz1) in
        let buf := wr buf 0 (sub_bytes (rm_buf rm) (soffset_ori + new_sz1) (ori_sz1 - new_sz1)) in
        Ok (wr buf (ori_sz1 - new_sz1) (sub_bytes (rm_buf rm) 0 (rm_used rm - ori_sz1))).

Definition xqc_ring_mem_resize (mem : bool) (junk : Z -> list Z) (rm : xqc_ring_mem_t) (cap : Z)
    : res unit * xqc_ring_mem_t :=
  if cap <? rm_used rm then (Err XQC_EPARAM, rm)
  else if cap <=? rm_capacity rm then (Ok tt, rm)
  else
    let mcap := xqc_pow2_upper cap in
    if mcap =? XQC_POW2_UPPER_ERROR then (Err XQC_EPARAM, rm)
    else if negb mem then (Err XQC_EMALLOC, rm)
    else
      match (if rm_used rm =? 0 then Ok (junk mcap) else resize_copy rm mcap (junk mcap)) with
      | Err e => (Err e, rm)
      | Ok buf => (Ok tt, mk_rm buf mcap (u64 (mcap - 1)) (rm_used rm) (rm_sidx rm) (rm_eidx rm))
      end.

(** ** Bytes in a ring *)

(** The bytes of a ring of [cap] bytes from index [idx] on. *)
Definition ring (buf : list Z) (cap idx : Z) (n : nat) : list Z :=
  map (fun k => rd buf ((idx + Z.of_nat k) mod cap)) (seq 0 n).

(** The write of [data] at index [idx], in one or two pieces. *)
Definition ring_put (buf : list Z) (cap idx : Z) (data : list Z) : list Z :=
  let s := idx mod cap in
  let e := (idx + zlen data) mod cap in
  if s <? e then wr buf s data
  else wr (wr buf s (sub_bytes data 0 (cap - s))) 0 (sub_bytes data (cap - s) e).

Lemma zlen_ring buf cap idx n : zlen (ring buf cap idx n) = Z.of_nat n.
Proof. unfold zlen, ring. by rewrite length_map, length_seq. Qed.

Lemma rd_ring buf cap idx n i : 0 <= i < Z.of_nat n -> rd (ring buf cap idx n) i = rd buf ((idx + i) mod cap).
Proof.
  intros Hi. apply rd_lookup; [lia|]. unfold ring. rewrite list_lookup_fmap, lookup_seq_lt by lia.
  simpl. do 3 f_equal. lia.
Qed.

Lemma ring_ext buf buf' cap cap' idx idx' n :
  (forall i, 0 <= i < Z.of_nat n -> rd buf ((idx + i) mod cap) = rd buf' ((idx' + i) mod cap')) ->
  ring buf cap idx n = ring buf' cap' idx' n.
Proof. intros H. apply buf_ext; [by rewrite !zlen_ring|]. intros i Hi. rewrite zlen_ring in Hi.
  rewrite !rd_ring by lia. by apply H. Qed.

Lemma ring_app buf cap idx n m : ring buf cap idx (n + m) = ring buf cap idx n ++ ring buf cap (idx + Z.of_nat n) m.
Proof.
  unfold ring. rewrite seq_app, map_app. f_equal. rewrite <- (Nat.add_0_r (0 + n)), <- fmap_add_seq.
  rewrite <- list_fmap_compose. apply list_fmap_ext. intros i x _. simpl. do 2 f_equal. lia.
Qed.

Section ring.

Context (cap : Z) (Hcap : 0 < cap).

Lemma mod_add idx i : 0 <= i <= cap ->
  (idx + i) mod cap = if idx mod cap + i <? cap then idx mod cap + i else idx mod cap + i - cap.
Proof.
  intros Hi. pose proof (Z.mod_pos_bound idx cap Hcap). rewrite <- Zplus_mod_idemp_l. apply mod_wrap; lia.
Qed.

Lemma mod_lo idx i : 0 <= i -> idx mod cap + i < cap -> (idx + i) mod cap = idx mod cap + i.
Proof. intros Hi H. rewrite mod_add by (pose proof (Z.mod_pos_bound idx cap Hcap); lia). case_if; zb. Qed.

Lemma mod_hi idx i : i <= cap -> cap <= idx mod cap + i -> (idx + i) mod cap = idx mod cap + i - cap.
Proof. intros Hi H. rewrite mod_add by (pose proof (Z.mod_pos_bound idx cap Hcap); lia). case_if; zb. Qed.

(** Reading in one or two pieces. *)
Lemma ring_pieces buf idx n : zlen buf = cap -> 0 < Z.of_nat n <= cap ->
  let s := idx mod cap in let e := (idx + Z.of_nat n) mod cap in
  (if s <? e then sub_bytes buf s (Z.of_nat n) else sub_bytes buf s (cap - s) ++ sub_bytes buf 0 e)
  = ring buf cap idx n.
Proof.
  intros Hz Hn s e. pose proof (Z.mod_pos_bound idx cap Hcap) as Hs. fold s in Hs.
  assert (e = if s + Z.of_nat n <? cap then s + Z.of_nat n else s + Z.of_nat n - cap) as He by (apply mod_add; lia).
  clearbody e. destruct (s + Z.of_nat n <? cap) eqn:E; destruct (s <? e) eqn:E2; try zb.
  - assert (zlen (sub_bytes buf s (Z.of_nat n)) = Z.of_nat n) as Z1 by (apply zlen_sub_bytes; zb).
    apply buf_ext; [by rewrite zlen_ring|]. rewrite Z1. intros i Hi. rewrite rd_ring, rd_sub by zb. by rewrite mod_lo by (fold s; zb).
  - assert (zlen (sub_bytes buf s (cap - s)) = cap - s) as Z1 by (apply zlen_sub_bytes; lia).
    assert (zlen (sub_bytes buf 0 e) = e) as Z2 by (apply zlen_sub_bytes; zb).
    apply buf_ext; [rewrite zlen_ring, zlen_app, Z1, Z2; zb|]. rewrite zlen_app, Z1, Z2. intros i Hi.
    rewrite rd_ring by zb.
    destruct (decide (i < cap - s)).
    + rewrite rd_app_l, rd_sub by zb. by rewrite mod_lo by (fold s; zb).
    + rewrite rd_app_r, Z1, rd_sub by zb. rewrite mod_hi by (fold s; zb). fold s. f_equal. zb.
Qed.

Lemma zlen_ring_put buf idx data : zlen (ring_put buf cap idx data) = zlen buf.
Proof. unfold ring_put. case_if; by rewrite !zlen_wr. Qed.

(** Around the ring from [idx] on: first the data, then what was there. *)
Lemma rd_ring_put buf idx data i : zlen buf = cap -> 0 < zlen data <= cap -> 0 <= i < cap ->
  rd (ring_put buf cap idx data) ((idx + i) mod cap)
  = if i <? zlen data then rd data i else rd buf ((idx + i) mod cap).
Proof.
  intros Hz Hd Hi. unfold ring_put. pose proof (Z.mod_pos_bound idx cap Hcap) as Hs.
  rewrite (mod_add idx (zlen data)) by lia. rewrite (mod_add idx i) by lia. set (s := idx mod cap) in *.
  destruct (s + zlen data <? cap) eqn:E.
  - destruct (s <? s + zlen data) eqn:E2; [|zb]. destruct (i <? zlen data) eqn:E3.
    + destruct (s + i <? cap) eqn:E4; [|zb]. rewrite rd_wr_in by zb. f_equal. lia.
    + destruct (s + i <? cap) eqn:E4; rewrite rd_wr_ne by zb; done.
  - destruct (s <? s + zlen data - cap) eqn:E2; [zb|]. set (e := s + zlen data - cap).
    assert (zlen (sub_bytes data 0 (cap - s)) = cap - s) as Z1 by (apply zlen_sub_bytes; zb).
    assert (zlen (sub_bytes data (cap - s) e) = e) as Z2 by (apply zlen_sub_bytes; zb).
    destruct (s + i <? cap) eqn:E4.
    + destruct (i <? zlen data) eqn:E3; [|zb]. rewrite rd_wr_ne by zb. rewrite rd_wr_in by zb.
      rewrite rd_sub by zb. f_equal. lia.
    + destruct (i <? zlen data) eqn:E3.
      * rewrite rd_wr_in by (rewrite ?zlen_wr; zb). rewrite rd_sub by zb. f_equal. lia.
      * by rewrite !rd_wr_ne by zb.
Qed.

Lemma ring_put_same buf idx data : zlen buf = cap -> 0 < zlen data <= cap ->
  ring (ring_put buf cap idx data) cap idx (length data) = data.
Proof.
  intros Hz Hd. apply buf_ext; [by rewrite zlen_ring|]. rewrite zlen_ring. intros i Hi.
  fold (zlen data) in Hi. rewrite rd_ring, rd_ring_put by (done || unfold zlen in *; lia).
  destruct (i <? zlen data) eqn:E; [done|zb].
Qed.

Lemma ring_put_other buf idx data idx' n : zlen buf = cap -> 0 < zlen data ->
  idx' + Z.of_nat n <= idx -> idx + zlen data <= idx' + cap ->
  ring (ring_put buf cap idx data) cap idx' n = ring buf cap idx' n.
Proof.
  intros Hz Hd Hn Hc. apply ring_ext. intros i Hi.
  replace ((idx' + i) mod cap) with ((idx + (idx' + i - idx + cap)) mod cap).
  2: { replace (idx + (idx' + i - idx + cap)) with (idx' + i + 1 * cap) by lia. by rewrite Z.mod_add by lia. }
  rewrite rd_ring_put by lia. destruct (_ <? zlen data) eqn:E; [zb|done].
Qed.

End ring.

(** ** The invariant *)

Record rm_ok (rm : xqc_ring_mem_t) : Prop := {
  rm_cap_ok : rm_capacity rm = 0 \/ exists k, 0 <= k <= 63 /\ rm_capacity rm = 2 ^ k;
  rm_mask_ok : rm_mask rm = u64 (rm_capacity rm - 1);
  rm_used_ok : 0 <= rm_used rm <= rm_capacity rm;
  rm_start : 0 <= rm_sidx rm;
  rm_end : rm_eidx rm = rm_sidx rm + rm_used rm;
  rm_idx : rm_eidx rm < 2 ^ 64;
  rm_len : zlen (rm_buf rm) = rm_capacity rm;
}.

(** The bytes that are stored. *)
Definition rm_bytes (rm : xqc_ring_mem_t) : list Z :=
  ring (rm_buf rm) (rm_capacity rm) (rm_sidx rm) (Z.to_nat (rm_used rm)).

Lemma zlen_rm_bytes rm : rm_ok rm -> zlen (rm_bytes rm) = rm_used rm.
Proof. intros []. unfold rm_bytes. rewrite zlen_ring. lia. Qed.

Lemma land_rm rm x : rm_ok rm -> 0 < rm_capacity rm -> 0 <= x < 2 ^ 64 -> x .& rm_mask rm = x mod rm_capacity rm.
Proof.
  intros [Hc Hm _ _ _ _ _] Hp Hx. destruct Hc as [?|(k & Hk & Hc)]; [lia|]. rewrite Hm, Hc, <- (land_ring x k Hk).
  f_equal. unfold u64. by rewrite Z.mod_small.
Qed.

(** A block that lies inside. *)
Lemma block_bytes rm idx len : rm_ok rm -> rm_sidx rm <= idx -> 0 < len -> idx + len <= rm_eidx rm ->
  sub_bytes (rm_bytes rm) (idx - rm_sidx rm) len = ring (rm_buf rm) (rm_capacity rm) idx (Z.to_nat len).
Proof.
  intros H Hi Hl He. pose proof (zlen_rm_bytes rm H). destruct H.
  assert (zlen (sub_bytes (rm_bytes rm) (idx - rm_sidx rm) len) = len) as Z1 by (apply zlen_sub_bytes; lia).
  apply buf_ext; [rewrite zlen_ring; lia|]. rewrite Z1. intros i Hin. rewrite rd_sub, rd_ring by lia.
  unfold rm_bytes. rewrite rd_ring by lia. do 2 f_equal. lia.
Qed.

Lemma copy_spec rm idx len sz : rm_ok rm -> 0 < len -> 0 <= idx -> idx + len < 2 ^ 64 ->
  xqc_ring_mem_copy rm idx len sz
  = if sz <? len then Err XQC_ENOBUF
    else if (rm_sidx rm <=? idx) && (idx + len <=? rm_eidx rm)
         then Ok (sub_bytes (rm_bytes rm) (idx - rm_sidx rm) len) else Err XQC_EPARAM.
Proof.
  intros H Hl Hi Hov. unfold xqc_ring_mem_copy. destruct (sz <? len); [done|].
  assert (u64 (idx + len) = idx + len) as -> by (unfold u64; rewrite Z.mod_small; lia).
  destruct (_ || _) eqn:E1; [destruct (_ && _) eqn:E2; [zb|done]|].
  destruct (rm_eidx rm <? idx + len) eqn:E2; [destruct (_ && _) eqn:E3; [zb|done]|].
  destruct (_ && _) eqn:E3; [|zb]. pose proof (rm_used_ok _ H). pose proof (rm_end _ H). pose proof (rm_len _ H).
  rewrite !land_rm by (done || zb). rewrite block_bytes by (done || zb).
  pose proof (ring_pieces (rm_capacity rm) ltac:(zb) (rm_buf rm) idx (Z.to_nat len) ltac:(done) ltac:(zb)) as Hp.
  rewrite Z2Nat.id in Hp by lia. rewrite <- Hp. case_if; done.
Qed.

Lemma enqueue_spec rm data : rm_ok rm -> 0 < zlen data -> rm_eidx rm + zlen data < 2 ^ 64 ->
  if rm_capacity rm - rm_used rm <? zlen data then xqc_ring_mem_enqueue rm data = (Err XQC_ELIMIT, rm)
  else exists rm', xqc_ring_mem_enqueue rm data = (Ok (rm_eidx rm), rm') /\ rm_ok rm'
       /\ rm_bytes rm' = rm_bytes rm ++ data /\ rm_sidx rm' = rm_sidx rm /\ rm_capacity rm' = rm_capacity rm.
Proof.
  intros H Hd Hov. unfold xqc_ring_mem_enqueue. destruct (_ <? zlen data) eqn:E; [done|]. apply Z.ltb_ge in E.
  pose proof H as [Hc Hm Hu Hs He Hi Hz].
  assert (u64 (rm_eidx rm + zlen data) = rm_eidx rm + zlen data) as -> by (unfold u64; rewrite Z.mod_small; lia).
  assert (u64 (rm_used rm + zlen data) = rm_used rm + zlen data) as ->.
  { unfold u64. rewrite Z.mod_small; [done|lia]. }
  rewrite !land_rm by (done || lia). eexists. split; [done|].
  set (buf := if _ <? _ then _ else _).
  assert (buf = ring_put (rm_buf rm) (rm_capacity rm) (rm_eidx rm) data) as Hbuf by done. clearbody buf. subst buf.
  split; [|split; [|done]].
  - constructor; cbn [rm_buf rm_capacity rm_mask rm_used rm_sidx rm_eidx]; try done; try lia. by rewrite zlen_ring_put.
  - unfold rm_bytes. cbn [rm_buf rm_capacity rm_used rm_sidx].
    replace (Z.to_nat (rm_used rm + zlen data)) with (Z.to_nat (rm_used rm) + length data)%nat by (unfold zlen in *; lia).
    rewrite ring_app. f_equal.
    + apply ring_put_other; [lia|done|lia|lia|lia].
    + replace (rm_sidx rm + Z.of_nat (Z.to_nat (rm_used rm))) with (rm_eidx rm) by lia.
      apply ring_put_same; [lia|done|lia].
Qed.

Lemma dequeue_spec rm len : rm_ok rm -> 0 <= len <= rm_used rm ->
  exists rm', xqc_ring_mem_dequeue rm (rm_sidx rm) len = (Ok tt, rm') /\ rm_ok rm'
  /\ rm_bytes rm' = drop (Z.to_nat len) (rm_bytes rm) /\ rm_sidx rm' = rm_sidx rm + len
  /\ rm_capacity rm' = rm_capacity rm /\ rm_eidx rm' = rm_eidx rm.
Proof.
  intros H Hl. pose proof H as [Hc Hm Hu Hs He Hi Hz]. unfold xqc_ring_mem_dequeue. rewrite Z.eqb_refl. cbn [negb orb].
  destruct (rm_used rm <? len) eqn:E; [zb|].
  assert (u64 (rm_sidx rm + len) = rm_sidx rm + len) as -> by (unfold u64; rewrite Z.mod_small; lia).
  eexists. split; [done|]. split_and!; try done.
  - constructor; cbn [rm_buf rm_capacity rm_mask rm_used rm_sidx rm_eidx]; try done; lia.
  - unfold rm_bytes. cbn [rm_buf rm_capacity rm_used rm_sidx].
    replace (Z.to_nat (rm_used rm)) with (Z.to_nat len + Z.to_nat (rm_used rm - len))%nat by lia.
    rewrite ring_app, drop_app_length'; [f_equal; lia|]. unfold ring. by rewrite length_map, length_seq.
Qed.

(** Taking back the block that was enqueued last, and the one that was dequeued last. *)
Lemma undo_enqueue_spec rm data rm1 : rm_ok rm -> 0 < zlen data -> rm_eidx rm + zlen data < 2 ^ 64 ->
  xqc_ring_mem_enqueue rm data = (Ok (rm_eidx rm), rm1) ->
  exists rm', xqc_ring_mem_undo rm1 (rm_eidx rm) (zlen data) = (Ok tt, rm') /\ rm_ok rm'
  /\ rm_bytes rm' = rm_bytes rm /\ rm_sidx rm' = rm_sidx rm.
Proof.
  intros H Hd Hov He1. pose proof (enqueue_spec rm data H Hd Hov) as Hsp. rewrite He1 in Hsp.
  destruct (_ <? _); [done|]. destruct Hsp as (rm' & [= <-] & H1 & Hb & Hs & Hc).
  pose proof (zlen_rm_bytes _ H) as Z0. pose proof (zlen_rm_bytes _ H1) as Z1. rewrite Hb, zlen_app, Z0 in Z1.
  pose proof (rm_end _ H). pose proof (rm_end _ H1). pose proof (rm_used_ok _ H). pose proof (rm_start _ H).
  unfold xqc_ring_mem_undo. destruct (_ <? rm_sidx rm1) eqn:E; [zb|].
  assert (u64 (rm_eidx rm1 - zlen data) = rm_eidx rm) as ->.
  { unfold u64. rewrite Z.mod_small; lia. }
  rewrite Z.eqb_refl. destruct (rm_used rm1 <? zlen data) eqn:E2; [zb|]. cbn [negb orb]. eexists. split; [done|].
  split_and!; [|unfold rm_bytes at 1; cbn [rm_buf rm_capacity rm_used rm_sidx]|done].
  - destruct H1. constructor; cbn [rm_buf rm_capacity rm_mask rm_used rm_sidx rm_eidx]; try done; lia.
  - unfold rm_bytes in Hb at 1. replace (Z.to_nat (rm_used rm1)) with (Z.to_nat (rm_used rm) + length data)%nat in Hb
      by (unfold zlen in *; lia).
    rewrite ring_app in Hb. apply app_inj_1 in Hb as [Hb _];
      [|unfold rm_bytes, ring; by rewrite !length_map, !length_seq].
    rewrite <- Hb. f_equal. lia.
Qed.

Lemma undo_dequeue_spec rm len rm1 : rm_ok rm -> 0 < len <= rm_used rm ->
  xqc_ring_mem_dequeue rm (rm_sidx rm) len = (Ok tt, rm1) ->
  xqc_ring_mem_undo rm1 (rm_sidx rm) len = (Ok tt, rm).
Proof.
  intros H Hl. pose proof H as [Hc Hm Hu Hs He Hi Hz]. unfold xqc_ring_mem_dequeue. rewrite Z.eqb_refl. cbn [negb orb].
  destruct (rm_used rm <? len) eqn:E; [done|].
  assert (u64 (rm_sidx rm + len) = rm_sidx rm + len) as -> by (unfold u64; rewrite Z.mod_small; lia).
  intros [= <-]. unfold xqc_ring_mem_undo. cbn [rm_buf rm_capacity rm_mask rm_used rm_sidx rm_eidx].
  destruct (_ <? rm_sidx rm + len) eqn:E1; [|zb].
  destruct (rm_capacity rm - (rm_used rm - len) <? len) eqn:E2; [zb|].
  replace (rm_sidx rm + len - len) with (rm_sidx rm) by lia.
  assert (u64 (rm_sidx rm) = rm_sidx rm) as -> by (unfold u64; rewrite Z.mod_small; lia).
  rewrite Z.eqb_refl. cbn [orb negb]. replace (rm_used rm - len + len) with (rm_used rm) by lia.
  assert (u64 (rm_used rm) = rm_used rm) as -> by (unfold u64; rewrite Z.mod_small; lia). by destruct rm.
Qed.

Lemma memcmp_eq a b n : (n <= length a)%nat -> (n <= length b)%nat ->
  (memcmp a b n =? 0) = bool_decide (take n a = take n b).
Proof.
  revert a b. induction n as [|n IH]; intros a b Ha Hb.
  { rewrite bool_decide_true by done. by destruct a. }
  destruct a as [|x a], b as [|y b]; simpl in *; try lia. destruct (x =? y) eqn:E.
  - apply Z.eqb_eq in E as ->. rewrite IH by lia. apply bool_decide_ext. split; [by intros ->|by intros [= ->]].
  - rewrite bool_decide_false by (intros [= ??]; zb). by destruct (x <? y).
Qed.

Lemma cmp_spec rm idx data : rm_ok rm -> 0 < zlen data -> 0 <= idx -> idx + zlen data < 2 ^ 64 ->
  xqc_ring_mem_cmp rm idx data = 0 <->
  rm_sidx rm <= idx /\ idx + zlen data <= rm_eidx rm
  /\ sub_bytes (rm_bytes rm) (idx - rm_sidx rm) (zlen data) = data.
Proof.
  intros H Hd Hi Hov. unfold xqc_ring_mem_cmp.
  assert (u64 (idx + zlen data) = idx + zlen data) as -> by (unfold u64; rewrite Z.mod_small; lia).
  destruct (_ || _) eqn:E1.
  { unfold XQC_EPARAM. split; [done|]. intros (? & ? & _). zb. }
  pose proof H as [Hc Hm Hu Hs He Hix Hz]. rewrite !land_rm by (done || zb).
  pose proof (ring_pieces (rm_capacity rm) ltac:(zb) (rm_buf rm) idx (length data) ltac:(done) ltac:(unfold zlen in *; zb)) as Hp.
  fold (zlen data) in Hp. cbv zeta in Hp. pose proof (Z.mod_pos_bound idx (rm_capacity rm) ltac:(zb)) as Hb.
  pose proof (Z.mod_pos_bound (idx + zlen data) (rm_capacity rm) ltac:(zb)) as Hb2.
  assert (sub_bytes (rm_bytes rm) (idx - rm_sidx rm) (zlen data) = ring (rm_buf rm) (rm_capacity rm) idx (length data)) as ->.
  { rewrite block_bytes by (done || zb). unfold zlen. by rewrite Nat2Z.id. }
  rewrite <- Hp. pose proof (mod_add (rm_capacity rm) ltac:(zb) idx (zlen data) ltac:(zb)) as Hm2.
  set (so := idx mod rm_capacity rm) in *. set (eo := (idx + zlen data) mod rm_capacity rm) in *.
  assert (forall P Q : Prop, rm_sidx rm <= idx -> idx + zlen data <= rm_eidx rm -> (P <-> Q) ->
    P <-> rm_sidx rm <= idx /\ idx + zlen data <= rm_eidx rm /\ Q) as Hiff by tauto.
  apply Hiff; [zb..|]. clear Hiff. destruct (so <? eo) eqn:E2.
  - rewrite <- Z.eqb_eq, memcmp_eq by (rewrite ?length_drop; unfold zlen in *; destruct (_ <? _) in Hm2; zb).
    rewrite bool_decide_eq_true. unfold sub_bytes. by rewrite (take_ge data) by (unfold zlen; lia).
  - set (f := rm_capacity rm - so). destruct (_ <? rm_capacity rm) eqn:E3 in Hm2; [zb|].
    assert (Z.to_nat eo = length data - Z.to_nat f)%nat as He2 by (unfold zlen, f in *; lia).
    rewrite !memcmp_eq by (rewrite ?length_drop; unfold zlen, f in *; lia).
    unfold sub_bytes. fold f. change (Z.to_nat 0) with O. rewrite drop_0.
    rewrite (take_ge (drop (Z.to_nat f) data)) by (rewrite length_drop; lia).
    assert (forall l, l = data <-> l = take (Z.to_nat f) data ++ drop (Z.to_nat f) data) as Hsplit
      by (intros l; by rewrite take_drop).
    rewrite Hsplit. clear Hsplit.
    destruct (_ && _) eqn:E4.
    + apply andb_true_iff in E4 as [E4 E5]. apply bool_decide_eq_true in E4, E5. split; [intros _; by f_equal|done].
    + split; [done|]. intros Heq. apply app_inj_1 in Heq as [H1 H2];
        [|rewrite !length_take, length_drop; unfold zlen, f in *; lia].
      by rewrite H1, H2, !bool_decide_true in E4.
Qed.

Lemma land_pow x j : 0 <= j <= 63 -> 0 <= x < 2 ^ 64 -> x .& u64 (2 ^ j - 1) = x mod 2 ^ j.
Proof. intros Hj Hx. rewrite <- (land_ring x j Hj). f_equal. unfold u64. by rewrite Z.mod_small. Qed.

Lemma sub_bytes_front a b n : zlen a = n -> sub_bytes (a ++ b) 0 n = a.
Proof. intros <-. unfold sub_bytes, zlen. rewrite Nat2Z.id. simpl. by rewrite drop_0, take_app_length. Qed.

Lemma sub_bytes_back a b p n : zlen a = p -> zlen b = n -> sub_bytes (a ++ b) p n = b.
Proof. intros <- <-. unfold sub_bytes, zlen. rewrite !Nat2Z.id, drop_app_length. by rewrite firstn_all. Qed.

(** Where the used bytes wrap around in the larger buffer, they wrap around at the same place in
    the smaller one. *)
Lemma wrap_same cap m idx used : 0 < cap -> 0 < used <= cap -> cap * m <= idx mod (cap * m) + used -> 0 < m ->
  cap * m - idx mod (cap * m) = cap - idx mod cap.
Proof.
  intros Hc Hu Hw Hm. set (s := idx mod (cap * m)) in *.
  assert (idx mod cap = s mod cap) as ->.
  { unfold s. symmetry. apply Z.mod_mod_divide. exists m. lia. }
  pose proof (Z.mod_pos_bound idx (cap * m) ltac:(nia)) as Hs. fold s in Hs.
  pose proof (Z.div_mod s cap ltac:(lia)) as Hdm. pose proof (Z.mod_pos_bound s cap Hc).
  set (q := s / cap) in *. assert (m - q = 1) by nia. nia.
Qed.

Lemma resize_copy_spec rm j buf : rm_ok rm -> 0 < rm_used rm -> 0 <= j <= 63 -> rm_capacity rm < 2 ^ j ->
  zlen buf = 2 ^ j ->
  resize_copy rm (2 ^ j) buf = Ok (ring_put buf (2 ^ j) (rm_sidx rm) (rm_bytes rm)).
Proof.
  intros H Hu Hj Hlt Hz. pose proof H as [Hc Hm Hu2 Hs He Hix Hlen]. pose proof (zlen_rm_bytes rm H) as Zb.
  destruct Hc as [?|(k & Hk & Hc)]; [lia|].
  assert (0 < 2 ^ k) by (apply Z.pow_pos_nonneg; lia).
  assert (k < j) as Hkj. { apply (Z.pow_lt_mono_r_iff 2); lia. }
  assert (2 ^ j = rm_capacity rm * 2 ^ (j - k)) as Hmul by (rewrite Hc, <- Z.pow_add_r by lia; f_equal; lia).
  assert (0 < 2 ^ (j - k)) as Hmp by (apply Z.pow_pos_nonneg; lia).
  unfold resize_copy, ring_put. rewrite !land_pow by lia. rewrite Zb, <- He.
  pose proof (mod_add (2 ^ j) ltac:(lia) (rm_sidx rm) (rm_used rm) ltac:(lia)) as Hmod. rewrite <- He in Hmod.
  pose proof (Z.mod_pos_bound (rm_sidx rm) (2 ^ j) ltac:(lia)) as Hsb.
  destruct (rm_sidx rm mod 2 ^ j <? rm_eidx rm mod 2 ^ j) eqn:E.
  - destruct (_ <? 2 ^ j) eqn:E2 in Hmod; [|zb]. rewrite copy_spec by (done || lia).
    destruct (_ <? rm_used rm) eqn:E3; [zb|]. destruct (_ && _) eqn:E4; [|zb].
    do 2 f_equal. replace (rm_sidx rm - rm_sidx rm) with 0 by lia. rewrite <- Zb at 1. apply sub_bytes_all.
  - destruct (_ <? 2 ^ j) eqn:E2 in Hmod; [zb|]. apply Z.ltb_ge in E2.
    rewrite !land_rm by (done || lia).
    assert (2 ^ j - rm_sidx rm mod 2 ^ j = rm_capacity rm - rm_sidx rm mod rm_capacity rm) as Hsame.
    { rewrite Hmul. apply (wrap_same _ _ _ (rm_used rm)); [lia|lia|rewrite <- Hmul; lia|done]. }
    pose proof (mod_hi (rm_capacity rm) ltac:(lia) (rm_sidx rm) (rm_used rm) ltac:(lia) ltac:(lia)) as Hhi.
    rewrite <- He in Hhi. destruct (_ <? rm_eidx rm mod rm_capacity rm) eqn:E3; [zb|].
    rewrite <- Hsame, Z.leb_refl, Z.sub_diag.
    pose proof (ring_pieces (rm_capacity rm) ltac:(lia) (rm_buf rm) (rm_sidx rm) (Z.to_nat (rm_used rm)) Hlen ltac:(lia)) as Hp.
    cbv zeta in Hp. rewrite Z2Nat.id, <- He, E3, <- Hsame in Hp by lia. fold (rm_bytes rm) in Hp. rewrite <- Hp.
    set (so := rm_sidx rm mod rm_capacity rm) in *. set (sn := rm_sidx rm mod 2 ^ j) in *.
    pose proof (Z.mod_pos_bound (rm_sidx rm) (rm_capacity rm) ltac:(lia)) as Hso. fold so in Hso.
    assert (zlen (sub_bytes (rm_buf rm) so (2 ^ j - sn)) = 2 ^ j - sn) as Z1 by (apply zlen_sub_bytes; lia).
    rewrite Hmod, Hhi. do 2 f_equal.
    + change (sub_bytes (rm_buf rm) 0 0) with (@nil Z). by rewrite sub_bytes_front.
    + replace (sn + rm_used rm - 2 ^ j) with (rm_used rm - (2 ^ j - sn)) by lia.
      replace (so + rm_used rm - rm_capacity rm) with (rm_used rm - (2 ^ j - sn)) by lia.
      by rewrite sub_bytes_back by (done || apply zlen_sub_bytes; lia).
Qed.

Lemma rm_resize_spec mem junk rm cap : rm_ok rm -> (forall n, 0 <= n -> zlen (junk n) = n) -> 0 <= cap ->
  let '(r, rm') := xqc_ring_mem_resize mem junk rm cap in
  rm_ok rm' /\ rm_bytes rm' = rm_bytes rm /\ rm_sidx rm' = rm_sidx rm
  /\ rm_eidx rm' = rm_eidx rm /\ rm_capacity rm <= rm_capacity rm'
  /\ (r = Ok tt -> cap <= rm_capacity rm')
  /\ (mem = true -> rm_used rm <= cap <= 2 ^ 63 -> r = Ok tt).
Proof.
  intros H Hj Hc. unfold xqc_ring_mem_resize. pose proof (rm_used_ok _ H) as Hu.
  destruct (cap <? rm_used rm) eqn:E1; [split_and!; try done; zb|].
  destruct (cap <=? rm_capacity rm) eqn:E2; [split_and!; try done; zb|].
  destruct (decide (cap <= 2 ^ 63)) as [Hle|]; cycle 1.
  { unfold xqc_pow2_upper. destruct (_ <? cap) eqn:E3; [|zb]. split_and!; try done; lia. }
  destruct (pow2_upper_spec cap Hle) as (j & Hj2 & -> & Hlej & _).
  assert (0 < 2 ^ j) by (apply Z.pow_pos_nonneg; lia).
  destruct (2 ^ j =? XQC_POW2_UPPER_ERROR) eqn:E3; [unfold XQC_POW2_UPPER_ERROR in E3; zb|].
  destruct mem; cbn [negb]; [|split_and!; try done; lia].
  assert (exists buf, (if rm_used rm =? 0 then Ok (junk (2 ^ j)) else resize_copy rm (2 ^ j) (junk (2 ^ j))) = Ok buf
    /\ zlen buf = 2 ^ j /\ ring buf (2 ^ j) (rm_sidx rm) (Z.to_nat (rm_used rm)) = rm_bytes rm) as (buf & -> & Hz & Hb).
  { destruct (rm_used rm =? 0) eqn:E4.
    - apply Z.eqb_eq in E4. exists (junk (2 ^ j)). rewrite Hj by lia. split_and!; [done..|].
      unfold rm_bytes. by rewrite E4.
    - pose proof (Hj (2 ^ j) ltac:(lia)) as Hzj. rewrite resize_copy_spec by (done || zb).
      eexists. split; [done|]. rewrite zlen_ring_put. split; [done|]. pose proof (zlen_rm_bytes rm H) as Zb.
      replace (Z.to_nat (rm_used rm)) with (length (rm_bytes rm)) by (unfold zlen in Zb; lia).
      apply ring_put_same; [done|done|zb]. }
  split_and!; cbn [rm_buf rm_capacity rm_mask rm_used rm_sidx rm_eidx]; try done; try zb.
  destruct H. constructor; cbn [rm_buf rm_capacity rm_mask rm_used rm_sidx rm_eidx]; try done; [|zb].
  right. by exists j.
Qed.

Lemma create_ok junk sz : 0 <= sz <= 2 ^ 63 -> (forall n, 0 <= n -> zlen (junk n) = n) ->
  exists rm, xqc_ring_mem_create true junk sz = Some rm /\ rm_ok rm /\ rm_bytes rm = [] /\ sz <= rm_capacity rm
  /\ rm_sidx rm = 0.
Proof.
  intros Hs Hj. unfold xqc_ring_mem_create. cbn [negb]. destruct (sz =? 0) eqn:E.
  - eexists. split; [done|]. split_and!; [|done|cbn; zb|done]. constructor; cbn; try done. by left.
  - destruct (pow2_upper_spec sz ltac:(lia)) as (j & Hj2 & -> & Hlej & _).
    assert (0 < 2 ^ j) by (apply Z.pow_pos_nonneg; lia).
    destruct (2 ^ j =? XQC_POW2_UPPER_ERROR) eqn:E3; [unfold XQC_POW2_UPPER_ERROR in E3; zb|].
    eexists. split; [done|]. split_and!; [|done|done|done].
    constructor; cbn [rm_buf rm_capacity rm_mask rm_used rm_sidx rm_eidx]; try done; try lia; [|apply Hj; lia].
    right. by exists j.
Qed.

End RingMem.
