(* ===== verification/VarBuf.v ===== *)
(** The growing buffer of src/src/common/utils/var_buf: bytes are appended, read from the front
    and given away; its memory grows in powers of two up to a limit. *)

From stdpp Require Import base numbers list.
From S2P Require Import Prelude RingArray RingMem.
Import RingArray RingMem.

Module VarBuf.

Definition SIZE_MAX : Z := 2 ^ 64 - 1.
Definition XQC_ERROR : Z := 1.

(** [data == NULL] is the empty list. *)
Record xqc_var_buf_t := mk_vb {
  vb_data : list Z;
  vb_buf_len : Z;
  vb_data_len : Z;
  vb_consumed : Z;
  vb_fin : Z;
  vb_limit : Z;
}.

(** The buffer with other contents and another length. *)
Definition vb_write (buf : xqc_var_buf_t) (data : list Z) (data_len : Z) : xqc_var_buf_t :=
  mk_vb data (vb_buf_len buf) data_len (vb_consumed buf) (vb_fin buf) (vb_limit buf).

Section ops.

(** [mem]: the allocations succeed; [junk] is what new memory holds. *)
Context (mem : bool) (junk : Z -> list Z).

Definition xqc_var_buf_create (capacity : Z) : option xqc_var_buf_t :=
  if negb mem then None
  else
    let capacity := if capacity =? 0 then 1 else capacity in
    Some (mk_vb (junk capacity) capacity 0 0 0 SIZE_MAX).

Definition xqc_var_buf_clear (buf : xqc_var_buf_t) : xqc_var_buf_t :=
  mk_vb (vb_data buf) (vb_buf_len buf) 0 0 0 (vb_limit buf).

Definition set_vb_limit (buf : xqc_var_buf_t) (limit : Z) : xqc_var_buf_t :=
  mk_vb (vb_data buf) (vb_buf_len buf) (vb_data_len buf) (vb_consumed buf) (vb_fin buf) limit.

Definition xqc_var_buf_realloc (buf : xqc_var_buf_t) (cap : Z) : res unit * xqc_var_buf_t :=
  let buf := if vb_limit buf =? 0 then set_vb_limit buf SIZE_MAX else buf in
  if vb_limit buf <? cap then (Err XQC_EMALLOC, buf)
  else
    let capacity := xqc_pow2_upper cap in
    if capacity =? XQC_POW2_UPPER_ERROR then (Err XQC_EMALLOC, buf)
    else
      let capacity := if vb_limit buf <? capacity then vb_limit buf else capacity in
      if negb mem then (Err XQC_EMALLOC, buf)
      else
        let new_data :=
          if (0 <? vb_buf_len buf) && (0 <? vb_data_len buf)
          then wr (junk capacity) 0 (sub_bytes (vb_data buf) 0 (vb_data_len buf)) else junk capacity in
        (Ok tt, mk_vb new_data capacity (vb_data_len buf) (vb_consumed buf) (vb_fin buf) (vb_limit buf)).

Definition xqc_var_buf_reduce (buf : xqc_var_buf_t) : res unit * xqc_var_buf_t :=
  let left := u64 (vb_data_len buf - vb_consumed buf) in
  let capacity := xqc_pow2_upper left in
  if capacity =? XQC_POW2_UPPER_ERROR then (Err XQC_EPARAM, buf)
  else if vb_limit buf <? capacity then (Err XQC_EMALLOC, buf)
  else if negb mem then (Err XQC_EMALLOC, buf)
  else
    let new_data :=
      if (0 <? vb_buf_len buf) && (0 <? left)
      then wr (junk capacity) 0 (sub_bytes (vb_data buf) (vb_consumed buf) left) else junk capacity in
    (Ok tt, mk_vb new_data capacity left 0 (vb_fin buf) (vb_limit buf)).

Definition xqc_var_buf_set_limit (buf : xqc_var_buf_t) (limit : Z) : res unit * xqc_var_buf_t :=
  if limit <? vb_data_len buf then (Err XQC_ERROR, buf)
  else
    let buf := set_vb_limit buf limit in
    if limit <? vb_buf_len buf then xqc_var_buf_realloc buf limit else (Ok tt, buf).

Definition xqc_var_buf_create_with_limit (capacity limit : Z) : option xqc_var_buf_t :=
  p ← xqc_var_buf_create capacity; Some (snd (xqc_var_buf_set_limit p limit)).

(** [while (dest->data_len + data_len > dest->buf_len)]; one reallocation is enough. *)
Fixpoint prepare_loop (fuel : nat) (buf : xqc_var_buf_t) (data_len : Z) : res unit * xqc_var_buf_t :=
  if vb_buf_len buf <? u64 (vb_data_len buf + data_len) then
    match fuel with
    | O => (Err XQC_EMALLOC, buf)
    | S f =>
        match xqc_var_buf_realloc buf (u64 (vb_data_len buf + data_len)) with
        | (Err e, buf) => (Err e, buf)
        | (Ok _, buf) => prepare_loop f buf data_len
        end
    end
  else (Ok tt, buf).

Definition xqc_var_buf_save_prepare (buf : xqc_var_buf_t) (data_len : Z) : res unit * xqc_var_buf_t :=
  prepare_loop 1 buf data_len.

Definition xqc_var_buf_take_over (buf : xqc_var_buf_t) : list Z * xqc_var_buf_t :=
  (vb_data buf, mk_vb [] 0 0 0 0 (vb_limit buf)).

Definition xqc_var_buf_save_data (buf : xqc_var_buf_t) (data : list Z) : res unit * xqc_var_buf_t :=
  if zlen data =? 0 then (Ok tt, buf)
  else
    match xqc_var_buf_save_prepare buf (zlen data) with
    | (Err e, buf) => (Err e, buf)
    | (Ok _, buf) =>
        (Ok tt, vb_write buf (wr (vb_data buf) (vb_data_len buf) data) (vb_data_len buf + zlen data))
    end.

End ops.

(** ** The bytes of a buffer *)

Definition vb_bytes (buf : xqc_var_buf_t) : list Z := sub_bytes (vb_data buf) 0 (vb_data_len buf).

Record vb_ok (buf : xqc_var_buf_t) : Prop := {
  vb_len_ok : zlen (vb_data buf) = vb_buf_len buf;
  vb_data_ok : 0 <= vb_data_len buf <= vb_buf_len buf;
  vb_size_ok : vb_buf_len buf <= 2 ^ 63;
  vb_limit_ok : 0 <= vb_limit buf < 2 ^ 64;
}.

Definition max_size (buf : xqc_var_buf_t) : Z :=
  if vb_limit buf =? 0 then 2 ^ 63 else Z.min (vb_limit buf) (2 ^ 63).

Lemma zlen_vb_bytes buf : vb_ok buf -> zlen (vb_bytes buf) = vb_data_len buf.
Proof. intros []. unfold vb_bytes. apply zlen_sub_bytes; lia. Qed.

Lemma write_app buf bs : vb_ok buf -> vb_data_len buf + zlen bs <= vb_buf_len buf ->
  let buf' := vb_write buf (wr (vb_data buf) (vb_data_len buf) bs) (vb_data_len buf + zlen bs) in
  vb_ok buf' /\ vb_bytes buf' = vb_bytes buf ++ bs /\ max_size buf' = max_size buf.
Proof.
  intros [B1 B2 B3 B4] Hfit. pose proof (zlen_nonneg bs). split; [split; simpl; rewrite ?zlen_wr; lia|]. split; [|done].
  unfold vb_bytes. simpl.
  assert (zlen (sub_bytes (vb_data buf) 0 (vb_data_len buf)) = vb_data_len buf) as Hz by (apply zlen_sub_bytes; lia).
  rewrite <- (bytes_at_sub (wr (vb_data buf) (vb_data_len buf) bs) 0 (sub_bytes (vb_data buf) 0 (vb_data_len buf) ++ bs)).
  { f_equal. rewrite zlen_app. lia. }
  apply bytes_at_app. rewrite Hz. split; [|apply bytes_at_wr; lia].
  apply bytes_at_wr_ne; [lia| |lia]. apply bytes_at_sub_bytes; lia.
Qed.

Lemma prepare_noop mem junk buf len : vb_ok buf -> 0 <= len -> vb_data_len buf + len <= vb_buf_len buf ->
  xqc_var_buf_save_prepare mem junk buf len = (Ok tt, buf).
Proof.
  intros [B1 B2 B3 B4] Hl Hfit. unfold xqc_var_buf_save_prepare. cbn [prepare_loop]. rewrite u64_small by lia. case_if; [zb|done].
Qed.

Section spec.

Context (junk : Z -> list Z) (Hjunk : forall n, 0 <= n -> zlen (junk n) = n).

Lemma realloc_spec buf cap : vb_ok buf -> vb_data_len buf <= cap <= max_size buf ->
  exists buf', xqc_var_buf_realloc true junk buf cap = (Ok tt, buf') /\ vb_ok buf' /\ vb_bytes buf' = vb_bytes buf
  /\ vb_data_len buf' = vb_data_len buf /\ cap <= vb_buf_len buf' /\ max_size buf' = max_size buf
  /\ vb_consumed buf' = vb_consumed buf /\ vb_fin buf' = vb_fin buf.
Proof.
  intros [H1 H2 H3 H4] Hc. unfold xqc_var_buf_realloc.
  set (b := if vb_limit buf =? 0 then set_vb_limit buf SIZE_MAX else buf).
  assert (vb_data b = vb_data buf /\ vb_buf_len b = vb_buf_len buf /\ vb_data_len b = vb_data_len buf
    /\ vb_consumed b = vb_consumed buf /\ vb_fin b = vb_fin buf /\ max_size b = max_size buf
    /\ 0 < vb_limit b < 2 ^ 64 /\ cap <= vb_limit b /\ cap <= 2 ^ 63) as (Hd & Hb & Hl & Hcons & Hf & Hm & Hlim & Hcl & Hc63).
  { unfold b, max_size in *. destruct (vb_limit buf =? 0) eqn:E; simpl; rewrite ?E; zify_bools;
      repeat split; try done; unfold SIZE_MAX; try lia. }
  rewrite Hd, Hb, Hl, Hcons, Hf. destruct (pow2_upper_spec cap Hc63) as (j & Hj & -> & Hcj & _).
  pose proof (Z.pow_pos_nonneg 2 j ltac:(lia) ltac:(lia)).
  assert (2 ^ j <= 2 ^ 63) by (apply Z.pow_le_mono_r; lia).
  case_if; [zb|]. case_if; [unfold XQC_POW2_UPPER_ERROR in *; zb|]. cbn [negb].
  set (capacity := if vb_limit b <? 2 ^ j then vb_limit b else 2 ^ j).
  assert (cap <= capacity <= 2 ^ 63 /\ 0 <= capacity) as (Hcc & Hc0) by (unfold capacity; case_if; zb).
  eexists. split; [done|]. assert (zlen (vb_bytes buf) = vb_data_len buf) as Hz by by apply zlen_vb_bytes.
  unfold max_size in Hm |- *. split_and!; try done; simpl; try lia.
  - split; simpl; try lia. case_if; rewrite ?zlen_wr; by apply Hjunk.
  - unfold vb_bytes in *. simpl. destruct (0 <? vb_data_len buf) eqn:E'; zify_bools.
    + replace (0 <? vb_buf_len buf) with true by (symmetry; apply Z.ltb_lt; lia). simpl. rewrite <- Hz at 2.
      apply bytes_at_sub. apply bytes_at_wr; [lia|]. rewrite Hjunk by lia. lia.
    + replace (vb_data_len buf) with 0 by lia. done.
Qed.

Lemma save_prepare_spec buf len : vb_ok buf -> 0 <= len -> vb_data_len buf + len <= max_size buf ->
  exists buf', xqc_var_buf_save_prepare true junk buf len = (Ok tt, buf') /\ vb_ok buf' /\ vb_bytes buf' = vb_bytes buf
  /\ vb_data_len buf' = vb_data_len buf /\ vb_data_len buf + len <= vb_buf_len buf' /\ max_size buf' = max_size buf
  /\ vb_consumed buf' = vb_consumed buf /\ vb_fin buf' = vb_fin buf.
Proof.
  intros Hok Hlen Hmax. unfold xqc_var_buf_save_prepare. cbn [prepare_loop]. pose proof (vb_data_ok _ Hok).
  assert (max_size buf <= 2 ^ 63) by (unfold max_size; case_if; lia). rewrite u64_small by lia.
  destruct (vb_buf_len buf <? vb_data_len buf + len) eqn:E; zify_bools; [|by exists buf].
  destruct (realloc_spec buf (vb_data_len buf + len) Hok ltac:(lia)) as (b & -> & Hb & Hby & Hdl & Hcap & Hrest).
  rewrite Hdl, u64_small by lia. case_if; [zb|]. by exists b.
Qed.

(** What is saved comes behind what was there. *)
Lemma save_data_spec buf data : vb_ok buf -> vb_data_len buf + zlen data <= max_size buf ->
  exists buf', xqc_var_buf_save_data true junk buf data = (Ok tt, buf') /\ vb_ok buf'
  /\ vb_bytes buf' = vb_bytes buf ++ data /\ vb_data_len buf' = vb_data_len buf + zlen data /\ max_size buf' = max_size buf
  /\ vb_consumed buf' = vb_consumed buf /\ vb_fin buf' = vb_fin buf.
Proof.
  intros Hok Hmax. unfold xqc_var_buf_save_data. destruct (zlen data =? 0) eqn:E; zify_bools.
  { exists buf. destruct data; [|unfold zlen in E; simpl in E; lia]. rewrite app_nil_r, zlen_nil, Z.add_0_r. done. }
  pose proof (zlen_nonneg data).
  destruct (save_prepare_spec buf (zlen data) Hok ltac:(lia) Hmax) as (b & -> & Hb & Hby & Hdl & Hcap & Hm & Hc & Hf).
  destruct (write_app b data Hb ltac:(lia)) as (Hok' & Hby' & Hm').
  eexists. split; [done|]. split; [exact Hok'|]. rewrite Hby', Hm', Hby. simpl. rewrite Hdl. by split_and!.
Qed.

End spec.

End VarBuf.
