(* ===== verification/DTable.v ===== *)
(** The dynamic table of QPACK (src/src/http3/qpack/dtable): a ring array of entries, a ring
    memory with their names and values, and for the encoder a two-dimensional hash table
    (src/src/common/utils/2d_hash). [None] is a run that reads memory which is freed or was
    never written. *)

From stdpp Require Import base numbers list.
From S2P Require Import Prelude RingArray RingMem.
Import RingArray RingMem.

Module DTable.

Definition XQC_QPACK_DYNAMIC_TABLE_REFERRED : Z := 910.
Definition XQC_QPACK_DYNAMIC_TABLE_VOID_ENTRY : Z := 911.
Definition XQC_QPACK_DYNAMIC_TABLE_NOT_ENOUGH : Z := 913.
Definition XQC_ERROR : Z := 1.
Definition XQC_INVALID_INDEX : Z := 0xFFFFFFFFFFFFFFFF.
Definition XQC_QPACK_ENTRY_SIZE_BASE : Z := 32.

(** ** Hashes *)

Definition xor_shift (h n : Z) : Z := Z.lxor h (h >> n).

(** The four bytes at the front, little endian. *)
Definition murmur_word (data : list Z) : Z :=
  rd data 0 .| (rd data 1 << 8) .| (rd data 2 << 16) .| (rd data 3 << 24).

Fixpoint murmur_loop (fuel : nat) (h : Z) (data : list Z) : Z * list Z :=
  match fuel with
  | O => (h, data)
  | S f =>
      if 4 <=? zlen data then
        let k := u32 (murmur_word data * 0x5bd1e995) in
        let k := u32 (xor_shift k 24 * 0x5bd1e995) in
        murmur_loop f (Z.lxor (u32 (h * 0x5bd1e995)) k) (drop 4 data)
      else (h, data)
  end.

Definition xqc_murmur_hash2 (data : list Z) : Z :=
  let '(h, rest) := murmur_loop (length data) (u32 (zlen data)) data in
  let h := if 3 <=? zlen rest then Z.lxor h (rd rest 2 << 16) else h in
  let h := if 2 <=? zlen rest then Z.lxor h (rd rest 1 << 8) else h in
  let h := if 1 <=? zlen rest then u32 (Z.lxor h (rd rest 0) * 0x5bd1e995) else h in
  let h := u32 (xor_shift h 13 * 0x5bd1e995) in
  xor_shift h 15.

Definition xqc_dtable_make_value_hash (value : list Z) : Z :=
  if zlen value =? 0 then 0 else rd value (zlen value - 1).

(** ** The two-dimensional hash table *)

Inductive xqc_2d_cmp_res_t :=
| XQC_2D_CMP_RES_NONE
| XQC_2D_CMP_RES_1D
| XQC_2D_CMP_RES_2D.

Definition res_rank (r : xqc_2d_cmp_res_t) : Z :=
  match r with XQC_2D_CMP_RES_NONE => 0 | XQC_2D_CMP_RES_1D => 1 | XQC_2D_CMP_RES_2D => 2 end.

Inductive xqc_2d_cmp_dim_t :=
| XQC_2D_CMP_DIM_1
| XQC_2D_CMP_DIM_2.

(** A pointer to an entry: the buffer of the ring array it points into, and the slot. *)
Definition ptr : Type := Z * Z.

Record xqc_2d_hash_node_t := mk_node {
  hash1 : Z;
  hash2 : Z;
  nd_data : ptr;
}.

(** A bucket that was not initialised is [None]. *)
Record xqc_2d_hash_table_t := mk_ht {
  ht_list : list (option (list xqc_2d_hash_node_t));
  ht_mask : Z;
}.

Definition xqc_2d_hash_table_create (mem : bool) (bkt_cnt : Z) : option xqc_2d_hash_table_t :=
  if negb mem then None
  else
    let bcnt := xqc_pow2_upper bkt_cnt in
    if bcnt =? XQC_POW2_UPPER_ERROR then None
    else Some (mk_ht (replicate (Z.to_nat bkt_cnt) (Some []) ++ replicate (Z.to_nat (bcnt - bkt_cnt)) None)
                 (u64 (bcnt - 1))).

Definition ht_bucket (ht : xqc_2d_hash_table_t) (h1 : Z) : option (list xqc_2d_hash_node_t) :=
  nth (Z.to_nat (h1 .& ht_mask ht)) (ht_list ht) None.

Definition ht_set (ht : xqc_2d_hash_table_t) (h1 : Z) (l : list xqc_2d_hash_node_t) : xqc_2d_hash_table_t :=
  mk_ht (<[Z.to_nat (h1 .& ht_mask ht) := Some l]> (ht_list ht)) (ht_mask ht).

Section hash.

(** The callbacks. *)
Context (dcmp : ptr -> ptr -> option Z).
Context (vcmp : ptr -> xqc_2d_cmp_dim_t -> option xqc_2d_cmp_res_t).

Fixpoint lookup_data (l : list xqc_2d_hash_node_t) (data : ptr) : option bool :=
  match l with
  | [] => Some false
  | n :: rest => dres ← dcmp (nd_data n) data; if dres =? 0 then Some true else lookup_data rest data
  end.

Definition xqc_2d_hash_table_add (mem : bool) (ht : xqc_2d_hash_table_t) (first second : Z) (data : ptr)
    : option (res unit * xqc_2d_hash_table_t) :=
  l ← ht_bucket ht first;
  found ← lookup_data l data;
  if found : bool then Some (Ok tt, ht)
  else if negb mem then Some (Err XQC_EMALLOC, ht)
  else Some (Ok tt, ht_set ht first (mk_node first second data :: l)).

Fixpoint remove_node (l : list xqc_2d_hash_node_t) (h1 h2 : Z) (data : ptr)
    : option (list xqc_2d_hash_node_t) :=
  match l with
  | [] => Some []
  | n :: rest =>
      same ← (if (hash1 n =? h1) && (hash2 n =? h2)
              then d ← dcmp (nd_data n) data; Some (d =? 0) else Some false);
      if same : bool then Some rest else (rest' ← remove_node rest h1 h2 data; Some (n :: rest'))
  end.

Definition xqc_2d_hash_table_remove (ht : xqc_2d_hash_table_t) (h1 h2 : Z) (data : ptr)
    : option (res unit * xqc_2d_hash_table_t) :=
  l ← ht_bucket ht h1;
  l' ← remove_node l h1 h2 data;
  Some (Ok tt, ht_set ht h1 l').

Fixpoint lookup_loop (l : list xqc_2d_hash_node_t) (h1 h2 : Z) (best : xqc_2d_cmp_res_t) (data : option ptr)
    : option (xqc_2d_cmp_res_t * option ptr) :=
  match l with
  | [] => Some (best, data)
  | n :: rest =>
      if hash1 n =? h1 then
        if hash2 n =? h2 then
          r ← vcmp (nd_data n) XQC_2D_CMP_DIM_2;
          if res_rank best <? res_rank r then
            match r with
            | XQC_2D_CMP_RES_2D => Some (r, Some (nd_data n))
            | _ => lookup_loop rest h1 h2 r (Some (nd_data n))
            end
          else lookup_loop rest h1 h2 best data
        else
          r ← vcmp (nd_data n) XQC_2D_CMP_DIM_1;
          match r, best with
          | XQC_2D_CMP_RES_1D, XQC_2D_CMP_RES_1D => lookup_loop rest h1 h2 best data
          | XQC_2D_CMP_RES_1D, _ => lookup_loop rest h1 h2 XQC_2D_CMP_RES_1D (Some (nd_data n))
          | _, _ => lookup_loop rest h1 h2 best data
          end
      else lookup_loop rest h1 h2 best data
  end.

Definition xqc_2d_hash_lookup (ht : xqc_2d_hash_table_t) (h1 h2 : Z)
    : option (xqc_2d_cmp_res_t * option ptr) :=
  l ← ht_bucket ht h1; lookup_loop l h1 h2 XQC_2D_CMP_RES_NONE None.

End hash.

(** ** Entries *)

Record xqc_dtable_entry_t := mk_entry {
  nidx : Z;
  nlen : Z;
  vidx : Z;
  vlen : Z;
  abs_index : Z;
  nhash : Z;
  vhash : Z;
  en_sum : Z;
}.

Record xqc_dtable_t := mk_dt {
  ht2d : option xqc_2d_hash_table_t;
  entries : xqc_rarray_t xqc_dtable_entry_t;
  rmem : xqc_ring_mem_t;
  insert_cnt : Z;
  first_idx : Z;
  dt_capacity : Z;
  dt_used : Z;
  byte_sum : Z;
  min_ref : Z;
}.

Definition set_ht (dt : xqc_dtable_t) (h : option xqc_2d_hash_table_t) : xqc_dtable_t :=
  mk_dt h (entries dt) (rmem dt) (insert_cnt dt) (first_idx dt) (dt_capacity dt) (dt_used dt) (byte_sum dt) (min_ref dt).
Definition set_entries (dt : xqc_dtable_t) (e : xqc_rarray_t xqc_dtable_entry_t) : xqc_dtable_t :=
  mk_dt (ht2d dt) e (rmem dt) (insert_cnt dt) (first_idx dt) (dt_capacity dt) (dt_used dt) (byte_sum dt) (min_ref dt).
Definition set_rmem (dt : xqc_dtable_t) (r : xqc_ring_mem_t) : xqc_dtable_t :=
  mk_dt (ht2d dt) (entries dt) r (insert_cnt dt) (first_idx dt) (dt_capacity dt) (dt_used dt) (byte_sum dt) (min_ref dt).
Definition set_counts (dt : xqc_dtable_t) (icnt first used sum : Z) : xqc_dtable_t :=
  mk_dt (ht2d dt) (entries dt) (rmem dt) icnt first (dt_capacity dt) used sum (min_ref dt).
Definition set_cap (dt : xqc_dtable_t) (c : Z) : xqc_dtable_t :=
  mk_dt (ht2d dt) (entries dt) (rmem dt) (insert_cnt dt) (first_idx dt) c (dt_used dt) (byte_sum dt) (min_ref dt).
Definition set_ref (dt : xqc_dtable_t) (r : Z) : xqc_dtable_t :=
  mk_dt (ht2d dt) (entries dt) (rmem dt) (insert_cnt dt) (first_idx dt) (dt_capacity dt) (dt_used dt) (byte_sum dt) r.

(** [*ptr]: the pointer must point into the current buffer. *)
Definition deref (es : xqc_rarray_t xqc_dtable_entry_t) (p : ptr) : option xqc_dtable_entry_t :=
  if fst p =? ra_alloc es then ra_at es (snd p) else None.

Definition xqc_dtable_entry_size (name_len value_len : Z) : Z :=
  u64 (XQC_QPACK_ENTRY_SIZE_BASE + name_len + value_len).

Definition xqc_dtable_max_entry_cnt (capacity : Z) : Z := capacity / XQC_QPACK_ENTRY_SIZE_BASE.

(** ** The callbacks *)

Definition xqc_dtable_compare_entry (es : xqc_rarray_t xqc_dtable_entry_t) (p1 p2 : ptr) : option Z :=
  e1 ← deref es p1;
  e2 ← deref es p2;
  Some (if abs_index e1 =? abs_index e2 then 0 else if abs_index e2 <? abs_index e1 then 1 else -1).

Definition compare_nv (rm : xqc_ring_mem_t) (e : xqc_dtable_entry_t) (name value : list Z)
    (dims : xqc_2d_cmp_dim_t) : xqc_2d_cmp_res_t :=
  if nlen e =? zlen name then
    if xqc_ring_mem_cmp rm (nidx e) name =? 0 then
      match dims with
      | XQC_2D_CMP_DIM_1 => XQC_2D_CMP_RES_1D
      | XQC_2D_CMP_DIM_2 =>
          if vlen e =? zlen value then
            if xqc_ring_mem_cmp rm (vidx e) value =? 0 then XQC_2D_CMP_RES_2D else XQC_2D_CMP_RES_1D
          else XQC_2D_CMP_RES_1D
      end
    else XQC_2D_CMP_RES_NONE
  else XQC_2D_CMP_RES_NONE.

Definition xqc_dtable_compare_nv (dt : xqc_dtable_t) (name value : list Z) (p : ptr) (dims : xqc_2d_cmp_dim_t)
    : option xqc_2d_cmp_res_t :=
  e ← deref (entries dt) p; Some (compare_nv (rmem dt) e name value dims).

(** ** Operations *)

(** [esize] is the size of an entry. *)
Definition xqc_dtable_create (mem : bool) (esize htable_buckets : Z) (need_hash : bool) : option xqc_dtable_t :=
  if htable_buckets =? 0 then None
  else
    ht ← (if need_hash then h ← xqc_2d_hash_table_create mem htable_buckets; Some (Some h) else Some None);
    rm ← xqc_ring_mem_create mem (fun _ => []) 0;
    ra ← xqc_rarray_create mem 0 esize;
    Some (mk_dt ht ra rm 0 0 0 0 0 XQC_INVALID_INDEX).

Definition set_nv (e : xqc_dtable_entry_t) (ni nl vi vl : Z) : xqc_dtable_entry_t :=
  mk_entry ni nl vi vl (abs_index e) (nhash e) (vhash e) (en_sum e).

Definition xqc_dtable_enqueue_nv (rm : xqc_ring_mem_t) (e : xqc_dtable_entry_t) (name value : list Z)
    : res unit * xqc_ring_mem_t * xqc_dtable_entry_t :=
  match xqc_ring_mem_enqueue rm name with
  | (Err err, rm) => (Err err, rm, e)
  | (Ok ni, rm) =>
      let e := set_nv e ni (nlen e) (vidx e) (vlen e) in
      if 0 <? zlen value then
        match xqc_ring_mem_enqueue rm value with
        | (Err err, rm) => (Err err, rm, e)
        | (Ok vi, rm) => (Ok tt, rm, set_nv e ni (zlen name) vi (zlen value))
        end
      else (Ok tt, rm, set_nv e ni (zlen name) (vidx e) (zlen value))
  end.

Definition xqc_dtable_dequeue_nv (rm : xqc_ring_mem_t) (e : xqc_dtable_entry_t) : res unit * xqc_ring_mem_t :=
  match (if 0 <? nlen e then xqc_ring_mem_dequeue rm (nidx e) (nlen e) else (Ok tt, rm)) with
  | (Err err, rm) => (Err err, rm)
  | (Ok _, rm) => if 0 <? vlen e then xqc_ring_mem_dequeue rm (vidx e) (vlen e) else (Ok tt, rm)
  end.

Definition xqc_dtable_pop_entry (dt : xqc_dtable_t) : option (res unit * xqc_dtable_t) :=
  match xqc_rarray_front (entries dt) with
  | None => Some (Err XQC_QPACK_DYNAMIC_TABLE_VOID_ENTRY, dt)
  | Some s =>
      e ← ra_at (entries dt) s;
      if min_ref dt <=? abs_index e then Some (Err XQC_QPACK_DYNAMIC_TABLE_REFERRED, dt)
      else
        match xqc_dtable_dequeue_nv (rmem dt) e with
        | (Err err, rm) => Some (Err err, set_rmem dt rm)
        | (Ok _, rm) =>
            let dt := set_rmem dt rm in
            ht ← match ht2d dt with
                 | None => Some None
                 | Some ht =>
                     '(_, ht) ← xqc_2d_hash_table_remove (xqc_dtable_compare_entry (entries dt)) ht
                                  (nidx e) (vidx e) (ra_alloc (entries dt), s);
                     Some (Some ht)
                 end;
            let dt := set_ht dt ht in
            match xqc_rarray_pop_front (entries dt) with
            | (false, es) => Some (Err XQC_ERROR, set_entries dt es)
            | (true, es) =>
                let dt := set_entries dt es in
                Some (Ok tt, set_counts dt (insert_cnt dt) (u64 (first_idx dt + 1))
                               (u64 (dt_used dt - xqc_dtable_entry_size (nlen e) (vlen e))) (byte_sum dt))
            end
        end
  end.

Definition xqc_dtable_get_entry_by_abs_idx (dt : xqc_dtable_t) (idx : Z) : option Z :=
  if idx <? first_idx dt then None else xqc_rarray_get (entries dt) (idx - first_idx dt).

Definition xqc_dtable_get_entry_size (dt : xqc_dtable_t) (idx : Z) : option (res Z) :=
  match xqc_dtable_get_entry_by_abs_idx dt idx with
  | None => Some (Err XQC_QPACK_DYNAMIC_TABLE_VOID_ENTRY)
  | Some s => e ← ra_at (entries dt) s; Some (Ok (xqc_dtable_entry_size (nlen e) (vlen e)))
  end.

(** [while (space > dt->capacity - dt->used)]; every round pops an entry. *)
Fixpoint pop_loop (fuel : nat) (dt : xqc_dtable_t) (space : Z) : option (res unit * xqc_dtable_t) :=
  if u64 (dt_capacity dt - dt_used dt) <? space then
    match fuel with
    | O => None
    | S f =>
        '(r, dt) ← xqc_dtable_pop_entry dt;
        match r with Err e => Some (Err e, dt) | Ok _ => pop_loop f dt space end
    end
  else Some (Ok tt, dt).

(** Whether the entries that are not referred to make up for the space. *)
Definition check_space (dt : xqc_dtable_t) (space : Z) : option (res unit) :=
  if (u64 (dt_capacity dt - dt_used dt) <? space) && negb (min_ref dt =? XQC_INVALID_INDEX) then
    match xqc_rarray_front (entries dt) with
    | None => Some (Err XQC_QPACK_DYNAMIC_TABLE_VOID_ENTRY)
    | Some s =>
        match xqc_dtable_get_entry_by_abs_idx dt (min_ref dt) with
        | None => Some (Err XQC_QPACK_DYNAMIC_TABLE_VOID_ENTRY)
        | Some m =>
            first ← ra_at (entries dt) s;
            entry_min_ref ← ra_at (entries dt) m;
            let available := u64 (dt_capacity dt - dt_used dt + u64 (en_sum entry_min_ref - en_sum first)) in
            Some (if available <? space then Err XQC_QPACK_DYNAMIC_TABLE_NOT_ENOUGH else Ok tt)
        end
    end
  else Some (Ok tt).

Definition xqc_dtable_make_space (dt : xqc_dtable_t) (space : Z) : option (res unit * xqc_dtable_t) :=
  if dt_capacity dt <? space then Some (Err XQC_QPACK_DYNAMIC_TABLE_NOT_ENOUGH, dt)
  else
    r ← check_space dt space;
    match r with
    | Err e => Some (Err e, dt)
    | Ok _ => pop_loop (S (Z.to_nat (ra_count (entries dt)))) dt space
    end.

Definition put_entry (dt : xqc_dtable_t) (slot : Z) (e : xqc_dtable_entry_t) : xqc_dtable_t :=
  set_entries dt (ra_store (entries dt) slot e).

(** From the new element of the array on; [mem] is the allocation of a hash node. *)
Definition fill_entry (mem : bool) (dt : xqc_dtable_t) (slot : Z) (name value : list Z) (space : Z)
    : option (res Z * xqc_dtable_t) :=
  let e := mk_entry 0 0 0 0 (insert_cnt dt) 0 0 0 in
  let '(r, rm, e) := xqc_dtable_enqueue_nv (rmem dt) e name value in
  let dt := put_entry (set_rmem dt rm) slot e in
  match r with
  | Err err => Some (Err err, dt)
  | Ok _ =>
      let nh := xqc_murmur_hash2 name in
      let vh := xqc_dtable_make_value_hash value in
      '(r, ht) ← match ht2d dt with
                 | None => Some (Ok tt, None)
                 | Some ht =>
                     '(r, ht) ← xqc_2d_hash_table_add (xqc_dtable_compare_entry (entries dt)) mem ht nh vh
                                  (ra_alloc (entries dt), slot);
                     Some (r, Some ht)
                 end;
      let dt := set_ht dt ht in
      match (r : res unit) with
      | Err err => Some (Err err, dt)
      | Ok _ =>
          let e := mk_entry (nidx e) (nlen e) (vidx e) (vlen e) (abs_index e) nh vh (byte_sum dt) in
          let dt := put_entry dt slot e in
          Some (Ok (abs_index e),
                set_counts dt (u64 (insert_cnt dt + 1)) (first_idx dt) (u64 (dt_used dt + space))
                  (u64 (byte_sum dt + space)))
      end
  end.

Definition xqc_dtable_add (mem : bool) (dt : xqc_dtable_t) (name value : list Z) : option (res Z * xqc_dtable_t) :=
  if zlen name =? 0 then Some (Err XQC_EPARAM, dt)
  else
    let space := xqc_dtable_entry_size (zlen name) (zlen value) in
    if dt_capacity dt <? space then Some (Err XQC_ELIMIT, dt)
    else
      '(r, dt) ← xqc_dtable_make_space dt space;
      match r with
      | Err e => Some (Err e, dt)
      | Ok _ =>
          match xqc_rarray_push (entries dt) with
          | (None, es) => Some (Err XQC_QPACK_DYNAMIC_TABLE_VOID_ENTRY, set_entries dt es)
          | (Some slot, es) => fill_entry mem (set_entries dt es) slot name value space
          end
      end.

(** One field of an entry, copied into a buffer with room for it and a terminator. *)
Definition copy_field (rm : xqc_ring_mem_t) (idx len : Z) : res (list Z) :=
  if 0 <? len then xqc_ring_mem_copy rm idx len (len + 1) else Ok [].

(** [want_value]: the caller passes a buffer for the value. *)
Definition xqc_dtable_get_nv (dt : xqc_dtable_t) (idx : Z) (want_value : bool) : option (res (list Z * list Z)) :=
  match xqc_dtable_get_entry_by_abs_idx dt idx with
  | None => Some (Err XQC_QPACK_DYNAMIC_TABLE_VOID_ENTRY)
  | Some s =>
      e ← ra_at (entries dt) s;
      Some (match copy_field (rmem dt) (nidx e) (nlen e) with
            | Err err => Err err
            | Ok name =>
                if want_value then
                  match copy_field (rmem dt) (vidx e) (vlen e) with
                  | Err err => Err err
                  | Ok value => Ok (name, value)
                  end
                else Ok (name, [])
            end)
  end.

Inductive xqc_nv_ref_type_t :=
| XQC_NV_ERROR
| XQC_NV_REF_NONE
| XQC_NV_REF_NAME
| XQC_NV_REF_NAME_AND_VALUE.

(** The reference, and the absolute index of the entry when there is one. *)
Definition xqc_dtable_lookup (dt : xqc_dtable_t) (name value : list Z) : option (xqc_nv_ref_type_t * option Z) :=
  if dt_used dt =? 0 then Some (XQC_NV_REF_NONE, None)
  else
    match ht2d dt with
    | None => Some (XQC_NV_ERROR, None)
    | Some ht =>
        '(r, p) ← xqc_2d_hash_lookup (xqc_dtable_compare_nv dt name value) ht (xqc_murmur_hash2 name)
                    (xqc_dtable_make_value_hash value);
        match r, p with
        | XQC_2D_CMP_RES_NONE, _ => Some (XQC_NV_REF_NONE, None)
        | XQC_2D_CMP_RES_1D, Some p => e ← deref (entries dt) p; Some (XQC_NV_REF_NAME, Some (abs_index e))
        | XQC_2D_CMP_RES_2D, Some p => e ← deref (entries dt) p; Some (XQC_NV_REF_NAME_AND_VALUE, Some (abs_index e))
        | _, None => None
        end
    end.

Definition xqc_dtable_set_min_ref (dt : xqc_dtable_t) (ref : Z) : option (res unit * xqc_dtable_t) :=
  if ref =? min_ref dt then Some (Ok tt, dt)
  else
    match xqc_rarray_front (entries dt) with
    | None => Some (Err XQC_QPACK_DYNAMIC_TABLE_VOID_ENTRY, dt)
    | Some s =>
        e ← ra_at (entries dt) s;
        let sidx := abs_index e in
        let eidx := u64 (sidx + xqc_rarray_size (entries dt)) in
        Some (if negb (ref =? XQC_INVALID_INDEX) && ((ref <? sidx) || (eidx <=? ref))
              then (Err XQC_QPACK_DYNAMIC_TABLE_VOID_ENTRY, dt) else (Ok tt, set_ref dt ref))
    end.

(** [mem1], [mem2]: the allocations for the ring memory and the array. *)
Definition resize_table (mem1 mem2 : bool) (junk : Z -> list Z) (dt : xqc_dtable_t) (capacity : Z)
    : res unit * xqc_dtable_t :=
  let '(r, rm) := xqc_ring_mem_resize mem1 junk (rmem dt) capacity in
  let dt := set_rmem dt rm in
  match r with
  | Err e => (Err e, dt)
  | Ok _ =>
      let '(r, es) := xqc_rarray_resize mem2 (entries dt) (xqc_dtable_max_entry_cnt capacity) in
      let dt := set_entries dt es in
      match r with Err e => (Err e, dt) | Ok _ => (Ok tt, set_cap dt capacity) end
  end.

Definition xqc_dtable_set_capacity (mem1 mem2 : bool) (junk : Z -> list Z) (dt : xqc_dtable_t) (capacity : Z)
    : option (res unit * xqc_dtable_t) :=
  '(r, dt) ← (if capacity <? dt_capacity dt then xqc_dtable_make_space dt (dt_capacity dt - capacity)
              else Some (Ok tt, dt));
  match r with
  | Err e => Some (Err e, dt)
  | Ok _ => Some (resize_table mem1 mem2 junk dt capacity)
  end.

Definition xqc_dtable_duplicate (mem : bool) (dt : xqc_dtable_t) (idx : Z) : option (res Z * xqc_dtable_t) :=
  nv ← xqc_dtable_get_nv dt idx true;
  match nv with
  | Err _ => Some (Err XQC_QPACK_DYNAMIC_TABLE_VOID_ENTRY, dt)
  | Ok (name, value) =>
      '(r, dt) ← xqc_dtable_make_space dt (xqc_dtable_entry_size (zlen name) (zlen value));
      match r with
      | Err _ => Some (Err XQC_ELIMIT, dt)
      | Ok _ => xqc_dtable_add mem dt name value
      end
  end.

Definition xqc_dtable_get_insert_cnt (dt : xqc_dtable_t) : Z := insert_cnt dt.

Definition xqc_dtable_is_entry_draining (dt : xqc_dtable_t) (idx : Z) : option (res bool) :=
  match xqc_dtable_get_entry_by_abs_idx dt idx with
  | None => Some (Err XQC_EPARAM)
  | Some s =>
      e ← ra_at (entries dt) s;
      let safe_offset := u64 (dt_capacity dt - Z.min 512 (dt_capacity dt / 8)) in
      Some (Ok (safe_offset <? u64 (byte_sum dt - en_sum e)))
  end.

End DTable.
