(* ===== verification/DTableSpec.v ===== *)
(** The dynamic table of QPACK refines a list of name-value pairs from which the oldest are
    evicted: every operation gives what the list gives, no entry that is referred to is
    evicted, and a lookup finds only entries that match. *)

From stdpp Require Import base numbers list relations.
From S2P Require Import Prelude RingArray RingMem DTable.
Import RingArray RingMem DTable.

Module DTableSpec.

(** ** The abstract table *)

Definition nv : Type := list Z * list Z.

Definition size_of (p : nv) : Z := 32 + zlen (fst p) + zlen (snd p).

Definition total (l : list nv) : Z := foldr (fun p acc => size_of p + acc) 0 l.

(** Oldest entries leave until [space] bytes are free. *)
Fixpoint evict (cap space : Z) (l : list nv) : list nv :=
  if total l + space <=? cap then l else match l with [] => [] | _ :: rest => evict cap space rest end.

(** [t_ref] is the first entry that must stay, [t_added] the size of all entries that were ever
    added, [t_hash] tells whether there is a hash table. *)
Record table := mk_table {
  t_first : Z;
  t_nvs : list nv;
  t_cap : Z;
  t_ref : option Z;
  t_added : Z;
  t_hash : bool;
}.

Definition t_end (t : table) : Z := t_first t + Z.of_nat (length (t_nvs t)).

(** How many entries may be evicted. *)
Definition evictable (t : table) : nat :=
  match t_ref t with Some r => Z.to_nat (r - t_first t) | None => length (t_nvs t) end.

Definition ref_value (r : option Z) : Z := match r with Some i => i | None => XQC_INVALID_INDEX end.

Definition evicted (t : table) (space : Z) : table :=
  let l := evict (t_cap t) space (t_nvs t) in
  mk_table (t_end t - Z.of_nat (length l)) l (t_cap t) (t_ref t) (t_added t) (t_hash t).

(** Eviction for [space] bytes, when it is possible. *)
Definition t_make_space (t : table) (space : Z) : option table :=
  if total (drop (evictable t) (t_nvs t)) + space <=? t_cap t then Some (evicted t space) else None.

Definition t_nth (t : table) (idx : Z) : option nv :=
  if idx <? t_first t then None else t_nvs t !! Z.to_nat (idx - t_first t).

Definition t_push (t : table) (n v : list Z) : table :=
  mk_table (t_first t) (t_nvs t ++ [(n, v)]) (t_cap t) (t_ref t) (t_added t + size_of (n, v)) (t_hash t).

Definition t_add (t : table) (n v : list Z) : res Z * table :=
  if zlen n =? 0 then (Err XQC_EPARAM, t)
  else if t_cap t <? size_of (n, v) then (Err XQC_ELIMIT, t)
  else match t_make_space t (size_of (n, v)) with
       | None => (Err XQC_QPACK_DYNAMIC_TABLE_NOT_ENOUGH, t)
       | Some t' => (Ok (t_end t), t_push t' n v)
       end.

Definition t_duplicate (t : table) (idx : Z) : res Z * table :=
  match t_nth t idx with
  | None => (Err XQC_QPACK_DYNAMIC_TABLE_VOID_ENTRY, t)
  | Some (n, v) =>
      match t_make_space t (size_of (n, v)) with
      | None => (Err XQC_ELIMIT, t)
      | Some t' => (Ok (t_end t), t_push t' n v)
      end
  end.

Definition with_ref (t : table) (r : option Z) : table :=
  mk_table (t_first t) (t_nvs t) (t_cap t) r (t_added t) (t_hash t).

(** A referred entry is in the table; [XQC_INVALID_INDEX] is no entry. *)
Definition t_set_ref (t : table) (ref : Z) : res unit * table :=
  if bool_decide (ref = ref_value (t_ref t)) then (Ok tt, t)
  else if bool_decide (t_nvs t = []) then (Err XQC_QPACK_DYNAMIC_TABLE_VOID_ENTRY, t)
  else if ref =? XQC_INVALID_INDEX then (Ok tt, with_ref t None)
  else if (t_first t <=? ref) && (ref <? t_end t) then (Ok tt, with_ref t (Some ref))
  else (Err XQC_QPACK_DYNAMIC_TABLE_VOID_ENTRY, t).

Definition with_cap (t : table) (c : Z) : table :=
  mk_table (t_first t) (t_nvs t) c (t_ref t) (t_added t) (t_hash t).

Definition t_set_capacity (t : table) (c : Z) : res unit * table :=
  if c <? t_cap t then
    match t_make_space t (t_cap t - c) with
    | None => (Err XQC_QPACK_DYNAMIC_TABLE_NOT_ENOUGH, t)
    | Some t' => (Ok tt, with_cap t' c)
    end
  else (Ok tt, with_cap t c).

(** An entry is draining when more than seven eighths of the table, or all but 512 bytes of it,
    were added from it on. *)
Definition t_draining (t : table) (idx : Z) : res bool :=
  match t_nth t idx with
  | None => Err XQC_EPARAM
  | Some _ => Ok (t_cap t - Z.min 512 (t_cap t / 8) <? total (drop (Z.to_nat (idx - t_first t)) (t_nvs t)))
  end.

Lemma size_pos p : 32 <= size_of p.
Proof. unfold size_of. pose proof (zlen_nonneg (fst p)). pose proof (zlen_nonneg (snd p)). lia. Qed.

Lemma total_nonneg l : 0 <= total l.
Proof. induction l as [|p l IH]; simpl; [lia|]. pose proof (size_pos p). lia. Qed.

Lemma total_app l k : total (l ++ k) = total l + total k.
Proof. induction l as [|p l IH]; simpl; [done|]. lia. Qed.

Lemma total_count l : 32 * Z.of_nat (length l) <= total l.
Proof. induction l as [|p l IH]; simpl; [done|]. pose proof (size_pos p). lia. Qed.

Lemma total_drop l n : total (drop n l) <= total l.
Proof. rewrite <- (take_drop n l) at 2. rewrite total_app. pose proof (total_nonneg (take n l)). lia. Qed.

(** What is evicted is a part of the front. *)
Lemma evict_drop cap space l : exists k, evict cap space l = drop k l /\ (k <= length l)%nat.
Proof.
  induction l as [|p l IH]; simpl; case_if; try by exists O; simpl; split; [done|lia].
  destruct IH as (k & -> & Hk). exists (S k). simpl. split; [done|lia].
Qed.

Lemma evict_fits cap space l : space <= cap -> total (evict cap space l) + space <= cap.
Proof. intros Hs. induction l as [|p l IH]; simpl; case_if; try zb; simpl in *; lia. Qed.

(** It is the smallest part that makes room. *)
Lemma evict_least cap space l n : total (drop n l) + space <= cap ->
  exists k, evict cap space l = drop k l /\ (k <= n)%nat.
Proof.
  revert l. induction n as [|n IH]; intros l Hf.
  - exists O. rewrite drop_0 in *. split; [|done]. destruct l; simpl in *; case_if; (done || zb).
  - destruct l as [|p l]; [exists O; simpl; case_if; split; (done || lia)|]. simpl in *. case_if; [exists O; split; [done|lia]|].
    destruct (IH l Hf) as (k & -> & Hk). exists (S k). split; [done|lia].
Qed.

(** ** Representation *)

(** The entries lie one behind the other in the ring memory, from index [pos] on; the sums count
    the bytes that were ever added before them. *)
Fixpoint laid (pos first sum : Z) (es : list xqc_dtable_entry_t) (l : list nv) : Prop :=
  match es, l with
  | [], [] => True
  | e :: es, (n, v) :: l =>
      0 < zlen n /\ nidx e = pos /\ nlen e = zlen n /\ vlen e = zlen v
      /\ vidx e = (if 0 <? zlen v then pos + zlen n else 0)
      /\ abs_index e = first /\ en_sum e = sum
      /\ laid (pos + zlen n + zlen v) (first + 1) (sum + size_of (n, v)) es l
  | _, _ => False
  end.

Definition content (l : list nv) : list Z := concat (map (fun p => fst p ++ snd p) l).

(** The entries that the hash table may point to: live ones, and evicted ones, whose name lies
    before the first index of the ring memory. *)
Definition loc (e : xqc_dtable_entry_t) : Z * Z * Z * Z * Z := (nidx e, nlen e, vidx e, vlen e, abs_index e).

Definition known (es : list xqc_dtable_entry_t) (sidx cnt : Z) (e : xqc_dtable_entry_t) : Prop :=
  (loc e ∈ loc <$> es \/ nidx e < sidx) /\ 0 <= nidx e < 2 ^ 64 /\ 0 <= abs_index e < cnt.

Definition node_ok (ra : xqc_rarray_t xqc_dtable_entry_t) (es : list xqc_dtable_entry_t) (sidx cnt : Z)
    (n : xqc_2d_hash_node_t) : Prop :=
  exists e, deref ra (nd_data n) = Some e /\ 0 <= snd (nd_data n) < ra_cap ra /\ known es sidx cnt e.

Definition bucket_ok ra es sidx cnt (b : option (list xqc_2d_hash_node_t)) : Prop :=
  exists l, b = Some l /\ Forall (node_ok ra es sidx cnt) l.

Record ht_ok ra es sidx cnt (ht : xqc_2d_hash_table_t) : Prop := {
  ht_size : exists k, 0 <= k /\ Z.of_nat (length (ht_list ht)) = 2 ^ k /\ ht_mask ht = Z.ones k;
  ht_nodes : Forall (bucket_ok ra es sidx cnt) (ht_list ht);
}.

Definition has {A} (o : option A) : bool := match o with Some _ => true | None => false end.

Definition opt_ht_ok ra es sidx cnt (ht : option xqc_2d_hash_table_t) : Prop :=
  match ht with Some ht => ht_ok ra es sidx cnt ht | None => True end.

(** The table [dt] with entries [es] is the abstract one. *)
Record rep (es : list xqc_dtable_entry_t) (dt : xqc_dtable_t) (t : table) : Prop := {
  rep_ra : ra_ok (entries dt);
  rep_rm : rm_ok (rmem dt);
  rep_es : ra_list (entries dt) = Some <$> es;
  rep_laid : laid (rm_sidx (rmem dt)) (t_first t) (t_added t - total (t_nvs t)) es (t_nvs t);
  rep_bytes : rm_bytes (rmem dt) = content (t_nvs t);
  rep_first : first_idx dt = t_first t;
  rep_cnt : insert_cnt dt = t_end t;
  rep_first_ok : 0 <= t_first t;
  rep_pos : rm_sidx (rmem dt) = t_added t - total (t_nvs t) - 32 * t_first t;
  rep_cap : dt_capacity dt = t_cap t;
  rep_mem : 0 <= t_cap t <= rm_capacity (rmem dt);
  rep_slots : t_cap t / 32 <= ra_cap (entries dt);
  rep_used : dt_used dt = total (t_nvs t);
  rep_fits : total (t_nvs t) <= t_cap t;
  rep_sum : byte_sum dt = t_added t;
  rep_sum_ok : t_added t < 2 ^ 64;
  rep_ref : min_ref dt = ref_value (t_ref t);
  rep_ref_ok : forall r, t_ref t = Some r -> t_first t <= r < t_end t;
  rep_ht : opt_ht_ok (entries dt) es (rm_sidx (rmem dt)) (t_end t) (ht2d dt);
  rep_hash : has (ht2d dt) = t_hash t;
}.

(** ** The layout *)

Lemma content_app l k : content (l ++ k) = content l ++ content k.
Proof. unfold content. by rewrite map_app, concat_app. Qed.

Lemma content_cons n v l : content ((n, v) :: l) = n ++ v ++ content l.
Proof. unfold content. simpl. by rewrite <- app_assoc. Qed.

Lemma total_content l : total l = 32 * Z.of_nat (length l) + zlen (content l).
Proof.
  induction l as [|[n v] l IH]; [done|]. rewrite content_cons, !zlen_app. simpl. unfold size_of. simpl. lia.
Qed.

Lemma laid_length pos first s es l : laid pos first s es l -> length es = length l.
Proof.
  revert pos first s l. induction es as [|e es IH]; intros pos first s [|[n v] l]; simpl; try done.
  intros (_ & _ & _ & _ & _ & _ & _ & H). by rewrite (IH _ _ _ _ H).
Qed.

(** The entry [e] is at index [pos] of the memory and holds the pair. *)
Definition entry_of (e : xqc_dtable_entry_t) (pos idx sum : Z) (n v : list Z) : Prop :=
  0 < zlen n /\ nidx e = pos /\ nlen e = zlen n /\ vlen e = zlen v
  /\ vidx e = (if 0 <? zlen v then pos + zlen n else 0) /\ abs_index e = idx /\ en_sum e = sum.

Lemma laid_lookup pos first s es l i n v : laid pos first s es l -> l !! i = Some (n, v) ->
  exists e, es !! i = Some e
  /\ entry_of e (pos + zlen (content (take i l))) (first + Z.of_nat i) (s + total (take i l)) n v.
Proof.
  revert pos first s es l. induction i as [|i IH]; intros pos first s [|e es] [|[n' v'] l]; try done; simpl.
  - intros (Hn & H1 & H2 & H3 & H4 & H5 & H6 & _) ?. simplify_eq. exists e.
    unfold entry_of, content, zlen. simpl. rewrite !Z.add_0_r. by repeat split.
  - intros (_ & _ & _ & _ & _ & _ & _ & H) Hl. destruct (IH _ _ _ _ _ H Hl) as (e' & He & Hent).
    exists e'. split; [done|]. rewrite content_cons, !zlen_app.
    replace (first + Z.of_nat (S i)) with (first + 1 + Z.of_nat i) by lia. by rewrite !Z.add_assoc.
Qed.

Lemma laid_snoc pos first s es l e n v : laid pos first s es l ->
  entry_of e (pos + zlen (content l)) (first + Z.of_nat (length l)) (s + total l) n v ->
  laid pos first s (es ++ [e]) (l ++ [(n, v)]).
Proof.
  revert pos first s l. induction es as [|e' es IH]; intros pos first s [|[n' v'] l]; try done; simpl.
  - unfold content, zlen. simpl. rewrite !Z.add_0_r. intros _ (H0 & H1 & H2 & H3 & H4 & H5 & H6). by repeat split.
  - intros (H0 & H1 & H2 & H3 & H4 & H5 & H6 & H) He. repeat split; try done. apply IH; [done|].
    rewrite content_cons, !zlen_app in He.
    replace (first + Z.of_nat (S (length l))) with (first + 1 + Z.of_nat (length l)) in He by lia.
    by rewrite !Z.add_assoc in He.
Qed.

(** ** The hash table *)

Section hash_table.

Context (ra : xqc_rarray_t xqc_dtable_entry_t) (es : list xqc_dtable_entry_t) (sidx cnt : Z).
Abbreviation node := (node_ok ra es sidx cnt).

Lemma bucket_spec ht h : ht_ok ra es sidx cnt ht ->
  exists l, ht_bucket ht h = Some l /\ Forall node l.
Proof.
  intros [(k & Hk & Hlen & Hm) Hn]. unfold ht_bucket. rewrite Hm, Z.land_ones by done.
  pose proof (Z.mod_pos_bound h (2 ^ k) ltac:(lia)).
  destruct (lookup_lt_is_Some_2 (ht_list ht) (Z.to_nat (h mod 2 ^ k))) as (b & Hb); [lia|].
  rewrite (nth_lookup_Some _ _ None _ Hb). apply (Forall_lookup_1 _ _ _ _ Hn Hb).
Qed.

Lemma ht_set_ok ht h l : ht_ok ra es sidx cnt ht -> Forall node l -> ht_ok ra es sidx cnt (ht_set ht h l).
Proof.
  intros [Hs Hn] Hl. split; simpl; [by rewrite length_insert|]. apply Forall_insert; [done|]. by exists l.
Qed.

Lemma compare_entry_known n d e : node n -> deref ra d = Some e ->
  is_Some (xqc_dtable_compare_entry ra (nd_data n) d).
Proof. intros (e' & He & _) Hd. unfold xqc_dtable_compare_entry. rewrite He, Hd. by eexists. Qed.

Lemma remove_spec ht h1 h2 d e : ht_ok ra es sidx cnt ht -> deref ra d = Some e ->
  exists ht', xqc_2d_hash_table_remove (xqc_dtable_compare_entry ra) ht h1 h2 d = Some (Ok tt, ht')
  /\ ht_ok ra es sidx cnt ht'.
Proof.
  intros Hht Hd. unfold xqc_2d_hash_table_remove. destruct (bucket_spec _ h1 Hht) as (l & -> & Hl). simpl.
  enough (exists l', remove_node (xqc_dtable_compare_entry ra) l h1 h2 d = Some l' /\ Forall node l') as (l' & -> & Hl').
  { simpl. eexists. split; [done|]. by apply ht_set_ok. }
  induction Hl as [|n l Hn Hl IH]; simpl; [by exists []|]. destruct IH as (l' & -> & Hl').
  destruct (compare_entry_known n d e Hn Hd) as (c & ->).
  destruct ((hash1 n =? h1) && (hash2 n =? h2)); simpl; [case_if|]; eauto.
Qed.

Lemma add_spec ht h1 h2 d e : ht_ok ra es sidx cnt ht -> deref ra d = Some e -> 0 <= snd d < ra_cap ra ->
  known es sidx cnt e ->
  exists ht', xqc_2d_hash_table_add (xqc_dtable_compare_entry ra) true ht h1 h2 d = Some (Ok tt, ht')
  /\ ht_ok ra es sidx cnt ht'.
Proof.
  intros Hht Hd Hs He. unfold xqc_2d_hash_table_add. destruct (bucket_spec _ h1 Hht) as (l & -> & Hl). simpl.
  enough (is_Some (lookup_data (xqc_dtable_compare_entry ra) l d)) as (b & ->).
  { simpl. destruct b; [by eexists|]. eexists. split; [done|]. apply ht_set_ok; [done|].
    constructor; [by exists e|done]. }
  induction Hl as [|n l Hn Hl IH]; simpl; [by eexists|].
  destruct (compare_entry_known n d e Hn Hd) as (c & ->). simpl. case_if; [by eexists|done].
Qed.

(** A lookup returns a node whose entry compares with the result. *)
Lemma hash_lookup_spec cmp ht h1 h2 : ht_ok ra es sidx cnt ht ->
  exists r p, xqc_2d_hash_lookup (fun d dim => e ← deref ra d; Some (cmp e dim)) ht h1 h2 = Some (r, p)
  /\ (r = XQC_2D_CMP_RES_NONE \/ exists d e dim, p = Some d /\ deref ra d = Some e /\ known es sidx cnt e /\ cmp e dim = r).
Proof.
  intros Hht. unfold xqc_2d_hash_lookup. destruct (bucket_spec _ h1 Hht) as (l & -> & Hl). simpl.
  assert (forall best data,
    (best = XQC_2D_CMP_RES_NONE
     \/ exists d e dim, data = Some d /\ deref ra d = Some e /\ known es sidx cnt e /\ cmp e dim = best) ->
    exists r p, lookup_loop (fun d dim => e ← deref ra d; Some (cmp e dim)) l h1 h2 best data = Some (r, p)
    /\ (r = XQC_2D_CMP_RES_NONE
        \/ exists d e dim, p = Some d /\ deref ra d = Some e /\ known es sidx cnt e /\ cmp e dim = r)) as H; [|by apply H; left].
  induction Hl as [|n l (e & He & _ & Hk) Hl IH]; intros best data Hb; simpl; [by exists best, data|].
  case_if; [|by apply IH]. case_if; rewrite He; simpl.
  - destruct (res_rank best <? res_rank (cmp e XQC_2D_CMP_DIM_2)); [|by apply IH].
    destruct (cmp e XQC_2D_CMP_DIM_2) eqn:Ec; [by apply IH; left|apply IH; right; by exists (nd_data n), e, XQC_2D_CMP_DIM_2|].
    eexists _, _. split; [done|]. right. by exists (nd_data n), e, XQC_2D_CMP_DIM_2.
  - destruct (cmp e XQC_2D_CMP_DIM_1) eqn:Ec, best; try (by apply IH);
      apply IH; right; by exists (nd_data n), e, XQC_2D_CMP_DIM_1.
Qed.

End hash_table.

(** The hash table stays good when its nodes do. *)
Lemma ht_mono ra es sidx cnt ra' es' sidx' cnt' ht :
  (forall n, node_ok ra es sidx cnt n -> node_ok ra' es' sidx' cnt' n) ->
  opt_ht_ok ra es sidx cnt ht -> opt_ht_ok ra' es' sidx' cnt' ht.
Proof.
  intros H. destruct ht as [ht|]; [|done]. intros [Hs Hn]. split; [done|].
  eapply Forall_impl; [exact Hn|]. intros b (l & -> & Hl). exists l. split; [done|].
  by eapply Forall_impl.
Qed.

(** ** Eviction *)

Lemma front_spec {A} (ra : xqc_rarray_t A) es : ra_ok ra -> ra_list ra = Some <$> es ->
  match es with
  | [] => xqc_rarray_front ra = None
  | e :: _ => xqc_rarray_front ra = Some (ra_offset ra) /\ ra_at ra (ra_offset ra) = Some e
  end.
Proof.
  intros Hok Hl. pose proof (f_equal length Hl) as Hlen. rewrite length_ra_list, length_fmap in Hlen.
  pose proof (ra_count_ok _ Hok). pose proof (ra_offset_ok _ Hok). unfold xqc_rarray_front.
  destruct es as [|e es]; simpl in Hlen; case_if; try (done || zb). split; [done|].
  pose proof (ra_list_lookup ra 0 ltac:(lia)) as Hz. rewrite Hl in Hz. simpl in Hz.
  unfold slot in Hz. rewrite Z.add_0_r, Z.mod_small in Hz by lia. congruence.
Qed.

Lemma dequeue_nv_spec rm e idx s n v rest : rm_ok rm -> entry_of e (rm_sidx rm) idx s n v ->
  rm_bytes rm = n ++ v ++ rest ->
  exists rm', xqc_dtable_dequeue_nv rm e = (Ok tt, rm') /\ rm_ok rm' /\ rm_bytes rm' = rest
  /\ rm_sidx rm' = rm_sidx rm + zlen n + zlen v /\ rm_capacity rm' = rm_capacity rm.
Proof.
  intros Hok (Hn & Hni & Hnl & Hvl & Hvi & _) Hb. unfold xqc_dtable_dequeue_nv. rewrite Hni, Hnl, Hvl.
  pose proof (zlen_rm_bytes _ Hok) as Hu. rewrite Hb, !zlen_app in Hu.
  pose proof (zlen_nonneg v). pose proof (zlen_nonneg rest).
  replace (0 <? zlen n) with true by (symmetry; zb).
  destruct (dequeue_spec rm (zlen n) Hok ltac:(lia)) as (rm1 & -> & Hok1 & Hb1 & Hs1 & Hc1 & _).
  rewrite Hb in Hb1. unfold zlen in Hb1 at 1. rewrite Nat2Z.id, drop_app_length in Hb1.
  destruct (0 <? zlen v) eqn:Ev; [|exists rm1; destruct v; [by rewrite zlen_nil, Z.add_0_r|unfold zlen in Ev; simpl in Ev; zb]].
  pose proof (zlen_rm_bytes _ Hok1) as Hu1. rewrite Hb1, !zlen_app in Hu1.
  rewrite Hvi, <- Hs1. destruct (dequeue_spec rm1 (zlen v) Hok1 ltac:(lia)) as (rm2 & -> & Hok2 & Hb2 & Hs2 & Hc2 & _).
  exists rm2. rewrite Hb2, Hb1, Hs2, Hc2. unfold zlen at 1. by rewrite Nat2Z.id, drop_app_length.
Qed.

(** The array after the front is popped, as far as the pointers see it. *)
Lemma node_pop ra e es sidx cnt sidx' n : nidx e < sidx' -> sidx <= sidx' ->
  node_ok ra (e :: es) sidx cnt n -> node_ok (snd (xqc_rarray_pop_front ra)) es sidx' cnt n.
Proof.
  intros He Hs (e' & Hd & Hr & Hk & Hrest). exists e'. unfold xqc_rarray_pop_front. case_if; simpl;
    (split; [exact Hd|]; split; [done|]; split; [|done]; rewrite fmap_cons, elem_of_cons in Hk; destruct Hk as [[Hk|?]|?]; [injection Hk as Hk _ _ _ _| |]; auto with lia).
Qed.

Lemma remove_opt_spec ra es sidx cnt oht s e : opt_ht_ok ra es sidx cnt oht -> ra_at ra s = Some e ->
  exists ht, match oht with
             | None => Some None
             | Some ht => '(_, ht) ← xqc_2d_hash_table_remove (xqc_dtable_compare_entry ra) ht
                                       (nidx e) (vidx e) (ra_alloc ra, s); Some (Some ht)
             end = Some ht /\ opt_ht_ok ra es sidx cnt ht /\ has ht = has oht.
Proof.
  intros H Hat. destruct oht as [ht|]; [|by exists None].
  destruct (remove_spec _ _ _ _ ht (nidx e) (vidx e) (ra_alloc ra, s) e H) as (ht' & -> & Hok');
    [unfold deref; simpl; by rewrite Z.eqb_refl|by exists (Some ht')].
Qed.

Lemma rm_cap_bound rm : rm_ok rm -> rm_capacity rm <= 2 ^ 63.
Proof.
  intros Hok. destruct (rm_cap_ok _ Hok) as [->|(k & Hk & ->)]; [done|]. apply Z.pow_le_mono_r; lia.
Qed.

Definition t_pop (t : table) : table := mk_table (t_first t + 1) (tail (t_nvs t)) (t_cap t) (t_ref t) (t_added t) (t_hash t).

Lemma pop_entry_spec es dt t p rest : rep es dt t -> t_nvs t = p :: rest ->
  if ref_value (t_ref t) <=? t_first t then xqc_dtable_pop_entry dt = Some (Err XQC_QPACK_DYNAMIC_TABLE_REFERRED, dt)
  else exists dt' es', xqc_dtable_pop_entry dt = Some (Ok tt, dt') /\ rep es' dt' (t_pop t).
Proof.
  intros R Ht. pose proof (rep_laid _ _ _ R) as Hl. rewrite Ht in Hl.
  destruct es as [|e es]; [done|]. destruct p as [n v]. simpl in Hl.
  destruct Hl as (Hn & Hni & Hnl & Hvl & Hvi & Hai & Hsum & Hlaid).
  destruct (front_spec _ _ (rep_ra _ _ _ R) (rep_es _ _ _ R)) as (Hf & Hat).
  unfold xqc_dtable_pop_entry. rewrite Hf, Hat. simpl. rewrite Hai, (rep_ref _ _ _ R). case_if; [done|].
  pose proof (rep_bytes _ _ _ R) as Hb. rewrite Ht, content_cons in Hb.
  assert (entry_of e (rm_sidx (rmem dt)) (t_first t) (t_added t - total (t_nvs t)) n v) as Hent by (rewrite Ht; done).
  destruct (dequeue_nv_spec _ _ _ _ _ _ _ (rep_rm _ _ _ R) Hent Hb) as (rm' & -> & Hrm & Hb' & Hs' & Hc').
  destruct (remove_opt_spec _ _ _ _ _ (ra_offset (entries dt)) e (rep_ht _ _ _ R) Hat) as (ht & Hht & Hhok & Hhas).
  simpl. rewrite Hht. simpl.
  destruct (pop_front_spec _ (rep_ra _ _ _ R)) as (-> & Hra' & Hlist).
  unfold xqc_rarray_front in Hf. destruct (ra_count (entries dt) =? 0); [done|]. simpl.
  eexists _, es. split; [done|]. rewrite Hnl, Hvl.
  clear Hht Hf Hat Hent. pose proof (rm_cap_bound _ (rep_rm _ _ _ R)). pose proof (rm_start _ (rep_rm _ _ _ R)). destruct R, t as [f l cap ref a h].
  unfold t_end, t_pop, XQC_INVALID_INDEX in *. simpl in *. subst l. simpl in *. unfold size_of in *. simpl in *.
  pose proof (total_nonneg rest). pose proof (zlen_nonneg v).
  split; unfold t_end, XQC_INVALID_INDEX; simpl; try done; try lia.
  - rewrite Hlist, rep_es0. done.
  - rewrite Hs'. replace (a - total rest) with (a - (32 + zlen n + zlen v + total rest) + (32 + zlen n + zlen v)) by lia. done.
  - rewrite rep_first0. apply u64_small. lia.
  - unfold xqc_rarray_pop_front. by case_if.
  - unfold xqc_dtable_entry_size, XQC_QPACK_ENTRY_SIZE_BASE. rewrite (u64_small (32 + _ + _)) by lia.
    rewrite u64_small; lia.
  - intros r ->. specialize (rep_ref_ok0 r eq_refl). simpl in *. zb.
  - replace (f + 1 + _) with (f + Z.of_nat (S (length rest))) by lia.
    eapply ht_mono; [|exact Hhok]. intros nd. apply node_pop; lia.
  - by rewrite Hhas.
Qed.

(** The counters stay far below the invalid index. *)
Lemma end_bound es dt t : rep es dt t -> 32 * t_end t <= t_added t.
Proof.
  intros R. pose proof (rm_start _ (rep_rm _ _ _ R)). pose proof (rep_pos _ _ _ R). unfold t_end.
  pose proof (total_count (t_nvs t)). lia.
Qed.

Lemma free_spec es dt t space : rep es dt t ->
  (u64 (dt_capacity dt - dt_used dt) <? space) = negb (total (t_nvs t) + space <=? t_cap t).
Proof.
  intros R. rewrite (rep_cap _ _ _ R), (rep_used _ _ _ R).
  pose proof (rep_fits _ _ _ R). pose proof (rep_mem _ _ _ R). pose proof (rm_cap_bound _ (rep_rm _ _ _ R)).
  pose proof (total_nonneg (t_nvs t)). rewrite u64_small by lia.
  apply eq_true_iff_eq. rewrite negb_true_iff, Z.ltb_lt, Z.leb_gt. lia.
Qed.

Lemma evicted_end t space : t_end (evicted t space) = t_end t.
Proof. unfold t_end at 1, evicted. simpl. lia. Qed.

Lemma evicted_none t space : total (t_nvs t) + space <= t_cap t -> evicted t space = t.
Proof.
  intros H. unfold evicted. assert (evict (t_cap t) space (t_nvs t) = t_nvs t) as ->.
  { destruct (t_nvs t); simpl in *; case_if; (done || zb). }
  destruct t. unfold t_end. simpl. f_equal. lia.
Qed.

Lemma evicted_pop t space p rest : t_nvs t = p :: rest -> t_cap t < total (t_nvs t) + space ->
  evicted (t_pop t) space = evicted t space.
Proof.
  intros Ht H. destruct t as [f l cap ref a h]. simpl in *. subst l. unfold evicted, t_end. simpl in *.
  replace (_ <=? cap) with false by (symmetry; apply Z.leb_gt; lia). f_equal. lia.
Qed.

Lemma evictable_pop t p rest : t_nvs t = p :: rest -> evictable t <> O ->
  drop (evictable (t_pop t)) (t_nvs (t_pop t)) = drop (evictable t) (t_nvs t).
Proof.
  intros Ht He. destruct t as [f l cap [r|] a h]; simpl in *; subst l; unfold evictable in *; simpl in *; [|done].
  replace (Z.to_nat (r - f)) with (S (Z.to_nat (r - (f + 1)))) by lia. done.
Qed.

Lemma evictable_ref es dt t : rep es dt t -> evictable t <> O -> t_first t < ref_value (t_ref t).
Proof.
  intros R He. unfold evictable, ref_value in *. destruct (t_ref t); [lia|].
  pose proof (end_bound _ _ _ R). pose proof (rep_sum_ok _ _ _ R). pose proof (rep_first_ok _ _ _ R).
  unfold t_end, XQC_INVALID_INDEX in *. lia.
Qed.

Lemma pop_loop_spec fuel es dt t space : rep es dt t -> (length (t_nvs t) < fuel)%nat ->
  total (drop (evictable t) (t_nvs t)) + space <= t_cap t ->
  exists dt' es', pop_loop fuel dt space = Some (Ok tt, dt') /\ rep es' dt' (evicted t space).
Proof.
  revert es dt t. induction fuel as [|fuel IH]; intros es dt t R Hf Hs; [lia|].
  cbn [pop_loop]. rewrite (free_spec _ _ _ space R).
  destruct (total (t_nvs t) + space <=? t_cap t) eqn:E; simpl; zify_bools.
  { exists dt, es. by rewrite evicted_none by lia. }
  assert (evictable t <> O) as He by (intros H0; rewrite H0, drop_0 in Hs; lia).
  destruct (t_nvs t) as [|p rest] eqn:Ht; [rewrite drop_nil in Hs; simpl in *; lia|].
  pose proof (pop_entry_spec es dt t p rest R Ht) as Hp. pose proof (evictable_ref _ _ _ R He).
  replace (_ <=? t_first t) with false in Hp by (symmetry; apply Z.leb_gt; lia).
  destruct Hp as (dt' & es' & -> & R'). simpl.
  rewrite <- (evicted_pop t space p rest Ht) by (rewrite Ht; lia).
  apply (IH es' dt' _ R'); [destruct t; simpl in *; subst; simpl in *; lia|].
  by rewrite (evictable_pop t p rest Ht He), Ht.
Qed.

(** ** Access by index *)

Lemma count_spec es dt t : rep es dt t -> ra_count (entries dt) = Z.of_nat (length (t_nvs t)).
Proof.
  intros R. pose proof (f_equal length (rep_es _ _ _ R)) as H. rewrite length_ra_list, length_fmap in H.
  rewrite <- (laid_length _ _ _ _ _ (rep_laid _ _ _ R)), <- H.
  pose proof (ra_count_ok _ (rep_ra _ _ _ R)). lia.
Qed.

Lemma total_take_drop l i : total l = total (take i l) + total (drop i l).
Proof. by rewrite <- total_app, take_drop. Qed.

Lemma get_entry_spec es dt t idx : rep es dt t -> 0 <= idx < 2 ^ 64 ->
  let i := Z.to_nat (idx - t_first t) in
  match t_nth t idx with
  | Some (n, v) => exists s e, xqc_dtable_get_entry_by_abs_idx dt idx = Some s /\ ra_at (entries dt) s = Some e
      /\ entry_of e (rm_sidx (rmem dt) + zlen (content (take i (t_nvs t)))) idx (t_added t - total (drop i (t_nvs t))) n v
  | None => xqc_dtable_get_entry_by_abs_idx dt idx = None
  end.
Proof.
  intros R Hi i. unfold t_nth, xqc_dtable_get_entry_by_abs_idx. rewrite (rep_first _ _ _ R).
  pose proof (rep_first_ok _ _ _ R). destruct (idx <? t_first t) eqn:E; [done|]. zify_bools.
  rewrite get_spec; [|exact (rep_ra _ _ _ R)|lia]. rewrite (count_spec _ _ _ R).
  destruct (t_nvs t !! Z.to_nat (idx - t_first t)) as [[n v]|] eqn:Hl.
  2:{ apply lookup_ge_None in Hl. case_if; [zb|done]. }
  pose proof (lookup_lt_Some _ _ _ Hl). replace (idx - t_first t <? _) with true by (symmetry; apply Z.ltb_lt; lia).
  destruct (laid_lookup _ _ _ _ _ _ _ _ (rep_laid _ _ _ R) Hl) as (e & He & Hent).
  exists (slot (entries dt) (idx - t_first t)), e. split; [done|]. split.
  - pose proof (ra_list_lookup (entries dt) i) as H1. rewrite (count_spec _ _ _ R) in H1.
    specialize (H1 ltac:(lia)). rewrite (rep_es _ _ _ R), list_lookup_fmap in H1.
    unfold i in H1. rewrite He, Z2Nat.id in H1 by lia. simpl in H1. congruence.
  - replace (t_first t + _) with idx in Hent by lia. pose proof (total_take_drop (t_nvs t) i).
    replace (_ - total (drop i _)) with (t_added t - total (t_nvs t) + total (take i (t_nvs t))) by lia. done.
Qed.

(** ** Making space *)

Lemma nth_ref es dt t r : rep es dt t -> t_ref t = Some r -> 0 <= r < 2 ^ 64 /\ exists n v, t_nth t r = Some (n, v).
Proof.
  intros R Hr. pose proof (rep_ref_ok _ _ _ R r Hr) as Hb. pose proof (rep_first_ok _ _ _ R).
  pose proof (end_bound _ _ _ R). pose proof (rep_sum_ok _ _ _ R). split; [lia|].
  unfold t_nth, t_end in *. case_if; [zb|].
  destruct (lookup_lt_is_Some_2 (t_nvs t) (Z.to_nat (r - t_first t))) as ([n v] & ->); [lia|eauto].
Qed.

Lemma check_space_spec es dt t space : rep es dt t -> space <= t_cap t ->
  check_space dt space = Some (if total (drop (evictable t) (t_nvs t)) + space <=? t_cap t then Ok tt
                               else Err XQC_QPACK_DYNAMIC_TABLE_NOT_ENOUGH).
Proof.
  intros R Hs. unfold check_space. rewrite (free_spec _ _ _ space R), (rep_ref _ _ _ R).
  pose proof (total_drop (t_nvs t) (evictable t)). pose proof (total_nonneg (drop (evictable t) (t_nvs t))).
  destruct (total (t_nvs t) + space <=? t_cap t) eqn:E; simpl; zify_bools.
  { case_if; [done|zb]. }
  destruct (t_ref t) as [r|] eqn:Hr; simpl.
  2:{ unfold evictable. rewrite Hr, drop_all. simpl. case_if; [done|zb]. }
  destruct (nth_ref _ _ _ r R Hr) as (Hb & n & v & Hn). pose proof (rep_ref_ok _ _ _ R r Hr) as Hrange.
  pose proof (end_bound _ _ _ R). pose proof (rep_sum_ok _ _ _ R).
  replace (r =? XQC_INVALID_INDEX) with false by (symmetry; apply Z.eqb_neq; unfold XQC_INVALID_INDEX; lia). simpl.
  pose proof (rep_laid _ _ _ R) as Hl. pose proof (front_spec _ _ (rep_ra _ _ _ R) (rep_es _ _ _ R)) as Hf.
  destruct es as [|e0 es], (t_nvs t) as [|[n0 v0] rest] eqn:Ht; try done; [simpl in *; lia|].
  destruct Hf as (-> & Hat). destruct Hl as (_ & _ & _ & _ & _ & _ & Hsum & _).
  pose proof (get_entry_spec _ _ _ r R Hb) as Hg. rewrite Hn, Ht in Hg.
  destruct Hg as (s & e & -> & He & Hent). rewrite Hat, He. simpl. do 2 f_equal.
  destruct Hent as (_ & _ & _ & _ & _ & _ & ->). rewrite Hsum.
  unfold evictable in *. rewrite Hr in *. rewrite (rep_cap _ _ _ R), (rep_used _ _ _ R), Ht.
  pose proof (rep_fits _ _ _ R) as Hfit. rewrite Ht in Hfit. pose proof (rep_mem _ _ _ R).
  pose proof (rm_cap_bound _ (rep_rm _ _ _ R)).
  set (T := total ((n0, v0) :: rest)) in *. set (D := total (drop _ _)) in *. clearbody T D.
  rewrite (u64_small (t_added t - _ - _)), u64_small by lia. repeat case_if; (done || zb).
Qed.

Lemma make_space_spec es dt t space : rep es dt t ->
  match t_make_space t space with
  | Some t' => exists dt' es', xqc_dtable_make_space dt space = Some (Ok tt, dt') /\ rep es' dt' t'
  | None => xqc_dtable_make_space dt space = Some (Err XQC_QPACK_DYNAMIC_TABLE_NOT_ENOUGH, dt)
  end.
Proof.
  intros R. unfold t_make_space, xqc_dtable_make_space. rewrite (rep_cap _ _ _ R).
  pose proof (total_nonneg (drop (evictable t) (t_nvs t))).
  destruct (t_cap t <? space) eqn:E; [case_if; [zb|done]|]. zify_bools.
  rewrite (check_space_spec _ _ _ space R E). cbn [mbind option_bind]. case_if; [|done]. zify_bools.
  apply (pop_loop_spec _ _ _ _ _ R); [|done]. rewrite (count_spec _ _ _ R). lia.
Qed.

(** ** Adding *)

Lemma enqueue_nv_spec rm e n v : rm_ok rm -> 0 < zlen n -> zlen n + zlen v <= rm_capacity rm - rm_used rm ->
  rm_eidx rm + zlen n + zlen v < 2 ^ 64 -> vidx e = 0 ->
  exists rm', xqc_dtable_enqueue_nv rm e n v
    = (Ok tt, rm', set_nv e (rm_eidx rm) (zlen n) (if 0 <? zlen v then rm_eidx rm + zlen n else 0) (zlen v))
  /\ rm_ok rm' /\ rm_bytes rm' = rm_bytes rm ++ n ++ v /\ rm_sidx rm' = rm_sidx rm /\ rm_capacity rm' = rm_capacity rm.
Proof.
  intros Hok Hn Hfree Hidx He. unfold xqc_dtable_enqueue_nv. pose proof (zlen_nonneg v).
  pose proof (enqueue_spec rm n Hok Hn ltac:(lia)) as Hq. destruct (_ <? zlen n) eqn:E1; [zb|].
  destruct Hq as (rm1 & -> & Hok1 & Hb1 & Hs1 & Hc1).
  pose proof (zlen_rm_bytes _ Hok1) as Hu. rewrite Hb1, zlen_app, (zlen_rm_bytes _ Hok) in Hu.
  pose proof (rm_end _ Hok). pose proof (rm_end _ Hok1).
  destruct (0 <? zlen v) eqn:Ev; zify_bools.
  - pose proof (enqueue_spec rm1 v Hok1 ltac:(lia) ltac:(lia)) as Hq. destruct (_ <? zlen v) eqn:E2 in Hq; [zb|].
    destruct Hq as (rm2 & -> & Hok2 & Hb2 & Hs2 & Hc2). exists rm2.
    rewrite Hb2, Hb1, Hs2, Hc2, <- app_assoc. replace (rm_eidx rm1) with (rm_eidx rm + zlen n) by lia. done.
  - exists rm1. assert (v = []) as -> by (destruct v; [done|unfold zlen in *; simpl in *; lia]).
    rewrite Hb1, app_nil_r, He. done.
Qed.

(** A pointer to an element that is written. *)
Lemma deref_store (ra : xqc_rarray_t xqc_dtable_entry_t) s x p : ra_ok ra -> 0 <= s < ra_cap ra -> 0 <= snd p ->
  deref (ra_store ra s x) p
  = if fst p =? ra_alloc ra then (if decide (snd p = s) then Some x else ra_at ra (snd p)) else None.
Proof.
  intros Hok Hs Hp. unfold deref. simpl. case_if; [|done]. apply ra_at_store; [|done].
  by rewrite (ra_len _ Hok).
Qed.

Lemma node_store ra es sidx cnt s x n : ra_ok ra -> 0 <= s < ra_cap ra ->
  node_ok ra es sidx cnt n -> known (es ++ [x]) sidx (cnt + 1) x ->
  node_ok (ra_store ra s x) (es ++ [x]) sidx (cnt + 1) n.
Proof.
  intros Hok Hs (e & Hd & Hr & Hk & Hn & Ha) Hx. unfold node_ok. rewrite deref_store by (done || lia).
  unfold deref in Hd. destruct (fst (nd_data n) =? ra_alloc ra); [|done].
  destruct (decide (snd (nd_data n) = s)) as [He|]; [exists x; split; [done|]; split; [exact Hr|exact Hx]|].
  exists e. split; [exact Hd|]. split; [exact Hr|]. unfold known. rewrite fmap_app, elem_of_app. intuition lia.
Qed.

(** Writing the fields that are no part of the location. *)
Lemma node_update ra es sidx cnt s x y n : ra_ok ra -> 0 <= s < ra_cap ra -> loc x = loc y ->
  node_ok (ra_store ra s x) (es ++ [x]) sidx cnt n -> node_ok (ra_store ra s y) (es ++ [y]) sidx cnt n.
Proof.
  intros Hok Hs Hl (e & Hd & Hr & Hk & Hn & Ha). simpl in Hr. unfold node_ok, known. rewrite deref_store in * by (done || lia).
  destruct (fst (nd_data n) =? ra_alloc ra); [|done]. rewrite fmap_app in *. simpl in *. rewrite <- Hl.
  destruct (decide (snd (nd_data n) = s)) as [He|]; [|by exists e].
  assert (x = e) as <- by congruence. pose proof Hl as Hl'. unfold loc in Hl'. injection Hl' as Hi _ _ _ Hj.
  exists y. by rewrite <- Hl, <- Hi, <- Hj.
Qed.

Lemma store_twice {A} (ra : xqc_rarray_t A) s x y : ra_store (ra_store ra s x) s y = ra_store ra s y.
Proof. unfold ra_store. simpl. by rewrite list_insert_insert_eq. Qed.

(** The entry [x] is put into the hash table and then completed to [y]. *)
Lemma add_opt_spec ra es sidx cnt oht s x y h1 h2 : ra_ok ra -> 0 <= s < ra_cap ra ->
  opt_ht_ok ra es sidx cnt oht -> known (es ++ [x]) sidx (cnt + 1) x -> loc x = loc y ->
  exists ht, match oht with
             | None => Some (Ok tt, None)
             | Some ht => '(r, ht) ← xqc_2d_hash_table_add (xqc_dtable_compare_entry (ra_store ra s x)) true ht h1 h2
                                       (ra_alloc (ra_store ra s x), s); Some (r, Some ht)
             end = Some (Ok tt, ht) /\ opt_ht_ok (ra_store ra s y) (es ++ [y]) sidx (cnt + 1) ht /\ has ht = has oht.
Proof.
  intros Hok Hs Hht Hx Hl. destruct oht as [ht|]; [|by exists None].
  assert (ht_ok (ra_store ra s x) (es ++ [x]) sidx (cnt + 1) ht) as Hht1.
  { apply (ht_mono ra es sidx cnt _ _ _ _ (Some ht)); [|done]. intros n Hn. by apply (node_store ra es sidx cnt). }
  destruct (DTableSpec.add_spec _ _ _ _ ht h1 h2 (ra_alloc (ra_store ra s x), s) x Hht1) as (ht' & -> & Hok'); try done.
  { rewrite deref_store by (simpl; lia || done). simpl. rewrite Z.eqb_refl. by destruct (decide (s = s)). }
  exists (Some ht'). split; [done|]. split; [|done].
  apply (ht_mono (ra_store ra s x) (es ++ [x]) sidx (cnt + 1) _ _ _ _ (Some ht')); [|done]. intros n. by apply node_update.
Qed.

Lemma push_room es dt t n v : rep es dt t -> total (t_nvs t) + size_of (n, v) <= t_cap t ->
  ra_count (entries dt) < ra_cap (entries dt).
Proof.
  intros R H. rewrite (count_spec _ _ _ R). pose proof (rep_slots _ _ _ R). pose proof (total_count (t_nvs t)).
  pose proof (size_pos (n, v)). enough (Z.of_nat (length (t_nvs t)) + 1 <= t_cap t / 32) by lia.
  apply Z.div_le_lower_bound; lia.
Qed.

(** The new entry. *)
Definition new_entry (dt : xqc_dtable_t) (n v : list Z) : xqc_dtable_entry_t :=
  mk_entry (rm_eidx (rmem dt)) (zlen n) (if 0 <? zlen v then rm_eidx (rmem dt) + zlen n else 0) (zlen v)
    (insert_cnt dt) (xqc_murmur_hash2 n) (xqc_dtable_make_value_hash v) (byte_sum dt).

Lemma fill_run es sidx cnt dt ra1 s n v sz rm' : ra_ok ra1 -> 0 <= s < ra_cap ra1 ->
  opt_ht_ok ra1 es sidx cnt (ht2d dt) -> 0 <= cnt -> insert_cnt dt = cnt -> 0 <= rm_eidx (rmem dt) < 2 ^ 64 ->
  xqc_dtable_enqueue_nv (rmem dt) (mk_entry 0 0 0 0 cnt 0 0 0) n v
  = (Ok tt, rm', set_nv (mk_entry 0 0 0 0 cnt 0 0 0) (rm_eidx (rmem dt)) (zlen n)
                   (if 0 <? zlen v then rm_eidx (rmem dt) + zlen n else 0) (zlen v)) ->
  let e := new_entry dt n v in
  exists ht, fill_entry true (set_entries dt ra1) s n v sz
    = Some (Ok cnt, mk_dt ht (ra_store ra1 s e) rm' (u64 (cnt + 1)) (first_idx dt) (dt_capacity dt)
                      (u64 (dt_used dt + sz)) (u64 (byte_sum dt + sz)) (min_ref dt))
  /\ opt_ht_ok (ra_store ra1 s e) (es ++ [e]) sidx (cnt + 1) ht /\ has ht = has (ht2d dt).
Proof.
  intros Hok Hs Hht Hc Hi Heidx Hq. cbv zeta. unfold fill_entry. cbn [set_entries rmem insert_cnt]. rewrite Hi, Hq.
  set (x := set_nv _ _ _ _ _). 
  destruct (add_opt_spec ra1 es sidx cnt (ht2d dt) s x (new_entry dt n v) (xqc_murmur_hash2 n)
              (xqc_dtable_make_value_hash v)) as (ht & Hadd & Hht' & Hhas); try done.
  - split; [left|split; [done|simpl; lia]]. rewrite fmap_app, elem_of_app. right. simpl. constructor.
  - unfold loc, new_entry, x. simpl. by rewrite Hi.
  - exists ht. split; [|done]. cbn [put_entry set_rmem set_entries ht2d entries]. rewrite Hadd.
    cbn [mbind option_bind]. unfold put_entry, set_counts, set_ht, set_entries. simpl. rewrite store_twice, Hi.
    unfold new_entry. by rewrite Hi.
Qed.


(** The table with the new entry. *)
Lemma push_rep es dt t ra1 s n v rm' ht : rep es dt t -> 0 < zlen n ->
  total (t_nvs t) + size_of (n, v) <= t_cap t -> t_added t + size_of (n, v) < 2 ^ 64 ->
  let e := new_entry dt n v in
  ra_ok (ra_store ra1 s e) -> ra_list (ra_store ra1 s e) = ra_list (entries dt) ++ [Some e] ->
  ra_cap ra1 = ra_cap (entries dt) ->
  rm_ok rm' -> rm_bytes rm' = rm_bytes (rmem dt) ++ n ++ v -> rm_sidx rm' = rm_sidx (rmem dt) ->
  rm_capacity rm' = rm_capacity (rmem dt) ->
  opt_ht_ok (ra_store ra1 s e) (es ++ [e]) (rm_sidx (rmem dt)) (t_end t + 1) ht -> has ht = has (ht2d dt) ->
  rep (es ++ [e]) (mk_dt ht (ra_store ra1 s e) rm' (u64 (t_end t + 1)) (first_idx dt) (dt_capacity dt)
                     (u64 (dt_used dt + size_of (n, v))) (u64 (byte_sum dt + size_of (n, v))) (min_ref dt)) (t_push t n v).
Proof.
  intros R Hn Hfit Hadd e Hra Hlist Hcap Hrm Hb Hs Hc Hht Hhas. subst e.
  pose proof (end_bound _ _ _ R). pose proof (rep_sum_ok _ _ _ R). pose proof (rm_cap_bound _ (rep_rm _ _ _ R)).
  pose proof (total_nonneg (t_nvs t)). pose proof (size_pos (n, v)). pose proof (rm_end _ (rep_rm _ _ _ R)) as Hend.
  pose proof (zlen_rm_bytes _ (rep_rm _ _ _ R)) as Hu. pose proof (rm_start _ (rep_rm _ _ _ R)).
  assert (0 <= t_end t) by (pose proof (rep_first_ok _ _ _ R); unfold t_end; lia).
  assert (total (t_nvs t ++ [(n, v)]) = total (t_nvs t) + size_of (n, v)) as Ht by (rewrite total_app; simpl; lia).
  assert (t_end (t_push t n v) = t_end t + 1) as He by (unfold t_end; simpl; rewrite length_app; simpl; lia).
  destruct R. split; cbn [entries rmem ht2d insert_cnt first_idx dt_capacity dt_used byte_sum min_ref]; rewrite ?He;
    cbn [t_push t_first t_nvs t_cap t_ref t_added]; rewrite ?Ht; try done; try lia.
  - rewrite Hlist, rep_es0, fmap_app. done.
  - rewrite Hs. replace (_ + _ - _) with (t_added t - total (t_nvs t)) by lia. apply laid_snoc; [done|].
    unfold entry_of, new_entry. simpl. rewrite rep_bytes0 in Hu. rewrite rep_cnt0, Hend, Hu, rep_sum0.
    split_and!; try done. lia.
  - rewrite Hb, content_app, content_cons, rep_bytes0. unfold content at 3. simpl. by rewrite app_nil_r.
  - apply u64_small. lia.
  - simpl. by rewrite Hcap.
  - rewrite rep_used0. apply u64_small. lia.
  - rewrite rep_sum0. apply u64_small. lia.
  - intros r Hr. specialize (rep_ref_ok0 r Hr). lia.
  - by rewrite Hs.
  - by rewrite Hhas.
Qed.

Lemma entry_size_spec n v : size_of (n, v) < 2 ^ 64 -> xqc_dtable_entry_size (zlen n) (zlen v) = size_of (n, v).
Proof. intros H. pose proof (size_pos (n, v)). apply (u64_small (size_of (n, v))). lia. Qed.

Lemma added_nonneg es dt t : rep es dt t -> 0 <= t_added t.
Proof. intros R. pose proof (end_bound _ _ _ R). pose proof (rep_first_ok _ _ _ R). unfold t_end in *. lia. Qed.

Lemma fill_spec es dt t n v : rep es dt t -> 0 < zlen n -> total (t_nvs t) + size_of (n, v) <= t_cap t ->
  t_added t + size_of (n, v) < 2 ^ 64 ->
  exists s ra1 dt' es', xqc_rarray_push (entries dt) = (Some s, ra1)
  /\ fill_entry true (set_entries dt ra1) s n v (size_of (n, v)) = Some (Ok (t_end t), dt')
  /\ rep es' dt' (t_push t n v).
Proof.
  intros R Hn Hfit Hadd. pose proof (push_room _ _ _ _ _ R Hfit) as Hroom.
  pose proof (rm_end _ (rep_rm _ _ _ R)) as Hend. pose proof (zlen_rm_bytes _ (rep_rm _ _ _ R)) as Hu.
  rewrite (rep_bytes _ _ _ R) in Hu. pose proof (total_content (t_nvs t)) as Htc. pose proof (rm_start _ (rep_rm _ _ _ R)).
  pose proof (rep_mem _ _ _ R) as Hmem. pose proof (rep_pos _ _ _ R) as Hpos. pose proof (rep_first_ok _ _ _ R).
  assert (size_of (n, v) = 32 + zlen n + zlen v) as Hsz by done. pose proof (zlen_nonneg v).
  pose proof (rm_used_ok _ (rep_rm _ _ _ R)).
  destruct (enqueue_nv_spec (rmem dt) (mk_entry 0 0 0 0 (t_end t) 0 0 0) n v (rep_rm _ _ _ R))
    as (rm' & Hq & Hok' & Hb' & Hs' & Hc'); try done; try lia.
  pose proof (push_spec (entries dt) (new_entry dt n v) (rep_ra _ _ _ R)) as Hp. pose proof (rep_ht _ _ _ R) as Hht.
  pose proof (window_ok (entries dt) (ra_offset (entries dt)) (u64 (ra_count (entries dt) + 1)) (rep_ra _ _ _ R)
                (ra_offset_ok _ (rep_ra _ _ _ R))) as Hwin.
  pose proof (ra_count_ok _ (rep_ra _ _ _ R)). pose proof (ra_cap_bounds _ (rep_ra _ _ _ R)).
  rewrite u64_small in Hwin by lia. specialize (Hwin ltac:(lia)).
  unfold xqc_rarray_push in *. case_if; [zb|]. destruct Hp as (_ & Hslot & Hra & Hlist).
  rewrite (u64_small (ra_count (entries dt) + 1)) in * by lia.
  pose proof (slot_range (entries dt) (ra_count (entries dt)) (rep_ra _ _ _ R)) as Hsr. rewrite <- Hslot in Hsr.
  set (ra1 := set_window _ _ _) in *. set (s := _ .& _) in *.
  destruct (fill_run es (rm_sidx (rmem dt)) (t_end t) dt ra1 s n v (size_of (n, v)) rm') as (ht & Hf & Hht' & Hhas); try done; try lia.
  { eapply ht_mono; [|exact Hht]. intros nd Hnd. exact Hnd. }
  { unfold t_end. lia. }
  { exact (rep_cnt _ _ _ R). }
  exists s, ra1. do 2 eexists. split; [done|]. split; [exact Hf|]. by apply push_rep.
Qed.

Lemma add_entry_spec es dt t n v : rep es dt t -> t_added t + size_of (n, v) < 2 ^ 64 ->
  exists dt' es', xqc_dtable_add true dt n v = Some (fst (t_add t n v), dt') /\ rep es' dt' (snd (t_add t n v)).
Proof.
  intros R Hadd. unfold xqc_dtable_add, t_add. pose proof (added_nonneg _ _ _ R). pose proof (zlen_nonneg n).
  rewrite entry_size_spec, (rep_cap _ _ _ R) by lia. case_if; [by exists dt, es|]. zify_bools.
  case_if; [by exists dt, es|]. zify_bools. pose proof (make_space_spec _ _ _ (size_of (n, v)) R) as Hm.
  pose proof (evict_fits (t_cap t) (size_of (n, v)) (t_nvs t) ltac:(lia)) as Hfit.
  unfold t_make_space in *. case_if; [|rewrite Hm; by exists dt, es].
  destruct Hm as (dt1 & es1 & -> & R1). cbn [mbind option_bind].
  destruct (fill_spec es1 dt1 _ n v R1) as (s & ra1 & dt2 & es2 & -> & Hf & R2); try done; try lia.
  exists dt2, es2. by rewrite Hf, evicted_end.
Qed.

(** ** The other operations *)

Lemma content_piece l i n v : l !! i = Some (n, v) ->
  content l = content (take i l) ++ n ++ v ++ content (drop (S i) l).
Proof.
  intros Hl. rewrite <- (take_drop_middle _ _ _ Hl) at 1. by rewrite content_app, content_cons.
Qed.

Lemma sub_bytes_mid a b c p len : zlen a = p -> zlen b = len -> sub_bytes (a ++ b ++ c) p len = b.
Proof.
  intros <- <-. unfold sub_bytes, zlen. by rewrite !Nat2Z.id, drop_app_length, take_app_length.
Qed.

(** The fields of an entry as they are in the ring memory. *)
Lemma copy_fields es dt t e i n v idx sum : rep es dt t -> t_nvs t !! i = Some (n, v) ->
  entry_of e (rm_sidx (rmem dt) + zlen (content (take i (t_nvs t)))) idx sum n v ->
  copy_field (rmem dt) (nidx e) (nlen e) = Ok n /\ copy_field (rmem dt) (vidx e) (vlen e) = Ok v.
Proof.
  intros R Hl (Hn & -> & -> & -> & -> & _). pose proof (content_piece _ _ _ _ Hl) as Hc.
  pose proof (rep_bytes _ _ _ R) as Hb. pose proof (zlen_rm_bytes _ (rep_rm _ _ _ R)) as Hu.
  pose proof (rm_end _ (rep_rm _ _ _ R)). pose proof (rm_idx _ (rep_rm _ _ _ R)). pose proof (rm_start _ (rep_rm _ _ _ R)).
  rewrite Hc in Hb. rewrite Hb, !zlen_app in Hu. set (a := content (take i _)) in *. set (c := content (drop _ _)) in *.
  pose proof (zlen_nonneg a). pose proof (zlen_nonneg v). pose proof (zlen_nonneg c). unfold copy_field. split.
  - case_if; [|zb]. rewrite copy_spec by (exact (rep_rm _ _ _ R) || lia). case_if; [zb|]. case_if; [|zb].
    rewrite Hb. f_equal. apply sub_bytes_mid; lia.
  - destruct (0 <? zlen v) eqn:E; [|destruct v; [done|unfold zlen in E; simpl in E; zb]]. zify_bools.
    rewrite copy_spec by (exact (rep_rm _ _ _ R) || lia). case_if; [zb|]. case_if; [|zb].
    rewrite Hb, app_assoc. f_equal. apply sub_bytes_mid; rewrite ?zlen_app; lia.
Qed.

Lemma nth_lookup t idx p : t_nth t idx = Some p -> t_nvs t !! Z.to_nat (idx - t_first t) = Some p.
Proof. unfold t_nth. by case_if. Qed.

Lemma get_nv_spec es dt t idx want : rep es dt t -> 0 <= idx < 2 ^ 64 ->
  xqc_dtable_get_nv dt idx want = Some (match t_nth t idx with
                                        | Some (n, v) => Ok (n, if want : bool then v else [])
                                        | None => Err XQC_QPACK_DYNAMIC_TABLE_VOID_ENTRY
                                        end).
Proof.
  intros R Hi. unfold xqc_dtable_get_nv. pose proof (get_entry_spec _ _ _ idx R Hi) as Hg.
  destruct (t_nth t idx) as [[n v]|] eqn:En; [|by rewrite Hg]. destruct Hg as (s & e & -> & -> & Hent). simpl.
  destruct (copy_fields _ _ _ _ _ _ _ _ _ R (nth_lookup _ _ _ En) Hent) as (-> & ->). by destruct want.
Qed.

Lemma entry_fits es dt t idx n v : rep es dt t -> t_nth t idx = Some (n, v) ->
  0 < zlen n /\ size_of (n, v) <= t_cap t /\ size_of (n, v) < 2 ^ 64.
Proof.
  intros R Hn. apply nth_lookup in Hn. destruct (laid_lookup _ _ _ _ _ _ _ _ (rep_laid _ _ _ R) Hn) as (e & _ & Hpos & _).
  split; [done|]. pose proof (rep_fits _ _ _ R). pose proof (rm_cap_bound _ (rep_rm _ _ _ R)). pose proof (rep_mem _ _ _ R).
  rewrite <- (take_drop_middle _ _ _ Hn), total_app in H. simpl in H.
  pose proof (total_nonneg (take (Z.to_nat (idx - t_first t)) (t_nvs t))).
  pose proof (total_nonneg (drop (S (Z.to_nat (idx - t_first t))) (t_nvs t))). lia.
Qed.

Lemma get_entry_size_spec es dt t idx : rep es dt t -> 0 <= idx < 2 ^ 64 ->
  xqc_dtable_get_entry_size dt idx = Some (match t_nth t idx with
                                           | Some p => Ok (size_of p)
                                           | None => Err XQC_QPACK_DYNAMIC_TABLE_VOID_ENTRY
                                           end).
Proof.
  intros R Hi. unfold xqc_dtable_get_entry_size. pose proof (get_entry_spec _ _ _ idx R Hi) as Hg.
  destruct (t_nth t idx) as [[n v]|] eqn:En; [|by rewrite Hg].
  destruct Hg as (s & e & -> & -> & _ & _ & Hnl & Hvl & _). simpl.
  rewrite Hnl, Hvl, entry_size_spec by apply (entry_fits _ _ _ _ _ _ R En). done.
Qed.

Lemma draining_spec es dt t idx : rep es dt t -> 0 <= idx < 2 ^ 64 ->
  xqc_dtable_is_entry_draining dt idx = Some (t_draining t idx).
Proof.
  intros R Hi. unfold xqc_dtable_is_entry_draining, t_draining. pose proof (get_entry_spec _ _ _ idx R Hi) as Hg.
  destruct (t_nth t idx) as [[n v]|] eqn:En; [|by rewrite Hg].
  destruct Hg as (s & e & -> & -> & _ & _ & _ & _ & _ & _ & Hs). simpl.
  rewrite Hs, (rep_sum _ _ _ R), (rep_cap _ _ _ R). set (D := total (drop _ _)).
  assert (0 <= D <= t_cap t) by (pose proof (rep_fits _ _ _ R); pose proof (total_nonneg (drop (Z.to_nat (idx - t_first t)) (t_nvs t)));
    pose proof (total_drop (t_nvs t) (Z.to_nat (idx - t_first t))); unfold D; lia).
  pose proof (rep_mem _ _ _ R). pose proof (rm_cap_bound _ (rep_rm _ _ _ R)). clearbody D.
  assert (0 <= t_cap t / 8 <= t_cap t) by (split; [apply Z.div_pos|apply Z.div_le_upper_bound]; lia).
  by rewrite !u64_small by lia; replace (t_added t - (t_added t - D)) with D by lia.
Qed.

Lemma make_space_again t space t' : t_make_space t space = Some t' -> space <= t_cap t ->
  t_make_space t' space = Some t' /\ t_cap t' = t_cap t /\ t_end t' = t_end t /\ t_added t' = t_added t.
Proof.
  unfold t_make_space. intros H Hs. destruct (_ <=? t_cap t); [|done]. injection H as <-.
  pose proof (evict_fits (t_cap t) space (t_nvs t) Hs) as Hf.
  pose proof (total_drop (t_nvs (evicted t space)) (evictable (evicted t space))).
  assert (total (t_nvs (evicted t space)) + space <= t_cap (evicted t space)) by done.
  rewrite (evicted_none (evicted t space)), evicted_end by done. case_if; [done|zb].
Qed.

Lemma duplicate_spec es dt t idx : rep es dt t -> 0 <= idx < 2 ^ 64 ->
  t_added t + match t_nth t idx with Some p => size_of p | None => 0 end < 2 ^ 64 ->
  exists dt' es', xqc_dtable_duplicate true dt idx = Some (fst (t_duplicate t idx), dt')
  /\ rep es' dt' (snd (t_duplicate t idx)).
Proof.
  intros R Hi Hadd. unfold xqc_dtable_duplicate, t_duplicate. rewrite (get_nv_spec _ _ _ idx true R Hi). simpl.
  destruct (t_nth t idx) as [[n v]|] eqn:En; [|by exists dt, es].
  destruct (entry_fits _ _ _ _ _ _ R En) as (Hn & Hcap & Hsz). rewrite entry_size_spec by done.
  pose proof (make_space_spec _ _ _ (size_of (n, v)) R) as Hm.
  destruct (t_make_space t (size_of (n, v))) as [t1|] eqn:Et; [|rewrite Hm; by exists dt, es].
  destruct Hm as (dt1 & es1 & -> & R1). simpl. destruct (make_space_again _ _ _ Et Hcap) as (Hag & Hc1 & He1 & Ha1).
  destruct (add_entry_spec es1 dt1 t1 n v R1) as (dt2 & es2 & -> & R2); [lia|]. exists dt2, es2.
  unfold t_add in *. rewrite Hag, Hc1, He1 in *. case_if; [zb|]. case_if; [zb|done].
Qed.

Lemma set_min_ref_spec es dt t ref : rep es dt t -> 0 <= ref < 2 ^ 64 ->
  exists dt', xqc_dtable_set_min_ref dt ref = Some (fst (t_set_ref t ref), dt') /\ rep es dt' (snd (t_set_ref t ref)).
Proof.
  intros R Hr. unfold xqc_dtable_set_min_ref, t_set_ref. rewrite (rep_ref _ _ _ R).
  destruct (Z.eqb_spec ref (ref_value (t_ref t))) as [He|He].
  { rewrite bool_decide_eq_true_2 by done. by exists dt. }
  rewrite bool_decide_eq_false_2 by done.
  pose proof (rep_laid _ _ _ R) as Hl. pose proof (front_spec _ _ (rep_ra _ _ _ R) (rep_es _ _ _ R)) as Hf.
  destruct es as [|e0 es], (t_nvs t) as [|[n0 v0] rest] eqn:Ht; try done.
  { rewrite Hf, bool_decide_eq_true_2 by done. by exists dt. }
  destruct Hf as (-> & ->). rewrite bool_decide_eq_false_2 by done. simpl in Hl.
  destruct Hl as (_ & _ & _ & _ & _ & Ha & _). simpl. rewrite Ha. unfold xqc_rarray_size.
  rewrite (count_spec _ _ _ R). fold (t_end t). pose proof (end_bound _ _ _ R). pose proof (rep_sum_ok _ _ _ R).
  pose proof (rep_first_ok _ _ _ R). rewrite u64_small by (unfold t_end; unfold t_end in *; lia).
  destruct (ref =? XQC_INVALID_INDEX) eqn:Ei; simpl.
  - eexists. split; [done|]. zify_bools. subst ref. destruct R. by split; simpl.
  - rewrite (Z.ltb_antisym (t_first t) ref), (Z.leb_antisym ref (t_end t)). destruct (t_first t <=? ref) eqn:E1, (ref <? t_end t) eqn:E2; simpl;
      try (by exists dt). eexists. split; [done|]. zify_bools. destruct R. split; try done.
    simpl. intros r Hr'. injection Hr' as <-. simpl. unfold t_end in *. simpl. lia.
Qed.

(** What a new buffer holds is not known, only its size. *)
Definition junk_ok (junk : Z -> list Z) : Prop := forall n, 0 <= n -> zlen (junk n) = n.

(** The hash table has no nodes before the first entry. *)
Lemma ht_no_nodes ra es sidx ra' es' sidx' ht : opt_ht_ok ra es sidx 0 ht -> opt_ht_ok ra' es' sidx' 0 ht.
Proof. apply ht_mono. intros n (e & _ & _ & _ & _ & Ha). lia. Qed.

(** Either the array stays where it is, or nothing points into it. *)
Definition may_resize (dt : xqc_dtable_t) (t : table) (c : Z) : Prop :=
  t_hash t = false \/ t_end t = 0 \/ c / 32 <= ra_cap (entries dt).

Lemma resize_table_spec junk es dt t c : rep es dt t -> junk_ok junk -> total (t_nvs t) <= c <= 2 ^ 62 ->
  may_resize dt t c ->
  exists dt', resize_table true true junk dt c = (Ok tt, dt') /\ rep es dt' (with_cap t c).
Proof.
  intros R Hj Hc Hres. unfold resize_table. pose proof (total_nonneg (t_nvs t)).
  pose proof (rm_resize_spec true junk (rmem dt) c (rep_rm _ _ _ R) Hj ltac:(lia)) as Hrm.
  pose proof (total_content (t_nvs t)) as Htc. pose proof (zlen_rm_bytes _ (rep_rm _ _ _ R)) as Hu.
  rewrite (rep_bytes _ _ _ R) in Hu.
  destruct (xqc_ring_mem_resize true junk (rmem dt) c) as [r rm'] eqn:Er.
  destruct Hrm as (Hok & Hb & Hs & _ & _ & Hcap & Hr). specialize (Hr eq_refl ltac:(lia)) as ->.
  unfold xqc_dtable_max_entry_cnt, XQC_QPACK_ENTRY_SIZE_BASE. cbn [set_rmem entries].
  assert (0 <= c / 32 <= c) by (split; [apply Z.div_pos|apply Z.div_le_upper_bound]; lia).
  assert (ra_count (entries dt) <= c / 32).
  { rewrite (count_spec _ _ _ R). pose proof (total_count (t_nvs t)). apply Z.div_le_lower_bound; lia. }
  pose proof (resize_spec true (entries dt) (c / 32) (rep_ra _ _ _ R) ltac:(lia)) as Hra.
  destruct (xqc_rarray_resize true (entries dt) (c / 32)) as [r ra'].
  destruct Hra as (Hok' & Hl & Hr & Hrc & Hsame).
  replace (c / 32 <=? 2 ^ 63) with true in * by (symmetry; apply Z.leb_le; lia). simpl in Hr.
  rewrite orb_true_r in Hr. replace (c / 32 <? _) with false in Hr by (symmetry; apply Z.ltb_ge; lia). subst r.
  eexists. split; [done|]. simpl in Hrc. rewrite orb_false_r in Hrc.
  assert (c / 32 <= ra_cap ra').
  { rewrite Hrc. case_if; [zb|]. destruct (pow2_upper_spec (c / 32)) as (j & _ & -> & Hle & _); lia. }
  destruct R; split; simpl; try done; try congruence; try (split; [lia|by apply Hcap]); try lia.
  change (t_end (with_cap t c)) with (t_end t). destruct Hres as [Hh|[Hz|Hle]].
  - destruct (ht2d dt); [simpl in *; congruence|done].
  - rewrite Hz in *. by eapply ht_no_nodes.
  - rewrite Hsame, Hs; [done|]. rewrite Hrc. case_if; [done|zb].
Qed.

Lemma set_capacity_spec junk es dt t c : rep es dt t -> junk_ok junk -> 0 <= c <= 2 ^ 62 ->
  t_hash t = false \/ t_end t = 0 \/ c <= t_cap t ->
  exists dt' es', xqc_dtable_set_capacity true true junk dt c = Some (fst (t_set_capacity t c), dt')
  /\ rep es' dt' (snd (t_set_capacity t c)).
Proof.
  intros R Hj Hc Hres. unfold xqc_dtable_set_capacity, t_set_capacity. rewrite (rep_cap _ _ _ R).
  destruct (c <? t_cap t) eqn:E; zify_bools; simpl.
  - pose proof (make_space_spec _ _ _ (t_cap t - c) R) as Hm.
    destruct (t_make_space t (t_cap t - c)) as [t1|] eqn:Et; [|rewrite Hm; by exists dt, es].
    destruct Hm as (dt1 & es1 & -> & R1). simpl.
    destruct (make_space_again _ _ _ Et ltac:(lia)) as (Hag & Hc1 & He1 & _).
    assert (total (t_nvs t1) <= c).
    { unfold t_make_space in Et. destruct (_ <=? t_cap t); [|done]. injection Et as <-.
      pose proof (evict_fits (t_cap t) (t_cap t - c) (t_nvs t) ltac:(lia)). simpl. lia. }
    destruct (resize_table_spec junk es1 dt1 t1 c R1 Hj) as (dt' & -> & R'); [lia| |by exists dt', es1].
    right; right. pose proof (rep_slots _ _ _ R1). pose proof (Z.div_le_mono c (t_cap t1) 32). lia.
  - destruct (resize_table_spec junk es dt t c R Hj) as (dt' & -> & R'); [pose proof (rep_fits _ _ _ R); lia| |by exists dt', es].
    destruct Hres as [?|[?|?]]; [by left|by right; left|right; right].
    pose proof (rep_slots _ _ _ R). pose proof (Z.div_le_mono c (t_cap t) 32). lia.
Qed.

(** ** Lookup *)

Lemma cmp_zero rm idx data : xqc_ring_mem_cmp rm idx data = 0 -> rm_sidx rm <= idx /\ 0 < zlen data.
Proof.
  unfold xqc_ring_mem_cmp. pose proof (zlen_nonneg data). destruct (_ || _ || _) eqn:E; [done|]. intros _. zb.
Qed.

(** The entry that a pointer of the hash table points to, when its name compares. *)
Lemma known_live es dt t e : rep es dt t -> known es (rm_sidx (rmem dt)) (t_end t) e -> rm_sidx (rmem dt) <= nidx e ->
  exists n v i e', t_nvs t !! i = Some (n, v) /\ loc e = loc e' /\ t_nth t (abs_index e) = Some (n, v)
  /\ entry_of e' (rm_sidx (rmem dt) + zlen (content (take i (t_nvs t)))) (t_first t + Z.of_nat i)
       (t_added t - total (t_nvs t) + total (take i (t_nvs t))) n v.
Proof.
  intros R ([Hk|Hk] & _) Hs; [|lia]. apply list_elem_of_fmap in Hk as (e' & Hl & He).
  apply list_elem_of_lookup in He as (i & Hi). pose proof (lookup_lt_Some _ _ _ Hi) as Hlt.
  rewrite (laid_length _ _ _ _ _ (rep_laid _ _ _ R)) in Hlt.
  destruct (lookup_lt_is_Some_2 _ _ Hlt) as ([n v] & Hnv).
  destruct (laid_lookup _ _ _ _ _ _ _ _ (rep_laid _ _ _ R) Hnv) as (e2 & He2 & Hent).
  assert (e2 = e') as -> by congruence. exists n, v, i, e'. split; [done|]. split; [done|]. split; [|done].
  assert (abs_index e = t_first t + Z.of_nat i) as ->.
  { destruct Hent as (_ & _ & _ & _ & _ & <- & _). unfold loc in Hl. by injection Hl. }
  unfold t_nth. case_if; [zb|]. by replace (Z.to_nat (t_first t + Z.of_nat i - t_first t)) with i by lia.
Qed.

Lemma cmp_block rm a b c idx data : rm_ok rm -> rm_bytes rm = a ++ b ++ c -> idx = rm_sidx rm + zlen a ->
  zlen b = zlen data -> xqc_ring_mem_cmp rm idx data = 0 -> b = data.
Proof.
  intros Hok Hb Hi Hl Hc. destruct (cmp_zero _ _ _ Hc) as (Hs & Hd). pose proof (zlen_rm_bytes _ Hok) as Hu.
  rewrite Hb, !zlen_app in Hu. pose proof (zlen_nonneg c). pose proof (rm_end _ Hok). pose proof (rm_idx _ Hok). pose proof (rm_start _ Hok).
  apply cmp_spec in Hc as (_ & _ & Heq); [|done..|lia|lia]. rewrite Hb in Heq. rewrite <- Heq. symmetry.
  apply sub_bytes_mid; lia.
Qed.

(** A comparison that finds something finds it in the table. *)
Lemma compare_spec es dt t e n v dim : rep es dt t -> known es (rm_sidx (rmem dt)) (t_end t) e ->
  match compare_nv (rmem dt) e n v dim with
  | XQC_2D_CMP_RES_NONE => True
  | XQC_2D_CMP_RES_1D => exists v', t_nth t (abs_index e) = Some (n, v')
  | XQC_2D_CMP_RES_2D => t_nth t (abs_index e) = Some (n, v)
  end.
Proof.
  intros R Hk. unfold compare_nv. destruct (nlen e =? zlen n) eqn:En; [|done].
  destruct (xqc_ring_mem_cmp (rmem dt) (nidx e) n =? 0) eqn:Ec; [|done]. zify_bools.
  destruct (cmp_zero _ _ _ Ec) as (Hs & _).
  destruct (known_live _ _ _ _ R Hk Hs) as (n' & v' & i & e' & Hnv & Hl & Hnth & Hent).
  unfold loc in Hl. injection Hl as H1 H2 H3 H4 H5. rewrite Hnth.
  destruct Hent as (Hn & Hni & Hnl & Hvl & Hvi & _). rewrite H1, H2, H3, H4 in *.
  pose proof (rep_bytes _ _ _ R) as Hb. rewrite (content_piece _ _ _ _ Hnv) in Hb.
  assert (n' = n) as -> by (eapply (cmp_block (rmem dt)); [exact (rep_rm _ _ _ R)|exact Hb|done|lia|done]).
  destruct dim; [by exists v'|]. destruct (vlen e' =? zlen v) eqn:Ev; [|by exists v'].
  destruct (xqc_ring_mem_cmp (rmem dt) (vidx e') v =? 0) eqn:Ecv; [|by exists v']. zify_bools.
  destruct (cmp_zero _ _ _ Ecv) as (_ & Hv). rewrite Hvi in Ecv. replace (0 <? zlen v') with true in Ecv by (symmetry; apply Z.ltb_lt; lia).
  rewrite app_assoc in Hb.
  assert (v' = v) as -> by (eapply (cmp_block (rmem dt)); [exact (rep_rm _ _ _ R)|exact Hb|rewrite zlen_app|lia|exact Ecv]; lia).
  done.
Qed.

(** What a lookup may return. *)
Definition lookup_sound (t : table) (n v : list Z) (out : xqc_nv_ref_type_t * option Z) : Prop :=
  match out with
  | (XQC_NV_REF_NONE, None) => True
  | (XQC_NV_REF_NAME, Some i) => exists v', t_nth t i = Some (n, v')
  | (XQC_NV_REF_NAME_AND_VALUE, Some i) => t_nth t i = Some (n, v)
  | _ => False
  end.

Lemma lookup_spec es dt t n v : rep es dt t -> t_hash t = true ->
  exists out, xqc_dtable_lookup dt n v = Some out /\ lookup_sound t n v out.
Proof.
  intros R Hh. unfold xqc_dtable_lookup. case_if; [by eexists|]. pose proof (rep_ht _ _ _ R) as Hht.
  pose proof (rep_hash _ _ _ R) as Hhas. destruct (ht2d dt) as [ht|]; [|simpl in *; congruence].
  destruct (hash_lookup_spec _ _ _ _ (fun e dim => compare_nv (rmem dt) e n v dim) ht (xqc_murmur_hash2 n)
              (xqc_dtable_make_value_hash v) Hht) as (r & p & Hl & Hr).
  unfold xqc_dtable_compare_nv. rewrite Hl. simpl. destruct Hr as [->|(d & e & dim & -> & Hd & Hk & Hc)]; [by eexists|].
  pose proof (compare_spec _ _ _ _ n v dim R Hk) as Hcs. rewrite Hc in Hcs.
  destruct r; [by eexists| |]; rewrite Hd; simpl; by eexists.
Qed.

End DTableSpec.
