(* ===== verification/DTableRefine.v ===== *)
(** Runs of the dynamic table against the abstract one: refinement, the protection of referred
    entries, and what evictions and a growing capacity do to the hash table. *)

From stdpp Require Import base numbers list relations.
From S2P Require Import Prelude RingArray RingMem DTable DTableSpec.
Import RingArray RingMem DTable DTableSpec.

Module DTableRefine.

(** ** Runs *)

Inductive dt_op :=
| Op_add (name value : list Z)
| Op_get (idx : Z) (want_value : bool)
| Op_entry_size (idx : Z)
| Op_lookup (name value : list Z)
| Op_min_ref (ref : Z)
| Op_capacity (cap : Z)
| Op_duplicate (idx : Z)
| Op_draining (idx : Z).

Inductive dt_out :=
| Out_idx (r : res Z)
| Out_nv (r : res (list Z * list Z))
| Out_ref (r : xqc_nv_ref_type_t * option Z)
| Out_done (r : res unit)
| Out_bool (r : res bool).

Section run.

Context (junk : Z -> list Z).

Definition dt_step (dt : xqc_dtable_t) (op : dt_op) : option (dt_out * xqc_dtable_t) :=
  match op with
  | Op_add n v => '(r, dt) ← xqc_dtable_add true dt n v; Some (Out_idx r, dt)
  | Op_get i want => r ← xqc_dtable_get_nv dt i want; Some (Out_nv r, dt)
  | Op_entry_size i => r ← xqc_dtable_get_entry_size dt i; Some (Out_idx r, dt)
  | Op_lookup n v => r ← xqc_dtable_lookup dt n v; Some (Out_ref r, dt)
  | Op_min_ref r => '(r, dt) ← xqc_dtable_set_min_ref dt r; Some (Out_done r, dt)
  | Op_capacity c => '(r, dt) ← xqc_dtable_set_capacity true true junk dt c; Some (Out_done r, dt)
  | Op_duplicate i => '(r, dt) ← xqc_dtable_duplicate true dt i; Some (Out_idx r, dt)
  | Op_draining i => r ← xqc_dtable_is_entry_draining dt i; Some (Out_bool r, dt)
  end.

Fixpoint dt_run (dt : xqc_dtable_t) (ops : list dt_op) : option (list dt_out * xqc_dtable_t) :=
  match ops with
  | [] => Some ([], dt)
  | op :: rest => '(o, dt) ← dt_step dt op; '(os, dt) ← dt_run dt rest; Some (o :: os, dt)
  end.

(** The abstract table after an operation. *)
Definition t_next (t : table) (op : dt_op) : table :=
  match op with
  | Op_add n v => snd (t_add t n v)
  | Op_min_ref r => snd (t_set_ref t r)
  | Op_capacity c => snd (t_set_capacity t c)
  | Op_duplicate i => snd (t_duplicate t i)
  | _ => t
  end.

(** What the operation returns. *)
Definition t_out (t : table) (op : dt_op) (out : dt_out) : Prop :=
  match op with
  | Op_add n v => out = Out_idx (fst (t_add t n v))
  | Op_get i want =>
      out = Out_nv (match t_nth t i with
                    | Some (n, v) => Ok (n, if want : bool then v else [])
                    | None => Err XQC_QPACK_DYNAMIC_TABLE_VOID_ENTRY
                    end)
  | Op_entry_size i =>
      out = Out_idx (match t_nth t i with
                     | Some p => Ok (size_of p)
                     | None => Err XQC_QPACK_DYNAMIC_TABLE_VOID_ENTRY
                     end)
  | Op_lookup n v => exists r, out = Out_ref r /\ lookup_sound t n v r
  | Op_min_ref r => out = Out_done (fst (t_set_ref t r))
  | Op_capacity c => out = Out_done (fst (t_set_capacity t c))
  | Op_duplicate i => out = Out_idx (fst (t_duplicate t i))
  | Op_draining i => out = Out_bool (t_draining t i)
  end.

(** Indices are 64 bits wide, less than 2^64 bytes are ever added, and a table with a hash table
    does not grow once it has had entries. *)
Definition op_ok (t : table) (op : dt_op) : Prop :=
  match op with
  | Op_add n v => t_added t + size_of (n, v) < 2 ^ 64
  | Op_get i _ | Op_entry_size i | Op_min_ref i | Op_draining i => 0 <= i < 2 ^ 64
  | Op_lookup _ _ => t_hash t = true
  | Op_capacity c => 0 <= c <= 2 ^ 62 /\ (t_hash t = false \/ t_end t = 0 \/ c <= t_cap t)
  | Op_duplicate i =>
      0 <= i < 2 ^ 64 /\ t_added t + match t_nth t i with Some p => size_of p | None => 0 end < 2 ^ 64
  end.

#[global] Instance op_ok_dec t op : Decision (op_ok t op).
Proof. destruct op; simpl; apply _. Defined.

Fixpoint ops_ok (t : table) (ops : list dt_op) : Prop :=
  match ops with [] => True | op :: rest => op_ok t op /\ ops_ok (t_next t op) rest end.

#[global] Instance ops_ok_dec t ops : Decision (ops_ok t ops).
Proof. revert t. induction ops as [|op ops IH]; intros t; simpl; apply _. Defined.

Fixpoint outs_ok (t : table) (ops : list dt_op) (outs : list dt_out) : Prop :=
  match ops, outs with
  | [], [] => True
  | op :: ops, out :: outs => t_out t op out /\ outs_ok (t_next t op) ops outs
  | _, _ => False
  end.

Lemma dt_step_refines es dt t op : rep es dt t -> op_ok t op -> junk_ok junk ->
  exists out dt' es', dt_step dt op = Some (out, dt') /\ t_out t op out /\ rep es' dt' (t_next t op).
Proof.
  intros R Hop Hj. destruct op as [n v|i want|i|n v|r|c|i|i]; simpl in *.
  - destruct (add_entry_spec _ _ _ _ _ R Hop) as (dt' & es' & -> & R'). by eexists _, dt', es'.
  - rewrite (get_nv_spec _ _ _ _ _ R Hop). by eexists _, dt, es.
  - rewrite (get_entry_size_spec _ _ _ _ R Hop). by eexists _, dt, es.
  - destruct (lookup_spec _ _ _ n v R Hop) as (out & -> & Hs). eexists _, dt, es. split; [done|]. split; [by exists out|done].
  - destruct (set_min_ref_spec _ _ _ _ R Hop) as (dt' & -> & R'). by eexists _, dt', es.
  - destruct Hop as [Hc Hh]. destruct (set_capacity_spec junk _ _ _ _ R Hj Hc Hh) as (dt' & es' & -> & R').
    by eexists _, dt', es'.
  - destruct Hop as [Hi Ha]. destruct (duplicate_spec _ _ _ _ R Hi Ha) as (dt' & es' & -> & R'). by eexists _, dt', es'.
  - rewrite (draining_spec _ _ _ _ R Hop). by eexists _, dt, es.
Qed.

Lemma dt_run_refines es dt t ops : rep es dt t -> ops_ok t ops -> junk_ok junk ->
  exists outs dt' es', dt_run dt ops = Some (outs, dt') /\ outs_ok t ops outs
  /\ rep es' dt' (foldl t_next t ops).
Proof.
  intros R Hops Hj. revert es dt t R Hops. induction ops as [|op ops IH]; intros es dt t R Hops.
  { by exists [], dt, es. }
  destruct Hops as [Hop Hrest]. destruct (dt_step_refines _ _ _ _ R Hop Hj) as (out & dt1 & es1 & Hs & Ho & R1).
  destruct (IH _ _ _ R1 Hrest) as (outs & dt2 & es2 & Hr & Hos & R2).
  exists (out :: outs), dt2, es2. simpl. rewrite Hs. simpl. by rewrite Hr.
Qed.

End run.

(** ** Creation *)

Definition XQC_QPACK_DEFAULT_HASH_TABLE_SIZE : Z := 128.

Definition t_empty (hash : bool) : table := mk_table 0 [] 0 None 0 hash.

Lemma create_rep esize hash : esize <> 0 ->
  exists dt, xqc_dtable_create true esize XQC_QPACK_DEFAULT_HASH_TABLE_SIZE hash = Some dt /\ rep [] dt (t_empty hash).
Proof.
  intros He. unfold xqc_dtable_create.
  destruct (create_spec (A := xqc_dtable_entry_t) 0 esize He ltac:(lia)) as (ra & -> & Hok & Hl & Hc).
  set (rm := mk_rm [] 0 (u64 (0 - 1)) 0 0 0).
  assert (rm_ok rm) as Hrm by (split; simpl; (by left) || lia || done).
  assert (exists ht, (if hash then h ← xqc_2d_hash_table_create true XQC_QPACK_DEFAULT_HASH_TABLE_SIZE; Some (Some h)
                      else Some None) = Some ht /\ has ht = hash /\ opt_ht_ok ra [] 0 0 ht) as (ht & Hht & Hhas & Hhok).
  { destruct hash; [|by exists None]. eexists. split; [vm_compute; reflexivity|]. split; [done|].
    split; [by exists 7|]. repeat (constructor; [by exists []|]). constructor. }
  exists (mk_dt ht ra rm 0 0 0 0 0 XQC_INVALID_INDEX).
  replace (XQC_QPACK_DEFAULT_HASH_TABLE_SIZE =? 0) with false by done. rewrite Hht. split; [done|].
  split; simpl; try done; lia.
Qed.

(** ** Refinement *)

(** C15: A dynamic table is a list of name-value pairs: whatever is done to a new table, every
    call returns what the list gives, insertions evict exactly the oldest entries that have to
    go and fail without effect when those are still referred to, a lookup only finds entries that
    match, and no call reads memory that is freed or was never written. The conditions ([ops_ok]):
    indices have 64 bits, less than 2^64 bytes are added, lookups are made on a table with a hash
    table, and the capacity of such a table is not raised once it has had entries, after which the
    last claim fails ([growth_leaves_dangling_nodes]). All allocations succeed. *)
Theorem dtable_refines junk esize hash ops : esize <> 0 -> junk_ok junk -> ops_ok (t_empty hash) ops ->
  exists dt outs dt' es,
  xqc_dtable_create true esize XQC_QPACK_DEFAULT_HASH_TABLE_SIZE hash = Some dt
  /\ dt_run junk dt ops = Some (outs, dt') /\ outs_ok (t_empty hash) ops outs
  /\ rep es dt' (foldl t_next (t_empty hash) ops).
Proof.
  intros He Hj Hops. destruct (create_rep esize hash He) as (dt & Hc & R).
  destruct (dt_run_refines junk _ _ _ ops R Hops Hj) as (outs & dt' & es & Hr & Ho & R'). by exists dt, outs, dt', es.
Qed.

(** ** Referred entries *)

Definition keeps_ref (op : dt_op) : Prop := match op with Op_min_ref _ => False | _ => True end.


(** The entries from [r] on are the same in both tables. *)
Definition same_from (r : Z) (t t' : table) : Prop :=
  t_ref t' = t_ref t /\ t_end t <= t_end t' /\ t_first t' <= r /\ forall i, r <= i < t_end t -> t_nth t' i = t_nth t i.

Lemma same_from_refl r t : t_first t <= r -> same_from r t t.
Proof. by unfold same_from. Qed.

Lemma same_from_trans r t1 t2 t3 : same_from r t1 t2 -> same_from r t2 t3 -> same_from r t1 t3.
Proof.
  intros (H1 & H2 & H3 & H4) (K1 & K2 & K3 & K4). split; [congruence|]. split; [lia|]. split; [done|].
  intros i Hi. rewrite K4 by lia. by apply H4.
Qed.

Lemma same_space r t space t' : t_ref t = Some r -> t_first t <= r < t_end t -> t_make_space t space = Some t' ->
  same_from r t t'.
Proof.
  unfold t_make_space. intros Hr Hb H. destruct (_ <=? t_cap t) eqn:E; [|done]. injection H as <-. zify_bools.
  destruct (evict_least _ _ _ _ E) as (k & Hk & Hle). unfold evictable in Hle. rewrite Hr in Hle.
  assert (t_first (evicted t space) = t_first t + Z.of_nat k) as Hf.
  { unfold evicted. simpl. rewrite Hk, length_drop. unfold t_end in *. lia. }
  split; [done|]. rewrite evicted_end. split; [done|]. split; [lia|]. intros i Hi. unfold t_nth. rewrite Hf.
  case_if; [zb|]. case_if; [zb|]. zify_bools. simpl. rewrite Hk, lookup_drop. f_equal. lia.
Qed.

Lemma same_push r t n v : t_first t <= r -> same_from r t (t_push t n v).
Proof.
  intros Hr. unfold same_from, t_end, t_nth. simpl. rewrite length_app. split; [done|]. split; [lia|]. split; [done|].
  intros i Hi. case_if; [done|]. rewrite lookup_app_l by zb. done.
Qed.

Lemma same_cap r t c : t_first t <= r -> same_from r t (with_cap t c).
Proof. by unfold same_from. Qed.

Lemma same_next r t op : t_ref t = Some r -> t_first t <= r < t_end t -> keeps_ref op -> same_from r t (t_next t op).
Proof.
  intros Hr Hb Hk. pose proof (same_from_refl r t ltac:(lia)) as Hrefl.
  destruct op as [n v|i want|i|n v|ref|c|i|i]; simpl; try done.
  - unfold t_add. case_if; [done|]. case_if; [done|]. destruct (t_make_space t _) as [t'|] eqn:Et; [|done].
    pose proof (same_space _ _ _ _ Hr Hb Et) as Hs. eapply same_from_trans; [exact Hs|]. apply same_push. apply Hs.
  - unfold t_set_capacity. case_if; [|apply same_cap; lia]. destruct (t_make_space t _) as [t'|] eqn:Et; [|done].
    pose proof (same_space _ _ _ _ Hr Hb Et) as Hs. eapply same_from_trans; [exact Hs|]. apply same_cap. apply Hs.
  - unfold t_duplicate. destruct (t_nth t i) as [[n v]|]; [|done]. destruct (t_make_space t _) as [t'|] eqn:Et; [|done].
    pose proof (same_space _ _ _ _ Hr Hb Et) as Hs. eapply same_from_trans; [exact Hs|]. apply same_push. apply Hs.
Qed.

Lemma same_run r t ops : t_ref t = Some r -> t_first t <= r < t_end t -> Forall keeps_ref ops ->
  same_from r t (foldl t_next t ops).
Proof.
  intros Hr Hb Hk. revert t Hr Hb. induction Hk as [|op ops Hop Hk IH]; intros t Hr Hb; [apply same_from_refl; simpl; lia|].
  pose proof (same_next r t op Hr Hb Hop) as Hs. simpl. eapply same_from_trans; [exact Hs|].
  destruct Hs as (H1 & H2 & H3 & H4). apply IH; [congruence|lia].
Qed.

(** An entry that is referred to is never evicted: from the moment the smallest referred
    index is set, no sequence of insertions, duplications, lookups and changes of the capacity
    changes what the entries from that index on give, until the index is set again. *)
Theorem referred_entries_stay junk es dt t r ops idx : rep es dt t -> junk_ok junk ->
  t_ref t = Some r -> ops_ok t ops -> Forall keeps_ref ops -> r <= idx < insert_cnt dt ->
  exists outs dt' name value, dt_run junk dt ops = Some (outs, dt')
  /\ xqc_dtable_get_nv dt idx true = Some (Ok (name, value))
  /\ xqc_dtable_get_nv dt' idx true = Some (Ok (name, value)).
Proof.
  intros R Hj Hr Hops Hk Hi. rewrite (rep_cnt _ _ _ R) in Hi. pose proof (rep_ref_ok _ _ _ R r Hr) as Hb.
  destruct (dt_run_refines junk _ _ _ _ R Hops Hj) as (outs & dt' & es' & Hrun & _ & R').
  pose proof (end_bound _ _ _ R). pose proof (rep_sum_ok _ _ _ R). pose proof (rep_first_ok _ _ _ R).
  destruct (same_run r t ops Hr Hb Hk) as (_ & _ & _ & Hsame). specialize (Hsame idx Hi).
  destruct (lookup_lt_is_Some_2 (t_nvs t) (Z.to_nat (idx - t_first t))) as ([n v] & Hl); [unfold t_end in *; lia|].
  assert (t_nth t idx = Some (n, v)) as Hn by (unfold t_nth; case_if; [zb|done]).
  exists outs, dt', n, v. split; [done|].
  rewrite (get_nv_spec _ _ _ idx true R), (get_nv_spec _ _ _ idx true R'), Hsame, Hn by lia. done.
Qed.

(** ** The nodes of the hash table *)

(** A search that comes to a result read an entry through the first node with the hash of the
    name; where that pointer is dead, the search reads freed memory. *)
Lemma lookup_reads vcmp vcmp' l h1 h2 r p :
  (forall n d, In n l -> vcmp (nd_data n) d <> None -> vcmp' (nd_data n) d = None) ->
  lookup_loop vcmp l h1 h2 XQC_2D_CMP_RES_NONE None = Some (r, p) -> p <> None ->
  lookup_loop vcmp' l h1 h2 XQC_2D_CMP_RES_NONE None = None.
Proof.
  induction l as [|n l IH]; intros Hd; cbn [lookup_loop]; [by intros [= _ <-]|].
  destruct (hash1 n =? h1); [|apply IH; intros; apply Hd; [by right|done]].
  pose proof (Hd n) as Hn. destruct (hash2 n =? h2).
  - destruct (vcmp (nd_data n) XQC_2D_CMP_DIM_2) as [x|] eqn:E; [|done]. intros _ _.
    by rewrite Hn by (by left || congruence).
  - destruct (vcmp (nd_data n) XQC_2D_CMP_DIM_1) as [x|] eqn:E; [|done]. intros _ _.
    by rewrite Hn by (by left || congruence).
Qed.

Lemma resize_keeps_nodes mem1 mem2 junk dt c r dt' : resize_table mem1 mem2 junk dt c = (r, dt') ->
  ht2d dt' = ht2d dt /\ dt_used dt' = dt_used dt.
Proof. unfold resize_table. repeat case_match; intros; by simplify_eq. Qed.

Lemma resize_moves junk dt c dt' : ra_cap (entries dt) < c / 32 -> resize_table true true junk dt c = (Ok tt, dt') ->
  ra_alloc (entries dt') = ra_alloc (entries dt) + 1.
Proof.
  intros Hc. unfold resize_table, xqc_rarray_resize, xqc_dtable_max_entry_cnt, XQC_QPACK_ENTRY_SIZE_BASE.
  destruct (xqc_ring_mem_resize true junk (rmem dt) c) as [[]]; [|done]. cbn [set_rmem entries].
  case_if; [done|]. rewrite (proj2 (Z.leb_gt _ _)) by lia. repeat case_if; try done; by intros [= <-].
Qed.

(** The table without its hash table is one of those that may grow. *)
Lemma growth_succeeds junk es dt t c : rep es dt t -> junk_ok junk -> t_cap t <= c <= 2 ^ 62 ->
  exists dt', resize_table true true junk dt c = (Ok tt, dt').
Proof.
  intros R Hj Hc. set (t0 := mk_table (t_first t) (t_nvs t) (t_cap t) (t_ref t) (t_added t) false).
  assert (rep es (set_ht dt None) t0) as R0 by (destruct R; by split).
  destruct (resize_table_spec junk es (set_ht dt None) t0 c R0 Hj) as (dt' & Hr & _);
    [pose proof (rep_fits _ _ _ R); simpl; lia|by left|].
  revert Hr. unfold resize_table. cbn [set_ht set_rmem rmem entries].
  destruct (xqc_ring_mem_resize true junk (rmem dt) c) as [[]]; [|done].
  destruct (xqc_rarray_resize true (entries dt) _) as [[]]; [|done]. intros _. by eexists.
Qed.

(** C38: When the capacity of a table with a hash table is raised so far that the array of the
    entries has to grow, the array is moved and the old one freed, and the nodes of the hash table
    still point into the old one: every pair for which a lookup found an entry before reads
    freed memory afterwards. *)
Theorem growth_leaves_dangling_nodes junk es dt t name value r i c : rep es dt t -> junk_ok junk ->
  t_cap t <= c <= 2 ^ 62 -> ra_cap (entries dt) < c / 32 ->
  xqc_dtable_lookup dt name value = Some (r, Some i) ->
  exists dt', xqc_dtable_set_capacity true true junk dt c = Some (Ok tt, dt')
  /\ xqc_dtable_lookup dt' name value = None.
Proof.
  intros R Hj Hc Hgrow Hl. destruct (growth_succeeds junk es dt t c R Hj Hc) as (dt' & Hr). exists dt'.
  pose proof (resize_keeps_nodes _ _ _ _ _ _ _ Hr) as [Hht Hused]. pose proof (resize_moves _ _ _ _ Hgrow Hr) as Hmove.
  unfold xqc_dtable_set_capacity. rewrite (rep_cap _ _ _ R), (proj2 (Z.ltb_ge _ _)) by lia. cbn [mbind option_bind].
  split; [by rewrite Hr|]. revert Hl. unfold xqc_dtable_lookup. rewrite Hht, Hused.
  destruct (dt_used dt =? 0); [done|]. destruct (ht2d dt) as [ht|]; [|done]. unfold xqc_2d_hash_lookup.
  destruct (ht_bucket ht _) as [l|]; [|done]. cbn [mbind option_bind].
  destruct (lookup_loop (xqc_dtable_compare_nv dt name value) l _ _ _ _) as [[x p]|] eqn:El; [|done].
  cbn [mbind option_bind]. intros Hx.
  apply (lookup_reads _ (xqc_dtable_compare_nv dt' name value)) in El; [by rewrite El|..].
  - intros n d _. unfold xqc_dtable_compare_nv, deref. rewrite Hmove.
    destruct (fst (nd_data n) =? ra_alloc (entries dt)) eqn:E; [|done].
    zify_bools. intros _. rewrite (proj2 (Z.eqb_neq _ _)) by lia. done.
  - intros ->. by destruct x.
Qed.

Lemma remove_absent dcmp l h1 h2 data : Forall (fun n => ~ (hash1 n = h1 /\ hash2 n = h2)) l -> remove_node dcmp l h1 h2 data = Some l.
Proof.
  induction 1 as [|n l Hn _ IH]; [done|]. cbn [remove_node].
  destruct ((hash1 n =? h1) && (hash2 n =? h2)) eqn:E.
  { exfalso. apply andb_prop in E as [E1 E2]. zify_bools. by apply Hn. }
  cbn [mbind option_bind]. by rewrite IH.
Qed.

(** An eviction removes the node whose hashes are the positions of name and value in the ring
    memory: where there is none, the node of the evicted entry stays. *)
Lemma evicted_node_stays dt dt' s e ht : xqc_rarray_front (entries dt) = Some s -> ra_at (entries dt) s = Some e ->
  ht2d dt = Some ht ->
  (forall l, ht_bucket ht (nidx e) = Some l -> Forall (fun n => ~ (hash1 n = nidx e /\ hash2 n = vidx e)) l) ->
  xqc_dtable_pop_entry dt = Some (Ok tt, dt') -> ht2d dt' = Some ht.
Proof.
  intros Hs He Hht Hn. unfold xqc_dtable_pop_entry. rewrite Hs, He. cbn [mbind option_bind].
  case_if; [done|]. destruct (xqc_dtable_dequeue_nv _ _) as [[]]; [|done]. cbn [set_rmem ht2d]. rewrite Hht.
  unfold xqc_2d_hash_table_remove. destruct (ht_bucket ht (nidx e)) as [l|] eqn:El; [|done]. cbn [mbind option_bind].
  rewrite remove_absent by by apply Hn. cbn [mbind option_bind].
  destruct (xqc_rarray_pop_front _) as [[]]; [|done]. intros [= <-]. cbn [set_counts set_entries set_ht ht2d]. f_equal.
  unfold ht_set. destruct ht as [lst mask]. cbn [ht_list ht_mask] in *. f_equal. apply list_insert_id.
  unfold ht_bucket in El. cbn [ht_list ht_mask] in El. rewrite list.nth_lookup in El.
  destruct (lst !! _) as [bkt|] eqn:Ex; [|done]. simpl in El. by rewrite El.
Qed.

(** ** Examples *)

(** Insertions that evict, a wrap around both rings, a refusal, a duplicate, a smaller table. *)
Definition ex_dt_ops : list dt_op :=
  [Op_capacity 120; Op_add [97] [49; 50]; Op_add [98; 99] []; Op_add [100] [51]; Op_min_ref 1;
   Op_add [101; 102; 103] [52; 53; 54; 55]; Op_add [101; 102; 103] [52; 53; 54; 55]; Op_lookup [98; 99] [];
   Op_duplicate 2; Op_min_ref XQC_INVALID_INDEX; Op_duplicate 2; Op_get 3 true; Op_entry_size 3;
   Op_capacity 40; Op_draining 4; Op_get 2 false; Op_add [] []; Op_capacity 34].

Definition ex_junk (n : Z) : list Z := replicate (Z.to_nat n) 7.

Lemma ex_junk_ok : junk_ok ex_junk.
Proof. intros n Hn. unfold ex_junk, zlen. rewrite length_replicate. lia. Qed.

Lemma dtable_refines_witness :
  (exists dt outs dt' es,
    xqc_dtable_create true 64 XQC_QPACK_DEFAULT_HASH_TABLE_SIZE true = Some dt
    /\ dt_run ex_junk dt ex_dt_ops = Some (outs, dt') /\ outs_ok (t_empty true) ex_dt_ops outs
    /\ rep es dt' (foldl t_next (t_empty true) ex_dt_ops))
  /\ foldl t_next (t_empty true) ex_dt_ops = mk_table 4 [([100], [51])] 34 None 176 true.
Proof.
  split; [apply (dtable_refines ex_junk 64 true ex_dt_ops); [done|exact ex_junk_ok|by_decide]|vm_compute; reflexivity].
Defined.

(** A table of 40 bytes with one pair, raised to 4096 bytes. *)
Lemma growth_leaves_dangling_nodes_witness :
  exists dt dt', xqc_dtable_lookup dt [97] [49] = Some (XQC_NV_REF_NAME_AND_VALUE, Some 0)
  /\ xqc_dtable_set_capacity true true ex_junk dt 4096 = Some (Ok tt, dt')
  /\ xqc_dtable_lookup dt' [97] [49] = None.
Proof.
  destruct (create_rep 64 true ltac:(lia)) as (dt0 & H0 & R0).
  destruct (dt_run_refines ex_junk _ _ _ [Op_capacity 40; Op_add [97] [49]] R0 ltac:(by_decide) ex_junk_ok)
    as (outs & dt & es & Hrun & _ & R).
  vm_compute in H0. injection H0 as <-. vm_compute in Hrun. injection Hrun as _ <-.
  match type of R with rep _ ?d _ => exists d end.
  destruct (growth_leaves_dangling_nodes ex_junk es _ _ [97] [49] XQC_NV_REF_NAME_AND_VALUE 0 4096 R ex_junk_ok)
    as (dt' & H1 & H2); [by_decide|vm_compute; reflexivity|vm_compute; reflexivity|].
  exists dt'. split; [vm_compute; reflexivity|exact (conj H1 H2)].
Defined.

(** The table with three entries of which the second is referred to. *)
Lemma referred_entries_stay_witness :
  exists es dt outs dt' name value,
  rep es dt (foldl t_next (t_empty true) (take 5 ex_dt_ops))
  /\ dt_run ex_junk dt (take 4 (drop 5 ex_dt_ops)) = Some (outs, dt')
  /\ xqc_dtable_get_nv dt 1 true = Some (Ok (name, value)) /\ xqc_dtable_get_nv dt' 1 true = Some (Ok (name, value)).
Proof.
  destruct (create_rep 64 true ltac:(lia)) as (dt0 & _ & R0).
  destruct (dt_run_refines ex_junk _ _ _ (take 5 ex_dt_ops) R0 ltac:(by_decide) ex_junk_ok) as (outs & dt & es & _ & _ & R).
  destruct (referred_entries_stay ex_junk es dt _ 1 (take 4 (drop 5 ex_dt_ops)) 1 R ex_junk_ok)
    as (outs' & dt' & name & value & H); [reflexivity|by_decide|repeat constructor| |by exists es, dt, outs', dt', name, value].
  rewrite (rep_cnt _ _ _ R). by_decide.
Defined.

End DTableRefine.
