(* ===== verification/QpackInt.v ===== *)
(** The integers of QPACK with a prefix of N bits (src/src/http3/qpack/xqc_prefixed_int.c),
    written whole and read in any number of pieces. *)

From stdpp Require Import base numbers list.
From S2P Require Import Prelude.

Module QpackInt.

Definition XQC_QPACK_DECODER_VARINT_ERROR : Z := 900.
Definition XQC_QPACK_INT_MAX : Z := 2 ^ 62 - 1.

Record xqc_prefixed_int_t := mk_pi {
  pi_prefix : Z;
  pi_shift : Z;
  pi_value : Z;
}.

Definition xqc_prefixed_int_init (prefix : Z) : xqc_prefixed_int_t := mk_pi prefix 0 0.

(** [for (; p != end; ++p, shift += 7)]: the bytes read, whether the integer ended, its value and
    the shift. *)
Fixpoint int_loop (bytes : list Z) (p n shift : Z) : res (Z * bool * Z * Z) :=
  match bytes with
  | [] => Ok (p, false, n, shift)
  | b :: rest =>
      let add := b .& 0x7f in
      if 62 <? shift then Err XQC_QPACK_DECODER_VARINT_ERROR
      else if (XQC_QPACK_INT_MAX >> shift) <? add then Err XQC_QPACK_DECODER_VARINT_ERROR
      else
        let add := u64 (add << shift) in
        if u64 (XQC_QPACK_INT_MAX - add) <? n then Err XQC_QPACK_DECODER_VARINT_ERROR
        else
          let n := u64 (n + add) in
          if b .& (1 << 7) =? 0 then Ok (p + 1, true, n, shift) else int_loop rest (p + 1) n (shift + 7)
  end.

(** [data] is what lies between [begin] and [end], at least one byte. The result is the number of
    bytes that were read and whether the integer is complete. *)
Definition xqc_prefixed_int_read (pint : xqc_prefixed_int_t) (data : list Z)
    : res (Z * bool) * xqc_prefixed_int_t :=
  let prefix := if pi_prefix pint =? 0 then 8 else pi_prefix pint in
  let k := u8 ((1 << prefix) - 1) in
  let n := pi_value pint in
  let go r :=
    match r with
    | Err e => (Err e, mk_pi prefix 0 n)
    | Ok (p, fin, v, sh) => (Ok (p, fin), mk_pi prefix sh v)
    end in
  if n =? 0 then
    let b := rd data 0 in
    if negb (b .& k =? k) then (Ok (1, true), mk_pi prefix 0 (b .& k))
    else if zlen data =? 1 then (Ok (1, false), mk_pi prefix 0 k)
    else go (int_loop (drop 1 data) 1 k (pi_shift pint))
  else go (int_loop data 0 n (pi_shift pint)).

(** [for (; n >= 128; n >>= 7, ++len)]. *)
Fixpoint put_len_loop (fuel : nat) (n len : Z) : Z :=
  match fuel with
  | O => len
  | S f => if 128 <=? n then put_len_loop f (n >> 7) (len + 1) else len
  end.

Definition xqc_prefixed_int_put_len (n prefix : Z) : Z :=
  let k := (1 << prefix) - 1 in
  if n <? k then 1 else put_len_loop 10 (n - k) 1 + 1.

(** [for (; n >= 128; n >>= 7)] and the last byte. *)
Fixpoint put_loop (fuel : nat) (buf : list Z) (pos n : Z) : list Z * Z :=
  match fuel with
  | O => (buf, pos)
  | S f =>
      if 128 <=? n then put_loop f (wr buf pos [u8 ((1 << 7) .| (n .& 0x7f))]) (pos + 1) (n >> 7)
      else (wr buf pos [u8 n], pos + 1)
  end.

Definition xqc_prefixed_int_put (buf : list Z) (pos n prefix : Z) : list Z * Z :=
  let k := (1 << prefix) - 1 in
  let buf := wr buf pos [u8 (Z.ldiff (rd buf pos) k)] in
  if n <? k then (wr buf pos [u8 (rd buf pos .| n)], pos + 1)
  else put_loop 10 (wr buf pos [u8 (rd buf pos .| k)]) (pos + 1) (n - k).

(** ** The encoding *)

(** Seven bits a byte, the least significant first. *)
Fixpoint cont (fuel : nat) (n : Z) : list Z :=
  match fuel with
  | O => []
  | S f => if 128 <=? n then (128 + n mod 128) :: cont f (n / 128) else [n]
  end.

(** [hi] are the bits of the first byte above the prefix. *)
Definition enc_int (hi n prefix : Z) : list Z :=
  let k := 2 ^ prefix - 1 in
  if n <? k then [hi + n] else (hi + k) :: cont 10 (n - k).

Lemma cont_byte n : 0 <= n -> u8 ((1 << 7) .| (n .& 0x7f)) = 128 + n mod 128.
Proof.
  intros Hn. change 127 with (Z.ones 7). rewrite Z.land_ones by lia. change (2 ^ 7) with 128.
  pose proof (Z.mod_pos_bound n 128 ltac:(lia)). rewrite shiftl_lor_add by (change (2 ^ 7) with 128; lia).
  apply u8_small. change (2 ^ 7) with 128. lia.
Qed.

Lemma put_loop_spec fuel buf pos n : 0 <= pos -> 0 <= n ->
  put_loop fuel buf pos n = (wr buf pos (cont fuel n), pos + zlen (cont fuel n)).
Proof.
  revert buf pos n. induction fuel as [|f IH]; intros buf pos n Hp Hn; cbn [put_loop cont].
  { f_equal. unfold zlen. simpl. lia. }
  rewrite cont_byte, Z.shiftr_div_pow2 by lia. change (2 ^ 7) with 128. case_if; zify_bools.
  - rewrite IH by (try apply Z.div_pos; lia). rewrite zlen_cons. f_equal; [|lia].
    exact (wr_app buf pos [128 + n mod 128] _ Hp).
  - by rewrite u8_small by lia.
Qed.

Lemma put_len_loop_spec fuel n len : 0 <= n < 128 ^ Z.of_nat fuel -> fuel <> O ->
  put_len_loop fuel n len = len + zlen (cont fuel n) - 1.
Proof.
  revert n len. induction fuel as [|f IH]; intros n len Hn Hf; [done|]. cbn [put_len_loop cont].
  rewrite Z.shiftr_div_pow2 by lia. change (2 ^ 7) with 128. case_if; zify_bools; [|unfold zlen; simpl; lia].
  rewrite Nat2Z.inj_succ, Z.pow_succ_r in Hn by lia. destruct f as [|f]; [simpl in Hn; lia|].
  rewrite IH; [rewrite zlen_cons; lia| |done]. split; [apply Z.div_pos|apply Z.div_lt_upper_bound]; lia.
Qed.

Lemma shiftl_pow x n : 0 <= n -> x << n = x * 2 ^ n.
Proof. apply Z.shiftl_mul_pow2. Qed.

Lemma pow_le_256 p : 1 <= p <= 8 -> 2 <= 2 ^ p <= 256.
Proof. intros Hp. split; [apply (Z.pow_le_mono_r 2 1)|apply (Z.pow_le_mono_r 2 p 8)]; lia. Qed.

Lemma put_len_spec n prefix hi : 1 <= prefix <= 8 -> 0 <= n < 2 ^ 64 ->
  xqc_prefixed_int_put_len n prefix = zlen (enc_int hi n prefix).
Proof.
  intros Hp Hn. unfold xqc_prefixed_int_put_len, enc_int. rewrite shiftl_pow, Z.mul_1_l by lia.
  pose proof (pow_le_256 prefix Hp). case_if; zify_bools; [done|]. rewrite put_len_loop_spec; [|eval_pow; lia|done].
  rewrite zlen_cons. lia.
Qed.

(** The bits of a byte above the prefix. *)
Definition high_bits (b prefix : Z) : Z := b - b mod 2 ^ prefix.

Lemma ldiff_high b prefix : 0 <= prefix -> Z.ldiff b (2 ^ prefix - 1) = high_bits b prefix.
Proof.
  intros Hp. replace (2 ^ prefix - 1) with (Z.ones prefix) by (rewrite Z.ones_equiv; lia).
  rewrite Z.ldiff_ones_r, Z.shiftr_div_pow2, shiftl_pow by lia. unfold high_bits.
  rewrite Z.mod_eq by (apply Z.pow_nonzero; lia). lia.
Qed.

Lemma high_bits_range b prefix : is_byte b -> 1 <= prefix <= 8 -> 0 <= high_bits b prefix <= b /\ high_bits b prefix <= 256 - 2 ^ prefix.
Proof.
  intros Hb Hp. unfold high_bits, is_byte in *. pose proof (pow_le_256 prefix Hp).
  pose proof (Z.mod_pos_bound b (2 ^ prefix) ltac:(lia)). pose proof (Z.mod_le b (2 ^ prefix) ltac:(lia) ltac:(lia)).
  split; [lia|]. rewrite Z.mod_eq by lia.
  assert (b / 2 ^ prefix <= 256 / 2 ^ prefix - 1).
  { replace 256 with (2 ^ prefix * 2 ^ (8 - prefix)) by (rewrite <- Z.pow_add_r by lia; replace (prefix + (8 - prefix)) with 8 by lia; done).
    rewrite Z.mul_comm, Z.div_mul by lia. enough (b / 2 ^ prefix < 2 ^ (8 - prefix)) by lia.
    apply Z.div_lt_upper_bound; [lia|]. rewrite <- Z.pow_add_r by lia. replace (prefix + (8 - prefix)) with 8 by lia. lia. }
  assert (2 ^ prefix * (256 / 2 ^ prefix) <= 256) by (apply Z.mul_div_le; lia). nia.
Qed.

Lemma high_lor b prefix n : is_byte b -> 1 <= prefix <= 8 -> 0 <= n < 2 ^ prefix ->
  u8 (high_bits b prefix .| n) = high_bits b prefix + n.
Proof.
  intros Hb Hp Hn. pose proof (high_bits_range b prefix Hb Hp).
  assert (high_bits b prefix = (b / 2 ^ prefix) << prefix) as Heq.
  { rewrite shiftl_pow by lia. unfold high_bits. rewrite Z.mod_eq by (pose proof (pow_le_256 prefix Hp); lia). lia. }
  rewrite Heq at 1. rewrite shiftl_lor_add, <- shiftl_pow, <- Heq by lia. apply u8_small. lia.
Qed.

(** The writer keeps the bits above the prefix and writes the encoding. *)
Lemma put_spec buf pos n prefix : 0 <= pos < zlen buf -> is_byte (rd buf pos) -> 1 <= prefix <= 8 -> 0 <= n ->
  let e := enc_int (high_bits (rd buf pos) prefix) n prefix in
  xqc_prefixed_int_put buf pos n prefix = (wr buf pos e, pos + zlen e).
Proof.
  intros Hpos Hb Hp Hn. unfold xqc_prefixed_int_put, enc_int. rewrite shiftl_pow, Z.mul_1_l by lia.
  rewrite ldiff_high by lia. pose proof (high_bits_range _ _ Hb Hp). pose proof (pow_le_256 prefix Hp).
  rewrite (u8_small (high_bits _ _)) by (unfold is_byte in Hb; lia). rewrite rd_wr_hd by done. cbv zeta.
  case_if; zify_bools.
  - rewrite high_lor by (done || lia). by rewrite wr_overwrite_hd.
  - rewrite high_lor, wr_overwrite_hd, put_loop_spec by (done || lia). rewrite zlen_cons. f_equal; [|lia].
    exact (wr_app buf pos [_] _ (proj1 Hpos)).
Qed.

(** ** Reading *)

Lemma land_top b : is_byte b -> (b .& (1 << 7) =? 0) = (b <? 128) /\ b .& 0x7f = b mod 128.
Proof.
  intros Hb. split.
  - apply eqb_prop. apply (byte_forall (fun b => Bool.eqb (b .& (1 << 7) =? 0) (b <? 128))); [by vm_compute|done].
  - change 127 with (Z.ones 7). by rewrite Z.land_ones by lia.
Qed.

Lemma int_loop_step b rest p n shift : is_byte b -> 0 <= n -> 0 <= shift <= 62 ->
  n + (b mod 128) * 2 ^ shift <= XQC_QPACK_INT_MAX ->
  int_loop (b :: rest) p n shift
  = if b <? 128 then Ok (p + 1, true, n + (b mod 128) * 2 ^ shift, shift)
    else int_loop rest (p + 1) (n + (b mod 128) * 2 ^ shift) (shift + 7).
Proof.
  intros Hb Hn Hs Hmax. cbn [int_loop]. destruct (land_top b Hb) as [-> ->]. pose proof (Z.mod_pos_bound b 128 ltac:(lia)).
  assert (0 < 2 ^ shift) by (apply Z.pow_pos_nonneg; lia). unfold XQC_QPACK_INT_MAX in *.
  rewrite Z.shiftr_div_pow2, shiftl_pow, (u64_small (_ * _)), (u64_small (_ - _)), (u64_small (n + _)) by nia.
  assert (b mod 128 <= (2 ^ 62 - 1) / 2 ^ shift) by (apply Z.div_le_lower_bound; nia).
  case_if; [zb|]. case_if; [zb|]. case_if; [zb|done].
Qed.

Lemma cont_read fuel m n shift p rest : 0 <= n -> 0 <= m < 128 ^ Z.of_nat fuel -> fuel <> O -> 0 <= shift <= 62 ->
  n + m * 2 ^ shift <= XQC_QPACK_INT_MAX ->
  exists sh, int_loop (cont fuel m ++ rest) p n shift = Ok (p + zlen (cont fuel m), true, n + m * 2 ^ shift, sh).
Proof.
  revert m n shift p. induction fuel as [|f IH]; intros m n shift p Hn Hm Hf Hs Hmax; [done|].
  assert (0 < 2 ^ shift) by (apply Z.pow_pos_nonneg; lia). cbn [cont].
  destruct (128 <=? m) eqn:E; zify_bools; cbn [app].
  2:{ rewrite int_loop_step; rewrite ?Z.mod_small by lia; unfold is_byte; try lia. case_if; [by eexists|zb]. }
  rewrite Nat2Z.inj_succ, Z.pow_succ_r in Hm by lia. destruct f as [|f]; [simpl in Hm; lia|].
  pose proof (Z.mod_pos_bound m 128 ltac:(lia)). pose proof (Z.div_mod m 128 ltac:(lia)).
  pose proof (Z.div_pos m 128 ltac:(lia) ltac:(lia)).
  assert (2 ^ (shift + 7) = 128 * 2 ^ shift) as Hpow by (rewrite Z.pow_add_r by lia; change (2 ^ 7) with 128; lia).
  assert (shift + 7 <= 62).
  { destruct (Z.le_gt_cases (shift + 7) 62); [done|]. assert (2 ^ 62 <= 2 ^ (shift + 7)) by (apply Z.pow_le_mono_r; lia).
    unfold XQC_QPACK_INT_MAX in Hmax. nia. }
  assert ((128 + m mod 128) mod 128 = m mod 128) as Hmm.
  { replace (128 + m mod 128) with (m mod 128 + 1 * 128) by lia. by rewrite Z.mod_add, Z.mod_mod by lia. }
  rewrite int_loop_step; rewrite ?Hmm; unfold is_byte; try lia; try nia.
  case_if; [zb|]. destruct (IH (m / 128) (n + m mod 128 * 2 ^ shift) (shift + 7) (p + 1)) as (sh & ->); try lia; try nia.
  exists sh. rewrite zlen_cons, Hpow. replace (n + m mod 128 * 2 ^ shift + m / 128 * (128 * 2 ^ shift)) with (n + m * 2 ^ shift) by nia.
  by rewrite Z.add_assoc.
Qed.

Lemma zlen_cont f n : 0 < zlen (cont (S f) n).
Proof. cbn [cont]. case_if; [rewrite zlen_cons; pose proof (zlen_nonneg (cont f (n / 128))); lia|done]. Qed.

(** A context between two reads: nothing read yet, or at least the prefix. *)
Definition pi_ok (pint : xqc_prefixed_int_t) : Prop :=
  0 <= pi_prefix pint <= 8 /\ 0 <= pi_value pint <= XQC_QPACK_INT_MAX /\ 0 <= pi_shift pint
  /\ (pi_value pint = 0 -> pi_shift pint = 0).

Lemma mask_small prefix : 1 <= prefix <= 8 -> u8 ((1 << prefix) - 1) = 2 ^ prefix - 1.
Proof. intros Hp. rewrite shiftl_pow, Z.mul_1_l by lia. pose proof (pow_le_256 prefix Hp). apply u8_small. lia. Qed.

Lemma land_prefix b prefix : 1 <= prefix <= 8 -> b .& (2 ^ prefix - 1) = b mod 2 ^ prefix.
Proof.
  intros Hp. replace (2 ^ prefix - 1) with (Z.ones prefix) by (rewrite Z.ones_equiv; lia). apply Z.land_ones. lia.
Qed.

(** A whole encoding is read as one integer, whatever comes behind it. *)
Lemma read_enc prefix b n rest : 1 <= prefix <= 8 -> is_byte b -> 0 <= n <= XQC_QPACK_INT_MAX ->
  let e := enc_int (high_bits b prefix) n prefix in
  exists sh, xqc_prefixed_int_read (xqc_prefixed_int_init prefix) (e ++ rest) = (Ok (zlen e, true), mk_pi prefix sh n).
Proof.
  intros Hp Hb Hn. unfold xqc_prefixed_int_read, enc_int. cbn [xqc_prefixed_int_init pi_prefix pi_value pi_shift]. cbv zeta.
  replace (prefix =? 0) with false by (symmetry; apply Z.eqb_neq; lia). rewrite mask_small, land_prefix by done.
  pose proof (pow_le_256 prefix Hp). assert (forall x, 0 <= x < 2 ^ prefix -> (high_bits b prefix + x) mod 2 ^ prefix = x) as Hmod.
  { intros x Hx. unfold high_bits. rewrite (Z.mod_eq b) by lia.
    replace (b - _ + x) with (x + (b / 2 ^ prefix) * 2 ^ prefix) by lia. rewrite Z.mod_add by lia. by apply Z.mod_small. }
  destruct (n <? 2 ^ prefix - 1) eqn:E; zify_bools.
  - unfold rd. simpl. rewrite Hmod by lia. case_if; [by eexists|]. zb.
  - destruct (cont_read 10 (n - (2 ^ prefix - 1)) (2 ^ prefix - 1) 0 1 rest) as (sh & Hr); try lia.
    { unfold XQC_QPACK_INT_MAX in Hn. eval_pow. lia. }
    pose proof (zlen_cont 9 (n - (2 ^ prefix - 1))). set (c := cont 10 _) in *. clearbody c. pose proof (zlen_nonneg rest).
    replace (zlen _ =? 1) with false by (symmetry; apply Z.eqb_neq; rewrite zlen_app, zlen_cons; lia).
    unfold rd. simpl. rewrite Hmod, Z.eqb_refl by lia. simpl. rewrite drop_0, Hr, zlen_cons, Z.mul_1_r. exists sh.
    do 2 f_equal. lia.
Qed.

(** ** Reading in pieces *)

Lemma int_loop_app a b p n shift :
  int_loop (a ++ b) p n shift
  = match int_loop a p n shift with Ok (p', false, n', sh') => int_loop b p' n' sh' | r => r end.
Proof.
  revert p n shift. induction a as [|x a IH]; intros p n shift; [done|]. cbn [app int_loop].
  repeat (case_if; [done|]). apply IH.
Qed.

Lemma int_loop_count a p n shift :
  int_loop a p n shift = match int_loop a 0 n shift with Ok (q, fin, n', sh') => Ok (p + q, fin, n', sh') | Err e => Err e end.
Proof.
  revert p n shift. induction a as [|x a IH]; intros p n shift; cbn [int_loop]; [by rewrite Z.add_0_r|].
  repeat (case_if; [done|]). rewrite IH, (IH (0 + 1)).
  destruct (int_loop a 0 _ _) as [[[[q fin] n'] sh']|e]; [|done]. do 4 f_equal. lia.
Qed.

Lemma int_loop_range a p n shift q fin n' sh' : bytes_ok a -> 0 <= n <= XQC_QPACK_INT_MAX -> 0 <= shift ->
  int_loop a p n shift = Ok (q, fin, n', sh') ->
  n <= n' <= XQC_QPACK_INT_MAX /\ 0 <= sh' /\ p <= q <= p + zlen a /\ (fin = false -> q = p + zlen a).
Proof.
  intros Ha. revert p n shift. induction Ha as [|x a Hx Ha IH]; intros p n shift Hn Hs; cbn [int_loop].
  { intros ?. simplify_eq. rewrite zlen_nil. split_and!; lia. }
  destruct (land_top x Hx) as [-> ->]. pose proof (Z.mod_pos_bound x 128 ltac:(lia)). rewrite zlen_cons.
  pose proof (zlen_nonneg a). case_if; [done|]. case_if; [done|]. zify_bools. rewrite Z.shiftr_div_pow2, shiftl_pow in * by lia.
  assert (0 < 2 ^ shift) by (apply Z.pow_pos_nonneg; lia).
  assert (0 <= x mod 128 * 2 ^ shift <= XQC_QPACK_INT_MAX).
  { split; [nia|]. pose proof (Z.mul_div_le XQC_QPACK_INT_MAX (2 ^ shift) ltac:(lia)). nia. }
  unfold XQC_QPACK_INT_MAX in *. rewrite (u64_small (_ * _)), (u64_small (_ - _)) by lia. case_if; [done|]. zify_bools.
  rewrite u64_small by lia. case_if; intros Hr.
  - simplify_eq. split_and!; try lia.
  - apply IH in Hr; [|lia..]. destruct Hr as (? & ? & ? & Hq). split_and!; try lia. intros Hf. specialize (Hq Hf). lia.
Qed.

(** What a read returns, and the context unless it failed. *)
Definition outcome {A B} (r : res A * B) : res (A * B) :=
  match r with (Ok a, b) => Ok (a, b) | (Err e, _) => Err e end.

Definition wrap (prefix : Z) (r : res (Z * bool * Z * Z)) : res (Z * bool * xqc_prefixed_int_t) :=
  match r with Ok (p, fin, v, sh) => Ok (p, fin, mk_pi prefix sh v) | Err e => Err e end.

Definition eff_prefix (pint : xqc_prefixed_int_t) : Z := if pi_prefix pint =? 0 then 8 else pi_prefix pint.

Lemma read_outcome pint x rest : pi_ok pint ->
  let prefix := eff_prefix pint in
  outcome (xqc_prefixed_int_read pint (x :: rest))
  = if pi_value pint =? 0 then
      if x mod 2 ^ prefix =? 2 ^ prefix - 1 then wrap prefix (int_loop rest 1 (2 ^ prefix - 1) 0)
      else Ok (1, true, mk_pi prefix 0 (x mod 2 ^ prefix))
    else wrap prefix (int_loop (x :: rest) 0 (pi_value pint) (pi_shift pint)).
Proof.
  intros (Hp & Hv & Hs & Hz) prefix. unfold xqc_prefixed_int_read. fold (eff_prefix pint). fold prefix. cbv zeta.
  assert (1 <= prefix <= 8) as Hpre by (unfold prefix, eff_prefix; case_if; zb). rewrite mask_small, land_prefix by done.
  destruct (pi_value pint =? 0) eqn:E; [|by destruct (int_loop (x :: rest) 0 _ _) as [[[[? ?] ?] ?]|]]. zify_bools.
  rewrite (Hz E). destruct rest as [|y rest]; [unfold rd; simpl; by destruct (x mod 2 ^ prefix =? 2 ^ prefix - 1)|].
  replace (zlen (x :: y :: rest) =? 1) with false
    by (symmetry; apply Z.eqb_neq; rewrite !zlen_cons; pose proof (zlen_nonneg rest); lia).
  unfold rd. simpl nth. simpl drop. destruct (x mod 2 ^ prefix =? 2 ^ prefix - 1); [|done]. cbn [negb].
  by destruct (int_loop (y :: rest) 1 _ 0) as [[[[? ?] ?] ?]|].
Qed.

Lemma wrap_cont prefix p n sh b : 1 <= prefix <= 8 -> 0 < n <= XQC_QPACK_INT_MAX -> 0 <= sh -> b <> [] ->
  wrap prefix (int_loop b p n sh)
  = match outcome (xqc_prefixed_int_read (mk_pi prefix sh n) b) with
    | Ok (q, fin, pint) => Ok (p + q, fin, pint) | Err e => Err e end.
Proof.
  intros Hp Hn Hs Hb. destruct b as [|x rest]; [done|]. rewrite read_outcome by (repeat split; simpl; lia).
  unfold eff_prefix. cbn [pi_prefix pi_value pi_shift].
  replace (prefix =? 0) with false by (symmetry; apply Z.eqb_neq; lia).
  replace (n =? 0) with false by (symmetry; apply Z.eqb_neq; lia). rewrite int_loop_count.
  by destruct (int_loop (x :: rest) 0 n sh) as [[[[? ?] ?] ?]|].
Qed.

(** A read of two pieces is a read of the first, continued by a read of the second unless the
    integer is complete or refused. *)
Lemma read_app pint a b : pi_ok pint -> bytes_ok a -> a <> [] -> b <> [] ->
  outcome (xqc_prefixed_int_read pint (a ++ b))
  = match outcome (xqc_prefixed_int_read pint a) with
    | Ok (m, false, pint') =>
        match outcome (xqc_prefixed_int_read pint' b) with
        | Ok (q, fin, pint'') => Ok (m + q, fin, pint'')
        | Err e => Err e
        end
    | r => r
    end.
Proof.
  intros Hok Ha Hna Hnb. destruct a as [|x a]; [done|]. simpl. apply Forall_cons in Ha as [Hx Ha].
  rewrite !read_outcome by done. assert (1 <= eff_prefix pint <= 8) as Hpre.
  { destruct Hok as (? & _). unfold eff_prefix. case_if; zb. }
  pose proof (pow_le_256 _ Hpre). destruct Hok as (Hp & Hv & Hs & Hz).
  assert (forall p n sh l, bytes_ok l -> 0 < n <= XQC_QPACK_INT_MAX -> 0 <= sh ->
    wrap (eff_prefix pint) (int_loop (l ++ b) p n sh)
    = match wrap (eff_prefix pint) (int_loop l p n sh) with
      | Ok (m, false, pint') =>
          match outcome (xqc_prefixed_int_read pint' b) with Ok (q, fin, pint'') => Ok (m + q, fin, pint'') | Err e => Err e end
      | r => r end) as Hgo.
  { intros p n sh l Hl Hn Hsh. rewrite int_loop_app.
    destruct (int_loop l p n sh) as [[[[q fin] n'] sh']|e] eqn:El; [|done]. destruct fin; [done|].
    apply int_loop_range in El; [|done|lia|done]. simpl. apply wrap_cont; try done; lia. }
  destruct (pi_value pint =? 0) eqn:E; zify_bools.
  - case_if; [|done]. apply Hgo; [done| |lia]. unfold XQC_QPACK_INT_MAX. lia.
  - apply (Hgo 0 _ _ (x :: a)); [by constructor|lia|done].
Qed.

Lemma outcome_ok {A B} (r : res A * B) a b : outcome r = Ok (a, b) -> r = (Ok a, b).
Proof. destruct r as [[x|e] y]; simpl; congruence. Qed.

Lemma read_range pint a m fin pint' : pi_ok pint -> bytes_ok a -> a <> [] ->
  outcome (xqc_prefixed_int_read pint a) = Ok (m, fin, pint') -> m <= zlen a /\ (fin = false -> m = zlen a).
Proof.
  intros Hok Ha Hne. destruct a as [|x a]; [done|]. rewrite read_outcome by done. pose proof Hok as (Hp & Hv & Hs & _).
  assert (1 <= eff_prefix pint <= 8) as Hpre by (unfold eff_prefix; case_if; zb). pose proof (pow_le_256 _ Hpre).
  assert (forall p n sh l, bytes_ok l -> 0 <= n <= XQC_QPACK_INT_MAX -> 0 <= sh ->
    wrap (eff_prefix pint) (int_loop l p n sh) = Ok (m, fin, pint') -> m <= p + zlen l /\ (fin = false -> m = p + zlen l)) as Hgo.
  { intros p n sh l Hl Hn Hsh. destruct (int_loop l p n sh) as [[[[q f] n'] sh']|] eqn:El; [|done]. simpl. intros ?. simplify_eq.
    apply int_loop_range in El; [|done..]. destruct El as (_ & _ & ? & ?). split; [lia|done]. }
  rewrite zlen_cons. pose proof (zlen_nonneg a). case_if; [case_if|]; intros Hr.
  - apply Hgo in Hr; [done|by inversion Ha| |lia]. unfold XQC_QPACK_INT_MAX. lia.
  - injection Hr as <- <- _. split; [lia|done].
  - apply Hgo in Hr; [|done..]. by rewrite zlen_cons in Hr.
Qed.

Lemma cont_ok f n : 0 <= n -> bytes_ok (cont f n).
Proof.
  revert n. induction f as [|f IH]; intros n Hn; cbn [cont]; [constructor|]. pose proof (Z.mod_pos_bound n 128 ltac:(lia)).
  case_if; zify_bools; constructor; try (unfold is_byte; lia); [|constructor]. apply IH. by apply Z.div_pos.
Qed.

Lemma enc_int_ok b n prefix : is_byte b -> 1 <= prefix <= 8 -> 0 <= n -> bytes_ok (enc_int (high_bits b prefix) n prefix).
Proof.
  intros Hb Hp Hn. destruct (high_bits_range b prefix Hb Hp). pose proof (pow_le_256 prefix Hp). unfold enc_int.
  case_if; zify_bools; constructor; try (unfold is_byte; lia); [constructor|]. apply cont_ok. lia.
Qed.

(** The context after a part of an encoding that has been read already. *)
Definition int_part (prefix : Z) (C : list Z) (pint : xqc_prefixed_int_t) : Prop :=
  if decide (C = []) then pint = xqc_prefixed_int_init prefix
  else outcome (xqc_prefixed_int_read (xqc_prefixed_int_init prefix) C) = Ok (zlen C, false, pint).

Lemma int_part_read prefix C pint Y : 1 <= prefix <= 8 -> bytes_ok C -> Y <> [] -> int_part prefix C pint ->
  outcome (xqc_prefixed_int_read (xqc_prefixed_int_init prefix) (C ++ Y))
  = match outcome (xqc_prefixed_int_read pint Y) with Ok (q, fin, pint') => Ok (zlen C + q, fin, pint') | Err e => Err e end.
Proof.
  intros Hp HC HY. unfold int_part. destruct (decide (C = [])) as [->|Hne].
  - intros ->. simpl. by destruct (outcome _) as [[[? ?] ?]|].
  - intros Hr. rewrite read_app by (done || (repeat split; simpl; (done || lia))). by rewrite Hr.
Qed.

(** The next part of an encoding, when that is the end of it and when it is not. *)
Lemma read_last prefix b n C I2 rest pint : 1 <= prefix <= 8 -> is_byte b -> 0 <= n <= XQC_QPACK_INT_MAX ->
  enc_int (high_bits b prefix) n prefix = C ++ I2 -> I2 <> [] -> int_part prefix C pint ->
  exists sh, xqc_prefixed_int_read pint (I2 ++ rest) = (Ok (zlen I2, true), mk_pi prefix sh n).
Proof.
  intros Hp Hb Hn HI HI2 Hpart. pose proof (enc_int_ok b n prefix Hb Hp (proj1 Hn)) as Hok. rewrite HI in Hok.
  apply bytes_ok_app in Hok as [HC _]. destruct (read_enc prefix b n rest Hp Hb Hn) as (sh & Hr). rewrite HI, <- app_assoc in Hr.
  apply (f_equal outcome) in Hr. rewrite (int_part_read _ _ pint) in Hr; [|done..|by destruct I2|done].
  destruct (outcome (xqc_prefixed_int_read pint (I2 ++ rest))) as [[[q fin] p']|] eqn:Eo; [|done].
  apply outcome_ok in Eo. rewrite Eo. simpl in Hr. rewrite zlen_app in Hr. injection Hr as Hq -> ->. exists sh. do 3 f_equal. lia.
Qed.

Lemma read_more prefix b n C D I3 pint : 1 <= prefix <= 8 -> is_byte b -> 0 <= n <= XQC_QPACK_INT_MAX ->
  enc_int (high_bits b prefix) n prefix = C ++ D ++ I3 -> D <> [] -> I3 <> [] -> int_part prefix C pint ->
  exists pint', xqc_prefixed_int_read pint D = (Ok (zlen D, false), pint') /\ int_part prefix (C ++ D) pint'.
Proof.
  intros Hp Hb Hn HI HD HI3 Hpart. pose proof (enc_int_ok b n prefix Hb Hp (proj1 Hn)) as Hok. rewrite HI in Hok.
  apply bytes_ok_app in Hok as [HC Hok]. apply bytes_ok_app in Hok as [HD' _].
  assert (pi_ok (xqc_prefixed_int_init prefix)) as Hpi by (repeat split; simpl; (done || lia)).
  assert (C ++ D <> []) as Hne by (destruct C; [by destruct D|done]).
  assert (bytes_ok (C ++ D)) as HCD by (by apply bytes_ok_app).
  destruct (read_enc prefix b n [] Hp Hb Hn) as (sh & Hr). rewrite app_nil_r, HI in Hr. apply (f_equal outcome) in Hr. rewrite app_assoc in Hr.
  rewrite (read_app _ (C ++ D)) in Hr by done. pose proof (int_part_read prefix C pint D Hp HC HD Hpart) as Hcd.
  assert (0 < zlen I3) by (destruct I3; [done|rewrite zlen_cons; pose proof (zlen_nonneg I3); lia]).
  destruct (outcome (xqc_prefixed_int_read _ (C ++ D))) as [[[m fin] p1]|] eqn:E1; [|done].
  destruct (read_range _ _ _ _ _ Hpi HCD Hne E1) as [Hm1 Hm2].
  destruct fin; [simpl in Hr; injection Hr as Hr _; rewrite zlen_app in Hr; lia|]. rewrite (Hm2 eq_refl) in *.
  destruct (outcome (xqc_prefixed_int_read pint D)) as [[[q fin] p']|] eqn:Eo; [|done].
  injection Hcd as Hq <- <-. apply outcome_ok in Eo. exists p1. rewrite zlen_app in Hq. split; [rewrite Eo; do 3 f_equal; lia|].
  unfold int_part. by rewrite decide_False.
Qed.

End QpackInt.
