(* ===== verification/Huffman.v ===== *)
(** Huffman coding of strings (src/src/common/utils/huffman/xqc_huffman.c). *)

From stdpp Require Import base numbers list.
From S2P Require Import Prelude HuffmanTable.
Import HuffmanTable.

Module Huffman.

Definition XQC_QPACK_HUFFMAN_DEC_ERROR : Z := 914.
Definition XQC_QPACK_HUFFMAN_DEC_STATE_ERROR : Z := 915.

Definition enc_code (sym : Z) : xqc_huffman_enc_code_t :=
  nth (Z.to_nat sym) xqc_huffman_enc_code_table (mk_ec 0 0).

(** ** Encoding *)

Definition xqc_huffman_enc_len (src : list Z) : Z :=
  (foldl (fun cnt b => cnt + ec_bits (enc_code b)) 0 src + 7) / 8.

(** The bits that did not fit into the first byte. *)
Definition encode_rest (buf : list Z) (dest code nbits : Z) : list Z * Z * Z :=
  let code := if nbits .& 0x7 =? 0 then code else u32 (code << (8 - (nbits .& 0x7))) in
  if nbits <? 8 then (wr buf dest [u8 code], dest, 8 - nbits)
  else
    let '(buf, dest, nbits) :=
      if 24 <? nbits then (wr buf dest [u8 (code >> 24)], dest + 1, nbits - 8) else (buf, dest, nbits) in
    let '(buf, dest, nbits) :=
      if 16 <? nbits then (wr buf dest [u8 (code >> 16)], dest + 1, nbits - 8) else (buf, dest, nbits) in
    let '(buf, dest, nbits) :=
      if 8 <? nbits then (wr buf dest [u8 (code >> 8)], dest + 1, nbits - 8) else (buf, dest, nbits) in
    if nbits =? 8 then (wr buf dest [u8 code], dest + 1, 8)
    else (wr buf dest [u8 code], dest, 8 - nbits).

(** The buffer, the position and the free bits of its byte. *)
Definition xqc_huffman_encode_sym (buf : list Z) (dest rembits : Z) (ec : xqc_huffman_enc_code_t) : list Z * Z * Z :=
  let nbits := ec_bits ec in
  let code := ec_lsb ec in
  if nbits <? rembits then
    (wr buf dest [rd buf dest .| u8 (u32 (code << (rembits - nbits)))], dest, rembits - nbits)
  else if rembits =? nbits then (wr buf dest [rd buf dest .| u8 code], dest + 1, 8)
  else encode_rest (wr buf dest [rd buf dest .| u8 (code >> (nbits - rembits))]) (dest + 1) code (nbits - rembits).

Fixpoint enc_loop (buf : list Z) (dest rembits : Z) (src : list Z) : list Z * Z * Z :=
  match src with
  | [] => (buf, dest, rembits)
  | b :: rest =>
      let buf := if rembits =? 8 then wr buf dest [0] else buf in
      let '(buf, dest, rembits) := xqc_huffman_encode_sym buf dest rembits (enc_code b) in
      enc_loop buf dest rembits rest
  end.

(** The string is written from [dest] on; the result is the end of what was written. *)
Definition xqc_huffman_enc (buf : list Z) (dest : Z) (src : list Z) : list Z * Z :=
  let '(buf, dest, rembits) := enc_loop buf dest 8 src in
  if rembits <? 8 then
    let sym := enc_code 256 in
    (wr buf dest [rd buf dest .| u8 (ec_lsb sym >> (ec_bits sym - rembits))], dest + 1)
  else (buf, dest).

(** ** Decoding *)

Record xqc_huffman_dec_ctx := mk_hctx {
  hc_state : Z;
  hc_end : bool;
  hc_high_bits : bool;
  hc_pre_state : Z;
  hc_bit : Z;
}.

Definition xqc_huffman_dec_ctx_init : xqc_huffman_dec_ctx := mk_hctx 0 true true 0 0.

Definition dec_code (state bits : Z) : xqc_huffman_dec_code_t :=
  nth (Z.to_nat bits) (nth (Z.to_nat state) xqc_huffman_dec_code_table []) (mk_dc 0 XQC_HUFFMAN_FAIL 0).

(** Four bits: the symbol, when there is one. *)
Definition xqc_huffman_dec_bits (ctx : xqc_huffman_dec_ctx) (bits : Z) : res (list Z * xqc_huffman_dec_ctx) :=
  let code := dec_code (hc_state ctx) bits in
  if negb (dc_flags code .& XQC_HUFFMAN_FAIL =? 0) then Err XQC_QPACK_HUFFMAN_DEC_ERROR
  else
    Ok (if negb (dc_flags code .& XQC_HUFFMAN_SYM =? 0) then [dc_sym code] else [],
        mk_hctx (dc_state code) (negb (dc_flags code .& XQC_HUFFMAN_END =? 0)) (hc_high_bits ctx) (hc_state ctx) bits).

Definition set_high (ctx : xqc_huffman_dec_ctx) (h : bool) : xqc_huffman_dec_ctx :=
  mk_hctx (hc_state ctx) (hc_end ctx) h (hc_pre_state ctx) (hc_bit ctx).

(** [read] bytes are consumed, [out] is written to a destination of [dstlen] bytes. *)
Fixpoint dec_loop (ctx : xqc_huffman_dec_ctx) (dstlen : Z) (src : list Z) (fin : bool) (read : Z) (out : list Z)
    : res (Z * list Z) * xqc_huffman_dec_ctx :=
  let low ctx b out f :=
    match xqc_huffman_dec_bits ctx (b .& 0x0f) with
    | Err e => (Err e, ctx)
    | Ok (sym, ctx) =>
        let out := out ++ sym in
        let ctx := set_high ctx true in
        if zlen out =? dstlen then (Ok (read + 1, out), ctx) else f ctx out
    end in
  match src with
  | [] => if fin && negb (hc_end ctx) then (Err XQC_QPACK_HUFFMAN_DEC_STATE_ERROR, ctx) else (Ok (read, out), ctx)
  | b :: rest =>
      let next ctx out := dec_loop ctx dstlen rest fin (read + 1) out in
      if hc_high_bits ctx then
        match xqc_huffman_dec_bits ctx (b >> 4) with
        | Err e => (Err e, ctx)
        | Ok (sym, ctx) =>
            let out := out ++ sym in
            let ctx := set_high ctx false in
            if zlen out =? dstlen then (Ok (read, out), ctx) else low ctx b out next
        end
      else low ctx b out next
  end.

Definition xqc_huffman_dec (ctx : xqc_huffman_dec_ctx) (dstlen : Z) (src : list Z) (fin : bool)
    : res (Z * list Z) * xqc_huffman_dec_ctx :=
  dec_loop ctx dstlen src fin 0 [].

End Huffman.
