(* ===== verification/HuffmanSpec.v ===== *)
(** The Huffman coder writes the codes of the symbols one behind the other, and the decoder is
    the walk through the code tree: what is encoded is decoded to the same string. *)

From stdpp Require Import base numbers list.
From S2P Require Import Prelude HuffmanTable Huffman.
Import HuffmanTable Huffman.

Module HuffmanSpec.

(** ** Bits *)

(** The most significant bit first. *)
Definition bits_val (l : list bool) : Z := fold_left (fun a b => 2 * a + Z.b2z b) l 0.

Fixpoint to_bits (n : nat) (v : Z) : list bool :=
  match n with O => [] | S m => Z.testbit v (Z.of_nat m) :: to_bits m v end.

Definition code_bits (sym : Z) : list bool := to_bits (Z.to_nat (ec_bits (enc_code sym))) (ec_lsb (enc_code sym)).

Definition enc_bits (src : list Z) : list bool := concat (map code_bits src).

Definition bytes_bits (l : list Z) : list bool := concat (map (to_bits 8) l).

Definition blen (l : list bool) : Z := Z.of_nat (length l).

Lemma bits_fold l a : fold_left (fun a b => 2 * a + Z.b2z b) l a = a * 2 ^ blen l + bits_val l.
Proof.
  unfold bits_val, blen. revert a. induction l as [|b l IH]; intros a; cbn [fold_left length]; [simpl; lia|].
  rewrite IH, (IH (2 * 0 + Z.b2z b)), Nat2Z.inj_succ, Z.pow_succ_r by lia. lia.
Qed.

Lemma bits_val_app l k : bits_val (l ++ k) = bits_val l * 2 ^ blen k + bits_val k.
Proof. unfold bits_val at 1. rewrite fold_left_app. apply bits_fold. Qed.

Lemma bits_val_cons b l : bits_val (b :: l) = Z.b2z b * 2 ^ blen l + bits_val l.
Proof. unfold bits_val at 1. cbn [fold_left]. rewrite bits_fold. lia. Qed.

Lemma bits_val_range l : 0 <= bits_val l < 2 ^ blen l.
Proof.
  induction l as [|b l IH]; [done|]. rewrite bits_val_cons. unfold blen in *. cbn [length].
  rewrite Nat2Z.inj_succ, Z.pow_succ_r by lia. destruct b; simpl Z.b2z; lia.
Qed.

Lemma length_to_bits n v : length (to_bits n v) = n.
Proof. induction n; simpl; congruence. Qed.

Lemma bits_val_to_bits n v : bits_val (to_bits n v) = v mod 2 ^ Z.of_nat n.
Proof.
  induction n as [|n IH]; [by rewrite Z.mod_1_r|]. cbn [to_bits]. rewrite bits_val_cons, IH. unfold blen. rewrite length_to_bits.
  rewrite Nat2Z.inj_succ, Z.pow_succ_r, (Z.mul_comm 2) by lia.
  rewrite (Z.rem_mul_r v (2 ^ Z.of_nat n) 2) by lia. rewrite <- Z.testbit_spec' by lia. lia.
Qed.

Lemma bits_val_inj l k : length l = length k -> bits_val l = bits_val k -> l = k.
Proof.
  revert k. induction l as [|b l IH]; intros [|c k] Hl Hv; try done. injection Hl as Hl.
  rewrite !bits_val_cons in Hv. unfold blen in Hv. rewrite Hl in Hv.
  pose proof (bits_val_range l) as R1. pose proof (bits_val_range k) as R2. unfold blen in *. rewrite Hl in R1.
  assert (b = c) as -> by (destruct b, c; simpl Z.b2z in Hv; try done; lia). f_equal. apply IH; [done|lia].
Qed.

Lemma length_bytes_bits l : length (bytes_bits l) = (8 * length l)%nat.
Proof. unfold bytes_bits. induction l as [|b l IH]; [done|]. cbn [map concat length]. rewrite length_app, length_to_bits, IH. lia. Qed.

Lemma bits_val_bytes l : bytes_ok l -> bits_val (bytes_bits l) = be_val l.
Proof.
  induction 1 as [|b l Hb Hl IH]; [done|]. change (bytes_bits (b :: l)) with (to_bits 8 b ++ bytes_bits l).
  rewrite bits_val_app, IH, be_val_cons, bits_val_to_bits. unfold is_byte in Hb.
  rewrite Z.mod_small by (change (2 ^ Z.of_nat 8) with 256; lia). do 2 f_equal. unfold blen, zlen. rewrite length_bytes_bits.
  change 256 with (2 ^ 8). rewrite <- Z.pow_mul_r by lia. f_equal. lia.
Qed.

(** ** The writer *)

Definition bytes_needed (nbits : Z) : Z := (nbits + 7) / 8.

Lemma encode_rest_spec buf dest code nbits : 0 <= dest -> 1 <= nbits <= 29 ->
  let m := bytes_needed nbits in
  let pad := 8 * m - nbits in
  encode_rest buf dest code nbits
  = (wr buf dest (be_bytes (Z.to_nat m) (if pad =? 0 then code else u32 (code << pad))),
     dest + m - (if pad =? 0 then 0 else 1), if pad =? 0 then 8 else pad).
Proof.
  intros Hd Hn m pad. unfold encode_rest. change 7 with (Z.ones 3). rewrite Z.land_ones by lia. change (2 ^ 3) with 8.
  assert ((nbits mod 8 =? 0) = (pad =? 0) /\ (pad <> 0 -> 8 - nbits mod 8 = pad)) as [Hz Hp].
  { subst pad m. unfold bytes_needed. split; [apply eq_true_iff_eq; rewrite !Z.eqb_eq|intros Hp0]; Z.div_mod_to_equations; lia. }
  rewrite Hz. set (c := if pad =? 0 then code else u32 (code << pad)).
  replace (if pad =? 0 then code else u32 (code << (8 - nbits mod 8))) with c
    by (unfold c; destruct (pad =? 0) eqn:E; [done|]; zify_bools; by rewrite Hp).
  assert (pad = 8 * m - nbits) as Epad by done. assert (8 * m < nbits + 8 <= 8 * m + 8) as Em
    by (unfold m, bytes_needed; Z.div_mod_to_equations; lia).
  clearbody c pad m. clear Hz Hp. assert (m = 1 \/ m = 2 \/ m = 3 \/ m = 4) as Hm by lia.
  assert (forall b x y p, p = dest + zlen x -> wr (wr b dest x) p y = wr b dest (x ++ y)) as Happ
    by (intros b x y p ->; by apply wr_app).
  destruct Hm as [-> | [-> | [-> | ->]]]; simpl be_bytes; rewrite Z.shiftr_0_r;
    repeat (first [rewrite Happ by (unfold zlen; simpl; lia) | case_if; [|try zb] | case_if; [try zb|]]); cbn [app].
  all: try (exfalso; zb).
  all: apply (f_equal2 pair); [apply (f_equal2 pair); [done|lia]|try lia; zb].
Qed.

Lemma be_snoc a x : be_val (a ++ [x]) = be_val a * 256 + x.
Proof. rewrite be_val_app. unfold be_val at 2, zlen. simpl. lia. Qed.

(** The byte at [dest] is [x], of which the low [rem] bits are free. *)
Lemma or_free x rem y : is_byte x -> 1 <= rem <= 8 -> x mod 2 ^ rem = 0 -> 0 <= y < 2 ^ rem -> x .| u8 y = x + y /\ is_byte (x + y).
Proof.
  unfold is_byte. intros Hx Hr Hm Hy. assert (2 ^ rem <= 256) by (apply (Z.pow_le_mono_r 2 rem 8); lia).
  rewrite u8_small by lia. pose proof (Z.div_mod x (2 ^ rem) ltac:(lia)) as Hd. rewrite Hm, Z.add_0_r in Hd.
  assert (x = (x / 2 ^ rem) << rem) as Hs by (rewrite Z.shiftl_mul_pow2 by lia; lia).
  split; [rewrite Hs at 1; rewrite shiftl_lor_add by lia; lia|].
  assert (x / 2 ^ rem < 2 ^ (8 - rem)).
  { apply Z.div_lt_upper_bound; [lia|]. rewrite <- Z.pow_add_r by lia. replace (rem + (8 - rem)) with 8 by lia. lia. }
  assert (2 ^ rem * 2 ^ (8 - rem) = 256) by (rewrite <- Z.pow_add_r by lia; replace (rem + (8 - rem)) with 8 by lia; done). nia.
Qed.

(** What the writer has done: [acc] holds the bits [V], [len] of them, and zeros behind them. *)
Record written (buf0 : list Z) (p0 : Z) (buf : list Z) (dest rem : Z) (acc : list Z) (V len : Z) : Prop := {
  wt_buf : buf = wr buf0 p0 acc;
  wt_ok : bytes_ok acc;
  wt_rem : 1 <= rem <= 8;
  wt_val : be_val acc = V * 2 ^ (rem mod 8);
  wt_len : 8 * zlen acc = len + rem mod 8;
  wt_dest : dest = p0 + zlen acc - (if rem =? 8 then 0 else 1);
}.

Lemma pow256 m : 0 <= m -> 256 ^ m = 2 ^ (8 * m).
Proof. intros Hm. change 256 with (2 ^ 8). by rewrite <- Z.pow_mul_r by lia. Qed.

Lemma rest_val code n : 0 <= code -> 1 <= n <= 29 ->
  let m := bytes_needed n in
  let pad := 8 * m - n in
  1 <= m <= 4 /\ 0 <= pad < 8
  /\ (if pad =? 0 then code else u32 (code << pad)) mod 256 ^ m = (code mod 2 ^ n) * 2 ^ pad.
Proof.
  intros Hc Hn m pad. assert (1 <= m <= 4 /\ 0 <= pad < 8) as [Hm Hp]
    by (unfold pad, m, bytes_needed; Z.div_mod_to_equations; lia).
  split; [done|]. split; [done|]. rewrite pow256 by lia. replace (8 * m) with (n + pad) by (unfold pad; lia).
  assert (n + pad <= 32) as Hle by (unfold pad; lia).
  destruct (pad =? 0) eqn:E; zify_bools; [rewrite E, Z.add_0_r; lia|].
  unfold u32. rewrite Z.shiftl_mul_pow2 by lia. assert (2 ^ 32 = 2 ^ (n + pad) * 2 ^ (32 - (n + pad))) as ->
    by (rewrite <- Z.pow_add_r by lia; f_equal; lia).
  rewrite Z.rem_mul_r by lia. rewrite (Z.mul_comm (2 ^ (n + pad))), Z.mod_add, Z.mod_mod by lia.
  rewrite Z.pow_add_r by lia. apply Z.mul_mod_distr_r; lia.
Qed.

Lemma free_zero a x V rem : is_byte x -> 1 <= rem <= 8 -> be_val (a ++ [x]) = V * 2 ^ rem -> x mod 2 ^ rem = 0.
Proof.
  intros Hx Hr. rewrite be_snoc. intros H. replace x with ((V - be_val a * 2 ^ (8 - rem)) * 2 ^ rem); [apply Z.mod_mul; lia|].
  assert (2 ^ (8 - rem) * 2 ^ rem = 256) as H256 by (rewrite <- Z.pow_add_r by lia; replace (8 - rem + rem) with 8 by lia; done).
  rewrite Z.mul_sub_distr_r, <- Z.mul_assoc, H256. lia.
Qed.

Lemma rest_written buf0 p0 b code n : 0 <= p0 -> bytes_ok b -> 0 <= code -> 1 <= n <= 29 ->
  let '(buf, dest, rem) := encode_rest (wr buf0 p0 b) (p0 + zlen b) code n in
  exists acc, written buf0 p0 buf dest rem acc (be_val b * 2 ^ n + code mod 2 ^ n) (8 * zlen b + n).
Proof.
  intros Hp0 Hb Hc Hn. pose proof (zlen_nonneg b). rewrite encode_rest_spec by lia.
  pose proof (rest_val code n Hc Hn) as (Hm & Hpad & Hv). set (m := bytes_needed n) in *. set (pad := 8 * m - n) in *.
  assert (8 * m = n + pad) as Hmp by (unfold pad; lia). clearbody pad m. set (c := if pad =? 0 then code else _) in *.
  clearbody c. rewrite wr_app by lia. exists (b ++ be_bytes (Z.to_nat m) c).
  assert (zlen (b ++ be_bytes (Z.to_nat m) c) = zlen b + m) as Hz by (rewrite zlen_app, zlen_be_bytes; lia).
  assert ((if pad =? 0 then 8 else pad) mod 8 = pad) as Hmod by (case_if; zify_bools; [by subst|apply Z.mod_small; lia]).
  split; try done.
  - apply bytes_ok_app. split; [done|]. apply be_bytes_ok.
  - case_if; zb.
  - rewrite Hmod, be_val_app, be_val_be_bytes, zlen_be_bytes, Z2Nat.id by lia. rewrite Hv, pow256, Hmp, Z.pow_add_r by lia. lia.
  - rewrite Hmod, Hz. lia.
  - rewrite Hz. destruct (pad =? 0) eqn:E; simpl; [lia|]. case_if; zb.
Qed.

(** The symbol [code] of [nbits] bits behind the bits [V], when the byte at [dest] is begun. *)
Lemma encode_sym_spec buf0 p0 a x rem V len ec : 0 <= p0 -> bytes_ok (a ++ [x]) -> 1 <= rem <= 8 ->
  be_val (a ++ [x]) = V * 2 ^ rem -> 8 * zlen (a ++ [x]) = len + rem ->
  1 <= ec_bits ec <= 30 -> 0 <= ec_lsb ec < 2 ^ ec_bits ec ->
  p0 + zlen a < zlen buf0 ->
  let '(buf, dest, rem') := xqc_huffman_encode_sym (wr buf0 p0 (a ++ [x])) (p0 + zlen a) rem ec in
  exists acc, written buf0 p0 buf dest rem' acc (V * 2 ^ ec_bits ec + ec_lsb ec) (len + ec_bits ec).
Proof.
  intros Hp0 Hok Hr HV Hl Hb Hc Hfit. destruct ec as [nbits code]. simpl in *. apply bytes_ok_app in Hok as [Ha Hx].
  apply Forall_cons in Hx as [Hx _]. pose proof (free_zero _ _ _ _ Hx Hr HV) as Hz. rewrite zlen_app in Hl.
  change (zlen [x]) with 1 in Hl. pose proof (zlen_nonneg a). rewrite be_snoc in HV.
  unfold xqc_huffman_encode_sym. cbn [ec_bits ec_lsb].
  assert (rd (wr buf0 p0 (a ++ [x])) (p0 + zlen a) = x) as ->.
  { rewrite <- wr_app by lia. rewrite rd_wr_hd; [done|]. rewrite zlen_wr. lia. }
  assert (forall y, wr (wr buf0 p0 (a ++ [x])) (p0 + zlen a) [y] = wr buf0 p0 (a ++ [y])) as Hw.
  { intros y. rewrite <- !wr_app by lia. apply wr_overwrite_hd. }
  rewrite !Hw. clear Hw.
  assert (forall y, is_byte y -> bytes_ok (a ++ [y])) as Hsn by (intros y Hy; apply bytes_ok_app; split; [done|by constructor]).
  case_if; zify_bools; [|case_if; zify_bools].
  - assert (2 ^ rem = 2 ^ nbits * 2 ^ (rem - nbits)) as Hpow by (rewrite <- Z.pow_add_r by lia; f_equal; lia).
    rewrite Z.shiftl_mul_pow2 by lia. assert (0 <= code * 2 ^ (rem - nbits) < 2 ^ rem) by nia.
    assert (2 ^ rem <= 256) by (apply (Z.pow_le_mono_r 2 rem 8); lia). rewrite u32_small by lia.
    destruct (or_free x rem (code * 2 ^ (rem - nbits)) Hx Hr Hz ltac:(lia)) as [-> Hy].
    exists (a ++ [x + code * 2 ^ (rem - nbits)]). split; try done; [by apply Hsn|lia|..].
    + rewrite be_snoc, Z.mod_small by lia. nia.
    + rewrite zlen_app, Z.mod_small by lia. change (zlen [_]) with 1. lia.
    + rewrite zlen_app. change (zlen [_]) with 1. case_if; zb.
  - subst nbits. destruct (or_free x rem code Hx Hr Hz ltac:(lia)) as [-> Hy].
    exists (a ++ [x + code]). split; try done; [by apply Hsn|..].
    + rewrite be_snoc, Z.mod_same, Z.mul_1_r by lia. lia.
    + rewrite zlen_app. change (zlen [_]) with 1. change (8 mod 8) with 0. lia.
    + rewrite zlen_app. change (zlen [_]) with 1. simpl. lia.
  - rewrite Z.shiftr_div_pow2 by lia. set (n := nbits - rem) in *. assert (nbits = rem + n) as Hnb by (unfold n; lia).
    clearbody n. assert (0 <= code / 2 ^ n < 2 ^ rem).
    { split; [apply Z.div_pos; lia|]. apply Z.div_lt_upper_bound; [lia|]. rewrite <- Z.pow_add_r by lia. rewrite (Z.add_comm n), <- Hnb. lia. }
    destruct (or_free x rem (code / 2 ^ n) Hx Hr Hz ltac:(lia)) as [-> Hy].
    pose proof (rest_written buf0 p0 (a ++ [x + code / 2 ^ n]) code n Hp0 (Hsn _ Hy) ltac:(lia) ltac:(lia)) as Hw.
    rewrite zlen_app in Hw. change (zlen [_]) with 1 in Hw. rewrite Z.add_assoc in Hw.
    destruct (encode_rest _ _ _ _) as [[buf dest] rem']. destruct Hw as (acc & Hw). exists acc.
    rewrite be_snoc in Hw. pose proof (Z.div_mod code (2 ^ n) ltac:(lia)).
    replace (V * 2 ^ nbits + code) with ((be_val a * 256 + (x + code / 2 ^ n)) * 2 ^ n + code mod 2 ^ n)
      by (rewrite Hnb, Z.pow_add_r by lia; nia).
    by replace (len + nbits) with (8 * (zlen a + 1) + n) by lia.
Qed.

Lemma code_ok b : is_byte b ->
  1 <= ec_bits (enc_code b) <= 30 /\ 0 <= ec_lsb (enc_code b) < 2 ^ ec_bits (enc_code b).
Proof.
  intros Hb. pose proof (byte_forall (fun b => (1 <=? ec_bits (enc_code b)) && (ec_bits (enc_code b) <=? 30)
    && (0 <=? ec_lsb (enc_code b)) && (ec_lsb (enc_code b) <? 2 ^ ec_bits (enc_code b))) ltac:(by vm_compute) b Hb) as H.
  cbv beta in H. zb.
Qed.

Lemma blen_app l k : blen (l ++ k) = blen l + blen k.
Proof. unfold blen. rewrite length_app. lia. Qed.

Lemma blen_code b : is_byte b -> blen (code_bits b) = ec_bits (enc_code b).
Proof. intros Hb. unfold blen, code_bits. rewrite length_to_bits. pose proof (code_ok b Hb). lia. Qed.

Lemma val_code b : is_byte b -> bits_val (code_bits b) = ec_lsb (enc_code b).
Proof.
  intros Hb. destruct (code_ok b Hb). unfold code_bits. rewrite bits_val_to_bits, Z2Nat.id by lia. by apply Z.mod_small.
Qed.

(** One more symbol, whether or not a byte is begun. *)
Lemma enc_step buf0 p0 buf dest rem acc l b : 0 <= p0 -> is_byte b ->
  written buf0 p0 buf dest rem acc (bits_val l) (blen l) -> blen (l ++ code_bits b) <= 8 * (zlen buf0 - p0) ->
  let '(buf', dest', rem') :=
    xqc_huffman_encode_sym (if rem =? 8 then wr buf dest [0] else buf) dest rem (enc_code b) in
  exists acc', written buf0 p0 buf' dest' rem' acc' (bits_val (l ++ code_bits b)) (blen (l ++ code_bits b)).
Proof.
  intros Hp0 Hb [Hbuf Hok Hr Hv Hl Hd] Hfit. destruct (code_ok b Hb) as [Hcb Hcl]. pose proof (zlen_nonneg acc).
  rewrite bits_val_app, blen_app, (blen_code b Hb), (val_code b Hb) in *.
  destruct (rem =? 8) eqn:E; zify_bools.
  - subst. rewrite Z.sub_0_r, wr_app by lia. change (8 mod 8) with 0 in *.
    apply encode_sym_spec; try done; try lia; rewrite ?be_snoc, ?zlen_app; change (zlen [0]) with 1; try lia.
    apply bytes_ok_app. split; [done|]. constructor; [done|constructor].
  - rewrite Z.mod_small in * by lia. pose proof (zlen_nonneg acc). subst buf dest.
    destruct acc as [|x a _] using rev_ind; [unfold zlen in Hl; simpl in Hl; unfold blen in Hl; lia|].
    rewrite zlen_app in *. change (zlen [x]) with 1 in *. replace (p0 + (zlen a + 1) - 1) with (p0 + zlen a) by lia.
    apply encode_sym_spec; try done; rewrite ?zlen_app; change (zlen [x]) with 1; lia.
Qed.

Lemma enc_loop_spec buf0 p0 src : 0 <= p0 -> bytes_ok src -> forall buf dest rem acc l,
  written buf0 p0 buf dest rem acc (bits_val l) (blen l) -> blen (l ++ enc_bits src) <= 8 * (zlen buf0 - p0) ->
  let '(buf', dest', rem') := enc_loop buf dest rem src in
  exists acc', written buf0 p0 buf' dest' rem' acc' (bits_val (l ++ enc_bits src)) (blen (l ++ enc_bits src)).
Proof.
  intros Hp0. induction 1 as [|b src Hb Hsrc IH]; intros buf dest rem acc l Hw Hfit; cbn [enc_loop].
  { rewrite app_nil_r. by exists acc. }
  change (enc_bits (b :: src)) with (code_bits b ++ enc_bits src) in *. rewrite app_assoc in *.
  pose proof (enc_step _ _ _ _ _ _ _ b Hp0 Hb Hw) as Hs. rewrite blen_app in Hfit. pose proof (eq_refl (blen (enc_bits src))).
  destruct (xqc_huffman_encode_sym _ _ _ _) as [[buf' dest'] rem']. destruct Hs as (acc' & Hw'); [unfold blen in *; lia|].
  apply (IH _ _ _ _ _ Hw'). by rewrite blen_app.
Qed.

Lemma foldl_bits src cnt : bytes_ok src -> foldl (fun cnt b => cnt + ec_bits (enc_code b)) cnt src = cnt + blen (enc_bits src).
Proof.
  intros H. revert cnt. induction H as [|b src Hb Hsrc IH]; intros cnt; cbn [foldl]; [unfold blen; simpl; lia|].
  rewrite IH. change (enc_bits (b :: src)) with (code_bits b ++ enc_bits src). rewrite blen_app, blen_code by done. lia.
Qed.

Lemma enc_len_spec src : bytes_ok src -> xqc_huffman_enc_len src = bytes_needed (blen (enc_bits src)).
Proof. intros H. unfold xqc_huffman_enc_len, bytes_needed. by rewrite foldl_bits. Qed.

(** The last byte is filled with ones, which begin the code of no symbol but the last. *)
Lemma eos_pad rem : 1 <= rem < 8 -> u8 (ec_lsb (enc_code 256) >> (ec_bits (enc_code 256) - rem)) = 2 ^ rem - 1.
Proof.
  intros Hr. assert (rem = 1 \/ rem = 2 \/ rem = 3 \/ rem = 4 \/ rem = 5 \/ rem = 6 \/ rem = 7) as H by lia.
  repeat (destruct H as [->|H]; [by vm_compute|]). subst. by vm_compute.
Qed.

Lemma ones_val n : bits_val (repeat true n) = 2 ^ Z.of_nat n - 1.
Proof.
  induction n as [|n IH]; [done|]. cbn [repeat]. rewrite bits_val_cons, IH. unfold blen. rewrite repeat_length.
  rewrite Nat2Z.inj_succ, Z.pow_succ_r by lia. simpl Z.b2z. lia.
Qed.

(** The bits of [acc], when they are known as a number. *)
Lemma acc_bits acc l pad : bytes_ok acc -> be_val acc = bits_val l * 2 ^ Z.of_nat pad + (2 ^ Z.of_nat pad - 1) ->
  8 * zlen acc = blen l + Z.of_nat pad -> bytes_bits acc = l ++ repeat true pad.
Proof.
  intros Hok Hv Hl. apply bits_val_inj.
  - rewrite length_bytes_bits, length_app, repeat_length. unfold zlen, blen in Hl. lia.
  - rewrite bits_val_bytes, bits_val_app, ones_val by done. unfold blen. by rewrite repeat_length.
Qed.

Lemma enc_spec buf0 p0 src : 0 <= p0 -> bytes_ok src -> p0 + xqc_huffman_enc_len src <= zlen buf0 ->
  exists out pad, xqc_huffman_enc buf0 p0 src = (wr buf0 p0 out, p0 + zlen out) /\ zlen out = xqc_huffman_enc_len src
  /\ bytes_ok out /\ (pad < 8)%nat /\ bytes_bits out = enc_bits src ++ repeat true pad.
Proof.
  intros Hp0 Hsrc Hfit. rewrite enc_len_spec in * by done. unfold bytes_needed in *. unfold xqc_huffman_enc.
  assert (written buf0 p0 buf0 p0 8 [] (bits_val []) (blen [])) as Hw0.
  { split; try done; [constructor|unfold zlen; simpl; lia]. }
  pose proof (enc_loop_spec buf0 p0 src Hp0 Hsrc _ _ _ _ [] Hw0) as Hloop. rewrite app_nil_l in Hloop.
  destruct (enc_loop buf0 p0 8 src) as [[buf dest] rem].
  destruct Hloop as (acc & [Hbuf Hok Hr Hv Hl Hd]); [Z.div_mod_to_equations; lia|].
  destruct (rem <? 8) eqn:E; zify_bools.
  - rewrite Z.mod_small in * by lia. subst buf. pose proof (zlen_nonneg acc). replace (rem =? 8) with false in Hd by (symmetry; apply Z.eqb_neq; lia).
    destruct acc as [|x a _] using rev_ind; [unfold zlen, blen in Hl; simpl in Hl; lia|].
    rewrite zlen_app in *. change (zlen [x]) with 1 in *. replace dest with (p0 + zlen a) by lia. pose proof (zlen_nonneg a).
    apply bytes_ok_app in Hok as [Ha Hx]. apply Forall_cons in Hx as [Hx _]. pose proof (free_zero _ _ _ _ Hx Hr Hv) as Hz.
    assert (zlen a + 1 = (blen (enc_bits src) + 7) / 8) as Hlen by (Z.div_mod_to_equations; lia).
    replace (rd (wr buf0 p0 (a ++ [x])) (p0 + zlen a)) with x
      by (rewrite <- wr_app, rd_wr_hd by (rewrite ?zlen_wr; lia); done).
    rewrite wr_overwrite by done. rewrite eos_pad by lia.
    destruct (or_free x rem (2 ^ rem - 1) Hx Hr Hz ltac:(lia)) as [Hor Hy].
    rewrite u8_small in Hor by (assert (2 ^ rem <= 256) by (apply (Z.pow_le_mono_r 2 rem 8); lia); lia). rewrite Hor.
    exists (a ++ [x + (2 ^ rem - 1)]), (Z.to_nat rem). rewrite zlen_app. change (zlen [_]) with 1.
    assert (bytes_ok (a ++ [x + (2 ^ rem - 1)])) by (apply bytes_ok_app; split; [done|by constructor]).
    split_and!; try done; try lia; [by rewrite Z.add_assoc|].
    apply acc_bits; [done| |rewrite zlen_app; change (zlen [_]) with 1; lia]. rewrite be_snoc in *. rewrite Z2Nat.id by lia. lia.
  - replace rem with 8 in * by lia. subst. change (8 mod 8) with 0 in *. exists acc, O. rewrite Z.sub_0_r.
    split_and!; try done; try lia; [Z.div_mod_to_equations; lia|]. apply acc_bits; [done|simpl; lia|simpl; lia].
Qed.

End HuffmanSpec.
