(* ===== verification/HuffmanTree.v ===== *)
(** The decoder of src/src/common/utils/huffman is the walk through the code tree, bit by bit:
    its table has the right entry for every state and every four bits. *)

From stdpp Require Import base numbers list.
From S2P Require Import Prelude HuffmanTable Huffman HuffmanSpec.
Import HuffmanTable Huffman HuffmanSpec.

Module HuffmanTree.

(** ** The code tree *)

Inductive tree := Nil | Leaf (sym : Z) | Fork (l r : tree).

Fixpoint insert (bits : list bool) (sym : Z) (t : tree) : tree :=
  match bits with
  | [] => Leaf sym
  | b :: rest =>
      let '(l, r) := match t with Fork l r => (l, r) | _ => (Nil, Nil) end in
      if b then Fork l (insert rest sym r) else Fork (insert rest sym l) r
  end.

Definition range (n : nat) : list Z := map Z.of_nat (seq 0 n).

(** The codes of all symbols. *)
Definition code_tree : tree := Eval vm_compute in foldl (fun t c => insert (code_bits c) c t) Nil (range 257).

(** A node is the bits that lead to it. *)
Definition node : Type := list bool.

Definition root : node := [].

Fixpoint descend (t : tree) (p : node) : tree :=
  match p with
  | [] => t
  | b :: rest => match t with Fork l r => descend (if b then r else l) rest | _ => Nil end
  end.

(** One bit: the symbol when one is reached, and where the walk goes on. The symbol that ends a
    string must not occur. *)
Definition tree_bit (p : node) (b : bool) : option (list Z * node) :=
  match descend code_tree (p ++ [b]) with
  | Leaf c => if c =? 256 then None else Some ([c], root)
  | Fork _ _ => Some ([], p ++ [b])
  | Nil => None
  end.

Fixpoint tree_bits (p : node) (l : list bool) : option (list Z * node) :=
  match l with
  | [] => Some ([], p)
  | b :: rest => '(s, p) ← tree_bit p b; '(s', p) ← tree_bits p rest; Some (s ++ s', p)
  end.

(** The bits behind the last symbol may be padding: fewer than eight, all ones. *)
Definition is_padding (p : node) : bool := forallb id p && (blen p <? 8).

Lemma tree_bits_app p a b :
  tree_bits p (a ++ b) = ('(s, q) ← tree_bits p a; '(s', r) ← tree_bits q b; Some (s ++ s', r)).
Proof.
  revert p. induction a as [|x a IH]; intros p; cbn [app tree_bits].
  { simpl. by destruct (tree_bits p b) as [[? ?]|]. }
  destruct (tree_bit p x) as [[s q]|]; [|done]. simpl. rewrite IH.
  destruct (tree_bits q a) as [[s' q']|]; [|done]. simpl.
  destruct (tree_bits q' b) as [[s'' q'']|]; [|done]. simpl. by rewrite app_assoc.
Qed.

(** ** The states of the decoder *)

(** The node of every state: how many bits, and their value. *)
Definition state_nodes : list (Z * Z) :=
  [(0, 0); (1, 0); (2, 0); (3, 0); (4, 0); (4, 1); (3, 1); (4, 2); (4, 3); (2, 1); (3, 2); (4, 4); (4,
   5); (5, 10); (5, 11); (3, 3); (4, 6); (5, 12); (5, 13); (4, 7); (5, 14); (5, 15); (1, 1); (2, 2);
   (3, 4); (4, 8); (5, 16); (5, 17); (4, 9); (5, 18); (5, 19); (3, 5); (4, 10); (5, 20); (5, 21); (4,
   11); (5, 22); (5, 23); (6, 46); (6, 47); (2, 3); (3, 6); (4, 12); (5, 24); (6, 48); (6, 49); (5,
   25); (6, 50); (6, 51); (4, 13); (5, 26); (6, 52); (6, 53); (5, 27); (6, 54); (6, 55); (3, 7); (4,
   14); (5, 28); (6, 56); (6, 57); (5, 29); (6, 58); (6, 59); (4, 15); (5, 30); (6, 60); (6, 61); (5,
   31); (6, 62); (7, 124); (7, 125); (6, 63); (7, 126); (7, 127); (8, 254); (9, 508); (9, 509); (8,
   255); (9, 510); (10, 1021); (9, 511); (10, 1022); (11, 2045); (10, 1023); (11, 2046); (12, 4092);
   (12, 4093); (11, 2047); (12, 4094); (12, 4095); (13, 8190); (13, 8191); (14, 16382); (14, 16383);
   (15, 32767); (16, 65534); (17, 131068); (18, 262136); (18, 262137); (19, 524275); (17, 131069); (18,
   262138); (19, 524276); (19, 524277); (18, 262139); (19, 524278); (19, 524279); (20, 1048558); (20,
   1048559); (16, 65535); (17, 131070); (18, 262140); (19, 524280); (20, 1048560); (20, 1048561); (19,
   524281); (20, 1048562); (20, 1048563); (18, 262141); (19, 524282); (20, 1048564); (21, 2097129);
   (20, 1048565); (21, 2097130); (21, 2097131); (19, 524283); (20, 1048566); (21, 2097132); (21,
   2097133); (20, 1048567); (21, 2097134); (21, 2097135); (17, 131071); (18, 262142); (19, 524284);
   (20, 1048568); (21, 2097136); (21, 2097137); (20, 1048569); (21, 2097138); (21, 2097139); (19,
   524285); (20, 1048570); (21, 2097140); (21, 2097141); (20, 1048571); (21, 2097142); (22, 4194284);
   (22, 4194285); (21, 2097143); (22, 4194286); (22, 4194287); (18, 262143); (19, 524286); (20,
   1048572); (21, 2097144); (22, 4194288); (22, 4194289); (21, 2097145); (22, 4194290); (22, 4194291);
   (20, 1048573); (21, 2097146); (22, 4194292); (22, 4194293); (21, 2097147); (22, 4194294); (22,
   4194295); (19, 524287); (20, 1048574); (21, 2097148); (22, 4194296); (22, 4194297); (21, 2097149);
   (22, 4194298); (23, 8388597); (22, 4194299); (23, 8388598); (23, 8388599); (20, 1048575); (21,
   2097150); (22, 4194300); (23, 8388600); (23, 8388601); (22, 4194301); (23, 8388602); (23, 8388603);
   (24, 16777206); (24, 16777207); (21, 2097151); (22, 4194302); (23, 8388604); (24, 16777208); (25,
   33554416); (25, 33554417); (24, 16777209); (25, 33554418); (25, 33554419); (23, 8388605); (24,
   16777210); (25, 33554420); (25, 33554421); (24, 16777211); (25, 33554422); (25, 33554423); (26,
   67108847); (22, 4194303); (23, 8388606); (24, 16777212); (25, 33554424); (26, 67108848); (26,
   67108849); (25, 33554425); (26, 67108850); (26, 67108851); (24, 16777213); (25, 33554426); (26,
   67108852); (26, 67108853); (25, 33554427); (26, 67108854); (26, 67108855); (23, 8388607); (24,
   16777214); (25, 33554428); (26, 67108856); (27, 134217713); (26, 67108857); (27, 134217714); (27,
   134217715); (25, 33554429); (26, 67108858); (27, 134217716); (27, 134217717); (26, 67108859); (27,
   134217718); (27, 134217719); (24, 16777215); (25, 33554430); (26, 67108860); (27, 134217720); (27,
   134217721); (26, 67108861); (27, 134217722); (27, 134217723); (25, 33554431); (26, 67108862); (27,
   134217724); (27, 134217725); (26, 67108863); (27, 134217726); (27, 134217727); (28, 268435455); (29,
   536870910); (29, 536870911)].

Definition state_node (s : Z) : node :=
  let p := nth (Z.to_nat s) state_nodes (0, 0) in to_bits (Z.to_nat (fst p)) (snd p).

Definition flag (c : xqc_huffman_dec_code_t) (f : Z) : bool := negb (dc_flags c .& f =? 0).

Definition entry_ok (s bits : Z) : bool :=
  let c := dec_code s bits in
  match tree_bits (state_node s) (to_bits 4 bits) with
  | None => flag c XQC_HUFFMAN_FAIL
  | Some (syms, p) =>
      negb (flag c XQC_HUFFMAN_FAIL)
      && bool_decide (syms = if flag c XQC_HUFFMAN_SYM then [dc_sym c] else [])
      && (0 <=? dc_state c) && (dc_state c <? 256) && bool_decide (state_node (dc_state c) = p)
      && Bool.eqb (flag c XQC_HUFFMAN_END) (is_padding p)
  end.

Lemma in_range n x : 0 <= x < Z.of_nat n -> In x (range n).
Proof. intros Hx. apply in_map_iff. exists (Z.to_nat x). split; [lia|]. apply in_seq. lia. Qed.

(** All entries of the table. *)
Lemma table_ok s bits : 0 <= s < 256 -> 0 <= bits < 16 -> entry_ok s bits = true.
Proof.
  intros Hs Hb. assert (forallb (fun s => forallb (entry_ok s) (range 16)) (range 256) = true) as H by (vm_compute; reflexivity).
  rewrite forallb_forall in H. specialize (H s (in_range 256 s Hs)). rewrite forallb_forall in H. apply H. by apply in_range.
Qed.

(** Every symbol is reached by its code, and by no part of it. *)
Definition code_reached (b : Z) : bool := bool_decide (tree_bits root (code_bits b) = Some ([b], root)).

Lemma tree_code b : is_byte b -> tree_bits root (code_bits b) = Some ([b], root).
Proof.
  intros Hb. apply (bool_decide_eq_true_1 _). apply (byte_forall code_reached); [vm_compute; reflexivity|done].
Qed.

Lemma tree_pad pad : (pad < 8)%nat -> exists p, tree_bits root (repeat true pad) = Some ([], p) /\ is_padding p = true.
Proof. intros Hp. do 8 (destruct pad as [|pad]; [eexists; split; vm_compute; reflexivity|]). lia. Qed.

(** The bits of an encoded string lead back to the string. *)
Lemma tree_enc src pad : bytes_ok src -> (pad < 8)%nat ->
  exists p, tree_bits root (enc_bits src ++ repeat true pad) = Some (src, p) /\ is_padding p = true.
Proof.
  intros Hsrc Hpad. destruct (tree_pad pad Hpad) as (p & Hp & He). exists p. split; [|done].
  induction Hsrc as [|b src Hb Hsrc IH]; [done|]. change (enc_bits (b :: src)) with (code_bits b ++ enc_bits src).
  rewrite <- app_assoc, tree_bits_app, tree_code by done. simpl. by rewrite IH.
Qed.

(** ** The decoder, four bits at a time *)

Definition ctx_node (ctx : xqc_huffman_dec_ctx) : node := state_node (hc_state ctx).

Definition ctx_ok (ctx : xqc_huffman_dec_ctx) : Prop :=
  0 <= hc_state ctx < 256 /\ hc_end ctx = is_padding (ctx_node ctx).

Lemma dec_bits_spec ctx bits : ctx_ok ctx -> 0 <= bits < 16 ->
  match tree_bits (ctx_node ctx) (to_bits 4 bits) with
  | None => xqc_huffman_dec_bits ctx bits = Err XQC_QPACK_HUFFMAN_DEC_ERROR
  | Some (syms, p) => exists ctx', xqc_huffman_dec_bits ctx bits = Ok (syms, ctx') /\ ctx_ok ctx' /\ ctx_node ctx' = p
      /\ hc_high_bits ctx' = hc_high_bits ctx
  end.
Proof.
  intros [Hs _] Hb. pose proof (table_ok _ _ Hs Hb) as H. unfold entry_ok, flag in H. fold (ctx_node ctx) in H.
  unfold xqc_huffman_dec_bits. destruct (tree_bits (ctx_node ctx) (to_bits 4 bits)) as [[syms p]|]; [|by rewrite H].
  repeat (apply andb_true_iff in H; destruct H as [H ?]). apply negb_true_iff in H. rewrite H.
  repeat match goal with H : bool_decide _ = true |- _ => apply bool_decide_eq_true_1 in H end. zify_bools.
  match goal with H : Bool.eqb _ _ = true |- _ => apply eqb_prop in H end.
  subst syms p. eexists. split; [reflexivity|]. split; [|done]. by split.
Qed.

(** The four-bit values that are left of [src]. *)
Definition nibbles (src : list Z) : list Z := concat (map (fun b => [b >> 4; b .& 0x0f]) src).

Definition pending (high : bool) (src : list Z) : list Z := if high then nibbles src else drop 1 (nibbles src).

Fixpoint dec_nibs (ctx : xqc_huffman_dec_ctx) (dstlen : Z) (nibs : list Z) (fin : bool) (n : Z) (out : list Z)
    : res (Z * list Z) * xqc_huffman_dec_ctx :=
  match nibs with
  | [] => if fin && negb (hc_end ctx) then (Err XQC_QPACK_HUFFMAN_DEC_STATE_ERROR, ctx) else (Ok (n, out), ctx)
  | x :: rest =>
      match xqc_huffman_dec_bits ctx x with
      | Err e => (Err e, ctx)
      | Ok (sym, ctx) =>
          let ctx := set_high ctx (negb (hc_high_bits ctx)) in
          let out := out ++ sym in
          if zlen out =? dstlen then (Ok (n + 1, out), ctx) else dec_nibs ctx dstlen rest fin (n + 1) out
      end
  end.

Definition half (ctx : xqc_huffman_dec_ctx) : Z := if hc_high_bits ctx then 0 else 1.

Definition to_bytes (r : res (Z * list Z) * xqc_huffman_dec_ctx) : res (Z * list Z) * xqc_huffman_dec_ctx :=
  match r with (Ok (n, out), ctx) => (Ok (n / 2, out), ctx) | r => r end.

Lemma high_kept ctx x sym ctx' : xqc_huffman_dec_bits ctx x = Ok (sym, ctx') -> hc_high_bits ctx' = hc_high_bits ctx.
Proof. unfold xqc_huffman_dec_bits. case_if; [done|]. intros ?. by simplify_eq. Qed.

Lemma dec_loop_nibs ctx dstlen src fin read out : (src = [] -> hc_high_bits ctx = true) ->
  dec_loop ctx dstlen src fin read out
  = to_bytes (dec_nibs ctx dstlen (pending (hc_high_bits ctx) src) fin (2 * read + half ctx) out).
Proof.
  revert ctx read out. induction src as [|b src IH]; intros ctx read out Hne.
  { unfold half. rewrite (Hne eq_refl). simpl. case_if; [done|]. simpl. do 3 f_equal. Z.div_mod_to_equations. lia. }
  assert (forall ctx out, hc_high_bits ctx = false ->
    match xqc_huffman_dec_bits ctx (b .& 0x0f) with
    | Err e => (Err e, ctx)
    | Ok (sym, ctx) => let out := out ++ sym in let ctx := set_high ctx true in
        if zlen out =? dstlen then (Ok (read + 1, out), ctx) else dec_loop ctx dstlen src fin (read + 1) out
    end = to_bytes (dec_nibs ctx dstlen (b .& 0x0f :: nibbles src) fin (2 * read + 1) out)) as Hlow.
  { intros c o Hc. cbn [dec_nibs]. destruct (xqc_huffman_dec_bits c (b .& 15)) as [[sym c']|e] eqn:Ed; [|done]. cbv zeta.
    rewrite (high_kept _ _ _ _ Ed), Hc. cbn [negb]. case_if; [simpl; do 3 f_equal; Z.div_mod_to_equations; lia|].
    rewrite IH by done. unfold half, pending. simpl. do 2 f_equal. lia. }
  cbn [dec_loop]. unfold half, pending. change (nibbles (b :: src)) with (b >> 4 :: b .& 15 :: nibbles src).
  destruct (hc_high_bits ctx) eqn:Eh; [|by apply Hlow]. cbn [dec_nibs].
  destruct (xqc_huffman_dec_bits ctx (b >> 4)) as [[sym c']|e] eqn:Ed; [|done]. cbv zeta.
  rewrite (high_kept _ _ _ _ Ed), Eh. cbn [negb]. case_if; [simpl; do 3 f_equal; Z.div_mod_to_equations; lia|].
  rewrite Z.add_0_r. by apply (Hlow (set_high c' false)).
Qed.

Definition tree_nibs (p : node) (nibs : list Z) : option (list Z * node) := tree_bits p (concat (map (to_bits 4) nibs)).

Lemma tree_nibs_cons p x nibs :
  tree_nibs p (x :: nibs) = ('(s, q) ← tree_bits p (to_bits 4 x); '(s', r) ← tree_nibs q nibs; Some (s ++ s', r)).
Proof. apply tree_bits_app. Qed.

Lemma tree_nibs_app p a b :
  tree_nibs p (a ++ b) = ('(s, q) ← tree_nibs p a; '(s', r) ← tree_nibs q b; Some (s ++ s', r)).
Proof. unfold tree_nibs. rewrite map_app, concat_app. apply tree_bits_app. Qed.

(** How a run ends: on a bad code, with the destination full, or at the end of the input. *)
Inductive dec_ends (ctx : xqc_huffman_dec_ctx) (dstlen : Z) (nibs : list Z) (fin : bool) (n : Z) (out : list Z)
    : res (Z * list Z) * xqc_huffman_dec_ctx -> Prop :=
| Ends_bad k c : tree_nibs (ctx_node ctx) (take k nibs) = None ->
    dec_ends ctx dstlen nibs fin n out (Err XQC_QPACK_HUFFMAN_DEC_ERROR, c)
| Ends_full k syms c : (0 < k <= length nibs)%nat -> tree_nibs (ctx_node ctx) (take k nibs) = Some (syms, ctx_node c) ->
    zlen (out ++ syms) = dstlen -> zlen syms <= Z.of_nat k -> ctx_ok c -> half c = (half ctx + Z.of_nat k) mod 2 ->
    dec_ends ctx dstlen nibs fin n out (Ok (n + Z.of_nat k, out ++ syms), c)
| Ends_all syms c : tree_nibs (ctx_node ctx) nibs = Some (syms, ctx_node c) -> zlen (out ++ syms) < dstlen ->
    ctx_ok c -> half c = (half ctx + Z.of_nat (length nibs)) mod 2 ->
    dec_ends ctx dstlen nibs fin n out
      (if fin && negb (is_padding (ctx_node c)) then Err XQC_QPACK_HUFFMAN_DEC_STATE_ERROR
       else Ok (n + Z.of_nat (length nibs), out ++ syms), c).

Lemma set_high_ok ctx h : ctx_ok ctx -> ctx_ok (set_high ctx h) /\ ctx_node (set_high ctx h) = ctx_node ctx.
Proof. done. Qed.

Lemma half_range ctx : 0 <= half ctx < 2.
Proof. unfold half. case_if; lia. Qed.

Lemma syms_one ctx x sym c : xqc_huffman_dec_bits ctx x = Ok (sym, c) -> zlen sym <= 1.
Proof. unfold xqc_huffman_dec_bits. case_if; [done|]. intros ?. simplify_eq. case_if; done. Qed.

Lemma dec_nibs_ends ctx dstlen nibs fin n out : ctx_ok ctx -> Forall (fun x => 0 <= x < 16) nibs -> zlen out < dstlen ->
  dec_ends ctx dstlen nibs fin n out (dec_nibs ctx dstlen nibs fin n out).
Proof.
  intros Hc Hn. revert ctx n out Hc. induction Hn as [|x nibs Hx Hn IH]; intros ctx n out Hc Ho.
  { pose proof (Ends_all ctx dstlen [] fin n out [] ctx) as H. cbn [dec_nibs]. rewrite (proj2 Hc).
    simpl length in H. rewrite app_nil_r, !Z.add_0_r in H. pose proof (half_range ctx). rewrite Z.mod_small in H by done.
    case_if; by apply H. }
  cbn [dec_nibs]. pose proof (dec_bits_spec ctx x Hc Hx) as Hb.
  destruct (tree_bits (ctx_node ctx) (to_bits 4 x)) as [[sym q]|] eqn:Et.
  2:{ rewrite Hb. apply (Ends_bad _ _ _ _ _ _ 1%nat). cbn [take]. by rewrite tree_nibs_cons, Et. }
  destruct Hb as (c1 & Hd & Hc1 & Hq & Hh). rewrite Hd. cbv zeta. set (c2 := set_high c1 _).
  assert (ctx_ok c2 /\ ctx_node c2 = q) as [Hc2 Hq2] by by split.
  assert (half c2 = (half ctx + 1) mod 2) as Hhalf by (unfold half, c2; simpl; rewrite Hh; by destruct (hc_high_bits ctx)).
  pose proof (syms_one _ _ _ _ Hd) as Hone. clearbody c2.
  destruct (zlen (out ++ sym) =? dstlen) eqn:E; zify_bools.
  { apply (Ends_full _ _ _ _ _ _ 1%nat); try done; [simpl; lia|]. cbn [take]. rewrite tree_nibs_cons, Et, Hq2. simpl. by rewrite app_nil_r. }
  specialize (IH c2 (n + 1) (out ++ sym) Hc2). destruct IH as [k c Hk|k s c Hk Ht Hz Hs Hok Hhf|s c Ht Hz Hok Hhf].
  { rewrite zlen_app in *. pose proof (zlen_nonneg sym). lia. }
  - apply (Ends_bad _ _ _ _ _ _ (S k)). cbn [take]. rewrite tree_nibs_cons, Et. simpl. by rewrite <- Hq2, Hk.
  - rewrite <- app_assoc in *. replace (n + 1 + Z.of_nat k) with (n + Z.of_nat (S k)) by lia.
    apply (Ends_full _ _ _ _ _ _ (S k)); try done; [simpl; lia| |rewrite zlen_app; lia|].
    + cbn [take]. rewrite tree_nibs_cons, Et. simpl. rewrite <- Hq2, Ht. done.
    + rewrite Hhf, Hhalf, Zplus_mod_idemp_l. f_equal. lia.
  - rewrite <- app_assoc in *. replace (n + 1 + Z.of_nat (length nibs)) with (n + Z.of_nat (length (x :: nibs))) by (simpl; lia).
    apply Ends_all; try done; [by rewrite tree_nibs_cons, Et; simpl; rewrite <- Hq2, Ht|].
    rewrite Hhf, Hhalf, Zplus_mod_idemp_l. f_equal. simpl. lia.
Qed.

(** ** Whole strings *)

Lemma byte_nibbles b : is_byte b ->
  to_bits 4 (b >> 4) ++ to_bits 4 (b .& 0x0f) = to_bits 8 b /\ 0 <= b >> 4 < 16 /\ 0 <= b .& 0x0f < 16.
Proof.
  intros Hb. assert (forallb (fun b => bool_decide (to_bits 4 (b >> 4) ++ to_bits 4 (b .& 0x0f) = to_bits 8 b
    /\ 0 <= b >> 4 < 16 /\ 0 <= b .& 0x0f < 16)) (map Z.of_nat (seq 0 256)) = true) as H by (vm_compute; reflexivity).
  pose proof (byte_forall _ H b Hb) as Hp. by apply bool_decide_eq_true_1 in Hp.
Qed.

Lemma nibbles_bits src : bytes_ok src -> concat (map (to_bits 4) (nibbles src)) = bytes_bits src.
Proof.
  induction 1 as [|b src Hb Hsrc IH]; [done|]. change (nibbles (b :: src)) with ([b >> 4; b .& 15] ++ nibbles src).
  rewrite map_app, concat_app, IH. cbn [map concat]. rewrite app_nil_r. by rewrite (proj1 (byte_nibbles b Hb)).
Qed.

Lemma nibbles_ok src : bytes_ok src -> Forall (fun x => 0 <= x < 16) (nibbles src).
Proof.
  induction 1 as [|b src Hb Hsrc IH]; [constructor|]. destruct (byte_nibbles b Hb) as (_ & H1 & H2).
  constructor; [done|]. by constructor.
Qed.

Lemma length_nibbles src : length (nibbles src) = (2 * length src)%nat.
Proof. induction src as [|b src IH]; [done|]. change (nibbles (b :: src)) with ([b >> 4; b .& 15] ++ nibbles src). rewrite length_app, IH. simpl. lia. Qed.

Lemma dec_init_ok : ctx_ok xqc_huffman_dec_ctx_init /\ ctx_node xqc_huffman_dec_ctx_init = root.
Proof. by vm_compute. Qed.

Lemma dec_walk src dstlen : bytes_ok src -> 2 * zlen src < dstlen ->
  fst (xqc_huffman_dec xqc_huffman_dec_ctx_init dstlen src true)
  = match tree_bits root (bytes_bits src) with
    | None => Err XQC_QPACK_HUFFMAN_DEC_ERROR
    | Some (syms, p) => if is_padding p then Ok (zlen src, syms) else Err XQC_QPACK_HUFFMAN_DEC_STATE_ERROR
    end.
Proof.
  intros Hsrc Hd. unfold xqc_huffman_dec. rewrite dec_loop_nibs by done. cbn [xqc_huffman_dec_ctx_init hc_high_bits pending].
  change (2 * 0 + half _) with 0. destruct dec_init_ok as [Hok Hroot]. pose proof (zlen_nonneg src).
  pose proof (dec_nibs_ends _ dstlen (nibbles src) true 0 [] Hok (nibbles_ok src Hsrc) ltac:(unfold zlen; simpl; lia)) as He.
  rewrite <- nibbles_bits by done. fold (tree_nibs root (nibbles src)). 
  destruct He as [k c Hk|k syms c Hk Ht Hz Hs _ _|syms c Ht _ _ _].
  - rewrite Hroot in Hk. rewrite <- (take_drop k (nibbles src)), tree_nibs_app, Hk. done.
  - pose proof (length_nibbles src). rewrite app_nil_l in Hz. unfold zlen in *. lia.
  - rewrite Hroot in Ht. rewrite Ht. destruct (is_padding (ctx_node c)); [|done]. simpl. do 2 f_equal.
    rewrite length_nibbles. unfold zlen. Z.div_mod_to_equations. lia.
Qed.

(** C19: Given a destination that is large enough, the table-driven decoder accepts exactly the
    strings whose bits walk from the root of the code tree through symbols other than the last
    one and end in fewer than eight ones; it gives the symbols on the way, and consumes
    everything. *)
Theorem huffman_dec_is_tree_walk src dstlen : bytes_ok src -> 2 * zlen src < dstlen ->
  fst (xqc_huffman_dec xqc_huffman_dec_ctx_init dstlen src true)
  = match tree_bits root (bytes_bits src) with
    | None => Err XQC_QPACK_HUFFMAN_DEC_ERROR
    | Some (syms, p) => if is_padding p then Ok (zlen src, syms) else Err XQC_QPACK_HUFFMAN_DEC_STATE_ERROR
    end.
Proof. apply dec_walk. Qed.

(** Every string survives Huffman coding: what the encoder writes takes the announced number
    of bytes, changes nothing else, and is decoded to the string. *)
Theorem huffman_roundtrip buf pos src dstlen : 0 <= pos -> bytes_ok src ->
  pos + xqc_huffman_enc_len src <= zlen buf -> 2 * xqc_huffman_enc_len src < dstlen ->
  exists out, xqc_huffman_enc buf pos src = (wr buf pos out, pos + xqc_huffman_enc_len src)
  /\ zlen out = xqc_huffman_enc_len src
  /\ fst (xqc_huffman_dec xqc_huffman_dec_ctx_init dstlen out true) = Ok (xqc_huffman_enc_len src, src).
Proof.
  intros Hp Hsrc Hfit Hd. destruct (enc_spec buf pos src Hp Hsrc Hfit) as (out & pad & He & Hlen & Hok & Hpad & Hbits).
  exists out. rewrite He, Hlen. split; [done|]. split; [done|]. rewrite dec_walk, Hbits by (done || lia).
  destruct (tree_enc src pad Hsrc Hpad) as (p & -> & ->). by rewrite Hlen.
Qed.

Definition ex_str : list Z := [119; 119; 119; 46; 101; 120; 0; 255; 10; 109; 112; 108; 101].

Lemma huffman_dec_is_tree_walk_witness :
  fst (xqc_huffman_dec xqc_huffman_dec_ctx_init 20 [0xf1; 0xe3; 0xc2; 0xe5; 0xf2] true)
  = match tree_bits root (bytes_bits [0xf1; 0xe3; 0xc2; 0xe5; 0xf2]) with
    | None => Err XQC_QPACK_HUFFMAN_DEC_ERROR
    | Some (syms, p) => if is_padding p then Ok (5, syms) else Err XQC_QPACK_HUFFMAN_DEC_STATE_ERROR
    end
  /\ option_map fst (tree_bits root (bytes_bits [0xf1; 0xe3; 0xc2; 0xe5; 0xf2])) = Some [119; 119; 119; 46; 101; 120].
Proof.
  split; [|vm_compute; reflexivity].
  apply (huffman_dec_is_tree_walk [0xf1; 0xe3; 0xc2; 0xe5; 0xf2] 20); [by_decide|vm_compute; reflexivity].
Defined.

Lemma huffman_roundtrip_witness :
  exists out, xqc_huffman_enc (replicate 40 7) 3 ex_str = (wr (replicate 40 7) 3 out, 20)
  /\ zlen out = 17 /\ fst (xqc_huffman_dec xqc_huffman_dec_ctx_init 100 out true) = Ok (17, ex_str).
Proof. apply (huffman_roundtrip (replicate 40 7) 3 ex_str 100); [lia|by_decide|vm_compute; congruence|vm_compute; reflexivity]. Defined.

End HuffmanTree.
