(* ===== verification/PrefixedStr.v ===== *)
(** The strings of QPACK: a Huffman flag, the length as a prefixed integer and the bytes
    (src/src/http3/qpack/xqc_prefixed_str.c). They are read in any number of pieces. *)

From stdpp Require Import base numbers list.
From S2P Require Import Prelude RingArray RingMem VarBuf QpackInt HuffmanTable Huffman.
Import RingArray RingMem VarBuf QpackInt HuffmanTable Huffman.

Module PrefixedStr.

Definition QPACK_DECOMPRESSION_FAILED : Z := 0x200.
Definition XQC_QPACK_STATE_ERROR : Z := 912.

Inductive xqc_prefixed_str_stage_t :=
| XQC_PS_STAGE_H
| XQC_PS_STAGE_LEN
| XQC_PS_STAGE_VALUE
| XQC_PS_STAGE_FINISH.

Record xqc_prefixed_str_t := mk_ps {
  ps_huff_flag : Z;
  ps_len : xqc_prefixed_int_t;
  ps_used_len : Z;
  ps_value : xqc_var_buf_t;
  ps_stg : xqc_prefixed_str_stage_t;
  ps_huff_ctx : xqc_huffman_dec_ctx;
  ps_max_str_len : Z;
}.

Definition set_ps_len (p : xqc_prefixed_str_t) (l : xqc_prefixed_int_t) : xqc_prefixed_str_t :=
  mk_ps (ps_huff_flag p) l (ps_used_len p) (ps_value p) (ps_stg p) (ps_huff_ctx p) (ps_max_str_len p).
Definition set_ps_stg (p : xqc_prefixed_str_t) (s : xqc_prefixed_str_stage_t) : xqc_prefixed_str_t :=
  mk_ps (ps_huff_flag p) (ps_len p) (ps_used_len p) (ps_value p) s (ps_huff_ctx p) (ps_max_str_len p).
Definition set_ps_value (p : xqc_prefixed_str_t) (v : xqc_var_buf_t) : xqc_prefixed_str_t :=
  mk_ps (ps_huff_flag p) (ps_len p) (ps_used_len p) v (ps_stg p) (ps_huff_ctx p) (ps_max_str_len p).
Definition set_ps_huff (p : xqc_prefixed_str_t) (used : Z) (v : xqc_var_buf_t) (c : xqc_huffman_dec_ctx) : xqc_prefixed_str_t :=
  mk_ps (ps_huff_flag p) (ps_len p) used v (ps_stg p) c (ps_max_str_len p).

Definition xqc_prefixed_str_init (p : xqc_prefixed_str_t) (n : Z) : xqc_prefixed_str_t :=
  mk_ps (ps_huff_flag p) (xqc_prefixed_int_init n) 0 (xqc_var_buf_clear (ps_value p)) XQC_PS_STAGE_H
    xqc_huffman_dec_ctx_init (ps_max_str_len p).

Section ops.

Context (mem : bool) (junk : Z -> list Z).

Definition xqc_prefixed_str_pctx_create (capacity max_str_len : Z) : option xqc_prefixed_str_t :=
  if negb mem then None
  else
    let buf_limit := if max_str_len + 1 <? capacity then capacity else max_str_len + 1 in
    value ← xqc_var_buf_create_with_limit mem junk capacity buf_limit;
    Some (xqc_prefixed_str_init (mk_ps 0 (mk_pi 0 0 0) 0 value XQC_PS_STAGE_H xqc_huffman_dec_ctx_init max_str_len) 0).

(** The end of the function: the terminator behind a complete string. *)
Definition str_finish (p : xqc_prefixed_str_t) (pos : Z) : res (Z * bool) * xqc_prefixed_str_t :=
  match ps_stg p with
  | XQC_PS_STAGE_FINISH =>
      match xqc_var_buf_save_prepare mem junk (ps_value p) 1 with
      | (Err e, v) => (Err e, set_ps_value p v)
      | (Ok _, v) => (Ok (pos, true), set_ps_value p (vb_write v (wr (vb_data v) (vb_data_len v) [0]) (vb_data_len v)))
      end
  | _ => (Ok (pos, false), p)
  end.

(** The part of a string that is not Huffman coded. *)
Definition plain_value (p : xqc_prefixed_str_t) (data : list Z) (pos : Z) : res (Z * bool) * xqc_prefixed_str_t :=
  let l := Z.min (zlen data) (u64 (pi_value (ps_len p) - vb_data_len (ps_value p))) in
  match xqc_var_buf_save_data mem junk (ps_value p) (take (Z.to_nat l) data) with
  | (Err _, v) => (Err QPACK_DECOMPRESSION_FAILED, set_ps_value p v)
  | (Ok _, v) =>
      let p := set_ps_value p v in
      let p := if vb_data_len v =? pi_value (ps_len p) then set_ps_stg p XQC_PS_STAGE_FINISH else p in
      str_finish p (pos + l)
  end.

(** [while (pos < end)]; every round decodes four bits at least. *)
Fixpoint huff_loop (fuel : nat) (p : xqc_prefixed_str_t) (data : list Z) (pos : Z)
    : res (Z * bool) * xqc_prefixed_str_t :=
  match data, fuel with
  | [], _ | _, O => str_finish p pos
  | _, S f =>
      let l := Z.min (zlen data) (u64 (pi_value (ps_len p) - ps_used_len p)) in
      if ps_max_str_len p + 1 <=? vb_data_len (ps_value p) then (Err QPACK_DECOMPRESSION_FAILED, p)
      else
        let remain_out := ps_max_str_len p + 1 - vb_data_len (ps_value p) in
        let need := if remain_out <? 2 * l then remain_out else 2 * l in
        if need =? 0 then (Err QPACK_DECOMPRESSION_FAILED, p)
        else
          match xqc_var_buf_save_prepare mem junk (ps_value p) need with
          | (Err _, v) => (Err QPACK_DECOMPRESSION_FAILED, set_ps_value p v)
          | (Ok _, v) =>
              match xqc_huffman_dec (ps_huff_ctx p) (vb_buf_len v - vb_data_len v) (take (Z.to_nat l) data)
                      (ps_used_len p + l =? pi_value (ps_len p)) with
              | (Err e, c) => (Err e, set_ps_huff p (ps_used_len p) v c)
              | (Ok (read, out), c) =>
                  let v := vb_write v (wr (vb_data v) (vb_data_len v) out) (vb_data_len v + zlen out) in
                  let p := set_ps_huff p (ps_used_len p + read) v c in
                  if ps_max_str_len p <? vb_data_len v then (Err QPACK_DECOMPRESSION_FAILED, p)
                  else if ps_used_len p =? pi_value (ps_len p)
                  then str_finish (set_ps_stg p XQC_PS_STAGE_FINISH) (pos + read)
                  else huff_loop f p (drop (Z.to_nat read) data) (pos + read)
              end
          end
  end.

Definition str_value (p : xqc_prefixed_str_t) (data : list Z) (pos : Z) : res (Z * bool) * xqc_prefixed_str_t :=
  if ps_huff_flag p =? 0 then plain_value p data pos else huff_loop (2 * length data) p data pos.

(** The length is complete; [data] is what follows it. *)
Definition str_len_done (p : xqc_prefixed_str_t) (data : list Z) (pos : Z) : res (Z * bool) * xqc_prefixed_str_t :=
  let len := pi_value (ps_len p) in
  if len =? 0 then str_finish (set_ps_stg p XQC_PS_STAGE_FINISH) pos
  else if (if ps_huff_flag p =? 0 then ps_max_str_len p <? len else u64 (ps_max_str_len p * 2) <? len)
  then (Err QPACK_DECOMPRESSION_FAILED, p)
  else
    let p := set_ps_stg p XQC_PS_STAGE_VALUE in
    let p := if 0 <? ps_huff_flag p
             then set_ps_huff p 0 (xqc_var_buf_clear (ps_value p)) xqc_huffman_dec_ctx_init else p in
    if zlen data =? 0 then str_finish p pos else str_value p data pos.

Definition str_len (p : xqc_prefixed_str_t) (data : list Z) : res (Z * bool) * xqc_prefixed_str_t :=
  match xqc_prefixed_int_read (ps_len p) data with
  | (Err e, l) => (Err e, set_ps_len p l)
  | (Ok (read, fin), l) =>
      let p := set_ps_len p l in
      if fin : bool then str_len_done p (drop (Z.to_nat read) data) read else str_finish p read
  end.

(** [data] is at least one byte. *)
Definition xqc_parse_prefixed_str (p : xqc_prefixed_str_t) (data : list Z) : res (Z * bool) * xqc_prefixed_str_t :=
  match ps_stg p with
  | XQC_PS_STAGE_H =>
      str_len (mk_ps (rd data 0 .& (1 << pi_prefix (ps_len p))) (ps_len p) (ps_used_len p) (ps_value p)
                 XQC_PS_STAGE_LEN (ps_huff_ctx p) (ps_max_str_len p)) data
  | XQC_PS_STAGE_LEN => str_len p data
  | XQC_PS_STAGE_VALUE => str_value p data 0
  | XQC_PS_STAGE_FINISH => (Err XQC_QPACK_STATE_ERROR, p)
  end.

Definition xqc_write_prefixed_str (buf : xqc_var_buf_t) (str : list Z) (n : Z) : res unit * xqc_var_buf_t :=
  let len := zlen str in
  let huff_len := xqc_huffman_enc_len str in
  if huff_len <? len then
    match xqc_var_buf_save_prepare mem junk buf (xqc_prefixed_int_put_len huff_len n + huff_len) with
    | (Err e, buf) => (Err e, buf)
    | (Ok _, buf) =>
        let pos := vb_data_len buf in
        let data := wr (vb_data buf) pos [u8 (rd (vb_data buf) pos .| (1 << n))] in
        let '(data, pos) := xqc_prefixed_int_put data pos huff_len n in
        let '(data, pos) := xqc_huffman_enc data pos str in
        let buf := vb_write buf data pos in
        if vb_buf_len buf <? vb_data_len buf then (Err VarBuf.XQC_ERROR, buf) else (Ok tt, buf)
    end
  else
    match xqc_var_buf_save_prepare mem junk buf (xqc_prefixed_int_put_len len n + len) with
    | (Err e, buf) => (Err e, buf)
    | (Ok _, buf) =>
        let pos := vb_data_len buf in
        let data := wr (vb_data buf) pos [u8 (Z.ldiff (rd (vb_data buf) pos) (1 << n))] in
        let '(data, pos) := xqc_prefixed_int_put data pos len n in
        xqc_var_buf_save_data mem junk (vb_write buf data pos) str
    end.

End ops.

End PrefixedStr.
