(* ===== verification/PrefixedStrSpec.v ===== *)
(** A string of QPACK that was written is read back, however the bytes arrive. *)

From stdpp Require Import base numbers list.
From S2P Require Import Prelude RingArray RingMem VarBuf QpackInt HuffmanTable Huffman HuffmanSpec HuffmanTree PrefixedStr.
Import RingArray RingMem VarBuf QpackInt HuffmanTable Huffman HuffmanSpec HuffmanTree PrefixedStr.

Module PrefixedStrSpec.

(** ** What is written *)

(** The Huffman code of a string. *)
Definition huff_bytes (s : list Z) : list Z :=
  fst (xqc_huffman_enc (replicate (Z.to_nat (xqc_huffman_enc_len s)) 0) 0 s).

(** [b] is the first byte as the caller has left it. *)
Definition enc_str (b n : Z) (s : list Z) : list Z :=
  if xqc_huffman_enc_len s <? zlen s
  then enc_int (high_bits b (n + 1) + 2 ^ n) (xqc_huffman_enc_len s) n ++ huff_bytes s
  else enc_int (high_bits b (n + 1)) (zlen s) n ++ s.

Lemma bytes_inj a b : bytes_ok a -> bytes_ok b -> zlen a = zlen b -> be_val a = be_val b -> a = b.
Proof.
  intros Ha Hb Hl Hv. rewrite <- (be_bytes_be_val a Ha), <- (be_bytes_be_val b Hb), Hv. unfold zlen in Hl.
  by replace (length a) with (length b) by lia.
Qed.

Lemma enc_len_nonneg s : bytes_ok s -> 0 <= xqc_huffman_enc_len s.
Proof. intros H. rewrite enc_len_spec by done. unfold bytes_needed. apply Z.div_pos; unfold blen; lia. Qed.

Lemma huff_spec buf pos s : 0 <= pos -> bytes_ok s -> pos + xqc_huffman_enc_len s <= zlen buf ->
  xqc_huffman_enc buf pos s = (wr buf pos (huff_bytes s), pos + xqc_huffman_enc_len s)
  /\ zlen (huff_bytes s) = xqc_huffman_enc_len s /\ bytes_ok (huff_bytes s)
  /\ exists pad, (pad < 8)%nat /\ bytes_bits (huff_bytes s) = enc_bits s ++ repeat true pad.
Proof.
  intros Hp Hs Hfit. pose proof (enc_len_nonneg s Hs).
  destruct (enc_spec buf pos s Hp Hs Hfit) as (o1 & p1 & He1 & Hl1 & Hok1 & Hp1 & Hb1).
  set (z := replicate (Z.to_nat (xqc_huffman_enc_len s)) 0).
  assert (zlen z = xqc_huffman_enc_len s) as Hz by (unfold z, zlen; rewrite length_replicate; lia).
  destruct (enc_spec z 0 s ltac:(lia) Hs ltac:(lia)) as (o2 & p2 & He2 & Hl2 & Hok2 & Hp2 & Hb2).
  assert (o1 = o2) as <-.
  { apply bytes_inj; try done; [congruence|]. rewrite <- !bits_val_bytes, Hb1, Hb2 by done.
    pose proof (f_equal length Hb1) as L1. pose proof (f_equal length Hb2) as L2.
    rewrite length_bytes_bits, length_app, repeat_length in *. unfold zlen in *. by replace p2 with p1 by lia. }
  assert (huff_bytes s = o1) as ->.
  { unfold huff_bytes. fold z. rewrite He2. simpl. apply buf_ext; [by rewrite zlen_wr, Hz|].
    intros i Hi. rewrite zlen_wr in Hi. rewrite rd_wr_in by lia. by rewrite Z.sub_0_r. }
  rewrite He1, Hl1. split_and!; try done. by exists p1.
Qed.

(** A fact about every byte and every prefix of one to seven bits, by trying them all. *)
Lemma byte_prefix_forall (P : Z -> Z -> bool) :
  forallb (fun b => forallb (P b) [1; 2; 3; 4; 5; 6; 7]) (map Z.of_nat (seq 0 256)) = true ->
  forall b n, is_byte b -> 1 <= n <= 7 -> P b n = true.
Proof.
  intros H b n Hb Hn. pose proof (byte_forall _ H b Hb) as Hf. cbv beta in Hf. rewrite forallb_forall in Hf.
  apply Hf. simpl. lia.
Qed.

(** The first byte with the flag set, and with the flag cleared. *)
Definition with_flag (b n : Z) : Z := u8 (b .| (1 << n)).
Definition without_flag (b n : Z) : Z := u8 (Z.ldiff b (1 << n)).

Lemma flag_bits b n : is_byte b -> 1 <= n <= 7 ->
  is_byte (with_flag b n) /\ high_bits (with_flag b n) n = high_bits b (n + 1) + 2 ^ n
  /\ is_byte (without_flag b n) /\ high_bits (without_flag b n) n = high_bits b (n + 1).
Proof.
  intros Hb Hn. assert ((high_bits (with_flag b n) n =? high_bits b (n + 1) + 2 ^ n)
    && (high_bits (without_flag b n) n =? high_bits b (n + 1)) = true) as H.
  { revert b n Hb Hn. apply byte_prefix_forall. vm_compute. reflexivity. }
  zify_bools. split; [apply u8_range|]. split; [done|]. split; [apply u8_range|done].
Qed.

Lemma flag_set b n : is_byte b -> 1 <= n <= 7 ->
  (with_flag b n .& (1 << n) =? 0) = false /\ high_bits (with_flag b n) (n + 1) = high_bits b (n + 1)
  /\ (without_flag b n .& (1 << n) =? 0) = true /\ high_bits (without_flag b n) (n + 1) = high_bits b (n + 1).
Proof.
  intros Hb Hn. assert (negb (with_flag b n .& (1 << n) =? 0) && (high_bits (with_flag b n) (n + 1) =? high_bits b (n + 1))
    && (without_flag b n .& (1 << n) =? 0) && (high_bits (without_flag b n) (n + 1) =? high_bits b (n + 1)) = true) as H.
  { revert b n Hb Hn. apply byte_prefix_forall. vm_compute. reflexivity. }
  apply andb_true_iff in H as [H H4]. apply andb_true_iff in H as [H H3]. apply andb_true_iff in H as [H1 H2].
  apply negb_true_iff in H1. apply Z.eqb_eq in H2, H4. by split_and!.
Qed.

Lemma enc_int_cons hi v n : exists x l, enc_int hi v n = x :: l.
Proof. unfold enc_int. case_if; by eexists _, _. Qed.

(** An integer over a first byte that was just written. *)
Lemma put_over D pos b v n : 0 <= pos -> is_byte b -> 1 <= n <= 8 -> 0 <= v ->
  let e := enc_int (high_bits b n) v n in
  pos + zlen e <= zlen D -> xqc_prefixed_int_put (wr D pos [b]) pos v n = (wr D pos e, pos + zlen e).
Proof.
  intros Hp Hb Hn Hv e Hfit. destruct (enc_int_cons (high_bits b n) v n) as (x & l & He). fold e in He.
  assert (1 <= zlen e) by (rewrite He, zlen_cons; pose proof (zlen_nonneg l); lia).
  pose proof (put_spec (wr D pos [b]) pos v n) as Hput. rewrite zlen_wr, rd_wr_hd in Hput by lia.
  cbv zeta in Hput. rewrite Hput by (done || lia). fold e. f_equal. by apply wr_over.
Qed.

(** What the writer leaves behind the bytes that were there. *)
Definition appended (buf buf' : xqc_var_buf_t) (bs : list Z) : Prop :=
  vb_ok buf' /\ vb_bytes buf' = vb_bytes buf ++ bs /\ vb_data_len buf' = vb_data_len buf + zlen bs
  /\ vb_buf_len buf' = vb_buf_len buf /\ max_size buf' = max_size buf.

Lemma write_str_spec mem junk buf s n : vb_ok buf -> bytes_ok s -> 1 <= n <= 7 -> zlen s < 2 ^ 62 ->
  let b := rd (vb_data buf) (vb_data_len buf) in
  is_byte b -> vb_data_len buf + zlen (enc_str b n s) <= vb_buf_len buf ->
  exists buf', xqc_write_prefixed_str mem junk buf s n = (Ok tt, buf') /\ appended buf buf' (enc_str b n s).
Proof.
  intros Hok Hs Hn Hlen b Hb Hfit. unfold xqc_write_prefixed_str, enc_str in *. pose proof (enc_len_nonneg s Hs).
  pose proof (vb_data_ok _ Hok). pose proof (vb_len_ok _ Hok). pose proof (zlen_nonneg s).
  destruct (flag_bits b n Hb Hn) as (Hb1 & Hh1 & Hb2 & Hh2).
  destruct (xqc_huffman_enc_len s <? zlen s) eqn:E; zify_bools; rewrite zlen_app in Hfit.
  - set (e := enc_int _ _ _) in *. assert (zlen (huff_bytes s) = xqc_huffman_enc_len s) as Hhl
      by (apply (huff_spec (replicate (Z.to_nat (xqc_huffman_enc_len s)) 0) 0 s); try done; unfold zlen; rewrite length_replicate; lia).
    rewrite (put_len_spec _ n (high_bits b (n + 1) + 2 ^ n)) by lia. fold e. pose proof (zlen_nonneg e).
    rewrite prepare_noop by (done || lia). fold b (with_flag b n). rewrite put_over; try done; try lia; rewrite Hh1; fold e; try lia.
    destruct (huff_spec (wr (vb_data buf) (vb_data_len buf) e) (vb_data_len buf + zlen e) s) as (-> & _ & _); try done; try lia.
    { rewrite zlen_wr. lia. }
    rewrite wr_app by lia. destruct (write_app buf (e ++ huff_bytes s) Hok) as (Hw1 & Hw2 & Hw3); [rewrite zlen_app; lia|].
    rewrite zlen_app, Hhl, Z.add_assoc in *. cbn [vb_write vb_buf_len vb_data_len]. case_if; [zb|].
    eexists. split; [done|]. unfold appended. rewrite zlen_app, Hhl, Z.add_assoc. by split_and!.
  - set (e := enc_int _ _ _) in *. rewrite (put_len_spec _ n (high_bits b (n + 1))) by lia. fold e. pose proof (zlen_nonneg e).
    rewrite prepare_noop by (done || lia). fold b (without_flag b n). rewrite put_over; try done; try lia; rewrite Hh2; fold e; try lia.
    destruct (write_app buf e Hok ltac:(lia)) as (Hw1 & Hw2 & Hw3). set (buf1 := vb_write buf _ _) in *.
    unfold xqc_var_buf_save_data. destruct (zlen s =? 0) eqn:E0; zify_bools.
    { exists buf1. split; [done|]. destruct s; [|unfold zlen in E0; simpl in E0; lia]. rewrite app_nil_r. by split_and!. }
    rewrite prepare_noop by (done || (simpl; lia)). destruct (write_app buf1 s Hw1) as (Hv1 & Hv2 & Hv3); [simpl; lia|].
    eexists. split; [done|]. unfold appended. rewrite Hv2, Hw2, Hv3, Hw3, zlen_app, app_assoc. split_and!; try done. simpl. lia.
Qed.

(** ** Huffman decoding in steps *)

Lemma nibbles_app a b : nibbles (a ++ b) = nibbles a ++ nibbles b.
Proof. unfold nibbles. by rewrite map_app, concat_app. Qed.

Lemma tree_prefix p X Y s q : tree_nibs p (X ++ Y) = Some (s, q) ->
  exists s1 p1 s2, tree_nibs p X = Some (s1, p1) /\ tree_nibs p1 Y = Some (s2, q) /\ s = s1 ++ s2.
Proof.
  rewrite tree_nibs_app. destruct (tree_nibs p X) as [[s1 p1]|]; [|done]. simpl.
  destruct (tree_nibs p1 Y) as [[s2 p2]|] eqn:Ey; [|done]. simpl. intros H. injection H as <- <-. by exists s1, p1, s2.
Qed.

Definition halfn (ctx : xqc_huffman_dec_ctx) : nat := if hc_high_bits ctx then O else 1%nat.

Lemma half_halfn ctx : half ctx = Z.of_nat (halfn ctx).
Proof. unfold half, halfn. by case_if. Qed.

Lemma halfn_le ctx : (halfn ctx <= 1)%nat.
Proof. unfold halfn. case_if; lia. Qed.

Lemma pending_drop ctx D : pending (hc_high_bits ctx) D = drop (halfn ctx) (nibbles D).
Proof. unfold pending, halfn. by case_if. Qed.

(** One call of the decoder on a part of a good string: it goes on by [k] values of four bits. *)
Lemma dec_step ctx dstlen D B3 s q : ctx_ok ctx -> bytes_ok D -> D <> [] -> 0 < dstlen ->
  tree_nibs (ctx_node ctx) (drop (halfn ctx) (nibbles D) ++ nibbles B3) = Some (s, q) -> is_padding q = true ->
  exists read out c k, xqc_huffman_dec ctx dstlen D (bool_decide (B3 = [])) = (Ok (read, out), c)
  /\ ctx_ok c /\ zlen out <= dstlen /\ (1 <= k)%nat /\ (k + halfn ctx <= 2 * length D)%nat
  /\ 2 * read + half c = half ctx + Z.of_nat k
  /\ tree_nibs (ctx_node ctx) (take k (drop (halfn ctx) (nibbles D))) = Some (out, ctx_node c).
Proof.
  intros Hc HD Hne Hd Ht Hpad. unfold xqc_huffman_dec. rewrite dec_loop_nibs by done. rewrite pending_drop.
  set (pend := drop (halfn ctx) (nibbles D)) in *. set (fin := bool_decide (B3 = [])).
  assert (Forall (fun x => 0 <= x < 16) pend) as Hp by (apply Forall_drop; by apply nibbles_ok).
  assert (length pend = 2 * length D - halfn ctx)%nat as Hlp by (unfold pend; rewrite length_drop, length_nibbles; lia).
  pose proof (halfn_le ctx) as Hh1. assert (1 <= length D)%nat by (destruct D; [done|simpl; lia]).
  assert (forall n c, half c = (half ctx + Z.of_nat n) mod 2 ->
    2 * ((2 * 0 + half ctx + Z.of_nat n) / 2) + half c = half ctx + Z.of_nat n) as Hpos.
  { intros n c ->. rewrite Z.mul_0_r, Z.add_0_l. symmetry. apply Z.div_mod. lia. }
  destruct (dec_nibs_ends ctx dstlen pend fin (2 * 0 + half ctx) [] Hc Hp ltac:(unfold zlen; simpl; lia))
    as [k c Hk|k out c Hk Htk Hz _ Hok Hhf|out c Hta Hz Hok Hhf].
  - exfalso. rewrite <- (take_drop k pend), <- app_assoc, tree_nibs_app, Hk in Ht. done.
  - eexists _, out, c, k. split; [done|]. rewrite app_nil_l in Hz. split_and!; try done; try lia. by apply Hpos.
  - assert (fin && negb (is_padding (ctx_node c)) = false) as ->.
    { unfold fin. destruct (bool_decide_reflect (B3 = [])) as [->|]; [|done]. rewrite app_nil_r, Hta in Ht. simplify_eq. by rewrite Hpad. }
    eexists _, out, c, (length pend). split; [done|]. rewrite app_nil_l in Hz. rewrite take_ge by done.
    split_and!; try done; try lia. by apply Hpos.
Qed.

(** ** A caller that feeds the parser *)

(** The pieces in turn, until the string is complete; then what is left of them. *)
Fixpoint feed (mem : bool) (junk : Z -> list Z) (p : xqc_prefixed_str_t) (chunks : list (list Z))
    : res (option (list (list Z)) * xqc_prefixed_str_t) :=
  match chunks with
  | [] => Ok (None, p)
  | X :: rest =>
      match xqc_parse_prefixed_str mem junk p X with
      | (Err e, _) => Err e
      | (Ok (read, true), p) => Ok (Some (drop (Z.to_nat read) X :: rest), p)
      | (Ok (_, false), p) => feed mem junk p rest
      end
  end.

(** ** Reading: the bytes of the string *)

Section read.

Context (junk : Z -> list Z) (Hjunk : forall n, 0 <= n -> zlen (junk n) = n).
(** The string, and the bytes that are sent for it. *)
Context (s B : list Z) (huff : bool) (max : Z).
Context (Hs : bytes_ok s) (HB : bytes_ok B) (Hmax : zlen s <= max < 2 ^ 62) (HL : zlen B < 2 ^ 62).
Context (Hplain : huff = false -> B = s).
Context (Hhuff : huff = true -> exists p, tree_nibs root (nibbles B) = Some (s, p) /\ is_padding p = true).

(** What holds of a parser from its creation on. *)
Record parser_ok (p : xqc_prefixed_str_t) : Prop := {
  pk_vb : vb_ok (ps_value p);
  pk_max : ps_max_str_len p = max;
  pk_limit : max + 1 <= max_size (ps_value p);
}.

(** The parser has read [B1] of the bytes. *)
Record in_value (p : xqc_prefixed_str_t) (B1 : list Z) : Prop := {
  iv_ok : parser_ok p;
  iv_stg : ps_stg p = XQC_PS_STAGE_VALUE;
  iv_flag : (ps_huff_flag p =? 0) = negb huff;
  iv_len : pi_value (ps_len p) = zlen B;
  iv_plain : huff = false -> vb_bytes (ps_value p) = B1;
  iv_used : huff = true -> ps_used_len p = zlen B1;
  iv_ctx : huff = true -> ctx_ok (ps_huff_ctx p) /\ half (ps_huff_ctx p) = 0
    /\ tree_nibs root (nibbles B1) = Some (vb_bytes (ps_value p), ctx_node (ps_huff_ctx p));
}.

Definition complete (p : xqc_prefixed_str_t) : Prop := parser_ok p /\ vb_bytes (ps_value p) = s.

Lemma finish_spec p pos : parser_ok p -> ps_stg p = XQC_PS_STAGE_FINISH -> vb_bytes (ps_value p) = s ->
  exists p', str_finish true junk p pos = (Ok (pos, true), p') /\ complete p'.
Proof.
  intros [Hok Hm Hl] Hst Hv. unfold str_finish. rewrite Hst. pose proof (zlen_vb_bytes _ Hok) as Hz. rewrite Hv in Hz.
  destruct (save_prepare_spec junk Hjunk (ps_value p) 1 Hok ltac:(lia) ltac:(lia)) as (v & -> & Hvok & Hb & Hdl & Hcap & Hms & _).
  eexists. split; [done|]. destruct Hvok as [B1 B2 B3 B4]. split; [split; try done|].
  - split; simpl; rewrite ?zlen_wr; lia.
  - unfold max_size in *. simpl. lia.
  - rewrite <- Hv, <- Hb. unfold vb_bytes. simpl.
    assert (zlen (sub_bytes (vb_data v) 0 (vb_data_len v)) = vb_data_len v) as Hzz by (apply zlen_sub_bytes; lia).
    rewrite <- Hzz at 2. apply bytes_at_sub. apply bytes_at_wr_ne; [lia| |lia]. apply bytes_at_sub_bytes; lia.
Qed.

(** [D] are the next bytes; [t] is what comes behind the whole string. *)
Lemma plain_spec p B1 D B3 t pos : huff = false -> in_value p B1 -> B = B1 ++ D ++ B3 -> (B3 <> [] -> t = []) ->
  exists p', plain_value true junk p (D ++ t) pos = (Ok (pos + zlen D, bool_decide (B3 = [])), p')
  /\ if bool_decide (B3 = []) then complete p' else in_value p' (B1 ++ D).
Proof.
  intros Hh [Hp Hst Hf Hl Hb Hu Hc] HBeq Ht. specialize (Hb Hh). pose proof (Hplain Hh) as HBs. destruct Hp as [Hok Hm Hlim].
  pose proof (zlen_vb_bytes _ Hok) as Hz. rewrite Hb in Hz. unfold plain_value.
  pose proof (f_equal zlen HBeq) as HBz. rewrite !zlen_app in HBz. pose proof (zlen_nonneg D). pose proof (zlen_nonneg B3).
  rewrite Hl, <- Hz, u64_small by (rewrite HBeq, !zlen_app; pose proof (zlen_nonneg B1); lia).
  assert (Z.min (zlen (D ++ t)) (zlen B - zlen B1) = zlen D) as ->.
  { rewrite zlen_app. pose proof (zlen_nonneg t). destruct B3 as [|x B3].
    - rewrite zlen_nil in HBz. lia.
    - rewrite (Ht ltac:(done)), zlen_nil. lia. }
  unfold zlen at 1. rewrite Nat2Z.id, take_app_length.
  destruct (save_data_spec junk Hjunk (ps_value p) D Hok) as (v & -> & Hvok & Hvb & Hvl & Hvm & _).
  { rewrite <- Hz. rewrite <- HBs in *. lia. }
  cbn [set_ps_value ps_len]. rewrite Hvl, Hl, <- Hz.
  assert ((zlen B1 + zlen D =? zlen B) = bool_decide (B3 = [])) as ->.
  { destruct B3 as [|x B3]; [rewrite zlen_nil in HBz; simpl; apply Z.eqb_eq; lia|]. rewrite zlen_cons in HBz.
    pose proof (zlen_nonneg B3). apply Z.eqb_neq. lia. }
  destruct (bool_decide_reflect (B3 = [])) as [->|HB3].
  - apply finish_spec; [by split; simpl; try rewrite Hvm|done|]. simpl. rewrite Hvb, Hb, <- HBs, HBeq. by rewrite app_nil_r.
  - eexists. split; [by unfold str_finish; simpl; rewrite Hst|].
    split; simpl; try done; [by split; simpl; try rewrite Hvm|intros _; by rewrite Hvb, Hb|congruence..].
Qed.

(** In the middle of the Huffman code: [U] is read, and half a byte of [D] perhaps. *)
Record in_huff (p : xqc_prefixed_str_t) (U D B3 : list Z) : Prop := {
  ih_ok : parser_ok p;
  ih_stg : ps_stg p = XQC_PS_STAGE_VALUE;
  ih_flag : (ps_huff_flag p =? 0) = false;
  ih_len : pi_value (ps_len p) = zlen B;
  ih_used : ps_used_len p = zlen U;
  ih_B : B = U ++ D ++ B3;
  ih_ctx : ctx_ok (ps_huff_ctx p);
  ih_half : (halfn (ps_huff_ctx p) <= 2 * length D)%nat;
  ih_bytes : tree_nibs root (nibbles U ++ take (halfn (ps_huff_ctx p)) (nibbles D))
             = Some (vb_bytes (ps_value p), ctx_node (ps_huff_ctx p));
}.

Lemma nibbles_split D r h : (r <= length D)%nat ->
  nibbles (take r D) ++ take h (nibbles (drop r D)) = take (2 * r + h) (nibbles D).
Proof.
  intros Hr. rewrite <- (take_drop r D) at 3. rewrite nibbles_app.
  rewrite take_app_ge by (rewrite length_nibbles, length_take; lia). do 2 f_equal. rewrite length_nibbles, length_take. lia.
Qed.

(** The state after one call of the decoder. *)
Lemma huff_round p U D B3 : huff = true -> in_huff p U D B3 -> D <> [] ->
  forall v, vb_ok v -> vb_bytes v = vb_bytes (ps_value p) -> max_size v = max_size (ps_value p) ->
  0 < vb_buf_len v - vb_data_len v ->
  exists read out c, xqc_huffman_dec (ps_huff_ctx p) (vb_buf_len v - vb_data_len v) D (bool_decide (B3 = [])) = (Ok (read, out), c)
  /\ 0 <= read <= zlen D /\ vb_data_len v + zlen out <= max
  /\ let v' := vb_write v (wr (vb_data v) (vb_data_len v) out) (vb_data_len v + zlen out) in
     in_huff (set_ps_huff p (zlen U + read) v' c) (U ++ take (Z.to_nat read) D) (drop (Z.to_nat read) D) B3
     /\ (2 * length (drop (Z.to_nat read) D) - halfn c < 2 * length D - halfn (ps_huff_ctx p))%nat.
Proof.
  intros Hh [Hok Hst Hf Hl Hu HBeq Hc Hhalf Hby] Hne v Hv Hvb Hvm Hroom. destruct (Hhuff Hh) as (q & Hq & Hpad).
  set (N0 := nibbles U ++ take (halfn (ps_huff_ctx p)) (nibbles D)) in *.
  assert (nibbles B = N0 ++ drop (halfn (ps_huff_ctx p)) (nibbles D) ++ nibbles B3) as HN.
  { rewrite HBeq, !nibbles_app. unfold N0. rewrite <- app_assoc. f_equal. by rewrite app_assoc, take_drop. }
  rewrite HN in Hq. apply tree_prefix in Hq as (s1 & p1 & s2 & H1 & H2 & Hs12). rewrite Hby in H1. injection H1 as <- <-.
  assert (bytes_ok D) as HD by (rewrite HBeq in HB; apply bytes_ok_app in HB as [_ HB']; by apply bytes_ok_app in HB' as [? _]).
  destruct (dec_step _ (vb_buf_len v - vb_data_len v) D B3 s2 q Hc HD Hne Hroom H2 Hpad)
    as (read & out & c & k & Hdec & Hcok & Hout & Hk1 & Hk2 & Hpos & Htk).
  exists read, out, c. split; [done|]. rewrite !half_halfn in Hpos. pose proof (halfn_le c).
  assert (0 <= read <= zlen D) as Hread by (unfold zlen; lia). split; [done|].
  rewrite <- (take_drop k (drop _ (nibbles D))), <- app_assoc, tree_nibs_app, Htk in H2. simpl in H2.
  destruct (tree_nibs (ctx_node c) _) as [[s3 p3]|]; [|done]. simpl in H2. injection H2 as Hs2 _.
  pose proof (zlen_vb_bytes _ Hv) as Hz. rewrite Hvb in Hz. pose proof (f_equal zlen Hs12) as Hzs.
  rewrite <- Hs2, !zlen_app in Hzs. pose proof (zlen_nonneg s3). split; [lia|].
  destruct (write_app v out Hv ltac:(lia)) as (Hw1 & Hw2 & Hw3). destruct Hok as [O1 O2 O3].
  assert (Z.to_nat read <= length D)%nat as Hrn by (unfold zlen in Hread; lia).
  split; [|rewrite length_drop; lia].
  split; simpl; try done; [by split; simpl; try rewrite Hw3, Hvm|..].
  - rewrite zlen_app. f_equal. unfold zlen. rewrite length_take. lia.
  - by rewrite <- app_assoc, (app_assoc (take _ D)), take_drop.
  - rewrite length_drop. lia.
  - rewrite nibbles_app, <- app_assoc, nibbles_split by done. replace (2 * Z.to_nat read + halfn c)%nat with (halfn (ps_huff_ctx p) + k)%nat by lia.
    rewrite <- (take_take_drop (nibbles D)), app_assoc. fold N0. rewrite tree_nibs_app, Hby. simpl. rewrite Htk. simpl.
    by rewrite Hw2, Hvb.
Qed.

Lemma huff_stop p U B3 : huff = true -> in_huff p U [] B3 -> in_value p U.
Proof.
  intros Hh [Hok Hst Hf Hl Hu HBeq Hc Hhalf Hby].
  assert (halfn (ps_huff_ctx p) = O) as H0 by (simpl in Hhalf; lia). rewrite H0, app_nil_r in Hby.
  split; try done; [by rewrite Hh|congruence|]. intros _. split; [done|]. split; [by rewrite half_halfn, H0|done].
Qed.

(** What is decoded so far is no longer than the string. *)
Lemma huff_bound p U D B3 : huff = true -> in_huff p U D B3 -> vb_data_len (ps_value p) <= zlen s.
Proof.
  intros Hh [[Hok _ _] Hst Hf Hl Hu HBeq Hc Hhalf Hby]. destruct (Hhuff Hh) as (q & Hq & _).
  assert (nibbles B = (nibbles U ++ take (halfn (ps_huff_ctx p)) (nibbles D)) ++ drop (halfn (ps_huff_ctx p)) (nibbles D) ++ nibbles B3) as HN.
  { rewrite HBeq, !nibbles_app, <- app_assoc. f_equal. by rewrite app_assoc, take_drop. }
  rewrite HN in Hq. apply tree_prefix in Hq as (s1 & p1 & s2 & H1 & _ & ->). rewrite Hby in H1. injection H1 as <- _.
  rewrite zlen_app, (zlen_vb_bytes _ Hok). pose proof (zlen_nonneg s2). lia.
Qed.

Lemma huff_done p U : huff = true -> in_huff p U [] [] -> vb_bytes (ps_value p) = s.
Proof.
  intros Hh Hin. pose proof (ih_B _ _ _ _ Hin) as HBeq. apply huff_stop in Hin; [|done].
  destruct (iv_ctx _ _ Hin Hh) as (_ & _ & Ht). destruct (Hhuff Hh) as (q & Hq & _).
  rewrite !app_nil_r in HBeq. rewrite HBeq in Hq. rewrite Hq in Ht. by injection Ht as <- _.
Qed.

Lemma last_part U D B3 : B = U ++ D ++ B3 -> (zlen U + zlen D =? zlen B) = bool_decide (B3 = []).
Proof.
  intros ->. rewrite !zlen_app. destruct B3 as [|x B3]; [rewrite zlen_nil; apply Z.eqb_eq; lia|].
  rewrite zlen_cons. pose proof (zlen_nonneg B3). apply Z.eqb_neq. lia.
Qed.

Lemma huff_loop_spec fuel p U D B3 t pos : huff = true -> in_huff p U D B3 -> (D = [] -> B3 <> []) -> (B3 <> [] -> t = []) ->
  (2 * length D - halfn (ps_huff_ctx p) <= fuel)%nat ->
  exists p', huff_loop true junk fuel p (D ++ t) pos = (Ok (pos + zlen D, bool_decide (B3 = [])), p')
  /\ if bool_decide (B3 = []) then complete p' else in_value p' (U ++ D).
Proof.
  intros Hh. revert p U D pos. induction fuel as [|fuel IH]; intros p U D pos Hin HD Ht Hfuel.
  all: destruct (decide (D = [])) as [->|Hne].
  1,3: rewrite (Ht (HD eq_refl)), bool_decide_eq_false_2 by auto; exists p; rewrite zlen_nil, Z.add_0_r, !app_nil_r;
    cbn [app huff_loop]; split; [by unfold str_finish; rewrite (ih_stg _ _ _ _ Hin)|exact (huff_stop _ _ _ Hh Hin)].
  { pose proof (halfn_le (ps_huff_ctx p)). destruct D; [done|simpl in Hfuel; lia]. }
  assert (exists x l, D ++ t = x :: l) as (x & l & Edt) by (destruct D as [|x D0]; [done|by eexists x, (D0 ++ t)]).
  cbn [huff_loop]. rewrite Edt, <- Edt. clear x l Edt.
  pose proof (ih_B _ _ _ _ Hin) as HBeq. pose proof (f_equal zlen HBeq) as HBz. rewrite !zlen_app in HBz.
  pose proof (zlen_nonneg U). pose proof (zlen_nonneg B3). pose proof (ih_ok _ _ _ _ Hin) as [Hok Hm Hlim].
  assert (0 < zlen D) by (destruct D; [done|rewrite zlen_cons; pose proof (zlen_nonneg D); lia]).
  rewrite (ih_len _ _ _ _ Hin), (ih_used _ _ _ _ Hin), u64_small by lia.
  assert (Z.min (zlen (D ++ t)) (zlen B - zlen U) = zlen D) as ->.
  { rewrite zlen_app. pose proof (zlen_nonneg t). destruct B3 as [|y B3]; [rewrite zlen_nil in HBz; lia|]. rewrite (Ht ltac:(done)), zlen_nil. lia. }
  assert (take (Z.to_nat (zlen D)) (D ++ t) = D) as -> by (unfold zlen; rewrite Nat2Z.id; apply take_app_length).
  pose proof (huff_bound _ _ _ _ Hh Hin) as Hbound. pose proof (vb_data_ok _ Hok). rewrite Hm. case_if; [zb|]. zify_bools.
  set (need := if _ <? _ then _ else _). assert (0 < need <= max + 1 - vb_data_len (ps_value p)) as Hneed by (unfold need; case_if; zb).
  clearbody need. case_if; [zb|].
  destruct (save_prepare_spec junk Hjunk (ps_value p) need Hok ltac:(lia) ltac:(lia)) as (v & -> & Hv & Hvb & Hvl & Hcap & Hvm & _).
  rewrite (last_part U D B3 HBeq).
  destruct (huff_round p U D B3 Hh Hin Hne v Hv Hvb Hvm ltac:(lia)) as (read & out & c & -> & Hread & Hmx & Hin' & Hdec).
  cbv zeta. set (v' := vb_write _ _ _) in *. set (p' := set_ps_huff _ _ _ _) in *.
  change (ps_max_str_len p') with (ps_max_str_len p). change (vb_data_len v') with (vb_data_len v + zlen out). rewrite Hm. case_if; [zb|].
  change (ps_used_len p') with (zlen U + read). change (ps_len p') with (ps_len p). rewrite (ih_len _ _ _ _ Hin).
  set (D' := drop (Z.to_nat read) D) in *. set (U' := U ++ take (Z.to_nat read) D) in *.
  assert (zlen U' = zlen U + read /\ zlen D' = zlen D - read) as [HU' HD'].
  { unfold U', D'. rewrite zlen_app. unfold zlen in *. rewrite length_take, length_drop. lia. }
  rewrite <- HU'. destruct (zlen U' =? zlen B) eqn:E3; zify_bools.
  - assert (D' = [] /\ B3 = []) as [HD0 ->] by (split; apply nil_length_inv; unfold zlen in *; lia).
    rewrite HD0 in Hin'. replace (zlen D) with read by (rewrite HD0, zlen_nil in HD'; lia).
    apply finish_spec; [by destruct (ih_ok _ _ _ _ Hin')|done|exact (huff_done _ _ Hh Hin')].
  - destruct (IH p' U' D' (pos + read) Hin') as (q & Hq & Hres); [|done|simpl; lia|].
    { intros HD0 ->. rewrite HD0, !zlen_nil in *. lia. }
    exists q. unfold U', D' in Hres. rewrite <- app_assoc, take_drop in Hres. split; [|done].
    rewrite drop_app_le by (unfold zlen in Hread; lia). fold D'. rewrite Hq. do 3 f_equal. lia.
Qed.


Lemma value_spec p B1 D B3 t pos : in_value p B1 -> B = B1 ++ D ++ B3 -> (D = [] -> B3 <> []) -> (B3 <> [] -> t = []) ->
  exists p', str_value true junk p (D ++ t) pos = (Ok (pos + zlen D, bool_decide (B3 = [])), p')
  /\ if bool_decide (B3 = []) then complete p' else in_value p' (B1 ++ D).
Proof.
  intros Hin HBeq HD Ht. unfold str_value. rewrite (iv_flag _ _ Hin). destruct (decide (huff = true)) as [Hh|Hh%not_true_is_false];
    [|rewrite Hh; by apply plain_spec]. rewrite Hh. cbn [negb].
  destruct (iv_ctx _ _ Hin Hh) as (Hc & Hhalf & Htree). assert (halfn (ps_huff_ctx p) = O) as H0 by (rewrite half_halfn in Hhalf; lia).
  apply huff_loop_spec; try done; [|rewrite length_app; lia].
  destruct Hin as [Hok Hst Hf Hl Hpl Hu _]. rewrite Hh in Hf. split; try done; [by apply Hu|rewrite H0; lia|].
  by rewrite H0, app_nil_r.
Qed.

(** ** Reading: the flag and the length *)

Context (n b0 : Z) (Hn : 1 <= n <= 7) (Hb0 : is_byte b0) (HBs : zlen B <= zlen s).
Context (Hflag : (b0 .& (1 << n) =? 0) = negb huff).

Let I : list Z := enc_int (high_bits b0 n) (zlen B) n.

(** Nothing of the bytes is read yet. *)
Record in_len (p : xqc_prefixed_str_t) : Prop := {
  il_ok : parser_ok p;
  il_bytes : vb_bytes (ps_value p) = [];
  il_flag : (ps_huff_flag p =? 0) = negb huff;
  il_pos : 0 <= ps_huff_flag p;
  il_used : ps_used_len p = 0;
}.

Lemma clear_ok p : parser_ok p ->
  parser_ok (set_ps_huff p 0 (xqc_var_buf_clear (ps_value p)) xqc_huffman_dec_ctx_init)
  /\ vb_bytes (xqc_var_buf_clear (ps_value p)) = [].
Proof.
  intros [[L1 L2 L3 L4] Hm Hl]. split; [|done]. split; simpl; [split; simpl; lia|done|done].
Qed.

Lemma len_done_spec p D B3 t pos : in_len p -> pi_value (ps_len p) = zlen B -> B = D ++ B3 -> (B3 <> [] -> t = []) ->
  exists p', str_len_done true junk p (D ++ t) pos = (Ok (pos + zlen D, bool_decide (B3 = [])), p')
  /\ if bool_decide (B3 = []) then complete p' else in_value p' D.
Proof.
  intros [Hok Hby Hf Hpos Hu] Hl HBeq Ht. unfold str_len_done. rewrite Hl, (pk_max _ Hok).
  destruct (zlen B =? 0) eqn:E0; zify_bools.
  { assert (B = []) as HB0 by (apply nil_length_inv; unfold zlen in E0; lia). rewrite HB0 in HBeq.
    symmetry in HBeq. apply app_eq_nil in HBeq as [-> ->]. rewrite zlen_nil, Z.add_0_r. apply finish_spec; [by destruct Hok|done|].
    simpl. rewrite Hby. destruct (decide (huff = true)) as [Hh|Hh%not_true_is_false]; [|by rewrite <- (Hplain Hh)].
    destruct (Hhuff Hh) as (q & Hq & _). rewrite HB0 in Hq. simpl in Hq. by injection Hq as <-. }
  assert ((if ps_huff_flag p =? 0 then max <? zlen B else u64 (max * 2) <? zlen B) = false) as ->.
  { pose proof (zlen_nonneg s). rewrite u64_small by lia. case_if; zb. }
  set (p1 := if 0 <? _ then _ else _). assert (in_value p1 []) as Hin.
  { destruct (clear_ok p Hok) as [Hok' Hc'].
    unfold p1. change (ps_huff_flag (set_ps_stg p XQC_PS_STAGE_VALUE)) with (ps_huff_flag p). destruct (0 <? ps_huff_flag p) eqn:E; zify_bools.
    - assert (huff = true) as Hh by (destruct (decide (huff = true)) as [|Hh%not_true_is_false]; [done|rewrite Hh in Hf; simpl in Hf; zb]).
      destruct dec_init_ok as [Hi Hr]. split; simpl; try done. by destruct Hok'.
    - assert (huff = false) as Hh by (destruct (decide (huff = true)) as [Hh|Hh%not_true_is_false]; [rewrite Hh in Hf; simpl in Hf; zb|done]).
      split; simpl; try done; try congruence. by destruct Hok. }
  clearbody p1. destruct (zlen (D ++ t) =? 0) eqn:E1; zify_bools.
  - assert (D ++ t = []) as Hdt by (apply nil_length_inv; unfold zlen in E1; lia). apply app_eq_nil in Hdt as [-> ->].
    simpl in HBeq. rewrite zlen_nil, Z.add_0_r, bool_decide_eq_false_2 by (intros ->; by apply E0; rewrite HBeq).
    exists p1. split; [by unfold str_finish; rewrite (iv_stg _ _ Hin)|done].
  - apply (value_spec p1 [] D B3 t pos Hin HBeq); [|done]. intros -> ->. apply E0. by rewrite HBeq.
Qed.

(** The parser has read [C] of the encoding and needs more. *)
Inductive reading (p : xqc_prefixed_str_t) (C : list Z) : Prop :=
| reading_H : C = [] -> parser_ok p -> vb_bytes (ps_value p) = [] -> ps_used_len p = 0 -> ps_stg p = XQC_PS_STAGE_H ->
    ps_len p = xqc_prefixed_int_init n -> reading p C
| reading_len I2 : I = C ++ I2 -> I2 <> [] -> in_len p -> ps_stg p = XQC_PS_STAGE_LEN -> int_part n C (ps_len p) ->
    reading p C
| reading_value B1 B2 : C = I ++ B1 -> B = B1 ++ B2 -> B2 <> [] -> in_value p B1 -> reading p C.

Definition done_or (W3 : list Z) (p : xqc_prefixed_str_t) (C : list Z) : Prop :=
  if bool_decide (W3 = []) then complete p else reading p C.

Lemma len_step p C I2 D W3 t : I = C ++ I2 -> I2 <> [] -> in_len p -> ps_stg p = XQC_PS_STAGE_LEN -> int_part n C (ps_len p) ->
  I ++ B = C ++ D ++ W3 -> D <> [] -> (W3 <> [] -> t = []) ->
  exists p', str_len true junk p (D ++ t) = (Ok (zlen D, bool_decide (W3 = [])), p') /\ done_or W3 p' (C ++ D).
Proof.
  intros HI HI2 Hin Hst Hpart HW HD Ht. unfold str_len, done_or. pose proof (zlen_nonneg B).
  assert (0 <= zlen B <= XQC_QPACK_INT_MAX) as HBr by (unfold XQC_QPACK_INT_MAX; lia).
  rewrite HI, <- app_assoc in HW. apply app_inv_head in HW.
  assert ((exists k, k <> [] /\ I2 = D ++ k /\ W3 = k ++ B) \/ exists k, D = I2 ++ k /\ B = k ++ W3) as [(k & Hk & -> & ->)|(k & -> & HB3)].
  { apply app_eq_inv in HW as [(k & HDk & HWk)|(k & HDk & HBk)]; [|by right; exists k].
    destruct (decide (k = [])) as [->|]; [right; exists []|by left; exists k]. rewrite app_nil_r in *. by rewrite HDk, HWk. }
  - assert (k ++ B <> []) as HkB by (by destruct k). rewrite (Ht HkB), app_nil_r, bool_decide_eq_false_2 by done.
    destruct (read_more n b0 (zlen B) C D k (ps_len p) ltac:(lia) Hb0 HBr HI HD Hk Hpart) as (l & -> & Hl).
    eexists. split; [by unfold str_finish; simpl; rewrite Hst|].
    apply (reading_len _ _ k); try done; [by rewrite <- app_assoc|]. by destruct Hin as [[] ? ? ? ?].
  - rewrite <- app_assoc.
    destruct (read_last n b0 (zlen B) C I2 (k ++ t) (ps_len p) ltac:(lia) Hb0 HBr HI HI2 Hpart) as (sh & ->).
    replace (drop (Z.to_nat (zlen I2)) (I2 ++ k ++ t)) with (k ++ t) by (unfold zlen; by rewrite Nat2Z.id, drop_app_length).
    destruct (len_done_spec (set_ps_len p (mk_pi n sh (zlen B))) k W3 t (zlen I2)) as (p' & Hp' & Hres); try done.
    { by destruct Hin as [[] ? ? ? ?]. }
    exists p'. rewrite zlen_app. split; [done|]. destruct (bool_decide_reflect (W3 = [])); [done|].
    apply (reading_value _ _ k W3); try done. rewrite app_assoc. by f_equal.
Qed.

Lemma flag_kept x : 0 <= x < 2 ^ n -> (high_bits b0 n + x) .& (1 << n) = b0 .& (1 << n).
Proof.
  intros Hx. pose proof (Z.pow_pos_nonneg 2 n ltac:(lia) ltac:(lia)).
  assert (high_bits b0 n + x = x + b0 / 2 ^ n * 2 ^ n) as -> by (unfold high_bits; rewrite (Z.mod_eq b0) by lia; lia).
  rewrite shiftl_pow, Z.mul_1_l by lia. apply Z.bits_inj'. intros i Hi. rewrite !Z.land_spec, Z.pow2_bits_eqb by lia.
  destruct (n =? i) eqn:E; [|by rewrite !andb_false_r]. apply Z.eqb_eq in E as <-. rewrite !andb_true_r.
  rewrite !Z.testbit_odd, !Z.shiftr_div_pow2, Z.div_add, Z.div_small by lia. done.
Qed.

(** One call of the parser. *)
Lemma parse_step p C D W3 t : reading p C -> I ++ B = C ++ D ++ W3 -> D <> [] -> (W3 <> [] -> t = []) ->
  exists p', xqc_parse_prefixed_str true junk p (D ++ t) = (Ok (zlen D, bool_decide (W3 = [])), p') /\ done_or W3 p' (C ++ D).
Proof.
  intros [-> Hok Hby Hu Hst Hl|I2 HI HI2 Hin Hst Hpart|B1 B2 -> HBeq HB2 Hin] HW HD Ht; unfold xqc_parse_prefixed_str.
  - rewrite Hst. assert (exists x l, I = (high_bits b0 n + x) :: l /\ 0 <= x < 2 ^ n) as (x & l & HI & Hx).
    { unfold I, enc_int. pose proof (pow_le_256 n ltac:(lia)). pose proof (zlen_nonneg B). case_if; zify_bools; eexists _, _; (split; [done|lia]). }
    apply (len_step _ [] I); try done; [by rewrite HI|].
    split; try done; simpl.
    + by destruct Hok.
    + destruct D as [|y D]; [done|]. rewrite HI in HW. simpl in HW. injection HW as <- _. rewrite Hl. unfold rd. simpl.
      by rewrite flag_kept.
    + rewrite Hl. apply Z.land_nonneg. right. simpl. apply Z.shiftl_nonneg. lia.
  - rewrite Hst. by apply (len_step _ _ I2).
  - rewrite (iv_stg _ _ Hin). rewrite <- app_assoc in HW. apply app_inv_head in HW.
    destruct (value_spec p B1 D W3 t 0 Hin HW ltac:(done) Ht) as (p' & Hp & Hres). exists p'. split; [by rewrite Hp|].
    unfold done_or. destruct (bool_decide_reflect (W3 = [])); [done|]. apply (reading_value _ _ (B1 ++ D) W3); try done; by rewrite <- app_assoc.
Qed.


Lemma reading_strict p C : reading p C -> exists W2, W2 <> [] /\ I ++ B = C ++ W2.
Proof.
  intros [-> _ _ _ _ _|I2 HI HI2 _ _ _|B1 B2 -> HBeq HB2 _].
  - exists (I ++ B). destruct (enc_int_cons (high_bits b0 n) (zlen B) n) as (x & l & HI). fold I in HI. by rewrite HI.
  - exists (I2 ++ B). split; [by destruct I2|]. by rewrite HI, <- app_assoc.
  - exists B2. split; [done|]. rewrite <- app_assoc. by f_equal.
Qed.

Lemma feed_part chunks p C W3 : reading p C -> Forall (fun X => X <> []) chunks ->
  I ++ B = C ++ concat chunks ++ W3 -> W3 <> [] -> exists p', feed true junk p chunks = Ok (None, p').
Proof.
  intros Hr Hne. revert p C Hr. induction Hne as [|X rest HX _ IH]; intros p C Hr HW HW3; simpl; [by eexists|].
  simpl in HW. rewrite <- app_assoc in HW. assert (concat rest ++ W3 <> []) as Hmore by (intros Hnil; by apply app_eq_nil in Hnil as [_ ?]).
  destruct (parse_step p C X (concat rest ++ W3) [] Hr HW HX ltac:(done)) as (p' & Hp & Hres). rewrite app_nil_r in Hp. rewrite Hp.
  unfold done_or in Hres. rewrite !bool_decide_eq_false_2 in * by done. apply (IH p' (C ++ X) Hres); [|done]. by rewrite HW, <- !app_assoc.
Qed.

Lemma feed_all chunks p C tail : reading p C -> Forall (fun X => X <> []) chunks ->
  I ++ B ++ tail = C ++ concat chunks ->
  exists rest p', feed true junk p chunks = Ok (Some rest, p') /\ concat rest = tail /\ complete p'.
Proof.
  intros Hr Hne. revert p C Hr. induction Hne as [|X rest HX _ IH]; intros p C Hr HW;
    destruct (reading_strict p C Hr) as (W2 & HW2 & HIB); rewrite app_assoc, HIB, <- app_assoc in HW; apply app_inv_head in HW.
  { simpl in HW. by apply app_eq_nil in HW as [? _]. }
  assert ((exists k, k <> [] /\ W2 = X ++ k /\ concat rest = k ++ tail) \/ exists k, X = W2 ++ k /\ tail = k ++ concat rest)
    as [(k & Hk & -> & Hrest)|(k & -> & ->)].
  { simpl in HW. apply app_eq_inv in HW as [(k & HDk & HWk)|(k & HDk & HBk)]; [|by right; exists k].
    destruct (decide (k = [])) as [->|]; [right; exists []|by left; exists k]. rewrite app_nil_r in *. by rewrite HDk, HWk. }
  - destruct (parse_step p C X k [] Hr HIB HX ltac:(done)) as (p' & Hp & Hres). rewrite app_nil_r in Hp. cbn [feed]. rewrite Hp.
    unfold done_or in Hres. rewrite !bool_decide_eq_false_2 in * by done. apply (IH p' (C ++ X) Hres).
    by rewrite Hrest, app_assoc, HIB, <- !app_assoc.
  - destruct (parse_step p C W2 [] k Hr) as (p' & Hp & Hres); [by rewrite app_nil_r|done..|]. cbn [feed]. rewrite Hp.
    exists (k :: rest), p'. split_and!; [|done|exact Hres]. unfold zlen. by rewrite Nat2Z.id, drop_app_length.
Qed.

End read.

(** ** The round trip *)

Definition reader_ok (p : xqc_prefixed_str_t) : Prop :=
  vb_ok (ps_value p) /\ ps_max_str_len p + 1 <= max_size (ps_value p) /\ 0 <= ps_max_str_len p < 2 ^ 62.

Lemma create_reader_ok junk capacity max : (forall n, 0 <= n -> zlen (junk n) = n) -> 0 <= capacity <= 2 ^ 62 -> 0 <= max < 2 ^ 62 ->
  exists p, xqc_prefixed_str_pctx_create true junk capacity max = Some p /\ reader_ok p.
Proof.
  intros Hj Hc Hm. unfold xqc_prefixed_str_pctx_create, xqc_var_buf_create_with_limit, xqc_var_buf_create. cbn [negb]. simpl.
  unfold xqc_var_buf_set_limit. simpl. set (limit := if max + 1 <? capacity then capacity else max + 1). set (cap := if capacity =? 0 then 1 else capacity).
  assert (0 < cap <= limit /\ max + 1 <= limit < 2 ^ 63) as [Hcap Hlim] by (unfold cap, limit; repeat case_if; zb).
  case_if; [zb|]. case_if; [zb|]. eexists. split; [done|].
  split; simpl; [split; simpl; try lia; apply Hj; lia|]. split; [|done]. unfold max_size. simpl. case_if; zb.
Qed.

Lemma init_reading p B n b0 huff : reader_ok p ->
  reading B huff (ps_max_str_len p) n b0 (xqc_prefixed_str_init p n) [].
Proof.
  intros [[L1 L2 L3 L4] [Hl Hm]]. apply reading_H; try done. split; simpl; [split; simpl; lia|done|done].
Qed.

Lemma high_bits_up b n x : 0 <= n -> 0 <= x < 2 ^ n -> high_bits (high_bits b n + x) (n + 1) = high_bits b (n + 1).
Proof.
  intros Hn Hx. pose proof (Z.pow_pos_nonneg 2 n ltac:(lia) ltac:(lia)).
  assert (forall a, high_bits a (n + 1) = 2 ^ (n + 1) * (a / 2 ^ n / 2)) as Hh.
  { intros a. unfold high_bits. rewrite Z.pow_add_r, Z.div_div, (Z.mod_eq a) by lia. change (2 ^ 1) with 2. lia. }
  rewrite !Hh. do 2 f_equal. unfold high_bits. rewrite (Z.mod_eq b) by lia.
  replace (b - (b - 2 ^ n * (b / 2 ^ n)) + x) with (x + b / 2 ^ n * 2 ^ n) by lia. rewrite Z.div_add, Z.div_small by lia. done.
Qed.

Lemma enc_int_first b v n l : 1 <= n <= 8 -> 0 <= v -> exists x, rd (enc_int (high_bits b n) v n ++ l) 0 = high_bits b n + x /\ 0 <= x < 2 ^ n.
Proof. intros Hn Hv. pose proof (pow_le_256 n Hn). unfold enc_int, rd. case_if; zify_bools; simpl; eexists; (split; [done|lia]). Qed.

(** What the encoding of a string is made of. *)
Lemma enc_str_parts b n s : is_byte b -> bytes_ok s -> 1 <= n <= 7 ->
  exists B huff b0, enc_str b n s = enc_int (high_bits b0 n) (zlen B) n ++ B /\ is_byte b0 /\ bytes_ok B /\ zlen B <= zlen s
  /\ high_bits b0 (n + 1) = high_bits b (n + 1) /\ (b0 .& (1 << n) =? 0) = negb huff /\ (huff = false -> B = s)
  /\ (huff = true -> exists p, tree_nibs root (nibbles B) = Some (s, p) /\ is_padding p = true).
Proof.
  intros Hb Hs Hn. destruct (flag_bits b n Hb Hn) as (Hb1 & Hh1 & Hb2 & Hh2). pose proof (enc_len_nonneg s Hs).
  pose proof (huff_spec (replicate (Z.to_nat (xqc_huffman_enc_len s)) 0) 0 s ltac:(lia) Hs ltac:(unfold zlen; rewrite length_replicate; lia))
    as (_ & Hhl & Hhok & pad & Hpad & Hbits).
  unfold enc_str. destruct (xqc_huffman_enc_len s <? zlen s) eqn:E; zify_bools; destruct (flag_set b n Hb Hn) as (Hf1 & Hf3 & Hf2 & Hf4).
  - exists (huff_bytes s), true, (with_flag b n). rewrite Hh1, Hhl. do 4 (split; [done || lia|]). do 3 (split; [done|]). intros _.
    unfold tree_nibs. rewrite nibbles_bits, Hbits by done. exact (tree_enc s pad Hs Hpad).
  - exists s, false, (without_flag b n). rewrite Hh2. do 7 (split; [done|]). done.
Qed.

(** A string that is written with a prefix of [n] bits is read back, whatever pieces its
    bytes arrive in: the parser asks for more until the last of them, then it has the string and
    leaves what follows it. The writer keeps the bits of the first byte above the Huffman flag
    and what was in the buffer before, and the parser is ready for another string. *)
Theorem prefixed_str_roundtrip junk buf s n p :
  (forall k, 0 <= k -> zlen (junk k) = k) -> vb_ok buf -> bytes_ok s -> 1 <= n <= 7 ->
  let b := rd (vb_data buf) (vb_data_len buf) in
  is_byte b -> vb_data_len buf + zlen (enc_str b n s) <= vb_buf_len buf ->
  reader_ok p -> zlen s <= ps_max_str_len p ->
  exists buf' e, xqc_write_prefixed_str true junk buf s n = (Ok tt, buf') /\ vb_bytes buf' = vb_bytes buf ++ e
  /\ high_bits (rd e 0) (n + 1) = high_bits b (n + 1)
  /\ forall chunks, Forall (fun X => X <> []) chunks ->
     (forall tail, concat chunks = e ++ tail ->
        exists rest p', feed true junk (xqc_prefixed_str_init p n) chunks = Ok (Some rest, p')
        /\ concat rest = tail /\ vb_bytes (ps_value p') = s /\ reader_ok p')
     /\ (forall more, more <> [] -> e = concat chunks ++ more ->
          exists p', feed true junk (xqc_prefixed_str_init p n) chunks = Ok (None, p')).
Proof.
  intros Hj Hbuf Hs Hn b Hb Hfit Hp Hmax. pose proof Hp as (_ & _ & Hp2).
  destruct (write_str_spec true junk buf s n Hbuf Hs Hn ltac:(lia) Hb Hfit) as (buf' & Hw & _ & Hby & _).
  exists buf', (enc_str b n s). split; [done|]. split; [done|]. 
  destruct (enc_str_parts b n s Hb Hs Hn) as (B & huff & b0 & He & Hb0 & HB & HBs & Hhi & Hfl & Hpl & Hhf).
  pose proof (init_reading p B n b0 huff Hp) as Hr. rewrite He. split.
  { destruct (enc_int_first b0 (zlen B) n B ltac:(lia) (zlen_nonneg B)) as (x & -> & Hx). by rewrite high_bits_up by lia. }
  intros chunks Hne. split.
  - intros tail Hc. destruct (feed_all junk Hj s B huff (ps_max_str_len p) Hs HB ltac:(lia) ltac:(lia) Hpl Hhf n b0 Hn Hb0 HBs Hfl
      chunks _ [] tail Hr Hne) as (rest & p' & Hf & Hrest & [Hok Hv]); [by rewrite Hc, <- app_assoc|].
    exists rest, p'. split_and!; try done. destruct Hok as [O1 O2 O3]. split; [done|]. rewrite O2. done.
  - intros more Hm Hc. apply (feed_part junk Hj s B huff (ps_max_str_len p) Hs HB ltac:(lia) ltac:(lia) Hpl Hhf n b0 Hn Hb0 HBs Hfl
      chunks _ [] more Hr Hne Hc Hm).
Qed.

Definition zeros (n : Z) : list Z := replicate (Z.to_nat n) 0.

Lemma zeros_len k : 0 <= k -> zlen (zeros k) = k.
Proof. intros Hk. unfold zlen, zeros. rewrite length_replicate. lia. Qed.

Definition ex_buf : xqc_var_buf_t := mk_vb ([1; 2; 3; 0xf5] ++ zeros 60) 64 3 0 0 0.
Definition ex_reader : xqc_prefixed_str_t :=
  default (mk_ps 0 (mk_pi 0 0 0) 0 (mk_vb [] 0 0 0 0 0) XQC_PS_STAGE_H xqc_huffman_dec_ctx_init 0) (xqc_prefixed_str_pctx_create true zeros 8 100).

Lemma prefixed_str_roundtrip_witness :
  exists buf' e, xqc_write_prefixed_str true zeros ex_buf ex_str 3 = (Ok tt, buf') /\ vb_bytes buf' = [1; 2; 3] ++ e
  /\ forall chunks, Forall (fun X => X <> []) chunks -> forall tail, concat chunks = e ++ tail ->
     exists rest p', feed true zeros (xqc_prefixed_str_init ex_reader 3) chunks = Ok (Some rest, p')
     /\ concat rest = tail /\ vb_bytes (ps_value p') = ex_str.
Proof.
  destruct (prefixed_str_roundtrip zeros ex_buf ex_str 3 ex_reader zeros_len) as (buf' & e & Hw & Hb & _ & Hr);
    [split; vm_compute; split_and?; congruence|by_decide|lia|by_decide|vm_compute; congruence| |vm_compute; congruence|].
  { split; [split; vm_compute; split_and?; congruence|]. vm_compute. split_and!; congruence. }
  exists buf', e. split; [done|]. split; [done|]. intros chunks Hc tail Ht. destruct (Hr chunks Hc) as [H _].
  destruct (H tail Ht) as (rest & p' & Hf & Hrest & Hv & _). by exists rest, p'.
Defined.

(** ** The end of a Huffman code *)

(** 254 symbols in 159 bytes and half of the next; the last byte ends two more symbols and leaves
    two zeros, which are no padding. *)
Definition bad_bits : list bool :=
  concat (replicate 248 (code_bits 97)) ++ concat (replicate 6 (code_bits 61)) ++ concat (replicate 2 (code_bits 97)) ++ [false; false].

Fixpoint pack (fuel : nat) (bits : list bool) : list Z :=
  match fuel with O => [] | S f => bits_val (take 8 bits) :: pack f (drop 8 bits) end.

Definition bad_code : list Z := pack 161 bad_bits.

Definition ex_limit : xqc_prefixed_str_t :=
  default ex_reader (xqc_prefixed_str_pctx_create true zeros 256 32768).

(** Whether a string with bad padding is accepted depends on how its bytes arrive: in one
    piece it is refused, and byte by byte it is accepted, because the decoder
    leaves as soon as its destination is full and does not look at the end of the code then. *)
Theorem huffman_end_check_depends_on_pieces :
  let e := enc_int 128 161 7 ++ bad_code in
  zlen bad_code = 161
  /\ feed true zeros (xqc_prefixed_str_init ex_limit 7) [e] = Err XQC_QPACK_HUFFMAN_DEC_STATE_ERROR
  /\ match feed true zeros (xqc_prefixed_str_init ex_limit 7) (map (fun b => [b]) e) with
     | Ok (Some [[]], p) => vb_bytes (ps_value p) = replicate 248 97 ++ replicate 6 61 ++ [97; 97]
     | _ => False
     end.
Proof. vm_compute. by split_and!. Qed.

End PrefixedStrSpec.
