(* ===== verification/QpackStatic.v ===== *)
(** The static table of QPACK (src/src/http3/qpack/stable/xqc_stable.c) and the types of header
    names by which it is searched (src/src/http3/xqc_h3_header.c). *)

From Stdlib Require Import String Ascii.
From stdpp Require Import base numbers list.
From S2P Require Import Prelude RingArray RingMem VarBuf DTable.
Import RingArray RingMem VarBuf DTable.

Module QpackStatic.

(** ** Text *)

(** The bytes of a string literal. *)
Definition text (s : string) : list Z := map (fun c => Z.of_N (N_of_ascii c)) (list_ascii_of_string s).
Arguments text s%_string.

(** A character literal. *)
Definition ch (s : string) : Z := rd (text s) 0.
Arguments ch s%_string.

(** [memcmp(s1, s2, n) == 0]; neither is read behind its end by the callers. *)
Definition xqc_memeq (s1 s2 : list Z) (n : Z) : bool := (n =? 0) || bool_decide (sub_bytes s1 0 n = sub_bytes s2 0 n).

(** ** Types of headers *)

Inductive xqc_hdr_type_t :=
| XQC_HDR__AUTHORITY
| XQC_HDR__PATH
| XQC_HDR_AGE
| XQC_HDR_CONTENT_DISPOSITION
| XQC_HDR_CONTENT_LENGTH
| XQC_HDR_COOKIE
| XQC_HDR_DATE
| XQC_HDR_ETAG
| XQC_HDR_IF_MODIFIED_SINCE
| XQC_HDR_IF_NONE_MATCH
| XQC_HDR_LAST_MODIFIED
| XQC_HDR_LINK
| XQC_HDR_LOCATION
| XQC_HDR_REFERER
| XQC_HDR_SET_COOKIE
| XQC_HDR__METHOD
| XQC_HDR__SCHEME
| XQC_HDR__STATUS
| XQC_HDR_ACCEPT
| XQC_HDR_ACCEPT_ENCODING
| XQC_HDR_ACCEPT_RANGES
| XQC_HDR_ACCESS_CONTROL_ALLOW_HEADERS
| XQC_HDR_ACCESS_CONTROL_ALLOW_ORIGIN
| XQC_HDR_CACHE_CONTROL
| XQC_HDR_CONTENT_ENCODING
| XQC_HDR_CONTENT_TYPE
| XQC_HDR_RANGE
| XQC_HDR_STRICT_TRANSPORT_SECURITY
| XQC_HDR_VARY
| XQC_HDR_X_CONTENT_TYPE_OPTIONS
| XQC_HDR_X_XSS_PROTECTION
| XQC_HDR_ACCEPT_LANGUAGE
| XQC_HDR_ACCESS_CONTROL_ALLOW_CREDENTIALS
| XQC_HDR_ACCESS_CONTROL_ALLOW_METHODS
| XQC_HDR_ACCESS_CONTROL_EXPOSE_HEADERS
| XQC_HDR_ACCESS_CONTROL_REQUEST_HEADERS
| XQC_HDR_ACCESS_CONTROL_REQUEST_METHOD
| XQC_HDR_ALT_SVC
| XQC_HDR_AUTHORIZATION
| XQC_HDR_CONTENT_SECURITY_POLICY
| XQC_HDR_EARLY_DATA
| XQC_HDR_EXPECT_CT
| XQC_HDR_FORWARDED
| XQC_HDR_IF_RANGE
| XQC_HDR_ORIGIN
| XQC_HDR_PURPOSE
| XQC_HDR_SERVER
| XQC_HDR_TIMING_ALLOW_ORIGIN
| XQC_HDR_UPGRADE_INSECURE_REQUESTS
| XQC_HDR_USER_AGENT
| XQC_HDR_X_FORWARDED_FOR
| XQC_HDR_X_FRAME_OPTIONS
| XQC_HDR_STATIC_TABLE_END
| XQC_HDR_UNKNOWN.

#[export] Instance xqc_hdr_type_eq_dec : EqDecision xqc_hdr_type_t.
Proof. solve_decision. Defined.

(** [switch (nlen)], in it [switch (name[nlen - 1])], in it comparisons of the bytes before. *)
Definition hdr_case : Type := Z * list (Z * list (list Z * xqc_hdr_type_t)).

Definition hdr_cases_short : list hdr_case :=
  [(3, [(ch "e", [(text "ag", XQC_HDR_AGE)])]);
   (4, [(ch "e", [(text "dat", XQC_HDR_DATE)]);
       (ch "g", [(text "eta", XQC_HDR_ETAG)]);
       (ch "k", [(text "lin", XQC_HDR_LINK)]);
       (ch "y", [(text "var", XQC_HDR_VARY)])]);
   (5, [(ch "e", [(text "rang", XQC_HDR_RANGE)]); (ch "h", [(text ":pat", XQC_HDR__PATH)])]);
   (6, [(ch "e", [(text "cooki", XQC_HDR_COOKIE)]);
       (ch "n", [(text "origi", XQC_HDR_ORIGIN)]);
       (ch "r", [(text "serve", XQC_HDR_SERVER)]);
       (ch "t", [(text "accep", XQC_HDR_ACCEPT)])]);
   (7, [(ch "c", [(text "alt-sv", XQC_HDR_ALT_SVC)]);
       (ch "d", [(text ":metho", XQC_HDR__METHOD)]);
       (ch "e", [(text ":schem", XQC_HDR__SCHEME); (text "purpos", XQC_HDR_PURPOSE)]);
       (ch "r", [(text "refere", XQC_HDR_REFERER)]);
       (ch "s", [(text ":statu", XQC_HDR__STATUS)])])].

Definition hdr_cases_mid : list hdr_case :=
  [(8, [(ch "e", [(text "if-rang", XQC_HDR_IF_RANGE)]); (ch "n", [(text "locatio", XQC_HDR_LOCATION)])]);
   (9, [(ch "d", [(text "forwarde", XQC_HDR_FORWARDED)]); (ch "t", [(text "expect-c", XQC_HDR_EXPECT_CT)])]);
   (10, [(ch "a", [(text "early-dat", XQC_HDR_EARLY_DATA)]);
       (ch "e", [(text "set-cooki", XQC_HDR_SET_COOKIE)]);
       (ch "t", [(text "user-agen", XQC_HDR_USER_AGENT)]);
       (ch "y", [(text ":authorit", XQC_HDR__AUTHORITY)])]);
   (12, [(ch "e", [(text "content-typ", XQC_HDR_CONTENT_TYPE)])]);
   (13, [(ch "d", [(text "last-modifie", XQC_HDR_LAST_MODIFIED)]);
       (ch "h", [(text "if-none-matc", XQC_HDR_IF_NONE_MATCH)]);
       (ch "l", [(text "cache-contro", XQC_HDR_CACHE_CONTROL)]);
       (ch "n", [(text "authorizatio", XQC_HDR_AUTHORIZATION)]);
       (ch "s", [(text "accept-range", XQC_HDR_ACCEPT_RANGES)])])].

Definition hdr_cases_long : list hdr_case :=
  [(14, [(ch "h", [(text "content-lengt", XQC_HDR_CONTENT_LENGTH)])]);
   (15, [(ch "e", [(text "accept-languag", XQC_HDR_ACCEPT_LANGUAGE)]);
       (ch "g", [(text "accept-encodin", XQC_HDR_ACCEPT_ENCODING)]);
       (ch "r", [(text "x-forwarded-fo", XQC_HDR_X_FORWARDED_FOR)]);
       (ch "s", [(text "x-frame-option", XQC_HDR_X_FRAME_OPTIONS)])]);
   (16, [(ch "g", [(text "content-encodin", XQC_HDR_CONTENT_ENCODING)]);
       (ch "n", [(text "x-xss-protectio", XQC_HDR_X_XSS_PROTECTION)])]);
   (17, [(ch "e", [(text "if-modified-sinc", XQC_HDR_IF_MODIFIED_SINCE)])]);
   (19, [(ch "n", [(text "content-dispositio", XQC_HDR_CONTENT_DISPOSITION); (text "timing-allow-origi", XQC_HDR_TIMING_ALLOW_ORIGIN)])])].

Definition hdr_cases_longest : list hdr_case :=
  [(22, [(ch "s", [(text "x-content-type-option", XQC_HDR_X_CONTENT_TYPE_OPTIONS)])]);
   (23, [(ch "y", [(text "content-security-polic", XQC_HDR_CONTENT_SECURITY_POLICY)])]);
   (25, [(ch "s", [(text "upgrade-insecure-request", XQC_HDR_UPGRADE_INSECURE_REQUESTS)]);
       (ch "y", [(text "strict-transport-securit", XQC_HDR_STRICT_TRANSPORT_SECURITY)])]);
   (27, [(ch "n", [(text "access-control-allow-origi", XQC_HDR_ACCESS_CONTROL_ALLOW_ORIGIN)])]);
   (28, [(ch "s", [(text "access-control-allow-header", XQC_HDR_ACCESS_CONTROL_ALLOW_HEADERS); (text "access-control-allow-method", XQC_HDR_ACCESS_CONTROL_ALLOW_METHODS)])]);
   (29, [(ch "d", [(text "access-control-request-metho", XQC_HDR_ACCESS_CONTROL_REQUEST_METHOD)]);
       (ch "s", [(text "access-control-expose-header", XQC_HDR_ACCESS_CONTROL_EXPOSE_HEADERS)])]);
   (30, [(ch "s", [(text "access-control-request-header", XQC_HDR_ACCESS_CONTROL_REQUEST_HEADERS)])]);
   (32, [(ch "s", [(text "access-control-allow-credential", XQC_HDR_ACCESS_CONTROL_ALLOW_CREDENTIALS)])])].

Definition hdr_cases : list hdr_case := hdr_cases_short ++ hdr_cases_mid ++ hdr_cases_long ++ hdr_cases_longest.

(** The case of a [switch] that is taken. *)
Fixpoint pick {A} (k : Z) (l : list (Z * A)) : option A :=
  match l with [] => None | (k', a) :: rest => if k =? k' then Some a else pick k rest end.

Fixpoint memeq_chain (name : list Z) (l : list (list Z * xqc_hdr_type_t)) : xqc_hdr_type_t :=
  match l with
  | [] => XQC_HDR_UNKNOWN
  | (s, t) :: rest => if xqc_memeq s name (zlen name - 1) then t else memeq_chain name rest
  end.

Definition xqc_h3_hdr_type (name : list Z) : xqc_hdr_type_t :=
  match pick (zlen name) hdr_cases with
  | None => XQC_HDR_UNKNOWN
  | Some cases =>
      match pick (rd name (zlen name - 1)) cases with
      | None => XQC_HDR_UNKNOWN
      | Some l => memeq_chain name l
      end
  end.

(** [htype >= XQC_HDR_STATIC_TABLE_END]. *)
Definition not_static (t : xqc_hdr_type_t) : bool :=
  match t with XQC_HDR_STATIC_TABLE_END | XQC_HDR_UNKNOWN => true | _ => false end.

(** ** The table *)

Record xqc_stable_entry_t := mk_stable {
  st_name : list Z;
  st_value : list Z;
  st_type : xqc_hdr_type_t;
  st_hop : Z;
}.

Definition rows_0 : list xqc_stable_entry_t :=
  [mk_stable (text ":authority") [] XQC_HDR__AUTHORITY 0;
   mk_stable (text ":path") (text "/") XQC_HDR__PATH 0;
   mk_stable (text "age") (text "0") XQC_HDR_AGE 0;
   mk_stable (text "content-disposition") [] XQC_HDR_CONTENT_DISPOSITION 0;
   mk_stable (text "content-length") (text "0") XQC_HDR_CONTENT_LENGTH 0;
   mk_stable (text "cookie") [] XQC_HDR_COOKIE 0;
   mk_stable (text "date") [] XQC_HDR_DATE 0;
   mk_stable (text "etag") [] XQC_HDR_ETAG 0;
   mk_stable (text "if-modified-since") [] XQC_HDR_IF_MODIFIED_SINCE 0;
   mk_stable (text "if-none-match") [] XQC_HDR_IF_NONE_MATCH 0;
   mk_stable (text "last-modified") [] XQC_HDR_LAST_MODIFIED 0;
   mk_stable (text "link") [] XQC_HDR_LINK 0;
   mk_stable (text "location") [] XQC_HDR_LOCATION 0;
   mk_stable (text "referer") [] XQC_HDR_REFERER 0;
   mk_stable (text "set-cookie") [] XQC_HDR_SET_COOKIE 0;
   mk_stable (text ":method") (text "CONNECT") XQC_HDR__METHOD 0;
   mk_stable (text ":method") (text "DELETE") XQC_HDR__METHOD 0;
   mk_stable (text ":method") (text "GET") XQC_HDR__METHOD 0;
   mk_stable (text ":method") (text "HEAD") XQC_HDR__METHOD 0;
   mk_stable (text ":method") (text "OPTIONS") XQC_HDR__METHOD 0;
   mk_stable (text ":method") (text "POST") XQC_HDR__METHOD 0;
   mk_stable (text ":method") (text "PUT") XQC_HDR__METHOD 0;
   mk_stable (text ":scheme") (text "http") XQC_HDR__SCHEME 0;
   mk_stable (text ":scheme") (text "https") XQC_HDR__SCHEME 0;
   mk_stable (text ":status") (text "103") XQC_HDR__STATUS 0;
   mk_stable (text ":status") (text "200") XQC_HDR__STATUS 0;
   mk_stable (text ":status") (text "304") XQC_HDR__STATUS 0;
   mk_stable (text ":status") (text "404") XQC_HDR__STATUS 0;
   mk_stable (text ":status") (text "503") XQC_HDR__STATUS 63;
   mk_stable (text "accept") (text "*/*") XQC_HDR_ACCEPT 0;
   mk_stable (text "accept") (text "application/dns-message") XQC_HDR_ACCEPT 0;
   mk_stable (text "accept-encoding") (text "gzip, deflate, br") XQC_HDR_ACCEPT_ENCODING 0].

Definition rows_32 : list xqc_stable_entry_t :=
  [mk_stable (text "accept-ranges") (text "bytes") XQC_HDR_ACCEPT_RANGES 0;
   mk_stable (text "access-control-allow-headers") (text "cache-control") XQC_HDR_ACCESS_CONTROL_ALLOW_HEADERS 0;
   mk_stable (text "access-control-allow-headers") (text "content-type") XQC_HDR_ACCESS_CONTROL_ALLOW_HEADERS 75;
   mk_stable (text "access-control-allow-origin") (text "*") XQC_HDR_ACCESS_CONTROL_ALLOW_ORIGIN 0;
   mk_stable (text "cache-control") (text "max-age=0") XQC_HDR_CACHE_CONTROL 0;
   mk_stable (text "cache-control") (text "max-age=2592000") XQC_HDR_CACHE_CONTROL 0;
   mk_stable (text "cache-control") (text "max-age=604800") XQC_HDR_CACHE_CONTROL 0;
   mk_stable (text "cache-control") (text "no-cache") XQC_HDR_CACHE_CONTROL 0;
   mk_stable (text "cache-control") (text "no-store") XQC_HDR_CACHE_CONTROL 0;
   mk_stable (text "cache-control") (text "public, max-age=31536000") XQC_HDR_CACHE_CONTROL 0;
   mk_stable (text "content-encoding") (text "br") XQC_HDR_CONTENT_ENCODING 0;
   mk_stable (text "content-encoding") (text "gzip") XQC_HDR_CONTENT_ENCODING 0;
   mk_stable (text "content-type") (text "application/dns-message") XQC_HDR_CONTENT_TYPE 0;
   mk_stable (text "content-type") (text "application/javascript") XQC_HDR_CONTENT_TYPE 0;
   mk_stable (text "content-type") (text "application/json") XQC_HDR_CONTENT_TYPE 0;
   mk_stable (text "content-type") (text "application/x-www-form-urlencoded") XQC_HDR_CONTENT_TYPE 0;
   mk_stable (text "content-type") (text "image/gif") XQC_HDR_CONTENT_TYPE 0;
   mk_stable (text "content-type") (text "image/jpeg") XQC_HDR_CONTENT_TYPE 0;
   mk_stable (text "content-type") (text "image/png") XQC_HDR_CONTENT_TYPE 0;
   mk_stable (text "content-type") (text "text/css") XQC_HDR_CONTENT_TYPE 0;
   mk_stable (text "content-type") (text "text/html; charset=utf-8") XQC_HDR_CONTENT_TYPE 0;
   mk_stable (text "content-type") (text "text/plain") XQC_HDR_CONTENT_TYPE 0;
   mk_stable (text "content-type") (text "text/plain;charset=utf-8") XQC_HDR_CONTENT_TYPE 0;
   mk_stable (text "range") (text "bytes=0-") XQC_HDR_RANGE 0;
   mk_stable (text "strict-transport-security") (text "max-age=31536000") XQC_HDR_STRICT_TRANSPORT_SECURITY 0;
   mk_stable (text "strict-transport-security") (text "max-age=31536000; includesubdomains") XQC_HDR_STRICT_TRANSPORT_SECURITY 0;
   mk_stable (text "strict-transport-security") (text "max-age=31536000; includesubdomains; preload") XQC_HDR_STRICT_TRANSPORT_SECURITY 0;
   mk_stable (text "vary") (text "accept-encoding") XQC_HDR_VARY 0;
   mk_stable (text "vary") (text "origin") XQC_HDR_VARY 0;
   mk_stable (text "x-content-type-options") (text "nosniff") XQC_HDR_X_CONTENT_TYPE_OPTIONS 0;
   mk_stable (text "x-xss-protection") (text "1; mode=block") XQC_HDR_X_XSS_PROTECTION 0;
   mk_stable (text ":status") (text "100") XQC_HDR__STATUS 0].

Definition rows_64 : list xqc_stable_entry_t :=
  [mk_stable (text ":status") (text "204") XQC_HDR__STATUS 0;
   mk_stable (text ":status") (text "206") XQC_HDR__STATUS 0;
   mk_stable (text ":status") (text "302") XQC_HDR__STATUS 0;
   mk_stable (text ":status") (text "400") XQC_HDR__STATUS 0;
   mk_stable (text ":status") (text "403") XQC_HDR__STATUS 0;
   mk_stable (text ":status") (text "421") XQC_HDR__STATUS 0;
   mk_stable (text ":status") (text "425") XQC_HDR__STATUS 0;
   mk_stable (text ":status") (text "500") XQC_HDR__STATUS 0;
   mk_stable (text "accept-language") [] XQC_HDR_ACCEPT_LANGUAGE 0;
   mk_stable (text "access-control-allow-credentials") (text "FALSE") XQC_HDR_ACCESS_CONTROL_ALLOW_CREDENTIALS 0;
   mk_stable (text "access-control-allow-credentials") (text "TRUE") XQC_HDR_ACCESS_CONTROL_ALLOW_CREDENTIALS 0;
   mk_stable (text "access-control-allow-headers") (text "*") XQC_HDR_ACCESS_CONTROL_ALLOW_HEADERS 0;
   mk_stable (text "access-control-allow-methods") (text "get") XQC_HDR_ACCESS_CONTROL_ALLOW_METHODS 0;
   mk_stable (text "access-control-allow-methods") (text "get, post, options") XQC_HDR_ACCESS_CONTROL_ALLOW_METHODS 0;
   mk_stable (text "access-control-allow-methods") (text "options") XQC_HDR_ACCESS_CONTROL_ALLOW_METHODS 0;
   mk_stable (text "access-control-expose-headers") (text "content-length") XQC_HDR_ACCESS_CONTROL_EXPOSE_HEADERS 0;
   mk_stable (text "access-control-request-headers") (text "content-type") XQC_HDR_ACCESS_CONTROL_REQUEST_HEADERS 0;
   mk_stable (text "access-control-request-method") (text "get") XQC_HDR_ACCESS_CONTROL_REQUEST_METHOD 0;
   mk_stable (text "access-control-request-method") (text "post") XQC_HDR_ACCESS_CONTROL_REQUEST_METHOD 0;
   mk_stable (text "alt-svc") (text "clear") XQC_HDR_ALT_SVC 0;
   mk_stable (text "authorization") [] XQC_HDR_AUTHORIZATION 0;
   mk_stable (text "content-security-policy") (text "script-src 'none'; object-src 'none'; base-uri 'none'") XQC_HDR_CONTENT_SECURITY_POLICY 0;
   mk_stable (text "early-data") (text "1") XQC_HDR_EARLY_DATA 0;
   mk_stable (text "expect-ct") [] XQC_HDR_EXPECT_CT 0;
   mk_stable (text "forwarded") [] XQC_HDR_FORWARDED 0;
   mk_stable (text "if-range") [] XQC_HDR_IF_RANGE 0;
   mk_stable (text "origin") [] XQC_HDR_ORIGIN 0;
   mk_stable (text "purpose") (text "prefetch") XQC_HDR_PURPOSE 0;
   mk_stable (text "server") [] XQC_HDR_SERVER 0;
   mk_stable (text "timing-allow-origin") (text "*") XQC_HDR_TIMING_ALLOW_ORIGIN 0;
   mk_stable (text "upgrade-insecure-requests") (text "1") XQC_HDR_UPGRADE_INSECURE_REQUESTS 0;
   mk_stable (text "user-agent") [] XQC_HDR_USER_AGENT 0;
   mk_stable (text "x-forwarded-for") [] XQC_HDR_X_FORWARDED_FOR 0;
   mk_stable (text "x-frame-options") (text "deny") XQC_HDR_X_FRAME_OPTIONS 0;
   mk_stable (text "x-frame-options") (text "sameorigin") XQC_HDR_X_FRAME_OPTIONS 0].

Definition xqc_g_static_table : list xqc_stable_entry_t := rows_0 ++ rows_32 ++ rows_64.

Definition XQC_STABLE_SIZE : Z := 99.

Definition xqc_stable_header_idx (t : xqc_hdr_type_t) : Z :=
  match t with
  | XQC_HDR__AUTHORITY => 0
  | XQC_HDR__PATH => 1
  | XQC_HDR_AGE => 2
  | XQC_HDR_CONTENT_DISPOSITION => 3
  | XQC_HDR_CONTENT_LENGTH => 4
  | XQC_HDR_COOKIE => 5
  | XQC_HDR_DATE => 6
  | XQC_HDR_ETAG => 7
  | XQC_HDR_IF_MODIFIED_SINCE => 8
  | XQC_HDR_IF_NONE_MATCH => 9
  | XQC_HDR_LAST_MODIFIED => 10
  | XQC_HDR_LINK => 11
  | XQC_HDR_LOCATION => 12
  | XQC_HDR_REFERER => 13
  | XQC_HDR_SET_COOKIE => 14
  | XQC_HDR__METHOD => 15
  | XQC_HDR__SCHEME => 22
  | XQC_HDR__STATUS => 24
  | XQC_HDR_ACCEPT => 29
  | XQC_HDR_ACCEPT_ENCODING => 31
  | XQC_HDR_ACCEPT_RANGES => 32
  | XQC_HDR_ACCESS_CONTROL_ALLOW_HEADERS => 33
  | XQC_HDR_ACCESS_CONTROL_ALLOW_ORIGIN => 35
  | XQC_HDR_CACHE_CONTROL => 36
  | XQC_HDR_CONTENT_ENCODING => 42
  | XQC_HDR_CONTENT_TYPE => 44
  | XQC_HDR_RANGE => 55
  | XQC_HDR_STRICT_TRANSPORT_SECURITY => 56
  | XQC_HDR_VARY => 59
  | XQC_HDR_X_CONTENT_TYPE_OPTIONS => 61
  | XQC_HDR_X_XSS_PROTECTION => 62
  | XQC_HDR_ACCEPT_LANGUAGE => 72
  | XQC_HDR_ACCESS_CONTROL_ALLOW_CREDENTIALS => 73
  | XQC_HDR_ACCESS_CONTROL_ALLOW_METHODS => 76
  | XQC_HDR_ACCESS_CONTROL_EXPOSE_HEADERS => 79
  | XQC_HDR_ACCESS_CONTROL_REQUEST_HEADERS => 80
  | XQC_HDR_ACCESS_CONTROL_REQUEST_METHOD => 81
  | XQC_HDR_ALT_SVC => 83
  | XQC_HDR_AUTHORIZATION => 84
  | XQC_HDR_CONTENT_SECURITY_POLICY => 85
  | XQC_HDR_EARLY_DATA => 86
  | XQC_HDR_EXPECT_CT => 87
  | XQC_HDR_FORWARDED => 88
  | XQC_HDR_IF_RANGE => 89
  | XQC_HDR_ORIGIN => 90
  | XQC_HDR_PURPOSE => 91
  | XQC_HDR_SERVER => 92
  | XQC_HDR_TIMING_ALLOW_ORIGIN => 93
  | XQC_HDR_UPGRADE_INSECURE_REQUESTS => 94
  | XQC_HDR_USER_AGENT => 95
  | XQC_HDR_X_FORWARDED_FOR => 96
  | XQC_HDR_X_FRAME_OPTIONS => 97
  | XQC_HDR_STATIC_TABLE_END | XQC_HDR_UNKNOWN => 0
  end.

Definition xqc_stable_get_entry (idx : Z) : option xqc_stable_entry_t :=
  if XQC_STABLE_SIZE <=? idx then None else xqc_g_static_table !! Z.to_nat idx.

(** [while (s_idx < XQC_STABLE_SIZE)]; every round moves on in the table. *)
Fixpoint stable_loop (fuel : nat) (value : list Z) (htype : xqc_hdr_type_t) (s_idx idx : Z) : xqc_nv_ref_type_t * option Z :=
  match fuel, xqc_stable_get_entry s_idx with
  | O, _ | _, None => (XQC_NV_REF_NAME, Some idx)
  | S fuel, Some entry =>
      if negb (bool_decide (st_type entry = htype)) then (XQC_NV_REF_NAME, Some idx)
      else if (zlen (st_value entry) =? zlen value) && xqc_memeq (st_value entry) value (zlen value)
      then (XQC_NV_REF_NAME_AND_VALUE, Some s_idx)
      else stable_loop fuel value htype (if negb (st_hop entry =? 0) then st_hop entry else s_idx + 1) idx
  end.

(** The reference, and the index of the entry when there is one. *)
Definition xqc_stable_lookup (name value : list Z) (htype : xqc_hdr_type_t) : xqc_nv_ref_type_t * option Z :=
  if (zlen name =? 0) || not_static htype then (XQC_NV_REF_NONE, None)
  else
    let s_idx := xqc_stable_header_idx htype in
    stable_loop (Z.to_nat XQC_STABLE_SIZE) value htype s_idx s_idx.

(** ** Searching *)

(** The name that a type stands for. *)
Definition name_of (t : xqc_hdr_type_t) : list Z :=
  match xqc_stable_get_entry (xqc_stable_header_idx t) with Some e => st_name e | None => [] end.

(** The entries that are compared with a value: [stable_loop] without the comparison. *)
Fixpoint chain (fuel : nat) (t : xqc_hdr_type_t) (i : Z) : list Z :=
  match fuel, xqc_stable_get_entry i with
  | S fuel, Some e =>
      if bool_decide (st_type e = t) then i :: chain fuel t (if negb (st_hop e =? 0) then st_hop e else i + 1) else []
  | _, _ => []
  end.

Definition chain_of (t : xqc_hdr_type_t) : list Z := chain (Z.to_nat XQC_STABLE_SIZE) t (xqc_stable_header_idx t).

Definition indices : list Z := map Z.of_nat (seq 0 99).

(** The type of an entry is that of its name, and its chain reaches it. *)
Definition entry_check (i : Z) : bool :=
  match xqc_stable_get_entry i with
  | Some e =>
      bool_decide (xqc_h3_hdr_type (st_name e) = st_type e) && bool_decide (st_name e = name_of (st_type e))
      && negb (not_static (st_type e)) && bool_decide (i ∈ chain_of (st_type e)) && negb (zlen (st_name e) =? 0)
  | None => false
  end.

Definition case_check (c : hdr_case) : bool :=
  forallb (fun p : Z * list (list Z * xqc_hdr_type_t) =>
    forallb (fun q : list Z * xqc_hdr_type_t =>
      (zlen (fst q) =? fst c - 1) && bool_decide (fst q ++ [fst p] = name_of (snd q)) && negb (not_static (snd q)))
      (snd p)) (snd c) && (1 <? fst c).

Lemma entries_checked : forallb entry_check indices = true.
Proof. vm_compute. reflexivity. Qed.

Lemma cases_checked : forallb case_check hdr_cases = true.
Proof. vm_compute. reflexivity. Qed.

Lemma get_entry_index i e : xqc_stable_get_entry i = Some e -> 0 <= i -> i ∈ indices.
Proof.
  unfold xqc_stable_get_entry, XQC_STABLE_SIZE. case_if; [done|]. zify_bools. intros _ Hi. apply list_elem_of_In, in_map_iff.
  exists (Z.to_nat i). split; [lia|]. apply in_seq. lia.
Qed.

Lemma entry_checked i e : 0 <= i -> xqc_stable_get_entry i = Some e ->
  xqc_h3_hdr_type (st_name e) = st_type e /\ st_name e = name_of (st_type e) /\ not_static (st_type e) = false
  /\ i ∈ chain_of (st_type e) /\ zlen (st_name e) <> 0.
Proof.
  intros Hi He. pose proof (get_entry_index _ _ He Hi) as Hin. pose proof entries_checked as Hc.
  rewrite forallb_forall in Hc. apply list_elem_of_In in Hin. specialize (Hc i Hin). unfold entry_check in Hc. rewrite He in Hc.
  rewrite !andb_true_iff, !negb_true_iff, !bool_decide_eq_true, Z.eqb_neq in Hc. by destruct Hc as ((((? & ?) & ?) & ?) & ?).
Qed.

Lemma pick_in {A} k (l : list (Z * A)) a : pick k l = Some a -> In (k, a) l.
Proof.
  induction l as [|[k' a'] l IH]; simpl; [done|]. case_if; zify_bools; [intros [= ->]; left; by subst|]. intros H. right. by apply IH.
Qed.

Lemma memeq_spec a b : xqc_memeq a b (zlen a) = bool_decide (sub_bytes b 0 (zlen a) = a).
Proof.
  unfold xqc_memeq. rewrite sub_bytes_all. destruct (zlen a =? 0) eqn:E; zify_bools; simpl.
  - symmetry. apply bool_decide_eq_true. assert (a = []) as -> by (apply nil_length_inv; unfold zlen in E; lia). done.
  - by apply bool_decide_ext.
Qed.

Lemma memeq_chain_in name l t : memeq_chain name l = t -> not_static t = false ->
  exists s, In (s, t) l /\ xqc_memeq s name (zlen name - 1) = true.
Proof.
  induction l as [|[s t'] l IH]; simpl; [by intros <-|]. destruct (xqc_memeq s name _) eqn:E; [intros -> _; exists s; auto|].
  intros H1 H2. destruct (IH H1 H2) as (s' & ? & ?). exists s'. auto.
Qed.

(** A type is given to its name only. *)
Lemma hdr_type_name name : not_static (xqc_h3_hdr_type name) = false -> name = name_of (xqc_h3_hdr_type name).
Proof.
  unfold xqc_h3_hdr_type. destruct (pick (zlen name) hdr_cases) as [cs|] eqn:E1; [|done].
  destruct (pick (rd name _) cs) as [l|] eqn:E2; [|done]. intros Hs. apply pick_in in E1, E2.
  destruct (memeq_chain_in name l _ eq_refl Hs) as (s & Hin & Heq). pose proof cases_checked as Hc.
  rewrite forallb_forall in Hc. specialize (Hc _ E1). unfold case_check in Hc. apply andb_true_iff in Hc as [Hc Hl].
  rewrite forallb_forall in Hc. specialize (Hc _ E2). simpl in Hc. rewrite forallb_forall in Hc. specialize (Hc _ Hin). simpl in *.
  rewrite !andb_true_iff, bool_decide_eq_true in Hc. destruct Hc as [[Hz Hn] _]. zify_bools. rewrite <- Hn.
  rewrite <- Hz, memeq_spec, bool_decide_eq_true in Heq. rewrite <- Heq at 1. unfold sub_bytes. rewrite drop_0.
  unfold rd, zlen in *. destruct (lookup_lt_is_Some_2 name (length name - 1)) as (x & Hx); [lia|].
  replace (Z.to_nat (Z.of_nat (length name) - 1)) with (length name - 1)%nat by lia.
  rewrite (nth_lookup_Some _ _ 0 _ Hx). replace (Z.to_nat _) with (length name - 1)%nat by lia.
  rewrite <- (take_S_r _ _ _ Hx). rewrite take_ge by lia. done.
Qed.

Lemma value_eq a b : ((zlen a =? zlen b) && xqc_memeq a b (zlen b)) = bool_decide (a = b).
Proof.
  destruct (zlen a =? zlen b) eqn:E; zify_bools; simpl.
  - rewrite <- E, memeq_spec. apply bool_decide_ext. rewrite E, sub_bytes_all. split; by intros.
  - symmetry. apply bool_decide_eq_false. by intros ->.
Qed.

(** The loop finds the first entry of the chain with the value. *)
Lemma stable_loop_chain fuel value t i idx :
  let has j := match xqc_stable_get_entry j with Some e => bool_decide (st_value e = value) | None => false end in
  stable_loop fuel value t i idx
  = match List.find has (chain fuel t i) with Some j => (XQC_NV_REF_NAME_AND_VALUE, Some j) | None => (XQC_NV_REF_NAME, Some idx) end.
Proof.
  revert i. induction fuel as [|fuel IH]; intros i has; cbn [stable_loop chain]; [done|].
  destruct (xqc_stable_get_entry i) as [e|] eqn:E; [|done]. destruct (bool_decide (st_type e = t)); [|done]. simpl negb. cbn iota.
  rewrite value_eq. cbn [List.find]. unfold has at 1. rewrite E. destruct (bool_decide (st_value e = value)); [done|]. apply IH.
Qed.

Lemma chain_type fuel t i j : 0 <= i -> j ∈ chain fuel t i -> 0 <= j /\ exists e, xqc_stable_get_entry j = Some e /\ st_type e = t.
Proof.
  revert i. induction fuel as [|fuel IH]; intros i Hi; cbn [chain]; [by intros ?%not_elem_of_nil|].
  destruct (xqc_stable_get_entry i) as [e|] eqn:E; [|by intros ?%not_elem_of_nil].
  case_bool_decide; [|by intros ?%not_elem_of_nil]. rewrite elem_of_cons. intros [->|Hj]; [by eauto|]. apply IH in Hj; [done|].
  assert (forallb (fun i => match xqc_stable_get_entry i with Some e => 0 <=? st_hop e | None => false end) indices = true) as Hh
    by (vm_compute; reflexivity).
  rewrite forallb_forall in Hh. pose proof (get_entry_index _ _ E Hi) as Hin. apply list_elem_of_In in Hin.
  specialize (Hh i Hin). rewrite E in Hh. case_if; zb.
Qed.

Lemma header_idx_nonneg t : 0 <= xqc_stable_header_idx t.
Proof. by destruct t. Qed.

(** What a search of the whole table finds. *)
Definition static_found (name value : list Z) (out : xqc_nv_ref_type_t * option Z) : Prop :=
  match out with
  | (XQC_NV_REF_NAME_AND_VALUE, Some i) =>
      0 <= i /\ exists e, xqc_stable_get_entry i = Some e /\ st_name e = name /\ st_value e = value
  | (XQC_NV_REF_NAME, Some i) =>
      0 <= i /\ (exists e, xqc_stable_get_entry i = Some e /\ st_name e = name)
      /\ forall j e, 0 <= j -> xqc_stable_get_entry j = Some e -> st_name e = name -> st_value e <> value
  | (XQC_NV_REF_NONE, None) => forall j e, 0 <= j -> xqc_stable_get_entry j = Some e -> st_name e <> name
  | _ => False
  end.

Lemma static_lookup_found name value : static_found name value (xqc_stable_lookup name value (xqc_h3_hdr_type name)).
Proof.
  unfold xqc_stable_lookup. set (t := xqc_h3_hdr_type name). destruct ((zlen name =? 0) || not_static t) eqn:E.
  { simpl. intros j e Hj He <-. destruct (entry_checked _ _ Hj He) as (H1 & _ & H3 & _ & H5). unfold t in E. rewrite H1, H3 in E.
    rewrite orb_false_r in E. zb. }
  apply orb_false_iff in E as [Hz Hs]. pose proof (hdr_type_name name Hs) as Hname. fold t in Hname.
  rewrite stable_loop_chain. fold (chain_of t). pose proof (header_idx_nonneg t) as Hidx.
  destruct (List.find _ (chain_of t)) as [j|] eqn:Ef; simpl.
  - apply List.find_some in Ef as [Hin Hv]. apply list_elem_of_In in Hin. apply chain_type in Hin as (Hj & e & He & Ht); [|done].
    rewrite He, bool_decide_eq_true in Hv. split; [done|]. exists e. split; [done|]. split; [|done].
    destruct (entry_checked _ _ Hj He) as (_ & H2 & _). by rewrite H2, Ht.
  - split; [done|]. split.
    + unfold name_of in Hname. destruct (xqc_stable_get_entry (xqc_stable_header_idx t)) as [e|]; [by eauto|]. by rewrite Hname in Hz.
    + intros j e Hj He Hn Hv. destruct (entry_checked _ _ Hj He) as (H1 & _ & _ & H4 & _). rewrite Hn in H1. fold t in H1.
      rewrite <- H1 in H4. apply list_elem_of_In in H4. pose proof (List.find_none _ _ Ef j H4) as Hnone. simpl in Hnone.
      rewrite He, bool_decide_eq_false in Hnone. done.
Qed.

(** C17: The static table is searched completely: for every name and value, the lookup through
    the type of the name and the chain of its entries returns a matching entry when there is
    one, an entry with the name when only the name is there, and nothing when it is not. *)
Theorem static_lookup_is_search name value :
  static_found name value (xqc_stable_lookup name value (xqc_h3_hdr_type name)).
Proof. apply static_lookup_found. Qed.

End QpackStatic.
