(* ===== verification/QpackIns.v ===== *)
(** The instructions of the two streams of QPACK (src/src/http3/qpack/xqc_ins.c): the writers,
    and the parsers, which take an instruction in any number of pieces. *)

From stdpp Require Import base numbers list.
From S2P Require Import Prelude RingArray RingMem VarBuf QpackInt PrefixedStr.
Import RingArray RingMem VarBuf QpackInt PrefixedStr.

Module QpackIns.

Definition QPACK_ENCODER_STREAM_ERROR : Z := 0x201.
Definition QPACK_DECODER_STREAM_ERROR : Z := 0x202.
Definition XQC_QPACK_DECODER_ERROR : Z := 902.
Definition XQC_VAR_BUF_INIT_SIZE : Z := 256.
Definition XQC_H3_MAX_FIELD_SECTION_SIZE : Z := 32 * 1024.

(** ** Contexts *)

Inductive xqc_ins_enc_stage_t :=
| XQC_INS_ES_OPCODE
| XQC_INS_ES_CAPACITY
| XQC_INS_ES_STATE_INDEX
| XQC_INS_ES_STATE_NAME
| XQC_INS_ES_STATE_VALUE
| XQC_INS_ES_STATE_FINISH.

Inductive xqc_ins_enc_type_t :=
| XQC_INS_TYPE_ENC_SET_DTABLE_CAP
| XQC_INS_TYPE_ENC_INSERT_NAME_REF
| XQC_INS_TYPE_ENC_INSERT_LITERAL
| XQC_INS_TYPE_ENC_DUP.

Record xqc_ins_enc_ctx_t := mk_ectx {
  ie_state : xqc_ins_enc_stage_t;
  ie_type : xqc_ins_enc_type_t;
  ie_table : Z;
  ie_name_index : xqc_prefixed_int_t;
  ie_capacity : xqc_prefixed_int_t;
  ie_name : xqc_prefixed_str_t;
  ie_value : xqc_prefixed_str_t;
}.

Definition ie_set_state c s := mk_ectx s (ie_type c) (ie_table c) (ie_name_index c) (ie_capacity c) (ie_name c) (ie_value c).
Definition ie_set_type c t := mk_ectx (ie_state c) t (ie_table c) (ie_name_index c) (ie_capacity c) (ie_name c) (ie_value c).
Definition ie_set_table c t := mk_ectx (ie_state c) (ie_type c) t (ie_name_index c) (ie_capacity c) (ie_name c) (ie_value c).
Definition ie_set_index c i := mk_ectx (ie_state c) (ie_type c) (ie_table c) i (ie_capacity c) (ie_name c) (ie_value c).
Definition ie_set_capacity c i := mk_ectx (ie_state c) (ie_type c) (ie_table c) (ie_name_index c) i (ie_name c) (ie_value c).
Definition ie_set_name c p := mk_ectx (ie_state c) (ie_type c) (ie_table c) (ie_name_index c) (ie_capacity c) p (ie_value c).
Definition ie_set_value c p := mk_ectx (ie_state c) (ie_type c) (ie_table c) (ie_name_index c) (ie_capacity c) (ie_name c) p.

Definition ie_is_finish (s : xqc_ins_enc_stage_t) : bool := match s with XQC_INS_ES_STATE_FINISH => true | _ => false end.
Definition ie_is_opcode (s : xqc_ins_enc_stage_t) : bool := match s with XQC_INS_ES_OPCODE => true | _ => false end.

Inductive xqc_ins_dec_stage_t :=
| XQC_INS_DS_STATE_OPCODE
| XQC_INS_DS_STATE_STREAM_ID
| XQC_INS_DS_STATE_INCREMENT
| XQC_INS_DS_STATE_FINISH.

Inductive xqc_ins_dec_type_t :=
| XQC_INS_TYPE_DEC_SECTION_ACK
| XQC_INS_TYPE_DEC_STREAM_CANCEL
| XQC_INS_TYPE_DEC_INSERT_CNT_INC.

Record xqc_ins_dec_ctx_t := mk_dctx {
  id_state : xqc_ins_dec_stage_t;
  id_type : xqc_ins_dec_type_t;
  id_stream_id : xqc_prefixed_int_t;
  id_increment : xqc_prefixed_int_t;
}.

Definition xqc_ins_decoder_ctx_create (mem : bool) : option xqc_ins_dec_ctx_t :=
  if negb mem then None
  else Some (mk_dctx XQC_INS_DS_STATE_OPCODE XQC_INS_TYPE_DEC_SECTION_ACK (mk_pi 0 0 0) (mk_pi 0 0 0)).

Definition xqc_ins_enc_type (b : Z) : xqc_ins_enc_type_t :=
  if negb (b .& 0x80 =? 0) then XQC_INS_TYPE_ENC_INSERT_NAME_REF
  else if negb (b .& 0x40 =? 0) then XQC_INS_TYPE_ENC_INSERT_LITERAL
  else if negb (b .& 0x20 =? 0) then XQC_INS_TYPE_ENC_SET_DTABLE_CAP
  else XQC_INS_TYPE_ENC_DUP.

Definition xqc_ins_decoder_type (b : Z) : xqc_ins_dec_type_t :=
  if negb (b .& 0x80 =? 0) then XQC_INS_TYPE_DEC_SECTION_ACK
  else if negb (b .& 0x40 =? 0) then XQC_INS_TYPE_DEC_STREAM_CANCEL
  else XQC_INS_TYPE_DEC_INSERT_CNT_INC.

Definition parse_out : Type := res Z * xqc_ins_enc_ctx_t.

Section ops.

Context (mem : bool) (junk : Z -> list Z).

Definition xqc_ins_encoder_ctx_create : option xqc_ins_enc_ctx_t :=
  if negb mem then None
  else
    name ← xqc_prefixed_str_pctx_create mem junk XQC_VAR_BUF_INIT_SIZE XQC_H3_MAX_FIELD_SECTION_SIZE;
    value ← xqc_prefixed_str_pctx_create mem junk XQC_H3_MAX_FIELD_SECTION_SIZE XQC_H3_MAX_FIELD_SECTION_SIZE;
    Some (mk_ectx XQC_INS_ES_OPCODE XQC_INS_TYPE_ENC_SET_DTABLE_CAP 0 (mk_pi 0 0 0) (mk_pi 0 0 0) name value).

(** ** Parsing encoder instructions

    The data is what lies between the position and the end, at least one byte. The result is the
    number of bytes that were read. *)

(** [case XQC_INS_ES_CAPACITY]. *)
Definition es_capacity (data : list Z) (ctx : xqc_ins_enc_ctx_t) : parse_out :=
  match xqc_prefixed_int_read (ie_capacity ctx) data with
  | (Err e, i) => (Err e, ie_set_capacity ctx i)
  | (Ok (read, fin), i) =>
      let ctx := ie_set_capacity ctx i in
      (Ok read, if fin : bool then ie_set_state ctx XQC_INS_ES_STATE_FINISH else ctx)
  end.

Definition xqc_ins_parse_set_dtable_capacity (data : list Z) (ctx : xqc_ins_enc_ctx_t) : parse_out :=
  match ie_state ctx with
  | XQC_INS_ES_OPCODE =>
      es_capacity data (ie_set_capacity (ie_set_state ctx XQC_INS_ES_CAPACITY) (xqc_prefixed_int_init 5))
  | XQC_INS_ES_CAPACITY => es_capacity data ctx
  | _ => (Err XQC_QPACK_DECODER_ERROR, ctx)
  end.

(** [case XQC_INS_ES_STATE_VALUE], from position [pos] on. *)
Definition es_value (data : list Z) (pos : Z) (ctx : xqc_ins_enc_ctx_t) : parse_out :=
  match xqc_parse_prefixed_str mem junk (ie_value ctx) (drop (Z.to_nat pos) data) with
  | (Err e, p) => (Err e, ie_set_value ctx p)
  | (Ok (read, fin), p) =>
      let ctx := ie_set_value ctx p in
      (Ok (pos + read), if fin : bool then ie_set_state ctx XQC_INS_ES_STATE_FINISH else ctx)
  end.

(** [case XQC_INS_ES_STATE_INDEX] of an insertion, down to the value. *)
Definition es_index_value (data : list Z) (ctx : xqc_ins_enc_ctx_t) : parse_out :=
  match xqc_prefixed_int_read (ie_name_index ctx) data with
  | (Err e, i) => (Err e, ie_set_index ctx i)
  | (Ok (read, fin), i) =>
      let ctx := ie_set_index ctx i in
      if fin : bool then
        let ctx := ie_set_value (ie_set_state ctx XQC_INS_ES_STATE_VALUE) (xqc_prefixed_str_init (ie_value ctx) 7) in
        if read =? zlen data then (Ok read, ctx) else es_value data read ctx
      else (Ok read, ctx)
  end.

Definition xqc_ins_parse_insert_name_reference (data : list Z) (ctx : xqc_ins_enc_ctx_t) : parse_out :=
  match ie_state ctx with
  | XQC_INS_ES_OPCODE =>
      es_index_value data
        (ie_set_index (ie_set_state (ie_set_table ctx (rd data 0 .& 0x40)) XQC_INS_ES_STATE_INDEX) (xqc_prefixed_int_init 6))
  | XQC_INS_ES_STATE_INDEX => es_index_value data ctx
  | XQC_INS_ES_STATE_VALUE => es_value data 0 ctx
  | _ => (Err XQC_QPACK_DECODER_ERROR, ctx)
  end.

(** [case XQC_INS_ES_STATE_NAME], down to the value. *)
Definition es_name_value (data : list Z) (ctx : xqc_ins_enc_ctx_t) : parse_out :=
  match xqc_parse_prefixed_str mem junk (ie_name ctx) data with
  | (Err e, p) => (Err e, ie_set_name ctx p)
  | (Ok (read, fin), p) =>
      let ctx := ie_set_name ctx p in
      let ctx := if fin : bool
                 then ie_set_value (ie_set_state ctx XQC_INS_ES_STATE_VALUE) (xqc_prefixed_str_init (ie_value ctx) 7)
                 else ctx in
      if read =? zlen data then (Ok read, ctx) else es_value data read ctx
  end.

Definition xqc_ins_parse_insert_literal_name (data : list Z) (ctx : xqc_ins_enc_ctx_t) : parse_out :=
  match ie_state ctx with
  | XQC_INS_ES_OPCODE =>
      es_name_value data (ie_set_name (ie_set_state ctx XQC_INS_ES_STATE_NAME) (xqc_prefixed_str_init (ie_name ctx) 5))
  | XQC_INS_ES_STATE_NAME => es_name_value data ctx
  | XQC_INS_ES_STATE_VALUE => es_value data 0 ctx
  | _ => (Err XQC_QPACK_DECODER_ERROR, ctx)
  end.

(** [case XQC_INS_ES_STATE_INDEX] of a duplicate. *)
Definition es_index (data : list Z) (ctx : xqc_ins_enc_ctx_t) : parse_out :=
  match xqc_prefixed_int_read (ie_name_index ctx) data with
  | (Err e, i) => (Err e, ie_set_index ctx i)
  | (Ok (read, fin), i) =>
      let ctx := ie_set_index ctx i in
      (Ok read, if fin : bool then ie_set_state ctx XQC_INS_ES_STATE_FINISH else ctx)
  end.

Definition xqc_ins_parse_duplicate (data : list Z) (ctx : xqc_ins_enc_ctx_t) : parse_out :=
  match ie_state ctx with
  | XQC_INS_ES_OPCODE => es_index data (ie_set_index (ie_set_state ctx XQC_INS_ES_STATE_INDEX) (xqc_prefixed_int_init 5))
  | XQC_INS_ES_STATE_INDEX => es_index data ctx
  | _ => (Err XQC_QPACK_DECODER_ERROR, ctx)
  end.

Definition xqc_ins_parse_encoder (data : list Z) (ctx : xqc_ins_enc_ctx_t) : parse_out :=
  let ctx := if ie_is_finish (ie_state ctx) then ie_set_state ctx XQC_INS_ES_OPCODE else ctx in
  let ctx := if ie_is_opcode (ie_state ctx) then ie_set_type ctx (xqc_ins_enc_type (rd data 0)) else ctx in
  let r :=
    match ie_type ctx with
    | XQC_INS_TYPE_ENC_SET_DTABLE_CAP => xqc_ins_parse_set_dtable_capacity data ctx
    | XQC_INS_TYPE_ENC_INSERT_NAME_REF => xqc_ins_parse_insert_name_reference data ctx
    | XQC_INS_TYPE_ENC_INSERT_LITERAL => xqc_ins_parse_insert_literal_name data ctx
    | XQC_INS_TYPE_ENC_DUP => xqc_ins_parse_duplicate data ctx
    end in
  match r with
  | (Err _, ctx) => (Err QPACK_ENCODER_STREAM_ERROR, ctx)
  | (Ok read, ctx) =>
      if (read <? zlen data) && negb (ie_is_finish (ie_state ctx)) then (Err QPACK_ENCODER_STREAM_ERROR, ctx) else (Ok read, ctx)
  end.

(** ** Parsing decoder instructions *)

Definition id_is_finish (s : xqc_ins_dec_stage_t) : bool := match s with XQC_INS_DS_STATE_FINISH => true | _ => false end.

(** One round of the loop at position [pos]; the first byte of the data gives the type. *)
Definition ds_round (data : list Z) (pos : Z) (ctx : xqc_ins_dec_ctx_t) : res Z * xqc_ins_dec_ctx_t :=
  match id_state ctx with
  | XQC_INS_DS_STATE_OPCODE =>
      let t := xqc_ins_decoder_type (rd data 0) in
      (Ok pos, match t with
               | XQC_INS_TYPE_DEC_SECTION_ACK =>
                   mk_dctx XQC_INS_DS_STATE_STREAM_ID t (xqc_prefixed_int_init 7) (id_increment ctx)
               | XQC_INS_TYPE_DEC_STREAM_CANCEL =>
                   mk_dctx XQC_INS_DS_STATE_STREAM_ID t (xqc_prefixed_int_init 6) (id_increment ctx)
               | XQC_INS_TYPE_DEC_INSERT_CNT_INC =>
                   mk_dctx XQC_INS_DS_STATE_INCREMENT t (id_stream_id ctx) (xqc_prefixed_int_init 6)
               end)
  | XQC_INS_DS_STATE_STREAM_ID =>
      match xqc_prefixed_int_read (id_stream_id ctx) (drop (Z.to_nat pos) data) with
      | (Err e, i) => (Err e, mk_dctx (id_state ctx) (id_type ctx) i (id_increment ctx))
      | (Ok (read, fin), i) =>
          (Ok (pos + read),
           mk_dctx (if fin : bool then XQC_INS_DS_STATE_FINISH else id_state ctx) (id_type ctx) i (id_increment ctx))
      end
  | XQC_INS_DS_STATE_INCREMENT =>
      match xqc_prefixed_int_read (id_increment ctx) (drop (Z.to_nat pos) data) with
      | (Err e, i) => (Err e, mk_dctx (id_state ctx) (id_type ctx) (id_stream_id ctx) i)
      | (Ok (read, fin), i) =>
          (Ok (pos + read),
           mk_dctx (if fin : bool then XQC_INS_DS_STATE_FINISH else id_state ctx) (id_type ctx) (id_stream_id ctx) i)
      end
  | XQC_INS_DS_STATE_FINISH => (Err XQC_QPACK_DECODER_ERROR, ctx)
  end.

(** [while (ctx->state != XQC_INS_DS_STATE_FINISH && pos < end)]: the type, then the integer. *)
Fixpoint ds_loop (fuel : nat) (data : list Z) (pos : Z) (ctx : xqc_ins_dec_ctx_t) : res Z * xqc_ins_dec_ctx_t :=
  match fuel with
  | O => (Ok pos, ctx)
  | S fuel =>
      if negb (id_is_finish (id_state ctx)) && (pos <? zlen data) then
        match ds_round data pos ctx with
        | (Err e, ctx) => (Err e, ctx)
        | (Ok pos, ctx) => ds_loop fuel data pos ctx
        end
      else (Ok pos, ctx)
  end.

Definition xqc_ins_parse_decoder (data : list Z) (ctx : xqc_ins_dec_ctx_t) : res Z * xqc_ins_dec_ctx_t :=
  let ctx := if id_is_finish (id_state ctx)
             then mk_dctx XQC_INS_DS_STATE_OPCODE (id_type ctx) (id_stream_id ctx) (id_increment ctx) else ctx in
  ds_loop (S (S (length data))) data 0 ctx.

(** ** Writing *)

(** [*pos = b] at the end of what is written, and an integer over it. *)
Definition put_first (buf : xqc_var_buf_t) (b v prefix : Z) : xqc_var_buf_t :=
  let pos := vb_data_len buf in
  let '(data, pos) := xqc_prefixed_int_put (wr (vb_data buf) pos [b]) pos v prefix in
  vb_write buf data pos.

(** [*pos = b]. *)
Definition put_byte (buf : xqc_var_buf_t) (b : Z) : xqc_var_buf_t :=
  vb_write buf (wr (vb_data buf) (vb_data_len buf) [b]) (vb_data_len buf).

(** An instruction that is one integer. *)
Definition write_int (buf : xqc_var_buf_t) (b v prefix : Z) : res unit * xqc_var_buf_t :=
  match xqc_var_buf_save_prepare mem junk buf (xqc_prefixed_int_put_len v prefix) with
  | (Err e, buf) => (Err e, buf)
  | (Ok _, buf) => (Ok tt, put_first buf b v prefix)
  end.

Definition xqc_ins_write_set_dtable_cap (buf : xqc_var_buf_t) (capacity : Z) := write_int buf 0x20 capacity 5.

Definition xqc_ins_write_insert_name_ref (buf : xqc_var_buf_t) (table index : Z) (value : list Z) : res unit * xqc_var_buf_t :=
  match xqc_var_buf_save_prepare mem junk buf
          (u64 (xqc_prefixed_int_put_len index 6 + xqc_prefixed_int_put_len (zlen value) 7 + zlen value)) with
  | (Err e, buf) => (Err e, buf)
  | (Ok _, buf) =>
      let buf := put_first buf (u8 (0x80 .| (table << 6))) index 6 in
      xqc_write_prefixed_str mem junk (put_byte buf 0) value 7
  end.

Definition xqc_ins_write_insert_literal_name (buf : xqc_var_buf_t) (name value : list Z) : res unit * xqc_var_buf_t :=
  match xqc_var_buf_save_prepare mem junk buf
          (u64 (xqc_prefixed_int_put_len (zlen name) 5 + zlen name + xqc_prefixed_int_put_len (zlen value) 7 + zlen value)) with
  | (Err e, buf) => (Err e, buf)
  | (Ok _, buf) =>
      match xqc_write_prefixed_str mem junk (put_byte buf 0x40) name 5 with
      | (Err e, buf) => (Err e, buf)
      | (Ok _, buf) => xqc_write_prefixed_str mem junk (put_byte buf 0) value 7
      end
  end.

Definition xqc_ins_write_dup (buf : xqc_var_buf_t) (index : Z) := write_int buf 0 index 5.
Definition xqc_ins_write_section_ack (buf : xqc_var_buf_t) (stream_id : Z) := write_int buf 0x80 stream_id 7.
Definition xqc_ins_write_stream_cancel (buf : xqc_var_buf_t) (stream_id : Z) := write_int buf 0x40 stream_id 6.
Definition xqc_ins_write_icnt_increment (buf : xqc_var_buf_t) (increment : Z) := write_int buf 0 increment 6.

End ops.

End QpackIns.
