(* ===== verification/QpackRep.v ===== *)
(** Field lines of an encoded field section (src/src/http3/qpack/xqc_rep.c): the prefix with the
    required insert count and the base, and the five representations of a field line. *)

From stdpp Require Import base numbers list.
From S2P Require Import Prelude RingArray RingMem VarBuf QpackInt PrefixedStr QpackIns.
Import RingArray RingMem VarBuf QpackInt PrefixedStr QpackIns.

Module QpackRep.

Definition XQC_DTABLE_FLAG : Z := 0.
Definition XQC_STABLE_FLAG : Z := 1.

(** ** Indices (src/src/http3/qpack/xqc_qpack_defs.h) *)

Definition xqc_pbrel2abs (base rel_idx : Z) : Z := u64 (rel_idx + base).
Definition xqc_brel2abs (base rel_idx : Z) : Z := u64 (base - rel_idx - 1).
Definition xqc_abs2pbrel (base abs_idx : Z) : Z := u64 (abs_idx - base).
Definition xqc_abs2brel (base abs_idx : Z) : Z := u64 (base - abs_idx - 1).

(** ** The context *)

Inductive xqc_rep_decode_state_t :=
| XQC_REP_DECODE_STATE_RICNT
| XQC_REP_DECODE_STATE_BASE_SIGN
| XQC_REP_DECODE_STATE_BASE
| XQC_REP_DECODE_STATE_OPCODE
| XQC_REP_DECODE_STATE_INDEX
| XQC_REP_DECODE_STATE_NAME
| XQC_REP_DECODE_STATE_VALUE
| XQC_REP_DECODE_STATE_FINISH.

Inductive xqc_rep_type_t :=
| XQC_REP_TYPE_INDEXED
| XQC_REP_TYPE_POST_BASE_INDEXED
| XQC_REP_TYPE_NAME_REFERENCE
| XQC_REP_TYPE_POST_BASE_NAME_REFERENCE
| XQC_REP_TYPE_LITERAL.

Record xqc_rep_ctx_t := mk_rctx {
  rc_state : xqc_rep_decode_state_t;
  rc_stream_id : Z;
  rc_ric : xqc_prefixed_int_t;
  rc_sign : Z;
  rc_base : xqc_prefixed_int_t;
  rc_type : xqc_rep_type_t;
  rc_never : Z;
  rc_table : Z;
  rc_name : xqc_prefixed_str_t;
  rc_index : xqc_prefixed_int_t;
  rc_value : xqc_prefixed_str_t;
}.

Definition rc_set_state c s := mk_rctx s (rc_stream_id c) (rc_ric c) (rc_sign c) (rc_base c) (rc_type c) (rc_never c) (rc_table c) (rc_name c) (rc_index c) (rc_value c).
Definition rc_set_ric c i := mk_rctx (rc_state c) (rc_stream_id c) i (rc_sign c) (rc_base c) (rc_type c) (rc_never c) (rc_table c) (rc_name c) (rc_index c) (rc_value c).
Definition rc_set_sign c s := mk_rctx (rc_state c) (rc_stream_id c) (rc_ric c) s (rc_base c) (rc_type c) (rc_never c) (rc_table c) (rc_name c) (rc_index c) (rc_value c).
Definition rc_set_base c i := mk_rctx (rc_state c) (rc_stream_id c) (rc_ric c) (rc_sign c) i (rc_type c) (rc_never c) (rc_table c) (rc_name c) (rc_index c) (rc_value c).
Definition rc_set_type c t := mk_rctx (rc_state c) (rc_stream_id c) (rc_ric c) (rc_sign c) (rc_base c) t (rc_never c) (rc_table c) (rc_name c) (rc_index c) (rc_value c).
Definition rc_set_never c n := mk_rctx (rc_state c) (rc_stream_id c) (rc_ric c) (rc_sign c) (rc_base c) (rc_type c) n (rc_table c) (rc_name c) (rc_index c) (rc_value c).
Definition rc_set_table c t := mk_rctx (rc_state c) (rc_stream_id c) (rc_ric c) (rc_sign c) (rc_base c) (rc_type c) (rc_never c) t (rc_name c) (rc_index c) (rc_value c).
Definition rc_set_name c p := mk_rctx (rc_state c) (rc_stream_id c) (rc_ric c) (rc_sign c) (rc_base c) (rc_type c) (rc_never c) (rc_table c) p (rc_index c) (rc_value c).
Definition rc_set_index c i := mk_rctx (rc_state c) (rc_stream_id c) (rc_ric c) (rc_sign c) (rc_base c) (rc_type c) (rc_never c) (rc_table c) (rc_name c) i (rc_value c).
Definition rc_set_value c p := mk_rctx (rc_state c) (rc_stream_id c) (rc_ric c) (rc_sign c) (rc_base c) (rc_type c) (rc_never c) (rc_table c) (rc_name c) (rc_index c) p.

(** The order of the states in the enumeration. *)
Definition state_rank (s : xqc_rep_decode_state_t) : Z :=
  match s with
  | XQC_REP_DECODE_STATE_RICNT => 0
  | XQC_REP_DECODE_STATE_BASE_SIGN => 1
  | XQC_REP_DECODE_STATE_BASE => 2
  | XQC_REP_DECODE_STATE_OPCODE => 3
  | XQC_REP_DECODE_STATE_INDEX => 4
  | XQC_REP_DECODE_STATE_NAME => 5
  | XQC_REP_DECODE_STATE_VALUE => 6
  | XQC_REP_DECODE_STATE_FINISH => 7
  end.

Definition rc_is_finish (s : xqc_rep_decode_state_t) : bool := match s with XQC_REP_DECODE_STATE_FINISH => true | _ => false end.
Definition rc_is_opcode (s : xqc_rep_decode_state_t) : bool := match s with XQC_REP_DECODE_STATE_OPCODE => true | _ => false end.

Definition xqc_rep_ctx_clear_rep (ctx : xqc_rep_ctx_t) : xqc_rep_ctx_t :=
  mk_rctx XQC_REP_DECODE_STATE_OPCODE (rc_stream_id ctx) (rc_ric ctx) (rc_sign ctx) (rc_base ctx) (rc_type ctx) (rc_never ctx)
    (rc_table ctx) (xqc_prefixed_str_init (rc_name ctx) 0) (xqc_prefixed_int_init 0) (xqc_prefixed_str_init (rc_value ctx) 0).

Definition xqc_rep_ctx_clear (ctx : xqc_rep_ctx_t) : xqc_rep_ctx_t :=
  mk_rctx XQC_REP_DECODE_STATE_RICNT (rc_stream_id ctx) (xqc_prefixed_int_init 0) (rc_sign ctx) (xqc_prefixed_int_init 0)
    (rc_type ctx) (rc_never ctx) (rc_table ctx) (xqc_prefixed_str_init (rc_name ctx) 0) (xqc_prefixed_int_init 0)
    (xqc_prefixed_str_init (rc_value ctx) 0).

Definition xqc_rep_get_ric (ctx : xqc_rep_ctx_t) : Z := pi_value (rc_ric ctx).

Definition xqc_rep_type (b : Z) : xqc_rep_type_t :=
  if negb (b .& 0x80 =? 0) then XQC_REP_TYPE_INDEXED
  else if negb (b .& 0x40 =? 0) then XQC_REP_TYPE_NAME_REFERENCE
  else if negb (b .& 0x20 =? 0) then XQC_REP_TYPE_LITERAL
  else if negb (b .& 0x10 =? 0) then XQC_REP_TYPE_POST_BASE_INDEXED
  else XQC_REP_TYPE_POST_BASE_NAME_REFERENCE.

(** ** The prefix of a field section *)

Definition set_pi_value (p : xqc_prefixed_int_t) (v : Z) : xqc_prefixed_int_t := mk_pi (pi_prefix p) (pi_shift p) v.

(** The value that is left in [ctx->ric] in any case, and whether it is accepted. *)
Definition xqc_rep_reconstruct_ric (v max_ents insert_cnt : Z) : res unit * Z :=
  if negb (v =? 0) then
    let full_range := u64 (2 * max_ents) in
    if full_range <? v then (Err XQC_QPACK_DECODER_ERROR, v)
    else
      let max_value := u64 (insert_cnt + max_ents) in
      let max_wrapped := u64 (max_value / full_range * full_range) in
      let v := u64 (max_wrapped + v - 1) in
      if max_value <? v then
        if v <? full_range then (Err XQC_QPACK_DECODER_ERROR, v)
        else
          let v := u64 (v - full_range) in
          if v =? 0 then (Err XQC_QPACK_DECODER_ERROR, v) else (Ok tt, v)
      else if v =? 0 then (Err XQC_QPACK_DECODER_ERROR, v) else (Ok tt, v)
  else (Ok tt, v).

Definition rep_out : Type := res Z * xqc_rep_ctx_t.

(** [case XQC_REP_DECODE_STATE_BASE], from position [pos] on. *)
Definition rp_base (data : list Z) (pos : Z) (ctx : xqc_rep_ctx_t) : rep_out :=
  match xqc_prefixed_int_read (rc_base ctx) (drop (Z.to_nat pos) data) with
  | (Err e, i) => (Err e, rc_set_base ctx i)
  | (Ok (read, fin), i) =>
      if fin : bool then
        let ric := pi_value (rc_ric ctx) in
        let v := if rc_sign ctx =? 0 then u64 (ric + pi_value i) else u64 (ric - pi_value i - 1) in
        (Ok (pos + read), rc_set_state (rc_set_base ctx (set_pi_value i v)) XQC_REP_DECODE_STATE_OPCODE)
      else (Ok (pos + read), rc_set_base ctx i)
  end.

(** [case XQC_REP_DECODE_STATE_BASE_SIGN], and on. *)
Definition rp_sign (data : list Z) (pos : Z) (ctx : xqc_rep_ctx_t) : rep_out :=
  rp_base data pos
    (rc_set_base (rc_set_state (rc_set_sign ctx (rd data pos .& 0x80)) XQC_REP_DECODE_STATE_BASE) (xqc_prefixed_int_init 7)).

(** [case XQC_REP_DECODE_STATE_RICNT], and on. *)
Definition rp_ricnt (max_ents icnt : Z) (data : list Z) (ctx : xqc_rep_ctx_t) : rep_out :=
  match xqc_prefixed_int_read (rc_ric ctx) data with
  | (Err e, i) => (Err e, rc_set_ric ctx i)
  | (Ok (read, fin), i) =>
      if fin : bool then
        let '(r, v) := xqc_rep_reconstruct_ric (pi_value i) max_ents icnt in
        let ctx := rc_set_ric (rc_set_state ctx XQC_REP_DECODE_STATE_BASE_SIGN) (set_pi_value i v) in
        match r with
        | Err e => (Err e, ctx)
        | Ok _ => if zlen data <=? read then (Ok read, ctx) else rp_sign data read ctx
        end
      else (Ok read, rc_set_ric ctx i)
  end.

(** [switch (ctx->state)]. *)
Definition rp_switch (max_ents icnt : Z) (data : list Z) (ctx : xqc_rep_ctx_t) : rep_out :=
  match rc_state ctx with
  | XQC_REP_DECODE_STATE_RICNT => rp_ricnt max_ents icnt data ctx
  | XQC_REP_DECODE_STATE_BASE_SIGN => rp_sign data 0 ctx
  | XQC_REP_DECODE_STATE_BASE => rp_base data 0 ctx
  | _ => (Err XQC_QPACK_DECODER_ERROR, ctx)
  end.

Definition xqc_rep_decode_prefix (ctx : xqc_rep_ctx_t) (max_ents icnt : Z) (data : list Z) : rep_out :=
  if zlen data =? 0 then (Ok 0, ctx)
  else
    match rp_switch max_ents icnt data ctx with
    | (Err e, ctx) => (Err e, ctx)
    | (Ok pos, ctx) =>
        if (pos <? zlen data) && negb (rc_is_opcode (rc_state ctx)) then (Err XQC_QPACK_DECODER_ERROR, ctx) else (Ok pos, ctx)
    end.

Section ops.

Context (mem : bool) (junk : Z -> list Z).

Definition xqc_rep_ctx_create (stream_id : Z) : option xqc_rep_ctx_t :=
  if negb mem then None
  else
    name ← xqc_prefixed_str_pctx_create mem junk XQC_VAR_BUF_INIT_SIZE XQC_H3_MAX_FIELD_SECTION_SIZE;
    value ← xqc_prefixed_str_pctx_create mem junk XQC_VAR_BUF_INIT_SIZE XQC_H3_MAX_FIELD_SECTION_SIZE;
    Some (mk_rctx XQC_REP_DECODE_STATE_RICNT stream_id (mk_pi 0 0 0) 0 (mk_pi 0 0 0) XQC_REP_TYPE_INDEXED 0 0 name (mk_pi 0 0 0) value).

(** ** Field lines *)

(** [case XQC_REP_DECODE_STATE_INDEX] of a line that ends with it. *)
Definition rs_index (data : list Z) (ctx : xqc_rep_ctx_t) : rep_out :=
  match xqc_prefixed_int_read (rc_index ctx) data with
  | (Err e, i) => (Err e, rc_set_index ctx i)
  | (Ok (read, fin), i) =>
      let ctx := rc_set_index ctx i in
      (Ok read, if fin : bool then rc_set_state ctx XQC_REP_DECODE_STATE_FINISH else ctx)
  end.

(** [case XQC_REP_DECODE_STATE_VALUE], from position [pos] on. *)
Definition rs_value (data : list Z) (pos : Z) (ctx : xqc_rep_ctx_t) : rep_out :=
  match xqc_parse_prefixed_str mem junk (rc_value ctx) (drop (Z.to_nat pos) data) with
  | (Err e, p) => (Err e, rc_set_value ctx p)
  | (Ok (read, fin), p) =>
      let ctx := rc_set_value ctx p in
      (Ok (pos + read), if fin : bool then rc_set_state ctx XQC_REP_DECODE_STATE_FINISH else ctx)
  end.

(** The end of the index or the name: the value is next. *)
Definition rs_to_value (data : list Z) (read : Z) (fin : bool) (ctx : xqc_rep_ctx_t) : rep_out :=
  if fin then
    let ctx := rc_set_value (rc_set_state ctx XQC_REP_DECODE_STATE_VALUE) (xqc_prefixed_str_init (rc_value ctx) 7) in
    if read =? zlen data then (Ok read, ctx) else rs_value data read ctx
  else (Ok read, ctx).

(** [case XQC_REP_DECODE_STATE_INDEX] of a line with a value. *)
Definition rs_index_value (data : list Z) (ctx : xqc_rep_ctx_t) : rep_out :=
  match xqc_prefixed_int_read (rc_index ctx) data with
  | (Err e, i) => (Err e, rc_set_index ctx i)
  | (Ok (read, fin), i) => rs_to_value data read fin (rc_set_index ctx i)
  end.

(** [case XQC_REP_DECODE_STATE_NAME]. *)
Definition rs_name_value (data : list Z) (ctx : xqc_rep_ctx_t) : rep_out :=
  match xqc_parse_prefixed_str mem junk (rc_name ctx) data with
  | (Err e, p) => (Err e, rc_set_name ctx p)
  | (Ok (read, fin), p) => rs_to_value data read fin (rc_set_name ctx p)
  end.

Definition xqc_rep_decode_base_index (ctx : xqc_rep_ctx_t) (data : list Z) : rep_out :=
  if zlen data =? 0 then (Ok 0, ctx)
  else
    match rc_state ctx with
    | XQC_REP_DECODE_STATE_OPCODE =>
        let ctx := rc_set_table ctx (if negb (rd data 0 .& 0x40 =? 0) then XQC_STABLE_FLAG else XQC_DTABLE_FLAG) in
        rs_index data (rc_set_index (rc_set_state ctx XQC_REP_DECODE_STATE_INDEX) (xqc_prefixed_int_init 6))
    | XQC_REP_DECODE_STATE_INDEX => rs_index data ctx
    | _ => (Err XQC_QPACK_DECODER_ERROR, ctx)
    end.

Definition xqc_rep_decode_post_base_index (ctx : xqc_rep_ctx_t) (data : list Z) : rep_out :=
  if zlen data =? 0 then (Ok 0, ctx)
  else
    match rc_state ctx with
    | XQC_REP_DECODE_STATE_OPCODE =>
        let ctx := rc_set_table (rc_set_state ctx XQC_REP_DECODE_STATE_INDEX) XQC_DTABLE_FLAG in
        rs_index data (rc_set_index ctx (xqc_prefixed_int_init 4))
    | XQC_REP_DECODE_STATE_INDEX => rs_index data ctx
    | _ => (Err XQC_QPACK_DECODER_ERROR, ctx)
    end.

Definition xqc_rep_decode_name_reference (ctx : xqc_rep_ctx_t) (data : list Z) : rep_out :=
  if zlen data =? 0 then (Ok 0, ctx)
  else
    match rc_state ctx with
    | XQC_REP_DECODE_STATE_OPCODE =>
        let ctx := rc_set_never ctx (rd data 0 .& 0x20) in
        let ctx := rc_set_table ctx (if negb (rd data 0 .& 0x10 =? 0) then XQC_STABLE_FLAG else XQC_DTABLE_FLAG) in
        rs_index_value data (rc_set_index (rc_set_state ctx XQC_REP_DECODE_STATE_INDEX) (xqc_prefixed_int_init 4))
    | XQC_REP_DECODE_STATE_INDEX => rs_index_value data ctx
    | XQC_REP_DECODE_STATE_VALUE => rs_value data 0 ctx
    | _ => (Err XQC_QPACK_DECODER_ERROR, ctx)
    end.

Definition xqc_rep_decode_post_base_name_reference (ctx : xqc_rep_ctx_t) (data : list Z) : rep_out :=
  if zlen data =? 0 then (Ok 0, ctx)
  else
    match rc_state ctx with
    | XQC_REP_DECODE_STATE_OPCODE =>
        let ctx := rc_set_table (rc_set_never ctx (rd data 0 .& 0x08)) XQC_DTABLE_FLAG in
        rs_index_value data (rc_set_index (rc_set_state ctx XQC_REP_DECODE_STATE_INDEX) (xqc_prefixed_int_init 3))
    | XQC_REP_DECODE_STATE_INDEX => rs_index_value data ctx
    | XQC_REP_DECODE_STATE_VALUE => rs_value data 0 ctx
    | _ => (Err XQC_QPACK_DECODER_ERROR, ctx)
    end.

Definition xqc_rep_decode_literal (ctx : xqc_rep_ctx_t) (data : list Z) : rep_out :=
  if zlen data =? 0 then (Ok 0, ctx)
  else
    match rc_state ctx with
    | XQC_REP_DECODE_STATE_OPCODE =>
        let ctx := rc_set_never ctx (rd data 0 .& 0x10) in
        rs_name_value data (rc_set_state (rc_set_name ctx (xqc_prefixed_str_init (rc_name ctx) 3)) XQC_REP_DECODE_STATE_NAME)
    | XQC_REP_DECODE_STATE_NAME => rs_name_value data ctx
    | XQC_REP_DECODE_STATE_VALUE => rs_value data 0 ctx
    | _ => (Err XQC_QPACK_DECODER_ERROR, ctx)
    end.

(** After a line: a relative index becomes an absolute one. *)
Definition to_abs (conv : Z -> Z -> Z) (r : rep_out) : rep_out :=
  match r with
  | (Err e, ctx) => (Err e, ctx)
  | (Ok read, ctx) =>
      (Ok read,
       if rc_is_finish (rc_state ctx) && (rc_table ctx =? XQC_DTABLE_FLAG)
       then rc_set_index ctx (set_pi_value (rc_index ctx) (conv (pi_value (rc_base ctx)) (pi_value (rc_index ctx)))) else ctx)
  end.

Definition xqc_rep_decode_field_line (ctx : xqc_rep_ctx_t) (data : list Z) : rep_out :=
  if zlen data =? 0 then (Ok 0, ctx)
  else
    let ctx := if rc_is_opcode (rc_state ctx) then rc_set_type ctx (xqc_rep_type (rd data 0)) else ctx in
    match rc_type ctx with
    | XQC_REP_TYPE_INDEXED => to_abs xqc_brel2abs (xqc_rep_decode_base_index ctx data)
    | XQC_REP_TYPE_POST_BASE_INDEXED => to_abs xqc_pbrel2abs (xqc_rep_decode_post_base_index (rc_set_table ctx 0) data)
    | XQC_REP_TYPE_NAME_REFERENCE => to_abs xqc_brel2abs (xqc_rep_decode_name_reference ctx data)
    | XQC_REP_TYPE_POST_BASE_NAME_REFERENCE =>
        to_abs xqc_pbrel2abs (xqc_rep_decode_post_base_name_reference (rc_set_table ctx 0) data)
    | XQC_REP_TYPE_LITERAL => xqc_rep_decode_literal ctx data
    end.

(** ** Writing *)

Definition xqc_rep_encode_ricnt (max_ents ricnt : Z) : Z :=
  if ricnt =? 0 then 0 else u64 (ricnt mod u64 (2 * max_ents) + 1).

Definition xqc_rep_write_prefix (buf : xqc_var_buf_t) (max_ents ricnt base : Z) : res unit * xqc_var_buf_t :=
  let enc_ricnt := xqc_rep_encode_ricnt max_ents ricnt in
  let '(s, dbase) := if ricnt <=? base then (0, u64 (base - ricnt)) else (1, u64 (ricnt - 1 - base)) in
  match xqc_var_buf_save_prepare mem junk buf (xqc_prefixed_int_put_len enc_ricnt 8 + xqc_prefixed_int_put_len dbase 7) with
  | (Err e, buf) => (Err e, buf)
  | (Ok _, buf) =>
      let '(data, pos) := xqc_prefixed_int_put (vb_data buf) (vb_data_len buf) enc_ricnt 8 in
      (Ok tt, put_first (vb_write buf data pos) (u8 (s << 7)) dbase 7)
  end.

Definition xqc_rep_write_indexed (buf : xqc_var_buf_t) (t idx : Z) : res unit * xqc_var_buf_t :=
  write_int mem junk buf (u8 (0x80 .| (t << 6))) idx 6.

Definition xqc_rep_write_indexed_pb (buf : xqc_var_buf_t) (idx : Z) : res unit * xqc_var_buf_t :=
  write_int mem junk buf 0x10 idx 4.

Definition xqc_rep_write_literal_with_name_ref (buf : xqc_var_buf_t) (n t nidx : Z) (value : list Z) : res unit * xqc_var_buf_t :=
  match xqc_var_buf_save_prepare mem junk buf
          (u64 (xqc_prefixed_int_put_len nidx 4 + xqc_prefixed_int_put_len (zlen value) 7 + zlen value)) with
  | (Err e, buf) => (Err e, buf)
  | (Ok _, buf) =>
      let buf := put_first buf (u8 (0x40 .| (n << 5) .| (t << 4))) nidx 4 in
      xqc_write_prefixed_str mem junk (put_byte buf 0) value 7
  end.

Definition xqc_rep_write_literal_with_pb_name_ref (buf : xqc_var_buf_t) (n nidx : Z) (value : list Z) : res unit * xqc_var_buf_t :=
  match xqc_var_buf_save_prepare mem junk buf
          (u64 (xqc_prefixed_int_put_len nidx 3 + xqc_prefixed_int_put_len (zlen value) 7 + zlen value)) with
  | (Err e, buf) => (Err e, buf)
  | (Ok _, buf) =>
      let buf := put_first buf (u8 (n << 3)) nidx 3 in
      xqc_write_prefixed_str mem junk (put_byte buf 0) value 7
  end.

Definition xqc_rep_write_literal_name_value (buf : xqc_var_buf_t) (n : Z) (name value : list Z) : res unit * xqc_var_buf_t :=
  match xqc_var_buf_save_prepare mem junk buf
          (u64 (xqc_prefixed_int_put_len (zlen name) 3 + zlen name + xqc_prefixed_int_put_len (zlen value) 7 + zlen value)) with
  | (Err e, buf) => (Err e, buf)
  | (Ok _, buf) =>
      match xqc_write_prefixed_str mem junk (put_byte buf (u8 (0x20 .| (n << 4)))) name 3 with
      | (Err e, buf) => (Err e, buf)
      | (Ok _, buf) => xqc_write_prefixed_str mem junk (put_byte buf 0) value 7
      end
  end.

End ops.

End QpackRep.
