(* ===== verification/QpackField.v ===== *)
(** What the instructions and the field lines of QPACK are made of: an integer or a string that is
    appended to a buffer, and the parsers of both after a part of the bytes has been read. *)

From stdpp Require Import base numbers list.
From S2P Require Import Prelude RingArray RingMem VarBuf QpackInt HuffmanTable Huffman HuffmanSpec HuffmanTree PrefixedStr PrefixedStrSpec QpackIns.
Import RingArray RingMem VarBuf QpackInt HuffmanTable Huffman HuffmanSpec HuffmanTree PrefixedStr PrefixedStrSpec QpackIns.

Module QpackField.

(** ** Lengths *)

Lemma zlen_cont_mono f a b : 0 <= a <= b -> zlen (cont f a) <= zlen (cont f b).
Proof.
  revert a b. induction f as [|f IH]; intros a b Hab; cbn [cont]; [done|].
  case_if; case_if; zify_bools; rewrite ?zlen_cons, ?zlen_nil; try lia.
  - enough (zlen (cont f (a / 128)) <= zlen (cont f (b / 128))) by lia. apply IH. split; [apply Z.div_pos|apply Z.div_le_mono]; lia.
  - pose proof (zlen_nonneg (cont f (b / 128))). lia.
Qed.

Lemma zlen_enc_mono hi hi' a b n : 1 <= n <= 8 -> 0 <= a <= b -> zlen (enc_int hi a n) <= zlen (enc_int hi' b n).
Proof.
  intros Hn Hab. unfold enc_int. pose proof (pow_le_256 n Hn). case_if; case_if; zify_bools; rewrite ?zlen_cons, ?zlen_nil; try lia.
  - match goal with |- context [cont ?f ?x] => pose proof (zlen_nonneg (cont f x)) end. lia.
  - pose proof (zlen_cont_mono 10 (a - (2 ^ n - 1)) (b - (2 ^ n - 1)) ltac:(lia)). lia.
Qed.

Lemma enc_int_pos hi v n : 0 < zlen (enc_int hi v n).
Proof. destruct (enc_int_cons hi v n) as (x & l & ->). rewrite zlen_cons. pose proof (zlen_nonneg l). lia. Qed.

Lemma huff_bytes_len s : bytes_ok s -> zlen (huff_bytes s) = xqc_huffman_enc_len s.
Proof.
  intros Hs. pose proof (enc_len_nonneg s Hs).
  apply (huff_spec (replicate (Z.to_nat (xqc_huffman_enc_len s)) 0) 0 s); try done; unfold zlen; rewrite ?length_replicate; lia.
Qed.

(** The room that the callers make for a string is enough. *)
Lemma enc_str_len b n s : bytes_ok s -> 1 <= n <= 7 -> zlen s < 2 ^ 62 ->
  0 < zlen (enc_str b n s) <= xqc_prefixed_int_put_len (zlen s) n + zlen s.
Proof.
  intros Hs Hn Hl. unfold enc_str. pose proof (enc_len_nonneg s Hs). pose proof (zlen_nonneg s). pose proof (huff_bytes_len s Hs).
  case_if; zify_bools; rewrite zlen_app, (put_len_spec _ n 0) by lia.
  - pose proof (enc_int_pos (high_bits b (n + 1) + 2 ^ n) (xqc_huffman_enc_len s) n).
    pose proof (zlen_enc_mono (high_bits b (n + 1) + 2 ^ n) 0 (xqc_huffman_enc_len s) (zlen s) n ltac:(lia) ltac:(lia)). lia.
  - pose proof (enc_int_pos (high_bits b (n + 1)) (zlen s) n).
    pose proof (zlen_enc_mono (high_bits b (n + 1)) 0 (zlen s) (zlen s) n ltac:(lia) ltac:(lia)). lia.
Qed.

Lemma put_len_bound v n : 1 <= n <= 8 -> 0 <= v < 2 ^ 64 -> 0 < xqc_prefixed_int_put_len v n <= 11.
Proof.
  intros Hn Hv. rewrite (put_len_spec v n 0) by done. pose proof (enc_int_pos 0 v n). split; [done|]. unfold enc_int.
  case_if; rewrite zlen_cons, ?zlen_nil; [lia|]. enough (forall f x, zlen (cont f x) <= Z.of_nat f) as Hc.
  { pose proof (Hc 10%nat (v - (2 ^ n - 1))). lia. }
  clear. induction f as [|f IH]; intros x; cbn [cont]; [done|]. case_if; rewrite zlen_cons, ?zlen_nil; [|lia].
  specialize (IH (x / 128)). lia.
Qed.

(** ** Writing *)

(** The bytes [bs] were appended; the memory may have grown. *)
Definition grew (buf buf' : xqc_var_buf_t) (bs : list Z) : Prop :=
  vb_ok buf' /\ vb_bytes buf' = vb_bytes buf ++ bs /\ max_size buf' = max_size buf.

Lemma grew_refl buf : vb_ok buf -> grew buf buf [].
Proof. intros H. by split_and!; [|rewrite app_nil_r|]. Qed.

Lemma grew_trans b1 b2 b3 x y : grew b1 b2 x -> grew b2 b3 y -> grew b1 b3 (x ++ y).
Proof. intros (_ & H2 & H3) (K1 & K2 & K3). split_and!; [done|by rewrite K2, H2, app_assoc|congruence]. Qed.

Lemma grew_len buf buf' bs : vb_ok buf -> grew buf buf' bs -> vb_data_len buf' = vb_data_len buf + zlen bs.
Proof. intros Hok (H1 & H2 & _). rewrite <- !zlen_vb_bytes, H2, zlen_app by done. done. Qed.

Lemma appended_grew b1 b2 b3 x : vb_bytes b2 = vb_bytes b1 -> max_size b2 = max_size b1 -> appended b2 b3 x -> grew b1 b3 x.
Proof. intros H1 H2 (K1 & K2 & K3 & K4 & K5). split_and!; [done|congruence|congruence]. Qed.

Lemma appended_trans b1 b2 b3 x y : appended b1 b2 x -> appended b2 b3 y -> appended b1 b3 (x ++ y).
Proof.
  intros (H1 & H2 & H3 & H4 & H5) (K1 & K2 & K3 & K4 & K5).
  split_and!; [done|by rewrite K2, H2, app_assoc|rewrite zlen_app; lia|congruence|congruence].
Qed.

Lemma put_first_spec buf b v n : vb_ok buf -> is_byte b -> 1 <= n <= 8 -> 0 <= v ->
  let e := enc_int (high_bits b n) v n in
  vb_data_len buf + zlen e <= vb_buf_len buf -> appended buf (put_first buf b v n) e.
Proof.
  intros Hok Hb Hn Hv e Hfit. unfold put_first. pose proof Hok as [L1 L2 L3 L4].
  rewrite put_over by (try done; fold e; lia). fold e. destruct (write_app buf e Hok Hfit) as (H1 & H2 & H3). by split_and!.
Qed.

(** A byte in place, behind what is written. *)
Lemma put_byte_ok buf b : vb_ok buf -> vb_ok (put_byte buf b) /\ vb_bytes (put_byte buf b) = vb_bytes buf.
Proof.
  intros [L1 L2 L3 L4]. split; [split; simpl; rewrite ?zlen_wr; lia|]. unfold vb_bytes, put_byte. simpl.
  assert (zlen (sub_bytes (vb_data buf) 0 (vb_data_len buf)) = vb_data_len buf) as Hz by (apply zlen_sub_bytes; lia).
  rewrite <- Hz at 2. apply bytes_at_sub. apply bytes_at_wr_ne; [lia| |lia]. apply bytes_at_sub_bytes; lia.
Qed.

Lemma write_str_at junk buf b s n : vb_ok buf -> is_byte b -> bytes_ok s -> 1 <= n <= 7 -> zlen s < 2 ^ 62 ->
  vb_data_len buf + zlen (enc_str b n s) <= vb_buf_len buf ->
  exists buf', xqc_write_prefixed_str true junk (put_byte buf b) s n = (Ok tt, buf') /\ appended buf buf' (enc_str b n s).
Proof.
  intros Hok Hb Hs Hn Hl Hfit. destruct (put_byte_ok buf b Hok) as [Hok' Hby]. pose proof Hok as [L1 L2 L3 L4].
  pose proof (enc_str_len b n s Hs Hn Hl).
  assert (rd (vb_data (put_byte buf b)) (vb_data_len (put_byte buf b)) = b) as Hrd by (simpl; apply rd_wr_hd; lia).
  pose proof (write_str_spec true junk (put_byte buf b) s n Hok' Hs Hn Hl) as Hw. cbv zeta in Hw. rewrite Hrd in Hw.
  destruct (Hw Hb Hfit) as (buf' & -> & K1 & K2 & K3 & K4 & K5). exists buf'. split; [done|]. rewrite Hby in K2. by split_and!.
Qed.

Section write.

Context (junk : Z -> list Z) (Hjunk : forall n, 0 <= n -> zlen (junk n) = n).

Lemma write_int_spec buf b v n : vb_ok buf -> is_byte b -> 1 <= n <= 8 -> 0 <= v < 2 ^ 64 ->
  let e := enc_int (high_bits b n) v n in
  vb_data_len buf + zlen e <= max_size buf ->
  exists buf', write_int true junk buf b v n = (Ok tt, buf') /\ grew buf buf' e.
Proof.
  intros Hok Hb Hn Hv e Hfit. unfold write_int. rewrite (put_len_spec v n (high_bits b n)) by done. fold e.
  pose proof (enc_int_pos (high_bits b n) v n).
  destruct (save_prepare_spec junk Hjunk buf (zlen e) Hok ltac:(unfold e; lia) Hfit) as (b1 & -> & Hb1 & Hby & Hdl & Hcap & Hm & _).
  eexists. split; [done|]. apply (appended_grew _ b1); [done|done|]. apply put_first_spec; try done; try lia. fold e. lia.
Qed.

(** An integer and a string. *)
Lemma int_str_spec buf b i n value : vb_ok buf -> is_byte b -> 1 <= n <= 8 -> 0 <= i < 2 ^ 64 -> bytes_ok value -> zlen value < 2 ^ 62 ->
  vb_data_len buf + 32 + zlen value <= max_size buf ->
  exists buf',
  match xqc_var_buf_save_prepare true junk buf
          (u64 (xqc_prefixed_int_put_len i n + xqc_prefixed_int_put_len (zlen value) 7 + zlen value)) with
  | (Err e, buf) => (Err e, buf)
  | (Ok _, buf) => xqc_write_prefixed_str true junk (put_byte (put_first buf b i n) 0) value 7
  end = (Ok tt, buf') /\ grew buf buf' (enc_int (high_bits b n) i n ++ enc_str 0 7 value).
Proof.
  intros Hok Hb Hn Hi Hv Hl Hfit. pose proof (zlen_nonneg value). pose proof (put_len_bound i n Hn Hi).
  pose proof (put_len_bound (zlen value) 7 ltac:(lia) ltac:(lia)). pose proof (enc_str_len 0 7 value Hv ltac:(lia) Hl).
  rewrite u64_small by lia. set (room := _ + _ + _).
  destruct (save_prepare_spec junk Hjunk buf room Hok ltac:(unfold room; lia) ltac:(unfold room; lia)) as (b1 & -> & Hb1 & Hby & Hdl & Hcap & Hm & _).
  unfold room in Hcap. rewrite (put_len_spec i n (high_bits b n)) in Hcap by done.
  pose proof (put_first_spec b1 b i n Hb1 Hb Hn ltac:(lia) ltac:(lia)) as Hp. pose proof Hp as (P1 & P2 & P3 & P4 & P5).
  destruct (write_str_at junk (put_first b1 b i n) 0 value 7 P1 ltac:(by_decide) Hv ltac:(lia) Hl ltac:(lia)) as (b2 & -> & Hw).
  exists b2. split; [done|]. apply (appended_grew _ b1); [done|done|]. by apply (appended_trans _ (put_first b1 b i n)).
Qed.

(** Two strings. *)
Lemma str_str_spec buf b n name value : vb_ok buf -> is_byte b -> 1 <= n <= 7 -> bytes_ok name -> bytes_ok value ->
  zlen name < 2 ^ 61 -> zlen value < 2 ^ 61 -> vb_data_len buf + 32 + zlen name + zlen value <= max_size buf ->
  exists buf',
  match xqc_var_buf_save_prepare true junk buf
          (u64 (xqc_prefixed_int_put_len (zlen name) n + zlen name + xqc_prefixed_int_put_len (zlen value) 7 + zlen value)) with
  | (Err e, buf) => (Err e, buf)
  | (Ok _, buf) =>
      match xqc_write_prefixed_str true junk (put_byte buf b) name n with
      | (Err e, buf) => (Err e, buf)
      | (Ok _, buf) => xqc_write_prefixed_str true junk (put_byte buf 0) value 7
      end
  end = (Ok tt, buf') /\ grew buf buf' (enc_str b n name ++ enc_str 0 7 value).
Proof.
  intros Hok Hb Hn Hnm Hv Hln Hlv Hfit. pose proof (zlen_nonneg value). pose proof (zlen_nonneg name).
  pose proof (put_len_bound (zlen name) n ltac:(lia) ltac:(lia)). pose proof (put_len_bound (zlen value) 7 ltac:(lia) ltac:(lia)).
  pose proof (enc_str_len 0 7 value Hv ltac:(lia) ltac:(lia)). pose proof (enc_str_len b n name Hnm ltac:(lia) ltac:(lia)).
  rewrite u64_small by lia. set (room := _ + _ + _ + _).
  destruct (save_prepare_spec junk Hjunk buf room Hok ltac:(unfold room; lia) ltac:(unfold room; lia)) as (b1 & -> & Hb1 & Hby & Hdl & Hcap & Hm & _).
  unfold room in Hcap. destruct (write_str_at junk b1 b name n Hb1 Hb Hnm Hn ltac:(lia) ltac:(lia)) as (b2 & -> & Hw).
  pose proof Hw as (P1 & P2 & P3 & P4 & P5).
  destruct (write_str_at junk b2 0 value 7 P1 ltac:(by_decide) Hv ltac:(lia) ltac:(lia) ltac:(lia)) as (b3 & -> & Hw').
  exists b3. split; [done|]. apply (appended_grew _ b1); [done|done|]. by apply (appended_trans _ b2).
Qed.

End write.

(** ** Reading *)

(** Where a piece ends: inside the first of two parts, or not. *)
Lemma cut_cases {A} (a b d w : list A) : a ++ b = d ++ w -> a <> [] ->
  (exists k, k <> [] /\ a = d ++ k /\ w = k ++ b) \/ exists k, d = a ++ k /\ b = k ++ w.
Proof.
  intros H Ha. apply app_eq_inv in H as [(k & Hd & Hw)|(k & Hd & Hb)]; [|by right; exists k].
  destruct (decide (k = [])) as [->|]; [right; exists []|by left; exists k]. rewrite app_nil_r in *. by rewrite Hd, Hw.
Qed.

(** The parser of an integer has read [C] of its encoding, and there is more. *)
Definition int_left (b n v : Z) (pint : xqc_prefixed_int_t) (C : list Z) : Prop :=
  exists I2, enc_int (high_bits b n) v n = C ++ I2 /\ I2 <> [] /\ int_part n C pint.

Definition int_done_or (b n v : Z) (W : list Z) (pint : xqc_prefixed_int_t) (C : list Z) : Prop :=
  if bool_decide (W = []) then pi_value pint = v else int_left b n v pint C.

Lemma int_init_left b n v : int_left b n v (xqc_prefixed_int_init n) [].
Proof.
  exists (enc_int (high_bits b n) v n). split; [done|]. split; [|by unfold int_part].
  by destruct (enc_int_cons (high_bits b n) v n) as (x & l & ->).
Qed.

(** One read; [t] is what comes behind the integer. *)
Lemma int_step b n v pint C D W t : 1 <= n <= 8 -> is_byte b -> 0 <= v <= XQC_QPACK_INT_MAX -> int_left b n v pint C ->
  enc_int (high_bits b n) v n = C ++ D ++ W -> D <> [] -> (W <> [] -> t = []) ->
  exists pint', xqc_prefixed_int_read pint (D ++ t) = (Ok (zlen D, bool_decide (W = [])), pint')
  /\ int_done_or b n v W pint' (C ++ D).
Proof.
  intros Hn Hb Hv (I2 & HI & HI2 & Hpart) HW HD Ht. unfold int_done_or. destruct (bool_decide_reflect (W = [])) as [->|Hne].
  - rewrite app_nil_r in HW. destruct (read_last n b v C D t pint Hn Hb Hv HW HD Hpart) as (sh & ->). by eexists.
  - rewrite (Ht Hne), app_nil_r. destruct (read_more n b v C D W pint Hn Hb Hv HW HD Hne Hpart) as (pint' & -> & Hp).
    exists pint'. split; [done|]. exists W. by rewrite <- app_assoc.
Qed.

(** The same for a string. *)
Definition str_left (b n : Z) (s : list Z) (max : Z) (p : xqc_prefixed_str_t) (C : list Z) : Prop :=
  exists B huff b0, enc_str b n s = enc_int (high_bits b0 n) (zlen B) n ++ B /\ is_byte b0 /\ bytes_ok B /\ zlen B <= zlen s
  /\ (b0 .& (1 << n) =? 0) = negb huff /\ (huff = false -> B = s)
  /\ (huff = true -> exists p, tree_nibs root (nibbles B) = Some (s, p) /\ is_padding p = true)
  /\ reading B huff max n b0 p C.

(** A string is complete, or its parser is ready for the next bytes. *)
Definition str_is (s : list Z) (max : Z) (p : xqc_prefixed_str_t) : Prop :=
  reader_ok p /\ ps_max_str_len p = max /\ vb_bytes (ps_value p) = s.

Definition str_done_or (b n : Z) (s : list Z) (max : Z) (W : list Z) (p : xqc_prefixed_str_t) (C : list Z) : Prop :=
  if bool_decide (W = []) then str_is s max p else str_left b n s max p C.

Lemma str_init_left p b n s : is_byte b -> bytes_ok s -> 1 <= n <= 7 -> reader_ok p ->
  str_left b n s (ps_max_str_len p) (xqc_prefixed_str_init p n) [].
Proof.
  intros Hb Hs Hn Hp. destruct (enc_str_parts b n s Hb Hs Hn) as (B & huff & b0 & He & Hb0 & HB & HBs & _ & Hfl & Hpl & Hhf).
  exists B, huff, b0. split_and!; try done. by apply init_reading.
Qed.

Section read.

Context (junk : Z -> list Z) (Hjunk : forall n, 0 <= n -> zlen (junk n) = n).

Lemma str_step b n s max p C D W t : bytes_ok s -> 1 <= n <= 7 -> zlen s <= max < 2 ^ 62 -> str_left b n s max p C ->
  enc_str b n s = C ++ D ++ W -> D <> [] -> (W <> [] -> t = []) ->
  exists p', xqc_parse_prefixed_str true junk p (D ++ t) = (Ok (zlen D, bool_decide (W = [])), p')
  /\ str_done_or b n s max W p' (C ++ D).
Proof.
  intros Hs Hn Hmax (B & huff & b0 & He & Hb0 & HB & HBs & Hfl & Hpl & Hhf & Hr) HW HD Ht.
  rewrite He in HW.
  destruct (parse_step junk Hjunk s B huff max Hs HB Hmax ltac:(lia) Hpl Hhf n b0 Hn Hb0 HBs Hfl p C D W t Hr HW HD Ht) as (p' & -> & Hd).
  exists p'. split; [done|]. unfold done_or in Hd. unfold str_done_or. destruct (bool_decide (W = [])).
  - destruct Hd as [[O1 O2 O3] Hv]. split; [|done]. split; [done|]. rewrite O2. pose proof (zlen_nonneg s). lia.
  - exists B, huff, b0. by split_and!.
Qed.

Lemma drop_pre (pre l : list Z) : drop (Z.to_nat (zlen pre)) (pre ++ l) = l.
Proof. unfold zlen. by rewrite Nat2Z.id, drop_app_length. Qed.

(** A part [e1], an index or a name, and a value behind it. [run1] reads the first part, of which
    [I2] is left; [stay] and [next] are what the caller does when that part needs more, and when
    it is complete; the value is read with the parser [val] of the context. *)
Section two_parts.

Context {P Ctx : Type} (run1 : list Z -> res (Z * bool) * P) (stay next : P -> Ctx).
Context (val : Ctx -> xqc_prefixed_str_t) (setv : Ctx -> xqc_prefixed_str_t -> Ctx) (finish : Ctx -> Ctx).

Definition value_stage (data : list Z) (pos : Z) (c : Ctx) : res Z * Ctx :=
  match xqc_parse_prefixed_str true junk (val c) (drop (Z.to_nat pos) data) with
  | (Err e, p) => (Err e, setv c p)
  | (Ok (read, fin), p) => (Ok (pos + read), if fin : bool then finish (setv c p) else setv c p)
  end.

Definition two_stages (data : list Z) : res Z * Ctx :=
  match run1 data with
  | (Err e, p) => (Err e, stay p)
  | (Ok (read, fin), p) =>
      if fin : bool then if read =? zlen data then (Ok read, next p) else value_stage data read (next p) else (Ok read, stay p)
  end.

Context (v : list Z) (max : Z) (Hv : bytes_ok v) (Hl : zlen v <= max < 2 ^ 62).

Lemma value_stage_step c pre C D W t : str_left 0 7 v max (val c) C -> enc_str 0 7 v = C ++ D ++ W -> D <> [] -> (W <> [] -> t = []) ->
  exists p, value_stage (pre ++ D ++ t) (zlen pre) c
    = (Ok (zlen pre + zlen D), if bool_decide (W = []) then finish (setv c p) else setv c p) /\ str_done_or 0 7 v max W p (C ++ D).
Proof.
  intros Hleft HW HD Ht. unfold value_stage. rewrite drop_pre.
  destruct (str_step 0 7 v max _ C D W t Hv ltac:(lia) Hl Hleft HW HD Ht) as (p & -> & Hp). exists p. by destruct (bool_decide (W = [])).
Qed.

Lemma two_stages_step I2 D W t (L Dn : P -> Prop) : I2 <> [] -> I2 ++ enc_str 0 7 v = D ++ W -> D <> [] -> (W <> [] -> t = []) ->
  (forall k, k <> [] -> I2 = D ++ k -> exists p, run1 D = (Ok (zlen D, false), p) /\ L p) ->
  (forall u, exists p, run1 (I2 ++ u) = (Ok (zlen I2, true), p) /\ Dn p /\ str_left 0 7 v max (val (next p)) [] /\ setv (next p) (val (next p)) = next p) ->
  exists c', two_stages (D ++ t) = (Ok (zlen D), c')
  /\ ((W <> [] /\ exists p, c' = stay p /\ L p)
      \/ exists k p q, D = I2 ++ k /\ Dn p /\ c' = (if bool_decide (W = []) then finish (setv (next p) q) else setv (next p) q)
         /\ str_done_or 0 7 v max W q k).
Proof.
  intros HI2 HW HD Ht Hmore Hlast. unfold two_stages. apply cut_cases in HW as [(k & Hk & HDk & ->)|(k & -> & Hstr)]; [| |done].
  - assert (k ++ enc_str 0 7 v <> []) as Hne by (by destruct k). rewrite (Ht Hne), app_nil_r.
    destruct (Hmore k Hk HDk) as (p & -> & Hp). eexists. split; [done|]. left. split; [done|]. by exists p.
  - rewrite <- app_assoc. destruct (Hlast (k ++ t)) as (p & -> & Hp & Hsl & Heq). destruct (decide (k = [])) as [->|Hk].
    + simpl in Hstr. assert (W <> []) as HWn.
      { intros ->. pose proof (enc_str_len 0 7 v Hv ltac:(lia) ltac:(lia)) as Hpos. rewrite Hstr, zlen_nil in Hpos. lia. }
      rewrite (Ht HWn), !app_nil_r, Z.eqb_refl. exists (next p). split; [done|]. right. exists [], p, (val (next p)).
      unfold str_done_or. rewrite app_nil_r, bool_decide_eq_false_2 by done. by rewrite Heq.
    + replace (zlen I2 =? zlen (I2 ++ k ++ t)) with false.
      2:{ symmetry. apply Z.eqb_neq. rewrite !zlen_app. pose proof (zlen_nonneg t). destruct k; [done|]. rewrite zlen_cons. pose proof (zlen_nonneg k). lia. }
      destruct (value_stage_step (next p) I2 [] k W t Hsl Hstr Hk Ht) as (q & -> & Hq). rewrite zlen_app. eexists. split; [done|].
      right. by exists k, p, q.
Qed.

End two_parts.

End read.

Lemma str_left_ok b n s max p C : 0 <= max < 2 ^ 62 -> str_left b n s max p C -> reader_ok p /\ ps_max_str_len p = max.
Proof.
  intros Hm (B & huff & b0 & _ & _ & _ & _ & _ & _ & _ & Hr). assert (parser_ok max p) as [O1 O2 O3]; [|by unfold reader_ok; rewrite O2].
  destruct Hr as [_ ? _ _ _ _|I2 _ _ [? _ _ _ _] _ _|B1 B2 _ _ _ [? _ _ _ _ _ _]]; done.
Qed.

Lemma str_left_strict b n s max p C : str_left b n s max p C -> exists I2, enc_str b n s = C ++ I2 /\ I2 <> [].
Proof.
  intros (B & huff & b0 & He & _ & _ & _ & _ & _ & _ & Hr). destruct (reading_strict _ _ _ _ _ _ _ Hr) as (W2 & HW & Heq). exists W2. by rewrite He.
Qed.

(** ** The first byte *)

Lemma enc_int_hd b n v l : 1 <= n <= 8 -> 0 <= v -> is_byte b ->
  exists x rest, enc_int (high_bits b n) v n ++ l = (high_bits b n + x) :: rest /\ 0 <= x < 2 ^ n /\ is_byte (high_bits b n + x).
Proof.
  intros Hn Hv Hb. pose proof (pow_le_256 n Hn). pose proof (high_bits_range b n Hb Hn). unfold is_byte, enc_int in *.
  case_if; zify_bools; simpl; eexists _, _; (split; [done|lia]).
Qed.

Lemma enc_str_hd b n s l : is_byte b -> bytes_ok s -> 1 <= n <= 7 ->
  exists y rest, enc_str b n s ++ l = y :: rest /\ high_bits y (n + 1) = high_bits b (n + 1) /\ is_byte y.
Proof.
  intros Hb Hs Hn. destruct (enc_str_parts b n s Hb Hs Hn) as (B & huff & b0 & -> & Hb0 & HB & _ & Hhi & _).
  rewrite <- app_assoc. destruct (enc_int_hd b0 n (zlen B) (B ++ l) ltac:(lia) (zlen_nonneg B) Hb0) as (x & rest & -> & Hx & Hby).
  exists (high_bits b0 n + x), rest. split; [done|]. by rewrite high_bits_up by lia.
Qed.

(** The bits of a byte above the lowest [n] are those of its high part. *)
Lemma high_land y h n m : 1 <= n <= 8 -> is_byte y -> is_byte m -> high_bits y n = high_bits h n -> m mod 2 ^ n = 0 -> y .& m = h .& m.
Proof.
  intros Hn Hy Hm Heq Hmod. pose proof (pow_le_256 n Hn). apply Z.bits_inj'. intros i Hi. rewrite !Z.land_spec.
  destruct (Z.lt_ge_cases i n).
  - replace (Z.testbit m i) with false; [by rewrite !andb_false_r|]. symmetry.
    rewrite <- (Z.mod_pow2_bits_low m n i) by lia. by rewrite Hmod, Z.bits_0.
  - f_equal. unfold high_bits in Heq. rewrite !Z.mod_eq in Heq by lia.
    assert (y / 2 ^ n = h / 2 ^ n) as Hd by nia. replace i with (i - n + n) by lia.
    rewrite <- !Z.div_pow2_bits by lia. by rewrite Hd.
Qed.

End QpackField.
