(* ===== verification/QpackInsSpec.v ===== *)
(** Instructions of QPACK as values: what is written for one, and that a parser gets it back
    whatever pieces its bytes arrive in. *)

From stdpp Require Import base numbers list.
From S2P Require Import Prelude RingArray RingMem VarBuf QpackInt PrefixedStr PrefixedStrSpec QpackIns QpackField.
Import RingArray RingMem VarBuf QpackInt PrefixedStr PrefixedStrSpec QpackIns QpackField.

Module QpackInsSpec.

Abbreviation MAX := XQC_H3_MAX_FIELD_SECTION_SIZE.

Lemma max_ok : 0 <= MAX < 2 ^ 62.
Proof. split; by_decide. Qed.

(** ** Encoder instructions *)

Inductive enc_ins :=
| I_cap (c : Z)
| I_name_ref (static : bool) (i : Z) (v : list Z)
| I_literal (n v : list Z)
| I_dup (i : Z).

(** The first byte as the writer leaves it before the integer goes into it. *)
Definition ref_byte (static : bool) : Z := if static then 0xC0 else 0x80.

Definition ins_bytes (i : enc_ins) : list Z :=
  match i with
  | I_cap c => enc_int 0x20 c 5
  | I_name_ref s i v => enc_int (ref_byte s) i 6 ++ enc_str 0 7 v
  | I_literal n v => enc_str 0x40 5 n ++ enc_str 0 7 v
  | I_dup i => enc_int 0 i 5
  end.

Definition str_ok (s : list Z) : Prop := bytes_ok s /\ zlen s <= MAX.
Definition int_ok (v : Z) : Prop := 0 <= v <= XQC_QPACK_INT_MAX.

Definition ins_ok (i : enc_ins) : Prop :=
  match i with
  | I_cap c => int_ok c
  | I_name_ref _ i v => int_ok i /\ str_ok v
  | I_literal n v => str_ok n /\ str_ok v
  | I_dup i => int_ok i
  end.

Definition ins_type (i : enc_ins) : xqc_ins_enc_type_t :=
  match i with
  | I_cap _ => XQC_INS_TYPE_ENC_SET_DTABLE_CAP
  | I_name_ref _ _ _ => XQC_INS_TYPE_ENC_INSERT_NAME_REF
  | I_literal _ _ => XQC_INS_TYPE_ENC_INSERT_LITERAL
  | I_dup _ => XQC_INS_TYPE_ENC_DUP
  end.

Definition table_flag (i : enc_ins) : Z := match i with I_name_ref true _ _ => 0x40 | _ => 0 end.

(** *** Writing *)

(** Room for any instruction, and for any field line. *)
Definition ROOM : Z := 2 * MAX + 32.

Lemma int_len b v n : int_ok v -> 1 <= n <= 8 -> zlen (enc_int b v n) <= 11.
Proof.
  unfold int_ok, XQC_QPACK_INT_MAX. intros Hv Hn. pose proof (put_len_bound v n Hn ltac:(lia)) as Hl. rewrite (put_len_spec v n b) in Hl by lia. lia.
Qed.

Lemma str_len b n s : str_ok s -> 1 <= n <= 7 -> zlen (enc_str b n s) <= MAX + 11.
Proof.
  intros [Hs Hl] Hn. pose proof (zlen_nonneg s). assert (MAX = 32768) as HM by done. pose proof (enc_str_len b n s Hs Hn ltac:(lia)).
  pose proof (put_len_bound (zlen s) n ltac:(lia) ltac:(lia)). lia.
Qed.

Lemma ins_len i : ins_ok i -> zlen (ins_bytes i) <= ROOM.
Proof.
  assert (0 <= MAX) by done. unfold ROOM. destruct i as [c|s i v|n v|i]; simpl.
  - intros H1. pose proof (int_len 0x20 c 5 H1 ltac:(lia)). lia.
  - intros [H1 H2]. rewrite zlen_app. pose proof (int_len (ref_byte s) i 6 H1 ltac:(lia)). pose proof (str_len 0 7 v H2 ltac:(lia)). lia.
  - intros [H1 H2]. rewrite zlen_app. pose proof (str_len 0x40 5 n H1 ltac:(lia)). pose proof (str_len 0 7 v H2 ltac:(lia)). lia.
  - intros H1. pose proof (int_len 0 i 5 H1 ltac:(lia)). lia.
Qed.

Section write.

Context (junk : Z -> list Z) (Hjunk : forall n, 0 <= n -> zlen (junk n) = n).

(** The writer of an instruction. *)
Definition write_ins (buf : xqc_var_buf_t) (i : enc_ins) : res unit * xqc_var_buf_t :=
  match i with
  | I_cap c => xqc_ins_write_set_dtable_cap true junk buf c
  | I_name_ref s i v => xqc_ins_write_insert_name_ref true junk buf (if s then 1 else 0) i v
  | I_literal n v => xqc_ins_write_insert_literal_name true junk buf n v
  | I_dup i => xqc_ins_write_dup true junk buf i
  end.

Lemma write_ins_spec buf i : vb_ok buf -> ins_ok i -> vb_data_len buf + ROOM <= max_size buf ->
  exists buf', write_ins buf i = (Ok tt, buf') /\ grew buf buf' (ins_bytes i).
Proof.
  intros Hok Hi Hfit. unfold ROOM, int_ok, XQC_QPACK_INT_MAX in *.
  assert (MAX = 32768) as HM by done. rewrite HM in *.
  destruct i as [c|s i v|n v|i]; simpl in *; unfold int_ok, str_ok, XQC_QPACK_INT_MAX in *; rewrite ?HM in *.
  - apply (write_int_spec junk Hjunk buf 0x20 c 5); try done; try lia.
    pose proof (put_len_bound c 5 ltac:(lia) ltac:(lia)) as Hb. rewrite (put_len_spec c 5 (high_bits 0x20 5)) in Hb by lia. lia.
  - destruct Hi as (Hi & Hv & Hl). pose proof (zlen_nonneg v).
    destruct (int_str_spec junk Hjunk buf (ref_byte s) i 6 v Hok) as (buf' & Hw & Hg); try done; try lia; [by destruct s|].
    exists buf'. unfold xqc_ins_write_insert_name_ref. destruct s; exact (conj Hw Hg).
  - destruct Hi as ((Hn & Hln) & Hv & Hlv). pose proof (zlen_nonneg v). pose proof (zlen_nonneg n).
    apply (str_str_spec junk Hjunk buf 0x40 5 n v Hok); try done; try lia.
  - apply (write_int_spec junk Hjunk buf 0 i 5); try done; try lia.
    pose proof (put_len_bound i 5 ltac:(lia) ltac:(lia)) as Hb. rewrite (put_len_spec i 5 (high_bits 0 5)) in Hb by lia. lia.
Qed.

End write.

(** *** Reading *)

Lemma high_bits_id b n : b mod 2 ^ n = 0 -> high_bits b n = b.
Proof. unfold high_bits. lia. Qed.

Lemma int_hd b n v l : b mod 2 ^ n = 0 -> 1 <= n <= 8 -> 0 <= v -> is_byte b ->
  exists y rest, enc_int b v n ++ l = y :: rest /\ is_byte y /\ high_bits y n = high_bits b n.
Proof.
  intros Hm Hn Hv Hb. destruct (enc_int_hd b n v l Hn Hv Hb) as (x & rest & He & Hx & Hy). rewrite high_bits_id in * by done.
  exists (b + x), rest. split; [done|]. split; [done|]. pose proof (pow_le_256 n Hn). unfold high_bits.
  rewrite Z.add_mod, Hm, Z.add_0_l, Z.mod_mod, Z.mod_small by lia. lia.
Qed.

(** The first byte gives the type of the instruction and its flag. *)
Lemma ins_first i : ins_ok i ->
  exists y rest, ins_bytes i = y :: rest /\ xqc_ins_enc_type y = ins_type i /\ (ins_type i = XQC_INS_TYPE_ENC_INSERT_NAME_REF -> y .& 0x40 = table_flag i).
Proof.
  intros Hi. destruct i as [c|s i v|n v|i]; simpl in *; unfold int_ok in *.
  - destruct (int_hd 0x20 5 c [] eq_refl ltac:(lia) ltac:(lia) ltac:(by_decide)) as (y & rest & He & Hy & Hh). rewrite app_nil_r in He.
    exists y, rest. split; [done|]. split; [|done]. unfold xqc_ins_enc_type.
    by rewrite !(high_land y 0x20 5) by (lia || done || by_decide).
  - destruct Hi as (Hi & _). destruct (int_hd (ref_byte s) 6 i (enc_str 0 7 v)) as (y & rest & He & Hy & Hh); [by destruct s|lia|lia|by destruct s|].
    exists y, rest. split; [done|]. unfold xqc_ins_enc_type.
    rewrite !(high_land y (ref_byte s) 6) by (lia || done || by_decide). by destruct s.
  - destruct Hi as ((Hn & _) & _). destruct (enc_str_hd 0x40 5 n (enc_str 0 7 v) ltac:(by_decide) Hn ltac:(lia)) as (y & rest & He & Hh & Hy).
    exists y, rest. split; [done|]. split; [|done]. unfold xqc_ins_enc_type.
    by rewrite !(high_land y 0x40 6) by (lia || done || by_decide).
  - destruct (int_hd 0 5 i [] eq_refl ltac:(lia) ltac:(lia) ltac:(by_decide)) as (y & rest & He & Hy & Hh). rewrite app_nil_r in He.
    exists y, rest. split; [done|]. split; [|done]. unfold xqc_ins_enc_type.
    by rewrite !(high_land y 0 5) by (lia || done || by_decide).
Qed.

(** The context between two calls: its string parsers are usable. *)
Definition ectx_ok (c : xqc_ins_enc_ctx_t) : Prop :=
  reader_ok (ie_name c) /\ ps_max_str_len (ie_name c) = MAX /\ reader_ok (ie_value c) /\ ps_max_str_len (ie_value c) = MAX.

(** [C] of an instruction is read. *)
Definition ins_at (i : enc_ins) (c : xqc_ins_enc_ctx_t) (C : list Z) : Prop :=
  ectx_ok c /\ ie_type c = ins_type i /\
  match i with
  | I_cap v => ie_state c = XQC_INS_ES_CAPACITY /\ int_left 0x20 5 v (ie_capacity c) C
  | I_name_ref s i v =>
      ie_table c = table_flag (I_name_ref s i v)
      /\ (ie_state c = XQC_INS_ES_STATE_INDEX /\ int_left (ref_byte s) 6 i (ie_name_index c) C
          \/ exists C2, C = enc_int (ref_byte s) i 6 ++ C2 /\ ie_state c = XQC_INS_ES_STATE_VALUE /\ pi_value (ie_name_index c) = i
             /\ str_left 0 7 v MAX (ie_value c) C2)
  | I_literal n v =>
      ie_state c = XQC_INS_ES_STATE_NAME /\ str_left 0x40 5 n MAX (ie_name c) C
      \/ exists C2, C = enc_str 0x40 5 n ++ C2 /\ ie_state c = XQC_INS_ES_STATE_VALUE /\ str_is n MAX (ie_name c)
         /\ str_left 0 7 v MAX (ie_value c) C2
  | I_dup v => ie_state c = XQC_INS_ES_STATE_INDEX /\ int_left 0 5 v (ie_name_index c) C
  end.

(** The instruction is complete, and the context has its fields. *)
Definition ins_done (i : enc_ins) (c : xqc_ins_enc_ctx_t) : Prop :=
  ectx_ok c /\ ie_type c = ins_type i /\ ie_state c = XQC_INS_ES_STATE_FINISH /\
  match i with
  | I_cap v => pi_value (ie_capacity c) = v
  | I_name_ref s i v => ie_table c = table_flag (I_name_ref s i v) /\ pi_value (ie_name_index c) = i /\ vb_bytes (ps_value (ie_value c)) = v
  | I_literal n v => vb_bytes (ps_value (ie_name c)) = n /\ vb_bytes (ps_value (ie_value c)) = v
  | I_dup v => pi_value (ie_name_index c) = v
  end.

Definition ins_done_or (i : enc_ins) (W : list Z) (c : xqc_ins_enc_ctx_t) (C : list Z) : Prop :=
  if bool_decide (W = []) then ins_done i c else ins_at i c C.

Section read.

Context (junk : Z -> list Z) (Hjunk : forall n, 0 <= n -> zlen (junk n) = n).

(** The index of an insertion, and its value. *)
Lemma es_index_value_step s i v c C D W t : let ins := I_name_ref s i v in
  ins_ok ins -> ectx_ok c -> ie_type c = ins_type ins -> ie_table c = table_flag ins -> ie_state c = XQC_INS_ES_STATE_INDEX ->
  int_left (ref_byte s) 6 i (ie_name_index c) C -> ins_bytes ins = C ++ D ++ W -> D <> [] -> (W <> [] -> t = []) ->
  exists c', es_index_value true junk (D ++ t) c = (Ok (zlen D), c') /\ ins_done_or ins W c' (C ++ D).
Proof.
  intros ins (Hi & Hv & Hlv) Hc Hty Htab Hst Hleft HW HD Ht. pose proof Hc as (E1 & E2 & E3 & E4).
  assert (high_bits (ref_byte s) 6 = ref_byte s) as Hrb by (by destruct s). assert (is_byte (ref_byte s)) as Hby by (by destruct s).
  pose proof Hleft as (I2 & HI & HI2 & Hpart). simpl in HW. rewrite <- Hrb, HI, <- app_assoc in HW. apply app_inv_head in HW.
  pose (next p := let c := ie_set_index c p in ie_set_value (ie_set_state c XQC_INS_ES_STATE_VALUE) (xqc_prefixed_str_init (ie_value c) 7)).
  destruct (two_stages_step junk Hjunk (xqc_prefixed_int_read (ie_name_index c)) (ie_set_index c) next ie_value ie_set_value
    (fun c => ie_set_state c XQC_INS_ES_STATE_FINISH) v MAX Hv (conj Hlv (proj2 max_ok)) I2 D W t
    (fun p => int_left (ref_byte s) 6 i p (C ++ D)) (fun p => pi_value p = i) HI2 HW HD Ht) as (c' & Hr & Hres).
  - intros k Hk HDk. destruct (int_step (ref_byte s) 6 i (ie_name_index c) C D k []) as (p & Hp & Hl); try done; try lia; [by rewrite HI, HDk|].
    rewrite app_nil_r in Hp. unfold int_done_or in Hl. rewrite bool_decide_eq_false_2 in * by done. by exists p.
  - intros u. destruct (int_step (ref_byte s) 6 i (ie_name_index c) C I2 [] u) as (p & Hp & Hd); try done; try lia; [by rewrite app_nil_r|].
    exists p. split; [done|]. split; [done|]. split; [|done]. rewrite <- E4. apply str_init_left; [by_decide|done|lia|done].
  - exists c'. split; [exact Hr|]. unfold ins_done_or. destruct Hres as [[HWn (p & -> & Hp)]|(k & p & q & -> & Hp & -> & Hq)].
    + rewrite bool_decide_eq_false_2 by done. do 2 (split; [done|]). split; [done|]. left. by split.
    + unfold str_done_or in Hq. destruct (bool_decide_reflect (W = [])) as [->|HWn].
      * destruct Hq as (Q1 & Q2 & Q3). by split_and!.
      * destruct (str_left_ok 0 7 v MAX q k max_ok Hq) as [G1 G2]. do 2 (split; [done|]). split; [done|]. right.
        exists k. rewrite <- Hrb, HI, app_assoc. by split_and!.
Qed.

(** The name of an insertion, and its value. *)
Lemma es_name_value_step n v c C D W t : let ins := I_literal n v in
  ins_ok ins -> ectx_ok c -> ie_type c = ins_type ins -> ie_state c = XQC_INS_ES_STATE_NAME ->
  str_left 0x40 5 n MAX (ie_name c) C ->
  ins_bytes ins = C ++ D ++ W -> D <> [] -> (W <> [] -> t = []) ->
  exists c', es_name_value true junk (D ++ t) c = (Ok (zlen D), c') /\ ins_done_or ins W c' (C ++ D).
Proof.
  intros ins ((Hn & Hln) & Hv & Hlv) Hc Hty Hst Hleft HW HD Ht. destruct (str_left_strict _ _ _ _ _ _ Hleft) as (I2 & HI & HI2). pose proof Hc as (E1 & E2 & E3 & E4).
  simpl in HW. rewrite HI, <- app_assoc in HW. apply app_inv_head in HW.
  pose (next p := let c := ie_set_name c p in ie_set_value (ie_set_state c XQC_INS_ES_STATE_VALUE) (xqc_prefixed_str_init (ie_value c) 7)).
  assert (forall k, k <> [] -> I2 = D ++ k -> exists p, xqc_parse_prefixed_str true junk (ie_name c) D = (Ok (zlen D, false), p)
    /\ str_left 0x40 5 n MAX p (C ++ D)) as Hmore.
  { intros k Hk HDk. destruct (str_step junk Hjunk 0x40 5 n MAX (ie_name c) C D k []) as (p & Hp & Hl); try done; try lia; [by rewrite HI, HDk|].
    rewrite app_nil_r in Hp. unfold str_done_or in Hl. rewrite bool_decide_eq_false_2 in * by done. by exists p. }
  assert (forall u, exists p, xqc_parse_prefixed_str true junk (ie_name c) (I2 ++ u) = (Ok (zlen I2, true), p) /\ str_is n MAX p
    /\ str_left 0 7 v MAX (ie_value (next p)) [] /\ ie_set_value (next p) (ie_value (next p)) = next p) as Hlast.
  { intros u. destruct (str_step junk Hjunk 0x40 5 n MAX (ie_name c) C I2 [] u) as (p & Hp & Hd); try done; try lia; [by rewrite app_nil_r|].
    exists p. split; [done|]. split; [done|]. split; [|done]. rewrite <- E4. apply str_init_left; [by_decide|done|lia|done]. }
  destruct (two_stages_step junk Hjunk (xqc_parse_prefixed_str true junk (ie_name c)) (ie_set_name c) next ie_value ie_set_value
    (fun c => ie_set_state c XQC_INS_ES_STATE_FINISH) v MAX Hv (conj Hlv (proj2 max_ok)) I2 D W t _ _ HI2 HW HD Ht Hmore Hlast)
    as (c' & Hr & Hres).
  exists c'. split.
  { unfold two_stages in Hr. unfold es_name_value.
    assert (forall r p, xqc_parse_prefixed_str true junk (ie_name c) (D ++ t) = (Ok (r, false), p) -> r = zlen (D ++ t)) as Hall.
    { intros r p Hp. apply cut_cases in HW as [(k & Hk & HDk & ->)|(k & -> & _)]; [| |done].
      - rewrite Ht, app_nil_r in Hp |- * by (by destruct k). destruct (Hmore k Hk HDk) as (p' & Hp' & _). congruence.
      - rewrite <- app_assoc in Hp. destruct (Hlast (k ++ t)) as (p' & Hp' & _). congruence. }
    destruct (xqc_parse_prefixed_str true junk (ie_name c) (D ++ t)) as [[[r [|]]|] p]; [exact Hr| |exact Hr].
    rewrite (Hall r p eq_refl) in *. by rewrite Z.eqb_refl. }
  unfold ins_done_or. destruct Hres as [[HWn (p & -> & Hp)]|(k & p & q & -> & Hp & -> & Hq)].
  - rewrite bool_decide_eq_false_2 by done. destruct (str_left_ok 0x40 5 n MAX p (C ++ D) max_ok Hp) as [G1 G2]. do 2 (split; [by split_and?|]).
    left. by split.
  - pose proof Hp as (R1 & R2 & R3). unfold str_done_or in Hq. destruct (bool_decide_reflect (W = [])) as [->|HWn].
    + destruct Hq as (Q1 & Q2 & Q3). by split_and!.
    + destruct (str_left_ok 0 7 v MAX q k max_ok Hq) as [G1 G2]. do 2 (split; [by split_and?|]). right.
      exists k. rewrite HI, app_assoc. by split_and!.
Qed.

(** A single integer. *)
Lemma es_capacity_step v c C D W t : int_ok v -> ectx_ok c -> ie_type c = XQC_INS_TYPE_ENC_SET_DTABLE_CAP -> ie_state c = XQC_INS_ES_CAPACITY ->
  int_left 0x20 5 v (ie_capacity c) C -> enc_int 0x20 v 5 = C ++ D ++ W -> D <> [] -> (W <> [] -> t = []) ->
  exists c', es_capacity (D ++ t) c = (Ok (zlen D), c') /\ ins_done_or (I_cap v) W c' (C ++ D).
Proof.
  intros Hv Hc Hty Hst Hleft HW HD Ht. unfold es_capacity, ins_done_or.
  destruct (int_step 0x20 5 v (ie_capacity c) C D W t ltac:(lia) ltac:(by_decide) Hv Hleft HW HD Ht) as (p & -> & Hp).
  eexists. split; [done|]. unfold int_done_or in Hp. by destruct (bool_decide (W = [])); split_and!.
Qed.

Lemma es_index_step v c C D W t : int_ok v -> ectx_ok c -> ie_type c = XQC_INS_TYPE_ENC_DUP -> ie_state c = XQC_INS_ES_STATE_INDEX ->
  int_left 0 5 v (ie_name_index c) C -> enc_int 0 v 5 = C ++ D ++ W -> D <> [] -> (W <> [] -> t = []) ->
  exists c', es_index (D ++ t) c = (Ok (zlen D), c') /\ ins_done_or (I_dup v) W c' (C ++ D).
Proof.
  intros Hv Hc Hty Hst Hleft HW HD Ht. unfold es_index, ins_done_or.
  destruct (int_step 0 5 v (ie_name_index c) C D W t ltac:(lia) ltac:(by_decide) Hv Hleft HW HD Ht) as (p & -> & Hp).
  eexists. split; [done|]. unfold int_done_or in Hp. by destruct (bool_decide (W = [])); split_and!.
Qed.

(** The bytes [C] of an instruction are read; none of them when the context is between two. *)
Definition at_ins (i : enc_ins) (c : xqc_ins_enc_ctx_t) (C : list Z) : Prop :=
  (C = [] /\ ectx_ok c /\ (ie_state c = XQC_INS_ES_OPCODE \/ ie_state c = XQC_INS_ES_STATE_FINISH)) \/ ins_at i c C.

(** The parser of the instruction, once the type is known. *)
Definition parse_typed (data : list Z) (c : xqc_ins_enc_ctx_t) : parse_out :=
  match ie_type c with
  | XQC_INS_TYPE_ENC_SET_DTABLE_CAP => xqc_ins_parse_set_dtable_capacity data c
  | XQC_INS_TYPE_ENC_INSERT_NAME_REF => xqc_ins_parse_insert_name_reference true junk data c
  | XQC_INS_TYPE_ENC_INSERT_LITERAL => xqc_ins_parse_insert_literal_name true junk data c
  | XQC_INS_TYPE_ENC_DUP => xqc_ins_parse_duplicate data c
  end.

Lemma start_step i c D W t : ins_ok i -> ectx_ok c -> ie_state c = XQC_INS_ES_OPCODE -> ie_type c = ins_type i ->
  ins_bytes i = D ++ W -> D <> [] -> (W <> [] -> t = []) ->
  exists c', parse_typed (D ++ t) c = (Ok (zlen D), c') /\ ins_done_or i W c' D.
Proof.
  intros Hi Hc Hst Hty HW HD Ht. destruct (ins_first i Hi) as (y & rest & Hy & _ & Hfl). unfold parse_typed. rewrite Hty.
  assert (rd (D ++ t) 0 = y) as Hrd by (destruct D; [done|]; rewrite Hy in HW; by injection HW as <- _).
  pose proof Hc as (E1 & E2 & E3 & E4).
  destruct i as [v|s v u|n v|v]; simpl ins_type in *; cbn [ins_type] in *.
  - unfold xqc_ins_parse_set_dtable_capacity. rewrite Hst. apply (es_capacity_step v _ [] D W t); try done. apply int_init_left.
  - unfold xqc_ins_parse_insert_name_reference. rewrite Hst, Hrd, (Hfl eq_refl).
    apply (es_index_value_step s v u _ [] D W t); try done. apply int_init_left.
  - unfold xqc_ins_parse_insert_literal_name. rewrite Hst. pose proof Hi as ((Hn & _) & _).
    pose proof (str_init_left (ie_name c) 0x40 5 n ltac:(by_decide) Hn ltac:(lia) E1) as Hl. rewrite E2 in Hl.
    destruct (str_left_ok _ _ _ _ _ _ max_ok Hl) as [G1 G2].
    by apply (es_name_value_step n v _ [] D W t).
  - unfold xqc_ins_parse_duplicate. rewrite Hst. apply (es_index_step v _ [] D W t); try done. apply int_init_left.
Qed.

Lemma resume_step i c C D W t : ins_ok i -> ins_at i c C -> ins_bytes i = C ++ D ++ W -> D <> [] -> (W <> [] -> t = []) ->
  exists c', parse_typed (D ++ t) c = (Ok (zlen D), c') /\ ins_done_or i W c' (C ++ D).
Proof.
  intros Hi (Hc & Hty & Hat) HW HD Ht. unfold parse_typed. rewrite Hty. destruct i as [v|s v u|n v|v]; cbn [ins_type] in *.
  - destruct Hat as [Hst Hl]. unfold xqc_ins_parse_set_dtable_capacity. rewrite Hst. by apply es_capacity_step.
  - destruct Hat as [Htab [[Hst Hl]|(C2 & -> & Hst & Hv & Hl)]]; unfold xqc_ins_parse_insert_name_reference; rewrite Hst.
    + by apply es_index_value_step.
    + destruct Hi as (Hi & Hu & Hlu). simpl in HW. rewrite <- app_assoc in HW. apply app_inv_head in HW.
      destruct (value_stage_step junk Hjunk ie_value ie_set_value (fun c => ie_set_state c XQC_INS_ES_STATE_FINISH) u MAX Hu
        (conj Hlu (proj2 max_ok)) c [] C2 D W t Hl HW HD Ht) as (p & Hp & Hd).
      eexists. split; [exact Hp|]. unfold ins_done_or. unfold str_done_or in Hd. destruct Hc as (E1 & E2 & E3 & E4).
      destruct (bool_decide_reflect (W = [])) as [->|HWn]; [destruct Hd as (Q1 & Q2 & Q3); by split_and!|].
      destruct (str_left_ok _ _ _ _ _ _ max_ok Hd) as [G1 G2]. do 2 (split; [done|]). split; [done|]. right.
      exists (C2 ++ D). rewrite <- app_assoc. by split_and!.
  - destruct Hat as [[Hst Hl]|(C2 & -> & Hst & Hv & Hl)]; unfold xqc_ins_parse_insert_literal_name; rewrite Hst.
    + by apply es_name_value_step.
    + destruct Hi as (Hn & Hu & Hlu). simpl in HW. rewrite <- app_assoc in HW. apply app_inv_head in HW.
      destruct (value_stage_step junk Hjunk ie_value ie_set_value (fun c => ie_set_state c XQC_INS_ES_STATE_FINISH) v MAX Hu
        (conj Hlu (proj2 max_ok)) c [] C2 D W t Hl HW HD Ht) as (p & Hp & Hd).
      eexists. split; [exact Hp|]. unfold ins_done_or. unfold str_done_or in Hd. destruct Hc as (E1 & E2 & E3 & E4).
      destruct (bool_decide_reflect (W = [])) as [->|HWn]; [destruct Hd as (Q1 & Q2 & Q3), Hv as (R1 & R2 & R3); by split_and!|].
      destruct (str_left_ok _ _ _ _ _ _ max_ok Hd) as [G1 G2]. do 2 (split; [done|]). right.
      exists (C2 ++ D). rewrite <- app_assoc. by split_and!.
  - destruct Hat as [Hst Hl]. unfold xqc_ins_parse_duplicate. rewrite Hst. by apply es_index_step.
Qed.

(** One call of the parser. *)
Lemma ins_step i c C D W t : ins_ok i -> at_ins i c C -> ins_bytes i = C ++ D ++ W -> D <> [] -> (W <> [] -> t = []) ->
  exists c', xqc_ins_parse_encoder true junk (D ++ t) c = (Ok (zlen D), c') /\ ins_done_or i W c' (C ++ D).
Proof.
  intros Hi Hat HW HD Ht. unfold xqc_ins_parse_encoder. set (c1 := if ie_is_finish _ then _ else _). cbv zeta.
  set (c2 := if ie_is_opcode _ then _ else _). fold (parse_typed (D ++ t) c2).
  assert (exists c', parse_typed (D ++ t) c2 = (Ok (zlen D), c') /\ ins_done_or i W c' (C ++ D)) as (c' & -> & Hd).
  { destruct Hat as [(-> & Hc & Hst)|Hat].
    - assert (ectx_ok c1 /\ ie_state c1 = XQC_INS_ES_OPCODE) as [Hc1 Hs1] by (unfold c1; destruct Hst as [Hst|Hst]; by rewrite Hst).
      apply start_step; try done; unfold c2; rewrite Hs1; try done. cbn.
      destruct (ins_first i Hi) as (y & rest & Hy & <- & _). destruct D as [|z D]; [done|]. simpl in HW. rewrite Hy in HW. by injection HW as <- _.
    - assert (c2 = c) as ->; [|by apply resume_step].
      assert (ie_is_finish (ie_state c) = false /\ ie_is_opcode (ie_state c) = false) as [F1 F2].
      { destruct Hat as (_ & _ & Hat). destruct i; [destruct Hat as [-> _]|destruct Hat as [_ [[-> _]|(? & _ & -> & _)]]|
          destruct Hat as [[-> _]|(? & _ & -> & _)]|destruct Hat as [-> _]]; done. }
      unfold c2, c1. by rewrite F1, F2. }
  exists c'. split; [|done]. unfold ins_done_or in Hd. destruct (bool_decide_reflect (W = [])) as [->|HWn].
  - destruct Hd as (_ & _ & -> & _). by rewrite andb_false_r.
  - rewrite (Ht HWn), app_nil_r, Z.ltb_irrefl. done.
Qed.

End read.

(** ** Decoder instructions *)

Inductive dec_ins :=
| D_ack (stream_id : Z)
| D_cancel (stream_id : Z)
| D_inc (n : Z).

Definition dec_hi (d : dec_ins) : Z := match d with D_ack _ => 0x80 | D_cancel _ => 0x40 | D_inc _ => 0 end.
Definition dec_bits (d : dec_ins) : Z := match d with D_ack _ => 7 | _ => 6 end.
Definition dec_val (d : dec_ins) : Z := match d with D_ack v | D_cancel v | D_inc v => v end.
Definition dec_bytes (d : dec_ins) : list Z := enc_int (dec_hi d) (dec_val d) (dec_bits d).

Definition dec_type (d : dec_ins) : xqc_ins_dec_type_t :=
  match d with
  | D_ack _ => XQC_INS_TYPE_DEC_SECTION_ACK
  | D_cancel _ => XQC_INS_TYPE_DEC_STREAM_CANCEL
  | D_inc _ => XQC_INS_TYPE_DEC_INSERT_CNT_INC
  end.

(** The integer of an instruction in the context. *)
Definition dec_int (d : dec_ins) (c : xqc_ins_dec_ctx_t) : xqc_prefixed_int_t := match d with D_inc _ => id_increment c | _ => id_stream_id c end.

Definition dec_at (d : dec_ins) (c : xqc_ins_dec_ctx_t) (C : list Z) : Prop :=
  id_type c = dec_type d /\ id_state c = (match d with D_inc _ => XQC_INS_DS_STATE_INCREMENT | _ => XQC_INS_DS_STATE_STREAM_ID end)
  /\ int_left (dec_hi d) (dec_bits d) (dec_val d) (dec_int d c) C.

Definition dec_done (d : dec_ins) (c : xqc_ins_dec_ctx_t) : Prop :=
  id_type c = dec_type d /\ id_state c = XQC_INS_DS_STATE_FINISH /\ pi_value (dec_int d c) = dec_val d.

Definition dec_done_or (d : dec_ins) (W : list Z) (c : xqc_ins_dec_ctx_t) (C : list Z) : Prop :=
  if bool_decide (W = []) then dec_done d c else dec_at d c C.

Definition at_dec (d : dec_ins) (c : xqc_ins_dec_ctx_t) (C : list Z) : Prop :=
  (C = [] /\ (id_state c = XQC_INS_DS_STATE_OPCODE \/ id_state c = XQC_INS_DS_STATE_FINISH)) \/ dec_at d c C.

Lemma dec_hi_ok d : is_byte (dec_hi d) /\ high_bits (dec_hi d) (dec_bits d) = dec_hi d /\ 1 <= dec_bits d <= 8.
Proof. by destruct d. Qed.

(** The round that reads the integer. *)
Lemma ds_int_step d c C D W t : int_ok (dec_val d) -> dec_at d c C -> dec_bytes d = C ++ D ++ W -> D <> [] -> (W <> [] -> t = []) ->
  exists c', ds_round (D ++ t) 0 c = (Ok (zlen D), c') /\ dec_done_or d W c' (C ++ D).
Proof.
  intros Hv (Hty & Hst & Hl) HW HD Ht. destruct (dec_hi_ok d) as (Hb & Hh & Hn). unfold dec_bytes in HW. rewrite <- Hh in HW.
  destruct (int_step _ _ _ _ _ _ _ t Hn Hb Hv Hl HW HD Ht) as (p & Hr & Hor). unfold ds_round, dec_done_or. unfold int_done_or in Hor.
  change (drop (Z.to_nat 0) (D ++ t)) with (D ++ t). rewrite Hst. destruct d; cbn [dec_int] in Hr; rewrite Hr; destruct (bool_decide (W = [])); (eexists; split; [done|]); by split_and!.
Qed.

(** The loop after the integer. *)
Lemma ds_loop_end fuel d W c C pos data : dec_done_or d W c C -> (W <> [] -> pos = zlen data) -> ds_loop fuel data pos c = (Ok pos, c).
Proof.
  intros Hor HW. destruct fuel; [done|]. cbn [ds_loop]. unfold dec_done_or in Hor. destruct (bool_decide_reflect (W = [])) as [->|HWn].
  - by destruct Hor as (_ & -> & _).
  - by rewrite (HW HWn), Z.ltb_irrefl, andb_false_r.
Qed.

Lemma dec_first d l : int_ok (dec_val d) -> exists y rest, dec_bytes d ++ l = y :: rest /\ xqc_ins_decoder_type y = dec_type d.
Proof.
  intros [Hv _]. destruct (dec_hi_ok d) as (Hb & Hh & Hn). destruct (int_hd (dec_hi d) (dec_bits d) (dec_val d) l) as (y & rest & He & Hy & Hhi); try done; [by destruct d|].
  exists y, rest. split; [done|]. unfold xqc_ins_decoder_type.
  destruct d; cbn [dec_hi dec_bits] in *; rewrite (high_land y _ _ 128 Hn Hy ltac:(by_decide) Hhi eq_refl); [done|..];
    by rewrite (high_land y _ _ 64 Hn Hy ltac:(by_decide) Hhi eq_refl).
Qed.

(** One call of the parser. *)
Lemma dec_ins_step d c C D W t : int_ok (dec_val d) -> at_dec d c C -> dec_bytes d = C ++ D ++ W -> D <> [] -> (W <> [] -> t = []) ->
  exists c', xqc_ins_parse_decoder (D ++ t) c = (Ok (zlen D), c') /\ dec_done_or d W c' (C ++ D).
Proof.
  intros Hv Hat HW HD Ht. unfold xqc_ins_parse_decoder. assert (0 < zlen (D ++ t)) as Hz.
  { destruct D; [done|]. simpl. rewrite zlen_cons. pose proof (zlen_nonneg (D ++ t)). lia. }
  assert (W <> [] -> zlen D = zlen (D ++ t)) as Hend by (intros HWn; by rewrite (Ht HWn), app_nil_r).
  assert (forall c1 fuel, dec_at d c1 C -> exists c', ds_loop (S fuel) (D ++ t) 0 c1 = (Ok (zlen D), c') /\ dec_done_or d W c' (C ++ D)) as Hgo.
  { intros c1 fuel Hc1. destruct (ds_int_step d c1 C D W t Hv Hc1 HW HD Ht) as (c' & Hr & Hor). exists c'. split; [|done]. cbn [ds_loop].
    rewrite (proj2 (Z.ltb_lt _ _) Hz), Hr. assert (id_is_finish (id_state c1) = false) as -> by (destruct Hc1 as (_ & -> & _); by destruct d).
    by apply (ds_loop_end _ d W c' (C ++ D)). }
  destruct Hat as [(-> & Hst)|Hat].
  - set (c1 := if id_is_finish _ then _ else _). assert (id_state c1 = XQC_INS_DS_STATE_OPCODE) as Hc1 by (unfold c1; destruct Hst as [E|E]; by rewrite E).
    cbn [ds_loop]. rewrite Hc1, (proj2 (Z.ltb_lt _ _) Hz). cbn [negb id_is_finish andb]. unfold ds_round at 1. rewrite Hc1.
    destruct (dec_first d [] Hv) as (y & rest & Hy & Hty). rewrite app_nil_r in Hy. rewrite Hy in HW.
    assert (rd (D ++ t) 0 = y) as -> by (destruct D; [done|]; by injection HW as <- _). rewrite Hty. apply Hgo.
    destruct d; (split; [done|]; split; [done|]; apply int_init_left).
  - assert (id_is_finish (id_state c) = false) as -> by (destruct Hat as (_ & -> & _); by destruct d). by apply Hgo.
Qed.

(** The writer of a decoder instruction. *)
Definition write_dec (junk : Z -> list Z) (buf : xqc_var_buf_t) (d : dec_ins) : res unit * xqc_var_buf_t :=
  match d with
  | D_ack s => xqc_ins_write_section_ack true junk buf s
  | D_cancel s => xqc_ins_write_stream_cancel true junk buf s
  | D_inc n => xqc_ins_write_icnt_increment true junk buf n
  end.

Lemma write_dec_spec junk (Hjunk : forall n, 0 <= n -> zlen (junk n) = n) buf d : vb_ok buf -> int_ok (dec_val d) -> vb_data_len buf + 16 <= max_size buf ->
  exists buf', write_dec junk buf d = (Ok tt, buf') /\ grew buf buf' (dec_bytes d).
Proof.
  intros Hok Hv Hfit. destruct (dec_hi_ok d) as (Hb & Hh & Hn). unfold int_ok, XQC_QPACK_INT_MAX in Hv.
  destruct (write_int_spec junk Hjunk buf (dec_hi d) (dec_val d) (dec_bits d) Hok Hb Hn ltac:(lia)) as (buf' & Hw & Hg).
  - pose proof (put_len_bound (dec_val d) (dec_bits d) Hn ltac:(lia)) as Hl. rewrite (put_len_spec _ _ (high_bits (dec_hi d) (dec_bits d))) in Hl by lia. lia.
  - rewrite Hh in Hg. exists buf'. split; [|done]. destruct d; exact Hw.
Qed.

End QpackInsSpec.
