(* ===== verification/QpackRepSpec.v ===== *)
(** Field lines of QPACK as values: what is written for one, and that the parser gets it back
    whatever pieces its bytes arrive in. *)

From stdpp Require Import base numbers list.
From S2P Require Import Prelude RingArray RingMem VarBuf QpackInt PrefixedStr PrefixedStrSpec QpackIns QpackField QpackInsSpec QpackRep.
Import RingArray RingMem VarBuf QpackInt PrefixedStr PrefixedStrSpec QpackIns QpackField QpackInsSpec QpackRep.

Module QpackRepSpec.

(** A field line; the indices are those on the wire. *)
Inductive field_rep :=
| R_indexed (static : bool) (i : Z)
| R_indexed_pb (i : Z)
| R_name_ref (never static : bool) (i : Z) (v : list Z)
| R_pb_name_ref (never : bool) (i : Z) (v : list Z)
| R_literal (never : bool) (n v : list Z).

Definition bit (b : bool) (n : Z) : Z := if b then n else 0.

(** The bits of the first byte above the integer, or above the Huffman flag. *)
Definition line_hi (r : field_rep) : Z :=
  match r with
  | R_indexed s _ => 0x80 + bit s 0x40
  | R_indexed_pb _ => 0x10
  | R_name_ref n s _ _ => 0x40 + bit n 0x20 + bit s 0x10
  | R_pb_name_ref n _ _ => bit n 0x08
  | R_literal n _ _ => 0x20 + bit n 0x10
  end.

Definition line_bytes (r : field_rep) : list Z :=
  match r with
  | R_indexed _ i => enc_int (line_hi r) i 6
  | R_indexed_pb i => enc_int (line_hi r) i 4
  | R_name_ref _ _ i v => enc_int (line_hi r) i 4 ++ enc_str 0 7 v
  | R_pb_name_ref _ i v => enc_int (line_hi r) i 3 ++ enc_str 0 7 v
  | R_literal _ n v => enc_str (line_hi r) 3 n ++ enc_str 0 7 v
  end.

Definition line_ok (r : field_rep) : Prop :=
  match r with
  | R_indexed _ i | R_indexed_pb i => int_ok i
  | R_name_ref _ _ i v | R_pb_name_ref _ i v => int_ok i /\ str_ok v
  | R_literal _ n v => str_ok n /\ str_ok v
  end.

Definition line_type (r : field_rep) : xqc_rep_type_t :=
  match r with
  | R_indexed _ _ => XQC_REP_TYPE_INDEXED
  | R_indexed_pb _ => XQC_REP_TYPE_POST_BASE_INDEXED
  | R_name_ref _ _ _ _ => XQC_REP_TYPE_NAME_REFERENCE
  | R_pb_name_ref _ _ _ => XQC_REP_TYPE_POST_BASE_NAME_REFERENCE
  | R_literal _ _ _ => XQC_REP_TYPE_LITERAL
  end.

Definition line_table (r : field_rep) : Z :=
  match r with R_indexed true _ | R_name_ref _ true _ _ => XQC_STABLE_FLAG | _ => XQC_DTABLE_FLAG end.

(** ** Writing *)

Lemma line_len r : line_ok r -> zlen (line_bytes r) <= ROOM.
Proof.
  assert (0 <= MAX) by done. unfold ROOM. destruct r as [s i|i|n s i v|n i v|n name v]; simpl; try rewrite zlen_app.
  - intros H1. pose proof (int_len (128 + bit s 64) i 6 H1 ltac:(lia)). lia.
  - intros H1. pose proof (int_len 16 i 4 H1 ltac:(lia)). lia.
  - intros [H1 H2]. pose proof (int_len (64 + bit n 32 + bit s 16) i 4 H1 ltac:(lia)). pose proof (str_len 0 7 v H2 ltac:(lia)). lia.
  - intros [H1 H2]. pose proof (int_len (bit n 8) i 3 H1 ltac:(lia)). pose proof (str_len 0 7 v H2 ltac:(lia)). lia.
  - intros [H1 H2]. pose proof (str_len (32 + bit n 16) 3 name H1 ltac:(lia)). pose proof (str_len 0 7 v H2 ltac:(lia)). lia.
Qed.

Section write.

Context (junk : Z -> list Z) (Hjunk : forall n, 0 <= n -> zlen (junk n) = n).

Definition flag (b : bool) : Z := if b then 1 else 0.

(** The writer of a field line. *)
Definition write_rep (buf : xqc_var_buf_t) (r : field_rep) : res unit * xqc_var_buf_t :=
  match r with
  | R_indexed s i => xqc_rep_write_indexed true junk buf (flag s) i
  | R_indexed_pb i => xqc_rep_write_indexed_pb true junk buf i
  | R_name_ref n s i v => xqc_rep_write_literal_with_name_ref true junk buf (flag n) (flag s) i v
  | R_pb_name_ref n i v => xqc_rep_write_literal_with_pb_name_ref true junk buf (flag n) i v
  | R_literal n name v => xqc_rep_write_literal_name_value true junk buf (flag n) name v
  end.

Lemma write_rep_spec buf r : vb_ok buf -> line_ok r -> vb_data_len buf + ROOM <= max_size buf ->
  exists buf', write_rep buf r = (Ok tt, buf') /\ grew buf buf' (line_bytes r).
Proof.
  intros Hok Hr Hfit. assert (ROOM = 65568) as HR by done. rewrite HR in Hfit. assert (MAX = 32768) as HM by done.
  destruct r as [s i|i|n s i v|n i v|n name v]; simpl in Hr; unfold str_ok, int_ok, XQC_QPACK_INT_MAX in Hr; rewrite ?HM in Hr.
  - assert (is_byte (line_hi (R_indexed s i))) as Hb by (by destruct s).
    destruct (write_int_spec junk Hjunk buf (line_hi (R_indexed s i)) i 6) as (buf' & Hw & Hg); try done; try lia.
    { pose proof (put_len_bound i 6 ltac:(lia) ltac:(lia)) as Hp. rewrite (put_len_spec i 6 (high_bits (line_hi (R_indexed s i)) 6)) in Hp by lia. lia. }
    exists buf'. by destruct s.
  - apply (write_int_spec junk Hjunk buf 0x10 i 4); try done; try lia.
    pose proof (put_len_bound i 4 ltac:(lia) ltac:(lia)) as Hb. rewrite (put_len_spec i 4 (high_bits 0x10 4)) in Hb by lia. lia.
  - destruct Hr as (Hi & Hv & Hl). pose proof (zlen_nonneg v).
    destruct (int_str_spec junk Hjunk buf (line_hi (R_name_ref n s i v)) i 4 v Hok) as (buf' & Hw & Hg); try done; try lia; [by destruct n, s|].
    exists buf'. unfold write_rep, xqc_rep_write_literal_with_name_ref. by destruct n, s.
  - destruct Hr as (Hi & Hv & Hl). pose proof (zlen_nonneg v).
    destruct (int_str_spec junk Hjunk buf (line_hi (R_pb_name_ref n i v)) i 3 v Hok) as (buf' & Hw & Hg); try done; try lia; [by destruct n|].
    exists buf'. unfold write_rep, xqc_rep_write_literal_with_pb_name_ref. by destruct n.
  - destruct Hr as ((Hn & Hln) & Hv & Hlv). pose proof (zlen_nonneg v). pose proof (zlen_nonneg name).
    destruct (str_str_spec junk Hjunk buf (line_hi (R_literal n name v)) 3 name v Hok) as (buf' & Hw & Hg); try done; try lia; [by destruct n|].
    exists buf'. unfold write_rep, xqc_rep_write_literal_name_value. by destruct n.
Qed.

End write.

(** ** Reading *)

(** What the first byte gives. *)
Definition first_ok (r : field_rep) (y : Z) : Prop :=
  xqc_rep_type y = line_type r /\
  match r with
  | R_indexed _ _ => (if negb (y .& 0x40 =? 0) then XQC_STABLE_FLAG else XQC_DTABLE_FLAG) = line_table r
  | R_indexed_pb _ => True
  | R_name_ref n _ _ _ => y .& 0x20 = bit n 0x20 /\ (if negb (y .& 0x10 =? 0) then XQC_STABLE_FLAG else XQC_DTABLE_FLAG) = line_table r
  | R_pb_name_ref n _ _ => y .& 0x08 = bit n 0x08
  | R_literal n _ _ => y .& 0x10 = bit n 0x10
  end.

Lemma line_first r : line_ok r -> exists y rest, line_bytes r = y :: rest /\ first_ok r y.
Proof.
  intros Hr. destruct r as [s i|i|n s i v|n i v|n name v]; simpl in Hr; unfold int_ok, first_ok, xqc_rep_type in *.
  - destruct (int_hd (line_hi (R_indexed s i)) 6 i []) as (y & rest & He & Hy & Hh); [by destruct s|lia|lia|by destruct s|]. rewrite app_nil_r in He.
    exists y, rest. split; [done|]. rewrite !(high_land y (line_hi (R_indexed s i)) 6) by (lia || done || by_decide). by destruct s.
  - destruct (int_hd 0x10 4 i []) as (y & rest & He & Hy & Hh); [done|lia|lia|done|]. rewrite app_nil_r in He.
    exists y, rest. split; [done|]. by rewrite !(high_land y 0x10 4) by (lia || done || by_decide).
  - destruct (int_hd (line_hi (R_name_ref n s i v)) 4 i (enc_str 0 7 v)) as (y & rest & He & Hy & Hh); [by destruct n, s|lia|lia|by destruct n, s|].
    exists y, rest. split; [done|]. rewrite !(high_land y (line_hi (R_name_ref n s i v)) 4) by (lia || done || by_decide). by destruct n, s.
  - destruct (int_hd (line_hi (R_pb_name_ref n i v)) 3 i (enc_str 0 7 v)) as (y & rest & He & Hy & Hh); [by destruct n|lia|lia|by destruct n|].
    exists y, rest. split; [done|]. rewrite !(high_land y (line_hi (R_pb_name_ref n i v)) 3) by (lia || done || by_decide). by destruct n.
  - destruct Hr as ((Hn & _) & _).
    destruct (enc_str_hd (line_hi (R_literal n name v)) 3 name (enc_str 0 7 v)) as (y & rest & He & Hh & Hy); [by destruct n|done|lia|].
    exists y, rest. split; [done|]. rewrite !(high_land y (line_hi (R_literal n name v)) 4) by (lia || done || by_decide). by destruct n.
Qed.

Definition rctx_ok (c : xqc_rep_ctx_t) : Prop :=
  reader_ok (rc_name c) /\ ps_max_str_len (rc_name c) = MAX /\ reader_ok (rc_value c) /\ ps_max_str_len (rc_value c) = MAX.

(** The fields of the prefix. *)
Definition prefix_of (c : xqc_rep_ctx_t) : Z * xqc_prefixed_int_t * xqc_prefixed_int_t := (rc_stream_id c, rc_ric c, rc_base c).

(** The prefix length of the index. *)
Definition idx_bits (r : field_rep) : Z :=
  match r with R_indexed _ _ => 6 | R_indexed_pb _ | R_name_ref _ _ _ _ => 4 | _ => 3 end.

Definition line_idx (r : field_rep) : Z :=
  match r with R_indexed _ i | R_indexed_pb i | R_name_ref _ _ i _ | R_pb_name_ref _ i _ => i | R_literal _ _ _ => 0 end.

Definition line_value (r : field_rep) : list Z :=
  match r with R_name_ref _ _ _ v | R_pb_name_ref _ _ v | R_literal _ _ v => v | _ => [] end.

(** The N bit, as the parser of a line with a name reference keeps it. *)
Definition line_never (r : field_rep) : option Z :=
  match r with
  | R_name_ref n _ _ _ => Some (bit n 0x20)
  | R_pb_name_ref n _ _ => Some (bit n 0x08)
  | R_literal n _ _ => Some (bit n 0x10)
  | _ => None
  end.

Definition never_ok (r : field_rep) (c : xqc_rep_ctx_t) : Prop := match line_never r with Some n => rc_never c = n | None => True end.
Definition table_ok (r : field_rep) (c : xqc_rep_ctx_t) : Prop :=
  match r with R_literal _ _ _ => True | _ => rc_table c = line_table r end.

(** [C] of a field line is read. *)
Definition line_at (r : field_rep) (c : xqc_rep_ctx_t) (C : list Z) : Prop :=
  rctx_ok c /\ rc_type c = line_type r /\ never_ok r c /\ table_ok r c /\
  match r with
  | R_indexed _ i | R_indexed_pb i => rc_state c = XQC_REP_DECODE_STATE_INDEX /\ int_left (line_hi r) (idx_bits r) i (rc_index c) C
  | R_name_ref _ _ i v | R_pb_name_ref _ i v =>
      rc_state c = XQC_REP_DECODE_STATE_INDEX /\ int_left (line_hi r) (idx_bits r) i (rc_index c) C
      \/ exists C2, C = enc_int (line_hi r) i (idx_bits r) ++ C2 /\ rc_state c = XQC_REP_DECODE_STATE_VALUE /\ pi_value (rc_index c) = i
         /\ str_left 0 7 v MAX (rc_value c) C2
  | R_literal _ n v =>
      rc_state c = XQC_REP_DECODE_STATE_NAME /\ str_left (line_hi r) 3 n MAX (rc_name c) C
      \/ exists C2, C = enc_str (line_hi r) 3 n ++ C2 /\ rc_state c = XQC_REP_DECODE_STATE_VALUE /\ str_is n MAX (rc_name c)
         /\ str_left 0 7 v MAX (rc_value c) C2
  end.

(** The line is complete; the index is still the one on the wire. *)
Definition line_done (r : field_rep) (c : xqc_rep_ctx_t) : Prop :=
  rctx_ok c /\ rc_type c = line_type r /\ never_ok r c /\ table_ok r c /\ rc_state c = XQC_REP_DECODE_STATE_FINISH /\
  match r with
  | R_indexed _ i | R_indexed_pb i => pi_value (rc_index c) = i
  | R_name_ref _ _ i v | R_pb_name_ref _ i v => pi_value (rc_index c) = i /\ vb_bytes (ps_value (rc_value c)) = v
  | R_literal _ n v => vb_bytes (ps_value (rc_name c)) = n /\ vb_bytes (ps_value (rc_value c)) = v
  end.

Definition line_done_or (r : field_rep) (W : list Z) (c : xqc_rep_ctx_t) (C : list Z) : Prop :=
  if bool_decide (W = []) then line_done r c else line_at r c C.

(** Lines that start with an index. *)
Definition has_index (r : field_rep) : Prop := match r with R_literal _ _ _ => False | _ => True end.
Definition is_ref (r : field_rep) : Prop := match r with R_name_ref _ _ _ _ | R_pb_name_ref _ _ _ => True | _ => False end.

Lemma line_hi_ok r : has_index r -> is_byte (line_hi r) /\ high_bits (line_hi r) (idx_bits r) = line_hi r /\ 1 <= idx_bits r <= 8.
Proof. intros Hr. destruct r as [[]|i|[] []|[]|]; done. Qed.

Lemma is_ref_index r : is_ref r -> has_index r.
Proof. by destruct r. Qed.

Lemma ref_bytes r : is_ref r -> line_bytes r = enc_int (line_hi r) (line_idx r) (idx_bits r) ++ enc_str 0 7 (line_value r).
Proof. by destruct r. Qed.

Lemma ref_ok r : is_ref r -> line_ok r -> int_ok (line_idx r) /\ str_ok (line_value r).
Proof. by destruct r. Qed.

Section read.

Context (junk : Z -> list Z) (Hjunk : forall n, 0 <= n -> zlen (junk n) = n).

(** A line of an index and a value, after a part of the index. *)
Lemma rs_index_value_step r c C D W t P : is_ref r -> line_ok r -> rctx_ok c -> rc_type c = line_type r -> never_ok r c -> table_ok r c ->
  rc_state c = XQC_REP_DECODE_STATE_INDEX -> int_left (line_hi r) (idx_bits r) (line_idx r) (rc_index c) C ->
  line_bytes r = C ++ D ++ W -> D <> [] -> (W <> [] -> t = []) -> prefix_of c = P ->
  exists c', rs_index_value true junk (D ++ t) c = (Ok (zlen D), c') /\ line_done_or r W c' (C ++ D) /\ prefix_of c' = P.
Proof.
  intros Href Hok Hc Hty Hnv Htb Hst Hleft HW HD Ht HP. pose proof Hc as (E1 & E2 & E3 & E4).
  destruct (line_hi_ok r (is_ref_index r Href)) as (Hby & Hrb & Hbits). destruct (ref_ok r Href Hok) as (Hi & Hv & Hlv).
  pose proof Hleft as (I2 & HI & HI2 & Hpart). rewrite (ref_bytes r Href), <- Hrb, HI, <- app_assoc in HW. apply app_inv_head in HW.
  pose (next p := let c := rc_set_index c p in rc_set_value (rc_set_state c XQC_REP_DECODE_STATE_VALUE) (xqc_prefixed_str_init (rc_value c) 7)).
  destruct (two_stages_step junk Hjunk (xqc_prefixed_int_read (rc_index c)) (rc_set_index c) next rc_value rc_set_value
    (fun c => rc_set_state c XQC_REP_DECODE_STATE_FINISH) (line_value r) MAX Hv (conj Hlv (proj2 max_ok)) I2 D W t
    (fun p => int_left (line_hi r) (idx_bits r) (line_idx r) p (C ++ D)) (fun p => pi_value p = line_idx r) HI2 HW HD Ht) as (c' & Hr & Hres).
  - intros k Hk HDk. destruct (int_step (line_hi r) (idx_bits r) (line_idx r) (rc_index c) C D k []) as (p & Hp & Hl); try done; [by rewrite HI, HDk|].
    rewrite app_nil_r in Hp. unfold int_done_or in Hl. rewrite bool_decide_eq_false_2 in * by done. by exists p.
  - intros u. destruct (int_step (line_hi r) (idx_bits r) (line_idx r) (rc_index c) C I2 [] u) as (p & Hp & Hd); try done; [by rewrite app_nil_r|].
    exists p. split; [done|]. split; [done|]. split; [|done]. rewrite <- E4. apply str_init_left; [by_decide|done|lia|done].
  - exists c'. split; [exact Hr|]. unfold line_done_or. destruct Hres as [[HWn (p & -> & Hp)]|(k & p & q & -> & Hp & -> & Hq)].
    + rewrite bool_decide_eq_false_2 by done. split; [|done]. do 4 (split; [done|]). by destruct r; try done; left.
    + unfold str_done_or in Hq. destruct (bool_decide_reflect (W = [])) as [->|HWn].
      * destruct Hq as (Q1 & Q2 & Q3). split; [|done]. do 5 (split; [done|]). by destruct r.
      * destruct (str_left_ok 0 7 (line_value r) MAX q k max_ok Hq) as [G1 G2]. split; [|done]. do 4 (split; [done|]).
        assert (C ++ I2 ++ k = enc_int (line_hi r) (line_idx r) (idx_bits r) ++ k) as Heq by (by rewrite <- Hrb, HI, app_assoc).
        destruct r; try done; right; exists k; by split_and!.
Qed.

(** A line that is an index. *)
Lemma rs_index_step r c C D W t P : has_index r -> ~ is_ref r -> line_ok r -> rctx_ok c -> rc_type c = line_type r -> never_ok r c -> table_ok r c ->
  rc_state c = XQC_REP_DECODE_STATE_INDEX -> int_left (line_hi r) (idx_bits r) (line_idx r) (rc_index c) C ->
  line_bytes r = C ++ D ++ W -> D <> [] -> (W <> [] -> t = []) -> prefix_of c = P ->
  exists c', rs_index (D ++ t) c = (Ok (zlen D), c') /\ line_done_or r W c' (C ++ D) /\ prefix_of c' = P.
Proof.
  intros Hx Hnr Hok Hc Hty Hnv Htb Hst Hleft HW HD Ht HP. destruct (line_hi_ok r Hx) as (Hby & Hrb & Hbits).
  assert (int_ok (line_idx r)) as Hi by (by destruct r). unfold rs_index, line_done_or.
  assert (enc_int (high_bits (line_hi r) (idx_bits r)) (line_idx r) (idx_bits r) = C ++ D ++ W) as HW' by (rewrite Hrb; by destruct r).
  destruct (int_step (line_hi r) (idx_bits r) (line_idx r) (rc_index c) C D W t Hbits Hby Hi Hleft HW' HD Ht) as (p & -> & Hp).
  eexists. split; [done|]. unfold int_done_or in Hp. destruct (bool_decide (W = [])); (split; [|done]).
  - do 5 (split; [done|]). by destruct r.
  - do 4 (split; [done|]). by destruct r.
Qed.

(** A line of a name and a value, after a part of the name. *)
Lemma rs_name_value_step n name v c C D W t P : let r := R_literal n name v in
  line_ok r -> rctx_ok c -> rc_type c = line_type r -> never_ok r c -> rc_state c = XQC_REP_DECODE_STATE_NAME ->
  str_left (line_hi r) 3 name MAX (rc_name c) C -> line_bytes r = C ++ D ++ W -> D <> [] -> (W <> [] -> t = []) -> prefix_of c = P ->
  exists c', rs_name_value true junk (D ++ t) c = (Ok (zlen D), c') /\ line_done_or r W c' (C ++ D) /\ prefix_of c' = P.
Proof.
  intros r ((Hn & Hln) & Hv & Hlv) Hc Hty Hnv Hst Hleft HW HD Ht HP. destruct (str_left_strict _ _ _ _ _ _ Hleft) as (I2 & HI & HI2).
  pose proof Hc as (E1 & E2 & E3 & E4). change (line_bytes r) with (enc_str (line_hi r) 3 name ++ enc_str 0 7 v) in HW.
  rewrite HI, <- app_assoc in HW. apply app_inv_head in HW.
  pose (next p := let c := rc_set_name c p in rc_set_value (rc_set_state c XQC_REP_DECODE_STATE_VALUE) (xqc_prefixed_str_init (rc_value c) 7)).
  destruct (two_stages_step junk Hjunk (xqc_parse_prefixed_str true junk (rc_name c)) (rc_set_name c) next rc_value rc_set_value
    (fun c => rc_set_state c XQC_REP_DECODE_STATE_FINISH) v MAX Hv (conj Hlv (proj2 max_ok)) I2 D W t
    (fun p => str_left (line_hi r) 3 name MAX p (C ++ D)) (fun p => str_is name MAX p) HI2 HW HD Ht) as (c' & Hr & Hres).
  - intros k Hk HDk. destruct (str_step junk Hjunk (line_hi r) 3 name MAX (rc_name c) C D k []) as (p & Hp & Hl); try done; try lia; [by rewrite HI, HDk|].
    rewrite app_nil_r in Hp. unfold str_done_or in Hl. rewrite bool_decide_eq_false_2 in * by done. by exists p.
  - intros u. destruct (str_step junk Hjunk (line_hi r) 3 name MAX (rc_name c) C I2 [] u) as (p & Hp & Hd); try done; try lia; [by rewrite app_nil_r|].
    exists p. split; [done|]. split; [done|]. split; [|done]. rewrite <- E4. apply str_init_left; [by_decide|done|lia|done].
  - exists c'. split; [exact Hr|]. unfold line_done_or. destruct Hres as [[HWn (p & -> & Hp)]|(k & p & q & -> & Hp & -> & Hq)].
    + rewrite bool_decide_eq_false_2 by done. split; [|done]. destruct (str_left_ok _ _ _ _ _ _ max_ok Hp) as [G1 G2].
      do 4 (split; [done|]). by left.
    + pose proof Hp as (R1 & R2 & R3). unfold str_done_or in Hq. destruct (bool_decide_reflect (W = [])) as [->|HWn]; (split; [|done]).
      * destruct Hq as (Q1 & Q2 & Q3). by split_and!.
      * destruct (str_left_ok 0 7 v MAX q k max_ok Hq) as [G1 G2]. do 4 (split; [done|]). right.
        exists k. rewrite HI, app_assoc. by split_and!.
Qed.

(** The parser of the line, once its type is known; the table is already that of the type. *)
Definition decode_typed (data : list Z) (c : xqc_rep_ctx_t) : rep_out :=
  match rc_type c with
  | XQC_REP_TYPE_INDEXED => xqc_rep_decode_base_index c data
  | XQC_REP_TYPE_POST_BASE_INDEXED => xqc_rep_decode_post_base_index c data
  | XQC_REP_TYPE_NAME_REFERENCE => xqc_rep_decode_name_reference true junk c data
  | XQC_REP_TYPE_POST_BASE_NAME_REFERENCE => xqc_rep_decode_post_base_name_reference true junk c data
  | XQC_REP_TYPE_LITERAL => xqc_rep_decode_literal true junk c data
  end.

Lemma zlen_nonempty (D t : list Z) : D <> [] -> (zlen (D ++ t) =? 0) = false.
Proof. intros HD. apply Z.eqb_neq. destruct D; [done|]. simpl. rewrite zlen_cons. pose proof (zlen_nonneg (D ++ t)). lia. Qed.

Lemma line_start_step r c D W t : line_ok r -> rctx_ok c -> rc_state c = XQC_REP_DECODE_STATE_OPCODE -> rc_type c = line_type r ->
  line_bytes r = D ++ W -> D <> [] -> (W <> [] -> t = []) ->
  exists c', decode_typed (D ++ t) c = (Ok (zlen D), c') /\ line_done_or r W c' D /\ prefix_of c' = prefix_of c.
Proof.
  intros Hr Hc Hst Hty HW HD Ht. destruct (line_first r Hr) as (y & rest & Hy & _ & Hfl). unfold decode_typed. rewrite Hty.
  assert (rd (D ++ t) 0 = y) as Hrd by (destruct D; [done|]; rewrite Hy in HW; by injection HW as <- _).
  pose proof Hc as (E1 & E2 & E3 & E4).
  destruct r as [s i|i|n s i v|n i v|n name v]; cbn [line_type].
  - unfold xqc_rep_decode_base_index. rewrite (zlen_nonempty D t HD), Hst, Hrd, Hfl. cbv zeta.
    apply (rs_index_step (R_indexed s i) _ [] D W t _); try done; [tauto|apply int_init_left].
  - unfold xqc_rep_decode_post_base_index. rewrite (zlen_nonempty D t HD), Hst. cbv zeta.
    apply (rs_index_step (R_indexed_pb i) _ [] D W t _); try done; [tauto|apply int_init_left].
  - unfold xqc_rep_decode_name_reference. destruct Hfl as [Hn Ht']. rewrite (zlen_nonempty D t HD), Hst, Hrd, Hn, Ht'. cbv zeta.
    apply (rs_index_value_step (R_name_ref n s i v) _ [] D W t _); try done. apply int_init_left.
  - unfold xqc_rep_decode_post_base_name_reference. rewrite (zlen_nonempty D t HD), Hst, Hrd, Hfl. cbv zeta.
    apply (rs_index_value_step (R_pb_name_ref n i v) _ [] D W t _); try done. apply int_init_left.
  - unfold xqc_rep_decode_literal. rewrite (zlen_nonempty D t HD), Hst, Hrd, Hfl. cbv zeta. pose proof Hr as ((Hn & _) & _).
    pose proof (str_init_left (rc_name c) (line_hi (R_literal n name v)) 3 name ltac:(by destruct n) Hn ltac:(lia) E1) as Hl. rewrite E2 in Hl.
    destruct (str_left_ok _ _ _ _ _ _ max_ok Hl) as [G1 G2]. by apply (rs_name_value_step n name v _ [] D W t _).
Qed.

(** The value of a line, after a part of it. *)
Lemma rs_value_step r e1 c C2 D W t : rctx_ok c -> rc_type c = line_type r -> never_ok r c -> table_ok r c ->
  line_bytes r = e1 ++ enc_str 0 7 (line_value r) -> str_ok (line_value r) ->
  (forall c' C2', rctx_ok c' -> rc_name c' = rc_name c -> rc_index c' = rc_index c -> rc_type c' = line_type r -> never_ok r c' -> table_ok r c' ->
     (rc_state c' = XQC_REP_DECODE_STATE_FINISH -> vb_bytes (ps_value (rc_value c')) = line_value r -> line_done r c')
     /\ (rc_state c' = XQC_REP_DECODE_STATE_VALUE -> str_left 0 7 (line_value r) MAX (rc_value c') C2' -> line_at r c' (e1 ++ C2'))) ->
  rc_state c = XQC_REP_DECODE_STATE_VALUE -> str_left 0 7 (line_value r) MAX (rc_value c) C2 ->
  line_bytes r = (e1 ++ C2) ++ D ++ W -> D <> [] -> (W <> [] -> t = []) ->
  exists c', rs_value true junk (D ++ t) 0 c = (Ok (zlen D), c') /\ line_done_or r W c' ((e1 ++ C2) ++ D) /\ prefix_of c' = prefix_of c.
Proof.
  intros Hc Hty Hnv Htb Hbytes (Hv & Hlv) Hin Hst Hl HW HD Ht. rewrite Hbytes, <- app_assoc in HW. apply app_inv_head in HW.
  destruct (value_stage_step junk Hjunk rc_value rc_set_value (fun c => rc_set_state c XQC_REP_DECODE_STATE_FINISH) (line_value r) MAX Hv
    (conj Hlv (proj2 max_ok)) c [] C2 D W t Hl HW HD Ht) as (p & Hp & Hd).
  eexists. split; [exact Hp|]. unfold line_done_or. unfold str_done_or in Hd. destruct Hc as (E1 & E2 & E3 & E4).
  destruct (bool_decide_reflect (W = [])) as [->|HWn]; (split; [|done]).
  - destruct Hd as (Q1 & Q2 & Q3). by apply (Hin _ []).
  - destruct (str_left_ok _ _ _ _ _ _ max_ok Hd) as [G1 G2]. rewrite <- app_assoc. by apply Hin.
Qed.

Lemma line_resume_step r c C D W t : line_ok r -> line_at r c C -> line_bytes r = C ++ D ++ W -> D <> [] -> (W <> [] -> t = []) ->
  exists c', decode_typed (D ++ t) c = (Ok (zlen D), c') /\ line_done_or r W c' (C ++ D) /\ prefix_of c' = prefix_of c.
Proof.
  intros Hr (Hc & Hty & Hnv & Htb & Hat) HW HD Ht. unfold decode_typed. rewrite Hty.
  destruct r as [s i|i|n s i v|n i v|n name v]; cbn [line_type].
  - destruct Hat as [Hst Hl]. unfold xqc_rep_decode_base_index. rewrite (zlen_nonempty D t HD), Hst. apply rs_index_step; try done. tauto.
  - destruct Hat as [Hst Hl]. unfold xqc_rep_decode_post_base_index. rewrite (zlen_nonempty D t HD), Hst. apply rs_index_step; try done. tauto.
  - unfold xqc_rep_decode_name_reference. rewrite (zlen_nonempty D t HD).
    destruct Hat as [[Hst Hl]|(C2 & -> & Hst & Hi & Hl)]; rewrite Hst; [by apply rs_index_value_step|].
    apply (rs_value_step (R_name_ref n s i v)); try done; [apply Hr|]. intros c' C2' K1 K2 K3 K4 K5 K6. rewrite <- K3 in Hi.
    split; [by intros ??; split_and!|]. intros ? ?. do 4 (split; [done|]). right. by exists C2'.
  - unfold xqc_rep_decode_post_base_name_reference. rewrite (zlen_nonempty D t HD).
    destruct Hat as [[Hst Hl]|(C2 & -> & Hst & Hi & Hl)]; rewrite Hst; [by apply rs_index_value_step|].
    apply (rs_value_step (R_pb_name_ref n i v)); try done; [apply Hr|]. intros c' C2' K1 K2 K3 K4 K5 K6. rewrite <- K3 in Hi.
    split; [by intros ??; split_and!|]. intros ? ?. do 4 (split; [done|]). right. by exists C2'.
  - unfold xqc_rep_decode_literal. rewrite (zlen_nonempty D t HD).
    destruct Hat as [[Hst Hl]|(C2 & -> & Hst & Hi & Hl)]; rewrite Hst; [by apply rs_name_value_step|].
    apply (rs_value_step (R_literal n name v)); try done; [apply Hr|]. intros c' C2' K1 K2 K3 K4 K5 K6. rewrite <- K2 in Hi.
    split; [intros ??; destruct Hi as (? & ? & ?); by split_and!|]. intros ? ?. do 4 (split; [done|]). right. by exists C2'.
Qed.

(** The index once the line is complete: relative indices are made absolute. *)
Definition line_abs (base : Z) (r : field_rep) : Z :=
  match r with
  | R_indexed false i | R_name_ref _ false i _ => xqc_brel2abs base i
  | R_indexed_pb i | R_pb_name_ref _ i _ => xqc_pbrel2abs base i
  | R_indexed true i | R_name_ref _ true i _ => i
  | R_literal _ _ _ => 0
  end.

Definition line_read (r : field_rep) (c : xqc_rep_ctx_t) : Prop :=
  rctx_ok c /\ rc_type c = line_type r /\ never_ok r c /\ table_ok r c /\ rc_state c = XQC_REP_DECODE_STATE_FINISH
  /\ (has_index r -> pi_value (rc_index c) = line_abs (pi_value (rc_base c)) r)
  /\ match r with
     | R_indexed _ _ | R_indexed_pb _ => True
     | R_name_ref _ _ _ v | R_pb_name_ref _ _ v => vb_bytes (ps_value (rc_value c)) = v
     | R_literal _ n v => vb_bytes (ps_value (rc_name c)) = n /\ vb_bytes (ps_value (rc_value c)) = v
     end.

(** What is done with the index after a call. *)
Definition conv_of (r : field_rep) : option (Z -> Z -> Z) :=
  match r with
  | R_indexed _ _ | R_name_ref _ _ _ _ => Some xqc_brel2abs
  | R_indexed_pb _ | R_pb_name_ref _ _ _ => Some xqc_pbrel2abs
  | R_literal _ _ _ => None
  end.

Definition finish_line (r : field_rep) (o : rep_out) : rep_out := match conv_of r with Some f => to_abs f o | None => o end.

Lemma finish_line_spec r W c C k : line_done_or r W c C ->
  exists c', finish_line r (Ok k, c) = (Ok k, c') /\ (if bool_decide (W = []) then line_read r c' else line_at r c' C) /\ prefix_of c' = prefix_of c.
Proof.
  unfold line_done_or, finish_line. destruct (bool_decide (W = [])).
  - intros (Hc & Hty & Hnv & Htb & Hst & Hf). destruct r as [s i|i|n s i v|n i v|n name v]; simpl; unfold table_ok in Htb; cbn [line_table] in *.
    + rewrite Hst, Htb. simpl. destruct s; (eexists; split; [done|]; split; [|done]); split_and!; try done; intros _; simpl; by rewrite Hf.
    + rewrite Hst, Htb. simpl. eexists. split; [done|]. split; [|done]. split_and!; try done. intros _. simpl. by rewrite Hf.
    + destruct Hf as [Hf Hv]. rewrite Hst, Htb. simpl. destruct s; (eexists; split; [done|]; split; [|done]); split_and!; try done; intros _; simpl; by rewrite Hf.
    + destruct Hf as [Hf Hv]. rewrite Hst, Htb. simpl. eexists. split; [done|]. split; [|done]. split_and!; try done. intros _. simpl. by rewrite Hf.
    + destruct Hf as [Hn Hv]. exists c. split; [done|]. split; [|done]. by split_and!.
  - intros Hat. pose proof Hat as (_ & _ & _ & _ & Hs). exists c. split; [|done].
    assert (rc_is_finish (rc_state c) = false) as Hnf.
    { destruct r; first [destruct Hs as [-> _]|destruct Hs as [[-> _]|(? & _ & -> & _)]]; done. }
    destruct r; simpl; by rewrite ?Hnf.
Qed.

(** [C] of a line is read; nothing of it when the context is between two lines. *)
Definition at_line (r : field_rep) (c : xqc_rep_ctx_t) (C : list Z) : Prop :=
  (C = [] /\ rctx_ok c /\ rc_state c = XQC_REP_DECODE_STATE_OPCODE) \/ line_at r c C.

(** The lines that refer to the dynamic table from the base on. *)
Definition post_base (r : field_rep) : bool := match r with R_indexed_pb _ | R_pb_name_ref _ _ _ => true | _ => false end.

Lemma decode_line_typed r c data : rc_type c = line_type r -> (zlen data =? 0) = false -> rc_is_opcode (rc_state c) = false ->
  xqc_rep_decode_field_line true junk c data = finish_line r (decode_typed data (if post_base r then rc_set_table c 0 else c)).
Proof.
  intros Hty Hz Hs. unfold xqc_rep_decode_field_line, decode_typed, finish_line. rewrite Hz, Hs, Hty. by destruct r; cbn; rewrite ?Hty.
Qed.

Lemma decode_line_start r c data : xqc_rep_type (rd data 0) = line_type r -> (zlen data =? 0) = false -> rc_state c = XQC_REP_DECODE_STATE_OPCODE ->
  xqc_rep_decode_field_line true junk c data
  = finish_line r (decode_typed data (if post_base r then rc_set_table (rc_set_type c (line_type r)) 0 else rc_set_type c (line_type r))).
Proof. intros Hty Hz Hs. unfold xqc_rep_decode_field_line, decode_typed, finish_line. rewrite Hz, Hs, Hty. by destruct r. Qed.

(** One call of the parser. *)
Lemma field_step r c C D W t : line_ok r -> at_line r c C -> line_bytes r = C ++ D ++ W -> D <> [] -> (W <> [] -> t = []) ->
  exists c', xqc_rep_decode_field_line true junk c (D ++ t) = (Ok (zlen D), c')
  /\ (if bool_decide (W = []) then line_read r c' else line_at r c' (C ++ D)) /\ prefix_of c' = prefix_of c.
Proof.
  intros Hr Hat HW HD Ht. pose proof (zlen_nonempty D t HD) as Hz. destruct Hat as [(-> & Hc & Hst)|Hat].
  - destruct (line_first r Hr) as (y & rest & Hy & Hfirst & _).
    assert (rd (D ++ t) 0 = y) as Hrd by (destruct D; [done|]; rewrite Hy in HW; by injection HW as <- _).
    rewrite (decode_line_start r) by (done || by rewrite Hrd).
    destruct (line_start_step r (if post_base r then rc_set_table (rc_set_type c (line_type r)) 0 else rc_set_type c (line_type r)) D W t)
      as (c1 & -> & Hd & Hp); try done; try by destruct r.
    destruct (finish_line_spec r W c1 D (zlen D) Hd) as (c' & -> & Hres & Hp'). exists c'. split; [done|]. split; [done|]. rewrite Hp', Hp. by destruct r.
  - pose proof Hat as (_ & Hty & _ & Htb & Hs). rewrite (decode_line_typed r); [|done..|].
    + assert ((if post_base r then rc_set_table c 0 else c) = c) as -> by (destruct r; try done; simpl in Htb; destruct c; simpl in *; by subst).
      destruct (line_resume_step r c C D W t Hr Hat HW HD Ht) as (c1 & -> & Hd & Hp).
      destruct (finish_line_spec r W c1 (C ++ D) (zlen D) Hd) as (c' & -> & Hres & Hp'). exists c'. split; [done|]. split; [done|]. congruence.
    + destruct r; first [destruct Hs as [-> _]|destruct Hs as [[-> _]|(? & _ & -> & _)]]; done.
Qed.

End read.

(** ** The prefix *)

(** The required insert count is the one that was sent when it lies in the window of the
    decoder's insert count. *)
Lemma ric_window ric max_ents icnt : 0 < max_ents < 2 ^ 60 -> 0 <= icnt < 2 ^ 61 -> 0 <= ric -> (0 < ric -> icnt - max_ents < ric <= icnt + max_ents) ->
  xqc_rep_reconstruct_ric (xqc_rep_encode_ricnt max_ents ric) max_ents icnt = (Ok tt, ric).
Proof.
  intros Hm Hi Hr Hw. unfold xqc_rep_encode_ricnt, xqc_rep_reconstruct_ric. destruct (ric =? 0) eqn:E0; zify_bools; [by subst|].
  rewrite (u64_small (2 * max_ents)) by lia. set (F := 2 * max_ents). pose proof (Z.mod_pos_bound ric F ltac:(unfold F; lia)) as Hmod.
  rewrite (u64_small (ric mod F + 1)) by (unfold F in *; lia). case_if; zify_bools; [|lia]. case_if; zify_bools; [unfold F in *; lia|].
  rewrite (u64_small (icnt + max_ents)) by lia. set (V := icnt + max_ents).
  pose proof (Z.div_mod V F ltac:(unfold F; lia)). pose proof (Z.mod_pos_bound V F ltac:(unfold F; lia)). pose proof (Z.div_pos V F ltac:(unfold V; lia) ltac:(unfold F; lia)).
  pose proof (Z.div_mod ric F ltac:(unfold F; lia)). pose proof (Z.div_pos ric F ltac:(lia) ltac:(unfold F; lia)).
  rewrite (u64_small (V / F * F)), u64_small by (unfold V, F in *; nia).
  assert (ric / F = V / F \/ ric / F = V / F - 1) as Hq by (unfold V, F in *; nia).
  destruct Hq as [Hq|Hq].
  - assert (V / F * F + (ric mod F + 1) - 1 = ric) as -> by nia. case_if; [unfold V in *; zb|]. case_if; [zb|done].
  - assert (V / F * F + (ric mod F + 1) - 1 = ric + F) as -> by nia.
    case_if; zify_bools; [|unfold V, F in *; nia]. case_if; [unfold F in *; zb|]. rewrite u64_small by (unfold F, V in *; lia).
    replace (ric + F - F) with ric by lia. case_if; [zb|done].
Qed.

Definition delta_base (ric base : Z) : Z := if ric <=? base then base - ric else ric - 1 - base.
Definition sign_byte (ric base : Z) : Z := bit (negb (ric <=? base)) 0x80.

Definition prefix_bytes (max_ents ric base : Z) : list Z :=
  enc_int 0 (xqc_rep_encode_ricnt max_ents ric) 8 ++ enc_int (sign_byte ric base) (delta_base ric base) 7.

Definition section_ok (max_ents ric base : Z) : Prop := 0 <= max_ents < 2 ^ 60 /\ 0 <= ric < 2 ^ 61 /\ 0 <= base < 2 ^ 61 /\ (0 < ric -> 0 < max_ents).

Lemma section_ints max_ents ric base : section_ok max_ents ric base ->
  int_ok (xqc_rep_encode_ricnt max_ents ric) /\ int_ok (delta_base ric base).
Proof.
  intros (Hm & Hr & Hb & Hmr). unfold int_ok, XQC_QPACK_INT_MAX, xqc_rep_encode_ricnt, delta_base. split; [|case_if; zb].
  case_if; zify_bools; [lia|]. rewrite (u64_small (2 * max_ents)) by lia. pose proof (Z.mod_pos_bound ric (2 * max_ents) ltac:(lia)).
  rewrite u64_small by lia. lia.
Qed.

(** An integer of eight bits over anything. *)
Lemma put8 D pos v : 0 <= pos -> 0 <= v -> let e := enc_int 0 v 8 in
  pos + zlen e <= zlen D -> xqc_prefixed_int_put D pos v 8 = (wr D pos e, pos + zlen e).
Proof.
  intros Hp Hv e Hfit. pose proof (enc_int_pos 0 v 8). 
  change (wr D pos e, pos + zlen e) with (wr D pos (enc_int (high_bits 0 8) v 8), pos + zlen (enc_int (high_bits 0 8) v 8)).
  rewrite <- (put_over D pos 0 v 8) by (done || lia || by_decide).
  assert (forall x, u8 (Z.ldiff x ((1 << 8) - 1)) = 0) as Hz.
  { intros x. change ((1 << 8) - 1) with (2 ^ 8 - 1). rewrite ldiff_high by lia. unfold high_bits, u8. pose proof (Z.div_mod x (2 ^ 8) ltac:(lia)).
    replace (x - x mod 2 ^ 8) with (x / 2 ^ 8 * 2 ^ 8) by lia. apply Z.mod_mul. lia. }
  unfold xqc_prefixed_int_put. rewrite !Hz. assert (wr (wr D pos [0]) pos [0] = wr D pos [0]) as Hw.
  { apply wr_over; rewrite ?zlen_cons, ?zlen_nil; unfold e in *; lia. }
  by rewrite Hw.
Qed.

Lemma write_prefix_spec junk buf max_ents ric base : (forall n, 0 <= n -> zlen (junk n) = n) -> vb_ok buf -> section_ok max_ents ric base ->
  vb_data_len buf + 32 <= max_size buf ->
  exists buf', xqc_rep_write_prefix true junk buf max_ents ric base = (Ok tt, buf') /\ grew buf buf' (prefix_bytes max_ents ric base).
Proof.
  intros Hj Hok Hs Hfit. destruct (section_ints _ _ _ Hs) as [Hi1 Hi2]. unfold int_ok, XQC_QPACK_INT_MAX in *. unfold xqc_rep_write_prefix, prefix_bytes.
  set (er := xqc_rep_encode_ricnt max_ents ric) in *. assert (exists sg, (if ric <=? base then (0, u64 (base - ric)) else (1, u64 (ric - 1 - base)))
    = (sg, delta_base ric base) /\ u8 (sg << 7) = sign_byte ric base) as (sg & -> & Hsg).
  { destruct Hs as (_ & Hr & Hb & _). unfold delta_base, sign_byte. destruct (ric <=? base) eqn:E; zify_bools; rewrite u64_small by lia; by eexists. }
  set (db := delta_base ric base) in *. pose proof (put_len_bound er 8 ltac:(lia) ltac:(lia)). pose proof (put_len_bound db 7 ltac:(lia) ltac:(lia)).
  set (room := _ + _). destruct (save_prepare_spec junk Hj buf room Hok ltac:(unfold room; lia) ltac:(unfold room; lia)) as (b1 & -> & Hb1 & Hby & Hdl & Hcap & Hm & _).
  unfold room in Hcap. assert (is_byte (sign_byte ric base)) as Hsb by (unfold sign_byte; by destruct (negb _)).
  rewrite (put_len_spec er 8 0), (put_len_spec db 7 (high_bits (sign_byte ric base) 7)) in Hcap by lia.
  pose proof (enc_int_pos 0 er 8). pose proof (enc_int_pos (high_bits (sign_byte ric base) 7) db 7). pose proof Hb1 as [L1 L2 L3 L4].
  rewrite put8 by lia. destruct (write_app b1 (enc_int 0 er 8) Hb1 ltac:(lia)) as (W1 & W2 & W3). set (b2 := vb_write b1 _ _) in *.
  eexists. split; [done|]. rewrite Hsg. apply (appended_grew _ b1); [done|done|]. apply (appended_trans _ b2); [by split_and!|].
  assert (high_bits (sign_byte ric base) 7 = sign_byte ric base) as Hh by (unfold sign_byte; by destruct (negb _)). rewrite <- Hh at 2.
  apply put_first_spec; try done; try lia. simpl. lia.
Qed.

Section prefix.

Context (max_ents ric base icnt : Z).
Hypothesis Hsec : section_ok max_ents ric base.
Hypothesis Hcnt : 0 <= icnt < 2 ^ 61.
Hypothesis Hwin : 0 < ric -> icnt - max_ents < ric <= icnt + max_ents.

Abbreviation er := (xqc_rep_encode_ricnt max_ents ric).
Abbreviation db := (delta_base ric base).
Abbreviation sb := (sign_byte ric base).

(** [C] of the prefix is read. *)
Definition prefix_at (c : xqc_rep_ctx_t) (C : list Z) : Prop :=
  rctx_ok c /\
  ((rc_state c = XQC_REP_DECODE_STATE_RICNT /\ C = [] /\ rc_ric c = xqc_prefixed_int_init 0)
   \/ (rc_state c = XQC_REP_DECODE_STATE_RICNT /\ C <> [] /\ int_left 0 8 er (rc_ric c) C)
   \/ (rc_state c = XQC_REP_DECODE_STATE_BASE_SIGN /\ C = enc_int 0 er 8 /\ pi_value (rc_ric c) = ric)
   \/ exists C2, rc_state c = XQC_REP_DECODE_STATE_BASE /\ C = enc_int 0 er 8 ++ C2 /\ pi_value (rc_ric c) = ric /\ rc_sign c = sb
        /\ int_left sb 7 db (rc_base c) C2).

Definition prefix_read (c : xqc_rep_ctx_t) : Prop :=
  rctx_ok c /\ rc_state c = XQC_REP_DECODE_STATE_OPCODE /\ pi_value (rc_ric c) = ric /\ pi_value (rc_base c) = base.

Definition prefix_done_or (W : list Z) (c : xqc_rep_ctx_t) (C : list Z) : Prop :=
  if bool_decide (W = []) then prefix_read c else prefix_at c C.

Lemma sb_cases : is_byte sb /\ high_bits sb 7 = sb /\ (sb = 0 /\ ric <= base /\ db = base - ric \/ sb = 128 /\ base < ric /\ db = ric - 1 - base).
Proof.
  unfold sign_byte, delta_base. destruct (ric <=? base) eqn:E; zify_bools; (split; [by_decide|]); (split; [done|]); [left|right]; split_and!; try done; lia.
Qed.

Lemma rp_base_step pre c C2 D W t : rctx_ok c -> rc_state c = XQC_REP_DECODE_STATE_BASE -> pi_value (rc_ric c) = ric -> rc_sign c = sb ->
  int_left sb 7 db (rc_base c) C2 -> enc_int sb db 7 = C2 ++ D ++ W -> D <> [] -> (W <> [] -> t = []) ->
  exists c', rp_base (pre ++ D ++ t) (zlen pre) c = (Ok (zlen pre + zlen D), c') /\ prefix_done_or W c' (enc_int 0 er 8 ++ C2 ++ D)
  /\ rc_stream_id c' = rc_stream_id c.
Proof.
  intros Hc Hst Hric Hsg Hl HW HD Ht. destruct sb_cases as (Hb & Hh & Hcases). destruct (section_ints _ _ _ Hsec) as [_ Hdb].
  pose proof Hsec as (_ & Hr & Hbs & _). rewrite <- Hh in HW.
  destruct (int_step _ 7 _ _ _ _ _ t ltac:(lia) Hb Hdb Hl HW HD Ht) as (p & Hread & Hor).
  unfold rp_base, prefix_done_or. rewrite drop_pre, Hread. unfold int_done_or in Hor. destruct Hc as (? & ? & ? & ?).
  destruct (bool_decide_reflect (W = [])) as [->|HWn]; (eexists; split; [done|]; split; [|done]).
  - split_and!; try done; simpl. rewrite Hor, Hsg, Hric. destruct Hcases as [(-> & Hle & ->)|(-> & Hlt & ->)]; simpl; rewrite u64_small; lia.
  - split; [done|]. right; right; right. exists (C2 ++ D). by split_and!.
Qed.

Lemma rp_sign_step pre c D W t : rctx_ok c -> pi_value (rc_ric c) = ric ->
  enc_int sb db 7 = D ++ W -> D <> [] -> (W <> [] -> t = []) ->
  exists c', rp_sign (pre ++ D ++ t) (zlen pre) c = (Ok (zlen pre + zlen D), c') /\ prefix_done_or W c' (enc_int 0 er 8 ++ D)
  /\ rc_stream_id c' = rc_stream_id c.
Proof.
  intros Hc Hric HW HD Ht. destruct sb_cases as (Hb & Hh & Hcases). unfold rp_sign.
  assert (rd (pre ++ D ++ t) (zlen pre) .& 128 = sb) as Hrd.
  { destruct (section_ints _ _ _ Hsec) as [_ (Hdb & _)]. destruct (int_hd sb 7 db []) as (y & l & Hy & Hyb & Hhi); [destruct Hcases as [(-> & _)|(-> & _)]; done|lia|lia|done|]. rewrite app_nil_r in Hy.
    rewrite rd_app_r by lia. rewrite Z.sub_diag. assert (rd (D ++ t) 0 = y) as -> by (destruct D; [done|]; rewrite Hy in HW; by injection HW as <- _).
    destruct Hcases as [(E & _)|(E & _)]; rewrite E in *; by rewrite (high_land y _ 7 128) by (done || lia). }
  rewrite Hrd. destruct Hc as (? & ? & ? & ?). set (c1 := rc_set_base _ _).
  destruct (rp_base_step pre c1 [] D W t) as (c' & Hc' & Hd & Hs); try done; [apply int_init_left|]. by exists c'.
Qed.

Lemma rp_ricnt_step pint c C D W t : rctx_ok c -> rc_state c = XQC_REP_DECODE_STATE_RICNT -> int_left 0 8 er pint C ->
  (forall data, xqc_prefixed_int_read (rc_ric c) data = xqc_prefixed_int_read pint data) ->
  prefix_bytes max_ents ric base = C ++ D ++ W -> D <> [] -> (W <> [] -> t = []) ->
  exists c', rp_ricnt max_ents icnt (D ++ t) c = (Ok (zlen D), c') /\ prefix_done_or W c' (C ++ D) /\ rc_stream_id c' = rc_stream_id c.
Proof.
  intros Hc Hst Hl Hrd HW HD Ht. destruct (section_ints _ _ _ Hsec) as [Her _]. pose proof Hl as (I2 & HI & HI2 & _). change (high_bits 0 8) with 0 in HI.
  unfold prefix_bytes in HW. rewrite HI, <- app_assoc in HW. apply app_inv_head in HW. unfold rp_ricnt. rewrite Hrd.
  assert (enc_int sb db 7 <> []) as He2 by (pose proof (enc_int_pos sb db 7); intros E; rewrite E in *; done). destruct Hc as (? & ? & ? & ?).
  destruct (cut_cases _ _ _ _ HW HI2) as [(k & Hk & -> & ->)|(k & -> & Hk)].
  - rewrite Ht by (by destruct k). destruct (int_step 0 8 er pint C D k [] ltac:(lia) ltac:(by_decide) Her Hl HI HD ltac:(done)) as (p & -> & Hor).
    unfold int_done_or in Hor. rewrite bool_decide_eq_false_2 in * by done. eexists. split; [done|]. split; [|done]. unfold prefix_done_or.
    rewrite bool_decide_eq_false_2 by (by destruct k). split; [done|]. right; left. split_and!; try done. by destruct C, D.
  - rewrite <- app_assoc. destruct (int_step 0 8 er pint C I2 [] (k ++ t) ltac:(lia) ltac:(by_decide) Her Hl) as (p & -> & Hor); [by rewrite app_nil_r|done..|].
    simpl in Hor. rewrite bool_decide_eq_true_2, Hor by done. pose proof Hsec as (Hm & Hr & _ & Hmr).
    assert (xqc_rep_reconstruct_ric er max_ents icnt = (Ok tt, ric)) as ->.
    { destruct (decide (0 < max_ents)); [by apply ric_window; lia|]. assert (ric = 0) as -> by lia. done. }
    cbn [fst snd]. rewrite zlen_app, (zlen_app k t). pose proof (zlen_nonneg k). pose proof (zlen_nonneg t). destruct (decide (k = [])) as [->|Hkn].
    + rewrite (Ht ltac:(by simpl in Hk; subst W)). rewrite zlen_nil, Z.add_0_r, Z.leb_refl. eexists. rewrite app_nil_r. split; [done|]. split; [|done].
      unfold prefix_done_or. rewrite bool_decide_eq_false_2 by (by simpl in Hk; subst W). split; [done|]. right; right; left. by rewrite <- HI.
    + assert (0 < zlen k) by (destruct k; [done|rewrite zlen_cons; pose proof (zlen_nonneg k); lia]). case_if; [zb|]. set (c1 := rc_set_ric _ _). destruct (rp_sign_step I2 c1 k W t) as (c' & -> & Hd & Hs); try done.
      exists c'. rewrite zlen_app. split; [done|]. split; [|done]. rewrite app_assoc, <- HI. done.
Qed.

(** One call of the parser of the prefix. *)
Lemma prefix_step c C D W t : prefix_at c C -> prefix_bytes max_ents ric base = C ++ D ++ W -> D <> [] -> (W <> [] -> t = []) ->
  exists c', xqc_rep_decode_prefix c max_ents icnt (D ++ t) = (Ok (zlen D), c') /\ prefix_done_or W c' (C ++ D) /\ rc_stream_id c' = rc_stream_id c.
Proof.
  intros [Hc Hat] HW HD Ht. unfold xqc_rep_decode_prefix. rewrite (zlen_nonempty D t HD). cbv zeta.
  assert (exists c', rp_switch max_ents icnt (D ++ t) c = (Ok (zlen D), c') /\ prefix_done_or W c' (C ++ D) /\ rc_stream_id c' = rc_stream_id c)
    as (c' & -> & Hd & Hs).
  { unfold prefix_bytes in HW. unfold rp_switch. destruct Hat as [(Hst & -> & Hri)|[(Hst & HC & Hl)|[(Hst & -> & Hri)|(C2 & Hst & -> & Hri & Hsg & Hl)]]]; rewrite Hst.
    - apply (rp_ricnt_step (xqc_prefixed_int_init 8)); try done; [apply int_init_left|]. intros. by rewrite Hri.
    - by apply (rp_ricnt_step (rc_ric c)).
    - apply app_inv_head in HW. by apply (rp_sign_step [] c D W t).
    - rewrite <- app_assoc in HW. apply app_inv_head in HW. rewrite <- app_assoc. by apply (rp_base_step [] c C2 D W t). }
  exists c'. unfold prefix_done_or in *. destruct (bool_decide_reflect (W = [])) as [->|HWn].
  - pose proof Hd as (_ & -> & _). by rewrite andb_false_r.
  - rewrite (Ht HWn), app_nil_r, Z.ltb_irrefl. done.
Qed.

End prefix.

End QpackRepSpec.
