(* ===== verification/QpackDecoder.v ===== *)
(** The decoder of QPACK (src/src/http3/qpack/xqc_decoder.c): what an encoder instruction does to
    its dynamic table, and the decoding of a header. [None] is undefined behaviour of the table. *)

From stdpp Require Import base numbers list.
From S2P Require Import Prelude RingArray RingMem VarBuf QpackInt PrefixedStr DTable DTableRefine QpackStatic QpackIns QpackRep.
Import RingArray RingMem VarBuf QpackInt PrefixedStr DTable DTableRefine QpackStatic QpackIns QpackRep.

Module QpackDecoder.

Definition XQC_HTTP_HEADER_FLAG_NONE : Z := 0x00.
Definition XQC_HTTP_HEADER_FLAG_NEVER_INDEX : Z := 0x01.
Definition XQC_HTTP_HEADER_FLAG_NEVER_INDEX_VALUE : Z := 0x02.
Definition XQC_HTTP3_QPACK_MAX_NAMELEN : Z := 256.

(** ** Headers (src/include/xquic/xqc_http3.h) *)

Record iovec := mk_iov {
  iov_base : list Z;
  iov_len : Z;
}.

Record xqc_http_header_t := mk_hdr {
  h_name : iovec;
  h_value : iovec;
  h_flags : Z;
}.

Definition iov_bytes (v : iovec) : list Z := sub_bytes (iov_base v) 0 (iov_len v).

(** A vector of bytes that are there already. *)
Definition iov_of (s : list Z) : iovec := mk_iov s (zlen s).

(** ** The decoder *)

Record xqc_decoder_t := mk_dec {
  d_dtable : xqc_dtable_t;
  d_max_ents : Z;
}.

Definition d_set_dtable (d : xqc_decoder_t) (t : xqc_dtable_t) : xqc_decoder_t := mk_dec t (d_max_ents d).

Section ops.

Context (mem : bool) (junk : Z -> list Z).

(** [esize]: the size of an entry of the table in memory. *)
Definition xqc_decoder_create (esize max_dtable_cap : Z) : option xqc_decoder_t :=
  if negb mem then None
  else
    dt ← xqc_dtable_create mem esize XQC_QPACK_DEFAULT_HASH_TABLE_SIZE false;
    Some (mk_dec dt (xqc_dtable_max_entry_cnt max_dtable_cap)).

(** ** Names and values in buffers *)

(** One field of an entry of the dynamic table, copied to the front of a buffer. *)
Definition copy_into (rm : xqc_ring_mem_t) (idx len : Z) (buf : xqc_var_buf_t) : res unit * xqc_var_buf_t :=
  if 0 <? len then
    match xqc_var_buf_save_prepare mem junk buf (len + 1) with
    | (Err e, buf) => (Err e, buf)
    | (Ok _, buf) =>
        match xqc_ring_mem_copy rm idx len (vb_buf_len buf) with
        | Err e => (Err e, buf)
        | Ok bs => (Ok tt, vb_write buf (wr (wr (vb_data buf) 0 bs) len [0]) len)
        end
    end
  else (Ok tt, buf).

(** [xqc_dtable_get_nv] with its buffers; the value is not wanted when there is no buffer for it. *)
Definition dtable_read_nv (dt : xqc_dtable_t) (idx : Z) (name_buf : xqc_var_buf_t) (value_buf : option xqc_var_buf_t)
    : option (res unit * xqc_var_buf_t * option xqc_var_buf_t) :=
  match xqc_dtable_get_entry_by_abs_idx dt idx with
  | None => Some (Err XQC_QPACK_DYNAMIC_TABLE_VOID_ENTRY, name_buf, value_buf)
  | Some s =>
      e ← ra_at (entries dt) s;
      Some (match copy_into (rmem dt) (nidx e) (nlen e) name_buf with
            | (Err err, nb) => (Err err, nb, value_buf)
            | (Ok _, nb) =>
                match value_buf with
                | None => (Ok tt, nb, None)
                | Some vb => let '(r, vb) := copy_into (rmem dt) (vidx e) (vlen e) vb in (r, nb, Some vb)
                end
            end)
  end.

(** Text of the static table and its terminator behind what a buffer holds. *)
Definition save_text (buf : xqc_var_buf_t) (s : list Z) : res unit * xqc_var_buf_t :=
  match xqc_var_buf_save_prepare mem junk buf (zlen s + 1) with
  | (Err e, buf) => (Err e, buf)
  | (Ok _, buf) =>
      match xqc_var_buf_save_data mem junk buf s with
      | (Err e, buf) => (Err e, buf)
      | (Ok _, buf) => (Ok tt, vb_write buf (wr (vb_data buf) (vb_data_len buf) [0]) (vb_data_len buf))
      end
  end.

Definition xqc_stable_get_nv (idx : Z) (name_buf : xqc_var_buf_t) (value_buf : option xqc_var_buf_t)
    : res unit * xqc_var_buf_t * option xqc_var_buf_t :=
  match xqc_stable_get_entry idx with
  | None => (Err XQC_EPARAM, name_buf, value_buf)
  | Some entry =>
      match save_text name_buf (st_name entry) with
      | (Err e, nb) => (Err e, nb, value_buf)
      | (Ok _, nb) =>
          match value_buf with
          | None => (Ok tt, nb, None)
          | Some vb => let '(r, vb) := save_text vb (st_value entry) in (r, nb, Some vb)
          end
      end
  end.

Definition xqc_decoder_index (dec : xqc_decoder_t) (t idx : Z) (name_buf value_buf : xqc_var_buf_t)
    : option (res unit * xqc_var_buf_t * option xqc_var_buf_t) :=
  let nb := xqc_var_buf_clear name_buf in
  let vb := xqc_var_buf_clear value_buf in
  if t =? XQC_DTABLE_FLAG then dtable_read_nv (d_dtable dec) idx nb (Some vb)
  else Some (xqc_stable_get_nv idx nb (Some vb)).

Definition xqc_decoder_name_index (dec : xqc_decoder_t) (t idx : Z) (name_buf : xqc_var_buf_t)
    : option (res unit * xqc_var_buf_t) :=
  let nb := xqc_var_buf_clear name_buf in
  '(r, nb, _) ← (if t =? XQC_DTABLE_FLAG then dtable_read_nv (d_dtable dec) idx nb None
                 else Some (xqc_stable_get_nv idx nb None));
  Some (r, nb).

(** ** Field lines *)

(** The memory of the buffers goes to the header. *)
Definition xqc_decoder_copy_header (hdr : xqc_http_header_t) (name value : xqc_var_buf_t)
    : res unit * xqc_http_header_t * xqc_var_buf_t * xqc_var_buf_t :=
  let nl := vb_data_len name in
  match xqc_var_buf_save_prepare mem junk name 1 with
  | (Err e, name) => (Err e, mk_hdr (mk_iov (iov_base (h_name hdr)) nl) (h_value hdr) (h_flags hdr), name, value)
  | (Ok _, name) =>
      let '(nbase, name) := xqc_var_buf_take_over name in
      let vl := vb_data_len value in
      match xqc_var_buf_save_prepare mem junk value 1 with
      | (Err e, value) => (Err e, mk_hdr (mk_iov nbase nl) (mk_iov (iov_base (h_value hdr)) vl) (h_flags hdr), name, value)
      | (Ok _, value) =>
          let '(vbase, value) := xqc_var_buf_take_over value in
          (Ok tt, mk_hdr (mk_iov (wr nbase nl [0]) nl) (mk_iov (wr vbase vl [0]) vl) (h_flags hdr), name, value)
      end
  end.

Definition set_ps_bufs (ctx : xqc_rep_ctx_t) (name value : xqc_var_buf_t) : xqc_rep_ctx_t :=
  rc_set_value (rc_set_name ctx (set_ps_value (rc_name ctx) name)) (set_ps_value (rc_value ctx) value).

Definition set_flags (hdr : xqc_http_header_t) (f : Z) : xqc_http_header_t := mk_hdr (h_name hdr) (h_value hdr) f.

(** [hdr] is what the header holds before: memory that was never written when it is new. *)
Definition xqc_decoder_save_hdr (dec : xqc_decoder_t) (ctx : xqc_rep_ctx_t) (hdr : xqc_http_header_t)
    : option (res unit * xqc_rep_ctx_t * xqc_http_header_t) :=
  let name := ps_value (rc_name ctx) in
  let value := ps_value (rc_value ctx) in
  let finish hdr name value :=
    let '(r, hdr, name, value) := xqc_decoder_copy_header hdr name value in (r, set_ps_bufs ctx name value, hdr) in
  match rc_type ctx with
  | XQC_REP_TYPE_INDEXED | XQC_REP_TYPE_POST_BASE_INDEXED =>
      '(r, name, vb) ← xqc_decoder_index dec (rc_table ctx) (pi_value (rc_index ctx)) name value;
      let value := default value vb in
      match r with
      | Err _ => Some (Err XQC_QPACK_DECODER_ERROR, set_ps_bufs ctx name value, hdr)
      | Ok _ =>
          Some (finish (set_flags hdr (if rc_never ctx =? 0 then XQC_HTTP_HEADER_FLAG_NONE else XQC_HTTP_HEADER_FLAG_NEVER_INDEX)) name value)
      end
  | XQC_REP_TYPE_NAME_REFERENCE | XQC_REP_TYPE_POST_BASE_NAME_REFERENCE =>
      '(r, name) ← xqc_decoder_name_index dec (rc_table ctx) (pi_value (rc_index ctx)) name;
      match r with
      | Err _ => Some (Err XQC_QPACK_DECODER_ERROR, set_ps_bufs ctx name value, hdr)
      | Ok _ =>
          Some (finish (set_flags hdr (if rc_never ctx =? 0 then XQC_HTTP_HEADER_FLAG_NONE else XQC_HTTP_HEADER_FLAG_NEVER_INDEX_VALUE)) name value)
      end
  | XQC_REP_TYPE_LITERAL => Some (finish hdr name value)
  end.

(** A field line from position [processed] on, and its header when it is complete. *)
Definition dec_line (dec : xqc_decoder_t) (ctx : xqc_rep_ctx_t) (data : list Z) (processed : Z) (hdr : xqc_http_header_t) (blocked : bool)
    : option (res Z * bool * xqc_rep_ctx_t * xqc_http_header_t) :=
  match xqc_rep_decode_field_line mem junk ctx (drop (Z.to_nat processed) data) with
  | (Err _, ctx) => Some (Err XQC_QPACK_DECODER_ERROR, blocked, ctx, hdr)
  | (Ok read, ctx) =>
      if rc_is_finish (rc_state ctx) then
        '(r, ctx, hdr) ← xqc_decoder_save_hdr dec ctx hdr;
        match (r : res unit) with
        | Err e => Some (Err e, blocked, ctx, hdr)
        | Ok _ => Some (Ok (processed + read), blocked, ctx, hdr)
        end
      else Some (Ok (processed + read), blocked, ctx, hdr)
  end.

(** The result: the number of bytes read, [*blocked], the context and the header. *)
Definition xqc_decoder_dec_header (dec : xqc_decoder_t) (ctx : xqc_rep_ctx_t) (data : list Z) (hdr : xqc_http_header_t) (blocked : bool)
    : option (res Z * bool * xqc_rep_ctx_t * xqc_http_header_t) :=
  let icnt := xqc_dtable_get_insert_cnt (d_dtable dec) in
  let '(r, ctx) :=
    if state_rank (rc_state ctx) <? state_rank XQC_REP_DECODE_STATE_OPCODE
    then xqc_rep_decode_prefix ctx (d_max_ents dec) icnt data else (Ok 0, ctx) in
  match r with
  | Err _ => Some (Err XQC_QPACK_DECODER_ERROR, blocked, ctx, hdr)
  | Ok processed =>
      if (state_rank XQC_REP_DECODE_STATE_RICNT <? state_rank (rc_state ctx)) && (icnt <? pi_value (rc_ric ctx))
      then Some (Ok processed, true, ctx, hdr)
      else if state_rank XQC_REP_DECODE_STATE_OPCODE <=? state_rank (rc_state ctx) then dec_line dec ctx data processed hdr blocked
      else Some (Ok processed, blocked, ctx, hdr)
  end.

(** ** Encoder instructions *)

Definition xqc_decoder_set_dtable_cap (dec : xqc_decoder_t) (cap : Z) : option (res unit * xqc_decoder_t) :=
  '(r, dt) ← xqc_dtable_set_capacity mem mem junk (d_dtable dec) cap; Some (r, d_set_dtable dec dt).

Definition xqc_decoder_get_duplicate_entry_size (dec : xqc_decoder_t) (idx : Z) : option (res Z) :=
  let base_idx := xqc_dtable_get_insert_cnt (d_dtable dec) in
  if base_idx <=? idx then Some (Err XQC_QPACK_DYNAMIC_TABLE_VOID_ENTRY)
  else xqc_dtable_get_entry_size (d_dtable dec) (xqc_brel2abs base_idx idx).

Definition xqc_decoder_duplicate (dec : xqc_decoder_t) (idx : Z) : option (res unit * xqc_decoder_t) :=
  let idx := xqc_brel2abs (xqc_dtable_get_insert_cnt (d_dtable dec)) idx in
  '(r, dt) ← xqc_dtable_duplicate mem (d_dtable dec) idx;
  Some (match r with Err _ => Err XQC_QPACK_DECODER_ERROR | Ok _ => Ok tt end, d_set_dtable dec dt).

Definition xqc_decoder_insert_literal (dec : xqc_decoder_t) (name value : list Z) : option (res unit * xqc_decoder_t) :=
  '(r, dt) ← xqc_dtable_add mem (d_dtable dec) name value;
  Some (match r with Err _ => Err XQC_QPACK_DECODER_ERROR | Ok _ => Ok tt end, d_set_dtable dec dt).

Definition xqc_decoder_insert_name_ref (dec : xqc_decoder_t) (t nidx : Z) (value : list Z) : option (res unit * xqc_decoder_t) :=
  match xqc_var_buf_create mem junk XQC_HTTP3_QPACK_MAX_NAMELEN with
  | None => Some (Err XQC_EMALLOC, dec)
  | Some nbuf =>
      let nidx := if t =? XQC_DTABLE_FLAG then xqc_brel2abs (xqc_dtable_get_insert_cnt (d_dtable dec)) nidx else nidx in
      '(r, nbuf) ← xqc_decoder_name_index dec t nidx nbuf;
      match r with
      | Err _ => Some (Err XQC_QPACK_DECODER_ERROR, dec)
      | Ok _ =>
          '(r, dt) ← xqc_dtable_add mem (d_dtable dec) (vb_bytes nbuf) value;
          Some (match r with Err _ => Err XQC_QPACK_DECODER_ERROR | Ok _ => Ok tt end, d_set_dtable dec dt)
      end
  end.

Definition xqc_decoder_get_insert_cnt (dec : xqc_decoder_t) : Z := xqc_dtable_get_insert_cnt (d_dtable dec).

End ops.

End QpackDecoder.
