(* ===== verification/QpackEncoder.v ===== *)
(** The encoder of QPACK (src/src/http3/qpack/xqc_encoder.c): which header goes into which table,
    the encoded field section, and what the decoder's acknowledgements do. [None] is undefined
    behaviour of the dynamic table. *)

From Stdlib Require Import SpecFloat.
From stdpp Require Import base numbers list.
From S2P Require Import Prelude RingArray RingMem VarBuf QpackInt PrefixedStr DTable DTableRefine QpackStatic QpackIns QpackRep QpackDecoder.
Import RingArray RingMem VarBuf QpackInt PrefixedStr DTable DTableRefine QpackStatic QpackIns QpackRep QpackDecoder.

Module QpackEncoder.

(** ** Doubles *)

(** [size_t] to [double], the product, and [double] to [size_t]. *)
Definition double_of (n : Z) : spec_float := binary_normalize 53 1024 n 0 false.
Definition double_mul (x y : spec_float) : spec_float := SFmul 53 1024 x y.
Definition size_of_double (x : spec_float) : Z :=
  match x with S754_finite false m e => u64 (Z.shiftl (Z.pos m) e) | _ => 0 end.

(** [1.0 / 16] and [3.0 / 4]. *)
Definition xqc_encoder_insert_limit_name : spec_float := S754_finite false 4503599627370496 (-56).
Definition xqc_encoder_insert_limit_entry : spec_float := S754_finite false 6755399441055744 (-53).

(** ** State *)

Record xqc_encoder_unack_section_t := mk_unack {
  us_stream_id : Z;
  us_min_rep_index : Z;
  us_rqrd_insert_cnt : Z;
}.

Record xqc_encoder_blocked_stream_t := mk_blocked {
  bs_stream_id : Z;
  bs_rqrd_insert_cnt : Z;
}.

Record xqc_encoder_t := mk_enc {
  e_dtable : xqc_dtable_t;
  e_dtable_cap : Z;
  e_max_entries : Z;
  e_unack_list : list xqc_encoder_unack_section_t;
  e_min_unack_index : Z;
  e_krc : Z;
  e_max_blocked_stream : Z;
  e_blocked_stream_count : Z;
  e_blocked_list : list xqc_encoder_blocked_stream_t;
  e_name_limit : spec_float;
  e_name_len_limit : Z;
  e_entry_limit : spec_float;
  e_entry_size_limit : Z;
}.

Definition e_set_dtable e t := mk_enc t (e_dtable_cap e) (e_max_entries e) (e_unack_list e) (e_min_unack_index e) (e_krc e) (e_max_blocked_stream e) (e_blocked_stream_count e) (e_blocked_list e) (e_name_limit e) (e_name_len_limit e) (e_entry_limit e) (e_entry_size_limit e).
Definition e_set_unack e l m := mk_enc (e_dtable e) (e_dtable_cap e) (e_max_entries e) l m (e_krc e) (e_max_blocked_stream e) (e_blocked_stream_count e) (e_blocked_list e) (e_name_limit e) (e_name_len_limit e) (e_entry_limit e) (e_entry_size_limit e).
Definition e_set_krc e k := mk_enc (e_dtable e) (e_dtable_cap e) (e_max_entries e) (e_unack_list e) (e_min_unack_index e) k (e_max_blocked_stream e) (e_blocked_stream_count e) (e_blocked_list e) (e_name_limit e) (e_name_len_limit e) (e_entry_limit e) (e_entry_size_limit e).
Definition e_set_blocked e n l := mk_enc (e_dtable e) (e_dtable_cap e) (e_max_entries e) (e_unack_list e) (e_min_unack_index e) (e_krc e) (e_max_blocked_stream e) n l (e_name_limit e) (e_name_len_limit e) (e_entry_limit e) (e_entry_size_limit e).
Definition e_set_limits e cap nl nll el esl := mk_enc (e_dtable e) cap (e_max_entries e) (e_unack_list e) (e_min_unack_index e) (e_krc e) (e_max_blocked_stream e) (e_blocked_stream_count e) (e_blocked_list e) nl nll el esl.
Definition e_set_max_entries e m := mk_enc (e_dtable e) (e_dtable_cap e) m (e_unack_list e) (e_min_unack_index e) (e_krc e) (e_max_blocked_stream e) (e_blocked_stream_count e) (e_blocked_list e) (e_name_limit e) (e_name_len_limit e) (e_entry_limit e) (e_entry_size_limit e).
Definition e_set_max_blocked e m := mk_enc (e_dtable e) (e_dtable_cap e) (e_max_entries e) (e_unack_list e) (e_min_unack_index e) (e_krc e) m (e_blocked_stream_count e) (e_blocked_list e) (e_name_limit e) (e_name_len_limit e) (e_entry_limit e) (e_entry_size_limit e).

Inductive xqc_insert_type_t :=
| XQC_INSERT_NONE
| XQC_INSERT_NAME
| XQC_INSERT_NAME_REF_VALUE
| XQC_INSERT_LITERAL_NAME_VALUE.

Record xqc_hdr_enc_rule_t := mk_rule {
  r_hdr : xqc_http_header_t;
  r_ref_table : Z;
  r_never : Z;
  r_ref : xqc_nv_ref_type_t;
  r_index : Z;
  r_type : xqc_hdr_type_t;
  r_insertion : xqc_insert_type_t;
}.

Definition r_set_ref r t ref i := mk_rule (r_hdr r) t (r_never r) ref i (r_type r) (r_insertion r).
Definition r_set_never r n := mk_rule (r_hdr r) (r_ref_table r) n (r_ref r) (r_index r) (r_type r) (r_insertion r).
Definition r_set_type r t := mk_rule (r_hdr r) (r_ref_table r) (r_never r) (r_ref r) (r_index r) t (r_insertion r).
Definition r_set_insertion r i := mk_rule (r_hdr r) (r_ref_table r) (r_never r) (r_ref r) (r_index r) (r_type r) i.

(** A rule as [xqc_calloc] leaves it, with its header. *)
Definition new_rule (hdr : xqc_http_header_t) : xqc_hdr_enc_rule_t :=
  mk_rule hdr 0 0 XQC_NV_REF_NONE 0 XQC_HDR__AUTHORITY XQC_INSERT_NONE.

Record xqc_field_section_t := mk_fs {
  fs_base : Z;
  fs_rqrd_insert_cnt : Z;
  fs_min_ref_idx : Z;
}.

Definition ref_rank (r : xqc_nv_ref_type_t) : Z :=
  match r with XQC_NV_ERROR => -1 | XQC_NV_REF_NONE => 0 | XQC_NV_REF_NAME => 1 | XQC_NV_REF_NAME_AND_VALUE => 2 end.
Definition is_none (r : xqc_nv_ref_type_t) : bool := ref_rank r =? 0.
Definition is_insert_none (i : xqc_insert_type_t) : bool := match i with XQC_INSERT_NONE => true | _ => false end.

(** ** Blocked streams *)

(** The entry of a stream that is blocked already. *)
Fixpoint update_blocked (stream_id ricnt : Z) (l : list xqc_encoder_blocked_stream_t) : option (list xqc_encoder_blocked_stream_t) :=
  match l with
  | [] => None
  | s :: rest =>
      if bs_stream_id s =? stream_id then Some ((if bs_rqrd_insert_cnt s <? ricnt then mk_blocked stream_id ricnt else s) :: rest)
      else rest' ← update_blocked stream_id ricnt rest; Some (s :: rest')
  end.

(** [None]: the new stream could not be allocated, and is used all the same. *)
Definition xqc_encoder_add_blocked_stream (mem : bool) (enc : xqc_encoder_t) (stream_id ricnt : Z) : option xqc_encoder_t :=
  match update_blocked stream_id ricnt (e_blocked_list enc) with
  | Some l => Some (e_set_blocked enc (e_blocked_stream_count enc) l)
  | None =>
      if negb mem then None
      else Some (e_set_blocked enc (u64 (e_blocked_stream_count enc + 1)) (e_blocked_list enc ++ [mk_blocked stream_id ricnt]))
  end.

Fixpoint unblock_loop (krc count : Z) (l : list xqc_encoder_blocked_stream_t) : Z * list xqc_encoder_blocked_stream_t :=
  match l with
  | [] => (count, [])
  | s :: rest =>
      if bs_rqrd_insert_cnt s <=? krc then unblock_loop krc (u64 (count - 1)) rest
      else let '(count, rest) := unblock_loop krc count rest in (count, s :: rest)
  end.

Definition xqc_encoder_unblock_streams (enc : xqc_encoder_t) : xqc_encoder_t :=
  let '(n, l) := unblock_loop (e_krc enc) (e_blocked_stream_count enc) (e_blocked_list enc) in e_set_blocked enc n l.

Definition xqc_encoder_check_block_stream_limit (enc : xqc_encoder_t) (stream_id : Z) : bool :=
  if existsb (fun s => bs_stream_id s =? stream_id) (e_blocked_list enc) then false
  else e_max_blocked_stream enc <=? e_blocked_stream_count enc.

(** ** Limits and creation *)

Definition xqc_encoder_update_insert_len_limit (enc : xqc_encoder_t) : xqc_encoder_t :=
  let mul l := size_of_double (double_mul (double_of (e_dtable_cap enc)) l) in
  e_set_limits enc (e_dtable_cap enc) (e_name_limit enc) (mul (e_name_limit enc)) (e_entry_limit enc) (mul (e_entry_limit enc)).

Definition xqc_encoder_set_insert_limit (enc : xqc_encoder_t) (nlimit elimit : spec_float) : xqc_encoder_t :=
  xqc_encoder_update_insert_len_limit
    (e_set_limits enc (e_dtable_cap enc) nlimit (e_name_len_limit enc) elimit (e_entry_size_limit enc)).

Definition xqc_encoder_create (mem : bool) (esize : Z) : option xqc_encoder_t :=
  if negb mem then None
  else
    dt ← xqc_dtable_create mem esize XQC_QPACK_DEFAULT_HASH_TABLE_SIZE true;
    Some (xqc_encoder_set_insert_limit
            (mk_enc dt 0 0 [] XQC_INVALID_INDEX 0 0 0 [] (S754_zero false) 0 (S754_zero false) 0)
            xqc_encoder_insert_limit_name xqc_encoder_insert_limit_entry).

Definition xqc_encoder_set_dtable_cap (mem : bool) (junk : Z -> list Z) (enc : xqc_encoder_t) (cap : Z) : option (res unit * xqc_encoder_t) :=
  '(r, dt) ← xqc_dtable_set_capacity mem mem junk (e_dtable enc) cap;
  let enc := e_set_dtable enc dt in
  Some (match r with
        | Ok _ =>
            (Ok tt, xqc_encoder_update_insert_len_limit
                      (e_set_limits enc cap (e_name_limit enc) (e_name_len_limit enc) (e_entry_limit enc) (e_entry_size_limit enc)))
        | Err e => (Err e, enc)
        end).

Definition xqc_encoder_set_max_dtable_cap (enc : xqc_encoder_t) (max_cap : Z) : res unit * xqc_encoder_t :=
  if negb (e_max_entries enc =? 0) then (Err XQC_QPACK_STATE_ERROR, enc)
  else (Ok tt, e_set_max_entries enc (xqc_dtable_max_entry_cnt max_cap)).

Definition xqc_encoder_set_max_blocked_stream (enc : xqc_encoder_t) (max_blocked_stream : Z) : res unit * xqc_encoder_t :=
  (Ok tt, e_set_max_blocked enc max_blocked_stream).

(** ** Lookup and strategy *)

Definition name_bytes (r : xqc_hdr_enc_rule_t) : list Z := iov_bytes (h_name (r_hdr r)).
Definition value_bytes (r : xqc_hdr_enc_rule_t) : list Z := iov_bytes (h_value (r_hdr r)).

Definition xqc_encoder_lookup_nv (enc : xqc_encoder_t) (info : xqc_hdr_enc_rule_t) : option (res unit * xqc_hdr_enc_rule_t) :=
  let name := name_bytes info in
  let value := value_bytes info in
  let info := r_set_type info (xqc_h3_hdr_type name) in
  let '(stable_ref, stable_idx) :=
    if not_static (r_type info) then (XQC_NV_REF_NONE, None) else xqc_stable_lookup name value (r_type info) in
  '(dtable_ref, dtable_idx) ← (if ref_rank stable_ref =? ref_rank XQC_NV_REF_NAME_AND_VALUE then Some (XQC_NV_REF_NONE, None)
                               else xqc_dtable_lookup (e_dtable enc) name value);
  if ref_rank dtable_ref =? -1 then Some (Err XQC_ERROR, info)
  else
    Some (Ok tt,
          if negb (is_none stable_ref) || negb (is_none dtable_ref) then
            if ref_rank dtable_ref <=? ref_rank stable_ref
            then r_set_ref info XQC_STABLE_FLAG stable_ref (default XQC_INVALID_INDEX stable_idx)
            else r_set_ref info XQC_DTABLE_FLAG dtable_ref (default XQC_INVALID_INDEX dtable_idx)
          else info).

Definition xqc_encoder_never_idx_value_hdr (info : xqc_hdr_enc_rule_t) : bool :=
  if negb (h_flags (r_hdr info) .& XQC_HTTP_HEADER_FLAG_NEVER_INDEX_VALUE =? 0) then true
  else
    match r_type info with
    | XQC_HDR_AUTHORIZATION => true
    | XQC_HDR_COOKIE => iov_len (h_value (r_hdr info)) <? 20
    | _ => false
    end.

Definition xqc_encoder_check_insert (enc : xqc_encoder_t) (info : xqc_hdr_enc_rule_t) (blocked : bool) : bool * xqc_hdr_enc_rule_t :=
  if e_max_entries enc =? 0 then (false, info)
  else if negb blocked then (true, info)
  else
    (false,
     if (r_ref_table info =? XQC_DTABLE_FLAG) && negb (is_none (r_ref info)) && (e_krc enc <=? r_index info)
     then r_set_ref info (r_ref_table info) XQC_NV_REF_NONE XQC_INVALID_INDEX else info).

Definition xqc_encoder_check_never_value_index_mode (enc : xqc_encoder_t) (info : xqc_hdr_enc_rule_t) (blocked : bool) : xqc_hdr_enc_rule_t :=
  let '(ok, info) := xqc_encoder_check_insert enc (r_set_never info 1) blocked in
  if negb ok then info
  else if is_none (r_ref info) then
    if iov_len (h_name (r_hdr info)) <=? e_name_len_limit enc then r_set_insertion info XQC_INSERT_NAME else info
  else info.

Definition xqc_encoder_check_normal_index_mode (enc : xqc_encoder_t) (info : xqc_hdr_enc_rule_t) (blocked : bool) : xqc_hdr_enc_rule_t :=
  let '(ok, info) := xqc_encoder_check_insert enc info blocked in
  if negb ok then info
  else
    let nlen := iov_len (h_name (r_hdr info)) in
    let esz := xqc_dtable_entry_size nlen (iov_len (h_value (r_hdr info))) in
    match r_ref info with
    | XQC_NV_REF_NONE =>
        if nlen <=? e_name_len_limit enc then
          r_set_insertion info (if esz <=? e_entry_size_limit enc then XQC_INSERT_LITERAL_NAME_VALUE else XQC_INSERT_NAME)
        else info
    | XQC_NV_REF_NAME =>
        if esz <=? e_entry_size_limit enc then r_set_insertion info XQC_INSERT_NAME_REF_VALUE else info
    | _ => info
    end.

Definition xqc_encoder_check_index_mode (enc : xqc_encoder_t) (info : xqc_hdr_enc_rule_t) (blocked : bool) : xqc_hdr_enc_rule_t :=
  let info := r_set_insertion info XQC_INSERT_NONE in
  if xqc_encoder_never_idx_value_hdr info then xqc_encoder_check_never_value_index_mode enc info blocked
  else xqc_encoder_check_normal_index_mode enc info blocked.

Section ops.

Context (mem : bool) (junk : Z -> list Z).

(** ** Insertion *)

Definition xqc_encoder_write_insert_ins (ins : xqc_var_buf_t) (info : xqc_hdr_enc_rule_t) (base_idx : Z) : res unit * xqc_var_buf_t :=
  match r_insertion info with
  | XQC_INSERT_NAME => xqc_ins_write_insert_literal_name mem junk ins (name_bytes info) []
  | XQC_INSERT_NAME_REF_VALUE =>
      let idx := if r_ref_table info =? XQC_DTABLE_FLAG then xqc_abs2brel base_idx (r_index info) else r_index info in
      xqc_ins_write_insert_name_ref mem junk ins (r_ref_table info) idx (value_bytes info)
  | XQC_INSERT_LITERAL_NAME_VALUE => xqc_ins_write_insert_literal_name mem junk ins (name_bytes info) (value_bytes info)
  | XQC_INSERT_NONE => (Ok tt, ins)
  end.

(** The table, the rule and the instructions after an insertion. *)
Definition xqc_encoder_insert (dt : xqc_dtable_t) (info : xqc_hdr_enc_rule_t) (ins : xqc_var_buf_t)
    : option (res unit * xqc_dtable_t * xqc_hdr_enc_rule_t * xqc_var_buf_t) :=
  let base_idx := xqc_dtable_get_insert_cnt dt in
  if is_insert_none (r_insertion info) then Some (Ok tt, dt, info, ins)
  else
    '(r, dt) ← xqc_dtable_add mem dt (name_bytes info)
                 (match r_insertion info with XQC_INSERT_NAME => [] | _ => value_bytes info end);
    match r with
    | Err _ => Some (Ok tt, dt, r_set_insertion info XQC_INSERT_NONE, ins)
    | Ok idx =>
        Some (match xqc_encoder_write_insert_ins ins info base_idx with
              | (Err e, ins) => (Err e, dt, info, ins)
              | (Ok _, ins) =>
                  (Ok tt, dt,
                   r_set_ref info XQC_DTABLE_FLAG
                     (match r_insertion info with XQC_INSERT_NAME => XQC_NV_REF_NAME | _ => XQC_NV_REF_NAME_AND_VALUE end) idx, ins)
              end)
    end.

Definition xqc_encoder_try_duplicate (dt : xqc_dtable_t) (info : xqc_hdr_enc_rule_t) (ins : xqc_var_buf_t)
    : option (res unit * xqc_dtable_t * xqc_hdr_enc_rule_t * xqc_var_buf_t) :=
  let base_index := xqc_dtable_get_insert_cnt dt in
  d ← xqc_dtable_is_entry_draining dt (r_index info);
  match d with
  | Err e => Some (Err e, dt, info, ins)
  | Ok false => Some (Ok tt, dt, info, ins)
  | Ok true =>
      '(r, dt) ← xqc_dtable_duplicate mem dt (r_index info);
      match r with
      | Err e => Some (Err e, dt, info, ins)
      | Ok dup_idx =>
          Some (match xqc_ins_write_dup mem junk ins (xqc_abs2brel base_index (r_index info)) with
                | (Err e, ins) => (Err e, dt, info, ins)
                | (Ok _, ins) => (Ok tt, dt, r_set_ref info (r_ref_table info) (r_ref info) dup_idx, ins)
                end)
      end
  end.

(** ** Preparation *)

Definition refers_dtable (info : xqc_hdr_enc_rule_t) : bool := negb (is_none (r_ref info)) && (r_ref_table info =? XQC_DTABLE_FLAG).

(** After the rule of a header is decided: the smallest reference and the required insert count. *)
Definition update_section (enc : xqc_encoder_t) (fs : xqc_field_section_t) (info : xqc_hdr_enc_rule_t)
    : option (res unit * xqc_encoder_t * xqc_field_section_t) :=
  '(r, enc, fs) ← (if refers_dtable info && (r_index info <? fs_min_ref_idx fs) then
                     let fs := mk_fs (fs_base fs) (fs_rqrd_insert_cnt fs) (r_index info) in
                     if fs_min_ref_idx fs <? e_min_unack_index enc then
                       '(r, dt) ← xqc_dtable_set_min_ref (e_dtable enc) (r_index info); Some (r, e_set_dtable enc dt, fs)
                     else Some (Ok tt, enc, fs)
                   else Some (Ok tt, enc, fs));
  match (r : res unit) with
  | Err e => Some (Err e, enc, fs)
  | Ok _ =>
      Some (Ok tt, enc,
            if refers_dtable info && (fs_rqrd_insert_cnt fs <? u64 (r_index info + 1))
            then mk_fs (fs_base fs) (u64 (r_index info + 1)) (fs_min_ref_idx fs) else fs)
  end.

(** One round of the loop of [xqc_encoder_prepare]. *)
Definition prepare_hdr (limited : bool) (enc : xqc_encoder_t) (fs : xqc_field_section_t) (ins : xqc_var_buf_t) (hdr : xqc_http_header_t)
    : option (res xqc_hdr_enc_rule_t * xqc_encoder_t * xqc_field_section_t * xqc_var_buf_t) :=
  let info := new_rule hdr in
  if negb (h_flags hdr .& XQC_HTTP_HEADER_FLAG_NEVER_INDEX =? 0)
  then Some (Ok (r_set_never (r_set_ref info (r_ref_table info) XQC_NV_REF_NONE (r_index info)) 1), enc, fs, ins)
  else
    '(r, info) ← xqc_encoder_lookup_nv enc info;
    match r with
    | Err e => Some (Err e, enc, fs, ins)
    | Ok _ =>
        let info := xqc_encoder_check_index_mode enc info limited in
        '(r, dt, info, ins) ← (if negb (is_insert_none (r_insertion info)) then xqc_encoder_insert (e_dtable enc) info ins
                               else if negb limited && refers_dtable info then
                                 '(_, dt, info, ins) ← xqc_encoder_try_duplicate (e_dtable enc) info ins; Some (Ok tt, dt, info, ins)
                               else Some (Ok tt, e_dtable enc, info, ins));
        let enc := e_set_dtable enc dt in
        match (r : res unit) with
        | Err e => Some (Err e, enc, fs, ins)
        | Ok _ =>
            '(r, enc, fs) ← update_section enc fs info;
            Some (match r with Err e => (Err e, enc, fs, ins) | Ok _ => (Ok info, enc, fs, ins) end)
        end
    end.

Fixpoint prepare_loop (limited : bool) (enc : xqc_encoder_t) (fs : xqc_field_section_t) (ins : xqc_var_buf_t) (hdrs : list xqc_http_header_t)
    : option (res (list xqc_hdr_enc_rule_t) * xqc_encoder_t * xqc_field_section_t * xqc_var_buf_t) :=
  match hdrs with
  | [] => Some (Ok [], enc, fs, ins)
  | hdr :: rest =>
      '(r, enc, fs, ins) ← prepare_hdr limited enc fs ins hdr;
      match r with
      | Err e => Some (Err e, enc, fs, ins)
      | Ok info =>
          '(rs, enc, fs, ins) ← prepare_loop limited enc fs ins rest;
          Some (match rs with Err e => Err e | Ok infos => Ok (info :: infos) end, enc, fs, ins)
      end
  end.

Definition xqc_encoder_prepare (enc : xqc_encoder_t) (hdrs : list xqc_http_header_t) (fs : xqc_field_section_t) (ins : xqc_var_buf_t) (stream_id : Z)
    : option (res (list xqc_hdr_enc_rule_t) * xqc_encoder_t * xqc_field_section_t * xqc_var_buf_t) :=
  prepare_loop (xqc_encoder_check_block_stream_limit enc stream_id) enc fs ins hdrs.

(** ** The encoded field section *)

(** One field line. *)
Definition write_line (base : Z) (buf : xqc_var_buf_t) (info : xqc_hdr_enc_rule_t) : res unit * xqc_var_buf_t :=
  let '(idx, pb) :=
    if r_ref_table info =? XQC_DTABLE_FLAG then
      if base <=? r_index info then (xqc_abs2pbrel base (r_index info), true) else (xqc_abs2brel base (r_index info), false)
    else (r_index info, false) in
  match r_ref info with
  | XQC_NV_REF_NONE => xqc_rep_write_literal_name_value mem junk buf (r_never info) (name_bytes info) (value_bytes info)
  | XQC_NV_REF_NAME =>
      if pb : bool then xqc_rep_write_literal_with_pb_name_ref mem junk buf (r_never info) idx (value_bytes info)
      else xqc_rep_write_literal_with_name_ref mem junk buf (r_never info) (r_ref_table info) idx (value_bytes info)
  | _ => if pb : bool then xqc_rep_write_indexed_pb mem junk buf idx else xqc_rep_write_indexed mem junk buf (r_ref_table info) idx
  end.

Fixpoint write_lines (base : Z) (buf : xqc_var_buf_t) (reps : list xqc_hdr_enc_rule_t) : res unit * xqc_var_buf_t :=
  match reps with
  | [] => (Ok tt, buf)
  | info :: rest =>
      match write_line base buf info with
      | (Err e, buf) => (Err e, buf)
      | (Ok _, buf) => write_lines base buf rest
      end
  end.

Definition xqc_encoder_write_efs (enc : xqc_encoder_t) (fs : xqc_field_section_t) (reps : list xqc_hdr_enc_rule_t) (buf : xqc_var_buf_t)
    : res unit * xqc_var_buf_t :=
  match xqc_rep_write_prefix mem junk buf (e_max_entries enc) (fs_rqrd_insert_cnt fs) (fs_base fs) with
  | (Err e, buf) => (Err e, buf)
  | (Ok _, buf) => write_lines (fs_base fs) buf reps
  end.

Definition xqc_encoder_save_unacked (enc : xqc_encoder_t) (stream_id : Z) (fs : xqc_field_section_t) : res unit * xqc_encoder_t :=
  if negb (fs_rqrd_insert_cnt fs =? 0) then
    if negb mem then (Err XQC_EMALLOC, enc)
    else
      (Ok tt, e_set_unack enc (e_unack_list enc ++ [mk_unack stream_id (fs_min_ref_idx fs) (fs_rqrd_insert_cnt fs)])
                (if fs_min_ref_idx fs <? e_min_unack_index enc then fs_min_ref_idx fs else e_min_unack_index enc))
  else (Ok tt, enc).

(** The encoder, the field section and the instructions. *)
Definition xqc_encoder_enc_headers (enc : xqc_encoder_t) (efs ins : xqc_var_buf_t) (stream_id : Z) (hdrs : list xqc_http_header_t)
    : option (res unit * xqc_encoder_t * xqc_var_buf_t * xqc_var_buf_t) :=
  if Z.of_nat (length hdrs) =? 0 then Some (Ok tt, enc, efs, ins)
  else if negb mem then Some (Err XQC_EMALLOC, enc, efs, ins)
  else
    '(rs, enc, fs, ins) ← xqc_encoder_prepare enc hdrs (mk_fs (xqc_dtable_get_insert_cnt (e_dtable enc)) 0 XQC_INVALID_INDEX) ins stream_id;
    match rs with
    | Err e => Some (Err e, enc, efs, ins)
    | Ok reps =>
        match xqc_encoder_write_efs enc fs reps efs with
        | (Err e, efs) => Some (Err e, enc, efs, ins)
        | (Ok _, efs) =>
            match xqc_encoder_save_unacked enc stream_id fs with
            | (Err e, enc) => Some (Err e, enc, efs, ins)
            | (Ok _, enc) =>
                if e_krc enc <? fs_rqrd_insert_cnt fs
                then enc ← xqc_encoder_add_blocked_stream mem enc stream_id (fs_rqrd_insert_cnt fs); Some (Ok tt, enc, efs, ins)
                else Some (Ok tt, enc, efs, ins)
            end
        end
    end.

End ops.

(** ** Acknowledgements *)

(** The smallest index that a section refers to, once a section more is looked at. *)
Definition min_index (m : Z) (s : xqc_encoder_unack_section_t) : Z :=
  if negb (us_min_rep_index s =? XQC_INVALID_INDEX) && ((m =? XQC_INVALID_INDEX) || (us_min_rep_index s <? m))
  then us_min_rep_index s else m.

(** The loop of [xqc_encoder_section_ack]. *)
Fixpoint ack_loop (enc : xqc_encoder_t) (stream_id : Z) (found : bool) (min : Z) (l kept : list xqc_encoder_unack_section_t)
    : bool * xqc_encoder_t :=
  match l with
  | [] => (found, e_set_unack enc kept min)
  | s :: rest =>
      if negb found && (us_stream_id s =? stream_id) then
        let enc := if e_krc enc <? us_rqrd_insert_cnt s
                   then xqc_encoder_unblock_streams (e_set_krc enc (us_rqrd_insert_cnt s)) else enc in
        ack_loop enc stream_id true min rest kept
      else ack_loop enc stream_id found (min_index min s) rest (kept ++ [s])
  end.

Definition xqc_encoder_section_ack (enc : xqc_encoder_t) (stream_id : Z) : option (res unit * xqc_encoder_t) :=
  let '(found, enc) := ack_loop enc stream_id false XQC_INVALID_INDEX (e_unack_list enc) [] in
  if negb found then Some (Err XQC_ERROR, enc)
  else '(r, dt) ← xqc_dtable_set_min_ref (e_dtable enc) (e_min_unack_index enc); Some (r, e_set_dtable enc dt).

Fixpoint remove_blocked (stream_id count : Z) (l : list xqc_encoder_blocked_stream_t) : Z * list xqc_encoder_blocked_stream_t :=
  match l with
  | [] => (count, [])
  | s :: rest =>
      if bs_stream_id s =? stream_id then (u64 (count - 1), rest)
      else let '(count, rest) := remove_blocked stream_id count rest in (count, s :: rest)
  end.

Definition xqc_encoder_cancel_stream (enc : xqc_encoder_t) (stream_id : Z) : option (res unit * xqc_encoder_t) :=
  let kept := List.filter (fun s => negb (us_stream_id s =? stream_id)) (e_unack_list enc) in
  let enc := e_set_unack enc kept (fold_left min_index kept XQC_INVALID_INDEX) in
  '(r, dt) ← xqc_dtable_set_min_ref (e_dtable enc) (e_min_unack_index enc);
  let enc := e_set_dtable enc dt in
  Some (match r with
        | Err e => (Err e, enc)
        | Ok _ => let '(n, l) := remove_blocked stream_id (e_blocked_stream_count enc) (e_blocked_list enc) in (Ok tt, e_set_blocked enc n l)
        end).

Definition xqc_encoder_increase_known_rcvd_count (enc : xqc_encoder_t) (increment : Z) : res unit * xqc_encoder_t :=
  if increment =? 0 then (Err QPACK_DECODER_STREAM_ERROR, enc)
  else
    let enc := e_set_krc enc (u64 (e_krc enc + increment)) in
    if xqc_dtable_get_insert_cnt (e_dtable enc) <? e_krc enc then (Err QPACK_DECODER_STREAM_ERROR, enc)
    else (Ok tt, xqc_encoder_unblock_streams enc).

End QpackEncoder.
