(* ===== verification/Qpack.v ===== *)
(** The handler of QPACK (src/src/http3/qpack/xqc_qpack.c): an encoder and a decoder with their
    instruction streams. The buffers that [get_buf_cb] returns are the send buffers of those
    streams; [None] is a stream that does not exist. *)

From Stdlib Require Import SpecFloat.
From stdpp Require Import base numbers list.
From S2P Require Import Prelude RingArray RingMem VarBuf QpackInt PrefixedStr DTable DTableRefine QpackStatic QpackIns QpackRep QpackDecoder QpackEncoder.
Import RingArray RingMem VarBuf QpackInt PrefixedStr DTable DTableRefine QpackStatic QpackIns QpackRep QpackDecoder QpackEncoder.

Module Qpack.

Definition XQC_QPACK_ENCODER_ERROR : Z := 901.
Definition XQC_QPACK_SET_DTABLE_CAP_ERROR : Z := 905.
Definition XQC_QPACK_SAVE_HEADERS_ERROR : Z := 907.
Definition XQC_QPACK_INSTRUCTION_ERROR : Z := 909.
Definition XQC_QPACK_DYNAMIC_TABLE_EXCESSIVE_LOAD : Z := 916.
Definition XQC_H3_INVALID_HEADER : Z := 823.
Definition XQC_H3_EPARAM : Z := 811.
Definition XQC_H3_EMALLOC : Z := 800.
Definition XQC_H3_REQUEST_INITIAL_HEADERS_CAPACITY : Z := 32.
Definition XQC_QPACK_DUPLICATE_WORK_HARD_LIMIT_MULTIPLIER : Z := 4.
Definition UINT64_MAX : Z := 2 ^ 64 - 1.

Record xqc_qpack_t := mk_qpk {
  q_enc : xqc_encoder_t;
  q_dec : xqc_decoder_t;
  q_dctx : xqc_ins_dec_ctx_t;
  q_ectx : xqc_ins_enc_ctx_t;
  q_dec_max_cap : Z;
  q_enc_max_cap : Z;
  q_dup_second : Z;
  q_dup_bytes : Z;
  q_dup_warned : bool;
}.

Definition q_set_enc q e := mk_qpk e (q_dec q) (q_dctx q) (q_ectx q) (q_dec_max_cap q) (q_enc_max_cap q) (q_dup_second q) (q_dup_bytes q) (q_dup_warned q).
Definition q_set_dec q d := mk_qpk (q_enc q) d (q_dctx q) (q_ectx q) (q_dec_max_cap q) (q_enc_max_cap q) (q_dup_second q) (q_dup_bytes q) (q_dup_warned q).
Definition q_set_dctx q c := mk_qpk (q_enc q) (q_dec q) c (q_ectx q) (q_dec_max_cap q) (q_enc_max_cap q) (q_dup_second q) (q_dup_bytes q) (q_dup_warned q).
Definition q_set_ectx q c := mk_qpk (q_enc q) (q_dec q) (q_dctx q) c (q_dec_max_cap q) (q_enc_max_cap q) (q_dup_second q) (q_dup_bytes q) (q_dup_warned q).
Definition q_set_dup q s b w := mk_qpk (q_enc q) (q_dec q) (q_dctx q) (q_ectx q) (q_dec_max_cap q) (q_enc_max_cap q) s b w.

(** ** Headers (src/src/http3/xqc_h3_header.c) *)

(** The first [count] elements of the array. *)
Record xqc_http_headers_t := mk_hdrs {
  hs_headers : list xqc_http_header_t;
  hs_capacity : Z;
  hs_total_len : Z;
}.

Definition hs_count (h : xqc_http_headers_t) : Z := Z.of_nat (length (hs_headers h)).

Definition xqc_h3_headers_initial : xqc_http_headers_t := mk_hdrs [] 0 0.

Definition xqc_h3_headers_create_buf (mem : bool) (capacity : Z) : xqc_http_headers_t :=
  if negb mem then mk_hdrs [] 0 0 else mk_hdrs [] capacity 0.

Definition xqc_h3_headers_realloc_buf (mem : bool) (headers : xqc_http_headers_t) (capacity : Z) : res xqc_http_headers_t :=
  if capacity <? hs_count headers then Err XQC_H3_EPARAM
  else if negb mem then Err XQC_H3_EMALLOC
  else Ok (mk_hdrs (hs_headers headers) capacity (hs_total_len headers)).

Definition xqc_qpack_headers_exceed_size (headers : xqc_http_headers_t) (hdr : xqc_http_header_t) (max_field_section_size : Z) : bool :=
  let remaining := max_field_section_size in
  if remaining <? hs_total_len headers then true
  else
    let remaining := remaining - hs_total_len headers in
    if remaining / 32 <=? hs_count headers then true
    else
      let remaining := u64 (remaining - u64 ((hs_count headers + 1) * 32)) in
      if remaining <? iov_len (h_name hdr) then true
      else
        let remaining := remaining - iov_len (h_name hdr) in
        remaining <? iov_len (h_value hdr).

Section ops.

Context (mem : bool) (junk : Z -> list Z).

Definition xqc_qpack_create (esize enc_max_cap dec_max_cap : Z) : option xqc_qpack_t :=
  if negb mem then None
  else
    dec ← xqc_decoder_create mem esize dec_max_cap;
    enc ← xqc_encoder_create mem esize;
    ectx ← xqc_ins_encoder_ctx_create mem junk;
    dctx ← xqc_ins_decoder_ctx_create mem;
    Some (mk_qpk enc dec dctx ectx dec_max_cap enc_max_cap 0 0 false).

(** ** Notifications *)

(** An instruction in the send buffer of its stream; [write_ins_cb] sends what it can. *)
Definition notify (buf : option xqc_var_buf_t) (write : xqc_var_buf_t -> res unit * xqc_var_buf_t) : res unit * option xqc_var_buf_t :=
  match buf with
  | None => (Err XQC_ENOBUF, None)
  | Some buf => let '(r, buf) := write buf in (r, Some buf)
  end.

Definition xqc_qpack_notify_set_dtable_cap (buf : option xqc_var_buf_t) (cap : Z) :=
  notify buf (fun b => xqc_ins_write_set_dtable_cap mem junk b cap).
Definition xqc_qpack_notify_insert_cnt_increment (buf : option xqc_var_buf_t) (increment : Z) :=
  notify buf (fun b => xqc_ins_write_icnt_increment mem junk b increment).
Definition xqc_qpack_notify_section_ack (buf : option xqc_var_buf_t) (stream_id : Z) :=
  notify buf (fun b => xqc_ins_write_section_ack mem junk b stream_id).

(** ** Settings *)

Definition xqc_qpack_set_enc_max_dtable_cap (qpk : xqc_qpack_t) (max_cap : Z) : res unit * xqc_qpack_t :=
  let '(r, e) := xqc_encoder_set_max_dtable_cap (q_enc qpk) max_cap in (r, q_set_enc qpk e).

(** [ebuf]: the send buffer of the encoder stream. *)
Definition xqc_qpack_set_dtable_cap (qpk : xqc_qpack_t) (ebuf : option xqc_var_buf_t) (cap : Z)
    : option (res unit * xqc_qpack_t * option xqc_var_buf_t) :=
  let min_cap := Z.min cap (q_enc_max_cap qpk) in
  '(r, e) ← xqc_encoder_set_dtable_cap mem junk (q_enc qpk) min_cap;
  let qpk := q_set_enc qpk e in
  match r with
  | Err e => Some (Err e, qpk, ebuf)
  | Ok _ => let '(r, ebuf) := xqc_qpack_notify_set_dtable_cap ebuf min_cap in Some (r, qpk, ebuf)
  end.

Definition xqc_qpack_set_max_blocked_stream (qpk : xqc_qpack_t) (max_blocked_stream : Z) : res unit * xqc_qpack_t :=
  let '(r, e) := xqc_encoder_set_max_blocked_stream (q_enc qpk) max_blocked_stream in (r, q_set_enc qpk e).

Definition xqc_qpack_set_enc_insert_limit (qpk : xqc_qpack_t) (name_limit entry_limit : spec_float) : xqc_qpack_t :=
  q_set_enc qpk (xqc_encoder_set_insert_limit (q_enc qpk) name_limit entry_limit).

Definition xqc_qpack_get_dec_insert_count (qpk : xqc_qpack_t) : Z := xqc_decoder_get_insert_cnt (q_dec qpk).

(** ** The encoder stream *)

(** [now]: the time in microseconds. *)
Definition xqc_qpack_account_duplicate_work (qpk : xqc_qpack_t) (relative_idx now : Z) : option (res unit * xqc_qpack_t) :=
  r ← xqc_decoder_get_duplicate_entry_size (q_dec qpk) relative_idx;
  match r with
  | Err _ => Some (Err XQC_QPACK_DECODER_ERROR, qpk)
  | Ok work_size =>
      let now_second := now / 1000000 in
      let qpk := if q_dup_second qpk <? now_second then q_set_dup qpk now_second 0 false else qpk in
      let hard_limit := if UINT64_MAX / XQC_QPACK_DUPLICATE_WORK_HARD_LIMIT_MULTIPLIER <? q_dec_max_cap qpk then UINT64_MAX
                        else q_dec_max_cap qpk * XQC_QPACK_DUPLICATE_WORK_HARD_LIMIT_MULTIPLIER in
      if u64 (hard_limit - q_dup_bytes qpk) <? work_size then Some (Err XQC_QPACK_DYNAMIC_TABLE_EXCESSIVE_LOAD, qpk)
      else
        let bytes := u64 (q_dup_bytes qpk + work_size) in
        Some (Ok tt, q_set_dup qpk (q_dup_second qpk) bytes (if q_dec_max_cap qpk <? bytes then true else q_dup_warned qpk))
  end.

Definition xqc_qpack_on_encoder_ins (qpk : xqc_qpack_t) (now : Z) : option (res unit * xqc_qpack_t) :=
  let ctx := q_ectx qpk in
  match ie_type ctx with
  | XQC_INS_TYPE_ENC_SET_DTABLE_CAP =>
      if q_dec_max_cap qpk <? pi_value (ie_capacity ctx) then Some (Err XQC_QPACK_SET_DTABLE_CAP_ERROR, qpk)
      else '(r, d) ← xqc_decoder_set_dtable_cap mem junk (q_dec qpk) (pi_value (ie_capacity ctx)); Some (r, q_set_dec qpk d)
  | XQC_INS_TYPE_ENC_INSERT_NAME_REF =>
      '(r, d) ← xqc_decoder_insert_name_ref mem junk (q_dec qpk) (ie_table ctx) (pi_value (ie_name_index ctx)) (vb_bytes (ps_value (ie_value ctx)));
      Some (r, q_set_dec qpk d)
  | XQC_INS_TYPE_ENC_INSERT_LITERAL =>
      '(r, d) ← xqc_decoder_insert_literal mem (q_dec qpk) (vb_bytes (ps_value (ie_name ctx))) (vb_bytes (ps_value (ie_value ctx)));
      Some (r, q_set_dec qpk d)
  | XQC_INS_TYPE_ENC_DUP =>
      '(r, qpk) ← xqc_qpack_account_duplicate_work qpk (pi_value (ie_name_index ctx)) now;
      match r with
      | Err e => Some (Err e, qpk)
      | Ok _ => '(r, d) ← xqc_decoder_duplicate mem (q_dec qpk) (pi_value (ie_name_index ctx)); Some (r, q_set_dec qpk d)
      end
  end.

(** [while (processed < data_len)]; every round reads a byte at least. [clock] is the time when
    that many bytes are processed. *)
Fixpoint process_encoder_loop (fuel : nat) (clock : Z -> Z) (qpk : xqc_qpack_t) (data : list Z) (processed : Z)
    : option (res Z * xqc_qpack_t) :=
  if processed <? zlen data then
    match fuel with
    | O => None
    | S fuel =>
        match xqc_ins_parse_encoder mem junk (drop (Z.to_nat processed) data) (q_ectx qpk) with
        | (Err e, ctx) => Some (Err e, q_set_ectx qpk ctx)
        | (Ok read, ctx) =>
            let qpk := q_set_ectx qpk ctx in
            let processed := processed + read in
            if negb (ie_is_finish (ie_state ctx)) && negb (zlen data =? processed) then Some (Err XQC_QPACK_INSTRUCTION_ERROR, qpk)
            else if ie_is_finish (ie_state ctx) then
              '(r, qpk) ← xqc_qpack_on_encoder_ins qpk (clock processed);
              match (r : res unit) with
              | Err e => Some (Err e, qpk)
              | Ok _ => process_encoder_loop fuel clock qpk data processed
              end
            else process_encoder_loop fuel clock qpk data processed
        end
    end
  else Some (Ok processed, qpk).

(** [dbuf]: the send buffer of the decoder stream. *)
Definition xqc_qpack_process_encoder (clock : Z -> Z) (qpk : xqc_qpack_t) (data : list Z) (dbuf : option xqc_var_buf_t)
    : option (res Z * xqc_qpack_t * option xqc_var_buf_t) :=
  let ori_krc := xqc_qpack_get_dec_insert_count qpk in
  '(r, qpk) ← process_encoder_loop (length data) clock qpk data 0;
  match r with
  | Err e => Some (Err e, qpk, dbuf)
  | Ok processed =>
      if ori_krc <? xqc_qpack_get_dec_insert_count qpk then
        match xqc_qpack_notify_insert_cnt_increment dbuf (u64 (xqc_qpack_get_dec_insert_count qpk - ori_krc)) with
        | (Err e, dbuf) => Some (Err e, qpk, dbuf)
        | (Ok _, dbuf) => Some (Ok processed, qpk, dbuf)
        end
      else Some (Ok processed, qpk, dbuf)
  end.

(** ** The decoder stream *)

Definition xqc_qpack_on_decoder_ins (qpk : xqc_qpack_t) : option (res unit * xqc_qpack_t) :=
  let ctx := q_dctx qpk in
  '(r, e) ← match id_type ctx with
            | XQC_INS_TYPE_DEC_SECTION_ACK => xqc_encoder_section_ack (q_enc qpk) (pi_value (id_stream_id ctx))
            | XQC_INS_TYPE_DEC_STREAM_CANCEL => xqc_encoder_cancel_stream (q_enc qpk) (pi_value (id_stream_id ctx))
            | XQC_INS_TYPE_DEC_INSERT_CNT_INC => Some (xqc_encoder_increase_known_rcvd_count (q_enc qpk) (pi_value (id_increment ctx)))
            end;
  Some (match r with Err _ => Err XQC_QPACK_ENCODER_ERROR | Ok _ => Ok tt end, q_set_enc qpk e).

Fixpoint process_decoder_loop (fuel : nat) (qpk : xqc_qpack_t) (data : list Z) (processed : Z) : option (res Z * xqc_qpack_t) :=
  if processed <? zlen data then
    match fuel with
    | O => None
    | S fuel =>
        match xqc_ins_parse_decoder (drop (Z.to_nat processed) data) (q_dctx qpk) with
        | (Err e, ctx) => Some (Err e, q_set_dctx qpk ctx)
        | (Ok read, ctx) =>
            let qpk := q_set_dctx qpk ctx in
            let processed := processed + read in
            if negb (id_is_finish (id_state ctx)) && negb (zlen data =? processed) then Some (Err XQC_QPACK_INSTRUCTION_ERROR, qpk)
            else if id_is_finish (id_state ctx) then
              '(r, qpk) ← xqc_qpack_on_decoder_ins qpk;
              match (r : res unit) with
              | Err e => Some (Err e, qpk)
              | Ok _ => process_decoder_loop fuel qpk data processed
              end
            else process_decoder_loop fuel qpk data processed
        end
    end
  else Some (Ok processed, qpk).

Definition xqc_qpack_process_decoder (qpk : xqc_qpack_t) (data : list Z) : option (res Z * xqc_qpack_t) :=
  process_decoder_loop (length data) qpk data 0.

(** ** Field sections *)

Definition xqc_qpack_enc_headers (qpk : xqc_qpack_t) (stream_id : Z) (headers : list xqc_http_header_t) (data : xqc_var_buf_t)
    (ebuf : option xqc_var_buf_t) : option (res unit * xqc_qpack_t * xqc_var_buf_t * option xqc_var_buf_t) :=
  match ebuf with
  | None => Some (Err XQC_ENOBUF, qpk, data, None)
  | Some ins =>
      '(r, e, data, ins) ← xqc_encoder_enc_headers mem junk (q_enc qpk) data ins stream_id headers;
      Some (r, q_set_enc qpk e, data, Some ins)
  end.

(** [fresh] is what the memory of a header holds that is not decoded yet. *)
Context (fresh : xqc_http_header_t).

(** [while (pos < end)]; every round that goes on has read a byte at least. The result: the
    position, [*blocked], the context and the headers. *)
Fixpoint dec_headers_loop (fuel : nat) (dec : xqc_decoder_t) (ctx : xqc_rep_ctx_t) (data : list Z) (pos : Z) (headers : xqc_http_headers_t)
    (max_field_section_size : Z) (blocked : bool) : option (res Z * bool * bool * xqc_rep_ctx_t * xqc_http_headers_t) :=
  if pos <? zlen data then
    match fuel with
    | O => None
    | S fuel =>
        match (if hs_capacity headers <=? hs_count headers
               then xqc_h3_headers_realloc_buf mem headers (Z.min (u64 (hs_capacity headers * 2)) (u64 (hs_capacity headers + 128)))
               else Ok headers) with
        | Err _ => Some (Err XQC_QPACK_SAVE_HEADERS_ERROR, false, blocked, ctx, headers)
        | Ok headers =>
            '(r, blocked, ctx, hdr) ← xqc_decoder_dec_header mem junk dec ctx (drop (Z.to_nat pos) data) fresh blocked;
            match r with
            | Err _ => Some (Err XQC_QPACK_DECODER_ERROR, false, blocked, ctx, headers)
            | Ok read =>
                let pos := pos + read in
                if rc_is_finish (rc_state ctx) then
                  if xqc_qpack_headers_exceed_size headers hdr max_field_section_size
                  then Some (Err XQC_H3_INVALID_HEADER, false, blocked, xqc_rep_ctx_clear_rep ctx, headers)
                  else
                    dec_headers_loop fuel dec (xqc_rep_ctx_clear_rep ctx) data pos
                      (mk_hdrs (hs_headers headers ++ [hdr]) (hs_capacity headers)
                         (u64 (hs_total_len headers + (iov_len (h_name hdr) + iov_len (h_value hdr)))))
                      max_field_section_size blocked
                else if blocked then Some (Ok pos, true, blocked, ctx, headers)
                else if pos <? zlen data then Some (Err XQC_QPACK_DECODER_ERROR, false, blocked, ctx, headers)
                else dec_headers_loop fuel dec ctx data pos headers max_field_section_size blocked
            end
        end
    end
  else Some (Ok pos, false, blocked, ctx, headers).

(** The result: the bytes read, [*blocked], the context, the headers and the decoder stream. *)
Definition xqc_qpack_dec_headers (qpk : xqc_qpack_t) (req_ctx : xqc_rep_ctx_t) (data : list Z) (headers : xqc_http_headers_t)
    (max_field_section_size : Z) (fin blocked : bool) (dbuf : option xqc_var_buf_t)
    : option (res Z * bool * xqc_rep_ctx_t * xqc_http_headers_t * option xqc_var_buf_t) :=
  let headers := if hs_capacity headers =? 0 then xqc_h3_headers_create_buf mem XQC_H3_REQUEST_INITIAL_HEADERS_CAPACITY else headers in
  '(r, early, blocked, ctx, headers) ← dec_headers_loop (S (length data)) (q_dec qpk) req_ctx data 0 headers max_field_section_size blocked;
  match r with
  | Err e => Some (Err e, blocked, ctx, headers, dbuf)
  | Ok pos =>
      if negb early && fin && (0 <? xqc_rep_get_ric ctx) then
        match xqc_qpack_notify_section_ack dbuf (rc_stream_id ctx) with
        | (Err e, dbuf) => Some (Err e, blocked, ctx, headers, dbuf)
        | (Ok _, dbuf) => Some (Ok pos, blocked, ctx, headers, dbuf)
        end
      else Some (Ok pos, blocked, ctx, headers, dbuf)
  end.

End ops.

(** Uppercase letters are not allowed in field names. *)
Definition xqc_qpack_field_name_has_uppercase (name : list Z) : bool := existsb (fun c => (65 <=? c) && (c <=? 90)) name.

End Qpack.
