(* ===== verification/QpackDecSpec.v ===== *)
(** The decoder of QPACK against the abstract dynamic table: what an encoder instruction does to
    the table, and which header a field line is decoded to. *)

From stdpp Require Import base numbers list.
From S2P Require Import Prelude RingArray RingMem VarBuf QpackInt PrefixedStr PrefixedStrSpec DTable DTableSpec DTableRefine QpackStatic QpackIns QpackRep QpackField QpackInsSpec QpackRepSpec QpackDecoder.
Import RingArray RingMem VarBuf QpackInt PrefixedStr PrefixedStrSpec DTable DTableSpec DTableRefine QpackStatic QpackIns QpackRep QpackField QpackInsSpec QpackRepSpec QpackDecoder.

Module QpackDecSpec.

Section spec.

Context (junk : Z -> list Z) (Hjunk : forall n, 0 <= n -> zlen (junk n) = n).

(** ** Names and values in buffers *)

(** A buffer that can take any string. *)
Definition str_room (buf : xqc_var_buf_t) : Prop := vb_ok buf /\ MAX + 1 <= max_size buf.

(** [buf'] holds [s] and has the size of [buf]. *)
Definition holds (buf buf' : xqc_var_buf_t) (s : list Z) : Prop :=
  vb_ok buf' /\ vb_bytes buf' = s /\ max_size buf' = max_size buf.

Lemma clear_room buf : str_room buf -> str_room (xqc_var_buf_clear buf) /\ max_size (xqc_var_buf_clear buf) = max_size buf
  /\ vb_data_len (xqc_var_buf_clear buf) = 0.
Proof. intros [[L1 L2 L3 L4] H]. split; [|done]. split; [split; simpl; lia|done]. Qed.

Lemma write_front buf s : vb_ok buf -> zlen s + 1 <= vb_buf_len buf ->
  holds buf (vb_write buf (wr (wr (vb_data buf) 0 s) (zlen s) [0]) (zlen s)) s.
Proof.
  intros [L1 L2 L3 L4] Hl. pose proof (zlen_nonneg s). split; [|split; [|done]].
  - split; simpl; rewrite ?zlen_wr; lia.
  - assert (bytes_at (wr (wr (vb_data buf) 0 s) (zlen s) [0]) 0 s) as Hat.
    { apply bytes_at_wr_ne; [done|apply bytes_at_wr; lia|]. left. lia. }
    exact (bytes_at_sub _ _ _ Hat).
Qed.

Lemma copy_into_spec rm idx len buf s : str_room buf -> vb_data_len buf = 0 -> zlen s = len -> len <= MAX ->
  copy_field rm idx len = Ok s ->
  exists buf', copy_into true junk rm idx len buf = (Ok tt, buf') /\ holds buf buf' s.
Proof.
  intros [Hok Hmax] H0 <- Hl Hc. unfold copy_field in Hc. unfold copy_into. pose proof (zlen_nonneg s).
  destruct (0 <? zlen s) eqn:E; zify_bools.
  - destruct (save_prepare_spec junk Hjunk buf (zlen s + 1) Hok ltac:(lia) ltac:(lia)) as (b & -> & Hb & _ & _ & Hcap & Hm & _).
    assert (xqc_ring_mem_copy rm idx (zlen s) (vb_buf_len b) = Ok s) as ->.
    { unfold xqc_ring_mem_copy in *. rewrite (proj2 (Z.ltb_ge _ _)) in Hc by lia. by rewrite (proj2 (Z.ltb_ge _ _)) by lia. }
    eexists. split; [done|]. destruct (write_front b s Hb ltac:(lia)) as (? & ? & ?). split_and!; try done; congruence.
  - exists buf. split; [done|]. assert (s = []) as -> by (destruct s; [done|rewrite zlen_cons in E; pose proof (zlen_nonneg s); lia]).
    split_and!; try done. unfold vb_bytes. by rewrite H0.
Qed.

Lemma save_text_spec buf s : str_room buf -> vb_data_len buf = 0 -> zlen s <= MAX ->
  exists buf', save_text true junk buf s = (Ok tt, buf') /\ holds buf buf' s.
Proof.
  intros [Hok Hmax] H0 Hl. unfold save_text. pose proof (zlen_nonneg s).
  destruct (save_prepare_spec junk Hjunk buf (zlen s + 1) Hok ltac:(lia) ltac:(lia)) as (b & -> & Hb & Hby & Hdl & Hcap & Hm & _).
  unfold xqc_var_buf_save_data. destruct (zlen s =? 0) eqn:E; zify_bools.
  - assert (s = []) as -> by (destruct s; [done|rewrite zlen_cons in E; pose proof (zlen_nonneg s); lia]).
    eexists. split; [done|]. destruct (write_front b [] Hb ltac:(lia)) as (H1 & H2 & H3). rewrite Hdl, H0.
    change (wr (vb_data b) 0 []) with (vb_data b) in *. split_and!; try done; simpl in *; congruence.
  - rewrite prepare_noop by (done || lia). rewrite Hdl, H0, Z.add_0_l. cbn [vb_write vb_data vb_data_len]. eexists. split; [done|].
    destruct (write_front b s Hb ltac:(lia)) as (? & ? & ?). split_and!; try done; simpl in *; congruence.
Qed.

(** ** The tables *)

Definition nv_small (p : nv) : Prop := zlen (fst p) <= MAX /\ zlen (snd p) <= MAX.

(** The pair at an index: the static table, or the dynamic table by its absolute index. *)
Definition table_nv (t : table) (static : bool) (idx : Z) : option nv :=
  if static then match xqc_stable_get_entry idx with Some e => Some (st_name e, st_value e) | None => None end else t_nth t idx.

Lemma static_small idx e : xqc_stable_get_entry idx = Some e -> nv_small (st_name e, st_value e).
Proof.
  unfold xqc_stable_get_entry. case_if; [done|]. intros H.
  assert (Forall (fun e => nv_small (st_name e, st_value e)) xqc_g_static_table) as Hall by (unfold nv_small; by_decide).
  exact (Forall_lookup_1 _ _ _ _ Hall H).
Qed.

(** What the functions that read a name, and a value if it is wanted, leave in the buffers. *)
Definition nv_read (nb : xqc_var_buf_t) (vb : option xqc_var_buf_t) (n v : list Z) (out : res unit * xqc_var_buf_t * option xqc_var_buf_t) : Prop :=
  exists nb' vb', out = (Ok tt, nb', vb') /\ holds nb nb' n
  /\ match vb, vb' with Some b, Some b' => holds b b' v | None, None => True | _, _ => False end.

Definition opt_room (vb : option xqc_var_buf_t) : Prop := match vb with Some b => str_room b /\ vb_data_len b = 0 | None => True end.

Lemma stable_nv_spec idx e nb vb : xqc_stable_get_entry idx = Some e -> str_room nb -> vb_data_len nb = 0 -> opt_room vb ->
  nv_read nb vb (st_name e) (st_value e) (xqc_stable_get_nv true junk idx nb vb).
Proof.
  intros He Hn H0 Hv. destruct (static_small _ _ He) as [Hs1 Hs2]. unfold xqc_stable_get_nv, nv_read. rewrite He.
  destruct (save_text_spec nb (st_name e) Hn H0 Hs1) as (nb' & -> & Hnb). destruct vb as [vb|]; [|by eexists _, None].
  destruct Hv as [Hv Hv0]. destruct (save_text_spec vb (st_value e) Hv Hv0 Hs2) as (vb' & -> & Hvb). by eexists _, (Some vb').
Qed.

Lemma dtable_nv_spec es dt t idx n v nb vb : rep es dt t -> 0 <= idx < 2 ^ 64 -> t_nth t idx = Some (n, v) -> nv_small (n, v) ->
  str_room nb -> vb_data_len nb = 0 -> opt_room vb ->
  exists out, dtable_read_nv true junk dt idx nb vb = Some out /\ nv_read nb vb n v out.
Proof.
  intros R Hi Hnv [Hs1 Hs2] Hn H0 Hv. unfold dtable_read_nv. pose proof (get_entry_spec _ _ _ idx R Hi) as Hg. rewrite Hnv in Hg.
  destruct Hg as (s & e & -> & -> & Hent). simpl.
  destruct (copy_fields _ _ _ _ _ _ _ _ _ R (nth_lookup _ _ _ Hnv) Hent) as (Hc1 & Hc2). destruct Hent as (_ & _ & Hl1 & Hl2 & _).
  destruct (copy_into_spec _ _ _ nb n Hn H0 (eq_sym Hl1) ltac:(rewrite Hl1; exact Hs1) Hc1) as (nb' & -> & Hnb).
  eexists. split; [done|]. destruct vb as [vb|]; [|by eexists _, None]. destruct Hv as [Hv Hv0].
  destruct (copy_into_spec _ _ _ vb v Hv Hv0 (eq_sym Hl2) ltac:(rewrite Hl2; exact Hs2) Hc2) as (vb' & -> & Hvb). by eexists _, (Some vb').
Qed.

(** The flag of the parsers for a table. *)
Definition flag_ok (static : bool) (f : Z) : Prop := (f =? XQC_DTABLE_FLAG) = negb static.

Context (es : list xqc_dtable_entry_t) (dec : xqc_decoder_t) (t : table).
Hypothesis R : rep es (d_dtable dec) t.
Hypothesis Hsmall : Forall nv_small (t_nvs t).

Lemma t_nth_small idx p : t_nth t idx = Some p -> nv_small p.
Proof. intros H. exact (Forall_lookup_1 _ _ _ _ Hsmall (nth_lookup _ _ _ H)). Qed.

Lemma decoder_index_spec static f idx n v name value : flag_ok static f -> 0 <= idx < 2 ^ 64 -> table_nv t static idx = Some (n, v) ->
  str_room name -> str_room value ->
  exists name' value', xqc_decoder_index true junk dec f idx name value = Some (Ok tt, name', Some value')
  /\ holds name name' n /\ holds value value' v.
Proof.
  intros Hf Hi Hnv Hn Hv. unfold xqc_decoder_index. rewrite Hf. destruct (clear_room _ Hn) as (Hn1 & Hn2 & Hn3). destruct (clear_room _ Hv) as (Hv1 & Hv2 & Hv3).
  unfold holds. rewrite <- Hn2, <- Hv2. destruct static; simpl in *.
  - destruct (xqc_stable_get_entry idx) as [e|] eqn:E; [|done]. injection Hnv as <- <-.
    destruct (stable_nv_spec _ _ _ (Some (xqc_var_buf_clear value)) E Hn1 Hn3 (conj Hv1 Hv3)) as (nb & [vb|] & -> & H1 & H2); [|done].
    exists nb, vb. exact (conj eq_refl (conj H1 H2)).
  - destruct (dtable_nv_spec _ _ _ _ _ _ _ (Some (xqc_var_buf_clear value)) R Hi Hnv (t_nth_small _ _ Hnv) Hn1 Hn3 (conj Hv1 Hv3))
      as (out & -> & nb & [vb|] & -> & H1 & H2); [|done]. exists nb, vb. exact (conj eq_refl (conj H1 H2)).
Qed.

Lemma decoder_name_spec static f idx n v name : flag_ok static f -> 0 <= idx < 2 ^ 64 -> table_nv t static idx = Some (n, v) -> str_room name ->
  exists name', xqc_decoder_name_index true junk dec f idx name = Some (Ok tt, name') /\ holds name name' n.
Proof.
  intros Hf Hi Hnv Hn. unfold xqc_decoder_name_index. rewrite Hf. destruct (clear_room _ Hn) as (Hn1 & Hn2 & Hn3).
  unfold holds. rewrite <- Hn2. destruct static; simpl in *.
  - destruct (xqc_stable_get_entry idx) as [e|] eqn:E; [|done]. injection Hnv as <- <-.
    destruct (stable_nv_spec _ _ _ None E Hn1 Hn3 I) as (nb & vb & -> & H1 & H2). exists nb. exact (conj eq_refl H1).
  - destruct (dtable_nv_spec _ _ _ _ _ _ _ None R Hi Hnv (t_nth_small _ _ Hnv) Hn1 Hn3 I) as (out & -> & nb & vb & -> & H1 & H2). exists nb. exact (conj eq_refl H1).
Qed.

(** ** Field lines *)

(** The header has this name and this value. *)
Definition iov_is (v : iovec) (s : list Z) : Prop := iov_bytes v = s /\ iov_len v = zlen s.
Definition hdr_is (h : xqc_http_header_t) (p : nv) : Prop := iov_is (h_name h) (fst p) /\ iov_is (h_value h) (snd p).

(** A buffer that holds a string, as the decoder needs it. *)
Definition str_buf (buf : xqc_var_buf_t) (s : list Z) : Prop := str_room buf /\ vb_bytes buf = s /\ zlen s <= MAX.

Lemma take_over_spec buf s : str_buf buf s ->
  exists b, xqc_var_buf_save_prepare true junk buf 1 = (Ok tt, b) /\ vb_data_len buf = zlen s
  /\ iov_is (mk_iov (wr (vb_data b) (zlen s) [0]) (zlen s)) s /\ str_room (snd (xqc_var_buf_take_over b)).
Proof.
  intros ([Hok Hmax] & Hs & Hl). pose proof (zlen_vb_bytes _ Hok) as Hlen. rewrite Hs in Hlen. pose proof (zlen_nonneg s).
  destruct (save_prepare_spec junk Hjunk buf 1 Hok ltac:(lia) ltac:(lia)) as (b & -> & Hb & Hby & Hdl & Hcap & Hm & _).
  exists b. split; [done|]. split; [done|]. pose proof Hb as [L1 L2 L3 L4]. split.
  - split; [|done]. apply (bytes_at_sub _ 0). apply bytes_at_wr_ne; [done| |left; lia]. rewrite Hs in Hby. unfold vb_bytes in Hby.
    rewrite Hdl, <- Hlen in Hby. by split.
  - split; [split; simpl; done|]. rewrite <- Hm in Hmax. exact Hmax.
Qed.

Lemma copy_header_spec hdr name value n v : str_buf name n -> str_buf value v ->
  exists hdr' name' value', xqc_decoder_copy_header true junk hdr name value = (Ok tt, hdr', name', value')
  /\ hdr_is hdr' (n, v) /\ h_flags hdr' = h_flags hdr /\ str_room name' /\ str_room value'.
Proof.
  intros Hn Hv. unfold xqc_decoder_copy_header. destruct (take_over_spec _ _ Hn) as (b1 & -> & -> & H1 & H2).
  destruct (take_over_spec _ _ Hv) as (b2 & E & -> & H3 & H4). cbn [xqc_var_buf_take_over]. rewrite E.
  eexists _, _, _. split; [done|]. by split_and!.
Qed.

(** The header of a field line. *)
Definition line_nv (base : Z) (r : field_rep) : option nv :=
  match r with
  | R_indexed s _ => table_nv t s (line_abs base r)
  | R_indexed_pb _ => table_nv t false (line_abs base r)
  | R_name_ref _ s _ v => match table_nv t s (line_abs base r) with Some (n, _) => Some (n, v) | None => None end
  | R_pb_name_ref _ _ v => match table_nv t false (line_abs base r) with Some (n, _) => Some (n, v) | None => None end
  | R_literal _ n v => Some (n, v)
  end.

Lemma reader_room p : reader_ok p -> ps_max_str_len p = MAX -> str_room (ps_value p).
Proof. intros (H1 & H2 & _) Hm. split; [done|]. by rewrite Hm in H2. Qed.

Lemma line_abs_range base r : line_ok r -> 0 <= line_abs base r < 2 ^ 64.
Proof.
  unfold line_abs, xqc_brel2abs, xqc_pbrel2abs, u64.
  destruct r as [[] i|i|n [] i v|n i v|n name v]; simpl; unfold int_ok, XQC_QPACK_INT_MAX; intros; try (apply Z.mod_pos_bound; lia); lia.
Qed.

Lemma holds_buf name name' s : str_room name -> holds name name' s -> zlen s <= MAX -> str_buf name' s.
Proof. intros [_ H] (H1 & H2 & H3) Hl. split; [|done]. split; [done|]. by rewrite H3. Qed.

Lemma table_small s i p : table_nv t s i = Some p -> nv_small p.
Proof.
  unfold table_nv. destruct s; [|apply t_nth_small]. destruct (xqc_stable_get_entry i) eqn:E; [|done]. intros [= <-]. by apply static_small in E.
Qed.

(** The header that is saved from the context [c]. *)
Definition saved (c : xqc_rep_ctx_t) (p : nv) (out : option (res unit * xqc_rep_ctx_t * xqc_http_header_t)) : Prop :=
  exists c' hdr', out = Some (Ok tt, c', hdr') /\ hdr_is hdr' p /\ prefix_of c' = prefix_of c
  /\ rc_state c' = rc_state c /\ rctx_ok c'.

Lemma line_finish_spec c hdr name value n v : rctx_ok c -> str_buf name n -> str_buf value v ->
  saved c (n, v) (Some (let '(r, hdr, name, value) := xqc_decoder_copy_header true junk hdr name value in (r, set_ps_bufs c name value, hdr))).
Proof.
  intros (Hn & Hnm & Hv & Hvm) H1 H2. destruct (copy_header_spec hdr _ _ _ _ H1 H2) as (h & n' & v' & -> & Hh & _ & [K1 K2] & [K3 K4]).
  eexists _, h. split; [done|]. split; [done|]. split; [done|]. split; [done|]. destruct Hn as (_ & _ & ?), Hv as (_ & _ & ?).
  split_and!; simpl; try done; split_and!; simpl; rewrite ?Hnm, ?Hvm; try done; by_decide.
Qed.

Lemma index_line_spec c s idx p : rctx_ok c -> flag_ok s (rc_table c) -> 0 <= idx < 2 ^ 64 -> pi_value (rc_index c) = idx -> table_nv t s idx = Some p ->
  exists name' value', xqc_decoder_index true junk dec (rc_table c) (pi_value (rc_index c)) (ps_value (rc_name c)) (ps_value (rc_value c))
    = Some (Ok tt, name', Some value') /\ str_buf name' (fst p) /\ str_buf value' (snd p).
Proof.
  intros (Hn & Hnm & Hv & Hvm) Hf Hi -> Hp. pose proof (reader_room _ Hn Hnm) as Hn1. pose proof (reader_room _ Hv Hvm) as Hv1.
  destruct (table_small _ _ _ Hp) as [S1 S2]. destruct p as [n v].
  destruct (decoder_index_spec s _ idx n v _ _ Hf Hi Hp Hn1 Hv1) as (nb & vb & -> & H1 & H2). exists nb, vb. split; [done|].
  split; [exact (holds_buf _ _ _ Hn1 H1 S1)|exact (holds_buf _ _ _ Hv1 H2 S2)].
Qed.

Lemma name_line_spec c s idx p : rctx_ok c -> flag_ok s (rc_table c) -> 0 <= idx < 2 ^ 64 -> pi_value (rc_index c) = idx -> table_nv t s idx = Some p ->
  exists name', xqc_decoder_name_index true junk dec (rc_table c) (pi_value (rc_index c)) (ps_value (rc_name c)) = Some (Ok tt, name') /\ str_buf name' (fst p).
Proof.
  intros (Hn & Hnm & _) Hf Hi -> Hp. pose proof (reader_room _ Hn Hnm) as Hn1.
  destruct (table_small _ _ _ Hp) as [S1 S2]. destruct p as [n v].
  destruct (decoder_name_spec s _ idx n v _ Hf Hi Hp Hn1) as (nb & -> & H1). exists nb. split; [done|]. exact (holds_buf _ _ _ Hn1 H1 S1).
Qed.

Lemma line_flag r c : has_index r -> table_ok r c ->
  flag_ok (match r with R_indexed s _ | R_name_ref _ s _ _ => s | _ => false end) (rc_table c).
Proof. intros Hi Ht. unfold flag_ok. destruct r as [[] ?|?|? [] ? ?|? ? ?|? ? ?]; try done; simpl in Ht; by rewrite Ht. Qed.

Lemma read_str_buf p s : reader_ok p -> ps_max_str_len p = MAX -> vb_bytes (ps_value p) = s -> zlen s <= MAX -> str_buf (ps_value p) s.
Proof. intros H1 H2 H3 H4. split; [by apply reader_room|done]. Qed.

(** A complete line becomes a header. *)
Lemma save_hdr_spec r c hdr p : line_ok r -> line_read r c -> line_nv (pi_value (rc_base c)) r = Some p ->
  saved c p (xqc_decoder_save_hdr true junk dec c hdr).
Proof.
  intros Hr (Hc & Hty & _ & Htb & Hst & Hix & Hval) Hnv. pose proof Hc as (Hn & Hnm & Hv & Hvm).
  pose proof (line_abs_range (pi_value (rc_base c)) r Hr) as Hrange. set (idx := line_abs _ r) in *.
  unfold xqc_decoder_save_hdr. rewrite Hty. pose proof (line_flag r c) as Hfl.
  destruct r as [s i|i|nv s i v|nv i v|nv n v]; cbn [line_type]; cbn [line_nv] in Hnv; fold idx in Hnv.
  - destruct (index_line_spec c s idx p Hc (Hfl I Htb) Hrange (Hix I) Hnv) as (nb & vb & -> & H1 & H2). destruct p. by apply line_finish_spec.
  - destruct (index_line_spec c false idx p Hc (Hfl I Htb) Hrange (Hix I) Hnv) as (nb & vb & -> & H1 & H2). destruct p. by apply line_finish_spec.
  - destruct (table_nv t s idx) as [q|] eqn:Eq; [|done]. destruct (name_line_spec c s idx q Hc (Hfl I Htb) Hrange (Hix I) Eq) as (nb & -> & H1).
    destruct q as [n v']. injection Hnv as <-. apply line_finish_spec; try done. apply read_str_buf; try done. apply Hr.
  - destruct (table_nv t false idx) as [q|] eqn:Eq; [|done]. destruct (name_line_spec c false idx q Hc (Hfl I Htb) Hrange (Hix I) Eq) as (nb & -> & H1).
    destruct q as [n v']. injection Hnv as <-. apply line_finish_spec; try done. apply read_str_buf; try done. apply Hr.
  - injection Hnv as <-. destruct Hval as [E1 E2]. apply line_finish_spec; try done; apply read_str_buf; try done; apply Hr.
Qed.

End spec.

(** ** Encoder instructions *)

Definition when_ok {A} (out : res A * table) : option table := match out with (Ok _, t) => Some t | (Err _, _) => None end.

(** The table after an instruction; [None] when it is refused. *)
Definition ins_apply (t : table) (i : enc_ins) : option table :=
  match i with
  | I_cap c => when_ok (t_set_capacity t c)
  | I_name_ref s i v =>
      match table_nv t s (if s then i else t_end t - i - 1) with
      | Some (n, _) => when_ok (t_add t n v)
      | None => None
      end
  | I_literal n v => when_ok (t_add t n v)
  | I_dup i => when_ok (t_duplicate t (t_end t - i - 1))
  end.

Fixpoint ins_run (t : table) (l : list enc_ins) : option table :=
  match l with [] => Some t | i :: rest => match ins_apply t i with Some t' => ins_run t' rest | None => None end end.

Lemma ins_run_app t l1 l2 : ins_run t (l1 ++ l2) = match ins_run t l1 with Some t' => ins_run t' l2 | None => None end.
Proof. revert t. induction l1 as [|i l1 IH]; intros t; simpl; [done|]. by destruct (ins_apply t i). Qed.

Lemma add_ok t n v t' : when_ok (t_add t n v) = Some t' ->
  exists u, t_make_space t (size_of (n, v)) = Some u /\ t' = t_push u n v /\ t_add t n v = (Ok (t_end t), t').
Proof.
  unfold t_add. case_if; [done|]. case_if; [done|]. destruct (t_make_space t _) as [u|]; [|done]. intros [= <-]. by exists u.
Qed.

Lemma duplicate_ok t i t' : when_ok (t_duplicate t i) = Some t' ->
  exists n v u, t_nth t i = Some (n, v) /\ t_make_space t (size_of (n, v)) = Some u /\ t' = t_push u n v /\ t_duplicate t i = (Ok (t_end t), t').
Proof.
  unfold t_duplicate. destruct (t_nth t i) as [[n v]|]; [|done]. destruct (t_make_space t _) as [u|] eqn:E; [|done]. intros [= <-].
  by exists n, v, u.
Qed.

Lemma space_facts t sp u : t_make_space t sp = Some u ->
  t_added u = t_added t /\ t_cap u = t_cap t /\ t_hash u = t_hash t /\ t_end u = t_end t /\ t_ref u = t_ref t /\ (forall P, Forall P (t_nvs t) -> Forall P (t_nvs u)).
Proof.
  unfold t_make_space. destruct (_ <=? _); [|done]. intros [= <-]. rewrite evicted_end. do 5 (split; [done|]). intros P HP. unfold evicted. simpl.
  destruct (evict_drop (t_cap t) sp (t_nvs t)) as (k & -> & _). by apply Forall_drop.
Qed.

(** An instruction adds to the sum of the sizes, and leaves short strings. *)
Lemma apply_facts t i t' : ins_apply t i = Some t' -> ins_ok i -> t_hash t' = t_hash t /\ t_added t <= t_added t' /\ t_ref t' = t_ref t
  /\ (Forall nv_small (t_nvs t) -> Forall nv_small (t_nvs t')).
Proof.
  assert (forall u n v, t_make_space t (size_of (n, v)) = Some u -> t_hash (t_push u n v) = t_hash t /\ t_added t <= t_added (t_push u n v)
    /\ t_ref (t_push u n v) = t_ref t /\ (nv_small (n, v) -> Forall nv_small (t_nvs t) -> Forall nv_small (t_nvs (t_push u n v)))) as Hpush.
  { intros u n v Hu. destruct (space_facts _ _ _ Hu) as (H1 & H2 & H3 & H4 & H5 & H6). simpl. pose proof (size_pos (n, v)). split_and!; [done|lia|done|].
    intros Hs Ha. apply Forall_app. split; [by apply H6|by constructor]. }
  intros H Hok. destruct i as [c|s i v|n v|i]; simpl in H.
  - unfold t_set_capacity in H. destruct (c <? t_cap t); [|by injection H as <-]. destruct (t_make_space t _) as [u|] eqn:E; [|done]. injection H as <-.
    destruct (space_facts _ _ _ E) as (H1 & H2 & H3 & H4 & H5 & H6). simpl. split_and!; [done|lia|done|by apply H6].
  - destruct (table_nv t s _) as [[n v']|] eqn:En; [|done]. destruct (add_ok _ _ _ _ H) as (u & Hu & -> & _).
    destruct (Hpush u n v Hu) as (H1 & H2 & H3 & H4). split_and!; try done. intros Hs. apply H4; [|done]. destruct Hok as (_ & _ & Hl).
    split; [|done]. exact (proj1 (table_small t Hs _ _ _ En)).
  - destruct (add_ok _ _ _ _ H) as (u & Hu & -> & _). destruct (Hpush u n v Hu) as (H1 & H2 & H3 & H4). split_and!; try done.
    intros Hs. apply H4; [|done]. destruct Hok as ((_ & ?) & _ & ?). by split.
  - destruct (duplicate_ok _ _ _ H) as (n & v & u & Hn & Hu & -> & _). destruct (Hpush u n v Hu) as (H1 & H2 & H3 & H4). split_and!; try done.
    intros Hs. apply H4; [|done]. by apply (t_nth_small t Hs _ _ Hn).
Qed.

Lemma push_end t n v : t_end (t_push t n v) = t_end t + 1.
Proof. unfold t_end, t_push. simpl. rewrite length_app. simpl. lia. Qed.

(** The insert count never falls. *)
Lemma apply_end t i t' : ins_apply t i = Some t' -> t_end t <= t_end t'.
Proof.
  intros H. destruct i as [c|s i v|n v|i]; simpl in H.
  - unfold t_set_capacity in H. destruct (c <? t_cap t); [|by injection H as <-]. destruct (t_make_space t _) as [u|] eqn:E; [|done]. injection H as <-.
    destruct (space_facts _ _ _ E) as (_ & _ & _ & He & _). change (t_end (with_cap u c)) with (t_end u). lia.
  - destruct (table_nv t s _) as [[n v']|] eqn:En; [|done]. destruct (add_ok _ _ _ _ H) as (u & Hu & -> & _).
    destruct (space_facts _ _ _ Hu) as (_ & _ & _ & He & _). rewrite push_end. lia.
  - destruct (add_ok _ _ _ _ H) as (u & Hu & -> & _). destruct (space_facts _ _ _ Hu) as (_ & _ & _ & He & _). rewrite push_end. lia.
  - destruct (duplicate_ok _ _ _ H) as (n & v & u & Hn & Hu & -> & _). destruct (space_facts _ _ _ Hu) as (_ & _ & _ & He & _). rewrite push_end. lia.
Qed.

Section ins.

Context (junk : Z -> list Z) (Hjunk : forall n, 0 <= n -> zlen (junk n) = n).

(** The table of the decoder is the abstract one. *)
Definition dec_is (dec : xqc_decoder_t) (t : table) : Prop :=
  (exists es, rep es (d_dtable dec) t) /\ Forall nv_small (t_nvs t) /\ t_hash t = false.

(** The decoder after an operation that leaves the table [t']. *)
Definition dec_next (dec : xqc_decoder_t) (t' : table) (out : option (res unit * xqc_decoder_t)) : Prop :=
  exists dec' es, out = Some (Ok tt, dec') /\ rep es (d_dtable dec') t' /\ d_max_ents dec' = d_max_ents dec.

Lemma insert_literal_spec es dec t n v t' : rep es (d_dtable dec) t -> when_ok (t_add t n v) = Some t' -> t_added t' < 2 ^ 64 ->
  dec_next dec t' (xqc_decoder_insert_literal true dec n v).
Proof.
  intros R H Ha. destruct (add_ok _ _ _ _ H) as (u & Hu & -> & Hadd). destruct (space_facts _ _ _ Hu) as (H1 & _). simpl in Ha.
  destruct (add_entry_spec _ _ _ n v R ltac:(lia)) as (dt & es' & E & R'). rewrite Hadd in E, R'.
  unfold xqc_decoder_insert_literal. rewrite E. by eexists _, es'.
Qed.

Lemma insert_count_spec es dec t : rep es (d_dtable dec) t -> xqc_dtable_get_insert_cnt (d_dtable dec) = t_end t.
Proof. intros R. apply (rep_cnt _ _ _ R). Qed.

(** An index that is relative to the insert count. *)
Lemma brel_spec es dec t i p : rep es (d_dtable dec) t -> 0 <= i -> t_nth t (t_end t - i - 1) = Some p ->
  xqc_brel2abs (xqc_dtable_get_insert_cnt (d_dtable dec)) i = t_end t - i - 1 /\ i < t_end t /\ 0 <= t_end t - i - 1 < 2 ^ 64.
Proof.
  intros R Hi Hn. rewrite (insert_count_spec _ _ _ R). pose proof (end_bound _ _ _ R). pose proof (rep_sum_ok _ _ _ R).
  assert (0 <= t_end t - i - 1) by (pose proof (rep_first_ok _ _ _ R); unfold t_nth in Hn; destruct (_ <? t_first t) eqn:E; [done|zb]).
  unfold xqc_brel2abs. rewrite u64_small; lia.
Qed.

Lemma insert_name_ref_spec es dec t s f i v p t' : rep es (d_dtable dec) t -> Forall nv_small (t_nvs t) -> flag_ok s f -> int_ok i ->
  table_nv t s (if s then i else t_end t - i - 1) = Some p -> when_ok (t_add t (fst p) v) = Some t' -> t_added t' < 2 ^ 64 ->
  dec_next dec t' (xqc_decoder_insert_name_ref true junk dec f i v).
Proof.
  intros R Hs Hf Hi Hp H Ha. unfold xqc_decoder_insert_name_ref. cbn [xqc_var_buf_create negb]. set (nb := mk_vb _ _ _ _ _ _).
  assert (str_room nb) as Hnb by (split; [split; simpl; try by_decide; by apply Hjunk|by_decide]).
  assert ((if f =? XQC_DTABLE_FLAG then xqc_brel2abs (xqc_dtable_get_insert_cnt (d_dtable dec)) i else i) = (if s then i else t_end t - i - 1)
    /\ 0 <= (if s then i else t_end t - i - 1) < 2 ^ 64) as [-> Hr].
  { rewrite Hf. unfold int_ok, XQC_QPACK_INT_MAX in Hi. destruct s; simpl; [split; [done|lia]|]. by destruct (brel_spec es dec t i p R ltac:(lia) Hp) as (-> & _ & ?). }
  destruct p as [n v']. destruct (decoder_name_spec junk Hjunk es dec t R Hs s f _ n v' nb Hf Hr Hp Hnb) as (nb' & -> & _ & Hby & _).
  cbn [mbind option_bind]. rewrite Hby. exact (insert_literal_spec es dec t n v t' R H Ha).
Qed.

Lemma duplicate_ins_spec es dec t i t' : rep es (d_dtable dec) t -> 0 <= i -> when_ok (t_duplicate t (t_end t - i - 1)) = Some t' -> t_added t' < 2 ^ 64 ->
  dec_next dec t' (xqc_decoder_duplicate true dec i).
Proof.
  intros R Hi H Ha. destruct (duplicate_ok _ _ _ H) as (n & v & u & Hn & Hu & -> & Hdup). destruct (space_facts _ _ _ Hu) as (H1 & _). simpl in Ha.
  destruct (brel_spec _ _ _ _ _ R Hi Hn) as (E & _ & Hr). unfold xqc_decoder_duplicate. rewrite E.
  destruct (duplicate_spec _ _ _ _ R Hr) as (dt & es' & E' & R'); [rewrite Hn; lia|]. rewrite Hdup in E', R'. rewrite E'. by eexists _, es'.
Qed.

Lemma set_cap_spec es dec t c t' : rep es (d_dtable dec) t -> t_hash t = false -> 0 <= c <= 2 ^ 62 -> when_ok (t_set_capacity t c) = Some t' ->
  dec_next dec t' (xqc_decoder_set_dtable_cap true junk dec c).
Proof.
  intros R Hh Hc H. destruct (set_capacity_spec junk _ _ _ c R Hjunk Hc (or_introl Hh)) as (dt & es' & E & R').
  unfold xqc_decoder_set_dtable_cap. rewrite E. destruct (t_set_capacity t c) as [[[]|e] t0]; [|done]. simpl in *. injection H as <-. by eexists _, es'.
Qed.

(** The size that an instruction duplicates. *)
Definition dup_size (t : table) (i : enc_ins) : Z :=
  match i with I_dup i => match t_nth t (t_end t - i - 1) with Some p => size_of p | None => 0 end | _ => 0 end.

Fixpoint dup_work (t : table) (l : list enc_ins) : Z :=
  match l with [] => 0 | i :: rest => dup_size t i + match ins_apply t i with Some t' => dup_work t' rest | None => 0 end end.

Lemma dup_work_nonneg t l : 0 <= dup_work t l.
Proof.
  revert t. induction l as [|i l IH]; intros t; [done|]. simpl. assert (0 <= dup_size t i).
  { destruct i; simpl; try done. destruct (t_nth _ _) as [p|]; [|done]. pose proof (size_pos p). lia. }
  destruct (ins_apply t i) as [t'|]; [pose proof (IH t')|]; lia.
Qed.

End ins.

End QpackDecSpec.
