(* ===== verification/QpackStream.v ===== *)
(** The streams of QPACK at the handler: encoder instructions and field sections that arrive in
    any pieces, against the abstract dynamic table. *)

From stdpp Require Import base numbers list.
From S2P Require Import Prelude RingArray RingMem VarBuf QpackInt PrefixedStr PrefixedStrSpec DTable DTableSpec DTableRefine QpackStatic QpackIns QpackRep QpackField QpackInsSpec QpackRepSpec QpackDecoder QpackEncoder Qpack QpackDecSpec.
Import RingArray RingMem VarBuf QpackInt PrefixedStr PrefixedStrSpec DTable DTableSpec DTableRefine QpackStatic QpackIns QpackRep QpackField QpackInsSpec QpackRepSpec QpackDecoder QpackEncoder Qpack QpackDecSpec.

Module QpackStream.

Section streams.

Context (junk : Z -> list Z) (Hjunk : forall n, 0 <= n -> zlen (junk n) = n).

(** ** One encoder instruction *)

(** What may be duplicated in a second. *)
Definition dup_limit (q : xqc_qpack_t) : Z := Z.min UINT64_MAX (4 * q_dec_max_cap q).

(** The decoder of [q] has the table [t] and has duplicated [q_dup_bytes q] bytes at most. *)
Definition dec_side (q : xqc_qpack_t) (t : table) : Prop :=
  dec_is (q_dec q) t /\ 0 <= q_dup_bytes q <= dup_limit q.

(** What the encoder stream leaves alone. *)
Definition same_rest (q q' : xqc_qpack_t) : Prop :=
  q_enc q' = q_enc q /\ q_dctx q' = q_dctx q /\ q_dec_max_cap q' = q_dec_max_cap q /\ q_enc_max_cap q' = q_enc_max_cap q
  /\ d_max_ents (q_dec q') = d_max_ents (q_dec q).

Lemma same_rest_refl q : same_rest q q.
Proof. by split_and!. Qed.

Lemma same_rest_trans q1 q2 q3 : same_rest q1 q2 -> same_rest q2 q3 -> same_rest q1 q3.
Proof. intros (H1 & H2 & H3 & H4 & H5) (K1 & K2 & K3 & K4 & K5). split_and!; congruence. Qed.

Definition ins_allowed (q : xqc_qpack_t) (i : enc_ins) : Prop := ins_ok i /\ match i with I_cap c => c <= q_dec_max_cap q | _ => True end.

(** The handler after an instruction: [t'] is the table, the duplicated bytes grew by [w] at most. *)
Definition q_next (q : xqc_qpack_t) (t' : table) (w : Z) (out : option (res unit * xqc_qpack_t)) : Prop :=
  exists q', out = Some (Ok tt, q') /\ dec_side q' t' /\ same_rest q q' /\ q_ectx q' = q_ectx q /\ q_dup_bytes q' <= q_dup_bytes q + w.

Lemma q_next_dec q t t' i out : dec_side q t -> ins_apply t i = Some t' -> ins_ok i -> dec_next (q_dec q) t' out ->
  q_next q t' 0 ('(r, d) ← out; Some (r, q_set_dec q d)).
Proof.
  intros [[_ (Hs & Hh)] Hd] Ha Hi (dec' & es & -> & R & Hm). destruct (apply_facts _ _ _ Ha Hi) as (H1 & H2 & _ & H3).
  eexists. split; [done|]. split; [split; [split; [by eexists|]; split; [by apply H3|by rewrite H1]|exact Hd]|].
  split; [by split_and!|]. split; [done|]. simpl. lia.
Qed.

Lemma dup_work_spec q t i p now : dec_side q t -> 0 <= i -> t_nth t (t_end t - i - 1) = Some p -> q_dup_bytes q + size_of p <= dup_limit q ->
  exists q', xqc_qpack_account_duplicate_work q i now = Some (Ok tt, q') /\ same_rest q q' /\ q_ectx q' = q_ectx q /\ q_dec q' = q_dec q
  /\ 0 <= q_dup_bytes q' <= dup_limit q' /\ q_dup_bytes q' <= q_dup_bytes q + size_of p.
Proof.
  intros [[(es & R) _] Hd] Hi Hn Hw. unfold xqc_qpack_account_duplicate_work, xqc_decoder_get_duplicate_entry_size.
  destruct (brel_spec _ _ _ _ _ R Hi Hn) as (-> & Hlt & Hr). rewrite (insert_count_spec _ _ _ R), (get_entry_size_spec _ _ _ _ R Hr), Hn.
  rewrite (proj2 (Z.leb_gt _ _)) by lia. cbn [mbind option_bind]. set (sec := now / 1000000). pose proof (size_pos p). unfold dup_limit, UINT64_MAX in *.
  assert (forall q1, q_dec_max_cap q1 = q_dec_max_cap q -> 0 <= q_dup_bytes q1 <= q_dup_bytes q ->
    (u64 ((if (2 ^ 64 - 1) / 4 <? q_dec_max_cap q1 then 2 ^ 64 - 1 else q_dec_max_cap q1 * 4) - q_dup_bytes q1) <? size_of p) = false
    /\ u64 (q_dup_bytes q1 + size_of p) = q_dup_bytes q1 + size_of p) as Hq.
  { intros q1 -> H1. split; [|apply u64_small; lia]. apply Z.ltb_ge. change ((2 ^ 64 - 1) / 4) with (2 ^ 62 - 1). case_if; zify_bools; rewrite u64_small; lia. }
  unfold XQC_QPACK_DUPLICATE_WORK_HARD_LIMIT_MULTIPLIER. destruct (q_dup_second q <? sec).
  - destruct (Hq (q_set_dup q sec 0 false) eq_refl ltac:(simpl; lia)) as [-> ->]. eexists. split; [done|]. unfold same_rest. simpl. split_and!; try done; lia.
  - destruct (Hq q eq_refl ltac:(lia)) as [-> ->]. eexists. split; [done|]. unfold same_rest. simpl. split_and!; try done; lia.
Qed.

Lemma on_encoder_ins_spec q t t' i now : ins_allowed q i -> ins_done i (q_ectx q) -> dec_side q t -> ins_apply t i = Some t' ->
  t_added t' < 2 ^ 64 -> q_dup_bytes q + dup_size t i <= dup_limit q ->
  q_next q t' (dup_size t i) (xqc_qpack_on_encoder_ins true junk q now).
Proof.
  intros [Hi Hal] (_ & Hty & _ & Hdone) Hd Ha Hadd Hw. pose proof Hd as [[(es & R) (Hs & Hh)] Hdup]. unfold xqc_qpack_on_encoder_ins. rewrite Hty.
  destruct i as [c|s i v|n v|i]; cbn [ins_type dup_size] in *.
  - rewrite Hdone. case_if; [zb|]. apply (q_next_dec q t t' (I_cap c)); try done. apply (set_cap_spec junk Hjunk es _ t); try done.
    simpl in Hi. unfold int_ok, XQC_QPACK_INT_MAX in Hi. lia.
  - destruct Hdone as (Ht & -> & ->). apply (q_next_dec q t t' (I_name_ref s i v)); try done. simpl in Ha.
    destruct (table_nv t s _) as [p|] eqn:Ep; [|done]. apply (insert_name_ref_spec junk Hjunk es _ t s _ i v p); try done.
    + rewrite Ht. by destruct s.
    + apply Hi.
    + by destruct p.
  - destruct Hdone as (-> & ->). apply (q_next_dec q t t' (I_literal n v)); try done. by apply (insert_literal_spec es _ t).
  - rewrite Hdone. simpl in Ha, Hi. unfold int_ok in Hi. destruct (duplicate_ok _ _ _ Ha) as (n & v & u & Hn & _). rewrite Hn in *.
    destruct (dup_work_spec q t i _ now Hd ltac:(lia) Hn Hw) as (q1 & -> & Hsame & He & Hdec & Hb1 & Hb2). cbn [mbind option_bind].
    destruct (q_next_dec q1 t t' (I_dup i) (xqc_decoder_duplicate true (q_dec q1) i)) as (q' & -> & H1 & H2 & H3 & H4); try done.
    + split; [|done]. rewrite Hdec. split; [by eexists|done].
    + rewrite Hdec. apply (duplicate_ins_spec es _ t); try done. lia.
    + exists q'. split; [done|]. split; [done|]. split; [by apply (same_rest_trans _ q1)|]. split; [congruence|lia].
Qed.

(** ** Instructions in pieces *)

Definition stream_bytes (l : list enc_ins) : list Z := concat (map ins_bytes l).

(** [C] of the first instruction of [l] is read. *)
Definition stream_at (c : xqc_ins_enc_ctx_t) (l : list enc_ins) (C : list Z) : Prop :=
  match l with
  | [] => C = [] /\ ectx_ok c /\ (ie_state c = XQC_INS_ES_OPCODE \/ ie_state c = XQC_INS_ES_STATE_FINISH)
  | i :: _ => at_ins i c C /\ exists Y, Y <> [] /\ ins_bytes i = C ++ Y
  end.

Lemma ins_stream_start c l : ectx_ok c -> ie_state c = XQC_INS_ES_OPCODE \/ ie_state c = XQC_INS_ES_STATE_FINISH -> Forall ins_ok l -> stream_at c l [].
Proof.
  intros Hc Hst Hl. destruct Hl as [|i l Hi _]; [done|]. split; [by left|]. exists (ins_bytes i). split; [|done].
  by destruct (ins_first i Hi) as (y & rest & -> & _).
Qed.

(** The handler that has [l] to come: it will be allowed. *)
Definition to_come (q : xqc_qpack_t) (t : table) (l : list enc_ins) (C W : list Z) (tf : table) : Prop :=
  dec_side q t /\ Forall (ins_allowed q) l /\ stream_at (q_ectx q) l C /\ stream_bytes l = C ++ W
  /\ ins_run t l = Some tf /\ t_added tf < 2 ^ 64 /\ q_dup_bytes q + dup_work t l <= dup_limit q.

Lemma run_added t l t' : ins_run t l = Some t' -> Forall ins_ok l -> t_added t <= t_added t'.
Proof.
  revert t. induction l as [|i l IH]; intros t; simpl; [intros [= <-]; lia|]. destruct (ins_apply t i) as [t1|] eqn:E; [|done].
  intros Hr Hl. inversion_clear Hl as [|? ? Hi Hl']. pose proof (apply_facts _ _ _ E Hi) as (_ & H & _). specialize (IH t1 Hr Hl'). lia.
Qed.

Lemma allowed_same q q' l : same_rest q q' -> Forall (ins_allowed q) l -> Forall (ins_allowed q') l.
Proof.
  intros (_ & _ & H & _) Hl. eapply Forall_impl; [exact Hl|]. intros i [Hi Ha]. split; [done|]. destruct i; try done. by rewrite H.
Qed.

Lemma allowed_ok q l : Forall (ins_allowed q) l -> Forall ins_ok l.
Proof. intros Hl. eapply Forall_impl; [exact Hl|]. by intros i [Hi _]. Qed.

Lemma limit_same q q' : same_rest q q' -> dup_limit q' = dup_limit q.
Proof. intros (_ & _ & H & _). unfold dup_limit. by rewrite H. Qed.

Lemma process_loop_spec clock fuel : forall l q t C pre data W tf, to_come q t l C (data ++ W) tf -> (length data <= fuel)%nat ->
  exists q' l' t' C', process_encoder_loop true junk fuel clock q (pre ++ data) (zlen pre) = Some (Ok (zlen (pre ++ data)), q')
  /\ to_come q' t' l' C' W tf /\ same_rest q q' /\ t_end t <= t_end t'.
Proof.
  induction fuel as [|fuel IH]; intros l q t C pre data W tf Hto Hf.
  { destruct data; [|simpl in Hf; lia]. rewrite app_nil_r. exists q, l, t, C. cbn [process_encoder_loop]. rewrite Z.ltb_irrefl. split; [done|]. split; [done|]. split; [apply same_rest_refl|done]. }
  destruct (decide (data = [])) as [->|Hne].
  { rewrite app_nil_r. exists q, l, t, C. cbn [process_encoder_loop]. rewrite Z.ltb_irrefl. split; [done|]. split; [done|]. split; [apply same_rest_refl|done]. }
  pose proof Hto as (Hd & Hal & Hst & Hby & Hrun & Hadd & Hw). destruct l as [|i l]; [destruct Hst as (-> & _); by destruct data|].
  inversion_clear Hal as [|? ? [Hi Hai] Hal']. destruct Hst as [Hat (Y & HY & HiY)]. unfold stream_bytes in Hby. simpl in Hby.
  rewrite HiY, <- app_assoc in Hby. apply app_inv_head in Hby. cbn [process_encoder_loop]. rewrite zlen_app, drop_pre.
  assert (0 < zlen data) by (destruct data; [done|rewrite zlen_cons; pose proof (zlen_nonneg data); lia]).
  rewrite (proj2 (Z.ltb_lt _ _)) by lia. destruct (cut_cases _ _ _ _ Hby HY) as [(k & Hk & -> & ->)|(k & -> & Hk)].
  - destruct (ins_step junk Hjunk i _ C data k [] Hi Hat HiY Hne ltac:(done)) as (c & Hc & Hor). rewrite app_nil_r in Hc. rewrite Hc.
    unfold ins_done_or in Hor. rewrite bool_decide_eq_false_2 in Hor by done. assert (ie_is_finish (ie_state c) = false) as Hnf.
    { destruct Hor as (_ & _ & Ho). destruct i; first [destruct Ho as [-> _]|destruct Ho as [_ [[-> _]|(? & _ & -> & _)]]|destruct Ho as [[-> _]|(? & _ & -> & _)]]; done. }
    cbn [q_set_ectx q_ectx]. rewrite Hnf, Z.eqb_refl. cbn [negb andb].
    exists (q_set_ectx q c), (i :: l), t, (C ++ data). split.
    { destruct fuel; cbn [process_encoder_loop]; rewrite zlen_app, Z.ltb_irrefl; done. }
    split; [|by split_and!; try lia]. split_and!; try done; [by constructor| |].
    + split; [by right|]. exists k. by rewrite <- app_assoc.
    + unfold stream_bytes. simpl. by rewrite HiY, <- !app_assoc.
  - destruct (ins_step junk Hjunk i _ C Y [] k Hi Hat ltac:(by rewrite app_nil_r) HY ltac:(done)) as (c & -> & Hor).
    unfold ins_done_or in Hor. rewrite bool_decide_eq_true_2 in Hor by done. pose proof Hor as (Hec & _ & Hfin & _). cbn [q_set_ectx q_ectx].
    rewrite Hfin. cbn [negb andb ie_is_finish]. simpl in Hrun, Hw. destruct (ins_apply t i) as [t1|] eqn:Ea; [|done].
    pose proof (dup_work_nonneg t1 l). pose proof (run_added _ _ _ Hrun (allowed_ok _ _ Hal')).
    destruct (on_encoder_ins_spec (q_set_ectx q c) t t1 i (clock (zlen pre + zlen Y))) as (q1 & -> & Hd1 & Hs1 & He1 & Hb1); try done; try lia.
    { change (dup_limit (q_set_ectx q c)) with (dup_limit q). simpl. lia. }
    cbn [mbind option_bind]. destruct (IH l q1 t1 [] (pre ++ Y) k W tf) as (q' & l' & t' & C' & Hrun' & Hto' & Hs' & He').
    + split_and!; try done.
      * by apply (allowed_same q).
      * rewrite He1. apply ins_stream_start; [done|by right|]. by apply (allowed_ok q).
      * rewrite (limit_same (q_set_ectx q c) q1 Hs1). change (dup_limit (q_set_ectx q c)) with (dup_limit q). simpl in Hb1. lia.
    + rewrite length_app in Hf. destruct Y; [done|simpl in Hf; lia].
    + rewrite <- app_assoc, (zlen_app pre Y), (zlen_app pre (Y ++ k)) in Hrun'. exists q', l', t', C'. split; [done|]. split; [done|]. split; [by apply (same_rest_trans _ q1)|].
      pose proof (apply_end _ _ _ Ea). lia.
Qed.

(** ** The insert count increments that go back *)

(** Increments that add up to [n]. *)
Definition incs_of (n : Z) (ds : list dec_ins) : Prop :=
  Forall (fun d => exists k, d = D_inc k /\ 0 < k /\ int_ok k) ds /\ foldr (fun d a => dec_val d + a) 0 ds = n.

Definition dec_stream (ds : list dec_ins) : list Z := concat (map dec_bytes ds).

Lemma incs_app a b x y : incs_of a x -> incs_of b y -> incs_of (a + b) (x ++ y).
Proof.
  intros [H1 H2] [H3 H4]. split; [by apply Forall_app|]. rewrite foldr_app, H4. clear H1 H3 H4. revert a H2.
  induction x as [|d x IH]; intros a H2; simpl in *; [lia|]. rewrite (IH _ eq_refl). lia.
Qed.

Lemma dec_stream_app x y : dec_stream (x ++ y) = dec_stream x ++ dec_stream y.
Proof. unfold dec_stream. by rewrite map_app, concat_app. Qed.

Lemma process_encoder_spec clock q t l C data W tf buf : to_come q t l C (data ++ W) tf -> vb_ok buf -> vb_data_len buf + 16 <= max_size buf ->
  exists q' l' t' C' buf' ds, xqc_qpack_process_encoder true junk clock q data (Some buf) = Some (Ok (zlen data), q', Some buf')
  /\ to_come q' t' l' C' W tf /\ same_rest q q' /\ grew buf buf' (dec_stream ds) /\ incs_of (t_end t' - t_end t) ds /\ (length ds <= 1)%nat.
Proof.
  intros Hto Hb Hroom. unfold xqc_qpack_process_encoder.
  destruct (process_loop_spec clock (length data) l q t C [] data W tf Hto ltac:(lia)) as (q' & l' & t' & C' & Hrun & Hto' & Hs & He). change (zlen []) with 0 in Hrun. cbn [app] in Hrun.
  rewrite Hrun. cbn [mbind option_bind]. unfold xqc_qpack_get_dec_insert_count, xqc_decoder_get_insert_cnt.
  pose proof Hto as ([[(es & R) _] _] & _). pose proof Hto' as ([[(es' & R') _] _] & _). rewrite (insert_count_spec _ _ _ R), (insert_count_spec _ _ _ R').
  exists q', l', t', C'. destruct (t_end t <? t_end t') eqn:E; zify_bools.
  - pose proof (end_bound _ _ _ R'). pose proof (rep_sum_ok _ _ _ R'). assert (0 <= t_end t) by (pose proof (rep_first_ok _ _ _ R); unfold t_end; lia).
    assert (int_ok (t_end t' - t_end t)) as Hint by (unfold int_ok, XQC_QPACK_INT_MAX; lia). rewrite u64_small by lia.
    destruct (write_dec_spec junk Hjunk buf (D_inc (t_end t' - t_end t)) Hb Hint Hroom) as (b1 & Hw & Hg). cbn [write_dec] in Hw.
    unfold xqc_qpack_notify_insert_cnt_increment, notify. rewrite Hw. exists b1, [D_inc (t_end t' - t_end t)]. unfold dec_stream. simpl. rewrite app_nil_r.
    split_and!; try done. split; [|simpl; lia]. constructor; [|done]. eexists. split; [done|]. split; [lia|done].
  - exists buf, []. split; [done|]. split; [done|]. split; [done|]. split; [by apply grew_refl|]. split; [|simpl; lia]. split; [done|]. simpl. lia.
Qed.

(** The pieces of the encoder stream as they come; each has its clock. *)
Fixpoint feed_encoder (q : xqc_qpack_t) (chunks : list ((Z -> Z) * list Z)) (dbuf : option xqc_var_buf_t)
    : option (res unit * xqc_qpack_t * option xqc_var_buf_t) :=
  match chunks with
  | [] => Some (Ok tt, q, dbuf)
  | (clock, data) :: rest =>
      '(r, q, dbuf) ← xqc_qpack_process_encoder true junk clock q data dbuf;
      match r with Err e => Some (Err e, q, dbuf) | Ok _ => feed_encoder q rest dbuf end
  end.

Lemma feed_encoder_steps chunks : forall q t l C W tf buf, to_come q t l C (concat (map snd chunks) ++ W) tf -> vb_ok buf ->
  vb_data_len buf + 16 * Z.of_nat (length chunks) <= max_size buf ->
  exists q' l' t' C' buf' ds, feed_encoder q chunks (Some buf) = Some (Ok tt, q', Some buf')
  /\ to_come q' t' l' C' W tf /\ same_rest q q' /\ grew buf buf' (dec_stream ds) /\ incs_of (t_end t' - t_end t) ds
  /\ zlen (dec_stream ds) <= 16 * Z.of_nat (length chunks).
Proof.
  induction chunks as [|[clock data] chunks IH]; intros q t l C W tf buf Hto Hb Hroom.
  { exists q, l, t, C, buf, []. split; [done|]. split; [done|]. split; [apply same_rest_refl|]. split; [by apply grew_refl|]. split; [split; [done|simpl; lia]|done]. }
  simpl in Hto, Hroom. rewrite <- app_assoc in Hto.
  destruct (process_encoder_spec clock q t l C data _ tf buf Hto Hb ltac:(lia)) as (q1 & l1 & t1 & C1 & b1 & ds1 & Hp & Hto1 & Hs1 & Hg1 & Hi1 & Hl1).
  cbn [feed_encoder]. rewrite Hp. cbn [mbind option_bind].
  assert (zlen (dec_stream ds1) <= 16) as Hlen.
  { destruct ds1 as [|d [|]]; simpl in Hl1; [done| |lia]. unfold dec_stream. simpl. rewrite app_nil_r. destruct Hi1 as [Hi1 _].
    apply Forall_cons_1 in Hi1 as [(k & -> & _ & Hk) _]. unfold int_ok, XQC_QPACK_INT_MAX in Hk.
    pose proof (put_len_bound k 6 ltac:(lia) ltac:(lia)) as Hl. rewrite (put_len_spec _ _ 0) in Hl by lia. unfold dec_bytes. simpl. lia. }
  pose proof Hg1 as (Hok1 & _ & Hm1). pose proof (grew_len _ _ _ Hb Hg1) as Hdl.
  destruct (IH q1 t1 l1 C1 W tf b1 Hto1 Hok1) as (q' & l' & t' & C' & b' & ds & Hf & Hto' & Hs' & Hg' & Hi' & Hz'); [rewrite Hm1, Hdl; lia|].
  exists q', l', t', C', b', (ds1 ++ ds). split; [done|]. split; [done|]. split; [by apply (same_rest_trans _ q1)|]. rewrite dec_stream_app.
  split; [by apply (grew_trans _ b1)|]. replace (t_end t' - t_end t) with ((t_end t1 - t_end t) + (t_end t' - t_end t1)) by lia.
  split; [by apply incs_app|]. rewrite zlen_app. simpl length. lia.
Qed.

(** Nothing is left when all bytes are there. *)
Lemma to_come_nil q t l C tf : to_come q t l C [] tf -> l = [] /\ t = tf /\ C = [].
Proof.
  intros (_ & _ & Hst & Hby & Hrun & _). destruct l as [|i l]; [destruct Hst as (-> & _); by injection Hrun as <-|].
  destruct Hst as (_ & Y & HY & Hi). unfold stream_bytes in Hby. simpl in Hby. rewrite Hi, <- !app_assoc in Hby. apply app_inv_head in Hby. by destruct Y.
Qed.

(** The context between two instructions. *)
Definition idle (c : xqc_ins_enc_ctx_t) : Prop := ectx_ok c /\ (ie_state c = XQC_INS_ES_OPCODE \/ ie_state c = XQC_INS_ES_STATE_FINISH).

Lemma feed_encoder_spec chunks q t l tf buf : dec_side q t -> idle (q_ectx q) -> Forall (ins_allowed q) l -> concat (map snd chunks) = stream_bytes l ->
  ins_run t l = Some tf -> t_added tf < 2 ^ 64 -> q_dup_bytes q + dup_work t l <= dup_limit q ->
  vb_ok buf -> vb_data_len buf + 16 * Z.of_nat (length chunks) <= max_size buf ->
  exists q' buf' ds, feed_encoder q chunks (Some buf) = Some (Ok tt, q', Some buf')
  /\ dec_side q' tf /\ idle (q_ectx q') /\ same_rest q q' /\ grew buf buf' (dec_stream ds) /\ incs_of (t_end tf - t_end t) ds
  /\ zlen (dec_stream ds) <= 16 * Z.of_nat (length chunks).
Proof.
  intros Hd [Hc Hst] Hal Hch Hrun Hadd Hw Hb Hroom.
  destruct (feed_encoder_steps chunks q t l [] [] tf buf) as (q' & l' & t' & C' & b' & ds & Hf & Hto & Hs & Hg & Hi & Hz); try done.
  - split_and!; try done. + by apply ins_stream_start; [..|apply (allowed_ok q)]. + by rewrite app_nil_r.
  - destruct (to_come_nil _ _ _ _ _ Hto) as (-> & -> & ->). exists q', b', ds. destruct Hto as (Hd' & _ & (_ & Hi1 & Hi2) & _). by split_and!.
Qed.

End streams.

(** ** Field sections in pieces *)

Definition lines (rs : list field_rep) : list Z := concat (map line_bytes rs).

(** [C] of the first of the lines is read. *)
Definition lines_at (c : xqc_rep_ctx_t) (rs : list field_rep) (C : list Z) : Prop :=
  match rs with
  | [] => C = [] /\ rctx_ok c /\ rc_state c = XQC_REP_DECODE_STATE_OPCODE
  | r :: _ => at_line r c C /\ exists Y, Y <> [] /\ line_bytes r = C ++ Y
  end.

Section section.

Context (junk : Z -> list Z) (Hjunk : forall n, 0 <= n -> zlen (junk n) = n) (fresh : xqc_http_header_t).
Context (dec : xqc_decoder_t) (t : table) (ric base : Z).
Hypothesis Hdec : dec_is dec t.
Hypothesis Hsec : section_ok (d_max_ents dec) ric base.
Hypothesis Hric : ric <= t_end t.
Hypothesis Hwin : 0 < ric -> t_end t - d_max_ents dec < ric.

Abbreviation prefix := (prefix_bytes (d_max_ents dec) ric base).

(** The field section of which [rs] and [W] are to come. *)
Definition section_at (c : xqc_rep_ctx_t) (rs : list field_rep) (W : list Z) : Prop :=
  Forall line_ok rs /\
  ((exists C Y, prefix_at (d_max_ents dec) ric base c C /\ prefix = C ++ Y /\ Y <> [] /\ W = Y ++ lines rs)
   \/ exists C, pi_value (rc_ric c) = ric /\ pi_value (rc_base c) = base /\ lines_at c rs C /\ lines rs = C ++ W).

(** What a call of [xqc_decoder_dec_header] does with [data]: it reads all of it, or a line with
    its header [p]. *)
Definition dec_out (c : xqc_rep_ctx_t) (rs : list field_rep) (data W : list Z) (out : option (res Z * bool * xqc_rep_ctx_t * xqc_http_header_t)) : Prop :=
  exists c' hdr pos, out = Some (Ok pos, false, c', hdr) /\ rc_stream_id c' = rc_stream_id c
  /\ ((rc_is_finish (rc_state c') = false /\ pos = zlen data /\ section_at c' rs W)
      \/ exists r rest p D k, rs = r :: rest /\ line_nv t base r = Some p /\ data = D ++ k /\ D <> [] /\ pos = zlen D
           /\ rc_state c' = XQC_REP_DECODE_STATE_FINISH /\ hdr_is hdr p /\ section_at (xqc_rep_ctx_clear_rep c') rest (k ++ W)).

Lemma clear_rep_ok c : rctx_ok c -> rctx_ok (xqc_rep_ctx_clear_rep c).
Proof.
  assert (forall p n, reader_ok p -> reader_ok (xqc_prefixed_str_init p n)) as Hi by (intros p n ([L1 L2 L3 L4] & H2 & H3); split; [split; simpl; lia|done]).
  intros (H1 & H2 & H3 & H4). split_and!; try done; by apply Hi.
Qed.

Lemma lines_at_start c rs : rctx_ok c -> rc_state c = XQC_REP_DECODE_STATE_OPCODE -> Forall line_ok rs -> lines_at c rs [].
Proof.
  intros Hc Hst Hl. destruct Hl as [|r rs Hr _]; [done|]. split; [by left|]. exists (line_bytes r). split; [|done].
  by destruct (line_first r Hr) as (y & rest & -> & _).
Qed.

Lemma at_line_nofinish r c C : at_line r c C -> rc_is_finish (rc_state c) = false.
Proof.
  intros [(_ & _ & ->)|(_ & _ & _ & _ & Hs)]; [done|]. destruct r; first [destruct Hs as [-> _]|destruct Hs as [[-> _]|(? & _ & -> & _)]]; done.
Qed.

Lemma dec_line_spec c rs C pre data W : Forall line_ok rs -> pi_value (rc_ric c) = ric -> pi_value (rc_base c) = base ->
  lines_at c rs C -> lines rs = C ++ data ++ W -> Forall (fun r => is_Some (line_nv t base r)) rs ->
  dec_out c rs (pre ++ data) W (dec_line true junk dec c (pre ++ data) (zlen pre) fresh false).
Proof.
  intros Hok Hr Hb Hat Hby Hnv. unfold dec_line, dec_out. rewrite drop_pre. destruct (decide (data = [])) as [->|Hne].
  { exists c, fresh, (zlen pre). rewrite app_nil_r. unfold xqc_rep_decode_field_line. cbn [zlen]. 
    change (zlen [] =? 0) with true. cbv iota beta. assert (rc_is_finish (rc_state c) = false) as Hnf.
    { destruct rs; [by destruct Hat as (_ & _ & ->)|]. destruct Hat as [Hat _]. by apply at_line_nofinish in Hat. }
    rewrite Hnf, Z.add_0_r. split; [done|]. split; [done|]. left. split; [done|]. split; [done|]. split; [done|]. right. exists C. by split_and!. }
  destruct rs as [|r rs]; [destruct Hat as (-> & _); by destruct data|]. apply Forall_cons_1 in Hok as [Hro Hok]. apply Forall_cons_1 in Hnv as [[p Hp] Hnv].
  destruct Hat as [Hat (Y & HY & HrY)]. unfold lines in Hby. simpl in Hby. rewrite HrY, <- app_assoc in Hby. apply app_inv_head in Hby.
  destruct (cut_cases _ _ _ _ Hby HY) as [(k & Hk & -> & ->)|(k & -> & Hk)].
  - destruct (field_step junk Hjunk r c C data k [] Hro Hat HrY Hne ltac:(done)) as (c' & Hc & Hor & Hpre'). rewrite app_nil_r in Hc. rewrite Hc.
    rewrite bool_decide_eq_false_2 in Hor by done. unfold prefix_of in Hpre'. injection Hpre' as Hs1 Hs2 Hs3.
    rewrite (at_line_nofinish r c' (C ++ data)) by (by right). exists c', fresh, (zlen pre + zlen data). split; [done|]. split; [done|]. left.
    rewrite zlen_app. split; [by apply (at_line_nofinish r _ (C ++ data)); right|]. split; [done|]. split; [by constructor|]. right. exists (C ++ data). rewrite Hs2, Hs3.
    split_and!; try done; [split; [by right|]; exists k; by rewrite <- app_assoc|]. unfold lines. simpl. by rewrite HrY, <- !app_assoc.
  - destruct (field_step junk Hjunk r c C Y [] k Hro Hat ltac:(by rewrite app_nil_r) HY ltac:(done)) as (c1 & -> & Hor & Hpre').
    rewrite bool_decide_eq_true_2 in Hor by done. unfold prefix_of in Hpre'. injection Hpre' as Hs1 Hs2 Hs3. pose proof Hor as (_ & _ & _ & _ & Hfin & _).
    rewrite Hfin. cbn [rc_is_finish]. destruct Hdec as ((es & R) & Hsm & _). rewrite <- Hb, <- Hs3 in Hp.
    destruct (save_hdr_spec junk Hjunk es dec t R Hsm r c1 fresh p Hro Hor Hp) as (c' & hdr & -> & Hh & Hpc & Hst & Hcok). cbn [mbind option_bind].
    unfold prefix_of in Hpc. injection Hpc as Hp1 Hp2 Hp3. exists c', hdr, (zlen pre + zlen Y). split; [done|]. split; [congruence|]. right.
    exists r, rs, p, (pre ++ Y), k. rewrite <- app_assoc, zlen_app. rewrite Hs3, Hb in Hp. split_and!; try done; [by destruct pre, Y|congruence|].
    split; [done|]. right. exists []. cbn [xqc_rep_ctx_clear_rep rc_ric rc_base]. rewrite Hp2, Hp3, Hs2, Hs3. split_and!; try done.
    apply lines_at_start; try done. by apply clear_rep_ok.
Qed.

Lemma prefix_at_state c C : prefix_at (d_max_ents dec) ric base c C ->
  (state_rank (rc_state c) <? 3) = true /\ (0 <? state_rank (rc_state c)) && (t_end t <? pi_value (rc_ric c)) = false.
Proof.
  intros [_ [(-> & _)|[(-> & _)|[(-> & _ & ->)|(C2 & -> & _ & -> & _)]]]]; (split; [done|]); try done; simpl; apply Z.ltb_ge; lia.
Qed.

Lemma lines_at_state c rs C : lines_at c rs C -> 3 <= state_rank (rc_state c).
Proof.
  destruct rs as [|r rs]; [by intros (_ & _ & ->)|]. intros [[(_ & _ & ->)|(_ & _ & _ & _ & Hs)] _]; [done|].
  destruct r; first [destruct Hs as [-> _]|destruct Hs as [[-> _]|(? & _ & -> & _)]]; done.
Qed.

Lemma dec_header_spec c rs data W : section_at c rs (data ++ W) -> Forall (fun r => is_Some (line_nv t base r)) rs -> data <> [] ->
  dec_out c rs data W (xqc_decoder_dec_header true junk dec c data fresh false).
Proof.
  intros [Hok Hat] Hnv Hne. pose proof Hdec as ((es & R) & _). unfold xqc_decoder_dec_header. rewrite (insert_count_spec _ _ _ R).
  change (state_rank XQC_REP_DECODE_STATE_OPCODE) with 3. change (state_rank XQC_REP_DECODE_STATE_RICNT) with 0.
  pose proof (end_bound _ _ _ R). pose proof (rep_sum_ok _ _ _ R). pose proof (rep_first_ok _ _ _ R). assert (0 <= t_end t < 2 ^ 61) by (unfold t_end in *; lia).
  destruct Hat as [(C & Y & Hp & HC & HY & HW)|(C & Hr & Hb & Hat & Hby)].
  - destruct (prefix_at_state _ _ Hp) as [-> _]. destruct (cut_cases _ _ _ _ (eq_sym HW) HY) as [(k & Hk & -> & ->)|(k & -> & Hk)].
    + destruct (prefix_step (d_max_ents dec) ric base (t_end t) Hsec ltac:(lia) ltac:(intros; specialize (Hwin ltac:(lia)); destruct Hsec; lia)
        c C data k [] Hp HC Hne ltac:(done)) as (c' & E & Hor & Hsid). rewrite app_nil_r in E. rewrite E.
      unfold prefix_done_or in Hor. rewrite bool_decide_eq_false_2 in Hor by done. destruct (prefix_at_state _ _ Hor) as [Hrk ->].
      zify_bools. rewrite (proj2 (Z.leb_gt _ _)) by lia. exists c', fresh, (zlen data). split; [done|]. split; [done|]. left.
      split; [by destruct (rc_state c')|]. split; [done|]. split; [done|]. left. exists (C ++ data), k. split_and!; try done. by rewrite <- app_assoc.
    + destruct (prefix_step (d_max_ents dec) ric base (t_end t) Hsec ltac:(lia) ltac:(intros; specialize (Hwin ltac:(lia)); destruct Hsec; lia)
        c C Y [] k Hp ltac:(by rewrite app_nil_r) HY ltac:(done)) as (c' & -> & Hor & Hsid).
      unfold prefix_done_or in Hor. rewrite bool_decide_eq_true_2 in Hor by done. destruct Hor as (Hcok & Hst & Hr & Hb).
      rewrite Hst, Hr, (proj2 (Z.ltb_ge _ _) Hric), andb_false_r. change (3 <=? state_rank XQC_REP_DECODE_STATE_OPCODE) with true. cbv iota.
      destruct (dec_line_spec c' rs [] Y k W Hok Hr Hb (lines_at_start _ _ Hcok Hst Hok) ltac:(done) Hnv) as (c2 & hdr & pos & E & Hs2 & Hres).
      exists c2, hdr, pos. split; [exact E|]. split; [congruence|done].
  - pose proof (lines_at_state _ _ _ Hat). rewrite (proj2 (Z.ltb_ge (state_rank (rc_state c)) _)) by (simpl; lia).
    rewrite Hr, (proj2 (Z.ltb_ge _ _) Hric), andb_false_r, (proj2 (Z.leb_le _ _)) by (simpl; lia). by apply (dec_line_spec c rs C [] data W).
Qed.

(** The headers that are decoded are [ps]. *)
Record headers_are (h : xqc_http_headers_t) (ps : list nv) : Prop := {
  ha_headers : Forall2 hdr_is (hs_headers h) ps;
  ha_total : hs_total_len h + 32 * Z.of_nat (length ps) = total ps;
  ha_capacity : Z.of_nat (length ps) <= hs_capacity h <= Z.of_nat (length ps) + 160;
  ha_some : 0 < hs_capacity h;
}.

Lemma headers_count h ps : headers_are h ps -> hs_count h = Z.of_nat (length ps).
Proof. intros H. unfold hs_count. by rewrite (Forall2_length _ _ _ (ha_headers _ _ H)). Qed.

(** Room for one more. *)
Lemma headers_room h ps : headers_are h ps -> Z.of_nat (length ps) < 2 ^ 60 ->
  exists h', (if hs_capacity h <=? hs_count h
              then xqc_h3_headers_realloc_buf true h (Z.min (u64 (hs_capacity h * 2)) (u64 (hs_capacity h + 128))) else Ok h) = Ok h'
  /\ headers_are h' ps /\ Z.of_nat (length ps) < hs_capacity h'.
Proof.
  intros Hh Hl. pose proof (headers_count _ _ Hh) as Hc. destruct Hh as [H1 H2 H3 H4]. rewrite Hc. destruct (hs_capacity h <=? _) eqn:E; zify_bools.
  - rewrite !u64_small by lia. unfold xqc_h3_headers_realloc_buf. rewrite Hc, (proj2 (Z.ltb_ge _ _)) by lia. eexists. split; [done|].
    split; [split; simpl; (done || lia)|simpl; lia].
  - exists h. split; [done|]. split; [by split|lia].
Qed.

Lemma headers_add h ps hdr p m : headers_are h ps -> Z.of_nat (length ps) < hs_capacity h -> hdr_is hdr p -> total (ps ++ [p]) <= m < 2 ^ 62 ->
  xqc_qpack_headers_exceed_size h hdr m = false
  /\ headers_are (mk_hdrs (hs_headers h ++ [hdr]) (hs_capacity h) (u64 (hs_total_len h + (iov_len (h_name hdr) + iov_len (h_value hdr))))) (ps ++ [p]).
Proof.
  intros Hh Hcap Hp Hm. pose proof (headers_count _ _ Hh) as Hc. destruct Hh as [H1 H2 H3 H4]. pose proof Hp as [[_ Hn] [_ Hv]]. rewrite Hn, Hv.
  rewrite total_app in *. simpl in *. unfold size_of in *. pose proof (zlen_nonneg (fst p)). pose proof (zlen_nonneg (snd p)). pose proof (total_count ps). split.
  - unfold xqc_qpack_headers_exceed_size. rewrite Hc, Hn, Hv. case_if; [zb|]. zify_bools. pose proof (Z.div_mod (m - hs_total_len h) 32 ltac:(lia)).
    pose proof (Z.mod_pos_bound (m - hs_total_len h) 32 ltac:(lia)). rewrite (proj2 (Z.leb_gt _ _)) by lia.
    rewrite (u64_small ((_ + 1) * 32)) by lia. rewrite u64_small by lia. rewrite !(proj2 (Z.ltb_ge _ _)) by lia. done.
  - split; simpl; rewrite ?length_app, ?total_app; simpl; unfold size_of; try lia; [by apply Forall2_app; [|constructor]|]. rewrite u64_small; lia.
Qed.

Lemma dec_headers_steps fuel : forall rs qs c pre data W h ps m, section_at c rs (data ++ W) ->
  Forall2 (fun r p => line_nv t base r = Some p) rs qs -> headers_are h ps -> total (ps ++ qs) <= m < 2 ^ 62 -> (length data <= fuel)%nat ->
  exists c' h' rs' qs1 qs2, dec_headers_loop true junk fresh fuel dec c (pre ++ data) (zlen pre) h m false = Some (Ok (zlen (pre ++ data)), false, false, c', h')
  /\ rc_stream_id c' = rc_stream_id c /\ qs = qs1 ++ qs2 /\ headers_are h' (ps ++ qs1)
  /\ Forall2 (fun r p => line_nv t base r = Some p) rs' qs2 /\ section_at c' rs' W.
Proof.
  induction fuel as [|fuel IH]; intros rs qs c pre data W h ps m Hat Hnv Hh Hm Hf.
  { destruct data; [|simpl in Hf; lia]. rewrite app_nil_r. exists c, h, rs, [], qs. cbn [dec_headers_loop]. rewrite Z.ltb_irrefl, app_nil_r. by split_and!. }
  destruct (decide (data = [])) as [->|Hne].
  { rewrite app_nil_r. exists c, h, rs, [], qs. cbn [dec_headers_loop]. rewrite Z.ltb_irrefl, app_nil_r. by split_and!. }
  assert (0 < zlen data) by (destruct data; [done|rewrite zlen_cons; pose proof (zlen_nonneg data); lia]).
  cbn [dec_headers_loop]. rewrite zlen_app, (proj2 (Z.ltb_lt _ _)), drop_pre by lia. pose proof (total_app ps qs). pose proof (total_nonneg qs). pose proof (total_count ps).
  destruct (headers_room h ps Hh ltac:(lia)) as (h1 & -> & Hh1 & Hcap).
  destruct (dec_header_spec c rs data W Hat) as (c1 & hdr & pos & -> & Hsid & Hres); [|done|].
  { eapply Forall2_Forall_l; [exact Hnv|]. apply Forall_forall. intros p _ r Hr. by exists p. }
  cbn [mbind option_bind]. destruct Hres as [(Hnf & -> & Hat1)|(r & rest & p & D & k & -> & Hp & -> & HD & -> & Hst & Hhdr & Hat1)].
  - rewrite Hnf, Z.ltb_irrefl. exists c1, h1, rs, [], qs. split.
    { destruct fuel; cbn [dec_headers_loop]; rewrite zlen_app, Z.ltb_irrefl; done. }
    rewrite app_nil_r. by split_and!.
  - rewrite Hst. cbn [rc_is_finish]. inversion Hnv as [|? q ? qs' Hq Hnv']; subst. assert (p = q) as <- by congruence.
    replace (ps ++ p :: qs') with ((ps ++ [p]) ++ qs') in * by (by rewrite <- app_assoc). pose proof (total_app (ps ++ [p]) qs'). pose proof (total_nonneg qs').
    destruct (headers_add h1 ps hdr p m Hh1 Hcap Hhdr ltac:(lia)) as [-> Hh2].
    destruct (IH rest qs' (xqc_rep_ctx_clear_rep c1) (pre ++ D) k W _ (ps ++ [p]) m Hat1 Hnv' Hh2 ltac:(lia)) as (c' & h' & rs' & q1 & q2 & Hrun & Hs' & -> & Hh' & Hn' & Hat').
    { rewrite length_app in Hf. destruct D; [done|simpl in Hf; lia]. }
    rewrite <- app_assoc, (zlen_app pre D), (zlen_app pre (D ++ k)) in Hrun. exists c', h', rs', (p :: q1), q2. split; [done|]. split; [by rewrite Hs'|].
    split; [done|]. rewrite <- app_assoc in Hh'. by split_and!.
Qed.

(** Nothing of the section is left when all bytes are there. *)
Lemma section_at_nil c rs : section_at c rs [] -> rs = [] /\ pi_value (rc_ric c) = ric.
Proof.
  intros [_ [(C & Y & _ & _ & HY & HW)|(C & Hr & _ & Hat & Hby)]]; [by destruct Y|]. split; [|done]. destruct rs as [|r rs]; [done|].
  destruct Hat as (_ & Y & HY & Hi). unfold lines in Hby. simpl in Hby. rewrite Hi, app_nil_r, <- app_assoc in Hby.
  apply (f_equal length) in Hby. rewrite !length_app in Hby. destruct Y; [done|simpl in Hby; lia].
Qed.

(** One piece of a field section that is not the last one. *)
Lemma dec_headers_piece q rs qs c data W h ps m dbuf : q_dec q = dec -> section_at c rs (data ++ W) ->
  Forall2 (fun r p => line_nv t base r = Some p) rs qs -> headers_are h ps -> total (ps ++ qs) <= m < 2 ^ 62 ->
  exists c' h' rs' qs1 qs2, xqc_qpack_dec_headers true junk fresh q c data h m false false dbuf = Some (Ok (zlen data), false, c', h', dbuf)
  /\ rc_stream_id c' = rc_stream_id c /\ qs = qs1 ++ qs2 /\ headers_are h' (ps ++ qs1)
  /\ Forall2 (fun r p => line_nv t base r = Some p) rs' qs2 /\ section_at c' rs' W.
Proof.
  intros Hq Hat Hnv Hh Hm. unfold xqc_qpack_dec_headers. rewrite (proj2 (Z.eqb_neq _ _)), Hq by (pose proof (ha_some _ _ Hh); lia).
  destruct (dec_headers_steps (S (length data)) rs qs c [] data W h ps m Hat Hnv Hh Hm ltac:(lia)) as (c' & h' & rs' & q1 & q2 & Hrun & Hrest).
  change (zlen []) with 0 in Hrun. cbn [app] in Hrun. rewrite Hrun. by exists c', h', rs', q1, q2.
Qed.

(** The last piece: the section is acknowledged when it refers to the dynamic table. *)
Lemma dec_headers_last q rs qs c data h ps m buf : q_dec q = dec -> section_at c rs data ->
  Forall2 (fun r p => line_nv t base r = Some p) rs qs -> headers_are h ps -> total (ps ++ qs) <= m < 2 ^ 62 ->
  vb_ok buf -> vb_data_len buf + 16 <= max_size buf -> int_ok (rc_stream_id c) ->
  exists c' h' buf', xqc_qpack_dec_headers true junk fresh q c data h m true false (Some buf) = Some (Ok (zlen data), false, c', h', Some buf')
  /\ headers_are h' (ps ++ qs) /\ grew buf buf' (if 0 <? ric then dec_bytes (D_ack (rc_stream_id c)) else []).
Proof.
  intros Hq Hat Hnv Hh Hm Hb Hroom Hid. unfold xqc_qpack_dec_headers. rewrite (proj2 (Z.eqb_neq _ _)), Hq by (pose proof (ha_some _ _ Hh); lia).
  rewrite <- (app_nil_r data) in Hat.
  destruct (dec_headers_steps (S (length data)) rs qs c [] data [] h ps m Hat Hnv Hh Hm ltac:(lia)) as (c' & h' & rs' & q1 & q2 & Hrun & Hsid & -> & Hh' & Hn' & Hat').
  change (zlen []) with 0 in Hrun. cbn [app] in Hrun. rewrite Hrun. cbn [mbind option_bind negb andb]. destruct (section_at_nil _ _ Hat') as [-> Hr].
  inversion Hn'; subst. rewrite app_nil_r. unfold xqc_rep_get_ric. rewrite Hr. destruct (0 <? ric).
  - destruct (write_dec_spec junk Hjunk buf (D_ack (rc_stream_id c)) Hb Hid Hroom) as (b & Hw & Hg). cbn [write_dec] in Hw.
    unfold xqc_qpack_notify_section_ack, notify. rewrite Hsid, Hw. by exists c', h', b.
  - exists c', h', buf. split; [done|]. split; [done|]. by apply grew_refl.
Qed.

End section.

(** The pieces of a field section as they come; the last one has the end of the section. *)
Fixpoint feed_section (junk : Z -> list Z) (fresh : xqc_http_header_t) (q : xqc_qpack_t) (c : xqc_rep_ctx_t) (chunks : list (list Z)) (h : xqc_http_headers_t) (m : Z)
    (dbuf : option xqc_var_buf_t) : option (res unit * bool * xqc_rep_ctx_t * xqc_http_headers_t * option xqc_var_buf_t) :=
  match chunks with
  | [] => Some (Ok tt, false, c, h, dbuf)
  | X :: rest =>
      '(r, blocked, c, h, dbuf) ← xqc_qpack_dec_headers true junk fresh q c X h m (bool_decide (rest = [])) false dbuf;
      match (r : res Z) with
      | Err e => Some (Err e, blocked, c, h, dbuf)
      | Ok _ => if (blocked : bool) then Some (Ok tt, true, c, h, dbuf) else feed_section junk fresh q c rest h m dbuf
      end
  end.

Lemma feed_section_steps junk fresh (Hjunk : forall n, 0 <= n -> zlen (junk n) = n) chunks :
  forall q t ric base rs qs c h ps m buf, dec_is (q_dec q) t -> section_ok (d_max_ents (q_dec q)) ric base ->
  ric <= t_end t -> (0 < ric -> t_end t - d_max_ents (q_dec q) < ric) -> chunks <> [] -> section_at (q_dec q) ric base c rs (concat chunks) ->
  Forall2 (fun r p => line_nv t base r = Some p) rs qs -> headers_are h ps -> total (ps ++ qs) <= m < 2 ^ 62 ->
  vb_ok buf -> vb_data_len buf + 16 <= max_size buf -> int_ok (rc_stream_id c) ->
  exists c' h' buf', feed_section junk fresh q c chunks h m (Some buf) = Some (Ok tt, false, c', h', Some buf')
  /\ headers_are h' (ps ++ qs) /\ grew buf buf' (if 0 <? ric then dec_bytes (D_ack (rc_stream_id c)) else []).
Proof.
  induction chunks as [|X chunks IH]; intros q t ric base rs qs c h ps m buf Hd Hs Hr Hw Hne Hat Hnv Hh Hm Hb Hroom Hid; [done|]. cbn [feed_section].
  destruct (decide (chunks = [])) as [->|Hcn].
  - simpl in Hat. rewrite app_nil_r in Hat. rewrite bool_decide_eq_true_2 by done.
    destruct (dec_headers_last junk Hjunk fresh _ t ric base Hd Hs Hr Hw q rs qs c X h ps m buf eq_refl Hat Hnv Hh Hm Hb Hroom Hid) as (c' & h' & b' & -> & H1 & H2).
    by exists c', h', b'.
  - rewrite bool_decide_eq_false_2 by done. simpl in Hat.
    destruct (dec_headers_piece junk Hjunk fresh _ t ric base Hd Hs Hr Hw q rs qs c X (concat chunks) h ps m (Some buf) eq_refl Hat Hnv Hh Hm)
      as (c1 & h1 & rs1 & q1 & q2 & -> & Hid1 & -> & Hh1 & Hnv1 & Hat1). cbn [mbind option_bind]. rewrite <- Hid1 in *. rewrite app_assoc in *.
    by apply (IH q t ric base rs1 q2 c1 h1 (ps ++ q1) m buf).
Qed.

End QpackStream.
