(* ===== verification/QpackEncSpec.v ===== *)
(** The encoder of QPACK against the abstract dynamic table: the instructions it writes rebuild
    its table, and its field lines stand for the headers. *)

From Stdlib Require Import SpecFloat.
From stdpp Require Import base numbers list.
From S2P Require Import Prelude RingArray RingMem VarBuf QpackInt PrefixedStr PrefixedStrSpec DTable DTableSpec DTableRefine QpackStatic QpackIns QpackRep QpackField QpackInsSpec QpackRepSpec QpackDecoder QpackEncoder Qpack QpackDecSpec QpackStream.
Import RingArray RingMem VarBuf QpackInt PrefixedStr PrefixedStrSpec DTable DTableSpec DTableRefine QpackStatic QpackIns QpackRep QpackField QpackInsSpec QpackRepSpec QpackDecoder QpackEncoder Qpack QpackDecSpec QpackStream.

Module QpackEncSpec.

(** ** Headers *)

(** The header is a name and a value of this length at most. *)
Definition hdr_ok (h : xqc_http_header_t) (p : nv) : Prop := hdr_is h p /\ str_ok (fst p) /\ str_ok (snd p).

Lemma hdr_ok_bytes info h p : hdr_ok h p -> r_hdr info = h -> name_bytes info = fst p /\ value_bytes info = snd p
  /\ iov_len (h_name (r_hdr info)) = zlen (fst p) /\ iov_len (h_value (r_hdr info)) = zlen (snd p).
Proof. intros (([H1 H2] & H3 & H4) & _) Hh. unfold name_bytes, value_bytes. by rewrite Hh, H1, H2, H3, H4. Qed.

(** ** Rules *)

(** What a rule refers to in the tables. *)
Definition ref_sound (t : table) (info : xqc_hdr_enc_rule_t) (p : nv) : Prop :=
  match r_ref info with
  | XQC_NV_REF_NONE => True
  | XQC_NV_REF_NAME => exists s v, r_ref_table info = flag s /\ 0 <= r_index info /\ table_nv t s (r_index info) = Some (fst p, v)
  | XQC_NV_REF_NAME_AND_VALUE => exists s, r_ref_table info = flag s /\ 0 <= r_index info /\ table_nv t s (r_index info) = Some p
  | XQC_NV_ERROR => False
  end.

Definition never_bit (n : Z) : Prop := n = 0 \/ n = 1.

Record rule_sound (t : table) (info : xqc_hdr_enc_rule_t) (h : xqc_http_header_t) (p : nv) : Prop := {
  rs_hdr : r_hdr info = h;
  rs_never : never_bit (r_never info);
  rs_ref : ref_sound t info p;
}.

Section lookup.

Context (enc : xqc_encoder_t) (t : table) (es : list xqc_dtable_entry_t).
Hypothesis R : rep es (e_dtable enc) t.
Hypothesis Hhash : t_hash t = true.

Lemma static_nv i e : xqc_stable_get_entry i = Some e -> table_nv t true i = Some (st_name e, st_value e).
Proof. intros H. unfold table_nv. by rewrite H. Qed.

Lemma nth_nonneg i p : t_nth t i = Some p -> 0 <= i.
Proof. pose proof (rep_first_ok _ _ _ R). unfold t_nth. case_if; [done|]. intros _. zb. Qed.

Lemma static_nonneg_sound (r : xqc_nv_ref_type_t) i n v : static_found n v (r, i) ->
  match r with
  | XQC_NV_REF_NONE => i = None
  | XQC_NV_REF_NAME => exists j w, i = Some j /\ 0 <= j /\ table_nv t true j = Some (n, w)
  | XQC_NV_REF_NAME_AND_VALUE => exists j, i = Some j /\ 0 <= j /\ table_nv t true j = Some (n, v)
  | XQC_NV_ERROR => False
  end.
Proof.
  unfold static_found. destruct r, i as [j|]; try done.
  - intros (Hj & (e & He & <-) & _). exists j, (st_value e). split; [done|]. split; [done|]. by apply static_nv.
  - intros (Hj & e & He & <- & <-). exists j. split; [done|]. split; [done|]. by apply static_nv.
Qed.

Lemma lookup_nv_spec h p : hdr_ok h p ->
  exists info, xqc_encoder_lookup_nv enc (new_rule h) = Some (Ok tt, info) /\ rule_sound t info h p.
Proof.
  destruct p as [n v]. intros Hok. destruct (hdr_ok_bytes (new_rule h) h (n, v) Hok eq_refl) as (Hn & Hv & _). unfold xqc_encoder_lookup_nv. rewrite Hn, Hv. cbn [fst snd].
  cbn [r_type r_set_type]. set (info := r_set_type _ _). assert (r_hdr info = h /\ r_never info = 0 /\ r_ref info = XQC_NV_REF_NONE) as (Hi1 & Hi2 & Hi3) by done.
  cbn [fst snd]. pose proof (static_lookup_found n v) as Hs. assert (exists sr si, (if not_static (xqc_h3_hdr_type n) then (XQC_NV_REF_NONE, None)
    else xqc_stable_lookup n v (xqc_h3_hdr_type n)) = (sr, si) /\ static_found n v (sr, si)) as (sr & si & -> & Hst).
  { destruct (not_static _) eqn:E.
    - unfold xqc_stable_lookup in Hs. rewrite E, orb_true_r in Hs. by eexists _, _.
    - destruct (xqc_stable_lookup _ _ _) as [sr si]. by eexists _, _. }
  apply static_nonneg_sound in Hst. cbv iota beta.
  assert (exists dr di, (if ref_rank sr =? ref_rank XQC_NV_REF_NAME_AND_VALUE then Some (XQC_NV_REF_NONE, None)
    else xqc_dtable_lookup (e_dtable enc) n v) = Some (dr, di) /\ lookup_sound t n v (dr, di)) as (dr & di & -> & Hd).
  { case_if; [by eexists _, _|]. destruct (lookup_spec _ _ _ n v R Hhash) as ([dr di] & -> & Hl). by eexists _, _. }
  cbn [mbind option_bind]. assert ((ref_rank dr =? -1) = false) as -> by (by destruct dr, di).
  eexists. split; [done|]. assert (forall i q, t_nth t i = Some q -> 0 <= i /\ table_nv t false i = Some q) as Hdyn by (intros i q Hi; split; [by apply (nth_nonneg _ q)|done]).
  destruct sr, dr, di as [j|]; simpl in Hst, Hd; try done; cbn;
    repeat match goal with
    | H : exists j w, si = Some j /\ _ |- _ => destruct H as (j' & w' & -> & Hj1 & Hj2)
    | H : exists j, si = Some j /\ _ |- _ => destruct H as (j' & -> & Hj1 & Hj2)
    | H : exists v', t_nth t _ = _ |- _ => destruct H as (v' & Hv')
    end; (split; [done|by left|]); cbn; try done;
    first [by exists true, w'|by exists true|destruct (Hdyn _ _ Hv') as [? ?]; by exists false, v'|destruct (Hdyn _ _ Hd) as [? ?]; by exists false].
Qed.

(** ** The strategy *)

(** Nothing is inserted with the name of an entry unless there is one. *)
Definition insertion_sound (info : xqc_hdr_enc_rule_t) : Prop :=
  r_insertion info = XQC_INSERT_NAME_REF_VALUE -> r_ref info = XQC_NV_REF_NAME.

Lemma check_insert_spec info h p limited : rule_sound t info h p -> r_insertion info = XQC_INSERT_NONE ->
  exists b info', xqc_encoder_check_insert enc info limited = (b, info') /\ rule_sound t info' h p /\ r_insertion info' = XQC_INSERT_NONE.
Proof.
  intros [H1 H2 H3] Hi. unfold xqc_encoder_check_insert. case_if; [by eexists _, info|]. case_if; [by eexists _, info|].
  eexists _, _. split; [done|]. case_if; [|done]. by split.
Qed.

Lemma check_index_spec info h p limited : rule_sound t info h p ->
  let info' := xqc_encoder_check_index_mode enc info limited in rule_sound t info' h p /\ insertion_sound info'.
Proof.
  intros [H1 H2 H3]. unfold xqc_encoder_check_index_mode. set (info0 := r_set_insertion info XQC_INSERT_NONE).
  assert (rule_sound t info0 h p) as Hs0 by (by split). assert (forall i, r_insertion i = XQC_INSERT_NONE -> insertion_sound i) as Hnone by (intros i Hi; unfold insertion_sound; by rewrite Hi).
  case_if.
  - unfold xqc_encoder_check_never_value_index_mode. assert (rule_sound t (r_set_never info0 1) h p) as Hs1 by (destruct Hs0; split; [done|by right|done]).
    destruct (check_insert_spec _ _ _ limited Hs1 eq_refl) as (b & i & -> & Hsi & Hi). destruct b; simpl; [|by split; [|apply Hnone]].
    case_if; [|by split; [|apply Hnone]]. case_if; [|by split; [|apply Hnone]]. destruct Hsi. by split.
  - unfold xqc_encoder_check_normal_index_mode. destruct (check_insert_spec _ _ _ limited Hs0 eq_refl) as (b & i & -> & Hsi & Hi).
    destruct b; simpl; [|by split; [|apply Hnone]]. destruct (r_ref i) eqn:Er; try by split; [|apply Hnone].
    + case_if; [|by split; [|apply Hnone]]. destruct Hsi. case_if; by split.
    + case_if; [|by split; [|apply Hnone]]. split; [by destruct Hsi; split|intros _; exact Er].
Qed.

End lookup.

(** ** The table of the peer *)

(** The decoder's copy of a table: it has no hash table, and every entry may be evicted. *)
Definition core (t : table) : table := mk_table (t_first t) (t_nvs t) (t_cap t) None (t_added t) false.

Lemma core_space t sp u : t_make_space t sp = Some u -> sp <= t_cap t -> t_make_space (core t) sp = Some (core u).
Proof.
  unfold t_make_space. intros H Hs. destruct (_ <=? t_cap t); [|done]. injection H as <-. unfold evictable. simpl. rewrite drop_all.
  change (total []) with 0. case_if; [done|zb].
Qed.

Lemma core_add t n v t' : when_ok (t_add t n v) = Some t' -> when_ok (t_add (core t) n v) = Some (core t').
Proof.
  unfold t_add. change (t_cap (core t)) with (t_cap t). case_if; [done|]. case_if; [done|]. zify_bools.
  destruct (t_make_space t _) as [u|] eqn:Eu; [|done]. intros [= <-]. by rewrite (core_space _ _ _ Eu ltac:(lia)).
Qed.

Lemma core_nth t i : t_nth (core t) i = t_nth t i.
Proof. done. Qed.

Lemma core_nv t s i : table_nv (core t) s i = table_nv t s i.
Proof. done. Qed.

Lemma core_duplicate es dt t i t' : rep es dt t -> when_ok (t_duplicate t i) = Some t' -> when_ok (t_duplicate (core t) i) = Some (core t').
Proof.
  intros R. unfold t_duplicate. rewrite core_nth. destruct (t_nth t i) as [[n v]|] eqn:En; [|done].
  destruct (t_make_space t _) as [u|] eqn:E; [|done]. intros [= <-]. destruct (entry_fits _ _ _ _ _ _ R En) as (_ & Hfit & _). by rewrite (core_space _ _ _ E Hfit).
Qed.

(** The entries from the smallest reference on are the same in [t']. *)
Definition keeps (t t' : table) : Prop :=
  t_ref t' = t_ref t /\ t_cap t' = t_cap t /\ t_hash t' = t_hash t /\ t_end t <= t_end t'
  /\ forall i, ref_value (t_ref t) <= i < t_end t -> t_nth t' i = t_nth t i.

Lemma keeps_refl t : keeps t t.
Proof. by split_and!. Qed.

Lemma keeps_push es dt t sp u n v : rep es dt t -> t_make_space t sp = Some u -> keeps t (t_push u n v).
Proof.
  intros R H. destruct (space_facts _ _ _ H) as (H1 & H2 & H3 & H4 & H5 & _). split; [done|]. split; [done|]. split; [done|]. rewrite push_end.
  split; [lia|]. intros i Hi. destruct (t_ref t) as [r|] eqn:Er.
  - pose proof (rep_ref_ok _ _ _ R r Er) as Hb. pose proof (same_space _ _ _ _ Er Hb H) as Hs.
    assert (same_from r t (t_push u n v)) as (_ & _ & _ & Hn) by (eapply same_from_trans; [exact Hs|]; apply same_push; apply Hs). by apply Hn.
  - pose proof (end_bound _ _ _ R). pose proof (rep_sum_ok _ _ _ R). simpl in Hi. unfold XQC_INVALID_INDEX in Hi. lia.
Qed.

(** ** Insertion and duplication *)

(** An instruction of a field section. *)
Definition ins_plain (i : enc_ins) : Prop := ins_ok i /\ match i with I_cap _ => False | _ => True end.

(** The encoder's table [t] became [t'], and the instructions [l] do the same at the decoder. *)
Definition sent (t t' : table) (l : list enc_ins) : Prop :=
  keeps t t' /\ ins_run (core t) l = Some (core t') /\ Forall ins_plain l /\ (length l <= 1)%nat /\ t_added t' <= t_added t + t_cap t
  /\ (Forall nv_small (t_nvs t) -> Forall nv_small (t_nvs t')).

Lemma sent_nil t : 0 <= t_cap t -> sent t t [].
Proof. intros H. split; [apply keeps_refl|]. split_and!; try done; simpl; lia. Qed.

Lemma push_nth t u sp n v : t_make_space t sp = Some u -> 0 <= t_first t -> t_nth (t_push u n v) (t_end t) = Some (n, v).
Proof.
  intros H Hf. destruct (space_facts _ _ _ H) as (_ & _ & _ & He & _). rewrite <- He. unfold t_nth, t_end, t_push. simpl. case_if; [zb|].
  rewrite lookup_app_r by lia. by replace (_ - _)%nat with O by lia.
Qed.

Lemma cnt_spec es dt t : rep es dt t -> xqc_dtable_get_insert_cnt dt = t_end t.
Proof. intros R. apply (rep_cnt _ _ _ R). Qed.

Section insert.

Context (junk : Z -> list Z) (Hjunk : forall n, 0 <= n -> zlen (junk n) = n).

(** The instruction of a rule. *)
Definition rule_ins (base : Z) (info : xqc_hdr_enc_rule_t) (p : nv) : enc_ins :=
  match r_insertion info with
  | XQC_INSERT_NAME_REF_VALUE => if r_ref_table info =? 0 then I_name_ref false (base - r_index info - 1) (snd p) else I_name_ref true (r_index info) (snd p)
  | XQC_INSERT_NAME => I_literal (fst p) []
  | _ => I_literal (fst p) (snd p)
  end.

Definition inserted_value (info : xqc_hdr_enc_rule_t) (p : nv) : list Z := match r_insertion info with XQC_INSERT_NAME => [] | _ => snd p end.

Lemma static_bound t i p : 0 <= i -> table_nv t true i = Some p -> i < 99.
Proof. unfold table_nv, xqc_stable_get_entry, XQC_STABLE_SIZE. case_if; [done|]. intros _ _. zb. Qed.

Lemma dyn_bound t i p : t_nth t i = Some p -> t_first t <= i < t_end t.
Proof.
  unfold t_nth, t_end. case_if; [done|]. intros H. pose proof (lookup_lt_Some _ _ _ H). zb.
Qed.

(** The instruction is written, and a decoder with the same table does the same with it. *)
Lemma rule_ins_spec es dt t info h p t' ins : rep es dt t -> rule_sound t info h p -> insertion_sound info -> hdr_ok h p -> is_insert_none (r_insertion info) = false ->
  when_ok (t_add t (fst p) (inserted_value info p)) = Some t' -> vb_ok ins -> vb_data_len ins + ROOM <= max_size ins ->
  ins_plain (rule_ins (t_end t) info p) /\ ins_apply (core t) (rule_ins (t_end t) info p) = Some (core t')
  /\ exists ins', xqc_encoder_write_insert_ins true junk ins info (t_end t) = (Ok tt, ins') /\ grew ins ins' (ins_bytes (rule_ins (t_end t) info p)).
Proof.
  intros R Hs Hi Hh Hne Hadd Hb Hroom. destruct (hdr_ok_bytes info h p Hh (rs_hdr _ _ _ _ Hs)) as (Hn & Hv & _). destruct Hh as (_ & Hok1 & Hok2).
  pose proof (end_bound _ _ _ R). pose proof (rep_sum_ok _ _ _ R). pose proof (rep_first_ok _ _ _ R).
  assert (forall i, ins_plain i -> ins_apply (core t) i = Some (core t') -> xqc_encoder_write_insert_ins true junk ins info (t_end t) = write_ins junk ins i ->
    ins_plain i /\ ins_apply (core t) i = Some (core t') /\ exists ins', xqc_encoder_write_insert_ins true junk ins info (t_end t) = (Ok tt, ins') /\ grew ins ins' (ins_bytes i)) as Hgo.
  { intros i Hi1 Hi2 ->. split; [done|]. split; [done|]. destruct Hi1 as [Hi1 _]. by apply write_ins_spec. }
  apply core_add in Hadd. unfold rule_ins, inserted_value, xqc_encoder_write_insert_ins, insertion_sound in *. destruct (r_insertion info); try done.
  - apply Hgo; [|done|by rewrite Hn]. split; [|done]. split; [done|]. split; [constructor|by_decide].
  - pose proof (rs_ref _ _ _ _ Hs) as Hr. unfold ref_sound in Hr. rewrite (Hi eq_refl) in Hr. destruct Hr as (s & w & Hf & Hi0 & Hnv).
    rewrite Hf in *. rewrite Hv in *. destruct s; cbn [flag Z.eqb].
    + apply static_bound in Hnv as Hlt; [|done]. apply Hgo; [|cbn [ins_apply]; by rewrite core_nv, Hnv|done]. split; [|done]. split; [|done]. unfold int_ok, XQC_QPACK_INT_MAX. lia.
    + apply dyn_bound in Hnv as Hlt. apply Hgo.
      * split; [|done]. split; [|done]. unfold int_ok, XQC_QPACK_INT_MAX. lia.
      * cbn [ins_apply]. change (t_end (core t)) with (t_end t). replace (t_end t - (t_end t - r_index info - 1) - 1) with (r_index info) by lia. by rewrite core_nv, Hnv.
      * simpl. unfold xqc_abs2brel. by rewrite u64_small by lia.
  - apply Hgo; [done|done|by rewrite Hn, Hv].
Qed.

(** The table, the rule and the instructions after an insertion or a duplication. *)
Definition step_out (t : table) (h : xqc_http_header_t) (p : nv) (ins : xqc_var_buf_t)
    (dt : xqc_dtable_t) (info : xqc_hdr_enc_rule_t) (ins' : xqc_var_buf_t) : Prop :=
  exists es t' l, rep es dt t' /\ sent t t' l /\ grew ins ins' (stream_bytes l) /\ rule_sound t' info h p.

Lemma step_same es dt t info h p ins : rep es dt t -> rule_sound t info h p -> vb_ok ins -> step_out t h p ins dt info ins.
Proof.
  intros R Hs Hb. exists es, t, []. split; [done|]. split; [apply sent_nil; apply (rep_mem _ _ _ R)|]. split; [by apply grew_refl|done].
Qed.

Lemma stream_one i : stream_bytes [i] = ins_bytes i.
Proof. unfold stream_bytes. simpl. by rewrite app_nil_r. Qed.

Lemma push_sent es dt t n v u i : rep es dt t -> t_make_space t (size_of (n, v)) = Some u -> size_of (n, v) <= t_cap t -> nv_small (n, v) ->
  ins_plain i -> ins_apply (core t) i = Some (core (t_push u n v)) -> sent t (t_push u n v) [i].
Proof.
  intros R Hu Hfit Hsm Hi Ha. destruct (space_facts _ _ _ Hu) as (H1 & _ & _ & _ & _ & H6). split; [by apply (keeps_push es dt t (size_of (n, v)))|].
  split; [by cbn [ins_run]; rewrite Ha|]. split; [by constructor|]. split; [simpl; lia|]. split; [simpl; lia|].
  intros Hf. simpl. apply Forall_app. split; [by apply H6|by constructor].
Qed.

Lemma insert_spec es dt t info h p ins : rep es dt t -> rule_sound t info h p -> insertion_sound info -> hdr_ok h p -> is_insert_none (r_insertion info) = false ->
  t_added t + ROOM < 2 ^ 64 -> vb_ok ins -> vb_data_len ins + ROOM <= max_size ins ->
  exists dt' info' ins', xqc_encoder_insert true junk dt info ins = Some (Ok tt, dt', info', ins') /\ step_out t h p ins dt' info' ins'.
Proof.
  intros R Hs Hi Hh Hne Hadd Hb Hroom. unfold xqc_encoder_insert. rewrite Hne. destruct (hdr_ok_bytes info h p Hh (rs_hdr _ _ _ _ Hs)) as (Hn & Hv & _).
  pose proof Hh as (_ & [_ Hl1] & [_ Hl2]). set (v' := match r_insertion info with XQC_INSERT_NAME => [] | _ => value_bytes info end).
  assert (v' = inserted_value info p) as Hv' by (unfold v', inserted_value; by destruct (r_insertion info)).
  assert (zlen v' <= MAX) as Hlv by (rewrite Hv'; unfold inserted_value; destruct (r_insertion info); try done; by_decide).
  destruct (add_entry_spec _ _ _ (name_bytes info) v' R) as (dt' & es' & -> & R').
  { rewrite Hn. unfold size_of, ROOM in *. simpl. lia. }
  cbn [mbind option_bind]. rewrite Hn, Hv' in R' |- *. destruct (t_add t (fst p) (inserted_value info p)) as [[idx|e] t'] eqn:Ea; simpl in R' |- *.
  - assert (when_ok (t_add t (fst p) (inserted_value info p)) = Some t') as Hok by (by rewrite Ea).
    destruct (rule_ins_spec es dt t info h p t' ins R Hs Hi Hh Hne Hok Hb Hroom) as (Ho & Hap & ins' & Hw & Hg).
    rewrite (cnt_spec _ _ _ R), Hw. eexists _, _, ins'. split; [done|]. destruct (add_ok _ _ _ _ Hok) as (u & Hu & -> & Ha2). rewrite Ha2 in Ea. injection Ea as <-.
    exists es', (t_push u (fst p) (inserted_value info p)), [rule_ins (t_end t) info p]. rewrite stream_one. split; [done|]. split.
    { apply (push_sent es dt); try done; [|split; [done|by rewrite <- Hv']]. unfold t_add in Ha2. destruct (_ =? 0); [done|]. destruct (t_cap t <? _) eqn:E; [done|zb]. }
    split; [done|]. pose proof (push_nth t u _ (fst p) (inserted_value info p) Hu (rep_first_ok _ _ _ R)) as Hnth. pose proof (rep_first_ok _ _ _ R).
    split; [apply Hs|apply Hs|]. unfold ref_sound. simpl. unfold inserted_value in *. assert (0 <= t_end t) by (unfold t_end; lia).
    destruct (r_insertion info); first [by exists false, []|exists false; by destruct p].
  - eexists _, _, ins. split; [done|]. assert (t' = t) as ->.
    { unfold t_add in Ea. destruct (_ =? 0); [congruence|]. destruct (t_cap t <? _); [congruence|]. destruct (t_make_space t _); congruence. }
    apply (step_same es'); try done. destruct Hs. by split.
Qed.

Lemma try_duplicate_spec es dt t info h p ins : rep es dt t -> Forall nv_small (t_nvs t) -> rule_sound t info h p -> refers_dtable info = true ->
  t_added t + t_cap t < 2 ^ 64 -> vb_ok ins -> vb_data_len ins + ROOM <= max_size ins ->
  exists r dt' info' ins', xqc_encoder_try_duplicate true junk dt info ins = Some (r, dt', info', ins') /\ step_out t h p ins dt' info' ins'.
Proof.
  intros R Hsm Hs Href Hadd Hb Hroom. unfold refers_dtable in Href. apply andb_true_iff in Href as [Hr1 Hr2]. zify_bools.
  assert (exists q, t_nth t (r_index info) = Some q /\ fst q = fst p /\ (r_ref info = XQC_NV_REF_NAME_AND_VALUE -> q = p)) as (q & Hq & Hqn & Hqv).
  { pose proof (rs_ref _ _ _ _ Hs) as Hr. unfold ref_sound in Hr. destruct (r_ref info); try done.
    - destruct Hr as (s & w & Hf & _ & Hnv). rewrite Hr2 in Hf. destruct s; [done|]. by exists (fst p, w).
    - destruct Hr as (s & Hf & _ & Hnv). rewrite Hr2 in Hf. destruct s; [done|]. by exists p. }
  pose proof (dyn_bound _ _ _ Hq) as Hlt. pose proof (end_bound _ _ _ R). pose proof (rep_sum_ok _ _ _ R). pose proof (rep_first_ok _ _ _ R).
  unfold xqc_encoder_try_duplicate. rewrite (draining_spec _ _ _ _ R) by lia. unfold t_draining. rewrite Hq. cbn [mbind option_bind].
  destruct (_ <? total _); [|by eexists _, _, _, ins; split; [done|]; apply (step_same es)]. destruct q as [n v].
  destruct (entry_fits _ _ _ _ _ _ R Hq) as (_ & Hfit & _). destruct (duplicate_spec _ _ _ (r_index info) R ltac:(lia)) as (dt' & es' & -> & R'); [rewrite Hq; lia|].
  cbn [mbind option_bind]. unfold t_duplicate in *. rewrite Hq in *. destruct (t_make_space t _) as [u|] eqn:Eu; simpl in R' |- *;
    [|eexists _, _, _, ins; split; [done|]; by apply (step_same es')].
  rewrite (cnt_spec _ _ _ R). unfold xqc_abs2brel. rewrite u64_small by lia. set (i := t_end t - r_index info - 1).
  assert (int_ok i) as Hi by (unfold int_ok, XQC_QPACK_INT_MAX, i; lia). destruct (write_ins_spec junk Hjunk ins (I_dup i) Hb Hi Hroom) as (ins' & Hw & Hg).
  cbn [write_ins] in Hw. rewrite Hw. eexists _, _, _, ins'. split; [done|]. exists es', (t_push u n v), [I_dup i]. rewrite stream_one. split; [done|]. split.
  { apply (push_sent es dt); try done; [by apply (t_nth_small t Hsm _ _ Hq)|]. cbn [ins_apply]. change (t_end (core t)) with (t_end t).
    replace (t_end t - i - 1) with (r_index info) by (unfold i; lia). apply (core_duplicate es dt); [done|]. unfold t_duplicate. by rewrite Hq, Eu. }
  split; [done|]. pose proof (push_nth t u _ n v Eu (rep_first_ok _ _ _ R)) as Hnth. split; [apply Hs|apply Hs|].
  pose proof (rs_ref _ _ _ _ Hs) as Hr. unfold ref_sound in *. simpl. assert (0 <= t_end t) by (unfold t_end; lia). simpl in Hqn. subst n.
  destruct (r_ref info); try done; [exists false, v; by rewrite Hr2|exists false; rewrite Hr2; by rewrite <- (Hqv eq_refl)].
Qed.

End insert.

(** ** The field section *)

Definition enc_at (e : xqc_encoder_t) (t : table) : Prop :=
  (exists es, rep es (e_dtable e) t) /\ t_hash t = true /\ Forall nv_small (t_nvs t).

(** The smallest reference of the section and of all sections that are not acknowledged protects
    the entries; the required insert count is that of an entry that is protected. *)
Record section_inv (e : xqc_encoder_t) (t : table) (fs : xqc_field_section_t) : Prop := {
  si_ref : ref_value (t_ref t) <= Z.min (fs_min_ref_idx fs) (e_min_unack_index e);
  si_min : 0 <= fs_min_ref_idx fs <= XQC_INVALID_INDEX;
  si_ric : 0 <= fs_rqrd_insert_cnt fs <= t_end t;
  si_ric_min : 0 < fs_rqrd_insert_cnt fs -> fs_min_ref_idx fs < fs_rqrd_insert_cnt fs;
}.

(** A rule whose reference, if it has one, is among those of the section. *)
Definition rule_in (t : table) (fs : xqc_field_section_t) (info : xqc_hdr_enc_rule_t) (h : xqc_http_header_t) (p : nv) : Prop :=
  rule_sound t info h p /\ (refers_dtable info = true -> fs_min_ref_idx fs <= r_index info < fs_rqrd_insert_cnt fs).

(** From [(t, fs)] to [(t', fs')] the references of a section stay. *)
Definition section_next (t t' : table) (fs fs' : xqc_field_section_t) : Prop :=
  fs_base fs' = fs_base fs /\ fs_min_ref_idx fs' <= fs_min_ref_idx fs /\ fs_rqrd_insert_cnt fs <= fs_rqrd_insert_cnt fs'
  /\ t_end t <= t_end t' /\ forall i, fs_min_ref_idx fs <= i < t_end t -> t_nth t' i = t_nth t i.

Lemma section_next_trans t1 t2 t3 f1 f2 f3 : section_next t1 t2 f1 f2 -> section_next t2 t3 f2 f3 -> section_next t1 t3 f1 f3.
Proof.
  intros (H1 & H2 & H3 & H4 & H5) (K1 & K2 & K3 & K4 & K5). split_and!; [congruence|lia|lia|lia|]. intros i Hi. rewrite K5 by lia. apply H5. lia.
Qed.

Lemma dyn_ref t info h p : rule_sound t info h p -> refers_dtable info = true -> exists q, t_nth t (r_index info) = Some q.
Proof.
  intros [_ _ Hr] H. unfold refers_dtable in H. apply andb_true_iff in H as [H1 H2]. zify_bools. unfold ref_sound in Hr. rewrite H2 in Hr.
  destruct (r_ref info); try done; [destruct Hr as ([] & w & Hf & _ & Hn)|destruct Hr as ([] & Hf & _ & Hn)]; try done; by eexists.
Qed.

Lemma rule_in_next t t' fs fs' info h p : section_next t t' fs fs' -> fs_rqrd_insert_cnt fs <= t_end t -> rule_in t fs info h p -> rule_in t' fs' info h p.
Proof.
  intros (_ & H2 & H3 & _ & H5) Hle [[R1 R2 R3] Hin]. split; [|intros Hr; specialize (Hin Hr); lia]. split; [done|done|]. unfold ref_sound, refers_dtable in *.
  destruct (r_ref info); try done.
  - destruct R3 as (s & w & Hf & Hi & Hn). exists s, w. split; [done|]. split; [done|]. destruct s; [done|]. rewrite Hf in Hin. specialize (Hin eq_refl).
    simpl in *. rewrite H5; [done|lia].
  - destruct R3 as (s & Hf & Hi & Hn). exists s. split; [done|]. split; [done|]. destruct s; [done|]. rewrite Hf in Hin. specialize (Hin eq_refl).
    simpl in *. rewrite H5; [done|lia].
Qed.

Lemma set_ref_live es dt t i q : rep es dt t -> t_nth t i = Some q ->
  exists dt' t', xqc_dtable_set_min_ref dt i = Some (Ok tt, dt') /\ rep es dt' t' /\ ref_value (t_ref t') = i /\ core t' = core t /\ t_hash t' = t_hash t.
Proof.
  intros R Hq. pose proof (dyn_bound _ _ _ Hq) as Hb. pose proof (end_bound _ _ _ R). pose proof (rep_sum_ok _ _ _ R). pose proof (rep_first_ok _ _ _ R).
  destruct (set_min_ref_spec es dt t i R ltac:(lia)) as (dt' & E & R'). exists dt'. unfold t_set_ref in *.
  destruct (bool_decide_reflect (i = ref_value (t_ref t))) as [Heq|_]; [by exists t|].
  rewrite bool_decide_eq_false_2 in * by (intros Hnil; unfold t_end in Hb; rewrite Hnil in Hb; simpl in Hb; lia).
  destruct (i =? XQC_INVALID_INDEX) eqn:Ei; [unfold XQC_INVALID_INDEX in Ei; zb|].
  assert (((t_first t <=? i) && (i <? t_end t)) = true) as Hbb by zb. rewrite Hbb in *. by exists (with_ref t (Some i)).
Qed.

Lemma core_same t t' : core t' = core t -> t_end t' = t_end t /\ (forall j, t_nth t' j = t_nth t j) /\ t_nvs t' = t_nvs t.
Proof.
  intros Hc. split; [change (t_end (core t') = t_end (core t)); by rewrite Hc|]. split; [intros j; change (t_nth (core t') j = t_nth (core t) j); by rewrite Hc|].
  change (t_nvs (core t') = t_nvs (core t)). by rewrite Hc.
Qed.

(** The section [fs1] of [fs] once the reference of the rule is among its references. *)
Lemma section_ref e dt' es t t' fs fs1 info h p : rep es dt' t' -> t_hash t' = true -> Forall nv_small (t_nvs t) -> core t' = core t -> section_inv e t fs ->
  rule_sound t info h p -> t_first t <= r_index info < t_end t -> t_end t < XQC_INVALID_INDEX -> 0 <= t_first t ->
  fs_base fs1 = fs_base fs -> fs_rqrd_insert_cnt fs1 = fs_rqrd_insert_cnt fs -> fs_min_ref_idx fs1 = Z.min (r_index info) (fs_min_ref_idx fs) ->
  ref_value (t_ref t') <= Z.min (fs_min_ref_idx fs1) (e_min_unack_index e) ->
  let fs' := if fs_rqrd_insert_cnt fs1 <? r_index info + 1 then mk_fs (fs_base fs1) (r_index info + 1) (fs_min_ref_idx fs1) else fs1 in
  enc_at (e_set_dtable e dt') t' /\ core t' = core t /\ section_inv (e_set_dtable e dt') t' fs' /\ section_next t t' fs fs' /\ rule_in t' fs' info h p
  /\ fs_rqrd_insert_cnt fs' = Z.max (r_index info + 1) (fs_rqrd_insert_cnt fs).
Proof.
  intros R Hh Hsm Hc [I1 I2 I3 I4] Hs Hi Hend Hf F1 F2 F3 Href fs'. destruct (core_same _ _ Hc) as (He & Hn & Hnv).
  assert (fs_base fs' = fs_base fs /\ fs_rqrd_insert_cnt fs' = Z.max (r_index info + 1) (fs_rqrd_insert_cnt fs) /\ fs_min_ref_idx fs' = Z.min (r_index info) (fs_min_ref_idx fs))
    as (G1 & G2 & G3) by (unfold fs'; destruct (_ <? _) eqn:E; zify_bools; simpl; split_and!; try done; lia).
  assert (section_next t t' fs fs') as Hnx by (split_and!; try done; try lia; intros; apply Hn).
  split; [split; [by eexists|split; [done|by rewrite Hnv]]|]. split; [done|]. split; [split; simpl; rewrite ?G2, ?G3, ?He; lia|]. split; [done|]. split; [|done].
  apply (rule_in_next t t' (mk_fs (fs_base fs) (r_index info + 1) (r_index info))); [|simpl; lia|split; [done|]; intros _; simpl; lia].
  split_and!; simpl; try done; try lia; intros; apply Hn.
Qed.

Lemma update_section_spec e t fs info h p : enc_at e t -> section_inv e t fs -> rule_sound t info h p ->
  exists dt' t' fs', update_section e fs info = Some (Ok tt, e_set_dtable e dt', fs') /\ enc_at (e_set_dtable e dt') t' /\ core t' = core t
  /\ section_inv (e_set_dtable e dt') t' fs' /\ section_next t t' fs fs' /\ rule_in t' fs' info h p
  /\ fs_rqrd_insert_cnt fs' = (if refers_dtable info then Z.max (r_index info + 1) (fs_rqrd_insert_cnt fs) else fs_rqrd_insert_cnt fs).
Proof.
  intros ((es & R) & Hh & Hsm) Hinv Hs. pose proof Hinv as [I1 I2 I3 I4]. assert (e_set_dtable e (e_dtable e) = e) as Hid by (by destruct e).
  unfold update_section. destruct (refers_dtable info) eqn:Er; cbn [andb].
  2:{ exists (e_dtable e), t, fs. rewrite Hid. split; [done|]. split; [by split; [by eexists|]|]. split; [done|].
      split; [by split|]. split; [by split_and!|]. split; [|done]. split; [done|]. by rewrite Er. }
  destruct (dyn_ref _ _ _ _ Hs Er) as (q & Hq). pose proof (dyn_bound _ _ _ Hq) as Hb. pose proof (end_bound _ _ _ R). pose proof (rep_sum_ok _ _ _ R). pose proof (rep_first_ok _ _ _ R).
  assert (t_end t < XQC_INVALID_INDEX) as Hinf by (unfold XQC_INVALID_INDEX; lia). rewrite (u64_small (r_index info + 1)) by lia.
  destruct (r_index info <? fs_min_ref_idx fs) eqn:E1; zify_bools; cbn [fs_min_ref_idx].
  - destruct (r_index info <? e_min_unack_index e) eqn:E2; zify_bools.
    + destruct (set_ref_live es _ t _ q R Hq) as (dt' & t' & -> & R' & Href & Hc & Hh'). cbn [mbind option_bind]. eexists dt', t', _. split; [done|].
      apply (section_ref e dt' es t t' fs (mk_fs (fs_base fs) (fs_rqrd_insert_cnt fs) (r_index info)) info h p); try done; try congruence; simpl; lia.
    + cbn [mbind option_bind]. eexists (e_dtable e), t, _. rewrite Hid. split; [done|]. rewrite <- Hid at 1 2.
      apply (section_ref e _ es t t fs (mk_fs (fs_base fs) (fs_rqrd_insert_cnt fs) (r_index info)) info h p); try done; simpl; lia.
  - cbn [mbind option_bind]. eexists (e_dtable e), t, _. rewrite Hid. split; [done|]. rewrite <- Hid at 1 2.
    apply (section_ref e _ es t t fs fs info h p); try done; lia.
Qed.

Section prepare.

Context (junk : Z -> list Z) (Hjunk : forall n, 0 <= n -> zlen (junk n) = n).

(** What the preparation of [n] headers does to the encoder and to the instructions. *)
Record prepared (e : xqc_encoder_t) (t : table) (fs : xqc_field_section_t) (ins : xqc_var_buf_t) (n : nat)
    (e' : xqc_encoder_t) (t' : table) (fs' : xqc_field_section_t) (ins' : xqc_var_buf_t) (l : list enc_ins) : Prop := {
  pr_enc : e' = e_set_dtable e (e_dtable e');
  pr_at : enc_at e' t';
  pr_inv : section_inv e' t' fs';
  pr_next : section_next t t' fs fs';
  pr_grew : grew ins ins' (stream_bytes l);
  pr_run : ins_run (core t) l = Some (core t');
  pr_ok : Forall ins_plain l;
  pr_len : (length l <= n)%nat;
  pr_cap : t_cap t' = t_cap t;
  pr_added : t_added t' <= t_added t + Z.of_nat n * t_cap t;
}.

Lemma stream_bytes_app l1 l2 : stream_bytes (l1 ++ l2) = stream_bytes l1 ++ stream_bytes l2.
Proof. unfold stream_bytes. by rewrite map_app, concat_app. Qed.

Lemma prepared_trans e1 t1 f1 i1 n e2 t2 f2 i2 l m e3 t3 f3 i3 k :
  prepared e1 t1 f1 i1 n e2 t2 f2 i2 l -> prepared e2 t2 f2 i2 m e3 t3 f3 i3 k -> prepared e1 t1 f1 i1 (n + m) e3 t3 f3 i3 (l ++ k).
Proof.
  intros [A1 A2 A3 A4 A5 A6 A7 A8 A9 A10] [B1 B2 B3 B4 B5 B6 B7 B8 B9 B10]. split; try done.
  - rewrite B1 at 1. by rewrite A1.
  - by apply (section_next_trans _ t2 _ _ f2).
  - rewrite stream_bytes_app. by apply (grew_trans _ i2).
  - by rewrite ins_run_app, A6.
  - by apply Forall_app.
  - rewrite length_app. lia.
  - congruence.
  - rewrite A9 in B10. lia.
Qed.

(** A step of the table, before the section is brought up to date. *)
Lemma step_prepared e t fs ins dt1 info ins' h p : enc_at e t -> section_inv e t fs -> step_out t h p ins dt1 info ins' ->
  exists dt' t' fs' l, update_section (e_set_dtable e dt1) fs info = Some (Ok tt, e_set_dtable e dt', fs')
  /\ prepared e t fs ins 1 (e_set_dtable e dt') t' fs' ins' l /\ rule_in t' fs' info h p
  /\ fs_rqrd_insert_cnt fs' = (if refers_dtable info then Z.max (r_index info + 1) (fs_rqrd_insert_cnt fs) else fs_rqrd_insert_cnt fs).
Proof.
  intros (_ & Hh & Hsm) [I1 I2 I3 I4] (es & t1 & l & R1 & ((K1 & K2 & K3 & K4 & K5) & S2 & S3 & S4 & S5 & S6) & Hg & Hs).
  assert (enc_at (e_set_dtable e dt1) t1) as Hat1 by (split; [by eexists|split; [congruence|by apply S6]]).
  assert (section_inv (e_set_dtable e dt1) t1 fs) as Hinv1 by (split; simpl; rewrite ?K1; try done; lia).
  destruct (update_section_spec _ _ _ _ _ _ Hat1 Hinv1 Hs) as (dt' & t' & fs' & E & Hat' & Hc & Hinv' & Hnx & Hri & Hric).
  exists dt', t', fs', l. split; [exact E|]. split; [|done]. destruct (core_same _ _ Hc) as (He & _).
  assert (t_cap t' = t_cap t1 /\ t_added t' = t_added t1) as [Hcap Hadd] by (unfold core in Hc; injection Hc; intros; by split).
  split; try done; try lia.
  - apply (section_next_trans t t1 t' fs fs fs'); [|done]. split_and!; try done. intros i Hi. apply K5. lia.
  - by rewrite S2, Hc.
Qed.

(** A stream that may not block: nothing is inserted, and only entries that the decoder has
    acknowledged are referred to. *)
Lemma check_limited e info : e_max_entries e <> 0 -> let info' := xqc_encoder_check_index_mode e info true in
  r_insertion info' = XQC_INSERT_NONE /\ (refers_dtable info' = true -> r_index info' < e_krc e).
Proof.
  intros He. assert (forall i, r_insertion i = XQC_INSERT_NONE -> exists i', xqc_encoder_check_insert e i true = (false, i') /\ r_insertion i' = XQC_INSERT_NONE
    /\ (refers_dtable i' = true -> r_index i' < e_krc e)) as Hc.
  { intros i Hi. unfold xqc_encoder_check_insert. rewrite (proj2 (Z.eqb_neq _ _) He). cbn [negb]. eexists. split; [done|]. case_if.
    - split; [done|]. unfold refers_dtable. by simpl.
    - split; [done|]. unfold refers_dtable. intros Hr. apply andb_true_iff in Hr as [Hr1 Hr2]. rewrite Hr1, Hr2 in E. simpl in E. zb. }
  unfold xqc_encoder_check_index_mode. case_if.
  - unfold xqc_encoder_check_never_value_index_mode. destruct (Hc (r_set_never (r_set_insertion info XQC_INSERT_NONE) 1) eq_refl) as (i' & -> & H1 & H2). done.
  - unfold xqc_encoder_check_normal_index_mode. destruct (Hc (r_set_insertion info XQC_INSERT_NONE) eq_refl) as (i' & -> & H1 & H2). done.
Qed.

Lemma prepare_hdr_spec limited e t fs ins h p : enc_at e t -> section_inv e t fs -> hdr_ok h p -> t_added t + t_cap t + ROOM < 2 ^ 64 ->
  vb_ok ins -> vb_data_len ins + ROOM <= max_size ins ->
  exists info e' fs' ins' t' l, prepare_hdr true junk limited e fs ins h = Some (Ok info, e', fs', ins')
  /\ prepared e t fs ins 1 e' t' fs' ins' l /\ rule_in t' fs' info h p
  /\ (limited = true -> e_max_entries e <> 0 -> fs_rqrd_insert_cnt fs' <= Z.max (fs_rqrd_insert_cnt fs) (e_krc e)).
Proof.
  intros Hat Hinv Hh Hadd Hb Hroom. pose proof Hat as ((es & R) & Hhash & Hsm). pose proof (rep_mem _ _ _ R) as [Hcap _]. unfold prepare_hdr. case_if.
  - exists (r_set_never (r_set_ref (new_rule h) (r_ref_table (new_rule h)) XQC_NV_REF_NONE (r_index (new_rule h))) 1), e, fs, ins, t, []. split; [done|]. split.
    + split; try done; try (simpl; lia); [by destruct e|by apply grew_refl].
    + split; [|intros; lia]. split; [|done]. split; [done|by right|done].
  - destruct (lookup_nv_spec e t es R Hhash h p Hh) as (info0 & -> & Hs0). cbn [mbind option_bind].
    destruct (check_index_spec e t info0 h p limited Hs0) as [Hs Hi]. set (info := xqc_encoder_check_index_mode e info0 limited) in *.
    assert (exists dt1 info1 ins1, (if negb (is_insert_none (r_insertion info)) then xqc_encoder_insert true junk (e_dtable e) info ins
      else if negb limited && refers_dtable info then '(_, dt, info, ins) ← xqc_encoder_try_duplicate true junk (e_dtable e) info ins; Some (Ok tt, dt, info, ins)
      else Some (Ok tt, e_dtable e, info, ins)) = Some (Ok tt, dt1, info1, ins1) /\ step_out t h p ins dt1 info1 ins1
      /\ (limited = true -> e_max_entries e <> 0 -> info1 = info /\ (refers_dtable info = true -> r_index info < e_krc e))) as (dt1 & info1 & ins1 & -> & Hstep & Hlim).
    { assert (0 < ROOM) by done. destruct (is_insert_none (r_insertion info)) eqn:En; cbn [negb].
      - destruct (negb limited && refers_dtable info) eqn:Ed.
        + apply andb_true_iff in Ed as [Ed0 Ed]. destruct (try_duplicate_spec junk Hjunk es _ t info h p ins R Hsm Hs Ed ltac:(lia) Hb Hroom) as (r & dt1 & i1 & ins1 & -> & Hst).
          exists dt1, i1, ins1. split; [done|]. split; [done|]. intros Hlt _. by rewrite Hlt in Ed0.
        + exists (e_dtable e), info, ins. split; [done|]. split; [by apply (step_same es)|]. intros Hlt Hm. split; [done|]. unfold info. rewrite Hlt. by apply check_limited.
      - destruct (insert_spec junk Hjunk es _ t info h p ins R Hs Hi Hh En ltac:(lia) Hb Hroom) as (dt1 & i1 & ins1 & -> & Hst).
        exists dt1, i1, ins1. split; [done|]. split; [done|]. intros Hlt Hm. exfalso. destruct (check_limited e info0 Hm) as [Hno _]. unfold info in En. rewrite Hlt, Hno in En. done. }
    cbn [mbind option_bind]. destruct (step_prepared _ _ _ _ _ _ _ _ _ Hat Hinv Hstep) as (dt' & t' & fs' & l & -> & Hpr & Hri & Hric). cbn [mbind option_bind].
    exists info1, (e_set_dtable e dt'), fs', ins1, t', l. split; [done|]. split; [done|]. split; [done|]. intros Hlt Hmax. specialize (Hlim Hlt Hmax) as [-> Hk].
    rewrite Hric. destruct (refers_dtable info); [specialize (Hk eq_refl)|]; lia.
Qed.

Lemma stream_len l : Forall ins_plain l -> zlen (stream_bytes l) <= Z.of_nat (length l) * ROOM.
Proof.
  induction 1 as [|i l [Hi _] Hl IH]; [done|]. unfold stream_bytes in *. simpl. rewrite zlen_app. pose proof (ins_len i Hi). lia.
Qed.

Lemma prepare_loop_spec limited hdrs : forall ps e t fs ins, enc_at e t -> section_inv e t fs -> Forall2 hdr_ok hdrs ps ->
  t_added t + (Z.of_nat (length hdrs) + 1) * t_cap t + ROOM < 2 ^ 64 ->
  vb_ok ins -> vb_data_len ins + Z.of_nat (length hdrs) * ROOM <= max_size ins ->
  exists infos e' fs' ins' t' l, prepare_loop true junk limited e fs ins hdrs = Some (Ok infos, e', fs', ins')
  /\ prepared e t fs ins (length hdrs) e' t' fs' ins' l /\ Forall3 (rule_in t' fs') infos hdrs ps
  /\ (limited = true -> e_max_entries e <> 0 -> fs_rqrd_insert_cnt fs' <= Z.max (fs_rqrd_insert_cnt fs) (e_krc e)).
Proof.
  assert (0 < ROOM) by done. induction hdrs as [|h hdrs IH]; intros ps e t fs ins Hat Hinv Hok Hadd Hb Hroom.
  { inversion Hok. exists [], e, fs, ins, t, []. split; [done|]. split; [|split; [constructor|intros; lia]]. pose proof Hat as ((es & R) & _).
    split; try done; try (simpl; lia); [by destruct e|by apply grew_refl]. }
  inversion Hok as [|? p ? ps' Hh Hok']; subst. cbn [prepare_loop]. simpl length in *. pose proof Hat as ((es & R) & _). pose proof (rep_mem _ _ _ R) as [Hcap _].
  destruct (prepare_hdr_spec limited e t fs ins h p Hat Hinv Hh ltac:(lia) Hb ltac:(lia)) as (info & e1 & f1 & i1 & t1 & l1 & -> & P1 & Hri & Hlim1).
  cbn [mbind option_bind]. pose proof P1 as [A1 A2 A3 A4 A5 A6 A7 A8 A9 A10]. pose proof A5 as (Hb1 & _ & Hm1). pose proof (grew_len _ _ _ Hb A5) as Hdl.
  pose proof (stream_len l1 A7). assert (Z.of_nat (length l1) * ROOM <= ROOM) by nia.
  destruct (IH ps' e1 t1 f1 i1 A2 A3 Hok') as (infos & e' & f' & i' & t' & l & -> & P2 & Hrs & Hlim2); try done; [rewrite A9; lia|rewrite Hm1, Hdl; lia|].
  cbn [mbind option_bind]. exists (info :: infos), e', f', i', t', (l1 ++ l). split; [done|]. split; [exact (prepared_trans _ _ _ _ 1 _ _ _ _ _ (length hdrs) _ _ _ _ _ P1 P2)|].
  split; [constructor; [|done]; apply (rule_in_next t1 t' f1 f'); [apply P2|apply A3|done]|].
  intros Hl Hm. specialize (Hlim1 Hl Hm). rewrite A1 in Hlim2. specialize (Hlim2 Hl Hm). simpl in Hlim2. lia.
Qed.

(** ** Field lines *)

(** The line of a rule. *)
Definition rule_line (base : Z) (info : xqc_hdr_enc_rule_t) (p : nv) : field_rep :=
  let never := r_never info =? 1 in
  let i := r_index info in
  match r_ref info with
  | XQC_NV_REF_NAME =>
      if r_ref_table info =? 0 then if base <=? i then R_pb_name_ref never (i - base) (snd p) else R_name_ref never false (base - i - 1) (snd p)
      else R_name_ref never true i (snd p)
  | XQC_NV_REF_NAME_AND_VALUE =>
      if r_ref_table info =? 0 then if base <=? i then R_indexed_pb (i - base) else R_indexed false (base - i - 1) else R_indexed true i
  | _ => R_literal never (fst p) (snd p)
  end.

Lemma flag_never n : never_bit n -> flag (n =? 1) = n.
Proof. by intros [->| ->]. Qed.

Lemma rule_line_spec t base info h p buf : rule_sound t info h p -> hdr_ok h p -> 0 <= base < 2 ^ 61 -> 0 <= t_first t -> t_end t < 2 ^ 61 ->
  line_ok (rule_line base info p) /\ line_nv t base (rule_line base info p) = Some p
  /\ write_line true junk base buf info = write_rep junk buf (rule_line base info p).
Proof.
  intros Hs Hh Hb Hf He. destruct (hdr_ok_bytes info h p Hh (rs_hdr _ _ _ _ Hs)) as (Hn & Hv & _). destruct Hh as (_ & Hok1 & Hok2).
  pose proof (rs_ref _ _ _ _ Hs) as Hr. pose proof (flag_never _ (rs_never _ _ _ _ Hs)) as Hnv. unfold rule_line, write_line, ref_sound, int_ok, XQC_QPACK_INT_MAX in *. rewrite Hn, Hv.
  assert (forall s q, table_nv t s (r_index info) = Some q -> 0 <= r_index info -> r_index info < 2 ^ 61) as Hbound.
  { intros [] q Hq H0; [pose proof (static_bound _ _ _ H0 Hq); lia|pose proof (dyn_bound _ _ _ Hq); lia]. }
  destruct (r_ref info); try done.
  - split; [done|]. split; [by destruct p|]. cbn [write_rep]. rewrite Hnv. by repeat case_if.
  - destruct Hr as (s & w & Hft & Hi & Hq). specialize (Hbound s _ Hq Hi). rewrite Hft. destruct s; cbn [flag]; change (1 =? 0) with false; change (0 =? 0) with true; cbv iota.
    + split; [split; [unfold int_ok, XQC_QPACK_INT_MAX; lia|done]|]. split; [cbn [line_nv line_abs]; rewrite Hq; by destruct p|]. cbn [write_rep]. by rewrite Hnv.
    + change (0 =? XQC_DTABLE_FLAG) with true. cbv iota. unfold xqc_abs2pbrel, xqc_abs2brel. destruct (base <=? r_index info) eqn:E; zify_bools; rewrite u64_small by lia.
      * split; [split; [unfold int_ok, XQC_QPACK_INT_MAX; lia|done]|]. split; [|cbn [write_rep]; by rewrite Hnv]. cbn [line_nv line_abs]. unfold xqc_pbrel2abs.
        rewrite u64_small by lia. replace (r_index info - base + base) with (r_index info) by lia. rewrite Hq. by destruct p.
      * split; [split; [unfold int_ok, XQC_QPACK_INT_MAX; lia|done]|]. split; [|cbn [write_rep]; by rewrite Hnv]. cbn [line_nv line_abs]. unfold xqc_brel2abs.
        rewrite u64_small by lia. replace (base - (base - r_index info - 1) - 1) with (r_index info) by lia. rewrite Hq. by destruct p.
  - destruct Hr as (s & Hft & Hi & Hq). specialize (Hbound s _ Hq Hi). rewrite Hft. destruct s; cbn [flag]; change (1 =? 0) with false; change (0 =? 0) with true; cbv iota.
    + split; [unfold line_ok, int_ok, XQC_QPACK_INT_MAX; lia|]. split; [exact Hq|done].
    + change (0 =? XQC_DTABLE_FLAG) with true. cbv iota. unfold xqc_abs2pbrel, xqc_abs2brel. destruct (base <=? r_index info) eqn:E; zify_bools; rewrite u64_small by lia.
      * split; [unfold line_ok, int_ok, XQC_QPACK_INT_MAX; lia|]. split; [|done]. cbn [line_nv line_abs]. unfold xqc_pbrel2abs.
        rewrite u64_small by lia. by replace (r_index info - base + base) with (r_index info) by lia.
      * split; [unfold line_ok, int_ok, XQC_QPACK_INT_MAX; lia|]. split; [|done]. cbn [line_nv line_abs]. unfold xqc_brel2abs.
        rewrite u64_small by lia. by replace (base - (base - r_index info - 1) - 1) with (r_index info) by lia.
Qed.

Lemma write_lines_spec t fs base infos : forall hdrs ps buf, Forall3 (rule_in t fs) infos hdrs ps -> Forall2 hdr_ok hdrs ps ->
  0 <= base < 2 ^ 61 -> 0 <= t_first t -> t_end t < 2 ^ 61 -> vb_ok buf -> vb_data_len buf + Z.of_nat (length infos) * ROOM <= max_size buf ->
  exists buf' rs, write_lines true junk base buf infos = (Ok tt, buf') /\ grew buf buf' (lines rs) /\ Forall line_ok rs
  /\ Forall2 (fun r p => line_nv t base r = Some p) rs ps.
Proof.
  induction infos as [|info infos IH]; intros hdrs ps buf H3 H2 Hbase Hf He Hb Hroom; inversion H3 as [|? h p ? hdrs' ps' Hri H3']; subst.
  { exists buf, []. split; [done|]. split; [by apply grew_refl|done]. }
  inversion H2 as [|? ? ? ? Hh H2']; subst. assert (0 < ROOM) by done. simpl length in Hroom. cbn [write_lines].
  destruct (rule_line_spec t base info h p buf (proj1 Hri) Hh Hbase Hf He) as (Hok & Hnv & ->). set (r := rule_line base info p) in *.
  destruct (write_rep_spec junk Hjunk buf r Hb Hok ltac:(lia)) as (b1 & -> & Hg). pose proof Hg as (Hb1 & _ & Hm1). pose proof (grew_len _ _ _ Hb Hg) as Hdl.
  pose proof (line_len r Hok). destruct (IH hdrs' ps' b1 H3' H2' Hbase Hf He Hb1 ltac:(rewrite Hm1, Hdl; lia)) as (b' & rs & -> & Hg' & Hok' & Hnv').
  exists b', (r :: rs). split; [done|]. split; [exact (grew_trans _ _ _ _ _ Hg Hg')|]. by split; constructor.
Qed.

(** The encoder between two sections. *)
Definition enc_inv (e : xqc_encoder_t) (t : table) : Prop :=
  enc_at e t /\ ref_value (t_ref t) <= e_min_unack_index e <= XQC_INVALID_INDEX /\ 0 <= e_max_entries e < 2 ^ 60 /\ t_cap t / 32 <= e_max_entries e.

(** The section that was written: its bytes, and what is true of it at a decoder with the table [t]. *)
Record section_of (max_ents : Z) (t : table) (ps : list nv) (bytes : list Z) (ric base : Z) (rs : list field_rep) : Prop := {
  so_bytes : bytes = prefix_bytes max_ents ric base ++ lines rs;
  so_ok : section_ok max_ents ric base;
  so_ric : ric <= t_end t;
  so_win : 0 < ric -> t_end t - max_ents < ric;
  so_lines : Forall line_ok rs;
  so_nv : Forall2 (fun r p => line_nv t base r = Some p) rs ps;
}.

(** The required insert count is in the window of a decoder that has all insertions. *)
Lemma ric_in_window e t fs : enc_inv e t -> section_inv e t fs -> 0 < fs_rqrd_insert_cnt fs ->
  0 < e_max_entries e /\ t_end t - e_max_entries e < fs_rqrd_insert_cnt fs.
Proof.
  intros (((es & R) & _) & _ & _ & Hcap) [I1 I2 I3 I4] Hr. pose proof (end_bound _ _ _ R). pose proof (rep_sum_ok _ _ _ R). pose proof (rep_fits _ _ _ R). pose proof (total_count (t_nvs t)).
  assert (Z.of_nat (length (t_nvs t)) <= t_cap t / 32) as Hlen by (apply Z.div_le_lower_bound; lia).
  destruct (t_ref t) as [r|] eqn:Er; [|simpl in I1; unfold XQC_INVALID_INDEX in I1; lia]. pose proof (rep_ref_ok _ _ _ R r Er). simpl in I1. unfold t_end in *. lia.
Qed.

(** The lists of the encoder after a section of the stream [sid]: [ric] is its required insert
    count and [fmin] its smallest reference. *)
Definition new_unack (sid fmin ric : Z) : list xqc_encoder_unack_section_t := if ric =? 0 then [] else [mk_unack sid fmin ric].

Definition new_blocked (e : xqc_encoder_t) (sid ric : Z) : Z * list xqc_encoder_blocked_stream_t :=
  if e_krc e <? ric then
    match update_blocked sid ric (e_blocked_list e) with
    | Some l => (e_blocked_stream_count e, l)
    | None => (u64 (e_blocked_stream_count e + 1), e_blocked_list e ++ [mk_blocked sid ric])
    end
  else (e_blocked_stream_count e, e_blocked_list e).

Record section_saved (e e' : xqc_encoder_t) (sid fmin ric : Z) : Prop := {
  ss_rest : e' = e_set_blocked (e_set_unack (e_set_dtable e (e_dtable e')) (e_unack_list e') (e_min_unack_index e')) (e_blocked_stream_count e') (e_blocked_list e');
  ss_unack : e_unack_list e' = e_unack_list e ++ new_unack sid fmin ric;
  ss_min : e_min_unack_index e' = if ric =? 0 then e_min_unack_index e else Z.min fmin (e_min_unack_index e);
  ss_blocked : (e_blocked_stream_count e', e_blocked_list e') = new_blocked e sid ric;
  ss_limited : xqc_encoder_check_block_stream_limit e sid = true -> ric <= Z.max 0 (e_krc e);
  ss_fmin : 0 < ric -> 0 <= fmin < ric;
}.

(** The end of [xqc_encoder_enc_headers]. *)
Lemma save_section_spec e e1 t fs sid (efs ins : xqc_var_buf_t) : enc_inv e1 t -> section_inv e1 t fs -> e1 = e_set_dtable e (e_dtable e1) ->
  (xqc_encoder_check_block_stream_limit e sid = true -> fs_rqrd_insert_cnt fs <= Z.max 0 (e_krc e)) ->
  exists e', match xqc_encoder_save_unacked true e1 sid fs return option (res unit * xqc_encoder_t * xqc_var_buf_t * xqc_var_buf_t) with
             | (Err r, e2) => Some (Err r, e2, efs, ins)
             | (Ok _, e2) =>
                 if e_krc e2 <? fs_rqrd_insert_cnt fs
                 then enc ← xqc_encoder_add_blocked_stream true e2 sid (fs_rqrd_insert_cnt fs); Some (Ok tt, enc, efs, ins)
                 else Some (Ok tt, e2, efs, ins)
             end = Some (Ok tt, e', efs, ins)
  /\ enc_inv e' t /\ section_saved e e' sid (fs_min_ref_idx fs) (fs_rqrd_insert_cnt fs).
Proof.
  intros (Hat & Href & Hmax) [I1 I2 I3 I4] He1 Hlim. unfold xqc_encoder_save_unacked, xqc_encoder_add_blocked_stream. cbn [negb]. rewrite He1 in *. simpl in Href, Hmax, I1.
  set (ric := fs_rqrd_insert_cnt fs) in *. assert (forall m, (if fs_min_ref_idx fs <? m then fs_min_ref_idx fs else m) = Z.min (fs_min_ref_idx fs) m) as Hmin by (intros; case_if; zb).
  destruct (ric =? 0) eqn:E0; cbn [negb]; cbn [e_krc e_set_unack e_set_dtable e_blocked_list]; [|rewrite Hmin].
  - zify_bools. rewrite E0. destruct (e_krc e <? 0) eqn:Ek; [destruct (update_blocked sid 0 (e_blocked_list e)) as [l|] eqn:Eu|];
      (eexists; split; [done|]; split; [split; [exact Hat|]; simpl; split; [lia|done]|]);
      (split; simpl; unfold new_blocked, new_unack; rewrite ?Ek, ?Eu; simpl; try done; try (intros; lia); by rewrite ?app_nil_r).
  - destruct (e_krc e <? ric) eqn:Ek; [destruct (update_blocked sid ric (e_blocked_list e)) as [l|] eqn:Eu|];
      (eexists; split; [done|]; split; [split; [exact Hat|]; simpl; split; [lia|done]|]);
      (split; simpl; unfold new_blocked, new_unack; rewrite ?Ek, ?Eu, ?E0; simpl; try done; intros; lia).
Qed.

Lemma end_range es dt t : rep es dt t -> 0 <= t_first t /\ 0 <= t_end t < 2 ^ 61.
Proof.
  intros R. pose proof (end_bound _ _ _ R). pose proof (rep_sum_ok _ _ _ R). pose proof (rep_first_ok _ _ _ R). unfold t_end in *. lia.
Qed.

(** The encoded field section of a list of rules. *)
Lemma write_efs_spec e t fs infos hdrs ps efs : enc_inv e t -> section_inv e t fs -> 0 <= fs_base fs < 2 ^ 61 ->
  Forall3 (rule_in t fs) infos hdrs ps -> Forall2 hdr_ok hdrs ps -> vb_ok efs -> vb_data_len efs + (Z.of_nat (length hdrs) + 1) * ROOM <= max_size efs ->
  exists efs' bytes rs, xqc_encoder_write_efs true junk e fs infos efs = (Ok tt, efs') /\ grew efs efs' bytes
  /\ section_of (e_max_entries e) t ps bytes (fs_rqrd_insert_cnt fs) (fs_base fs) rs.
Proof.
  intros Hinv Hs Hbase Hrs Hok Heb Heroom. pose proof Hinv as (((es & R) & _) & _ & Hmax & _). destruct (end_range _ _ _ R) as [Hf Hend]. pose proof Hs as [I1 I2 I3 I4].
  assert (section_ok (e_max_entries e) (fs_rqrd_insert_cnt fs) (fs_base fs)) as Hsec.
  { split; [done|]. split; [lia|]. split; [done|]. intros Hr. by apply (ric_in_window e t fs). }
  unfold xqc_encoder_write_efs. assert (32 < ROOM) by done. pose proof (Forall3_length_lm _ _ _ _ Hrs) as Hl.
  destruct (write_prefix_spec junk efs _ _ _ Hjunk Heb Hsec ltac:(lia)) as (f1 & -> & Hg1). pose proof Hg1 as (Hf1 & _ & Hfm). pose proof (grew_len _ _ _ Heb Hg1) as Hfl.
  assert (zlen (prefix_bytes (e_max_entries e) (fs_rqrd_insert_cnt fs) (fs_base fs)) <= 22) as Hpl.
  { unfold prefix_bytes. rewrite zlen_app. destruct (section_ints _ _ _ Hsec) as [Hi1 Hi2]. pose proof (int_len 0 _ 8 Hi1 ltac:(lia)).
    pose proof (int_len (sign_byte (fs_rqrd_insert_cnt fs) (fs_base fs)) _ 7 Hi2 ltac:(lia)). lia. }
  destruct (write_lines_spec t fs (fs_base fs) infos hdrs ps f1 Hrs Hok Hbase Hf ltac:(lia) Hf1 ltac:(lia)) as (f2 & rs & -> & Hg2 & Hlok & Hnv).
  exists f2, (prefix_bytes (e_max_entries e) (fs_rqrd_insert_cnt fs) (fs_base fs) ++ lines rs), rs. split; [done|]. split; [exact (grew_trans _ _ _ _ _ Hg1 Hg2)|].
  split; try done; [lia|]. intros Hr. by apply (ric_in_window e t fs).
Qed.

Lemma enc_headers_spec e t efs ins sid hdrs ps : enc_inv e t -> Forall2 hdr_ok hdrs ps -> hdrs <> [] ->
  t_added t + (Z.of_nat (length hdrs) + 1) * t_cap t + ROOM < 2 ^ 64 ->
  vb_ok ins -> vb_data_len ins + Z.of_nat (length hdrs) * ROOM <= max_size ins ->
  vb_ok efs -> vb_data_len efs + (Z.of_nat (length hdrs) + 1) * ROOM <= max_size efs ->
  exists e' efs' ins' t' l bytes ric base rs fmin, xqc_encoder_enc_headers true junk e efs ins sid hdrs = Some (Ok tt, e', efs', ins')
  /\ enc_inv e' t' /\ section_saved e e' sid fmin ric /\ t_cap t' = t_cap t
  /\ grew ins ins' (stream_bytes l) /\ ins_run (core t) l = Some (core t') /\ Forall ins_plain l /\ (length l <= length hdrs)%nat
  /\ grew efs efs' bytes /\ section_of (e_max_entries e) t' ps bytes ric base rs.
Proof.
  intros Hinv Hok Hne Hadd Hib Hiroom Heb Heroom. pose proof Hinv as (Hat & [Href Hinf] & Hmax & Hcap). pose proof Hat as ((es & R) & _). unfold xqc_encoder_enc_headers.
  rewrite (proj2 (Z.eqb_neq _ _)) by (destruct hdrs; [done|simpl; lia]). cbn [negb]. rewrite (cnt_spec _ _ _ R). unfold xqc_encoder_prepare. set (fs0 := mk_fs _ _ _).
  destruct (end_range _ _ _ R) as [_ Hend]. assert (section_inv e t fs0) as Hs0 by (split; unfold fs0; cbn [fs_min_ref_idx fs_rqrd_insert_cnt]; unfold XQC_INVALID_INDEX in *; lia).
  destruct (prepare_loop_spec (xqc_encoder_check_block_stream_limit e sid) hdrs ps e t fs0 ins Hat Hs0 Hok Hadd Hib Hiroom) as (infos & e1 & fs & ins' & t' & l & -> & P & Hrs & Hlim).
  cbn [mbind option_bind]. pose proof P as [A1 A2 A3 A4 A5 A6 A7 A8 A9 A10]. destruct A4 as (Hbase & _). 
  assert (e_max_entries e1 = e_max_entries e /\ e_min_unack_index e1 = e_min_unack_index e) as [Hm1 Hu1] by (rewrite A1; done).
  assert (enc_inv e1 t') as Hinv1. { destruct A3 as [I1 _ _ _]. split; [exact A2|]. rewrite Hm1, A9, Hu1 in *. split; [lia|done]. }
  destruct (write_efs_spec e1 t' fs infos hdrs ps efs Hinv1 A3 ltac:(rewrite Hbase; exact Hend) Hrs Hok Heb Heroom) as (f2 & bytes & rs & -> & Hg & Hso). rewrite Hm1 in Hso.
  destruct (save_section_spec e e1 t' fs sid f2 ins' Hinv1 A3 A1) as (e' & -> & Hinv' & Hsv).
  { intros Hl. specialize (Hlim Hl). destruct (decide (e_max_entries e = 0)) as [H0|Hn]; [|by specialize (Hlim Hn)].
    destruct (decide (0 < fs_rqrd_insert_cnt fs)) as [Hpos|]; [|lia]. destruct (ric_in_window e1 t' fs Hinv1 A3 Hpos). lia. }
  exists e', f2, ins', t', l, bytes, (fs_rqrd_insert_cnt fs), (fs_base fs), rs, (fs_min_ref_idx fs). by split_and!.
Qed.

End prepare.

End QpackEncSpec.
