(* ===== verification/QpackRound.v ===== *)
(** Two QPACK handlers that talk to each other: the encoder of one and the decoder of the other.
    The bytes of the encoder stream, of the field section and of the decoder stream arrive in any
    pieces. *)

From Stdlib Require Import SpecFloat.
From stdpp Require Import base numbers list.
From S2P Require Import Prelude RingArray RingMem VarBuf QpackInt PrefixedStr PrefixedStrSpec DTable DTableSpec DTableRefine QpackStatic QpackIns QpackRep QpackField QpackInsSpec QpackRepSpec QpackDecoder QpackEncoder Qpack QpackDecSpec QpackStream QpackEncSpec.
Import RingArray RingMem VarBuf QpackInt PrefixedStr PrefixedStrSpec DTable DTableSpec DTableRefine QpackStatic QpackIns QpackRep QpackField QpackInsSpec QpackRepSpec QpackDecoder QpackEncoder Qpack QpackDecSpec QpackStream QpackEncSpec.

Module QpackRound.

(** ** The decoder stream *)

Definition dec_apply (e : xqc_encoder_t) (d : dec_ins) : option (res unit * xqc_encoder_t) :=
  match d with
  | D_ack s => xqc_encoder_section_ack e s
  | D_cancel s => xqc_encoder_cancel_stream e s
  | D_inc n => Some (xqc_encoder_increase_known_rcvd_count e n)
  end.

(** The encoder after instructions that it accepts. *)
Fixpoint dec_exec (e : xqc_encoder_t) (ds : list dec_ins) : option xqc_encoder_t :=
  match ds with
  | [] => Some e
  | d :: rest => match dec_apply e d with Some (Ok _, e') => dec_exec e' rest | _ => None end
  end.

Lemma on_decoder_ins_spec q d e' r : dec_done d (q_dctx q) -> dec_apply (q_enc q) d = Some (Ok r, e') ->
  xqc_qpack_on_decoder_ins q = Some (Ok tt, q_set_enc q e').
Proof.
  intros (Hty & _ & Hv) Ha. unfold xqc_qpack_on_decoder_ins. rewrite Hty. destruct d; cbn [dec_type dec_int dec_val] in *; rewrite Hv; cbn [dec_apply] in Ha; by rewrite Ha.
Qed.

(** [C] of the first instruction is read. *)
Definition dec_stream_at (c : xqc_ins_dec_ctx_t) (ds : list dec_ins) (C : list Z) : Prop :=
  match ds with
  | [] => C = [] /\ (id_state c = XQC_INS_DS_STATE_OPCODE \/ id_state c = XQC_INS_DS_STATE_FINISH)
  | d :: _ => at_dec d c C /\ exists Y, Y <> [] /\ dec_bytes d = C ++ Y
  end.

Definition dec_idle (c : xqc_ins_dec_ctx_t) : Prop := id_state c = XQC_INS_DS_STATE_OPCODE \/ id_state c = XQC_INS_DS_STATE_FINISH.

Lemma dec_stream_start c ds : dec_idle c -> Forall (fun d => int_ok (dec_val d)) ds -> dec_stream_at c ds [].
Proof.
  intros Hst Hl. destruct Hl as [|d ds Hd _]; [done|]. split; [by left|]. exists (dec_bytes d). split; [|done].
  destruct (dec_first d [] Hd) as (y & rest & He & _). rewrite app_nil_r in He. by rewrite He.
Qed.

Lemma at_dec_nofinish d W c C : dec_done_or d W c C -> W <> [] -> id_is_finish (id_state c) = false.
Proof. unfold dec_done_or. intros H HW. rewrite bool_decide_eq_false_2 in H by done. destruct H as (_ & -> & _). by destruct d. Qed.

Lemma process_decoder_steps fuel : forall ds q C pre data W e', Forall (fun d => int_ok (dec_val d)) ds -> dec_stream_at (q_dctx q) ds C ->
  dec_stream ds = C ++ data ++ W -> dec_exec (q_enc q) ds = Some e' -> (length data <= fuel)%nat ->
  exists q' ds' C', process_decoder_loop fuel q (pre ++ data) (zlen pre) = Some (Ok (zlen (pre ++ data)), q')
  /\ dec_stream_at (q_dctx q') ds' C' /\ dec_stream ds' = C' ++ W /\ dec_exec (q_enc q') ds' = Some e' /\ Forall (fun d => int_ok (dec_val d)) ds'
  /\ q_dec q' = q_dec q /\ q_ectx q' = q_ectx q /\ q' = q_set_dctx (q_set_enc q (q_enc q')) (q_dctx q').
Proof.
  assert (forall q, q = q_set_dctx (q_set_enc q (q_enc q)) (q_dctx q)) as Hid by (by intros []).
  induction fuel as [|fuel IH]; intros ds q C pre data W e' Hok Hat Hby Hex Hf.
  { destruct data; [|simpl in Hf; lia]. rewrite app_nil_r. exists q, ds, C. cbn [process_decoder_loop]. rewrite Z.ltb_irrefl. by split_and!. }
  destruct (decide (data = [])) as [->|Hne].
  { rewrite app_nil_r. exists q, ds, C. cbn [process_decoder_loop]. rewrite Z.ltb_irrefl. by split_and!. }
  destruct ds as [|d ds]; [destruct Hat as (-> & _); by destruct data|].
  apply Forall_cons_1 in Hok as [Hd Hok]. destruct Hat as [Hat (Y & HY & HdY)]. unfold dec_stream in Hby. simpl in Hby.
  rewrite HdY, <- app_assoc in Hby. apply app_inv_head in Hby. cbn [process_decoder_loop]. rewrite zlen_app, drop_pre.
  assert (0 < zlen data) by (destruct data; [done|rewrite zlen_cons; pose proof (zlen_nonneg data); lia]).
  rewrite (proj2 (Z.ltb_lt _ _)) by lia. destruct (cut_cases _ _ _ _ Hby HY) as [(k & Hk & -> & ->)|(k & -> & Hk)].
  - destruct (dec_ins_step d _ C data k [] Hd Hat HdY Hne ltac:(done)) as (c & Hc & Hor). rewrite app_nil_r in Hc. rewrite Hc.
    cbn [q_set_dctx q_dctx]. rewrite (at_dec_nofinish _ _ _ _ Hor Hk), Z.eqb_refl. cbn [negb andb].
    exists (q_set_dctx q c), (d :: ds), (C ++ data). split.
    { destruct fuel; cbn [process_decoder_loop]; rewrite zlen_app, Z.ltb_irrefl; done. }
    unfold dec_done_or in Hor. rewrite bool_decide_eq_false_2 in Hor by done. split; [split; [by right|]; exists k; by rewrite <- app_assoc|].
    split; [unfold dec_stream; simpl; by rewrite HdY, <- !app_assoc|]. split; [done|]. split; [by constructor|]. by split_and!.
  - destruct (dec_ins_step d _ C Y [] k Hd Hat ltac:(by rewrite app_nil_r) HY ltac:(done)) as (c & -> & Hor).
    unfold dec_done_or in Hor. rewrite bool_decide_eq_true_2 in Hor by done. pose proof Hor as (_ & Hfin & _). cbn [q_set_dctx q_dctx].
    rewrite Hfin. cbn [negb andb id_is_finish]. cbn [dec_exec] in Hex. destruct (dec_apply (q_enc q) d) as [[[r|] e1]|] eqn:Ea; try done.
    rewrite (on_decoder_ins_spec (q_set_dctx q c) d e1 r Hor Ea). cbn [mbind option_bind].
    destruct (IH ds (q_set_enc (q_set_dctx q c) e1) [] (pre ++ Y) k W e') as (q' & ds' & C' & Hrun & H1 & H2 & H3 & H4 & H5 & H6 & H7); try done.
    + apply dec_stream_start; [by right|done].
    + rewrite length_app in Hf. destruct Y; [done|simpl in Hf; lia].
    + rewrite <- app_assoc, (zlen_app pre Y), (zlen_app pre (Y ++ k)) in Hrun. exists q', ds', C'. by split_and!.
Qed.

(** The pieces of the decoder stream as they come. *)
Fixpoint feed_decoder (q : xqc_qpack_t) (chunks : list (list Z)) : option (res unit * xqc_qpack_t) :=
  match chunks with
  | [] => Some (Ok tt, q)
  | data :: rest =>
      '(r, q) ← xqc_qpack_process_decoder q data;
      match (r : res Z) with Err e => Some (Err e, q) | Ok _ => feed_decoder q rest end
  end.

Lemma feed_decoder_steps chunks : forall ds q C W e', Forall (fun d => int_ok (dec_val d)) ds -> dec_stream_at (q_dctx q) ds C ->
  dec_stream ds = C ++ concat chunks ++ W -> dec_exec (q_enc q) ds = Some e' ->
  exists q' ds' C', feed_decoder q chunks = Some (Ok tt, q')
  /\ dec_stream_at (q_dctx q') ds' C' /\ dec_stream ds' = C' ++ W /\ dec_exec (q_enc q') ds' = Some e'
  /\ q_dec q' = q_dec q /\ q_ectx q' = q_ectx q /\ q' = q_set_dctx (q_set_enc q (q_enc q')) (q_dctx q').
Proof.
  induction chunks as [|data chunks IH]; intros ds q C W e' Hok Hat Hby Hex.
  { exists q, ds, C. split_and!; try done. by destruct q. }
  simpl in Hby. rewrite <- app_assoc in Hby. cbn [feed_decoder]. unfold xqc_qpack_process_decoder.
  destruct (process_decoder_steps (length data) ds q C [] data _ e' Hok Hat Hby Hex ltac:(lia)) as (q1 & ds1 & C1 & Hrun & H1 & H2 & H3 & H4 & H5 & H6 & H7).
  change (zlen []) with 0 in Hrun. cbn [app] in Hrun. rewrite Hrun. cbn [mbind option_bind].
  destruct (IH ds1 q1 C1 W e' H4 H1 H2 H3) as (q' & ds' & C' & Hf & K1 & K2 & K3 & K4 & K5 & K6). exists q', ds', C'. split_and!; try done; try congruence.
  rewrite K6 at 1. rewrite H7. done.
Qed.

Lemma feed_decoder_spec chunks ds q e' : Forall (fun d => int_ok (dec_val d)) ds -> dec_idle (q_dctx q) ->
  concat chunks = dec_stream ds -> dec_exec (q_enc q) ds = Some e' ->
  exists c, feed_decoder q chunks = Some (Ok tt, q_set_dctx (q_set_enc q e') c) /\ dec_idle c.
Proof.
  intros Hok Hst Hby Hex. destruct (feed_decoder_steps chunks ds q [] [] e' Hok (dec_stream_start _ _ Hst Hok) ltac:(by rewrite app_nil_r) Hex)
    as (q' & ds' & C' & Hf & H1 & H2 & H3 & H4 & H5 & H6). rewrite app_nil_r in H2.
  destruct ds' as [|d ds'].
  - destruct H1 as [-> Hi]. simpl in H3. injection H3 as <-. exists (q_dctx q'). by rewrite <- H6.
  - destruct H1 as (_ & Y & HY & Hd). unfold dec_stream in H2. simpl in H2. rewrite Hd, <- app_assoc in H2. apply (f_equal length) in H2.
    rewrite !length_app in H2. destruct Y; [done|simpl in H2; lia].
Qed.

(** ** Encoding and decoding *)

(** The encoder of [qe] and the decoder of [qd] have the same table [t], and the decoder is between
    two instructions. *)
Definition synced (qe qd : xqc_qpack_t) (t : table) : Prop :=
  enc_inv (q_enc qe) t /\ dec_side qd (core t) /\ idle (q_ectx qd) /\ d_max_ents (q_dec qd) = e_max_entries (q_enc qe).

(** Room for the instructions and the section of [n] headers. *)
Definition enc_room (t : table) (ins efs : xqc_var_buf_t) (n : nat) : Prop :=
  t_added t + (Z.of_nat n + 1) * t_cap t + ROOM < 2 ^ 64 /\ vb_ok ins /\ vb_data_len ins + Z.of_nat n * ROOM <= max_size ins
  /\ vb_ok efs /\ vb_data_len efs + (Z.of_nat n + 1) * ROOM <= max_size efs.

Lemma reader_create junk cap : (forall n, 0 <= n -> zlen (junk n) = n) -> 0 <= cap <= 2 ^ 62 ->
  exists p, xqc_prefixed_str_pctx_create true junk cap XQC_H3_MAX_FIELD_SECTION_SIZE = Some p /\ reader_ok p /\ ps_max_str_len p = MAX.
Proof.
  intros Hj Hc. destruct (create_reader_ok junk cap XQC_H3_MAX_FIELD_SECTION_SIZE Hj Hc max_ok) as (p & Hp & Hr). exists p. split; [done|]. split; [done|].
  unfold xqc_prefixed_str_pctx_create in Hp. cbn [negb] in Hp. destruct (xqc_var_buf_create_with_limit _ _ _ _); simpl in Hp; [|done]. by injection Hp as <-.
Qed.

Lemma ctx_create_spec junk sid : (forall n, 0 <= n -> zlen (junk n) = n) ->
  exists c, xqc_rep_ctx_create true junk sid = Some c /\ rctx_ok c /\ rc_state c = XQC_REP_DECODE_STATE_RICNT
  /\ rc_ric c = xqc_prefixed_int_init 0 /\ rc_stream_id c = sid.
Proof.
  intros Hj. unfold xqc_rep_ctx_create. cbn [negb]. destruct (reader_create junk XQC_VAR_BUF_INIT_SIZE Hj ltac:(split; by_decide)) as (p & -> & Hr & Hm).
  cbn [mbind option_bind]. eexists. split; [done|]. by split_and!.
Qed.

Lemma plain_allowed q l : Forall ins_plain l -> Forall (ins_allowed q) l.
Proof. intros H. eapply Forall_impl; [exact H|]. intros i [Hi Hp]. split; [done|]. by destruct i. Qed.

Lemma feed_section_initial junk fresh q c chunks m dbuf : chunks <> [] ->
  feed_section junk fresh q c chunks xqc_h3_headers_initial m dbuf
  = feed_section junk fresh q c chunks (xqc_h3_headers_create_buf true XQC_H3_REQUEST_INITIAL_HEADERS_CAPACITY) m dbuf.
Proof. by destruct chunks. Qed.

(** A field section that arrives at a decoder that has its insertions. *)
Lemma section_decoded junk fresh q t ps bytes ric base rs sid chunks m buf : (forall n, 0 <= n -> zlen (junk n) = n) ->
  dec_is (q_dec q) t -> section_of (d_max_ents (q_dec q)) t ps bytes ric base rs -> concat chunks = bytes -> total ps <= m < 2 ^ 62 -> int_ok sid ->
  vb_ok buf -> vb_data_len buf + 16 <= max_size buf ->
  exists c0 c h buf', xqc_rep_ctx_create true junk sid = Some c0
  /\ feed_section junk fresh q c0 chunks xqc_h3_headers_initial m (Some buf) = Some (Ok tt, false, c, h, Some buf')
  /\ Forall2 hdr_is (hs_headers h) ps /\ grew buf buf' (if 0 <? ric then dec_bytes (D_ack sid) else []).
Proof.
  intros Hj Hd [S1 S2 S3 S4 S5 S6] Hch Hm Hid Hb Hroom. destruct (ctx_create_spec junk sid Hj) as (c0 & Hc0 & Hok & Hst & Hr & Hs). exists c0.
  assert (prefix_bytes (d_max_ents (q_dec q)) ric base <> []) as Hpn.
  { unfold prefix_bytes. pose proof (enc_int_pos 0 (xqc_rep_encode_ricnt (d_max_ents (q_dec q)) ric) 8). intros E. apply app_eq_nil in E as [E _]. rewrite E in *. done. }
  assert (chunks <> []) as Hcn by (intros ->; simpl in Hch; rewrite S1 in Hch; symmetry in Hch; by apply app_eq_nil in Hch as [? _]).
  rewrite (feed_section_initial _ _ _ _ _ _ _ Hcn).
  destruct (feed_section_steps junk fresh Hj chunks q t ric base rs ps c0 (xqc_h3_headers_create_buf true XQC_H3_REQUEST_INITIAL_HEADERS_CAPACITY) [] m buf)
    as (c & h & buf' & Hf & Hh & Hg); try done.
  - split; [done|]. left. exists [], (prefix_bytes (d_max_ents (q_dec q)) ric base). split; [split; [done|by left]|]. by rewrite Hch.
  - by rewrite Hs.
  - rewrite Hs in Hg. exists c, h, buf'. split_and!; try done. apply (ha_headers _ _ Hh).
Qed.

(** What the decoder sends back: increments, and the acknowledgement of the section. *)
Definition replies (sid ric : Z) (incs : list dec_ins) : list dec_ins := incs ++ (if 0 <? ric then [D_ack sid] else []).

Lemma qpack_decode_spec junk fresh qe qd t t' sid l ps section ric base rs dbuf m ichunks echunks : (forall n, 0 <= n -> zlen (junk n) = n) ->
  dec_side qd (core t) -> idle (q_ectx qd) -> d_max_ents (q_dec qd) = e_max_entries (q_enc qe) ->
  enc_inv (q_enc qe) t' -> ins_run (core t) l = Some (core t') -> Forall ins_plain l -> section_of (e_max_entries (q_enc qe)) t' ps section ric base rs ->
  total ps <= m < 2 ^ 62 -> int_ok sid -> vb_ok dbuf ->
  concat (map snd ichunks) = stream_bytes l -> concat echunks = section ->
  q_dup_bytes qd + dup_work (core t) l <= dup_limit qd -> vb_data_len dbuf + 16 * (Z.of_nat (length ichunks) + 1) <= max_size dbuf ->
  exists qd' dbuf1 dbuf2 ctx ctx' headers incs,
  feed_encoder junk qd ichunks (Some dbuf) = Some (Ok tt, qd', Some dbuf1)
  /\ xqc_rep_ctx_create true junk sid = Some ctx
  /\ feed_section junk fresh qd' ctx echunks xqc_h3_headers_initial m (Some dbuf1) = Some (Ok tt, false, ctx', headers, Some dbuf2)
  /\ Forall2 hdr_is (hs_headers headers) ps
  /\ dec_side qd' (core t') /\ idle (q_ectx qd') /\ same_rest qd qd'
  /\ incs_of (t_end t' - t_end t) incs /\ grew dbuf dbuf2 (dec_stream (replies sid ric incs)).
Proof.
  intros Hj Hd Hidle Hmax Hinv Hrun Hpl Hso Hm Hid Hb Hic Hec Hw Hroom. pose proof Hinv as (((es & R) & _) & _).
  destruct (feed_encoder_spec junk Hj ichunks qd (core t) l (core t') dbuf Hd Hidle (plain_allowed qd l Hpl) Hic Hrun (rep_sum_ok _ _ _ R) Hw Hb ltac:(lia))
    as (qd' & b1 & incs & Hf & Hd' & Hidle' & Hsame & Hg & Hincs & Hlen).
  pose proof Hg as (Hb1 & _ & Hm1). pose proof (grew_len _ _ _ Hb Hg) as Hl1.
  assert (section_of (d_max_ents (q_dec qd')) (core t') ps section ric base rs) as Hso'.
  { pose proof Hsame as (_ & _ & _ & _ & ->). rewrite Hmax. destruct Hso. by split. }
  destruct Hd' as [Hdec Hdup].
  destruct (section_decoded junk fresh qd' (core t') ps section ric base rs sid echunks m b1 Hj Hdec Hso' Hec Hm Hid Hb1 ltac:(lia)) as (c0 & c & h & b2 & Hc0 & Hfs & Hh & Hg2).
  exists qd', b1, b2, c0, c, h, incs. do 4 (split; [done|]). split; [by split|]. split; [done|]. split; [done|]. split; [done|].
  unfold replies. rewrite dec_stream_app. apply (grew_trans _ b1); [done|]. destruct (0 <? ric); [|done]. unfold dec_stream. simpl. by rewrite app_nil_r.
Qed.

(** C5: A QPACK round trip. The encoder writes instructions and a field section for a list of
    headers; when the instructions reach a decoder with the same table, in any pieces, and then
    the section, in any pieces, the decoder reports the same names and values, and the two tables
    are the same again. The decoder bounds the bytes it duplicates in a second. *)
Theorem qpack_round_trip junk fresh qe qd t sid hdrs ps efs ins dbuf m : (forall n, 0 <= n -> zlen (junk n) = n) ->
  synced qe qd t -> Forall2 hdr_ok hdrs ps -> hdrs <> [] -> enc_room t ins efs (length hdrs) -> total ps <= m < 2 ^ 62 -> int_ok sid -> vb_ok dbuf ->
  exists qe' efs' ins' t' l section,
  xqc_qpack_enc_headers true junk qe sid hdrs efs (Some ins) = Some (Ok tt, qe', efs', Some ins')
  /\ vb_bytes ins' = vb_bytes ins ++ stream_bytes l /\ vb_bytes efs' = vb_bytes efs ++ section
  /\ forall ichunks echunks, concat (map snd ichunks) = stream_bytes l -> concat echunks = section ->
     q_dup_bytes qd + dup_work (core t) l <= dup_limit qd -> vb_data_len dbuf + 16 * (Z.of_nat (length ichunks) + 1) <= max_size dbuf ->
     exists qd' dbuf1 dbuf2 ctx ctx' headers,
     feed_encoder junk qd ichunks (Some dbuf) = Some (Ok tt, qd', Some dbuf1)
     /\ xqc_rep_ctx_create true junk sid = Some ctx
     /\ feed_section junk fresh qd' ctx echunks xqc_h3_headers_initial m (Some dbuf1) = Some (Ok tt, false, ctx', headers, Some dbuf2)
     /\ Forall2 hdr_is (hs_headers headers) ps
     /\ synced qe' qd' t'.
Proof.
  intros Hj (Hinv & Hd & Hidle & Hmax) Hok Hne (Hadd & Hib & Hir & Heb & Her) Hm Hid Hb.
  destruct (enc_headers_spec junk Hj (q_enc qe) t efs ins sid hdrs ps Hinv Hok Hne Hadd Hib Hir Heb Her)
    as (e' & efs' & ins' & t' & l & section & ric & base & rs & fmin & He & Hinv' & Hsv & Hcap & Hgi & Hrun & Hpl & Hlen & Hge & Hso).
  exists (q_set_enc qe e'), efs', ins', t', l, section. unfold xqc_qpack_enc_headers. rewrite He. cbn [mbind option_bind]. split; [done|].
  split; [apply Hgi|]. split; [apply Hge|]. intros ichunks echunks Hic Hec Hw Hroom. assert (e_max_entries e' = e_max_entries (q_enc qe)) as Hm' by (by rewrite (ss_rest _ _ _ _ _ Hsv)).
  rewrite <- Hm' in Hso. destruct (qpack_decode_spec junk fresh (q_set_enc qe e') qd t t' sid l ps section ric base rs dbuf m ichunks echunks)
    as (qd' & b1 & b2 & c0 & c & h & incs & H1 & H2 & H3 & H4 & H5 & H6 & H7 & _); try done; [simpl; congruence|].
  exists qd', b1, b2, c0, c, h. do 4 (split; [done|]). split; [done|]. split; [done|]. split; [done|]. destruct H7 as (_ & _ & _ & _ & ->). simpl. congruence.
Qed.


(** ** Sections that come before their insertions *)

(** The prefix is read, and nothing else. *)
Lemma blocked_call junk fresh q t0 ric base sid data m dbuf : (forall n, 0 <= n -> zlen (junk n) = n) -> dec_is (q_dec q) t0 ->
  section_ok (d_max_ents (q_dec q)) ric base -> t_end t0 < ric <= t_end t0 + d_max_ents (q_dec q) ->
  exists c0 c, xqc_rep_ctx_create true junk sid = Some c0
  /\ xqc_qpack_dec_headers true junk fresh q c0 (prefix_bytes (d_max_ents (q_dec q)) ric base ++ data) xqc_h3_headers_initial m true false dbuf
     = Some (Ok (zlen (prefix_bytes (d_max_ents (q_dec q)) ric base)), true, c, xqc_h3_headers_create_buf true XQC_H3_REQUEST_INITIAL_HEADERS_CAPACITY, dbuf)
  /\ prefix_read ric base c /\ rc_stream_id c = sid.
Proof.
  intros Hj ((es & R) & _) Hs Hw. destruct (ctx_create_spec junk sid Hj) as (c0 & Hc0 & Hok & Hst & Hr & Hsid). destruct (end_range _ _ _ R) as [_ Hend].
  set (P := prefix_bytes (d_max_ents (q_dec q)) ric base). assert (P <> []) as HP.
  { unfold P, prefix_bytes. pose proof (enc_int_pos 0 (xqc_rep_encode_ricnt (d_max_ents (q_dec q)) ric) 8). intros E. apply app_eq_nil in E as [E _]. rewrite E in *. done. }
  assert (0 < zlen P) as HPz by (destruct P; [done|rewrite zlen_cons; pose proof (zlen_nonneg P); lia]). pose proof (zlen_nonneg data).
  destruct (prefix_step (d_max_ents (q_dec q)) ric base (t_end t0) Hs ltac:(lia) ltac:(destruct Hs; lia) c0 [] P [] data) as (c & Hp & Hd & Hsc); try done;
    [split; [done|by left]|unfold P; by rewrite app_nil_r|]. unfold prefix_done_or in Hd. rewrite bool_decide_eq_true_2 in Hd by done. pose proof Hd as (_ & Hop & Hpr & _).
  exists c0, c. split; [done|]. split; [|split; [done|congruence]]. unfold xqc_qpack_dec_headers. cbn [xqc_h3_headers_initial hs_capacity Z.eqb]. cbn [dec_headers_loop].
  rewrite zlen_app, (proj2 (Z.ltb_lt _ _)) by lia. change (hs_capacity (xqc_h3_headers_create_buf true XQC_H3_REQUEST_INITIAL_HEADERS_CAPACITY) <=? _) with false. cbv iota.
  change (drop (Z.to_nat 0) (P ++ data)) with (P ++ data). unfold xqc_decoder_dec_header. rewrite (insert_count_spec _ _ _ R), Hst.
  change (state_rank XQC_REP_DECODE_STATE_RICNT <? state_rank XQC_REP_DECODE_STATE_OPCODE) with true. cbv iota. rewrite Hp, Hop, Hpr.
  rewrite (proj2 (Z.ltb_lt _ _) (proj1 Hw)). cbn [andb state_rank Z.ltb Z.compare mbind option_bind]. rewrite Hop. done.
Qed.

(** C16: A section may come before its insertions. When its required insert count is ahead of the
    decoder's insert count, but not by more than the entries the table can have, the decoder
    reads the prefix and reports that the stream is blocked; once the decoder has the insertions,
    the rest of the section, in any pieces, gives the headers. *)
Theorem blocked_section_resumes junk fresh q q' t0 t ps section ric base rs sid m dbuf chunks : (forall n, 0 <= n -> zlen (junk n) = n) ->
  dec_is (q_dec q) t0 -> dec_is (q_dec q') t -> d_max_ents (q_dec q') = d_max_ents (q_dec q) ->
  section_of (d_max_ents (q_dec q)) t ps section ric base rs -> t_end t0 < ric <= t_end t0 + d_max_ents (q_dec q) ->
  total ps <= m < 2 ^ 62 -> int_ok sid -> vb_ok dbuf -> vb_data_len dbuf + 16 <= max_size dbuf -> chunks <> [] ->
  exists ctx ctx1 n headers, xqc_rep_ctx_create true junk sid = Some ctx
  /\ xqc_qpack_dec_headers true junk fresh q ctx section xqc_h3_headers_initial m true false (Some dbuf) = Some (Ok n, true, ctx1, headers, Some dbuf)
  /\ (concat chunks = drop (Z.to_nat n) section ->
      exists ctx2 headers2 dbuf2, feed_section junk fresh q' ctx1 chunks headers m (Some dbuf) = Some (Ok tt, false, ctx2, headers2, Some dbuf2)
      /\ Forall2 hdr_is (hs_headers headers2) ps /\ vb_bytes dbuf2 = vb_bytes dbuf ++ dec_bytes (D_ack sid)).
Proof.
  intros Hj Hd Hd' Hme [S1 S2 S3 S4 S5 S6] Hw Hm Hid Hb Hroom Hne.
  destruct (blocked_call junk fresh q t0 ric base sid (lines rs) m (Some dbuf) Hj Hd S2 Hw) as (c0 & c & Hc0 & Hrun & (P1 & P2 & P3 & P4) & Hsid).
  rewrite <- S1 in Hrun. eexists c0, c, _, _. split; [done|]. split; [exact Hrun|]. intros Hch. rewrite S1, drop_pre in Hch.
  rewrite <- Hme in S2, S4. destruct (feed_section_steps junk fresh Hj chunks q' t ric base rs ps c (xqc_h3_headers_create_buf true XQC_H3_REQUEST_INITIAL_HEADERS_CAPACITY) [] m dbuf)
    as (c' & h & buf' & Hf & Hh & Hg); try done.
  - split; [done|]. right. exists []. rewrite Hch. split; [done|]. split; [done|]. split; [by apply lines_at_start|done].
  - by rewrite Hsid.
  - destruct Hd as ((es & R) & _). destruct (end_range _ _ _ R). rewrite (proj2 (Z.ltb_lt _ _)), Hsid in Hg by lia. exists c', h, buf'. split; [done|]. split; [apply (ha_headers _ _ Hh)|apply Hg].
Qed.

(** ** Acknowledgements *)

(** Everything the encoder sent is acknowledged. *)
Record settled (e : xqc_encoder_t) (t : table) : Prop := {
  se_unack : e_unack_list e = [];
  se_min : e_min_unack_index e = XQC_INVALID_INDEX;
  se_krc : e_krc e = t_end t;
  se_blocked : e_blocked_list e = [];
  se_count : e_blocked_stream_count e = 0;
}.

(** At most one stream is blocked, for insertions up to [ric]. *)
Definition one_blocked (e : xqc_encoder_t) (sid ric : Z) : Prop :=
  (e_blocked_list e = [] /\ e_blocked_stream_count e = 0) \/ (e_blocked_list e = [mk_blocked sid ric] /\ e_blocked_stream_count e = 1).

Lemma inc_spec e t sid ric k : insert_cnt (e_dtable e) = t_end t -> 0 <= e_krc e -> 0 < k -> e_krc e + k <= t_end t < 2 ^ 61 -> one_blocked e sid ric ->
  exists e', dec_apply e (D_inc k) = Some (Ok tt, e') /\ e_krc e' = e_krc e + k /\ one_blocked e' sid ric
  /\ (ric <= e_krc e' -> e_blocked_list e' = [] /\ e_blocked_stream_count e' = 0)
  /\ e_dtable e' = e_dtable e /\ e_unack_list e' = e_unack_list e /\ e_min_unack_index e' = e_min_unack_index e /\ e_max_entries e' = e_max_entries e.
Proof.
  intros Hcnt Hk0 Hk Hle Hb. cbn [dec_apply]. unfold xqc_encoder_increase_known_rcvd_count. rewrite (proj2 (Z.eqb_neq _ _)) by lia. rewrite u64_small by lia.
  cbn [e_dtable e_set_krc e_krc]. unfold xqc_dtable_get_insert_cnt. rewrite Hcnt, (proj2 (Z.ltb_ge _ _)) by lia. eexists. split; [done|].
  unfold xqc_encoder_unblock_streams, one_blocked. cbn [e_blocked_list e_blocked_stream_count e_krc e_set_krc].
  destruct Hb as [[-> ->]|[-> ->]]; simpl; [by split_and!; try done; left|]. destruct (ric <=? e_krc e + k) eqn:E; simpl; zify_bools.
  - split_and!; try done. by left.
  - split_and!; try done; [by right|]. intros. lia.
Qed.

Lemma incs_spec sid ric t incs : forall e n, incs_of n incs -> insert_cnt (e_dtable e) = t_end t -> 0 <= e_krc e -> e_krc e + n = t_end t -> t_end t < 2 ^ 61 ->
  ric <= t_end t -> one_blocked e sid ric -> (incs = [] -> e_blocked_list e = [] /\ e_blocked_stream_count e = 0) ->
  exists e', dec_exec e incs = Some e' /\ e_krc e' = t_end t /\ e_blocked_list e' = [] /\ e_blocked_stream_count e' = 0
  /\ e_dtable e' = e_dtable e /\ e_unack_list e' = e_unack_list e /\ e_min_unack_index e' = e_min_unack_index e /\ e_max_entries e' = e_max_entries e.
Proof.
  induction incs as [|d incs IH]; intros e n [Hf Hsum] Hcnt Hk0 Hk Hend Hric Hone Hnil; simpl in Hsum.
  { destruct (Hnil eq_refl). exists e. split_and!; try done. lia. }
  apply Forall_cons_1 in Hf as [(k & -> & Hpos & Hint) Hf]. simpl in Hsum. set (rest := foldr _ 0 incs) in *.
  assert (0 <= rest) as Hrest. { unfold rest. clear -Hf. induction Hf as [|d l (k & -> & Hk & _) Hl IHl]; simpl; lia. }
  destruct (inc_spec e t sid ric k Hcnt Hk0 Hpos ltac:(lia) Hone) as (e1 & Ha & Hk1 & Hone1 & Hun & Hdt & Hua & Hmi & Hme). cbn [dec_exec]. rewrite Ha.
  destruct (IH e1 rest) as (e' & He' & K1 & K2 & K3 & K4 & K5 & K6 & K7); try done; try congruence; try lia.
  - intros ->. apply Hun. unfold rest in *. simpl in *. lia.
  - exists e'. split_and!; congruence.
Qed.

Lemma clear_ref_spec es dt t : rep es dt t ->
  exists dt' t', xqc_dtable_set_min_ref dt XQC_INVALID_INDEX = Some (Ok tt, dt') /\ rep es dt' t' /\ t_ref t' = None /\ core t' = core t /\ t_hash t' = t_hash t.
Proof.
  intros R. destruct (set_min_ref_spec es dt t XQC_INVALID_INDEX R ltac:(unfold XQC_INVALID_INDEX; lia)) as (dt' & E & R'). exists dt'. unfold t_set_ref in *.
  destruct (t_ref t) as [r|] eqn:Er.
  - pose proof (rep_ref_ok _ _ _ R r Er). destruct (end_range _ _ _ R). simpl in *. rewrite bool_decide_eq_false_2 in * by (unfold XQC_INVALID_INDEX; lia).
    rewrite bool_decide_eq_false_2 in * by (intros Hnil; unfold t_end in *; rewrite Hnil in *; simpl in *; lia). by exists (with_ref t None).
  - by exists t.
Qed.

(** The acknowledgement of the only section. *)
Lemma ack_spec e t sid fmin ric : enc_inv e t -> e_unack_list e = [mk_unack sid fmin ric] -> ric <= e_krc e -> e_krc e = t_end t ->
  e_blocked_list e = [] -> e_blocked_stream_count e = 0 ->
  exists e' t', dec_apply e (D_ack sid) = Some (Ok tt, e') /\ settled e' t' /\ enc_inv e' t' /\ core t' = core t /\ e_max_entries e' = e_max_entries e.
Proof.
  intros (((es & R) & Hh & Hsm) & _ & Hmax & Hcap) Hu Hr Hk Hb Hc. cbn [dec_apply]. unfold xqc_encoder_section_ack. rewrite Hu. cbn [ack_loop us_stream_id us_rqrd_insert_cnt negb andb].
  rewrite Z.eqb_refl, (proj2 (Z.ltb_ge _ _) Hr). cbn [ack_loop negb e_set_unack e_dtable e_min_unack_index].
  destruct (clear_ref_spec es _ t R) as (dt' & t' & -> & R' & Href & Hcore & Hh'). cbn [mbind option_bind]. eexists _, t'. split; [done|].
  destruct (core_same _ _ Hcore) as (He & _ & Hnv). assert (t_cap t' = t_cap t) as Hcap' by (change (t_cap (core t') = t_cap (core t)); by rewrite Hcore). split; [|split].
  - split; simpl; try done. congruence.
  - split; [split; [by eexists|split; [congruence|by rewrite Hnv]]|]. simpl. rewrite Href, Hcap'. split; [unfold ref_value; lia|done].
  - by split.
Qed.

(** The replies of the decoder to one section. *)
Lemma replies_spec e0 e t t' sid fmin ric incs : settled e0 t -> enc_inv e0 t -> enc_inv e t' -> section_saved e0 e sid fmin ric -> 0 <= ric <= t_end t' -> t_end t <= t_end t' ->
  incs_of (t_end t' - t_end t) incs ->
  exists e' t'', dec_exec e (replies sid ric incs) = Some e' /\ settled e' t'' /\ enc_inv e' t'' /\ core t'' = core t' /\ e_max_entries e' = e_max_entries e.
Proof.
  intros [S1 S2 S3 S4 S5] (((es0 & R0) & _) & _) Hinv [V1 V2 V3 V4 _ _] Hric Hle Hincs. pose proof Hinv as (((es & R) & Hrest) & Href & Hmax). destruct (end_range _ _ _ R) as [_ Hend]. destruct (end_range _ _ _ R0) as [_ Hend0].
  assert (e_krc e = t_end t) as Hk by (rewrite V1; simpl; done). rewrite S1 in V2. unfold new_blocked in V4. rewrite S3, S4, S5 in V4. simpl in V4.
  assert (one_blocked e sid ric /\ (t_end t' = t_end t -> e_blocked_list e = [] /\ e_blocked_stream_count e = 0)) as [Hone Hnb].
  { unfold one_blocked. destruct (t_end t <? ric) eqn:E; zify_bools; injection V4 as -> ->; [split; [by right|lia]|split; [by left|done]]. }
  destruct (incs_spec sid ric t' incs e _ Hincs (rep_cnt _ _ _ R) ltac:(lia) ltac:(lia) ltac:(lia) ltac:(lia) Hone) as (e1 & Hex & K1 & K2 & K3 & K4 & K5 & K6 & K7).
  { intros ->. destruct Hincs as [_ Hs]. simpl in Hs. apply Hnb. lia. }
  assert (enc_inv e1 t') as Hinv1. { split; [split; [rewrite K4; by eexists|done]|]. rewrite K6, K7. done. }
  assert (forall a b x, dec_exec x (a ++ b) = match dec_exec x a with Some y => dec_exec y b | None => None end) as Happ.
  { induction a as [|d a IHa]; intros b x; simpl; [done|]. destruct (dec_apply x d) as [[[]]|]; [apply IHa|done..]. }
  unfold replies. rewrite Happ, Hex. unfold new_unack in V2. destruct (0 <? ric) eqn:E; zify_bools.
  - rewrite (proj2 (Z.eqb_neq _ _)) in V2 by lia. destruct (ack_spec e1 t' sid fmin ric Hinv1 ltac:(by rewrite K5, V2) ltac:(lia) K1 K2 K3) as (e2 & t2 & Ha & Hset & Hi2 & Hc & Hm).
    exists e2, t2. cbn [dec_exec]. rewrite Ha. split_and!; try done. congruence.
  - assert (ric = 0) as -> by lia. exists e1, t'. simpl in V2, V3. split; [done|]. split; [|by split_and!]. split; try done; congruence.
Qed.

Lemma run_end t l t' : ins_run t l = Some t' -> t_end t <= t_end t'.
Proof.
  revert t. induction l as [|i l IH]; intros t; simpl; [by intros [= <-]|]. destruct (ins_apply t i) as [t1|] eqn:E; [|done].
  intros H. specialize (IH t1 H). pose proof (apply_end _ _ _ E). lia.
Qed.

Lemma replies_ok sid ric incs n : incs_of n incs -> int_ok sid -> Forall (fun d => int_ok (dec_val d)) (replies sid ric incs).
Proof.
  intros [Hf _] Hid. apply Forall_app. split; [|case_if; [by constructor; [|constructor]|constructor]]. eapply Forall_impl; [exact Hf|]. by intros d (k & -> & _ & Hk).
Qed.

(** C8: A whole exchange settles. When everything the encoder has sent is acknowledged, it sends a
    field section, and the decoder's replies to the instructions and to the section come back, in
    any pieces, then everything is acknowledged again: no section is outstanding, no stream is
    blocked, the known received count is the insert count, and the tables agree. *)
Theorem qpack_settles junk fresh qe qd t sid hdrs ps efs ins dbuf m : (forall n, 0 <= n -> zlen (junk n) = n) ->
  synced qe qd t -> settled (q_enc qe) t -> dec_idle (q_dctx qe) ->
  Forall2 hdr_ok hdrs ps -> hdrs <> [] -> enc_room t ins efs (length hdrs) -> total ps <= m < 2 ^ 62 -> int_ok sid -> vb_ok dbuf ->
  exists qe' efs' ins' l section,
  xqc_qpack_enc_headers true junk qe sid hdrs efs (Some ins) = Some (Ok tt, qe', efs', Some ins')
  /\ vb_bytes ins' = vb_bytes ins ++ stream_bytes l /\ vb_bytes efs' = vb_bytes efs ++ section
  /\ forall ichunks echunks, concat (map snd ichunks) = stream_bytes l -> concat echunks = section ->
     q_dup_bytes qd + dup_work (core t) l <= dup_limit qd -> vb_data_len dbuf + 16 * (Z.of_nat (length ichunks) + 1) <= max_size dbuf ->
     exists qd' dbuf1 dbuf2 ctx ctx' headers reply,
     feed_encoder junk qd ichunks (Some dbuf) = Some (Ok tt, qd', Some dbuf1)
     /\ xqc_rep_ctx_create true junk sid = Some ctx
     /\ feed_section junk fresh qd' ctx echunks xqc_h3_headers_initial m (Some dbuf1) = Some (Ok tt, false, ctx', headers, Some dbuf2)
     /\ vb_bytes dbuf2 = vb_bytes dbuf ++ reply
     /\ forall dchunks, concat dchunks = reply ->
        exists qe'' t'', feed_decoder qe' dchunks = Some (Ok tt, qe'') /\ settled (q_enc qe'') t'' /\ synced qe'' qd' t'' /\ dec_idle (q_dctx qe'').
Proof.
  intros Hj (Hinv & Hd & Hidle & Hmax) Hset Hdi Hok Hne (Hadd & Hib & Hir & Heb & Her) Hm Hid Hb.
  destruct (enc_headers_spec junk Hj (q_enc qe) t efs ins sid hdrs ps Hinv Hok Hne Hadd Hib Hir Heb Her)
    as (e' & efs' & ins' & t' & l & section & ric & base & rs & fmin & He & Hinv' & Hsv & Hcap & Hgi & Hrun & Hpl & Hlen & Hge & Hso).
  exists (q_set_enc qe e'), efs', ins', l, section. unfold xqc_qpack_enc_headers. rewrite He. cbn [mbind option_bind]. split; [done|].
  split; [apply Hgi|]. split; [apply Hge|]. intros ichunks echunks Hic Hec Hw Hroom. assert (e_max_entries e' = e_max_entries (q_enc qe)) as Hm' by (by rewrite (ss_rest _ _ _ _ _ Hsv)).
  rewrite <- Hm' in Hso. destruct (qpack_decode_spec junk fresh (q_set_enc qe e') qd t t' sid l ps section ric base rs dbuf m ichunks echunks)
    as (qd' & b1 & b2 & c0 & c & h & incs & H1 & H2 & H3 & _ & H5 & H6 & H7 & H8 & H9); try done; [simpl; congruence|].
  exists qd', b1, b2, c0, c, h, (dec_stream (replies sid ric incs)). do 3 (split; [done|]). split; [apply H9|]. intros dchunks Hdc.
  destruct Hso as [_ (_ & Hr0 & _) Hr1 _ _ _]. destruct (replies_spec (q_enc qe) e' t t' sid fmin ric incs Hset Hinv Hinv' Hsv ltac:(lia) (run_end _ _ _ Hrun) H8)
    as (e2 & t2 & Hex & Hset2 & Hinv2 & Hc2 & Hm2).
  destruct (feed_decoder_spec dchunks (replies sid ric incs) (q_set_enc qe e') e2 (replies_ok _ _ _ _ H8 Hid) Hdi Hdc Hex) as (c2 & Hf & Hci).
  eexists _, t2. split; [exact Hf|]. split; [exact Hset2|]. split; [|exact Hci]. split; [exact Hinv2|]. rewrite Hc2. split; [done|]. split; [done|].
  destruct H7 as (_ & _ & _ & _ & ->). simpl. congruence.
Qed.

(** ** Blocked streams *)

(** No more streams can block than the peer allows, and those that can are the listed ones. *)
Record blocked_inv (e : xqc_encoder_t) : Prop := {
  bi_count : e_blocked_stream_count e = Z.of_nat (length (e_blocked_list e));
  bi_limit : e_blocked_stream_count e <= e_max_blocked_stream e < 2 ^ 64;
  bi_ahead : Forall (fun s => e_krc e < bs_rqrd_insert_cnt s) (e_blocked_list e);
  bi_krc : 0 <= e_krc e;
}.

Lemma update_blocked_spec sid ric l : match update_blocked sid ric l with
  | Some l' => length l' = length l /\ (forall k, k < ric -> Forall (fun s => k < bs_rqrd_insert_cnt s) l -> Forall (fun s => k < bs_rqrd_insert_cnt s) l')
  | None => existsb (fun s => bs_stream_id s =? sid) l = false
  end.
Proof.
  induction l as [|s l IH]; simpl; [done|]. destruct (bs_stream_id s =? sid) eqn:E; simpl.
  - split; [done|]. intros k Hk Hf. apply Forall_cons_1 in Hf as [H1 H2]. constructor; [|done]. case_if; simpl; [done|lia].
  - destruct (update_blocked sid ric l) as [l'|]; simpl; [|done]. destruct IH as [H1 H2]. split; [simpl; lia|]. intros k Hk Hf. apply Forall_cons_1 in Hf as [H3 H4]. constructor; [done|by apply H2].
Qed.

(** A new section. *)
Lemma saved_blocked e e' sid fmin ric : blocked_inv e -> section_saved e e' sid fmin ric -> blocked_inv e'.
Proof.
  intros [B1 B2 B3 B4] [V1 _ _ V4 V5 _]. assert (e_krc e' = e_krc e /\ e_max_blocked_stream e' = e_max_blocked_stream e) as [Hk Hmx] by (rewrite V1; done).
  unfold new_blocked in V4. unfold xqc_encoder_check_block_stream_limit in V5. pose proof (update_blocked_spec sid ric (e_blocked_list e)) as Hu.
  destruct (e_krc e <? ric) eqn:E; zify_bools; [|injection V4 as E1 E2; by split; rewrite ?E1, ?E2, ?Hk, ?Hmx].
  destruct (update_blocked sid ric (e_blocked_list e)) as [l|]; injection V4 as E1 E2.
  - destruct Hu as [Hl Hf]. split; rewrite ?E1, ?E2, ?Hk, ?Hmx, ?Hl; try done. by apply Hf.
  - rewrite Hu in V5. assert (e_blocked_stream_count e < e_max_blocked_stream e) as Hlt.
    { destruct (e_max_blocked_stream e <=? e_blocked_stream_count e) eqn:El; [specialize (V5 eq_refl)|zify_bools]; lia. }
    rewrite u64_small in E1 by lia. split; rewrite ?E1, ?E2, ?Hk, ?Hmx, ?length_app; simpl; try lia. apply Forall_app. split; [done|by constructor].
Qed.

(** The streams that are not blocked any more leave the list. *)
Lemma unblock_spec krc count l : count = Z.of_nat (length l) -> count < 2 ^ 64 ->
  let '(n, l') := unblock_loop krc count l in n = Z.of_nat (length l') /\ n <= count /\ Forall (fun s => krc < bs_rqrd_insert_cnt s) l'.
Proof.
  enough (forall l count, Z.of_nat (length l) <= count < 2 ^ 64 -> let '(n, l') := unblock_loop krc count l in
    count - n = Z.of_nat (length l) - Z.of_nat (length l') /\ n <= count /\ Forall (fun s => krc < bs_rqrd_insert_cnt s) l') as H.
  { intros H1 H2. specialize (H l count ltac:(lia)). destruct (unblock_loop krc count l) as [n l']. destruct H as (H3 & H4 & H5). split_and!; [lia|done|done]. }
  clear. induction l as [|s l IH]; intros count Hc; simpl; [split_and!; [lia|lia|done]|]. simpl length in Hc. destruct (bs_rqrd_insert_cnt s <=? krc) eqn:E; zify_bools.
  - rewrite u64_small by lia. specialize (IH (count - 1) ltac:(lia)). destruct (unblock_loop krc (count - 1) l) as [n l']. destruct IH as (H1 & H2 & H3). split_and!; [lia|lia|done].
  - specialize (IH count ltac:(lia)). destruct (unblock_loop krc count l) as [n l']. destruct IH as (H1 & H2 & H3). simpl length. split_and!; [lia|lia|]. constructor; [lia|done].
Qed.

Lemma unblock_inv e k : blocked_inv e -> 0 <= k -> blocked_inv (xqc_encoder_unblock_streams (e_set_krc e k)).
Proof.
  intros [B1 B2 B3 B4] Hk. unfold xqc_encoder_unblock_streams. cbn [e_krc e_blocked_stream_count e_blocked_list e_set_krc].
  pose proof (unblock_spec k _ _ B1 ltac:(lia)) as H. destruct (unblock_loop k _ _) as [n l]. destruct H as (H1 & H2 & H3). split; simpl; try done. lia.
Qed.

Lemma ack_loop_blocked e sid found mn l kept : blocked_inv e -> blocked_inv (snd (ack_loop e sid found mn l kept)).
Proof.
  revert e found mn kept. induction l as [|s l IH]; intros e found mn kept Hb; simpl; [by destruct Hb; split|]. case_if; [|by apply IH]. apply IH. case_if; [|done].
  apply unblock_inv; [done|]. destruct Hb. zb.
Qed.

Lemma remove_blocked_spec sid k count l : count = Z.of_nat (length l) -> count < 2 ^ 64 -> Forall (fun s => k < bs_rqrd_insert_cnt s) l ->
  let '(n, l') := remove_blocked sid count l in n = Z.of_nat (length l') /\ n <= count /\ Forall (fun s => k < bs_rqrd_insert_cnt s) l'.
Proof.
  enough (forall l, Z.of_nat (length l) <= count -> count < 2 ^ 64 -> Forall (fun s => k < bs_rqrd_insert_cnt s) l -> let '(n, l') := remove_blocked sid count l in
    count - n = Z.of_nat (length l) - Z.of_nat (length l') /\ n <= count /\ Forall (fun s => k < bs_rqrd_insert_cnt s) l') as H.
  { intros H1 H2 H3. specialize (H l ltac:(lia) H2 H3). destruct (remove_blocked sid count l) as [n l']. destruct H as (H4 & H5 & H6). split_and!; [lia|done|done]. }
  clear. induction l as [|s l IH]; intros Hc Hlt Hf; simpl; [split_and!; [lia|lia|done]|]. apply Forall_cons_1 in Hf as [Hs Hf]. simpl length in Hc. case_if.
  - rewrite u64_small by lia. simpl length. split_and!; [lia|lia|done].
  - specialize (IH ltac:(lia) Hlt Hf). destruct (remove_blocked sid count l) as [n l']. destruct IH as (H1 & H2 & H3). simpl length. split_and!; [lia|lia|]. by constructor.
Qed.

(** A reply that is accepted. *)
Lemma dec_apply_blocked e d e' : blocked_inv e -> int_ok (dec_val d) -> dec_apply e d = Some (Ok tt, e') -> blocked_inv e'.
Proof.
  intros Hb Hd H. destruct d as [s|s|n]; cbn [dec_apply] in H.
  - unfold xqc_encoder_section_ack in H. pose proof (ack_loop_blocked e s false XQC_INVALID_INDEX (e_unack_list e) [] Hb) as Hl.
    destruct (ack_loop _ _ _ _ _ _) as [[] e1]; simpl in *; [|done]. destruct (xqc_dtable_set_min_ref _ _) as [[r dt]|]; simpl in H; [|done]. injection H as _ <-. by destruct Hl; split.
  - unfold xqc_encoder_cancel_stream in H. destruct (xqc_dtable_set_min_ref _ _) as [[r dt]|]; simpl in H; [|done]. destruct r; [|done].
    destruct Hb as [B1 B2 B3 B4]. pose proof (remove_blocked_spec s (e_krc e) _ _ B1 ltac:(lia) B3) as Hr.
    destruct (remove_blocked s _ _) as [n l]. injection H as <-. destruct Hr as (H1 & H2 & H3). split; simpl; try done. lia.
  - injection H as H. unfold xqc_encoder_increase_known_rcvd_count in H. destruct (n =? 0); [done|]. destruct (_ <? _); [done|]. injection H as <-.
    apply unblock_inv; [done|]. unfold u64. apply Z.mod_pos_bound. lia.
Qed.

End QpackRound.
