(* ===== verification/QpackReach.v ===== *)
(** The states a QPACK encoder reaches: header lists are encoded and replies of the decoder are
    accepted in any order. How many streams can become blocked. *)

From Stdlib Require Import SpecFloat.
From stdpp Require Import base numbers list.
From S2P Require Import Prelude RingArray RingMem VarBuf QpackInt PrefixedStr PrefixedStrSpec DTable DTableSpec DTableRefine QpackStatic QpackIns QpackRep QpackField QpackInsSpec QpackRepSpec QpackDecoder QpackEncoder Qpack QpackDecSpec QpackStream QpackEncSpec QpackRound.
Import RingArray RingMem VarBuf QpackInt PrefixedStr PrefixedStrSpec DTable DTableSpec DTableRefine QpackStatic QpackIns QpackRep QpackField QpackInsSpec QpackRepSpec QpackDecoder QpackEncoder Qpack QpackDecSpec QpackStream QpackEncSpec QpackRound.

Module QpackReach.

(** ** Creation *)

(** A new encoder with the settings of the peer. *)
Definition new_encoder (junk : Z -> list Z) (esize max_cap cap max_blocked : Z) : option (res unit * xqc_encoder_t) :=
  e ← xqc_encoder_create true esize;
  let '(r, e) := xqc_encoder_set_max_dtable_cap e max_cap in
  match r with
  | Err x => Some (Err x, e)
  | Ok _ => xqc_encoder_set_dtable_cap true junk (snd (xqc_encoder_set_max_blocked_stream e max_blocked)) cap
  end.

Lemma new_encoder_spec junk esize max_cap cap mb : (forall n, 0 <= n -> zlen (junk n) = n) -> esize <> 0 -> 0 <= cap <= max_cap -> max_cap < 2 ^ 62 ->
  exists e, new_encoder junk esize max_cap cap mb = Some (Ok tt, e) /\ enc_inv e (with_cap (t_empty true) cap)
  /\ e_unack_list e = [] /\ e_min_unack_index e = XQC_INVALID_INDEX /\ e_krc e = 0 /\ e_blocked_list e = [] /\ e_blocked_stream_count e = 0
  /\ e_max_blocked_stream e = mb /\ e_max_entries e = max_cap / 32.
Proof.
  intros Hj Hes Hcap Hmax. unfold new_encoder, xqc_encoder_create. cbn [negb]. destruct (create_rep esize true Hes) as (dt & -> & R). cbn [mbind option_bind].
  unfold xqc_encoder_set_max_dtable_cap. cbn [xqc_encoder_set_insert_limit xqc_encoder_update_insert_len_limit e_set_limits e_max_entries Z.eqb negb].
  unfold xqc_encoder_set_dtable_cap. cbn [e_set_max_entries e_set_max_blocked xqc_encoder_set_max_blocked_stream snd e_dtable].
  destruct (set_capacity_spec junk [] dt (t_empty true) cap R Hj ltac:(lia) ltac:(right; by left)) as (dt' & es & E & R').
  unfold t_set_capacity in *. change (t_cap (t_empty true)) with 0 in *. rewrite (proj2 (Z.ltb_ge _ _)) in * by lia.
  match goal with |- context [e_dtable (xqc_encoder_set_insert_limit ?a ?b ?c)] => change (e_dtable (xqc_encoder_set_insert_limit a b c)) with dt end.
  rewrite E. cbn [mbind option_bind fst].
  eexists. split; [done|]. split; [|by split_and!]. split; [split; [by eexists|by split_and!]|]. simpl. split; [unfold XQC_INVALID_INDEX; lia|].
  unfold xqc_dtable_max_entry_cnt, XQC_QPACK_ENTRY_SIZE_BASE. split; [|by apply Z.div_le_mono; lia]. split; [apply Z.div_pos; lia|]. apply Z.div_lt_upper_bound; lia.
Qed.

(** ** Steps *)

Section reach.

Context (junk : Z -> list Z).

Inductive enc_reach : xqc_encoder_t -> Prop :=
| reach_new esize max_cap cap mb e : esize <> 0 -> 0 <= cap <= max_cap -> max_cap < 2 ^ 62 -> 0 <= mb < 2 ^ 64 ->
    new_encoder junk esize max_cap cap mb = Some (Ok tt, e) -> enc_reach e
| reach_headers e efs ins sid hdrs ps e' efs' ins' r : enc_reach e -> Forall2 hdr_ok hdrs ps -> hdrs <> [] ->
    byte_sum (e_dtable e) + (Z.of_nat (length hdrs) + 1) * dt_capacity (e_dtable e) + ROOM < 2 ^ 64 ->
    vb_ok ins -> vb_data_len ins + Z.of_nat (length hdrs) * ROOM <= max_size ins ->
    vb_ok efs -> vb_data_len efs + (Z.of_nat (length hdrs) + 1) * ROOM <= max_size efs ->
    xqc_encoder_enc_headers true junk e efs ins sid hdrs = Some (r, e', efs', ins') -> enc_reach e'
| reach_reply e d e' : enc_reach e -> int_ok (dec_val d) -> dec_apply e d = Some (Ok tt, e') -> enc_reach e'.

End reach.

(** ** The invariant *)

(** A section is acknowledged up to its required insert count, or its stream is listed. *)
Definition covered (krc : Z) (bl : list xqc_encoder_blocked_stream_t) (s : xqc_encoder_unack_section_t) : Prop :=
  us_rqrd_insert_cnt s <= krc \/ Exists (fun b => bs_stream_id b = us_stream_id s /\ us_rqrd_insert_cnt s <= bs_rqrd_insert_cnt b) bl.

Definition section_fine (e : xqc_encoder_t) (t : table) (s : xqc_encoder_unack_section_t) : Prop :=
  0 <= us_min_rep_index s < XQC_INVALID_INDEX /\ 0 <= us_rqrd_insert_cnt s <= t_end t /\ covered (e_krc e) (e_blocked_list e) s.

Record reach_inv (e : xqc_encoder_t) (t : table) : Prop := {
  ri_enc : enc_inv e t;
  ri_blocked : blocked_inv e;
  ri_krc : e_krc e <= t_end t;
  ri_sections : Forall (section_fine e t) (e_unack_list e);
}.

Lemma update_covers sid ric l l' : update_blocked sid ric l = Some l' -> 
  Exists (fun b => bs_stream_id b = sid /\ ric <= bs_rqrd_insert_cnt b) l'
  /\ forall x r, Exists (fun b => bs_stream_id b = x /\ r <= bs_rqrd_insert_cnt b) l -> Exists (fun b => bs_stream_id b = x /\ r <= bs_rqrd_insert_cnt b) l'.
Proof.
  revert l'. induction l as [|s l IH]; intros l'; simpl; [done|]. destruct (bs_stream_id s =? sid) eqn:E; zify_bools.
  - intros [= <-]. split; [apply Exists_cons; left; case_if; simpl in *; zify_bools; lia|]. intros x r Hx. apply Exists_cons in Hx as [[H1 H2]|Hx]; apply Exists_cons; [left|by right]. case_if; simpl in *; zify_bools; lia.
  - destruct (update_blocked sid ric l) as [k|]; [|done]. intros [= <-]. destruct (IH k eq_refl) as [H1 H2]. split; [apply Exists_cons; by right|].
    intros x r Hx. apply Exists_cons in Hx as [?|Hx]; apply Exists_cons; [by left|right; by apply H2].
Qed.

Lemma saved_sections e e' t t' sid fmin ric : section_saved e e' sid fmin ric -> Forall (section_fine e t) (e_unack_list e) -> t_end t <= t_end t' -> 0 <= ric <= t_end t' ->
  t_end t' < XQC_INVALID_INDEX -> Forall (section_fine e' t') (e_unack_list e').
Proof.
  intros [V1 V2 _ V4 _ V6] Hs Hle Hric Hend. assert (e_krc e' = e_krc e) as Hk by (by rewrite V1). rewrite V2. unfold new_blocked in V4.
  assert ((forall s, covered (e_krc e) (e_blocked_list e) s -> covered (e_krc e') (e_blocked_list e') s)
    /\ (ric <= e_krc e' \/ Exists (fun b => bs_stream_id b = sid /\ ric <= bs_rqrd_insert_cnt b) (e_blocked_list e'))) as [Hcov Hnew].
  { unfold covered. rewrite Hk. destruct (e_krc e <? ric) eqn:E; zify_bools; [|injection V4 as _ ->; split; [done|left; lia]].
    destruct (update_blocked sid ric (e_blocked_list e)) as [l|] eqn:Eu; injection V4 as _ ->.
    - destruct (update_covers _ _ _ _ Eu) as [H1 H2]. split; [|by right]. intros s [?|?]; [by left|right; by apply H2].
    - split; [|right; apply Exists_app; right; apply Exists_cons; left; simpl; lia]. intros s [?|?]; [by left|right; apply Exists_app; by left]. }
  apply Forall_app. split.
  - eapply Forall_impl; [exact Hs|]. intros s (H1 & H2 & H3). split_and!; try done; try lia. by apply Hcov.
  - unfold new_unack. case_if; constructor; [|done]. zify_bools. specialize (V6 ltac:(lia)). split_and!; simpl; try lia. done.
Qed.

(** A higher known received count, and the streams that it unblocks. *)
Lemma unblock_keeps k count l x r : Exists (fun b => bs_stream_id b = x /\ r <= bs_rqrd_insert_cnt b) l ->
  r <= k \/ Exists (fun b => bs_stream_id b = x /\ r <= bs_rqrd_insert_cnt b) (snd (unblock_loop k count l)).
Proof.
  revert count. induction l as [|s l IH]; intros count Hx; [by apply Exists_nil in Hx|]. simpl. apply Exists_cons in Hx. destruct (bs_rqrd_insert_cnt s <=? k) eqn:E; zify_bools.
  - destruct Hx as [[H1 H2]|Hx]; [left; lia|by apply IH].
  - specialize (IH count). destruct (unblock_loop k count l) as [n l']. simpl in *. destruct Hx as [Hx|Hx]; [right; apply Exists_cons; by left|].
    destruct (IH Hx) as [?|?]; [by left|right; apply Exists_cons; by right].
Qed.

Lemma unblock_fine e t k s : e_krc e <= k -> section_fine e t s -> section_fine (xqc_encoder_unblock_streams (e_set_krc e k)) t s.
Proof.
  intros Hk (H1 & H2 & H3). split; [done|]. split; [done|]. unfold covered, xqc_encoder_unblock_streams in *. cbn [e_krc e_blocked_list e_blocked_stream_count e_set_krc].
  pose proof (unblock_keeps k (e_blocked_stream_count e) (e_blocked_list e) (us_stream_id s) (us_rqrd_insert_cnt s)) as Hu.
  destruct (unblock_loop k _ _) as [n l]. simpl in *. destruct H3 as [?|H3]; [left; lia|by apply Hu].
Qed.

(** The loop over the sections: what is left is fine, and the smallest reference is in range. *)
Lemma ack_loop_fine sid t l : forall e found mn kept, Forall (section_fine e t) (kept ++ l) -> e_krc e <= t_end t -> 0 <= mn <= XQC_INVALID_INDEX ->
  let e' := snd (ack_loop e sid found mn l kept) in Forall (section_fine e' t) (e_unack_list e') /\ e_krc e' <= t_end t /\ 0 <= e_min_unack_index e' <= XQC_INVALID_INDEX
  /\ e_dtable e' = e_dtable e /\ e_max_entries e' = e_max_entries e.
Proof.
  induction l as [|s l IH]; intros e found mn kept Hf Hk Hmn; cbn [ack_loop];
    [rewrite app_nil_r in Hf; split; [exact Hf|]; split; [exact Hk|]; split; [exact Hmn|done]|].
  pose proof Hf as Hf2. apply Forall_app in Hf as [Hkept Hl]. apply Forall_cons_1 in Hl as [Hs Hl]. destruct (negb found && _).
  - destruct (e_krc e <? us_rqrd_insert_cnt s) eqn:E; zify_bools.
    + pose proof Hs as (_ & Hs2 & _). set (e1 := xqc_encoder_unblock_streams _). assert (e_krc e1 = us_rqrd_insert_cnt s /\ e_dtable e1 = e_dtable e /\ e_max_entries e1 = e_max_entries e) as (K1 & K2 & K3).
      { unfold e1, xqc_encoder_unblock_streams. by destruct (unblock_loop _ _ _). }
      rewrite <- K2, <- K3. apply IH; [|lia|done]. assert (Forall (section_fine e t) (kept ++ l)) as Hall by (by apply Forall_app).
      eapply Forall_impl; [exact Hall|]. intros s' Hs'. apply unblock_fine; [lia|done].
    + apply IH; [by apply Forall_app|done|done].
  - apply IH; [|done|].
    + rewrite <- app_assoc. done.
    + destruct Hs as (Hs1 & _). unfold min_index. case_if; lia.
Qed.

Lemma min_index_range l mn : Forall (fun s => 0 <= us_min_rep_index s < XQC_INVALID_INDEX) l -> 0 <= mn <= XQC_INVALID_INDEX -> 0 <= fold_left min_index l mn <= XQC_INVALID_INDEX.
Proof. intros Hl. revert mn. induction Hl as [|s l Hs Hl IH]; intros mn Hmn; simpl; [done|]. apply IH. unfold min_index. case_if; lia. Qed.

(** The table after the smallest reference was set. *)
Lemma set_ref_inv e t m dt' r : enc_at e t -> 0 <= e_max_entries e < 2 ^ 60 -> t_cap t / 32 <= e_max_entries e -> e_min_unack_index e = m -> 0 <= m <= XQC_INVALID_INDEX -> xqc_dtable_set_min_ref (e_dtable e) m = Some (Ok r, dt') ->
  exists t', enc_inv (e_set_dtable e dt') t' /\ core t' = core t.
Proof.
  intros ((es & R) & Hh & Hsm) Hmax Hcap Hm Hr E. destruct (set_min_ref_spec es _ t m R ltac:(unfold XQC_INVALID_INDEX in *; lia)) as (dt2 & E2 & R2).
  rewrite E in E2. injection E2 as Hok <-. unfold t_set_ref in *.
  assert (forall t', rep es dt' t' -> core t' = core t -> t_hash t' = true -> ref_value (t_ref t') = m -> exists t', enc_inv (e_set_dtable e dt') t' /\ core t' = core t) as Hgo.
  { intros t' R' Hc Hh' Href. destruct (core_same _ _ Hc) as (_ & _ & Hnv). exists t'. split; [|done]. split; [split; [by eexists|by rewrite Hnv]|]. cbn [e_set_dtable e_min_unack_index e_max_entries].
    rewrite Hm, Href. assert (t_cap t' = t_cap t) as -> by (change (t_cap (core t') = t_cap (core t)); by rewrite Hc). split; [lia|done]. }
  destruct (bool_decide_reflect (m = ref_value (t_ref t))) as [He|_]; [by apply (Hgo t)|]. destruct (bool_decide (t_nvs t = [])); [done|].
  destruct (m =? XQC_INVALID_INDEX) eqn:Ei; zify_bools; [apply (Hgo (with_ref t None)); try done; by rewrite Ei|]. destruct (_ && _); [|done]. by apply (Hgo (with_ref t (Some m))).
Qed.

Lemma fine_table e t t' dt' s : core t' = core t -> section_fine e t s -> section_fine (e_set_dtable e dt') t' s.
Proof. intros Hc (H1 & H2 & H3). destruct (core_same _ _ Hc) as (He & _). split; [done|]. rewrite He. by split. Qed.

Lemma remove_keeps sid count l x r : x <> sid -> Exists (fun b => bs_stream_id b = x /\ r <= bs_rqrd_insert_cnt b) l ->
  Exists (fun b => bs_stream_id b = x /\ r <= bs_rqrd_insert_cnt b) (snd (remove_blocked sid count l)).
Proof.
  intros Hne. induction l as [|s l IH]; intros Hx; [by apply Exists_nil in Hx|]. simpl. apply Exists_cons in Hx. destruct (bs_stream_id s =? sid) eqn:E; zify_bools.
  - destruct Hx as [[H1 _]|Hx]; [congruence|done].
  - destruct (remove_blocked sid count l) as [n l']. simpl in *. apply Exists_cons. destruct Hx as [Hx|Hx]; [by left|right; by apply IH].
Qed.

(** A reply that is accepted. *)
Lemma reply_inv e t d e' : reach_inv e t -> int_ok (dec_val d) -> dec_apply e d = Some (Ok tt, e') -> exists t', reach_inv e' t'.
Proof.
  intros [Hinv Hb Hk Hs] Hd H. pose proof (dec_apply_blocked e d e' Hb Hd H) as Hb'. pose proof Hinv as (Hat & Href & Hmax & Hcap). pose proof Hat as ((es & R) & _).
  destruct (end_range _ _ _ R) as [_ Hend]. destruct d as [sid|sid|n]; cbn [dec_apply] in H.
  - unfold xqc_encoder_section_ack in H. pose proof (ack_loop_fine sid t (e_unack_list e) e false XQC_INVALID_INDEX [] Hs Hk ltac:(unfold XQC_INVALID_INDEX; lia)) as Hl.
    destruct (ack_loop _ _ _ _ _ _) as [[] e1]; simpl in H, Hl; [|done]. destruct Hl as (L1 & L2 & L3 & L4 & L5).
    destruct (xqc_dtable_set_min_ref _ _) as [[r dt]|] eqn:Er; simpl in H; [|done]. injection H as -> <-.
    destruct (set_ref_inv e1 t (e_min_unack_index e1) dt tt) as (t' & Hi' & Hc); try done; [unfold enc_at in *; by rewrite L4|by rewrite L5|by rewrite L5|].
    exists t'. destruct (core_same _ _ Hc) as (He & _). split; [done|done|simpl; lia|]. simpl. eapply Forall_impl; [exact L1|]. intros s. by apply fine_table.
  - unfold xqc_encoder_cancel_stream in H. set (kept := List.filter _ _) in H. set (e1 := e_set_unack _ _ _) in H.
    assert (Forall (fun s => section_fine e t s /\ us_stream_id s <> sid) kept) as Hkept.
    { apply Forall_forall. intros s Hin. apply list_elem_of_In, filter_In in Hin as [Hin Hne]. apply list_elem_of_In in Hin. split; [by apply (proj1 (Forall_forall _ _) Hs)|]. zb. }
    destruct (xqc_dtable_set_min_ref _ _) as [[r dt]|] eqn:Er; simpl in H; [|done]. destruct r as [[]|]; [|done].
    destruct (set_ref_inv e1 t (e_min_unack_index e1) dt tt) as (t' & Hi' & Hc); try done.
    { simpl. apply min_index_range; [|unfold XQC_INVALID_INDEX; lia]. eapply Forall_impl; [exact Hkept|]. intros s [(Hr & _) _]. exact Hr. }
    destruct (core_same _ _ Hc) as (He & _). exists t'. pose proof (remove_keeps sid (e_blocked_stream_count e) (e_blocked_list e)) as Hrk.
    destruct (remove_blocked sid _ _) as [n l]. injection H as <-. split; [exact Hi'|done|simpl; lia|]. simpl. eapply Forall_impl; [exact Hkept|].
    intros s [(H1 & H2 & H3) Hne]. split; [done|]. split; [lia|]. destruct H3 as [?|H3]; [by left|]. right. by apply Hrk.
  - injection H as H. unfold xqc_encoder_increase_known_rcvd_count in H. destruct (n =? 0); [done|]. cbn [e_dtable e_set_krc e_krc] in H. rewrite (cnt_spec _ _ _ R) in H.
    destruct (_ <? _) eqn:E; [done|]. injection H as <-. zify_bools. destruct Hb as [_ _ _ Hk0]. unfold int_ok, XQC_QPACK_INT_MAX in Hd. simpl in Hd. rewrite u64_small in * by lia.
    exists t. set (e1 := xqc_encoder_unblock_streams _) in *. assert (e_krc e1 = e_krc e + n /\ e_dtable e1 = e_dtable e /\ e_max_entries e1 = e_max_entries e
      /\ e_unack_list e1 = e_unack_list e /\ e_min_unack_index e1 = e_min_unack_index e) as (K1 & K2 & K3 & K4 & K5) by (unfold e1, xqc_encoder_unblock_streams; by destruct (unblock_loop _ _ _)).
    split; [|done|lia|].
    + unfold enc_inv, enc_at in *. by rewrite K2, K3, K5.
    + rewrite K4. eapply Forall_impl; [exact Hs|]. intros s Hf. apply unblock_fine; [lia|done].
Qed.

Section theorems.

Context (junk : Z -> list Z) (Hjunk : forall n, 0 <= n -> zlen (junk n) = n).

Lemma reach_holds e : enc_reach junk e -> exists t, reach_inv e t.
Proof.
  induction 1 as [esize max_cap cap mb e Hes Hcap Hmax Hmb Hnew|e efs ins sid hdrs ps e' efs' ins' r _ (t & Hinv) Hok Hne Hadd Hib Hir Heb Her Hrun|e d e' _ (t & Hinv) Hd Ha].
  - destruct (new_encoder_spec junk esize max_cap cap mb Hjunk Hes Hcap Hmax) as (e1 & E & Hinv & N1 & N2 & N3 & N4 & N5 & N6 & N7). rewrite Hnew in E. injection E as <-.
    exists (with_cap (t_empty true) cap). split; [done| |by rewrite N3|by rewrite N1]. by split; rewrite ?N3, ?N4, ?N5, ?N6.
  - destruct Hinv as [Hinv Hb Hk Hs]. pose proof Hinv as (((es & R) & _) & _). rewrite (rep_sum _ _ _ R), (rep_cap _ _ _ R) in Hadd.
    destruct (enc_headers_spec junk Hjunk e t efs ins sid hdrs ps Hinv Hok Hne Hadd Hib Hir Heb Her)
      as (e1 & f1 & i1 & t' & l & section & ric & base & rs & fmin & He & Hinv' & Hsv & Hcap & _ & Hrn & _ & _ & _ & Hso).
    rewrite Hrun in He. injection He as -> -> -> ->. exists t'. pose proof (run_end _ _ _ Hrn) as Hle. change (t_end (core t)) with (t_end t) in Hle. change (t_end (core t')) with (t_end t') in Hle.
    destruct Hso as [_ (_ & Hr0 & _) Hr1 _ _ _]. pose proof Hinv' as (((es' & R') & _) & _). destruct (end_range _ _ _ R') as [_ Hend].
    split; [done|by apply (saved_blocked e e1 sid fmin ric)| |].
    + rewrite (ss_rest _ _ _ _ _ Hsv). simpl. lia.
    + apply (saved_sections e e1 t t' sid fmin ric); try done; [lia|]. unfold XQC_INVALID_INDEX. lia.
  - by apply (reply_inv e t d e').
Qed.

(** C9: The streams that the decoder may have to hold back are bounded. In every state the encoder
    reaches, by encoding headers and by accepting replies, any set of streams that have a
    section which needs insertions beyond the known received count is at most as large as the
    number of blocked streams that the peer allows. *)
Theorem blocked_streams_bounded e ids : enc_reach junk e -> NoDup ids ->
  (forall sid, sid ∈ ids -> exists s, s ∈ e_unack_list e /\ us_stream_id s = sid /\ e_krc e < us_rqrd_insert_cnt s) ->
  Z.of_nat (length ids) <= e_max_blocked_stream e.
Proof.
  intros Hr Hnd Hids. destruct (reach_holds e Hr) as (t & [_ [B1 B2 _ _] _ Hs]).
  assert (length ids <= length (map bs_stream_id (e_blocked_list e)))%nat as Hle; [|rewrite length_map in Hle; lia].
  apply submseteq_length, NoDup_submseteq; [done|]. intros sid Hin. destruct (Hids sid Hin) as (s & Hsin & <- & Hk).
  destruct (proj1 (Forall_forall _ _) Hs s Hsin) as (_ & _ & [?|Hx]); [lia|]. apply Exists_exists in Hx as (b & Hb & Hbs & _). rewrite <- Hbs.
  apply list_elem_of_In, in_map_iff. exists b. split; [done|]. by apply list_elem_of_In.
Qed.

End theorems.

(** ** Two new handlers *)

(** The handler of the sender once the settings of the peer are known: [max_cap] is the capacity
    that the peer allows, [mb] the number of blocked streams. *)
Definition sender (junk : Z -> list Z) (esize own max_cap mb : Z) (ebuf : xqc_var_buf_t) : option (res unit * xqc_qpack_t * option xqc_var_buf_t) :=
  q ← xqc_qpack_create true junk esize own own;
  let q := snd (xqc_qpack_set_enc_max_dtable_cap q max_cap) in
  let q := snd (xqc_qpack_set_max_blocked_stream q mb) in
  xqc_qpack_set_dtable_cap true junk q (Some ebuf) max_cap.

(** The peer, which has read the instructions. *)
Definition receiver (junk : Z -> list Z) (esize max_cap : Z) (chunks : list ((Z -> Z) * list Z)) (dbuf : xqc_var_buf_t)
    : option (res unit * xqc_qpack_t * option xqc_var_buf_t) :=
  q ← xqc_qpack_create true junk esize max_cap max_cap; feed_encoder junk q chunks (Some dbuf).

Lemma qpack_create_spec junk esize a b : (forall n, 0 <= n -> zlen (junk n) = n) -> esize <> 0 -> 0 <= b < 2 ^ 62 ->
  exists q, xqc_qpack_create true junk esize a b = Some q /\ dec_side q (t_empty false) /\ idle (q_ectx q) /\ dec_idle (q_dctx q)
  /\ d_max_ents (q_dec q) = b / 32 /\ q_dup_bytes q = 0 /\ q_dec_max_cap q = b /\ q_enc_max_cap q = a
  /\ Some (q_enc q) = xqc_encoder_create true esize.
Proof.
  intros Hj Hes Hb. unfold xqc_qpack_create, xqc_decoder_create. cbn [negb]. destruct (create_rep esize false Hes) as (dt & -> & R). cbn [mbind option_bind].
  destruct (xqc_encoder_create true esize) as [e|] eqn:Ee; [|unfold xqc_encoder_create in Ee; destruct (create_rep esize true Hes) as (dt2 & E2 & _); by rewrite E2 in Ee].
  cbn [mbind option_bind]. unfold xqc_ins_encoder_ctx_create. cbn [negb].
  destruct (reader_create junk XQC_VAR_BUF_INIT_SIZE Hj ltac:(split; by_decide)) as (p1 & -> & Hr1 & Hm1).
  destruct (reader_create junk XQC_H3_MAX_FIELD_SECTION_SIZE Hj ltac:(split; by_decide)) as (p2 & -> & Hr2 & Hm2). cbn [mbind option_bind xqc_ins_decoder_ctx_create negb].
  eexists. split; [done|]. split; [split; [split; [by eexists|by split_and!]|]; unfold dup_limit, UINT64_MAX; simpl; lia|].
  split; [split; [by split_and!|by left]|]. split; [by left|]. by split_and!.
Qed.

Lemma connected junk esize own max_cap mb clock ebuf dbuf : (forall n, 0 <= n -> zlen (junk n) = n) -> esize <> 0 -> 0 <= own < 2 ^ 62 -> 0 <= max_cap < 2 ^ 62 ->
  vb_ok ebuf -> vb_data_len ebuf + ROOM <= max_size ebuf -> vb_ok dbuf -> vb_data_len dbuf + 16 <= max_size dbuf ->
  let cap := Z.min max_cap own in let t := with_cap (t_empty true) cap in
  exists qe qd ebuf' dbuf', sender junk esize own max_cap mb ebuf = Some (Ok tt, qe, Some ebuf') /\ vb_bytes ebuf' = vb_bytes ebuf ++ ins_bytes (I_cap cap)
  /\ receiver junk esize max_cap [(clock, ins_bytes (I_cap cap))] dbuf = Some (Ok tt, qd, Some dbuf')
  /\ synced qe qd t /\ settled (q_enc qe) t /\ dec_idle (q_dctx qe).
Proof.
  intros Hj Hes Hown Hmax Heb Her Hdb Hdr cap t. assert (0 <= cap <= max_cap /\ cap < 2 ^ 62) as [Hcap Hcap2] by (unfold cap; lia).
  destruct (qpack_create_spec junk esize own own Hj Hes Hown) as (q & Hq & _ & _ & Hdi & _ & _ & _ & Hem & Henc).
  destruct (qpack_create_spec junk esize max_cap max_cap Hj Hes Hmax) as (q2 & Hq2 & Hd2 & Hid2 & _ & Hme2 & Hdup2 & Hdm2 & _).
  destruct (new_encoder_spec junk esize max_cap cap mb Hj Hes Hcap ltac:(lia)) as (e & Hne & Hinv & N1 & N2 & N3 & N4 & N5 & N6 & N7).
  unfold new_encoder in Hne. rewrite <- Henc in Hne. cbn [mbind option_bind] in Hne. unfold sender, receiver. rewrite Hq, Hq2. cbn [mbind option_bind].
  unfold xqc_qpack_set_enc_max_dtable_cap. destruct (xqc_encoder_set_max_dtable_cap (q_enc q) max_cap) as [[[]|] e1]; [|done].
  unfold xqc_qpack_set_dtable_cap. cbn [snd xqc_qpack_set_max_blocked_stream xqc_encoder_set_max_blocked_stream q_set_enc q_enc q_enc_max_cap] in *. rewrite Hem. fold cap.
  rewrite Hne. cbn [mbind option_bind]. assert (ins_ok (I_cap cap)) as Hio by (unfold ins_ok, int_ok, XQC_QPACK_INT_MAX; lia).
  destruct (write_ins_spec junk Hj ebuf (I_cap cap) Heb Hio Her) as (b1 & Hw & _ & Hby & _). unfold xqc_qpack_notify_set_dtable_cap, notify. cbn [write_ins] in Hw. rewrite Hw.
  destruct (feed_encoder_spec junk Hj [(clock, ins_bytes (I_cap cap))] q2 (t_empty false) [I_cap cap] (core t) dbuf) as (qd & b2 & ds & Hf & Hds & Hidl & Hsame & _); try done.
  { constructor; [|done]. split; [done|]. rewrite Hdm2. lia. }
  { cbn [ins_run ins_apply]. unfold t_set_capacity. change (t_cap (t_empty false)) with 0. rewrite (proj2 (Z.ltb_ge _ _)) by lia. done. }
  { rewrite Hdup2. cbn [dup_work ins_apply dup_size]. unfold t_set_capacity. change (t_cap (t_empty false)) with 0. rewrite (proj2 (Z.ltb_ge _ _)) by lia.
    unfold dup_limit, UINT64_MAX. simpl. lia. }
  eexists _, qd, b1, b2. split; [done|]. split; [done|]. split; [done|]. destruct Hsame as (_ & _ & _ & _ & S5).
  split; [split; [exact Hinv|]; split; [done|]; split; [done|]; simpl; congruence|]. by split; [split|].
Qed.

End QpackReach.
