(* ===== verification/QpackExamples.v ===== *)
(** Runs of two QPACK handlers, and of one with bytes of a peer that does not follow the rules. *)

From Stdlib Require Import String.
From stdpp Require Import base numbers list.
From S2P Require Import Prelude RingArray RingMem VarBuf QpackInt PrefixedStr PrefixedStrSpec DTable DTableSpec DTableRefine QpackStatic QpackIns QpackRep QpackField QpackInsSpec QpackRepSpec QpackDecoder QpackEncoder Qpack QpackDecSpec QpackStream QpackEncSpec QpackRound QpackReach.
Import RingArray RingMem VarBuf QpackInt PrefixedStr PrefixedStrSpec DTable DTableSpec DTableRefine QpackStatic QpackIns QpackRep QpackField QpackInsSpec QpackRepSpec QpackDecoder QpackEncoder Qpack QpackDecSpec QpackStream QpackEncSpec QpackRound QpackReach.

Module QpackExamples.

Definition ex_buf : xqc_var_buf_t := mk_vb (ex_junk 64) 64 0 0 0 SIZE_MAX.
Definition ex_fresh : xqc_http_header_t := mk_hdr (mk_iov [] 0) (mk_iov [] 0) 0xAA.
Definition ex_hdr (n v : string) : xqc_http_header_t := mk_hdr (iov_of (text n)) (iov_of (text v)) 0.

Definition ex_hdrs : list xqc_http_header_t := [ex_hdr ":method" "GET"; ex_hdr "x-trace" "abc"; ex_hdr ":path" "/index"].

(** Bytes one by one. *)
Definition bytewise (l : list Z) : list (list Z) := map (fun b => [b]) l.
Definition clocked (l : list (list Z)) : list ((Z -> Z) * list Z) := map (fun X => (fun _ => 0, X)) l.

Definition pair_of (h : xqc_http_header_t) : list Z * list Z := (iov_bytes (h_name h), iov_bytes (h_value h)).

(** What the receiver reports for one list of headers, with both handlers after the exchange. *)
Definition exchange (qe qd : xqc_qpack_t) (sid : Z) (hdrs : list xqc_http_header_t)
    : option (list (list Z * list Z) * list Z * xqc_qpack_t * xqc_qpack_t) :=
  '(_, qe, efs, ins) ← xqc_qpack_enc_headers true ex_junk qe sid hdrs ex_buf (Some ex_buf);
  ins ← ins;
  '(_, qd, dbuf) ← feed_encoder ex_junk qd (clocked (bytewise (vb_bytes ins))) (Some ex_buf);
  ctx ← xqc_rep_ctx_create true ex_junk sid;
  '(_, _, _, h, dbuf) ← feed_section ex_junk ex_fresh qd ctx (bytewise (vb_bytes efs)) xqc_h3_headers_initial 65536 dbuf;
  dbuf ← dbuf;
  '(_, qe) ← feed_decoder qe (bytewise (vb_bytes dbuf));
  Some (map pair_of (hs_headers h), vb_bytes efs, qe, qd).

(** Two requests with the same headers: the second one refers to what the first one inserted. *)
Definition two_requests : option (list (list Z * list Z) * list Z * list (list Z * list Z) * list Z * Z) :=
  '(_, qe, ebuf) ← sender ex_junk 64 4096 4096 8 ex_buf;
  ebuf ← ebuf;
  '(_, qd, _) ← receiver ex_junk 64 4096 (clocked (bytewise (vb_bytes ebuf))) ex_buf;
  '(h1, b1, qe, qd) ← exchange qe qd 0 ex_hdrs;
  '(h2, b2, qe, qd) ← exchange qe qd 4 ex_hdrs;
  Some (h1, b1, h2, b2, e_krc (q_enc qe)).

(** ** A stream that is cancelled before its insertions arrive *)

(** The bytes of the instructions and of the section for one header. *)
Definition send (q : xqc_qpack_t) (sid : Z) (h : xqc_http_header_t) : option (xqc_qpack_t * list Z * list Z) :=
  '(_, q, efs, ins) ← xqc_qpack_enc_headers true ex_junk q sid [h] ex_buf (Some ex_buf);
  ins ← ins; Some (q, vb_bytes ins, vb_bytes efs).

(** The section [efs] at a receiver that has the instructions [before]; the instructions [after]
    come when the section is blocked. *)
Definition receive_blocked (q : xqc_qpack_t) (sid : Z) (before efs after : list Z) : option (bool * list (list Z * list Z)) :=
  '(_, q, _) ← feed_encoder ex_junk q (clocked [before]) (Some ex_buf);
  ctx ← xqc_rep_ctx_create true ex_junk sid;
  '(r, blocked, ctx, h, _) ← xqc_qpack_dec_headers true ex_junk ex_fresh q ctx efs xqc_h3_headers_initial 65536 true false (Some ex_buf);
  match r with
  | Err _ => None
  | Ok n =>
      '(_, q, _) ← feed_encoder ex_junk q (clocked [after]) (Some ex_buf);
      '(_, _, _, h, _) ← xqc_qpack_dec_headers true ex_junk ex_fresh q ctx (drop (Z.to_nat n) efs) h 65536 true false (Some ex_buf);
      Some (blocked, map pair_of (hs_headers h))
  end.

Definition cancelled : option (bool * list (list Z * list Z)) :=
  '(_, q, ebuf) ← sender ex_junk 64 48 48 8 ex_buf;
  ebuf ← ebuf;
  '(_, qd, _) ← receiver ex_junk 64 48 (clocked [vb_bytes ebuf]) ex_buf;
  '(q, i1, _) ← send q 0 (ex_hdr "x-a" "1");
  '(_, q) ← feed_decoder q [dec_bytes (D_cancel 0)];
  '(q, i2, _) ← send q 4 (ex_hdr "x-a" "2");
  '(_, q) ← feed_decoder q [dec_bytes (D_cancel 4)];
  '(q, i3, s3) ← send q 8 (ex_hdr "x-a" "3");
  receive_blocked qd 8 [] s3 i1.

(** What a receiver with the instructions [ins] makes of the section [efs] and of the headers, where
    the memory of a header has the flags [f] when it is allocated. *)
Definition read_section (f : Z) (ins efs : list Z) : option (res Z * bool * list (list Z * list Z * Z)) :=
  '(_, q, _) ← receiver ex_junk 64 4096 (clocked [ins]) ex_buf;
  ctx ← xqc_rep_ctx_create true ex_junk 0;
  '(r, blocked, _, h, _) ← xqc_qpack_dec_headers true ex_junk (mk_hdr (mk_iov [] 0) (mk_iov [] 0) f) q ctx efs xqc_h3_headers_initial 65536 true false (Some ex_buf);
  Some (r, blocked, map (fun x => (pair_of x, h_flags x)) (hs_headers h)).

(** ** The hypotheses of the theorems can hold *)

Lemma ex_buf_ok : vb_ok ex_buf.
Proof. split; by_decide. Qed.

Lemma ex_hdrs_ok : Forall2 hdr_ok ex_hdrs (map pair_of ex_hdrs).
Proof. repeat constructor; by_decide. Qed.

Lemma ex_room : enc_room (with_cap (t_empty true) 4096) ex_buf ex_buf (length ex_hdrs).
Proof. unfold enc_room. split_and!; first [exact ex_buf_ok|by_decide]. Qed.

(** The two handlers of the examples after the settings. *)
Lemma ex_connected : exists qe qd, synced qe qd (with_cap (t_empty true) 4096) /\ settled (q_enc qe) (with_cap (t_empty true) 4096) /\ dec_idle (q_dctx qe).
Proof.
  destruct (connected ex_junk 64 4096 4096 8 (fun _ => 0) ex_buf ex_buf ex_junk_ok) as (qe & qd & ? & ? & _ & _ & _ & H); try by_decide; try exact ex_buf_ok.
  by exists qe, qd.
Qed.

Lemma qpack_round_trip_witness :
  (exists qe qe' efs ins, xqc_qpack_enc_headers true ex_junk qe 4 ex_hdrs ex_buf (Some ex_buf) = Some (Ok tt, qe', efs, Some ins))
  /\ two_requests = Some (map pair_of ex_hdrs, [3; 129; 209; 16; 17], map pair_of ex_hdrs, [3; 0; 209; 129; 128], 2).
Proof.
  split; [|vm_compute; reflexivity]. destruct ex_connected as (qe & qd & Hs & _).
  destruct (qpack_round_trip ex_junk ex_fresh qe qd _ 4 ex_hdrs (map pair_of ex_hdrs) ex_buf ex_buf ex_buf 65536 ex_junk_ok Hs ex_hdrs_ok)
    as (qe' & efs & ins & t' & l & section & H & _); [done|exact ex_room|by_decide|by_decide|exact ex_buf_ok|]. by exists qe, qe', efs, ins.
Defined.

Lemma qpack_settles_witness : exists qe qe' efs ins, settled (q_enc qe) (with_cap (t_empty true) 4096)
  /\ xqc_qpack_enc_headers true ex_junk qe 4 ex_hdrs ex_buf (Some ex_buf) = Some (Ok tt, qe', efs, Some ins).
Proof.
  destruct ex_connected as (qe & qd & Hs & Hset & Hidle).
  destruct (qpack_settles ex_junk ex_fresh qe qd _ 4 ex_hdrs (map pair_of ex_hdrs) ex_buf ex_buf ex_buf 65536 ex_junk_ok Hs Hset Hidle ex_hdrs_ok)
    as (qe' & efs & ins & l & section & H & _); [done|exact ex_room|by_decide|by_decide|exact ex_buf_ok|]. by exists qe, qe', efs, ins.
Defined.

(** An encoder that has sent a section with an insertion to the stream 0. *)
Definition ex_sent : option (xqc_encoder_t * res unit * xqc_encoder_t * xqc_var_buf_t * xqc_var_buf_t) :=
  '(_, e) ← new_encoder ex_junk 64 4096 4096 8;
  '(r, e', efs, ins) ← xqc_encoder_enc_headers true ex_junk e ex_buf ex_buf 0 ex_hdrs;
  Some (e, r, e', efs, ins).

Lemma blocked_streams_bounded_witness : exists e, enc_reach ex_junk e /\ e_unack_list e <> [] /\ Z.of_nat (length [0]) <= e_max_blocked_stream e.
Proof.
  destruct (new_encoder ex_junk 64 4096 4096 8) as [[r0 e]|] eqn:E0; [|by vm_compute in E0].
  assert (r0 = Ok tt) as -> by (apply (f_equal (fun x => match x with Some (r, _) => Some r | None => None end)) in E0; vm_compute in E0; by injection E0).
  assert (byte_sum (e_dtable e) = 0 /\ dt_capacity (e_dtable e) = 4096) as [Hs Hc]
    by (apply (f_equal (fun x => match x with Some (_, e) => (byte_sum (e_dtable e), dt_capacity (e_dtable e)) | None => (0, 0) end)) in E0; vm_compute in E0; by injection E0).
  destruct (xqc_encoder_enc_headers true ex_junk e ex_buf ex_buf 0 ex_hdrs) as [[[[r e'] efs] ins]|] eqn:E1; cycle 1.
  { assert (ex_sent = None) as E by (unfold ex_sent; rewrite E0; cbn [mbind option_bind]; by rewrite E1). by vm_compute in E. }
  assert (ex_sent = Some (e, r, e', efs, ins)) as E by (unfold ex_sent; rewrite E0; cbn [mbind option_bind]; by rewrite E1).
  assert (e_unack_list e' = [mk_unack 0 0 2] /\ e_krc e' = 0) as [Hu Hk]
    by (apply (f_equal (fun x => match x with Some (_, _, e, _, _) => (e_unack_list e, e_krc e) | None => ([], 0) end)) in E; vm_compute in E; by injection E).
  assert (enc_reach ex_junk e') as Hr.
  { apply (reach_headers ex_junk e ex_buf ex_buf 0 ex_hdrs (map pair_of ex_hdrs) e' efs ins r);
      [|exact ex_hdrs_ok|discriminate|rewrite Hs, Hc; by_decide|exact ex_buf_ok|by_decide|exact ex_buf_ok|by_decide|exact E1].
    apply (reach_new ex_junk 64 4096 4096 8); [discriminate|split; by_decide|by_decide|split; by_decide|exact E0]. }
  exists e'. split; [exact Hr|]. split; [rewrite Hu; discriminate|]. apply (blocked_streams_bounded ex_junk ex_junk_ok e' [0] Hr); [apply NoDup_singleton|].
  intros sid ->%list_elem_of_singleton. exists (mk_unack 0 0 2). rewrite Hu, Hk. split; [apply list_elem_of_singleton; reflexivity|]. split; [reflexivity|by_decide].
Defined.

(** A section that refers to the first insertion, and the table of a decoder that has it. *)
Definition ex_ins : list enc_ins := [I_cap 4096; I_literal (text "x-a") (text "1")].
Definition ex_table : table := mk_table 0 [(text "x-a", text "1")] 4096 None 36 false.
Definition ex_section : list Z := prefix_bytes 128 1 1 ++ lines [R_indexed false 0].

Lemma ex_section_of : section_of 128 ex_table [(text "x-a", text "1")] ex_section 1 1 [R_indexed false 0].
Proof. split; [reflexivity|unfold section_ok; split_and!; by_decide|by_decide|intros _; by_decide|repeat constructor; by_decide|repeat constructor]. Qed.

Lemma blocked_section_resumes_witness : exists q ctx ctx1 n headers,
  xqc_qpack_dec_headers true ex_junk ex_fresh q ctx ex_section xqc_h3_headers_initial 65536 true false (Some ex_buf) = Some (Ok n, true, ctx1, headers, Some ex_buf).
Proof.
  destruct (qpack_create_spec ex_junk 64 4096 4096 ex_junk_ok) as (q & _ & Hd & Hidle & _ & Hme & Hdup & Hcap & _); [discriminate|split; by_decide|].
  destruct (feed_encoder_spec ex_junk ex_junk_ok [(fun _ => 0, stream_bytes ex_ins)] q (t_empty false) ex_ins ex_table ex_buf)
    as (q' & _ & _ & _ & [Hd' _] & _ & (_ & _ & _ & _ & Hme') & _);
    [exact Hd|exact Hidle| |apply app_nil_r|vm_compute; reflexivity|by_decide|rewrite Hdup; unfold dup_limit; rewrite Hcap; by_decide|exact ex_buf_ok|by_decide|].
  - repeat constructor; rewrite ?Hcap; by_decide.
  - destruct (blocked_section_resumes ex_junk ex_fresh q q' (t_empty false) ex_table [(text "x-a", text "1")] ex_section 1 1 [R_indexed false 0] 0 65536 ex_buf [[]])
      as (ctx & ctx1 & n & headers & _ & H & _); rewrite ?Hme; try exact ex_buf_ok; try by_decide; try exact ex_junk_ok; try exact Hd'; try exact ex_section_of;
      [apply Hd|congruence|]. by exists q, ctx, ctx1, n, headers.
Defined.

(** ** Flaws *)

(** After cancellations a receiver may report a header of another stream. The encoder releases
    the entries of a cancelled stream although the decoder has not acknowledged them, so that they
    can be evicted; the required insert count of a later section then lies outside the window in
    which the receiver can tell it from a smaller one. Here three requests are sent on a table
    with room for one entry, the first two are cancelled, and the receiver, which has only the
    first insertion, decodes for the stream 8 the pair of the stream 0. *)
Example cancelled_stream_confuses_sections : cancelled = Some (true, [(text "x-a", text "1")]).
Proof. vm_compute. reflexivity. Qed.

(** The flags of a header that is read as a literal are the ones its memory had before, so that
    the mark of a literal that must not be indexed is lost; the mark stays in the reader and is
    given to the indexed line that follows. *)
Example literal_flags_unset f :
  read_section f [] [0; 0; 0x31; 97; 1; 98; 0xD1] = Some (Ok 7, false, [(([97], [98]), f); ((text ":method", text "GET"), XQC_HTTP_HEADER_FLAG_NEVER_INDEX)]).
Proof. vm_compute. reflexivity. Qed.

(** References beyond the required insert count, which is 0 here, and a negative base are accepted. *)
Example reference_beyond_required_count :
  read_section 0 (stream_bytes ex_ins) [0; 0; 0x10] = Some (Ok 3, false, [((text "x-a", text "1"), 0)])
  /\ read_section 0 (stream_bytes ex_ins) [0; 0x80; 0x11] = Some (Ok 3, false, [((text "x-a", text "1"), 0)]).
Proof. vm_compute. done. Qed.

End QpackExamples.
