(* ===== verification/TransParamsSpec.v ===== *)
(** The transport parameters that one end sets are the ones the other end learns; a decoder reads
    only the value of its parameter; what is accepted is in range. *)

From stdpp Require Import base numbers list.
From S2P Require Import Prelude VInt RecvRecord PacketBuf Frames AckFrame CidSet TransParams.
Import VInt Frames TransParams.

Module TransParamsSpec.

(** ** The encoding as a list of parameters *)

Definition is_vint (v : Z) : Prop := 0 <= v <= XQC_VINT_MAX.

Definition vbytes (v : Z) : list Z := xqc_vint_bytes v (xqc_vint_get_2bit v) (xqc_put_varint_len v).

Definition enc_param (q : Z * list Z) : list Z := vbytes (fst q) ++ vbytes (zlen (snd q)) ++ snd q.

Definition enc_params (l : list (Z * list Z)) : list Z := concat (map enc_param l).

Lemma zlen_vbytes v : zlen (vbytes v) = xqc_put_varint_len v.
Proof. unfold vbytes. rewrite <- vint_len_put_varint_len. apply zlen_vint_bytes_2bit. Qed.

Lemma vbytes_ok v : bytes_ok (vbytes v).
Proof. apply vint_bytes_ok. Qed.

Lemma put_varint_len_range v : 1 <= xqc_put_varint_len v <= 8.
Proof. unfold xqc_put_varint_len. repeat case_if; lia. Qed.

Lemma vint_read_bytes buf p e v : bytes_ok buf -> 0 <= v <= XQC_VINT_MAX -> bytes_at buf p (vbytes v) ->
  p + xqc_put_varint_len v <= e -> e <= zlen buf -> xqc_vint_read buf p e = Some (v, xqc_put_varint_len v).
Proof.
  intros Hb Hv Hat He Hz. unfold vbytes in Hat. rewrite <- vint_len_put_varint_len in *.
  apply vint_read_at; try done. by apply vint_fits_2bit.
Qed.

(** ** Writing *)

(** [w] writes [bs] at its cursor. *)
Definition writes (w : cursor -> option cursor) (bs : list Z) : Prop :=
  forall buf p, 0 <= p -> p + zlen bs <= zlen buf -> w (buf, p) = Some (wr buf p bs, p + zlen bs).

Lemma writes_vint v : 0 <= v <= XQC_VINT_MAX -> writes (put_vint v) (vbytes v).
Proof.
  intros Hv buf p Hp Hfit. rewrite zlen_vbytes in *. unfold put_vint. simpl.
  assert (XQC_VINT_MAX < 2 ^ 64) by by_decide. rewrite put_varint_eq by lia. case_if; [done|zb].
Qed.

Lemma writes_bind w1 w2 b1 b2 : writes w1 b1 -> writes w2 b2 -> writes (fun c => c ← w1 c; w2 c) (b1 ++ b2).
Proof.
  intros H1 H2 buf p Hp Hfit. rewrite zlen_app in *. pose proof (zlen_nonneg b1). pose proof (zlen_nonneg b2).
  rewrite H1 by lia. simpl. rewrite H2 by (rewrite ?zlen_wr; lia). rewrite wr_app by lia. do 2 f_equal. lia.
Qed.

Lemma writes_none : writes Some [].
Proof. intros buf p Hp Hfit. by rewrite zlen_nil, Z.add_0_r. Qed.

Lemma writes_when b w bs : (b = true -> writes w bs) -> writes (when b w) (if b then bs else []).
Proof. destruct b; intros Hw; [by apply Hw|apply writes_none]. Qed.

Lemma writes_unless b w bs : (b = false -> writes w bs) -> writes (when (negb b) w) (if b then [] else bs).
Proof. destruct b; intros Hw; [apply writes_none|by apply Hw]. Qed.

Lemma writes_cpymem data n : 0 <= n <= zlen data -> writes (xqc_cpymem data n) (sub_bytes data 0 n).
Proof. intros Hn buf p Hp Hfit. unfold xqc_cpymem. simpl. by rewrite zlen_sub_bytes by lia. Qed.

Lemma small_vint v : 0 <= v <= 64 -> 0 <= v <= XQC_VINT_MAX.
Proof. intros. assert (64 <= XQC_VINT_MAX) by by_decide. lia. Qed.

Lemma writes_varint_param id v : 0 <= id <= XQC_VINT_MAX -> 0 <= v <= XQC_VINT_MAX ->
  writes (xqc_put_varint_param id v) (enc_param (id, vbytes v)).
Proof.
  intros Hid Hv. unfold xqc_put_varint_param, enc_param. cbn [fst snd]. rewrite zlen_vbytes. pose proof (put_varint_len_range v).
  apply (writes_bind (put_vint id)); [by apply writes_vint|].
  apply (writes_bind (put_vint _)); apply writes_vint; [apply small_vint; lia|done].
Qed.

Lemma writes_zero_param id : 0 <= id <= XQC_VINT_MAX -> writes (xqc_put_zero_length_param id) (enc_param (id, [])).
Proof.
  intros Hid. unfold xqc_put_zero_length_param, enc_param. cbn [fst snd]. rewrite zlen_nil, app_nil_r.
  apply (writes_bind (put_vint id)); apply writes_vint; [done|]. by apply small_vint.
Qed.

(** The bytes of an identifier. *)
Definition cid_bytes (cid : xqc_cid_t) : list Z := sub_bytes (cid_buf cid) 0 (cid_len cid).

Definition cid_wf (cid : xqc_cid_t) : Prop := 0 <= cid_len cid <= XQC_MAX_CID_LEN /\ zlen (cid_buf cid) = XQC_MAX_CID_LEN /\ bytes_ok (cid_buf cid).

Lemma zlen_cid_bytes cid : cid_wf cid -> zlen (cid_bytes cid) = cid_len cid.
Proof. intros (Hl & Hz & _). unfold cid_bytes. apply zlen_sub_bytes; lia. Qed.

Lemma writes_cid_param id cid : 0 <= id <= XQC_VINT_MAX -> cid_wf cid -> writes (put_cid_param id cid) (enc_param (id, cid_bytes cid)).
Proof.
  intros Hid Hcid. unfold put_cid_param, enc_param. cbn [fst snd]. rewrite zlen_cid_bytes by done. destruct Hcid as (Hl & Hz & _).
  unfold XQC_MAX_CID_LEN in *. apply (writes_bind (put_vint id)); [by apply writes_vint|].
  apply (writes_bind (put_vint _)); [apply writes_vint, small_vint; lia|]. apply writes_cpymem. lia.
Qed.

Definition pa_bytes (pa : xqc_preferred_addr_t) : list Z :=
  pa_ipv4 pa ++ be_bytes 2 (pa_ipv4_port pa) ++ pa_ipv6 pa ++ be_bytes 2 (pa_ipv6_port pa) ++ [cid_len (pa_cid pa)]
  ++ cid_bytes (pa_cid pa) ++ pa_stateless_reset_token pa.

Definition pa_wf (pa : xqc_preferred_addr_t) : Prop :=
  zlen (pa_ipv4 pa) = 4 /\ bytes_ok (pa_ipv4 pa) /\ 0 <= pa_ipv4_port pa < 2 ^ 16 /\ zlen (pa_ipv6 pa) = 16 /\ bytes_ok (pa_ipv6 pa)
  /\ 0 <= pa_ipv6_port pa < 2 ^ 16 /\ cid_wf (pa_cid pa) /\ zlen (pa_stateless_reset_token pa) = 16
  /\ bytes_ok (pa_stateless_reset_token pa).

Lemma zlen_pa_bytes pa : pa_wf pa -> zlen (pa_bytes pa) = preferred_addrlen pa.
Proof.
  intros (H4 & _ & _ & H6 & _ & _ & Hc & Ht & _). unfold pa_bytes, preferred_addrlen, XQC_STATELESS_RESET_TOKENLEN.
  rewrite !zlen_app, !zlen_be_bytes, zlen_cid_bytes, H4, H6, Ht by done. unfold zlen. simpl. lia.
Qed.

Lemma writes_copy_all data : writes (xqc_cpymem data (zlen data)) data.
Proof.
  pose proof (writes_cpymem data (zlen data)) as H. rewrite sub_bytes_all in H. apply H. pose proof (zlen_nonneg data). lia.
Qed.

Lemma writes_u16 n : writes (put_u16 n) (be_bytes 2 n).
Proof. intros buf p Hp Hfit. unfold put_u16, xqc_put_uint16be. by rewrite zlen_be_bytes. Qed.

Lemma writes_byte b : writes (put_byte b) [b].
Proof. intros buf p Hp Hfit. done. Qed.

Lemma writes_preferred pa : pa_wf pa -> writes (put_preferred_address pa) (enc_param (XQC_TRANSPORT_PARAM_PREFERRED_ADDRESS, pa_bytes pa)).
Proof.
  intros Hwf. unfold enc_param. cbn [fst snd]. rewrite zlen_pa_bytes by done. destruct Hwf as (H4 & _ & _ & H6 & _ & _ & Hc & Ht & _).
  unfold put_preferred_address, pa_bytes, preferred_addrlen, XQC_STATELESS_RESET_TOKENLEN. destruct Hc as (Hcl & Hcz & _). unfold XQC_MAX_CID_LEN in *.
  apply (writes_bind (put_vint _)); [apply writes_vint; by_decide|].
  apply (writes_bind (put_vint _)); [apply writes_vint, small_vint; lia|].
  apply (writes_bind (xqc_cpymem _ 4)); [rewrite <- H4; apply writes_copy_all|].
  apply (writes_bind (put_u16 _)); [apply writes_u16|].
  apply (writes_bind (xqc_cpymem _ 16)); [rewrite <- H6; apply writes_copy_all|].
  apply (writes_bind (put_u16 _)); [apply writes_u16|].
  apply (writes_bind (put_byte _)); [apply writes_byte|].
  apply (writes_bind (xqc_cpymem _ (cid_len (pa_cid pa)))); [apply writes_cpymem; lia|].
  rewrite <- Ht. apply writes_copy_all.
Qed.

Definition schemes_bytes (num : Z) (schemes : list Z) : list Z := vbytes num ++ concat (map vbytes (take (Z.to_nat num) schemes)).

Lemma writes_vints l : Forall (fun v => 0 <= v <= XQC_VINT_MAX) l -> writes (put_vints l) (concat (map vbytes l)).
Proof.
  induction 1 as [|v l Hv Hl IH]; [exact writes_none|]. cbn [map concat].
  pose proof (writes_bind _ _ _ _ (writes_vint v Hv) IH) as H1. intros buf p Hp Hfit. rewrite <- H1 by done.
  unfold put_vints. simpl. destruct (put_vint v (buf, p)) as [c|]; [done|]. simpl. clear. by induction l.
Qed.

Lemma fec_paramslen_spec num schemes : fec_paramslen num schemes = zlen (schemes_bytes num schemes).
Proof.
  unfold fec_paramslen, schemes_bytes. rewrite zlen_app, zlen_vbytes. generalize (xqc_put_varint_len num).
  induction (take (Z.to_nat num) schemes) as [|v l IH]; intros z; simpl; [rewrite zlen_nil; lia|].
  rewrite IH, zlen_app, zlen_vbytes. lia.
Qed.

Definition known_scheme (v : Z) : Prop := xqc_set_fec_scheme v = Some v.

Lemma known_scheme_vint v : known_scheme v -> 0 <= v <= 64.
Proof. unfold known_scheme, xqc_set_fec_scheme. case_if; [|done]. unfold XQC_REED_SOLOMON_CODE, XQC_XOR_CODE, XQC_PACKET_MASK_CODE in *. zb. Qed.

Lemma zlen_schemes num schemes : 0 < num <= XQC_FEC_MAX_SCHEME_NUM -> 0 <= zlen (schemes_bytes num schemes) <= 64.
Proof.
  unfold XQC_FEC_MAX_SCHEME_NUM. intros Hn. split; [apply zlen_nonneg|]. unfold schemes_bytes. rewrite zlen_app, zlen_vbytes.
  pose proof (put_varint_len_range num).
  assert (forall l, zlen (concat (map vbytes l)) <= 8 * Z.of_nat (length l)) as Hl.
  { induction l as [|v l IH]; [done|]. cbn [map concat length]. rewrite zlen_app, zlen_vbytes. pose proof (put_varint_len_range v). lia. }
  specialize (Hl (take (Z.to_nat num) schemes)). rewrite length_take in Hl. lia.
Qed.

Lemma writes_schemes id num schemes : 0 <= id <= XQC_VINT_MAX -> 0 < num <= XQC_FEC_MAX_SCHEME_NUM ->
  Forall known_scheme (take (Z.to_nat num) schemes) ->
  writes (put_fec_schemes id num schemes) (enc_param (id, schemes_bytes num schemes)).
Proof.
  intros Hid Hn Hk. unfold put_fec_schemes, enc_param. cbn [fst snd]. rewrite fec_paramslen_spec. pose proof (zlen_schemes num schemes Hn).
  unfold XQC_FEC_MAX_SCHEME_NUM in *. apply (writes_bind (put_vint id)); [by apply writes_vint|].
  apply (writes_bind (put_vint _)); [apply writes_vint, small_vint; lia|].
  apply (writes_bind (put_vint _)); [apply writes_vint, small_vint; lia|]. apply writes_vints.
  eapply Forall_impl; [exact Hk|]. intros v Hv. by apply small_vint, known_scheme_vint.
Qed.

Definition options_bytes (num : Z) (options : list Z) : list Z := concat (map (be_bytes 4) (take (Z.to_nat num) options)).

Lemma zlen_options num options : 0 <= num <= Z.of_nat (length options) -> zlen (options_bytes num options) = 4 * num.
Proof.
  intros Hn. unfold options_bytes. assert (forall l, zlen (concat (map (be_bytes 4) l)) = 4 * Z.of_nat (length l)) as ->.
  { induction l as [|v l IH]; [done|]. cbn [map concat length]. rewrite zlen_app, zlen_be_bytes, IH. lia. }
  rewrite length_take. lia.
Qed.

Lemma writes_uint32s l : writes (put_uint32s l) (concat (map (be_bytes 4) l)).
Proof.
  assert (forall v, writes (fun c => Some (xqc_put_uint32be (fst c) (snd c) v)) (be_bytes 4 v)) as H1.
  { intros v buf p Hp Hfit. unfold xqc_put_uint32be. by rewrite zlen_be_bytes. }
  induction l as [|v l IH]; [exact writes_none|]. cbn [map concat].
  pose proof (writes_bind _ _ _ _ (H1 v) IH) as H2. intros buf p Hp Hfit. by rewrite <- H2.
Qed.

Lemma writes_options num options : 0 <= num < 256 -> num <= Z.of_nat (length options) ->
  writes (put_conn_options num options) (enc_param (XQC_TRANSPORT_PARAM_GOOGLE_CO, options_bytes num options)).
Proof.
  intros Hn Hl. unfold put_conn_options, enc_param. cbn [fst snd]. rewrite zlen_options by lia.
  assert (1024 <= XQC_VINT_MAX) by by_decide.
  apply (writes_bind (put_vint _)); [apply writes_vint; by_decide|].
  apply (writes_bind (put_vint _)); [apply writes_vint; lia|]. apply writes_uint32s.
Qed.

Lemma vint_max_big : 2 ^ 40 <= XQC_VINT_MAX.
Proof. by_decide. Qed.

(** The ranges of [tp_wf] below are ranges of variable-length integers. *)
Ltac wf_vint H :=
  pose proof vint_max_big; destruct H;
  unfold is_vint, XQC_MIN_UDP_PAYLOAD_SIZE, XQC_MAX_ACK_DELAY_EXPONENT, XQC_MAX_ACK_DELAY, XQC_MAX_RECEIVE_TIMESTAMPS_PER_ACK,
    XQC_MAX_RECEIVE_TIMESTAMPS_EXPONENT in *; (done || (change (1 << 14) with 16384 in *; lia)).

(** ** What is sent *)

Section sent.

Context (fec : bool) (p : xqc_transport_params_t) (exttype : xqc_transport_params_type_t).

Definition path_id_param : Z :=
  if tp_multipath_version p =? XQC_MULTIPATH_3E then XQC_TRANSPORT_PARAM_INIT_MAX_PATH_ID_V21
  else XQC_TRANSPORT_PARAM_INIT_MAX_PATH_ID_V10.

(** The parameters in the order in which they are written. *)
Definition sent : list (Z * list Z) :=
  (if tp_reset_stream_at p then [(XQC_TRANSPORT_PARAM_RESET_STREAM_AT, [])] else [])
  ++ (if tp_original_dest_connection_id_present p
      then [(XQC_TRANSPORT_PARAM_ORIGINAL_DEST_CONNECTION_ID, cid_bytes (tp_original_dest_connection_id p))] else [])
  ++ (if tp_max_idle_timeout p =? 0 then [] else [(XQC_TRANSPORT_PARAM_MAX_IDLE_TIMEOUT, vbytes (tp_max_idle_timeout p))])
  ++ (if is_ee exttype && tp_stateless_reset_token_present p
      then [(XQC_TRANSPORT_PARAM_STATELESS_RESET_TOKEN, tp_stateless_reset_token p)] else [])
  ++ (if tp_max_udp_payload_size p =? XQC_DEFAULT_MAX_UDP_PAYLOAD_SIZE then [] else [(XQC_TRANSPORT_PARAM_MAX_UDP_PAYLOAD_SIZE, vbytes (tp_max_udp_payload_size p))])
  ++ (if tp_initial_max_data p =? 0 then [] else [(XQC_TRANSPORT_PARAM_INITIAL_MAX_DATA, vbytes (tp_initial_max_data p))])
  ++ (if tp_initial_max_stream_data_bidi_local p =? 0 then [] else [(XQC_TRANSPORT_PARAM_INITIAL_MAX_STREAM_DATA_BIDI_LOCAL, vbytes (tp_initial_max_stream_data_bidi_local p))])
  ++ (if tp_initial_max_stream_data_bidi_remote p =? 0 then [] else [(XQC_TRANSPORT_PARAM_INITIAL_MAX_STREAM_DATA_BIDI_REMOTE, vbytes (tp_initial_max_stream_data_bidi_remote p))])
  ++ (if tp_initial_max_stream_data_uni p =? 0 then [] else [(XQC_TRANSPORT_PARAM_INITIAL_MAX_STREAM_DATA_UNI, vbytes (tp_initial_max_stream_data_uni p))])
  ++ (if tp_initial_max_streams_bidi p =? 0 then [] else [(XQC_TRANSPORT_PARAM_INITIAL_MAX_STREAMS_BIDI, vbytes (tp_initial_max_streams_bidi p))])
  ++ (if tp_initial_max_streams_uni p =? 0 then [] else [(XQC_TRANSPORT_PARAM_INITIAL_MAX_STREAMS_UNI, vbytes (tp_initial_max_streams_uni p))])
  ++ (if tp_ack_delay_exponent p =? XQC_DEFAULT_ACK_DELAY_EXPONENT then [] else [(XQC_TRANSPORT_PARAM_ACK_DELAY_EXPONENT, vbytes (tp_ack_delay_exponent p))])
  ++ (if tp_max_ack_delay p =? XQC_DEFAULT_MAX_ACK_DELAY then [] else [(XQC_TRANSPORT_PARAM_MAX_ACK_DELAY, vbytes (tp_max_ack_delay p))])
  ++ (if tp_disable_active_migration p then [(XQC_TRANSPORT_PARAM_DISABLE_ACTIVE_MIGRATION, [])] else [])
  ++ (if sends_preferred_address p exttype
      then [(XQC_TRANSPORT_PARAM_PREFERRED_ADDRESS, pa_bytes (tp_preferred_address p))] else [])
  ++ (if tp_active_connection_id_limit p =? XQC_DEFAULT_ACTIVE_CONNECTION_ID_LIMIT then [] else [(XQC_TRANSPORT_PARAM_ACTIVE_CONNECTION_ID_LIMIT, vbytes (tp_active_connection_id_limit p))])
  ++ (if tp_initial_source_connection_id_present p
      then [(XQC_TRANSPORT_PARAM_INITIAL_SOURCE_CONNECTION_ID, cid_bytes (tp_initial_source_connection_id p))] else [])
  ++ (if tp_retry_source_connection_id_present p
      then [(XQC_TRANSPORT_PARAM_RETRY_SOURCE_CONNECTION_ID, cid_bytes (tp_retry_source_connection_id p))] else [])
  ++ (if tp_max_datagram_frame_size p =? 0 then [] else [(XQC_TRANSPORT_PARAM_MAX_DATAGRAM_FRAME_SIZE, vbytes (tp_max_datagram_frame_size p))])
  ++ (if tp_no_crypto p =? 0 then [] else [(XQC_TRANSPORT_PARAM_NO_CRYPTO, vbytes (tp_no_crypto p))])
  ++ (if tp_enable_multipath p =? 0 then [] else [(path_id_param, vbytes (tp_init_max_path_id p))])
  ++ (if tp_enable_pmtud p =? 0 then [] else [(XQC_TRANSPORT_PARAM_PMTUD_OPTIONS, vbytes (tp_enable_pmtud p))])
  ++ (if tp_close_dgram_redundancy p =? XQC_RED_SET_CLOSE
      then [(XQC_TRANSPORT_PARAM_CLOSE_DGRAM_REDUNDANCY, vbytes (tp_close_dgram_redundancy p))] else [])
  ++ (if tp_conn_option_num p =? 0 then []
      else [(XQC_TRANSPORT_PARAM_GOOGLE_CO, options_bytes (tp_conn_option_num p) (tp_conn_options p))])
  ++ (if fec
      then [(XQC_TRANSPORT_PARAM_FEC_VERSION_02, [])]
           ++ (if sends_encoder_schemes p
               then [(XQC_TRANSPORT_PARAM_FEC_ENCODER_SCHEMES, schemes_bytes (tp_fec_encoder_schemes_num p) (tp_fec_encoder_schemes p));
                     (XQC_TRANSPORT_PARAM_FEC_MAX_SYMBOL_NUM, vbytes (tp_fec_max_symbols_num p))] else [])
           ++ (if sends_decoder_schemes p
               then [(XQC_TRANSPORT_PARAM_FEC_DECODER_SCHEMES, schemes_bytes (tp_fec_decoder_schemes_num p) (tp_fec_decoder_schemes p))]
               else [])
      else [])
  ++ (if tp_extended_ack_features p =? 0 then []
      else [(XQC_TRANSPORT_PARAM_EXTENDED_ACK_FEATURES, vbytes (tp_extended_ack_features p))]
           ++ (if tp_max_receive_timestamps_per_ack p =? 0 then []
               else [(XQC_TRANSPORT_PARAM_MAX_RECEIVE_TIMESTAMPS_PER_ACK, vbytes (tp_max_receive_timestamps_per_ack p))])
           ++ (if tp_receive_timestamps_exponent p =? 0 then []
               else [(XQC_TRANSPORT_PARAM_RECEIVE_TIMESTAMPS_EXPONENT, vbytes (tp_receive_timestamps_exponent p))])).

Definition schemes_wf (num : Z) (schemes : list Z) : Prop :=
  num <= Z.of_nat (length schemes) /\ Forall known_scheme (take (Z.to_nat num) schemes).

(** Values that can be sent: in the ranges of the protocol, and the parameters of a server sent by
    a server only. *)
Record tp_wf : Prop := {
  wf_odcid : tp_original_dest_connection_id_present p = true -> is_ee exttype = true /\ cid_wf (tp_original_dest_connection_id p);
  wf_iscid : tp_initial_source_connection_id_present p = true -> cid_wf (tp_initial_source_connection_id p);
  wf_rscid : tp_retry_source_connection_id_present p = true -> is_ee exttype = true /\ cid_wf (tp_retry_source_connection_id p);
  wf_token : zlen (tp_stateless_reset_token p) = 16 /\ bytes_ok (tp_stateless_reset_token p);
  wf_pa : sends_preferred_address p exttype = true -> pa_wf (tp_preferred_address p);
  wf_idle : is_vint (tp_max_idle_timeout p);
  wf_udp : XQC_MIN_UDP_PAYLOAD_SIZE <= tp_max_udp_payload_size p <= XQC_VINT_MAX;
  wf_data : is_vint (tp_initial_max_data p);
  wf_sdbl : is_vint (tp_initial_max_stream_data_bidi_local p);
  wf_sdbr : is_vint (tp_initial_max_stream_data_bidi_remote p);
  wf_sdu : is_vint (tp_initial_max_stream_data_uni p);
  wf_sb : is_vint (tp_initial_max_streams_bidi p);
  wf_su : is_vint (tp_initial_max_streams_uni p);
  wf_ade : 0 <= tp_ack_delay_exponent p <= XQC_MAX_ACK_DELAY_EXPONENT;
  wf_mad : 0 <= tp_max_ack_delay p < XQC_MAX_ACK_DELAY;
  wf_acil : 2 <= tp_active_connection_id_limit p <= XQC_VINT_MAX;
  wf_dgram : is_vint (tp_max_datagram_frame_size p);
  wf_nc : is_vint (tp_no_crypto p);
  wf_mp : tp_enable_multipath p <> 0 ->
    (tp_multipath_version p = XQC_MULTIPATH_3E \/ tp_multipath_version p = XQC_MULTIPATH_10)
    /\ 0 <= tp_init_max_path_id p <= 0xffffffff;
  wf_pmtud : is_vint (tp_enable_pmtud p);
  wf_co : 0 <= tp_conn_option_num p < 256 /\ tp_conn_option_num p <= Z.of_nat (length (tp_conn_options p));
  wf_enc : sends_encoder_schemes p = true -> schemes_wf (tp_fec_encoder_schemes_num p) (tp_fec_encoder_schemes p);
  wf_dec : sends_decoder_schemes p = true -> schemes_wf (tp_fec_decoder_schemes_num p) (tp_fec_decoder_schemes p)
    /\ tp_fec_encoder_schemes_num p <= XQC_FEC_MAX_SCHEME_NUM;
  wf_sym : is_vint (tp_fec_max_symbols_num p);
  wf_eaf : is_vint (tp_extended_ack_features p);
  wf_mrt : 0 <= tp_max_receive_timestamps_per_ack p <= XQC_MAX_RECEIVE_TIMESTAMPS_PER_ACK;
  wf_rte : 0 <= tp_receive_timestamps_exponent p <= XQC_MAX_RECEIVE_TIMESTAMPS_EXPONENT;
}.

Context (Hwf : tp_wf).

Lemma enc_params_app a b : enc_params (a ++ b) = enc_params a ++ enc_params b.
Proof. unfold enc_params. by rewrite map_app, concat_app. Qed.

Lemma piece_when b w q : (b = true -> writes w (enc_param q)) -> writes (when b w) (enc_params (if b then [q] else [])).
Proof.
  intros Hw. pose proof (writes_when b w (enc_param q) Hw) as H. destruct b; [|done]. unfold enc_params. simpl. by rewrite app_nil_r.
Qed.

Lemma piece_unless b w q : (b = false -> writes w (enc_param q)) -> writes (when (negb b) w) (enc_params (if b then [] else [q])).
Proof.
  intros Hw. pose proof (writes_unless b w (enc_param q) Hw) as H. destruct b; [done|]. unfold enc_params. simpl. by rewrite app_nil_r.
Qed.


Ltac next_piece tac := apply (writes_bind (when _ _)); [tac|].
Ltac vint_piece := next_piece ltac:(apply piece_unless; intros _; apply writes_varint_param; [by_decide|wf_vint Hwf]).

Lemma writes_token : writes (fun c => c ← put_vint XQC_TRANSPORT_PARAM_STATELESS_RESET_TOKEN c;
    c ← put_vint XQC_STATELESS_RESET_TOKENLEN c; xqc_cpymem (tp_stateless_reset_token p) XQC_STATELESS_RESET_TOKENLEN c)
  (enc_param (XQC_TRANSPORT_PARAM_STATELESS_RESET_TOKEN, tp_stateless_reset_token p)).
Proof.
  destruct (wf_token Hwf) as [Hz _]. unfold enc_param. cbn [fst snd]. unfold XQC_STATELESS_RESET_TOKENLEN. rewrite <- Hz.
  apply (writes_bind (put_vint _)); [apply writes_vint; by_decide|].
  apply (writes_bind (put_vint _)); [apply writes_vint; rewrite Hz; by_decide|apply writes_copy_all].
Qed.

Lemma writes_path_id : tp_enable_multipath p <> 0 ->
  writes (fun c => if tp_multipath_version p =? XQC_MULTIPATH_3E
                   then xqc_put_varint_param XQC_TRANSPORT_PARAM_INIT_MAX_PATH_ID_V21 (tp_init_max_path_id p) c
                   else if tp_multipath_version p =? XQC_MULTIPATH_10
                   then xqc_put_varint_param XQC_TRANSPORT_PARAM_INIT_MAX_PATH_ID_V10 (tp_init_max_path_id p) c
                   else Some c)
    (enc_param (path_id_param, vbytes (tp_init_max_path_id p))).
Proof.
  intros Hmp. destruct (wf_mp Hwf Hmp) as [Hv Hid]. pose proof vint_max_big. unfold path_id_param.
  destruct Hv as [-> | ->]; [|change (XQC_MULTIPATH_10 =? XQC_MULTIPATH_3E) with false]; rewrite Z.eqb_refl;
    (apply writes_varint_param; [by_decide|lia]).
Qed.

Lemma sends_encoder_num : sends_encoder_schemes p = true -> 0 < tp_fec_encoder_schemes_num p <= XQC_FEC_MAX_SCHEME_NUM.
Proof. unfold sends_encoder_schemes. intros H. zb. Qed.

Lemma sends_decoder_num : sends_decoder_schemes p = true -> 0 < tp_fec_decoder_schemes_num p <= XQC_FEC_MAX_SCHEME_NUM.
Proof. unfold sends_decoder_schemes. intros H. zb. Qed.

Lemma writes_fec : writes (fun c =>
        c ← xqc_put_zero_length_param XQC_TRANSPORT_PARAM_FEC_VERSION_02 c;
        c ← when (sends_encoder_schemes p) (fun c =>
              c ← put_fec_schemes XQC_TRANSPORT_PARAM_FEC_ENCODER_SCHEMES (tp_fec_encoder_schemes_num p) (tp_fec_encoder_schemes p) c;
              xqc_put_varint_param XQC_TRANSPORT_PARAM_FEC_MAX_SYMBOL_NUM (tp_fec_max_symbols_num p) c) c;
        when (sends_decoder_schemes p && (0 <? tp_fec_decoder_schemes_num p)
              && (tp_fec_encoder_schemes_num p <=? XQC_FEC_MAX_SCHEME_NUM))
          (put_fec_schemes XQC_TRANSPORT_PARAM_FEC_DECODER_SCHEMES (tp_fec_decoder_schemes_num p) (tp_fec_decoder_schemes p)) c)
  (enc_params ([(XQC_TRANSPORT_PARAM_FEC_VERSION_02, [])]
           ++ (if sends_encoder_schemes p
               then [(XQC_TRANSPORT_PARAM_FEC_ENCODER_SCHEMES, schemes_bytes (tp_fec_encoder_schemes_num p) (tp_fec_encoder_schemes p));
                     (XQC_TRANSPORT_PARAM_FEC_MAX_SYMBOL_NUM, vbytes (tp_fec_max_symbols_num p))] else [])
           ++ (if sends_decoder_schemes p
               then [(XQC_TRANSPORT_PARAM_FEC_DECODER_SCHEMES, schemes_bytes (tp_fec_decoder_schemes_num p) (tp_fec_decoder_schemes p))]
               else []))).
Proof.
  rewrite !enc_params_app. apply (writes_bind (xqc_put_zero_length_param _)).
  { unfold enc_params. cbn [map concat]. rewrite app_nil_r. apply writes_zero_param. by_decide. }
  apply (writes_bind (when _ _)).
  - destruct (sends_encoder_schemes p) eqn:E; [|apply writes_none]. destruct (wf_enc Hwf E) as [_ Hk]. apply sends_encoder_num in E.
    unfold enc_params. cbn [map concat]. rewrite app_nil_r. apply (writes_bind (put_fec_schemes _ _ _)).
    + apply writes_schemes; [by_decide|lia|done].
    + apply writes_varint_param; [by_decide|apply Hwf].
  - destruct (sends_decoder_schemes p) eqn:E; [|apply writes_none]. destruct (wf_dec Hwf E) as [[_ Hk] Hle]. apply sends_decoder_num in E.
    rewrite (proj2 (Z.ltb_lt _ _)), (proj2 (Z.leb_le _ _)) by lia.
    unfold enc_params. cbn [map concat]. rewrite app_nil_r. apply writes_schemes; [by_decide|lia|done].
Qed.

Lemma writes_ext_ack : writes (fun c =>
    c ← xqc_put_varint_param XQC_TRANSPORT_PARAM_EXTENDED_ACK_FEATURES (tp_extended_ack_features p) c;
    c ← when (negb (tp_max_receive_timestamps_per_ack p =? 0))
          (xqc_put_varint_param XQC_TRANSPORT_PARAM_MAX_RECEIVE_TIMESTAMPS_PER_ACK (tp_max_receive_timestamps_per_ack p)) c;
    when (negb (tp_receive_timestamps_exponent p =? 0))
      (xqc_put_varint_param XQC_TRANSPORT_PARAM_RECEIVE_TIMESTAMPS_EXPONENT (tp_receive_timestamps_exponent p)) c)
  (enc_params ([(XQC_TRANSPORT_PARAM_EXTENDED_ACK_FEATURES, vbytes (tp_extended_ack_features p))]
           ++ (if tp_max_receive_timestamps_per_ack p =? 0 then []
               else [(XQC_TRANSPORT_PARAM_MAX_RECEIVE_TIMESTAMPS_PER_ACK, vbytes (tp_max_receive_timestamps_per_ack p))])
           ++ (if tp_receive_timestamps_exponent p =? 0 then []
               else [(XQC_TRANSPORT_PARAM_RECEIVE_TIMESTAMPS_EXPONENT, vbytes (tp_receive_timestamps_exponent p))]))).
Proof.
  rewrite !enc_params_app. apply (writes_bind (xqc_put_varint_param _ _)).
  { unfold enc_params. cbn [map concat]. rewrite app_nil_r. apply writes_varint_param; [by_decide|wf_vint Hwf]. }
  vint_piece. apply piece_unless. intros _. apply writes_varint_param; [by_decide|wf_vint Hwf].
Qed.

Lemma enc_params_if (b : bool) l : enc_params (if b then l else []) = if b then enc_params l else [].
Proof. by destruct b. Qed.

Lemma enc_params_unless (b : bool) l : enc_params (if b then [] else l) = if b then [] else enc_params l.
Proof. by destruct b. Qed.

Lemma write_params_spec : writes (write_params fec p exttype) (enc_params sent).
Proof.
  unfold write_params, sent. rewrite !enc_params_app.
  next_piece ltac:(apply piece_when; intros _; apply writes_zero_param; by_decide).
  next_piece ltac:(apply piece_when; intros E; apply writes_cid_param; [by_decide|by apply wf_odcid]).
  vint_piece.
  next_piece ltac:(apply piece_when; intros _; apply writes_token).
  do 9 vint_piece.
  next_piece ltac:(apply piece_when; intros _; apply writes_zero_param; by_decide).
  next_piece ltac:(apply piece_when; intros E; apply writes_preferred; by apply wf_pa).
  vint_piece.
  next_piece ltac:(apply piece_when; intros E; apply writes_cid_param; [by_decide|by apply wf_iscid]).
  next_piece ltac:(apply piece_when; intros E; apply writes_cid_param; [by_decide|by apply wf_rscid]).
  do 2 vint_piece.
  next_piece ltac:(apply piece_unless; intros E; apply writes_path_id; zb).
  vint_piece.
  next_piece ltac:(apply piece_when; intros E; apply writes_varint_param; [by_decide|zify_bools; rewrite E; by_decide]).
  next_piece ltac:(apply piece_unless; intros _; apply writes_options; apply (wf_co Hwf)).
  apply (writes_bind (when _ _)); [rewrite enc_params_if; apply writes_when; intros _; apply writes_fec|].
  rewrite enc_params_unless. apply writes_unless. intros _. apply writes_ext_ack.
Qed.

Lemma zlen_if (b : bool) (l : list Z) : zlen (if b then l else []) = if b then zlen l else 0.
Proof. by destruct b. Qed.

Lemma zlen_unless (b : bool) (l : list Z) : zlen (if b then [] else l) = if b then 0 else zlen l.
Proof. by destruct b. Qed.

Lemma zlen_enc_one q : zlen (enc_params [q]) = xqc_put_varint_len (fst q) + xqc_put_varint_len (zlen (snd q)) + zlen (snd q).
Proof. unfold enc_params, enc_param. cbn [map concat]. rewrite app_nil_r, !zlen_app, !zlen_vbytes. lia. Qed.

Lemma if_eq (b : bool) x y : (b = true -> x = y) -> (if b then x else 0) = (if b then y else 0).
Proof. destruct b; auto. Qed.

Lemma unless_eq (b : bool) x y : (b = false -> x = y) -> (if b then 0 else x) = (if b then 0 else y).
Proof. destruct b; auto. Qed.

Lemma cid_param_len_if (b : bool) id cid : (b = true -> cid_wf cid) ->
  (if b then xqc_put_varint_len id + xqc_put_varint_len (zlen (cid_bytes cid)) + zlen (cid_bytes cid) else 0)
  = if b then cid_param_len id cid else 0.
Proof. intros Hc. apply if_eq. intros Hb. by rewrite zlen_cid_bytes by auto. Qed.

Lemma path_id_len :
  (if tp_enable_multipath p =? 0 then 0
   else xqc_put_varint_len path_id_param + xqc_put_varint_len (xqc_put_varint_len (tp_init_max_path_id p))
        + xqc_put_varint_len (tp_init_max_path_id p))
  = if tp_enable_multipath p =? 0 then 0
    else if tp_multipath_version p =? XQC_MULTIPATH_3E
    then varint_param_len XQC_TRANSPORT_PARAM_INIT_MAX_PATH_ID_V21 (tp_init_max_path_id p)
    else if tp_multipath_version p =? XQC_MULTIPATH_10
    then varint_param_len XQC_TRANSPORT_PARAM_INIT_MAX_PATH_ID_V10 (tp_init_max_path_id p) else 0.
Proof.
  apply unless_eq. intros Hmp. destruct (wf_mp Hwf ltac:(zb)) as [Hv _]. unfold path_id_param, varint_param_len.
  destruct Hv as [-> | ->]; [|change (XQC_MULTIPATH_10 =? XQC_MULTIPATH_3E) with false]; by rewrite Z.eqb_refl.
Qed.

Lemma pmtud_len x : is_vint (tp_enable_pmtud p) ->
  (if tp_enable_pmtud p =? 0 then 0 else x) = if 0 <? tp_enable_pmtud p then x else 0.
Proof. unfold is_vint. intros Hv. case_if; case_if; zb. Qed.

Lemma calc_length_spec : xqc_transport_params_calc_length fec p exttype = zlen (enc_params sent).
Proof.
  unfold sent. rewrite !enc_params_app, !zlen_app. unfold xqc_transport_params_calc_length.
  rewrite !enc_params_if, !enc_params_unless, !zlen_if, !zlen_unless, !zlen_enc_one. cbn [fst snd]. rewrite !zlen_vbytes.
  rewrite !enc_params_app, !zlen_app, !zlen_enc_one. cbn [fst snd].
  rewrite !enc_params_if, !enc_params_unless, !zlen_if, !zlen_unless, !zlen_enc_one. cbn [fst snd]. rewrite !zlen_vbytes, zlen_nil.
  rewrite !cid_param_len_if by (intros; by apply Hwf). rewrite path_id_len, pmtud_len by apply Hwf.
  destruct (wf_token Hwf) as [-> _]. destruct (wf_co Hwf) as [Hco1 Hco2]. rewrite zlen_options, <- !fec_paramslen_spec by lia.
  assert (forall q r, enc_params [q; r] = enc_params [q] ++ enc_params [r]) as -> by (intros; apply (enc_params_app [_])).
  rewrite zlen_app, !zlen_enc_one. cbn [fst snd]. rewrite zlen_vbytes, <- fec_paramslen_spec.
  rewrite (if_eq (sends_preferred_address p exttype) (_ + xqc_put_varint_len (zlen _) + zlen _)
    (xqc_put_varint_len XQC_TRANSPORT_PARAM_PREFERRED_ADDRESS
      + xqc_put_varint_len (preferred_addrlen (tp_preferred_address p)) + preferred_addrlen (tp_preferred_address p)))
    by (intros Hpa; by rewrite zlen_pa_bytes by (by apply (wf_pa Hwf))).
  unfold varint_param_len, XQC_STATELESS_RESET_TOKENLEN. rewrite (Z.mul_comm (tp_conn_option_num p)).
  rewrite !Z.add_0_r. destruct fec, (sends_encoder_schemes p), (sends_decoder_schemes p), (tp_extended_ack_features p =? 0); ring.
Qed.

Lemma encode_spec out out_cap : zlen (enc_params sent) <= out_cap -> out_cap <= zlen out ->
  xqc_encode_transport_params fec p exttype out out_cap = Some (Ok (wr out 0 (enc_params sent), zlen (enc_params sent))).
Proof.
  intros H1 H2. unfold xqc_encode_transport_params. rewrite calc_length_spec. case_if; [zb|].
  rewrite write_params_spec by lia. simpl. by rewrite Z.eqb_refl.
Qed.

End sent.

(** ** A decoder reads the value of its parameter only *)

Lemma sub_sub buf p n q m : 0 <= p -> 0 <= q -> 0 <= m -> q + m <= n -> sub_bytes (sub_bytes buf p n) q m = sub_bytes buf (p + q) m.
Proof.
  intros Hp Hq Hm Hn. unfold sub_bytes. replace (Z.to_nat n) with (Z.to_nat q + Z.to_nat (n - q))%nat by lia.
  rewrite <- take_drop_commute, take_take, drop_drop. f_equal; [lia|]. f_equal. lia.
Qed.

Lemma vint_read_pos buf q e w l : xqc_vint_read buf q e = Some (w, l) -> 0 < l.
Proof.
  unfold xqc_vint_read. case_if; [done|]. destruct (_ >> 6) as [|[[?|?|]|[?|?|]|]|?]; repeat case_if; intros ?; simplify_eq; lia.
Qed.

Section local.

Context (fec : bool) (exttype : xqc_transport_params_type_t) (in_ : list Z) (p len type : Z).
Context (Hp : 0 <= p) (Hlen : 0 <= len) (Hfit : p + len <= zlen in_) (Hin : bytes_ok in_).

Let v : list Z := sub_bytes in_ p len.

Lemma vint_read_local q : 0 <= q -> xqc_vint_read in_ (p + q) (p + len) = xqc_vint_read v q len.
Proof.
  intros Hq. unfold xqc_vint_read. replace (p + len <=? p + q) with (len <=? q) by (destruct (Z.leb_spec len q), (Z.leb_spec (p + len) (p + q)); lia).
  destruct (Z.leb_spec len q) as [|Hl]; [done|]. unfold v. rewrite (rd_sub in_ p len q) by lia.
  assert (forall k, 0 <= k -> (p + len <=? p + q + k) = (len <=? q + k)) as He.
  { intros k Hk. destruct (Z.leb_spec len (q + k)), (Z.leb_spec (p + len) (p + q + k)); lia. }
  destruct (rd in_ (p + q) >> 6) as [|[[?|?|]|[?|?|]|]|?]; rewrite ?He by lia; try done;
    (case_if; [done|]; zify_bools; rewrite ?rd_sub, ?sub_sub by lia; rewrite ?Z.add_assoc; done).
Qed.

Lemma read_local : xqc_vint_read in_ p (p + len) = xqc_vint_read v 0 len.
Proof. rewrite <- (Z.add_0_r p) at 1. by apply vint_read_local. Qed.

Lemma sub_local q m : 0 <= q -> 0 <= m -> q + m <= len -> sub_bytes in_ (p + q) m = sub_bytes v q m.
Proof. intros. unfold v. by rewrite sub_sub by lia. Qed.

Lemma value_local : sub_bytes in_ p len = sub_bytes v 0 len.
Proof. rewrite <- (Z.add_0_r p) at 1. apply sub_local; lia. Qed.

Lemma checked_local set ok t : decode_checked in_ p (p + len) set ok t = decode_checked v 0 len set ok t.
Proof. unfold decode_checked. by rewrite read_local. Qed.

Lemma vint_value_local set t : XQC_DECODE_VINT_VALUE in_ p (p + len) set t = XQC_DECODE_VINT_VALUE v 0 len set t.
Proof. unfold XQC_DECODE_VINT_VALUE. by rewrite read_local. Qed.

Lemma preferred_local t :
  xqc_decode_preferred_address exttype in_ p (p + len) len t = xqc_decode_preferred_address exttype v 0 len len t.
Proof.
  unfold xqc_decode_preferred_address, xqc_get_uint16, XQC_STATELESS_RESET_TOKENLEN. case_if; [done|].
  replace (p + len - p) with len by lia. rewrite Z.sub_0_r. case_if; [done|]. case_if; [done|].
  assert (forall x, p + len - (p + x) = len - x) as Hs by lia. rewrite Hs, Z.add_0_l. case_if; [done|].
  rewrite <- !Z.add_assoc, !Hs, !Z.add_0_l. case_if; [done|]. zify_bools.
  assert (rd in_ (p + (6 + 18)) = rd v (6 + 18)) as Hc by (unfold v; by rewrite rd_sub by lia). rewrite Hc.
  assert (is_byte (rd v (6 + 18))) as Hcb by (rewrite <- Hc; by apply rd_is_byte). set (c := rd v (6 + 18)) in *. clearbody c. unfold is_byte in Hcb.
  case_if; [done|]. case_if; [done|]. zify_bools. do 2 f_equal. rewrite <- (Z.add_0_r p) at 1. rewrite !sub_local by lia. done.
Qed.

Lemma schemes_loop_local n q curr schemes cnt m k : 0 <= q -> xqc_vint_read v 0 len = Some (m, k) -> 0 < k ->
  schemes_loop in_ (p + len) n (p + q) curr schemes cnt = schemes_loop v len n q curr schemes cnt.
Proof.
  intros Hq H0 Hk. revert q curr schemes cnt Hq. induction n as [|n IH]; intros q curr schemes cnt Hq; [done|].
  cbn [schemes_loop]. rewrite vint_read_local by done. destruct (xqc_vint_read v q len) as [[w l]|] eqn:Er.
  - destruct (xqc_set_fec_scheme w); rewrite <- Z.add_assoc; apply IH; apply vint_read_pos in Er; lia.
  - assert (q <> 0) by (intros ->; congruence).
    destruct (xqc_set_fec_scheme curr); rewrite <- Z.add_assoc; apply IH; lia.
Qed.

Lemma schemes_local set schemes t : decode_schemes in_ p (p + len) set schemes t = decode_schemes v 0 len set schemes t.
Proof.
  unfold decode_schemes. rewrite read_local. destruct (xqc_vint_read v 0 len) as [[n l]|] eqn:Er; [|done].
  case_if; [done|]. rewrite Z.add_0_l. pose proof (vint_read_pos _ _ _ _ _ Er).
  by rewrite (schemes_loop_local _ _ _ _ _ n l) by (done || lia).
Qed.

Lemma decode_local t :
  option_map (fun f => f t) (xqc_trans_param_decode_func fec exttype in_ p (p + len) type len)
  = option_map (fun f => f t) (xqc_trans_param_decode_func fec exttype v 0 len type len).
Proof.
  unfold xqc_trans_param_decode_func.
  repeat (case_if; [simpl; f_equal; try apply vint_value_local; try apply checked_local; try apply schemes_local; try apply preferred_local|]).
  8: done.
  - unfold xqc_decode_original_dest_cid. by rewrite value_local.
  - unfold xqc_decode_stateless_token. rewrite value_local. replace (p + len - p) with len by lia. by rewrite Z.sub_0_r.
  - unfold xqc_decode_initial_scid. by rewrite value_local.
  - unfold xqc_decode_retry_scid. by rewrite value_local.
  - unfold xqc_decode_enable_multipath. case_if; [|done]. apply checked_local.
  - unfold xqc_decode_close_dgram_redundancy. by rewrite read_local.
  - unfold xqc_decode_receive_timestamps_exponent. by rewrite read_local.
Qed.

End local.

(** ** The decoder works through the list of parameters *)

Definition apply_param (fec : bool) (exttype : xqc_transport_params_type_t) (q : Z * list Z) (t : xqc_transport_params_t)
    : res xqc_transport_params_t :=
  match xqc_trans_param_decode_func fec exttype (snd q) 0 (zlen (snd q)) (fst q) (zlen (snd q)) with
  | None => Ok t
  | Some decode => match decode t with Err _ => Err XQC_TLS_MALFORMED_TRANSPORT_PARAM | Ok t => Ok t end
  end.

Fixpoint apply_params (fec : bool) (exttype : xqc_transport_params_type_t) (l : list (Z * list Z)) (t : xqc_transport_params_t)
    : res xqc_transport_params_t :=
  match l with
  | [] => Ok t
  | q :: l => match apply_param fec exttype q t with Err e => Err e | Ok t => apply_params fec exttype l t end
  end.

Definition param_ok (q : Z * list Z) : Prop := is_vint (fst q) /\ zlen (snd q) <= XQC_VINT_MAX.

Lemma zlen_enc_param q : zlen (enc_param q) = xqc_put_varint_len (fst q) + xqc_put_varint_len (zlen (snd q)) + zlen (snd q).
Proof. unfold enc_param. rewrite !zlen_app, !zlen_vbytes. lia. Qed.

Lemma decode_one_spec fec exttype in_ p e q t : bytes_ok in_ -> param_ok q -> bytes_at in_ p (enc_param q) ->
  p + zlen (enc_param q) <= e -> e <= zlen in_ ->
  xqc_decode_one_transport_param fec exttype in_ p e t
  = match apply_param fec exttype q t with Err e => Err e | Ok t => Ok (t, p + zlen (enc_param q)) end.
Proof.
  intros Hin [Hid Hv] Hat Hfit He. pose proof (zlen_nonneg (snd q)). pose proof (put_varint_len_range (fst q)).
  pose proof (put_varint_len_range (zlen (snd q))). rewrite zlen_enc_param in *. unfold enc_param in Hat.
  apply bytes_at_app in Hat as [Ha1 Hat]. apply bytes_at_app in Hat as [Ha2 Ha3]. rewrite !zlen_vbytes in *.
  pose proof (bytes_at_nonneg _ _ _ Ha1). unfold xqc_decode_one_transport_param, apply_param.
  rewrite (vint_read_bytes _ _ _ (fst q)) by (done || lia). rewrite (vint_read_bytes _ _ _ (zlen (snd q))) by (done || lia).
  case_if; [zb|]. pose proof (bytes_at_sub _ _ _ Ha3) as Hval.
  set (p' := p + xqc_put_varint_len (fst q) + xqc_put_varint_len (zlen (snd q))) in *.
  pose proof (decode_local fec exttype in_ p' (zlen (snd q)) (fst q) ltac:(lia) ltac:(lia) ltac:(lia) Hin t) as Hl. rewrite Hval in Hl.
  replace (p + (xqc_put_varint_len (fst q) + xqc_put_varint_len (zlen (snd q)) + zlen (snd q))) with (p' + zlen (snd q)) by (unfold p'; lia).
  destruct (xqc_trans_param_decode_func fec exttype in_ p' _ _ _) as [f|], (xqc_trans_param_decode_func fec exttype (snd q) 0 _ _ _) as [g|];
    simpl in Hl; try done. injection Hl as ->. by destruct (g t).
Qed.

Lemma decode_loop_spec fec exttype in_ l : bytes_ok in_ -> Forall param_ok l ->
  forall fuel p t, bytes_at in_ p (enc_params l) -> p + zlen (enc_params l) <= zlen in_ -> (length l <= fuel)%nat ->
  decode_loop fec fuel exttype in_ p (p + zlen (enc_params l)) t = apply_params fec exttype l t.
Proof.
  intros Hin Hl. induction Hl as [|q l Hq Hl IH]; intros fuel p t Hat Hfit Hfuel.
  - unfold enc_params. cbn [map concat apply_params]. rewrite zlen_nil, Z.add_0_r. destruct fuel; simpl; rewrite Z.ltb_irrefl, Z.eqb_refl; done.
  - change (enc_params (q :: l)) with (enc_param q ++ enc_params l) in *. rewrite zlen_app in *. apply bytes_at_app in Hat as [H1 H2].
    destruct fuel as [|fuel]; [simpl in Hfuel; lia|]. cbn [decode_loop apply_params]. pose proof (zlen_nonneg (enc_params l)).
    pose proof (zlen_enc_param q) as Hz. pose proof (put_varint_len_range (fst q)). pose proof (put_varint_len_range (zlen (snd q))).
    pose proof (zlen_nonneg (snd q)). case_if; [|zb]. rewrite (decode_one_spec _ _ _ _ _ q) by (done || lia).
    destruct (apply_param fec exttype q t) as [t'|]; [|done]. rewrite Z.add_assoc. apply IH; [done|lia|simpl in Hfuel; lia].
Qed.

Lemma length_enc_params l : Z.of_nat (length l) <= zlen (enc_params l).
Proof.
  induction l as [|q l IH]; [done|]. change (enc_params (q :: l)) with (enc_param q ++ enc_params l). rewrite zlen_app, zlen_enc_param.
  pose proof (put_varint_len_range (fst q)). pose proof (put_varint_len_range (zlen (snd q))). pose proof (zlen_nonneg (snd q)). simpl length. lia.
Qed.

Lemma decode_spec fec exttype l t : bytes_ok (enc_params l) -> Forall param_ok l ->
  xqc_decode_transport_params fec t exttype (enc_params l) (zlen (enc_params l)) = apply_params fec exttype l (set_defaults t).
Proof.
  intros Hb Hl. unfold xqc_decode_transport_params. rewrite <- (Z.add_0_l (zlen (enc_params l))) at 2. pose proof (length_enc_params l).
  apply decode_loop_spec; try done; [|lia]. split; [done|]. apply sub_bytes_all.
Qed.

(** ** What the other end learns *)

Section received.

Context (fec : bool) (exttype : xqc_transport_params_type_t).

Lemma apply_params_app a l t :
  apply_params fec exttype (a ++ l) t
  = match apply_params fec exttype a t with Err e => Err e | Ok t => apply_params fec exttype l t end.
Proof. revert t. induction a as [|q a IH]; intros t; [done|]. cbn [app apply_params]. destruct (apply_param fec exttype q t); [apply IH|done]. Qed.

Lemma read_vbytes v : is_vint v -> xqc_vint_read (vbytes v) 0 (zlen (vbytes v)) = Some (v, xqc_put_varint_len v).
Proof.
  intros Hv. apply vint_read_bytes; try done; [apply vbytes_ok| |by rewrite zlen_vbytes]. split; [done|apply sub_bytes_all].
Qed.

(** The decoder of the parameter [q]. *)
Abbreviation decoder q := (xqc_trans_param_decode_func fec exttype (snd q) 0 (zlen (snd q)) (fst q) (zlen (snd q))).

Lemma piece_apply q f t : decoder q = Some f -> apply_params fec exttype [q] t
  = match f t with Err _ => Err XQC_TLS_MALFORMED_TRANSPORT_PARAM | Ok t => Ok t end.
Proof. intros Hd. cbn [apply_params]. unfold apply_param. rewrite Hd. by destruct (f t). Qed.

(** A number that is sent unless it is the default. *)
Lemma piece_vint (b : bool) id v set t : is_vint v ->
  decoder (id, vbytes v) = Some (XQC_DECODE_VINT_VALUE (vbytes v) 0 (zlen (vbytes v)) set) ->
  (b = true -> set v t = t) -> apply_params fec exttype (if b then [] else [(id, vbytes v)]) t = Ok (set v t).
Proof.
  intros Hv Hd Hs. destruct b; [by rewrite Hs|]. rewrite (piece_apply _ _ _ Hd). unfold XQC_DECODE_VINT_VALUE. by rewrite read_vbytes.
Qed.

Lemma piece_checked (b : bool) id v set ok t : is_vint v -> ok v = true ->
  decoder (id, vbytes v) = Some (decode_checked (vbytes v) 0 (zlen (vbytes v)) set ok) ->
  (b = true -> set v t = t) -> apply_params fec exttype (if b then [] else [(id, vbytes v)]) t = Ok (set v t).
Proof.
  intros Hv Hok Hd Hs. destruct b; [by rewrite Hs|]. rewrite (piece_apply _ _ _ Hd). unfold decode_checked. by rewrite read_vbytes, Hok.
Qed.

(** A piece whose effect is [t'] when it is sent, and whose absence stands for [t'] as well. *)
Lemma piece_if (b : bool) l t t' : (b = true -> apply_params fec exttype l t = Ok t') -> (b = false -> t = t') ->
  apply_params fec exttype (if b then l else []) t = Ok t'.
Proof. destruct b; intros H1 H2; [by apply H1|by rewrite (H2 eq_refl)]. Qed.

Lemma piece_else (b : bool) l t t' : (b = false -> apply_params fec exttype l t = Ok t') -> (b = true -> t = t') ->
  apply_params fec exttype (if b then [] else l) t = Ok t'.
Proof. destruct b; intros H1 H2; [by rewrite (H2 eq_refl)|by apply H1]. Qed.

(** The schemes overwrite the front of the array. *)
Lemma schemes_loop_spec buf e l : bytes_ok buf -> e <= zlen buf -> Forall known_scheme l -> forall q curr schemes cnt,
  0 <= cnt -> bytes_at buf q (concat (map vbytes l)) -> q + zlen (concat (map vbytes l)) <= e ->
  schemes_loop buf e (length l) q curr schemes cnt = (list_inserts (Z.to_nat cnt) l schemes, cnt + Z.of_nat (length l)).
Proof.
  intros Hb He Hk. induction Hk as [|v l Hv Hk IH]; intros q curr schemes cnt Hc Hat Hfit; [simpl; f_equal; lia|].
  cbn [map concat length schemes_loop] in *. rewrite zlen_app, zlen_vbytes in Hfit. pose proof (zlen_nonneg (concat (map vbytes l))).
  apply bytes_at_app in Hat as [H1 H2]. rewrite zlen_vbytes in H2.
  rewrite (vint_read_bytes _ _ _ v) by (done || lia || (by apply small_vint, known_scheme_vint)). rewrite Hv.
  rewrite IH by (done || lia). f_equal; [|lia]. cbn [list_inserts]. replace (Z.to_nat (cnt + 1)) with (S (Z.to_nat cnt)) by lia.
  symmetry. apply list_insert_inserts_lt. lia.
Qed.

Lemma piece_schemes id set sel num schemes t : 0 < num <= XQC_FEC_MAX_SCHEME_NUM -> schemes_wf num schemes ->
  decoder (id, schemes_bytes num schemes)
    = Some (fun t => decode_schemes (schemes_bytes num schemes) 0 (zlen (schemes_bytes num schemes)) set (sel t) t) ->
  apply_params fec exttype [(id, schemes_bytes num schemes)] t
  = Ok (set 1 (list_inserts 0 (take (Z.to_nat num) schemes) (sel t)) num t).
Proof.
  intros Hn [Hl Hk] Hd. rewrite (piece_apply _ _ _ Hd). unfold decode_schemes. set (B := schemes_bytes num schemes).
  assert (bytes_ok B) as HB.
  { unfold B, schemes_bytes. apply bytes_ok_app. split; [apply vbytes_ok|]. clear. induction (take (Z.to_nat num) schemes) as [|v l IH]; [constructor|].
    cbn [map concat]. apply bytes_ok_app. split; [apply vbytes_ok|done]. }
  assert (bytes_at B 0 B) as Hat by (split; [done|apply sub_bytes_all]). unfold B at 2, schemes_bytes in Hat. apply bytes_at_app in Hat as [H1 H2].
  rewrite zlen_vbytes in H2. assert (zlen B = xqc_put_varint_len num + zlen (concat (map vbytes (take (Z.to_nat num) schemes)))) as HzB
    by (unfold B, schemes_bytes; by rewrite zlen_app, zlen_vbytes). pose proof (zlen_nonneg (concat (map vbytes (take (Z.to_nat num) schemes)))).
  unfold XQC_FEC_MAX_SCHEME_NUM in *. rewrite (vint_read_bytes _ _ _ num) by (done || lia || (apply small_vint; lia)).
  case_if; [zb|]. replace (Z.to_nat num) with (length (take (Z.to_nat num) schemes)) at 1 by (rewrite length_take; lia).
  rewrite schemes_loop_spec by (done || lia). rewrite length_take. do 2 f_equal. lia.
Qed.

Definition learn_cid (c0 cid : xqc_cid_t) : xqc_cid_t := CidSet.xqc_cid_set c0 (cid_bytes cid) (cid_len cid).

Definition learn_pa (pa0 pa : xqc_preferred_addr_t) : xqc_preferred_addr_t :=
  mk_pa (pa_ipv4 pa) (pa_ipv4_port pa) (pa_ipv6 pa) (pa_ipv6_port pa) (learn_cid (pa_cid pa0) (pa_cid pa)) (pa_stateless_reset_token pa).

Lemma port_value n : 0 <= n < 2 ^ 16 -> be_val (be_bytes 2 n) = n.
Proof. intros Hn. apply be_val_be_bytes_small. simpl. lia. Qed.

Lemma piece_pa pa t : is_ee exttype = true -> pa_wf pa -> 0 < cid_len (pa_cid pa) ->
  xqc_decode_preferred_address exttype (pa_bytes pa) 0 (zlen (pa_bytes pa)) (zlen (pa_bytes pa)) t
  = Ok (set_preferred_address (learn_pa (tp_preferred_address t) pa) true t).
Proof.
  intros Hee Hwf Hpos. assert (bytes_at (pa_bytes pa) 0 (pa_bytes pa)) as Hat by (split; [done|apply sub_bytes_all]).
  unfold pa_bytes in Hat at 2. rewrite zlen_pa_bytes by done. destruct Hwf as (H4 & _ & Hp4 & H6 & _ & Hp6 & Hc & Ht & _).
  set (B := pa_bytes pa) in *. clearbody B.
  apply bytes_at_app in Hat as [B1 Hat]. apply bytes_at_app in Hat as [B2 Hat]. apply bytes_at_app in Hat as [B3 Hat].
  apply bytes_at_app in Hat as [B4 Hat]. apply bytes_at_app in Hat as [B5 Hat]. apply bytes_at_app in Hat as [B6 B7].
  apply bytes_at_rd in B5. apply bytes_at_sub in B1, B2, B3, B4, B6, B7. rewrite ?H4, ?H6, ?Ht, ?zlen_be_bytes, ?zlen_cid_bytes in * by done.
  change (zlen [cid_len (pa_cid pa)]) with 1 in *. change (Z.of_nat 2) with 2 in *.
  change (0 + 4 + 2 + 16 + 2) with 24 in *. change (0 + 4 + 2 + 16) with 22 in *. change (0 + 4 + 2) with 6 in *.
  destruct Hc as (Hcl & _ & _). unfold XQC_MAX_CID_LEN in Hcl.
  unfold xqc_decode_preferred_address, preferred_addrlen, xqc_get_uint16, XQC_STATELESS_RESET_TOKENLEN, XQC_MAX_CID_LEN.
  rewrite Hee. change (0 + 6 + 18) with 24. change (0 + 6 + 16) with 22. change (0 + 6) with 6. rewrite B5. cbn [negb]. set (c := cid_len (pa_cid pa)) in *.
  repeat (case_if; [zb|]). do 2 f_equal. unfold learn_pa, learn_cid.
  rewrite <- B1, <- (port_value (pa_ipv4_port pa)), <- B2, <- B3, <- (port_value (pa_ipv6_port pa)), <- B4, <- B6, <- B7 by done. done.
Qed.

(** What the other end holds after decoding, in a structure that held [t] before. *)
Definition received (p t : xqc_transport_params_t) : xqc_transport_params_t :=
  let mp := negb (tp_enable_multipath p =? 0) in
  let enc := fec && sends_encoder_schemes p in
  let dec := fec && sends_decoder_schemes p in
  let ts := negb (tp_extended_ack_features p =? 0) in
  mk_tp
    (if sends_preferred_address p exttype then learn_pa (tp_preferred_address t) (tp_preferred_address p) else tp_preferred_address t)
    (sends_preferred_address p exttype)
    (if tp_original_dest_connection_id_present p
     then learn_cid (tp_original_dest_connection_id t) (tp_original_dest_connection_id p) else tp_original_dest_connection_id t)
    (tp_original_dest_connection_id_present p)
    (tp_max_idle_timeout p)
    (if is_ee exttype && tp_stateless_reset_token_present p then tp_stateless_reset_token p else tp_stateless_reset_token t)
    (is_ee exttype && tp_stateless_reset_token_present p)
    (tp_max_udp_payload_size p) (tp_initial_max_data p) (tp_initial_max_stream_data_bidi_local p)
    (tp_initial_max_stream_data_bidi_remote p) (tp_initial_max_stream_data_uni p) (tp_initial_max_streams_bidi p)
    (tp_initial_max_streams_uni p) (tp_ack_delay_exponent p) (tp_max_ack_delay p) (tp_disable_active_migration p)
    (tp_active_connection_id_limit p)
    (let c0 := with_cid_len (tp_initial_source_connection_id t) 0 in
     if tp_initial_source_connection_id_present p then learn_cid c0 (tp_initial_source_connection_id p) else c0)
    (tp_initial_source_connection_id_present p)
    (let c0 := with_cid_len (tp_retry_source_connection_id t) 0 in
     if tp_retry_source_connection_id_present p then learn_cid c0 (tp_retry_source_connection_id p) else c0)
    (tp_retry_source_connection_id_present p)
    (tp_max_datagram_frame_size p) (tp_reset_stream_at p) (tp_no_crypto p)
    (if mp then 1 else 0) (if mp then tp_multipath_version p else XQC_ERR_MULTIPATH_VERSION) (if mp then tp_init_max_path_id p else 0)
    (tp_conn_options t) (tp_conn_option_num t)
    (if fec then XQC_FEC_02 else XQC_ERR_FEC_VERSION) (if enc then 1 else 0) (if dec then 1 else 0)
    (if enc then tp_fec_max_symbols_num p else 0)
    (if enc then list_inserts 0 (take (Z.to_nat (tp_fec_encoder_schemes_num p)) (tp_fec_encoder_schemes p)) (tp_fec_encoder_schemes t)
     else tp_fec_encoder_schemes t)
    (if dec then list_inserts 0 (take (Z.to_nat (tp_fec_decoder_schemes_num p)) (tp_fec_decoder_schemes p)) (tp_fec_decoder_schemes t)
     else tp_fec_decoder_schemes t)
    (if enc then tp_fec_encoder_schemes_num p else 0) (if dec then tp_fec_decoder_schemes_num p else 0)
    (if tp_close_dgram_redundancy p =? XQC_RED_SET_CLOSE then XQC_RED_SET_CLOSE else XQC_RED_NOT_USE) (tp_enable_pmtud p)
    (tp_extended_ack_features p) (if ts then tp_max_receive_timestamps_per_ack p else 0)
    (if ts then tp_receive_timestamps_exponent p else 0).

Context (p : xqc_transport_params_t) (Hwf : tp_wf p exttype).

(** Steps over one piece of [sent], with the structure written out. *)
Ltac by_table := unfold fst, snd; destruct fec; reflexivity.
Ltac keep t := let E := fresh in intros E; zify_bools; destruct t; cbn; by rewrite E.
Ltac vint_step t set' :=
  rewrite apply_params_app, (piece_vint _ _ _ set'); [|apply Hwf|by_table|keep t].
Ltac checked_step t set' ok' :=
  rewrite apply_params_app, (piece_checked _ _ _ set' ok'); [|wf_vint Hwf|destruct Hwf; zb|by_table|keep t].
Ltac if_step t f :=
  rewrite apply_params_app;
  match goal with |- context [apply_params _ _ (if _ then _ else []) ?T] => rewrite (piece_if _ _ T (f T)) end;
    [| |let E := fresh in intros E; rewrite E; by destruct t].

Ltac else_step t f :=
  rewrite apply_params_app;
  match goal with |- context [apply_params _ _ (if _ then [] else _) ?T] => rewrite (piece_else _ _ T (f T)) end;
    [| |let E := fresh in intros E; rewrite ?E; by destruct t].

Ltac cid_ok Hc := cbn [negb]; rewrite sub_bytes_all, zlen_cid_bytes by done; destruct Hc as [Hl _]; case_if; [zb|done].

Lemma odcid_piece t : tp_original_dest_connection_id_present p = true ->
  apply_params fec exttype [(XQC_TRANSPORT_PARAM_ORIGINAL_DEST_CONNECTION_ID, cid_bytes (tp_original_dest_connection_id p))] t
  = Ok (set_original_dest_cid (learn_cid (tp_original_dest_connection_id t) (tp_original_dest_connection_id p)) true t).
Proof.
  intros E. destruct (wf_odcid _ _ Hwf E) as [Hee Hc]. rewrite (piece_apply _ (xqc_decode_original_dest_cid exttype _ 0 _)) by by_table.
  cbn [snd]. unfold xqc_decode_original_dest_cid. rewrite Hee. cid_ok Hc.
Qed.

Lemma iscid_piece t : tp_initial_source_connection_id_present p = true ->
  apply_params fec exttype [(XQC_TRANSPORT_PARAM_INITIAL_SOURCE_CONNECTION_ID, cid_bytes (tp_initial_source_connection_id p))] t
  = Ok (set_initial_scid (learn_cid (tp_initial_source_connection_id t) (tp_initial_source_connection_id p)) true t).
Proof.
  intros E. pose proof (wf_iscid _ _ Hwf E) as Hc. rewrite (piece_apply _ (xqc_decode_initial_scid _ 0 _)) by by_table.
  cbn [snd]. unfold xqc_decode_initial_scid. cid_ok Hc.
Qed.

Lemma rscid_piece t : tp_retry_source_connection_id_present p = true ->
  apply_params fec exttype [(XQC_TRANSPORT_PARAM_RETRY_SOURCE_CONNECTION_ID, cid_bytes (tp_retry_source_connection_id p))] t
  = Ok (set_retry_scid (learn_cid (tp_retry_source_connection_id t) (tp_retry_source_connection_id p)) true t).
Proof.
  intros E. destruct (wf_rscid _ _ Hwf E) as [Hee Hc]. rewrite (piece_apply _ (xqc_decode_retry_scid exttype _ 0 _)) by by_table.
  cbn [snd]. unfold xqc_decode_retry_scid. rewrite Hee. cid_ok Hc.
Qed.

Lemma token_piece t : is_ee exttype = true ->
  apply_params fec exttype [(XQC_TRANSPORT_PARAM_STATELESS_RESET_TOKEN, tp_stateless_reset_token p)] t
  = Ok (set_stateless_token (tp_stateless_reset_token p) true t).
Proof.
  intros Hee. destruct (wf_token _ _ Hwf) as [Hz _]. rewrite (piece_apply _ (xqc_decode_stateless_token exttype _ 0 _ _)) by by_table.
  cbn [snd]. unfold xqc_decode_stateless_token. by rewrite Hee, sub_bytes_all, Hz.
Qed.

Lemma address_piece t : sends_preferred_address p exttype = true ->
  apply_params fec exttype [(XQC_TRANSPORT_PARAM_PREFERRED_ADDRESS, pa_bytes (tp_preferred_address p))] t
  = Ok (set_preferred_address (learn_pa (tp_preferred_address t) (tp_preferred_address p)) true t).
Proof.
  intros E. pose proof (wf_pa _ _ Hwf E) as Hpa. apply andb_true_iff in E as [E Hc]. apply andb_true_iff in E as [Hee _].
  rewrite (piece_apply _ (xqc_decode_preferred_address exttype _ 0 _ _)) by by_table. cbn [snd]. by rewrite piece_pa by (done || zb).
Qed.

(** The last two groups of parameters. *)
Definition learn_encoder (t : xqc_transport_params_t) : xqc_transport_params_t :=
  set_fec_max_symbols_num (tp_fec_max_symbols_num p) (set_encoder_schemes 1
    (list_inserts 0 (take (Z.to_nat (tp_fec_encoder_schemes_num p)) (tp_fec_encoder_schemes p)) (tp_fec_encoder_schemes t))
    (tp_fec_encoder_schemes_num p) t).

Definition learn_decoder (t : xqc_transport_params_t) : xqc_transport_params_t :=
  set_decoder_schemes 1
    (list_inserts 0 (take (Z.to_nat (tp_fec_decoder_schemes_num p)) (tp_fec_decoder_schemes p)) (tp_fec_decoder_schemes t))
    (tp_fec_decoder_schemes_num p) t.

Definition learn_fec (t : xqc_transport_params_t) : xqc_transport_params_t :=
  let t := set_fec_version XQC_FEC_02 t in
  let t := if sends_encoder_schemes p then learn_encoder t else t in
  if sends_decoder_schemes p then learn_decoder t else t.

Definition learn_ext (t : xqc_transport_params_t) : xqc_transport_params_t :=
  set_receive_timestamps_exponent (tp_receive_timestamps_exponent p)
    (set_max_receive_timestamps_per_ack (tp_max_receive_timestamps_per_ack p)
      (set_extended_ack_features (tp_extended_ack_features p) t)).

Lemma multipath_piece t : tp_enable_multipath p <> 0 ->
  apply_params fec exttype [(path_id_param p, vbytes (tp_init_max_path_id p))] t
  = Ok (set_multipath 1 (tp_multipath_version p) (tp_init_max_path_id p) t).
Proof.
  intros E. destruct (wf_mp _ _ Hwf E) as [Hv Hr].
  rewrite (piece_apply _ (xqc_decode_enable_multipath (vbytes (tp_init_max_path_id p)) 0 (zlen (vbytes (tp_init_max_path_id p))) (path_id_param p))).
  - cbn [snd]. unfold xqc_decode_enable_multipath, decode_checked. assert (0xffffffff <= XQC_VINT_MAX) by by_decide.
    rewrite read_vbytes by (unfold is_vint; lia). case_if; [case_if; [|zb]|]; unfold path_id_param in *; destruct Hv as [Hv|Hv]; rewrite Hv in *; try done; discriminate.
  - unfold fst, snd, path_id_param. destruct Hv as [-> | ->]; by_table.
Qed.

Lemma close_piece t : tp_close_dgram_redundancy p = XQC_RED_SET_CLOSE ->
  apply_params fec exttype [(XQC_TRANSPORT_PARAM_CLOSE_DGRAM_REDUNDANCY, vbytes (tp_close_dgram_redundancy p))] t
  = Ok (set_close_dgram_redundancy XQC_RED_SET_CLOSE t).
Proof.
  intros ->. rewrite (piece_apply _ (xqc_decode_close_dgram_redundancy (vbytes XQC_RED_SET_CLOSE) 0 (zlen (vbytes XQC_RED_SET_CLOSE)))) by by_table.
  unfold xqc_decode_close_dgram_redundancy. by rewrite read_vbytes by by_decide.
Qed.

(** An unknown parameter is skipped. *)
Lemma unknown_piece q t : decoder q = None -> apply_params fec exttype [q] t = Ok t.
Proof. intros Hd. cbn [apply_params]. unfold apply_param. by rewrite Hd. Qed.

Definition fec_params : list (Z * list Z) :=
  [(XQC_TRANSPORT_PARAM_FEC_VERSION_02, [])]
  ++ (if sends_encoder_schemes p
      then [(XQC_TRANSPORT_PARAM_FEC_ENCODER_SCHEMES, schemes_bytes (tp_fec_encoder_schemes_num p) (tp_fec_encoder_schemes p));
            (XQC_TRANSPORT_PARAM_FEC_MAX_SYMBOL_NUM, vbytes (tp_fec_max_symbols_num p))] else [])
  ++ (if sends_decoder_schemes p
      then [(XQC_TRANSPORT_PARAM_FEC_DECODER_SCHEMES, schemes_bytes (tp_fec_decoder_schemes_num p) (tp_fec_decoder_schemes p))]
      else []).

Lemma fec_encoder_piece t : fec = true -> sends_encoder_schemes p = true ->
  apply_params fec exttype [(XQC_TRANSPORT_PARAM_FEC_ENCODER_SCHEMES, schemes_bytes (tp_fec_encoder_schemes_num p) (tp_fec_encoder_schemes p));
            (XQC_TRANSPORT_PARAM_FEC_MAX_SYMBOL_NUM, vbytes (tp_fec_max_symbols_num p))] t
  = Ok (learn_encoder t).
Proof.
  intros Hf E. match goal with |- apply_params _ _ [?a; ?b] _ = _ => change [a; b] with ([a] ++ [b]) end.
  rewrite apply_params_app, (piece_schemes _ set_encoder_schemes tp_fec_encoder_schemes).
  - apply (piece_vint false); [by apply Hwf|unfold fst, snd; by rewrite Hf|done].
  - unfold sends_encoder_schemes in E. zb.
  - by apply Hwf.
  - unfold fst, snd. by rewrite Hf.
Qed.

Lemma fec_block t : fec = true -> apply_params fec exttype fec_params t = Ok (learn_fec t).
Proof.
  intros Hf. unfold fec_params. rewrite apply_params_app.
  rewrite (piece_apply _ (xqc_decode_fec_version XQC_TRANSPORT_PARAM_FEC_VERSION_02)) by (unfold fst, snd; by rewrite Hf).
  unfold xqc_decode_fec_version. rewrite Z.eqb_refl, apply_params_app. unfold learn_fec. set (t1 := set_fec_version XQC_FEC_02 t).
  rewrite (piece_if _ _ t1 (if sends_encoder_schemes p then learn_encoder t1 else t1)).
  - apply piece_if; intros E; rewrite E; [|done]. rewrite (piece_schemes _ set_decoder_schemes tp_fec_decoder_schemes).
    + done.
    + unfold sends_decoder_schemes in E. zb.
    + by apply Hwf.
    + unfold fst, snd. by rewrite Hf.
  - intros E. rewrite E. by apply fec_encoder_piece.
  - intros E. by rewrite E.
Qed.

Definition ext_params : list (Z * list Z) :=
  [(XQC_TRANSPORT_PARAM_EXTENDED_ACK_FEATURES, vbytes (tp_extended_ack_features p))]
  ++ (if tp_max_receive_timestamps_per_ack p =? 0 then []
      else [(XQC_TRANSPORT_PARAM_MAX_RECEIVE_TIMESTAMPS_PER_ACK, vbytes (tp_max_receive_timestamps_per_ack p))])
  ++ (if tp_receive_timestamps_exponent p =? 0 then []
      else [(XQC_TRANSPORT_PARAM_RECEIVE_TIMESTAMPS_EXPONENT, vbytes (tp_receive_timestamps_exponent p))]).

Lemma ext_block t : tp_max_receive_timestamps_per_ack t = 0 -> tp_receive_timestamps_exponent t = 0 ->
  apply_params fec exttype ext_params t = Ok (learn_ext t).
Proof.
  intros E1 E2. unfold ext_params. rewrite apply_params_app. rewrite (piece_vint false _ _ set_extended_ack_features);
    [|apply Hwf|by_table|done].
  rewrite apply_params_app, (piece_checked _ _ _ set_max_receive_timestamps_per_ack (fun v => negb (XQC_MAX_RECEIVE_TIMESTAMPS_PER_ACK <? v)));
    [|wf_vint Hwf|destruct Hwf; zb|by_table|intros E; zify_bools; destruct t; cbn in *; congruence].
  apply piece_else; intros E.
  - rewrite (piece_apply _ (xqc_decode_receive_timestamps_exponent _ 0 _)) by by_table. cbn [snd].
    unfold xqc_decode_receive_timestamps_exponent. rewrite read_vbytes by (wf_vint Hwf). case_if; [destruct Hwf; zb|done].
  - unfold learn_ext. zify_bools. destruct t; cbn in *; congruence.
Qed.

(** What is known before the last two groups. *)
Definition front (t : xqc_transport_params_t) : xqc_transport_params_t :=
  set_receive_timestamps_exponent 0 (set_max_receive_timestamps_per_ack 0 (set_extended_ack_features 0
    (set_decoder_schemes 0 (tp_fec_decoder_schemes t) 0 (set_fec_max_symbols_num 0
      (set_encoder_schemes 0 (tp_fec_encoder_schemes t) 0 (set_fec_version XQC_ERR_FEC_VERSION (received p t))))))).

Definition learn_tail (t : xqc_transport_params_t) : xqc_transport_params_t :=
  let t := if fec then learn_fec t else t in
  if tp_extended_ack_features p =? 0 then t else learn_ext t.

Lemma received_tail t : learn_tail (front t) = received p t.
Proof.
  unfold learn_tail, front, received, learn_fec. destruct (tp_extended_ack_features p =? 0) eqn:Ee.
  - apply Z.eqb_eq in Ee. rewrite Ee. destruct fec, (sends_encoder_schemes p), (sends_decoder_schemes p); reflexivity.
  - destruct fec, (sends_encoder_schemes p), (sends_decoder_schemes p); reflexivity.
Qed.

Lemma apply_tail t : tp_max_receive_timestamps_per_ack t = 0 -> tp_receive_timestamps_exponent t = 0 ->
  apply_params fec exttype ((if fec then fec_params else []) ++ (if tp_extended_ack_features p =? 0 then [] else ext_params)) t
  = Ok (learn_tail t).
Proof.
  intros E1 E2. rewrite apply_params_app, (piece_if _ _ t (if fec then learn_fec t else t));
    [|intros E; rewrite E at 2; by apply fec_block|by intros ->].
  unfold learn_tail. apply piece_else; intros E; rewrite E; [|done].
  apply ext_block; unfold learn_fec; destruct fec, (sends_encoder_schemes p), (sends_decoder_schemes p); by destruct t.
Qed.

Lemma apply_sent t : apply_params fec exttype (sent fec p exttype) (set_defaults t) = Ok (received p t).
Proof.
  rewrite <- received_tail, <- apply_tail by done. unfold sent. fold fec_params. fold ext_params.
  if_step t (set_reset_stream_at (tp_reset_stream_at p)); [|intros ->; destruct t; by_table].
  if_step t (set_original_dest_cid (if tp_original_dest_connection_id_present p
     then learn_cid (tp_original_dest_connection_id t) (tp_original_dest_connection_id p) else tp_original_dest_connection_id t)
    (tp_original_dest_connection_id_present p)); [|intros E; rewrite odcid_piece, E by done; by destruct t].
  vint_step t set_max_idle_timeout.
  if_step t (set_stateless_token (if is_ee exttype && tp_stateless_reset_token_present p then tp_stateless_reset_token p else tp_stateless_reset_token t)
    (is_ee exttype && tp_stateless_reset_token_present p)); [|intros E; rewrite E; apply andb_true_iff in E as [Hee _]; by rewrite token_piece].
  checked_step t set_max_udp_payload_size (fun v => negb (v <? XQC_MIN_UDP_PAYLOAD_SIZE)).
  vint_step t set_initial_max_data. vint_step t set_initial_max_stream_data_bidi_local.
  vint_step t set_initial_max_stream_data_bidi_remote. vint_step t set_initial_max_stream_data_uni.
  vint_step t set_initial_max_streams_bidi. vint_step t set_initial_max_streams_uni.
  checked_step t set_ack_delay_exponent (fun v => negb (XQC_MAX_ACK_DELAY_EXPONENT <? v)).
  checked_step t set_max_ack_delay (fun v => negb (XQC_MAX_ACK_DELAY <=? v)).
  if_step t (set_disable_active_migration (tp_disable_active_migration p)); [|intros ->; destruct t; by_table].
  if_step t (set_preferred_address (if sends_preferred_address p exttype then learn_pa (tp_preferred_address t) (tp_preferred_address p)
    else tp_preferred_address t) (sends_preferred_address p exttype)); [|intros E; rewrite address_piece, E by done; by destruct t].
  checked_step t set_active_connection_id_limit (fun v => negb (v <? 2)).
  if_step t (set_initial_scid (let c0 := with_cid_len (tp_initial_source_connection_id t) 0 in
     if tp_initial_source_connection_id_present p then learn_cid c0 (tp_initial_source_connection_id p) else c0)
    (tp_initial_source_connection_id_present p)); [|intros E; rewrite iscid_piece, E by done; by destruct t].
  if_step t (set_retry_scid (let c0 := with_cid_len (tp_retry_source_connection_id t) 0 in
     if tp_retry_source_connection_id_present p then learn_cid c0 (tp_retry_source_connection_id p) else c0)
    (tp_retry_source_connection_id_present p)); [|intros E; rewrite rscid_piece, E by done; by destruct t].
  vint_step t set_max_datagram_frame_size. vint_step t set_no_crypto.
  else_step t (set_multipath (if tp_enable_multipath p =? 0 then 0 else 1) (if tp_enable_multipath p =? 0 then XQC_ERR_MULTIPATH_VERSION else tp_multipath_version p)
    (if tp_enable_multipath p =? 0 then 0 else tp_init_max_path_id p)).
  2:{ intros E. rewrite E. apply multipath_piece. zb. }
  vint_step t set_enable_pmtud.
  if_step t (set_close_dgram_redundancy (if tp_close_dgram_redundancy p =? XQC_RED_SET_CLOSE then XQC_RED_SET_CLOSE else XQC_RED_NOT_USE)).
  2:{ intros E. rewrite E. apply close_piece. zb. }
  else_step t (fun t : xqc_transport_params_t => t); [|intros _; apply unknown_piece; by_table].
  f_equal. unfold front, received. by destruct t, (tp_enable_multipath p =? 0).
Qed.

(** ** The round trip *)

Definition sendable (q : Z * list Z) : Prop := param_ok q /\ bytes_ok (snd q).

Lemma sendable_bytes l : Forall sendable l -> bytes_ok (enc_params l).
Proof.
  induction 1 as [|q l [_ Hq] Hl IH]; [constructor|]. unfold enc_params. cbn [map concat]. apply bytes_ok_app. split; [|exact IH].
  unfold enc_param. apply bytes_ok_app. split; [apply vbytes_ok|]. apply bytes_ok_app. by split; [apply vbytes_ok|].
Qed.

Lemma sendable_vint id v : is_vint id -> sendable (id, vbytes v).
Proof.
  intros Hid. split; [split; [done|]|apply vbytes_ok]. cbn [snd]. rewrite zlen_vbytes. pose proof (put_varint_len_range v).
  apply small_vint. lia.
Qed.

Lemma sendable_small id bs : is_vint id -> zlen bs <= 2000 -> bytes_ok bs -> sendable (id, bs).
Proof. intros Hid Hz Hb. pose proof vint_max_big. split; [split; [done|]|done]. cbn [snd]. lia. Qed.

Lemma cid_bytes_ok cid : cid_wf cid -> zlen (cid_bytes cid) <= 2000 /\ bytes_ok (cid_bytes cid).
Proof.
  intros Hc. rewrite zlen_cid_bytes by done. destruct Hc as (Hl & _ & Hb). unfold XQC_MAX_CID_LEN in Hl. split; [lia|by apply bytes_ok_sub].
Qed.

Lemma pa_bytes_ok pa : pa_wf pa -> zlen (pa_bytes pa) <= 2000 /\ bytes_ok (pa_bytes pa).
Proof.
  intros Hp. rewrite zlen_pa_bytes by done. destruct Hp as (_ & H4 & _ & _ & H6 & _ & Hc & _ & Ht). pose proof (cid_bytes_ok _ Hc) as [_ Hcb].
  destruct Hc as (Hl & _ & _). unfold preferred_addrlen, XQC_STATELESS_RESET_TOKENLEN, XQC_MAX_CID_LEN in *. split; [lia|]. unfold pa_bytes.
  rewrite !bytes_ok_app. repeat split; try done; try apply be_bytes_ok. repeat constructor; unfold is_byte; lia.
Qed.

Lemma concat_bytes_ok {A} (f : A -> list Z) l : (forall x, bytes_ok (f x)) -> bytes_ok (concat (map f l)).
Proof. intros Hf. induction l as [|x l IH]; [constructor|]. cbn [map concat]. by apply bytes_ok_app. Qed.

Lemma Forall_unless {A} (P : A -> Prop) (b : bool) l : (b = false -> Forall P l) -> Forall P (if b then [] else l).
Proof. destruct b; [by constructor|auto]. Qed.

Lemma Forall_when {A} (P : A -> Prop) (b : bool) l : (b = true -> Forall P l) -> Forall P (if b then l else []).
Proof. destruct b; [auto|by constructor]. Qed.

Lemma sendable_schemes id num schemes : is_vint id -> 0 < num <= XQC_FEC_MAX_SCHEME_NUM -> sendable (id, schemes_bytes num schemes).
Proof.
  intros Hid Hn. apply sendable_small; [done|pose proof (zlen_schemes num schemes Hn); lia|]. unfold schemes_bytes.
  apply bytes_ok_app. split; [apply vbytes_ok|apply concat_bytes_ok, vbytes_ok].
Qed.

Lemma sendable_options : 0 <= tp_conn_option_num p < 256 /\ tp_conn_option_num p <= Z.of_nat (length (tp_conn_options p)) ->
  sendable (XQC_TRANSPORT_PARAM_GOOGLE_CO, options_bytes (tp_conn_option_num p) (tp_conn_options p)).
Proof.
  intros [H1 H2]. apply sendable_small; [by_decide|rewrite zlen_options; lia|]. apply concat_bytes_ok. intros x. apply be_bytes_ok.
Qed.

Lemma path_id_vint : is_vint (path_id_param p).
Proof. unfold path_id_param. repeat case_if; by_decide. Qed.

Ltac sendable_value :=
  lazymatch goal with
  | |- sendable (path_id_param _, _) => apply sendable_vint, path_id_vint
  | |- sendable (_, vbytes _) => apply sendable_vint; by_decide
  | |- sendable (_, []) => apply sendable_small; [by_decide|by_decide|constructor]
  | |- sendable (_, cid_bytes _) => apply sendable_small; [by_decide|apply cid_bytes_ok; by apply Hwf|apply cid_bytes_ok; by apply Hwf]
  | |- sendable (_, pa_bytes _) => apply sendable_small; [by_decide|apply pa_bytes_ok; by apply Hwf|apply pa_bytes_ok; by apply Hwf]
  | |- sendable (_, options_bytes _ _) => apply sendable_options; apply Hwf
  end.

Ltac sendable_piece :=
  lazymatch goal with
  | |- Forall _ (_ ++ _) => apply Forall_app; split; sendable_piece
  | |- Forall _ (if _ then [] else _) => apply Forall_unless; intros ?; sendable_piece
  | |- Forall _ (if _ then _ else []) => apply Forall_when; intros ?; sendable_piece
  | |- Forall _ (_ :: _) => apply Forall_cons; split; [try sendable_value|sendable_piece]
  | |- Forall _ [] => constructor
  end.

Lemma sent_sendable : Forall sendable (sent fec p exttype).
Proof.
  unfold sent. sendable_piece.
  - destruct (wf_token _ _ Hwf) as [Hz Hb]. apply sendable_small; [by_decide|lia|done].
  - apply sendable_schemes; [by_decide|]. unfold sends_encoder_schemes in *. zb.
  - apply sendable_schemes; [by_decide|]. unfold sends_decoder_schemes in *. zb.
Qed.

Lemma decode_sent t : xqc_decode_transport_params fec t exttype (enc_params (sent fec p exttype)) (zlen (enc_params (sent fec p exttype)))
  = Ok (received p t).
Proof.
  pose proof sent_sendable as Hs. rewrite decode_spec; [apply apply_sent|by apply sendable_bytes|].
  eapply Forall_impl; [exact Hs|]. by intros q [Hq _].
Qed.

End received.

(** C18: Transport parameters survive the trip to the other end.  Parameters in the ranges of the
    protocol are written in exactly the length that is computed beforehand; the other end accepts
    the bytes, in either role and with or without the FEC extension, and then holds [received]:
    the sent value of every parameter that it decodes, and the default of every one that was left
    out. Connection identifiers, tokens and addresses that were left out are marked absent, whatever
    the fields hold. The connection options are the exception: they are written, and the decoder
    skips them, so that the other end keeps the options it had. *)
Theorem transport_params_roundtrip fec exttype p t out out_cap : tp_wf p exttype ->
  xqc_transport_params_calc_length fec p exttype <= out_cap -> out_cap <= zlen out ->
  exists buf len, xqc_encode_transport_params fec p exttype out out_cap = Some (Ok (buf, len))
    /\ len = xqc_transport_params_calc_length fec p exttype
    /\ xqc_decode_transport_params fec t exttype (sub_bytes buf 0 len) len = Ok (received fec exttype p t)
    /\ tp_conn_options (received fec exttype p t) = tp_conn_options t
    /\ tp_conn_option_num (received fec exttype p t) = tp_conn_option_num t.
Proof.
  intros Hwf H1 H2. set (l := enc_params (sent fec p exttype)). pose proof (calc_length_spec fec p exttype Hwf) as Hc.
  exists (wr out 0 l), (zlen l). split_and!; [apply encode_spec; by rewrite <- ?Hc|done| |done|done].
  rewrite Hc in H1. fold l in H1. rewrite bytes_at_sub by (apply bytes_at_wr; lia). by apply decode_sent.
Qed.

(** The parameters of a server that uses most of them. *)
Definition sample_cid (len : Z) : xqc_cid_t := mk_cid len (map Z.of_nat (seq 1 20)) 0 (repeat 0 16) 0.

Definition sample_params : xqc_transport_params_t :=
  mk_tp (mk_pa [192; 0; 2; 1] 443 (repeat 32 16) 8443 (sample_cid 8) (repeat 7 16)) true (sample_cid 12) true 120000 (repeat 9 16) true
    1500 1048576 65536 65536 65536 1024 3 10 50 true 4 (sample_cid 8) true (sample_cid 4) true 1200 true 1
    1 XQC_MULTIPATH_10 7 (repeat 0x4e435244 16) 2 XQC_FEC_02 1 1 30 [8; 11; 0; 0; 0] [11; 8; 0; 0; 0] 2 1
    XQC_RED_SET_CLOSE 1 3 63 5.

Lemma transport_params_roundtrip_witness : tp_wf sample_params XQC_TP_TYPE_ENCRYPTED_EXTENSIONS
  /\ exists buf len,
    xqc_encode_transport_params true sample_params XQC_TP_TYPE_ENCRYPTED_EXTENSIONS (repeat 0 512) 512 = Some (Ok (buf, len))
    /\ len = xqc_transport_params_calc_length true sample_params XQC_TP_TYPE_ENCRYPTED_EXTENSIONS
    /\ xqc_decode_transport_params true xqc_init_transport_params XQC_TP_TYPE_ENCRYPTED_EXTENSIONS (sub_bytes buf 0 len) len
       = Ok (received true XQC_TP_TYPE_ENCRYPTED_EXTENSIONS sample_params xqc_init_transport_params)
    /\ tp_conn_options (received true XQC_TP_TYPE_ENCRYPTED_EXTENSIONS sample_params xqc_init_transport_params)
       = tp_conn_options xqc_init_transport_params
    /\ tp_conn_option_num (received true XQC_TP_TYPE_ENCRYPTED_EXTENSIONS sample_params xqc_init_transport_params)
       = tp_conn_option_num xqc_init_transport_params.
Proof.
  assert (tp_wf sample_params XQC_TP_TYPE_ENCRYPTED_EXTENSIONS) as Hwf.
  { split; unfold is_vint, cid_wf, pa_wf, schemes_wf, cid_wf, bytes_ok, known_scheme; try (intros _); split_and?; by_decide. }
  split; [exact Hwf|]. apply (transport_params_roundtrip true XQC_TP_TYPE_ENCRYPTED_EXTENSIONS sample_params xqc_init_transport_params (repeat 0 512) 512).
  - exact Hwf.
  - by_decide.
  - by_decide.
Defined.

End TransParamsSpec.
