(* ===== verification/TransParamsValid.v ===== *)
(** What a decoder of transport parameters lets through: whatever bytes arrive, accepted parameters
    are in the ranges the protocol gives them, the arrays of the structure are not overrun, and a
    client is not believed when it sends the parameters of a server. *)

From stdpp Require Import base numbers list.
From S2P Require Import Prelude VInt RecvRecord PacketBuf Frames AckFrame CidSet TransParams TransParamsSpec.
Import VInt Frames TransParams TransParamsSpec.

Module TransParamsValid.

(** An array of scheme numbers and the count of those in use. *)
Definition schemes_valid (num : Z) (schemes : list Z) : Prop :=
  0 <= num <= XQC_FEC_MAX_SCHEME_NUM /\ length schemes = 5%nat /\ Forall known_scheme (take (Z.to_nat num) schemes).

Record tp_valid (exttype : xqc_transport_params_type_t) (t : xqc_transport_params_t) : Prop := {
  tv_pa : tp_preferred_address_present t = true -> is_ee exttype = true
    /\ 0 < cid_len (pa_cid (tp_preferred_address t)) <= XQC_MAX_CID_LEN
    /\ zlen (pa_stateless_reset_token (tp_preferred_address t)) = XQC_STATELESS_RESET_TOKENLEN;
  tv_odcid : tp_original_dest_connection_id_present t = true -> is_ee exttype = true
    /\ 0 <= cid_len (tp_original_dest_connection_id t) <= XQC_MAX_CID_LEN;
  tv_idle : is_vint (tp_max_idle_timeout t);
  tv_token : tp_stateless_reset_token_present t = true -> is_ee exttype = true
    /\ zlen (tp_stateless_reset_token t) = XQC_STATELESS_RESET_TOKENLEN;
  tv_udp : XQC_MIN_UDP_PAYLOAD_SIZE <= tp_max_udp_payload_size t <= XQC_VINT_MAX;
  tv_data : is_vint (tp_initial_max_data t);
  tv_sdbl : is_vint (tp_initial_max_stream_data_bidi_local t);
  tv_sdbr : is_vint (tp_initial_max_stream_data_bidi_remote t);
  tv_sdu : is_vint (tp_initial_max_stream_data_uni t);
  tv_sb : is_vint (tp_initial_max_streams_bidi t);
  tv_su : is_vint (tp_initial_max_streams_uni t);
  tv_ade : 0 <= tp_ack_delay_exponent t <= XQC_MAX_ACK_DELAY_EXPONENT;
  tv_mad : 0 <= tp_max_ack_delay t < XQC_MAX_ACK_DELAY;
  tv_acil : 2 <= tp_active_connection_id_limit t <= XQC_VINT_MAX;
  tv_iscid : 0 <= cid_len (tp_initial_source_connection_id t) <= XQC_MAX_CID_LEN;
  tv_rscid : 0 <= cid_len (tp_retry_source_connection_id t) <= XQC_MAX_CID_LEN
    /\ (tp_retry_source_connection_id_present t = true -> is_ee exttype = true);
  tv_dgram : is_vint (tp_max_datagram_frame_size t);
  tv_nc : is_vint (tp_no_crypto t);
  tv_mp : tp_enable_multipath t = 0 /\ tp_multipath_version t = XQC_ERR_MULTIPATH_VERSION
    \/ tp_enable_multipath t = 1 /\ (tp_multipath_version t = XQC_MULTIPATH_3E \/ tp_multipath_version t = XQC_MULTIPATH_10);
  tv_path : 0 <= tp_init_max_path_id t <= 0xffffffff;
  tv_enc : schemes_valid (tp_fec_encoder_schemes_num t) (tp_fec_encoder_schemes t);
  tv_dec : schemes_valid (tp_fec_decoder_schemes_num t) (tp_fec_decoder_schemes t);
  tv_sym : is_vint (tp_fec_max_symbols_num t);
  tv_close : tp_close_dgram_redundancy t = XQC_RED_SET_CLOSE \/ tp_close_dgram_redundancy t = XQC_RED_NOT_USE;
  tv_pmtud : is_vint (tp_enable_pmtud t);
  tv_eaf : is_vint (tp_extended_ack_features t);
  tv_mrt : 0 <= tp_max_receive_timestamps_per_ack t <= XQC_MAX_RECEIVE_TIMESTAMPS_PER_ACK;
  tv_rte : 0 <= tp_receive_timestamps_exponent t <= XQC_MAX_RECEIVE_TIMESTAMPS_EXPONENT;
}.

Lemma defaults_valid exttype t : length (tp_fec_encoder_schemes t) = 5%nat -> length (tp_fec_decoder_schemes t) = 5%nat ->
  tp_valid exttype (set_defaults t).
Proof.
  intros H1 H2. unfold set_defaults. split; cbn [tp_preferred_address_present]; try done; try by_decide; cbn; try done; try (left; done).
Qed.

(** ** One value *)
Section value.

Context (fec : bool) (exttype : xqc_transport_params_type_t) (in_ : list Z) (p e type len : Z).
Context (Hb : bytes_ok in_) (Hp : 0 <= p) (Hlen : 0 <= len) (Hpe : p + len = e) (He : e <= zlen in_).

Lemma vint_max_value : XQC_VINT_MAX = 2 ^ 62 - 1.
Proof. reflexivity. Qed.

Lemma read_is_vint q v n : 0 <= q -> xqc_vint_read in_ q e = Some (v, n) -> is_vint v.
Proof. intros Hq Hr. pose proof (vint_read_range in_ q e v n Hb Hq He Hr). unfold is_vint. rewrite vint_max_value. lia. Qed.

Lemma vint_value_valid set t t' : XQC_DECODE_VINT_VALUE in_ p e set t = Ok t' -> exists v, is_vint v /\ t' = set v t.
Proof.
  unfold XQC_DECODE_VINT_VALUE. destruct (xqc_vint_read in_ p e) as [[v n]|] eqn:E; [|done]. intros [= <-].
  exists v. split; [by apply (read_is_vint p v n)|done].
Qed.

Lemma checked_value_valid set ok t t' : decode_checked in_ p e set ok t = Ok t' -> exists v, is_vint v /\ ok v = true /\ t' = set v t.
Proof.
  unfold decode_checked. destruct (xqc_vint_read in_ p e) as [[v n]|] eqn:E; [|done]. case_if; [|done]. intros [= <-].
  exists v. split_and!; [by apply (read_is_vint p v n)|done|done].
Qed.

(** The schemes that are kept are known ones, and there are at most as many as announced. *)
Lemma schemes_loop_valid n : forall q curr schemes cnt, 0 <= cnt -> cnt + Z.of_nat n <= XQC_FEC_MAX_SCHEME_NUM ->
  length schemes = 5%nat -> Forall known_scheme (take (Z.to_nat cnt) schemes) ->
  let '(schemes', cnt') := schemes_loop in_ e n q curr schemes cnt in schemes_valid cnt' schemes'.
Proof.
  unfold XQC_FEC_MAX_SCHEME_NUM. induction n as [|n IH]; intros q curr schemes cnt Hc Hn Hl Hk; cbn [schemes_loop].
  - unfold schemes_valid, XQC_FEC_MAX_SCHEME_NUM. split_and!; (done || lia).
  - destruct (match xqc_vint_read in_ q e with None => (curr, -1) | Some (v, l) => (v, l) end) as [c vl].
    destruct (xqc_set_fec_scheme c) as [s|] eqn:Es; apply IH; try lia; try done; [by rewrite length_insert|].
    assert (s = c) as -> by (unfold xqc_set_fec_scheme in Es; case_match; by simplify_eq).
    replace (Z.to_nat (cnt + 1)) with (S (Z.to_nat cnt)) by lia.
    rewrite (take_S_r _ _ c) by (apply list_lookup_insert_eq; lia). rewrite take_insert_ge by lia.
    apply Forall_app. split; [done|]. by apply Forall_singleton.
Qed.

Lemma schemes_value_valid set schemes t t' : length schemes = 5%nat -> decode_schemes in_ p e set schemes t = Ok t' ->
  exists schemes' num, schemes_valid num schemes' /\ t' = set 1 schemes' num t.
Proof.
  intros Hl. unfold decode_schemes. destruct (xqc_vint_read in_ p e) as [[n vl]|] eqn:E.
  - apply (read_is_vint p n vl Hp) in E as [En _]. case_if; [done|].
    pose proof (schemes_loop_valid (Z.to_nat n) (p + vl) 0 schemes 0) as H.
    destruct (schemes_loop in_ e (Z.to_nat n) (p + vl) 0 schemes 0) as [s' c']. intros [= <-]. exists s', c'. split; [|done].
    apply H; try done. zb.
  - case_if; [done|]. cbn. intros [= <-]. exists schemes, 0. split; [|done]. split; [by_decide|done].
Qed.

(** The structure after one field is stored: the property of that field, the others as before. *)
Ltac stored Hv :=
  let t := fresh in
  match goal with |- tp_valid _ ?t' => match t' with context [?t0] => is_var t0; match type of t0 with xqc_transport_params_t => destruct t0 end end end;
  destruct Hv; split; cbn in *; try assumption.

Lemma odcid_valid t t' : xqc_decode_original_dest_cid exttype in_ p len t = Ok t' -> tp_valid exttype t -> tp_valid exttype t'.
Proof.
  unfold xqc_decode_original_dest_cid. destruct (is_ee exttype) eqn:Hee; [|done]. cbn [negb]. case_if; [done|]. intros [= <-] Hv.
  stored Hv. intros _. split; [done|]. zb.
Qed.

Lemma token_valid t t' : xqc_decode_stateless_token exttype in_ p e len t = Ok t' -> tp_valid exttype t -> tp_valid exttype t'.
Proof.
  unfold xqc_decode_stateless_token. destruct (is_ee exttype) eqn:Hee; [|done]. cbn [negb]. case_if; [done|]. intros [= <-] Hv.
  zify_bools. stored Hv. intros _. split; [done|]. rewrite zlen_sub_bytes; unfold XQC_STATELESS_RESET_TOKENLEN in *; lia.
Qed.

Lemma address_valid t t' : xqc_decode_preferred_address exttype in_ p e len t = Ok t' -> tp_valid exttype t -> tp_valid exttype t'.
Proof.
  unfold xqc_decode_preferred_address. destruct (is_ee exttype) eqn:Hee; [|done]. cbn [negb]. intros Ht Hv.
  repeat (match type of Ht with (if ?c then _ else _) = _ => destruct c eqn:?; [done|] end).
  injection Ht as <-. pose proof (rd_is_byte in_ (p + 6 + 18) Hb) as Hbyte. unfold is_byte in Hbyte. zify_bools. stored Hv. intros _. split; [done|].
  split; [lia|]. apply zlen_sub_bytes; unfold XQC_STATELESS_RESET_TOKENLEN in *; lia.
Qed.

Lemma iscid_valid t t' : xqc_decode_initial_scid in_ p len t = Ok t' -> tp_valid exttype t -> tp_valid exttype t'.
Proof. unfold xqc_decode_initial_scid. case_if; [done|]. intros [= <-] Hv. stored Hv. zb. Qed.

Lemma rscid_valid t t' : xqc_decode_retry_scid exttype in_ p len t = Ok t' -> tp_valid exttype t -> tp_valid exttype t'.
Proof.
  unfold xqc_decode_retry_scid. destruct (is_ee exttype) eqn:Hee; [|done]. cbn [negb]. case_if; [done|]. intros [= <-] Hv.
  stored Hv. split; [zb|done].
Qed.

Lemma multipath_valid t t' : xqc_decode_enable_multipath in_ p e type t = Ok t' -> tp_valid exttype t -> tp_valid exttype t'.
Proof.
  unfold xqc_decode_enable_multipath. intros Ht Hv. destruct (_ || _); [|by injection Ht as <-].
  apply checked_value_valid in Ht as (v & Hvint & Hok & ->). unfold is_vint in Hvint. zify_bools.
  stored Hv; [|lia]. right. split; [done|]. destruct (type =? _); auto.
Qed.

Lemma encoder_valid t t' : xqc_decode_encoder_schemes in_ p e t = Ok t' -> tp_valid exttype t -> tp_valid exttype t'.
Proof.
  intros Ht Hv. apply schemes_value_valid in Ht as (s & n & Hs & ->); [stored Hv|]. by destruct (tv_enc _ _ Hv) as (_ & ? & _).
Qed.

Lemma decoder_valid t t' : xqc_decode_decoder_schemes in_ p e t = Ok t' -> tp_valid exttype t -> tp_valid exttype t'.
Proof.
  intros Ht Hv. apply schemes_value_valid in Ht as (s & n & Hs & ->); [stored Hv|]. by destruct (tv_dec _ _ Hv) as (_ & ? & _).
Qed.

Lemma timestamps_exponent_valid t t' : xqc_decode_receive_timestamps_exponent in_ p e t = Ok t' -> tp_valid exttype t -> tp_valid exttype t'.
Proof.
  unfold xqc_decode_receive_timestamps_exponent. intros Ht Hv. pose proof (tv_rte _ _ Hv) as Hr.
  destruct (xqc_vint_read in_ p e) as [[v n]|] eqn:E.
  - apply (read_is_vint p v n Hp) in E as [E _]. destruct (_ <? v) eqn:?; [done|]. injection Ht as <-. stored Hv. zb.
  - destruct (_ <? _); [done|]. injection Ht as <-. stored Hv.
Qed.

Lemma close_valid t t' : xqc_decode_close_dgram_redundancy in_ p e t = Ok t' -> tp_valid exttype t -> tp_valid exttype t'.
Proof. intros [= <-] Hv. stored Hv. destruct (_ =? _); auto. Qed.

Lemma decode_func_valid f t t' : xqc_trans_param_decode_func fec exttype in_ p e type len = Some f -> f t = Ok t' ->
  tp_valid exttype t -> tp_valid exttype t'.
Proof.
  intros Hf Ht Hv. unfold xqc_trans_param_decode_func in Hf.
  repeat match type of Hf with (if ?c then _ else _) = _ => destruct c; [injection Hf as <-|] end; [..|done].
  all: try (apply vint_value_valid in Ht as (v & Hvint & ->); stored Hv).
  all: try (apply checked_value_valid in Ht as (v & Hvint & Hok & ->); stored Hv; unfold is_vint in *; zb).
  all: eauto using odcid_valid, token_valid, address_valid, iscid_valid, rscid_valid, multipath_valid, encoder_valid, decoder_valid,
    timestamps_exponent_valid, close_valid.
  - injection Ht as <-. stored Hv.
  - unfold xqc_decode_reset_stream_at in Ht. destruct (_ || _); [done|]. injection Ht as <-. stored Hv.
  - injection Ht as <-. stored Hv.
Qed.

End value.

(** ** All of them *)
Section all.

Context (fec : bool) (exttype : xqc_transport_params_type_t) (in_ : list Z) (e : Z) (Hb : bytes_ok in_) (He : e <= zlen in_).

(** A parameter takes bytes, so fuel for one round per byte is never used up. *)
Lemma decode_one_advances p t t' p' : 0 <= p -> xqc_decode_one_transport_param fec exttype in_ p e t = Ok (t', p') -> p < p'.
Proof.
  intros Hp Ht. unfold xqc_decode_one_transport_param in Ht.
  destruct (xqc_vint_read in_ p e) as [[ty n1]|] eqn:E1; [|done]. pose proof (vint_read_pos _ _ _ _ _ E1).
  destruct (xqc_vint_read in_ (p + n1) e) as [[len n2]|] eqn:E2; [|done]. pose proof (vint_read_pos _ _ _ _ _ E2).
  apply (read_is_vint in_ e Hb He) in E2 as [Hlen _]; [|lia]. repeat case_match; simplify_eq; lia.
Qed.

Lemma decode_loop_fuel f1 : forall f2 p t, 0 <= p -> e - p <= Z.of_nat f1 -> e - p <= Z.of_nat f2 ->
  decode_loop fec f1 exttype in_ p e t = decode_loop fec f2 exttype in_ p e t.
Proof.
  induction f1 as [|f1 IH]; intros [|f2] p t Hp H1 H2; cbn [decode_loop]; destruct (p <? e) eqn:E; zify_bools; try lia; try done.
  destruct (xqc_decode_one_transport_param _ _ _ _ _ _) as [[t1 p1]|] eqn:E1; [|done].
  apply decode_one_advances in E1; [|done]. apply IH; lia.
Qed.

Lemma decode_one_valid p t t' p' : 0 <= p -> xqc_decode_one_transport_param fec exttype in_ p e t = Ok (t', p') ->
  tp_valid exttype t -> tp_valid exttype t'.
Proof.
  intros Hp Ht Hv. unfold xqc_decode_one_transport_param in Ht.
  destruct (xqc_vint_read in_ p e) as [[ty n1]|] eqn:E1; [|done]. pose proof (vint_read_pos _ _ _ _ _ E1).
  destruct (xqc_vint_read in_ (p + n1) e) as [[len n2]|] eqn:E2; [|done]. pose proof (vint_read_pos _ _ _ _ _ E2).
  apply (read_is_vint in_ e Hb He) in E2 as [Hlen _]; [|lia].
  destruct (e <? _) eqn:Ee; [done|]. zify_bools.
  destruct (xqc_trans_param_decode_func _ _ _ _ _ _ _) as [f|] eqn:Ef; [|by injection Ht as <- <-].
  destruct (f t) as [t1|] eqn:Et; [|done]. injection Ht as <- <-.
  eapply (decode_func_valid fec exttype in_ (p + n1 + n2) _ ty len); try done; lia.
Qed.

Lemma decode_loop_valid fuel : forall p t t', 0 <= p -> decode_loop fec fuel exttype in_ p e t = Ok t' ->
  tp_valid exttype t -> tp_valid exttype t'.
Proof.
  induction fuel as [|f IH]; intros p t t' Hp Ht Hv; cbn [decode_loop] in Ht; destruct (p <? e).
  - done.
  - destruct (negb _); [done|]. by injection Ht as <-.
  - destruct (xqc_decode_one_transport_param _ _ _ _ _ _) as [[t1 p1]|] eqn:E1; [|done].
    pose proof (decode_one_advances _ _ _ _ Hp E1). apply (IH p1 t1); [lia|done|]. by apply (decode_one_valid p t t1 p1).
  - destruct (negb _); [done|]. by injection Ht as <-.
Qed.

End all.

(** C20: Whatever the other end sends, parameters that are accepted are valid: the UDP payload size is
    at least 1200, the exponent of the ACK delay at most 20 and the delay below [2 ^ 14], the limit
    of identifiers at least 2, identifiers fit their buffers, path identifiers 32 bits, and all
    other numbers 62 bits; at most five FEC schemes are stored, all known; and the address, the
    token and the two identifiers only a server may send are never learnt from a client. *)
Theorem decoded_params_valid fec exttype t in_ in_len t' : bytes_ok in_ -> in_len <= zlen in_ ->
  length (tp_fec_encoder_schemes t) = 5%nat -> length (tp_fec_decoder_schemes t) = 5%nat ->
  xqc_decode_transport_params fec t exttype in_ in_len = Ok t' -> tp_valid exttype t'.
Proof.
  intros Hb He H1 H2 Ht. apply (decode_loop_valid fec exttype in_ in_len Hb He (Z.to_nat in_len) 0 (set_defaults t) t'); [lia|exact Ht|].
  by apply defaults_valid.
Qed.

(** A client that sends an UDP payload size, a delay and an identifier. *)
Definition sample_extension : list Z := [3; 2; 68; 208; 11; 1; 40; 15; 3; 1; 2; 3].

Lemma decoded_params_valid_witness :
  exists t', xqc_decode_transport_params true xqc_init_transport_params XQC_TP_TYPE_CLIENT_HELLO sample_extension 12 = Ok t'
    /\ tp_max_udp_payload_size t' = 1232 /\ tp_valid XQC_TP_TYPE_CLIENT_HELLO t'.
Proof.
  eexists. split_and!; [vm_compute; reflexivity|reflexivity|].
  apply (decoded_params_valid true XQC_TP_TYPE_CLIENT_HELLO xqc_init_transport_params sample_extension 12); [by_decide|by_decide|done|done|].
  vm_compute; reflexivity.
Defined.

(** ** Values that are cut short *)

Definition numeric_params : list Z :=
  [XQC_TRANSPORT_PARAM_MAX_IDLE_TIMEOUT; XQC_TRANSPORT_PARAM_MAX_UDP_PAYLOAD_SIZE; XQC_TRANSPORT_PARAM_INITIAL_MAX_DATA;
   XQC_TRANSPORT_PARAM_INITIAL_MAX_STREAM_DATA_BIDI_LOCAL; XQC_TRANSPORT_PARAM_INITIAL_MAX_STREAM_DATA_BIDI_REMOTE;
   XQC_TRANSPORT_PARAM_INITIAL_MAX_STREAM_DATA_UNI; XQC_TRANSPORT_PARAM_INITIAL_MAX_STREAMS_BIDI;
   XQC_TRANSPORT_PARAM_INITIAL_MAX_STREAMS_UNI; XQC_TRANSPORT_PARAM_ACK_DELAY_EXPONENT; XQC_TRANSPORT_PARAM_MAX_ACK_DELAY;
   XQC_TRANSPORT_PARAM_ACTIVE_CONNECTION_ID_LIMIT; XQC_TRANSPORT_PARAM_INIT_MAX_PATH_ID_V10; XQC_TRANSPORT_PARAM_INIT_MAX_PATH_ID_V21;
   XQC_TRANSPORT_PARAM_MAX_DATAGRAM_FRAME_SIZE; XQC_TRANSPORT_PARAM_EXTENDED_ACK_FEATURES;
   XQC_TRANSPORT_PARAM_MAX_RECEIVE_TIMESTAMPS_PER_ACK; XQC_TRANSPORT_PARAM_RECEIVE_TIMESTAMPS_EXPONENT;
   XQC_TRANSPORT_PARAM_CLOSE_DGRAM_REDUNDANCY; XQC_TRANSPORT_PARAM_NO_CRYPTO; XQC_TRANSPORT_PARAM_PMTUD_OPTIONS].

(** The extension that has the parameter [id] only, with an empty value. *)
Definition empty_param (id : Z) : list Z := enc_params [(id, [])].

Lemma decode_empty fec exttype id t : is_vint id ->
  xqc_decode_transport_params fec t exttype (empty_param id) (zlen (empty_param id)) = apply_params fec exttype [(id, [])] (set_defaults t).
Proof.
  intros Hid. assert (sendable (id, [])) as Hs by (apply sendable_small; [done|by_decide|constructor]). apply decode_spec.
  - apply sendable_bytes. by apply Forall_singleton.
  - apply Forall_singleton. apply Hs.
Qed.

(** An empty value where a number is required is refused, for every parameter that carries a number
    except two: the decoders of the receive timestamps exponent (whose [nread] is unsigned) and of
    the redundancy on close do not notice the failed read, and the extension is accepted with the
    default kept. *)
Theorem empty_value_refused fec exttype t id : In id numeric_params ->
  xqc_decode_transport_params fec t exttype (empty_param id) (zlen (empty_param id))
  = if (id =? XQC_TRANSPORT_PARAM_RECEIVE_TIMESTAMPS_EXPONENT) || (id =? XQC_TRANSPORT_PARAM_CLOSE_DGRAM_REDUNDANCY)
    then Ok (set_defaults t) else Err XQC_TLS_MALFORMED_TRANSPORT_PARAM.
Proof.
  intros Hid. rewrite decode_empty.
  - unfold numeric_params in Hid. simpl In in Hid.
    repeat destruct Hid as [<-|Hid]; [..|done]; destruct fec; reflexivity.
  - assert (Forall is_vint numeric_params) as Hall by by_decide. by apply (proj1 (List.Forall_forall _ _) Hall).
Qed.

Lemma empty_value_refused_witness :
  In XQC_TRANSPORT_PARAM_RECEIVE_TIMESTAMPS_EXPONENT numeric_params
  /\ xqc_decode_transport_params true xqc_init_transport_params XQC_TP_TYPE_CLIENT_HELLO
       (empty_param XQC_TRANSPORT_PARAM_RECEIVE_TIMESTAMPS_EXPONENT) (zlen (empty_param XQC_TRANSPORT_PARAM_RECEIVE_TIMESTAMPS_EXPONENT))
     = Ok (set_defaults xqc_init_transport_params).
Proof.
  assert (In XQC_TRANSPORT_PARAM_RECEIVE_TIMESTAMPS_EXPONENT numeric_params) as H by (unfold numeric_params; do 16 right; by left).
  split; [exact H|]. exact (empty_value_refused true XQC_TP_TYPE_CLIENT_HELLO xqc_init_transport_params _ H).
Defined.

End TransParamsValid.
