(* ===== verification/PriorityQ.v ===== *)
(** The priority queue of common/xqc_priority_q.h: a binary heap in an array that grows, with a
    callback that is told where every element goes. *)

From stdpp Require Import base numbers list.
From S2P Require Import Prelude.

Module PriorityQ.

Definition xqc_pq_default_cmp (a b : Z) : bool := a <? b.

Definition xqc_pq_revert_cmp (a b : Z) : bool := b <? a.

Record xqc_pq_element_t := mk_el { key : Z; data : Z }.

(** [elements] holds the part of the array that has been written; reading behind it is undefined. *)
Record xqc_pq_t := mk_pq { elements : list xqc_pq_element_t; count : Z; capacity : Z }.

(** ** Operations

    [cmp a b] holds when [b] goes before [a]; [eop] is the callback with its state, which the queue
    of the engine keeps in the connections; [mem] is the answer of the allocator. *)
Section pq.

Context (cmp : Z -> Z -> bool) {S : Type} (eop : Z -> xqc_pq_element_t -> S -> option S).

Definition xqc_pq_init (cap : Z) (mem : bool) : res xqc_pq_t :=
  if cap =? 0 then Err 1 else if mem then Ok (mk_pq [] 0 cap) else Err 2.

Definition xqc_pq_element (pq : xqc_pq_t) (i : Z) : option xqc_pq_element_t := elements pq !! Z.to_nat i.

Definition set_element (pq : xqc_pq_t) (i : Z) (e : xqc_pq_element_t) : xqc_pq_t :=
  mk_pq (<[Z.to_nat i := e]> (elements pq)) (count pq) (capacity pq).

Definition xqc_pq_element_swap (pq : xqc_pq_t) (s : S) (i j : Z) : option (xqc_pq_t * S) :=
  ei ← xqc_pq_element pq i;
  ej ← xqc_pq_element pq j;
  let pq := set_element (set_element pq j ei) i ej in
  s ← eop i ej s;
  s ← eop j ei s;
  Some (pq, s).

(** [while (i != 0)] *)
Fixpoint top_loop (fuel : nat) (pq : xqc_pq_t) (s : S) (i : Z) : option (xqc_pq_t * S * Z) :=
  if i =? 0 then Some (pq, s, i)
  else
    match fuel with
    | O => None
    | Datatypes.S f =>
        let j := (i - 1) / 2 in
        ej ← xqc_pq_element pq j;
        ei ← xqc_pq_element pq i;
        if negb (cmp (key ej) (key ei)) then Some (pq, s, i)
        else '(pq, s) ← xqc_pq_element_swap pq s i j; top_loop f pq s j
    end.

Definition xqc_pq_move_towards_top (pq : xqc_pq_t) (s : S) (i : Z) : option (xqc_pq_t * S * Z) := top_loop (Z.to_nat i) pq s i.

(** [while (j <= pq->count - 1)], with [j] the first child of [i] *)
Fixpoint bottom_loop (fuel : nat) (pq : xqc_pq_t) (s : S) (i j : Z) : option (xqc_pq_t * S) :=
  if j <=? u64 (count pq - 1) then
    match fuel with
    | O => None
    | Datatypes.S f =>
        j ← (if j <? u64 (count pq - 1)
             then ej ← xqc_pq_element pq j;
                  ek ← xqc_pq_element pq (u32 (j + 1));
                  Some (if cmp (key ej) (key ek) then u32 (j + 1) else j)
             else Some j);
        ei ← xqc_pq_element pq i;
        ej ← xqc_pq_element pq j;
        if negb (cmp (key ei) (key ej)) then Some (pq, s)
        else '(pq, s) ← xqc_pq_element_swap pq s i j; bottom_loop f pq s j (u32 (2 * j + 1))
    end
  else Some (pq, s).

Definition xqc_pq_move_towards_bottom (pq : xqc_pq_t) (s : S) (i : Z) : option (xqc_pq_t * S) :=
  bottom_loop (Z.to_nat (count pq)) pq s i (u32 (2 * i + 1)).

(** The store at the end of the queue. *)
Definition append_element (pq : xqc_pq_t) (e : xqc_pq_element_t) : xqc_pq_t :=
  mk_pq (take (Z.to_nat (count pq)) (elements pq) ++ e :: drop (Datatypes.S (Z.to_nat (count pq))) (elements pq)) (count pq) (capacity pq).

Definition grow (pq : xqc_pq_t) (mem : bool) : option xqc_pq_t :=
  if count pq =? capacity pq then (if mem then Some (mk_pq (elements pq) (count pq) (u64 (capacity pq * 2))) else None)
  else Some pq.

(** The queue, and whether the element is in it. *)
Definition xqc_pq_push (pq : xqc_pq_t) (s : S) (k d : Z) (mem : bool) : option (xqc_pq_t * S * bool) :=
  match grow pq mem with
  | None => Some (pq, s, false)
  | Some pq =>
      let e := mk_el k d in
      let pq := append_element pq e in
      s ← eop (count pq) e s;
      let i := count pq in
      let pq := mk_pq (elements pq) (count pq + 1) (capacity pq) in
      '(pq, s, _) ← xqc_pq_move_towards_top pq s (u32 i);
      Some (pq, s, true)
  end.

Definition xqc_pq_top (pq : xqc_pq_t) : option (option xqc_pq_element_t) :=
  if count pq =? 0 then Some None else e ← xqc_pq_element pq 0; Some (Some e).

Definition xqc_pq_empty (pq : xqc_pq_t) : bool := count pq =? 0.

Definition dec_count (pq : xqc_pq_t) : xqc_pq_t := mk_pq (elements pq) (count pq - 1) (capacity pq).

Definition xqc_pq_pop (pq : xqc_pq_t) (s : S) : option (xqc_pq_t * S) :=
  if count pq =? 0 then Some (pq, s)
  else
    let pq := dec_count pq in
    if count pq =? 0 then Some (pq, s)
    else
      e ← xqc_pq_element pq (count pq);
      let pq := set_element pq 0 e in
      s ← eop 0 e s;
      xqc_pq_move_towards_bottom pq s 0.

Definition xqc_pq_remove (pq : xqc_pq_t) (s : S) (index : Z) : option (xqc_pq_t * S) :=
  if (count pq <=? index) || (count pq =? 0) then Some (pq, s)
  else
    let pq := dec_count pq in
    if count pq =? 0 then Some (pq, s)
    else
      e ← xqc_pq_element pq (count pq);
      let pq := set_element pq index e in
      s ← eop index e s;
      '(pq, s) ← xqc_pq_move_towards_bottom pq s index;
      '(pq, s, _) ← xqc_pq_move_towards_top pq s index;
      Some (pq, s).

End pq.

End PriorityQ.
