(* ===== verification/PriorityQSpec.v ===== *)
(** The binary heap behaves like a set of elements with a least one: its operations keep the order of
    the heap, hold exactly the elements that were put in and not taken out, and tell the callback the
    final position of every element they move. *)

From stdpp Require Import base numbers list sets.
From S2P Require Import Prelude PriorityQ.
Import PriorityQ.

Module PriorityQSpec.

(** ** Interfaces *)

(** What the queue expects of a comparison: [cmp a b = false] is a total preorder. *)
Class PqOrder (cmp : Z -> Z -> bool) : Prop := {
  cmp_asym a b : cmp a b = true -> cmp b a = false;
  cmp_trans a b c : cmp a b = false -> cmp b c = false -> cmp a c = false;
}.

#[export] Instance default_cmp_order : PqOrder xqc_pq_default_cmp.
Proof. split; unfold xqc_pq_default_cmp; intros; zb. Qed.

#[export] Instance revert_cmp_order : PqOrder xqc_pq_revert_cmp.
Proof. split; unfold xqc_pq_revert_cmp; intros; zb. Qed.

(** What the queue expects of the callback: told that [e] is at [i], it records that for the owner of
    [e], and changes nothing else. *)
Class PqCallback {S : Type} (eop : Z -> xqc_pq_element_t -> S -> option S) (alive : S -> Z -> Prop) (pos : S -> Z -> option Z)
    (same : S -> S -> Prop) : Prop := {
  same_preorder : PreOrder same;
  same_alive s s' d : same s s' -> alive s d -> alive s' d;
  eop_ok i e s : 0 <= i < 2 ^ 32 -> alive s (data e) ->
    exists s', eop i e s = Some s' /\ same s s' /\ pos s' (data e) = Some i /\ forall d, d <> data e -> pos s' d = pos s d;
}.

(** ** Lists with two elements exchanged *)

Definition swap (xs : list xqc_pq_element_t) (i j : nat) (ei ej : xqc_pq_element_t) : list xqc_pq_element_t := <[i := ej]> (<[j := ei]> xs).

Lemma insert_perm {A} (xs : list A) i x y : xs !! i = Some x -> y :: xs ≡ₚ x :: <[i := y]> xs.
Proof.
  revert i. induction xs as [|z xs IH]; intros [|i] Hi; simplify_eq/=; [by constructor|].
  rewrite Permutation_swap, (IH i Hi). by rewrite Permutation_swap.
Qed.

Lemma swap_perm xs i j ei ej : xs !! i = Some ei -> xs !! j = Some ej -> swap xs i j ei ej ≡ₚ xs.
Proof.
  intros Hi Hj. unfold swap. destruct (decide (i = j)) as [->|Hne].
  - simplify_eq. by rewrite list_insert_insert_eq, list_insert_id.
  - apply (Permutation_cons_inv (a := ei)). rewrite (insert_perm xs j ej ei Hj). symmetry. apply insert_perm.
    by rewrite list_lookup_insert_ne.
Qed.

Lemma take_swap n xs i j ei ej : (i < n)%nat -> (j < n)%nat -> take n (swap xs i j ei ej) = swap (take n xs) i j ei ej.
Proof. intros Hi Hj. unfold swap. by rewrite !take_insert_lt by lia. Qed.

Lemma swap_lookup xs i j ei ej k : xs !! i = Some ei -> xs !! j = Some ej ->
  swap xs i j ei ej !! k = if decide (k = i) then Some ej else if decide (k = j) then Some ei else xs !! k.
Proof.
  intros Hi Hj. apply lookup_lt_Some in Hi, Hj. unfold swap. case_decide as H1; [subst; apply list_lookup_insert_eq; by rewrite length_insert|].
  rewrite list_lookup_insert_ne by done. case_decide as H2; [subst; by apply list_lookup_insert_eq|by apply list_lookup_insert_ne].
Qed.

(** ** The order of a heap *)
Section order.

Context (cmp : Z -> Z -> bool) `{!PqOrder cmp}.

Definition le_at (xs : list xqc_pq_element_t) (i j : nat) : Prop :=
  forall a b, xs !! i = Some a -> xs !! j = Some b -> cmp (key a) (key b) = false.

Definition par (j : nat) : nat := Nat.div2 (pred j).

Definition heap_ok (xs : list xqc_pq_element_t) (n : nat) : Prop := forall j, (0 < j < n)%nat -> le_at xs (par j) j.

(** Everything in order but the step from the parent of [i] to [i]. *)
Definition up_ok (xs : list xqc_pq_element_t) (n i : nat) : Prop :=
  (forall j, (0 < j < n)%nat -> j <> i -> le_at xs (par j) j)
  /\ (0 < i -> forall c, (0 < c < n)%nat -> par c = i -> le_at xs (par i) c)%nat.

(** Everything in order but the steps from [i] to its children, and, while the element is still where
    it was put, the step from the parent of that place. *)
Definition down_ok (xs : list xqc_pq_element_t) (n i0 i : nat) : Prop :=
  (forall j, (0 < j < n)%nat -> par j <> i -> (j <> i0 \/ i <> i0) -> le_at xs (par j) j)
  /\ (0 < i -> forall c, (0 < c < n)%nat -> par c = i -> le_at xs (par i) c)%nat.

Lemma par_lt j : (0 < j)%nat -> (par j < j)%nat.
Proof. intros. unfold par. pose proof (Nat.div2_decr (pred j) (pred j)). lia. Qed.

Lemma par_child i j : (0 < j)%nat -> par j = i <-> j = (2 * i + 1)%nat \/ j = (2 * i + 2)%nat.
Proof.
  intros Hj. unfold par. rewrite Nat.div2_div. split.
  - intros <-. pose proof (Nat.div_mod (pred j) 2). pose proof (Nat.mod_upper_bound (pred j) 2). lia.
  - intros [-> | ->]; simpl pred; [|]; symmetry; [apply (Nat.div_unique _ 2 i 0)|apply (Nat.div_unique _ 2 i 1)]; lia.
Qed.

Lemma le_at_trans xs i j k : (exists b, xs !! j = Some b) -> le_at xs i j -> le_at xs j k -> le_at xs i k.
Proof. intros [b Hb] H1 H2 a c Ha Hc. eapply cmp_trans; [by apply H1|by apply H2]. Qed.

Lemma cmp_lt_le a b c : cmp a b = true -> cmp a c = false -> cmp b c = false.
Proof. intros H1 H2. eapply cmp_trans; [by apply cmp_asym|done]. Qed.

(** The root is before everything. *)
Lemma heap_root xs n : heap_ok xs n -> (n <= length xs)%nat -> forall j, (j < n)%nat -> le_at xs 0 j.
Proof.
  intros Hh Hn. induction j as [j IH] using lt_wf_ind. intros Hj. destruct (decide (j = 0)%nat) as [->|Hj0].
  - intros a b Ha Hb. simplify_eq. destruct (cmp (key a) (key a)) eqn:E; [|done]. by rewrite (cmp_asym _ _ E) in E.
  - pose proof (par_lt j). apply (le_at_trans xs 0 (par j) j); [apply lookup_lt_is_Some; lia|apply IH; lia|apply Hh; lia].
Qed.

Lemma up_step xs n i ei ej : up_ok xs n i -> (0 < i)%nat -> (i < n)%nat -> (n <= length xs)%nat -> xs !! i = Some ei -> xs !! par i = Some ej ->
  cmp (key ej) (key ei) = true -> up_ok (swap xs i (par i) ei ej) n (par i).
Proof.
  intros [H1 H2] Hi Hin Hn Hei Hej Hc. pose proof (par_lt i Hi) as Hp. set (p := par i) in *.
  assert (forall k, swap xs i p ei ej !! k = if decide (k = i) then Some ej else if decide (k = p) then Some ei else xs !! k) as Hs
    by (intros; by apply swap_lookup).
  split.
  - intros j Hj Hjp a b Ha Hb. rewrite Hs in Ha, Hb. pose proof (par_lt j).
    destruct (decide (j = i)) as [->|Hji].
    + fold p in Ha. rewrite decide_False, decide_True in Ha by lia. simplify_eq. by apply cmp_asym.
    + destruct (decide (j = p)); [done|]. destruct (decide (par j = i)) as [Hpi|Hpi].
      * injection Ha as <-. by apply (H2 Hi j Hj Hpi).
      * destruct (decide (par j = p)) as [Hpp|Hpp]; [injection Ha as <-|by apply (H1 j)].
        eapply cmp_lt_le; [exact Hc|]. apply (H1 j); [done|done|by rewrite Hpp|done].
  - intros Hp0 c Hc0 Hcp a b Ha Hb. rewrite Hs in Ha, Hb. pose proof (par_lt p Hp0). rewrite !decide_False in Ha by lia.
    destruct (decide (c = i)) as [->|Hci].
    + injection Hb as <-. apply (H1 p); [lia|lia|done|done].
    + pose proof (par_lt c). rewrite decide_False in Hb by lia. eapply cmp_trans; [apply (H1 p); [lia|lia|exact Ha|exact Hej]|].
      apply (H1 c); [done|done|by rewrite Hcp|done].
Qed.

Lemma up_done xs n i : up_ok xs n i -> (i = 0%nat \/ le_at xs (par i) i) -> heap_ok xs n.
Proof. intros [H1 _] Hi j Hj. destruct (decide (j = i)) as [->|]; [destruct Hi; [lia|done]|by apply H1]. Qed.

Lemma down_step xs n i0 i j ei ej : down_ok xs n i0 i -> (0 < j < n)%nat -> par j = i -> (i0 <= i)%nat -> (n <= length xs)%nat ->
  xs !! i = Some ei -> xs !! j = Some ej -> cmp (key ei) (key ej) = true ->
  (forall c, (0 < c < n)%nat -> par c = i -> le_at xs j c) -> down_ok (swap xs i j ei ej) n i0 j.
Proof.
  intros [H1 H2] Hj Hpj Hi0 Hn Hei Hej Hc Hmin. pose proof (par_lt j ltac:(lia)) as Hlt. rewrite Hpj in Hlt.
  assert (forall k, swap xs i j ei ej !! k = if decide (k = i) then Some ej else if decide (k = j) then Some ei else xs !! k) as Hs
    by (intros; by apply swap_lookup).
  split.
  - intros k Hk Hpk _ a b Ha Hb. rewrite Hs in Ha, Hb. rewrite (decide_False (P := par k = j)) in Ha by done. pose proof (par_lt k ltac:(lia)).
    destruct (decide (par k = i)) as [Hki|Hki].
    + injection Ha as <-. rewrite decide_False in Hb by lia. destruct (decide (k = j)) as [->|Hkj].
      * injection Hb as <-. by apply cmp_asym.
      * by apply (Hmin k Hk Hki).
    + destruct (decide (k = i)) as [->|Hk'].
      * injection Hb as <-. apply (H2 ltac:(lia) j Hj Hpj); done.
      * rewrite decide_False in Hb by (intros ->; by rewrite Hpj in Hki). apply (H1 k); try done. lia.
  - intros _ c Hc0 Hpc a b Ha Hb. rewrite Hs in Ha, Hb. rewrite Hpj, decide_True in Ha by done. injection Ha as <-.
    pose proof (par_lt c ltac:(lia)). rewrite !decide_False in Hb by lia. apply (H1 c); [done|lia|left; lia|by rewrite Hpc|done].
Qed.

(** Once no child goes before [i], only the step into the first place may be wrong. *)
Lemma down_done xs n i0 i : down_ok xs n i0 i -> (i0 <= i)%nat -> (i < n)%nat -> (n <= length xs)%nat ->
  (forall c, (0 < c < n)%nat -> par c = i -> le_at xs i c) -> up_ok xs n i0 /\ (i <> i0 -> heap_ok xs n).
Proof.
  intros [H1 H2] Hi Hin Hn Hmin.
  assert (forall j, (0 < j < n)%nat -> (j <> i0 \/ i <> i0) -> le_at xs (par j) j) as Hall.
  { intros j Hj Hor. destruct (decide (par j = i)) as [Hp|Hp]; [rewrite Hp; by apply Hmin|by apply H1]. }
  split; [split|].
  - intros j Hj Hne. apply Hall; auto.
  - intros H0 c Hc Hpc. destruct (decide (i = i0)) as [->|Hne]; [by apply H2|].
    apply (le_at_trans xs (par i0) i0 c); [apply lookup_lt_is_Some; lia|apply Hall; [lia|by right]|rewrite <- Hpc; apply Hall; [done|by right]].
  - intros Hne j Hj. apply Hall; auto.
Qed.

End order.

(** ** Moving elements *)
Section move.

Context (cmp : Z -> Z -> bool) `{!PqOrder cmp} {S : Type} (eop : Z -> xqc_pq_element_t -> S -> option S)
  {alive : S -> Z -> Prop} {pos : S -> Z -> option Z} {same : S -> S -> Prop} `{!PqCallback eop alive pos same}.

#[local] Existing Instance same_preorder.

Lemma still_alive s s' d : same s s' -> alive s d -> alive s' d.
Proof. apply (same_alive (eop := eop)). Qed.

(** The callback knows where every element is. *)
Definition placed (xs : list xqc_pq_element_t) (n : nat) (s : S) : Prop :=
  forall i e, (i < n)%nat -> xs !! i = Some e -> alive s (data e) /\ pos s (data e) = Some (Z.of_nat i).

(** The first [n] places hold the same elements as before, the owners know, nothing else changed. *)
Record moved (n : nat) (xs : list xqc_pq_element_t) (s : S) (xs' : list xqc_pq_element_t) (s' : S) : Prop := {
  mv_len : length xs' = length xs;
  mv_perm : take n xs' ≡ₚ take n xs;
  mv_same : same s s';
  mv_placed : placed xs' n s';
  mv_frame d : d ∉ map data (take n xs) -> pos s' d = pos s d;
}.

Lemma moved_refl n xs s : placed xs n s -> moved n xs s xs s.
Proof. by split. Qed.

Lemma moved_trans n xs s xs1 s1 xs2 s2 : moved n xs s xs1 s1 -> moved n xs1 s1 xs2 s2 -> moved n xs s xs2 s2.
Proof.
  intros [A1 A2 A3 A4 A5] [B1 B2 B3 B4 B5]. split; [congruence|by etrans|by etrans|done|].
  intros d Hd. rewrite B5; [by apply A5|]. by rewrite A2.
Qed.

Lemma moved_nodup n xs s xs' s' : moved n xs s xs' s' -> NoDup (map data (take n xs)) -> NoDup (map data (take n xs')).
Proof. intros Hm Hnd. by rewrite (mv_perm _ _ _ _ _ Hm). Qed.

Lemma in_live n xs i e : (i < n)%nat -> xs !! i = Some e -> data e ∈ map data (take n xs).
Proof. intros Hi He. apply list_elem_of_fmap. exists e. split; [done|]. apply (list_elem_of_lookup_2 _ i). by rewrite lookup_take_lt. Qed.

Lemma nodup_ne n xs i j ei ej : NoDup (map data (take n xs)) -> (i < n)%nat -> (j < n)%nat -> i <> j ->
  xs !! i = Some ei -> xs !! j = Some ej -> data ei <> data ej.
Proof.
  intros Hnd Hi Hj Hne Hei Hej Heq. apply Hne. eapply (NoDup_lookup _ _ _ (data ei) Hnd).
  - change (map data) with (fmap (M := list) data). rewrite list_lookup_fmap, lookup_take_lt, Hei by done. done.
  - change (map data) with (fmap (M := list) data). rewrite list_lookup_fmap, lookup_take_lt, Hej by done. by rewrite Heq.
Qed.

Lemma swap_ok n xs s cnt cap (i j : nat) ei ej : (i < n)%nat -> (j < n)%nat -> i <> j -> Z.of_nat n <= 2 ^ 31 ->
  NoDup (map data (take n xs)) -> placed xs n s -> xs !! i = Some ei -> xs !! j = Some ej ->
  exists s', xqc_pq_element_swap eop (mk_pq xs cnt cap) s (Z.of_nat i) (Z.of_nat j) = Some (mk_pq (swap xs i j ei ej) cnt cap, s')
    /\ moved n xs s (swap xs i j ei ej) s'.
Proof.
  intros Hi Hj Hne Hn Hnd Hpl Hei Hej. pose proof (nodup_ne n xs i j ei ej Hnd Hi Hj Hne Hei Hej) as Hd.
  destruct (Hpl _ _ Hi Hei) as [Hai _]. destruct (Hpl _ _ Hj Hej) as [Haj _].
  destruct (eop_ok (Z.of_nat i) ej s) as (s1 & E1 & S1 & P1 & F1); [lia|done|].
  destruct (eop_ok (Z.of_nat j) ei s1) as (s2 & E2 & S2 & P2 & F2); [lia|by apply (still_alive s)|].
  assert (same s s2) as S12 by (by etrans).
  exists s2. split.
  - unfold xqc_pq_element_swap, xqc_pq_element, set_element. cbn [elements count capacity]. rewrite !Nat2Z.id, Hei, Hej. cbn [mbind option_bind].
    rewrite E1. cbn [mbind option_bind]. by rewrite E2.
  - split; [unfold swap; by rewrite !length_insert| |done| |].
    + rewrite take_swap by done. apply swap_perm; by rewrite lookup_take_lt.
    + intros k e Hk He. rewrite (swap_lookup xs i j ei ej k Hei Hej) in He. repeat case_decide; simplify_eq.
      * split; [by apply (still_alive s)|]. by rewrite F2, P1.
      * split; [by apply (still_alive s)|done].
      * destruct (Hpl _ _ Hk He) as [Ha Hp]. split; [by apply (still_alive s)|].
        rewrite F2, F1; [done| |]; [by apply (nodup_ne n xs k j)|by apply (nodup_ne n xs k i)].
    + intros d Hdn. rewrite F2, F1; [done|intros ->; by apply Hdn, (in_live n xs j)|intros ->; by apply Hdn, (in_live n xs i)].
Qed.

Lemma par_Z (i : nat) : (0 < i)%nat -> (Z.of_nat i - 1) / 2 = Z.of_nat (par i).
Proof. intros Hi. unfold par. rewrite Nat.div2_div, Nat2Z.inj_div. f_equal. lia. Qed.

Lemma top_loop_ok n cnt cap fuel : forall (i : nat) xs s, (i <= fuel)%nat -> (i < n)%nat -> (n <= length xs)%nat -> Z.of_nat n <= 2 ^ 31 ->
  NoDup (map data (take n xs)) -> placed xs n s -> up_ok cmp xs n i ->
  exists xs' s' i', top_loop cmp eop fuel (mk_pq xs cnt cap) s (Z.of_nat i) = Some (mk_pq xs' cnt cap, s', i')
    /\ moved n xs s xs' s' /\ heap_ok cmp xs' n.
Proof.
  induction fuel as [|f IH]; intros i xs s Hf Hi Hn H31 Hnd Hpl Hup; cbn [top_loop]; (case_if; zify_bools; [|try lia]).
  - exists xs, s, (Z.of_nat i). split_and!; [done|by apply moved_refl|]. eapply up_done; [exact Hup|left; lia].
  - exists xs, s, (Z.of_nat i). split_and!; [done|by apply moved_refl|]. eapply up_done; [exact Hup|left; lia].
  - assert (0 < i)%nat as Hi0 by lia. pose proof (par_lt i Hi0) as Hp. rewrite par_Z by done.
    destruct (lookup_lt_is_Some_2 xs i ltac:(lia)) as [ei Hei]. destruct (lookup_lt_is_Some_2 xs (par i) ltac:(lia)) as [ej Hej].
    unfold xqc_pq_element. cbn [elements]. rewrite !Nat2Z.id, Hei, Hej. cbn [mbind option_bind].
    destruct (cmp (key ej) (key ei)) eqn:Hc; cbn [negb].
    + destruct (swap_ok n xs s cnt cap i (par i) ei ej) as (s1 & -> & M1); try done; [lia|lia|]. cbn [mbind option_bind].
      destruct (IH (par i) (swap xs i (par i) ei ej) s1) as (xs2 & s2 & i2 & E2 & M2 & H2); try done; [lia|lia|by rewrite (mv_len _ _ _ _ _ M1)| | |
        by apply up_step|].
      * by apply (moved_nodup n xs s _ s1).
      * apply M1.
      * exists xs2, s2, i2. split_and!; [done|by eapply moved_trans|done].
    + exists xs, s, (Z.of_nat i). split_and!; [done|by apply moved_refl|]. eapply up_done; [exact Hup|right]. intros a b Ha Hb. by simplify_eq.
Qed.

(** The child that goes first. *)
Lemma first_child n xs cap (i : nat) : (2 * i + 1 < n)%nat -> (n <= length xs)%nat -> Z.of_nat n <= 2 ^ 31 ->
  exists j : nat, (if Z.of_nat (2 * i + 1) <? Z.of_nat n - 1
     then ej ← xqc_pq_element (mk_pq xs (Z.of_nat n) cap) (Z.of_nat (2 * i + 1));
          ek ← xqc_pq_element (mk_pq xs (Z.of_nat n) cap) (u32 (Z.of_nat (2 * i + 1) + 1));
          Some (if cmp (key ej) (key ek) then u32 (Z.of_nat (2 * i + 1) + 1) else Z.of_nat (2 * i + 1))
     else Some (Z.of_nat (2 * i + 1))) = Some (Z.of_nat j)
    /\ (0 < j < n)%nat /\ par j = i /\ forall c, (0 < c < n)%nat -> par c = i -> le_at cmp xs j c.
Proof.
  intros Hi Hn H31. destruct (lookup_lt_is_Some_2 xs (2 * i + 1) ltac:(lia)) as [e1 He1].
  assert (forall a, cmp (key a) (key a) = false) as Hirr.
  { intros a. destruct (cmp (key a) (key a)) eqn:E; [|done]. by rewrite (cmp_asym _ _ E) in E. }
  case_if; zify_bools.
  - destruct (lookup_lt_is_Some_2 xs (2 * i + 2) ltac:(lia)) as [e2 He2].
    rewrite u32_small by lia. replace (Z.of_nat (2 * i + 1) + 1) with (Z.of_nat (2 * i + 2)) by lia.
    unfold xqc_pq_element. cbn [elements]. rewrite !Nat2Z.id, He1, He2. cbn [mbind option_bind].
    destruct (cmp (key e1) (key e2)) eqn:Hc; eexists; (split; [reflexivity|]); (split; [lia|]); (split; [apply par_child; lia|]);
      intros c Hc0 Hpc a b Ha Hb; apply par_child in Hpc as [-> | ->]; try lia; simplify_eq; try done; by apply cmp_asym.
  - exists (2 * i + 1)%nat. split; [done|]. split; [lia|]. split; [apply par_child; lia|].
    intros c Hc0 Hpc a b Ha Hb. apply par_child in Hpc as [-> | ->]; [by simplify_eq|lia|lia].
Qed.

Lemma bottom_loop_ok n cap i0 fuel : forall (i : nat) xs s, (n <= fuel + i)%nat -> (i0 <= i < n)%nat -> (n <= length xs)%nat ->
  Z.of_nat n <= 2 ^ 31 -> NoDup (map data (take n xs)) -> placed xs n s -> down_ok cmp xs n i0 i ->
  exists xs' s', bottom_loop cmp eop fuel (mk_pq xs (Z.of_nat n) cap) s (Z.of_nat i) (u32 (2 * Z.of_nat i + 1))
      = Some (mk_pq xs' (Z.of_nat n) cap, s')
    /\ moved n xs s xs' s' /\ up_ok cmp xs' n i0.
Proof.
  induction fuel as [|f IH]; intros i xs s Hf Hi Hn H31 Hnd Hpl Hdn; [lia|]. cbn [bottom_loop count].
  rewrite u32_small, u64_small by lia. replace (2 * Z.of_nat i + 1) with (Z.of_nat (2 * i + 1)) by lia. case_if; zify_bools.
  - destruct (first_child n xs cap i ltac:(lia) Hn H31) as (j & Ej & Hj & Hpj & Hmin). rewrite Ej. cbn [mbind option_bind].
    pose proof (par_lt j ltac:(lia)).
    destruct (lookup_lt_is_Some_2 xs i ltac:(lia)) as [ei Hei]. destruct (lookup_lt_is_Some_2 xs j ltac:(lia)) as [ej Hej].
    unfold xqc_pq_element. cbn [elements]. rewrite !Nat2Z.id, Hei, Hej. cbn [mbind option_bind].
    destruct (cmp (key ei) (key ej)) eqn:Hc; cbn [negb].
    + destruct (swap_ok n xs s (Z.of_nat n) cap i j ei ej) as (s1 & -> & M1); try done; [lia|lia|lia|]. cbn [mbind option_bind].
      destruct (IH j (swap xs i j ei ej) s1) as (xs2 & s2 & E2 & M2 & H2); try done; [lia|lia|by rewrite (mv_len _ _ _ _ _ M1)| | |
        apply (down_step cmp xs n i0 i); (done || lia)|].
      * by apply (moved_nodup n xs s _ s1).
      * apply M1.
      * exists xs2, s2. split_and!; [done|by eapply moved_trans|done].
    + exists xs, s. split_and!; [done|by apply moved_refl|]. eapply (down_done cmp xs n i0 i); try done; [lia|lia|].
      intros c Hc0 Hpc. apply (le_at_trans cmp xs i j c); [by exists ej|intros a b Ha Hb; by simplify_eq|by apply Hmin].
  - exists xs, s. split_and!; [done|by apply moved_refl|]. eapply (down_done cmp xs n i0 i); try done; [lia|lia|].
    intros c Hc0 Hpc. apply par_child in Hpc as [-> | ->]; lia.
Qed.

(** ** The operations *)

(** The elements in the queue. *)
Definition live (pq : xqc_pq_t) : list xqc_pq_element_t := take (Z.to_nat (count pq)) (elements pq).

Record pq_inv (pq : xqc_pq_t) (s : S) : Prop := {
  pi_count : 0 <= count pq <= capacity pq;
  pi_width : count pq <= 2 ^ 31;
  pi_len : (Z.to_nat (count pq) <= length (elements pq))%nat;
  pi_heap : heap_ok cmp (elements pq) (Z.to_nat (count pq));
  pi_nodup : NoDup (map data (live pq));
  pi_placed : placed (elements pq) (Z.to_nat (count pq)) s;
}.

(** The state of the callback changes in the positions of the given owners only. *)
Definition touches (ds : list Z) (s s' : S) : Prop := same s s' /\ forall d, d ∉ ds -> pos s' d = pos s d.

#[export] Instance touches_perm : Proper ((≡ₚ) ==> eq ==> eq ==> iff) touches.
Proof. intros ds ds' Hp s1 s2 -> s3 s4 ->. unfold touches. by setoid_rewrite Hp. Qed.

Lemma moved_touches n xs s xs' s' : moved n xs s xs' s' -> touches (map data (take n xs)) s s'.
Proof. intros Hm. split; apply Hm. Qed.

Lemma touches_trans ds s1 s2 s3 : touches ds s1 s2 -> touches ds s2 s3 -> touches ds s1 s3.
Proof. intros [A1 A2] [B1 B2]. split; [by etrans|]. intros d Hd. by rewrite B2, A2. Qed.

Lemma touches_weaken ds ds' s s' : ds ⊆ ds' -> touches ds s s' -> touches ds' s s'.
Proof. intros Hsub [A1 A2]. split; [done|]. intros d Hd. apply A2. set_solver. Qed.

Lemma grow_ok pq mem : 0 <= count pq <= capacity pq -> count pq < 2 ^ 31 -> 0 < capacity pq -> mem = true \/ count pq < capacity pq ->
  exists cap', grow pq mem = Some (mk_pq (elements pq) (count pq) cap') /\ count pq < cap' /\ capacity pq <= cap'.
Proof.
  intros I1 Hw Hcap Hm. unfold grow. case_if; zify_bools.
  - destruct Hm as [-> | Hm]; [|lia]. eexists. split; [done|]. rewrite u64_small; lia.
  - exists (capacity pq). destruct pq; simpl in *. split; [done|]. lia.
Qed.

(** The array with [e] stored behind its first [n] elements. *)
Section appended.

Context (xs : list xqc_pq_element_t) (n : nat) (e : xqc_pq_element_t) (Hn : (n <= length xs)%nat).

Definition appended : list xqc_pq_element_t := take n xs ++ e :: drop (Datatypes.S n) xs.

Lemma take_appended : take (Datatypes.S n) appended = take n xs ++ [e].
Proof.
  unfold appended. rewrite take_app, length_take, Nat.min_l by lia. rewrite take_take, Nat.min_r by lia.
  replace (Datatypes.S n - n)%nat with 1%nat by lia. done.
Qed.

Lemma length_appended : (Datatypes.S n <= length appended)%nat.
Proof. unfold appended. rewrite length_app. simpl. rewrite length_take. lia. Qed.

Lemma lookup_appended i x : (i < Datatypes.S n)%nat -> appended !! i = Some x -> i = n /\ x = e \/ (i < n)%nat /\ xs !! i = Some x.
Proof.
  intros Hi Hx. destruct (decide (i = n)) as [->|Hne].
  - left. unfold appended in Hx. rewrite lookup_app_r, length_take, Nat.min_l, Nat.sub_diag in Hx by (rewrite ?length_take; lia). by simplify_eq/=.
  - right. unfold appended in Hx. rewrite lookup_app_l, lookup_take_lt in Hx by (rewrite ?length_take; lia). split; [lia|done].
Qed.

Lemma heap_appended : heap_ok cmp xs n -> up_ok cmp appended (Datatypes.S n) n.
Proof.
  intros Hh. split.
  - intros j Hj Hne a b Ha Hb. pose proof (par_lt j ltac:(lia)).
    apply lookup_appended in Ha as [[]|[_ Ha]]; [lia| |lia]. apply lookup_appended in Hb as [[]|[_ Hb]]; [lia| |lia]. apply (Hh j); (done || lia).
  - intros H0 c Hc Hpc. pose proof (par_lt c ltac:(lia)). lia.
Qed.

Lemma placed_appended s s' : placed xs n s -> same s s' -> alive s (data e) -> pos s' (data e) = Some (Z.of_nat n) ->
  (forall d, d <> data e -> pos s' d = pos s d) -> data e ∉ map data (take n xs) -> placed appended (Datatypes.S n) s'.
Proof.
  intros Hpl Hs Ha Hp Hf Hd i x Hi Hx. apply lookup_appended in Hx as [[-> ->]|[Hi' Hx]]; [split; [by apply (still_alive s)|done]| |done].
  destruct (Hpl i x Hi' Hx) as [Hxa Hxp]. split; [by apply (still_alive s)|]. rewrite Hf; [done|].
  intros Heq. apply Hd. rewrite <- Heq. by apply (in_live n xs i).
Qed.

End appended.

Lemma push_ok pq s k d mem : pq_inv pq s -> alive s d -> d ∉ map data (live pq) -> count pq < 2 ^ 31 ->
  0 < capacity pq -> mem = true \/ count pq < capacity pq ->
  exists pq' s', xqc_pq_push cmp eop pq s k d mem = Some (pq', s', true) /\ pq_inv pq' s' /\ live pq' ≡ₚ mk_el k d :: live pq
    /\ touches (d :: map data (live pq)) s s' /\ count pq' = count pq + 1 /\ capacity pq <= capacity pq'.
Proof.
  intros [I1 I2 I3 I4 I5 I6] Ha Hd Hw Hcap Hm. destruct (grow_ok pq mem I1 Hw Hcap Hm) as (cap' & Eg & Hc1 & Hc2).
  unfold xqc_pq_push. rewrite Eg. unfold append_element. cbn [elements count capacity]. unfold live in *.
  set (n := Z.to_nat (count pq)) in *. set (e := mk_el k d). change (take n _ ++ _) with (appended (elements pq) n e).
  destruct (eop_ok (count pq) e s) as (s1 & -> & S1 & P1 & F1); [lia|done|]. cbn [mbind option_bind]. unfold xqc_pq_move_towards_top.
  rewrite u32_small by lia. replace (count pq) with (Z.of_nat n) in * by lia.
  assert (take (Datatypes.S n) (appended (elements pq) n e) ≡ₚ e :: take n (elements pq)) as Hperm
    by (rewrite take_appended by done; by rewrite Permutation_app_comm).
  destruct (top_loop_ok (Datatypes.S n) (Z.of_nat n + 1) cap' n n (appended (elements pq) n e) s1) as (xs2 & s2 & i2 & E2 & M2 & H2); try lia.
  - by apply length_appended.
  - rewrite Hperm. by constructor.
  - by apply (placed_appended (elements pq) n e I3 s).
  - by apply heap_appended.
  - rewrite Nat2Z.id, E2. cbn [mbind option_bind]. exists (mk_pq xs2 (Z.of_nat n + 1) cap'), s2. cbn [count capacity elements].
    replace (Z.to_nat (Z.of_nat n + 1)) with (Datatypes.S n) by lia. pose proof (mv_perm _ _ _ _ _ M2) as Hl. rewrite Hperm in Hl.
    split_and!; try done; [split; cbn [count capacity elements]; unfold live; cbn [count elements];
      replace (Z.to_nat (Z.of_nat n + 1)) with (Datatypes.S n) by lia; try (clear - I1 Hc1 Hw; lia); try done|].
    + rewrite (mv_len _ _ _ _ _ M2). by apply length_appended.
    + rewrite Hl. by constructor.
    + apply M2.
    + apply (touches_trans _ s s1 s2); [split; [done|]; intros d' Hd'; apply F1; set_solver|].
      apply moved_touches in M2. by rewrite Hperm in M2.
Qed.

(** The array in which the last element takes the place of another one. *)
Section replaced.

Context (xs : list xqc_pq_element_t) (n i : nat) (e el : xqc_pq_element_t).
Context (Hi : (i < n)%nat) (Hn : (n < length xs)%nat) (He : xs !! i = Some e) (Hel : xs !! n = Some el).

Lemma take_replaced : e :: take n (<[i := el]> xs) ≡ₚ take (Datatypes.S n) xs.
Proof.
  rewrite (take_S_r _ _ _ Hel), take_insert_lt by done. rewrite <- (insert_perm (take n xs) i e el) by by rewrite lookup_take_lt.
  by rewrite Permutation_cons_append.
Qed.

Lemma heap_replaced : heap_ok cmp xs (Datatypes.S n) -> down_ok cmp (<[i := el]> xs) n i i.
Proof.
  intros Hh. split.
  - intros j Hj Hp Hor a b Ha Hb. rewrite list_lookup_insert_ne in Ha, Hb by (lia || done). apply (Hh j); (done || lia).
  - intros H0 c Hc Hpc a b Ha Hb. pose proof (par_lt i H0). pose proof (par_lt c ltac:(lia)).
    rewrite list_lookup_insert_ne in Ha, Hb by lia.
    apply (le_at_trans cmp xs (par i) i c); try done; [by exists e|apply Hh; lia|rewrite <- Hpc; apply Hh; lia].
Qed.

Lemma placed_replaced s s' : NoDup (map data (take (Datatypes.S n) xs)) -> placed xs (Datatypes.S n) s -> same s s' ->
  pos s' (data el) = Some (Z.of_nat i) -> (forall d, d <> data el -> pos s' d = pos s d) -> placed (<[i := el]> xs) n s'.
Proof.
  intros Hnd Hpl Hs Hp Hf k x Hk Hx. destruct (decide (k = i)) as [->|Hki].
  - rewrite list_lookup_insert_eq in Hx by lia. injection Hx as <-. destruct (Hpl n el ltac:(lia) Hel) as [Ha _]. split; [by apply (still_alive s)|done].
  - rewrite list_lookup_insert_ne in Hx by done. destruct (Hpl k x ltac:(lia) Hx) as [Ha Hxp]. split; [by apply (still_alive s)|].
    rewrite Hf; [done|]. apply (nodup_ne (Datatypes.S n) xs k n); (done || lia).
Qed.

End replaced.

Lemma heap_prefix xs n m : (m <= n)%nat -> heap_ok cmp xs n -> heap_ok cmp xs m.
Proof. intros Hm Hh j Hj. apply Hh. lia. Qed.

Lemma placed_prefix xs n m s : (m <= n)%nat -> placed xs n s -> placed xs m s.
Proof. intros Hm Hp i e Hi He. apply Hp; [lia|done]. Qed.

(** The last element leaves: it is copied onto itself, and neither loop moves anything. *)
Lemma remove_last xs n cap s e : (0 < n)%nat -> (n < length xs)%nat -> Z.of_nat n < 2 ^ 31 -> xs !! n = Some e -> heap_ok cmp xs (Datatypes.S n) ->
  NoDup (map data (take (Datatypes.S n) xs)) -> placed xs (Datatypes.S n) s ->
  exists s', (s ← eop (Z.of_nat n) e s;
     '(pq, s) ← xqc_pq_move_towards_bottom cmp eop (set_element (mk_pq xs (Z.of_nat n) cap) (Z.of_nat n) e) s (Z.of_nat n);
     '(pq, s, _) ← xqc_pq_move_towards_top cmp eop pq s (Z.of_nat n); Some (pq, s)) = Some (mk_pq xs (Z.of_nat n) cap, s')
    /\ touches [data e] s s' /\ placed xs n s'.
Proof.
  intros H0 Hn Hw He Hh Hnd Hpl. destruct (Hpl n e ltac:(lia) He) as [Ha _].
  destruct (eop_ok (Z.of_nat n) e s) as (s1 & -> & S1 & P1 & F1); [lia|done|]. cbn [mbind option_bind]. exists s1.
  unfold set_element. cbn [elements count capacity]. rewrite Nat2Z.id, list_insert_id by done. unfold xqc_pq_move_towards_bottom. cbn [count].
  assert (bottom_loop cmp eop (Z.to_nat (Z.of_nat n)) (mk_pq xs (Z.of_nat n) cap) s1 (Z.of_nat n) (u32 (2 * Z.of_nat n + 1))
    = Some (mk_pq xs (Z.of_nat n) cap, s1)) as ->.
  { rewrite u32_small by lia. rewrite Nat2Z.id. destruct n; [lia|]. cbn [bottom_loop count]. rewrite u64_small by lia. case_if; [zb|done]. }
  cbn [mbind option_bind]. unfold xqc_pq_move_towards_top. rewrite Nat2Z.id.
  assert (top_loop cmp eop n (mk_pq xs (Z.of_nat n) cap) s1 (Z.of_nat n) = Some (mk_pq xs (Z.of_nat n) cap, s1, Z.of_nat n)) as ->.
  { pose proof (par_lt n H0). destruct (lookup_lt_is_Some_2 xs (par n) ltac:(lia)) as [ej Hej]. pose proof (Hh n ltac:(lia) _ _ Hej He) as Hc.
    pose proof (par_Z n H0) as HpZ. destruct n as [|m]; [lia|]. cbn [top_loop]. case_if; [zb|]. rewrite HpZ.
    unfold xqc_pq_element. cbn [elements]. rewrite !Nat2Z.id, Hej, He. cbn [mbind option_bind]. by rewrite Hc. }
  split_and!; [done|split; [done|]; intros d Hd; apply F1; set_solver|].
  intros k x Hk Hx. destruct (Hpl k x ltac:(lia) Hx) as [Hxa Hxp]. split; [by apply (still_alive s)|].
  rewrite F1; [done|]. apply (nodup_ne (Datatypes.S n) xs k n); (done || lia).
Qed.

(** Another one leaves: the last takes its place and finds its own. *)
Lemma remove_inner xs n i cap s e el : (i < n)%nat -> (n < length xs)%nat -> Z.of_nat n < 2 ^ 31 -> xs !! i = Some e -> xs !! n = Some el ->
  heap_ok cmp xs (Datatypes.S n) -> NoDup (map data (take (Datatypes.S n) xs)) -> placed xs (Datatypes.S n) s ->
  exists xs' s', (s ← eop (Z.of_nat i) el s;
     '(pq, s) ← xqc_pq_move_towards_bottom cmp eop (set_element (mk_pq xs (Z.of_nat n) cap) (Z.of_nat i) el) s (Z.of_nat i);
     '(pq, s, _) ← xqc_pq_move_towards_top cmp eop pq s (Z.of_nat i); Some (pq, s)) = Some (mk_pq xs' (Z.of_nat n) cap, s')
    /\ touches (map data (take (Datatypes.S n) xs)) s s' /\ placed xs' n s' /\ heap_ok cmp xs' n /\ length xs' = length xs
    /\ e :: take n xs' ≡ₚ take (Datatypes.S n) xs.
Proof.
  intros Hi Hn Hw He Hel Hh Hnd Hpl. destruct (Hpl n el ltac:(lia) Hel) as [Ha _].
  pose proof (take_replaced xs n i e el Hi He Hel) as Ht.
  destruct (eop_ok (Z.of_nat i) el s) as (s1 & -> & S1 & P1 & F1); [lia|done|]. cbn [mbind option_bind].
  unfold set_element. cbn [elements count capacity]. rewrite Nat2Z.id. unfold xqc_pq_move_towards_bottom. cbn [count]. rewrite Nat2Z.id.
  assert (NoDup (map data (take n (<[i := el]> xs)))) as Hnd1.
  { rewrite <- Ht in Hnd. by apply NoDup_cons_1_2 in Hnd. }
  destruct (bottom_loop_ok n cap i n i (<[i := el]> xs) s1) as (xs2 & s2 & -> & M2 & U2); try done; try lia; [by rewrite length_insert; lia| |
    by apply (heap_replaced xs n i e el)|].
  { by apply (placed_replaced xs n i el Hi Hn Hel s). }
  cbn [mbind option_bind]. unfold xqc_pq_move_towards_top. rewrite Nat2Z.id.
  destruct (top_loop_ok n (Z.of_nat n) cap i i xs2 s2) as (xs3 & s3 & i3 & -> & M3 & H3); try done; try lia.
  { rewrite (mv_len _ _ _ _ _ M2), length_insert. lia. }
  { by apply (moved_nodup n (<[i := el]> xs) s1 xs2 s2). }
  { apply M2. }
  pose proof (moved_trans n _ _ _ _ _ _ M2 M3) as M. cbn [mbind option_bind]. exists xs3, s3. split_and!; try done; [|apply M| |].
  - apply (touches_trans _ s s1 s3); [split; [done|]; intros d Hd; apply F1; intros ->; apply Hd, (in_live _ xs n); (done || lia)|].
    apply (touches_weaken (map data (take n (<[i := el]> xs)))); [rewrite <- Ht; set_solver|by apply (moved_touches _ _ _ xs3)].
  - by rewrite (mv_len _ _ _ _ _ M), length_insert.
  - by rewrite (mv_perm _ _ _ _ _ M).
Qed.

Lemma remove_ok pq s (i : nat) e : pq_inv pq s -> live pq !! i = Some e ->
  exists pq' s', xqc_pq_remove cmp eop pq s (Z.of_nat i) = Some (pq', s') /\ pq_inv pq' s' /\ e :: live pq' ≡ₚ live pq
    /\ touches (map data (live pq)) s s' /\ count pq' = count pq - 1 /\ capacity pq' = capacity pq.
Proof.
  intros [I1 I2 I3 I4 I5 I6] He. destruct pq as [xs cnt cap]. unfold live in *. cbn [count capacity elements] in *.
  apply lookup_take_Some in He as [He Hi]. destruct (Z.to_nat cnt) as [|n] eqn:En; [lia|]. assert (cnt = Z.of_nat n + 1) as -> by lia. clear En.
  unfold xqc_pq_remove, dec_count. cbn [count capacity elements]. replace (Z.of_nat n + 1 - 1) with (Z.of_nat n) by lia. case_if; [zb|].
  destruct (lookup_lt_is_Some_2 xs n ltac:(lia)) as [el Hel]. case_if; zify_bools.
  - assert (n = 0%nat) as -> by lia. assert (i = 0%nat) as -> by lia. exists (mk_pq xs 0 cap), s. cbn [count capacity elements].
    split_and!; try done; [|by rewrite (take_S_r _ _ _ He)]. split; cbn [count capacity elements]; try lia; try (intros ? ?; lia). constructor.
  - unfold xqc_pq_element. cbn [elements]. rewrite Nat2Z.id, Hel. cbn [mbind option_bind]. destruct (decide (i = n)) as [->|Hne].
    + assert (el = e) as -> by congruence. destruct (remove_last xs n cap s e) as (s' & -> & T & P'); try done; try lia. exists (mk_pq xs (Z.of_nat n) cap), s'.
      cbn [count capacity elements]. rewrite Nat2Z.id. rewrite (take_S_r _ _ _ Hel) in *. split_and!; try done; try lia.
      * split; cbn [count capacity elements]; rewrite ?Nat2Z.id; try done; try lia; [by apply (heap_prefix xs (Datatypes.S n)); [lia|]|].
        unfold live. cbn [count elements]. rewrite Nat2Z.id. rewrite map_app in I5. by apply NoDup_app in I5 as [? _].
      * by rewrite Permutation_cons_append.
      * eapply touches_weaken; [|exact T]. rewrite map_app. set_solver.
    + destruct (remove_inner xs n i cap s e el) as (xs' & s' & -> & T & P' & H' & L' & Pm); try done; try lia.
      exists (mk_pq xs' (Z.of_nat n) cap), s'. cbn [count capacity elements]. rewrite Nat2Z.id. split_and!; try done; try lia.
      split; cbn [count capacity elements]; rewrite ?Nat2Z.id; try done; try lia.
      unfold live. cbn [count elements]. rewrite Nat2Z.id. rewrite <- Pm in I5. by apply NoDup_cons_1_2 in I5.
Qed.

Lemma pop_is_remove pq s : 0 <= count pq -> xqc_pq_pop cmp eop pq s = xqc_pq_remove cmp eop pq s 0.
Proof.
  intros Hc. unfold xqc_pq_pop, xqc_pq_remove. destruct (count pq =? 0) eqn:E0; zify_bools.
  - rewrite E0. done.
  - destruct (count pq <=? 0) eqn:E1; [zb|]. cbn [orb]. case_if; [done|].
    destruct (xqc_pq_element _ _) as [e|]; [|done]. cbn [mbind option_bind]. destruct (eop 0 e s) as [s1|]; [|done]. cbn [mbind option_bind].
    destruct (xqc_pq_move_towards_bottom _ _ _ _ _) as [[pq1 s2]|]; done.
Qed.

(** The top goes before everything in the queue. *)
Lemma top_ok pq s : pq_inv pq s -> count pq <> 0 ->
  exists e, xqc_pq_top pq = Some (Some e) /\ live pq !! 0%nat = Some e /\ forall x, x ∈ live pq -> cmp (key e) (key x) = false.
Proof.
  intros [I1 I2 I3 I4 I5 I6] H0. destruct (lookup_lt_is_Some_2 (elements pq) 0%nat ltac:(lia)) as [e He]. exists e. unfold xqc_pq_top.
  case_if; [zb|]. unfold xqc_pq_element. change (Z.to_nat 0) with 0%nat. rewrite He. cbn [mbind option_bind]. split_and!; [done| |].
  - unfold live. by rewrite lookup_take_lt by lia.
  - intros x [j Hj]%list_elem_of_lookup. unfold live in Hj. apply lookup_take_Some in Hj as [Hj Hjn].
    by apply (heap_root cmp (elements pq) (Z.to_nat (count pq)) I4 I3 j Hjn).
Qed.

Lemma top_empty pq : count pq = 0 -> xqc_pq_top pq = Some None.
Proof. intros H. unfold xqc_pq_top. by rewrite H. Qed.

Lemma init_inv cap s pq : 0 <= cap -> xqc_pq_init cap true = Ok pq -> pq_inv pq s /\ live pq = [] /\ 0 < capacity pq.
Proof.
  unfold xqc_pq_init. intros Hc. case_if; [done|]. intros [= <-]. zify_bools. split; [|split; [done|]; cbn; lia].
  split; cbn; try lia; try (intros ? ?; lia). constructor.
Qed.

End move.

(** C11: The priority queue is a set of elements with a first one.  For any order and any callback that
    records places: an element that is pushed is in the queue beside the others, also when the array
    grows; a pop takes out the top, before which no element of the queue goes; a removal by place
    takes out the element at that place; and after each the owners' records of places are right. *)
Theorem priority_queue_correct cmp {S : Type} (eop : Z -> xqc_pq_element_t -> S -> option S) alive pos same
    (Ho : PqOrder cmp) (Hcb : PqCallback eop alive pos same) pq s : pq_inv cmp (alive := alive) (pos := pos) pq s ->
  (forall k d mem, alive s d -> d ∉ map data (live pq) -> count pq < 2 ^ 31 -> 0 < capacity pq -> mem = true \/ count pq < capacity pq ->
     exists pq' s', xqc_pq_push cmp eop pq s k d mem = Some (pq', s', true) /\ pq_inv cmp (alive := alive) (pos := pos) pq' s'
       /\ live pq' ≡ₚ mk_el k d :: live pq)
  /\ (count pq <> 0 -> exists e pq' s', xqc_pq_top pq = Some (Some e) /\ xqc_pq_pop cmp eop pq s = Some (pq', s')
       /\ pq_inv cmp (alive := alive) (pos := pos) pq' s' /\ e :: live pq' ≡ₚ live pq /\ forall x, x ∈ live pq -> cmp (key e) (key x) = false)
  /\ (forall (i : nat) e, live pq !! i = Some e -> exists pq' s', xqc_pq_remove cmp eop pq s (Z.of_nat i) = Some (pq', s')
       /\ pq_inv cmp (alive := alive) (pos := pos) pq' s' /\ e :: live pq' ≡ₚ live pq).
Proof.
  intros Hq. split_and!.
  - intros k d mem Ha Hd Hw Hc Hm. destruct (push_ok cmp eop pq s k d mem Hq Ha Hd Hw Hc Hm) as (pq' & s' & E & H1 & H2 & _). by exists pq', s'.
  - intros H0. destruct (top_ok cmp pq s Hq H0) as (e & Et & Hl & Hmin). destruct (remove_ok cmp eop pq s 0 e Hq Hl) as (pq' & s' & E & H1 & H2 & _).
    exists e, pq', s'. split_and!; try done. pose proof (pi_count _ _ _ Hq). by rewrite pop_is_remove by lia.
  - intros i e Hl. destruct (remove_ok cmp eop pq s i e Hq Hl) as (pq' & s' & E & H1 & H2 & _). by exists pq', s'.
Qed.

(** A callback that keeps the places in an association list. *)
Definition record_place (i : Z) (e : xqc_pq_element_t) (m : list (Z * Z)) : option (list (Z * Z)) := Some ((data e, i) :: m).

Definition place_of (m : list (Z * Z)) (d : Z) : option Z := snd <$> List.find (fun p => fst p =? d) m.

#[export] Instance record_place_callback : PqCallback record_place (fun _ _ => True) place_of (fun _ _ => True).
Proof.
  split; [by split|done|]. intros i e s _ _. eexists. split_and!; [done|done| |].
  - unfold place_of. simpl. by rewrite Z.eqb_refl.
  - intros d Hd. unfold place_of. simpl. case_if; [zb|done].
Qed.

Definition sample_heap : xqc_pq_t := mk_pq [mk_el 3 30; mk_el 5 50; mk_el 4 40] 3 4.

Definition sample_places : list (Z * Z) := [(30, 0); (50, 1); (40, 2)].

Lemma sample_heap_inv : pq_inv xqc_pq_revert_cmp (alive := fun _ _ => True) (pos := place_of) sample_heap sample_places.
Proof.
  split; try by_decide.
  - intros j Hj a b Ha Hb. destruct j as [|[|[|j]]]; [cbn in *; lia| | |cbn in *; lia]; vm_compute in Ha, Hb; by simplify_eq.
  - intros i e Hi He. destruct i as [|[|[|i]]]; [| | |cbn in *; lia]; vm_compute in He; by simplify_eq.
Qed.

Lemma priority_queue_correct_witness : count sample_heap <> 0
  /\ exists e pq' s', xqc_pq_top sample_heap = Some (Some e) /\ xqc_pq_pop xqc_pq_revert_cmp record_place sample_heap sample_places = Some (pq', s')
       /\ pq_inv xqc_pq_revert_cmp (alive := fun _ _ => True) (pos := place_of) pq' s' /\ e :: live pq' ≡ₚ live sample_heap
       /\ forall x, x ∈ live sample_heap -> xqc_pq_revert_cmp (key e) (key x) = false.
Proof.
  split; [by_decide|]. apply (priority_queue_correct xqc_pq_revert_cmp record_place (fun _ _ => True) place_of (fun _ _ => True)
    revert_cmp_order record_place_callback sample_heap sample_places sample_heap_inv). by_decide.
Defined.

End PriorityQSpec.
