(* ===== verification/EngineQueues.v ===== *)
(** The two queues of the engine (transport/xqc_engine.c, transport/xqc_utils.c): connections that
    are to be processed, the one that was processed longest ago first, and connections that wait
    for a time, the earliest first.  A connection records its place in its queue itself. *)

From stdpp Require Import base numbers list gmap.
From S2P Require Import Prelude PriorityQ.
Import PriorityQ.

Module EngineQueues.

Definition XQC_EMALLOC : Z := 603.

Definition XQC_CONN_FLAG_WAIT_WAKEUP : Z := Z.shiftl 1 0.

Definition XQC_CONN_FLAG_TICKING : Z := Z.shiftl 1 3.

(** What the queues use of a connection. *)
Record xqc_connection_t := mk_conn {
  conn_flag : Z;
  next_tick_time : Z;
  last_ticked_time : Z;
  wakeup_pq_index : Z;
}.

(** The connections are at their addresses. *)
Abbreviation heap := (gmap Z xqc_connection_t).

Record xqc_engine_t := mk_eng {
  conns_active_pq : xqc_pq_t;
  conns_wait_wakeup_pq : xqc_pq_t;
  conns : heap;
}.

Definition has_flag (f : Z) (c : xqc_connection_t) : bool := negb (Z.land (conn_flag c) f =? 0).

Definition with_flag (f : Z) (c : xqc_connection_t) : xqc_connection_t := mk_conn f (next_tick_time c) (last_ticked_time c) (wakeup_pq_index c).

Definition set_flag (f : Z) (c : xqc_connection_t) : xqc_connection_t := with_flag (Z.lor (conn_flag c) f) c.

Definition clear_flag (f : Z) (c : xqc_connection_t) : xqc_connection_t := with_flag (Z.land (conn_flag c) (Z.lnot f)) c.

Definition set_index (i : Z) (c : xqc_connection_t) : xqc_connection_t := mk_conn (conn_flag c) (next_tick_time c) (last_ticked_time c) i.

Definition set_next_tick_time (t : Z) (c : xqc_connection_t) : xqc_connection_t := mk_conn (conn_flag c) t (last_ticked_time c) (wakeup_pq_index c).

(** ** The queues of connections *)

Definition xqc_engine_conn_pq_operator (i : Z) (e : xqc_pq_element_t) (h : heap) : option heap :=
  if data e =? 0 then Some h else c ← h !! data e; Some (<[data e := set_index (u32 i) c]> h).

Definition xqc_engine_conns_pq_create (capacity : Z) (mem : bool) : res xqc_pq_t := xqc_pq_init capacity mem.

Definition xqc_conns_pq_push (pq : xqc_pq_t) (h : heap) (conn time_us : Z) (mem : bool) : option (xqc_pq_t * heap * bool) :=
  xqc_pq_push xqc_pq_revert_cmp xqc_engine_conn_pq_operator pq h time_us conn mem.

Definition xqc_conns_pq_pop (pq : xqc_pq_t) (h : heap) : option (xqc_pq_t * heap) :=
  xqc_pq_pop xqc_pq_revert_cmp xqc_engine_conn_pq_operator pq h.

Definition xqc_conns_pq_top (pq : xqc_pq_t) : option (option xqc_pq_element_t) := xqc_pq_top pq.

(** The connection at the top, 0 where there is none. *)
Definition xqc_conns_pq_pop_top_conn (pq : xqc_pq_t) (h : heap) : option (xqc_pq_t * heap * Z) :=
  el ← xqc_conns_pq_top pq;
  let conn := match el with None => 0 | Some e => data e end in
  '(pq, h) ← xqc_conns_pq_pop pq h;
  Some (pq, h, conn).

Definition xqc_conns_pq_remove (pq : xqc_pq_t) (h : heap) (conn : Z) : option (xqc_pq_t * heap) :=
  c ← h !! conn;
  xqc_pq_remove xqc_pq_revert_cmp xqc_engine_conn_pq_operator pq h (wakeup_pq_index c).

(** ** The queues of the engine *)

Definition upd_conn (f : xqc_connection_t -> xqc_connection_t) (conn : Z) (h : heap) : heap := alter f conn h.

Definition unqueued (c : xqc_connection_t) : bool := negb (has_flag (Z.lor XQC_CONN_FLAG_WAIT_WAKEUP XQC_CONN_FLAG_TICKING) c).

Definition xqc_engine_add_wakeup_queue (eng : xqc_engine_t) (conn : Z) (mem : bool) : option (xqc_engine_t * res unit) :=
  c ← conns eng !! conn;
  if unqueued c then
    '(pq, h, ok) ← xqc_conns_pq_push (conns_wait_wakeup_pq eng) (conns eng) conn (next_tick_time c) mem;
    Some (if ok : bool
          then (mk_eng (conns_active_pq eng) pq (upd_conn (set_flag XQC_CONN_FLAG_WAIT_WAKEUP) conn h), Ok tt)
          else (mk_eng (conns_active_pq eng) pq h, Err XQC_EMALLOC))
  else Some (eng, Ok tt).

Definition xqc_engine_remove_wakeup_queue (eng : xqc_engine_t) (conn : Z) : option xqc_engine_t :=
  c ← conns eng !! conn;
  if has_flag XQC_CONN_FLAG_WAIT_WAKEUP c then
    '(pq, h) ← xqc_conns_pq_remove (conns_wait_wakeup_pq eng) (conns eng) conn;
    Some (mk_eng (conns_active_pq eng) pq (upd_conn (clear_flag XQC_CONN_FLAG_WAIT_WAKEUP) conn h))
  else Some eng.

(** [now] is the clock that is read where the push fails, [mem'] the answer of the allocator to the
    second push. *)
Definition xqc_engine_add_active_queue (eng : xqc_engine_t) (conn now : Z) (mem mem' : bool) : option (xqc_engine_t * res unit) :=
  c ← conns eng !! conn;
  if unqueued c then
    '(pq, h, ok) ← xqc_conns_pq_push (conns_active_pq eng) (conns eng) conn (last_ticked_time c) mem;
    if ok : bool then Some (mk_eng pq (conns_wait_wakeup_pq eng) (upd_conn (set_flag XQC_CONN_FLAG_TICKING) conn h), Ok tt)
    else
      let eng := mk_eng pq (conns_wait_wakeup_pq eng) (upd_conn (set_next_tick_time now) conn h) in
      '(eng, _) ← xqc_engine_add_wakeup_queue eng conn mem';
      Some (eng, Err XQC_EMALLOC)
  else Some (eng, Ok tt).

Definition xqc_engine_remove_active_queue (eng : xqc_engine_t) (conn : Z) : option xqc_engine_t :=
  c ← conns eng !! conn;
  if has_flag XQC_CONN_FLAG_TICKING c then
    '(pq, h) ← xqc_conns_pq_remove (conns_active_pq eng) (conns eng) conn;
    Some (mk_eng pq (conns_wait_wakeup_pq eng) (upd_conn (clear_flag XQC_CONN_FLAG_TICKING) conn h))
  else Some eng.

(** In microseconds from [now]; 0 where nothing waits. *)
Definition xqc_engine_wakeup_after (eng : xqc_engine_t) (now : Z) : option Z :=
  el ← xqc_conns_pq_top (conns_wait_wakeup_pq eng);
  Some (match el with None => 0 | Some e => if now <? key e then key e - now else 1 end).

(** ** The main loop *)

(** [while (!xqc_pq_empty(engine->conns_wait_wakeup_pq))]: connections whose time has come become
    active.  [mem k] answers the allocations of round [k], [clock k] is the time it reads. *)
Fixpoint wakeup_loop (fuel : nat) (k : nat) (eng : xqc_engine_t) (now : Z) (mem : nat -> bool) (clock : nat -> Z) : option xqc_engine_t :=
  if xqc_pq_empty (conns_wait_wakeup_pq eng) then Some eng
  else
    match fuel with
    | O => None
    | S f =>
        el ← xqc_conns_pq_top (conns_wait_wakeup_pq eng);
        match el with
        | Some e =>
            if data e =? 0 then
              '(pq, h) ← xqc_conns_pq_pop (conns_wait_wakeup_pq eng) (conns eng);
              wakeup_loop f (S k) (mk_eng (conns_active_pq eng) pq h) now mem clock
            else if key e <=? now then
              eng ← xqc_engine_remove_wakeup_queue eng (data e);
              '(eng, r) ← xqc_engine_add_active_queue eng (data e) (clock k) (mem k) (mem k);
              match r with Ok _ => wakeup_loop f (S k) eng now mem clock | Err _ => Some eng end
            else Some eng
        | None => Some eng
        end
    end.

Definition wake_due (eng : xqc_engine_t) (now : Z) (mem : nat -> bool) (clock : nat -> Z) : option xqc_engine_t :=
  wakeup_loop (Z.to_nat (count (conns_wait_wakeup_pq eng))) 0 eng now mem clock.

(** [xqc_conns_pq_pop_top_conn(engine->conns_active_pq)]: the connection to process next; it keeps its
    flag while it is processed. *)
Definition take_active (eng : xqc_engine_t) : option (xqc_engine_t * Z) :=
  '(pq, h, conn) ← xqc_conns_pq_pop_top_conn (conns_active_pq eng) (conns eng);
  Some (mk_eng pq (conns_wait_wakeup_pq eng) h, conn).

(** [conn->last_ticked_time = now] *)
Definition ticked (eng : xqc_engine_t) (conn now : Z) : xqc_engine_t :=
  mk_eng (conns_active_pq eng) (conns_wait_wakeup_pq eng)
    (upd_conn (fun c => mk_conn (conn_flag c) (next_tick_time c) now (wakeup_pq_index c)) conn (conns eng)).

(** After the processing of [conn], which is to be woken at [next]: it goes to the queue of those that
    wait. *)
Definition finish_active (eng : xqc_engine_t) (conn next : Z) (mem : bool) : option (xqc_engine_t * res unit) :=
  let h := upd_conn (set_next_tick_time next) conn (conns eng) in
  let h := upd_conn (clear_flag XQC_CONN_FLAG_TICKING) conn h in
  xqc_engine_add_wakeup_queue (mk_eng (conns_active_pq eng) (conns_wait_wakeup_pq eng) h) conn mem.

(** The part that concerns the queues: a connection that is being processed is only marked as
    closed, which is not part of this model; any other leaves the queue of those that wait and is
    freed. The callbacks of the application in between are left out. *)
Definition xqc_conn_destroy (eng : xqc_engine_t) (conn : Z) : option xqc_engine_t :=
  c ← conns eng !! conn;
  if has_flag XQC_CONN_FLAG_TICKING c then Some eng
  else
    eng ← xqc_engine_remove_wakeup_queue eng conn;
    Some (mk_eng (conns_active_pq eng) (conns_wait_wakeup_pq eng) (delete conn (conns eng))).

(** After the processing of a connection that is closed or has no next time: it is destroyed, or
    woken at once where [XQC_ENG_FLAG_NO_DESTROY] is set. *)
Definition drop_active (eng : xqc_engine_t) (conn : Z) (no_destroy mem : bool) : option xqc_engine_t :=
  let h := upd_conn (clear_flag XQC_CONN_FLAG_TICKING) conn (conns eng) in
  if no_destroy then
    let h := upd_conn (set_next_tick_time 0) conn h in
    '(eng, _) ← xqc_engine_add_wakeup_queue (mk_eng (conns_active_pq eng) (conns_wait_wakeup_pq eng) h) conn mem;
    Some eng
  else xqc_conn_destroy (mk_eng (conns_active_pq eng) (conns_wait_wakeup_pq eng) h) conn.

End EngineQueues.
