(* ===== verification/EngineQueuesSpec.v ===== *)
(** The queues of the engine and the flags of its connections agree: a connection is in the queue its
    flag names, once, at the place it records, so that what is taken out by place is that connection;
    no connection is dropped between the queues; what is due is woken. *)

From stdpp Require Import base numbers list gmap sets.
From S2P Require Import Prelude PriorityQ PriorityQSpec EngineQueues.
Import PriorityQ PriorityQSpec EngineQueues.

Module EngineQueuesSpec.

(** ** The callback of the queues *)

Definition alive (h : heap) (d : Z) : Prop := d <> 0 /\ is_Some (h !! d).

Definition pos (h : heap) (d : Z) : option Z := wakeup_pq_index <$> h !! d.

(** Equal but for the recorded places. *)
Definition same (h h' : heap) : Prop := forall d, set_index 0 <$> h !! d = set_index 0 <$> h' !! d.

#[export] Instance engine_callback : PqCallback xqc_engine_conn_pq_operator alive pos same.
Proof.
  split.
  - split; [by intros h d|]. intros h1 h2 h3 H1 H2 d. by rewrite H1.
  - intros h h' d Hs [Hd [c Hc]]. split; [done|]. specialize (Hs d). rewrite Hc in Hs. destruct (h' !! d) as [c'|]; [by exists c'|done].
  - intros i e h Hi [Hd [c Hc]]. unfold xqc_engine_conn_pq_operator. case_if; [zb|]. rewrite Hc. cbn [mbind option_bind].
    eexists. split_and!; [done| | |].
    + intros d. destruct (decide (d = data e)) as [->|Hne]; [by rewrite lookup_insert_eq, Hc|by rewrite lookup_insert_ne].
    + unfold pos. rewrite lookup_insert_eq. simpl. by rewrite u32_small.
    + intros d Hne. unfold pos. by rewrite lookup_insert_ne.
Qed.

Abbreviation queue_inv := (pq_inv xqc_pq_revert_cmp (alive := alive) (pos := pos)).

Abbreviation moves := (touches (pos := pos) (same := same)).

(** The connections of a queue. *)
Definition members (pq : xqc_pq_t) : list Z := map data (live pq).

(** ** Flags *)

Lemma testbit_has n c : 0 <= n -> has_flag (Z.shiftl 1 n) c = Z.testbit (conn_flag c) n.
Proof.
  intros Hn. unfold has_flag. destruct (Z.testbit (conn_flag c) n) eqn:E.
  - apply negb_true_iff, Z.eqb_neq. intros H0. assert (Z.testbit (Z.land (conn_flag c) (Z.shiftl 1 n)) n = true) as H1.
    { rewrite Z.land_spec, E, Z.shiftl_spec, Z.sub_diag by lia. done. }
    by rewrite H0, Z.bits_0 in H1.
  - apply negb_false_iff, Z.eqb_eq. apply Z.bits_inj'. intros m Hm. rewrite Z.land_spec, Z.bits_0.
    destruct (decide (m = n)) as [->|Hne]; [by rewrite E|]. rewrite Z.shiftl_spec by lia.
    replace (Z.testbit 1 (m - n)) with false; [by rewrite andb_false_r|]. symmetry.
    destruct (decide (m < n)); [apply Z.testbit_neg_r; lia|]. apply (Z.bits_above_log2 1 (m - n)); [lia|]. change (Z.log2 1) with 0. lia.
Qed.

Definition waiting (c : xqc_connection_t) : bool := Z.testbit (conn_flag c) 0.

Definition ticking (c : xqc_connection_t) : bool := Z.testbit (conn_flag c) 3.

Lemma has_wait c : has_flag XQC_CONN_FLAG_WAIT_WAKEUP c = waiting c.
Proof. by apply testbit_has. Qed.

Lemma has_tick c : has_flag XQC_CONN_FLAG_TICKING c = ticking c.
Proof. by apply testbit_has. Qed.

Lemma unqueued_spec c : unqueued c = negb (waiting c) && negb (ticking c).
Proof.
  unfold unqueued. rewrite <- has_wait, <- has_tick. unfold has_flag. rewrite negb_involutive, Z.land_lor_distr_r.
  destruct (Z.land (conn_flag c) XQC_CONN_FLAG_WAIT_WAKEUP =? 0) eqn:E1, (Z.land (conn_flag c) XQC_CONN_FLAG_TICKING =? 0) eqn:E2; cbn [negb andb]; zify_bools.
  - by rewrite E1, E2.
  - rewrite E1, Z.lor_0_l. by apply Z.eqb_neq.
  - rewrite E2, Z.lor_0_r. by apply Z.eqb_neq.
  - apply Z.eqb_neq. intros H. apply Z.lor_eq_0_iff in H. lia.
Qed.

Lemma set_bit f n m c : f = Z.shiftl 1 n -> 0 <= n -> 0 <= m -> Z.testbit (conn_flag (set_flag f c)) m = (m =? n) || Z.testbit (conn_flag c) m.
Proof. 
  intros -> Hn Hm. unfold set_flag, with_flag. cbn [conn_flag]. rewrite Z.lor_spec, Z.shiftl_1_l, Z.pow2_bits_eqb by lia.
  rewrite orb_comm. f_equal. apply Z.eqb_sym.
Qed.

Lemma clear_bit f n m c : f = Z.shiftl 1 n -> 0 <= n -> 0 <= m -> Z.testbit (conn_flag (clear_flag f c)) m = negb (m =? n) && Z.testbit (conn_flag c) m.
Proof.
  intros -> Hn Hm. unfold clear_flag, with_flag. cbn [conn_flag]. rewrite Z.land_spec, Z.lnot_spec, Z.shiftl_1_l, Z.pow2_bits_eqb by lia.
  rewrite andb_comm. f_equal. f_equal. apply Z.eqb_sym.
Qed.

(** ** One queue beside another *)

Lemma members_alive pq h d : queue_inv pq h -> d ∈ members pq -> alive h d.
Proof.
  intros Hq (e & -> & [i Hi]%list_elem_of_lookup)%list_elem_of_fmap. unfold live in Hi. apply lookup_take_Some in Hi as [Hi Hn].
  by destruct (pi_placed _ _ _ Hq i e Hn Hi).
Qed.

Lemma members_place pq h d : queue_inv pq h -> d ∈ members pq -> exists (i : nat) e c, live pq !! i = Some e /\ data e = d /\ h !! d = Some c
  /\ wakeup_pq_index c = Z.of_nat i.
Proof.
  intros Hq (e & -> & [i Hi]%list_elem_of_lookup)%list_elem_of_fmap. exists i, e. pose proof Hi as Hi'. unfold live in Hi.
  apply lookup_take_Some in Hi as [Hi Hn]. destruct (pi_placed _ _ _ Hq i e Hn Hi) as [[_ [c Hc]] Hp]. exists c.
  unfold pos in Hp. rewrite Hc in Hp. simpl in Hp. split_and!; [done|done|done|congruence].
Qed.

Lemma queue_inv_frame pq h h' : queue_inv pq h -> (forall d, d ∈ members pq -> (alive h d -> alive h' d) /\ pos h' d = pos h d) -> queue_inv pq h'.
Proof.
  intros [I1 I2 I3 I4 I5 I6] Hf. split; try done. intros i e Hi He.
  destruct (Hf (data e)) as [Ha Hp]; [by apply (in_live _ _ i)|]. destruct (I6 i e Hi He) as [Ha' Hp']. split; [by apply Ha|by rewrite Hp].
Qed.

Lemma queue_inv_moves pq h h' ds : queue_inv pq h -> moves ds h h' -> (forall d, d ∈ members pq -> d ∉ ds) -> queue_inv pq h'.
Proof.
  intros Hq [Hs Hf] Hd. apply (queue_inv_frame pq h); [done|]. intros d Hm. split; [by apply (same_alive (eop := xqc_engine_conn_pq_operator))|].
  by apply Hf, Hd.
Qed.

Lemma upd_pos f conn h : (forall c, wakeup_pq_index (f c) = wakeup_pq_index c) -> forall d, pos (upd_conn f conn h) d = pos h d.
Proof.
  intros Hf d. unfold pos, upd_conn. destruct (decide (conn = d)) as [->|Hne]; [|by rewrite lookup_alter_ne].
  rewrite lookup_alter_eq. destruct (h !! d); [|done]. simpl. by rewrite Hf.
Qed.

Lemma upd_alive f conn h d : alive h d -> alive (upd_conn f conn h) d.
Proof.
  intros [H0 [c Hc]]. split; [done|]. unfold upd_conn. destruct (decide (conn = d)) as [->|Hne]; [|by rewrite lookup_alter_ne, Hc].
  rewrite lookup_alter_eq, Hc. by eexists.
Qed.

Lemma queue_inv_upd pq h f conn : (forall c, wakeup_pq_index (f c) = wakeup_pq_index c) -> queue_inv pq h -> queue_inv pq (upd_conn f conn h).
Proof. intros Hf Hq. apply (queue_inv_frame pq h); [done|]. intros d _. split; [apply upd_alive|by apply upd_pos]. Qed.

Lemma same_lookup h h' d c' : same h h' -> h' !! d = Some c' ->
  exists c, h !! d = Some c /\ conn_flag c' = conn_flag c /\ next_tick_time c' = next_tick_time c /\ last_ticked_time c' = last_ticked_time c.
Proof.
  intros Hs Hc'. specialize (Hs d). rewrite Hc' in Hs. destruct (h !! d) as [c|]; [|done]. simpl in Hs. injection Hs as H1 H2 H3.
  by exists c.
Qed.

Lemma same_dom h h' : same h h' -> dom h' = dom h.
Proof.
  intros Hs. apply set_eq. intros d. rewrite !elem_of_dom. specialize (Hs d). destruct (h !! d), (h' !! d); try done; split; by intros [].
Qed.

(** The count of a queue is bounded by the number of connections. *)
Lemma count_size pq h : queue_inv pq h -> count pq <= Z.of_nat (size h).
Proof.
  intros Hq. pose proof (pi_nodup _ _ _ Hq) as Hnd. pose proof (pi_len _ _ _ Hq) as Hl. pose proof (pi_count _ _ _ Hq).
  assert (list_to_set (members pq) ⊆@{gset Z} dom h) as Hsub.
  { intros d Hd%elem_of_list_to_set. apply elem_of_dom. by apply (members_alive pq h d Hq). }
  apply subseteq_size in Hsub. rewrite size_list_to_set in Hsub by done. rewrite size_dom in Hsub. unfold members, live in Hsub.
  rewrite length_map, length_take in Hsub. lia.
Qed.

(** ** Flags and membership *)

(** [A] are the active connections, [W] those that wait, [r] the one that is being processed. *)
Definition flags_ok (r : option Z) (A W : list Z) (h : heap) : Prop :=
  forall x c, h !! x = Some c -> x <> 0 /\ (ticking c = true <-> x ∈ A \/ r = Some x) /\ (waiting c = true <-> x ∈ W)
    /\ waiting c && ticking c = false.

#[export] Instance flags_ok_perm r : Proper ((≡ₚ) ==> (≡ₚ) ==> eq ==> iff) (flags_ok r).
Proof. intros A A' HA W W' HW h h' ->. unfold flags_ok. setoid_rewrite HA. setoid_rewrite HW. done. Qed.

Lemma flags_same r A W h h' : same h h' -> flags_ok r A W h -> flags_ok r A W h'.
Proof.
  intros Hs Hf x c' Hc'. destruct (same_lookup h h' x c' Hs Hc') as (c & Hc & Hfl & _). specialize (Hf x c Hc).
  unfold waiting, ticking in *. by rewrite Hfl.
Qed.

Lemma upd_cases f d (h : heap) x c' : upd_conn f d h !! x = Some c' ->
  (exists c, x = d /\ h !! d = Some c /\ c' = f c) \/ (x <> d /\ h !! x = Some c').
Proof.
  unfold upd_conn. destruct (decide (d = x)) as [->|Hne]; [|rewrite lookup_alter_ne by done; by right].
  rewrite lookup_alter_eq. destruct (h !! x) as [c|]; [|done]. intros [= <-]. left. by exists c.
Qed.

Lemma flags_upd r A W h f d : (forall c, conn_flag (f c) = conn_flag c) -> flags_ok r A W h -> flags_ok r A W (upd_conn f d h).
Proof.
  intros Hfl Hf x c' [(c & -> & Hc & ->)|[Hne Hc]]%upd_cases; [|by apply Hf]. specialize (Hf d c Hc). unfold waiting, ticking in *. by rewrite Hfl.
Qed.

Ltac flag_bits := unfold waiting, ticking in *;
  rewrite ?(set_bit XQC_CONN_FLAG_WAIT_WAKEUP 0), ?(set_bit XQC_CONN_FLAG_TICKING 3), ?(clear_bit XQC_CONN_FLAG_WAIT_WAKEUP 0),
    ?(clear_bit XQC_CONN_FLAG_TICKING 3) by (reflexivity || lia);
  change (0 =? 0) with true; change (3 =? 3) with true; change (0 =? 3) with false; change (3 =? 0) with false;
  cbn [negb orb andb].

Lemma flags_set_wait r A W h d : d ∉ A -> r <> Some d -> flags_ok r A W h -> flags_ok r A (d :: W) (upd_conn (set_flag XQC_CONN_FLAG_WAIT_WAKEUP) d h).
Proof.
  intros HA Hr Hf x c' [(c & -> & Hc & ->)|[Hne Hc]]%upd_cases; [specialize (Hf d c Hc)|specialize (Hf x c' Hc)]; [|set_solver].
  destruct Hf as (H0 & Ht & Hw & Hb). flag_bits. split_and!; [done|done|set_solver|]. destruct (Z.testbit (conn_flag c) 3); [|done].
  exfalso. destruct (proj1 Ht eq_refl); auto.
Qed.

Lemma flags_set_tick r A W h d : d ∉ W -> flags_ok r A W h -> flags_ok r (d :: A) W (upd_conn (set_flag XQC_CONN_FLAG_TICKING) d h).
Proof.
  intros HW Hf x c' [(c & -> & Hc & ->)|[Hne Hc]]%upd_cases; [specialize (Hf d c Hc)|specialize (Hf x c' Hc)]; [|set_solver].
  destruct Hf as (H0 & Ht & Hw & Hb). flag_bits. split_and!; [done|set_solver|done|]. destruct (Z.testbit (conn_flag c) 0); [|done].
  exfalso. by apply HW, Hw.
Qed.

Lemma flags_clear_wait r A W h d : d ∉ W -> flags_ok r A (d :: W) h -> flags_ok r A W (upd_conn (clear_flag XQC_CONN_FLAG_WAIT_WAKEUP) d h).
Proof.
  intros HW Hf x c' [(c & -> & Hc & ->)|[Hne Hc]]%upd_cases; [specialize (Hf d c Hc)|specialize (Hf x c' Hc)]; [|set_solver].
  destruct Hf as (H0 & Ht & Hw & Hb). flag_bits. split_and!; [done|done|set_solver|done].
Qed.

Lemma flags_clear_tick r A W h d : d ∉ A -> r <> Some d -> flags_ok r (d :: A) W h -> flags_ok r A W (upd_conn (clear_flag XQC_CONN_FLAG_TICKING) d h).
Proof.
  intros HA Hr Hf x c' [(c & -> & Hc & ->)|[Hne Hc]]%upd_cases; [specialize (Hf d c Hc)|specialize (Hf x c' Hc)]; [|set_solver].
  destruct Hf as (H0 & Ht & Hw & Hb). flag_bits. split_and!; [done|set_solver|done|by rewrite andb_false_r].
Qed.

Lemma flags_take A W h d : flags_ok None (d :: A) W h -> flags_ok (Some d) A W h.
Proof. intros Hf x c Hc. specialize (Hf x c Hc). set_solver. Qed.

Lemma flags_finish A W h d : d ∉ A -> flags_ok (Some d) A W h -> flags_ok None A W (upd_conn (clear_flag XQC_CONN_FLAG_TICKING) d h).
Proof.
  intros HA Hf x c' [(c & -> & Hc & ->)|[Hne Hc]]%upd_cases; [specialize (Hf d c Hc)|specialize (Hf x c' Hc)]; [|set_solver].
  destruct Hf as (H0 & Ht & Hw & Hb). flag_bits. split_and!; [done|set_solver|done|by rewrite andb_false_r].
Qed.

(** ** The invariant *)

Record eng_inv (r : option Z) (eng : xqc_engine_t) : Prop := {
  ei_active : queue_inv (conns_active_pq eng) (conns eng);
  ei_wait : queue_inv (conns_wait_wakeup_pq eng) (conns eng);
  ei_cap : 0 < capacity (conns_active_pq eng) /\ 0 < capacity (conns_wait_wakeup_pq eng);
  ei_flags : flags_ok r (members (conns_active_pq eng)) (members (conns_wait_wakeup_pq eng)) (conns eng);
  ei_run d : r = Some d -> is_Some (conns eng !! d) /\ d ∉ members (conns_active_pq eng);
  ei_size : Z.of_nat (size (conns eng)) < 2 ^ 31;
}.

(** No connection is in both queues. *)
Lemma queues_disjoint r eng d : eng_inv r eng -> d ∈ members (conns_active_pq eng) -> d ∈ members (conns_wait_wakeup_pq eng) -> False.
Proof.
  intros Hi HA HW. destruct (members_alive _ _ _ (ei_active _ _ Hi) HA) as [_ [c Hc]].
  destruct (ei_flags _ _ Hi d c Hc) as (_ & Ht & Hw & Hb). by rewrite (proj2 Hw HW), (proj2 Ht (or_introl HA)) in Hb.
Qed.

Lemma unqueued_out r eng d c : eng_inv r eng -> conns eng !! d = Some c -> unqueued c = true ->
  alive (conns eng) d /\ d ∉ members (conns_active_pq eng) /\ d ∉ members (conns_wait_wakeup_pq eng) /\ r <> Some d.
Proof.
  intros Hi Hc Hu. rewrite unqueued_spec in Hu. apply andb_true_iff in Hu as [Hw%negb_true_iff Ht%negb_true_iff].
  destruct (ei_flags _ _ Hi d c Hc) as (H0 & Ht' & Hw' & _). rewrite Ht in Ht'. rewrite Hw in Hw'.
  split_and!; [by split|intros HA; discriminate (proj2 Ht' (or_introl HA))|intros HW; discriminate (proj2 Hw' HW)|].
  intros Hr. discriminate (proj2 Ht' (or_intror Hr)).
Qed.

Lemma same_size h h' : same h h' -> size h' = size h.
Proof. intros Hs. by rewrite <- !size_dom, (same_dom h h' Hs). Qed.

Lemma upd_size f d (h : heap) : size (upd_conn f d h) = size h.
Proof. unfold upd_conn. by rewrite <- !size_dom, dom_alter_L. Qed.

Lemma upd_is_Some f d (h : heap) x : is_Some (upd_conn f d h !! x) <-> is_Some (h !! x).
Proof. unfold upd_conn. by rewrite lookup_alter_is_Some. Qed.

(** ** Putting a connection into a queue *)

Lemma add_wakeup_ok r eng d c mem : eng_inv r eng -> conns eng !! d = Some c -> unqueued c = true ->
  mem = true \/ count (conns_wait_wakeup_pq eng) < capacity (conns_wait_wakeup_pq eng) ->
  exists eng', xqc_engine_add_wakeup_queue eng d mem = Some (eng', Ok tt) /\ eng_inv r eng'
    /\ live (conns_wait_wakeup_pq eng') ≡ₚ mk_el (next_tick_time c) d :: live (conns_wait_wakeup_pq eng)
    /\ conns_active_pq eng' = conns_active_pq eng.
Proof.
  intros Hi Hc Hu Hm. destruct (unqueued_out r eng d c Hi Hc Hu) as (Ha & HA & HW & Hr).
  unfold xqc_engine_add_wakeup_queue, xqc_conns_pq_push. rewrite Hc. cbn [mbind option_bind]. rewrite Hu.
  pose proof (count_size _ _ (ei_wait _ _ Hi)). pose proof (ei_size _ _ Hi).
  destruct (push_ok xqc_pq_revert_cmp xqc_engine_conn_pq_operator (conns_wait_wakeup_pq eng) (conns eng) (next_tick_time c) d mem)
    as (pq & h & -> & Hq & Hl & Hmv & Hcnt & Hcap); try done; [by apply Hi|lia|by apply Hi|].
  cbn [mbind option_bind]. eexists. split; [done|]. cbn [conns_wait_wakeup_pq conns_active_pq conns]. split_and!; [|done|done].
  assert (members pq ≡ₚ d :: members (conns_wait_wakeup_pq eng)) as Hmem by (unfold members; by rewrite Hl).
  pose proof (ei_cap _ _ Hi) as [C1 C2]. split; cbn [conns_wait_wakeup_pq conns_active_pq conns].
  - apply queue_inv_upd; [done|]. eapply queue_inv_moves; [apply Hi|exact Hmv|]. intros x Hx Hx'. apply list_elem_of_In in Hx'.
    destruct Hx' as [->|Hx'%list_elem_of_In]; [done|]. by apply (queues_disjoint r eng x).
  - by apply queue_inv_upd.
  - lia.
  - rewrite Hmem. apply flags_set_wait; [done|done|]. apply (flags_same r _ _ (conns eng)); [apply Hmv|apply Hi].
  - intros x Hx. destruct (ei_run _ _ Hi x Hx) as [H1 H2]. split; [|done]. apply upd_is_Some, elem_of_dom.
    rewrite (same_dom (conns eng)) by apply Hmv. by apply elem_of_dom.
  - rewrite upd_size, (same_size (conns eng)) by apply Hmv. lia.
Qed.

Lemma push_active_ok r eng d c mem mem' now : eng_inv r eng -> conns eng !! d = Some c -> unqueued c = true ->
  mem = true \/ count (conns_active_pq eng) < capacity (conns_active_pq eng) ->
  exists eng', xqc_engine_add_active_queue eng d now mem mem' = Some (eng', Ok tt) /\ eng_inv r eng'
    /\ live (conns_active_pq eng') ≡ₚ mk_el (last_ticked_time c) d :: live (conns_active_pq eng)
    /\ conns_wait_wakeup_pq eng' = conns_wait_wakeup_pq eng.
Proof.
  intros Hi Hc Hu Hm. destruct (unqueued_out r eng d c Hi Hc Hu) as (Ha & HA & HW & Hr).
  unfold xqc_engine_add_active_queue, xqc_conns_pq_push. rewrite Hc. cbn [mbind option_bind]. rewrite Hu.
  pose proof (count_size _ _ (ei_active _ _ Hi)). pose proof (ei_size _ _ Hi).
  destruct (push_ok xqc_pq_revert_cmp xqc_engine_conn_pq_operator (conns_active_pq eng) (conns eng) (last_ticked_time c) d mem)
    as (pq & h & -> & Hq & Hl & Hmv & Hcnt & Hcap); try done; [by apply Hi|lia|by apply Hi|].
  cbn [mbind option_bind]. eexists. split; [done|]. cbn [conns_wait_wakeup_pq conns_active_pq conns]. split_and!; [|done|done].
  assert (members pq ≡ₚ d :: members (conns_active_pq eng)) as Hmem by (unfold members; by rewrite Hl).
  pose proof (ei_cap _ _ Hi) as [C1 C2]. split; cbn [conns_wait_wakeup_pq conns_active_pq conns].
  - by apply queue_inv_upd.
  - apply queue_inv_upd; [done|]. eapply queue_inv_moves; [apply Hi|exact Hmv|]. intros x Hx Hx'. apply list_elem_of_In in Hx'.
    destruct Hx' as [->|Hx'%list_elem_of_In]; [done|]. by apply (queues_disjoint r eng x).
  - lia.
  - rewrite Hmem. apply flags_set_tick; [done|]. apply (flags_same r _ _ (conns eng)); [apply Hmv|apply Hi].
  - intros x Hx. destruct (ei_run _ _ Hi x Hx) as [H1 H2]. split; [|rewrite Hmem; set_solver]. apply upd_is_Some, elem_of_dom.
    rewrite (same_dom (conns eng)) by apply Hmv. by apply elem_of_dom.
  - rewrite upd_size, (same_size (conns eng)) by apply Hmv. lia.
Qed.

(** Changes of a connection that concern neither its flags nor its place. *)
Lemma eng_inv_upd r eng f d : (forall c, conn_flag (f c) = conn_flag c) -> (forall c, wakeup_pq_index (f c) = wakeup_pq_index c) ->
  eng_inv r eng -> eng_inv r (mk_eng (conns_active_pq eng) (conns_wait_wakeup_pq eng) (upd_conn f d (conns eng))).
Proof.
  intros Hf1 Hf2 [I1 I2 I3 I4 I5 I6]. split; cbn [conns_wait_wakeup_pq conns_active_pq conns];
    [by apply queue_inv_upd|by apply queue_inv_upd|done|by apply flags_upd| |by rewrite upd_size].
  intros x Hx. destruct (I5 x Hx) as [H1 H2]. split; [by apply upd_is_Some|done].
Qed.

(** Without memory for the active queue the connection goes to the queue of those that wait, to be
    woken at once. *)
Lemma push_active_full r eng d c mem' now : eng_inv r eng -> conns eng !! d = Some c -> unqueued c = true ->
  count (conns_active_pq eng) = capacity (conns_active_pq eng) ->
  mem' = true \/ count (conns_wait_wakeup_pq eng) < capacity (conns_wait_wakeup_pq eng) ->
  exists eng', xqc_engine_add_active_queue eng d now false mem' = Some (eng', Err XQC_EMALLOC) /\ eng_inv r eng'
    /\ live (conns_wait_wakeup_pq eng') ≡ₚ mk_el now d :: live (conns_wait_wakeup_pq eng)
    /\ conns_active_pq eng' = conns_active_pq eng.
Proof.
  intros Hi Hc Hu Hfull Hm. unfold xqc_engine_add_active_queue, xqc_conns_pq_push. rewrite Hc. cbn [mbind option_bind]. rewrite Hu.
  assert (xqc_pq_push xqc_pq_revert_cmp xqc_engine_conn_pq_operator (conns_active_pq eng) (conns eng) (last_ticked_time c) d false
    = Some (conns_active_pq eng, conns eng, false)) as -> by (unfold xqc_pq_push, grow; rewrite Hfull, Z.eqb_refl; done).
  cbn [mbind option_bind]. pose proof (eng_inv_upd r eng (set_next_tick_time now) d (fun _ => eq_refl) (fun _ => eq_refl) Hi) as Hi1.
  destruct (add_wakeup_ok r _ d (set_next_tick_time now c) mem' Hi1) as (eng' & -> & Hi' & Hl & HA); try done.
  - cbn [conns]. unfold upd_conn. by rewrite lookup_alter_eq, Hc.
  - cbn [mbind option_bind]. exists eng'. by split_and!.
Qed.

(** ** Taking a connection out of a queue *)

Lemma remove_wakeup_ok r eng d c : eng_inv r eng -> conns eng !! d = Some c -> waiting c = true ->
  exists eng' k, xqc_engine_remove_wakeup_queue eng d = Some eng' /\ eng_inv r eng'
    /\ mk_el k d :: live (conns_wait_wakeup_pq eng') ≡ₚ live (conns_wait_wakeup_pq eng)
    /\ conns_active_pq eng' = conns_active_pq eng /\ capacity (conns_wait_wakeup_pq eng') = capacity (conns_wait_wakeup_pq eng)
    /\ exists c', conns eng' !! d = Some c' /\ unqueued c' = true /\ last_ticked_time c' = last_ticked_time c.
Proof.
  intros Hi Hc Hw. destruct (ei_flags _ _ Hi d c Hc) as (H0 & Ht & Hw' & Hb). pose proof (proj1 Hw' Hw) as HW. rewrite Hw in Hb. cbn [andb] in Hb.
  destruct (members_place _ _ d (ei_wait _ _ Hi) HW) as (i & e & c0 & Hli & Hde & Hc0 & Hix). assert (c0 = c) as -> by congruence.
  unfold xqc_engine_remove_wakeup_queue, xqc_conns_pq_remove. rewrite Hc. cbn [mbind option_bind]. rewrite has_wait, Hw, Hix.
  destruct (remove_ok xqc_pq_revert_cmp xqc_engine_conn_pq_operator (conns_wait_wakeup_pq eng) (conns eng) i e)
    as (pq & h & -> & Hq & Hl & Hmv & Hcnt & Hcap); [apply Hi|done|]. cbn [mbind option_bind].
  assert (d :: members pq ≡ₚ members (conns_wait_wakeup_pq eng)) as Hmem by (unfold members; rewrite <- Hl, <- Hde; done).
  assert (d ∉ members pq) as Hd by (pose proof (pi_nodup _ _ _ (ei_wait _ _ Hi)) as Hnd; fold (members (conns_wait_wakeup_pq eng)) in Hnd;
    rewrite <- Hmem in Hnd; by apply NoDup_cons_1_1 in Hnd).
  eexists _, (key e). split; [done|]. cbn [conns_wait_wakeup_pq conns_active_pq conns].
  split_and!; [|by destruct e; simpl in *; subst|done|done|].
  - pose proof (ei_cap _ _ Hi). split; cbn [conns_wait_wakeup_pq conns_active_pq conns].
    + apply queue_inv_upd; [done|]. eapply queue_inv_moves; [apply Hi|exact Hmv|]. intros x Hx Hx'. by apply (queues_disjoint r eng x).
    + by apply queue_inv_upd.
    + lia.
    + apply flags_clear_wait; [done|]. rewrite Hmem. apply (flags_same r _ _ (conns eng)); [apply Hmv|apply Hi].
    + intros x Hx. destruct (ei_run _ _ Hi x Hx) as [H1 H2]. split; [|done]. apply upd_is_Some, elem_of_dom.
      rewrite (same_dom (conns eng)) by apply Hmv. by apply elem_of_dom.
    + rewrite upd_size, (same_size (conns eng)) by apply Hmv. apply Hi.
  - assert (is_Some (h !! d)) as [c1 Hc1] by (apply elem_of_dom; rewrite (same_dom (conns eng)) by apply Hmv; apply elem_of_dom; by exists c).
    destruct (same_lookup (conns eng) h d c1) as (c2 & Hc2 & F1 & F2 & F3); [apply Hmv|done|]. assert (c2 = c) as -> by congruence.
    exists (clear_flag XQC_CONN_FLAG_WAIT_WAKEUP c1). unfold upd_conn. rewrite lookup_alter_eq, Hc1. split_and!; [done| |done].
    rewrite unqueued_spec. unfold ticking in Hb. flag_bits. by rewrite F1, Hb.
Qed.

Lemma nodup_out pq h d ds : queue_inv pq h -> d :: ds ≡ₚ members pq -> d ∉ ds.
Proof.
  intros Hq Hm. pose proof (pi_nodup _ _ _ Hq) as Hnd. fold (members pq) in Hnd. rewrite <- Hm in Hnd. by apply NoDup_cons_1_1 in Hnd.
Qed.

(** What remains of the invariant when an element has left the active queue. *)
Lemma active_left r eng pq h d : eng_inv r eng -> queue_inv pq h -> d :: members pq ≡ₚ members (conns_active_pq eng) ->
  moves (members (conns_active_pq eng)) (conns eng) h -> capacity pq = capacity (conns_active_pq eng) ->
  queue_inv (conns_wait_wakeup_pq eng) h /\ 0 < capacity pq /\ d ∉ members pq /\ d <> 0
  /\ flags_ok r (d :: members pq) (members (conns_wait_wakeup_pq eng)) h /\ dom h = dom (conns eng) /\ Z.of_nat (size h) < 2 ^ 31.
Proof.
  intros Hi Hq Hmem Hmv Hcap. pose proof (ei_cap _ _ Hi). split_and!.
  - eapply queue_inv_moves; [apply Hi|exact Hmv|]. intros x Hx Hx'. by apply (queues_disjoint r eng x).
  - lia.
  - by apply (nodup_out (conns_active_pq eng) (conns eng)); [apply Hi|].
  - destruct (members_alive _ _ d (ei_active _ _ Hi)) as [? _]; [rewrite <- Hmem; by left|done].
  - rewrite Hmem. apply (flags_same r _ _ (conns eng)); [apply Hmv|apply Hi].
  - apply (same_dom (conns eng)), Hmv.
  - rewrite (same_size (conns eng)) by apply Hmv. apply Hi.
Qed.

Lemma remove_active_ok r eng d c : eng_inv r eng -> r <> Some d -> conns eng !! d = Some c -> ticking c = true ->
  exists eng' k, xqc_engine_remove_active_queue eng d = Some eng' /\ eng_inv r eng'
    /\ mk_el k d :: live (conns_active_pq eng') ≡ₚ live (conns_active_pq eng) /\ conns_wait_wakeup_pq eng' = conns_wait_wakeup_pq eng.
Proof.
  intros Hi Hr Hc Ht. destruct (ei_flags _ _ Hi d c Hc) as (H0 & Ht' & Hw' & Hb). destruct (proj1 Ht' Ht) as [HA|]; [|done].
  destruct (members_place _ _ d (ei_active _ _ Hi) HA) as (i & e & c0 & Hli & Hde & Hc0 & Hix). assert (c0 = c) as -> by congruence.
  unfold xqc_engine_remove_active_queue, xqc_conns_pq_remove. rewrite Hc. cbn [mbind option_bind]. rewrite has_tick, Ht, Hix.
  destruct (remove_ok xqc_pq_revert_cmp xqc_engine_conn_pq_operator (conns_active_pq eng) (conns eng) i e)
    as (pq & h & -> & Hq & Hl & Hmv & Hcnt & Hcap); [apply Hi|done|]. cbn [mbind option_bind].
  assert (d :: members pq ≡ₚ members (conns_active_pq eng)) as Hmem by (unfold members; rewrite <- Hl, <- Hde; done).
  destruct (active_left r eng pq h d Hi Hq Hmem Hmv Hcap) as (W1 & W2 & W3 & W4 & W5 & W6 & W7).
  eexists _, (key e). split; [done|]. cbn [conns_wait_wakeup_pq conns_active_pq conns]. split_and!; [|by destruct e; simpl in *; subst|done].
  split; cbn [conns_wait_wakeup_pq conns_active_pq conns];
    [by apply queue_inv_upd|by apply queue_inv_upd|split; [done|apply Hi]|by apply flags_clear_tick| |by rewrite upd_size].
  intros x Hx. destruct (ei_run _ _ Hi x Hx) as [H1 H2]. split; [|rewrite <- Hmem in H2; set_solver].
  apply upd_is_Some, elem_of_dom. rewrite W6. by apply elem_of_dom.
Qed.

(** The one that was processed longest ago is next. *)
Lemma take_active_ok eng : eng_inv None eng -> count (conns_active_pq eng) <> 0 ->
  exists eng' e, take_active eng = Some (eng', data e) /\ eng_inv (Some (data e)) eng'
    /\ e :: live (conns_active_pq eng') ≡ₚ live (conns_active_pq eng) /\ (forall x, x ∈ live (conns_active_pq eng) -> key e <= key x)
    /\ conns_wait_wakeup_pq eng' = conns_wait_wakeup_pq eng.
Proof.
  intros Hi H0. destruct (top_ok xqc_pq_revert_cmp (conns_active_pq eng) (conns eng) (ei_active _ _ Hi) H0) as (e & Etop & Hl0 & Hmin).
  unfold take_active, xqc_conns_pq_pop_top_conn, xqc_conns_pq_top. rewrite Etop. cbn [mbind option_bind]. unfold xqc_conns_pq_pop.
  pose proof (pi_count _ _ _ (ei_active _ _ Hi)). rewrite pop_is_remove by lia.
  destruct (remove_ok xqc_pq_revert_cmp xqc_engine_conn_pq_operator (conns_active_pq eng) (conns eng) 0 e)
    as (pq & h & Er & Hq & Hl & Hmv & Hcnt & Hcap); [apply Hi|done|]. change (Z.of_nat 0) with 0 in Er. rewrite Er. cbn [mbind option_bind].
  assert (data e :: members pq ≡ₚ members (conns_active_pq eng)) as Hmem by (unfold members; by rewrite <- Hl).
  destruct (active_left None eng pq h (data e) Hi Hq Hmem Hmv Hcap) as (W1 & W2 & W3 & W4 & W5 & W6 & W7).
  eexists _, e. split; [done|]. cbn [conns_wait_wakeup_pq conns_active_pq conns]. split_and!; [|done| |done].
  - split; cbn [conns_wait_wakeup_pq conns_active_pq conns]; [done|done|split; [done|apply Hi]|by apply flags_take| |done].
    intros x [= <-]. split; [|done]. apply elem_of_dom. rewrite W6. apply elem_of_dom.
    apply (members_alive _ _ _ (ei_active _ _ Hi)). rewrite <- Hmem. by left.
  - intros x Hx. specialize (Hmin x Hx). unfold xqc_pq_revert_cmp in Hmin. zb.
Qed.

Lemma finish_active_ok eng d next mem : eng_inv (Some d) eng ->
  mem = true \/ count (conns_wait_wakeup_pq eng) < capacity (conns_wait_wakeup_pq eng) ->
  exists eng', finish_active eng d next mem = Some (eng', Ok tt) /\ eng_inv None eng'
    /\ live (conns_wait_wakeup_pq eng') ≡ₚ mk_el next d :: live (conns_wait_wakeup_pq eng)
    /\ conns_active_pq eng' = conns_active_pq eng.
Proof.
  intros Hi Hm. destruct (ei_run _ _ Hi d eq_refl) as [[c Hc] HA]. unfold finish_active.
  pose proof (eng_inv_upd (Some d) eng (set_next_tick_time next) d (fun _ => eq_refl) (fun _ => eq_refl) Hi) as [I1 I2 I3 I4 I5 I6].
  set (h := upd_conn (set_next_tick_time next) d (conns eng)) in *. cbn [conns_wait_wakeup_pq conns_active_pq conns] in *.
  destruct (ei_flags _ _ Hi d c Hc) as (H0 & Ht & Hw & Hb). rewrite (proj2 Ht (or_intror eq_refl)), andb_true_r in Hb.
  set (c1 := clear_flag XQC_CONN_FLAG_TICKING (set_next_tick_time next c)).
  destruct (add_wakeup_ok None (mk_eng (conns_active_pq eng) (conns_wait_wakeup_pq eng) (upd_conn (clear_flag XQC_CONN_FLAG_TICKING) d h)) d c1 mem)
    as (eng' & -> & Hi' & Hl & HA'); try done.
  - split; cbn [conns_wait_wakeup_pq conns_active_pq conns];
      [by apply queue_inv_upd|by apply queue_inv_upd|done|by apply flags_finish|done|by rewrite upd_size].
  - cbn [conns]. unfold h, upd_conn. by rewrite lookup_alter_eq, lookup_alter_eq, Hc.
  - rewrite unqueued_spec. unfold c1. unfold waiting in Hb. flag_bits. cbn [set_next_tick_time conn_flag]. by rewrite Hb.
  - exists eng'. by split_and!.
Qed.

(** ** Waking what is due *)

(** The connections the engine will come back to. *)
Definition queued (eng : xqc_engine_t) : list Z := members (conns_active_pq eng) ++ members (conns_wait_wakeup_pq eng).

Lemma live_count pq h : queue_inv pq h -> Z.of_nat (length (live pq)) = count pq.
Proof. intros Hq. pose proof (pi_len _ _ _ Hq). pose proof (pi_count _ _ _ Hq). unfold live. rewrite length_take. lia. Qed.

Lemma same_owner pq h e e' : queue_inv pq h -> e ∈ live pq -> e' ∈ live pq -> data e = data e' -> e = e'.
Proof.
  intros Hq [i Hi]%list_elem_of_lookup [j Hj]%list_elem_of_lookup Hd. assert (i = j) as ->; [|congruence].
  apply (NoDup_lookup (members pq) i j (data e)); [apply Hq| |]; unfold members; rewrite list_lookup_fmap, ?Hi, ?Hj; [done|]. simpl. by rewrite Hd.
Qed.

Lemma filter_all {A} (P : A -> Prop) `{!forall x, Decision (P x)} (l : list A) : (forall x, x ∈ l -> P x) -> filter P l = l.
Proof.
  induction l as [|x l IH]; intros Hall; [done|]. rewrite filter_cons_True by (apply Hall; by left). f_equal. apply IH.
  intros y Hy. apply Hall. by right.
Qed.

(** A connection that is due leaves the queue of those that wait, for the other one or, without
    memory, to come back. *)
Lemma wake_one eng e now mem mem' : eng_inv None eng -> e ∈ live (conns_wait_wakeup_pq eng) ->
  exists eng1 eng' r, xqc_engine_remove_wakeup_queue eng (data e) = Some eng1
    /\ xqc_engine_add_active_queue eng1 (data e) now mem mem' = Some (eng', r) /\ eng_inv None eng'
    /\ queued eng' ≡ₚ queued eng
    /\ match r with
       | Ok _ => e :: live (conns_wait_wakeup_pq eng') ≡ₚ live (conns_wait_wakeup_pq eng)
       | Err _ => mem = false
       end.
Proof.
  intros Hi He. assert (data e ∈ members (conns_wait_wakeup_pq eng)) as HW by by apply list_elem_of_fmap_2.
  destruct (members_alive _ _ _ (ei_wait _ _ Hi) HW) as [H0 [c Hc]]. destruct (ei_flags _ _ Hi _ c Hc) as (_ & _ & Hw & _).
  destruct (remove_wakeup_ok None eng (data e) c Hi Hc) as (eng1 & k & E1 & Hi1 & Hl1 & HA1 & Hcap1 & c1 & Hc1 & Hu1 & _); [by apply Hw|].
  assert (mk_el k (data e) = e) as Hke.
  { apply (same_owner (conns_wait_wakeup_pq eng) (conns eng)); [apply Hi|rewrite <- Hl1; by left|done|done]. }
  rewrite Hke in Hl1. assert (data e :: members (conns_wait_wakeup_pq eng1) ≡ₚ members (conns_wait_wakeup_pq eng)) as Hm1
    by (unfold members; by rewrite <- Hl1).
  destruct (decide (mem = true \/ count (conns_active_pq eng1) < capacity (conns_active_pq eng1))) as [Hm|Hm].
  - destruct (push_active_ok None eng1 (data e) c1 mem mem' now Hi1 Hc1 Hu1 Hm) as (eng2 & E2 & Hi2 & Hl2 & HW2).
    exists eng1, eng2, (Ok tt). split_and!; [done|done|done| |by rewrite HW2].
    unfold queued. rewrite HW2, <- Hm1. unfold members at 1. rewrite Hl2, HA1. simpl. fold (members (conns_active_pq eng)). by rewrite Permutation_middle.
  - assert (mem = false) as -> by (destruct mem; naive_solver).
    pose proof (live_count _ _ (ei_wait _ _ Hi)) as L0. pose proof (live_count _ _ (ei_wait _ _ Hi1)) as L1. rewrite <- Hl1 in L0. simpl in L0.
    pose proof (pi_count _ _ _ (ei_wait _ _ Hi)). pose proof (pi_count _ _ _ (ei_active _ _ Hi1)).
    destruct (push_active_full None eng1 (data e) c1 mem' now Hi1 Hc1 Hu1) as (eng2 & E2 & Hi2 & Hl2 & HA2); [lia|right; lia|].
    exists eng1, eng2, (Err XQC_EMALLOC). split_and!; [done|done|done| |done].
    unfold queued. rewrite HA2, HA1, <- Hm1. f_equiv. unfold members at 1. by rewrite Hl2.
Qed.

Lemma wakeup_loop_ok now mem clock fuel : forall k eng, eng_inv None eng -> count (conns_wait_wakeup_pq eng) <= Z.of_nat fuel ->
  exists eng', wakeup_loop fuel k eng now mem clock = Some eng' /\ eng_inv None eng' /\ queued eng' ≡ₚ queued eng
    /\ ((forall k, mem k = true) -> live (conns_wait_wakeup_pq eng') ≡ₚ filter (fun e => now < key e) (live (conns_wait_wakeup_pq eng))).
Proof.
  induction fuel as [|f IH]; intros k eng Hi Hf; pose proof (pi_count _ _ _ (ei_wait _ _ Hi)); cbn [wakeup_loop]; unfold xqc_pq_empty.
  - case_if; [|zb]. zify_bools. exists eng. split_and!; try done. intros _. unfold live. by replace (count (conns_wait_wakeup_pq eng)) with 0 by lia.
  - case_if; zify_bools.
    + exists eng. split_and!; try done. intros _. unfold live. by replace (count (conns_wait_wakeup_pq eng)) with 0 by lia.
    + destruct (top_ok xqc_pq_revert_cmp (conns_wait_wakeup_pq eng) (conns eng) (ei_wait _ _ Hi)) as (e & Etop & Hl0 & Hmin); [done|].
      unfold xqc_conns_pq_top. rewrite Etop. cbn [mbind option_bind]. assert (e ∈ live (conns_wait_wakeup_pq eng)) as He by by eapply list_elem_of_lookup_2.
      destruct (members_alive _ _ (data e) (ei_wait _ _ Hi)) as [H0 _]; [by apply list_elem_of_fmap_2|]. case_if; [zb|]. case_if; zify_bools.
      * destruct (wake_one eng e (clock k) (mem k) (mem k) Hi He) as (eng1 & eng2 & r & Erm & Eadd & Hi2 & Hq2 & Hr).
        rewrite Erm. cbn [mbind option_bind]. rewrite Eadd. cbn [mbind option_bind]. destruct r as [u|err].
        -- pose proof (live_count _ _ (ei_wait _ _ Hi)) as L0. pose proof (live_count _ _ (ei_wait _ _ Hi2)) as L2. rewrite <- Hr in L0. simpl in L0.
           destruct (IH (S k) eng2 Hi2) as (eng' & E' & Hi' & Hq' & Hall); [lia|]. exists eng'. split_and!; [done|done|by etrans|].
           intros Hm. rewrite (Hall Hm), <- Hr, filter_cons_False by lia. done.
        -- exists eng2. split_and!; [done|done|done|]. intros Hm. by rewrite Hm in Hr.
      * exists eng. split_and!; try done. intros _. rewrite filter_all; [done|]. intros x Hx. specialize (Hmin x Hx).
        unfold xqc_pq_revert_cmp in Hmin. zb.
Qed.

(** ** Every order of events *)

Lemma add_wakeup_total r eng d c mem : eng_inv r eng -> conns eng !! d = Some c ->
  exists eng' ret, xqc_engine_add_wakeup_queue eng d mem = Some (eng', ret) /\ eng_inv r eng'.
Proof.
  intros Hi Hc. destruct (unqueued c) eqn:Hu; [|exists eng, (Ok tt); unfold xqc_engine_add_wakeup_queue; rewrite Hc; cbn [mbind option_bind]; by rewrite Hu].
  destruct (decide (mem = true \/ count (conns_wait_wakeup_pq eng) < capacity (conns_wait_wakeup_pq eng))) as [Hm|Hm].
  - destruct (add_wakeup_ok r eng d c mem Hi Hc Hu Hm) as (eng' & E & Hi' & _). by exists eng', (Ok tt).
  - assert (mem = false) as -> by (destruct mem; naive_solver). pose proof (pi_count _ _ _ (ei_wait _ _ Hi)).
    exists eng, (Err XQC_EMALLOC). split; [|done]. unfold xqc_engine_add_wakeup_queue, xqc_conns_pq_push, xqc_pq_push, grow.
    rewrite Hc. cbn [mbind option_bind]. rewrite Hu. case_if; [by destruct eng|zb].
Qed.

Lemma add_active_total r eng d c now mem mem' : eng_inv r eng -> conns eng !! d = Some c ->
  exists eng' ret, xqc_engine_add_active_queue eng d now mem mem' = Some (eng', ret) /\ eng_inv r eng'.
Proof.
  intros Hi Hc. destruct (unqueued c) eqn:Hu; [|exists eng, (Ok tt); unfold xqc_engine_add_active_queue; rewrite Hc; cbn [mbind option_bind]; by rewrite Hu].
  destruct (decide (mem = true \/ count (conns_active_pq eng) < capacity (conns_active_pq eng))) as [Hm|Hm].
  - destruct (push_active_ok r eng d c mem mem' now Hi Hc Hu Hm) as (eng' & E & Hi' & _). by exists eng', (Ok tt).
  - assert (mem = false) as -> by (destruct mem; naive_solver). pose proof (pi_count _ _ _ (ei_active _ _ Hi)).
    unfold xqc_engine_add_active_queue, xqc_conns_pq_push, xqc_pq_push, grow. rewrite Hc. cbn [mbind option_bind]. rewrite Hu. case_if; [|zb].
    cbn [mbind option_bind]. pose proof (eng_inv_upd r eng (set_next_tick_time now) d (fun _ => eq_refl) (fun _ => eq_refl) Hi) as Hi1.
    destruct (add_wakeup_total r _ d (set_next_tick_time now c) mem' Hi1) as (eng' & ret & -> & Hi').
    + cbn [conns]. unfold upd_conn. by rewrite lookup_alter_eq, Hc.
    + by exists eng', (Err XQC_EMALLOC).
Qed.

Lemma remove_wakeup_total r eng d c : eng_inv r eng -> conns eng !! d = Some c ->
  exists eng', xqc_engine_remove_wakeup_queue eng d = Some eng' /\ eng_inv r eng'.
Proof.
  intros Hi Hc. destruct (waiting c) eqn:Hw; [destruct (remove_wakeup_ok r eng d c Hi Hc Hw) as (eng' & k & E & Hi' & _); by exists eng'|].
  exists eng. split; [|done]. unfold xqc_engine_remove_wakeup_queue. rewrite Hc. cbn [mbind option_bind]. by rewrite has_wait, Hw.
Qed.

Lemma remove_active_total r eng d c : eng_inv r eng -> r <> Some d -> conns eng !! d = Some c ->
  exists eng', xqc_engine_remove_active_queue eng d = Some eng' /\ eng_inv r eng'.
Proof.
  intros Hi Hr Hc. destruct (ticking c) eqn:Ht; [destruct (remove_active_ok r eng d c Hi Hr Hc Ht) as (eng' & k & E & Hi' & _); by exists eng'|].
  exists eng. split; [|done]. unfold xqc_engine_remove_active_queue. rewrite Hc. cbn [mbind option_bind]. by rewrite has_tick, Ht.
Qed.

Lemma finish_active_total eng d next mem : eng_inv (Some d) eng ->
  exists eng' ret, finish_active eng d next mem = Some (eng', ret) /\ eng_inv None eng'.
Proof.
  intros Hi. destruct (ei_run _ _ Hi d eq_refl) as [[c Hc] HA]. unfold finish_active.
  pose proof (eng_inv_upd (Some d) eng (set_next_tick_time next) d (fun _ => eq_refl) (fun _ => eq_refl) Hi) as [I1 I2 I3 I4 I5 I6].
  cbn [conns_wait_wakeup_pq conns_active_pq conns] in *. eapply add_wakeup_total.
  - split; cbn [conns_wait_wakeup_pq conns_active_pq conns];
      [by apply queue_inv_upd|by apply queue_inv_upd|done|by apply flags_finish|done|by rewrite upd_size].
  - cbn [conns]. unfold upd_conn. by rewrite lookup_alter_eq, lookup_alter_eq, Hc.
Qed.

(** A connection that is in no queue comes or goes. *)
Lemma eng_inv_insert r eng d c : eng_inv r eng -> d <> 0 -> conns eng !! d = None -> unqueued c = true -> Z.of_nat (size (conns eng)) + 1 < 2 ^ 31 ->
  eng_inv r (mk_eng (conns_active_pq eng) (conns_wait_wakeup_pq eng) (<[d := c]> (conns eng))).
Proof.
  intros [I1 I2 I3 I4 I5 I6] H0 Hd Hu Hs.
  assert (forall pq, queue_inv pq (conns eng) -> queue_inv pq (<[d := c]> (conns eng)) /\ d ∉ members pq) as Hq.
  { intros pq Hq. assert (d ∉ members pq) as Hn by (intros Hm; destruct (members_alive _ _ _ Hq Hm) as [_ [? ?]]; congruence).
    split; [|done]. apply (queue_inv_frame pq (conns eng)); [done|]. intros x Hx. assert (d <> x) by congruence.
    unfold alive, pos. by rewrite lookup_insert_ne by done. }
  split; cbn [conns_wait_wakeup_pq conns_active_pq conns]; [by apply Hq|by apply Hq|done| | |rewrite map_size_insert_None; [lia|done]].
  - rewrite unqueued_spec in Hu. apply andb_true_iff in Hu as [Hw%negb_true_iff Ht%negb_true_iff].
    intros x c' [[<- <-]|[Hne Hc]]%lookup_insert_Some; [|by apply I4]. rewrite Hw, Ht.
    pose proof (proj2 (Hq _ I1)). pose proof (proj2 (Hq _ I2)). split_and!; [done| |by split|done]. split; [done|].
    intros [|Hr]; [done|]. destruct (I5 _ Hr) as [[] _]. congruence.
  - intros x Hx. destruct (I5 x Hx) as [[c' H1] H2]. split; [|done]. destruct (decide (d = x)) as [->|]; [by rewrite lookup_insert_eq|].
    rewrite lookup_insert_ne by done. by exists c'.
Qed.

Lemma eng_inv_delete r eng d c : eng_inv r eng -> conns eng !! d = Some c -> unqueued c = true ->
  eng_inv r (mk_eng (conns_active_pq eng) (conns_wait_wakeup_pq eng) (delete d (conns eng))).
Proof.
  intros Hi Hc Hu. destruct (unqueued_out r eng d c Hi Hc Hu) as (_ & HA & HW & Hr). destruct Hi as [I1 I2 I3 I4 I5 I6].
  assert (forall pq, queue_inv pq (conns eng) -> d ∉ members pq -> queue_inv pq (delete d (conns eng))) as Hq.
  { intros pq Hq Hn. apply (queue_inv_frame pq (conns eng)); [done|]. intros x Hx. assert (d <> x) by congruence.
    unfold alive, pos. by rewrite lookup_delete_ne by done. }
  split; cbn [conns_wait_wakeup_pq conns_active_pq conns]; [by apply Hq|by apply Hq|done| | |].
  - intros x c' [Hne Hx]%lookup_delete_Some. by apply I4.
  - intros x Hx. destruct (I5 x Hx) as [H1 H2]. split; [|done]. rewrite lookup_delete_ne by congruence. done.
  - rewrite map_size_delete_Some by by exists c. lia.
Qed.

Lemma destroy_total r eng d c : eng_inv r eng -> conns eng !! d = Some c ->
  exists eng', xqc_conn_destroy eng d = Some eng' /\ eng_inv r eng'.
Proof.
  intros Hi Hc. unfold xqc_conn_destroy. rewrite Hc. cbn [mbind option_bind]. rewrite has_tick.
  destruct (ticking c) eqn:Ht; [by exists eng|]. destruct (waiting c) eqn:Hw.
  - destruct (remove_wakeup_ok r eng d c Hi Hc Hw) as (eng1 & k & -> & Hi1 & _ & _ & _ & c1 & Hc1 & Hu1 & _).
    cbn [mbind option_bind]. eexists. split; [done|]. by apply (eng_inv_delete r eng1 d c1).
  - unfold xqc_engine_remove_wakeup_queue. rewrite Hc. cbn [mbind option_bind]. rewrite has_wait, Hw. cbn [mbind option_bind].
    eexists. split; [done|]. apply (eng_inv_delete r eng d c); [done|done|]. by rewrite unqueued_spec, Hw, Ht.
Qed.

(** The connection is no longer the one that is being processed. *)
Lemma eng_inv_processed eng d : eng_inv (Some d) eng ->
  eng_inv None (mk_eng (conns_active_pq eng) (conns_wait_wakeup_pq eng) (upd_conn (clear_flag XQC_CONN_FLAG_TICKING) d (conns eng))).
Proof.
  intros Hi. destruct (ei_run _ _ Hi d eq_refl) as [_ HA]. destruct Hi as [I1 I2 I3 I4 I5 I6].
  split; cbn [conns_wait_wakeup_pq conns_active_pq conns];
    [by apply queue_inv_upd|by apply queue_inv_upd|done|by apply flags_finish|done|by rewrite upd_size].
Qed.

Lemma drop_active_total eng d no_destroy mem : eng_inv (Some d) eng ->
  exists eng', drop_active eng d no_destroy mem = Some eng' /\ eng_inv None eng'.
Proof.
  intros Hi. destruct (ei_run _ _ Hi d eq_refl) as [[c Hc] _]. pose proof (eng_inv_processed eng d Hi) as Hi1.
  unfold drop_active. destruct no_destroy.
  - pose proof (eng_inv_upd None _ (set_next_tick_time 0) d (fun _ => eq_refl) (fun _ => eq_refl) Hi1) as Hi2.
    cbn [conns_wait_wakeup_pq conns_active_pq conns] in Hi2.
    set (eng1 := mk_eng _ _ _) in Hi2.
    destruct (add_wakeup_total None eng1 d (set_next_tick_time 0 (clear_flag XQC_CONN_FLAG_TICKING c)) mem Hi2) as (eng' & ret & E & Hi').
    + unfold eng1, upd_conn. cbn [conns]. by rewrite lookup_alter_eq, lookup_alter_eq, Hc.
    + fold eng1. rewrite E. by exists eng'.
  - eapply destroy_total; [exact Hi1|]. cbn [conns]. unfold upd_conn. by rewrite lookup_alter_eq, Hc.
Qed.

(** What happens to the engine; the first component is the connection that is being processed. *)
Inductive eng_step : option Z * xqc_engine_t -> option Z * xqc_engine_t -> Prop :=
| step_create r eng d c : d <> 0 -> conns eng !! d = None -> unqueued c = true -> Z.of_nat (size (conns eng)) + 1 < 2 ^ 31 ->
    eng_step (r, eng) (r, mk_eng (conns_active_pq eng) (conns_wait_wakeup_pq eng) (<[d := c]> (conns eng)))
| step_destroy r eng d eng' : xqc_conn_destroy eng d = Some eng' -> eng_step (r, eng) (r, eng')
| step_add_wakeup r eng d mem eng' ret : xqc_engine_add_wakeup_queue eng d mem = Some (eng', ret) -> eng_step (r, eng) (r, eng')
| step_remove_wakeup r eng d eng' : xqc_engine_remove_wakeup_queue eng d = Some eng' -> eng_step (r, eng) (r, eng')
| step_add_active r eng d now mem mem' eng' ret : xqc_engine_add_active_queue eng d now mem mem' = Some (eng', ret) -> eng_step (r, eng) (r, eng')
| step_remove_active r eng d eng' : r <> Some d -> xqc_engine_remove_active_queue eng d = Some eng' -> eng_step (r, eng) (r, eng')
| step_wake eng now mem clock eng' : wake_due eng now mem clock = Some eng' -> eng_step (None, eng) (None, eng')
| step_take eng eng' d : xqc_pq_empty (conns_active_pq eng) = false -> take_active eng = Some (eng', d) -> eng_step (None, eng) (Some d, eng')
| step_ticked r eng d now : eng_step (r, eng) (r, ticked eng d now)
| step_finish eng d next mem eng' ret : finish_active eng d next mem = Some (eng', ret) -> eng_step (Some d, eng) (None, eng')
| step_drop eng d no_destroy mem eng' : drop_active eng d no_destroy mem = Some eng' -> eng_step (Some d, eng) (None, eng').

Definition fresh_engine (active wakeup : Z) : xqc_engine_t := mk_eng (mk_pq [] 0 active) (mk_pq [] 0 wakeup) ∅.

Lemma lookup_of_some {A} (o : option xqc_connection_t) (f : xqc_connection_t -> option A) x : (c ← o; f c) = Some x -> exists c, o = Some c.
Proof. destruct o as [c|]; [by exists c|done]. Qed.

Lemma eng_step_inv r eng r' eng' : eng_step (r, eng) (r', eng') -> eng_inv r eng -> eng_inv r' eng'.
Proof.
  intros Hs Hi. inversion Hs; subst.
  - by apply eng_inv_insert.
  - match goal with H : xqc_conn_destroy _ _ = _ |- _ => pose proof H as E; apply lookup_of_some in H as [c Hc] end.
    destruct (destroy_total r' eng d c Hi Hc) as (e1 & E1 & H1). congruence.
  - match goal with H : xqc_engine_add_wakeup_queue _ _ _ = _ |- _ => pose proof H as E; apply lookup_of_some in H as [c Hc] end.
    destruct (add_wakeup_total r' eng d c mem Hi Hc) as (e1 & r1 & E1 & H1). congruence.
  - match goal with H : xqc_engine_remove_wakeup_queue _ _ = _ |- _ => pose proof H as E; apply lookup_of_some in H as [c Hc] end.
    destruct (remove_wakeup_total r' eng d c Hi Hc) as (e1 & E1 & H1). congruence.
  - match goal with H : xqc_engine_add_active_queue _ _ _ _ _ = _ |- _ => pose proof H as E; apply lookup_of_some in H as [c Hc] end.
    destruct (add_active_total r' eng d c now mem mem' Hi Hc) as (e1 & r1 & E1 & H1). congruence.
  - match goal with H : xqc_engine_remove_active_queue _ _ = _ |- _ => pose proof H as E; apply lookup_of_some in H as [c Hc] end.
    destruct (remove_active_total r' eng d c Hi) as (e1 & E1 & H1); [done|done|]. congruence.
  - destruct (wakeup_loop_ok now mem clock (Z.to_nat (count (conns_wait_wakeup_pq eng))) 0 eng Hi) as (e1 & E1 & H1 & _); [lia|].
    unfold wake_due in *. congruence.
  - destruct (take_active_ok eng Hi) as (e1 & x & E1 & H1 & _); [unfold xqc_pq_empty in *; zb|]. congruence.
  - by apply eng_inv_upd.
  - destruct (finish_active_total eng d next mem Hi) as (e1 & r1 & E1 & H1). congruence.
  - destruct (drop_active_total eng d no_destroy mem Hi) as (e1 & E1 & H1). congruence.
Qed.

Lemma fresh_engine_inv active wakeup : 0 < active -> 0 < wakeup -> eng_inv None (fresh_engine active wakeup).
Proof.
  intros H1 H2. split; cbn [conns_wait_wakeup_pq conns_active_pq conns fresh_engine]; try done.
  - split; cbn; try lia; try (intros ? ?; lia). constructor.
  - split; cbn; try lia; try (intros ? ?; lia). constructor.
Qed.

(** C10: The queues of the engine and the flags of its connections agree, whatever the order of events:
    through any run of creations, insertions into either queue (also with the allocator failing),
    removals, wake-ups, processing (after which the connection waits, or is destroyed because it is
    closed) and destruction, both queues are heaps
    of distinct connections; a connection has the flag of a queue exactly when it is in that queue
    (or is the one being processed), never both flags, and records its place in its queue. *)
Theorem engine_queues_reachable active wakeup r eng : 0 < active -> 0 < wakeup ->
  rtc eng_step (None, fresh_engine active wakeup) (r, eng) -> eng_inv r eng.
Proof.
  intros H1 H2 Hrun. pose proof (fresh_engine_inv active wakeup H1 H2) as Hi. remember (None, fresh_engine active wakeup) as st0 eqn:E0.
  remember (r, eng) as st eqn:E. assert (forall r0 e0, st0 = (r0, e0) -> eng_inv r0 e0) as H0 by (intros r0 e0 Heq; rewrite E0 in Heq; by injection Heq as <- <-).
  clear E0 Hi. revert H0. induction Hrun as [x|[rx ex] [ry ey] z Hs Hrun IH]; intros H0; [by apply H0|].
  apply IH; [done|]. intros r0 e0 [= <- <-]. eapply eng_step_inv; [exact Hs|by apply H0].
Qed.

(** An engine with three connections: two wait, one is active. *)
Definition sample_run : option xqc_engine_t :=
  let eng := fresh_engine 1 1 in
  let eng := mk_eng (conns_active_pq eng) (conns_wait_wakeup_pq eng) (<[8 := mk_conn 0 30 5 0]> (conns eng)) in
  '(eng, _) ← xqc_engine_add_wakeup_queue eng 8 true;
  let eng := mk_eng (conns_active_pq eng) (conns_wait_wakeup_pq eng) (<[16 := mk_conn 0 10 7 0]> (conns eng)) in
  '(eng, _) ← xqc_engine_add_wakeup_queue eng 16 true;
  let eng := mk_eng (conns_active_pq eng) (conns_wait_wakeup_pq eng) (<[24 := mk_conn 0 0 3 0]> (conns eng)) in
  '(eng, _) ← xqc_engine_add_active_queue eng 24 0 true true;
  Some eng.

Definition sample_engine : xqc_engine_t := default (fresh_engine 1 1) sample_run.

Lemma sample_reachable : rtc eng_step (None, fresh_engine 1 1) (None, sample_engine).
Proof.
  eapply rtc_l; [apply (step_create None _ 8 (mk_conn 0 30 5 0)); by_decide|].
  eapply rtc_l; [eapply (step_add_wakeup None _ 8 true); vm_compute; reflexivity|].
  eapply rtc_l; [apply (step_create None _ 16 (mk_conn 0 10 7 0)); by_decide|].
  eapply rtc_l; [eapply (step_add_wakeup None _ 16 true); vm_compute; reflexivity|].
  eapply rtc_l; [apply (step_create None _ 24 (mk_conn 0 0 3 0)); by_decide|].
  eapply rtc_l; [eapply (step_add_active None _ 24 0 true true); vm_compute; reflexivity|].
  apply rtc_refl.
Qed.

Lemma engine_queues_reachable_witness : rtc eng_step (None, fresh_engine 1 1) (None, sample_engine) /\ eng_inv None sample_engine.
Proof. split; [exact sample_reachable|]. apply (engine_queues_reachable 1 1 None sample_engine); [lia|lia|exact sample_reachable]. Defined.

Lemma steps_inv st st' : rtc eng_step st st' -> eng_inv (fst st) (snd st) -> eng_inv (fst st') (snd st').
Proof. induction 1 as [x|[rx ex] [ry ey] z Hs Hrun IH]; intros H0; [done|]. apply IH. by apply (eng_step_inv rx ex ry ey). Qed.

Lemma sample_inv : eng_inv None sample_engine.
Proof. apply (steps_inv _ _ sample_reachable). by apply fresh_engine_inv. Qed.

(** C21: The first loop of the engine wakes what is due and loses nothing.  It ends; however the
    allocator answers, every connection that was in a queue is in exactly one queue afterwards; and
    while there is memory, the connections that still wait are exactly those whose time is later
    than now. *)
Theorem wake_due_correct eng now mem clock : eng_inv None eng ->
  exists eng', wake_due eng now mem clock = Some eng' /\ eng_inv None eng' /\ queued eng' ≡ₚ queued eng /\ NoDup (queued eng')
    /\ ((forall k, mem k = true) -> live (conns_wait_wakeup_pq eng') ≡ₚ filter (fun e => now < key e) (live (conns_wait_wakeup_pq eng))).
Proof.
  intros Hi. destruct (wakeup_loop_ok now mem clock (Z.to_nat (count (conns_wait_wakeup_pq eng))) 0 eng Hi) as (eng' & E & Hi' & Hq & Hall); [lia|].
  exists eng'. split_and!; try done. apply NoDup_app. split_and!; [apply (ei_active _ _ Hi')| |apply (ei_wait _ _ Hi')].
  intros d HA HW. by apply (queues_disjoint None eng' d).
Qed.

Lemma wake_due_correct_witness : eng_inv None sample_engine /\ length (live (conns_wait_wakeup_pq sample_engine)) = 2%nat
  /\ exists eng', wake_due sample_engine 20 (fun _ => true) (fun _ => 20) = Some eng' /\ eng_inv None eng' /\ queued eng' ≡ₚ queued sample_engine
    /\ NoDup (queued eng')
    /\ ((forall k : nat, (fun _ => true) k = true) -> live (conns_wait_wakeup_pq eng') ≡ₚ filter (fun e => 20 < key e) (live (conns_wait_wakeup_pq sample_engine))).
Proof. split_and!; [exact sample_inv|reflexivity|]. exact (wake_due_correct sample_engine 20 (fun _ => true) (fun _ => 20) sample_inv). Defined.

(** A connection that is taken from the queue of those that wait, to become active, is never left in
    neither queue.  If the active queue cannot grow, it is back in the queue of those that wait, due
    at the time that was read, and no memory is needed for that; the active queue is unchanged. *)
Theorem failed_activation_requeues eng d c now : eng_inv None eng -> conns eng !! d = Some c -> waiting c = true ->
  count (conns_active_pq eng) = capacity (conns_active_pq eng) ->
  exists eng1 eng' k, xqc_engine_remove_wakeup_queue eng d = Some eng1
    /\ xqc_engine_add_active_queue eng1 d now false false = Some (eng', Err XQC_EMALLOC)
    /\ mk_el k d :: live (conns_wait_wakeup_pq eng1) ≡ₚ live (conns_wait_wakeup_pq eng)
    /\ live (conns_wait_wakeup_pq eng') ≡ₚ mk_el now d :: live (conns_wait_wakeup_pq eng1)
    /\ conns_active_pq eng' = conns_active_pq eng /\ eng_inv None eng'.
Proof.
  intros Hi Hc Hw Hfull. destruct (remove_wakeup_ok None eng d c Hi Hc Hw) as (eng1 & k & E1 & Hi1 & Hl1 & HA1 & Hcap1 & c1 & Hc1 & Hu1 & _).
  pose proof (live_count _ _ (ei_wait _ _ Hi)) as L0. pose proof (live_count _ _ (ei_wait _ _ Hi1)) as L1. rewrite <- Hl1 in L0. simpl in L0.
  pose proof (pi_count _ _ _ (ei_wait _ _ Hi)).
  destruct (push_active_full None eng1 d c1 false now Hi1 Hc1 Hu1) as (eng2 & E2 & Hi2 & Hl2 & HA2); [by rewrite HA1|right; lia|].
  exists eng1, eng2, k. split_and!; try done. by rewrite HA2.
Qed.

Lemma failed_activation_requeues_witness : count (conns_active_pq sample_engine) = capacity (conns_active_pq sample_engine)
  /\ exists eng1 eng' k, xqc_engine_remove_wakeup_queue sample_engine 16 = Some eng1
    /\ xqc_engine_add_active_queue eng1 16 21 false false = Some (eng', Err XQC_EMALLOC)
    /\ mk_el k 16 :: live (conns_wait_wakeup_pq eng1) ≡ₚ live (conns_wait_wakeup_pq sample_engine)
    /\ live (conns_wait_wakeup_pq eng') ≡ₚ mk_el 21 16 :: live (conns_wait_wakeup_pq eng1)
    /\ conns_active_pq eng' = conns_active_pq sample_engine /\ eng_inv None eng'.
Proof.
  split; [reflexivity|]. apply (failed_activation_requeues sample_engine 16 (mk_conn 1 10 7 0) 21); [exact sample_inv|reflexivity|reflexivity|reflexivity].
Defined.

(** The timer of the engine does not sleep past the earliest connection. *)
Lemma wakeup_after_ok eng now : eng_inv None eng ->
  exists w, xqc_engine_wakeup_after eng now = Some w /\ (w = 0 <-> live (conns_wait_wakeup_pq eng) = [])
    /\ forall e, e ∈ live (conns_wait_wakeup_pq eng) -> now + w <= Z.max (now + 1) (key e).
Proof.
  intros Hi. pose proof (live_count _ _ (ei_wait _ _ Hi)) as L0. unfold xqc_engine_wakeup_after, xqc_conns_pq_top.
  destruct (decide (count (conns_wait_wakeup_pq eng) = 0)) as [H0|H0].
  - rewrite top_empty by done. exists 0. assert (live (conns_wait_wakeup_pq eng) = []) as -> by (apply length_zero_iff_nil; lia).
    split_and!; [done|done|]. intros e He. by apply not_elem_of_nil in He.
  - destruct (top_ok xqc_pq_revert_cmp (conns_wait_wakeup_pq eng) (conns eng) (ei_wait _ _ Hi) H0) as (e & -> & Hl0 & Hmin).
    cbn [mbind option_bind]. eexists. split; [done|]. split.
    + split; [case_if; zb|]. intros Hnil. by rewrite Hnil in Hl0.
    + intros x Hx. specialize (Hmin x Hx). unfold xqc_pq_revert_cmp in Hmin. case_if; zb.
Qed.

End EngineQueuesSpec.
