(* ===== verification/TextFmt.v ===== *)
(** Decimal text: [xqc_fmt_uint] and [xqc_uint64_decimal_len] of src/src/common/xqc_str.h. *)

From stdpp Require Import base numbers list.
From S2P Require Import Prelude.

Module TextFmt.

(** ** Printing *)

(** The characters of 00, 01, ... 99. *)
Definition lut : list Z :=
  [48; 48; 48; 49; 48; 50; 48; 51; 48; 52; 48; 53; 48; 54; 48; 55; 48; 56; 48; 57;
   49; 48; 49; 49; 49; 50; 49; 51; 49; 52; 49; 53; 49; 54; 49; 55; 49; 56; 49; 57;
   50; 48; 50; 49; 50; 50; 50; 51; 50; 52; 50; 53; 50; 54; 50; 55; 50; 56; 50; 57;
   51; 48; 51; 49; 51; 50; 51; 51; 51; 52; 51; 53; 51; 54; 51; 55; 51; 56; 51; 57;
   52; 48; 52; 49; 52; 50; 52; 51; 52; 52; 52; 53; 52; 54; 52; 55; 52; 56; 52; 57;
   53; 48; 53; 49; 53; 50; 53; 51; 53; 52; 53; 53; 53; 54; 53; 55; 53; 56; 53; 57;
   54; 48; 54; 49; 54; 50; 54; 51; 54; 52; 54; 53; 54; 54; 54; 55; 54; 56; 54; 57;
   55; 48; 55; 49; 55; 50; 55; 51; 55; 52; 55; 53; 55; 54; 55; 55; 55; 56; 55; 57;
   56; 48; 56; 49; 56; 50; 56; 51; 56; 52; 56; 53; 56; 54; 56; 55; 56; 56; 56; 57;
   57; 48; 57; 49; 57; 50; 57; 51; 57; 52; 57; 53; 57; 54; 57; 55; 57; 56; 57; 57].

(** [while (n >= 100)]: two characters a turn in front of [t], then one or two for what is left.
    A 64-bit number has at most twenty digits, so ten turns are enough. *)
Fixpoint fmt_loop (fuel : nat) (n : Z) (t : list Z) : list Z :=
  match fuel with
  | S fuel =>
      if 100 <=? n then
        let idx := (n mod 100) * 2 in
        fmt_loop fuel (n / 100) (rd lut idx :: rd lut (idx + 1) :: t)
      else if 10 <=? n then rd lut (n * 2) :: rd lut (n * 2 + 1) :: t
      else u8 (48 + n) :: t
  | O => t
  end.

(** The two loops of the source differ in the width of the number only. *)
Definition fmt_temp (n : Z) : list Z :=
  if n <=? 0xFFFFFFFF then fmt_loop 10 (u32 n) [] else fmt_loop 10 n [].

(** The text at [p] of [buf], cut at [last]; the pointer past it. *)
Definition xqc_fmt_uint (buf : list Z) (p last n : Z) : list Z * Z :=
  if n =? 0 then if p <? last then (wr buf p [48], p + 1) else (buf, p)
  else
    let t := fmt_temp n in
    let len := if u64 (last - p) <? zlen t then u64 (last - p) else zlen t in
    (wr buf p (sub_bytes t 0 len), p + len).

Fixpoint decimal_len_loop (fuel : nat) (value len : Z) : Z :=
  match fuel with
  | S fuel => if 10 <=? value then decimal_len_loop fuel (value / 10) (len + 1) else len
  | O => len
  end.

Definition xqc_uint64_decimal_len (value : Z) : Z := decimal_len_loop 20 value 1.

(** ** What the text says *)

Definition digit (c : Z) : Prop := 48 <= c <= 57.

Definition dec_val (t : list Z) : Z := fold_left (fun v c => v * 10 + (c - 48)) t 0.

(** The text of [n]: no leading zero but for zero itself. *)
Definition dec_text (n : Z) : list Z := if n =? 0 then [48] else fmt_temp n.

Definition dec_val_from (v : Z) (t : list Z) : Z := fold_left (fun v c => v * 10 + (c - 48)) t v.

Lemma dec_val_from_app v s t : dec_val_from v (s ++ t) = dec_val_from (dec_val_from v s) t.
Proof. apply fold_left_app. Qed.

Lemma lut_spec k : 0 <= k < 100 -> rd lut (k * 2) = 48 + k / 10 /\ rd lut (k * 2 + 1) = 48 + k mod 10.
Proof.
  intros Hk.
  assert (forallb (fun k => (rd lut (k * 2) =? 48 + k / 10) && (rd lut (k * 2 + 1) =? 48 + k mod 10))
    (map Z.of_nat (seq 0 100)) = true) as Hall by (vm_compute; reflexivity).
  rewrite forallb_forall in Hall. specialize (Hall k). rewrite andb_true_iff, !Z.eqb_eq in Hall. apply Hall.
  apply in_map_iff. exists (Z.to_nat k). split; [lia|]. apply in_seq. lia.
Qed.

(** The loop puts the digits of [n] in front of [t]. *)
Definition digits_of (n : Z) (d : list Z) : Prop :=
  Forall digit d /\ (forall v, dec_val_from v d = v * 10 ^ zlen d + n)
  /\ (n < 10 -> zlen d = 1) /\ (10 <= n -> 10 ^ (zlen d - 1) <= n) /\ n < 10 ^ zlen d.

Lemma fmt_two k : 0 <= k < 100 -> Forall digit [rd lut (k * 2); rd lut (k * 2 + 1)]
  /\ forall v, dec_val_from v [rd lut (k * 2); rd lut (k * 2 + 1)] = v * 100 + k.
Proof.
  intros Hk. destruct (lut_spec k Hk) as [-> ->]. unfold digit, dec_val_from. cbn [fold_left].
  split; [repeat constructor; Z.div_mod_to_equations; lia|intros v; Z.div_mod_to_equations; lia].
Qed.

Lemma fmt_loop_spec fuel n t : 0 < n < 100 ^ Z.of_nat fuel -> exists d, fmt_loop fuel n t = d ++ t /\ digits_of n d.
Proof.
  revert n t. induction fuel as [|fuel IH]; intros n t Hn; [simpl in Hn; lia|]. cbn [fmt_loop].
  rewrite Nat2Z.inj_succ, Z.pow_succ_r in Hn by lia.
  destruct (100 <=? n) eqn:E; zify_bools.
  - destruct (IH (n / 100) (rd lut (n mod 100 * 2) :: rd lut (n mod 100 * 2 + 1) :: t)) as (d & -> & Hd & Hv & H1 & Hlo & Hhi).
    { Z.div_mod_to_equations; lia. }
    destruct (fmt_two (n mod 100)) as [Hdig Hval]; [Z.div_mod_to_equations; lia|].
    exists (d ++ [rd lut (n mod 100 * 2); rd lut (n mod 100 * 2 + 1)]). split; [by rewrite <- app_assoc|].
    pose proof (zlen_nonneg d). unfold digits_of. rewrite zlen_app. change (zlen [_; _]) with 2.
    assert (10 ^ (zlen d + 2) = 100 * 10 ^ zlen d) as Hp by (rewrite Z.pow_add_r by lia; lia).
    split; [by apply Forall_app|]. split.
    { intros v. rewrite dec_val_from_app, Hval, Hv, Hp. Z.div_mod_to_equations; lia. }
    rewrite Hp. split; [lia|]. split; [intros _|Z.div_mod_to_equations; lia].
    destruct (decide (n / 100 < 10)) as [Hs|Hs].
    + rewrite H1 by done. change (10 ^ (1 + 2 - 1)) with 100. lia.
    + assert (10 ^ (zlen d + 2 - 1) = 100 * 10 ^ (zlen d - 1)) as ->.
      { replace (zlen d + 2 - 1) with (zlen d - 1 + 2) by lia. assert (1 <= zlen d); [|rewrite Z.pow_add_r by lia; lia].
        destruct d as [|x d]; [rewrite zlen_nil in Hhi; simpl in Hhi; lia|]. rewrite zlen_cons. pose proof (zlen_nonneg d). lia. }
      specialize (Hlo ltac:(lia)). Z.div_mod_to_equations; lia.
  - destruct (10 <=? n) eqn:E'; zify_bools.
    + destruct (fmt_two n) as [Hdig Hval]; [lia|]. eexists [_; _]. split; [done|].
      unfold digits_of. change (zlen [_; _]) with 2. change (10 ^ 2) with 100. change (10 ^ (2 - 1)) with 10.
      split_and!; try done; lia.
    + exists [48 + n]. unfold u8. rewrite Z.mod_small by lia. split; [done|]. unfold digits_of, digit, dec_val_from.
      change (zlen [48 + n]) with 1. cbn [fold_left]. change (10 ^ 1) with 10.
      split_and!; try lia. repeat constructor; lia.
Qed.

Lemma decimal_len_loop_spec fuel n len : 0 <= n < 10 ^ (Z.of_nat fuel + 1) ->
  exists k, decimal_len_loop fuel n len = len + k /\ 0 <= k /\ n < 10 ^ (k + 1) /\ (10 <= n -> 10 ^ k <= n) /\ (n < 10 -> k = 0).
Proof.
  revert n len. induction fuel as [|fuel IH]; intros n len Hn.
  { simpl in Hn. exists 0. simpl. split_and!; lia. }
  cbn [decimal_len_loop]. rewrite Nat2Z.inj_succ in Hn. replace (Z.succ (Z.of_nat fuel) + 1) with (Z.succ (Z.of_nat fuel + 1)) in Hn by lia.
  rewrite Z.pow_succ_r in Hn by lia. destruct (10 <=? n) eqn:E; zify_bools.
  - destruct (IH (n / 10) (len + 1)) as (k & -> & Hk & Hhi & Hlo & H0); [Z.div_mod_to_equations; lia|].
    exists (k + 1). split_and!; try lia.
    + rewrite (Z.pow_add_r 10 (k + 1) 1) by lia. Z.div_mod_to_equations; lia.
    + intros _. destruct (decide (n / 10 < 10)) as [Hs|Hs]; [rewrite H0 by done; simpl; lia|].
      rewrite Z.pow_add_r by lia. specialize (Hlo ltac:(lia)). Z.div_mod_to_equations; lia.
  - exists 0. change (10 ^ (0 + 1)) with 10. split_and!; lia.
Qed.

(** What is printed is the number, and [xqc_uint64_decimal_len] is the length of the text. *)
Theorem fmt_uint_correct n : 0 <= n < 2 ^ 64 ->
  Forall digit (dec_text n) /\ dec_val (dec_text n) = n /\ zlen (dec_text n) = xqc_uint64_decimal_len n
  /\ zlen (dec_text n) <= 20.
Proof.
  intros Hn. unfold dec_text. destruct (n =? 0) eqn:E; zify_bools.
  { subst. split_and!; try done. repeat constructor; unfold digit; lia. }
  assert (2 ^ 64 < 100 ^ Z.of_nat 10) by by_decide. assert (2 ^ 64 < 10 ^ (Z.of_nat 20 + 1)) by by_decide.
  assert (fmt_temp n = fmt_loop 10 n []) as ->.
  { unfold fmt_temp. case_if; [|done]. f_equal. apply u32_small. zb. }
  destruct (fmt_loop_spec 10 n [] ltac:(lia)) as (d & -> & Hd & Hv & H1 & Hlo & Hhi). rewrite app_nil_r.
  split; [done|]. split; [change (dec_val d) with (dec_val_from 0 d); rewrite Hv; lia|].
  unfold xqc_uint64_decimal_len. destruct (decimal_len_loop_spec 20 n 1 ltac:(lia)) as (k & -> & Hk & Hhi' & Hlo' & H0').
  assert (zlen d = 1 + k) as Hz.
  { destruct (decide (n < 10)) as [Hs|Hs]; [rewrite H1, H0' by done; lia|].
    specialize (Hlo ltac:(lia)). specialize (Hlo' ltac:(lia)).
    assert (10 ^ (zlen d - 1) < 10 ^ (k + 1)) as Ha by lia. apply Z.pow_lt_mono_r_iff in Ha; [|lia|lia].
    assert (10 ^ k < 10 ^ zlen d) as Hb by lia. apply Z.pow_lt_mono_r_iff in Hb; [|lia|apply zlen_nonneg]. lia. }
  split; [done|]. destruct (decide (n < 10)); [rewrite Hz, H0' by done; lia|]. specialize (Hlo' ltac:(lia)).
  assert (10 ^ k < 10 ^ 20) as Ha by (assert (2 ^ 64 < 10 ^ 20) by by_decide; lia).
  apply Z.pow_lt_mono_r_iff in Ha; lia.
Qed.

(** The text goes into the buffer when there is room for it. *)
Lemma fmt_uint_writes buf p last n : 0 <= n < 2 ^ 64 -> 0 <= last - p < 2 ^ 64 -> zlen (dec_text n) <= last - p ->
  xqc_fmt_uint buf p last n = (wr buf p (dec_text n), p + zlen (dec_text n)).
Proof.
  intros Hn Hl. unfold xqc_fmt_uint, dec_text. destruct (n =? 0) eqn:E; zify_bools; intros Hfit.
  - change (zlen [48]) with 1 in *. case_if; [done|zb].
  - rewrite u64_small by lia. case_if; [zb|]. by rewrite sub_bytes_all.
Qed.

End TextFmt.
