(* ===== verification/H3Frame.v ===== *)
(** The HTTP/3 frames of src/src/http3/frame/xqc_h3_frame.c: the parser that takes a frame in any
    pieces, the writers, and the entries of a SETTINGS frame. *)

From stdpp Require Import base numbers list.
From S2P Require Import Prelude VInt RingArray RingMem VarBuf TransParams.
Import VInt VarBuf TransParams.

Module H3Frame.

(** ** Constants: xqc_h3_frame_defs.h, xqc_h3_defs.h, include/xquic/xqc_errno.h *)

Definition XQC_H3_FRM_DATA : Z := 0x00.
Definition XQC_H3_FRM_HEADERS : Z := 0x01.
Definition XQC_H3_FRM_RESERVED_PRIORITY : Z := 0x02.
Definition XQC_H3_FRM_CANCEL_PUSH : Z := 0x03.
Definition XQC_H3_FRM_SETTINGS : Z := 0x04.
Definition XQC_H3_FRM_PUSH_PROMISE : Z := 0x05.
Definition XQC_H3_FRM_RESERVED_PING : Z := 0x06.
Definition XQC_H3_FRM_GOAWAY : Z := 0x07.
Definition XQC_H3_FRM_RESERVED_WINDOW_UPDATE : Z := 0x08.
Definition XQC_H3_FRM_RESERVED_CONTINUATION : Z := 0x09.
Definition XQC_H3_FRM_MAX_PUSH_ID : Z := 0x0d.
Definition XQC_H3_EXT_FRM_BIDI_STREAM_TYPE : Z := 0x20.
Definition XQC_H3_FRM_WT_STREAM : Z := 0x41.
Definition XQC_H3_FRM_UNKNOWN : Z := 2 ^ 64 - 1.

Definition XQC_H3_SETTINGS_MAX_FRAME_SIZE : Z := 4096.
Definition XQC_H3_PUSH_PROMISE_MAX_PAYLOAD_SIZE : Z := 256 * 1024.
Definition XQC_VAR_BUF_INIT_SIZE : Z := 256.

Definition XQC_EVINTREAD : Z := 601.
Definition XQC_H3_EMALLOC : Z := 800.
Definition XQC_H3_DECODE_ERROR : Z := 813.
Definition XQC_H3_INVALID_FRAME_TYPE : Z := 821.
Definition XQC_H3_RESERVED_FRAME_UNEXPECTED : Z := 839.

(** ** The frame and its parse context *)

(** The payload union; every arm is cleared to zero before the payload is read, so the arms are
    kept apart: the integer of CANCEL_PUSH, GOAWAY, MAX_PUSH_ID, PUSH_PROMISE and the stream type,
    the buffer of SETTINGS and PUSH_PROMISE, and the count of PUSH_PROMISE. *)
Record xqc_h3_frame_pl_t := mk_pl {
  pl_int : xqc_discrete_int_pctx_t;
  pl_buf : option xqc_var_buf_t;
  pl_count : Z;
}.

Definition pl_zero : xqc_h3_frame_pl_t := mk_pl xqc_discrete_int_pctx_clear None 0.

Record xqc_h3_frame_t := mk_frame {
  f_type : Z;
  f_len : Z;
  f_consumed : Z;
  f_pl : xqc_h3_frame_pl_t;
}.

Inductive xqc_h3_frame_state_t :=
  XQC_H3_FRM_STATE_TYPE | XQC_H3_FRM_STATE_LEN | XQC_H3_FRM_STATE_PAYLOAD | XQC_H3_FRM_STATE_END.

#[export] Instance xqc_h3_frame_state_eq_dec : EqDecision xqc_h3_frame_state_t.
Proof. solve_decision. Defined.

Record xqc_h3_frame_pctx_t := mk_fpctx {
  fp_state : xqc_h3_frame_state_t;
  fp_frame : xqc_h3_frame_t;
  fp_int : xqc_discrete_int_pctx_t;
}.

(** What [xqc_h3_frm_reset_pctx] leaves behind: the buffers are freed, everything is zero but the type. *)
Definition xqc_h3_frm_reset_pctx : xqc_h3_frame_pctx_t :=
  mk_fpctx XQC_H3_FRM_STATE_TYPE (mk_frame XQC_H3_FRM_UNKNOWN 0 0 pl_zero) xqc_discrete_int_pctx_clear.

(** ** Parsing *)

Definition xqc_vint_len_by_val (v : Z) : Z := xqc_vint_len (xqc_vint_get_2bit v).

(** A payload parser: the bytes read, the frame, and [*fin]. *)
Definition pl_result : Type := res (Z * bool) * xqc_h3_frame_t.

Definition set_pl (fr : xqc_h3_frame_t) (pl : xqc_h3_frame_pl_t) : xqc_h3_frame_t :=
  mk_frame (f_type fr) (f_len fr) (f_consumed fr) pl.

Definition set_pl_int (fr : xqc_h3_frame_t) (v : xqc_discrete_int_pctx_t) : xqc_h3_frame_t :=
  set_pl fr (mk_pl v (pl_buf (f_pl fr)) (pl_count (f_pl fr))).

Definition set_pl_buf (fr : xqc_h3_frame_t) (b : xqc_var_buf_t) : xqc_h3_frame_t :=
  set_pl fr (mk_pl (pl_int (f_pl fr)) (Some b) (pl_count (f_pl fr))).

Definition set_pl_count (fr : xqc_h3_frame_t) (n : Z) : xqc_h3_frame_t :=
  set_pl fr (mk_pl (pl_int (f_pl fr)) (pl_buf (f_pl fr)) n).

Definition set_f_consumed (fr : xqc_h3_frame_t) (n : Z) : xqc_h3_frame_t :=
  mk_frame (f_type fr) (f_len fr) n (f_pl fr).

Definition xqc_h3_frm_parse_single_vint_payload (p : list Z) (fr : xqc_h3_frame_t) : pl_result :=
  let '(nread, v, fin) := xqc_discrete_vint_parse p (pl_int (f_pl fr)) in
  let fr := set_pl_int fr v in
  let fr := set_f_consumed fr (u64 (f_consumed fr + nread)) in
  if (f_len fr <? f_consumed fr) || (fin && negb (f_consumed fr =? f_len fr))
  then (Err XQC_H3_DECODE_ERROR, fr)
  else (Ok (nread, fin), fr).

Definition xqc_h3_frm_parse_cancel_push := xqc_h3_frm_parse_single_vint_payload.
Definition xqc_h3_frm_parse_goaway := xqc_h3_frm_parse_single_vint_payload.
Definition xqc_h3_frm_parse_max_push_id := xqc_h3_frm_parse_single_vint_payload.

Definition xqc_h3_ext_frm_parse_bidi_stream_type (p : list Z) (fr : xqc_h3_frame_t) : pl_result :=
  let '(nread, v, fin) := xqc_discrete_vint_parse p (pl_int (f_pl fr)) in
  (Ok (nread, fin), set_pl_int fr v).

Definition xqc_h3_frm_is_h2_reserved (frame_type : Z) : bool :=
  (frame_type =? XQC_H3_FRM_RESERVED_PRIORITY) || (frame_type =? XQC_H3_FRM_RESERVED_PING)
  || (frame_type =? XQC_H3_FRM_RESERVED_WINDOW_UPDATE) || (frame_type =? XQC_H3_FRM_RESERVED_CONTINUATION).

Definition xqc_h3_frm_parse_reserved (p : list Z) (fr : xqc_h3_frame_t) : pl_result :=
  let read := Z.min (u64 (f_len fr - f_consumed fr)) (zlen p) in
  let fr := set_f_consumed fr (u64 (f_consumed fr + read)) in
  (Ok (read, f_len fr =? f_consumed fr), fr).

Section ops.

(** [mem]: the allocations succeed; [junk] is what new memory holds; [wt]: WebTransport is
    compiled in and negotiated on the connection. *)
Context (mem : bool) (junk : Z -> list Z) (wt : bool).

(** The buffer a payload is collected in, made when its first bytes arrive. *)
Definition payload_buf (b : option xqc_var_buf_t) (len cap : Z) : res xqc_var_buf_t :=
  match b with
  | Some b => Ok b
  | None =>
      if cap <? len then Err XQC_H3_DECODE_ERROR
      else
        let b := if XQC_VAR_BUF_INIT_SIZE <? len then xqc_var_buf_create_with_limit mem junk XQC_VAR_BUF_INIT_SIZE cap
                 else xqc_var_buf_create_with_limit mem junk len cap in
        match b with None => Err XQC_H3_EMALLOC | Some b => Ok b end
  end.

Definition xqc_h3_frm_parse_settings (p : list Z) (fr : xqc_h3_frame_t) : pl_result :=
  match payload_buf (pl_buf (f_pl fr)) (f_len fr) XQC_H3_SETTINGS_MAX_FRAME_SIZE with
  | Err e => (Err e, fr)
  | Ok b =>
      let len := Z.min (zlen p) (u64 (f_len fr - vb_data_len b)) in
      match xqc_var_buf_save_data mem junk b (sub_bytes p 0 len) with
      | (Err _, b) => (Err XQC_H3_DECODE_ERROR, set_pl_buf fr b)
      | (Ok _, b) => (Ok (len, vb_data_len b =? f_len fr), set_pl_buf fr b)
      end
  end.

(** The field section of a PUSH_PROMISE; [read] bytes were taken by the push id. *)
Definition push_promise_section (p : list Z) (read : Z) (fr : xqc_h3_frame_t) : pl_result :=
  let idlen := xqc_vint_len_by_val (vi (pl_int (f_pl fr))) in
  if f_len fr <? idlen then (Err XQC_EVINTREAD, fr)
  else
    let payload_len := f_len fr - idlen in
    match payload_buf (pl_buf (f_pl fr)) payload_len XQC_H3_PUSH_PROMISE_MAX_PAYLOAD_SIZE with
    | Err e => (Err e, fr)
    | Ok b =>
        let len := Z.min (zlen p) (u64 (payload_len - vb_data_len b)) in
        match xqc_var_buf_save_data mem junk b (sub_bytes p 0 len) with
        | (Err _, b) => (Err XQC_H3_DECODE_ERROR, set_pl_buf fr b)
        | (Ok _, b) => (Ok (read + len, idlen + vb_data_len b =? f_len fr), set_pl_buf fr b)
        end
    end.

Definition xqc_h3_frm_parse_push_promise (p : list Z) (fr : xqc_h3_frame_t) : pl_result :=
  let '(read, fr) :=
    if (pl_count (f_pl fr) =? 0) && (0 <? zlen p) then
      let '(nread, v, fin_t) := xqc_discrete_vint_parse p (pl_int (f_pl fr)) in
      let fr := set_pl_int fr v in
      (nread, if fin_t : bool then set_pl_count fr 1 else fr)
    else (0, fr) in
  let p := drop (Z.to_nat read) p in
  if (pl_count (f_pl fr) =? 1) && (0 <? zlen p) then push_promise_section p read fr
  else (Ok (read, false), fr).

Definition set_fp_frame (c : xqc_h3_frame_pctx_t) (fr : xqc_h3_frame_t) : xqc_h3_frame_pctx_t :=
  mk_fpctx (fp_state c) fr (fp_int c).

Definition parse_payload_by_type (p : list Z) (fr : xqc_h3_frame_t) : pl_result :=
  let t := f_type fr in
  if t =? XQC_H3_FRM_DATA then (Ok (0, false), fr)
  else if t =? XQC_H3_FRM_HEADERS then (Ok (0, false), fr)
  else if t =? XQC_H3_FRM_CANCEL_PUSH then xqc_h3_frm_parse_cancel_push p fr
  else if t =? XQC_H3_FRM_SETTINGS then xqc_h3_frm_parse_settings p fr
  else if t =? XQC_H3_FRM_PUSH_PROMISE then xqc_h3_frm_parse_push_promise p fr
  else if t =? XQC_H3_FRM_GOAWAY then xqc_h3_frm_parse_goaway p fr
  else if t =? XQC_H3_FRM_MAX_PUSH_ID then xqc_h3_frm_parse_max_push_id p fr
  else if t =? XQC_H3_EXT_FRM_BIDI_STREAM_TYPE then xqc_h3_ext_frm_parse_bidi_stream_type p fr
  else xqc_h3_frm_parse_reserved p fr.

(** The three stages of [xqc_h3_frm_parse]: each returns the bytes it read. *)

Definition parse_type (p : list Z) (c : xqc_h3_frame_pctx_t) : res Z * xqc_h3_frame_pctx_t :=
  let '(nread, v, fin) := xqc_discrete_vint_parse p (fp_int c) in
  if fin : bool then
    let fr := fp_frame c in
    let c := mk_fpctx XQC_H3_FRM_STATE_LEN (mk_frame (vi v) (f_len fr) (f_consumed fr) (f_pl fr)) xqc_discrete_int_pctx_clear in
    if xqc_h3_frm_is_h2_reserved (vi v) then (Err XQC_H3_RESERVED_FRAME_UNEXPECTED, c)
    else if (vi v =? XQC_H3_FRM_WT_STREAM) && wt then (Err XQC_H3_INVALID_FRAME_TYPE, c)
    else (Ok nread, c)
  else (Ok nread, mk_fpctx (fp_state c) (fp_frame c) v).

(** The types whose fields cannot be absent. *)
Definition needs_payload (t : Z) : bool :=
  (t =? XQC_H3_FRM_CANCEL_PUSH) || (t =? XQC_H3_FRM_PUSH_PROMISE) || (t =? XQC_H3_FRM_GOAWAY)
  || (t =? XQC_H3_FRM_MAX_PUSH_ID) || (t =? XQC_H3_EXT_FRM_BIDI_STREAM_TYPE).

Definition parse_len (p : list Z) (c : xqc_h3_frame_pctx_t) : res Z * xqc_h3_frame_pctx_t :=
  let '(nread, v, fin) := xqc_discrete_vint_parse p (fp_int c) in
  if fin : bool then
    let fr := mk_frame (f_type (fp_frame c)) (vi v) 0 pl_zero in
    let c := mk_fpctx XQC_H3_FRM_STATE_PAYLOAD fr xqc_discrete_int_pctx_clear in
    if vi v =? 0 then
      if needs_payload (f_type fr) then (Err XQC_H3_DECODE_ERROR, c)
      else (Ok nread, mk_fpctx XQC_H3_FRM_STATE_END fr xqc_discrete_int_pctx_clear)
    else (Ok nread, c)
  else (Ok nread, mk_fpctx (fp_state c) (fp_frame c) v).

Definition parse_payload (p : list Z) (c : xqc_h3_frame_pctx_t) : res Z * xqc_h3_frame_pctx_t :=
  match parse_payload_by_type p (fp_frame c) with
  | (Err _, fr) => (Err XQC_H3_DECODE_ERROR, set_fp_frame c fr)
  | (Ok (nread, fin), fr) =>
      (Ok nread, mk_fpctx (if fin : bool then XQC_H3_FRM_STATE_END else fp_state c) fr (fp_int c))
  end.

(** Run [f] on the bytes from [pos] if the state is [s]. *)
Definition stage (s : xqc_h3_frame_state_t) (f : list Z -> xqc_h3_frame_pctx_t -> res Z * xqc_h3_frame_pctx_t)
    (p : list Z) (pos : Z) (c : xqc_h3_frame_pctx_t) : res Z * xqc_h3_frame_pctx_t :=
  if decide (fp_state c = s) then
    match f (drop (Z.to_nat pos) p) c with
    | (Ok n, c) => (Ok (pos + n), c)
    | (Err e, c) => (Err e, c)
    end
  else (Ok pos, c).

Definition xqc_h3_frm_parse (p : list Z) (c : xqc_h3_frame_pctx_t) : res Z * xqc_h3_frame_pctx_t :=
  if decide (fp_state c = XQC_H3_FRM_STATE_END) then (Err XQC_H3_DECODE_ERROR, c)
  else
    match stage XQC_H3_FRM_STATE_TYPE parse_type p 0 c with
    | (Err e, c) => (Err e, c)
    | (Ok pos, c) =>
        if pos =? zlen p then (Ok pos, c)
        else
          match stage XQC_H3_FRM_STATE_LEN parse_len p pos c with
          | (Err e, c) => (Err e, c)
          | (Ok pos, c) =>
              if pos =? zlen p then (Ok pos, c)
              else stage XQC_H3_FRM_STATE_PAYLOAD parse_payload p pos c
          end
    end.

End ops.

(** ** SETTINGS: the registered settings of this endpoint (xqc_h3_conn.c) *)

Definition XQC_H3_SETTINGS_QPACK_MAX_TABLE_CAPACITY : Z := 0x01.
Definition XQC_H3_SETTINGS_H2_ENABLE_PUSH : Z := 0x02.
Definition XQC_H3_SETTINGS_H2_MAX_FRAME_SIZE : Z := 0x05.
Definition XQC_H3_SETTINGS_MAX_FIELD_SECTION_SIZE : Z := 0x06.
Definition XQC_H3_SETTINGS_QPACK_BLOCKED_STREAMS : Z := 0x07.
Definition XQC_H3_SETTINGS_ENABLE_CONNECT_PROTOCOL : Z := 0x08.
Definition XQC_H3_SETTINGS_H3_DATAGRAM : Z := 0x33.
Definition XQC_H3_SETTINGS_GREASE_FIRST : Z := 0x21.
Definition XQC_H3_SETTINGS_GREASE_INTERVAL : Z := 0x1f.
Definition XQC_H3_MAX_EXTERN_SETTINGS : Z := 16.

(** An entry: identifier and value. *)
Definition xqc_h3_setting_t : Type := Z * Z.

(** [hs_extern]: the first [extern_settings_count] entries of the array. *)
Record xqc_h3_conn_settings_t := mk_h3set {
  hs_max_field_section_size : Z;
  hs_qpack_enc_max_table_capacity : Z;
  hs_qpack_dec_max_table_capacity : Z;
  hs_qpack_blocked_streams : Z;
  hs_enable_connect_protocol : Z;
  hs_h3_datagram : Z;
  hs_extern : list xqc_h3_setting_t;
}.

Definition set_hs_extern (s : xqc_h3_conn_settings_t) (l : list xqc_h3_setting_t) : xqc_h3_conn_settings_t :=
  mk_h3set (hs_max_field_section_size s) (hs_qpack_enc_max_table_capacity s) (hs_qpack_dec_max_table_capacity s)
    (hs_qpack_blocked_streams s) (hs_enable_connect_protocol s) (hs_h3_datagram s) l.

(** The search loops: the first entry with the identifier. *)
Fixpoint find_entry (l : list xqc_h3_setting_t) (identifier : Z) : option xqc_h3_setting_t :=
  match l with
  | [] => None
  | e :: l => if fst e =? identifier then Some e else find_entry l identifier
  end.

Fixpoint replace_entry (l : list xqc_h3_setting_t) (identifier value : Z) : option (list xqc_h3_setting_t) :=
  match l with
  | [] => None
  | e :: l =>
      if fst e =? identifier then Some ((identifier, value) :: l)
      else l ← replace_entry l identifier value; Some (e :: l)
  end.

Definition xqc_h3_conn_settings_add_extern (s : xqc_h3_conn_settings_t) (identifier value : Z)
    : res unit * xqc_h3_conn_settings_t :=
  if (XQC_VINT_MAX <? identifier) || (XQC_VINT_MAX <? value) || (identifier <=? XQC_H3_SETTINGS_QPACK_BLOCKED_STREAMS)
  then (Err XQC_EPARAM, s)
  else if XQC_H3_MAX_EXTERN_SETTINGS <? Z.of_nat (length (hs_extern s)) then (Err XQC_EPARAM, s)
  else
    match replace_entry (hs_extern s) identifier value with
    | Some l => (Ok tt, set_hs_extern s l)
    | None =>
        if Z.of_nat (length (hs_extern s)) =? XQC_H3_MAX_EXTERN_SETTINGS then (Err XQC_EPARAM, s)
        else (Ok tt, set_hs_extern s (hs_extern s ++ [(identifier, value)]))
    end.

Definition xqc_h3_settings_find_extern (s : xqc_h3_conn_settings_t) (identifier : Z) : option xqc_h3_setting_t :=
  find_entry (hs_extern s) identifier.

Definition xqc_h3_settings_local_h3_datagram (s : xqc_h3_conn_settings_t) : Z :=
  match xqc_h3_settings_find_extern s XQC_H3_SETTINGS_H3_DATAGRAM with
  | Some e => snd e
  | None => if hs_h3_datagram s =? 0 then 0 else 1
  end.

(** The loop over the registered entries; [before] are those already visited. *)
Fixpoint validate_externs (before l : list xqc_h3_setting_t) : bool :=
  match l with
  | [] => true
  | e :: l =>
      if (XQC_VINT_MAX <? fst e) || (fst e <=? XQC_H3_SETTINGS_QPACK_BLOCKED_STREAMS) then false
      else if (fst e =? XQC_H3_SETTINGS_H3_DATAGRAM) && (1 <? snd e) then false
      else if XQC_VINT_MAX <? snd e then false
      else if existsb (fun b => fst b =? fst e) before then false
      else validate_externs (before ++ [e]) l
  end.

Definition xqc_h3_conn_settings_validate (s : xqc_h3_conn_settings_t) : res unit :=
  if XQC_H3_MAX_EXTERN_SETTINGS <? Z.of_nat (length (hs_extern s)) then Err XQC_EPARAM
  else if XQC_VINT_MAX <? hs_max_field_section_size s then Err XQC_EPARAM
  else if XQC_VINT_MAX <? hs_qpack_dec_max_table_capacity s then Err XQC_EPARAM
  else if XQC_VINT_MAX <? hs_qpack_blocked_streams s then Err XQC_EPARAM
  else if validate_externs [] (hs_extern s) then Ok tt else Err XQC_EPARAM.

(** ** Writing *)

Section write.

(** [mem]: a buffer can be made; [lmem n]: so can the list node of the [n]th buffer. *)
Context (mem : bool) (junk : Z -> list Z) (lmem : nat -> bool).

(** The result of a writer and the list of buffers to send. *)
Definition wresult : Type := res unit * list xqc_var_buf_t.

Definition xqc_list_buf_to_tail (send_buf : list xqc_var_buf_t) (buf : xqc_var_buf_t) : wresult :=
  if negb (lmem (length send_buf)) then (Err XQC_ERROR, send_buf) else (Ok tt, send_buf ++ [buf]).

Definition set_vb_fin (buf : xqc_var_buf_t) (fin : Z) : xqc_var_buf_t :=
  mk_vb (vb_data buf) (vb_buf_len buf) (vb_data_len buf) (vb_consumed buf) fin (vb_limit buf).

(** A new buffer of [cap] bytes that holds the integers [vs]; [None]: an integer too large for the
    encoding makes [pos] NULL. *)
Definition vint_buf (cap : Z) (vs : list Z) (fin : Z) : option (res xqc_var_buf_t) :=
  match xqc_var_buf_create mem junk cap with
  | None => Some (Err XQC_EMALLOC)
  | Some buf =>
      '(data, pos) ← put_vints vs (vb_data buf, 0);
      Some (Ok (set_vb_fin (vb_write buf data pos) fin))
  end.

(** The common end of the writers. *)
Definition append_buf (send_buf : list xqc_var_buf_t) (b : res xqc_var_buf_t) : wresult :=
  match b with Err e => (Err e, send_buf) | Ok b => xqc_list_buf_to_tail send_buf b end.

(** A buffer and behind it the field section, which takes the [fin] flag. *)
Definition append_section (send_buf : list xqc_var_buf_t) (b : res xqc_var_buf_t) (section : xqc_var_buf_t) (fin : Z) : wresult :=
  match append_buf send_buf b with
  | (Err e, l) => (Err e, l)
  | (Ok _, l) => xqc_list_buf_to_tail l (set_vb_fin section fin)
  end.

Definition xqc_h3_frm_write_headers (send_buf : list xqc_var_buf_t) (section : xqc_var_buf_t) (fin : Z) : option wresult :=
  b ← vint_buf (xqc_put_varint_len XQC_H3_FRM_HEADERS + xqc_put_varint_len (vb_data_len section))
        [XQC_H3_FRM_HEADERS; vb_data_len section] 0;
  Some (append_section send_buf b section fin).

Definition xqc_h3_frm_write_data (send_buf : list xqc_var_buf_t) (data : list Z) (fin : Z) : option wresult :=
  b ← vint_buf (xqc_put_varint_len XQC_H3_FRM_DATA + xqc_put_varint_len (zlen data) + zlen data)
        [XQC_H3_FRM_DATA; zlen data] 0;
  Some (match b with
        | Err e => (Err e, send_buf)
        | Ok b =>
            match xqc_var_buf_save_data mem junk b data with
            | (Err e, _) => (Err e, send_buf)
            | (Ok _, b) => xqc_list_buf_to_tail send_buf (set_vb_fin b fin)
            end
        end).

(** The frames with one integer as payload. *)
Definition write_vint_frame (type : Z) (send_buf : list xqc_var_buf_t) (v fin : Z) : option wresult :=
  let len := xqc_put_varint_len v in
  b ← vint_buf (xqc_put_varint_len type + xqc_put_varint_len len + len) [type; len; v] fin;
  Some (append_buf send_buf b).

Definition xqc_h3_frm_write_cancel_push := write_vint_frame XQC_H3_FRM_CANCEL_PUSH.
Definition xqc_h3_frm_write_goaway := write_vint_frame XQC_H3_FRM_GOAWAY.
Definition xqc_h3_frm_write_max_push_id := write_vint_frame XQC_H3_FRM_MAX_PUSH_ID.
Definition xqc_h3_ext_frm_write_bidi_stream_type := write_vint_frame XQC_H3_EXT_FRM_BIDI_STREAM_TYPE.

(** The entries a SETTINGS frame announces. *)
Definition settings_entries (s : xqc_h3_conn_settings_t) : list xqc_h3_setting_t :=
  [(XQC_H3_SETTINGS_MAX_FIELD_SECTION_SIZE, hs_max_field_section_size s);
   (XQC_H3_SETTINGS_QPACK_MAX_TABLE_CAPACITY, hs_qpack_dec_max_table_capacity s);
   (XQC_H3_SETTINGS_QPACK_BLOCKED_STREAMS, hs_qpack_blocked_streams s)]
  ++ (if negb (hs_enable_connect_protocol s =? 0)
         && bool_decide (xqc_h3_settings_find_extern s XQC_H3_SETTINGS_ENABLE_CONNECT_PROTOCOL = None)
      then [(XQC_H3_SETTINGS_ENABLE_CONNECT_PROTOCOL, 1)] else [])
  ++ (if negb (hs_h3_datagram s =? 0)
         && bool_decide (xqc_h3_settings_find_extern s XQC_H3_SETTINGS_H3_DATAGRAM = None)
      then [(XQC_H3_SETTINGS_H3_DATAGRAM, 1)] else [])
  ++ hs_extern s.

Definition entry_ints (es : list xqc_h3_setting_t) : list Z := flat_map (fun e => [fst e; snd e]) es.

Definition sum_len (vs : list Z) : Z := fold_right (fun v n => xqc_put_varint_len v + n) 0 vs.

Definition xqc_h3_frm_write_settings (send_buf : list xqc_var_buf_t) (s : xqc_h3_conn_settings_t) (fin : Z) : option wresult :=
  match xqc_h3_conn_settings_validate s with
  | Err _ => Some (Err XQC_EPARAM, send_buf)
  | Ok _ =>
      let vs := entry_ints (settings_entries s) in
      let len := sum_len vs in
      b ← vint_buf (xqc_put_varint_len XQC_H3_FRM_SETTINGS + xqc_put_varint_len len + len)
            (XQC_H3_FRM_SETTINGS :: len :: vs) fin;
      Some (append_buf send_buf b)
  end.

Definition xqc_h3_frm_write_push_promise (send_buf : list xqc_var_buf_t) (push_id : Z) (section : xqc_var_buf_t) (fin : Z)
    : option wresult :=
  let push_id_len := xqc_put_varint_len push_id in
  let len := push_id_len + vb_data_len section in
  b ← vint_buf (xqc_put_varint_len XQC_H3_FRM_PUSH_PROMISE + xqc_put_varint_len len + push_id_len + vb_data_len section)
        [XQC_H3_FRM_PUSH_PROMISE; len; push_id] 0;
  Some (append_section send_buf b section fin).

End write.

(** ** Reading the entries of a SETTINGS payload: the first loop of [xqc_h3_frm_parse_setting] *)

Inductive entries_error := frame_error | settings_error.

#[export] Instance entries_error_eq_dec : EqDecision entries_error.
Proof. solve_decision. Defined.

(** Two integers at the front of [p], read from cleared contexts. *)
Definition read_entry (p : list Z) : option (xqc_h3_setting_t * list Z) :=
  let '(n, id, fin) := xqc_discrete_vint_parse p xqc_discrete_int_pctx_clear in
  if negb fin then None
  else
    let p := drop (Z.to_nat n) p in
    let '(n, v, fin) := xqc_discrete_vint_parse p xqc_discrete_int_pctx_clear in
    if negb fin then None else Some ((vi id, vi v), drop (Z.to_nat n) p).

(** [entries]: those read so far. An entry takes at least two bytes, so [length p] is fuel enough. *)
Fixpoint read_entries (fuel : nat) (p : list Z) (entries : list xqc_h3_setting_t)
    : entries_error + list xqc_h3_setting_t :=
  match p, fuel with
  | [], _ => inr entries
  | _, O => inl frame_error
  | _, S fuel =>
      match read_entry p with
      | None => inl frame_error
      | Some (e, p) =>
          if (XQC_H3_SETTINGS_H2_ENABLE_PUSH <=? fst e) && (fst e <=? XQC_H3_SETTINGS_H2_MAX_FRAME_SIZE)
          then inl settings_error
          else if existsb (fun b => fst b =? fst e) entries then inl settings_error
          else read_entries fuel p (entries ++ [e])
      end
  end.

Definition parse_entries (p : list Z) : entries_error + list xqc_h3_setting_t := read_entries (length p) p [].

End H3Frame.
