(* ===== verification/H3FrameSpec.v ===== *)
(** The HTTP/3 frame parser reads a frame from any pieces; what the writers produce is read back. *)

From stdpp Require Import base numbers list.
From S2P Require Import Prelude VInt RingArray RingMem VarBuf TransParams TransParamsSpec H3Frame.
Import VInt VarBuf TransParams TransParamsSpec H3Frame.

Module H3FrameSpec.

(** ** A piece of a stream *)

(** [p] holds the bytes of [B] from offset [k] on, as far as both go. *)
Definition sees (p : list Z) (k : Z) (B : list Z) : Prop :=
  forall i, 0 <= i < zlen p -> k + i < zlen B -> rd p i = rd B (k + i).

Lemma rd_drop p n i : 0 <= n -> 0 <= i -> rd (drop (Z.to_nat n) p) i = rd p (n + i).
Proof.
  intros Hn Hi. unfold rd. rewrite <- (Z2Nat.id n Hn) at 2. revert p. generalize (Z.to_nat n) as k.
  intros k p. replace (Z.to_nat (Z.of_nat k + i)) with (k + Z.to_nat i)%nat by lia.
  revert p. induction k as [|k IH]; intros p; [done|]. destruct p as [|x p]; [by destruct (Z.to_nat i)|]. apply IH.
Qed.

Lemma zlen_drop p n : 0 <= n <= zlen p -> zlen (drop (Z.to_nat n) p) = zlen p - n.
Proof. intros Hn. unfold zlen in *. rewrite length_drop. lia. Qed.

Lemma sees_drop p k B n : 0 <= n <= zlen p -> sees p k B -> sees (drop (Z.to_nat n) p) (k + n) B.
Proof. intros Hn Hs i Hi Hb. rewrite zlen_drop in Hi by done. rewrite rd_drop by lia. rewrite Hs by lia. f_equal. lia. Qed.

Lemma sees_l p k A C : 0 <= k -> sees p k (A ++ C) -> sees p k A.
Proof. intros Hk Hs i Hi Hb. pose proof (zlen_nonneg C). rewrite Hs by (rewrite ?zlen_app; lia). apply rd_app_l. lia. Qed.

Lemma sees_r p k A C : zlen A <= k -> sees p k (A ++ C) -> sees p (k - zlen A) C.
Proof.
  intros Hk Hs i Hi Hb. rewrite Hs by (rewrite ?zlen_app; lia). rewrite rd_app_r by lia. f_equal. lia.
Qed.

Lemma sees_sub p k B m : 0 <= k -> 0 <= m <= zlen p -> k + m <= zlen B -> sees p k B -> sub_bytes p 0 m = sub_bytes B k m.
Proof.
  intros Hk Hm Hb Hs. apply buf_ext.
  - rewrite !zlen_sub_bytes; lia.
  - intros i Hi. rewrite zlen_sub_bytes in Hi by lia. rewrite !rd_sub by lia. rewrite <- Hs by lia. done.
Qed.

Lemma sees_stream p k B R later : 0 <= k <= zlen B -> drop (Z.to_nat k) B ++ R = p ++ later -> sees p k B.
Proof.
  intros Hk E i Hi Hb. rewrite <- (rd_app_l p later) by lia. rewrite <- E.
  rewrite rd_app_l by (rewrite zlen_drop by done; lia). apply rd_drop; lia.
Qed.

(** ** An integer in pieces *)

(** The context after [j] bytes of the encoding [E]. *)
Definition int_at (E : list Z) (j : Z) : xqc_discrete_int_pctx_t :=
  if j =? 0 then xqc_discrete_int_pctx_clear
  else mk_pctx (xqc_get_varint_fb (rd E 0) * 256 ^ (j - 1) + be_val (sub_bytes E 1 (j - 1))) (zlen E - j).

(** [E] encodes [v], in any of the lengths that hold it. *)
Definition is_enc (E : list Z) (v : Z) : Prop :=
  bytes_ok E /\ 1 <= zlen E /\ xqc_get_varint_len (rd E 0) = zlen E /\ vi (int_at E (zlen E)) = v.

Lemma is_enc_len E v : is_enc E v -> 1 <= zlen E <= 8.
Proof.
  intros (Hb & Hz & Hl & _). split; [done|]. destruct (varint_len_cases (rd E 0)) as [H|[H|[H|H]]]; try lia.
  by apply rd_is_byte.
Qed.

Lemma fb_bound b : is_byte b -> 0 <= xqc_get_varint_fb b < 64.
Proof. intros Hb. destruct (varint_first_byte b Hb) as (t & r & _ & Hr & -> & _). done. Qed.

(** The value so far has room for the bytes that are missing. *)
Lemma int_at_room E v j : is_enc E v -> 1 <= j <= zlen E ->
  0 <= vi (int_at E j) /\ (vi (int_at E j) + 1) * 256 ^ (zlen E - j) <= 2 ^ 64.
Proof.
  intros HE Hj. pose proof (is_enc_len _ _ HE) as HL. destruct HE as (Hb & _ & _ & _).
  unfold int_at. destruct (j =? 0) eqn:E0; [zb|]. cbn [vi].
  pose proof (fb_bound (rd E 0) (rd_is_byte _ _ Hb)) as Hf.
  pose proof (be_val_bound (sub_bytes E 1 (j - 1)) (bytes_ok_sub _ _ _ Hb)) as Hv.
  rewrite zlen_sub_bytes in Hv by lia. set (w := 256 ^ (j - 1)) in *.
  assert (256 ^ (zlen E - 1) = w * 256 ^ (zlen E - j)) as Hw by (unfold w; rewrite <- Z.pow_add_r by lia; f_equal; lia).
  assert (256 ^ (zlen E - 1) <= 256 ^ 7) by (apply Z.pow_le_mono_r; lia).
  assert (64 * 256 ^ 7 <= 2 ^ 64) by by_decide.
  pose proof (Z.pow_pos_nonneg 256 (zlen E - j) ltac:(lia) ltac:(lia)). nia.
Qed.

(** The value after [m] more bytes. *)
Lemma int_at_add E v j m : is_enc E v -> 1 <= j -> 0 <= m -> j + m <= zlen E ->
  mk_pctx (vi (int_at E j) * 256 ^ m + be_val (sub_bytes E j m)) (zlen E - j - m) = int_at E (j + m).
Proof.
  intros HE Hj Hm Hz. unfold int_at. destruct (j =? 0) eqn:E0; [zb|]. destruct (j + m =? 0) eqn:E1; [zb|]. cbn [vi]. f_equal; [|lia].
  assert (sub_bytes E 1 (j + m - 1) = sub_bytes E 1 (j - 1) ++ sub_bytes E j m) as ->.
  { unfold sub_bytes. replace (Z.to_nat (j + m - 1)) with (Z.to_nat (j - 1) + Z.to_nat m)%nat by lia.
    rewrite <- take_take_drop. f_equal. rewrite drop_drop. do 2 f_equal. lia. }
  rewrite be_val_app, zlen_sub_bytes by lia.
  replace (j + m - 1) with (j - 1 + m) by lia. rewrite Z.pow_add_r by lia. ring.
Qed.

Lemma discrete_at E v j p : is_enc E v -> 0 <= j < zlen E -> p <> [] -> bytes_ok p -> sees p j E ->
  let m := Z.min (zlen E - j) (zlen p) in
  xqc_discrete_vint_parse p (int_at E j) = (m, int_at E (j + m), j + m =? zlen E).
Proof.
  intros HE Hj Hp Hb Hs m. pose proof (is_enc_len _ _ HE) as HL.
  assert (1 <= zlen p) as Hp1 by (destruct p as [|x p']; [done|]; rewrite zlen_cons; pose proof (zlen_nonneg p'); lia).
  destruct (decide (j = 0)) as [->|Hj0].
  - destruct p as [|b p]; [done|]. pose proof (zlen_nonneg p). rewrite zlen_cons in *.
    assert (b = rd E 0) as Hb0 by (apply (Hs 0); rewrite ?zlen_cons; lia). apply Forall_cons in Hb as [Hb Hbs].
    destruct (int_at_room E v 1 HE ltac:(lia)) as [Hv0 Hroom].
    assert (int_at E 1 = mk_pctx (xqc_get_varint_fb b) (zlen E - 1)) as H1.
    { unfold int_at. cbn [Z.eqb]. rewrite Hb0. change (1 - 1) with 0. unfold sub_bytes. cbn [Z.to_nat take]. f_equal. rewrite firstn_O. change (be_val []) with 0. lia. }
    unfold xqc_discrete_vint_parse, int_at. cbn [Z.eqb left xqc_discrete_int_pctx_clear].
    replace (xqc_get_varint_len b) with (zlen E) by (rewrite Hb0; symmetry; apply HE).
    set (cnt := Z.min (zlen E - 1) (zlen p)). assert (m = 1 + cnt) as Hm by (unfold m, cnt; rewrite zlen_cons; lia). clearbody m. subst m.
    assert (take (Z.to_nat cnt) p = sub_bytes E 1 cnt) as Htake.
    { change (take (Z.to_nat cnt) p) with (sub_bytes p 0 cnt). apply sees_sub; try (unfold cnt; lia).
      intros i Hi HbE. specialize (Hs (1 + i)). rewrite zlen_cons in Hs. rewrite Z.add_0_l in Hs. rewrite <- Hs by lia.
      change (b :: p) with ([b] ++ p). rewrite rd_app_r by (change (zlen [b]) with 1; lia). f_equal. change (zlen [b]) with 1. lia. }
    pose proof (Z.pow_le_mono_r 256 cnt (zlen E - 1) ltac:(lia) ltac:(unfold cnt; lia)).
    rewrite Htake, vint_accumulate_spec; [|apply bytes_ok_sub, HE|apply fb_bound; done|].
    + rewrite zlen_sub_bytes by (unfold cnt; lia).
      pose proof (int_at_add E v 1 cnt HE ltac:(lia) ltac:(unfold cnt; lia) ltac:(unfold cnt; lia)) as Ha.
      rewrite H1 in Ha. cbn [vi] in Ha. rewrite Ha. fold (int_at E (1 + cnt)). rewrite Z.add_0_l. f_equal.
      destruct (_ =? 0) eqn:?, (_ =? zlen E) eqn:?; zb || done.
    + rewrite zlen_sub_bytes by (unfold cnt; lia). rewrite H1 in Hroom. cbn [vi] in Hroom.
      pose proof (fb_bound b Hb). nia.
  - destruct (int_at_room E v j HE ltac:(lia)) as [Hv0 Hroom].
    assert (int_at E j = mk_pctx (vi (int_at E j)) (zlen E - j)) as Hij by (unfold int_at; destruct (j =? 0) eqn:E0; [zb|done]).
    rewrite Hij, discrete_parse_more by (done || lia). cbv zeta. fold m.
    assert (take (Z.to_nat m) p = sub_bytes E j m) as -> by (apply (sees_sub p j E m); try (unfold m; lia); done).
    rewrite (int_at_add E v j m HE) by (unfold m; lia). f_equal.
    destruct (_ =? 0) eqn:?, (_ =? zlen E) eqn:?; zb || done.
Qed.

(** What [xqc_vint_read] reads to the end is an encoding of its value. *)
Lemma vint_read_enc E v : bytes_ok E -> xqc_vint_read E 0 (zlen E) = Some (v, zlen E) -> is_enc E v.
Proof.
  intros Hb Hr. rewrite vint_read_spec in Hr by (done || lia). destruct (zlen E <=? 0) eqn:E0; [done|]. zify_bools.
  cbv zeta in Hr. destruct (_ <? _) eqn:E1; [done|]. injection Hr as Hv HL. split; [done|]. split; [lia|]. split; [done|].
  rewrite HL in Hv. rewrite <- Hv. unfold int_at. destruct (zlen E =? 0) eqn:E2; [zb|]. cbn [vi].
  destruct (varint_first_byte (rd E 0) (rd_is_byte _ _ Hb)) as (t & r & Hbr & Hr' & -> & _ & _).
  rewrite (sub_bytes_cons E 0) by lia. rewrite Z.add_0_l.
  destruct (be_val_mask t r (sub_bytes E 1 (zlen E - 1)) Hr' (bytes_ok_sub _ _ _ Hb)) as [_ Hm].
  rewrite zlen_sub_bytes in Hm by lia. rewrite Hbr. replace (1 + (zlen E - 1)) with (zlen E) in Hm by lia. done.
Qed.

Lemma vbytes_enc v : is_vint v -> is_enc (vbytes v) v.
Proof. intros Hv. apply vint_read_enc; [apply vbytes_ok|]. rewrite read_vbytes by done. by rewrite zlen_vbytes. Qed.

(** ** A frame on the wire *)

(** Type, length and payload; the integers may be encoded in any length. *)
Record wframe := mk_wframe {
  w_type : Z;
  w_T : list Z;
  w_L : list Z;
  w_P : list Z;
}.

Definition w_bytes (f : wframe) : list Z := w_T f ++ w_L f ++ w_P f.

Definition vint_type (t : Z) : bool :=
  (t =? XQC_H3_FRM_CANCEL_PUSH) || (t =? XQC_H3_FRM_GOAWAY) || (t =? XQC_H3_FRM_MAX_PUSH_ID)
  || (t =? XQC_H3_EXT_FRM_BIDI_STREAM_TYPE).

(** The integer of a payload that consists of one. *)
Definition w_int (f : wframe) : Z := vi (int_at (w_P f) (zlen (w_P f))).

(** The types that are refused whatever follows, and those whose payload the parser leaves to the request stream. *)
Definition refused (wt : bool) (t : Z) : bool := xqc_h3_frm_is_h2_reserved t || ((t =? XQC_H3_FRM_WT_STREAM) && wt).

Definition left_to_request (t : Z) : bool :=
  (t =? XQC_H3_FRM_DATA) || (t =? XQC_H3_FRM_HEADERS) || (t =? XQC_H3_FRM_PUSH_PROMISE).

Record w_ok (wt : bool) (f : wframe) : Prop := {
  w_T_ok : is_enc (w_T f) (w_type f);
  w_L_ok : is_enc (w_L f) (zlen (w_P f));
  w_P_bytes : bytes_ok (w_P f);
  w_refused : refused wt (w_type f) = false;
  w_request : left_to_request (w_type f) = false;
  w_vint : vint_type (w_type f) = true -> is_enc (w_P f) (w_int f);
  w_settings : w_type f = XQC_H3_FRM_SETTINGS -> zlen (w_P f) <= XQC_H3_SETTINGS_MAX_FRAME_SIZE;
}.

(** The parser after [k] bytes of the type or of the length. *)
Definition type_at (f : wframe) (k : Z) : xqc_h3_frame_pctx_t :=
  mk_fpctx XQC_H3_FRM_STATE_TYPE (mk_frame XQC_H3_FRM_UNKNOWN 0 0 pl_zero) (int_at (w_T f) k).

Definition len_at (f : wframe) (k : Z) : xqc_h3_frame_pctx_t :=
  mk_fpctx XQC_H3_FRM_STATE_LEN (mk_frame (w_type f) 0 0 pl_zero) (int_at (w_L f) k).

(** The frame after [j] bytes of the payload. *)
Definition settings_at (P : list Z) (j : Z) (pl : xqc_h3_frame_pl_t) : Prop :=
  if j =? 0 then pl = pl_zero
  else exists b, pl = mk_pl xqc_discrete_int_pctx_clear (Some b) 0 /\ vb_ok b /\ vb_bytes b = sub_bytes P 0 j
       /\ vb_data_len b = j /\ max_size b = XQC_H3_SETTINGS_MAX_FRAME_SIZE.

Definition payload_at (f : wframe) (j : Z) (fr : xqc_h3_frame_t) : Prop :=
  f_type fr = w_type f /\ f_len fr = zlen (w_P f) /\
  if vint_type (w_type f) then
    f_pl fr = mk_pl (int_at (w_P f) j) None 0
    /\ (w_type f <> XQC_H3_EXT_FRM_BIDI_STREAM_TYPE -> f_consumed fr = j)
  else if w_type f =? XQC_H3_FRM_SETTINGS then settings_at (w_P f) j (f_pl fr)
  else f_consumed fr = j.

(** The parser after [k] bytes of the frame. *)
Definition at_frame (f : wframe) (k : Z) (c : xqc_h3_frame_pctx_t) : Prop :=
  let t := zlen (w_T f) in
  let l := zlen (w_L f) in
  (0 <= k < t /\ c = type_at f k)
  \/ (t <= k < t + l /\ c = len_at f (k - t))
  \/ (t + l <= k <= zlen (w_bytes f)
      /\ fp_state c = (if k =? zlen (w_bytes f) then XQC_H3_FRM_STATE_END else XQC_H3_FRM_STATE_PAYLOAD)
      /\ payload_at f (k - t - l) (fp_frame c)).

Lemma zlen_w_bytes f : zlen (w_bytes f) = zlen (w_T f) + zlen (w_L f) + zlen (w_P f).
Proof. unfold w_bytes. rewrite !zlen_app. lia. Qed.

Lemma at_frame_start f : 0 < zlen (w_T f) -> at_frame f 0 xqc_h3_frm_reset_pctx.
Proof. intros Ht. left. split; [lia|done]. Qed.

(** ** Type and length, whatever they are *)

(** What the end of a type does: the parser goes on to the length, or refuses the type. *)
Definition type_done (wt : bool) (f : wframe) (n : Z) : res Z * xqc_h3_frame_pctx_t :=
  (if xqc_h3_frm_is_h2_reserved (w_type f) then Err XQC_H3_RESERVED_FRAME_UNEXPECTED
   else if (w_type f =? XQC_H3_FRM_WT_STREAM) && wt then Err XQC_H3_INVALID_FRAME_TYPE
   else Ok n, len_at f 0).

Lemma parse_type_any wt f k p : is_enc (w_T f) (w_type f) ->
  0 <= k < zlen (w_T f) -> p <> [] -> bytes_ok p -> sees p k (w_T f) ->
  let n := Z.min (zlen (w_T f) - k) (zlen p) in
  parse_type wt p (type_at f k) = if k + n =? zlen (w_T f) then type_done wt f n else (Ok n, type_at f (k + n)).
Proof.
  intros HT Hk Hp Hb Hs n. unfold parse_type. cbn [fp_int type_at].
  rewrite (discrete_at _ _ k p HT Hk Hp Hb Hs). fold n.
  destruct (k + n =? zlen (w_T f)) eqn:E; [|done]. zify_bools. rewrite E.
  assert (vi (int_at (w_T f) (zlen (w_T f))) = w_type f) as -> by apply HT.
  unfold type_done. by repeat case_if.
Qed.

Lemma parse_len_any f v k p : is_enc (w_L f) v -> needs_payload (w_type f) = false \/ v <> 0 ->
  0 <= k < zlen (w_L f) -> p <> [] -> bytes_ok p -> sees p k (w_L f) ->
  let n := Z.min (zlen (w_L f) - k) (zlen p) in
  parse_len p (len_at f k)
  = (Ok n, if k + n =? zlen (w_L f)
           then mk_fpctx (if v =? 0 then XQC_H3_FRM_STATE_END else XQC_H3_FRM_STATE_PAYLOAD)
                  (mk_frame (w_type f) v 0 pl_zero) xqc_discrete_int_pctx_clear
           else len_at f (k + n)).
Proof.
  intros HL Hv Hk Hp Hb Hs n. unfold parse_len. cbn [fp_int len_at].
  rewrite (discrete_at _ _ k p HL Hk Hp Hb Hs). fold n.
  destruct (k + n =? zlen (w_L f)) eqn:E; [|done]. zify_bools. rewrite E.
  assert (vi (int_at (w_L f) (zlen (w_L f))) = v) as -> by apply HL.
  cbn [f_type fp_frame len_at]. destruct (v =? 0) eqn:E0; [|done]. zify_bools.
  destruct Hv as [->|]; done.
Qed.

(** ** The stages of the parser *)

Section stages.

Context (junk : Z -> list Z) (Hjunk : forall n, 0 <= n -> zlen (junk n) = n).
Context (wt : bool) (f : wframe) (Hok : w_ok wt f).

Lemma parse_type_at k p : 0 <= k < zlen (w_T f) -> p <> [] -> bytes_ok p -> sees p k (w_T f) ->
  let n := Z.min (zlen (w_T f) - k) (zlen p) in
  parse_type wt p (type_at f k) = (Ok n, if k + n =? zlen (w_T f) then len_at f 0 else type_at f (k + n)).
Proof.
  intros Hk Hp Hb Hs n. rewrite (parse_type_any wt f k p (w_T_ok _ _ Hok)) by done. fold n.
  pose proof (w_refused _ _ Hok) as Hr. unfold refused in Hr. apply orb_false_iff in Hr as [Hr1 Hr2].
  unfold type_done. rewrite Hr1, Hr2. by case_if.
Qed.

Lemma needs_payload_vint t : needs_payload t = true -> left_to_request t = false -> vint_type t = true.
Proof.
  unfold needs_payload, left_to_request, vint_type. rewrite !orb_true_iff, !orb_false_iff, !Z.eqb_eq, !Z.eqb_neq.
  intros H1 H2. intuition congruence.
Qed.

Lemma payload_at_start : payload_at f 0 (mk_frame (w_type f) (zlen (w_P f)) 0 pl_zero).
Proof. unfold payload_at. cbn [f_type f_len f_pl f_consumed]. split; [done|]. split; [done|]. repeat case_if; done. Qed.

(** The parser behind the length. *)
Definition behind_len : xqc_h3_frame_pctx_t :=
  mk_fpctx (if zlen (w_P f) =? 0 then XQC_H3_FRM_STATE_END else XQC_H3_FRM_STATE_PAYLOAD)
    (mk_frame (w_type f) (zlen (w_P f)) 0 pl_zero) xqc_discrete_int_pctx_clear.

Lemma parse_len_at k p : 0 <= k < zlen (w_L f) -> p <> [] -> bytes_ok p -> sees p k (w_L f) ->
  let n := Z.min (zlen (w_L f) - k) (zlen p) in
  parse_len p (len_at f k) = (Ok n, if k + n =? zlen (w_L f) then behind_len else len_at f (k + n)).
Proof.
  intros Hk Hp Hb Hs n. rewrite (parse_len_any f (zlen (w_P f)) k p (w_L_ok _ _ Hok)); try done.
  destruct (needs_payload (w_type f)) eqn:En; [right|by left].
  apply needs_payload_vint in En; [|apply Hok]. pose proof (is_enc_len _ _ (w_vint _ _ Hok En)). lia.
Qed.

(** One integer as payload. *)
Lemma single_vint_at j p fr : vint_type (w_type f) = true -> w_type f <> XQC_H3_EXT_FRM_BIDI_STREAM_TYPE ->
  0 <= j < zlen (w_P f) -> p <> [] -> bytes_ok p -> sees p j (w_P f) -> payload_at f j fr ->
  let n := Z.min (zlen (w_P f) - j) (zlen p) in
  exists fr', xqc_h3_frm_parse_single_vint_payload p fr = (Ok (n, j + n =? zlen (w_P f)), fr') /\ payload_at f (j + n) fr'.
Proof.
  intros Hv Hx Hj Hp Hb Hs (Ht & Hl & Hpl) n. rewrite Hv in Hpl. destruct Hpl as (Hpl & Hc). specialize (Hc Hx).
  unfold xqc_h3_frm_parse_single_vint_payload. rewrite Hpl. cbn [pl_int].
  rewrite (discrete_at _ _ j p (w_vint _ _ Hok Hv) Hj Hp Hb Hs). fold n.
  pose proof (is_enc_len _ _ (w_vint _ _ Hok Hv)). pose proof (zlen_nonneg p).
  cbn [f_len f_consumed f_pl set_f_consumed set_pl_int set_pl f_type pl_buf pl_count]. rewrite Hc, Hl, u64_small by (unfold n; lia).
  match goal with |- context [if ?b then _ else _] => assert (b = false) as -> end.
  { destruct (j + n =? zlen (w_P f)) eqn:E; cbn [negb andb]; rewrite orb_false_r;
      apply Z.ltb_ge; unfold n; lia. }
  eexists. split; [done|]. unfold payload_at. cbn [f_type f_len f_pl f_consumed set_f_consumed set_pl_int set_pl]. rewrite Hv, Hpl. done.
Qed.

Lemma bidi_at j p fr : w_type f = XQC_H3_EXT_FRM_BIDI_STREAM_TYPE ->
  0 <= j < zlen (w_P f) -> p <> [] -> bytes_ok p -> sees p j (w_P f) -> payload_at f j fr ->
  let n := Z.min (zlen (w_P f) - j) (zlen p) in
  exists fr', xqc_h3_ext_frm_parse_bidi_stream_type p fr = (Ok (n, j + n =? zlen (w_P f)), fr') /\ payload_at f (j + n) fr'.
Proof.
  intros Hx Hj Hp Hb Hs (Ht & Hl & Hpl) n. assert (vint_type (w_type f) = true) as Hv by (rewrite Hx; done).
  rewrite Hv in Hpl. destruct Hpl as (Hpl & _). unfold xqc_h3_ext_frm_parse_bidi_stream_type. rewrite Hpl. cbn [pl_int].
  rewrite (discrete_at _ _ j p (w_vint _ _ Hok Hv) Hj Hp Hb Hs). fold n.
  eexists. split; [done|]. unfold payload_at. cbn [f_type f_len f_pl f_consumed set_pl_int set_pl]. rewrite Hv, Hpl. done.
Qed.

(** A payload that is skipped. *)
Lemma reserved_at j p fr : vint_type (w_type f) = false -> w_type f <> XQC_H3_FRM_SETTINGS ->
  0 <= j < zlen (w_P f) -> payload_at f j fr ->
  let n := Z.min (zlen (w_P f) - j) (zlen p) in
  exists fr', xqc_h3_frm_parse_reserved p fr = (Ok (n, j + n =? zlen (w_P f)), fr') /\ payload_at f (j + n) fr'.
Proof.
  intros Hv Hx Hj (Ht & Hl & Hpl) n. rewrite Hv in Hpl. destruct (w_type f =? XQC_H3_FRM_SETTINGS) eqn:E; [zb|].
  pose proof (int_at_room _ _ (zlen (w_L f)) (w_L_ok _ _ Hok)) as Hroom. pose proof (w_L_ok _ _ Hok) as (_ & HL1 & _ & HL).
  rewrite HL in Hroom. specialize (Hroom ltac:(lia)) as [_ Hroom]. rewrite Z.sub_diag in Hroom. change (256 ^ 0) with 1 in Hroom.
  unfold xqc_h3_frm_parse_reserved. rewrite Hl, Hpl. pose proof (zlen_nonneg p). rewrite u64_small by lia. fold n.
  rewrite u64_small by (unfold n; lia). eexists. split.
  - cbn [f_len f_consumed set_f_consumed]. rewrite Hl. rewrite Z.eqb_sym. done.
  - unfold payload_at. cbn [f_type f_len f_pl f_consumed set_f_consumed]. rewrite Hv, E. done.
Qed.

(** The buffer of a SETTINGS payload. *)
Lemma payload_buf_new len : 0 < len <= XQC_H3_SETTINGS_MAX_FRAME_SIZE ->
  exists b, payload_buf true junk None len XQC_H3_SETTINGS_MAX_FRAME_SIZE = Ok b /\ vb_ok b /\ vb_bytes b = []
  /\ vb_data_len b = 0 /\ max_size b = XQC_H3_SETTINGS_MAX_FRAME_SIZE.
Proof.
  unfold payload_buf, XQC_H3_SETTINGS_MAX_FRAME_SIZE, XQC_VAR_BUF_INIT_SIZE. intros Hl. case_if; [zb|].
  set (cap := if 256 <? len then 256 else len).
  assert ((if 256 <? len then xqc_var_buf_create_with_limit true junk 256 4096
    else xqc_var_buf_create_with_limit true junk len 4096) = xqc_var_buf_create_with_limit true junk cap 4096) as ->
    by (unfold cap; case_if; done).
  assert (0 < cap <= 256) as Hc by (unfold cap; case_if; zb).
  unfold xqc_var_buf_create_with_limit, xqc_var_buf_create. cbn [negb mbind option_bind].
  destruct (cap =? 0) eqn:Ecap; [zb|]. unfold xqc_var_buf_set_limit. cbn [vb_data_len vb_buf_len set_vb_limit vb_data vb_consumed vb_fin].
  cbn [Z.ltb Z.compare]. destruct (4096 <? cap) eqn:E'; [zb|]. cbn [snd]. eexists. split; [done|]. unfold max_size, vb_bytes.
  cbn [vb_data vb_buf_len vb_data_len vb_limit set_vb_limit]. split_and!; try done.
  split; cbn [vb_data vb_buf_len vb_data_len vb_limit set_vb_limit]; try lia. apply Hjunk. lia.
Qed.

Lemma payload_buf_at j pl : w_type f = XQC_H3_FRM_SETTINGS -> 0 <= j < zlen (w_P f) -> settings_at (w_P f) j pl ->
  exists b, payload_buf true junk (pl_buf pl) (zlen (w_P f)) XQC_H3_SETTINGS_MAX_FRAME_SIZE = Ok b /\ vb_ok b
  /\ vb_bytes b = sub_bytes (w_P f) 0 j /\ vb_data_len b = j /\ max_size b = XQC_H3_SETTINGS_MAX_FRAME_SIZE
  /\ pl_int pl = xqc_discrete_int_pctx_clear /\ pl_count pl = 0.
Proof.
  intros Ht Hj. unfold settings_at. destruct (j =? 0) eqn:E; zify_bools.
  - intros ->. pose proof (w_settings _ _ Hok Ht). destruct (payload_buf_new (zlen (w_P f))) as (b & Hb & Hbok & Hby & Hdl & Hm); [lia|].
    exists b. subst j. by split_and!.
  - intros (b & -> & Hbok & Hby & Hdl & Hm). exists b. by split_and!.
Qed.

Lemma settings_at_step j p fr : w_type f = XQC_H3_FRM_SETTINGS ->
  0 <= j < zlen (w_P f) -> p <> [] -> sees p j (w_P f) -> payload_at f j fr ->
  let n := Z.min (zlen (w_P f) - j) (zlen p) in
  exists fr', xqc_h3_frm_parse_settings true junk p fr = (Ok (n, j + n =? zlen (w_P f)), fr') /\ payload_at f (j + n) fr'.
Proof.
  intros Hx Hj Hp Hs (Ht & Hl & Hpl) n. assert (vint_type (w_type f) = false) as Hv by (rewrite Hx; done).
  rewrite Hv in Hpl. destruct (w_type f =? XQC_H3_FRM_SETTINGS) eqn:E; [|zb].
  destruct (payload_buf_at j (f_pl fr) Hx Hj Hpl) as (b & Hb & Hbok & Hby & Hdl & Hm & Hi & Hc).
  unfold xqc_h3_frm_parse_settings. rewrite Hl, Hb, Hdl. pose proof (w_settings _ _ Hok Hx) as Hmax.
  unfold XQC_H3_SETTINGS_MAX_FRAME_SIZE in *. rewrite u64_small by lia. rewrite Z.min_comm. fold n.
  pose proof (zlen_nonneg p). assert (1 <= zlen p) as Hp1 by (destruct p as [|x p']; [done|]; rewrite zlen_cons; pose proof (zlen_nonneg p'); lia).
  rewrite (sees_sub p j (w_P f) n) by (unfold n; done || lia).
  assert (zlen (sub_bytes (w_P f) j n) = n) as Hzn by (apply zlen_sub_bytes; unfold n; lia).
  destruct (save_data_spec junk Hjunk b (sub_bytes (w_P f) j n) Hbok ltac:(rewrite Hzn, Hm; unfold n; lia))
    as (b' & -> & Hbok' & Hby' & Hdl' & Hm' & _).
  eexists. rewrite Hdl', Hdl, Hzn. split; [done|]. unfold payload_at. cbn [f_type f_len f_pl set_pl_buf set_pl]. rewrite Hv, E, Hi, Hc.
  split; [done|]. split; [done|]. unfold settings_at. destruct (j + n =? 0) eqn:E'; [zify_bools; unfold n in *; lia|].
  exists b'. split; [done|]. split; [done|]. rewrite Hby', Hby, Hdl', Hdl, Hzn, Hm', Hm. split_and!; try done.
  unfold sub_bytes. cbn [Z.to_nat drop]. rewrite drop_0. replace (Z.to_nat (j + n)) with (Z.to_nat j + Z.to_nat n)%nat by (unfold n; lia).
  apply take_take_drop.
Qed.

Lemma payload_by_type_at j p fr : 0 <= j < zlen (w_P f) -> p <> [] -> bytes_ok p -> sees p j (w_P f) -> payload_at f j fr ->
  let n := Z.min (zlen (w_P f) - j) (zlen p) in
  exists fr', parse_payload_by_type true junk p fr = (Ok (n, j + n =? zlen (w_P f)), fr') /\ payload_at f (j + n) fr'.
Proof.
  intros Hj Hp Hb Hs Hat n. assert (f_type fr = w_type f) as Ht by apply Hat. unfold parse_payload_by_type. rewrite Ht.
  pose proof (w_request _ _ Hok) as Hr. unfold left_to_request in Hr. rewrite !orb_false_iff in Hr. destruct Hr as [[-> ->] ->].
  unfold xqc_h3_frm_parse_cancel_push, xqc_h3_frm_parse_goaway, xqc_h3_frm_parse_max_push_id.
  pose proof (single_vint_at j p fr) as Hsv. pose proof (bidi_at j p fr) as Hbi. pose proof (reserved_at j p fr) as Hre.
  pose proof (settings_at_step j p fr) as Hse. fold n in Hsv, Hbi, Hre, Hse. unfold vint_type in Hsv, Hre.
  destruct (w_type f =? XQC_H3_FRM_CANCEL_PUSH) eqn:E1; [zify_bools; apply Hsv; try done; rewrite E1; done|].
  destruct (w_type f =? XQC_H3_FRM_SETTINGS) eqn:E2; [zify_bools; by apply Hse|].
  destruct (w_type f =? XQC_H3_FRM_GOAWAY) eqn:E3; [zify_bools; apply Hsv; try done; rewrite E3; done|].
  destruct (w_type f =? XQC_H3_FRM_MAX_PUSH_ID) eqn:E4; [zify_bools; apply Hsv; try done; rewrite E4; done|].
  destruct (w_type f =? XQC_H3_EXT_FRM_BIDI_STREAM_TYPE) eqn:E5; [zify_bools; by apply Hbi|].
  apply Hre; try done. zify_bools. done.
Qed.

(** The parser's state with [r] bytes of the payload behind and [n] read. *)
Definition payload_state (j : Z) : xqc_h3_frame_state_t :=
  if j =? zlen (w_P f) then XQC_H3_FRM_STATE_END else XQC_H3_FRM_STATE_PAYLOAD.

Lemma parse_payload_at j p c : 0 <= j < zlen (w_P f) -> p <> [] -> bytes_ok p -> sees p j (w_P f) ->
  fp_state c = XQC_H3_FRM_STATE_PAYLOAD -> payload_at f j (fp_frame c) ->
  let n := Z.min (zlen (w_P f) - j) (zlen p) in
  exists c', parse_payload true junk p c = (Ok n, c') /\ fp_state c' = payload_state (j + n) /\ payload_at f (j + n) (fp_frame c').
Proof.
  intros Hj Hp Hb Hs Hst Hat n. destruct (payload_by_type_at j p (fp_frame c) Hj Hp Hb Hs Hat) as (fr' & E & Hat'). fold n in E, Hat'.
  unfold parse_payload. rewrite E. eexists. split; [done|]. unfold payload_state. cbn [fp_state fp_frame]. rewrite Hst. done.
Qed.

(** One call of the parser. *)

Lemma stage_skip st g p pos c : fp_state c <> st -> stage st g p pos c = (Ok pos, c).
Proof. intros H. unfold stage. by rewrite decide_False. Qed.

Lemma stage_run st g p pos c : fp_state c = st -> stage st g p pos c
  = match g (drop (Z.to_nat pos) p) c with (Ok n, c) => (Ok (pos + n), c) | (Err e, c) => (Err e, c) end.
Proof. intros H. unfold stage. by rewrite decide_True. Qed.

(** The part of the frame that starts behind [k] bytes: what the payload stage and what the last two stages do. *)
Definition parse_rest (p : list Z) (pos : Z) (c : xqc_h3_frame_pctx_t) : res Z * xqc_h3_frame_pctx_t :=
  if pos =? zlen p then (Ok pos, c) else stage XQC_H3_FRM_STATE_PAYLOAD (parse_payload true junk) p pos c.

Definition parse_rest2 (p : list Z) (pos : Z) (c : xqc_h3_frame_pctx_t) : res Z * xqc_h3_frame_pctx_t :=
  if pos =? zlen p then (Ok pos, c)
  else match stage XQC_H3_FRM_STATE_LEN parse_len p pos c with
       | (Err e, c) => (Err e, c)
       | (Ok pos, c) => parse_rest p pos c
       end.

(** [p] holds the frame from [k] on; [pos] bytes of it are read. *)
Definition frame_view (k : Z) (p : list Z) : Prop := bytes_ok p /\ sees p k (w_bytes f).

Abbreviation T := (zlen (w_T f)).
Abbreviation L := (zlen (w_L f)).
Abbreviation P := (zlen (w_P f)).

Lemma view_drop k p pos : 0 <= pos < zlen p -> frame_view k p ->
  drop (Z.to_nat pos) p <> [] /\ bytes_ok (drop (Z.to_nat pos) p) /\ sees (drop (Z.to_nat pos) p) (k + pos) (w_bytes f).
Proof.
  intros Hpos [Hb Hs]. split; [|split; [by apply Forall_drop|apply sees_drop; [lia|done]]].
  intros E. pose proof (zlen_drop p pos ltac:(lia)) as Hz. rewrite E, zlen_nil in Hz. lia.
Qed.

Lemma sees_part k p : 0 <= k -> sees p k (w_bytes f) ->
  sees p k (w_T f) /\ (T <= k -> sees p (k - T) (w_L f)) /\ (T + L <= k -> sees p (k - T - L) (w_P f)).
Proof.
  intros Hk Hs. pose proof (zlen_nonneg (w_T f)). pose proof (zlen_nonneg (w_L f)).
  unfold w_bytes in Hs. split; [by apply (sees_l p k _ (w_L f ++ w_P f))|]. split; intros Hle.
  - apply (sees_l p _ _ (w_P f)); [lia|]. by apply sees_r.
  - apply sees_r; [lia|]. apply sees_r; [lia|done].
Qed.

Lemma parse_rest_at k p pos c : frame_view k p -> 0 <= k -> 0 <= pos <= zlen p -> T + L <= k + pos <= T + L + P ->
  fp_state c = payload_state (k + pos - T - L) -> payload_at f (k + pos - T - L) (fp_frame c) ->
  let m := Z.min (zlen p) (T + L + P - k) in
  exists c', parse_rest p pos c = (Ok m, c') /\ fp_state c' = payload_state (k + m - T - L) /\ payload_at f (k + m - T - L) (fp_frame c').
Proof.
  intros Hv Hk Hpos Hr Hst Hat m. unfold parse_rest. destruct (pos =? zlen p) eqn:E; zify_bools.
  { assert (m = pos) as -> by (unfold m; lia). exists c. done. }
  destruct (decide (k + pos - T - L = P)) as [E'|E'].
  { rewrite stage_skip by (rewrite Hst; unfold payload_state; case_if; [done|zb]).
    assert (m = pos) as -> by (unfold m; lia). exists c. done. }
  destruct (view_drop k p pos ltac:(lia) Hv) as (Hne & Hb & Hs).
  destruct (sees_part (k + pos) _ ltac:(lia) Hs) as (_ & _ & Hs').
  assert (fp_state c = XQC_H3_FRM_STATE_PAYLOAD) as Hst' by (rewrite Hst; unfold payload_state; case_if; [zb|done]).
  destruct (parse_payload_at (k + pos - T - L) _ c ltac:(lia) Hne Hb (Hs' ltac:(lia)) Hst' Hat) as (c' & Hp & Hst2 & Hat2).
  rewrite zlen_drop in Hp, Hst2, Hat2 by lia. rewrite stage_run, Hp by done. exists c'.
  replace (pos + Z.min (P - (k + pos - T - L)) (zlen p - pos)) with m by (unfold m; lia).
  replace (k + pos - T - L + Z.min (P - (k + pos - T - L)) (zlen p - pos)) with (k + m - T - L) in Hst2, Hat2 by (unfold m; lia).
  done.
Qed.

Lemma parse_rest2_at k p pos c : frame_view k p -> 0 <= k -> 0 <= pos <= zlen p -> T <= k + pos <= T + L + P ->
  at_frame f (k + pos) c ->
  let m := Z.min (zlen p) (T + L + P - k) in
  exists c', parse_rest2 p pos c = (Ok m, c') /\ at_frame f (k + m) c'.
Proof.
  intros Hv Hk Hpos Hr Hat m. pose proof (is_enc_len _ _ (w_L_ok _ _ Hok)) as HL. unfold parse_rest2.
  destruct (pos =? zlen p) eqn:E; zify_bools.
  { assert (m = pos) as -> by (unfold m; lia). exists c. done. }
  assert (forall pos c, 0 <= pos <= zlen p -> T + L <= k + pos <= T + L + P -> fp_state c = payload_state (k + pos - T - L) ->
    payload_at f (k + pos - T - L) (fp_frame c) -> exists c', parse_rest p pos c = (Ok m, c') /\ at_frame f (k + m) c') as Hrest.
  { intros pos' c0 Hpos' Hr' Hst Hpl. destruct (parse_rest_at k p pos' c0 Hv Hk Hpos' Hr' Hst Hpl) as (c' & Hp & Hst' & Hpl').
    fold m in Hp, Hst', Hpl'. exists c'. split; [done|]. right. right. rewrite zlen_w_bytes. split; [unfold m; lia|]. split; [|done].
    rewrite Hst'. unfold payload_state. repeat case_if; done || zb. }
  destruct Hat as [[Hk1 _]|[[Hk1 ->]|(Hk1 & Hst & Hpl)]]; [lia| |].
  - rewrite stage_run by done. destruct (view_drop k p pos ltac:(lia) Hv) as (Hne & Hb & Hs).
    destruct (sees_part (k + pos) _ ltac:(lia) Hs) as (_ & Hs' & _).
    rewrite (parse_len_at (k + pos - T) _ ltac:(lia) Hne Hb (Hs' ltac:(lia))). rewrite zlen_drop by lia.
    set (n := Z.min (L - (k + pos - T)) (zlen p - pos)). destruct (k + pos - T + n =? L) eqn:E'; zify_bools.
    + apply Hrest; [unfold n; lia|unfold n in *; pose proof (zlen_nonneg (w_P f)); lia| |].
      * unfold behind_len, payload_state. cbn [fp_state]. repeat case_if; done || zb.
      * replace (k + (pos + n) - T - L) with 0 by lia. apply payload_at_start.
    + assert (pos + n = zlen p) as Hend by (unfold n in *; lia). unfold parse_rest. rewrite Hend, Z.eqb_refl.
      assert (m = zlen p) as -> by (unfold m, n in *; pose proof (zlen_nonneg (w_P f)); lia).
      eexists. split; [done|]. right. left. split; [unfold n in *; lia|]. f_equal. lia.
  - rewrite zlen_w_bytes in *. assert (fp_state c <> XQC_H3_FRM_STATE_LEN) as Hne by (rewrite Hst; case_if; done).
    rewrite stage_skip by done. apply Hrest; try done; try lia. rewrite Hst. unfold payload_state. repeat case_if; done || zb.
Qed.

Lemma frm_parse_unfold p c : xqc_h3_frm_parse true junk wt p c
  = if decide (fp_state c = XQC_H3_FRM_STATE_END) then (Err XQC_H3_DECODE_ERROR, c)
    else match stage XQC_H3_FRM_STATE_TYPE (parse_type wt) p 0 c with
         | (Err e, c) => (Err e, c)
         | (Ok pos, c) => parse_rest2 p pos c
         end.
Proof. done. Qed.

(** A call reads up to the end of the frame or of the piece. *)
Lemma parse_at k p c : frame_view k p -> p <> [] -> 0 <= k < T + L + P -> at_frame f k c ->
  let m := Z.min (zlen p) (T + L + P - k) in
  exists c', xqc_h3_frm_parse true junk wt p c = (Ok m, c') /\ at_frame f (k + m) c'.
Proof.
  intros Hv Hne Hk Hat m. pose proof (zlen_nonneg p). pose proof (zlen_nonneg (w_P f)).
  pose proof (is_enc_len _ _ (w_L_ok _ _ Hok)). rewrite frm_parse_unfold.
  destruct (decide (k < T)) as [Ht|Ht].
  - destruct Hat as [[_ ->]|[[? _]|(? & _)]]; try lia. rewrite decide_False, stage_run by done.
    destruct Hv as [Hb Hs]. destruct (sees_part k _ ltac:(lia) Hs) as (Hs' & _).
    change (Z.to_nat 0) with 0%nat. rewrite drop_0, (parse_type_at k _ ltac:(lia) Hne Hb Hs'). rewrite Z.add_0_l.
    set (n := Z.min (T - k) (zlen p)). destruct (k + n =? T) eqn:E; zify_bools.
    + apply parse_rest2_at; [by split|lia|unfold n in *; lia|lia|]. right. left. rewrite E, Z.sub_diag. split; [lia|done].
    + assert (n = zlen p) as Hn by (unfold n in *; lia). unfold parse_rest2. rewrite Hn, Z.eqb_refl.
      assert (m = zlen p) as -> by (unfold m, n in *; lia). eexists. split; [done|]. left. split; [unfold n in *; lia|done].
  - assert (fp_state c <> XQC_H3_FRM_STATE_END /\ fp_state c <> XQC_H3_FRM_STATE_TYPE) as [Hs1 Hs2].
    { destruct Hat as [[? _]|[[_ ->]|(? & Hst & _)]]; [lia|done|]. rewrite Hst, zlen_w_bytes. case_if; [zb|done]. }
    rewrite decide_False, stage_skip by done. apply parse_rest2_at; try done; try lia. by rewrite Z.add_0_r.
Qed.

End stages.

End H3FrameSpec.
