(* ===== verification/H3Control.v ===== *)
(** The control stream of an HTTP/3 connection: [xqc_h3_stream_process_control] and
    [xqc_h3_stream_process_push] of src/src/http3/xqc_h3_stream.c, [xqc_h3_frm_parse_setting] of
    xqc_h3_frame.c and [xqc_h3_conn_on_settings_entry_received] of xqc_h3_conn.c. *)

From stdpp Require Import base numbers list.
From S2P Require Import Prelude VInt RingArray RingMem VarBuf TransParams TextFmt H3Frame.
Import VInt VarBuf TransParams TextFmt H3Frame.

Module H3Control.

(** ** Constants *)

Definition XQC_H3_EPROC_CONTROL : Z := 808.
Definition XQC_H3_SETTING_ERROR : Z := 824.
Definition XQC_H3_CONTROL_FRAME_UNEXPECTED : Z := 833.
Definition XQC_H3_MISSING_SETTINGS : Z := 834.
Definition XQC_H3_INVALID_MAX_PUSH_ID : Z := 836.
Definition XQC_H3_INVALID_CANCEL_PUSH_ID : Z := 838.
Definition XQC_H3_INVALID_GOAWAY_ID : Z := 840.

Definition H3_INTERNAL_ERROR : Z := 0x102.
Definition H3_FRAME_UNEXPECTED : Z := 0x105.
Definition H3_FRAME_ERROR : Z := 0x106.
Definition H3_ID_ERROR : Z := 0x108.
Definition H3_SETTINGS_ERROR : Z := 0x109.
Definition H3_MISSING_SETTINGS : Z := 0x10A.

Definition XQC_H3_SETTINGS_ACCEPT : Z := 0.
Definition XQC_H3_SETTINGS_REJECT : Z := 1.

Definition XQC_H3_FINGERPRINT_SETTINGS_MAX_LEN : Z := 128.
(** The characters !e and the terminating zero. *)
Definition XQC_H3_FINGERPRINT_ERROR_MARKER : list Z := [33; 101; 0].

Definition XQC_CONN_ERR_APPLICATION_FLAG : Z := 1 << 63.
Definition XQC_CONN_ERR_ENCODE_APPLICATION (err : Z) : Z := err .| XQC_CONN_ERR_APPLICATION_FLAG.

(** ** What the control stream asks of QPACK *)

Class QpackOps (Q : Type) := {
  xqc_qpack_set_enc_max_dtable_cap : Q -> Z -> res unit * Q;
  xqc_qpack_set_dtable_cap : Q -> Z -> res unit * Q;
  xqc_qpack_set_max_blocked_stream : Q -> Z -> res unit * Q;
}.

(** ** The connection *)

(** The flags of the control stream are kept as booleans: SETTINGS_RECVED and GOAWAY_RECVD. *)
Record xqc_h3_conn_t {Q : Type} := mk_h3c {
  hc_settings_recved : bool;
  hc_goaway_recvd : bool;
  hc_client : bool;
  hc_max_stream_id_recvd : Z;
  hc_goaway_stream_id : Z;
  hc_local : xqc_h3_conn_settings_t;
  hc_peer : xqc_h3_conn_settings_t;
  hc_params : list Z;
  hc_qpack : Q;
  hc_conn_err : Z;
}.
Arguments xqc_h3_conn_t : clear implicits.

(** The peer's settings before its SETTINGS frame arrives; [XQC_H3_SETTINGS_UNSET] is
    [XQC_MAX_UINT64_VALUE]. *)
Definition XQC_H3_SETTINGS_UNSET : Z := 2 ^ 64 - 1.

Definition default_peer_h3_conn_settings : xqc_h3_conn_settings_t :=
  mk_h3set XQC_H3_SETTINGS_UNSET XQC_H3_SETTINGS_UNSET XQC_H3_SETTINGS_UNSET XQC_H3_SETTINGS_UNSET 0 0 [].

Section ops.

Context {Q : Type} `{!QpackOps Q}.

Implicit Types h : xqc_h3_conn_t Q.

Definition set_settings_recved h : xqc_h3_conn_t Q :=
  mk_h3c Q true (hc_goaway_recvd h) (hc_client h) (hc_max_stream_id_recvd h) (hc_goaway_stream_id h) (hc_local h)
    (hc_peer h) (hc_params h) (hc_qpack h) (hc_conn_err h).

Definition set_goaway h (id : Z) : xqc_h3_conn_t Q :=
  mk_h3c Q (hc_settings_recved h) true (hc_client h) (hc_max_stream_id_recvd h) id (hc_local h)
    (hc_peer h) (hc_params h) (hc_qpack h) (hc_conn_err h).

Definition set_max_push h (id : Z) : xqc_h3_conn_t Q :=
  mk_h3c Q (hc_settings_recved h) (hc_goaway_recvd h) (hc_client h) id (hc_goaway_stream_id h) (hc_local h)
    (hc_peer h) (hc_params h) (hc_qpack h) (hc_conn_err h).

Definition set_peer h (p : xqc_h3_conn_settings_t) : xqc_h3_conn_t Q :=
  mk_h3c Q (hc_settings_recved h) (hc_goaway_recvd h) (hc_client h) (hc_max_stream_id_recvd h) (hc_goaway_stream_id h)
    (hc_local h) p (hc_params h) (hc_qpack h) (hc_conn_err h).

Definition set_params h (ps : list Z) : xqc_h3_conn_t Q :=
  mk_h3c Q (hc_settings_recved h) (hc_goaway_recvd h) (hc_client h) (hc_max_stream_id_recvd h) (hc_goaway_stream_id h)
    (hc_local h) (hc_peer h) ps (hc_qpack h) (hc_conn_err h).

Definition set_qpack h (q : Q) : xqc_h3_conn_t Q :=
  mk_h3c Q (hc_settings_recved h) (hc_goaway_recvd h) (hc_client h) (hc_max_stream_id_recvd h) (hc_goaway_stream_id h)
    (hc_local h) (hc_peer h) (hc_params h) q (hc_conn_err h).

(** The first error is the one the connection is closed with; [ret] is the (negated) return code. *)
Definition XQC_H3_CONN_ERR h (err ret : Z) : xqc_h3_conn_t Q :=
  if (hc_conn_err h =? 0) && (XQC_H3_EMALLOC <=? ret) then
    mk_h3c Q (hc_settings_recved h) (hc_goaway_recvd h) (hc_client h) (hc_max_stream_id_recvd h) (hc_goaway_stream_id h)
      (hc_local h) (hc_peer h) (hc_params h) (hc_qpack h) (XQC_CONN_ERR_ENCODE_APPLICATION err)
  else h.

Definition xqc_h3_conn_is_goaway_recved h (stream_id : Z) : bool :=
  hc_goaway_recvd h && (hc_goaway_stream_id h <=? stream_id).

(** ** One entry of the peer's settings *)

Definition set_peer_field_section h (v : Z) : xqc_h3_conn_t Q :=
  let p := hc_peer h in
  set_peer h (mk_h3set v (hs_qpack_enc_max_table_capacity p) (hs_qpack_dec_max_table_capacity p)
                (hs_qpack_blocked_streams p) (hs_enable_connect_protocol p) (hs_h3_datagram p) (hs_extern p)).

Definition set_peer_dec_cap h (v : Z) : xqc_h3_conn_t Q :=
  let p := hc_peer h in
  set_peer h (mk_h3set (hs_max_field_section_size p) (hs_qpack_enc_max_table_capacity p) v
                (hs_qpack_blocked_streams p) (hs_enable_connect_protocol p) (hs_h3_datagram p) (hs_extern p)).

Definition set_peer_blocked h (v : Z) : xqc_h3_conn_t Q :=
  let p := hc_peer h in
  set_peer h (mk_h3set (hs_max_field_section_size p) (hs_qpack_enc_max_table_capacity p)
                (hs_qpack_dec_max_table_capacity p) v (hs_enable_connect_protocol p) (hs_h3_datagram p) (hs_extern p)).

Definition set_peer_connect h (v : Z) : xqc_h3_conn_t Q :=
  let p := hc_peer h in
  set_peer h (mk_h3set (hs_max_field_section_size p) (hs_qpack_enc_max_table_capacity p)
                (hs_qpack_dec_max_table_capacity p) (hs_qpack_blocked_streams p) v (hs_h3_datagram p) (hs_extern p)).

Definition set_peer_datagram h (v : Z) : xqc_h3_conn_t Q :=
  let p := hc_peer h in
  set_peer h (mk_h3set (hs_max_field_section_size p) (hs_qpack_enc_max_table_capacity p)
                (hs_qpack_dec_max_table_capacity p) (hs_qpack_blocked_streams p) (hs_enable_connect_protocol p) v (hs_extern p)).

(** Run an operation of QPACK. *)
Definition on_qpack h (r : res unit * Q) : res unit * xqc_h3_conn_t Q := (fst r, set_qpack h (snd r)).

Definition xqc_h3_conn_on_settings_entry_received h (identifier value : Z) : res unit * xqc_h3_conn_t Q :=
  if identifier =? XQC_H3_SETTINGS_MAX_FIELD_SECTION_SIZE then (Ok tt, set_peer_field_section h value)
  else if identifier =? XQC_H3_SETTINGS_QPACK_MAX_TABLE_CAPACITY then
    let h := set_peer_dec_cap h value in
    match on_qpack h (xqc_qpack_set_enc_max_dtable_cap (hc_qpack h) value) with
    | (Err e, h) => (Err e, h)
    | (Ok _, h) =>
        on_qpack h (xqc_qpack_set_dtable_cap (hc_qpack h) (Z.min value (hs_qpack_enc_max_table_capacity (hc_local h))))
    end
  else if identifier =? XQC_H3_SETTINGS_QPACK_BLOCKED_STREAMS then
    let h := set_peer_blocked h value in
    on_qpack h (xqc_qpack_set_max_blocked_stream (hc_qpack h) value)
  else if identifier =? XQC_H3_SETTINGS_ENABLE_CONNECT_PROTOCOL then (Ok tt, set_peer_connect h value)
  else if identifier =? XQC_H3_SETTINGS_H3_DATAGRAM then
    if 1 <? value then (Err XQC_H3_SETTING_ERROR, XQC_H3_CONN_ERR h H3_SETTINGS_ERROR XQC_H3_SETTING_ERROR)
    else (Ok tt, set_peer_datagram h value)
  else (Ok tt, h).

Fixpoint apply_entries h (es : list xqc_h3_setting_t) : res unit * xqc_h3_conn_t Q :=
  match es with
  | [] => (Ok tt, h)
  | e :: es =>
      match xqc_h3_conn_on_settings_entry_received h (fst e) (snd e) with
      | (Err e, h) => (Err e, h)
      | (Ok _, h) => apply_entries h es
      end
  end.

(** ** The fingerprint: the core settings as text *)

Definition is_core (id : Z) : bool :=
  (id =? XQC_H3_SETTINGS_QPACK_MAX_TABLE_CAPACITY) || (id =? XQC_H3_SETTINGS_MAX_FIELD_SECTION_SIZE)
  || (id =? XQC_H3_SETTINGS_QPACK_BLOCKED_STREAMS).

(** [params]: the array [h3_settings_params]; [len]: [fingerprint_len]. *)
Fixpoint fingerprint_loop (params : list Z) (len : Z) (es : list xqc_h3_setting_t) : list Z :=
  match es with
  | [] => params
  | e :: es =>
      if negb (is_core (fst e)) then fingerprint_loop params len es
      else
        let separator_len := if len =? 0 then 0 else 1 in
        let entry_len := xqc_uint64_decimal_len (fst e) + 1 + xqc_uint64_decimal_len (snd e) in
        if XQC_H3_FINGERPRINT_SETTINGS_MAX_LEN <? len + separator_len + entry_len
        then wr params 0 XQC_H3_FINGERPRINT_ERROR_MARKER
        else
          let last := XQC_H3_FINGERPRINT_SETTINGS_MAX_LEN in
          let '(params, pos) := if separator_len =? 0 then (params, len) else (wr params len [59], len + 1) in
          let '(params, pos) := xqc_fmt_uint params pos last (fst e) in
          let '(params, pos) := (wr params pos [58], pos + 1) in
          let '(params, pos) := xqc_fmt_uint params pos last (snd e) in
          fingerprint_loop (wr params pos [0]) pos es
  end.

Definition fingerprint (params : list Z) (es : list xqc_h3_setting_t) : list Z :=
  fingerprint_loop (wr params 0 [0]) 0 es.

(** The entries handed to the application: neither core nor reserved. *)
Definition is_grease (id : Z) : bool :=
  (XQC_H3_SETTINGS_GREASE_FIRST <=? id)
  && ((id - XQC_H3_SETTINGS_GREASE_FIRST) mod XQC_H3_SETTINGS_GREASE_INTERVAL =? 0).

Definition extern_entries (es : list xqc_h3_setting_t) : list xqc_h3_setting_t :=
  filter (fun e => negb (is_core (fst e)) && negb (is_grease (fst e)) = true) es.

(** ** A SETTINGS payload *)

(** [mem]: the allocations succeed; [junk]: what new memory holds; [wt]: WebTransport is negotiated;
    [notify]: the application's callback for the peer's settings, if it registered one. *)
Context (mem : bool) (junk : Z -> list Z) (wt : bool) (notify : option (list xqc_h3_setting_t -> Z)).

Definition settings_failed h (err ret : Z) : res unit * xqc_h3_conn_t Q := (Err err, XQC_H3_CONN_ERR h err ret).

Definition notify_extern h (es : list xqc_h3_setting_t) : res unit * xqc_h3_conn_t Q :=
  match notify with
  | None => (Ok tt, h)
  | Some f =>
      let result := f (extern_entries es) in
      if result =? XQC_H3_SETTINGS_REJECT then settings_failed h H3_SETTINGS_ERROR XQC_H3_SETTING_ERROR
      else if result =? XQC_H3_SETTINGS_ACCEPT then (Ok tt, h)
      else settings_failed h H3_INTERNAL_ERROR XQC_H3_EPROC_CONTROL
  end.

Definition settings_bytes (data : option xqc_var_buf_t) : list Z :=
  match data with None => [] | Some b => vb_bytes b end.

Definition xqc_h3_frm_parse_setting (data : option xqc_var_buf_t) h : res unit * xqc_h3_conn_t Q :=
  let p := settings_bytes data in
  if (0 <? (zlen p + 1) / 2) && negb mem then settings_failed h H3_INTERNAL_ERROR XQC_H3_EMALLOC
  else
    match parse_entries p with
    | inl frame_error => settings_failed h H3_FRAME_ERROR XQC_H3_DECODE_ERROR
    | inl settings_error => settings_failed h H3_SETTINGS_ERROR XQC_H3_SETTING_ERROR
    | inr es =>
        match apply_entries h es with
        | (Err _, h) => settings_failed h H3_INTERNAL_ERROR XQC_H3_EPROC_CONTROL
        | (Ok _, h) => notify_extern (set_params h (fingerprint (hc_params h) es)) es
        end
    end.

(** ** The streams *)

(** The stream's parser and the connection. *)
Definition h3_state : Type := xqc_h3_frame_pctx_t * xqc_h3_conn_t Q.

Definition xqc_h3_stream_process_frame_parse_error h (err : Z) : res Z * h3_state :=
  (Err err, (xqc_h3_frm_reset_pctx,
             if err =? XQC_H3_RESERVED_FRAME_UNEXPECTED then XQC_H3_CONN_ERR h H3_FRAME_UNEXPECTED err
             else if err =? XQC_H3_INVALID_FRAME_TYPE then XQC_H3_CONN_ERR h H3_FRAME_ERROR err
             else h)).

(** What a complete frame does: [switch (pctx->frame.type)]. The payload's buffer is freed with it. *)
Definition control_frame (fr : xqc_h3_frame_t) h : res unit * xqc_h3_conn_t Q :=
  let t := f_type fr in
  let id := vi (pl_int (f_pl fr)) in
  if t =? XQC_H3_FRM_CANCEL_PUSH then
    (Err XQC_H3_INVALID_CANCEL_PUSH_ID, XQC_H3_CONN_ERR h H3_ID_ERROR XQC_H3_INVALID_CANCEL_PUSH_ID)
  else if t =? XQC_H3_FRM_SETTINGS then
    if hc_settings_recved h then
      (Err H3_FRAME_UNEXPECTED, XQC_H3_CONN_ERR h H3_FRAME_UNEXPECTED XQC_H3_CONTROL_FRAME_UNEXPECTED)
    else
      match xqc_h3_frm_parse_setting (pl_buf (f_pl fr)) h with
      | (Err e, h) => (Err e, h)
      | (Ok _, h) => (Ok tt, set_settings_recved h)
      end
  else if t =? XQC_H3_FRM_GOAWAY then
    if hc_goaway_recvd h && (hc_goaway_stream_id h <? id) then
      (Err XQC_H3_INVALID_GOAWAY_ID, XQC_H3_CONN_ERR h H3_ID_ERROR XQC_H3_INVALID_GOAWAY_ID)
    else (Ok tt, set_goaway h id)
  else if t =? XQC_H3_FRM_MAX_PUSH_ID then
    if hc_client h then
      (Err XQC_H3_INVALID_MAX_PUSH_ID, XQC_H3_CONN_ERR h H3_FRAME_UNEXPECTED XQC_H3_INVALID_MAX_PUSH_ID)
    else if id <? hc_max_stream_id_recvd h then
      (Err XQC_H3_INVALID_MAX_PUSH_ID, XQC_H3_CONN_ERR h H3_ID_ERROR XQC_H3_INVALID_MAX_PUSH_ID)
    else (Ok tt, set_max_push h id)
  else (Ok tt, h).

Definition state_ge_payload (s : xqc_h3_frame_state_t) : bool :=
  match s with XQC_H3_FRM_STATE_PAYLOAD | XQC_H3_FRM_STATE_END => true | _ => false end.

Definition request_only (t : Z) : bool :=
  (t =? XQC_H3_FRM_DATA) || (t =? XQC_H3_FRM_HEADERS) || (t =? XQC_H3_FRM_PUSH_PROMISE).

(** The body of the loop behind the parser; [more]: bytes are left. *)
Definition control_step (more : bool) (c : xqc_h3_frame_pctx_t) h : res unit * h3_state :=
  if state_ge_payload (fp_state c) && request_only (f_type (fp_frame c)) then
    (Err XQC_H3_CONTROL_FRAME_UNEXPECTED,
     (xqc_h3_frm_reset_pctx, XQC_H3_CONN_ERR h H3_FRAME_UNEXPECTED XQC_H3_CONTROL_FRAME_UNEXPECTED))
  else if negb (bool_decide (fp_state c = XQC_H3_FRM_STATE_END)) && more then
    (Err XQC_H3_DECODE_ERROR, (xqc_h3_frm_reset_pctx, h))
  else if negb (f_type (fp_frame c) =? XQC_H3_FRM_SETTINGS) && negb (hc_settings_recved h) then
    (Err XQC_H3_MISSING_SETTINGS,
     (xqc_h3_frm_reset_pctx, XQC_H3_CONN_ERR h H3_MISSING_SETTINGS XQC_H3_MISSING_SETTINGS))
  else if decide (fp_state c = XQC_H3_FRM_STATE_END) then
    let '(r, h) := control_frame (fp_frame c) h in (r, (xqc_h3_frm_reset_pctx, h))
  else (Ok tt, (c, h)).

(** The loop over [data]; every turn reads a byte, so one unit of fuel a byte and one for the end
    are enough ([None]: out of fuel). *)
Fixpoint control_loop (fuel : nat) (data : list Z) (processed : Z) (c : xqc_h3_frame_pctx_t) h
    : option (res Z * h3_state) :=
  match fuel with
  | O => None
  | S fuel =>
      if zlen data <=? processed then Some (Ok processed, (c, h))
      else
        match xqc_h3_frm_parse mem junk wt (drop (Z.to_nat processed) data) c with
        | (Err e, c) => Some (xqc_h3_stream_process_frame_parse_error h e)
        | (Ok read, c) =>
            let processed := processed + read in
            match control_step (negb (zlen data =? processed)) c h with
            | (Err e, st) => Some (Err e, st)
            | (Ok _, (c, h)) => control_loop fuel data processed c h
            end
        end
  end.

Definition xqc_h3_stream_process_control (data : list Z) (st : h3_state) : option (res Z * h3_state) :=
  control_loop (S (length data)) data 0 (fst st) (snd st).

(** The push stream: its frames are read and ignored. A PUSH_PROMISE that ended with the last piece
    is completed without a byte, hence the second unit of fuel. *)
Definition push_step (more : bool) (c : xqc_h3_frame_pctx_t) : res unit * xqc_h3_frame_pctx_t :=
  if negb (bool_decide (fp_state c = XQC_H3_FRM_STATE_END)) && more then (Err XQC_H3_DECODE_ERROR, xqc_h3_frm_reset_pctx)
  else if decide (fp_state c = XQC_H3_FRM_STATE_END) then (Ok tt, xqc_h3_frm_reset_pctx)
  else (Ok tt, c).

Fixpoint push_loop (fuel : nat) (data : list Z) (processed : Z) (c : xqc_h3_frame_pctx_t) h
    : option (res Z * h3_state) :=
  match fuel with
  | O => None
  | S fuel =>
      if zlen data <=? processed then Some (Ok processed, (c, h))
      else
        match xqc_h3_frm_parse mem junk wt (drop (Z.to_nat processed) data) c with
        | (Err e, c) => Some (xqc_h3_stream_process_frame_parse_error h e)
        | (Ok read, c) =>
            let processed := processed + read in
            match push_step (negb (zlen data =? processed)) c with
            | (Err e, c) => Some (Err e, (c, h))
            | (Ok _, c) => push_loop fuel data processed c h
            end
        end
  end.

Definition xqc_h3_stream_process_push (data : list Z) (st : h3_state) : option (res Z * h3_state) :=
  push_loop (S (S (length data))) data 0 (fst st) (snd st).

(** The stream's bytes as they arrive, until one piece is refused. *)
Fixpoint control_feed (chunks : list (list Z)) (st : h3_state) : option (res unit * h3_state) :=
  match chunks with
  | [] => Some (Ok tt, st)
  | d :: ds =>
      '(r, st) ← xqc_h3_stream_process_control d st;
      match r with Err e => Some (Err e, st) | Ok _ => control_feed ds st end
  end.

End ops.

End H3Control.
