(* ===== verification/H3ControlSpec.v ===== *)
(** What the peer's control stream does to the connection does not depend on the pieces it arrives
    in, apart from a cut in the header of its first frame; reading any bytes terminates and keeps
    the identifiers monotone. *)

From stdpp Require Import base numbers list.
From S2P Require Import Prelude VInt RingArray RingMem VarBuf TransParams TransParamsSpec TextFmt H3Frame H3FrameSpec H3Control.
Import VInt VarBuf TransParams TransParamsSpec TextFmt H3Frame H3FrameSpec H3Control.

Module H3ControlSpec.

Section delivery.

Context {Q : Type} `{!QpackOps Q}.
Context (junk : Z -> list Z) (Hjunk : forall n, 0 <= n -> zlen (junk n) = n).
Context (wt : bool) (notify : option (list xqc_h3_setting_t -> Z)).

Implicit Types h : xqc_h3_conn_t Q.

(** ** The effect of whole frames *)

(** A complete frame as the parser delivers it. *)
Definition final_frame (f : wframe) : xqc_h3_frame_t :=
  mk_frame (w_type f) (zlen (w_P f)) 0
    (mk_pl (mk_pctx (w_int f) 0)
       (if zlen (w_P f) =? 0 then None else Some (mk_vb (w_P f) (zlen (w_P f)) (zlen (w_P f)) 0 0 0)) 0).

Definition frame_effect (f : wframe) h : res unit * xqc_h3_conn_t Q :=
  if negb (w_type f =? XQC_H3_FRM_SETTINGS) && negb (hc_settings_recved h)
  then (Err XQC_H3_MISSING_SETTINGS, XQC_H3_CONN_ERR h H3_MISSING_SETTINGS XQC_H3_MISSING_SETTINGS)
  else control_frame true notify (final_frame f) h.

Fixpoint apply_frames (fs : list wframe) h : res unit * xqc_h3_conn_t Q :=
  match fs with
  | [] => (Ok tt, h)
  | f :: fs =>
      match frame_effect f h with
      | (Err e, h) => (Err e, h)
      | (Ok _, h) => apply_frames fs h
      end
  end.

(** What a frame does depends on its type, its integer and the bytes of its buffer. *)
Lemma control_frame_ext fr fr' h : f_type fr = f_type fr' ->
  (f_type fr = XQC_H3_FRM_SETTINGS -> settings_bytes (pl_buf (f_pl fr)) = settings_bytes (pl_buf (f_pl fr'))) ->
  (vint_type (f_type fr) = true -> vi (pl_int (f_pl fr)) = vi (pl_int (f_pl fr'))) ->
  control_frame true notify fr h = control_frame true notify fr' h.
Proof.
  intros Ht Hs Hv. unfold control_frame. rewrite <- Ht. unfold vint_type in Hv.
  destruct (f_type fr =? XQC_H3_FRM_CANCEL_PUSH); [done|].
  destruct (f_type fr =? XQC_H3_FRM_SETTINGS) eqn:E; zify_bools.
  { unfold xqc_h3_frm_parse_setting. by rewrite Hs. }
  destruct (f_type fr =? XQC_H3_FRM_GOAWAY); [by rewrite Hv|].
  destruct (f_type fr =? XQC_H3_FRM_MAX_PUSH_ID); [by rewrite Hv|done].
Qed.

Lemma final_frame_at f c h : payload_at f (zlen (w_P f)) (fp_frame c) ->
  control_frame true notify (fp_frame c) h = control_frame true notify (final_frame f) h.
Proof.
  intros (Ht & Hl & Hpl). apply control_frame_ext; cbn [final_frame f_type f_pl pl_buf pl_int vi]; rewrite Ht.
  - done.
  - intros Hs. assert (vint_type (w_type f) = false) as Hv by (by rewrite Hs). rewrite Hv, Hs, Z.eqb_refl in Hpl. unfold settings_at in Hpl.
    destruct (zlen (w_P f) =? 0) eqn:E; [by rewrite Hpl|]. destruct Hpl as (b & -> & Hbok & Hby & _).
    cbn [settings_bytes pl_buf]. rewrite Hby. unfold vb_bytes. cbn [vb_data vb_data_len]. done.
  - intros Hv. rewrite Hv in Hpl. destruct Hpl as [-> _]. done.
Qed.

(** ** The stream *)

(** Once SETTINGS were received they stay received, and a SETTINGS frame that is accepted sets it. *)
Lemma frame_effect_recved f h h' : frame_effect f h = (Ok tt, h') -> hc_settings_recved h' = true.
Proof.
  unfold frame_effect, control_frame. cbn [final_frame f_type].
  destruct (hc_settings_recved h) eqn:Er.
  - rewrite andb_false_r. repeat case_if; try (intros [= <-]; done); try done.
  - destruct (w_type f =? XQC_H3_FRM_SETTINGS) eqn:Et; [|done]. cbn [negb andb]. zify_bools. rewrite Et.
    change (XQC_H3_FRM_SETTINGS =? XQC_H3_FRM_CANCEL_PUSH) with false.
    destruct (xqc_h3_frm_parse_setting _ _ _ _) as [[]]; [by intros [= <-]|done].
Qed.

(** A frame that the control stream cannot carry: its type, and for DATA and HEADERS its length;
    anything may follow. *)
Inductive ending :=
| End_none
| End_bad (f : wframe) (rest : list Z).

Definition ending_ok (e : ending) : Prop :=
  match e with
  | End_none => True
  | End_bad f rest =>
      is_enc (w_T f) (w_type f) /\ bytes_ok (w_L f) /\ bytes_ok rest
      /\ (refused wt (w_type f) = true
          \/ (refused wt (w_type f) = false
              /\ (w_type f = XQC_H3_FRM_DATA \/ w_type f = XQC_H3_FRM_HEADERS)
              /\ exists v, is_enc (w_L f) v))
  end.

Definition ending_bytes (e : ending) : list Z :=
  match e with End_none => [] | End_bad f rest => w_T f ++ w_L f ++ rest end.

Definition refusal (t : Z) : Z :=
  if xqc_h3_frm_is_h2_reserved t then XQC_H3_RESERVED_FRAME_UNEXPECTED else XQC_H3_INVALID_FRAME_TYPE.

Definition ending_effect (e : ending) h : res unit * xqc_h3_conn_t Q :=
  match e with
  | End_none => (Ok tt, h)
  | End_bad f _ =>
      if refused wt (w_type f) then
        (Err (refusal (w_type f)),
         XQC_H3_CONN_ERR h (if xqc_h3_frm_is_h2_reserved (w_type f) then H3_FRAME_UNEXPECTED else H3_FRAME_ERROR)
           (refusal (w_type f)))
      else (Err XQC_H3_CONTROL_FRAME_UNEXPECTED,
            XQC_H3_CONN_ERR h H3_FRAME_UNEXPECTED XQC_H3_CONTROL_FRAME_UNEXPECTED)
  end.

(** The frames one after the other, and then the ending. *)
Definition apply_stream (fs : list wframe) (e : ending) h : res unit * xqc_h3_conn_t Q :=
  match apply_frames fs h with
  | (Ok _, h) => ending_effect e h
  | r => r
  end.

Definition stream_bytes (fs : list wframe) (e : ending) : list Z := concat (map w_bytes fs) ++ ending_bytes e.

(** The parser is [k] bytes into the ending. *)
Definition ending_at (e : ending) (k : Z) (c : xqc_h3_frame_pctx_t) : Prop :=
  match e with
  | End_none => k = 0 /\ c = xqc_h3_frm_reset_pctx
  | End_bad f _ =>
      (0 <= k < zlen (w_T f) /\ c = type_at f k)
      \/ (refused wt (w_type f) = false /\ zlen (w_T f) <= k < zlen (w_T f) + zlen (w_L f)
          /\ c = len_at f (k - zlen (w_T f)))
  end.

(** The parser is [k] bytes into the first of the frames. *)
Definition stream_at (fs : list wframe) (e : ending) (k : Z) (c : xqc_h3_frame_pctx_t) : Prop :=
  match fs with
  | [] => ending_at e k c
  | f :: _ => at_frame f k c /\ 0 <= k < zlen (w_bytes f)
  end.

Definition frames_ok (fs : list wframe) : Prop := Forall (w_ok wt) fs.

(** Until SETTINGS are received, the stream starts with a frame that the control stream can carry,
    and the type of SETTINGS is in one byte. *)
Definition first_ok (fs : list wframe) (e : ending) h : Prop :=
  hc_settings_recved h = true
  \/ match fs with
     | f :: _ => w_type f = XQC_H3_FRM_SETTINGS -> zlen (w_T f) = 1
     | [] => e = End_none
     end.

Lemma stream_at_start fs e : frames_ok fs -> ending_ok e -> stream_at fs e 0 xqc_h3_frm_reset_pctx.
Proof.
  destruct fs as [|f fs]; cbn [stream_at].
  - destruct e as [|f rest]; [done|]. intros _ (HT & _). left. pose proof (is_enc_len _ _ HT). split; [lia|done].
  - intros [Hok _]%Forall_cons _. pose proof (is_enc_len _ _ (w_T_ok _ _ Hok)).
    split; [apply at_frame_start; lia|]. rewrite zlen_w_bytes. pose proof (zlen_nonneg (w_L f)). pose proof (zlen_nonneg (w_P f)). lia.
Qed.

Lemma stream_bytes_ok fs e : frames_ok fs -> ending_ok e -> bytes_ok (stream_bytes fs e).
Proof.
  intros Hfs He. unfold stream_bytes. apply bytes_ok_app. split.
  - induction Hfs as [|f fs Hok _ IH]; [apply Forall_nil; done|]. cbn [map concat].
    apply bytes_ok_app. split; [|done]. unfold w_bytes.
    rewrite !bytes_ok_app. split; [apply Hok|]. split; [apply Hok|]. apply Hok.
  - destruct e as [|f rest]; [apply Forall_nil; done|]. destruct He as (HT & HL & Hr & _). cbn [ending_bytes].
    rewrite !bytes_ok_app. split; [apply HT|done].
Qed.

(** The type the parser knows after some bytes of a frame: whether it is SETTINGS. *)
Lemma known_type f k c h : w_ok wt f ->
  hc_settings_recved h = true \/ (w_type f = XQC_H3_FRM_SETTINGS -> zlen (w_T f) = 1 \/ zlen (w_T f) <= k) ->
  0 < k -> at_frame f k c ->
  negb (f_type (fp_frame c) =? XQC_H3_FRM_SETTINGS) && negb (hc_settings_recved h)
  = negb (w_type f =? XQC_H3_FRM_SETTINGS) && negb (hc_settings_recved h)
  /\ (state_ge_payload (fp_state c) && request_only (f_type (fp_frame c))) = false.
Proof.
  intros Hok H1 Hk [[Ht ->]|[[Ht ->]|(Ht & Hst & Hpl & _)]].
  - split; [|done]. cbn [type_at fp_frame f_type]. destruct H1 as [->|H1]; [by rewrite !andb_false_r|].
    destruct (w_type f =? _) eqn:E; [zify_bools; specialize (H1 E); lia|done].
  - done.
  - rewrite Hpl. split; [done|]. pose proof (w_request _ _ Hok) as Hr. change (request_only (w_type f)) with (left_to_request (w_type f)).
    rewrite Hr. apply andb_false_r.
Qed.

(** The body of the loop behind a call of the parser. *)
Lemma control_step_at f k c h more : w_ok wt f ->
  hc_settings_recved h = true \/ (w_type f = XQC_H3_FRM_SETTINGS -> zlen (w_T f) = 1 \/ zlen (w_T f) <= k) ->
  0 < k <= zlen (w_bytes f) -> at_frame f k c -> (k < zlen (w_bytes f) -> more = false) ->
  control_step true notify more c h
  = if negb (w_type f =? XQC_H3_FRM_SETTINGS) && negb (hc_settings_recved h) then
      (Err XQC_H3_MISSING_SETTINGS,
       (xqc_h3_frm_reset_pctx, XQC_H3_CONN_ERR h H3_MISSING_SETTINGS XQC_H3_MISSING_SETTINGS))
    else if k =? zlen (w_bytes f) then
      let '(r, h) := control_frame true notify (final_frame f) h in (r, (xqc_h3_frm_reset_pctx, h))
    else (Ok tt, (c, h)).
Proof.
  intros Hok H1 Hk Hat Hmore. destruct (known_type f k c h Hok H1 ltac:(lia) Hat) as [Hty Hreq].
  pose proof (is_enc_len _ _ (w_L_ok _ _ Hok)) as HL. pose proof (zlen_nonneg (w_P f)) as HP.
  assert (bool_decide (fp_state c = XQC_H3_FRM_STATE_END) = (k =? zlen (w_bytes f))) as Hend.
  { rewrite zlen_w_bytes in Hk. destruct Hat as [[Ht ->]|[[Ht ->]|(Ht & Hst & _)]].
    - rewrite bool_decide_eq_false_2 by done. symmetry. apply Z.eqb_neq. rewrite zlen_w_bytes. lia.
    - rewrite bool_decide_eq_false_2 by done. symmetry. apply Z.eqb_neq. rewrite zlen_w_bytes. lia.
    - destruct (k =? zlen (w_bytes f)); [apply bool_decide_eq_true_2|apply bool_decide_eq_false_2]; by rewrite Hst. }
  unfold control_step. rewrite Hreq, Hend, Hty.
  assert (negb (k =? zlen (w_bytes f)) && more = false) as ->.
  { destruct (k =? _) eqn:E; [done|]. zify_bools. rewrite Hmore by lia. done. }
  case_if; [done|]. destruct (k =? zlen (w_bytes f)) eqn:Ek.
  - apply bool_decide_eq_true in Hend. rewrite decide_True by done. rewrite (final_frame_at f c h); [done|].
    zify_bools. rewrite zlen_w_bytes in *. destruct Hat as [[? _]|[[? _]|(_ & _ & Hpl)]]; try lia.
    replace (k - zlen (w_T f) - zlen (w_L f)) with (zlen (w_P f)) in Hpl by lia. done.
  - apply bool_decide_eq_false in Hend. by rewrite decide_False.
Qed.

(** ** The ending *)

(** What a call of the parser in the ending gives. *)
Definition ending_parsed (f : wframe) (rest : list Z) (k : Z) (p : list Z) (r : res Z * xqc_h3_frame_pctx_t) : Prop :=
  (exists c, r = (Ok (zlen p), c) /\ ending_at (End_bad f rest) (k + zlen p) c)
  \/ (refused wt (w_type f) = true /\ exists c, r = (Err (refusal (w_type f)), c))
  \/ (refused wt (w_type f) = false /\ zlen (w_T f) + zlen (w_L f) <= k + zlen p
      /\ exists n c, r = (Ok n, c) /\ state_ge_payload (fp_state c) = true /\ f_type (fp_frame c) = w_type f).

(** Behind the length of DATA and HEADERS nothing is read. *)
Lemma request_rest f p pos c : w_type f = XQC_H3_FRM_DATA \/ w_type f = XQC_H3_FRM_HEADERS ->
  state_ge_payload (fp_state c) = true -> f_type (fp_frame c) = w_type f ->
  exists n c', parse_rest junk p pos c = (Ok n, c') /\ state_ge_payload (fp_state c') = true
  /\ f_type (fp_frame c') = w_type f.
Proof.
  intros Ht Hst Hty. unfold parse_rest, stage, parse_payload, parse_payload_by_type. rewrite Hty.
  case_if; [by eexists _, _|]. case_decide; [|by eexists _, _].
  destruct Ht as [Ht|Ht]; rewrite Ht; eexists _, _; (split; [reflexivity|]); by rewrite <- Ht.
Qed.

(** From the length of DATA and HEADERS on. *)
Lemma request_len f rest p pos j v : w_type f = XQC_H3_FRM_DATA \/ w_type f = XQC_H3_FRM_HEADERS ->
  refused wt (w_type f) = false -> is_enc (w_L f) v -> 0 <= j < zlen (w_L f) -> 0 <= pos <= zlen p -> bytes_ok p ->
  sees (drop (Z.to_nat pos) p) j (w_L f) ->
  ending_parsed f rest (zlen (w_T f) + j - pos) p (parse_rest2 junk p pos (len_at f j)).
Proof.
  intros Ht Hr HL Hj Hpos Hb Hs. unfold parse_rest2. destruct (pos =? zlen p) eqn:Ep; zify_bools.
  { left. eexists. rewrite Ep. split; [reflexivity|]. right. split; [done|].
    replace (zlen (w_T f) + j - zlen p + zlen p) with (zlen (w_T f) + j) by lia. split; [lia|]. f_equal. lia. }
  assert (zlen (drop (Z.to_nat pos) p) = zlen p - pos) as Hz by (apply zlen_drop; lia).
  rewrite stage_run by done.
  rewrite (parse_len_any f v j (drop (Z.to_nat pos) p) HL); try done; cycle 1.
  { left. by destruct Ht as [-> | ->]. }
  { intros E. rewrite E, zlen_nil in Hz. lia. }
  { by apply Forall_drop. }
  rewrite Hz. set (n := Z.min (zlen (w_L f) - j) (zlen p - pos)).
  destruct (j + n =? zlen (w_L f)) eqn:E; zify_bools.
  - right. right. split; [done|]. split; [unfold n in *; lia|]. apply request_rest; [done|by case_if|done].
  - assert (n = zlen p - pos) as Hn by (unfold n in *; lia). unfold parse_rest.
    replace (pos + n) with (zlen p) by lia. rewrite Z.eqb_refl. left. eexists. split; [reflexivity|]. right.
    replace (zlen (w_T f) + j - pos + zlen p) with (zlen (w_T f) + (j + n)) by lia.
    split; [done|]. split; [unfold n in *; lia|]. f_equal. lia.
Qed.

Lemma ending_parse f rest k p c later : ending_ok (End_bad f rest) -> ending_at (End_bad f rest) k c -> p <> [] ->
  bytes_ok p -> drop (Z.to_nat k) (ending_bytes (End_bad f rest)) = p ++ later ->
  ending_parsed f rest k p (xqc_h3_frm_parse true junk wt p c).
Proof.
  intros (HT & _ & _ & Hty) Hat Hne Hb E. cbn [ending_bytes] in E. rewrite frm_parse_unfold.
  pose proof (zlen_nonneg (w_T f)) as HT0. pose proof (zlen_nonneg (w_L f)) as HL0. pose proof (zlen_nonneg rest) as Hr0. pose proof (zlen_nonneg p) as Hp0.
  assert (0 <= k <= zlen (w_T f ++ w_L f ++ rest)) as Hk.
  { rewrite !zlen_app. destruct Hat as [[? _]|(_ & ? & _)]; lia. }
  pose proof (sees_stream p k (w_T f ++ w_L f ++ rest) [] later Hk) as Hs. rewrite app_nil_r in Hs. specialize (Hs E).
  assert (sees p k (w_T f)) as HsT by (apply (sees_l p k _ (w_L f ++ rest)); [lia|done]).
  assert (forall pos, 0 <= pos <= zlen p -> zlen (w_T f) <= k + pos ->
    sees (drop (Z.to_nat pos) p) (k + pos - zlen (w_T f)) (w_L f)) as HsL.
  { intros pos Hpos Hle. apply (sees_l _ _ _ rest); [lia|]. apply sees_r; [lia|]. by apply sees_drop. }
  destruct Hat as [[Hk1 ->]|(Hr & Hk1 & ->)].
  - rewrite decide_False, stage_run by done. change (Z.to_nat 0) with 0%nat. rewrite drop_0.
    rewrite (parse_type_any wt f k p HT Hk1 Hne Hb HsT). set (n := Z.min (zlen (w_T f) - k) (zlen p)).
    destruct (k + n =? zlen (w_T f)) eqn:En; zify_bools.
    + unfold type_done. destruct Hty as [Hr|(Hr & Hd & v & HL)].
      * right. left. split; [done|]. unfold refusal, refused in *.
        destruct (xqc_h3_frm_is_h2_reserved (w_type f)); [by eexists|]. simpl in Hr. rewrite Hr. by eexists.
      * pose proof Hr as Hr'. unfold refused in Hr'. apply orb_false_iff in Hr' as [-> ->]. rewrite Z.add_0_l.
        pose proof (is_enc_len _ _ HL). pose proof (is_enc_len _ _ HT).
        pose proof (request_len f rest p n 0 v Hd Hr HL ltac:(lia) ltac:(unfold n in *; lia) Hb) as Hq.
        replace (zlen (w_T f) + 0 - n) with k in Hq by lia. apply Hq.
        specialize (HsL n ltac:(unfold n in *; lia) ltac:(lia)). by replace (k + n - zlen (w_T f)) with 0 in HsL by lia.
    + assert (n = zlen p) as Hn by (unfold n in *; lia). unfold parse_rest2. rewrite Z.add_0_l, Hn, Z.eqb_refl.
      left. eexists. split; [reflexivity|]. left. split; [unfold n in *; lia|done].
  - destruct Hty as [Hr'|(_ & Hd & v & HL)]; [congruence|].
    rewrite decide_False, stage_skip by done.
    pose proof (request_len f rest p 0 (k - zlen (w_T f)) v Hd Hr HL ltac:(lia) ltac:(lia) Hb) as Hq.
    replace (zlen (w_T f) + (k - zlen (w_T f)) - 0) with k in Hq by lia. apply Hq.
    specialize (HsL 0 ltac:(lia) ltac:(lia)). by rewrite Z.add_0_r in HsL.
Qed.

(** ** Any pieces *)

(** What a piece of the stream leaves behind: an error, or the rest of the stream to come. *)
Definition piece_outcome (fs : list wframe) (e : ending) h (n : Z) (later : list Z) (o : option (res Z * h3_state)) : Prop :=
  match o with
  | None => False
  | Some (Err x, (c, h')) => c = xqc_h3_frm_reset_pctx /\ apply_stream fs e h = (Err x, h')
  | Some (Ok r, (c, h')) =>
      r = n /\ exists fs' k, frames_ok fs' /\ first_ok fs' e h' /\ stream_at fs' e k c
      /\ drop (Z.to_nat k) (stream_bytes fs' e) = later /\ apply_stream fs e h = apply_stream fs' e h'
  end.

(** The loop in the ending: once SETTINGS were received. *)
Lemma ending_loop_at f rest data later fuel k c h processed :
  let e := End_bad f rest in
  0 <= processed < zlen data -> zlen data - processed < Z.of_nat fuel -> hc_settings_recved h = true ->
  ending_ok e -> ending_at e k c ->
  drop (Z.to_nat k) (ending_bytes e) = drop (Z.to_nat processed) data ++ later ->
  piece_outcome [] e h (zlen data) later (control_loop true junk wt notify fuel data processed c h).
Proof.
  intros e Hp Hfuel Hrec He Hat E. destruct fuel as [|fuel]; [lia|]. cbn [control_loop].
  destruct (zlen data <=? processed) eqn:Edone; zify_bools; [lia|].
  assert (zlen (drop (Z.to_nat processed) data) = zlen data - processed) as Hzp by (apply zlen_drop; lia).
  set (p := drop (Z.to_nat processed) data) in *.
  assert (p <> []) as Hne by (intros Hp0; rewrite Hp0, zlen_nil in Hzp; lia).
  assert (bytes_ok p) as Hb.
  { pose proof (stream_bytes_ok [] e (Forall_nil_2 _) He) as Hb. apply (Forall_drop _ (Z.to_nat k)) in Hb.
    unfold stream_bytes in Hb. cbn [map concat app] in Hb. rewrite E in Hb. by apply bytes_ok_app in Hb as [? _]. }
  pose proof (ending_parse f rest k p c later He Hat Hne Hb E) as [(c' & -> & Hat')|[(Hr & c' & ->)|(Hr & _ & n & c' & -> & Hst & Hty)]].
  - assert (processed + zlen p = zlen data) as Hend by lia. rewrite Hend, Z.eqb_refl. cbn [negb].
    assert (control_step true notify false c' h = (Ok tt, (c', h))) as ->.
    { unfold control_step. rewrite Hrec, !andb_false_r. cbn [negb].
      destruct Hat' as [[_ ->]|(_ & _ & ->)]; done. }
    destruct fuel as [|fuel]; [lia|]. cbn [control_loop]. rewrite (proj2 (Z.leb_le _ _)) by lia.
    split; [done|]. exists [], (k + zlen p). split_and!; [by apply Forall_nil|by left|done| |done].
    unfold stream_bytes. cbn [map concat app]. replace (Z.to_nat (k + zlen p)) with (Z.to_nat k + length p)%nat.
    { by rewrite <- drop_drop, E, drop_app_length. }
    destruct Hat as [[? _]|(_ & ? & _)]; unfold zlen in *; lia.
  - cbn [piece_outcome]. unfold xqc_h3_stream_process_frame_parse_error. split; [done|].
    unfold apply_stream. cbn [apply_frames ending_effect]. unfold e. cbn [ending_effect]. rewrite Hr.
    unfold refusal. by destruct (xqc_h3_frm_is_h2_reserved (w_type f)).
  - assert (request_only (w_type f) = true) as Hreq.
    { destruct He as (_ & _ & _ & [?|(_ & Hd & _)]); [congruence|]. by destruct Hd as [-> | ->]. }
    assert (forall more, control_step true notify more c' h = (Err XQC_H3_CONTROL_FRAME_UNEXPECTED,
      (xqc_h3_frm_reset_pctx, XQC_H3_CONN_ERR h H3_FRAME_UNEXPECTED XQC_H3_CONTROL_FRAME_UNEXPECTED))) as ->.
    { intros more. unfold control_step. by rewrite Hst, Hty, Hreq. }
    split; [done|]. unfold apply_stream, e. cbn [apply_frames ending_effect]. by rewrite Hr.
Qed.

Lemma drop_stream f fs e k n : 0 <= k -> 0 <= n -> k + n <= zlen (w_bytes f) ->
  drop (Z.to_nat n) (drop (Z.to_nat k) (stream_bytes (f :: fs) e)) = drop (Z.to_nat (k + n)) (stream_bytes (f :: fs) e).
Proof. intros Hk Hn Hz. rewrite drop_drop. f_equal. lia. Qed.

Lemma stream_bytes_cons f fs e : stream_bytes (f :: fs) e = w_bytes f ++ stream_bytes fs e.
Proof. unfold stream_bytes. cbn [map concat]. by rewrite <- app_assoc. Qed.

Lemma apply_stream_cons f fs e h : apply_stream (f :: fs) e h
  = match frame_effect f h with (Err x, h) => (Err x, h) | (Ok _, h) => apply_stream fs e h end.
Proof. unfold apply_stream. cbn [apply_frames]. by destruct (frame_effect f h) as [[]]. Qed.

Lemma control_loop_at e data later : ending_ok e -> forall fuel fs k c h processed,
  0 <= processed <= zlen data -> zlen data - processed < Z.of_nat fuel -> frames_ok fs -> first_ok fs e h -> stream_at fs e k c ->
  drop (Z.to_nat k) (stream_bytes fs e) = drop (Z.to_nat processed) data ++ later ->
  piece_outcome fs e h (zlen data) later (control_loop true junk wt notify fuel data processed c h).
Proof.
  intros He fuel. induction fuel as [|fuel IH]; intros fs k c h processed Hp Hfuel Hfs Hfst Hat E; [lia|].
  destruct (zlen data <=? processed) eqn:Edone; zify_bools.
  { cbn [control_loop]. rewrite (proj2 (Z.leb_le _ _)) by lia. split; [lia|]. exists fs, k. split_and!; try done.
    rewrite E, drop_ge by (unfold zlen in *; lia). done. }
  assert (zlen (drop (Z.to_nat processed) data) = zlen data - processed) as Hzp by (apply zlen_drop; lia).
  destruct fs as [|f fs].
  { cbn [stream_at] in Hat. unfold stream_bytes in E. cbn [map concat app] in E. destruct e as [|f rest].
    - exfalso. destruct Hat as [-> ->]. apply (f_equal zlen) in E. rewrite zlen_app, Hzp in E. change (zlen _) with 0 in E at 1.
      pose proof (zlen_nonneg later). lia.
    - destruct Hfst as [Hrec|?]; [|done]. apply (ending_loop_at f rest data later (S fuel) k c h processed); try done; lia. }
  cbn [control_loop]. rewrite (proj2 (Z.leb_gt _ _)) by lia.
  apply Forall_cons in Hfs as Hfs'. destruct Hfs' as [Hok Htl]. destruct Hat as [Hat Hk]. pose proof (stream_bytes_ok _ e Hfs He) as Hb.
  set (p := drop (Z.to_nat processed) data) in *. pose proof Hk as Hk2. rewrite zlen_w_bytes in Hk2.
  assert (frame_view f k p) as Hv.
  { split; [|apply (sees_stream p k _ (stream_bytes fs e) later); [lia|]].
    - assert (bytes_ok (p ++ later)) as Hbl by (rewrite <- E; by apply Forall_drop). apply bytes_ok_app in Hbl. tauto.
    - rewrite <- E, stream_bytes_cons. rewrite drop_app_le; [done|]. unfold zlen in Hk. lia. }
  assert (p <> []) as Hne by (intros Hp0; rewrite Hp0, zlen_nil in Hzp; lia).
  destruct (parse_at junk Hjunk wt f Hok k p c Hv Hne Hk2 Hat) as (c' & Hparse & Hat').
  rewrite <- zlen_w_bytes in Hparse, Hat', Hk2. set (m := Z.min (zlen p) (zlen (w_bytes f) - k)) in *.
  assert (1 <= m <= zlen p /\ k + m <= zlen (w_bytes f)) as [Hm Hmk] by (unfold m; lia).
  assert (hc_settings_recved h = true \/ (w_type f = XQC_H3_FRM_SETTINGS -> zlen (w_T f) = 1 \/ zlen (w_T f) <= k + m)) as H1
    by (destruct Hfst as [?|H1]; [by left|right; intros Hs; left; by apply H1]).
  rewrite Hparse, (control_step_at f (k + m) c' h _ Hok H1 ltac:(lia) Hat'); cycle 1.
  { intros Hlt. apply negb_false_iff, Z.eqb_eq. unfold m in *. lia. }
  assert (drop (Z.to_nat (k + m)) (stream_bytes (f :: fs) e) = drop (Z.to_nat (processed + m)) data ++ later) as E'.
  { rewrite <- drop_stream, E by lia. unfold p. rewrite drop_app_le, drop_drop by (unfold zlen, p in *; lia). do 2 f_equal. lia. }
  destruct (negb (w_type f =? XQC_H3_FRM_SETTINGS) && negb (hc_settings_recved h)) eqn:Emiss.
  { cbn [piece_outcome]. rewrite apply_stream_cons. unfold frame_effect. rewrite Emiss. done. }
  destruct (k + m =? zlen (w_bytes f)) eqn:Eend; [apply Z.eqb_eq in Eend|apply Z.eqb_neq in Eend].
  - pose proof (frame_effect_recved f h) as Hrec.
    destruct (control_frame true notify (final_frame f) h) as [[[]|x] h'] eqn:Ecf;
      assert (frame_effect f h = control_frame true notify (final_frame f) h) as Hfe by (unfold frame_effect; by rewrite Emiss);
      rewrite Ecf in Hfe.
    + specialize (IH fs 0 xqc_h3_frm_reset_pctx h' (processed + m) ltac:(lia) ltac:(lia) Htl
        (or_introl (Hrec h' Hfe)) (stream_at_start _ _ Htl He)).
      rewrite Eend, stream_bytes_cons in E'. unfold zlen at 1 in E'. rewrite Nat2Z.id, drop_app_length in E'.
      specialize (IH E'). unfold piece_outcome in *. by rewrite apply_stream_cons, Hfe.
    + cbn [piece_outcome]. by rewrite apply_stream_cons, Hfe.
  - apply (IH (f :: fs) (k + m)); try done; try lia. split; [done|lia].
Qed.

Lemma stream_rest_nil fs e k c : ending_ok e -> stream_at fs e k c -> drop (Z.to_nat k) (stream_bytes fs e) = [] ->
  fs = [] /\ e = End_none /\ c = xqc_h3_frm_reset_pctx.
Proof.
  intros He Hat E. apply (f_equal zlen) in E. rewrite zlen_nil in E. destruct fs as [|f fs].
  - destruct e as [|f rest]; [by destruct Hat as [_ ->]|]. exfalso. unfold stream_bytes in E. cbn [map concat app ending_bytes] in E.
    pose proof (zlen_nonneg (w_T f)). pose proof (zlen_nonneg (w_L f)). pose proof (zlen_nonneg rest).
    assert (0 <= k < zlen (w_T f) + zlen (w_L f)) as Hk by (destruct Hat as [[? _]|(_ & ? & _)]; lia).
    rewrite zlen_drop in E; rewrite ?zlen_app in *; lia.
  - exfalso. destruct Hat as [_ Hk]. pose proof (zlen_nonneg (stream_bytes fs e)).
    rewrite stream_bytes_cons, zlen_drop in E; rewrite zlen_app in *; lia.
Qed.

Lemma control_feed_at e : ending_ok e -> forall chunks fs k c h, frames_ok fs -> first_ok fs e h -> stream_at fs e k c ->
  drop (Z.to_nat k) (stream_bytes fs e) = concat chunks ->
  control_feed true junk wt notify chunks (c, h)
  = Some (fst (apply_stream fs e h), (xqc_h3_frm_reset_pctx, snd (apply_stream fs e h))).
Proof.
  intros He chunks. induction chunks as [|d ds IH]; intros fs k c h Hfs Hfst Hat E.
  { destruct (stream_rest_nil fs e k c He Hat E) as (-> & -> & ->). done. }
  cbn [control_feed]. unfold xqc_h3_stream_process_control. cbn [fst snd].
  pose proof (control_loop_at e d (concat ds) He (S (length d)) fs k c h 0 ltac:(pose proof (zlen_nonneg d); lia)
    ltac:(unfold zlen; lia) Hfs Hfst Hat E) as Hout.
  destruct (control_loop true junk wt notify (S (length d)) d 0 c h) as [[r [c' h']]|]; [|done].
  cbn [mbind option_bind]. destruct r as [r|x]; cbn [piece_outcome] in Hout.
  - destruct Hout as (_ & fs' & k' & Hfs' & Hfst' & Hat' & E' & ->). by apply (IH fs' k').
  - destruct Hout as [-> ->]. done.
Qed.

(** ** The first piece of the stream *)

(** The first piece ends inside the type of the first frame: the type is not known yet. *)
Lemma cut_in_type f k tail chunks h : is_enc (w_T f) (w_type f) -> hc_settings_recved h = false -> 0 < k < zlen (w_T f) ->
  control_feed true junk wt notify (take (Z.to_nat k) (w_T f ++ tail) :: chunks) (xqc_h3_frm_reset_pctx, h)
  = Some (Err XQC_H3_MISSING_SETTINGS,
          (xqc_h3_frm_reset_pctx, XQC_H3_CONN_ERR h H3_MISSING_SETTINGS XQC_H3_MISSING_SETTINGS)).
Proof.
  intros HT Hr Hk. rewrite take_app_le by (unfold zlen in Hk; lia). set (p := take (Z.to_nat k) (w_T f)).
  assert (zlen p = k) as Hz by (unfold p, zlen in *; rewrite length_take; lia).
  assert (xqc_h3_frm_parse true junk wt p (type_at f 0) = (Ok k, type_at f k)) as Hparse.
  { rewrite frm_parse_unfold, decide_False, stage_run by done. change (Z.to_nat 0) with 0%nat.
    rewrite drop_0, (parse_type_any wt f 0 p HT); [|lia| | |].
    - rewrite Hz, Z.sub_0_r, Z.min_r, !Z.add_0_l by lia. rewrite (proj2 (Z.eqb_neq _ _)) by lia.
      unfold parse_rest2. by rewrite Hz, Z.eqb_refl.
    - intros E. rewrite E, zlen_nil in Hz. lia.
    - apply Forall_take, HT.
    - intros i Hi _. unfold p. rewrite <- (take_drop (Z.to_nat k) (w_T f)) at 2. symmetry. apply rd_app_l. fold p. lia. }
  cbn [control_feed]. unfold xqc_h3_stream_process_control. cbn [fst snd control_loop].
  rewrite (proj2 (Z.leb_gt _ _)) by lia. change (Z.to_nat 0) with 0%nat. rewrite drop_0.
  change (xqc_h3_frm_parse true junk wt p xqc_h3_frm_reset_pctx) with (xqc_h3_frm_parse true junk wt p (type_at f 0)).
  rewrite Hparse, Z.add_0_l, Hz, Z.eqb_refl. unfold control_step. cbn [type_at fp_state fp_frame f_type state_ge_payload andb negb].
  rewrite andb_false_r, Hr. done.
Qed.

(** The first frame, of a type that is not SETTINGS, in one piece and cut inside its header. *)
Lemma request_first f rest h : ending_ok (End_bad f rest) -> refused wt (w_type f) = false -> hc_settings_recved h = false ->
  control_feed true junk wt notify [ending_bytes (End_bad f rest)] (xqc_h3_frm_reset_pctx, h)
  = Some (Err XQC_H3_CONTROL_FRAME_UNEXPECTED,
          (xqc_h3_frm_reset_pctx, XQC_H3_CONN_ERR h H3_FRAME_UNEXPECTED XQC_H3_CONTROL_FRAME_UNEXPECTED))
  /\ forall k chunks, 0 < k < zlen (w_T f) + zlen (w_L f) ->
     control_feed true junk wt notify (take (Z.to_nat k) (ending_bytes (End_bad f rest)) :: chunks) (xqc_h3_frm_reset_pctx, h)
     = Some (Err XQC_H3_MISSING_SETTINGS,
             (xqc_h3_frm_reset_pctx, XQC_H3_CONN_ERR h H3_MISSING_SETTINGS XQC_H3_MISSING_SETTINGS)).
Proof.
  intros He Hr Hrec. pose proof He as (HT & _ & _ & Hty). destruct Hty as [?|(_ & Hd & _)]; [congruence|].
  pose proof (stream_bytes_ok [] _ (Forall_nil_2 _) He) as Hb. change (bytes_ok (ending_bytes (End_bad f rest))) in Hb.
  pose proof (is_enc_len _ _ HT) as HTl. pose proof (zlen_nonneg (w_L f)) as HL0. pose proof (zlen_nonneg rest) as Hr0.
  assert (zlen (ending_bytes (End_bad f rest)) = zlen (w_T f) + zlen (w_L f) + zlen rest) as Hz
    by (cbn [ending_bytes]; rewrite !zlen_app; lia).
  assert (forall p later, ending_bytes (End_bad f rest) = p ++ later -> 0 < zlen p ->
    ending_parsed f rest 0 p (xqc_h3_frm_parse true junk wt p xqc_h3_frm_reset_pctx)) as Hparse.
  { intros p later E Hp. apply (ending_parse f rest 0 p _ later He); [left; split; [lia|done]| | |exact E].
    - intros ->. rewrite zlen_nil in Hp. lia.
    - rewrite E in Hb. by apply bytes_ok_app in Hb as [? _]. }
  cbn [control_feed]. unfold xqc_h3_stream_process_control. cbn [fst snd control_loop]. split.
  - rewrite (proj2 (Z.leb_gt _ _)) by lia. change (Z.to_nat 0) with 0%nat. rewrite drop_0.
    destruct (Hparse (ending_bytes (End_bad f rest)) []) as [(c' & -> & Hat')|[(Hr' & _)|(_ & _ & n & c' & -> & Hst & Ht)]];
      [by rewrite app_nil_r|lia| |congruence|].
    { exfalso. destruct Hat' as [[? _]|(_ & ? & _)]; lia. }
    unfold control_step. rewrite Hst, Ht. by destruct Hd as [-> | ->].
  - intros k chunks Hk. set (p := take (Z.to_nat k) _).
    assert (zlen p = k) as Hzp by (unfold p, zlen in *; rewrite length_take; lia).
    rewrite (proj2 (Z.leb_gt _ _)) by lia. change (Z.to_nat 0) with 0%nat. rewrite drop_0.
    destruct (Hparse p (drop (Z.to_nat k) (ending_bytes (End_bad f rest)))) as [(c' & -> & Hat')|[(Hr' & _)|(_ & ? & _)]];
      [symmetry; apply take_drop|lia| |congruence|lia].
    rewrite !Z.add_0_l, Z.eqb_refl. unfold control_step. cbn [negb]. rewrite Hrec.
    destruct Hat' as [[_ ->]|(_ & _ & ->)]; [done|]. cbn [len_at fp_state fp_frame f_type state_ge_payload andb].
    by destruct Hd as [-> | ->].
Qed.

(** A whole frame in one piece. *)
Lemma whole_frame f h : w_ok wt f ->
  control_feed true junk wt notify [w_bytes f] (xqc_h3_frm_reset_pctx, h)
  = Some (fst (frame_effect f h), (xqc_h3_frm_reset_pctx, snd (frame_effect f h))).
Proof.
  intros Hok. pose proof (is_enc_len _ _ (w_T_ok _ _ Hok)). pose proof (zlen_nonneg (w_L f)). pose proof (zlen_nonneg (w_P f)).
  pose proof (zlen_w_bytes f) as Hz.
  assert (frame_view f 0 (w_bytes f)) as Hv.
  { split; [|intros i _ _; done]. unfold w_bytes. rewrite !bytes_ok_app. split; [apply Hok|]. split; apply Hok. }
  destruct (parse_at junk Hjunk wt f Hok 0 (w_bytes f) xqc_h3_frm_reset_pctx Hv) as (c' & Hparse & Hat');
    [intros E; rewrite E, zlen_nil in Hz; lia|lia|apply at_frame_start; lia|].
  rewrite <- Hz, Z.sub_0_r, Z.min_id in Hparse, Hat'.
  cbn [control_feed]. unfold xqc_h3_stream_process_control. cbn [fst snd control_loop].
  rewrite (proj2 (Z.leb_gt _ _)) by lia. change (Z.to_nat 0) with 0%nat. rewrite drop_0, Hparse.
  rewrite (control_step_at f (0 + zlen (w_bytes f)) c' h _ Hok); [|right; intros _; lia|lia|done|lia].
  unfold frame_effect. case_if; [done|]. rewrite Z.add_0_l, Z.eqb_refl.
  destruct (control_frame true notify (final_frame f) h) as [[[]|x] h']; [|done].
  destruct (length (w_bytes f)) eqn:El; [unfold zlen in *; lia|].
  cbn [control_loop]. rewrite Z.leb_refl. done.
Qed.

End delivery.

(** ** Any bytes *)

(** Between two calls the parser waits for bytes, and a SETTINGS payload is within its limit. *)
Definition settings_live (b : option xqc_var_buf_t) (len : Z) : Prop :=
  match b with None => True | Some b => 0 <= vb_data_len b < len /\ len <= XQC_H3_SETTINGS_MAX_FRAME_SIZE end.

Definition payload_live (fr : xqc_h3_frame_t) : Prop :=
  0 < f_len fr < 2 ^ 64 /\ request_only (f_type fr) = false /\
  if vint_type (f_type fr) then 0 <= left (pl_int (f_pl fr))
  else if f_type fr =? XQC_H3_FRM_SETTINGS then settings_live (pl_buf (f_pl fr)) (f_len fr)
  else 0 <= f_consumed fr < f_len fr.

Definition int_live (v : xqc_discrete_int_pctx_t) : Prop := 0 <= left v /\ 0 <= vi v < 2 ^ 64.

Definition pctx_live (c : xqc_h3_frame_pctx_t) : Prop :=
  match fp_state c with
  | XQC_H3_FRM_STATE_TYPE | XQC_H3_FRM_STATE_LEN => int_live (fp_int c)
  | XQC_H3_FRM_STATE_PAYLOAD => payload_live (fp_frame c)
  | XQC_H3_FRM_STATE_END => False
  end.

(** A frame that has no place on the control stream. *)
Definition misplaced (c : xqc_h3_frame_pctx_t) : Prop := state_ge_payload (fp_state c) && request_only (f_type (fp_frame c)) = true.

Definition parsed_ok (c : xqc_h3_frame_pctx_t) : Prop := pctx_live c \/ fp_state c = XQC_H3_FRM_STATE_END \/ misplaced c.

Lemma accumulate_range bs v : bytes_ok bs -> 0 <= v < 2 ^ 64 -> 0 <= vint_accumulate v bs < 2 ^ 64.
Proof.
  revert v. induction bs as [|b bs IH]; intros v Hb Hv; [done|]. apply Forall_cons in Hb as [_ Hb]. apply IH; [done|].
  apply u64_range.
Qed.

(** An integer reads at least one byte of a piece that is not empty. *)
Lemma discrete_progress p c n v fin : p <> [] -> bytes_ok p -> 0 <= left c -> xqc_discrete_vint_parse p c = (n, v, fin) ->
  1 <= n <= zlen p /\ 0 <= left v.
Proof.
  intros Hp Hb Hl. destruct p as [|b p]; [done|]. unfold xqc_discrete_vint_parse. rewrite zlen_cons. pose proof (zlen_nonneg p).
  apply Forall_cons in Hb as [Hb _]. pose proof (varint_len_cases b Hb) as Hlen.
  destruct (left c =? 0) eqn:E; zify_bools; intros [= <- <- <-]; cbn [left]; rewrite ?zlen_cons; lia.
Qed.

(** A piece that does not finish the integer is read to its end. *)
Lemma discrete_unfinished p c n v : p <> [] -> bytes_ok p -> 0 <= left c -> xqc_discrete_vint_parse p c = (n, v, false) -> n = zlen p.
Proof.
  intros Hp Hb Hl. destruct p as [|b p]; [done|]. unfold xqc_discrete_vint_parse. rewrite zlen_cons. pose proof (zlen_nonneg p).
  apply Forall_cons in Hb as [Hb _]. pose proof (varint_len_cases b Hb) as Hlen.
  destruct (left c =? 0) eqn:E; zify_bools; intros [= <- <- Hf]; zify_bools; rewrite ?zlen_cons in *; lia.
Qed.

Lemma discrete_value p c n v fin : p <> [] -> bytes_ok p -> 0 <= vi c < 2 ^ 64 -> xqc_discrete_vint_parse p c = (n, v, fin) ->
  0 <= vi v < 2 ^ 64.
Proof.
  intros Hp Hb Hc. destruct p as [|b p]; [done|]. unfold xqc_discrete_vint_parse.
  pose proof Hb as Hb'. apply Forall_cons in Hb' as [Hb0 Hbs]. pose proof (fb_bound b Hb0).
  destruct (left c =? 0); intros [= <- <- <-]; cbn [vi]; apply accumulate_range; try (by apply Forall_take); lia.
Qed.

Section any_bytes.

Context (mem : bool) (junk : Z -> list Z) (wt : bool).

Lemma type_progress p c n c' : p <> [] -> bytes_ok p -> int_live (fp_int c) -> fp_state c = XQC_H3_FRM_STATE_TYPE ->
  parse_type wt p c = (Ok n, c') ->
  1 <= n <= zlen p /\ int_live (fp_int c') /\ (fp_state c' = XQC_H3_FRM_STATE_LEN \/ fp_state c' = XQC_H3_FRM_STATE_TYPE /\ n = zlen p).
Proof.
  intros Hp Hb [Hl Hv] Hst. unfold parse_type. destruct (xqc_discrete_vint_parse p (fp_int c)) as [[m v] fin] eqn:E.
  pose proof (discrete_progress _ _ _ _ _ Hp Hb Hl E) as [Hm Hl']. pose proof (discrete_value _ _ _ _ _ Hp Hb Hv E) as Hv'.
  destruct fin.
  - case_if; [done|]. case_if; [done|]. intros [= <- <-]. split; [done|]. split; [by split; simpl|by left].
  - intros [= <- <-]. split; [done|]. split; [done|]. right. split; [done|]. by apply (discrete_unfinished p (fp_int c) m v).
Qed.

Lemma len_progress p c n c' : p <> [] -> bytes_ok p -> int_live (fp_int c) -> fp_state c = XQC_H3_FRM_STATE_LEN ->
  parse_len p c = (Ok n, c') ->
  1 <= n <= zlen p /\ (fp_state c' = XQC_H3_FRM_STATE_LEN -> n = zlen p) /\ parsed_ok c' /\ fp_state c' <> XQC_H3_FRM_STATE_TYPE.
Proof.
  intros Hp Hb [Hl Hv] Hst. unfold parse_len. destruct (xqc_discrete_vint_parse p (fp_int c)) as [[m v] fin] eqn:E.
  pose proof (discrete_progress _ _ _ _ _ Hp Hb Hl E) as [Hm Hl']. pose proof (discrete_value _ _ _ _ _ Hp Hb Hv E) as Hv'.
  destruct fin.
  - destruct (vi v =? 0) eqn:E0; zify_bools.
    + case_if; [done|]. intros [= <- <-]. split; [done|]. split; [done|]. split; [by right; left|done].
    + intros [= <- <-]. split; [done|]. split; [done|]. split; [|done]. unfold parsed_ok, misplaced, pctx_live, payload_live.
      cbn [fp_state fp_frame f_type f_len f_pl f_consumed state_ge_payload andb].
      destruct (request_only _) eqn:Er; [by right; right|]. left. split; [lia|]. split; [done|]. repeat case_if; simpl; lia || done.
  - intros [= <- <-]. split; [done|]. cbn [fp_state]. rewrite Hst. split; [intros _; by apply (discrete_unfinished p (fp_int c) m v)|].
    split; [|done]. left. unfold pctx_live. cbn [fp_state]. rewrite ?Hst. done.
Qed.

(** Growing a buffer keeps its length; saving adds what is saved. *)
Lemma realloc_data_len b cap r b' : xqc_var_buf_realloc mem junk b cap = (r, b') -> vb_data_len b' = vb_data_len b.
Proof.
  unfold xqc_var_buf_realloc.
  assert (vb_data_len (if vb_limit b =? 0 then set_vb_limit b SIZE_MAX else b) = vb_data_len b) as Hl by (case_if; done).
  set (b0 := if vb_limit b =? 0 then _ else b) in *. repeat case_if; intros [= <- <-]; done.
Qed.

Lemma save_data_len b d u b' : xqc_var_buf_save_data mem junk b d = (Ok u, b') -> vb_data_len b' = vb_data_len b + zlen d.
Proof.
  unfold xqc_var_buf_save_data, xqc_var_buf_save_prepare. destruct (zlen d =? 0) eqn:E; [intros [= _ <-]; zb|]. cbn [prepare_loop].
  destruct (vb_buf_len b <? u64 (vb_data_len b + zlen d)); [|by intros [= _ <-]].
  destruct (xqc_var_buf_realloc mem junk b _) as [[[]|e] b1] eqn:Er; [|done]. apply realloc_data_len in Er.
  case_if; [done|]. intros [= _ <-]. simpl. lia.
Qed.

Lemma create_data_len cap lim b : xqc_var_buf_create_with_limit mem junk cap lim = Some b -> vb_data_len b = 0.
Proof.
  unfold xqc_var_buf_create_with_limit, xqc_var_buf_create. destruct (negb mem); [done|]. cbn [mbind option_bind]. intros [= <-].
  generalize (if cap =? 0 then 1 else cap) as c0. intros c0. unfold xqc_var_buf_set_limit. cbn [vb_data_len set_vb_limit]. case_if; [done|]. case_if; [|done].
  match goal with |- vb_data_len (snd ?e) = 0 => destruct e as [r b] eqn:Er end. by apply realloc_data_len in Er.
Qed.

Lemma payload_buf_live b0 len b : 0 < len -> settings_live b0 len ->
  payload_buf mem junk b0 len XQC_H3_SETTINGS_MAX_FRAME_SIZE = Ok b -> 0 <= vb_data_len b < len /\ len <= XQC_H3_SETTINGS_MAX_FRAME_SIZE.
Proof.
  intros Hlen Hl. unfold payload_buf. destruct b0 as [b1|]; [by intros [= <-]|]. case_if; [done|]. zify_bools.
  assert (exists cap, (if XQC_VAR_BUF_INIT_SIZE <? len
     then xqc_var_buf_create_with_limit mem junk XQC_VAR_BUF_INIT_SIZE XQC_H3_SETTINGS_MAX_FRAME_SIZE
     else xqc_var_buf_create_with_limit mem junk len XQC_H3_SETTINGS_MAX_FRAME_SIZE)
     = xqc_var_buf_create_with_limit mem junk cap XQC_H3_SETTINGS_MAX_FRAME_SIZE) as [cap ->] by (case_if; eauto).
  destruct (xqc_var_buf_create_with_limit _ _ _ _) as [b1|] eqn:Ec; [|done]. intros [= <-]. apply create_data_len in Ec. lia.
Qed.

(** What a payload parser leaves behind. *)
Definition payload_done (p : list Z) (fr : xqc_h3_frame_t) (r : pl_result) : Prop :=
  match r with
  | (Err _, _) => True
  | (Ok (n, fin), fr') => 1 <= n <= zlen p /\ (fin = true \/ payload_live fr')
  end.

Lemma single_vint_live p fr : p <> [] -> bytes_ok p -> payload_live fr -> vint_type (f_type fr) = true ->
  payload_done p fr (xqc_h3_frm_parse_single_vint_payload p fr) /\ payload_done p fr (xqc_h3_ext_frm_parse_bidi_stream_type p fr).
Proof.
  intros Hp Hb (Hlen & Hreq & Hl) Hv. rewrite Hv in Hl. unfold xqc_h3_frm_parse_single_vint_payload, xqc_h3_ext_frm_parse_bidi_stream_type.
  destruct (xqc_discrete_vint_parse p (pl_int (f_pl fr))) as [[n v] fin] eqn:E.
  pose proof (discrete_progress _ _ _ _ _ Hp Hb Hl E) as [Hn Hl'].
  assert (forall fr', f_len fr' = f_len fr -> f_type fr' = f_type fr -> pl_int (f_pl fr') = v -> payload_live fr') as Hlive.
  { intros fr' H1 H2 H3. unfold payload_live. rewrite H1, H2, H3, Hv. done. }
  split; [case_if; [done|]|]; (split; [done|]); right; by apply Hlive.
Qed.

Lemma settings_progress p fr : p <> [] -> payload_live fr -> f_type fr = XQC_H3_FRM_SETTINGS ->
  payload_done p fr (xqc_h3_frm_parse_settings mem junk p fr).
Proof.
  intros Hp (Hlen & Hreq & Hl) Ht. assert (vint_type (f_type fr) = false) as Hv by (by rewrite Ht). rewrite Hv, Ht, Z.eqb_refl in Hl.
  unfold xqc_h3_frm_parse_settings. destruct (payload_buf _ _ _ _ _) as [b|e] eqn:Eb; [|done].
  apply payload_buf_live in Eb as [Hdl Hmax]; [|lia|done]. unfold XQC_H3_SETTINGS_MAX_FRAME_SIZE in Hmax.
  assert (1 <= zlen p) as Hp1 by (destruct p as [|x p']; [done|]; rewrite zlen_cons; pose proof (zlen_nonneg p'); lia).
  rewrite u64_small by lia. set (len := Z.min (zlen p) (f_len fr - vb_data_len b)).
  destruct (xqc_var_buf_save_data mem junk b (sub_bytes p 0 len)) as [[u|e] b'] eqn:Es; [|done]. apply save_data_len in Es.
  rewrite zlen_sub_bytes in Es by (unfold len; lia). split; [unfold len; lia|].
  destruct (vb_data_len b' =? f_len fr) eqn:Ef; [by left|]. zify_bools. right. unfold payload_live.
  cbn [set_pl_buf set_pl f_len f_type f_pl pl_buf]. rewrite Hv, Ht, Z.eqb_refl. split; [done|]. split; [done|].
  split; [unfold len in *; lia|unfold XQC_H3_SETTINGS_MAX_FRAME_SIZE; lia].
Qed.

Lemma reserved_progress p fr : p <> [] -> payload_live fr -> vint_type (f_type fr) = false -> f_type fr <> XQC_H3_FRM_SETTINGS ->
  payload_done p fr (xqc_h3_frm_parse_reserved p fr).
Proof.
  intros Hp (Hlen & Hreq & Hl) Hv Ht. destruct (f_type fr =? XQC_H3_FRM_SETTINGS) eqn:E; [zb|]. rewrite Hv in Hl.
  assert (1 <= zlen p) as Hp1 by (destruct p as [|x p']; [done|]; rewrite zlen_cons; pose proof (zlen_nonneg p'); lia).
  unfold xqc_h3_frm_parse_reserved. rewrite u64_small by lia. set (n := Z.min _ _). rewrite u64_small by (unfold n; lia).
  split; [unfold n; lia|]. cbn [set_f_consumed f_len f_consumed]. destruct (f_len fr =? f_consumed fr + n) eqn:Ef; [by left|]. zify_bools. right.
  unfold payload_live. cbn [set_f_consumed f_len f_consumed f_type]. rewrite Hv. split; [done|]. split; [done|].
  case_if; [zb|]. unfold n in *. lia.
Qed.

Lemma payload_progress p fr : p <> [] -> bytes_ok p -> payload_live fr -> payload_done p fr (parse_payload_by_type mem junk p fr).
Proof.
  intros Hp Hb Hlive. unfold parse_payload_by_type. pose proof (proj1 (proj2 Hlive)) as Hr. unfold request_only in Hr.
  rewrite !orb_false_iff in Hr. destruct Hr as [[-> ->] ->].
  pose proof (single_vint_live p fr Hp Hb Hlive) as Hsv. pose proof (reserved_progress p fr Hp Hlive) as Hre.
  pose proof (settings_progress p fr Hp Hlive) as Hse. unfold vint_type in Hsv, Hre.
  destruct (f_type fr =? XQC_H3_FRM_CANCEL_PUSH); [by apply Hsv|].
  destruct (f_type fr =? XQC_H3_FRM_SETTINGS) eqn:E2; [apply Hse; zb|].
  destruct (f_type fr =? XQC_H3_FRM_GOAWAY); [by apply Hsv|].
  destruct (f_type fr =? XQC_H3_FRM_MAX_PUSH_ID); [by apply Hsv|].
  destruct (f_type fr =? XQC_H3_EXT_FRM_BIDI_STREAM_TYPE); [by apply Hsv|]. apply Hre; [done|zb].
Qed.

Lemma push_section_type p n fr : f_type (snd (push_promise_section mem junk p n fr)) = f_type fr.
Proof.
  unfold push_promise_section. case_if; [done|]. destruct (payload_buf _ _ _ _ _); [|done].
  by destruct (xqc_var_buf_save_data _ _ _ _) as [[] ?].
Qed.

Lemma request_only_type p fr : request_only (f_type fr) = true ->
  f_type (snd (parse_payload_by_type mem junk p fr)) = f_type fr.
Proof.
  unfold request_only, parse_payload_by_type. destruct (f_type fr =? XQC_H3_FRM_DATA); [done|].
  destruct (f_type fr =? XQC_H3_FRM_HEADERS); [done|]. cbn [orb]. intros Ht. rewrite Ht. apply Z.eqb_eq in Ht. rewrite Ht. cbn [Z.eqb XQC_H3_FRM_PUSH_PROMISE XQC_H3_FRM_CANCEL_PUSH XQC_H3_FRM_SETTINGS Pos.eqb].
  unfold xqc_h3_frm_parse_push_promise. case_if; cbn [f_type].
  - destruct (xqc_discrete_vint_parse p (pl_int (f_pl fr))) as [[n v] []]; case_if; rewrite ?push_section_type; done.
  - case_if; rewrite ?push_section_type; done.
Qed.

(** The last stage of the parser, with [pos] bytes of the piece read. *)
Lemma payload_stage p pos c n c' : 0 <= pos <= zlen p -> 1 <= pos \/ (fp_state c = XQC_H3_FRM_STATE_PAYLOAD /\ pos < zlen p) -> bytes_ok p -> parsed_ok c -> fp_state c <> XQC_H3_FRM_STATE_TYPE ->
  (fp_state c = XQC_H3_FRM_STATE_LEN -> pos = zlen p) ->
  (if pos =? zlen p then (Ok pos, c) else stage XQC_H3_FRM_STATE_PAYLOAD (parse_payload mem junk) p pos c) = (Ok n, c') ->
  misplaced c' \/ (1 <= n <= zlen p /\ parsed_ok c').
Proof.
  intros Hpos H1 Hb Hok Hst Hlen. destruct (pos =? zlen p) eqn:E; zify_bools; [intros [= <- <-]; right; split; [lia|done]|].
  destruct (decide (fp_state c = XQC_H3_FRM_STATE_PAYLOAD)) as [Hp|Hp]; cycle 1.
  { rewrite stage_skip by done. intros [= <- <-]. right. destruct H1 as [H1|[H1 _]]; [split; [lia|done]|done]. }
  rewrite stage_run by done. set (q := drop (Z.to_nat pos) p).
  assert (zlen q = zlen p - pos) as Hq by (apply zlen_drop; lia).
  assert (q <> []) as Hqn by (intros Hq0; rewrite Hq0, zlen_nil in Hq; lia). assert (bytes_ok q) as Hqb by by apply Forall_drop.
  unfold parse_payload. destruct (request_only (f_type (fp_frame c))) eqn:Er.
  - pose proof (request_only_type q (fp_frame c) Er) as Ht. destruct (parse_payload_by_type mem junk q (fp_frame c)) as [[[m fin]|e] fr'] eqn:Ep; [|done].
    intros [= <- <-]. left. unfold misplaced. cbn [fp_state fp_frame snd] in *. rewrite Ht, Er, Hp. by destruct fin.
  - assert (payload_live (fp_frame c)) as Hlive.
    { destruct Hok as [Hl|[He|Hm]]; [unfold pctx_live in Hl; by rewrite Hp in Hl|congruence|unfold misplaced in Hm; rewrite Er, andb_false_r in Hm; done]. }
    pose proof (payload_progress q (fp_frame c) Hqn Hqb Hlive) as Hd. unfold payload_done in Hd.
    destruct (parse_payload_by_type mem junk q (fp_frame c)) as [[[m fin]|e] fr'] eqn:Ep; [|done].
    intros [= <- <-]. right. destruct Hd as [Hm Hl]. split; [lia|]. unfold parsed_ok, pctx_live. cbn [fp_state fp_frame].
    destruct Hl as [-> |Hl]; [by right; left|]. destruct fin; [by right; left|]. left. by rewrite Hp.
Qed.

(** A call reads at least a byte, and what it leaves behind waits for more, is complete or is misplaced. *)
Lemma frm_parse_progress p c n c' : p <> [] -> bytes_ok p -> pctx_live c -> xqc_h3_frm_parse mem junk wt p c = (Ok n, c') ->
  misplaced c' \/ (1 <= n <= zlen p /\ parsed_ok c').
Proof.
  intros Hp Hb Hlive. unfold xqc_h3_frm_parse. rewrite decide_False by (intros E; unfold pctx_live in Hlive; by rewrite E in Hlive).
  assert (1 <= zlen p) as Hp1 by (destruct p as [|x p']; [done|]; rewrite zlen_cons; pose proof (zlen_nonneg p'); lia).
  assert (forall pos c, 0 <= pos < zlen p -> int_live (fp_int c) -> fp_state c = XQC_H3_FRM_STATE_LEN ->
    match stage XQC_H3_FRM_STATE_LEN parse_len p pos c with
    | (Ok pos, c) => if pos =? zlen p then (Ok pos, c) else stage XQC_H3_FRM_STATE_PAYLOAD (parse_payload mem junk) p pos c
    | (Err e, c) => (Err e, c)
    end = (Ok n, c') -> misplaced c' \/ (1 <= n <= zlen p /\ parsed_ok c')) as Hlen.
  { intros pos c0 Hpos Hi Hst. rewrite stage_run by done. set (q := drop (Z.to_nat pos) p).
    assert (zlen q = zlen p - pos) as Hq by (apply zlen_drop; lia).
    assert (q <> []) as Hqn by (intros Hq0; rewrite Hq0, zlen_nil in Hq; lia).
    destruct (parse_len q c0) as [[m|e] c1] eqn:El; [|done].
    destruct (len_progress _ _ _ _ Hqn ltac:(by apply Forall_drop) Hi Hst El) as (Hm & Hend & Hok & Hty).
    apply payload_stage; try done; [lia|lia|intros Hs; specialize (Hend Hs); lia]. }
  destruct (decide (fp_state c = XQC_H3_FRM_STATE_TYPE)) as [Ht|Ht].
  - rewrite stage_run by done. change (Z.to_nat 0) with 0%nat. rewrite drop_0.
    destruct (parse_type wt p c) as [[m|e] c1] eqn:Et; [|done]. unfold pctx_live in Hlive. rewrite Ht in Hlive. rewrite Z.add_0_l.
    destruct (type_progress _ _ _ _ Hp Hb Hlive Ht Et) as (Hm & Hi & Hst).
    destruct (m =? zlen p) eqn:E; zify_bools.
    + intros [= <- <-]. right. split; [lia|]. left. unfold pctx_live. by destruct Hst as [->|[-> _]].
    + destruct Hst as [Hst|[_ ?]]; [|done]. apply Hlen; try done. lia.
  - rewrite stage_skip by done. destruct (0 =? zlen p) eqn:E; zify_bools; [lia|].
    destruct (fp_state c) eqn:Hst; [done| | |unfold pctx_live in Hlive; by rewrite Hst in Hlive].
    + apply Hlen; [lia|unfold pctx_live in Hlive; by rewrite Hst in Hlive|done].
    + rewrite stage_skip by (rewrite Hst; done). apply payload_stage; try done; [lia|right; split; [done|lia]|by left|by rewrite Hst|by rewrite Hst].
Qed.

End any_bytes.

(** ** What can change on a connection *)

Section conn.

Context {Q : Type} `{!QpackOps Q}.
Context (mem : bool) (junk : Z -> list Z) (wt : bool) (notify : option (list xqc_h3_setting_t -> Z)).

Implicit Types h : xqc_h3_conn_t Q.

(** Reading settings leaves the identifiers alone; the first error stays. *)
Record settings_only h h' : Prop := {
  so_recved : hc_settings_recved h' = hc_settings_recved h;
  so_goaway : hc_goaway_recvd h' = hc_goaway_recvd h;
  so_goaway_id : hc_goaway_stream_id h' = hc_goaway_stream_id h;
  so_max : hc_max_stream_id_recvd h' = hc_max_stream_id_recvd h;
  so_client : hc_client h' = hc_client h;
  so_local : hc_local h' = hc_local h;
  so_err : hc_conn_err h <> 0 -> hc_conn_err h' = hc_conn_err h;
}.

(** SETTINGS are applied once, the GOAWAY identifier never grows, MAX_PUSH_ID never shrinks (and is
    a client's no business), the first error stays. *)
Record conn_after h h' : Prop := {
  ca_recved : hc_settings_recved h = true ->
    hc_settings_recved h' = true /\ hc_peer h' = hc_peer h /\ hc_qpack h' = hc_qpack h /\ hc_params h' = hc_params h;
  ca_goaway : hc_goaway_recvd h = true -> hc_goaway_recvd h' = true /\ hc_goaway_stream_id h' <= hc_goaway_stream_id h;
  ca_max : hc_max_stream_id_recvd h <= hc_max_stream_id_recvd h';
  ca_client_max : hc_client h = true -> hc_max_stream_id_recvd h' = hc_max_stream_id_recvd h;
  ca_client : hc_client h' = hc_client h;
  ca_local : hc_local h' = hc_local h;
  ca_err : hc_conn_err h <> 0 -> hc_conn_err h' = hc_conn_err h;
}.

#[local] Instance settings_only_preorder : PreOrder settings_only.
Proof.
  split; [by split|]. intros h1 h2 h3 [] []. split; try congruence.
  intros He. assert (hc_conn_err h2 <> 0) by (rewrite so_err0; done). rewrite so_err1; auto.
Qed.

#[local] Instance conn_after_preorder : PreOrder conn_after.
Proof.
  split; [split; done || lia|]. intros h1 h2 h3 A B. split.
  - intros Hr. destruct (ca_recved _ _ A Hr) as (H2 & P & R & S). destruct (ca_recved _ _ B H2) as (H3 & P' & R' & S').
    split_and!; congruence.
  - intros Hg. destruct (ca_goaway _ _ A Hg) as [H2 L]. destruct (ca_goaway _ _ B H2) as [H3 L']. split; [done|lia].
  - pose proof (ca_max _ _ A). pose proof (ca_max _ _ B). lia.
  - intros Hc. rewrite (ca_client_max _ _ B), (ca_client_max _ _ A); try done. by rewrite (ca_client _ _ A).
  - rewrite (ca_client _ _ B). apply A.
  - rewrite (ca_local _ _ B). apply A.
  - intros He. pose proof (ca_err _ _ A He) as E2. rewrite (ca_err _ _ B); [done|congruence].
Qed.

Lemma conn_after_refl h : conn_after h h.
Proof. done. Qed.

Lemma conn_after_trans h1 h2 h3 : conn_after h1 h2 -> conn_after h2 h3 -> conn_after h1 h3.
Proof. by intros -> . Qed.

Lemma conn_err_only h err ret : settings_only h (XQC_H3_CONN_ERR h err ret).
Proof. unfold XQC_H3_CONN_ERR. case_if; [|done]. split; try done. simpl. intros He. zb. Qed.

Lemma conn_err_after h err ret : conn_after h (XQC_H3_CONN_ERR h err ret).
Proof. unfold XQC_H3_CONN_ERR. case_if; [|done]. split; simpl; try done. intros He. zb. Qed.

Lemma entry_settings_only h id v r h' : xqc_h3_conn_on_settings_entry_received h id v = (r, h') -> settings_only h h'.
Proof.
  unfold xqc_h3_conn_on_settings_entry_received, on_qpack. intros E.
  repeat (case_match || (injection E as <- <-)); simplify_eq; try (by split); try apply conn_err_only.
Qed.

Lemma entries_settings_only es h r h' : apply_entries h es = (r, h') -> settings_only h h'.
Proof.
  revert h. induction es as [|e es IH]; intros h; cbn [apply_entries]; [by intros [= _ <-]|].
  destruct (xqc_h3_conn_on_settings_entry_received h (fst e) (snd e)) as [[u|x] h1] eqn:Ee; apply entry_settings_only in Ee.
  - intros E. by rewrite Ee, (IH h1 E).
  - intros [= _ <-]. done.
Qed.

Lemma parse_setting_only d h r h' : xqc_h3_frm_parse_setting mem notify d h = (r, h') -> settings_only h h'.
Proof.
  unfold xqc_h3_frm_parse_setting, settings_failed, notify_extern, settings_failed. case_if; [intros [= _ <-]; apply conn_err_only|].
  destruct (parse_entries _) as [[]|es]; [intros [= _ <-]; apply conn_err_only..|].
  destruct (apply_entries h es) as [[u|x] h1] eqn:Ea; apply entries_settings_only in Ea; rewrite Ea; cycle 1.
  { intros [= _ <-]. apply conn_err_only. }
  assert (settings_only h1 (set_params h1 (fingerprint (hc_params h1) es))) as Hp by (by split).
  rewrite Hp. destruct notify as [f|]; [|by intros [= _ <-]].
  repeat case_if; intros [= _ <-]; done || apply conn_err_only.
Qed.

Lemma settings_only_after h h' : settings_only h h' -> hc_settings_recved h = false -> conn_after h h'.
Proof. intros [] Hr. split; try congruence; try lia. intros Hg. split; [congruence|lia]. Qed.

Lemma control_frame_after fr h r h' : control_frame mem notify fr h = (r, h') -> conn_after h h'.
Proof.
  unfold control_frame. case_if; [intros [= _ <-]; apply conn_err_after|]. case_if.
  { destruct (hc_settings_recved h) eqn:Er; [intros [= _ <-]; apply conn_err_after|].
    destruct (xqc_h3_frm_parse_setting mem notify (pl_buf (f_pl fr)) h) as [[u|x] h1] eqn:Ep; apply parse_setting_only in Ep;
      pose proof (settings_only_after _ _ Ep Er) as Ha; intros [= _ <-]; [|done].
    rewrite Ha. pose proof (so_recved _ _ Ep). split; simpl; try done; congruence. }
  case_if.
  { case_if; [intros [= _ <-]; apply conn_err_after|]. intros [= _ <-]. split; simpl; try done.
    intros Hg. rewrite Hg in *. zb. }
  case_if; [|by intros [= _ <-]]. case_if; [intros [= _ <-]; apply conn_err_after|].
  case_if; [intros [= _ <-]; apply conn_err_after|]. intros [= _ <-]. split; simpl; try done; [zb|congruence].
Qed.

(** The body of the loop: the connection moves on, and a parser that goes on waits for bytes. *)
Lemma control_step_after more c h r c' h' : parsed_ok c \/ misplaced c -> control_step mem notify more c h = (r, (c', h')) ->
  conn_after h h' /\ pctx_live c' /\ (r = Ok tt -> ~ misplaced c).
Proof.
  intros Hc. unfold control_step, misplaced. assert (pctx_live xqc_h3_frm_reset_pctx) as Hreset by done.
  destruct (state_ge_payload (fp_state c) && request_only (f_type (fp_frame c))) eqn:Em.
  { intros [= <- <- <-]. split; [apply conn_err_after|]. done. }
  case_if; [intros [= <- <- <-]; done|]. case_if; [intros [= <- <- <-]; split; [apply conn_err_after|done]|].
  destruct (decide (fp_state c = XQC_H3_FRM_STATE_END)) as [He|He].
  - destruct (control_frame mem notify (fp_frame c) h) as [r1 h1] eqn:Ec. apply control_frame_after in Ec.
    intros [= <- <- <-]. done.
  - intros [= <- <- <-]. split; [done|]. split; [|done]. unfold parsed_ok, misplaced in Hc. rewrite Em in Hc. intuition congruence.
Qed.

Lemma control_loop_safe data : bytes_ok data -> forall fuel processed c h, 0 <= processed <= zlen data ->
  zlen data - processed < Z.of_nat fuel -> pctx_live c ->
  exists r c' h', control_loop mem junk wt notify fuel data processed c h = Some (r, (c', h'))
    /\ conn_after h h' /\ pctx_live c' /\ (forall n, r = Ok n -> n = zlen data).
Proof.
  intros Hb fuel. induction fuel as [|fuel IH]; intros processed c h Hp Hf Hlive; [lia|]. cbn [control_loop].
  destruct (zlen data <=? processed) eqn:E; zify_bools.
  { eexists _, _, _. split; [done|]. split; [done|]. split; [done|]. intros n [= <-]. lia. }
  set (q := drop (Z.to_nat processed) data). assert (zlen q = zlen data - processed) as Hq by (apply zlen_drop; lia).
  assert (q <> []) as Hqn by (intros Hq0; rewrite Hq0, zlen_nil in Hq; lia).
  destruct (xqc_h3_frm_parse mem junk wt q c) as [[n|e] c1] eqn:Ep; cycle 1.
  { eexists _, _, _. split; [done|]. split; [repeat case_if; done || apply conn_err_after|]. split; [done|by intros n]. }
  destruct (frm_parse_progress mem junk wt q c n c1 Hqn ltac:(by apply Forall_drop) Hlive Ep) as [Hmis|[Hn Hok]].
  - destruct (control_step mem notify (negb (zlen data =? processed + n)) c1 h) as [r [c2 h2]] eqn:Es.
    apply control_step_after in Es as (Ha & Hl & Hm); [|by right]. destruct r as [[]|e]; [by exfalso; apply Hm|].
    eexists _, _, _. split; [done|]. split; [done|]. split; [done|by intros ?].
  - destruct (control_step mem notify (negb (zlen data =? processed + n)) c1 h) as [r [c2 h2]] eqn:Es.
    apply control_step_after in Es as (Ha & Hl & _); [|by left]. destruct r as [[]|e].
    + destruct (IH (processed + n) c2 h2 ltac:(lia) ltac:(lia) Hl) as (r & c3 & h3 & -> & Ha' & Hl' & Hr).
      eexists _, _, _. split; [done|]. split; [by rewrite Ha|]. done.
    + eexists _, _, _. split; [done|]. split; [done|]. split; [done|by intros ?].
Qed.

End conn.

End H3ControlSpec.
