(* ===== verification/H3SettingsSpec.v ===== *)
(** The frames that the writers produce are the frames that the other end's control stream acts on;
    the settings one end registers are the settings the other end learns. *)

From stdpp Require Import base numbers list.
From S2P Require Import Prelude VInt RingArray RingMem VarBuf TransParams TransParamsSpec TextFmt H3Frame H3FrameSpec H3Control H3ControlSpec.
Import VInt VarBuf TransParams TransParamsSpec TextFmt H3Frame H3FrameSpec H3Control H3ControlSpec.

Module H3SettingsSpec.

(** ** The entries of a SETTINGS payload *)

Lemma discrete_whole E v rest : is_enc E v -> bytes_ok rest ->
  xqc_discrete_vint_parse (E ++ rest) xqc_discrete_int_pctx_clear = (zlen E, int_at E (zlen E), true).
Proof.
  intros HE Hr. pose proof (is_enc_len _ _ HE) as HL. pose proof (zlen_nonneg rest).
  change xqc_discrete_int_pctx_clear with (int_at E 0). rewrite (discrete_at E v 0 (E ++ rest) HE); [|lia| |by apply bytes_ok_app; split; [apply HE|]|].
  - rewrite Z.sub_0_r, zlen_app, Z.min_l by lia. rewrite Z.add_0_l, Z.eqb_refl. done.
  - intros E0. apply (f_equal zlen) in E0. rewrite zlen_app, zlen_nil in E0. lia.
  - intros i Hi Hb. rewrite Z.add_0_l in *. apply rd_app_l. lia.
Qed.

Lemma drop_zlen_app A B : drop (Z.to_nat (zlen A)) (A ++ B) = B.
Proof. unfold zlen. by rewrite Nat2Z.id, drop_app_length. Qed.

Definition entry_bytes (e : xqc_h3_setting_t) : list Z := vbytes (fst e) ++ vbytes (snd e).

Lemma read_entry_bytes e rest : is_vint (fst e) -> is_vint (snd e) -> bytes_ok rest ->
  read_entry (entry_bytes e ++ rest) = Some (e, rest).
Proof.
  intros H1 H2 Hr. pose proof (vbytes_enc _ H1) as E1. pose proof (vbytes_enc _ H2) as E2. unfold read_entry, entry_bytes. rewrite <- app_assoc.
  rewrite (discrete_whole _ (fst e)) by (done || (apply bytes_ok_app; split; [apply vbytes_ok|done])). cbn [negb].
  rewrite drop_zlen_app, (discrete_whole _ (snd e)) by done. cbn [negb]. rewrite drop_zlen_app.
  do 2 f_equal. destruct e as [id v]. f_equal; [apply E1|apply E2].
Qed.

Definition entries_bytes (es : list xqc_h3_setting_t) : list Z := concat (map entry_bytes es).

(** What a SETTINGS frame may announce. *)
Definition entry_ok (e : xqc_h3_setting_t) : Prop :=
  is_vint (fst e) /\ is_vint (snd e) /\ ~ (XQC_H3_SETTINGS_H2_ENABLE_PUSH <= fst e <= XQC_H3_SETTINGS_H2_MAX_FRAME_SIZE).

Definition entries_ok (es : list xqc_h3_setting_t) : Prop := Forall entry_ok es /\ NoDup (map fst es).

Lemma entries_bytes_ok es : bytes_ok (entries_bytes es).
Proof.
  induction es as [|e es IH]; [by apply Forall_nil|]. unfold entries_bytes. cbn [map concat]. apply bytes_ok_app. split; [|done].
  unfold entry_bytes. apply bytes_ok_app. split; apply vbytes_ok.
Qed.

Lemma existsb_id before (id : Z) : ~ In id (map fst before) -> existsb (fun b : xqc_h3_setting_t => fst b =? id) before = false.
Proof.
  intros Hn. apply not_true_is_false. intros Ht. apply existsb_exists in Ht as (b & Hb & E). apply Hn, in_map_iff. exists b. split; [zb|done].
Qed.

Lemma zlen_entry_bytes e : 2 <= zlen (entry_bytes e) <= 16.
Proof.
  unfold entry_bytes. rewrite zlen_app, !zlen_vbytes. pose proof (put_varint_len_range (fst e)). pose proof (put_varint_len_range (snd e)). lia.
Qed.

Lemma read_entries_bytes es : forall before fuel, entries_ok (before ++ es) -> zlen (entries_bytes es) <= Z.of_nat fuel ->
  read_entries fuel (entries_bytes es) before = inr (before ++ es).
Proof.
  induction es as [|e es IH]; intros before fuel [Hok Hnd] Hf; [destruct fuel; by rewrite app_nil_r|].
  unfold entries_bytes in *. cbn [map concat] in *. rewrite zlen_app in Hf. pose proof (zlen_entry_bytes e).
  pose proof (zlen_nonneg (concat (map entry_bytes es))).
  destruct fuel as [|fuel]; [lia|]. cbn [read_entries].
  destruct (entry_bytes e ++ concat (map entry_bytes es)) as [|x p] eqn:Ep.
  { apply (f_equal zlen) in Ep. rewrite zlen_app, zlen_nil in Ep. lia. }
  rewrite <- Ep. apply Forall_app in Hok as Hok'. destruct Hok' as [_ He]. apply Forall_cons in He as [(H1 & H2 & H3) _].
  rewrite read_entry_bytes by (done || apply entries_bytes_ok).
  destruct ((_ <=? _) && (_ <=? _)) eqn:E; [exfalso; apply H3; zb|].
  rewrite existsb_id; cycle 1.
  { rewrite map_app in Hnd. cbn [map] in Hnd. apply NoDup_app in Hnd as (_ & Hdis & _). intros Hin.
    apply (Hdis (fst e)); [by apply list_elem_of_In|apply list_elem_of_here]. }
  rewrite (IH (before ++ [e]) fuel); [by rewrite <- app_assoc|by rewrite <- app_assoc|lia].
Qed.

Lemma parse_entries_bytes es : entries_ok es -> parse_entries (entries_bytes es) = inr es.
Proof. intros Hok. unfold parse_entries. rewrite read_entries_bytes; [done|done|unfold zlen; lia]. Qed.

(** ** The settings of an endpoint *)

Lemma validate_externs_spec l : forall before, validate_externs before l = true ->
  Forall (fun e => XQC_H3_SETTINGS_QPACK_BLOCKED_STREAMS < fst e <= XQC_VINT_MAX /\ snd e <= XQC_VINT_MAX
                   /\ (fst e = XQC_H3_SETTINGS_H3_DATAGRAM -> snd e <= 1)) l
  /\ NoDup (map fst l) /\ (forall e, In e l -> ~ In (fst e) (map fst before)).
Proof.
  induction l as [|e l IH]; intros before; cbn [validate_externs];
    [intros _; split; [by apply Forall_nil|]; split; [by apply NoDup_nil|by intros e []]|].
  destruct (_ || _) eqn:E1; [done|]. destruct (_ && _) eqn:E2; [done|]. destruct (XQC_VINT_MAX <? snd e) eqn:E3; [done|].
  destruct (existsb _ _) eqn:E4; [done|]. intros Hv. destruct (IH _ Hv) as (Hall & Hnd & Hdis).
  assert (~ In (fst e) (map fst before)) as Hnew.
  { intros (b & Hb & Hin)%in_map_iff. apply not_true_iff_false in E4. apply E4, existsb_exists. exists b. split; [done|zb]. }
  split; [|split].
  - apply Forall_cons. split; [|done]. rewrite orb_false_iff in E1. split; [zb|]. split; [zb|]. intros E. rewrite E in E2. cbn in E2. zb.
  - cbn [map]. apply NoDup_cons. split; [|done]. intros Hin%list_elem_of_In. apply in_map_iff in Hin as (b & Hb & Hin).
    apply (Hdis b Hin). rewrite map_app. apply in_app_iff. right. cbn. auto.
  - intros b [<-|Hin]; [done|]. intros Hin'. apply (Hdis b Hin). rewrite map_app. apply in_app_iff. by left.
Qed.

(** The members of the structure are unsigned. *)
Definition settings_wf (s : xqc_h3_conn_settings_t) : Prop :=
  0 <= hs_max_field_section_size s /\ 0 <= hs_qpack_dec_max_table_capacity s /\ 0 <= hs_qpack_blocked_streams s
  /\ Forall (fun e : xqc_h3_setting_t => 0 <= snd e) (hs_extern s).

Record validated (s : xqc_h3_conn_settings_t) : Prop := {
  v_count : (length (hs_extern s) <= 16)%nat;
  v_field : is_vint (hs_max_field_section_size s);
  v_dec : is_vint (hs_qpack_dec_max_table_capacity s);
  v_blocked : is_vint (hs_qpack_blocked_streams s);
  v_extern : Forall (fun e => XQC_H3_SETTINGS_QPACK_BLOCKED_STREAMS < fst e <= XQC_VINT_MAX /\ is_vint (snd e)
                   /\ (fst e = XQC_H3_SETTINGS_H3_DATAGRAM -> snd e <= 1)) (hs_extern s);
  v_nodup : NoDup (map fst (hs_extern s));
}.

Lemma validate_ok s : settings_wf s -> xqc_h3_conn_settings_validate s = Ok tt -> validated s.
Proof.
  intros (W1 & W2 & W3 & W4). unfold xqc_h3_conn_settings_validate, XQC_H3_MAX_EXTERN_SETTINGS.
  destruct (16 <? _) eqn:E1; [done|]. destruct (_ <? hs_max_field_section_size s) eqn:E2; [done|].
  destruct (_ <? hs_qpack_dec_max_table_capacity s) eqn:E3; [done|]. destruct (_ <? hs_qpack_blocked_streams s) eqn:E4; [done|].
  destruct (validate_externs [] (hs_extern s)) eqn:E5; [|done]. intros _. apply validate_externs_spec in E5 as (Hall & Hnd & _).
  split; try (unfold is_vint; zb); [|done]. rewrite !Forall_forall in *. intros e He. destruct (Hall e He) as (H1 & H2 & H3).
  specialize (W4 e He). split; [done|]. split; [by split|done].
Qed.

Lemma find_entry_none l id : find_entry l id = None <-> ~ In id (map fst l).
Proof.
  induction l as [|e l IH]; cbn [find_entry map]; [cbn; tauto|]. destruct (fst e =? id) eqn:E; zify_bools.
  - split; [done|]. intros Hn. exfalso. apply Hn. by left.
  - rewrite IH. cbn [In]. tauto.
Qed.

(** The identifiers that are announced besides the registered ones. *)
Lemma settings_entries_ids s : validated s ->
  exists ids, map fst (settings_entries s) = ids ++ map fst (hs_extern s) /\ NoDup ids /\ (length ids <= 5)%nat
  /\ Forall (fun id => In id [6; 1; 7] \/ ((id = 8 \/ id = 51) /\ ~ In id (map fst (hs_extern s)))) ids.
Proof.
  intros V. unfold settings_entries. rewrite !map_app, !app_assoc. eexists. split; [done|].
  unfold xqc_h3_settings_find_extern, XQC_H3_SETTINGS_ENABLE_CONNECT_PROTOCOL, XQC_H3_SETTINGS_H3_DATAGRAM.
  pose proof (find_entry_none (hs_extern s) 8) as F8. pose proof (find_entry_none (hs_extern s) 51) as F51.
  destruct (negb (hs_enable_connect_protocol s =? 0)), (bool_decide (find_entry (hs_extern s) 8 = None)) eqn:E8,
    (negb (hs_h3_datagram s =? 0)), (bool_decide (find_entry (hs_extern s) 0x33 = None)) eqn:E51;
    cbn [andb map app fst]; split_and!; try (by_decide); cbn [length]; try lia;
    rewrite ?bool_decide_eq_true in *; repeat (apply Forall_cons; split); try (by apply Forall_nil); cbn [In]; tauto.
Qed.

Lemma settings_entries_ok s : validated s -> entries_ok (settings_entries s).
Proof.
  intros V. split.
  - unfold settings_entries. assert (forall v, is_vint v -> forall id, id = 6 \/ id = 1 \/ id = 7 \/ id = 8 \/ id = 51 -> entry_ok (id, v)) as Hc.
    { intros v Hv id Hid. split; [|split; [done|]]; cbn [fst]; unfold is_vint, XQC_H3_SETTINGS_H2_ENABLE_PUSH, XQC_H3_SETTINGS_H2_MAX_FRAME_SIZE;
        [|lia]. assert (51 <= XQC_VINT_MAX) by by_decide. lia. }
    assert (is_vint 1) as H1 by by_decide.
    apply Forall_app; split; [|apply Forall_app; split; [|apply Forall_app; split]].
    + repeat (apply Forall_cons; split); try (by apply Forall_nil); apply Hc; try apply V; unfold XQC_H3_SETTINGS_MAX_FIELD_SECTION_SIZE, XQC_H3_SETTINGS_QPACK_MAX_TABLE_CAPACITY, XQC_H3_SETTINGS_QPACK_BLOCKED_STREAMS; lia.
    + case_if; [|by apply Forall_nil]. apply Forall_singleton, Hc; [done|]. unfold XQC_H3_SETTINGS_ENABLE_CONNECT_PROTOCOL. lia.
    + case_if; [|by apply Forall_nil]. apply Forall_singleton, Hc; [done|]. unfold XQC_H3_SETTINGS_H3_DATAGRAM. lia.
    + pose proof (v_extern _ V) as He. rewrite !Forall_forall in *. intros e Hin. destruct (He e Hin) as (A & B & _).
      unfold entry_ok, is_vint, XQC_H3_SETTINGS_QPACK_BLOCKED_STREAMS, XQC_H3_SETTINGS_H2_ENABLE_PUSH, XQC_H3_SETTINGS_H2_MAX_FRAME_SIZE in *.
      split; [lia|]. split; [done|lia].
  - destruct (settings_entries_ids s V) as (ids & -> & Hnd & _ & Hids). apply NoDup_app. split; [done|]. split; [|apply V].
    intros id Hid Hext. rewrite Forall_forall in Hids. apply list_elem_of_In in Hext. destruct (Hids id Hid) as [Hcore|[_ Hn]]; [|done].
    apply in_map_iff in Hext as (e & <- & Hin). pose proof (v_extern _ V) as He. rewrite Forall_forall in He. apply list_elem_of_In in Hin.
    destruct (He e Hin) as (A & _ & _). unfold XQC_H3_SETTINGS_QPACK_BLOCKED_STREAMS in A. cbn in Hcore. lia.
Qed.

Lemma zlen_entries_bytes es : zlen (entries_bytes es) <= 16 * Z.of_nat (length es).
Proof.
  induction es as [|e es IH]; [done|]. unfold entries_bytes in *. cbn [map concat length]. rewrite zlen_app.
  pose proof (zlen_entry_bytes e). lia.
Qed.

Lemma settings_entries_count s : validated s -> (length (settings_entries s) <= 21)%nat.
Proof.
  intros V. destruct (settings_entries_ids s V) as (ids & E & _ & Hl & _). apply (f_equal length) in E.
  rewrite length_app, !length_map in E. pose proof (v_count _ V) as Hc. unfold xqc_h3_setting_t in *. lia.
Qed.

(** ** What the writers produce *)

Section writers.

Context (junk : Z -> list Z) (Hjunk : forall n, 0 <= n -> zlen (junk n) = n).

Lemma zlen_vints vs : zlen (concat (map vbytes vs)) = sum_len vs.
Proof. induction vs as [|v vs IH]; [done|]. cbn [map concat sum_len fold_right]. rewrite zlen_app, zlen_vbytes, IH. done. Qed.

Lemma sum_len_nonneg vs : 0 <= sum_len vs.
Proof. rewrite <- zlen_vints. apply zlen_nonneg. Qed.

Lemma vint_buf_spec cap vs fin : Forall is_vint vs -> 0 < sum_len vs <= cap -> cap < 2 ^ 63 ->
  exists b, vint_buf true junk cap vs fin = Some (Ok b) /\ vb_ok b /\ vb_bytes b = concat (map vbytes vs) /\ vb_fin b = fin.
Proof.
  intros Hvs Hcap Hlim. unfold vint_buf, xqc_var_buf_create. cbn [negb]. destruct (cap =? 0) eqn:E; [zb|]. cbn [vb_data].
  rewrite (writes_vints vs Hvs (junk cap) 0) by (rewrite ?zlen_vints, ?Hjunk; lia). cbn [mbind option_bind].
  eexists. split; [done|]. rewrite zlen_vints, Z.add_0_l. split; [|split; [|done]].
  - split; cbn [vb_write set_vb_fin vb_data vb_buf_len vb_data_len vb_limit]; rewrite ?zlen_wr, ?Hjunk by lia; try lia. by_decide.
  - unfold vb_bytes. cbn [vb_write set_vb_fin vb_data vb_data_len]. rewrite <- zlen_vints. apply bytes_at_sub, bytes_at_wr; [lia|].
    rewrite zlen_vints, Hjunk by lia. lia.
Qed.

(** A frame in the shortest encodings. *)
Definition wire (type : Z) (P : list Z) : wframe := mk_wframe type (vbytes type) (vbytes (zlen P)) P.

Lemma wire_bytes type P : w_bytes (wire type P) = vbytes type ++ vbytes (zlen P) ++ P.
Proof. done. Qed.

(** The types that this end writes on its control stream. *)
Lemma wire_vint_ok wt type v : is_vint v -> vint_type type = true -> w_ok wt (wire type (vbytes v)).
Proof.
  intros Hv Ht. pose proof (put_varint_len_range v). assert (8 <= XQC_VINT_MAX) by by_decide.
  unfold vint_type in Ht. rewrite !orb_true_iff, !Z.eqb_eq in Ht.
  split; cbn [wire w_T w_L w_P w_type].
  - apply vbytes_enc. destruct Ht as [[[-> | ->]| ->]| ->]; by_decide.
  - apply vbytes_enc. rewrite zlen_vbytes. split; lia.
  - apply vbytes_ok.
  - destruct Ht as [[[-> | ->]| ->]| ->]; by destruct wt.
  - destruct Ht as [[[-> | ->]| ->]| ->]; done.
  - intros _. unfold w_int. cbn [w_P wire]. pose proof (vbytes_enc v Hv) as HE. pose proof HE as (_ & _ & _ & E). by rewrite E.
  - intros ->. destruct Ht as [[[Ht|Ht]|Ht]|Ht]; done.
Qed.

Lemma wire_settings_ok wt P : bytes_ok P -> zlen P <= XQC_H3_SETTINGS_MAX_FRAME_SIZE -> w_ok wt (wire XQC_H3_FRM_SETTINGS P).
Proof.
  intros Hb Hz. pose proof (zlen_nonneg P). assert (XQC_H3_SETTINGS_MAX_FRAME_SIZE <= XQC_VINT_MAX) by by_decide.
  split; cbn [wire w_T w_L w_P w_type]; try done; [by apply vbytes_enc; by_decide|apply vbytes_enc; split; lia].
Qed.

Lemma write_vint_frame_spec lmem type send_buf v fin : lmem (length send_buf) = true -> is_vint type -> is_vint v ->
  exists b, write_vint_frame true junk lmem type send_buf v fin = Some (Ok tt, send_buf ++ [b])
  /\ vb_bytes b = w_bytes (wire type (vbytes v)) /\ vb_fin b = fin.
Proof.
  intros Hm Ht Hv. pose proof (put_varint_len_range v). pose proof (put_varint_len_range type). pose proof (put_varint_len_range (xqc_put_varint_len v)).
  unfold write_vint_frame.
  destruct (vint_buf_spec (xqc_put_varint_len type + xqc_put_varint_len (xqc_put_varint_len v) + xqc_put_varint_len v)
    [type; xqc_put_varint_len v; v] fin) as (b & -> & _ & Hb & Hf).
  - repeat (apply Forall_cons; split); try (by apply Forall_nil); try done. apply small_vint. lia.
  - cbn [sum_len fold_right]. lia.
  - lia.
  - cbn [mbind option_bind append_buf]. unfold append_buf, xqc_list_buf_to_tail. rewrite Hm. cbn [negb]. exists b. split; [done|]. split; [|done].
    rewrite Hb, wire_bytes, zlen_vbytes. cbn [map concat]. by rewrite app_nil_r.
Qed.

Lemma entries_bytes_ints es : concat (map vbytes (entry_ints es)) = entries_bytes es.
Proof.
  induction es as [|e es IH]; [done|]. unfold entries_bytes, entry_ints in *. cbn [flat_map map app concat].
  rewrite IH. unfold entry_bytes. by rewrite app_assoc.
Qed.

Lemma entry_ints_vint es : Forall entry_ok es -> Forall is_vint (entry_ints es).
Proof.
  induction 1 as [|e es (H1 & H2 & _) _ IH]; [by apply Forall_nil|]. unfold entry_ints. cbn [flat_map app]. by repeat (apply Forall_cons; split).
Qed.

Lemma write_settings_spec lmem send_buf s fin : lmem (length send_buf) = true -> settings_wf s -> xqc_h3_conn_settings_validate s = Ok tt ->
  exists b, xqc_h3_frm_write_settings true junk lmem send_buf s fin = Some (Ok tt, send_buf ++ [b])
  /\ vb_bytes b = w_bytes (wire XQC_H3_FRM_SETTINGS (entries_bytes (settings_entries s))) /\ vb_fin b = fin.
Proof.
  intros Hm Hwf Hval. pose proof (validate_ok s Hwf Hval) as V. unfold xqc_h3_frm_write_settings. rewrite Hval.
  set (es := settings_entries s). pose proof (settings_entries_ok s V) as [Hes _]. fold es in Hes.
  pose proof (settings_entries_count s V) as Hc. fold es in Hc. pose proof (zlen_entries_bytes es) as Hz.
  assert (sum_len (entry_ints es) = zlen (entries_bytes es)) as Hlen by (rewrite <- zlen_vints, entries_bytes_ints; done).
  pose proof (zlen_nonneg (entries_bytes es)). assert (336 <= XQC_VINT_MAX) by by_decide. cbv zeta. rewrite Hlen.
  pose proof (put_varint_len_range (zlen (entries_bytes es))). pose proof (put_varint_len_range XQC_H3_FRM_SETTINGS).
  destruct (vint_buf_spec (xqc_put_varint_len XQC_H3_FRM_SETTINGS + xqc_put_varint_len (zlen (entries_bytes es)) + zlen (entries_bytes es))
    (XQC_H3_FRM_SETTINGS :: zlen (entries_bytes es) :: entry_ints es) fin) as (b & -> & _ & Hb & Hf).
  - apply Forall_cons. split; [by_decide|]. apply Forall_cons. split; [split; lia|by apply entry_ints_vint].
  - cbn [sum_len fold_right]. fold (sum_len (entry_ints es)). rewrite Hlen. lia.
  - lia.
  - cbn [mbind option_bind append_buf]. unfold append_buf, xqc_list_buf_to_tail. rewrite Hm. cbn [negb]. exists b. split; [done|]. split; [|done].
    rewrite Hb, wire_bytes. cbn [map concat]. by rewrite entries_bytes_ints.
Qed.

End writers.

(** ** What the other end learns *)

Section learn.

Context {Q : Type} `{!QpackOps Q}.
Context (wt : bool) (notify : option (list xqc_h3_setting_t -> Z)).

Implicit Types h : xqc_h3_conn_t Q.

(** The part of [xqc_h3_conn_on_settings_entry_received] that concerns [peer_h3_conn_settings]. *)
Definition peer_update (p : xqc_h3_conn_settings_t) (e : xqc_h3_setting_t) : xqc_h3_conn_settings_t :=
  mk_h3set
    (if fst e =? XQC_H3_SETTINGS_MAX_FIELD_SECTION_SIZE then snd e else hs_max_field_section_size p)
    (hs_qpack_enc_max_table_capacity p)
    (if fst e =? XQC_H3_SETTINGS_QPACK_MAX_TABLE_CAPACITY then snd e else hs_qpack_dec_max_table_capacity p)
    (if fst e =? XQC_H3_SETTINGS_QPACK_BLOCKED_STREAMS then snd e else hs_qpack_blocked_streams p)
    (if fst e =? XQC_H3_SETTINGS_ENABLE_CONNECT_PROTOCOL then snd e else hs_enable_connect_protocol p)
    (if fst e =? XQC_H3_SETTINGS_H3_DATAGRAM then snd e else hs_h3_datagram p)
    (hs_extern p).

Lemma entry_peer h e h' : xqc_h3_conn_on_settings_entry_received h (fst e) (snd e) = (Ok tt, h') -> hc_peer h' = peer_update (hc_peer h) e.
Proof.
  destruct e as [id v]. unfold xqc_h3_conn_on_settings_entry_received, on_qpack, peer_update. cbn [fst snd].
  destruct (id =? XQC_H3_SETTINGS_MAX_FIELD_SECTION_SIZE) eqn:E1; [zify_bools; subst id; by intros [= <-]|].
  destruct (id =? XQC_H3_SETTINGS_QPACK_MAX_TABLE_CAPACITY) eqn:E2.
  { zify_bools. subst id. destruct (fst (xqc_qpack_set_enc_max_dtable_cap _ _)); [|done]. intros [= _ <-]. done. }
  destruct (id =? XQC_H3_SETTINGS_QPACK_BLOCKED_STREAMS) eqn:E3; [zify_bools; subst id; by intros [= _ <-]|].
  destruct (id =? XQC_H3_SETTINGS_ENABLE_CONNECT_PROTOCOL) eqn:E4; [zify_bools; subst id; by intros [= <-]|].
  destruct (id =? XQC_H3_SETTINGS_H3_DATAGRAM) eqn:E5.
  { zify_bools. subst id. case_if; [done|]. by intros [= <-]. }
  intros [= <-]. by destruct (hc_peer h).
Qed.

Lemma entries_peer es : forall h h', apply_entries h es = (Ok tt, h') -> hc_peer h' = fold_left peer_update es (hc_peer h).
Proof.
  induction es as [|e es IH]; intros h h'; cbn [apply_entries fold_left]; [by intros [= <-]|].
  destruct (xqc_h3_conn_on_settings_entry_received h (fst e) (snd e)) as [[[]|x] h1] eqn:E; [|done].
  intros H. by rewrite (IH _ _ H), (entry_peer _ _ _ E).
Qed.

(** What an endpoint with the settings [s] announces. *)
Definition announced_connect (s : xqc_h3_conn_settings_t) : Z :=
  match xqc_h3_settings_find_extern s XQC_H3_SETTINGS_ENABLE_CONNECT_PROTOCOL with
  | Some e => snd e
  | None => if hs_enable_connect_protocol s =? 0 then 0 else 1
  end.

(** What the peer learns; the capacity of the other end's encoder is not announced. *)
Definition learned (s : xqc_h3_conn_settings_t) : xqc_h3_conn_settings_t :=
  mk_h3set (hs_max_field_section_size s) XQC_H3_SETTINGS_UNSET (hs_qpack_dec_max_table_capacity s) (hs_qpack_blocked_streams s)
    (announced_connect s) (xqc_h3_settings_local_h3_datagram s) [].

Definition value_or (l : list xqc_h3_setting_t) (id d : Z) : Z := match find_entry l id with Some e => snd e | None => d end.

Lemma externs_peer l : forall p, NoDup (map fst l) -> Forall (fun e => XQC_H3_SETTINGS_QPACK_BLOCKED_STREAMS < fst e) l ->
  fold_left peer_update l p
  = mk_h3set (hs_max_field_section_size p) (hs_qpack_enc_max_table_capacity p) (hs_qpack_dec_max_table_capacity p)
      (hs_qpack_blocked_streams p) (value_or l XQC_H3_SETTINGS_ENABLE_CONNECT_PROTOCOL (hs_enable_connect_protocol p))
      (value_or l XQC_H3_SETTINGS_H3_DATAGRAM (hs_h3_datagram p)) (hs_extern p).
Proof.
  induction l as [|e l IH]; intros p; [by destruct p|]. cbn [map fold_left]. intros [Hn Hnd]%NoDup_cons [Hid Hids]%Forall_cons.
  rewrite IH by done. unfold value_or. cbn [find_entry peer_update hs_max_field_section_size hs_qpack_enc_max_table_capacity
    hs_qpack_dec_max_table_capacity hs_qpack_blocked_streams hs_enable_connect_protocol hs_h3_datagram hs_extern].
  assert (find_entry l (fst e) = None) as Hf by (apply find_entry_none; intros Hin; apply Hn; by apply list_elem_of_In).
  unfold XQC_H3_SETTINGS_QPACK_BLOCKED_STREAMS, XQC_H3_SETTINGS_MAX_FIELD_SECTION_SIZE, XQC_H3_SETTINGS_QPACK_MAX_TABLE_CAPACITY in *.
  destruct (fst e =? 6) eqn:E6; [zb|]. destruct (fst e =? 1) eqn:E1; [zb|]. destruct (fst e =? 7) eqn:E7; [zb|].
  f_equal; case_if; try done; zify_bools; by rewrite <- E, Hf.
Qed.

Lemma announced_learned s : validated s -> fold_left peer_update (settings_entries s) default_peer_h3_conn_settings = learned s.
Proof.
  intros V. unfold settings_entries. rewrite !fold_left_app. rewrite externs_peer; cycle 1.
  { apply V. }
  { pose proof (v_extern _ V) as He. rewrite !Forall_forall in *. intros e Hin. by destruct (He e Hin) as [[? _] _]. }
  unfold learned, announced_connect, xqc_h3_settings_local_h3_datagram, value_or, xqc_h3_settings_find_extern.
  destruct (hs_enable_connect_protocol s =? 0) eqn:E1, (hs_h3_datagram s =? 0) eqn:E2; cbn [negb andb];
    destruct (find_entry (hs_extern s) XQC_H3_SETTINGS_ENABLE_CONNECT_PROTOCOL) as [x|];
    destruct (find_entry (hs_extern s) XQC_H3_SETTINGS_H3_DATAGRAM) as [y|]; done.
Qed.

(** The settings frame of an endpoint, received whole. *)
Lemma settings_frame_effect h s : validated s -> hc_settings_recved h = false -> hc_peer h = default_peer_h3_conn_settings ->
  exists r h', frame_effect notify (wire XQC_H3_FRM_SETTINGS (entries_bytes (settings_entries s))) h = (r, h')
  /\ ((r = Ok tt /\ hc_settings_recved h' = true /\ hc_peer h' = learned s)
      \/ (exists e, fst (apply_entries h (settings_entries s)) = Err e)
      \/ (exists f, notify = Some f /\ f (extern_entries (settings_entries s)) <> XQC_H3_SETTINGS_ACCEPT)).
Proof.
  intros V Hr Hp. set (es := settings_entries s). unfold frame_effect. cbn [wire w_type]. rewrite Z.eqb_refl. cbn [negb andb].
  unfold control_frame. cbn [final_frame f_type wire w_type]. change (XQC_H3_FRM_SETTINGS =? XQC_H3_FRM_CANCEL_PUSH) with false.
  rewrite Z.eqb_refl, Hr. unfold xqc_h3_frm_parse_setting. cbn [f_pl final_frame wire w_P pl_buf].
  assert (settings_bytes (if zlen (entries_bytes es) =? 0 then None
    else Some (mk_vb (entries_bytes es) (zlen (entries_bytes es)) (zlen (entries_bytes es)) 0 0 0)) = entries_bytes es) as ->.
  { case_if; cbn [settings_bytes]; zify_bools; [|apply sub_bytes_all]. destruct (entries_bytes es); [done|].
    rewrite zlen_cons in E. pose proof (zlen_nonneg l). lia. }
  rewrite andb_false_r, (parse_entries_bytes es) by by apply settings_entries_ok.
  destruct (apply_entries h es) as [[[]|e] h1] eqn:Ea; cycle 1.
  { eexists _, _. split; [done|]. right. left. by exists e. }
  pose proof (entries_peer _ _ _ Ea) as Hpeer. rewrite Hp in Hpeer. unfold es in Hpeer. rewrite announced_learned in Hpeer by done.
  unfold notify_extern. destruct notify as [f|] eqn:En; [|eexists _, _; split; [done|by left]].
  destruct (f (extern_entries es) =? XQC_H3_SETTINGS_REJECT) eqn:E1.
  { eexists _, _. split; [done|]. right. right. exists f. split; [done|]. zify_bools. by rewrite E1. }
  destruct (f (extern_entries es) =? XQC_H3_SETTINGS_ACCEPT) eqn:E2; [eexists _, _; split; [done|by left]|].
  eexists _, _. split; [done|]. right. right. exists f. split; [done|zb].
Qed.

End learn.

(** ** Theorems *)

(** C12: What the frames of a control stream do to the connection depends only on the frames: cut the
    stream into any pieces, and reading them piece by piece has the effect of the frames one after
    the other, up to the first that is refused, with the same error. The frames are well formed (the
    payload of CANCEL_PUSH, GOAWAY and MAX_PUSH_ID is one integer, SETTINGS has at most 4096 bytes),
    and types, lengths and identifiers may be encoded in more bytes than they need. After them may
    come DATA, HEADERS or a type that is refused, and then anything; PUSH_PROMISE is left out. Until
    SETTINGS were received two conditions hold, without which the pieces matter ([first_frame_cut]):
    the type of the first frame, if it is SETTINGS, is in one byte, and the stream does not start with
    DATA, HEADERS or a refused type. *)
Theorem control_stream_delivery {Q} `{!QpackOps Q} junk wt notify fs e chunks (h : xqc_h3_conn_t Q) :
  (forall n, 0 <= n -> zlen (junk n) = n) -> frames_ok wt fs -> ending_ok wt e -> first_ok fs e h ->
  concat chunks = stream_bytes fs e ->
  control_feed true junk wt notify chunks (xqc_h3_frm_reset_pctx, h)
  = Some (fst (apply_stream wt notify fs e h), (xqc_h3_frm_reset_pctx, snd (apply_stream wt notify fs e h))).
Proof.
  intros Hj Hfs He Hfst Hc.
  by apply (control_feed_at junk Hj wt notify e He chunks fs 0); [| |apply (stream_at_start wt)|rewrite Hc].
Qed.

(** C40: Before SETTINGS were received, the error of a control stream depends on the pieces: the test for
    SETTINGS is made although the type is not complete. A SETTINGS frame, however its type is encoded,
    has its effect when it arrives whole, and a DATA or HEADERS frame gives H3_FRAME_UNEXPECTED; a
    piece that ends inside the type of any frame, SETTINGS included, or inside the header of DATA or
    HEADERS, gives H3_MISSING_SETTINGS, whatever follows. *)
Theorem first_frame_cut {Q} `{!QpackOps Q} junk wt notify f (h : xqc_h3_conn_t Q) :
  (forall n, 0 <= n -> zlen (junk n) = n) -> hc_settings_recved h = false ->
  let feed chunks := control_feed true junk wt notify chunks (xqc_h3_frm_reset_pctx, h) in
  let missing := Some (Err XQC_H3_MISSING_SETTINGS,
                       (xqc_h3_frm_reset_pctx, XQC_H3_CONN_ERR h H3_MISSING_SETTINGS XQC_H3_MISSING_SETTINGS)) in
  (w_ok wt f -> w_type f = XQC_H3_FRM_SETTINGS ->
   feed [w_bytes f] = Some (fst (control_frame true notify (final_frame f) h),
                            (xqc_h3_frm_reset_pctx, snd (control_frame true notify (final_frame f) h))))
  /\ (is_enc (w_T f) (w_type f) ->
      forall k tail chunks, 0 < k < zlen (w_T f) -> feed (take (Z.to_nat k) (w_T f ++ tail) :: chunks) = missing)
  /\ (forall rest, ending_ok wt (End_bad f rest) -> refused wt (w_type f) = false ->
      feed [ending_bytes (End_bad f rest)]
        = Some (Err XQC_H3_CONTROL_FRAME_UNEXPECTED,
                (xqc_h3_frm_reset_pctx, XQC_H3_CONN_ERR h H3_FRAME_UNEXPECTED XQC_H3_CONTROL_FRAME_UNEXPECTED))
      /\ forall k chunks, 0 < k < zlen (w_T f) + zlen (w_L f) ->
         feed (take (Z.to_nat k) (ending_bytes (End_bad f rest)) :: chunks) = missing).
Proof.
  intros Hj Hr feed missing. split_and!.
  - intros Hok Ht. unfold feed. rewrite (whole_frame junk Hj) by done. unfold frame_effect. by rewrite Ht.
  - intros HT k tail chunks Hk. by apply cut_in_type.
  - intros rest He Hf. by apply request_first.
Qed.

(** C14: Whatever bytes the peer sends on its control stream, in whatever pieces and even if memory
    runs out, reading them ends; a SETTINGS payload is never buffered beyond 4096 bytes, SETTINGS are
    applied at most once, the GOAWAY identifier never grows, MAX_PUSH_ID never shrinks and the first
    error of the connection stays. *)
Theorem control_stream_safe {Q} `{!QpackOps Q} mem junk wt notify chunks c (h : xqc_h3_conn_t Q) :
  Forall bytes_ok chunks -> pctx_live c ->
  exists r c' h', control_feed mem junk wt notify chunks (c, h) = Some (r, (c', h')) /\ pctx_live c' /\ conn_after h h'.
Proof.
  intros Hb. revert c h. induction Hb as [|d ds Hd _ IH]; intros c h Hc; cbn [control_feed].
  { eexists _, _, _. split; [done|]. split; [done|apply (conn_after_refl h)]. }
  unfold xqc_h3_stream_process_control. cbn [fst snd].
  destruct (control_loop_safe mem junk wt notify d Hd (S (length d)) 0 c h) as (r & c1 & h1 & -> & Ha & Hl & _);
    [pose proof (zlen_nonneg d); lia|unfold zlen; lia|done|]. cbn [mbind option_bind].
  destruct r as [n|e]; [|by eexists _, _, _].
  destruct (IH c1 h1 Hl) as (r & c2 & h2 & -> & Hl2 & Ha2). eexists _, _, _. split; [done|]. split; [done|].
  by apply (conn_after_trans h h1).
Qed.

(** C13: The settings an endpoint registers are the settings its peer learns: when they are valid,
    the SETTINGS frame is written, and the peer that reads it first on the control stream, in any
    pieces, replaces its defaults with exactly the announced values, unless its QPACK or its
    application refuses them. The capacity of the writer's encoder is not announced and stays
    unset. *)
Theorem settings_exchange {Q} `{!QpackOps Q} junk wt notify lmem s fin (h : xqc_h3_conn_t Q) :
  (forall n, 0 <= n -> zlen (junk n) = n) -> lmem 0%nat = true -> settings_wf s -> xqc_h3_conn_settings_validate s = Ok tt ->
  hc_settings_recved h = false -> hc_peer h = default_peer_h3_conn_settings ->
  exists b, xqc_h3_frm_write_settings true junk lmem [] s fin = Some (Ok tt, [b]) /\
  forall chunks, concat chunks = vb_bytes b ->
  exists r h', control_feed true junk wt notify chunks (xqc_h3_frm_reset_pctx, h) = Some (r, (xqc_h3_frm_reset_pctx, h')) /\
  ((r = Ok tt /\ hc_settings_recved h' = true /\ hc_peer h' = learned s)
   \/ (exists e, fst (apply_entries h (settings_entries s)) = Err e)
   \/ (exists f, notify = Some f /\ f (extern_entries (settings_entries s)) <> XQC_H3_SETTINGS_ACCEPT)).
Proof.
  intros Hj Hm Hwf Hv Hr Hp. pose proof (validate_ok s Hwf Hv) as V.
  destruct (write_settings_spec junk Hj lmem [] s fin Hm Hwf Hv) as (b & Hw & Hby & _). exists b. split; [done|]. intros chunks Hc.
  set (f := wire XQC_H3_FRM_SETTINGS (entries_bytes (settings_entries s))) in *.
  assert (frames_ok wt [f]) as Hfs.
  { apply Forall_singleton. apply wire_settings_ok; [apply entries_bytes_ok|].
    pose proof (zlen_entries_bytes (settings_entries s)). pose proof (settings_entries_count s V). unfold XQC_H3_SETTINGS_MAX_FRAME_SIZE. lia. }
  destruct (settings_frame_effect notify h s V Hr Hp) as (r & h' & He & Hcases). exists r, h'. split; [|done].
  rewrite (control_feed_at junk Hj wt notify End_none I chunks [f] 0 _ h Hfs); [| |by apply (stream_at_start wt)|].
  - rewrite apply_stream_cons. unfold f. rewrite He. by destruct r as [[]|].
  - right. intros _. reflexivity.
  - rewrite Hc, Hby. unfold stream_bytes. cbn [map concat ending_bytes]. by rewrite !app_nil_r.
Qed.

(** ** Concrete streams *)

Definition zeros (n : Z) : list Z := repeat 0 (Z.to_nat n).

Lemma zlen_zeros n : 0 <= n -> zlen (zeros n) = n.
Proof. intros Hn. unfold zeros, zlen. rewrite repeat_length. lia. Qed.

(** A QPACK that remembers what it is told. *)
Definition note_ops : QpackOps (list (Z * Z)) := {|
  xqc_qpack_set_enc_max_dtable_cap q v := (Ok tt, q ++ [(1, v)]);
  xqc_qpack_set_dtable_cap q v := (Ok tt, q ++ [(2, v)]);
  xqc_qpack_set_max_blocked_stream q v := (Ok tt, q ++ [(3, v)]);
|}.

Definition server_settings : xqc_h3_conn_settings_t := mk_h3set 32768 4096 16384 100 1 0 [(0x33, 1); (0x2b603742, 1)].

Definition fresh_conn : xqc_h3_conn_t (list (Z * Z)) :=
  mk_h3c _ false false true 0 0 server_settings default_peer_h3_conn_settings (zeros 129) [] 0.

(** SETTINGS, a frame of an unknown type and two GOAWAYs, the second with a larger identifier, in a
    longer encoding. *)
Definition example_frames : list wframe :=
  [wire XQC_H3_FRM_SETTINGS (entries_bytes (settings_entries server_settings)); wire 0x21 [1; 2; 3];
   wire XQC_H3_FRM_GOAWAY (vbytes 8); mk_wframe XQC_H3_FRM_GOAWAY [0x40; 7] [0x40; 4] [0x80; 0; 0; 12]].

Lemma example_frames_ok wt : frames_ok wt example_frames.
Proof.
  repeat (apply Forall_cons; split); try (by apply Forall_nil).
  - apply wire_settings_ok; [apply entries_bytes_ok|by_decide].
  - split; cbn [wire w_type w_T w_L w_P]; try done; try (by apply vbytes_enc; by_decide); by_decide.
  - apply wire_vint_ok; [by_decide|done].
  - split; cbn [w_type w_T w_L w_P]; try done; try (apply vint_read_enc; [by_decide|done]); by_decide.
Qed.

(** SETTINGS and the rest, byte by byte; then SETTINGS and HEADERS. *)
Lemma control_stream_delivery_witness :
  (exists h, control_feed (QpackOps0 := note_ops) true zeros false None
      (map (fun b => [b]) (stream_bytes example_frames End_none)) (xqc_h3_frm_reset_pctx, fresh_conn)
    = Some (Err XQC_H3_INVALID_GOAWAY_ID, (xqc_h3_frm_reset_pctx, h)) /\ hc_goaway_stream_id h = 8 /\ hc_peer h = learned server_settings
    /\ hc_qpack h = [(1, 16384); (2, 4096); (3, 100)])
  /\ exists h, control_feed (QpackOps0 := note_ops) true zeros false None
      (map (fun b => [b]) (stream_bytes (take 1 example_frames) (End_bad (mk_wframe 1 [1] [5] []) [7; 7])))
      (xqc_h3_frm_reset_pctx, fresh_conn)
    = Some (Err XQC_H3_CONTROL_FRAME_UNEXPECTED, (xqc_h3_frm_reset_pctx, h)).
Proof.
  split; eexists; [split; [|split; [|split]]|].
  - rewrite (control_stream_delivery (QpackOps0 := note_ops) zeros false None example_frames End_none).
    + vm_compute. reflexivity.
    + apply zlen_zeros.
    + apply example_frames_ok.
    + done.
    + by right.
    + vm_compute. reflexivity.
  - vm_compute. reflexivity.
  - vm_compute. reflexivity.
  - vm_compute. reflexivity.
  - rewrite (control_stream_delivery (QpackOps0 := note_ops) zeros false None (take 1 example_frames)
      (End_bad (mk_wframe 1 [1] [5] []) [7; 7])).
    + vm_compute. reflexivity.
    + apply zlen_zeros.
    + apply (Forall_take _ 1), example_frames_ok.
    + split; [apply (vbytes_enc 1); by_decide|]. split; [by_decide|]. split; [by_decide|]. right.
      split; [done|]. split; [by right|]. exists 5. apply (vbytes_enc 5). by_decide.
    + by right.
    + vm_compute. reflexivity.
Defined.

Lemma first_frame_cut_witness :
  let feed chunks := control_feed (QpackOps0 := note_ops) true zeros false None chunks (xqc_h3_frm_reset_pctx, fresh_conn) in
  fst <$> feed [[0x40; 4; 0]] = Some (Ok tt) /\ fst <$> feed [[0x40]; [4; 0]] = Some (Err XQC_H3_MISSING_SETTINGS).
Proof.
  intros feed.
  destruct (first_frame_cut (QpackOps0 := note_ops) zeros false None (mk_wframe XQC_H3_FRM_SETTINGS [0x40; 4] [0] [])
    fresh_conn zlen_zeros eq_refl) as (H1 & H2 & _).
  assert (is_enc [0x40; 4] XQC_H3_FRM_SETTINGS) as HT by (apply vint_read_enc; [by_decide|done]).
  split.
  - unfold feed. change [0x40; 4; 0] with (w_bytes (mk_wframe XQC_H3_FRM_SETTINGS [0x40; 4] [0] [])). rewrite H1; [reflexivity| |done].
    split; cbn [w_type w_T w_L w_P]; try done; [apply (vbytes_enc 0)|]; by_decide.
  - pose proof (H2 HT 1 [] [[4; 0]] ltac:(by_decide)) as H. change (feed [[0x40]; [4; 0]] = Some (Err XQC_H3_MISSING_SETTINGS,
      (xqc_h3_frm_reset_pctx, XQC_H3_CONN_ERR fresh_conn H3_MISSING_SETTINGS XQC_H3_MISSING_SETTINGS))) in H. by rewrite H.
Defined.

Lemma control_stream_safe_witness :
  exists r c' h', control_feed (QpackOps0 := note_ops) true zeros false None [[4; 0]; [7; 1; 5]; [0x0d; 1; 0; 0xff]] (xqc_h3_frm_reset_pctx, fresh_conn)
    = Some (r, (c', h')) /\ pctx_live c' /\ conn_after fresh_conn h'.
Proof. apply (control_stream_safe (QpackOps0 := note_ops)); [by_decide|by_decide]. Defined.

Lemma settings_exchange_witness :
  exists b, xqc_h3_frm_write_settings true zeros (fun _ => true) [] server_settings 0 = Some (Ok tt, [b]) /\
  forall chunks, concat chunks = vb_bytes b ->
  exists r h', control_feed (QpackOps0 := note_ops) true zeros false None chunks (xqc_h3_frm_reset_pctx, fresh_conn) = Some (r, (xqc_h3_frm_reset_pctx, h')) /\
  ((r = Ok tt /\ hc_settings_recved h' = true /\ hc_peer h' = learned server_settings)
   \/ (exists e, fst (apply_entries (QpackOps0 := note_ops) fresh_conn (settings_entries server_settings)) = Err e)
   \/ (exists f, None = Some f /\ f (extern_entries (settings_entries server_settings)) <> XQC_H3_SETTINGS_ACCEPT)).
Proof.
  apply (settings_exchange (QpackOps0 := note_ops) zeros false None (fun _ => true) server_settings 0 fresh_conn zlen_zeros);
    [reflexivity|by_decide|vm_compute; reflexivity|reflexivity|reflexivity].
Defined.

(** ** What a frame's encoding changes *)

(** A PUSH_PROMISE of three bytes whose push id takes two: a byte of the next frame is taken as well. *)
Lemma push_promise_overread :
  fst (xqc_h3_frm_parse true zeros false [5; 3; 0x40; 1; 0xaa; 0; 0] xqc_h3_frm_reset_pctx) = Ok 6.
Proof. vm_compute. reflexivity. Qed.

(** The stream type frame ends with its integer, whatever its length says. *)
Lemma bidi_length_ignored :
  fst (xqc_h3_frm_parse true zeros false [0x20; 5; 1; 9; 9; 9; 9] xqc_h3_frm_reset_pctx) = Ok 3.
Proof. vm_compute. reflexivity. Qed.

End H3SettingsSpec.
